(* ===== verification/_CoqProject ===== *)
-Q . S2P
Prelude.v
RustStr.v
Contracts.v
Json.v
Errors.v
Policy.v
PolicyConc.v
AuditSinks.v
Plane.v
Kernel.v
KernelProps.v
Governance.v
TaskSupervisor.v
Integration.v
Architecture.v
Fs.v
Plugin.v
PluginIR.v
Bootstrap.v
Awareness.v
Evolution.v
EvolutionProps.v
Protocol.v
ProtocolProps.v
Programmatic.v
Circuit.v
Scheduler.v
SchedulerProps.v
Resilience.v
PlanGraph.v
PlanExecutor.v
PlanExecutorProps.v
ConversationConfig.v
LaneArbiter.v
PlanVerifier.v
Turn.v
SafeLaneFailure.v
SafeLanePolicy.v
SafeLaneRoute.v
SafeLane.v
SafeLanePlan.v
SafeLaneProps.v
ToolRuntimeConfig.v
WebPolicy.v
WebFetch.v
ToolCatalog.v
ToolNames.v
ToolLease.v
ToolSchemas.v
FeishuSchemas.v
ToolSearch.v
ToolDispatch.v
ShellPolicy.v
Paths.v
FileTool.v
Ingress.v
TurnEngine.v
TurnEngineProps.v
SessionDb.v
SessionRepo.v
ToolConfig.v
Approvals.v
Subagent.v
Delegation.v
SessionTools.v
AppTools.v
SessionLaws.v
AppToolLaws.v
AppRuntime.v
SessionRepoProps.v
ApprovalProps.v
DelegationProps.v
Workflow.v
SpecApproval.v
SpecScan.v
SpecBridge.v
SpecRun.v
SpecSearch.v
SpecExec.v
