(* ===== verification/Prelude.v ===== *)
(** * The LoongClaw governance core, verified

    LoongClaw runs AI agents under a policy kernel. An agent holds a
    capability token for a vertical pack; everything it does (a task for a
    harness, a connector call, a runtime, tool or memory operation) goes
    through the kernel, which checks the pack's grants, asks the policy engine
    and the chain of policy extensions, runs the adapter and records what
    happened. Around the kernel sit the integration catalog with its
    auto-provisioning planner, the plugin pipeline (scan, translate, plan,
    bootstrap), the codebase awareness snapshot, the architecture guard, the
    self-modification engine and the wire protocol; the scenario runner admits
    a scenario through a chain of gates (approval, bridge policy, plugin
    bootstrap and security scan), bridges connector calls to WebAssembly
    modules, HTTP services and child processes, and drives the kernel with
    programs of connector calls that run under retries, rate limits and circuit
    breakers. The application on top holds conversations: a
    provider answers a turn with tool intents, a lane arbiter chooses the fast
    or the safe lane, the turn engine admits and runs the intents, the safe
    lane runs them as a plan with budgets, verification and replanning, the
    core tools reach files, the shell and the web through the kernel, and the
    application tools work on the session database: they list, wait for,
    recover, cancel and archive sessions, delegate tasks to child sessions and
    resolve the approval requests that governed tools leave there. This
    development models the crates [contracts], [kernel] and [protocol], the
    scenario runner [spec] and, of [app], the safe lane, the turn engine, the
    governed tools, the session repository, approvals and delegation
    (src/crates), and proves what makes them correct.

    ** How the code is modelled

    - Pure functions are Rocq functions; [Result] is [result] and [?] is its
      bind. Stateful code is [ST S E A], a function from a state to a result
      and a state: an error keeps the effects made before it, as in the source.
    - Code behind a trait or outside the repository is a parameter: policy
      engines are a class ([PolicyEngine], with [PolicyEngineLaws] for what the
      kernel relies on and [StaticPolicyEngine] as the instance that
      discharges it), audit sinks are functions ([Journal] is the law, the
      in-memory sink an instance), adapters, extensions, clocks and the
      evolution executor are arbitrary transformers of an environment type [W],
      the semver and JSON parsers, Unicode lower-casing and the file system are
      section variables. Theorems hold for every choice of them; each theorem
      with a hypothesis is applied to a concrete system in a [..Demo] module.
    - Integers are [Z] with the width written out: [wrap64] and [wrap32] for
      wrapping arithmetic (release builds), [sat_add] for [saturating_add].
      Strings are byte strings, valid UTF-8 where the source has [String].
      [BTreeMap] and [BTreeSet] are [gmap] and [gset]; where the iteration
      order matters it is their sorted order ([btree_entries]).
    - Async methods are modelled as atomic calls; where interleaving matters
      there are step relations or runs of single operations: [PolicyConc.v]
      splits the policy engine's calls into their atomic accesses, the channel
      transport of [Protocol.v] interleaves senders, receivers and closing,
      [Circuit.v] runs the locked operations of any number of tasks on the
      shared breaker and rate maps, [Scheduler.v] lets the calls of a batch
      complete in any order with any result, and a parallel tool batch of
      [TurnEngine.v] finishes in an order the environment chooses.
    - The database is a record of tables ([SessionDb.v]). Every statement first
      asks an environment [DbEnv], which may make it fail and may let other
      connections write; a transaction is one statement block that takes effect
      as a whole or not at all. [quiet] environments do neither; a theorem says
      which environments it is for.
    - [f64] values are the Standard Library's specification floats at binary64.
    - JSON values are [Value] of [Contracts.v]; objects keep their fields in
      key order, as [serde_json] without [preserve_order] does.
    - Conditional compilation follows the default features of the [app] crate.
    - Recursion is structural except where a definition takes fuel, and each
      fuel is shown to be enough: directory walks ([Plugin.scan_terminates]),
      the JSON line reader (the length of its input plus one,
      [ProtocolProps.recv_loop_total]), the fill loop of the scheduler (the
      pending calls), Kahn's traversal (the number of nodes,
      [PlanGraph.validate_walk_walk]), the rounds of the safe lane
      ([SafeLaneProps.safe_lane_turn_ends_within_budgets] gives the bound), the
      redirects of web.fetch (one more than the limit), the links followed by
      the file system (the kernel's limit of forty), the recursion of
      required capabilities (one level, [ToolNames.invoke_recursion_is_one_level]),
      the walk up a lineage (the number of sessions plus two, since a repeated
      session ends it, [SessionRepoProps.visibility_check_agrees_with_the_listing]),
      the pages of an event query (the number of events plus one,
      [SessionRepoProps.event_pages_equal_one_query]), the placeholders of a
      text (its length, [Workflow.render_fuel]), the polls of session_wait
      (one per millisecond, [DelegationProps.session_wait_ends]), the
      evictions of the module cache (its queue, plus one) and the walks of an
      admission ([SpecRun.admission_answers]).

    ** The files

    Shared vocabulary
    - [Prelude]: results, the state monad, machine integers, step closures,
      stable sorting, cells (lenses) for shared state, the iteration order of
      ordered maps and sets, tactics and hints.
    - [RustStr]: the standard library's string operations on UTF-8 bytes.
    - [Fs]: paths and the directory walk shared by two components.
    - [Json]: binary64 arithmetic, readers and writers of JSON values.

    Contracts (src/crates/contracts/src)
    - [Contracts]: contracts.rs, the plane request types, audit_types.rs,
      policy_types.rs, namespace.rs, clock.rs, pack.rs.
    - [Errors]: errors.rs. fault.rs and task_state.rs are in [TaskSupervisor].

    Kernel (src/crates/kernel/src)
    - [Policy], [PolicyConc]: policy.rs, sequentially and under concurrency,
      and policy_ext.rs.
    - [AuditSinks]: audit.rs. [Plane]: connector.rs, runtime.rs, tool.rs and
      memory.rs, one text instantiated four times, and harness.rs.
    - [Kernel]: LoongClawKernel of kernel.rs, every method. [KernelProps]:
      the nine execute methods are one pipeline, runs and the representation
      invariant. [Governance]: the built handle Kernel and the guarantees.
    - [TaskSupervisor]: task_supervisor.rs. [Integration]: integration.rs.
      [Architecture]: architecture.rs. [Plugin], [PluginIR], [Bootstrap]:
      plugin.rs, plugin_ir.rs, bootstrap.rs. [Awareness]: awareness.rs.
      [Evolution], [EvolutionProps]: evolution.rs and evolution_types.rs.

    Protocol (src/crates/protocol/src/lib.rs)
    - [Protocol], [ProtocolProps]: routing, authorization and transports.

    Scenario runner (src/crates/spec/src)
    - [SpecApproval]: spec_execution/approval_policy.rs. [SpecScan]: the
      security scan of plugins and the bridge support policy. [SpecRun]:
      execute_spec of spec_execution.rs up to the connectors it registers, with
      everything that can block a scenario. [SpecExec]: the rest of it over the
      kernel of kernel_bootstrap.rs with the built-in adapters, every
      operation, and the theorems on whole runs. [SpecSearch]:
      spec_execution/tool_search.rs.
    - [SpecBridge]: the bridges of spec_runtime.rs, spec_runtime/ and
      spec_bridge_protocol.inc.rs with the module cache and the dynamic
      catalog connector.
    - [Programmatic] (programmatic.rs and its types): policies, defaults and
      validation. [Circuit]: circuit
      breakers and rate limits. [Scheduler], [SchedulerProps]: parallel
      batches. [Resilience]: one call with retries, over the kernel's connector
      dispatch. [Workflow]: the interpreter of workflows: steps, placeholders,
      provenance, serial and parallel batches.

    Conversation (src/crates/app/src/conversation, config/conversation.rs)
    - [PlanGraph], [PlanExecutor], [PlanExecutorProps]: plan_ir.rs and
      plan_executor.rs with an abstract semantics of plans.
    - [ConversationConfig], [LaneArbiter], [PlanVerifier]: the configuration,
      lane_arbiter.rs, plan_verifier.rs.
    - [Turn], [SafeLaneFailure]: the results of turns (turn_engine.rs) with
      turn_budget.rs, safe_lane_failure.rs.
    - [SafeLanePolicy], [SafeLaneRoute], [SafeLane]: the safe lane of
      turn_coordinator.rs: session governor, plans and routes, rounds.
      [SafeLanePlan], [SafeLaneProps]: its theorems.
    - [Ingress]: ingress.rs. [TurnEngine], [TurnEngineProps]: turn_engine.rs
      over an arbitrary application tool dispatcher.

    Sessions, approvals and delegation (src/crates/app/src/session, tools and
    conversation)
    - [SessionDb], [SessionRepo]: the tables of memory/sqlite.rs that
      session/repository.rs uses, and every operation of the repository.
      [SessionLaws]: what every operation keeps of the tables.
      [SessionRepoProps]: visibility, pages, the limit on children.
    - [SessionTools]: tools/session.rs. [Approvals]: tools/approval.rs.
      [AppTools]: the dispatchers of turn_engine.rs and turn_coordinator.rs with
      the approval gate, resolution and replay. [AppToolLaws]: they keep the
      laws of the tables. [AppRuntime]: the turn engine on top of them.
      [ApprovalProps]: the theorems on approvals.
    - [Subagent], [Delegation]: subagent.rs, session/mod.rs, recovery.rs,
      tools/delegate.rs, and the delegation parts of turn_coordinator.rs and
      runtime.rs. [DelegationProps]: the theorems on children and waiting.

    Tools (src/crates/app/src/tools)
    - [ToolRuntimeConfig]: runtime_config.rs. [ToolConfig]: config/tools.rs and
      how the runtime configuration is made from it. [ToolCatalog], [ToolSchemas]:
      catalog.rs. [FeishuSchemas]: the schemas of feishu.rs.
    - [ToolNames], [ToolLease], [ToolSearch], [ToolDispatch]: mod.rs and
      kernel_adapter.rs: names and capabilities, leases, search, dispatch
      through the kernel.
    - [WebPolicy], [WebFetch]: web_fetch.rs and the address filter of
      web_http.rs. [ShellPolicy]: shell.rs and shell_policy_ext.rs.
    - [Paths]: normalization of paths and a file system with symbolic links.
      [FileTool]: file.rs and file_policy_ext.rs.

    ** What is proved

    - Governance: a dispatch succeeds only through every gate (pack, grants,
      token, expiry, extensions) and leaves its audit events; refusals are
      audited and reach no adapter; requests outside the pack touch nothing;
      tokens never exceed their pack, work when fresh and never again once
      revoked; every run keeps the kernel well formed; building freezes the
      configuration.
    - Concurrency: token ids are unique and revocation is permanent under
      every interleaving of the engine's atomic accesses; a token issued while
      no revocation is in flight is not born revoked.
    - Tasks: a supervised task reaches the kernel once and follows the
      documented life cycle.
    - Provisioning: plans always exist, satisfy the request, are idempotent
      and minimal.
    - Boundary guard: a path is allowed exactly inside a mutable and outside
      every immutable prefix, and reports account for every path.
    - Plugins: manifests round-trip through comments, scans terminate and
      report exactly the visible manifests, absorption is all or nothing,
      activation plans and bootstrap reports are exact.
    - Awareness: the fingerprint ignores directory order and detects every
      single-byte change.
    - Evolution: a change is kept only after guard and verification, a failed
      one is reset, protected files are skipped, sessions respect their limit
      and scan sessions only observe; a denied autofix is left in the tree.
    - Protocol: names, routes and authorization are decided exactly as
      documented, channels deliver in order within capacity, JSON lines
      round-trip.
    - Connector programs: a breaker refuses requests exactly after its threshold of
      consecutive failures, whatever is interleaved, admits nobody while it cools down and recovers
      afterwards; released calls are spaced by the rate limit; backoff is
      exponential and capped; a batch runs every call once within its adaptive
      budget and starves no priority class; and a call that succeeds after any
      number of retries passed the kernel's gates.
    - Scenarios: an admitted scenario passed the approval guard, its pinned
      bridge policy, the architecture guard, the bootstrap policy and the
      security scan, whose verdict is characterized exactly; a denied call is
      refused in every mode and a risky operation needs consent wherever in its
      payload the risk is. A run
      of a whole scenario, from the bytes of its plugins to its report: every
      effect of a bridge comes from a connector of the admitted catalog and is
      justified by its configuration, a scenario that is not admitted has none,
      and a report that is not blocked stands for an operation within the grants
      of its pack. Tool search shows the best matches in order.
    - Bridges: the module cache is a least-recently-used cache within its
      limits; a module that runs was read inside the allowed prefixes, within
      the size limit and with every pinned digest; effects go only through an
      enabled channel, an allowed caller and a bridge that is switched on.
    - Workflows: a workflow makes at most its budget of calls, each once, to
      allowed connectors and marked with its caller and step; every step is
      bound once, under a name that is not blank, and sees the outputs of the
      steps before it; a batch reports for each call what its invocation
      returned, in the order of the program.
    - Plans: validation accepts exactly the well-formed acyclic plans within
      budget; execution refines a semantics of plans in which nodes run after
      their dependencies, attempts are bounded and denials are final.
    - Safe lane: a turn ends within its rounds and attempts whatever the tools
      do; a successful reply has one answer per tool, in order, across
      replans; a denied tool ends the turn; routes of failures and the events
      of a turn are exact; a plan is valid exactly up to its sixteen nodes.
    - Turn engine: a turn is admitted exactly when each intent is one the
      session may call; batches are cut into maximal runs of one scheduling
      class; parallel batches answer as sequential ones when their tools do not
      interfere.
    - Tools: what runs behind the kernel, directly or through tool.invoke, is
      covered by the capabilities of token and pack; leases open exactly the
      tool, catalogue, binding and time they were issued for; search reveals
      only tools that are visible, usable and granted; the catalogue's tables
      agree with the schemas except for the tools listed.
    - Web: every url contacted passed the domain rules and the address filter,
      which is the list of special-purpose blocks; narrowing never widens.
    - Shell and files: both shell gates decide alike and only allowed commands
      are launched; file tools read and change only files inside their root,
      given that no dangling link is in the way.
    - Sessions: whatever the tool calls of a turn do, under failing statements
      and other lawful connections, sessions keep their identity and end once,
      events are only added and approval requests follow their life cycle; a
      session with a row sees exactly the sessions it lists; pages of events are
      the whole query; the number of active children stays within its limit.
    - Approvals: a governed application tool gets ready to run only when the
      configuration allows it or the root of the lineage holds a grant; a
      request is resolved once; an approval for always covers the lineage of the
      session that asked; what is replayed is what was asked for.
    - Delegation: a delegate call that returns has ended its child; a child in
      the background runs under the configured narrowing; waiting ends.
    - Where the code falls short there are theorems that say so, for example
      [DelegationProps.DelegationDemo.context_fails_open],
      [DelegationProps.DelegationDemo.failed_summary_strands_the_child],
      [ShellPolicy.denied_command_runs_behind_an_operator],
      [FileTool.write_through_dangling_link_escapes],
      [FileTool.file_policy_ignores_tool_invoke],
      [TurnEngineProps.narrowed_session_core_tools_refused],
      [WebFetch.oversize_body_is_returned],
      [SpecRun.SpecRunDemo.preset_path_runs_an_unscanned_module],
      [SpecRun.SpecRunDemo.preset_id_evades_the_required_pin],
      [SpecBridge.SpecBridgeDemo.stalled_write_leaves_the_child],
      [SpecSearch.loaded_tools_match_every_query].

    ** What is not modelled

    - serde and thiserror derives (Display texts are written out, JSON codecs
      are parameters); the host clock and file system.
    - Of [spec]: the loading of bundled profiles and the hooks of the tests.
      The WebAssembly engine, the HTTP client, child processes, signatures and
      the executor of native tools are parameters.
    - Of [app]: execution traces, the coordination of provider round trips
      outside the safe lane, the browser, search, skills, messaging and
      migration tools, configuration files, providers, channels and
      conversation memory (network, database and terminal I/O around smaller
      decisions).
    - The crates [daemon] (command line) and [bench]. *)
From stdpp Require Export prelude gmap strings list pretty sorting.
From Stdlib Require Export ZArith Lia.

(** ** Rust's [Result]

    The error type comes first so that [result E] is a monad; the [?]
    operator of the source is the monadic bind. *)
Inductive result (E A : Type) : Type :=
| Ok (a : A)
| Err (e : E).
Arguments Ok {E A} _.
Arguments Err {E A} _.

#[export] Instance result_eq_dec `{EqDecision E, EqDecision A} : EqDecision (result E A).
Proof. solve_decision. Defined.

#[export] Instance result_ret {E} : MRet (result E) := λ _ a, Ok a.

#[export] Instance result_bind {E} : MBind (result E) := λ _ _ f r,
  match r with Ok a => f a | Err e => Err e end.

#[export] Instance result_fmap {E} : FMap (result E) := λ _ _ f r,
  match r with Ok a => Ok (f a) | Err e => Err e end.

(** [Result::map_err] *)
Definition map_err {E E' A} (f : E → E') (r : result E A) : result E' A :=
  match r with Ok a => Ok a | Err e => Err (f e) end.

(** [Option::ok_or] *)
Definition ok_or {E A} (o : option A) (e : E) : result E A :=
  match o with Some a => Ok a | None => Err e end.

Definition is_ok {E A} (r : result E A) : bool :=
  match r with Ok _ => true | Err _ => false end.

Lemma bind_Ok {E A B} (r : result E A) (f : A → result E B) b :
  r ≫= f = Ok b ↔ ∃ a, r = Ok a ∧ f a = Ok b.
Proof. destruct r; naive_solver. Qed.

Lemma bind_Err {E A B} (r : result E A) (f : A → result E B) e :
  r ≫= f = Err e ↔ r = Err e ∨ ∃ a, r = Ok a ∧ f a = Err e.
Proof. destruct r; naive_solver. Qed.

Lemma map_err_Ok {E E' A} (f : E → E') (r : result E A) a :
  map_err f r = Ok a ↔ r = Ok a.
Proof. destruct r; naive_solver. Qed.

Lemma ok_or_Ok {E A} (o : option A) (e : E) a : ok_or o e = Ok a ↔ o = Some a.
Proof. destruct o; naive_solver. Qed.

(** ** Stateful fallible code

    [ST S E A] is a computation over the state [S] that returns a
    [Result<A, E>]; a failing computation keeps the state it reached, as a
    Rust method with [&self] and interior mutability does. *)
Definition ST (S E A : Type) : Type := S → result E A * S.

#[export] Instance st_ret {S E} : MRet (ST S E) := λ _ a s, (Ok a, s).

#[export] Instance st_bind {S E} : MBind (ST S E) := λ _ _ f m s,
  match m s with
  | (Ok a, s') => f a s'
  | (Err e, s') => (Err e, s')
  end.

#[export] Instance st_fmap {S E} : FMap (ST S E) := λ _ _ f m s,
  match m s with
  | (Ok a, s') => (Ok (f a), s')
  | (Err e, s') => (Err e, s')
  end.

(** A pure [Result] used inside a stateful computation. *)
Definition lift {S E A} (r : result E A) : ST S E A := λ s, (r, s).

(** [return Err(e)] *)
Definition throw {S E A} (e : E) : ST S E A := λ s, (Err e, s).

(** An infallible operation of the environment. *)
Definition act {S E A} (f : S → A * S) : ST S E A := λ s,
  let '(a, s') := f s in (Ok a, s').

(** [map_err(f)] applied to the result of a stateful call. *)
Definition st_map_err {S E E' A} (f : E → E') (m : ST S E A) : ST S E' A := λ s,
  let '(r, s') := m s in (map_err f r, s').

Lemma st_bind_Ok {S E A B} (m : ST S E A) (f : A → ST S E B) s b s' :
  (m ≫= f) s = (Ok b, s') ↔ ∃ a s1, m s = (Ok a, s1) ∧ f a s1 = (Ok b, s').
Proof. unfold mbind, st_bind. destruct (m s) as [[a|e] s1]; naive_solver. Qed.

Lemma st_bind_Err {S E A B} (m : ST S E A) (f : A → ST S E B) s e s' :
  (m ≫= f) s = (Err e, s') ↔
    m s = (Err e, s') ∨ ∃ a s1, m s = (Ok a, s1) ∧ f a s1 = (Err e, s').
Proof. unfold mbind, st_bind. destruct (m s) as [[a|e'] s1]; naive_solver. Qed.

Lemma st_bind_run {S E A B} (m : ST S E A) (f : A → ST S E B) s :
  (m ≫= f) s = match m s with (Ok a, s1) => f a s1 | (Err e, s1) => (Err e, s1) end.
Proof. done. Qed.

Lemma st_map_err_Ok {S E E' A} (f : E → E') (m : ST S E A) s a s' :
  st_map_err f m s = (Ok a, s') ↔ m s = (Ok a, s').
Proof. unfold st_map_err. destruct (m s) as [[?|?] ?]; naive_solver. Qed.

Lemma st_map_err_Err {S E E' A} (f : E → E') (m : ST S E A) s e' s' :
  st_map_err f m s = (Err e', s') ↔ ∃ e, m s = (Err e, s') ∧ e' = f e.
Proof. unfold st_map_err. destruct (m s) as [[?|?] ?]; naive_solver. Qed.

(** Iterating a stateful action over a list, stopping at the first error:
    [for x in xs { f(x)?; }]. *)
Fixpoint for_each {S E A} (f : A → ST S E unit) (xs : list A) : ST S E unit :=
  match xs with
  | [] => mret ()
  | x :: xs => f x ≫= λ _, for_each f xs
  end.

(** A loop over a list that updates local variables and may return an error:
    [for x in xs { .. }] with early [return Err(..)]. *)
Fixpoint try_fold {E A B} (f : A → B → result E A) (a : A) (xs : list B) : result E A :=
  match xs with
  | [] => Ok a
  | x :: xs => f a x ≫= λ a, try_fold f a xs
  end.

(** Such a loop succeeds when an invariant makes every step succeed. *)
Lemma try_fold_Ok {E A B} (f : A → B → result E A) (a a' : A) (x : B) xs :
  try_fold f a (x :: xs) = Ok a' ↔ ∃ a1, f a x = Ok a1 ∧ try_fold f a1 xs = Ok a'.
Proof. apply bind_Ok. Qed.

(** ** Formatting traits *)

(** [std::fmt::Display], the [{}] placeholder. *)
Class Display (A : Type) := display : A → string.
#[global] Hint Mode Display ! : typeclass_instances.

(** [std::fmt::Debug], the [{:?}] placeholder. *)
Class Debug (A : Type) := debug : A → string.
#[global] Hint Mode Debug ! : typeclass_instances.

#[export] Instance display_string : Display string := λ s, s.

(** Integers print in decimal. *)
#[export] Instance display_Z : Display Z := λ n, pretty n.

(** ** Machine integers

    [u64], [u32], [usize] and [i64] values are integers kept in range by the
    operations of the source. [usize] is 64 bits wide on the supported
    targets. *)
Definition u64_max : Z := 2 ^ 64 - 1.
Definition u32_max : Z := 2 ^ 32 - 1.

Definition is_u64 (n : Z) : Prop := (0 ≤ n ≤ u64_max)%Z.

(** [u64::saturating_add] *)
Definition sat_add (x y : Z) : Z := Z.min (x + y) u64_max.

(** [saturating_sub] and [saturating_mul] *)
Definition sat_sub (x y : Z) : Z := Z.max 0 (x - y).
Definition sat_mul (x y : Z) : Z := Z.min u64_max (x * y).

(** [saturating_add] at [u32] and [u8]. *)
Definition u8_max : Z := 2 ^ 8 - 1.
Definition sat_mul32 (x y : Z) : Z := Z.min u32_max (x * y).
Definition sat_add32 (x y : Z) : Z := Z.min (x + y) u32_max.
Definition sat_add8 (x y : Z) : Z := Z.min (x + y) u8_max.

(** Wrapping 64-bit arithmetic: atomics ([fetch_add]) and [wrapping_mul]. *)
Definition wrap64 (x : Z) : Z := (x mod 2 ^ 64)%Z.

(** [as u32] *)
Definition wrap32 (x : Z) : Z := (x mod 2 ^ 32)%Z.

(** Two's complement reading of 64 bits: [as i64] and wrapping [i64]
    arithmetic. *)
Definition to_i64 (x : Z) : Z := ((x + 2 ^ 63) mod 2 ^ 64 - 2 ^ 63)%Z.

Lemma is_u64_pow n : is_u64 n ↔ (0 ≤ n < 2 ^ 64)%Z.
Proof. unfold is_u64, u64_max. lia. Qed.

Lemma wrap64_range x : is_u64 (wrap64 x).
Proof. apply is_u64_pow, Z.mod_pos_bound. lia. Qed.

Lemma wrap64_small x : is_u64 x → wrap64 x = x.
Proof. intros ?%is_u64_pow. by apply Z.mod_small. Qed.

Lemma sat_add_range x y : is_u64 x → is_u64 y → is_u64 (sat_add x y).
Proof. unfold is_u64, sat_add, u64_max. lia. Qed.

Lemma sat_add_small x y : (x + y ≤ u64_max)%Z → sat_add x y = (x + y)%Z.
Proof. unfold sat_add. lia. Qed.

Lemma sat_add_le x y : (0 ≤ y)%Z → is_u64 x → (x ≤ sat_add x y)%Z.
Proof. unfold is_u64, sat_add, u64_max. lia. Qed.

Lemma sat_add_le_max x y : (sat_add x y ≤ u64_max)%Z.
Proof. unfold sat_add. lia. Qed.

(** [vec.len()] *)
Definition len {A} (l : list A) : Z := Z.of_nat (length l).

Lemma len_app {A} (l k : list A) : len (l ++ k) = (len l + len k)%Z.
Proof. unfold len. rewrite length_app. lia. Qed.

Lemma len_nonneg {A} (l : list A) : (0 ≤ len l)%Z.
Proof. unfold len. lia. Qed.

Lemma len_cons {A} (x : A) l : len (x :: l) = (1 + len l)%Z.
Proof. unfold len. cbn [length]. lia. Qed.

Lemma len_nil {A} : len (@nil A) = 0%Z.
Proof. done. Qed.

#[export] Instance len_Permutation {A} : Proper ((≡ₚ) ==> eq) (@len A).
Proof. intros l k H. unfold len. by rewrite H. Qed.

(** ** Automation *)

Create HintDb loong.
#[export] Hint Resolve wrap64_range sat_add_range sat_add_le_max len_nonneg : loong.
Create Rewrite HintDb loong_len.
#[export] Hint Rewrite @len_app @len_cons @len_nil : loong_len.

(** Inversion of successful and failing computations: decomposes every
    monadic step recorded in the hypotheses. *)
Ltac run_inv1 :=
  match goal with
  | H : (_, _) = (_, _) |- _ => simplify_eq H
  | H : (mbind _ _) _ = (Ok _, _) |- _ =>
      apply st_bind_Ok in H; destruct H as (? & ? & ? & H)
  | H : (mbind _ _) _ = (Err _, _) |- _ =>
      apply st_bind_Err in H; destruct H as [H | (? & ? & ? & H)]
  | H : st_map_err _ _ _ = (Ok _, _) |- _ => apply st_map_err_Ok in H
  | H : st_map_err _ _ _ = (Err _, _) |- _ =>
      apply st_map_err_Err in H; destruct H as (? & H & ?)
  | H : lift _ _ = (_, _) |- _ => unfold lift in H
  | H : throw _ _ = (_, _) |- _ => unfold throw in H
  | H : mret _ _ = (_, _) |- _ => unfold mret, st_ret in H
  | H : mbind _ _ = Ok _ |- _ => apply bind_Ok in H; destruct H as (? & ? & H)
  | H : map_err _ _ = Ok _ |- _ => apply map_err_Ok in H
  | H : ok_or _ _ = Ok _ |- _ => apply ok_or_Ok in H
  end.
Ltac run_inv := repeat (run_inv1; simplify_eq/=).

(** ** Transition systems *)

(** Reflexive transitive closure, steps added at the end: the shape of the
    inductions over runs. *)
Inductive steps {A} (R : A → A → Prop) (x : A) : A → Prop :=
| steps_refl : steps R x x
| steps_snoc y z : steps R x y → R y z → steps R x z.
#[export] Hint Constructors steps : loong.

Lemma steps_invariant {A} (R : A → A → Prop) (I : A → Prop) x y :
  (∀ a b, I a → R a b → I b) → I x → steps R x y → I y.
Proof. intros HR Hx. induction 1; eauto. Qed.

Lemma steps_trans {A} (R : A → A → Prop) x y z : steps R x y → steps R y z → steps R x z.
Proof. intros Hxy. induction 1; eauto with loong. Qed.

(** ** Lists *)

(** A counter that saturates counts the list. *)
Lemma sat_count {A} (l : list A) n : is_u64 n → foldl (λ n _, sat_add n 1) n l = sat_add n (len l).
Proof.
  revert n. induction l as [|x l IH]; intros n Hn; simpl.
  - unfold sat_add, len. unfold is_u64, u64_max in *. simpl. lia.
  - rewrite IH by (unfold is_u64, sat_add, u64_max in *; lia).
    rewrite len_cons. pose proof (len_nonneg l). unfold sat_add, is_u64, u64_max in *. lia.
Qed.

Lemma foldl_map_fn {A B C} (f : C → B → C) (g : A → B) (l : list A) c :
  foldl (λ c a, f c (g a)) c l = foldl f c (g <$> l).
Proof. revert c. induction l as [|x l IH]; intros c; [done|]. apply IH. Qed.

Lemma sat_add_snoc {A} (ds : list A) d : sat_add (sat_add 0 (len ds)) 1 = sat_add 0 (len (ds ++ [d])).
Proof. rewrite len_app. pose proof (len_nonneg ds). unfold sat_add, len, u64_max. simpl. lia. Qed.

(** Nothing fails the test exactly when everything passes it. *)
Lemma filter_not_nil {A} (P : A → Prop) `{∀ x, Decision (P x)} (l : list A) :
  filter (λ x, ¬ P x) l = [] ↔ Forall P l.
Proof.
  induction l as [|x l IH]; [done|]. rewrite filter_cons, Forall_cons. case_decide; naive_solver.
Qed.

Lemma len_zero {A} (l : list A) : (len l ≤ 0)%Z ↔ l = [].
Proof. destruct l; [done|]. rewrite len_cons. pose proof (len_nonneg l). split; [lia|done]. Qed.

Lemma sat_len_zero {A} (l : list A) : (sat_add 0 (len l) ≤ 0)%Z ↔ l = [].
Proof. rewrite <-len_zero. unfold sat_add, u64_max. lia. Qed.

(** Replacing an element the filter skipped by one it keeps adds that
    element. *)
Lemma omap_insert_fresh {A B} (f : A → option B) (l : list A) i x y b :
  l !! i = Some x → f x = None → f y = Some b → omap f (<[i:=y]> l) ≡ₚ b :: omap f l.
Proof.
  intros Hi Hx Hy. rewrite (insert_take_drop l i y) by (by eapply lookup_lt_Some).
  rewrite <-(take_drop_middle l i x Hi) at 3. rewrite !omap_app. simpl.
  rewrite Hx, Hy. by rewrite Permutation_middle.
Qed.

(** Replacing an element by one the filter sees alike changes nothing. *)
Lemma omap_insert_same {A B} (f : A → option B) (l : list A) i x y :
  l !! i = Some x → f x = f y → omap f (<[i:=y]> l) = omap f l.
Proof.
  intros Hi Hf. rewrite (insert_take_drop l i y) by (by eapply lookup_lt_Some).
  rewrite <-(take_drop_middle l i x Hi) at 3. rewrite !omap_app. simpl. by rewrite Hf.
Qed.

(** Elements that a partial function maps to the same value sit at the same
    place when its values are distinct. *)
Lemma NoDup_omap_inj {A B} (f : A → option B) (l : list A) i j x y b :
  NoDup (omap f l) → l !! i = Some x → l !! j = Some y → f x = Some b → f y = Some b → i = j.
Proof.
  assert (∀ (k : list A) n z, k !! n = Some z → f z = Some b → b ∈ omap f k) as Hin.
  { intros k n z Hn Hz. apply list_elem_of_omap. exists z. split; [|done].
    by eapply list_elem_of_lookup_2. }
  revert i j. induction l as [|z l IH]; intros [|i] [|j] Hnd Hi Hj Hx Hy; csimpl in *; simplify_eq; auto.
  - rewrite Hx in Hnd. apply NoDup_cons in Hnd as [[] _]. eauto.
  - rewrite Hy in Hnd. apply NoDup_cons in Hnd as [[] _]. eauto.
  - f_equal. eapply IH; eauto. destruct (f z); [by apply NoDup_cons in Hnd as [_ ?]|done].
Qed.

(** ** Sorting

    [slice::sort] and [sort_by] are stable; so is this insertion sort. *)
Section stable_sort.
  Context {A : Type} (R : relation A) `{!RelDecision R}.

Fixpoint insert_sorted (x : A) (l : list A) : list A :=
  match l with
  | [] => [x]
  | y :: l' => if decide (R x y) then x :: l else y :: insert_sorted x l'
  end.

Fixpoint stable_sort (l : list A) : list A :=
  match l with [] => [] | x :: l => insert_sorted x (stable_sort l) end.

Lemma insert_sorted_Permutation x l : insert_sorted x l ≡ₚ x :: l.
Proof.
  induction l as [|y l IH]; simpl; [done|]. case_decide; [done|]. rewrite IH. constructor.
Qed.

Lemma stable_sort_Permutation l : stable_sort l ≡ₚ l.
Proof. induction l as [|x l IH]; simpl; [done|]. by rewrite insert_sorted_Permutation, IH. Qed.

Lemma insert_sorted_sorted `{!Total R, !Transitive R} x l :
  StronglySorted R l → StronglySorted R (insert_sorted x l).
Proof.
  induction 1 as [|y l Hs IH Hy]; simpl; [repeat constructor|]. case_decide as Hxy.
  - repeat constructor; try done. eapply Forall_impl; [exact Hy|]. intros z ?. by etrans.
  - constructor; [done|]. rewrite insert_sorted_Permutation. constructor; [|done].
    destruct (total R x y); done.
Qed.

Lemma stable_sort_sorted `{!Total R, !Transitive R} l : StronglySorted R (stable_sort l).
Proof. induction l; simpl; [constructor|by apply insert_sorted_sorted]. Qed.
End stable_sort.

(** ** Cells of the environment

    Trait objects ([Arc<dyn Trait>]) are modelled as transformers of an
    environment type [W]; an object with state of its own keeps it in a cell
    of [W]. Objects that share an [Arc] share the cell. *)
Record Cell (W T : Type) := mkCell { cell_get : W → T; cell_set : T → W → W }.
Arguments mkCell {W T} _ _.
Arguments cell_get {W T} _ _.
Arguments cell_set {W T} _ _ _.

Class CellLaws {W T} (c : Cell W T) := {
  cell_get_set x w : cell_get c (cell_set c x w) = x;
  cell_set_get w : cell_set c (cell_get c w) w = w;
  cell_set_set x y w : cell_set c x (cell_set c y w) = cell_set c x w;
}.

(** The whole environment as one cell. *)
Definition cell_id {W} : Cell W W := mkCell (λ w, w) (λ x _, x).

#[export] Instance cell_id_laws {W} : CellLaws (@cell_id W).
Proof. done. Qed.

(** The first [n] of a sorted list are below the rest. *)
Lemma take_sorted_below {A} (R : relation A) (l : list A) n x y :
  StronglySorted R l → x ∈ take n l → y ∈ l → y ∉ take n l → R x y.
Proof.
  intros Hs Hx Hy Hn. rewrite <-(take_drop n l) in Hs, Hy.
  apply elem_of_app in Hy as [?|Hy]; [done|].
  apply StronglySorted_app in Hs as (Hs & _ & _). by apply Hs.
Qed.

(** * [BTreeMap] and [BTreeSet] iteration order

    A [BTreeMap<String, V>] is a finite map; what distinguishes it from other
    maps is that it iterates in increasing key order. Keys are compared byte
    by byte, the order of [str]. *)

Section entries.
  Context {V : Type}.

Definition entry_le (p q : string * V) : Prop := String.le p.1 q.1.

#[export] Instance entry_le_dec (p q : string * V) : Decision (entry_le p q).
Proof. unfold entry_le. apply _. Defined.

#[export] Instance entry_le_total : Total entry_le.
Proof. intros p q. unfold entry_le. apply String.le_total. Qed.

#[export] Instance entry_le_trans : Transitive entry_le.
Proof. intros p q r. unfold entry_le. intros. by etrans. Qed.

(** The pairs of a map in increasing key order: [map.iter()] *)
Definition btree_entries (m : gmap string V) : list (string * V) :=
  merge_sort entry_le (map_to_list m).

(** [map.values()] *)
Definition btree_values (m : gmap string V) : list V := (btree_entries m).*2.

Lemma elem_of_btree_entries m k v : (k, v) ∈ btree_entries m ↔ m !! k = Some v.
Proof. unfold btree_entries. rewrite merge_sort_Permutation. apply elem_of_map_to_list. Qed.

Lemma elem_of_btree_values m v : v ∈ btree_values m ↔ ∃ k, m !! k = Some v.
Proof.
  unfold btree_values. rewrite list_elem_of_fmap. split.
  - intros ([k v'] & -> & H). exists k. by apply elem_of_btree_entries.
  - intros [k H]. exists (k, v). by rewrite elem_of_btree_entries.
Qed.

Lemma btree_entries_sorted m : StronglySorted entry_le (btree_entries m).
Proof. apply StronglySorted_merge_sort; apply _. Qed.

Lemma btree_entries_NoDup m : NoDup (btree_entries m).*1.
Proof. unfold btree_entries. rewrite merge_sort_Permutation. apply NoDup_fst_map_to_list. Qed.

(** Inserting a key whose value no entry carried yet changes the map's
    iteration only at that key. *)
Lemma elem_of_btree_values_insert m k v w :
  w ∈ btree_values (<[k:=v]> m) → w = v ∨ w ∈ btree_values m.
Proof.
  rewrite !elem_of_btree_values. intros [k' H].
  apply lookup_insert_Some in H as [[-> ->]|[? ?]]; [by left|right; by exists k'].
Qed.
End entries.

(** A [BTreeSet<String>] in iteration order. *)
Definition btree_elements (s : gset string) : list string := merge_sort String.le (elements s).

Lemma elem_of_btree_elements s x : x ∈ btree_elements s ↔ x ∈ s.
Proof. unfold btree_elements. rewrite merge_sort_Permutation. apply elem_of_elements. Qed.

Lemma len_btree_elements s : len (btree_elements s) = Z.of_nat (size s).
Proof. unfold len, btree_elements. by rewrite merge_sort_Permutation. Qed.

Lemma btree_elements_nil s : btree_elements s = [] ↔ s = ∅.
Proof.
  rewrite <-len_zero, len_btree_elements. rewrite <-(leibniz_equiv_iff (A := gset string)).
  rewrite <-size_empty_iff. lia.
Qed.

(** Searching in key order, [map.values().find(p)]. *)
Lemma list_find_values {V} (P : V → Prop) `{∀ v, Decision (P v)} (m : gmap string V) i v :
  list_find P (btree_values m) = Some (i, v) → P v ∧ ∃ k, m !! k = Some v.
Proof.
  intros (Hi & HP & _)%list_find_Some. split; [done|].
  apply elem_of_btree_values, list_elem_of_lookup. by exists i.
Qed.

Lemma list_find_values_None {V} (P : V → Prop) `{∀ v, Decision (P v)} (m : gmap string V) :
  list_find P (btree_values m) = None ↔ ∀ k v, m !! k = Some v → ¬ P v.
Proof.
  rewrite list_find_None, Forall_forall. setoid_rewrite elem_of_btree_values. naive_solver.
Qed.
