(* ===== verification/RustStr.v ===== *)
(** * RustStr: the string operations of the Rust standard library the code uses

    A Rust [String] is valid UTF-8; here it is its sequence of bytes. The
    operations below agree with the standard library on every valid UTF-8
    input: ASCII operations act on single bytes, and the white space that
    [trim] and [split_whitespace] recognise (Unicode [White_Space]) is
    recognised by its UTF-8 encoding, one to three bytes long. *)
From S2P Require Import Prelude.
From Stdlib Require Import Ascii.

Definition byte (a : ascii) : N := N_of_ascii a.

Definition in_range (lo hi : N) (a : ascii) : bool := (lo <=? byte a)%N && (byte a <=? hi)%N.

(** ** White space *)

(** U+0009..U+000D and U+0020 *)
Definition ws1 (a : ascii) : bool := in_range 9 13 a || (byte a =? 32)%N.

(** U+0085 (C2 85) and U+00A0 (C2 A0) *)
Definition ws2 (a b : ascii) : bool :=
  (byte a =? 194)%N && ((byte b =? 133)%N || (byte b =? 160)%N).

(** U+1680, U+2000..U+200A, U+2028, U+2029, U+202F, U+205F and U+3000 *)
Definition ws3 (a b c : ascii) : bool :=
  ((byte a =? 225)%N && (byte b =? 154)%N && (byte c =? 128)%N)
  || ((byte a =? 226)%N && (byte b =? 128)%N
      && (in_range 128 138 c || in_range 168 169 c || (byte c =? 175)%N))
  || ((byte a =? 226)%N && (byte b =? 129)%N && (byte c =? 159)%N)
  || ((byte a =? 227)%N && (byte b =? 128)%N && (byte c =? 128)%N).

(** Does the string start with a white space character, as recognised by the
    two- and three-byte tests [w2] and [w3]? *)
Definition lead_ws (w2 : ascii → ascii → bool) (w3 : ascii → ascii → ascii → bool)
    (s : string) : bool :=
  match s with
  | "" => false
  | String a s1 => ws1 a ||
      match s1 with
      | "" => false
      | String b s2 => w2 a b ||
          match s2 with "" => false | String c _ => w3 a b c end
      end
  end.

Fixpoint trim_with (w2 : ascii → ascii → bool) (w3 : ascii → ascii → ascii → bool)
    (s : string) : string :=
  match s with
  | "" => ""
  | String a s1 =>
      if ws1 a then trim_with w2 w3 s1 else
      match s1 with
      | "" => s
      | String b s2 =>
          if w2 a b then trim_with w2 w3 s2 else
          match s2 with
          | "" => s
          | String c s3 => if w3 a b c then trim_with w2 w3 s3 else s
          end
      end
  end.

(** [str::trim_start], [str::trim_end] and [str::trim] *)
Definition trim_start (s : string) : string := trim_with ws2 ws3 s.
Definition trim_end (s : string) : string :=
  String.rev (trim_with (λ a b, ws2 b a) (λ a b c, ws3 c b a) (String.rev s)).
Definition trim (s : string) : string := trim_end (trim_start s).

(** ** ASCII case, substitution *)

Definition lower_ascii (a : ascii) : ascii :=
  if in_range 65 90 a then ascii_of_N (byte a + 32) else a.

Definition is_ascii_lowercase (a : ascii) : bool := in_range 97 122 a.
Definition is_ascii_digit (a : ascii) : bool := in_range 48 57 a.

Fixpoint map_str (f : ascii → ascii) (s : string) : string :=
  match s with "" => "" | String a s => String (f a) (map_str f s) end.

Definition to_ascii_lowercase (s : string) : string := map_str lower_ascii s.

(** [str::eq_ignore_ascii_case] *)
Definition eq_ignore_ascii_case (s t : string) : bool :=
  bool_decide (to_ascii_lowercase s = to_ascii_lowercase t).

(** [s.replace(c, d)] for single-byte [c] and [d] *)
Definition replace_char (c d : ascii) (s : string) : string :=
  map_str (λ a, if Ascii.eqb a c then d else a) s.

Fixpoint all_bytes (p : ascii → bool) (s : string) : bool :=
  match s with "" => true | String a s => p a && all_bytes p s end.

(** [str::is_empty] *)
Definition is_empty (s : string) : bool := match s with "" => true | _ => false end.

(** ** Prefixes, suffixes, substrings *)

Definition starts_with (p s : string) : bool := String.prefix p s.

Fixpoint strip_prefix (p s : string) : option string :=
  match p, s with
  | "", _ => Some s
  | String a p, String b s => if Ascii.eqb a b then strip_prefix p s else None
  | String _ _, "" => None
  end.

Definition ends_with (p s : string) : bool := String.prefix (String.rev p) (String.rev s).

Definition strip_suffix (p s : string) : option string :=
  String.rev <$> strip_prefix (String.rev p) (String.rev s).

(** [s.trim_start_matches(p)] for a non-empty pattern, by fuel: each round
    strips at least one byte. *)
Fixpoint trim_start_matches_fuel (n : nat) (p s : string) : string :=
  match n with
  | O => s
  | S n => match strip_prefix p s with
           | Some s' => trim_start_matches_fuel n p s'
           | None => s
           end
  end.
Definition trim_start_matches (p s : string) : string :=
  trim_start_matches_fuel (String.length s) p s.

(** [str::find]: byte offset of the first occurrence *)
Fixpoint find_str (p s : string) : option nat :=
  if String.prefix p s then Some 0 else
  match s with "" => None | String _ s => S <$> find_str p s end.

(** [str::contains] *)
Definition contains (p s : string) : bool :=
  match find_str p s with Some _ => true | None => false end.

(** ** Splitting *)

(** [s.split(c)] for a single-byte separator: never empty. *)
Fixpoint split_char (c : ascii) (s : string) : list string :=
  match s with
  | "" => [""]
  | String a s =>
      if Ascii.eqb a c then "" :: split_char c s
      else match split_char c s with
           | [] => [String a ""]
           | w :: ws => String a w :: ws
           end
  end.

(** [str::split_once(c)] *)
Fixpoint split_once (c : ascii) (s : string) : option (string * string) :=
  match s with
  | "" => None
  | String a s' =>
      if Ascii.eqb a c then Some ("", s')
      else '(l, r) ← split_once c s'; Some (String a l, r)
  end.

Definition newline : ascii := "010"%char.
Definition carriage_return : ascii := "013"%char.
Definition dquote : ascii := "034"%char.
Definition backslash : ascii := "092"%char.

Definition strip_cr (l : string) : string := default l (strip_suffix (String carriage_return "") l).

(** [str::lines]: lines end with a newline or a carriage return and a
    newline; a final newline does not open another line, and a carriage
    return that no newline follows stays. *)
Fixpoint lines_of (segs : list string) : list string :=
  match segs with
  | [] => []
  | [last] => if is_empty last then [] else [last]
  | l :: segs => strip_cr l :: lines_of segs
  end.
Definition lines (s : string) : list string := lines_of (split_char newline s).

Definition flush_word (cur : string) : list string :=
  if is_empty cur then [] else [String.rev cur].

(** [str::split_whitespace]; [cur] is the current word, reversed *)
Fixpoint split_ws_go (cur s : string) : list string :=
  match s with
  | "" => flush_word cur
  | String a s1 =>
      if ws1 a then flush_word cur ++ split_ws_go "" s1 else
      match s1 with
      | "" => flush_word (String a cur)
      | String b s2 =>
          if ws2 a b then flush_word cur ++ split_ws_go "" s2 else
          match s2 with
          | "" => split_ws_go (String a cur) s1
          | String c s3 =>
              if ws3 a b c then flush_word cur ++ split_ws_go "" s3
              else split_ws_go (String a cur) s1
          end
      end
  end.
Definition split_whitespace (s : string) : list string := split_ws_go "" s.

(** [[T]::join] *)
Fixpoint join (sep : string) (ws : list string) : string :=
  match ws with
  | [] => ""
  | [w] => w
  | w :: ws => w +:+ sep +:+ join sep ws
  end.

(** [s.chars().take(n).collect()]: the first [n] characters; a byte that is
    not a continuation byte (10xxxxxx) starts a character. *)
Definition is_continuation (a : ascii) : bool := in_range 128 191 a.
Fixpoint take_chars (n : nat) (s : string) : string :=
  match s with
  | "" => ""
  | String a s =>
      if is_continuation a then String a (take_chars n s)
      else match n with O => "" | S n => String a (take_chars n s) end
  end.

(** [s.chars().count()] *)
Fixpoint char_count (s : string) : nat :=
  match s with
  | "" => 0
  | String a s => if is_continuation a then char_count s else S (char_count s)
  end.

(** [s.rsplit(c).next()]: what follows the last separator *)
Definition last_segment (c : ascii) (s : string) : string := List.last (split_char c s) "".

(** [str::match_indices(needle)] on a non-empty needle, [true] when [ok] holds
    of the byte before and the byte after one of the matches. Matches do not
    overlap: [skip] bytes of the last one are still to be passed. *)
Definition head_byte (s : string) : option ascii :=
  match s with "" => None | String a _ => Some a end.
Definition str_drop (n : nat) (s : string) : string := String.substring n (String.length s) s.

Fixpoint any_match (ok : option ascii → option ascii → bool) (needle : string) (skip : nat)
    (prev : option ascii) (s : string) : bool :=
  match s with
  | "" => false
  | String a s' =>
      match skip with
      | S skip => any_match ok needle skip (Some a) s'
      | O =>
          match strip_prefix needle s with
          | Some rest =>
              ok prev (head_byte rest) || any_match ok needle (String.length needle - 1) (Some a) s'
          | None => any_match ok needle 0 (Some a) s'
          end
      end
  end.

(** [str::replace] for a non-empty pattern *)
Fixpoint replace_from (skip : nat) (pattern replacement s : string) : string :=
  match s with
  | "" => ""
  | String a rest =>
      match skip with
      | S skip => replace_from skip pattern replacement rest
      | O => if starts_with pattern s
             then replacement +:+ replace_from (pred (String.length pattern)) pattern replacement rest
             else String a (replace_from 0 pattern replacement rest)
      end
  end.
Definition replace_str (pattern replacement s : string) : string := replace_from 0 pattern replacement s.

(** [s.matches(pattern).count()] for a non-empty pattern: non-overlapping, from
    the left *)
Fixpoint count_from (skip : nat) (pattern s : string) : nat :=
  match s with
  | "" => 0
  | String a rest =>
      match skip with
      | S skip => count_from skip pattern rest
      | O => if starts_with pattern s then S (count_from (pred (String.length pattern)) pattern rest)
             else count_from 0 pattern rest
      end
  end.
Definition count_matches (pattern s : string) : nat := count_from 0 pattern s.

(** [s.replacen(pattern, replacement, 1)] *)
Definition replace_first (pattern replacement s : string) : string :=
  match find_str pattern s with
  | Some i => String.substring 0 i s +:+ replacement +:+ str_drop (i + String.length pattern) s
  | None => s
  end.

(** U+FFFD *)
Definition replacement_character : string :=
  String (ascii_of_N 239) (String (ascii_of_N 191) (String (ascii_of_N 189) "")).

(** The second bytes that may follow a lead byte of a three- or four-byte
    sequence. *)
Definition second_byte_ok (a b : ascii) : bool :=
  if (byte a =? 224)%N then in_range 160 191 b
  else if (byte a =? 237)%N then in_range 128 159 b
  else if (byte a =? 240)%N then in_range 144 191 b
  else if (byte a =? 244)%N then in_range 128 143 b
  else is_continuation b.

(** [String::from_utf8_lossy]: each maximal invalid piece becomes U+FFFD *)
Fixpoint from_utf8_lossy (s : string) : string :=
  match s with
  | "" => ""
  | String a s1 =>
      if in_range 0 127 a then String a (from_utf8_lossy s1)
      else if negb (in_range 194 244 a) then replacement_character +:+ from_utf8_lossy s1
      else
        match s1 with
        | "" => replacement_character
        | String b s2 =>
            if in_range 194 223 a then
              if is_continuation b then String a (String b (from_utf8_lossy s2))
              else replacement_character +:+ from_utf8_lossy s1
            else if negb (second_byte_ok a b) then replacement_character +:+ from_utf8_lossy s1
            else
              match s2 with
              | "" => replacement_character
              | String c s3 =>
                  if negb (is_continuation c) then replacement_character +:+ from_utf8_lossy s2
                  else if in_range 224 239 a then String a (String b (String c (from_utf8_lossy s3)))
                  else
                    match s3 with
                    | "" => replacement_character
                    | String d s4 =>
                        if is_continuation d then String a (String b (String c (String d (from_utf8_lossy s4))))
                        else replacement_character +:+ from_utf8_lossy s3
                    end
              end
        end
  end.

Definition is_ascii_alphanumeric (a : ascii) : bool :=
  in_range 48 57 a || in_range 65 90 a || in_range 97 122 a.

(** ** Numbers *)

(** [usize::from_str] *)
Inductive ParseIntError := PIE_Empty | PIE_InvalidDigit | PIE_PosOverflow.

Definition display_ParseIntError (e : ParseIntError) : string :=
  match e with
  | PIE_Empty => "cannot parse integer from empty string"
  | PIE_InvalidDigit => "invalid digit found in string"
  | PIE_PosOverflow => "number too large to fit in target type"
  end.

Fixpoint parse_digits (max acc : Z) (s : string) : result ParseIntError Z :=
  match s with
  | "" => Ok acc
  | String a s =>
      if is_ascii_digit a then
        let acc := (acc * 10 + (Z.of_N (byte a) - 48))%Z in
        if (max <? acc)%Z then Err PIE_PosOverflow else parse_digits max acc s
      else Err PIE_InvalidDigit
  end.

Definition parse_unsigned (max : Z) (s : string) : result ParseIntError Z :=
  match s with
  | "" => Err PIE_Empty
  | String a s' =>
      if Ascii.eqb a "+"%char then
        match s' with "" => Err PIE_InvalidDigit | _ => parse_digits max 0 s' end
      else parse_digits max 0 s
  end.
Definition parse_usize (s : string) : result ParseIntError Z := parse_unsigned u64_max s.

Definition hex_digit (n : Z) : ascii :=
  match n with
  | 0 => "0" | 1 => "1" | 2 => "2" | 3 => "3" | 4 => "4" | 5 => "5" | 6 => "6"
  | 7 => "7" | 8 => "8" | 9 => "9" | 10 => "a" | 11 => "b" | 12 => "c" | 13 => "d"
  | 14 => "e" | _ => "f"
  end%Z%char.

(** The [k] low hexadecimal digits of [n], most significant first. *)
Fixpoint hex_digits (k : nat) (n : Z) : string :=
  match k with
  | O => ""
  | S k => hex_digits k (n / 16)%Z +:+ String (hex_digit (n mod 16)%Z) ""
  end.

(** [format!("{n:016x}")] for a [u64]: 16 digits always suffice. *)
Definition hex016 (n : Z) : string := hex_digits 16 n.

(** ** Lemmas: append and reverse *)

Lemma app_nil_l_str s : "" +:+ s = s.
Proof. done. Qed.

Lemma app_nil_r_str s : s +:+ "" = s.
Proof. induction s as [|a s IH]; [done|]. change (String a s +:+ "") with (String a (s +:+ "")). by rewrite IH. Qed.

Lemma app_cons_str a s t : String a s +:+ t = String a (s +:+ t).
Proof. done. Qed.

Lemma app_assoc_str s t u : (s +:+ t) +:+ u = s +:+ t +:+ u.
Proof. induction s as [|a s IH]; [done|]. by rewrite !app_cons_str, IH. Qed.

Lemma length_app_str s t : String.length (s +:+ t) = String.length s + String.length t.
Proof. induction s as [|a s IH]; [done|]. rewrite app_cons_str. simpl. by rewrite IH. Qed.

Lemma rev_app_spec s t : String.rev_app s t = String.rev s +:+ t.
Proof.
  revert t. induction s as [|a s IH]; intros t; [done|].
  unfold String.rev; simpl. by rewrite !IH, app_assoc_str.
Qed.

Lemma rev_cons_str a s : String.rev (String a s) = String.rev s +:+ String a "".
Proof. apply (rev_app_spec s (String a "")). Qed.

Lemma rev_app_str s t : String.rev (s +:+ t) = String.rev t +:+ String.rev s.
Proof.
  induction s as [|a s IH]; [by rewrite app_nil_l_str, app_nil_r_str|].
  by rewrite app_cons_str, !rev_cons_str, IH, app_assoc_str.
Qed.

Lemma rev_rev_str s : String.rev (String.rev s) = s.
Proof. induction s as [|a s IH]; [done|]. by rewrite rev_cons_str, rev_app_str, IH. Qed.

Lemma length_rev_str s : String.length (String.rev s) = String.length s.
Proof. induction s as [|a s IH]; [done|]. rewrite rev_cons_str, length_app_str, IH. simpl. lia. Qed.

Lemma length_nil_str s : String.length s = 0 → s = "".
Proof. by destruct s. Qed.

#[export] Hint Rewrite app_nil_l_str app_nil_r_str app_cons_str app_assoc_str : loong_len.

Lemma app_inj_len_str s1 s2 t1 t2 :
  String.length s1 = String.length s2 → s1 +:+ t1 = s2 +:+ t2 → s1 = s2 ∧ t1 = t2.
Proof.
  revert s2. induction s1 as [|a s1 IH]; intros [|b s2]; try done.
  rewrite !app_cons_str. intros [= Hl] [= -> H]. by destruct (IH s2 Hl H) as [-> ->].
Qed.

(** ** Lemmas: prefixes and suffixes *)

Lemma strip_prefix_Some p s t : strip_prefix p s = Some t ↔ s = p +:+ t.
Proof.
  revert s. induction p as [|a p IH]; intros s; simpl.
  - rewrite app_nil_l_str. naive_solver.
  - destruct s as [|b s]; rewrite app_cons_str; [done|].
    destruct (Ascii.eqb_spec a b) as [->|Hne]; rewrite ?IH; naive_solver.
Qed.

Lemma starts_with_iff p s : starts_with p s = true ↔ ∃ t, s = p +:+ t.
Proof.
  unfold starts_with. revert s. induction p as [|a p IH]; intros s; simpl.
  - split; [by exists s|by destruct s].
  - destruct s as [|b s]; simpl; [split; [done|by intros [t ?]]|].
    destruct (ascii_dec a b) as [->|Hne].
    + rewrite IH. split; intros [t Ht]; exists t; [by subst|].
      rewrite app_cons_str in Ht. congruence.
    + split; [done|]. intros [t Ht]. rewrite app_cons_str in Ht. congruence.
Qed.

Lemma strip_suffix_Some p s t : strip_suffix p s = Some t ↔ s = t +:+ p.
Proof.
  unfold strip_suffix. rewrite fmap_Some. setoid_rewrite strip_prefix_Some. split.
  - intros (u & H & ->). rewrite <-(rev_rev_str s), H, rev_app_str, rev_rev_str. done.
  - intros ->. exists (String.rev t). rewrite rev_app_str, rev_rev_str. done.
Qed.

Lemma ends_with_iff p s : ends_with p s = true ↔ ∃ t, s = t +:+ p.
Proof.
  unfold ends_with. fold (starts_with (String.rev p) (String.rev s)).
  rewrite starts_with_iff. split.
  - intros [t H]. exists (String.rev t).
    by rewrite <-(rev_rev_str s), H, rev_app_str, rev_rev_str.
  - intros [t ->]. exists (String.rev t). by rewrite rev_app_str.
Qed.

(** ** Lemmas: trimming *)

Section trim_with.
  Context (w2 : ascii → ascii → bool) (w3 : ascii → ascii → ascii → bool).

Lemma trim_with_eq s : trim_with w2 w3 s =
  if lead_ws w2 w3 s then
    match s with
    | "" => ""
    | String a s1 => if ws1 a then trim_with w2 w3 s1 else
        match s1 with
        | "" => s
        | String b s2 => if w2 a b then trim_with w2 w3 s2 else
            match s2 with "" => s | String c s3 => trim_with w2 w3 s3 end
        end
    end
  else s.
Proof.
  destruct s as [|a s]; simpl; [done|]. destruct (ws1 a); simpl; [done|].
  destruct s as [|b s]; [done|]. destruct (w2 a b); simpl; [done|].
  destruct s as [|c s]; [done|]. by destruct (w3 a b c).
Qed.

Lemma trim_with_spec n s : String.length s ≤ n →
  lead_ws w2 w3 (trim_with w2 w3 s) = false ∧ ∃ p, s = p +:+ trim_with w2 w3 s.
Proof.
  revert s. induction n as [|n IH]; intros s Hn.
  { rewrite (length_nil_str s) by lia. split; [done|by exists ""]. }
  rewrite trim_with_eq. destruct (lead_ws w2 w3 s) eqn:Hl; [|by split; [|exists ""]].
  destruct s as [|a s1]; [done|]. simpl in Hn, Hl. destruct (ws1 a).
  { destruct (IH s1) as [? [p Hp]]; [lia|]. split; [done|].
    exists (String a p). by rewrite app_cons_str, <-Hp. }
  destruct s1 as [|b s2]; [done|]. simpl in Hn, Hl. destruct (w2 a b).
  { destruct (IH s2) as [? [p Hp]]; [lia|]. split; [done|].
    exists (String a (String b p)). by rewrite !app_cons_str, <-Hp. }
  destruct s2 as [|c s3]; [done|]. simpl in Hn.
  destruct (IH s3) as [? [p Hp]]; [lia|]. split; [done|].
  exists (String a (String b (String c p))). by rewrite !app_cons_str, <-Hp.
Qed.

Lemma trim_with_id s : lead_ws w2 w3 s = false → trim_with w2 w3 s = s.
Proof. intros H. by rewrite trim_with_eq, H. Qed.

Lemma trim_with_lead s : lead_ws w2 w3 (trim_with w2 w3 s) = false.
Proof. by apply (trim_with_spec (String.length s)). Qed.

Lemma trim_with_suffix s : ∃ p, s = p +:+ trim_with w2 w3 s.
Proof. by apply (trim_with_spec (String.length s)). Qed.

(** A prefix of a string with no leading white space has none. *)
Lemma lead_ws_prefix s t : lead_ws w2 w3 (s +:+ t) = false → lead_ws w2 w3 s = false.
Proof.
  destruct s as [|a s]; [done|]. rewrite app_cons_str. simpl.
  destruct (ws1 a); simpl; [done|]. destruct s as [|b s]; [done|].
  rewrite app_cons_str. destruct (w2 a b); simpl; [done|].
  destruct s as [|c s]; [done|]. by rewrite app_cons_str.
Qed.
End trim_with.

Lemma trim_start_end_prefix s : ∃ p, s = trim_end s +:+ p.
Proof.
  unfold trim_end.
  destruct (trim_with_suffix (λ a b, ws2 b a) (λ a b c, ws3 c b a) (String.rev s)) as [p Hp].
  exists (String.rev p). rewrite <-rev_app_str, <-Hp. by rewrite rev_rev_str.
Qed.

Lemma trim_end_idemp s : trim_end (trim_end s) = trim_end s.
Proof. unfold trim_end. rewrite rev_rev_str, trim_with_id; [done|apply trim_with_lead]. Qed.

(** [trim] is idempotent: a trimmed string has no surrounding white space. *)
Lemma trim_idemp s : trim (trim s) = trim s.
Proof.
  unfold trim. assert (trim_start (trim_end (trim_start s)) = trim_end (trim_start s)) as ->;
    [|apply trim_end_idemp].
  apply trim_with_id. destruct (trim_start_end_prefix (trim_start s)) as [p Hp].
  apply (lead_ws_prefix _ _ _ p). rewrite <-Hp. apply trim_with_lead.
Qed.

(** ** Lemmas: ASCII case *)

Lemma byte_inj a b : byte a = byte b → a = b.
Proof. unfold byte. intros H%(f_equal ascii_of_N). by rewrite !ascii_N_embedding in H. Qed.

Lemma byte_lt a : (byte a < 256)%N.
Proof. apply N_ascii_bounded. Qed.

Lemma lower_ascii_idemp a : lower_ascii (lower_ascii a) = lower_ascii a.
Proof.
  unfold lower_ascii at 2 3. destruct (in_range 65 90 a) eqn:E; [|unfold lower_ascii; by rewrite E].
  unfold in_range in E. apply andb_true_iff in E as [?%N.leb_le ?%N.leb_le].
  unfold lower_ascii, in_range, byte. rewrite N_ascii_embedding by (unfold byte in *; lia).
  fold (byte a). destruct (N.leb_spec (byte a + 32) 90); [lia|]. by rewrite andb_false_r.
Qed.

Lemma map_str_comp f g s : map_str f (map_str g s) = map_str (f ∘ g) s.
Proof. induction s as [|a s IH]; simpl; [done|]. by rewrite IH. Qed.

Lemma map_str_ext f g s : (∀ a, f a = g a) → map_str f s = map_str g s.
Proof. intros H. induction s as [|a s IH]; simpl; [done|]. by rewrite IH, H. Qed.

Lemma to_ascii_lowercase_idemp s :
  to_ascii_lowercase (to_ascii_lowercase s) = to_ascii_lowercase s.
Proof. unfold to_ascii_lowercase. rewrite map_str_comp. apply map_str_ext, lower_ascii_idemp. Qed.

(** ** Lemmas: hexadecimal *)

Lemma hex_digit_inj m n : (0 ≤ m < 16)%Z → (0 ≤ n < 16)%Z → hex_digit m = hex_digit n → m = n.
Proof.
  intros Hm Hn.
  assert (m = 0 ∨ m = 1 ∨ m = 2 ∨ m = 3 ∨ m = 4 ∨ m = 5 ∨ m = 6 ∨ m = 7 ∨ m = 8 ∨ m = 9
    ∨ m = 10 ∨ m = 11 ∨ m = 12 ∨ m = 13 ∨ m = 14 ∨ m = 15)%Z as Hm' by lia.
  assert (n = 0 ∨ n = 1 ∨ n = 2 ∨ n = 3 ∨ n = 4 ∨ n = 5 ∨ n = 6 ∨ n = 7 ∨ n = 8 ∨ n = 9
    ∨ n = 10 ∨ n = 11 ∨ n = 12 ∨ n = 13 ∨ n = 14 ∨ n = 15)%Z as Hn' by lia.
  clear Hm Hn. repeat destruct Hm' as [->|Hm']; subst; repeat destruct Hn' as [->|Hn'];
    subst; try done.
Qed.

Lemma hex_digits_length k n : String.length (hex_digits k n) = k.
Proof. revert n. induction k as [|k IH]; intros n; simpl; [done|]. rewrite length_app_str, IH. simpl. lia. Qed.

Lemma hex_digits_inj k m n : (0 ≤ m < 16 ^ Z.of_nat k)%Z → (0 ≤ n < 16 ^ Z.of_nat k)%Z →
  hex_digits k m = hex_digits k n → m = n.
Proof.
  revert m n. induction k as [|k IH]; intros m n Hm Hn H; [simpl in *; lia|].
  assert (16 ^ Z.of_nat (S k) = 16 * 16 ^ Z.of_nat k)%Z as E.
  { rewrite Nat2Z.inj_succ, Z.pow_succ_r by lia. done. }
  rewrite E in *. simpl in H.
  apply app_inj_len_str in H as [H1 [= H2]]; [|by rewrite !hex_digits_length].
  apply hex_digit_inj in H2; [|apply Z.mod_pos_bound; lia..].
  apply IH in H1; [|split; [apply Z.div_pos; lia|apply Z.div_lt_upper_bound; lia]..].
  rewrite (Z.div_mod m 16), (Z.div_mod n 16) by lia. congruence.
Qed.

Lemma hex016_inj m n : is_u64 m → is_u64 n → hex016 m = hex016 n → m = n.
Proof.
  intros ?%is_u64_pow ?%is_u64_pow. apply (hex_digits_inj 16);
  change (16 ^ Z.of_nat 16)%Z with (2 ^ 64)%Z; done.
Qed.

(** ** Lemmas: searching and splitting *)

Lemma prefix_app_str p t : String.prefix p (p +:+ t) = true.
Proof. apply starts_with_iff. by exists t. Qed.

Lemma find_str_skip p a s :
  String.prefix p (String a s) = false → find_str p (String a s) = S <$> find_str p s.
Proof. intros H. cbn [find_str]. by rewrite H. Qed.

(** [find] returns an occurrence. *)
Lemma find_str_Some p s n :
  find_str p s = Some n → ∃ pre post, s = pre +:+ p +:+ post ∧ String.length pre = n.
Proof.
  revert n. induction s as [|a s IH]; intros n; cbn [find_str].
  - destruct (String.prefix p "") eqn:Hp; [|done]. intros [= <-].
    apply starts_with_iff in Hp as [t Ht]. exists "", t. by rewrite app_nil_l_str.
  - destruct (String.prefix p (String a s)) eqn:Hp.
    + intros [= <-]. apply starts_with_iff in Hp as [t Ht]. exists "", t. by rewrite app_nil_l_str.
    + intros (m & Hm & ->)%fmap_Some. destruct (IH m Hm) as (pre & post & -> & <-).
      by exists (String a pre), post.
Qed.

(** A string that does not contain [p] has no occurrence of it. *)
Lemma find_str_None p s : find_str p s = None ↔ ∀ pre post, s ≠ pre +:+ p +:+ post.
Proof.
  split.
  - revert p. induction s as [|a s IH]; intros p; cbn [find_str].
    + destruct (String.prefix p "") eqn:Hp; [done|]. intros _ pre post Hs.
      destruct pre; [|done]. destruct p; [|done]. done.
    + destruct (String.prefix p (String a s)) eqn:Hp; [done|].
      intros Hf%fmap_None [|b pre] post.
      * rewrite app_nil_l_str. intros Hs. by rewrite Hs, prefix_app_str in Hp.
      * rewrite app_cons_str. intros [= <- Hs]. by eapply IH.
  - intros Hn. destruct (find_str p s) as [n|] eqn:Hf; [|done].
    apply find_str_Some in Hf as (pre & post & -> & _). by destruct (Hn pre post).
Qed.

(** The bytes of a separator-free piece come out as one segment. *)
Lemma split_char_app c l s : all_bytes (λ a, negb (Ascii.eqb a c)) l = true →
  split_char c (l +:+ String c s) = l :: split_char c s.
Proof.
  induction l as [|a l IH]; cbn [all_bytes].
  - intros _. rewrite app_nil_l_str. simpl. by rewrite Ascii.eqb_refl.
  - intros [Ha Hl]%andb_true_iff. rewrite app_cons_str. simpl. rewrite (IH Hl).
    by destruct (Ascii.eqb a c).
Qed.

Lemma split_char_free c l : all_bytes (λ a, negb (Ascii.eqb a c)) l = true → split_char c l = [l].
Proof.
  induction l as [|a l IH]; simpl; [done|]. intros [Ha Hl]%andb_true_iff. rewrite (IH Hl).
  by destruct (Ascii.eqb a c).
Qed.

Lemma all_bytes_app p s t : all_bytes p (s +:+ t) = all_bytes p s && all_bytes p t.
Proof. induction s as [|a s IH]; [done|]. rewrite app_cons_str. simpl. by rewrite IH, andb_assoc. Qed.

Lemma all_bytes_rev p s : all_bytes p (String.rev s) = all_bytes p s.
Proof.
  induction s as [|a s IH]; [done|]. rewrite rev_cons_str, all_bytes_app, IH. simpl.
  by rewrite andb_true_r, andb_comm.
Qed.

(** A line without a carriage return keeps all its bytes. *)
Lemma strip_cr_free l :
  all_bytes (λ a, negb (Ascii.eqb a carriage_return)) l = true → strip_cr l = l.
Proof.
  intros Hl. unfold strip_cr. destruct (strip_suffix _ l) as [t|] eqn:Hs; [|done].
  apply strip_suffix_Some in Hs as ->. by rewrite all_bytes_app, andb_false_r in Hl.
Qed.

(** White space bytes at either end vanish under [trim]. *)
Lemma trim_start_ws a s : ws1 a = true → trim_start (String a s) = trim_start s.
Proof. intros Ha. unfold trim_start. simpl. by rewrite Ha. Qed.

Lemma trim_end_ws a s : ws1 a = true → trim_end (s +:+ String a "") = trim_end s.
Proof. intros Ha. unfold trim_end. rewrite rev_app_str. simpl. by rewrite Ha. Qed.

(** A white space byte never completes a longer white space character. *)
Lemma ws1_not_tail a x y : ws1 a = true → ws2 x a = false ∧ ws3 x y a = false.
Proof.
  unfold ws1, ws2, ws3, in_range. intros Ha.
  assert (byte a ≤ 32)%N as Hb.
  { apply orb_true_iff in Ha as [[_ ?%N.leb_le]%andb_true_iff|?%N.eqb_eq]; lia. }
  assert (∀ n, (32 < n)%N → (byte a =? n)%N = false) as He by (intros; apply N.eqb_neq; lia).
  assert (∀ n, (32 < n)%N → (n <=? byte a)%N = false) as Hl by (intros; apply N.leb_gt; lia).
  rewrite !He, !Hl by lia. by rewrite !andb_false_r.
Qed.

Lemma trim_start_snoc n s a : String.length s ≤ n → ws1 a = true →
  trim_start (s +:+ String a "") =
  if is_empty (trim_start s) then "" else trim_start s +:+ String a "".
Proof.
  intros Hn Ha. revert s Hn. induction n as [|n IH]; intros s Hn.
  { rewrite (length_nil_str s) by lia. unfold trim_start. simpl. by rewrite Ha. }
  unfold trim_start in *. destruct s as [|x s]; [simpl; by rewrite Ha|].
  rewrite app_cons_str. simpl. simpl in Hn. destruct (ws1 x); [apply IH; lia|].
  destruct s as [|y s]; rewrite ?app_nil_l_str, ?app_cons_str; simpl.
  { by rewrite (proj1 (ws1_not_tail a x x Ha)). }
  simpl in Hn. destruct (ws2 x y); [apply IH; lia|].
  destruct s as [|z s]; rewrite ?app_nil_l_str, ?app_cons_str; simpl.
  { by rewrite (proj2 (ws1_not_tail a x y Ha)). }
  simpl in Hn. destruct (ws3 x y z); [apply IH; lia|done].
Qed.

Lemma trim_snoc s a : ws1 a = true → trim (s +:+ String a "") = trim s.
Proof.
  intros Ha. unfold trim. rewrite (trim_start_snoc (String.length s)) by done.
  destruct (trim_start s) as [|b t] eqn:Ht; [done|]. cbn [is_empty]. by rewrite trim_end_ws.
Qed.

Lemma trim_cons a s : ws1 a = true → trim (String a s) = trim s.
Proof. intros Ha. unfold trim. by rewrite trim_start_ws. Qed.

Lemma join_cons sep w ws : ws ≠ [] → join sep (w :: ws) = w +:+ sep +:+ join sep ws.
Proof. by destruct ws. Qed.

Lemma join_snoc sep ws w : ws ≠ [] → join sep (ws ++ [w]) = join sep ws +:+ sep +:+ w.
Proof.
  induction ws as [|x ws IH]; [done|]. intros _. destruct ws as [|y ws]; [done|].
  rewrite <-app_comm_cons, !join_cons by done. rewrite IH by done. by rewrite !app_assoc_str.
Qed.

(** ** Lemmas: decimal numbers *)

Lemma pretty_N_char_digit x : (x < 10)%N →
  is_ascii_digit (pretty_N_char x) = true ∧ Z.of_N (byte (pretty_N_char x)) = (48 + Z.of_N x)%Z ∧
  Ascii.eqb (pretty_N_char x) "+"%char = false.
Proof.
  intros Hx. assert (x = 0 ∨ x = 1 ∨ x = 2 ∨ x = 3 ∨ x = 4 ∨ x = 5 ∨ x = 6 ∨ x = 7 ∨ x = 8 ∨ x = 9)%N
    as Hd by lia. repeat destruct Hd as [->|Hd]; subst; done.
Qed.

(** Appending the decimal digits of [x] multiplies by its power of ten: the
    parser's accumulator after them is the number. *)
Lemma parse_digits_pretty max x s : (0 < x)%N → (Z.of_N x ≤ max)%Z →
  parse_digits max 0 (pretty_N_go x s) = parse_digits max (Z.of_N x) s.
Proof.
  intros Hx Hmax. revert s Hx Hmax. induction (N.lt_wf_0 x) as [x _ IH]; intros s Hx Hmax.
  rewrite pretty_N_go_step by done.
  assert (x mod 10 < 10)%N as Hm by (apply N.mod_lt; lia).
  destruct (pretty_N_char_digit _ Hm) as (Hdig & Hval & _).
  assert (Z.of_N x = Z.of_N (x / 10) * 10 + Z.of_N (x mod 10))%Z as Hdm.
  { pose proof (N.div_mod x 10). lia. }
  destruct (decide (x / 10 = 0)%N) as [H0|H0].
  - rewrite H0, pretty_N_go_0. cbn [parse_digits]. rewrite Hdig, Hval.
    replace (0 * 10 + (48 + Z.of_N (x mod 10) - 48))%Z with (Z.of_N x) by (rewrite Hdm, H0; lia).
    by destruct (Z.ltb_spec max (Z.of_N x)); [lia|].
  - rewrite IH; [|by apply N.div_lt|lia|].
    + cbn [parse_digits]. rewrite Hdig, Hval.
      replace (Z.of_N (x / 10) * 10 + (48 + Z.of_N (x mod 10) - 48))%Z with (Z.of_N x) by lia.
      by destruct (Z.ltb_spec max (Z.of_N x)); [lia|].
    + assert (x / 10 ≤ x)%N by (apply N.Div0.div_le_upper_bound; lia). lia.
Qed.

Lemma pretty_N_go_head x s : (0 < x)%N → ∃ a t, pretty_N_go x s = String a t ∧ Ascii.eqb a "+"%char = false.
Proof.
  revert s. induction (N.lt_wf_0 x) as [x _ IH]; intros s Hx. rewrite pretty_N_go_step by done.
  destruct (decide (x / 10 = 0)%N) as [H0|H0]; [|apply IH; [by apply N.div_lt|by apply N.neq_0_lt_0]].
  rewrite H0, pretty_N_go_0. eexists _, _. split; [done|]. apply pretty_N_char_digit, N.mod_lt. lia.
Qed.

(** Reading back a printed number. *)
Lemma parse_unsigned_display max n : (0 ≤ n ≤ max)%Z → parse_unsigned max (display n) = Ok n.
Proof.
  intros [Hn Hmax]. unfold display, display_Z, pretty, pretty_Z. destruct n as [|p|p]; [| |lia].
  { change ((if (max <? 0)%Z then Err PIE_PosOverflow else Ok 0%Z) = (Ok 0%Z : result ParseIntError Z)).
    by destruct (Z.ltb_spec max 0); [lia|]. }
  destruct (pretty_N_go_head (Npos p) "") as (a & t & Heq & Ha); [lia|].
  change (parse_unsigned max (pretty_N_go (Npos p) "") = Ok (Zpos p)).
  unfold parse_unsigned. rewrite Heq, Ha, <-Heq. by rewrite parse_digits_pretty by done.
Qed.

(** ** Lemmas: dropping a prefix *)

Lemma substring_S n m a s : String.substring (S n) m (String a s) = String.substring n m s.
Proof. by destruct m. Qed.
Lemma substring_long n m m' s : String.length s ≤ m → String.length s ≤ m' →
  String.substring n m s = String.substring n m' s.
Proof.
  revert n m m'. induction s as [|a s IH]; intros n m m' H1 H2; simpl in H1, H2.
  { by destruct n, m, m'. }
  destruct n as [|n]; [|rewrite !substring_S; apply IH; lia].
  destruct m as [|m], m' as [|m']; try lia. simpl. f_equal. apply IH; lia.
Qed.
Lemma str_drop_0 s : str_drop 0 s = s.
Proof. unfold str_drop. induction s as [|a s IH]; simpl; [done|]. by f_equal. Qed.
Lemma str_drop_S n a s : str_drop (S n) (String a s) = str_drop n s.
Proof. unfold str_drop. rewrite substring_S. apply substring_long; simpl; lia. Qed.
Lemma str_drop_nil n : str_drop n "" = "".
Proof. by destruct n. Qed.
Lemma str_drop_add n m s : str_drop (n + m) s = str_drop m (str_drop n s).
Proof.
  revert s. induction n as [|n IH]; intros s; simpl; [by rewrite str_drop_0|].
  destruct s as [|a s]; [by rewrite !str_drop_nil|]. by rewrite !str_drop_S.
Qed.
Lemma str_drop_app pre post : str_drop (String.length pre) (pre +:+ post) = post.
Proof. induction pre as [|a pre IH]; [apply str_drop_0|]. rewrite app_cons_str. simpl. by rewrite str_drop_S. Qed.
Lemma length_str_drop n s : String.length (str_drop n s) = String.length s - n.
Proof.
  revert s. induction n as [|n IH]; intros s; [rewrite str_drop_0; lia|].
  destruct s as [|a s]; [by rewrite str_drop_nil|]. rewrite str_drop_S, IH. done.
Qed.
Lemma length_substring_0 n s : n ≤ String.length s → String.length (String.substring 0 n s) = n.
Proof.
  revert n. induction s as [|a s IH]; intros [|n] H; simpl in *; try lia; try done. by rewrite IH by lia.
Qed.
Lemma length_map_str f s : String.length (map_str f s) = String.length s.
Proof. induction s; simpl; congruence. Qed.

Lemma split_once_app c l r : all_bytes (λ a, negb (Ascii.eqb a c)) l = true →
  split_once c (l +:+ String c r) = Some (l, r).
Proof.
  induction l as [|a l IH]; simpl; intros H; [by rewrite Ascii.eqb_refl|].
  apply andb_prop in H as [Ha H]. destruct (Ascii.eqb a c); [done|]. by rewrite IH.
Qed.

Lemma split_once_Some c s l r : split_once c s = Some (l, r) →
  s = l +:+ String c r ∧ all_bytes (λ a, negb (Ascii.eqb a c)) l = true.
Proof.
  revert l; induction s as [|a s IH]; simpl; intros l H; [done|].
  destruct (Ascii.eqb a c) eqn:E.
  - injection H as <- <-. apply Ascii.eqb_eq in E as ->. done.
  - destruct (split_once c s) as [[l' r']|]; simplify_eq/=. destruct (IH l' eq_refl) as [-> ->].
    by rewrite E.
Qed.
