(* ===== verification/Contracts.v ===== *)
(** * Contracts: the data shared by every crate (crates/contracts/src)

    Capabilities, tokens, packs, requests and outcomes of the four execution
    planes, audit events, the error types with their messages, and the manifest
    operations of [pack.rs]. Field names carry a short prefix per record
    because Rocq's projections share one name space. *)
From S2P Require Import Prelude RustStr.
From Stdlib Require Import Ascii.

(** ** JSON payloads

    The shape of [serde_json::Value], the public enumeration the sources
    build and match on. The kernel hands payloads through unread. *)
Inductive JsonNumber := PosInt (n : Z) | NegInt (n : Z) | JFloat (bits : Z).

Inductive Value :=
| JNull
| JBool (b : bool)
| JNumber (n : JsonNumber)
| JString (s : string)
| JArray (xs : list Value)
| JObject (fields : list (string * Value)).

(** ** contracts.rs *)

Inductive Capability :=
| InvokeTool | InvokeConnector | MemoryRead | MemoryWrite | FilesystemRead
| FilesystemWrite | NetworkEgress | ScheduleTask | ObserveTelemetry.

#[export] Instance Capability_eq_dec : EqDecision Capability.
Proof. solve_decision. Defined.

(** All capabilities in declaration order, the order of the derived [Ord]. *)
Definition all_capabilities : list Capability :=
  [InvokeTool; InvokeConnector; MemoryRead; MemoryWrite; FilesystemRead;
   FilesystemWrite; NetworkEgress; ScheduleTask; ObserveTelemetry].

#[export] Program Instance Capability_finite : finite.Finite Capability :=
  {| finite.enum := all_capabilities |}.
Next Obligation. by apply (bool_decide_unpack _). Qed.
Next Obligation. intros []; by apply (bool_decide_unpack _). Qed.

#[export] Instance Capability_countable : Countable Capability := finite.finite_countable.

(** [Capability::as_str] *)
Definition Capability_as_str (c : Capability) : string :=
  match c with
  | InvokeTool => "invoke_tool"
  | InvokeConnector => "invoke_connector"
  | MemoryRead => "memory_read"
  | MemoryWrite => "memory_write"
  | FilesystemRead => "filesystem_read"
  | FilesystemWrite => "filesystem_write"
  | NetworkEgress => "network_egress"
  | ScheduleTask => "schedule_task"
  | ObserveTelemetry => "observe_telemetry"
  end.

(** [Capability::parse] *)
Definition Capability_parse (raw : string) : option Capability :=
  let key := replace_char "-"%char "_"%char (to_ascii_lowercase (trim raw)) in
  if decide (key = "invoke_tool") then Some InvokeTool
  else if decide (key = "invoke_connector") then Some InvokeConnector
  else if decide (key = "memory_read") then Some MemoryRead
  else if decide (key = "memory_write") then Some MemoryWrite
  else if decide (key = "filesystem_read") then Some FilesystemRead
  else if decide (key = "filesystem_write") then Some FilesystemWrite
  else if decide (key = "network_egress") then Some NetworkEgress
  else if decide (key = "schedule_task") then Some ScheduleTask
  else if decide (key = "observe_telemetry") then Some ObserveTelemetry
  else None.

#[export] Instance debug_Capability : Debug Capability := λ c,
  match c with
  | InvokeTool => "InvokeTool"
  | InvokeConnector => "InvokeConnector"
  | MemoryRead => "MemoryRead"
  | MemoryWrite => "MemoryWrite"
  | FilesystemRead => "FilesystemRead"
  | FilesystemWrite => "FilesystemWrite"
  | NetworkEgress => "NetworkEgress"
  | ScheduleTask => "ScheduleTask"
  | ObserveTelemetry => "ObserveTelemetry"
  end.

(** A [BTreeSet<Capability>] in iteration order, [set.iter()] *)
Definition caps_iter (s : gset Capability) : list Capability :=
  filter (λ c, c ∈ s) all_capabilities.

Inductive HarnessKind := EmbeddedPi | Acp.

#[export] Instance HarnessKind_eq_dec : EqDecision HarnessKind.
Proof. solve_decision. Defined.

#[export] Instance debug_HarnessKind : Debug HarnessKind := λ k,
  match k with EmbeddedPi => "EmbeddedPi" | Acp => "Acp" end.

Record ExecutionRoute := mkExecutionRoute {
  rt_harness_kind : HarnessKind;
  rt_adapter : option string;
}.

Record CapabilityToken := mkCapabilityToken {
  tok_token_id : string;
  tok_pack_id : string;
  tok_agent_id : string;
  tok_allowed_capabilities : gset Capability;
  tok_issued_at_epoch_s : Z;
  tok_expires_at_epoch_s : Z;
  tok_generation : Z;
}.

Record TaskIntent := mkTaskIntent {
  ti_task_id : string;
  ti_objective : string;
  ti_required_capabilities : gset Capability;
  ti_payload : Value;
}.

Record HarnessRequest := mkHarnessRequest {
  hr_token_id : string;
  hr_pack_id : string;
  hr_agent_id : string;
  hr_task_id : string;
  hr_objective : string;
  hr_payload : Value;
}.

Record HarnessOutcome := mkHarnessOutcome {
  ho_status : string;
  ho_output : Value;
}.

Record ConnectorCommand := mkConnectorCommand {
  cc_connector_name : string;
  cc_operation : string;
  cc_required_capabilities : gset Capability;
  cc_payload : Value;
}.

Record ConnectorOutcome := mkConnectorOutcome {
  co_status : string;
  co_payload : Value;
}.

(** ** runtime_types.rs, tool_types.rs, memory_types.rs *)

Record RuntimeCoreRequest := mkRuntimeCoreRequest { rcr_action : string; rcr_payload : Value }.
Record RuntimeCoreOutcome := mkRuntimeCoreOutcome { rco_status : string; rco_payload : Value }.
Record RuntimeExtensionRequest :=
  mkRuntimeExtensionRequest { rer_action : string; rer_payload : Value }.
Record RuntimeExtensionOutcome :=
  mkRuntimeExtensionOutcome { reo_status : string; reo_payload : Value }.

Record ToolCoreRequest := mkToolCoreRequest { tcr_tool_name : string; tcr_payload : Value }.
Record ToolCoreOutcome := mkToolCoreOutcome { tco_status : string; tco_payload : Value }.
Record ToolExtensionRequest :=
  mkToolExtensionRequest { ter_extension_action : string; ter_payload : Value }.
Record ToolExtensionOutcome :=
  mkToolExtensionOutcome { teo_status : string; teo_payload : Value }.

Record MemoryCoreRequest := mkMemoryCoreRequest { mcr_operation : string; mcr_payload : Value }.
Record MemoryCoreOutcome := mkMemoryCoreOutcome { mco_status : string; mco_payload : Value }.
Record MemoryExtensionRequest :=
  mkMemoryExtensionRequest { mer_operation : string; mer_payload : Value }.
Record MemoryExtensionOutcome :=
  mkMemoryExtensionOutcome { meo_status : string; meo_payload : Value }.

(** ** audit_types.rs *)

Inductive ExecutionPlane := Plane_Connector | Plane_Runtime | Plane_Tool | Plane_Memory.

Inductive PlaneTier := Tier_Legacy | Tier_Core | Tier_Extension.

Inductive AuditEventKind :=
| TokenIssued (token : CapabilityToken)
| TokenRevoked (token_id : string)
| TaskDispatched (pack_id task_id : string) (route : ExecutionRoute)
    (required_capabilities : list Capability)
| ConnectorInvoked (pack_id connector_name operation : string)
    (required_capabilities : list Capability)
| PlaneInvoked (pack_id : string) (plane : ExecutionPlane) (tier : PlaneTier)
    (primary_adapter : string) (delegated_core_adapter : option string)
    (operation : string) (required_capabilities : list Capability)
| SecurityScanEvaluated (pack_id : string) (scanned_plugins total_findings high_findings
    medium_findings low_findings : Z) (blocked : bool) (block_reason : option string)
    (categories finding_ids : list string)
| ProviderFailover (pack_id provider_id reason stage model : string) (attempt max_attempts : Z)
    (status_code : option Z) (try_next_model auto_model_mode : bool)
    (candidate_index candidate_count : Z)
| AuthorizationDenied (pack_id token_id reason : string).

Record AuditEvent := mkAuditEvent {
  ev_event_id : string;
  ev_timestamp_epoch_s : Z;
  ev_agent_id : option string;
  ev_kind : AuditEventKind;
}.

(** ** namespace.rs and policy_types.rs *)

Record Namespace := mkNamespace {
  ns_pack_id : string;
  ns_domain : string;
  ns_membrane : string;
  ns_default_route : ExecutionRoute;
  ns_granted_capabilities : gset Capability;
}.

Record PolicyContext := mkPolicyContext {
  pc_conversation_hash : option string;
  pc_call_depth : Z;
}.

Record PolicyRequest := mkPolicyRequest {
  pr_tool_name : string;
  pr_parameters : Value;
  pr_pack_id : string;
  pr_agent_id : string;
  pr_capabilities_used : gset Capability;
  pr_context : PolicyContext;
}.

Inductive PolicyDecision := Allow | Deny (reason : string).

(** ** execution_security_types.rs *)

Inductive ExecutionSecurityTier := Restricted | Balanced | Trusted.

Definition ExecutionSecurityTier_as_str (t : ExecutionSecurityTier) : string :=
  match t with
  | Restricted => "restricted" | Balanced => "balanced" | Trusted => "trusted"
  end.

#[export] Instance display_ExecutionSecurityTier : Display ExecutionSecurityTier :=
  ExecutionSecurityTier_as_str.

(** ** task_state.rs and fault.rs: data *)

Inductive Fault :=
| Panic (message : string)
| CapabilityViolation (token_id : string) (capability : Capability)
| TokenExpired (token_id : string) (expires_at_epoch_s : Z)
| ProtocolViolation (detail : string)
| PolicyDenied (reason : string).

(** ** clock.rs

    A clock is read through [now_epoch_s]; a read may change the environment
    [W] it observes. [FixedClock] is a cell that only [set] and [advance_by]
    change; [advance_by] is an atomic [fetch_add], which wraps. *)
Definition Clock (W : Type) : Type := W → Z * W.

Record FixedClock := mkFixedClock { fc_now_epoch_s : Z }.

Definition FixedClock_new (now : Z) : FixedClock := mkFixedClock now.
Definition FixedClock_set (now : Z) (_ : FixedClock) : FixedClock := mkFixedClock now.
Definition FixedClock_advance_by (delta : Z) (c : FixedClock) : FixedClock :=
  mkFixedClock (wrap64 (fc_now_epoch_s c + delta)).
Definition FixedClock_now_epoch_s : Clock FixedClock := λ c, (fc_now_epoch_s c, c).

(** ** pack.rs *)

Record VerticalPackManifest := mkVerticalPackManifest {
  pk_pack_id : string;
  pk_domain : string;
  pk_version : string;
  pk_default_route : ExecutionRoute;
  pk_allowed_connectors : gset string;
  pk_granted_capabilities : gset Capability;
  pk_metadata : gmap string string;
}.

(** [semver::Version::parse(v).is_ok()], a third-party parser. *)
Class Semver := version_parse_ok : string → bool.

Inductive PackError :=
| EmptyPackId
| EmptyDomain
| InvalidVersion (version : string)
| EmptyCapabilities.

(** [VerticalPackManifest::validate] *)
Definition VerticalPackManifest_validate `{!Semver} (p : VerticalPackManifest) :
    result PackError unit :=
  if is_empty (trim (pk_pack_id p)) then Err EmptyPackId
  else if is_empty (trim (pk_domain p)) then Err EmptyDomain
  else if negb (version_parse_ok (pk_version p)) then Err (InvalidVersion (pk_version p))
  else if decide (pk_granted_capabilities p = ∅) then Err EmptyCapabilities
  else Ok ().

(** [VerticalPackManifest::grants] *)
Definition VerticalPackManifest_grants (p : VerticalPackManifest) (c : Capability) : bool :=
  bool_decide (c ∈ pk_granted_capabilities p).

(** [VerticalPackManifest::allows_connector] *)
Definition VerticalPackManifest_allows_connector (p : VerticalPackManifest) (name : string) : bool :=
  bool_decide (name ∈ pk_allowed_connectors p).

(** ** Lemmas *)

Lemma elem_of_caps_iter c s : c ∈ caps_iter s ↔ c ∈ s.
Proof.
  unfold caps_iter. rewrite list_elem_of_filter. split; [by intros [? _]|].
  intros H. split; [done|]. destruct c; by apply (bool_decide_unpack _).
Qed.

Lemma caps_iter_NoDup s : NoDup (caps_iter s).
Proof. apply NoDup_filter. by apply (bool_decide_unpack _). Qed.

Lemma list_to_set_caps_iter s : list_to_set (caps_iter s) = s.
Proof. apply set_eq. intros c. by rewrite elem_of_list_to_set, elem_of_caps_iter. Qed.

Lemma grants_true p c : VerticalPackManifest_grants p c = true ↔ c ∈ pk_granted_capabilities p.
Proof. apply bool_decide_eq_true. Qed.

Lemma allows_connector_true p n :
  VerticalPackManifest_allows_connector p n = true ↔ n ∈ pk_allowed_connectors p.
Proof. apply bool_decide_eq_true. Qed.

(** What a validated manifest guarantees. *)
Lemma validate_Ok `{!Semver} p : VerticalPackManifest_validate p = Ok () ↔
  trim (pk_pack_id p) ≠ "" ∧ trim (pk_domain p) ≠ "" ∧
  version_parse_ok (pk_version p) = true ∧ pk_granted_capabilities p ≠ ∅.
Proof.
  unfold VerticalPackManifest_validate.
  destruct (trim (pk_pack_id p)), (trim (pk_domain p)), (version_parse_ok _);
    simpl; try case_decide; naive_solver.
Qed.

#[export] Hint Rewrite grants_true allows_connector_true : loong_len.
