(* ===== verification/Json.v ===== *)
(** * Json: building and reading [serde_json::Value]

    The constructors of the [json!] macro and the accessors the sources use.
    Objects are maps with unique keys; reading a key does not depend on their
    order. *)
From S2P Require Import Prelude RustStr Contracts.
From Stdlib Require Import SpecFloat.

(** * Binary64 arithmetic

    The floating-point operations the sources use, over the Standard Library's
    specification floats: 53 bits of precision and exponents up to 1024. *)
Abbreviation f64 := spec_float.

(** [n as f64] for an unsigned integer, rounded to nearest even *)
Definition f64_of_u64 (n : Z) : f64 := binary_normalize 53 1024 n 0 false.
Definition f64_mul (x y : f64) : f64 := SFmul 53 1024 x y.
Definition f64_is_finite (x : f64) : bool :=
  match x with S754_zero _ | S754_finite _ _ _ => true | _ => false end.
Definition f64_0 : f64 := S754_zero false.
Definition f64_1 : f64 := f64_of_u64 1.

(** [x.round() as u64]: halves away from zero, then a saturating cast *)
Definition f64_round_u64 (x : f64) : Z :=
  match x with
  | S754_nan | S754_zero _ | S754_infinity true | S754_finite true _ _ => 0
  | S754_infinity false => u64_max
  | S754_finite false m e =>
      Z.min u64_max
        (if (0 <=? e)%Z then (Zpos m * 2 ^ e)%Z else ((Zpos m + 2 ^ (- e - 1)) / 2 ^ (- e))%Z)
  end.

Definition f64_add (x y : f64) : f64 := SFadd 53 1024 x y.
Definition f64_sub (x y : f64) : f64 := SFsub 53 1024 x y.
Definition f64_div (x y : f64) : f64 := SFdiv 53 1024 x y.

(** A decimal literal [n / d]: the quotient of two exact integers is rounded
    once, to the nearest value, as the literal is. *)
Definition f64_lit (n d : Z) : f64 := f64_div (f64_of_u64 n) (f64_of_u64 d).

(** [x >= y], false when either is NaN *)
Definition f64_ge (x y : f64) : bool := SFleb y x.

(** [x.clamp(lo, hi)] for ordered bounds *)
Definition f64_clamp (x lo hi : f64) : f64 :=
  let x := if SFltb x lo then lo else x in if SFltb hi x then hi else x.

(** [x.max(y)]: the other argument when one is NaN *)
Definition f64_max (x y : f64) : f64 :=
  match x with S754_nan => y | _ => if SFltb x y then y else x end.

(** ** Bits and decimal text *)

(** [x.to_bits()] *)
Definition f64_bits (x : f64) : Z :=
  let sign (s : bool) : Z := (if s then 2 ^ 63 else 0)%Z in
  match x with
  | S754_zero s => sign s
  | S754_infinity s => sign s + 2047 * 2 ^ 52
  | S754_nan => 4095 * 2 ^ 51
  | S754_finite s m e =>
      sign s + (if Zpos m <? 2 ^ 52 then Zpos m else (e + 1075) * 2 ^ 52 + (Zpos m - 2 ^ 52))
  end%Z.

Definition round_half_even (num den : Z) : Z :=
  let q := (num / den)%Z in
  let r := (num mod den)%Z in
  if (2 * r <? den)%Z then q else if (den <? 2 * r)%Z then (q + 1)%Z
  else if Z.even q then q else (q + 1)%Z.

Definition pad3 (n : Z) : string :=
  (if (n <? 10)%Z then "00" else if (n <? 100)%Z then "0" else "") +:+ display n.

(** [format!("{x:.3}")]: the exact value rounded to three decimals *)
Definition f64_fixed3 (x : f64) : string :=
  match x with
  | S754_zero s => (if s then "-" else "") +:+ "0.000"
  | S754_infinity s => (if s then "-" else "") +:+ "inf"
  | S754_nan => "NaN"
  | S754_finite s m e =>
      let n := if (0 <=? e)%Z then (Zpos m * 2 ^ e * 1000)%Z
               else round_half_even (Zpos m * 1000) (2 ^ (- e)) in
      (if s then "-" else "") +:+ display (n / 1000)%Z +:+ "." +:+ pad3 (n mod 1000)%Z
  end.

Example f64_fixed3_third : f64_fixed3 (f64_div f64_1 (f64_of_u64 3)) = "0.333".
Proof. vm_compute. reflexivity. Qed.
Example f64_bits_one : f64_bits f64_1 = (1023 * 2 ^ 52)%Z.
Proof. vm_compute. reflexivity. Qed.

(** * JSON values *)
Definition json_str (s : string) : Value := JString s.
Definition json_uint (n : Z) : Value := JNumber (PosInt n).
Definition json_int (n : Z) : Value := if (n <? 0)%Z then JNumber (NegInt n) else json_uint n.
Definition json_bool (b : bool) : Value := JBool b.
Definition json_opt {A} (f : A → Value) (o : option A) : Value :=
  match o with Some a => f a | None => JNull end.
(** A float that is not finite becomes [null]. *)
Definition json_f64 (x : f64) : Value :=
  if f64_is_finite x then JNumber (JFloat (f64_bits x)) else JNull.
Definition json_strs (l : list string) : Value := JArray (JString <$> l).

(** [Value::get(key)]: [None] unless the value is an object with that key *)
Definition json_get (key : string) (v : Value) : option Value :=
  match v with
  | JObject fields => snd <$> (snd <$> list_find (λ p, p.1 = key) fields)
  | _ => None
  end.

Definition json_as_str (v : Value) : option string :=
  match v with JString s => Some s | _ => None end.
Definition json_as_u64 (v : Value) : option Z :=
  match v with JNumber (PosInt n) => Some n | _ => None end.
Definition json_as_bool (v : Value) : option bool :=
  match v with JBool b => Some b | _ => None end.

(** [v.get(k).and_then(Value::as_str)] *)
Definition json_get_str (key : string) (v : Value) : option string := json_get key v ≫= json_as_str.
Definition json_get_u64 (key : string) (v : Value) : option Z := json_get key v ≫= json_as_u64.
Definition json_as_array (v : Value) : option (list Value) :=
  match v with JArray xs => Some xs | _ => None end.
Definition json_as_object (v : Value) : option (list (string * Value)) :=
  match v with JObject fields => Some fields | _ => None end.

(** ** Objects as maps: [serde_json::Map] without the [preserve_order] feature
    is a [BTreeMap], so the fields are kept in key order. *)

Fixpoint obj_insert (key : string) (v : Value) (fields : list (string * Value)) :
    list (string * Value) :=
  match fields with
  | [] => [(key, v)]
  | (k, x) :: rest =>
      if bool_decide (key = k) then (key, v) :: rest
      else if bool_decide (String.le key k) then (key, v) :: fields
      else (k, x) :: obj_insert key v rest
  end.

Definition obj_remove (key : string) (fields : list (string * Value)) : list (string * Value) :=
  filter (λ p, p.1 ≠ key) fields.

Definition obj_get (key : string) (fields : list (string * Value)) : option Value :=
  json_get key (JObject fields).

(** [map.extend(other)]: the entries of [other] in turn *)
Definition obj_extend (other fields : list (string * Value)) : list (string * Value) :=
  foldl (λ acc p, obj_insert p.1 p.2 acc) fields other.

(** [json!({ .. })] *)
Definition json_object (fields : list (string * Value)) : Value := JObject (obj_extend fields []).

Lemma obj_get_cons key k x rest :
  obj_get key ((k, x) :: rest) = if bool_decide (k = key) then Some x else obj_get key rest.
Proof.
  unfold obj_get. simpl. case_bool_decide; destruct (decide _); try done; simpl.
  by destruct (list_find _ rest) as [[? [? ?]]|].
Qed.

Lemma obj_get_insert_eq key v fields : obj_get key (obj_insert key v fields) = Some v.
Proof.
  induction fields as [|[k x] rest IH]; simpl; [by rewrite obj_get_cons, bool_decide_true|].
  repeat case_bool_decide; subst; rewrite obj_get_cons; case_bool_decide; try done; congruence.
Qed.

Lemma obj_get_insert_ne key key' v fields : key ≠ key' →
  obj_get key (obj_insert key' v fields) = obj_get key fields.
Proof.
  intros Hne. induction fields as [|[k x] rest IH]; simpl.
  { rewrite obj_get_cons, bool_decide_false; done. }
  repeat case_bool_decide; subst; rewrite ?obj_get_cons; repeat case_bool_decide; congruence.
Qed.

Lemma obj_get_remove_ne key key' fields : key ≠ key' →
  obj_get key (obj_remove key' fields) = obj_get key fields.
Proof.
  intros Hne. unfold obj_remove. induction fields as [|[k x] rest IH]; [done|].
  rewrite filter_cons, !obj_get_cons. destruct (decide (k = key')) as [->|Hk].
  - rewrite decide_False; [|intros Hn; by apply Hn]. by rewrite bool_decide_false.
  - rewrite decide_True by done. by rewrite obj_get_cons, IH.
Qed.

Lemma json_get_obj key object : json_get key (JObject object) = obj_get key object.
Proof. done. Qed.

Lemma json_get_object key fields v :
  json_get key (JObject fields) = Some v →
  (key, v) ∈ fields.
Proof.
  simpl. destruct (list_find _ fields) as [[i [k x]]|] eqn:Hf; [|done]. simpl. intros [= ->].
  apply list_find_Some in Hf as (Hi & Hk & _). simpl in Hk. subst. by eapply list_elem_of_lookup_2.
Qed.

(** ** Fields of an object under construction *)
Lemma obj_get_extend key l fields :
  obj_get key (obj_extend l fields) =
    match obj_get key (reverse l) with Some v => Some v | None => obj_get key fields end.
Proof.
  induction l as [|[k v] l IH] using rev_ind; [done|].
  unfold obj_extend in *. rewrite foldl_snoc, reverse_snoc, obj_get_cons. cbn [fst snd].
  destruct (decide (key = k)) as [->|Hne].
  - by rewrite obj_get_insert_eq, bool_decide_true.
  - by rewrite obj_get_insert_ne, IH, bool_decide_false by done.
Qed.

Lemma obj_get_app key l l' :
  obj_get key (l ++ l') = match obj_get key l with Some v => Some v | None => obj_get key l' end.
Proof.
  induction l as [|[k v] l IH]; [done|]. rewrite <-app_comm_cons, !obj_get_cons. by case_bool_decide.
Qed.

(** The value of [key] is the one written last. *)
Lemma obj_get_built key l : obj_get key (obj_extend l []) = obj_get key (reverse l).
Proof. rewrite obj_get_extend. by destruct (obj_get key (reverse l)). Qed.
