(* ===== verification/Errors.v ===== *)
(** * Errors: the error enumerations and their messages (contracts/src/errors.rs)

    [thiserror] derives [Display] from the message attributes; the instances
    below spell the messages out. The [#[from]] conversions of [KernelError]
    are its wrapping constructors. *)
From S2P Require Import Prelude RustStr Contracts.

#[export] Instance display_PackError : Display PackError := λ e,
  match e with
  | EmptyPackId => "pack_id must not be empty"
  | EmptyDomain => "domain must not be empty"
  | InvalidVersion v => "version is not valid semver: " +:+ v
  | EmptyCapabilities => "pack must grant at least one capability"
  end.

Inductive PolicyError :=
| ExpiredToken (token_id : string) (expires_at_epoch_s : Z)
| MissingCapability (token_id : string) (capability : Capability)
| PackMismatch (token_pack_id runtime_pack_id : string)
| RevokedToken (token_id : string)
| ExtensionDenied (extension reason : string)
| ToolCallDenied (tool_name reason : string).

#[export] Instance display_PolicyError : Display PolicyError := λ e,
  match e with
  | ExpiredToken id at_s => "token " +:+ id +:+ " expired at " +:+ display at_s
  | MissingCapability id c =>
      "token " +:+ id +:+ " missing required capability " +:+ debug c
  | PackMismatch t r =>
      "token pack mismatch: token pack " +:+ t +:+ " vs runtime pack " +:+ r
  | RevokedToken id => "token " +:+ id +:+ " has been revoked"
  | ExtensionDenied ext r => "policy extension " +:+ ext +:+ " denied request: " +:+ r
  | ToolCallDenied t r => "tool call denied by policy for `" +:+ t +:+ "`: " +:+ r
  end.

Inductive HarnessError :=
| Harness_AdapterNotFound (name : string)
| Harness_AdapterKindMismatch (adapter : string) (expected actual : HarnessKind)
| Harness_Execution (message : string).

#[export] Instance display_HarnessError : Display HarnessError := λ e,
  match e with
  | Harness_AdapterNotFound n => "harness adapter not found: " +:+ n
  | Harness_AdapterKindMismatch a x y =>
      "harness adapter kind mismatch for adapter " +:+ a +:+ ": expected " +:+ debug x
      +:+ ", actual " +:+ debug y
  | Harness_Execution m => "harness adapter execution failed: " +:+ m
  end.

Inductive ConnectorError :=
| Connector_NotFound (name : string)
| Connector_CoreAdapterNotFound (name : string)
| Connector_ExtensionNotFound (name : string)
| Connector_NoDefaultCoreAdapter
| Connector_Execution (message : string).

#[export] Instance display_ConnectorError : Display ConnectorError := λ e,
  match e with
  | Connector_NotFound n => "connector not found: " +:+ n
  | Connector_CoreAdapterNotFound n => "core connector adapter not found: " +:+ n
  | Connector_ExtensionNotFound n => "connector extension not found: " +:+ n
  | Connector_NoDefaultCoreAdapter => "no default core connector adapter is configured"
  | Connector_Execution m => "connector execution failed: " +:+ m
  end.

Inductive RuntimePlaneError :=
| Runtime_CoreAdapterNotFound (name : string)
| Runtime_ExtensionNotFound (name : string)
| Runtime_NoDefaultCoreAdapter
| Runtime_Execution (message : string).

#[export] Instance display_RuntimePlaneError : Display RuntimePlaneError := λ e,
  match e with
  | Runtime_CoreAdapterNotFound n => "core runtime adapter not found: " +:+ n
  | Runtime_ExtensionNotFound n => "runtime extension not found: " +:+ n
  | Runtime_NoDefaultCoreAdapter => "no default core runtime adapter is configured"
  | Runtime_Execution m => "runtime execution failed: " +:+ m
  end.

Inductive ToolPlaneError :=
| Tool_CoreAdapterNotFound (name : string)
| Tool_ExtensionNotFound (name : string)
| Tool_NoDefaultCoreAdapter
| Tool_Execution (message : string).

#[export] Instance display_ToolPlaneError : Display ToolPlaneError := λ e,
  match e with
  | Tool_CoreAdapterNotFound n => "core tool adapter not found: " +:+ n
  | Tool_ExtensionNotFound n => "tool extension not found: " +:+ n
  | Tool_NoDefaultCoreAdapter => "no default core tool adapter is configured"
  | Tool_Execution m => "tool execution failed: " +:+ m
  end.

Inductive MemoryPlaneError :=
| Memory_CoreAdapterNotFound (name : string)
| Memory_ExtensionNotFound (name : string)
| Memory_NoDefaultCoreAdapter
| Memory_Execution (message : string).

#[export] Instance display_MemoryPlaneError : Display MemoryPlaneError := λ e,
  match e with
  | Memory_CoreAdapterNotFound n => "core memory adapter not found: " +:+ n
  | Memory_ExtensionNotFound n => "memory extension not found: " +:+ n
  | Memory_NoDefaultCoreAdapter => "no default core memory adapter is configured"
  | Memory_Execution m => "memory execution failed: " +:+ m
  end.

Inductive IntegrationError :=
| ProviderNotFound (id : string)
| ChannelNotFound (id : string)
| ChannelDisabled (id : string)
| PluginScanRootNotFound (root : string)
| PluginFileRead (path reason : string)
| PluginManifestParse (path reason : string)
| AwarenessRootNotFound (root : string)
| AwarenessFileRead (path reason : string)
| PluginAbsorbFailed (plugin_id reason : string).

#[export] Instance display_IntegrationError : Display IntegrationError := λ e,
  match e with
  | ProviderNotFound i => "provider not found: " +:+ i
  | ChannelNotFound i => "channel not found: " +:+ i
  | ChannelDisabled i => "channel is disabled: " +:+ i
  | PluginScanRootNotFound r => "plugin scan root does not exist: " +:+ r
  | PluginFileRead p r => "failed to read plugin source file " +:+ p +:+ ": " +:+ r
  | PluginManifestParse p r => "invalid plugin manifest in " +:+ p +:+ ": " +:+ r
  | AwarenessRootNotFound r => "awareness root does not exist: " +:+ r
  | AwarenessFileRead p r => "failed to inspect awareness file " +:+ p +:+ ": " +:+ r
  | PluginAbsorbFailed i r => "plugin absorb failed for " +:+ i +:+ ": " +:+ r
  end.

Inductive AuditError := Audit_Sink (message : string).

#[export] Instance display_AuditError : Display AuditError := λ e,
  match e with Audit_Sink m => "audit sink failure: " +:+ m end.

Inductive KernelError :=
| PackNotFound (pack_id : string)
| DuplicatePack (pack_id : string)
| ConnectorNotAllowed (connector pack_id : string)
| PackCapabilityBoundary (pack_id : string) (capability : Capability)
| KernelError_Pack (e : PackError)
| KernelError_Policy (e : PolicyError)
| KernelError_Harness (e : HarnessError)
| KernelError_Connector (e : ConnectorError)
| KernelError_RuntimePlane (e : RuntimePlaneError)
| KernelError_ToolPlane (e : ToolPlaneError)
| KernelError_MemoryPlane (e : MemoryPlaneError)
| KernelError_Integration (e : IntegrationError)
| KernelError_Audit (e : AuditError).

#[export] Instance display_KernelError : Display KernelError := λ e,
  match e with
  | PackNotFound p => "pack not found: " +:+ p
  | DuplicatePack p => "duplicate pack id: " +:+ p
  | ConnectorNotAllowed c p => "connector " +:+ c +:+ " is not allowed by pack " +:+ p
  | PackCapabilityBoundary p c => "pack " +:+ p +:+ " does not grant capability " +:+ debug c
  | KernelError_Pack e => display e
  | KernelError_Policy e => display e
  | KernelError_Harness e => display e
  | KernelError_Connector e => display e
  | KernelError_RuntimePlane e => display e
  | KernelError_ToolPlane e => display e
  | KernelError_MemoryPlane e => display e
  | KernelError_Integration e => display e
  | KernelError_Audit e => display e
  end.
