(* ===== verification/Policy.v ===== *)
(** * Policy: the policy engine (kernel/src/policy.rs)

    [PolicyEngine] is the trait; [StaticPolicyEngine] its implementation. The
    engine's atomics and its mutex-protected set of revoked tokens are the
    fields of its state; trait methods take [&self], so each is a state
    transformer. *)
From S2P Require Import Prelude RustStr Contracts Errors.

(** ** The trait *)
Class PolicyEngine (P : Type) := {
  pe_issue_token : VerticalPackManifest → string → Z → Z → ST P PolicyError CapabilityToken;
  pe_authorize : CapabilityToken → string → Z → gset Capability → ST P PolicyError unit;
  pe_revoke_token : string → ST P PolicyError unit;
  pe_revoke_generation : Z → P → P;
  pe_check_tool_call : PolicyRequest → P → PolicyDecision;
}.

(** The trait's default methods. *)
Definition default_revoke_generation {P} (_ : Z) (p : P) : P := p.
Definition default_check_tool_call {P} (_ : PolicyRequest) (_ : P) : PolicyDecision := Allow.

(** What the kernel relies on: an authorized request is covered by an
    unexpired token of the right pack, and an issued token carries no more
    than its pack grants. *)
Class PolicyEngineLaws (P : Type) `{!PolicyEngine P} := {
  pe_authorize_sound tok pack now req p p' :
    pe_authorize tok pack now req p = (Ok (), p') →
    tok_pack_id tok = pack ∧ (now ≤ tok_expires_at_epoch_s tok)%Z ∧
    req ⊆ tok_allowed_capabilities tok;
  pe_issue_token_sound pack agent now ttl p tok p' :
    pe_issue_token pack agent now ttl p = (Ok tok, p') →
    tok_pack_id tok = pk_pack_id pack ∧ tok_agent_id tok = agent ∧
    tok_issued_at_epoch_s tok = now ∧
    tok_allowed_capabilities tok ⊆ pk_granted_capabilities pack;
}.

(** ** StaticPolicyEngine *)
Record StaticPolicyEngine := mkStaticPolicyEngine {
  se_token_seq : Z;
  se_revoked_tokens : gset string;
  se_revoked_poisoned : bool;
  se_generation : Z;
  se_revoked_below_generation : Z;
}.

(** [StaticPolicyEngine::default()] *)
Definition StaticPolicyEngine_default : StaticPolicyEngine :=
  {| se_token_seq := 0; se_revoked_tokens := ∅; se_revoked_poisoned := false;
     se_generation := 0; se_revoked_below_generation := 0 |}.

Definition set_token_seq (n : Z) (e : StaticPolicyEngine) : StaticPolicyEngine :=
  mkStaticPolicyEngine n (se_revoked_tokens e) (se_revoked_poisoned e) (se_generation e)
    (se_revoked_below_generation e).
Definition set_generation (n : Z) (e : StaticPolicyEngine) : StaticPolicyEngine :=
  mkStaticPolicyEngine (se_token_seq e) (se_revoked_tokens e) (se_revoked_poisoned e) n
    (se_revoked_below_generation e).
Definition set_revoked_below (n : Z) (e : StaticPolicyEngine) : StaticPolicyEngine :=
  mkStaticPolicyEngine (se_token_seq e) (se_revoked_tokens e) (se_revoked_poisoned e)
    (se_generation e) n.
Definition set_revoked_tokens (s : gset string) (e : StaticPolicyEngine) : StaticPolicyEngine :=
  mkStaticPolicyEngine (se_token_seq e) s (se_revoked_poisoned e) (se_generation e)
    (se_revoked_below_generation e).

(** [format!("tok-{seq:016x}")] *)
Definition token_id_of_seq (seq : Z) : string := "tok-" +:+ hex016 seq.

(** [StaticPolicyEngine::next_token_id]: [fetch_add] returns the old value;
    the sum wraps at 64 bits. *)
Definition StaticPolicyEngine_next_token_id (e : StaticPolicyEngine) : string * StaticPolicyEngine :=
  let seq := wrap64 (se_token_seq e + 1) in
  (token_id_of_seq seq, set_token_seq seq e).

(** [StaticPolicyEngine::revoke_generation]: two atomic [fetch_max]. *)
Definition StaticPolicyEngine_revoke_generation (below : Z) (e : StaticPolicyEngine) :
    StaticPolicyEngine :=
  let e := set_revoked_below (Z.max (se_revoked_below_generation e) below) e in
  set_generation (Z.max (se_generation e) below) e.

(** [StaticPolicyEngine::current_generation] *)
Definition StaticPolicyEngine_current_generation (e : StaticPolicyEngine) : Z := se_generation e.

(** [<StaticPolicyEngine as PolicyEngine>::issue_token] *)
Definition StaticPolicyEngine_issue_token (pack : VerticalPackManifest) (agent_id : string)
    (now_epoch_s ttl_s : Z) : ST StaticPolicyEngine PolicyError CapabilityToken := λ e,
  let generation := wrap64 (se_generation e + 1) in
  let e := set_generation generation e in
  let '(token_id, e) := StaticPolicyEngine_next_token_id e in
  (Ok {| tok_token_id := token_id;
         tok_pack_id := pk_pack_id pack;
         tok_agent_id := agent_id;
         tok_allowed_capabilities := pk_granted_capabilities pack;
         tok_issued_at_epoch_s := now_epoch_s;
         tok_expires_at_epoch_s := sat_add now_epoch_s ttl_s;
         tok_generation := generation |}, e).

(** [for capability in required { if !allowed.contains(capability) { return Err(..) } }] *)
Fixpoint check_capabilities (token : CapabilityToken) (required : list Capability) :
    result PolicyError unit :=
  match required with
  | [] => Ok ()
  | c :: required =>
      if decide (c ∈ tok_allowed_capabilities token) then check_capabilities token required
      else Err (MissingCapability (tok_token_id token) c)
  end.

(** [<StaticPolicyEngine as PolicyEngine>::authorize]; it only reads. *)
Definition StaticPolicyEngine_authorize (token : CapabilityToken) (runtime_pack_id : string)
    (now_epoch_s : Z) (required : gset Capability) : ST StaticPolicyEngine PolicyError unit := λ e,
  (if se_revoked_poisoned e then Err (RevokedToken (tok_token_id token))
   else if decide (tok_token_id token ∈ se_revoked_tokens e) then
     Err (RevokedToken (tok_token_id token))
   else if ((0 <? tok_generation token) && (tok_generation token <=? se_revoked_below_generation e))%Z
   then Err (RevokedToken (tok_token_id token))
   else if decide (tok_pack_id token ≠ runtime_pack_id) then
     Err (PackMismatch (tok_pack_id token) runtime_pack_id)
   else if (tok_expires_at_epoch_s token <? now_epoch_s)%Z then
     Err (ExpiredToken (tok_token_id token) (tok_expires_at_epoch_s token))
   else check_capabilities token (caps_iter required), e).

(** [<StaticPolicyEngine as PolicyEngine>::revoke_token] *)
Definition StaticPolicyEngine_revoke_token (token_id : string) :
    ST StaticPolicyEngine PolicyError unit := λ e,
  if se_revoked_poisoned e then (Err (RevokedToken token_id), e)
  else (Ok (), set_revoked_tokens ({[token_id]} ∪ se_revoked_tokens e) e).

#[export] Instance StaticPolicyEngine_PolicyEngine : PolicyEngine StaticPolicyEngine := {|
  pe_issue_token := StaticPolicyEngine_issue_token;
  pe_authorize := StaticPolicyEngine_authorize;
  pe_revoke_token := StaticPolicyEngine_revoke_token;
  pe_revoke_generation := StaticPolicyEngine_revoke_generation;
  pe_check_tool_call := default_check_tool_call;
|}.

(** ** Authorization *)

Lemma check_capabilities_Ok token required :
  check_capabilities token required = Ok () ↔
  (∀ c, c ∈ required → c ∈ tok_allowed_capabilities token).
Proof.
  induction required as [|c l IH]; simpl; [split; [|done]; by intros _ c ?%not_elem_of_nil|].
  case_decide as Hc.
  - rewrite IH. setoid_rewrite elem_of_cons. naive_solver.
  - split; [done|]. intros H. destruct Hc. apply H; by left.
Qed.

Lemma check_capabilities_Err token required e :
  check_capabilities token required = Err e →
  ∃ pre c post, required = pre ++ c :: post ∧ (c ∉ tok_allowed_capabilities token) ∧
    (∀ d, d ∈ pre → d ∈ tok_allowed_capabilities token) ∧
    e = MissingCapability (tok_token_id token) c.
Proof.
  induction required as [|c l IH]; simpl; [done|]. case_decide as Hc.
  - intros (pre & d & post & -> & ? & Hpre & ?)%IH. exists (c :: pre), d, post.
    split_and!; [done..| |done]. intros x [->|?]%elem_of_cons; auto.
  - intros [= <-]. exists [], c, l. split_and!; [done..| |done]. by intros d ?%not_elem_of_nil.
Qed.

(** A token is revoked when its id is, or when its generation is at or below
    the revoked threshold (generation 0 marks tokens of other issuers). *)
Definition revoked (e : StaticPolicyEngine) (token : CapabilityToken) : Prop :=
  se_revoked_poisoned e = true ∨ tok_token_id token ∈ se_revoked_tokens e ∨
  (0 < tok_generation token ≤ se_revoked_below_generation e)%Z.

#[export] Instance revoked_dec e token : Decision (revoked e token).
Proof. unfold revoked. apply _. Defined.

(** The whole decision of [authorize] as one table, in the order in which the
    code tests. *)
Lemma authorize_table token pack now required e :
  StaticPolicyEngine_authorize token pack now required e =
  (if decide (revoked e token) then Err (RevokedToken (tok_token_id token))
   else if decide (tok_pack_id token ≠ pack) then Err (PackMismatch (tok_pack_id token) pack)
   else if decide (tok_expires_at_epoch_s token < now)%Z then
     Err (ExpiredToken (tok_token_id token) (tok_expires_at_epoch_s token))
   else check_capabilities token (caps_iter required), e).
Proof.
  unfold StaticPolicyEngine_authorize. f_equal.
  destruct (se_revoked_poisoned e) eqn:Hp.
  { rewrite decide_True by (left; done). done. }
  case_decide as Hin. { rewrite decide_True by (right; left; done). done. }
  destruct (_ && _) eqn:Hg.
  { apply andb_true_iff in Hg as [?%Z.ltb_lt ?%Z.leb_le].
    rewrite decide_True by (right; right; done). done. }
  apply andb_false_iff in Hg.
  rewrite (decide_False (P := revoked e token)).
  2:{ intros [?|[?|?]]; [congruence|done|].
      destruct Hg as [?%Z.ltb_ge|?%Z.leb_gt]; lia. }
  case_decide; [done|]. destruct (Z.ltb_spec (tok_expires_at_epoch_s token) now);
    [rewrite decide_True by done|rewrite decide_False by lia]; done.
Qed.

Lemma authorize_Ok token pack now required e e' :
  StaticPolicyEngine_authorize token pack now required e = (Ok (), e') ↔
  e' = e ∧ ¬ revoked e token ∧ tok_pack_id token = pack ∧
  (now ≤ tok_expires_at_epoch_s token)%Z ∧ required ⊆ tok_allowed_capabilities token.
Proof.
  rewrite authorize_table.
  repeat case_decide; try (split; [by intros [=]|naive_solver lia]).
  assert (check_capabilities token (caps_iter required) = Ok () ↔
    required ⊆ tok_allowed_capabilities token) as Hc.
  { rewrite check_capabilities_Ok. setoid_rewrite elem_of_caps_iter. done. }
  split.
  - intros [= ? <-]. split_and!; [done|done|by first [assumption|apply dec_stable]|lia|by apply Hc].
  - intros (-> & _ & _ & _ & Hs). f_equal. by apply Hc.
Qed.

#[export] Instance StaticPolicyEngine_laws : PolicyEngineLaws StaticPolicyEngine.
Proof.
  split.
  - intros tok pack now req p p' (_ & _ & ? & ? & ?)%authorize_Ok. done.
  - intros pack agent now ttl p tok p' [= <- <-]. simpl. done.
Qed.

(** * The policy extension chain (kernel/src/policy_ext.rs) *)

Record PolicyExtensionContext := mkPolicyExtensionContext {
  px_pack : VerticalPackManifest;
  px_token : CapabilityToken;
  px_now_epoch_s : Z;
  px_required_capabilities : gset Capability;
  px_request_parameters : option Value;
}.

Section chain.
  Context {W : Type}.

(** [trait PolicyExtension] *)
Record PolicyExtension := mkPolicyExtension {
  px_name : string;
  px_authorize_extension : PolicyExtensionContext → ST W PolicyError unit;
}.

(** [struct PolicyExtensionChain { extensions: Vec<..> }] *)
Definition PolicyExtensionChain : Type := list PolicyExtension.

Definition PolicyExtensionChain_new : PolicyExtensionChain := [].

Definition PolicyExtensionChain_register (e : PolicyExtension) (c : PolicyExtensionChain) :
    PolicyExtensionChain := c ++ [e].

(** [PolicyExtensionChain::authorize]: every extension in registration order,
    stopping at the first refusal. *)
Definition PolicyExtensionChain_authorize (c : PolicyExtensionChain)
    (context : PolicyExtensionContext) : ST W PolicyError unit :=
  for_each (λ extension, px_authorize_extension extension context) c.

(** A chain allows a request only when every extension does: registering an
    extension can only restrict. *)
Lemma chain_register_restricts e c context w w' :
  PolicyExtensionChain_authorize (PolicyExtensionChain_register e c) context w = (Ok (), w') →
  ∃ w1, PolicyExtensionChain_authorize c context w = (Ok (), w1) ∧
    px_authorize_extension e context w1 = (Ok (), w').
Proof.
  unfold PolicyExtensionChain_register, PolicyExtensionChain_authorize. revert w.
  induction c as [|e0 c IH]; intros w; simpl.
  - intros H. apply st_bind_Ok in H as ([] & w1 & He & [= ->]). by exists w.
  - intros H. apply st_bind_Ok in H as ([] & w1 & He & H). apply IH in H as (w2 & Hc & ?).
    exists w2. split; [|done]. apply st_bind_Ok. by exists (), w1.
Qed.
End chain.
Arguments PolicyExtension : clear implicits.
Arguments PolicyExtensionChain : clear implicits.
