(* ===== verification/PolicyConc.v ===== *)
(** * PolicyConc: the policy engine under concurrent calls

    [StaticPolicyEngine] is shared by every agent through [&self]. Each call
    below is split into the atomic accesses the source makes to the engine's
    atomics and to its locked set, and calls of any number of threads
    interleave in every order. Steps are sequentially consistent: statements
    about a single atomic hold under the source's [Relaxed] ordering as well,
    and the one statement that relates two of them
    ([quiescent_issue_not_revoked]) is about the interleaving semantics. *)
From S2P Require Import Prelude RustStr Contracts Errors Policy.

(** A call in progress. *)
Inductive call :=
| CIssue (pack : VerticalPackManifest) (agent_id : string) (now ttl : Z)
| CIssueGen (pack : VerticalPackManifest) (agent_id : string) (now ttl generation : Z)
| CIssued (token : CapabilityToken)
| CRevokeGen (below : Z)
| CRevokeGenMid (below : Z)
| CRevokeGenDone (below : Z)
| CRevoke (token_id : string)
| CRevokeDone (token_id : string) (r : result PolicyError unit)
| CAuth (token : CapabilityToken) (pack_id : string) (now : Z) (required : gset Capability)
| CAuthMid (token : CapabilityToken) (pack_id : string) (now : Z) (required : gset Capability)
| CAuthDone (token : CapabilityToken) (r : result PolicyError unit).

(** The tests of [authorize] that follow the locked membership test. *)
Definition authorize_tail (e : StaticPolicyEngine) (token : CapabilityToken) (pack_id : string)
    (now : Z) (required : gset Capability) : result PolicyError unit :=
  if ((0 <? tok_generation token) && (tok_generation token <=? se_revoked_below_generation e))%Z
  then Err (RevokedToken (tok_token_id token))
  else if decide (tok_pack_id token ≠ pack_id) then Err (PackMismatch (tok_pack_id token) pack_id)
  else if (tok_expires_at_epoch_s token <? now)%Z then
    Err (ExpiredToken (tok_token_id token) (tok_expires_at_epoch_s token))
  else check_capabilities token (caps_iter required).

(** One atomic access of one call. *)
Inductive call_step : StaticPolicyEngine → call → StaticPolicyEngine → call → Prop :=
| step_issue_gen e pack agent now ttl :
    call_step e (CIssue pack agent now ttl)
      (set_generation (wrap64 (se_generation e + 1)) e)
      (CIssueGen pack agent now ttl (wrap64 (se_generation e + 1)))
| step_issue_seq e pack agent now ttl generation :
    call_step e (CIssueGen pack agent now ttl generation)
      (set_token_seq (wrap64 (se_token_seq e + 1)) e)
      (CIssued {| tok_token_id := token_id_of_seq (wrap64 (se_token_seq e + 1));
                  tok_pack_id := pk_pack_id pack;
                  tok_agent_id := agent;
                  tok_allowed_capabilities := pk_granted_capabilities pack;
                  tok_issued_at_epoch_s := now;
                  tok_expires_at_epoch_s := sat_add now ttl;
                  tok_generation := generation |})
| step_revoke_gen_threshold e below :
    call_step e (CRevokeGen below)
      (set_revoked_below (Z.max (se_revoked_below_generation e) below) e) (CRevokeGenMid below)
| step_revoke_gen_forward e below :
    call_step e (CRevokeGenMid below)
      (set_generation (Z.max (se_generation e) below) e) (CRevokeGenDone below)
| step_revoke e id :
    call_step e (CRevoke id) (StaticPolicyEngine_revoke_token id e).2
      (CRevokeDone id (StaticPolicyEngine_revoke_token id e).1)
| step_auth_revoked e token pack now required :
    se_revoked_poisoned e = true ∨ tok_token_id token ∈ se_revoked_tokens e →
    call_step e (CAuth token pack now required) e
      (CAuthDone token (Err (RevokedToken (tok_token_id token))))
| step_auth_pass e token pack now required :
    se_revoked_poisoned e = false → tok_token_id token ∉ se_revoked_tokens e →
    call_step e (CAuth token pack now required) e (CAuthMid token pack now required)
| step_auth_tail e token pack now required :
    call_step e (CAuthMid token pack now required) e
      (CAuthDone token (authorize_tail e token pack now required)).

(** A call that has not made its first access yet. *)
Definition initial_call (c : call) : bool :=
  match c with CIssue _ _ _ _ | CRevokeGen _ | CRevoke _ | CAuth _ _ _ _ => true | _ => false end.

(** Any started call may move, and a new call may start at any time. *)
Inductive pool_step : StaticPolicyEngine * list call → StaticPolicyEngine * list call → Prop :=
| pool_move e e' cs i c c' :
    cs !! i = Some c → call_step e c e' c' → pool_step (e, cs) (e', <[i:=c']> cs)
| pool_start e cs c : initial_call c = true → pool_step (e, cs) (e, cs ++ [c]).

(** The engine as built by [default()], with no call made yet. *)
Definition pool_init : StaticPolicyEngine * list call := (StaticPolicyEngine_default, []).
Definition pool_reachable (p : StaticPolicyEngine * list call) : Prop := steps pool_step pool_init p.

(** ** The atomic steps compose to the sequential operations *)

Lemma solo_move e c e' c' : call_step e c e' c' → pool_step (e, [c]) (e', [c']).
Proof. intros H. exact (pool_move e e' [c] 0 c c' eq_refl H). Qed.

Lemma solo_issue e pack agent now ttl tok e' :
  StaticPolicyEngine_issue_token pack agent now ttl e = (Ok tok, e') →
  steps pool_step (e, [CIssue pack agent now ttl]) (e', [CIssued tok]).
Proof.
  intros [= <- <-].
  eapply steps_snoc; 
    [|apply solo_move, (step_issue_seq (set_generation (wrap64 (se_generation e + 1)) e))].
  eapply steps_snoc; [apply steps_refl|]. eapply solo_move, step_issue_gen.
Qed.

Lemma solo_revoke_generation e below :
  steps pool_step (e, [CRevokeGen below])
    (StaticPolicyEngine_revoke_generation below e, [CRevokeGenDone below]).
Proof.
  eapply steps_snoc; 
    [|apply solo_move, (step_revoke_gen_forward
        (set_revoked_below (Z.max (se_revoked_below_generation e) below) e))].
  eapply steps_snoc; [apply steps_refl|]. eapply solo_move, step_revoke_gen_threshold.
Qed.

Lemma solo_authorize e token pack now required :
  steps pool_step (e, [CAuth token pack now required])
    (e, [CAuthDone token (StaticPolicyEngine_authorize token pack now required e).1]).
Proof.
  unfold StaticPolicyEngine_authorize. simpl.
  destruct (se_revoked_poisoned e) eqn:Hp; [|case_decide as Hin].
  - eapply steps_snoc; [apply steps_refl|]. apply solo_move.
    apply step_auth_revoked. by left.
  - eapply steps_snoc; [apply steps_refl|]. apply solo_move.
    apply step_auth_revoked. by right.
  - eapply steps_snoc; [|apply solo_move, step_auth_tail].
    eapply steps_snoc; [apply steps_refl|]. by apply solo_move, step_auth_pass.
Qed.

(** ** Revocation is permanent *)

Lemma call_step_revoked e c e' c' token :
  call_step e c e' c' → revoked e token → revoked e' token.
Proof.
  intros []; unfold revoked; simpl; try done; try naive_solver lia.
  unfold StaticPolicyEngine_revoke_token. destruct (se_revoked_poisoned e0) eqn:?; simpl; [naive_solver|].
  set_solver.
Qed.

Lemma pool_step_revoked p p' token : revoked p.1 token → pool_step p p' → revoked p'.1 token.
Proof. intros Hr Hs. inversion Hs; subst; simpl in *; eauto using call_step_revoked. Qed.

(** ** Token identities *)

Definition issued_id (c : call) : option string :=
  match c with CIssued tok => Some (tok_token_id tok) | _ => None end.

(** Ids handed out so far come from distinct sequence numbers. *)
Definition ids_ok (p : StaticPolicyEngine * list call) : Prop :=
  (len p.2 ≤ u64_max)%Z →
  NoDup (omap issued_id p.2) ∧
  se_token_seq p.1 = len (omap issued_id p.2) ∧
  Forall (λ id, ∃ n, id = token_id_of_seq n ∧ (1 ≤ n ≤ se_token_seq p.1)%Z) (omap issued_id p.2).

Lemma token_id_of_seq_inj m n : is_u64 m → is_u64 n → token_id_of_seq m = token_id_of_seq n → m = n.
Proof. unfold token_id_of_seq. intros Hm Hn H%(inj _). by apply hex016_inj. Qed.

Lemma len_omap_le {A B} (f : A → option B) (l : list A) : (len (omap f l) ≤ len l)%Z.
Proof. unfold len. rewrite <-Nat2Z.inj_le. induction l as [|x l IH]; csimpl; [done|]. destruct (f x); simpl; lia. Qed.

Lemma omap_issued_insert_skip (cs : list call) i c c' :
  cs !! i = Some c → issued_id c = None → issued_id c' = None →
  omap issued_id (<[i:=c']> cs) = omap issued_id cs.
Proof. intros Hi Hc Hc'. eapply omap_insert_same; [done|congruence]. Qed.

(** A step either hands out the next id or leaves ids and counter alone. *)
Lemma call_step_ids e c e' c' : call_step e c e' c' →
  (issued_id c = issued_id c' ∧ se_token_seq e' = se_token_seq e) ∨
  (issued_id c = None ∧ se_token_seq e' = wrap64 (se_token_seq e + 1) ∧
   issued_id c' = Some (token_id_of_seq (wrap64 (se_token_seq e + 1)))).
Proof.
  intros []; simpl; auto. left. split; [done|].
  unfold StaticPolicyEngine_revoke_token. by case_match.
Qed.

Lemma ids_ok_step p p' : ids_ok p → pool_step p p' → ids_ok p'.
Proof.
  intros Hok Hs Hlen. inversion Hs as [e e' cs i c c' Hi Hc|e cs c Hini]; subst; simpl in *.
  - assert (len cs ≤ u64_max)%Z as Hlen' by (unfold len in *; by rewrite length_insert in Hlen).
    specialize (Hok Hlen') as (Hnd & Hseq & Hall). simpl in *.
    destruct (call_step_ids _ _ _ _ Hc) as [[Hid ->]|(Hc0 & Hseq' & Hc1)].
    { rewrite (omap_insert_same _ _ _ _ _ Hi Hid). done. }
    assert (len (omap issued_id cs) < len cs)%Z as Hlt.
    { assert (Permutation (omap issued_id (<[i:=c']> cs)) _) as Hp by
        (eapply omap_insert_fresh; eauto).
      pose proof (len_omap_le issued_id (<[i:=c']> cs)) as Hle.
      unfold len in *. rewrite Hp, length_insert in Hle. simpl in Hle. lia. }
    rewrite wrap64_small in Hseq', Hc1
      by (pose proof (len_nonneg (omap issued_id cs)); unfold is_u64; lia).
    rewrite Hseq'. rewrite (omap_insert_fresh _ _ _ _ _ _ Hi Hc0 Hc1).
    split_and!.
    + apply NoDup_cons. split; [|done]. intros Hin.
      eapply Forall_forall in Hall as (n & Hn & ?); [|done].
      apply token_id_of_seq_inj in Hn; unfold is_u64 in *; lia.
    + rewrite len_cons, Hseq. lia.
    + constructor; [exists (se_token_seq e + 1)%Z; pose proof (len_nonneg (omap issued_id cs)); split; [done|lia]|].
      eapply Forall_impl; [exact Hall|]. intros id (n & -> & ?). exists n. split; [done|lia].
  - rewrite len_app in Hlen. unfold len in Hlen at 2; simpl in Hlen.
    rewrite omap_app. destruct Hok as (? & ? & ?); [simpl; lia|].
    destruct c; simpl in *; try done; by rewrite app_nil_r.
Qed.

Lemma pool_reachable_ids p : pool_reachable p → ids_ok p.
Proof.
  apply (steps_invariant _ _ _ _ ids_ok_step).
  intros _. simpl. split_and!; [apply NoDup_nil_2|done|by constructor].
Qed.

(** ** Generations *)

(** The threshold runs ahead of the generation counter only while a
    revocation is between its two accesses. *)
Definition threshold_ok (p : StaticPolicyEngine * list call) : Prop :=
  (se_revoked_below_generation p.1 ≤ se_generation p.1)%Z ∨
  CRevokeGenMid (se_revoked_below_generation p.1) ∈ p.2.

(** Calls that have taken a generation. *)
Definition took_generation (c : call) : option unit :=
  match c with CIssueGen _ _ _ _ _ | CIssued _ => Some () | _ => None end.

(** Revocations name a generation between 0 and [B]. *)
Definition revokes_at_most (B : Z) (c : call) : Prop :=
  match c with
  | CRevokeGen below | CRevokeGenMid below | CRevokeGenDone below => (0 ≤ below ≤ B)%Z
  | _ => True
  end.

(** Below the bound no generation wraps, and the threshold invariant holds. *)
Definition generations_ok (B : Z) (p : StaticPolicyEngine * list call) : Prop :=
  Forall (revokes_at_most B) p.2 → (0 ≤ B)%Z → (B + len p.2 ≤ u64_max)%Z →
  (0 ≤ se_generation p.1 ≤ B + len (omap took_generation p.2))%Z ∧ threshold_ok p.

Lemma call_step_revokes B e c e' c' :
  call_step e c e' c' → revokes_at_most B c' ↔ revokes_at_most B c.
Proof. by intros []. Qed.

Lemma call_step_generations B e c e' c' : call_step e c e' c' → revokes_at_most B c' →
  (took_generation c = None ∧ took_generation c' = Some () ∧
   se_generation e' = wrap64 (se_generation e + 1)) ∨
  (took_generation c = took_generation c' ∧ se_generation e ≤ se_generation e' ≤
   Z.max B (se_generation e))%Z.
Proof.
  intros []; simpl; intros; eauto; try (right; split; [done|lia]).
  right. split; [done|]. unfold StaticPolicyEngine_revoke_token. case_match; simpl; lia.
Qed.

Lemma threshold_ok_step e c e' c' cs i : cs !! i = Some c → call_step e c e' c' →
  (se_generation e ≤ se_generation e')%Z →
  threshold_ok (e, cs) → threshold_ok (e', <[i:=c']> cs).
Proof.
  unfold threshold_ok. simpl. intros Hi Hs Hg Ht.
  assert (i < length cs) as Hlt by (by eapply lookup_lt_Some).
  (* another call keeps its place *)
  assert (∀ d, d ∈ cs → d ≠ c → d ∈ <[i:=c']> cs) as Hkeep.
  { intros d [j Hj]%list_elem_of_lookup Hne. apply list_elem_of_lookup. exists j.
    rewrite list_lookup_insert_ne; [done|congruence]. }
  assert (c' ∈ <[i:=c']> cs) as Hnew by (by apply list_elem_of_insert).
  destruct Hs; simpl in *; try (destruct Ht; [left; lia|right; by apply Hkeep]).
  - destruct (Z.max_spec (se_revoked_below_generation e) below) as [[? ->]|[? ->]];
      [by right|]. destruct Ht; [by left|right; by apply Hkeep].
  - destruct Ht as [?|Hin]; [left; lia|].
    destruct (decide (se_revoked_below_generation e = below)) as [?|Hne]; [left; lia|].
    right. apply Hkeep; [done|congruence].
  - assert (se_revoked_below_generation (StaticPolicyEngine_revoke_token id e).2
      = se_revoked_below_generation e ∧
      se_generation (StaticPolicyEngine_revoke_token id e).2 = se_generation e) as [-> ->]
      by (unfold StaticPolicyEngine_revoke_token; by case_match).
    destruct Ht; [by left|right; by apply Hkeep].
Qed.

Lemma generations_ok_step B p p' : generations_ok B p → pool_step p p' → generations_ok B p'.
Proof.
  intros Hok Hs Hall HB Hlen.
  inversion Hs as [e e' cs i c c' Hi Hc|e cs c Hini]; subst; simpl in *.
  - assert (revokes_at_most B c') as Hc'
      by (eapply Forall_lookup_1; [exact Hall|apply list_lookup_insert_eq; by eapply lookup_lt_Some]).
    assert (Forall (revokes_at_most B) cs) as Hall'.
    { apply Forall_lookup. intros j d Hj. destruct (decide (i = j)) as [->|Hne].
      - simplify_eq. by apply (call_step_revokes _ _ _ _ _ Hc).
      - eapply Forall_lookup_1; [exact Hall|]. by rewrite list_lookup_insert_ne. }
    assert (len (<[i:=c']> cs) = len cs) as Hlen' by (unfold len; by rewrite length_insert).
    rewrite Hlen' in Hlen. destruct (Hok Hall' HB Hlen) as [Hg Ht]. simpl in *.
    destruct (call_step_generations _ _ _ _ _ Hc Hc') as [(Hn & Hs' & Hgen)|[Hsame Hgen]].
    + pose proof (len_omap_le took_generation (<[i:=c']> cs)) as Hle. rewrite Hlen' in Hle.
      rewrite (omap_insert_fresh _ _ _ _ _ _ Hi Hn Hs') in Hle |- *. rewrite len_cons in *.
      rewrite wrap64_small in Hgen by (unfold is_u64; lia).
      split; [lia|]. eapply threshold_ok_step; eauto. lia.
    + rewrite (omap_insert_same _ _ _ _ _ Hi Hsame).
      pose proof (len_nonneg (omap took_generation cs)).
      split; [lia|]. eapply threshold_ok_step; eauto. lia.
  - apply Forall_app in Hall as [Hall _]. rewrite len_app in Hlen. pose proof (len_nonneg [c]).
    destruct (Hok Hall HB) as [Hg Ht]; [simpl; lia|]. simpl in *. rewrite omap_app, len_app.
    pose proof (len_nonneg (omap took_generation [c])).
    split; [lia|]. destruct Ht; [by left|right; apply elem_of_app; by left].
Qed.

Lemma pool_reachable_generations B p : pool_reachable p → generations_ok B p.
Proof.
  apply (steps_invariant _ _ _ _ (generations_ok_step B)).
  intros _ ? _. split; [unfold len; simpl; lia|]. left. simpl. lia.
Qed.

(** A token tracked through one [authorize] call that started after the token
    was revoked. *)
Definition auth_after_revoke (i : nat) (token : CapabilityToken)
    (p : StaticPolicyEngine * list call) : Prop :=
  revoked p.1 token ∧
  match p.2 !! i with
  | Some (CAuth t _ _ _) => t = token
  | Some (CAuthMid t _ _ _) =>
      t = token ∧ (0 < tok_generation token ≤ se_revoked_below_generation p.1)%Z
  | Some (CAuthDone t r) => t = token ∧ r = Err (RevokedToken (tok_token_id token))
  | _ => False
  end.

Lemma call_step_threshold e c e' c' : call_step e c e' c' →
  (se_revoked_below_generation e ≤ se_revoked_below_generation e')%Z.
Proof. intros []; simpl; try lia. unfold StaticPolicyEngine_revoke_token. case_match; simpl; lia. Qed.

Lemma authorize_tail_revoked e token pack now required :
  (0 < tok_generation token ≤ se_revoked_below_generation e)%Z →
  authorize_tail e token pack now required = Err (RevokedToken (tok_token_id token)).
Proof.
  intros [? ?]. unfold authorize_tail.
  rewrite (proj2 (Z.ltb_lt _ _)), (proj2 (Z.leb_le _ _)) by done. done.
Qed.

Lemma auth_after_revoke_move i token e e' cs j c c' :
  auth_after_revoke i token (e, cs) → cs !! j = Some c → call_step e c e' c' →
  auth_after_revoke i token (e', <[j:=c']> cs).
Proof.
  unfold auth_after_revoke. simpl. intros [Hr Hi] Hj Hc.
  split; [by eapply call_step_revoked|]. pose proof (call_step_threshold _ _ _ _ Hc) as Hth.
  destruct (decide (j = i)) as [->|Hne].
  - rewrite Hj in Hi. rewrite list_lookup_insert_eq by (by eapply lookup_lt_Some).
    destruct Hc; simpl in *; try done; subst.
    + done.
    + split; [done|]. destruct Hr as [?|[?|?]]; [congruence|done|done].
    + destruct Hi as [-> ?]. split; [done|]. by apply authorize_tail_revoked.
  - rewrite list_lookup_insert_ne by done. destruct (cs !! i) as [[]|]; try done.
    destruct Hi. split; [done|lia].
Qed.

Lemma auth_after_revoke_step i token p p' :
  auth_after_revoke i token p → pool_step p p' → auth_after_revoke i token p'.
Proof.
  intros Ha Hs. inversion Hs as [e e' cs j c c' Hj Hc|e cs c Hini]; subst.
  - by eapply auth_after_revoke_move.
  - destruct Ha as [Hr Hi]. split; [done|]. simpl in *.
    destruct (cs !! i) as [d|] eqn:Hd; [|done]. by rewrite (lookup_app_l_Some _ _ _ _ Hd).
Qed.

(** ** Results *)

(** Two tokens handed out by concurrent [issue_token] calls never share
    an id, whatever the interleaving, as long as fewer than 2^64 calls have
    been made. *)
Theorem concurrent_token_ids_unique p i j ti tj :
  pool_reachable p → (len p.2 ≤ u64_max)%Z →
  p.2 !! i = Some (CIssued ti) → p.2 !! j = Some (CIssued tj) →
  tok_token_id ti = tok_token_id tj → i = j.
Proof.
  intros Hr Hlen Hi Hj Hid. destruct (pool_reachable_ids p Hr Hlen) as [Hnd _].
  eapply (NoDup_omap_inj issued_id); eauto; simpl; congruence.
Qed.

(** C4. Once a token is revoked, by id or by generation, every [authorize]
    call that starts afterwards and finishes reports it revoked, however the
    calls of other threads interleave with it. *)
Theorem revocation_is_permanent p p' i token pack now required t r :
  revoked p.1 token → p.2 !! i = Some (CAuth token pack now required) →
  steps pool_step p p' → p'.2 !! i = Some (CAuthDone t r) →
  t = token ∧ r = Err (RevokedToken (tok_token_id token)).
Proof.
  intros Hr Hi Hs Hd.
  assert (auth_after_revoke i token p') as [_ Hm].
  { eapply steps_invariant; [apply auth_after_revoke_step| |exact Hs].
    split; [done|]. by rewrite Hi. }
  by rewrite Hd in Hm.
Qed.

(** When no revocation is between its two accesses, a token issued next
    has a generation above the revoked threshold: fast-forwarding the counter
    keeps new tokens valid. *)
Theorem quiescent_issue_not_revoked B p pack agent now ttl tok e' :
  pool_reachable p → Forall (revokes_at_most B) p.2 → (0 ≤ B)%Z →
  (B + len p.2 < u64_max)%Z → (∀ below, CRevokeGenMid below ∉ p.2) →
  StaticPolicyEngine_issue_token pack agent now ttl p.1 = (Ok tok, e') →
  (se_revoked_below_generation e' < tok_generation tok)%Z.
Proof.
  intros Hr Hall HB Hlen Hq [= <- <-]. simpl.
  destruct (pool_reachable_generations B p Hr Hall HB) as [Hg [Ht|Hm]]; [lia| |by destruct (Hq _ Hm)].
  pose proof (len_omap_le took_generation p.2).
  rewrite wrap64_small by (unfold is_u64; lia). lia.
Qed.

(** The race the source documents: a token issued between the two accesses of
    a revocation is born revoked. *)
Example issue_during_revocation_is_revoked (pack : VerticalPackManifest) :
  ∃ tok, pool_reachable
    (set_generation 1 (set_token_seq 1 (set_revoked_below 5 StaticPolicyEngine_default)),
     [CRevokeGenMid 5; CIssued tok]) ∧ tok_generation tok = 1%Z.
Proof.
  pose proof (steps_refl pool_step pool_init) as H.
  eapply (steps_snoc pool_step _ _ _) in H; [|by apply (pool_start _ _ (CRevokeGen 5))].
  eapply (steps_snoc pool_step _ _ _) in H; [|eapply (pool_move _ _ _ 0); [reflexivity|apply step_revoke_gen_threshold]].
  eapply (steps_snoc pool_step _ _ _) in H; [|by apply (pool_start _ _ (CIssue pack "a" 0 0))].
  eapply (steps_snoc pool_step _ _ _) in H; [|eapply (pool_move _ _ _ 1); [reflexivity|apply step_issue_gen]].
  eapply (steps_snoc pool_step _ _ _) in H; [|eapply (pool_move _ _ _ 1); [reflexivity|apply step_issue_seq]].
  eexists. split; [exact H|done].
Qed.

(** ** The theorems on concrete pools *)
Module ConcDemo.
Definition pack : VerticalPackManifest :=
  {| pk_pack_id := "sales"; pk_domain := "sales"; pk_version := "1.0.0";
     pk_default_route := mkExecutionRoute EmbeddedPi None; pk_allowed_connectors := ∅;
     pk_granted_capabilities := {[InvokeTool]}; pk_metadata := ∅ |}.

Definition token : CapabilityToken :=
  mkCapabilityToken (token_id_of_seq 1) "sales" "a" {[InvokeTool]} 0 60 1.

Definition engine : StaticPolicyEngine := set_token_seq 1 (set_generation 1 StaticPolicyEngine_default).

Lemma issued_reachable : pool_reachable (engine, [CIssued token]).
Proof.
  eapply steps_trans; [|by apply (solo_issue StaticPolicyEngine_default pack "a" 0 60)].
  eapply steps_snoc; [apply steps_refl|].
  by apply (pool_start StaticPolicyEngine_default [] (CIssue pack "a" 0 60)).
Qed.

Lemma concurrent_token_ids_witness : 0 = 0.
Proof.
  apply (concurrent_token_ids_unique _ 0 0 token token issued_reachable);
    first [reflexivity|unfold len, u64_max; simpl; lia].
Defined.

(** The token is revoked by generation while its authorization is queued. *)
Lemma revocation_witness :
  token = token ∧
  (StaticPolicyEngine_authorize token "sales" 10 ∅ (set_revoked_below 5 engine)).1 =
    Err (RevokedToken (token_id_of_seq 1)).
Proof.
  apply (revocation_is_permanent
    (set_revoked_below 5 engine, [CAuth token "sales" 10 ∅])
    (set_revoked_below 5 engine, [CAuthDone token
       (StaticPolicyEngine_authorize token "sales" 10 ∅ (set_revoked_below 5 engine)).1])
    0 token "sales" 10 ∅); try reflexivity; [by apply (bool_decide_unpack _)|].
  apply solo_authorize.
Defined.

Lemma quiescent_issue_witness :
  (se_revoked_below_generation
     (StaticPolicyEngine_issue_token pack "a" 0 60 engine).2 < 2)%Z.
Proof.
  apply (quiescent_issue_not_revoked 5 _ pack "a" 0 60
    (mkCapabilityToken (token_id_of_seq 2) "sales" "a" {[InvokeTool]} 0 60 2) _ issued_reachable);
    try (unfold len, u64_max; simpl; lia); [by repeat constructor| |reflexivity].
  by intros below [?|[]%not_elem_of_nil]%elem_of_cons.
Defined.
End ConcDemo.
