(* ===== verification/AuditSinks.v ===== *)
(** * AuditSinks: audit sinks (kernel/src/audit.rs)

    A sink is one method, [record]. [NoopAuditSink] drops events,
    [InMemoryAuditSink] appends to a mutex-protected vector, [JsonlAuditSink]
    appends a line to a locked file, and [FanoutAuditSink] forwards to its
    children in order. *)
From S2P Require Import Prelude RustStr Contracts Errors.

(** [trait AuditSink] *)
Definition AuditSink (W : Type) : Type := AuditEvent → ST W AuditError unit.

(** The environment [W] is shared by every sink of the file. *)
Section sinks.
  Context {W : Type}.

(** [NoopAuditSink::record] *)
Definition NoopAuditSink_record : AuditSink W := λ _, mret ().

(** ** InMemoryAuditSink *)

(** [Mutex<Vec<AuditEvent>>]; a poisoned mutex fails to lock. *)
Record EventLog := mkEventLog { log_poisoned : bool; log_events : list AuditEvent }.

Definition EventLog_default : EventLog := {| log_poisoned := false; log_events := [] |}.

(** [InMemoryAuditSink::record] *)
Definition InMemoryAuditSink_record (log : Cell W EventLog) : AuditSink W := λ event w,
  let guard := cell_get log w in
  if log_poisoned guard then (Err (Audit_Sink "audit mutex poisoned"), w)
  else (Ok (), cell_set log (mkEventLog false (log_events guard ++ [event])) w).

(** [InMemoryAuditSink::snapshot] *)
Definition InMemoryAuditSink_snapshot (log : Cell W EventLog) (w : W) : list AuditEvent :=
  if log_poisoned (cell_get log w) then [] else log_events (cell_get log w).

(** ** JsonlAuditSink *)

(** The file system and serializer calls the sink makes, each with the
    displayed error it may fail with. *)
Record JournalOps := mkJournalOps {
  jo_path : string;
  jo_parent : option string;                          (** [path.parent()] *)
  jo_create_dir_all : string → ST W string unit;      (** [fs::create_dir_all] *)
  jo_open : ST W string unit;                         (** [OpenOptions::open] *)
  jo_poisoned : W → bool;                             (** the mutex around the file *)
  jo_to_vec : AuditEvent → result string string;      (** [serde_json::to_vec] *)
  jo_lock : ST W string unit;                         (** [File::lock] *)
  jo_unlock : ST W string unit;                       (** [File::unlock] *)
  jo_write_all : string → ST W string unit;
  jo_flush : ST W string unit;
}.

Definition sink_error (before path error : string) : AuditError :=
  Audit_Sink (before +:+ " `" +:+ path +:+ "`: " +:+ error).

Definition prepare_audit_journal_parent (j : JournalOps) : ST W AuditError unit :=
  match jo_parent j with
  | Some parent =>
      if is_empty parent then mret ()
      else st_map_err (sink_error "failed to prepare audit journal parent directory" parent)
             (jo_create_dir_all j parent)
  | None => mret ()
  end.

Definition open_jsonl_audit_journal (j : JournalOps) : ST W AuditError unit :=
  prepare_audit_journal_parent j ≫= λ _,
  st_map_err (sink_error "failed to open audit journal" (jo_path j)) (jo_open j).

Definition lock_audit_journal (j : JournalOps) : ST W AuditError unit :=
  st_map_err (sink_error "failed to lock audit journal" (jo_path j)) (jo_lock j).

Definition unlock_audit_journal (j : JournalOps) : ST W AuditError unit :=
  st_map_err (sink_error "failed to unlock audit journal" (jo_path j)) (jo_unlock j).

Definition probe_jsonl_audit_journal_runtime_ready (j : JournalOps) : ST W AuditError unit :=
  open_jsonl_audit_journal j ≫= λ _,
  lock_audit_journal j ≫= λ _,
  unlock_audit_journal j.

(** [JsonlAuditSink::new] opens the journal and keeps it. *)
Definition JsonlAuditSink_new (j : JournalOps) : ST W AuditError JournalOps :=
  open_jsonl_audit_journal j ≫= λ _, mret j.

Definition serialize_audit_event_line (j : JournalOps) (event : AuditEvent) :
    result AuditError string :=
  encoded ← map_err (sink_error "failed to serialize audit event for" (jo_path j))
              (jo_to_vec j event);
  Ok (encoded +:+ String newline "").

(** [JsonlAuditSink::record]: once the file is locked it is always unlocked,
    and a write error takes precedence over an unlock error. *)
Definition JsonlAuditSink_record (j : JournalOps) : AuditSink W := λ event w,
  if jo_poisoned j w then (Err (Audit_Sink "audit journal mutex poisoned"), w) else
  match serialize_audit_event_line j event with
  | Err e => (Err e, w)
  | Ok encoded =>
      match lock_audit_journal j w with
      | (Err e, w) => (Err e, w)
      | (Ok _, w) =>
          let '(write_result, w) :=
            (st_map_err (sink_error "failed to append audit event to" (jo_path j))
               (jo_write_all j encoded) ≫= λ _,
             st_map_err (sink_error "failed to flush audit journal" (jo_path j)) (jo_flush j)) w in
          let '(unlock_result, w) := unlock_audit_journal j w in
          match write_result, unlock_result with
          | Err error, _ => (Err error, w)
          | Ok _, Err error => (Err error, w)
          | Ok _, Ok _ => (Ok (), w)
          end
      end
  end.

(** ** FanoutAuditSink *)

(** [FanoutAuditSink::new] panics on an empty list. *)
Definition FanoutAuditSink_new (children : list (AuditSink W)) : option (list (AuditSink W)) :=
  match children with [] => None | _ => Some children end.

(** [slice::split_last] *)
Definition split_last {A} (l : list A) : option (A * list A) :=
  match l with
  | [] => None
  | x :: xs => Some (List.last xs x, removelast (x :: xs))
  end.

(** [FanoutAuditSink::record] *)
Definition FanoutAuditSink_record (children : list (AuditSink W)) : AuditSink W := λ event,
  match split_last children with
  | None => mret ()
  | Some (last, rest) =>
      for_each (λ sink, sink event) rest ≫= λ _,
      last event ≫= λ _, mret ()
  end.

(** ** Lemmas *)

Lemma split_last_spec {A} (l : list A) last rest :
  split_last l = Some (last, rest) → l = rest ++ [last].
Proof.
  destruct l as [|x xs]; [done|]. intros [= <- <-].
  etrans; [by apply (app_removelast_last x)|]. by destruct xs.
Qed.

Lemma for_each_app {S E A} (f : A → ST S E unit) xs ys s :
  for_each f (xs ++ ys) s = (for_each f xs ≫= λ _, for_each f ys) s.
Proof.
  revert s. induction xs as [|x xs IH]; intros s; [done|].
  simpl. rewrite !st_bind_run. destruct (f x s) as [[?|?] s']; [|done]. apply IH.
Qed.

(** Forwarding to the last child apart is forwarding to every child in
    order. *)
Lemma fanout_for_each children event w :
  FanoutAuditSink_record children event w = for_each (λ sink, sink event) children w.
Proof.
  unfold FanoutAuditSink_record. destruct (split_last children) as [[last rest]|] eqn:Hs.
  - apply split_last_spec in Hs as ->. rewrite for_each_app. rewrite !st_bind_run.
    destruct (for_each (λ sink, sink event) rest w) as [[?|?] w']; [|done]. simpl.
    rewrite !st_bind_run. by destruct (last event w') as [[[]|?] ?].
  - by destruct children.
Qed.

(** [Journal sink log]: a sink that keeps an append-only log. Recording
    appends the event exactly when it succeeds. *)
Class Journal (sink : AuditSink W) (log : W → list AuditEvent) := {
  journal_ok e w w' : sink e w = (Ok (), w') → log w' = log w ++ [e];
  journal_err e w err w' : sink e w = (Err err, w') → log w' = log w;
}.

#[export] Instance memory_journal (log : Cell W EventLog) `{!CellLaws log} :
  Journal (InMemoryAuditSink_record log) (λ w, log_events (cell_get log w)).
Proof.
  split; intros; unfold InMemoryAuditSink_record in *; case_match; simplify_eq; [|done].
  by rewrite cell_get_set.
Qed.
End sinks.
Arguments JournalOps : clear implicits.
