(* ===== verification/Plane.v ===== *)
(** * Plane: execution planes
    (kernel/src/{connector,runtime,tool,memory}.rs)

    The four planes have the same text up to the names of their types: a map of
    core adapters, a map of extension adapters and an optional default. The
    text is modelled once, over the request, outcome and error types, and
    instantiated for each plane at the end of the file. *)
From S2P Require Import Prelude RustStr Contracts Errors.

(** The three errors a plane raises itself. *)
Class PlaneErrors (E : Type) := {
  core_adapter_not_found : string → E;
  extension_not_found : string → E;
  no_default_core_adapter : E;
}.

Section plane.
  Context {W CoreReq CoreOut ExtReq ExtOut E : Type} `{!PlaneErrors E}.

(** A core adapter trait object: [name] and one asynchronous method. *)
Record CoreAdapter := mkCoreAdapter {
  core_name : string;
  core_execute : CoreReq → ST W E CoreOut;
}.

(** An extension adapter also receives the core adapter it delegates to. *)
Record ExtensionAdapter := mkExtensionAdapter {
  ext_name : string;
  ext_execute : ExtReq → CoreAdapter → ST W E ExtOut;
}.

Record Plane := mkPlane {
  core_adapters : gmap string CoreAdapter;
  extension_adapters : gmap string ExtensionAdapter;
  default_core_adapter : option string;
}.

(** [new] *)
Definition plane_new : Plane :=
  {| core_adapters := ∅; extension_adapters := ∅; default_core_adapter := None |}.

(** [register_core_adapter] *)
Definition plane_register_core_adapter (adapter : CoreAdapter) (p : Plane) : Plane :=
  let name := core_name adapter in
  {| core_adapters := <[name := adapter]> (core_adapters p);
     extension_adapters := extension_adapters p;
     default_core_adapter :=
       match default_core_adapter p with None => Some name | Some d => Some d end |}.

(** [register_extension_adapter] *)
Definition plane_register_extension_adapter (adapter : ExtensionAdapter) (p : Plane) : Plane :=
  {| core_adapters := core_adapters p;
     extension_adapters := <[ext_name adapter := adapter]> (extension_adapters p);
     default_core_adapter := default_core_adapter p |}.

(** [set_default_core_adapter] *)
Definition plane_set_default_core_adapter (name : string) (p : Plane) : result E Plane :=
  match core_adapters p !! name with
  | None => Err (core_adapter_not_found name)
  | Some _ => Ok {| core_adapters := core_adapters p;
                    extension_adapters := extension_adapters p;
                    default_core_adapter := Some name |}
  end.

(** [default_core_adapter_name] *)
Definition plane_default_core_adapter_name (p : Plane) : option string := default_core_adapter p.

(** [if let Some(name) = core_name { name } else { default.ok_or(NoDefaultCoreAdapter)? }] *)
Definition plane_resolve (p : Plane) (requested : option string) : result E string :=
  match requested with
  | Some name => Ok name
  | None => ok_or (default_core_adapter p) no_default_core_adapter
  end.

(** [execute_core] / [invoke_core] *)
Definition plane_execute_core (p : Plane) (requested : option string) (request : CoreReq) :
    ST W E CoreOut :=
  lift (plane_resolve p requested) ≫= λ resolved_name,
  lift (ok_or (core_adapters p !! resolved_name) (core_adapter_not_found resolved_name)) ≫= λ core,
  core_execute core request.

(** [execute_extension] / [invoke_extension] *)
Definition plane_execute_extension (p : Plane) (extension_name : string)
    (requested : option string) (request : ExtReq) : ST W E ExtOut :=
  lift (ok_or (extension_adapters p !! extension_name) (extension_not_found extension_name))
    ≫= λ extension,
  lift (plane_resolve p requested) ≫= λ resolved_core_name,
  lift (ok_or (core_adapters p !! resolved_core_name) (core_adapter_not_found resolved_core_name))
    ≫= λ core,
  ext_execute extension request core.

(** ** Well-formed planes

    Adapters sit under their own names and the default names a registered
    adapter, so dispatch without an explicit core never fails to find it. *)
Definition plane_wf (p : Plane) : Prop :=
  map_Forall (λ n a, core_name a = n) (core_adapters p) ∧
  map_Forall (λ n a, ext_name a = n) (extension_adapters p) ∧
  match default_core_adapter p with
  | Some d => is_Some (core_adapters p !! d)
  | None => core_adapters p = ∅
  end.

Lemma plane_new_wf : plane_wf plane_new.
Proof. by repeat split. Qed.

Lemma plane_register_core_adapter_wf a p : plane_wf p → plane_wf (plane_register_core_adapter a p).
Proof.
  intros (Hc & He & Hd). split_and!; simpl; [by apply map_Forall_insert_2|done|].
  destruct (default_core_adapter p) as [d|].
  - rewrite lookup_insert. case_decide; [by eexists|done].
  - rewrite lookup_insert_eq. by eexists.
Qed.

Lemma plane_register_extension_adapter_wf a p :
  plane_wf p → plane_wf (plane_register_extension_adapter a p).
Proof. intros (Hc & He & Hd). split_and!; simpl; [done|by apply map_Forall_insert_2|done]. Qed.

Lemma plane_set_default_core_adapter_wf n p p' :
  plane_wf p → plane_set_default_core_adapter n p = Ok p' → plane_wf p'.
Proof.
  intros (Hc & He & Hd). unfold plane_set_default_core_adapter.
  destruct (core_adapters p !! n) as [a|] eqn:Hn; [|done].
  intros [= <-]. split_and!; simpl; eauto.
Qed.

(** In a well-formed plane a request that names no core is served by the
    default adapter as soon as any core adapter is registered. *)
Lemma plane_default_dispatch p request :
  plane_wf p → core_adapters p ≠ ∅ →
  ∃ d core, default_core_adapter p = Some d ∧ core_adapters p !! d = Some core ∧
    core_name core = d ∧ ∀ w, plane_execute_core p None request w = core_execute core request w.
Proof.
  intros (Hc & _ & Hd) Hne. destruct (default_core_adapter p) as [d|] eqn:Hdef; [|done].
  destruct Hd as [core Hcore]. exists d, core. split_and!; [done..|by apply (Hc d core)|].
  intros w. unfold plane_execute_core, plane_resolve. rewrite Hdef. unfold mbind, st_bind, lift.
  simpl. by rewrite Hcore.
Qed.

(** A failing dispatch that found no adapter leaves the environment alone. *)
Lemma plane_execute_core_missing p requested request w n :
  plane_resolve p requested = Ok n → core_adapters p !! n = None →
  plane_execute_core p requested request w = (Err (core_adapter_not_found n), w).
Proof.
  intros Hr Hn. unfold plane_execute_core, mbind, st_bind, lift. by rewrite Hr, Hn.
Qed.
(** *** What dispatch keeps of the environment *)
Section keeps.
Context (I : W → Prop).

Definition core_keeps (adapter : CoreAdapter) : Prop := ∀ request w, I w → I (core_execute adapter request w).2.
Definition ext_keeps (adapter : ExtensionAdapter) : Prop :=
  ∀ request core w, core_keeps core → I w → I (ext_execute adapter request core w).2.
Definition plane_keeps (p : Plane) : Prop :=
  map_Forall (λ _ a, core_keeps a) (core_adapters p) ∧ map_Forall (λ _ a, ext_keeps a) (extension_adapters p).

Lemma plane_new_keeps : plane_keeps plane_new.
Proof. split; apply map_Forall_empty. Qed.

Lemma plane_register_core_adapter_keeps a p :
  core_keeps a → plane_keeps p → plane_keeps (plane_register_core_adapter a p).
Proof. intros Ha [Hc He]. split; [by apply map_Forall_insert_2|done]. Qed.

Lemma plane_register_extension_adapter_keeps a p :
  ext_keeps a → plane_keeps p → plane_keeps (plane_register_extension_adapter a p).
Proof. intros Ha [Hc He]. split; [done|by apply map_Forall_insert_2]. Qed.

Lemma plane_set_default_core_adapter_keeps n p p' :
  plane_keeps p → plane_set_default_core_adapter n p = Ok p' → plane_keeps p'.
Proof. intros Hp. unfold plane_set_default_core_adapter. destruct (core_adapters p !! n); [|done]. by intros [= <-]. Qed.

Lemma plane_execute_core_keeps p requested request w :
  plane_keeps p → I w → I (plane_execute_core p requested request w).2.
Proof.
  intros [Hc _] Hw. unfold plane_execute_core. rewrite st_bind_run. unfold lift at 1.
  destruct (plane_resolve p requested) as [n|]; [|done]. rewrite st_bind_run. unfold lift.
  destruct (core_adapters p !! n) as [core|] eqn:Hcore; [|done]. by apply (Hc n core Hcore).
Qed.

Lemma plane_execute_extension_keeps p x requested request w :
  plane_keeps p → I w → I (plane_execute_extension p x requested request w).2.
Proof.
  intros [Hc He] Hw. unfold plane_execute_extension. rewrite st_bind_run. unfold lift.
  destruct (extension_adapters p !! x) as [a|] eqn:Ex; [|done]. cbn [ok_or]. rewrite st_bind_run.
  destruct (plane_resolve p requested) as [n|]; [|done]. rewrite st_bind_run.
  destruct (core_adapters p !! n) as [core|] eqn:Hcore; [|done]. apply (He x a Ex); [by apply (Hc n core)|done].
Qed.
End keeps.
End plane.
Arguments CoreAdapter : clear implicits.
Arguments ExtensionAdapter : clear implicits.
Arguments Plane : clear implicits.

(** ** ConnectorPlane (connector.rs) *)

#[export] Instance connector_plane_errors : PlaneErrors ConnectorError := {|
  core_adapter_not_found := Connector_CoreAdapterNotFound;
  extension_not_found := Connector_ExtensionNotFound;
  no_default_core_adapter := Connector_NoDefaultCoreAdapter |}.

Definition CoreConnectorAdapter (W : Type) : Type :=
  CoreAdapter W ConnectorCommand ConnectorOutcome ConnectorError.
Definition ConnectorExtensionAdapter (W : Type) : Type :=
  ExtensionAdapter W ConnectorCommand ConnectorOutcome ConnectorCommand ConnectorOutcome
    ConnectorError.
Definition ConnectorPlane (W : Type) : Type :=
  Plane W ConnectorCommand ConnectorOutcome ConnectorCommand ConnectorOutcome ConnectorError.

Definition ConnectorPlane_new {W} : ConnectorPlane W := plane_new.
Definition ConnectorPlane_register_core_adapter {W} :
  CoreConnectorAdapter W → ConnectorPlane W → ConnectorPlane W := plane_register_core_adapter.
Definition ConnectorPlane_register_extension_adapter {W} :
  ConnectorExtensionAdapter W → ConnectorPlane W → ConnectorPlane W :=
  plane_register_extension_adapter.
Definition ConnectorPlane_set_default_core_adapter {W} :
  string → ConnectorPlane W → result ConnectorError (ConnectorPlane W) :=
  plane_set_default_core_adapter.
Definition ConnectorPlane_default_core_adapter_name {W} : ConnectorPlane W → option string :=
  plane_default_core_adapter_name.
Definition ConnectorPlane_invoke_core {W} (p : ConnectorPlane W) :
  option string → ConnectorCommand → ST W ConnectorError ConnectorOutcome := plane_execute_core p.
Definition ConnectorPlane_invoke_extension {W} (p : ConnectorPlane W) :
  string → option string → ConnectorCommand → ST W ConnectorError ConnectorOutcome :=
  plane_execute_extension p.

(** ** RuntimePlane (runtime.rs) *)

#[export] Instance runtime_plane_errors : PlaneErrors RuntimePlaneError := {|
  core_adapter_not_found := Runtime_CoreAdapterNotFound;
  extension_not_found := Runtime_ExtensionNotFound;
  no_default_core_adapter := Runtime_NoDefaultCoreAdapter |}.

Definition CoreRuntimeAdapter (W : Type) : Type :=
  CoreAdapter W RuntimeCoreRequest RuntimeCoreOutcome RuntimePlaneError.
Definition RuntimeExtensionAdapter (W : Type) : Type :=
  ExtensionAdapter W RuntimeCoreRequest RuntimeCoreOutcome RuntimeExtensionRequest
    RuntimeExtensionOutcome RuntimePlaneError.
Definition RuntimePlane (W : Type) : Type :=
  Plane W RuntimeCoreRequest RuntimeCoreOutcome RuntimeExtensionRequest
    RuntimeExtensionOutcome RuntimePlaneError.

Definition RuntimePlane_new {W} : RuntimePlane W := plane_new.
Definition RuntimePlane_register_core_adapter {W} :
  CoreRuntimeAdapter W → RuntimePlane W → RuntimePlane W := plane_register_core_adapter.
Definition RuntimePlane_register_extension_adapter {W} :
  RuntimeExtensionAdapter W → RuntimePlane W → RuntimePlane W := plane_register_extension_adapter.
Definition RuntimePlane_set_default_core_adapter {W} :
  string → RuntimePlane W → result RuntimePlaneError (RuntimePlane W) :=
  plane_set_default_core_adapter.
Definition RuntimePlane_default_core_adapter_name {W} : RuntimePlane W → option string :=
  plane_default_core_adapter_name.
Definition RuntimePlane_execute_core {W} (p : RuntimePlane W) :
  option string → RuntimeCoreRequest → ST W RuntimePlaneError RuntimeCoreOutcome :=
  plane_execute_core p.
Definition RuntimePlane_execute_extension {W} (p : RuntimePlane W) :
  string → option string → RuntimeExtensionRequest →
  ST W RuntimePlaneError RuntimeExtensionOutcome := plane_execute_extension p.

(** ** ToolPlane (tool.rs) *)

#[export] Instance tool_plane_errors : PlaneErrors ToolPlaneError := {|
  core_adapter_not_found := Tool_CoreAdapterNotFound;
  extension_not_found := Tool_ExtensionNotFound;
  no_default_core_adapter := Tool_NoDefaultCoreAdapter |}.

Definition CoreToolAdapter (W : Type) : Type :=
  CoreAdapter W ToolCoreRequest ToolCoreOutcome ToolPlaneError.
Definition ToolExtensionAdapter (W : Type) : Type :=
  ExtensionAdapter W ToolCoreRequest ToolCoreOutcome ToolExtensionRequest ToolExtensionOutcome
    ToolPlaneError.
Definition ToolPlane (W : Type) : Type :=
  Plane W ToolCoreRequest ToolCoreOutcome ToolExtensionRequest ToolExtensionOutcome ToolPlaneError.

Definition ToolPlane_new {W} : ToolPlane W := plane_new.
Definition ToolPlane_register_core_adapter {W} :
  CoreToolAdapter W → ToolPlane W → ToolPlane W := plane_register_core_adapter.
Definition ToolPlane_register_extension_adapter {W} :
  ToolExtensionAdapter W → ToolPlane W → ToolPlane W := plane_register_extension_adapter.
Definition ToolPlane_set_default_core_adapter {W} :
  string → ToolPlane W → result ToolPlaneError (ToolPlane W) := plane_set_default_core_adapter.
Definition ToolPlane_default_core_adapter_name {W} : ToolPlane W → option string :=
  plane_default_core_adapter_name.
Definition ToolPlane_execute_core {W} (p : ToolPlane W) :
  option string → ToolCoreRequest → ST W ToolPlaneError ToolCoreOutcome := plane_execute_core p.
Definition ToolPlane_execute_extension {W} (p : ToolPlane W) :
  string → option string → ToolExtensionRequest → ST W ToolPlaneError ToolExtensionOutcome :=
  plane_execute_extension p.

(** ** MemoryPlane (memory.rs) *)

#[export] Instance memory_plane_errors : PlaneErrors MemoryPlaneError := {|
  core_adapter_not_found := Memory_CoreAdapterNotFound;
  extension_not_found := Memory_ExtensionNotFound;
  no_default_core_adapter := Memory_NoDefaultCoreAdapter |}.

Definition CoreMemoryAdapter (W : Type) : Type :=
  CoreAdapter W MemoryCoreRequest MemoryCoreOutcome MemoryPlaneError.
Definition MemoryExtensionAdapter (W : Type) : Type :=
  ExtensionAdapter W MemoryCoreRequest MemoryCoreOutcome MemoryExtensionRequest
    MemoryExtensionOutcome MemoryPlaneError.
Definition MemoryPlane (W : Type) : Type :=
  Plane W MemoryCoreRequest MemoryCoreOutcome MemoryExtensionRequest MemoryExtensionOutcome
    MemoryPlaneError.

Definition MemoryPlane_new {W} : MemoryPlane W := plane_new.
Definition MemoryPlane_register_core_adapter {W} :
  CoreMemoryAdapter W → MemoryPlane W → MemoryPlane W := plane_register_core_adapter.
Definition MemoryPlane_register_extension_adapter {W} :
  MemoryExtensionAdapter W → MemoryPlane W → MemoryPlane W := plane_register_extension_adapter.
Definition MemoryPlane_set_default_core_adapter {W} :
  string → MemoryPlane W → result MemoryPlaneError (MemoryPlane W) :=
  plane_set_default_core_adapter.
Definition MemoryPlane_default_core_adapter_name {W} : MemoryPlane W → option string :=
  plane_default_core_adapter_name.
Definition MemoryPlane_execute_core {W} (p : MemoryPlane W) :
  option string → MemoryCoreRequest → ST W MemoryPlaneError MemoryCoreOutcome :=
  plane_execute_core p.
Definition MemoryPlane_execute_extension {W} (p : MemoryPlane W) :
  string → option string → MemoryExtensionRequest → ST W MemoryPlaneError MemoryExtensionOutcome :=
  plane_execute_extension p.

(** * The harness broker (kernel/src/harness.rs)

    A route names a harness kind and optionally an adapter. With a name the
    broker takes that adapter; without one it takes the first adapter of the
    kind in name order. *)

Section harness.
  Context {W : Type}.

(** [trait HarnessAdapter] *)
Record HarnessAdapter := mkHarnessAdapter {
  ha_name : string;
  ha_kind : HarnessKind;
  ha_execute : HarnessRequest → ST W HarnessError HarnessOutcome;
}.

Record HarnessBroker := mkHarnessBroker { hb_adapters : gmap string HarnessAdapter }.

Definition HarnessBroker_new : HarnessBroker := {| hb_adapters := ∅ |}.

(** [HarnessBroker::register] *)
Definition HarnessBroker_register (adapter : HarnessAdapter) (b : HarnessBroker) : HarnessBroker :=
  {| hb_adapters := <[ha_name adapter := adapter]> (hb_adapters b) |}.

(** The adapter [execute] selects. *)
Definition HarnessBroker_select (b : HarnessBroker) (route : ExecutionRoute) :
    result HarnessError HarnessAdapter :=
  match rt_adapter route with
  | Some adapter_name => ok_or (hb_adapters b !! adapter_name) (Harness_AdapterNotFound adapter_name)
  | None =>
      match list_find (λ candidate, ha_kind candidate = rt_harness_kind route)
              (btree_values (hb_adapters b)) with
      | Some (_, adapter) => Ok adapter
      | None => Err (Harness_AdapterNotFound ("kind::" +:+ debug (rt_harness_kind route)))
      end
  end.

(** [HarnessBroker::execute] *)
Definition HarnessBroker_execute (b : HarnessBroker) (route : ExecutionRoute)
    (request : HarnessRequest) : ST W HarnessError HarnessOutcome :=
  lift (HarnessBroker_select b route) ≫= λ adapter,
  if decide (ha_kind adapter ≠ rt_harness_kind route) then
    throw (Harness_AdapterKindMismatch (ha_name adapter) (rt_harness_kind route) (ha_kind adapter))
  else ha_execute adapter request.

(** ** Lemmas *)

Definition broker_wf (b : HarnessBroker) : Prop :=
  map_Forall (λ n a, ha_name a = n) (hb_adapters b).

Lemma broker_new_wf : broker_wf HarnessBroker_new.
Proof. done. Qed.

Lemma broker_register_wf a b : broker_wf b → broker_wf (HarnessBroker_register a b).
Proof. intros H. by apply map_Forall_insert_2. Qed.

Definition broker_keeps (I : W → Prop) (b : HarnessBroker) : Prop :=
  map_Forall (λ _ a, ∀ request w, I w → I (ha_execute a request w).2) (hb_adapters b).

Lemma broker_execute_keeps I b route request w :
  broker_keeps I b → I w → I (HarnessBroker_execute b route request w).2.
Proof.
  intros Hb Hw. unfold HarnessBroker_execute. rewrite st_bind_run. unfold lift.
  destruct (HarnessBroker_select b route) as [a|] eqn:E; [|done]. destruct (decide _) as [?|Hkind]; [done|].
  enough (∃ n, hb_adapters b !! n = Some a) as [n Hn] by (by apply (Hb n a)).
  unfold HarnessBroker_select in E. destruct (rt_adapter route) as [m|]; [exists m; by apply ok_or_Ok in E|].
  destruct (list_find _ _) as [[i a']|] eqn:F; [|done]. injection E as ->. by apply list_find_values in F as [_ ?].
Qed.

(** Only an adapter of the route's kind ever runs, and it is a registered
    one: the named adapter when the route names one. *)
Lemma broker_execute_dispatch b route request w :
  (∃ n a, hb_adapters b !! n = Some a ∧ ha_kind a = rt_harness_kind route ∧
     (∀ m, rt_adapter route = Some m → n = m) ∧
     HarnessBroker_execute b route request w = ha_execute a request w) ∨
  (∃ e, HarnessBroker_execute b route request w = (Err e, w)).
Proof.
  unfold HarnessBroker_execute, HarnessBroker_select, mbind, st_bind, lift, throw.
  destruct (rt_adapter route) as [n|] eqn:Hr.
  - destruct (hb_adapters b !! n) as [a|] eqn:Ha; simpl; [|eauto].
    case_decide as Hk; [eauto|]. left. exists n, a.
    split_and!; [done|by first [done|apply dec_stable]|by intros m [= ->]|done].
  - destruct (list_find _ _) as [[i a]|] eqn:Hf; [|eauto].
    apply list_find_values in Hf as [Hk [n Hn]]. rewrite decide_False by auto.
    left. exists n, a. done.
Qed.

(** A route without an adapter name finds an adapter exactly when one of its
    kind is registered. *)
Lemma broker_select_by_kind b route : rt_adapter route = None →
  is_ok (HarnessBroker_select b route) = true ↔
  ∃ n a, hb_adapters b !! n = Some a ∧ ha_kind a = rt_harness_kind route.
Proof.
  intros Hr. unfold HarnessBroker_select. rewrite Hr.
  destruct (list_find _ _) as [[i a]|] eqn:Hf; simpl.
  - apply list_find_values in Hf as [Hk [n Hn]]. split; eauto.
  - rewrite list_find_values_None in Hf. split; [done|]. intros (n & a & Hn & Hk).
    by destruct (Hf n a).
Qed.
End harness.
Arguments HarnessAdapter : clear implicits.
Arguments HarnessBroker : clear implicits.
