(* ===== verification/Kernel.v ===== *)
(** * Kernel: governed dispatch (kernel/src/kernel.rs)

    [LoongClawKernel] holds the registered packs, the execution planes, the
    policy engine, the extension chain, the clock, the audit sink and the
    event counter. Methods with [&mut self] are functions from kernel to
    kernel. Methods with [&self] change the kernel only through interior
    mutability (the policy engine and the event counter) and the environment
    [W] through the clock, the sink, the extensions and the adapters: they are
    computations over the pair of the two. *)
From S2P Require Import Prelude RustStr Contracts Errors Policy AuditSinks Plane.

Section kernel.
  Context {W P : Type} `{!PolicyEngine P} `{!Semver}.

Record LoongClawKernel := mkLoongClawKernel {
  k_policy : P;
  k_packs : gmap string VerticalPackManifest;
  k_namespaces : gmap string Namespace;
  k_harness : HarnessBroker W;
  k_connector_plane : ConnectorPlane W;
  k_runtime_plane : RuntimePlane W;
  k_tool_plane : ToolPlane W;
  k_memory_plane : MemoryPlane W;
  k_policy_extensions : PolicyExtensionChain W;
  k_clock : Clock W;
  k_audit : AuditSink W;
  k_event_seq : Z;
}.

Record KernelDispatch := mkKernelDispatch {
  kd_adapter_route : ExecutionRoute;
  kd_outcome : HarnessOutcome;
}.

Record ConnectorDispatch := mkConnectorDispatch {
  cd_connector_name : string;
  cd_outcome : ConnectorOutcome;
}.

(** Computations of the [&self] methods. *)
#[local] Abbreviation KM := (ST (LoongClawKernel * W) KernelError).

(** ** Construction and registration *)

(** [LoongClawKernel::with_runtime] *)
Definition with_runtime (policy : P) (clock : Clock W) (audit : AuditSink W) : LoongClawKernel :=
  {| k_policy := policy;
     k_packs := ∅;
     k_namespaces := ∅;
     k_harness := HarnessBroker_new;
     k_connector_plane := ConnectorPlane_new;
     k_runtime_plane := RuntimePlane_new;
     k_tool_plane := ToolPlane_new;
     k_memory_plane := MemoryPlane_new;
     k_policy_extensions := PolicyExtensionChain_new;
     k_clock := clock;
     k_audit := audit;
     k_event_seq := 0 |}.

(** [new_with_in_memory_audit], [new] and [new_without_audit]; [system_clock]
    is the [SystemClock] of the host. *)
Definition new_with_in_memory_audit (system_clock : Clock W) (log : Cell W EventLog) (policy : P) :
    LoongClawKernel * Cell W EventLog :=
  (with_runtime policy system_clock (InMemoryAuditSink_record log), log).
Definition kernel_new (system_clock : Clock W) (log : Cell W EventLog) (policy : P) :
    LoongClawKernel :=
  (new_with_in_memory_audit system_clock log policy).1.
Definition new_without_audit (system_clock : Clock W) (policy : P) : LoongClawKernel :=
  with_runtime policy system_clock NoopAuditSink_record.

Definition set_policy (p : P) (k : LoongClawKernel) : LoongClawKernel :=
  mkLoongClawKernel p (k_packs k) (k_namespaces k) (k_harness k) (k_connector_plane k)
    (k_runtime_plane k) (k_tool_plane k) (k_memory_plane k) (k_policy_extensions k) (k_clock k)
    (k_audit k) (k_event_seq k).
Definition set_event_seq (n : Z) (k : LoongClawKernel) : LoongClawKernel :=
  mkLoongClawKernel (k_policy k) (k_packs k) (k_namespaces k) (k_harness k) (k_connector_plane k)
    (k_runtime_plane k) (k_tool_plane k) (k_memory_plane k) (k_policy_extensions k) (k_clock k)
    (k_audit k) n.
Definition set_packs (ps : gmap string VerticalPackManifest) (ns : gmap string Namespace)
    (k : LoongClawKernel) : LoongClawKernel :=
  mkLoongClawKernel (k_policy k) ps ns (k_harness k) (k_connector_plane k)
    (k_runtime_plane k) (k_tool_plane k) (k_memory_plane k) (k_policy_extensions k) (k_clock k)
    (k_audit k) (k_event_seq k).
Definition set_harness (h : HarnessBroker W) (k : LoongClawKernel) : LoongClawKernel :=
  mkLoongClawKernel (k_policy k) (k_packs k) (k_namespaces k) h (k_connector_plane k)
    (k_runtime_plane k) (k_tool_plane k) (k_memory_plane k) (k_policy_extensions k) (k_clock k)
    (k_audit k) (k_event_seq k).
Definition set_planes (c : ConnectorPlane W) (r : RuntimePlane W) (t : ToolPlane W)
    (m : MemoryPlane W) (k : LoongClawKernel) : LoongClawKernel :=
  mkLoongClawKernel (k_policy k) (k_packs k) (k_namespaces k) (k_harness k) c r t m
    (k_policy_extensions k) (k_clock k) (k_audit k) (k_event_seq k).
Definition set_extensions (c : PolicyExtensionChain W) (k : LoongClawKernel) : LoongClawKernel :=
  mkLoongClawKernel (k_policy k) (k_packs k) (k_namespaces k) (k_harness k) (k_connector_plane k)
    (k_runtime_plane k) (k_tool_plane k) (k_memory_plane k) c (k_clock k) (k_audit k)
    (k_event_seq k).

(** The namespace [register_pack] derives from a manifest. *)
Definition namespace_of (pack : VerticalPackManifest) : Namespace :=
  {| ns_pack_id := pk_pack_id pack;
     ns_domain := pk_domain pack;
     ns_membrane := pk_pack_id pack;
     ns_default_route := pk_default_route pack;
     ns_granted_capabilities := pk_granted_capabilities pack |}.

(** [LoongClawKernel::register_pack] *)
Definition register_pack (pack : VerticalPackManifest) (k : LoongClawKernel) :
    result KernelError LoongClawKernel :=
  _ ← map_err KernelError_Pack (VerticalPackManifest_validate pack);
  match k_packs k !! pk_pack_id pack with
  | Some _ => Err (DuplicatePack (pk_pack_id pack))
  | None => Ok (set_packs (<[pk_pack_id pack := pack]> (k_packs k))
                  (<[pk_pack_id pack := namespace_of pack]> (k_namespaces k)) k)
  end.

(** [LoongClawKernel::get_namespace] *)
Definition get_namespace (k : LoongClawKernel) (pack_id : string) : option Namespace :=
  k_namespaces k !! pack_id.

Definition register_policy_extension (e : PolicyExtension W) (k : LoongClawKernel) :
    LoongClawKernel :=
  set_extensions (PolicyExtensionChain_register e (k_policy_extensions k)) k.

Definition register_harness_adapter (a : HarnessAdapter W) (k : LoongClawKernel) :
    LoongClawKernel :=
  set_harness (HarnessBroker_register a (k_harness k)) k.

Definition set_connector_plane (p : ConnectorPlane W) (k : LoongClawKernel) : LoongClawKernel :=
  set_planes p (k_runtime_plane k) (k_tool_plane k) (k_memory_plane k) k.
Definition set_runtime_plane (p : RuntimePlane W) (k : LoongClawKernel) : LoongClawKernel :=
  set_planes (k_connector_plane k) p (k_tool_plane k) (k_memory_plane k) k.
Definition set_tool_plane (p : ToolPlane W) (k : LoongClawKernel) : LoongClawKernel :=
  set_planes (k_connector_plane k) (k_runtime_plane k) p (k_memory_plane k) k.
Definition set_memory_plane (p : MemoryPlane W) (k : LoongClawKernel) : LoongClawKernel :=
  set_planes (k_connector_plane k) (k_runtime_plane k) (k_tool_plane k) p k.

Definition register_core_connector_adapter (a : CoreConnectorAdapter W) (k : LoongClawKernel) :=
  set_connector_plane (ConnectorPlane_register_core_adapter a (k_connector_plane k)) k.
Definition register_connector_extension_adapter (a : ConnectorExtensionAdapter W)
    (k : LoongClawKernel) :=
  set_connector_plane (ConnectorPlane_register_extension_adapter a (k_connector_plane k)) k.
Definition set_default_core_connector_adapter (name : string) (k : LoongClawKernel) :
    result KernelError LoongClawKernel :=
  map_err KernelError_Connector
    (p ← ConnectorPlane_set_default_core_adapter name (k_connector_plane k);
     Ok (set_connector_plane p k)).

Definition register_core_runtime_adapter (a : CoreRuntimeAdapter W) (k : LoongClawKernel) :=
  set_runtime_plane (RuntimePlane_register_core_adapter a (k_runtime_plane k)) k.
Definition register_runtime_extension_adapter (a : RuntimeExtensionAdapter W)
    (k : LoongClawKernel) :=
  set_runtime_plane (RuntimePlane_register_extension_adapter a (k_runtime_plane k)) k.
Definition set_default_core_runtime_adapter (name : string) (k : LoongClawKernel) :
    result KernelError LoongClawKernel :=
  map_err KernelError_RuntimePlane
    (p ← RuntimePlane_set_default_core_adapter name (k_runtime_plane k);
     Ok (set_runtime_plane p k)).

Definition register_core_tool_adapter (a : CoreToolAdapter W) (k : LoongClawKernel) :=
  set_tool_plane (ToolPlane_register_core_adapter a (k_tool_plane k)) k.
Definition register_tool_extension_adapter (a : ToolExtensionAdapter W) (k : LoongClawKernel) :=
  set_tool_plane (ToolPlane_register_extension_adapter a (k_tool_plane k)) k.
Definition set_default_core_tool_adapter (name : string) (k : LoongClawKernel) :
    result KernelError LoongClawKernel :=
  map_err KernelError_ToolPlane
    (p ← ToolPlane_set_default_core_adapter name (k_tool_plane k); Ok (set_tool_plane p k)).

Definition register_core_memory_adapter (a : CoreMemoryAdapter W) (k : LoongClawKernel) :=
  set_memory_plane (MemoryPlane_register_core_adapter a (k_memory_plane k)) k.
Definition register_memory_extension_adapter (a : MemoryExtensionAdapter W)
    (k : LoongClawKernel) :=
  set_memory_plane (MemoryPlane_register_extension_adapter a (k_memory_plane k)) k.
Definition set_default_core_memory_adapter (name : string) (k : LoongClawKernel) :
    result KernelError LoongClawKernel :=
  map_err KernelError_MemoryPlane
    (p ← MemoryPlane_set_default_core_adapter name (k_memory_plane k); Ok (set_memory_plane p k)).

(** ** Interior state: clock, policy engine, audit *)

(** [self.clock.now_epoch_s()] *)
Definition read_clock : KM Z := λ '(k, w),
  let '(now, w') := k_clock k w in (Ok now, (k, w')).

(** A call of the policy engine through [self.policy]. *)
Definition with_policy {A} (m : ST P PolicyError A) : ST (LoongClawKernel * W) PolicyError A :=
  λ '(k, w), let '(r, p') := m (k_policy k) in (r, (set_policy p' k, w)).

(** A call that only acts on the environment. *)
Definition on_env {E A} (m : LoongClawKernel → ST W E A) : ST (LoongClawKernel * W) E A :=
  λ '(k, w), let '(r, w') := m k w in (r, (k, w')).

(** [LoongClawKernel::new_event] *)
Definition new_event (timestamp_epoch_s : Z) (agent_id : option string) (kind : AuditEventKind)
    (k : LoongClawKernel) : AuditEvent * LoongClawKernel :=
  let seq := wrap64 (k_event_seq k + 1) in
  ({| ev_event_id := "evt-" +:+ hex016 seq;
      ev_timestamp_epoch_s := timestamp_epoch_s;
      ev_agent_id := agent_id;
      ev_kind := kind |}, set_event_seq seq k).

(** [self.audit.record(self.new_event(..))?] *)
Definition record_event (timestamp_epoch_s : Z) (agent_id : option string)
    (kind : AuditEventKind) : KM unit := λ '(k, w),
  let '(event, k) := new_event timestamp_epoch_s agent_id kind k in
  let '(r, w) := k_audit k event w in
  (map_err KernelError_Audit r, (k, w)).

(** ** Tokens *)

(** [LoongClawKernel::issue_token] *)
Definition issue_token (pack_id agent_id : string) (ttl_s : Z) : KM CapabilityToken := λ s,
  (lift (ok_or (k_packs s.1 !! pack_id) (PackNotFound pack_id)) ≫= λ pack,
   read_clock ≫= λ now,
   st_map_err KernelError_Policy (with_policy (pe_issue_token pack agent_id now ttl_s)) ≫= λ token,
   record_event now (Some agent_id) (TokenIssued token) ≫= λ _,
   mret token) s.

(** [LoongClawKernel::revoke_token] *)
Definition revoke_token (token_id : string) (actor_agent_id : option string) : KM unit :=
  st_map_err KernelError_Policy (with_policy (pe_revoke_token token_id)) ≫= λ _,
  read_clock ≫= λ now,
  record_event now actor_agent_id (TokenRevoked token_id).

(** [LoongClawKernel::revoke_generation] *)
Definition revoke_generation (below : Z) (k : LoongClawKernel) : LoongClawKernel :=
  set_policy (pe_revoke_generation below (k_policy k)) k.

(** [LoongClawKernel::record_audit_event] *)
Definition record_audit_event (agent_id : option string) (kind : AuditEventKind) : KM unit :=
  read_clock ≫= λ now, record_event now agent_id kind.

(** ** Authorization *)

(** [LoongClawKernel::get_pack] *)
Definition get_pack (pack_id : string) : KM VerticalPackManifest := λ '(k, w),
  (ok_or (k_packs k !! pack_id) (PackNotFound pack_id), (k, w)).

(** The loop of [assert_pack_grants]: the first capability the pack does not
    grant is the error. *)
Fixpoint assert_grants_all (pack : VerticalPackManifest) (required : list Capability) :
    result KernelError unit :=
  match required with
  | [] => Ok ()
  | capability :: required =>
      if VerticalPackManifest_grants pack capability then assert_grants_all pack required
      else Err (PackCapabilityBoundary (pk_pack_id pack) capability)
  end.

(** [LoongClawKernel::assert_pack_grants] *)
Definition assert_pack_grants (pack : VerticalPackManifest) (required : gset Capability) :
    result KernelError unit := assert_grants_all pack (caps_iter required).

(** [LoongClawKernel::assert_connector_allowed] *)
Definition assert_connector_allowed (pack : VerticalPackManifest) (connector_name : string) :
    result KernelError unit :=
  if VerticalPackManifest_allows_connector pack connector_name then Ok ()
  else Err (ConnectorNotAllowed connector_name (pk_pack_id pack)).

(** Record the denial, then fail with the policy error; a sink failure wins. *)
Definition audit_denial (pack : VerticalPackManifest) (token : CapabilityToken) (now_epoch_s : Z)
    (policy_error : PolicyError) : KM unit :=
  record_event now_epoch_s (Some (tok_agent_id token))
    (AuthorizationDenied (pk_pack_id pack) (tok_token_id token) (display policy_error)) ≫= λ _,
  throw (KernelError_Policy policy_error).

(** [LoongClawKernel::authorize_or_audit_denial] *)
Definition authorize_or_audit_denial (pack : VerticalPackManifest) (token : CapabilityToken)
    (now_epoch_s : Z) (required : gset Capability) (request_parameters : option Value) :
    KM unit := λ s,
  match with_policy (pe_authorize token (pk_pack_id pack) now_epoch_s required) s with
  | (Err policy_error, s) => audit_denial pack token now_epoch_s policy_error s
  | (Ok _, s) =>
      match on_env (λ k, PolicyExtensionChain_authorize (k_policy_extensions k)
                     {| px_pack := pack; px_token := token; px_now_epoch_s := now_epoch_s;
                        px_required_capabilities := required;
                        px_request_parameters := request_parameters |}) s with
      | (Err policy_error, s) => audit_denial pack token now_epoch_s policy_error s
      | (Ok _, s) => (Ok (), s)
      end
  end.

(** [LoongClawKernel::authorize_pack_operation] *)
Definition authorize_pack_operation (pack : VerticalPackManifest) (token : CapabilityToken)
    (required : gset Capability) (request_parameters : option Value) : KM Z :=
  lift (assert_pack_grants pack required) ≫= λ _,
  read_clock ≫= λ now,
  authorize_or_audit_denial pack token now required request_parameters ≫= λ _,
  mret now.

(** ** Plane dispatch *)

(** [core_name.or(default_core_adapter_name()).unwrap_or("default")], the name
    audit records carry. *)
Definition resolved_core_adapter (requested default_name : option string) : string :=
  match requested with
  | Some n => n
  | None => match default_name with Some n => n | None => "default" end
  end.

(** [LoongClawKernel::record_plane_invocation] *)
Definition record_plane_invocation (timestamp_epoch_s : Z) (agent_id pack_id : string)
    (plane : ExecutionPlane) (tier : PlaneTier) (primary_adapter : string)
    (delegated_core_adapter : option string) (operation : string)
    (required : gset Capability) : KM unit :=
  record_event timestamp_epoch_s (Some agent_id)
    (PlaneInvoked pack_id plane tier primary_adapter delegated_core_adapter operation
       (caps_iter required)).

(** [serde_json::json!({"tool_name": .., "payload": ..})]; object keys are
    kept sorted. *)
Definition tool_policy_params (tool_name : string) (payload : Value) : Value :=
  JObject [("payload", payload); ("tool_name", JString tool_name)].

(** [LoongClawKernel::execute_task] *)
Definition execute_task (pack_id : string) (token : CapabilityToken) (task : TaskIntent) :
    KM KernelDispatch :=
  get_pack pack_id ≫= λ pack,
  authorize_pack_operation pack token (ti_required_capabilities task) None ≫= λ now,
  let request := {| hr_token_id := tok_token_id token;
                    hr_pack_id := pk_pack_id pack;
                    hr_agent_id := tok_agent_id token;
                    hr_task_id := ti_task_id task;
                    hr_objective := ti_objective task;
                    hr_payload := ti_payload task |} in
  let route := pk_default_route pack in
  st_map_err KernelError_Harness
    (on_env (λ k, HarnessBroker_execute (k_harness k) route request)) ≫= λ outcome,
  record_event now (Some (tok_agent_id token))
    (TaskDispatched (pk_pack_id pack) (ti_task_id task) route
       (caps_iter (ti_required_capabilities task))) ≫= λ _,
  mret {| kd_adapter_route := route; kd_outcome := outcome |}.

(** [LoongClawKernel::execute_connector_core] *)
Definition execute_connector_core (pack_id : string) (token : CapabilityToken)
    (core_name : option string) (command : ConnectorCommand) : KM ConnectorDispatch := λ s,
  (get_pack pack_id ≫= λ pack,
   lift (assert_connector_allowed pack (cc_connector_name command)) ≫= λ _,
   authorize_pack_operation pack token (cc_required_capabilities command) None ≫= λ now,
   let resolved := resolved_core_adapter core_name
     (ConnectorPlane_default_core_adapter_name (k_connector_plane s.1)) in
   st_map_err KernelError_Connector
     (on_env (λ k, ConnectorPlane_invoke_core (k_connector_plane k) core_name command))
     ≫= λ outcome,
   record_event now (Some (tok_agent_id token))
     (ConnectorInvoked (pk_pack_id pack) (cc_connector_name command) (cc_operation command)
        (caps_iter (cc_required_capabilities command))) ≫= λ _,
   record_plane_invocation now (tok_agent_id token) (pk_pack_id pack) Plane_Connector Tier_Core
     resolved None (cc_operation command) (cc_required_capabilities command) ≫= λ _,
   mret {| cd_connector_name := cc_connector_name command; cd_outcome := outcome |}) s.

(** [LoongClawKernel::execute_connector_extension] *)
Definition execute_connector_extension (pack_id : string) (token : CapabilityToken)
    (extension_name : string) (core_name : option string) (command : ConnectorCommand) :
    KM ConnectorDispatch := λ s,
  (get_pack pack_id ≫= λ pack,
   lift (assert_connector_allowed pack (cc_connector_name command)) ≫= λ _,
   authorize_pack_operation pack token (cc_required_capabilities command) None ≫= λ now,
   let resolved := resolved_core_adapter core_name
     (ConnectorPlane_default_core_adapter_name (k_connector_plane s.1)) in
   st_map_err KernelError_Connector
     (on_env (λ k, ConnectorPlane_invoke_extension (k_connector_plane k) extension_name
                     core_name command)) ≫= λ outcome,
   record_event now (Some (tok_agent_id token))
     (ConnectorInvoked (pk_pack_id pack) (cc_connector_name command) (cc_operation command)
        (caps_iter (cc_required_capabilities command))) ≫= λ _,
   record_plane_invocation now (tok_agent_id token) (pk_pack_id pack) Plane_Connector
     Tier_Extension extension_name (Some resolved) (cc_operation command)
     (cc_required_capabilities command) ≫= λ _,
   mret {| cd_connector_name := cc_connector_name command; cd_outcome := outcome |}) s.

(** [LoongClawKernel::execute_runtime_core] *)
Definition execute_runtime_core (pack_id : string) (token : CapabilityToken)
    (required : gset Capability) (core_name : option string) (request : RuntimeCoreRequest) :
    KM RuntimeCoreOutcome := λ s,
  (get_pack pack_id ≫= λ pack,
   authorize_pack_operation pack token required None ≫= λ now,
   let resolved := resolved_core_adapter core_name
     (RuntimePlane_default_core_adapter_name (k_runtime_plane s.1)) in
   st_map_err KernelError_RuntimePlane
     (on_env (λ k, RuntimePlane_execute_core (k_runtime_plane k) core_name request))
     ≫= λ outcome,
   record_plane_invocation now (tok_agent_id token) (pk_pack_id pack) Plane_Runtime Tier_Core
     resolved None (rcr_action request) required ≫= λ _,
   mret outcome) s.

(** [LoongClawKernel::execute_runtime_extension] *)
Definition execute_runtime_extension (pack_id : string) (token : CapabilityToken)
    (required : gset Capability) (extension_name : string) (core_name : option string)
    (request : RuntimeExtensionRequest) : KM RuntimeExtensionOutcome := λ s,
  (get_pack pack_id ≫= λ pack,
   authorize_pack_operation pack token required None ≫= λ now,
   let resolved := resolved_core_adapter core_name
     (RuntimePlane_default_core_adapter_name (k_runtime_plane s.1)) in
   st_map_err KernelError_RuntimePlane
     (on_env (λ k, RuntimePlane_execute_extension (k_runtime_plane k) extension_name
                     core_name request)) ≫= λ outcome,
   record_plane_invocation now (tok_agent_id token) (pk_pack_id pack) Plane_Runtime
     Tier_Extension extension_name (Some resolved) (rer_action request) required ≫= λ _,
   mret outcome) s.

(** [LoongClawKernel::execute_tool_core] *)
Definition execute_tool_core (pack_id : string) (token : CapabilityToken)
    (required : gset Capability) (core_name : option string) (request : ToolCoreRequest) :
    KM ToolCoreOutcome := λ s,
  (get_pack pack_id ≫= λ pack,
   authorize_pack_operation pack token required
     (Some (tool_policy_params (tcr_tool_name request) (tcr_payload request))) ≫= λ now,
   let resolved := resolved_core_adapter core_name
     (ToolPlane_default_core_adapter_name (k_tool_plane s.1)) in
   st_map_err KernelError_ToolPlane
     (on_env (λ k, ToolPlane_execute_core (k_tool_plane k) core_name request)) ≫= λ outcome,
   record_plane_invocation now (tok_agent_id token) (pk_pack_id pack) Plane_Tool Tier_Core
     resolved None (tcr_tool_name request) required ≫= λ _,
   mret outcome) s.

(** [LoongClawKernel::execute_tool_extension] *)
Definition execute_tool_extension (pack_id : string) (token : CapabilityToken)
    (required : gset Capability) (extension_name : string) (core_name : option string)
    (request : ToolExtensionRequest) : KM ToolExtensionOutcome := λ s,
  (get_pack pack_id ≫= λ pack,
   authorize_pack_operation pack token required
     (Some (tool_policy_params (ter_extension_action request) (ter_payload request))) ≫= λ now,
   let resolved := resolved_core_adapter core_name
     (ToolPlane_default_core_adapter_name (k_tool_plane s.1)) in
   st_map_err KernelError_ToolPlane
     (on_env (λ k, ToolPlane_execute_extension (k_tool_plane k) extension_name core_name request))
     ≫= λ outcome,
   record_plane_invocation now (tok_agent_id token) (pk_pack_id pack) Plane_Tool Tier_Extension
     extension_name (Some resolved) (ter_extension_action request) required ≫= λ _,
   mret outcome) s.

(** [LoongClawKernel::execute_memory_core] *)
Definition execute_memory_core (pack_id : string) (token : CapabilityToken)
    (required : gset Capability) (core_name : option string) (request : MemoryCoreRequest) :
    KM MemoryCoreOutcome := λ s,
  (get_pack pack_id ≫= λ pack,
   authorize_pack_operation pack token required None ≫= λ now,
   let resolved := resolved_core_adapter core_name
     (MemoryPlane_default_core_adapter_name (k_memory_plane s.1)) in
   st_map_err KernelError_MemoryPlane
     (on_env (λ k, MemoryPlane_execute_core (k_memory_plane k) core_name request))
     ≫= λ outcome,
   record_plane_invocation now (tok_agent_id token) (pk_pack_id pack) Plane_Memory Tier_Core
     resolved None (mcr_operation request) required ≫= λ _,
   mret outcome) s.

(** [LoongClawKernel::execute_memory_extension] *)
Definition execute_memory_extension (pack_id : string) (token : CapabilityToken)
    (required : gset Capability) (extension_name : string) (core_name : option string)
    (request : MemoryExtensionRequest) : KM MemoryExtensionOutcome := λ s,
  (get_pack pack_id ≫= λ pack,
   authorize_pack_operation pack token required None ≫= λ now,
   let resolved := resolved_core_adapter core_name
     (MemoryPlane_default_core_adapter_name (k_memory_plane s.1)) in
   st_map_err KernelError_MemoryPlane
     (on_env (λ k, MemoryPlane_execute_extension (k_memory_plane k) extension_name core_name
                     request)) ≫= λ outcome,
   record_plane_invocation now (tok_agent_id token) (pk_pack_id pack) Plane_Memory
     Tier_Extension extension_name (Some resolved) (mer_operation request) required ≫= λ _,
   mret outcome) s.
End kernel.
Arguments LoongClawKernel : clear implicits.
(** Computations of the [&self] methods of a kernel. *)
Abbreviation KM W P := (ST (LoongClawKernel W P * W) KernelError).
