(* ===== verification/KernelProps.v ===== *)
(** * KernelProps: what governed dispatch guarantees

    The nine [execute_*] entry points are shown to be instances of one
    pipeline, [dispatch]: find the pack, check the route's own guard, check
    pack and token capabilities, run the extension chain, run the adapter,
    record the audit events. The theorems are about [execute], the choice
    among the nine methods of the source. *)
From S2P Require Import Prelude RustStr Contracts Errors Policy AuditSinks Plane Kernel.

(** A call of one of the nine dispatch methods. *)
Inductive kernel_request :=
| ReqTask (task : TaskIntent)
| ReqConnectorCore (core_name : option string) (command : ConnectorCommand)
| ReqConnectorExtension (extension_name : string) (core_name : option string)
    (command : ConnectorCommand)
| ReqRuntimeCore (required : gset Capability) (core_name : option string)
    (request : RuntimeCoreRequest)
| ReqRuntimeExtension (required : gset Capability) (extension_name : string)
    (core_name : option string) (request : RuntimeExtensionRequest)
| ReqToolCore (required : gset Capability) (core_name : option string)
    (request : ToolCoreRequest)
| ReqToolExtension (required : gset Capability) (extension_name : string)
    (core_name : option string) (request : ToolExtensionRequest)
| ReqMemoryCore (required : gset Capability) (core_name : option string)
    (request : MemoryCoreRequest)
| ReqMemoryExtension (required : gset Capability) (extension_name : string)
    (core_name : option string) (request : MemoryExtensionRequest).

Inductive kernel_outcome :=
| OutTask (d : KernelDispatch)
| OutConnector (d : ConnectorDispatch)
| OutRuntimeCore (o : RuntimeCoreOutcome)
| OutRuntimeExtension (o : RuntimeExtensionOutcome)
| OutToolCore (o : ToolCoreOutcome)
| OutToolExtension (o : ToolExtensionOutcome)
| OutMemoryCore (o : MemoryCoreOutcome)
| OutMemoryExtension (o : MemoryExtensionOutcome).

(** The capabilities a request needs. *)
Definition required_of (r : kernel_request) : gset Capability :=
  match r with
  | ReqTask task => ti_required_capabilities task
  | ReqConnectorCore _ c | ReqConnectorExtension _ _ c => cc_required_capabilities c
  | ReqRuntimeCore q _ _ | ReqRuntimeExtension q _ _ _ | ReqToolCore q _ _
  | ReqToolExtension q _ _ _ | ReqMemoryCore q _ _ | ReqMemoryExtension q _ _ _ => q
  end.

(** What the extension chain gets to see of a request. *)
Definition params_of (r : kernel_request) : option Value :=
  match r with
  | ReqToolCore _ _ q => Some (tool_policy_params (tcr_tool_name q) (tcr_payload q))
  | ReqToolExtension _ _ _ q =>
      Some (tool_policy_params (ter_extension_action q) (ter_payload q))
  | _ => None
  end.

(** Connector requests are also limited to the pack's connectors. *)
Definition guard_of (r : kernel_request) (pack : VerticalPackManifest) : result KernelError unit :=
  match r with
  | ReqConnectorCore _ c | ReqConnectorExtension _ _ c =>
      assert_connector_allowed pack (cc_connector_name c)
  | _ => Ok ()
  end.

Section props.
  Context {W P : Type} `{PE : !PolicyEngine P} `{SV : !Semver}.
  Implicit Types (k : LoongClawKernel W P) (w : W).

(** The nine methods as one. *)
Definition execute (pack_id : string) (token : CapabilityToken) (r : kernel_request) :
    KM W P kernel_outcome :=
  match r with
  | ReqTask task => OutTask <$> execute_task pack_id token task
  | ReqConnectorCore n c => OutConnector <$> execute_connector_core pack_id token n c
  | ReqConnectorExtension x n c => OutConnector <$> execute_connector_extension pack_id token x n c
  | ReqRuntimeCore q n r => OutRuntimeCore <$> execute_runtime_core pack_id token q n r
  | ReqRuntimeExtension q x n r =>
      OutRuntimeExtension <$> execute_runtime_extension pack_id token q x n r
  | ReqToolCore q n r => OutToolCore <$> execute_tool_core pack_id token q n r
  | ReqToolExtension q x n r => OutToolExtension <$> execute_tool_extension pack_id token q x n r
  | ReqMemoryCore q n r => OutMemoryCore <$> execute_memory_core pack_id token q n r
  | ReqMemoryExtension q x n r =>
      OutMemoryExtension <$> execute_memory_extension pack_id token q x n r
  end.

Definition harness_request (pack : VerticalPackManifest) (token : CapabilityToken)
    (task : TaskIntent) : HarnessRequest :=
  {| hr_token_id := tok_token_id token; hr_pack_id := pk_pack_id pack;
     hr_agent_id := tok_agent_id token; hr_task_id := ti_task_id task;
     hr_objective := ti_objective task; hr_payload := ti_payload task |}.

(** The adapter call a request ends in. *)
Definition adapter_call (r : kernel_request) (pack : VerticalPackManifest)
    (token : CapabilityToken) k : ST W KernelError kernel_outcome :=
  match r with
  | ReqTask task =>
      (λ o, OutTask {| kd_adapter_route := pk_default_route pack; kd_outcome := o |}) <$>
      st_map_err KernelError_Harness
        (HarnessBroker_execute (k_harness k) (pk_default_route pack)
           (harness_request pack token task))
  | ReqConnectorCore n c =>
      (λ o, OutConnector {| cd_connector_name := cc_connector_name c; cd_outcome := o |}) <$>
      st_map_err KernelError_Connector (ConnectorPlane_invoke_core (k_connector_plane k) n c)
  | ReqConnectorExtension x n c =>
      (λ o, OutConnector {| cd_connector_name := cc_connector_name c; cd_outcome := o |}) <$>
      st_map_err KernelError_Connector (ConnectorPlane_invoke_extension (k_connector_plane k) x n c)
  | ReqRuntimeCore _ n q => OutRuntimeCore <$>
      st_map_err KernelError_RuntimePlane (RuntimePlane_execute_core (k_runtime_plane k) n q)
  | ReqRuntimeExtension _ x n q => OutRuntimeExtension <$>
      st_map_err KernelError_RuntimePlane (RuntimePlane_execute_extension (k_runtime_plane k) x n q)
  | ReqToolCore _ n q => OutToolCore <$>
      st_map_err KernelError_ToolPlane (ToolPlane_execute_core (k_tool_plane k) n q)
  | ReqToolExtension _ x n q => OutToolExtension <$>
      st_map_err KernelError_ToolPlane (ToolPlane_execute_extension (k_tool_plane k) x n q)
  | ReqMemoryCore _ n q => OutMemoryCore <$>
      st_map_err KernelError_MemoryPlane (MemoryPlane_execute_core (k_memory_plane k) n q)
  | ReqMemoryExtension _ x n q => OutMemoryExtension <$>
      st_map_err KernelError_MemoryPlane (MemoryPlane_execute_extension (k_memory_plane k) x n q)
  end.

Definition connector_invoked (pack : VerticalPackManifest) (c : ConnectorCommand) : AuditEventKind :=
  ConnectorInvoked (pk_pack_id pack) (cc_connector_name c) (cc_operation c)
    (caps_iter (cc_required_capabilities c)).

(** The audit events a successful request leaves, oldest first. *)
Definition audit_trail (r : kernel_request) (pack : VerticalPackManifest) k : list AuditEventKind :=
  let id := pk_pack_id pack in
  let caps := caps_iter (required_of r) in
  let connector n := resolved_core_adapter n (ConnectorPlane_default_core_adapter_name (k_connector_plane k)) in
  let runtime n := resolved_core_adapter n (RuntimePlane_default_core_adapter_name (k_runtime_plane k)) in
  let tool n := resolved_core_adapter n (ToolPlane_default_core_adapter_name (k_tool_plane k)) in
  let memory n := resolved_core_adapter n (MemoryPlane_default_core_adapter_name (k_memory_plane k)) in
  match r with
  | ReqTask task => [TaskDispatched id (ti_task_id task) (pk_default_route pack) caps]
  | ReqConnectorCore n c =>
      [connector_invoked pack c;
       PlaneInvoked id Plane_Connector Tier_Core (connector n) None (cc_operation c) caps]
  | ReqConnectorExtension x n c =>
      [connector_invoked pack c;
       PlaneInvoked id Plane_Connector Tier_Extension x (Some (connector n)) (cc_operation c) caps]
  | ReqRuntimeCore _ n q =>
      [PlaneInvoked id Plane_Runtime Tier_Core (runtime n) None (rcr_action q) caps]
  | ReqRuntimeExtension _ x n q =>
      [PlaneInvoked id Plane_Runtime Tier_Extension x (Some (runtime n)) (rer_action q) caps]
  | ReqToolCore _ n q =>
      [PlaneInvoked id Plane_Tool Tier_Core (tool n) None (tcr_tool_name q) caps]
  | ReqToolExtension _ x n q =>
      [PlaneInvoked id Plane_Tool Tier_Extension x (Some (tool n)) (ter_extension_action q) caps]
  | ReqMemoryCore _ n q =>
      [PlaneInvoked id Plane_Memory Tier_Core (memory n) None (mcr_operation q) caps]
  | ReqMemoryExtension _ x n q =>
      [PlaneInvoked id Plane_Memory Tier_Extension x (Some (memory n)) (mer_operation q) caps]
  end.

(** The common pipeline. *)
Definition dispatch (pack_id : string) (token : CapabilityToken) (r : kernel_request) :
    KM W P kernel_outcome := λ s,
  (get_pack pack_id ≫= λ pack,
   lift (guard_of r pack) ≫= λ _,
   authorize_pack_operation pack token (required_of r) (params_of r) ≫= λ now,
   on_env (adapter_call r pack token) ≫= λ out,
   for_each (record_event now (Some (tok_agent_id token))) (audit_trail r pack s.1) ≫= λ _,
   mret out) s.

(** ** The pipeline is what the nine methods do *)

Lemma lift_run {S E A} (r : result E A) (s : S) : lift r s = (r, s).
Proof. done. Qed.

Lemma mret_run {S E A} (a : A) (s : S) : (mret a : ST S E A) s = (Ok a, s).
Proof. done. Qed.

Lemma st_fmap_run {S E A B} (f : A → B) (m : ST S E A) s :
  (f <$> m) s = match m s with (Ok a, s') => (Ok (f a), s') | (Err e, s') => (Err e, s') end.
Proof. done. Qed.

(** Case analysis on the call that runs in environment [w]. *)
Ltac split_run w :=
  match goal with
  | |- context [?m w] => is_var w; destruct (m w) as [[?|?] ?]
  end.

(** Case analysis on the next audit record. *)
Ltac split_event :=
  match goal with
  | |- context [record_event ?a ?b ?c ?s] => destruct (record_event a b c s) as [[?|?] ?]
  end.

Lemma execute_dispatch pack_id token r s :
  execute pack_id token r s = dispatch pack_id token r s.
Proof.
  destruct s as [k w]; destruct r; unfold dispatch;
  cbn [execute guard_of params_of required_of adapter_call audit_trail for_each fst];
  (etransitivity; [apply st_fmap_run|]);
  unfold execute_task, execute_connector_core, execute_connector_extension, execute_runtime_core,
    execute_runtime_extension, execute_tool_core, execute_tool_extension, execute_memory_core,
    execute_memory_extension, record_plane_invocation, connector_invoked, harness_request.
  all: rewrite !st_bind_run; destruct (get_pack pack_id (k, w)) as [[pack|?] s1]; [|done].
  all: rewrite !st_bind_run, ?lift_run; try (destruct (assert_connector_allowed _ _) as [?|?]; [|done]);
    rewrite ?st_bind_run.
  all: destruct (authorize_pack_operation _ _ _ _ s1) as [[now|?] s2]; [|done].
  all: destruct s2 as [k2 w2]; rewrite ?st_bind_run; unfold on_env; cbn [adapter_call];
    rewrite ?st_fmap_run; unfold st_map_err, harness_request.
  all: split_run w2; [|done].
  all: cbn [map_err fst]; rewrite ?st_bind_run; split_event; [|done]; rewrite ?st_bind_run; try done.
  all: split_event; done.
Qed.

(** ** Frames: what a call may change *)

Lemma adapter_call_frame r pack token k p n :
  adapter_call r pack token (set_event_seq n (set_policy p k)) = adapter_call r pack token k.
Proof. by destruct r. Qed.

Lemma set_event_seq_idemp m n k : set_event_seq m (set_event_seq n k) = set_event_seq m k.
Proof. done. Qed.

Lemma set_event_seq_same k : set_event_seq (k_event_seq k) k = k.
Proof. by destruct k. Qed.

(** The event recorded when the counter stands at [seq]. *)
Definition event_at (seq now : Z) (agent : option string) (kind : AuditEventKind) : AuditEvent :=
  {| ev_event_id := "evt-" +:+ hex016 (wrap64 (seq + 1)); ev_timestamp_epoch_s := now;
     ev_agent_id := agent; ev_kind := kind |}.

Fixpoint events_from (seq now : Z) (agent : option string) (kinds : list AuditEventKind) :
    list AuditEvent :=
  match kinds with
  | [] => []
  | kind :: kinds => event_at seq now agent kind :: events_from (wrap64 (seq + 1)) now agent kinds
  end.

(** The counter after [kinds] have been recorded. *)
Fixpoint seq_after (seq : Z) (kinds : list AuditEventKind) : Z :=
  match kinds with
  | [] => seq
  | _ :: kinds => seq_after (wrap64 (seq + 1)) kinds
  end.

Lemma record_event_run now agent kind k w :
  record_event now agent kind (k, w) =
  (map_err KernelError_Audit (k_audit k (event_at (k_event_seq k) now agent kind) w).1,
   (set_event_seq (wrap64 (k_event_seq k + 1)) k,
    (k_audit k (event_at (k_event_seq k) now agent kind) w).2)).
Proof.
  unfold record_event, new_event. simpl. unfold event_at. by destruct (k_audit k _ w) as [? ?].
Qed.

(** A successful recording appends the numbered events, in order. *)
Lemma record_events_Ok log now agent kinds k w k' w' `{HJ : !Journal (k_audit k) log} :
  for_each (record_event now agent) kinds (k, w) = (Ok (), (k', w')) →
  k' = set_event_seq (seq_after (k_event_seq k) kinds) k ∧
  log w' = log w ++ events_from (k_event_seq k) now agent kinds.
Proof.
  revert k w HJ. induction kinds as [|kind kinds IH]; intros k w HJ; simpl.
  - intros [= <- <-]. by rewrite set_event_seq_same, app_nil_r.
  - rewrite st_bind_run, record_event_run.
    destruct (k_audit k (event_at (k_event_seq k) now agent kind) w) as [[[]|?] w1] eqn:He; [|done].
    simpl. intros H. apply IH in H as [-> ->]; [|done]. simpl. split; [done|].
    apply journal_ok in He as ->. by rewrite <-app_assoc.
Qed.

(** ** Authorization *)

(** What the extension chain is shown. *)
Definition extension_context (r : kernel_request) (pack : VerticalPackManifest)
    (token : CapabilityToken) (now : Z) : PolicyExtensionContext :=
  {| px_pack := pack; px_token := token; px_now_epoch_s := now;
     px_required_capabilities := required_of r; px_request_parameters := params_of r |}.

Lemma assert_grants_all_Ok pack required :
  assert_grants_all pack required = Ok () ↔
  ∀ c, c ∈ required → c ∈ pk_granted_capabilities pack.
Proof.
  induction required as [|c l IH]; simpl; [split; [|done]; by intros _ c ?%not_elem_of_nil|].
  destruct (VerticalPackManifest_grants pack c) eqn:Hc.
  - apply grants_true in Hc. rewrite IH. setoid_rewrite elem_of_cons. naive_solver.
  - split; [done|]. intros H. assert (VerticalPackManifest_grants pack c = true); [|congruence].
    apply grants_true, H. by left.
Qed.

Lemma assert_pack_grants_Ok pack required :
  assert_pack_grants pack required = Ok () ↔ required ⊆ pk_granted_capabilities pack.
Proof.
  unfold assert_pack_grants. rewrite assert_grants_all_Ok. by setoid_rewrite elem_of_caps_iter.
Qed.

Lemma authorize_pack_operation_Ok pack token required params k w now s :
  authorize_pack_operation pack token required params (k, w) = (Ok now, s) ↔
  required ⊆ pk_granted_capabilities pack ∧ ∃ w1 p w2,
    k_clock k w = (now, w1) ∧
    pe_authorize token (pk_pack_id pack) now required (k_policy k) = (Ok (), p) ∧
    PolicyExtensionChain_authorize (k_policy_extensions k)
      {| px_pack := pack; px_token := token; px_now_epoch_s := now;
         px_required_capabilities := required; px_request_parameters := params |} w1 =
      (Ok (), w2) ∧
    s = (set_policy p k, w2).
Proof.
  unfold authorize_pack_operation. rewrite <-assert_pack_grants_Ok, st_bind_run, lift_run.
  destruct (assert_pack_grants pack required) as [[]|e]; [|naive_solver].
  rewrite st_bind_run. unfold read_clock. destruct (k_clock k w) as [t w1].
  rewrite st_bind_run. unfold authorize_or_audit_denial, with_policy.
  destruct (pe_authorize token (pk_pack_id pack) t required (k_policy k)) as [[[]|e] p] eqn:Hp.
  - simpl. destruct (PolicyExtensionChain_authorize _ _ w1) as [[[]|e] w2] eqn:Hx.
    + split; [intros [= <- <-]; naive_solver|].
      intros (_ & ? & ? & ? & [= <- <-] & H1 & H2 & ->).
      rewrite Hp in H1. simplify_eq. rewrite Hx in H2. by simplify_eq.
    + split; [|intros (_ & ? & ? & ? & [= <- <-] & H1 & H2 & _); rewrite Hp in H1;
                 simplify_eq; by rewrite Hx in H2].
      unfold audit_denial.
      rewrite st_bind_run, record_event_run. by destruct (k_audit _ _ _) as [[?|?] ?].
  - split; [|intros (_ & ? & ? & ? & [= <- <-] & H1 & _); by rewrite Hp in H1].
    unfold audit_denial.
    rewrite st_bind_run, record_event_run. by destruct (k_audit _ _ _) as [[?|?] ?].
Qed.

(** The first capability the pack lacks, in iteration order, is the error. *)
Lemma assert_grants_all_first pack pre c post :
  (∀ d, d ∈ pre → d ∈ pk_granted_capabilities pack) → c ∉ pk_granted_capabilities pack →
  assert_grants_all pack (pre ++ c :: post) = Err (PackCapabilityBoundary (pk_pack_id pack) c).
Proof.
  intros Hpre Hc. induction pre as [|d pre IH]; simpl.
  - destruct (VerticalPackManifest_grants pack c) eqn:Hg; [|done]. by apply grants_true in Hg.
  - rewrite (proj2 (grants_true pack d)) by (apply Hpre; by left).
    apply IH. intros x ?. apply Hpre. by right.
Qed.

Lemma get_pack_run pack_id k w :
  get_pack pack_id (k, w) = (ok_or (k_packs k !! pack_id) (PackNotFound pack_id), (k, w)).
Proof. done. Qed.

(** The phases of a successful issue. *)
Lemma issue_token_Ok pack_id agent ttl k w token s :
  issue_token pack_id agent ttl (k, w) = (Ok token, s) ↔
  ∃ pack now w1 p,
    k_packs k !! pack_id = Some pack ∧ k_clock k w = (now, w1) ∧
    pe_issue_token pack agent now ttl (k_policy k) = (Ok token, p) ∧
    record_event now (Some agent) (TokenIssued token) (set_policy p k, w1) = (Ok (), s).
Proof.
  unfold issue_token. rewrite st_bind_run, lift_run. cbn [fst].
  destruct (k_packs k !! pack_id) as [pack|]; [|naive_solver]. cbn [ok_or]. rewrite st_bind_run.
  unfold read_clock. destruct (k_clock k w) as [now w1]. rewrite st_bind_run. unfold st_map_err, with_policy.
  destruct (pe_issue_token pack agent now ttl (k_policy k)) as [[tok|?] p] eqn:Hp; cbn [map_err];
    [|split; [done|intros (? & ? & ? & ? & [= <-] & [= <- <-] & H & _); by rewrite Hp in H]].
  rewrite st_bind_run. split.
  - destruct (record_event _ _ _ _) as [[[]|?] s'] eqn:Hr; [|done]. rewrite mret_run. intros [= <- <-]. eauto 10.
  - intros (? & ? & ? & ? & [= <-] & [= <- <-] & H & Hr). rewrite Hp in H. injection H as -> <-. by rewrite Hr.
Qed.

(** The phases of a successful dispatch. *)
Lemma dispatch_Ok pack_id token r k w out s :
  dispatch pack_id token r (k, w) = (Ok out, s) ↔
  ∃ pack now p w2 w3,
    k_packs k !! pack_id = Some pack ∧ guard_of r pack = Ok () ∧
    authorize_pack_operation pack token (required_of r) (params_of r) (k, w) =
      (Ok now, (set_policy p k, w2)) ∧
    adapter_call r pack token k w2 = (Ok out, w3) ∧
    for_each (record_event now (Some (tok_agent_id token))) (audit_trail r pack k)
      (set_policy p k, w3) = (Ok (), s).
Proof.
  unfold dispatch. rewrite st_bind_run, get_pack_run.
  destruct (k_packs k !! pack_id) as [pack|]; [|naive_solver]. simpl.
  rewrite st_bind_run, lift_run. destruct (guard_of r pack) as [[]|e] eqn:Hg.
  2:{ split; [done|]. intros (? & ? & ? & ? & ? & [= <-] & Hg' & _). congruence. }
  rewrite st_bind_run.
  destruct (authorize_pack_operation _ _ _ _ (k, w)) as [[now|e] s1] eqn:Hauth.
  2:{ split; [done|]. intros (? & ? & ? & ? & ? & [= <-] & _ & Ha' & _). congruence. }
  pose proof Hauth as (_ & w1 & p & w2 & _ & _ & _ & ->)%authorize_pack_operation_Ok.
  rewrite st_bind_run. unfold on_env.
  rewrite <-(set_event_seq_same (set_policy p k)) at 1. rewrite adapter_call_frame. simpl.
  destruct (adapter_call r pack token k w2) as [[o|e] w3] eqn:Ha.
  2:{ split; [done|]. intros (? & ? & ? & ? & ? & [= <-] & _ & Hauth' & Ha' & _).
      rewrite Hauth in Hauth'. simplify_eq. congruence. }
  rewrite st_bind_run. destruct (for_each _ _ (set_policy p k, w3)) as [[[]|e] s2] eqn:Hf.
  - split; [intros [= <- <-]; eauto 10|].
    intros (? & ? & ? & ? & ? & [= <-] & _ & Hauth' & Ha' & Hf').
    rewrite Hauth in Hauth'. simplify_eq. rewrite Ha in Ha'. simplify_eq.
    rewrite Hf in Hf'. by simplify_eq.
  - split; [done|]. intros (? & ? & ? & ? & ? & [= <-] & _ & Hauth' & Ha' & Hf').
    rewrite Hauth in Hauth'. simplify_eq. rewrite Ha in Ha'. simplify_eq. congruence.
Qed.
End props.

(** * Runs of the kernel and its invariant

    A run is any sequence of registrations, administrative calls and
    dispatches on one kernel value. [kernel_wf] is the representation
    invariant of [LoongClawKernel]; every operation keeps it. *)

Section wf.
  Context {W P : Type} `{PE : !PolicyEngine P} `{SV : !Semver}.
  Implicit Types (k : LoongClawKernel W P) (w : W).

(** One call on the kernel, successful or not. *)
Inductive kernel_step : LoongClawKernel W P * W → LoongClawKernel W P * W → Prop :=
| step_register_pack k w pack k' :
    register_pack pack k = Ok k' → kernel_step (k, w) (k', w)
| step_register_policy_extension k w e : kernel_step (k, w) (register_policy_extension e k, w)
| step_register_harness_adapter k w a : kernel_step (k, w) (register_harness_adapter a k, w)
| step_register_core_connector k w a : kernel_step (k, w) (register_core_connector_adapter a k, w)
| step_register_connector_extension k w a :
    kernel_step (k, w) (register_connector_extension_adapter a k, w)
| step_set_default_connector k w n k' :
    set_default_core_connector_adapter n k = Ok k' → kernel_step (k, w) (k', w)
| step_register_core_runtime k w a : kernel_step (k, w) (register_core_runtime_adapter a k, w)
| step_register_runtime_extension k w a :
    kernel_step (k, w) (register_runtime_extension_adapter a k, w)
| step_set_default_runtime k w n k' :
    set_default_core_runtime_adapter n k = Ok k' → kernel_step (k, w) (k', w)
| step_register_core_tool k w a : kernel_step (k, w) (register_core_tool_adapter a k, w)
| step_register_tool_extension k w a : kernel_step (k, w) (register_tool_extension_adapter a k, w)
| step_set_default_tool k w n k' :
    set_default_core_tool_adapter n k = Ok k' → kernel_step (k, w) (k', w)
| step_register_core_memory k w a : kernel_step (k, w) (register_core_memory_adapter a k, w)
| step_register_memory_extension k w a :
    kernel_step (k, w) (register_memory_extension_adapter a k, w)
| step_set_default_memory k w n k' :
    set_default_core_memory_adapter n k = Ok k' → kernel_step (k, w) (k', w)
| step_issue_token s pack_id agent ttl : kernel_step s (issue_token pack_id agent ttl s).2
| step_revoke_token s token_id actor : kernel_step s (revoke_token token_id actor s).2
| step_revoke_generation k w below : kernel_step (k, w) (revoke_generation below k, w)
| step_record_audit_event s agent kind : kernel_step s (record_audit_event agent kind s).2
| step_execute s pack_id token r : kernel_step s (execute pack_id token r s).2
(** Anything outside the kernel may change the environment. *)
| step_environment k w w' : kernel_step (k, w) (k, w').

(** The invariant: packs and namespaces agree and sit under their own ids,
    only validated packs are registered, every plane is well formed and the
    event counter is a 64-bit integer. *)
Record kernel_wf k : Prop := {
  wf_packs : map_Forall (λ id pack, pk_pack_id pack = id ∧
               VerticalPackManifest_validate pack = Ok ()) (k_packs k);
  wf_namespaces : k_namespaces k = namespace_of <$> k_packs k;
  wf_connector : plane_wf (k_connector_plane k);
  wf_runtime : plane_wf (k_runtime_plane k);
  wf_tool : plane_wf (k_tool_plane k);
  wf_memory : plane_wf (k_memory_plane k);
  wf_event_seq : is_u64 (k_event_seq k);
}.

Lemma with_runtime_wf policy clock audit : kernel_wf (with_runtime policy clock audit).
Proof.
  split; simpl; [apply map_Forall_empty|by rewrite fmap_empty|apply plane_new_wf..|].
  unfold is_u64, u64_max. lia.
Qed.

(** ** The interior changes: policy engine and event counter *)

(** One operation of the policy engine. *)
Inductive policy_step : P → P → Prop :=
| policy_issue p pack agent now ttl : policy_step p (pe_issue_token pack agent now ttl p).2
| policy_authorize p token pack now required :
    policy_step p (pe_authorize token pack now required p).2
| policy_revoke p token_id : policy_step p (pe_revoke_token token_id p).2
| policy_revoke_generation p below : policy_step p (pe_revoke_generation below p).
Hint Constructors policy_step : loong.

(** [k'] differs from [k] at most in the policy state, by operations of the
    engine, and in the counter. *)
Definition interior k k' : Prop :=
  ∃ p n, k' = set_event_seq n (set_policy p k) ∧ steps policy_step (k_policy k) p ∧
    (is_u64 (k_event_seq k) → is_u64 n).

Lemma interior_refl k : interior k k.
Proof. exists (k_policy k), (k_event_seq k). split_and!; [by destruct k|constructor|done]. Qed.

Lemma interior_trans k k' k'' : interior k k' → interior k' k'' → interior k k''.
Proof.
  intros (p & n & -> & Hp & Hn) (p' & n' & -> & Hp' & Hn'). exists p', n'.
  split_and!; [done|by eapply steps_trans|simpl in *; auto].
Qed.

Lemma interior_wf k k' : kernel_wf k → interior k k' → kernel_wf k'.
Proof. intros [] (p & n & -> & _ & Hn). split; simpl; auto. Qed.

(** [m] changes the kernel only in the interior, on success and on failure. *)
Definition stays {E A} (m : ST (LoongClawKernel W P * W) E A) : Prop :=
  ∀ s, interior s.1 (m s).2.1.

Lemma stays_bind {E A B} (m : ST _ E A) (f : A → ST _ E B) :
  stays m → (∀ a, stays (f a)) → stays (m ≫= f).
Proof.
  intros Hm Hf s. rewrite st_bind_run. specialize (Hm s).
  destruct (m s) as [[a|e] s1]; [|done]. by eapply interior_trans; [|apply Hf].
Qed.

Lemma stays_lift {E A} (r : result E A) : stays (lift r).
Proof. intros s. apply interior_refl. Qed.

Lemma stays_map_err {E E' A} (f : E → E') (m : ST _ E A) : stays m → stays (st_map_err f m).
Proof. intros Hm s. specialize (Hm s). unfold st_map_err. by destruct (m s). Qed.

Lemma stays_fmap {E A B} (f : A → B) (m : ST _ E A) : stays m → stays (f <$> m).
Proof. intros Hm s. specialize (Hm s). rewrite st_fmap_run. by destruct (m s) as [[?|?] ?]. Qed.

Lemma stays_on_env {E A} (m : LoongClawKernel W P → ST W E A) : stays (on_env m).
Proof. intros [k w]. unfold on_env. destruct (m k w). apply interior_refl. Qed.

Lemma stays_read_clock : stays read_clock.
Proof. intros [k w]. unfold read_clock. destruct (k_clock k w). apply interior_refl. Qed.

Lemma stays_with_policy {A} (m : ST P PolicyError A) :
  (∀ p, policy_step p (m p).2) → stays (with_policy m).
Proof.
  intros Hm [k w]. unfold with_policy. specialize (Hm (k_policy k)).
  destruct (m (k_policy k)) as [r p]. simpl in *.
  exists p, (k_event_seq k). split_and!; [by destruct k|by eapply steps_snoc; [constructor|]|done].
Qed.

Lemma stays_record_event now agent kind : stays (record_event now agent kind).
Proof.
  intros [k w]. rewrite record_event_run. simpl. exists (k_policy k), (wrap64 (k_event_seq k + 1)).
  split_and!; [by destruct k|constructor|auto with loong].
Qed.

Lemma stays_for_each {A} (f : A → KM W P unit) xs : (∀ x, stays (f x)) → stays (for_each f xs).
Proof.
  intros Hf. induction xs; simpl; [intros s; apply interior_refl|]. by apply stays_bind.
Qed.

Lemma stays_audit_denial pack token now e : stays (audit_denial pack token now e).
Proof. apply stays_bind; [apply stays_record_event|intros _ s; apply interior_refl]. Qed.

Lemma stays_authorize pack token now required params :
  stays (authorize_or_audit_denial pack token now required params).
Proof.
  intros s. unfold authorize_or_audit_denial.
  pose proof (stays_with_policy (pe_authorize token (pk_pack_id pack) now required)
    (λ p, policy_authorize p _ _ _ _) s) as H1.
  destruct (with_policy _ s) as [[?|?] s1];
    [|by eapply interior_trans; [|apply stays_audit_denial]].
  match goal with |- context [on_env ?m s1] => pose proof (stays_on_env m s1) as H2;
    destruct (on_env m s1) as [[?|?] s2] end.
  - by eapply interior_trans.
  - eapply interior_trans; [done|]. by eapply interior_trans; [|apply stays_audit_denial].
Qed.

Lemma stays_authorize_pack pack token required params :
  stays (authorize_pack_operation pack token required params).
Proof.
  apply stays_bind; [apply stays_lift|intros _].
  apply stays_bind; [apply stays_read_clock|intros now].
  apply stays_bind; [apply stays_authorize|intros _ ?; apply interior_refl].
Qed.

Lemma stays_dispatch pack_id token r : stays (dispatch pack_id token r).
Proof.
  intros s. unfold dispatch. revert s.
  assert (∀ k, stays (get_pack pack_id ≫= λ pack, lift (guard_of r pack) ≫= λ _,
    authorize_pack_operation pack token (required_of r) (params_of r) ≫= λ now,
    on_env (adapter_call r pack token) ≫= λ out,
    for_each (record_event now (Some (tok_agent_id token))) (audit_trail r pack k) ≫= λ _,
    mret out)) as Hs; [intros k|intros s; apply Hs].
  apply stays_bind; [intros [? ?]; apply interior_refl|intros pack].
  apply stays_bind; [apply stays_lift|intros _].
  apply stays_bind; [apply stays_authorize_pack|intros now].
  apply stays_bind; [apply stays_on_env|intros out].
  apply stays_bind; [apply stays_for_each, stays_record_event|intros _ ?; apply interior_refl].
Qed.

Lemma stays_execute pack_id token r : stays (execute pack_id token r).
Proof. intros s. rewrite execute_dispatch. apply stays_dispatch. Qed.

Lemma stays_issue_token pack_id agent ttl : stays (issue_token pack_id agent ttl).
Proof.
  intros [k w]. unfold issue_token. apply stays_bind; [apply stays_lift|intros pack].
  apply stays_bind; [apply stays_read_clock|intros now].
  apply stays_bind; [apply stays_map_err, stays_with_policy; auto with loong|intros token].
  apply stays_bind; [apply stays_record_event|intros _ s; apply interior_refl].
Qed.

Lemma stays_revoke_token token_id actor : stays (revoke_token token_id actor).
Proof.
  apply stays_bind; [apply stays_map_err, stays_with_policy; auto with loong|intros _].
  apply stays_bind; [apply stays_read_clock|intros now; apply stays_record_event].
Qed.

Lemma stays_record_audit_event agent kind : stays (record_audit_event agent kind).
Proof. apply stays_bind; [apply stays_read_clock|intros now; apply stays_record_event]. Qed.

(** ** Preservation *)

Lemma register_pack_Ok pack k k' :
  register_pack pack k = Ok k' ↔
  VerticalPackManifest_validate pack = Ok () ∧ k_packs k !! pk_pack_id pack = None ∧
  k' = set_packs (<[pk_pack_id pack := pack]> (k_packs k))
         (<[pk_pack_id pack := namespace_of pack]> (k_namespaces k)) k.
Proof.
  unfold register_pack. destruct (VerticalPackManifest_validate pack) as [[]|e]; simpl; [|naive_solver].
  destruct (k_packs k !! pk_pack_id pack); naive_solver.
Qed.

Lemma register_pack_wf pack k k' : kernel_wf k → register_pack pack k = Ok k' → kernel_wf k'.
Proof.
  intros [] (? & ? & ->)%register_pack_Ok. split; simpl; try done.
  - by apply map_Forall_insert_2.
  - rewrite fmap_insert. by f_equal.
Qed.

Hint Resolve plane_register_core_adapter_wf plane_register_extension_adapter_wf : loong.

Lemma kernel_step_wf s s' : kernel_wf s.1 → kernel_step s s' → kernel_wf s'.1.
Proof.
  intros Hwf Hstep. destruct Hstep; simpl in *; try done;
    try (by eapply register_pack_wf); try (by destruct Hwf; split; simpl; eauto with loong);
    try (eapply interior_wf; [done|]; first [apply stays_issue_token|apply stays_revoke_token
      |apply stays_record_audit_event|apply stays_execute]);
    unfold set_default_core_connector_adapter, set_default_core_runtime_adapter,
      set_default_core_tool_adapter, set_default_core_memory_adapter in *;
    destruct Hwf; run_inv; split; simpl; try done; by eapply plane_set_default_core_adapter_wf.
Qed.

(** The policy engine changes only through its own operations. *)
Lemma interior_policy k k' : interior k k' → steps policy_step (k_policy k) (k_policy k').
Proof. by intros (p & n & -> & Hp & _). Qed.

Lemma kernel_step_policy s s' : kernel_step s s' → steps policy_step (k_policy s.1) (k_policy s'.1).
Proof.
  intros Hstep. destruct Hstep; simpl in *; try (by constructor);
    try (apply interior_policy; first [apply stays_issue_token|apply stays_revoke_token
      |apply stays_record_audit_event|apply stays_execute]);
    try (by eapply steps_snoc; [constructor|constructor]);
    try (match goal with Hreg : register_pack _ _ = Ok _ |- _ =>
      apply register_pack_Ok in Hreg as (_ & _ & ->) end; by constructor);
    unfold set_default_core_connector_adapter, set_default_core_runtime_adapter,
      set_default_core_tool_adapter, set_default_core_memory_adapter in *;
    run_inv; by constructor.
Qed.
End wf.

(** * What calls keep of the environment

    If the clock, the sink, the policy extensions and the adapters of a kernel
    keep a property of the environment, so does every call. *)
Section keeps.
  Context {W P : Type} `{PE : !PolicyEngine P} `{SV : !Semver} (I : W → Prop).
  Implicit Types (k : LoongClawKernel W P) (w : W).

(** Parts that keep [I] *)
Record env_kept k : Prop := {
  kept_clock : ∀ w, I w → I (k_clock k w).2;
  kept_audit : ∀ event w, I w → I (k_audit k event w).2;
  kept_extensions : ∀ context w, I w → I (PolicyExtensionChain_authorize (k_policy_extensions k) context w).2;
  kept_adapters : ∀ r pack token w, I w → I (adapter_call r pack token k w).2;
}.

Definition keeps {E A} (m : ST (LoongClawKernel W P * W) E A) : Prop :=
  ∀ s, env_kept s.1 → I s.2 → env_kept (m s).2.1 ∧ I (m s).2.2.

Lemma env_kept_interior k k' : interior k k' → env_kept k → env_kept k'.
Proof.
  intros (p & n & -> & _) [Hc Ha Hx Hr]. by split.
Qed.

(** A call that stays inside the kernel keeps [I] if it does so in its effects. *)
Lemma stays_keeps {E A} (m : ST (LoongClawKernel W P * W) E A) :
  stays m → (∀ s, env_kept s.1 → I s.2 → I (m s).2.2) → keeps m.
Proof. intros Hs Hm s Hk Hw. split; [by eapply env_kept_interior; [apply Hs|]|by apply Hm]. Qed.

Lemma keeps_bind {E A B} (m : ST (LoongClawKernel W P * W) E A) (f : A → ST (LoongClawKernel W P * W) E B) :
  keeps m → (∀ a, keeps (f a)) → keeps (m ≫= f).
Proof.
  intros Hm Hf s Hk Hw. rewrite st_bind_run. destruct (Hm s Hk Hw) as [Hk1 Hw1].
  destruct (m s) as [[a|e] s1]; [by apply Hf|done].
Qed.

Lemma keeps_lift {E A} (r : result E A) : keeps (lift r).
Proof. by intros s. Qed.

Lemma keeps_map_err {E E' A} (f : E → E') (m : ST (LoongClawKernel W P * W) E A) : keeps m → keeps (st_map_err f m).
Proof. intros Hm s Hk Hw. specialize (Hm s Hk Hw). unfold st_map_err. by destruct (m s). Qed.

Lemma keeps_fmap {E A B} (f : A → B) (m : ST (LoongClawKernel W P * W) E A) : keeps (f <$> m) ↔ keeps m.
Proof.
  split; intros Hm s Hk Hw; specialize (Hm s Hk Hw); rewrite st_fmap_run in *; by destruct (m s) as [[?|?] ?].
Qed.

Lemma keeps_read_clock : keeps read_clock.
Proof.
  apply stays_keeps; [apply stays_read_clock|]. intros [k w] Hk Hw. unfold read_clock.
  pose proof (kept_clock k Hk w Hw). by destruct (k_clock k w).
Qed.

Lemma keeps_record_event now agent kind : keeps (record_event now agent kind).
Proof.
  apply stays_keeps; [apply stays_record_event|]. intros [k w] Hk Hw. rewrite record_event_run. by apply (kept_audit k Hk).
Qed.

Lemma keeps_with_policy {A} (m : ST P PolicyError A) : (∀ p, policy_step p (m p).2) → keeps (with_policy m).
Proof.
  intros Hm. apply stays_keeps; [by apply stays_with_policy|]. intros [k w] Hk Hw. unfold with_policy.
  by destruct (m (k_policy k)).
Qed.

Lemma keeps_for_each {A} (f : A → KM W P unit) xs : (∀ x, keeps (f x)) → keeps (for_each f xs).
Proof. intros Hf. induction xs; simpl; [by intros s|]. by apply keeps_bind. Qed.

Lemma keeps_authorize pack token now required params : keeps (authorize_or_audit_denial pack token now required params).
Proof.
  assert (∀ e, keeps (audit_denial pack token now e)) as Hd
    by (intros e; apply keeps_bind; [apply keeps_record_event|by intros _ s]).
  intros s Hk Hw. unfold authorize_or_audit_denial.
  destruct (keeps_with_policy (pe_authorize token (pk_pack_id pack) now required) (λ p, policy_authorize p _ _ _ _) s Hk Hw)
    as [Hk1 Hw1].
  destruct (with_policy _ s) as [[?|?] [k1 w1]]; [|by apply Hd]. unfold on_env. cbn [fst snd] in *.
  pose proof (λ context, kept_extensions k1 Hk1 context w1 Hw1) as Hx.
  match goal with |- context [PolicyExtensionChain_authorize ?c ?x w1] =>
    specialize (Hx x); destruct (PolicyExtensionChain_authorize c x w1) as [[?|?] w2] end; [done|by apply Hd].
Qed.

Lemma keeps_authorize_pack pack token required params : keeps (authorize_pack_operation pack token required params).
Proof.
  apply keeps_bind; [apply keeps_lift|intros _]. apply keeps_bind; [apply keeps_read_clock|intros now].
  apply keeps_bind; [apply keeps_authorize|by intros _ s].
Qed.

Lemma keeps_execute pack_id token r : keeps (execute pack_id token r).
Proof.
  intros s. rewrite execute_dispatch. unfold dispatch. revert s.
  assert (∀ k, keeps (get_pack pack_id ≫= λ pack, lift (guard_of r pack) ≫= λ _,
    authorize_pack_operation pack token (required_of r) (params_of r) ≫= λ now,
    on_env (adapter_call r pack token) ≫= λ out,
    for_each (record_event now (Some (tok_agent_id token))) (audit_trail r pack k) ≫= λ _,
    mret out)) as Hs; [intros k|intros s; apply Hs].
  apply keeps_bind; [by intros [? ?]|intros pack]. apply keeps_bind; [apply keeps_lift|intros _].
  apply keeps_bind; [apply keeps_authorize_pack|intros now].
  apply keeps_bind; [|intros out; apply keeps_bind; [apply keeps_for_each, keeps_record_event|by intros _ s]].
  apply stays_keeps; [apply stays_on_env|]. intros [k1 w1] Hk Hw. unfold on_env.
  pose proof (kept_adapters k1 Hk r pack token w1 Hw). by destruct (adapter_call r pack token k1 w1).
Qed.

Lemma keeps_issue_token pack_id agent ttl : keeps (issue_token pack_id agent ttl).
Proof.
  intros s. unfold issue_token. revert s. assert (∀ r, keeps (lift r ≫= λ pack, read_clock ≫= λ now,
    st_map_err KernelError_Policy (with_policy (pe_issue_token pack agent now ttl)) ≫= λ token,
    record_event now (Some agent) (TokenIssued token) ≫= λ _, mret token)) as H; [intros r|intros s; apply H].
  apply keeps_bind; [apply keeps_lift|intros pack]. apply keeps_bind; [apply keeps_read_clock|intros now].
  apply keeps_bind; [apply keeps_map_err, keeps_with_policy; intros p; constructor|intros token].
  apply keeps_bind; [apply keeps_record_event|by intros _ s].
Qed.

Lemma keeps_record_audit_event agent kind : keeps (record_audit_event agent kind).
Proof. apply keeps_bind; [apply keeps_read_clock|intros now; apply keeps_record_event]. Qed.
End keeps.

(** ** Adapters that keep a property *)
Section adapters.
  Context {W P : Type} `{PE : !PolicyEngine P} `{SV : !Semver} (I : W → Prop).
  Implicit Types (k : LoongClawKernel W P) (w : W).

Record adapters_keep k : Prop := {
  keep_harness : broker_keeps I (k_harness k);
  keep_connector : plane_keeps I (k_connector_plane k);
  keep_runtime : plane_keeps I (k_runtime_plane k);
  keep_tool : plane_keeps I (k_tool_plane k);
  keep_memory : plane_keeps I (k_memory_plane k);
}.

Lemma adapters_keep_call k r pack token w : adapters_keep k → I w → I (adapter_call r pack token k w).2.
Proof.
  assert (∀ {E E' A B} (f : A → B) (g : E → E') (m : ST W E A), I (m w).2 → I ((f <$> st_map_err g m) w).2) as Hm.
  { intros E E' A B f g m Hm. rewrite st_fmap_run. unfold st_map_err. by destruct (m w) as [[?|?] ?]. }
  intros [] Hw. destruct r; cbn [adapter_call]; apply Hm;
    by first [apply (broker_execute_keeps I)|apply (plane_execute_core_keeps I)|apply (plane_execute_extension_keeps I)].
Qed.

Lemma adapters_keep_with_runtime policy clock audit : adapters_keep (with_runtime policy clock audit).
Proof. split; [apply map_Forall_empty|apply plane_new_keeps..]. Qed.

Lemma adapters_keep_interior k k' : interior k k' → adapters_keep k → adapters_keep k'.
Proof. intros (p & n & -> & _) []. by split. Qed.

Lemma adapters_keep_register_pack pack k k' : register_pack pack k = Ok k' → adapters_keep k → adapters_keep k'.
Proof. intros (_ & _ & ->)%register_pack_Ok []. by split. Qed.

(** Selecting a default adapter changes nothing else. *)
Lemma adapters_keep_default n k k' :
  set_default_core_connector_adapter n k = Ok k' ∨ set_default_core_runtime_adapter n k = Ok k' ∨
  set_default_core_tool_adapter n k = Ok k' ∨ set_default_core_memory_adapter n k = Ok k' →
  adapters_keep k → adapters_keep k'.
Proof.
  unfold set_default_core_connector_adapter, set_default_core_runtime_adapter, set_default_core_tool_adapter,
    set_default_core_memory_adapter.
  intros [H|[H|[H|H]]] []; apply map_err_Ok, bind_Ok in H as (p & Hp & [= <-]); split; try done;
    by eapply plane_set_default_core_adapter_keeps.
Qed.
End adapters.
