(* ===== verification/Governance.v ===== *)
(** * Governance: what the kernel promises about every dispatch

    The theorems speak of [execute], the nine dispatch methods, of
    [issue_token] and of runs of the kernel. The policy engine is known only
    through [PolicyEngineLaws] and the audit sink only through [Journal],
    except where a theorem is about [StaticPolicyEngine] itself. First comes
    the handle [Kernel] that a finished kernel is used through. *)
From S2P Require Import Prelude RustStr Contracts Errors Policy AuditSinks Plane.
From S2P Require Import Kernel KernelProps PolicyConc.

(** * The built kernel handle (kernel/src/kernel.rs, [Kernel])

    [build] consumes a configured [LoongClawKernel]; the handle it returns
    only offers the [&self] methods, each delegated to the inner kernel. *)
Section frozen.
  Context {W P : Type} `{PE : !PolicyEngine P} `{SV : !Semver}.

Record FrozenKernel := mkFrozenKernel { inner : LoongClawKernel W P }.

(** [LoongClawKernel::build] *)
Definition build (k : LoongClawKernel W P) : FrozenKernel := {| inner := k |}.

(** [self.inner.method(..)] *)
Definition delegate {A} (m : KM W P A) : ST (FrozenKernel * W) KernelError A := λ '(h, w),
  let '(r, (k, w)) := m (inner h, w) in (r, (mkFrozenKernel k, w)).

Definition Kernel_get_namespace (h : FrozenKernel) (pack_id : string) : option Namespace :=
  get_namespace (inner h) pack_id.
Definition Kernel_issue_token pack_id agent_id ttl_s := delegate (issue_token pack_id agent_id ttl_s).
Definition Kernel_revoke_token token_id actor := delegate (revoke_token token_id actor).
Definition Kernel_revoke_generation (below : Z) (h : FrozenKernel) : FrozenKernel :=
  {| inner := revoke_generation below (inner h) |}.
Definition Kernel_record_audit_event agent_id kind := delegate (record_audit_event agent_id kind).
Definition Kernel_execute_task pack_id token task := delegate (execute_task pack_id token task).
Definition Kernel_execute_connector_core pack_id token core_name command :=
  delegate (execute_connector_core pack_id token core_name command).
Definition Kernel_execute_connector_extension pack_id token extension_name core_name command :=
  delegate (execute_connector_extension pack_id token extension_name core_name command).
Definition Kernel_execute_runtime_core pack_id token required core_name request :=
  delegate (execute_runtime_core pack_id token required core_name request).
Definition Kernel_execute_runtime_extension pack_id token required extension_name core_name request :=
  delegate (execute_runtime_extension pack_id token required extension_name core_name request).
Definition Kernel_execute_tool_core pack_id token required core_name request :=
  delegate (execute_tool_core pack_id token required core_name request).
Definition Kernel_execute_tool_extension pack_id token required extension_name core_name request :=
  delegate (execute_tool_extension pack_id token required extension_name core_name request).
Definition Kernel_execute_memory_core pack_id token required core_name request :=
  delegate (execute_memory_core pack_id token required core_name request).
Definition Kernel_execute_memory_extension pack_id token required extension_name core_name request :=
  delegate (execute_memory_extension pack_id token required extension_name core_name request).

(** ** Freezing *)

(** One call on the handle, successful or not. *)
Inductive frozen_step : FrozenKernel * W → FrozenKernel * W → Prop :=
| frozen_issue s a b c : frozen_step s (Kernel_issue_token a b c s).2
| frozen_revoke s a b : frozen_step s (Kernel_revoke_token a b s).2
| frozen_revoke_generation h w n : frozen_step (h, w) (Kernel_revoke_generation n h, w)
| frozen_record s a b : frozen_step s (Kernel_record_audit_event a b s).2
| frozen_task s a b c : frozen_step s (Kernel_execute_task a b c s).2
| frozen_connector_core s a b c d : frozen_step s (Kernel_execute_connector_core a b c d s).2
| frozen_connector_extension s a b c d e :
    frozen_step s (Kernel_execute_connector_extension a b c d e s).2
| frozen_runtime_core s a b c d e : frozen_step s (Kernel_execute_runtime_core a b c d e s).2
| frozen_runtime_extension s a b c d e f :
    frozen_step s (Kernel_execute_runtime_extension a b c d e f s).2
| frozen_tool_core s a b c d e : frozen_step s (Kernel_execute_tool_core a b c d e s).2
| frozen_tool_extension s a b c d e f :
    frozen_step s (Kernel_execute_tool_extension a b c d e f s).2
| frozen_memory_core s a b c d e : frozen_step s (Kernel_execute_memory_core a b c d e s).2
| frozen_memory_extension s a b c d e f :
    frozen_step s (Kernel_execute_memory_extension a b c d e f s).2.

Lemma delegate_stays {A} (m : KM W P A) s : stays m → interior (inner s.1) (inner (delegate m s).2.1).
Proof.
  destruct s as [h w]. intros Hm. specialize (Hm (inner h, w)). unfold delegate. simpl in *.
  by destruct (m (inner h, w)) as [r [k w']].
Qed.

(** [execute_*] as a case of [execute]. *)
Lemma stays_of_execute {A} (f : A → kernel_outcome) (m : KM W P A) pack_id token r :
  (∀ s, execute pack_id token r s = (f <$> m) s) → stays m.
Proof.
  intros Hm s. pose proof (stays_execute pack_id token r s) as Hs. rewrite Hm, st_fmap_run in Hs.
  by destruct (m s) as [[?|?] ?].
Qed.

Lemma frozen_step_interior s s' : frozen_step s s' → interior (inner s.1) (inner s'.1).
Proof.
  intros []; try apply delegate_stays.
  - apply stays_issue_token.
  - apply stays_revoke_token.
  - exists (pe_revoke_generation n (k_policy (inner h))), (k_event_seq (inner h)).
    split_and!; [done| |done]. eapply steps_snoc; [constructor|apply policy_revoke_generation].
  - apply stays_record_audit_event.
  - by eapply (stays_of_execute OutTask _ _ _ (ReqTask _)).
  - by eapply (stays_of_execute OutConnector _ _ _ (ReqConnectorCore _ _)).
  - by eapply (stays_of_execute OutConnector _ _ _ (ReqConnectorExtension _ _ _)).
  - by eapply (stays_of_execute OutRuntimeCore _ _ _ (ReqRuntimeCore _ _ _)).
  - by eapply (stays_of_execute OutRuntimeExtension _ _ _ (ReqRuntimeExtension _ _ _ _)).
  - by eapply (stays_of_execute OutToolCore _ _ _ (ReqToolCore _ _ _)).
  - by eapply (stays_of_execute OutToolExtension _ _ _ (ReqToolExtension _ _ _ _)).
  - by eapply (stays_of_execute OutMemoryCore _ _ _ (ReqMemoryCore _ _ _)).
  - by eapply (stays_of_execute OutMemoryExtension _ _ _ (ReqMemoryExtension _ _ _ _)).
Qed.

(** Building freezes the configuration: whatever calls are made on the
    handle, the packs, namespaces, planes, harness, policy extensions, clock
    and audit sink stay those of the kernel that was built; only the policy
    engine's own state, by its own operations, and the event counter move. *)
Theorem build_freezes_configuration k w h w' :
  steps frozen_step (build k, w) (h, w') →
  ∃ p n, inner h = set_event_seq n (set_policy p k) ∧ steps policy_step (k_policy k) p.
Proof.
  intros Hs.
  assert (interior k (inner (h, w').1)) as (p & n & Hp & Hpol & _); [|by exists p, n].
  apply (steps_invariant frozen_step (λ s, interior k (inner s.1)) (build k, w));
    [|apply interior_refl|exact Hs].
  intros s s' Hi Hstep. eapply interior_trans; [exact Hi|]. by apply frozen_step_interior.
Qed.
End frozen.
Arguments FrozenKernel : clear implicits.

(** * The guarantees *)
Section governance.
  Context {W P : Type} `{PE : !PolicyEngine P} `{SV : !Semver}.
  Implicit Types (k : LoongClawKernel W P) (w : W).

(** What the sink answered decides the error of a denied request. *)
Definition denial_result (e : PolicyError) (sink : result AuditError unit) :
    result KernelError kernel_outcome :=
  match sink with Ok _ => Err (KernelError_Policy e) | Err a => Err (KernelError_Audit a) end.

(** The audit event of a denial. *)
Definition denial_event k (pack : VerticalPackManifest) (token : CapabilityToken) (now : Z)
    (e : PolicyError) : AuditEvent :=
  event_at (k_event_seq k) now (Some (tok_agent_id token))
    (AuthorizationDenied (pk_pack_id pack) (tok_token_id token) (display e)).

Lemma audit_denial_run pack token now e k w :
  audit_denial pack token now e (k, w) =
  (match (k_audit k (denial_event k pack token now e) w).1 with
   | Ok _ => Err (KernelError_Policy e) | Err a => Err (KernelError_Audit a) end,
   (set_event_seq (wrap64 (k_event_seq k + 1)) k, (k_audit k (denial_event k pack token now e) w).2)).
Proof.
  unfold audit_denial. rewrite st_bind_run, record_event_run.
  unfold denial_event. by destruct (k_audit k _ w) as [[?|?] ?].
Qed.

(** A request refused by [authorize_or_audit_denial] ends there. *)
Lemma execute_denied pack_id token r k w pack now w1 (res : result KernelError kernel_outcome) s :
  k_packs k !! pack_id = Some pack → guard_of r pack = Ok () →
  required_of r ⊆ pk_granted_capabilities pack → k_clock k w = (now, w1) →
  (∃ e, res = Err e ∧
     authorize_or_audit_denial pack token now (required_of r) (params_of r) (k, w1) = (Err e, s)) →
  execute pack_id token r (k, w) = (res, s).
Proof.
  intros Hk Hg Hreq%assert_pack_grants_Ok Hc (e & -> & Ha). rewrite execute_dispatch.
  unfold dispatch. rewrite st_bind_run, get_pack_run, Hk. simpl.
  rewrite st_bind_run, lift_run, Hg, st_bind_run.
  unfold authorize_pack_operation. rewrite st_bind_run, lift_run, Hreq, st_bind_run.
  unfold read_clock. by rewrite Hc, st_bind_run, Ha.
Qed.

(** The error of a denied request. *)
Lemma denial_result_Err e sink : ∃ ke, denial_result e sink = Err ke ∧
  match sink with Ok _ => Err (KernelError_Policy e) | Err a => Err (KernelError_Audit a) end =
  (Err ke : result KernelError unit).
Proof. destruct sink; eauto. Qed.

(** C1. A dispatch that succeeds was allowed at every gate: the pack is
    registered, its connector list admits the request, pack and token both
    hold every capability the request needs, the token belongs to the pack and
    has not expired at the time the clock showed, every policy extension
    agreed, and only then the adapter ran. What the kernel itself changed is
    the policy state and the event counter. *)
Theorem governed_dispatch_sound `{!PolicyEngineLaws P} pack_id token r k w out k' w' :
  execute pack_id token r (k, w) = (Ok out, (k', w')) →
  ∃ pack now w1 p w2 w3,
    k_packs k !! pack_id = Some pack ∧ guard_of r pack = Ok () ∧
    k_clock k w = (now, w1) ∧
    required_of r ⊆ pk_granted_capabilities pack ∧
    required_of r ⊆ tok_allowed_capabilities token ∧
    tok_pack_id token = pk_pack_id pack ∧ (now ≤ tok_expires_at_epoch_s token)%Z ∧
    pe_authorize token (pk_pack_id pack) now (required_of r) (k_policy k) = (Ok (), p) ∧
    PolicyExtensionChain_authorize (k_policy_extensions k) (extension_context r pack token now) w1
      = (Ok (), w2) ∧
    adapter_call r pack token k w2 = (Ok out, w3) ∧
    interior k k'.
Proof.
  intros Hrun. pose proof (stays_execute pack_id token r (k, w)) as Hs. rewrite Hrun in Hs.
  rewrite execute_dispatch in Hrun.
  apply dispatch_Ok in Hrun as (pack & now & p & w2 & w3 & Hk & Hg & Ha & Hadapter & _).
  apply authorize_pack_operation_Ok in Ha as (Hgrant & w1 & p' & w2' & Hc & Hp & Hx & [= _ <-]).
  pose proof (pe_authorize_sound _ _ _ _ _ _ Hp) as (? & ? & ?).
  exists pack, now, w1, p', w2, w3. done.
Qed.

(** C2. The audit trail is complete: when a dispatch succeeds, the events of
    its trail (the task or connector event and the plane invocation, with the
    adapter that served it and the capabilities it used) are the newest
    entries of the journal, numbered from the kernel's counter and stamped
    with the time at which it was authorized; nothing is recorded after them. *)
Theorem governed_dispatch_audited log pack_id token r k w out k' w'
    `{!Journal (k_audit k) log} :
  execute pack_id token r (k, w) = (Ok out, (k', w')) →
  ∃ pack now w1 w2 w3,
    k_packs k !! pack_id = Some pack ∧ k_clock k w = (now, w1) ∧
    adapter_call r pack token k w2 = (Ok out, w3) ∧
    log w' = log w3 ++ events_from (k_event_seq k) now (Some (tok_agent_id token))
               (audit_trail r pack k) ∧
    k_event_seq k' = seq_after (k_event_seq k) (audit_trail r pack k).
Proof.
  rewrite execute_dispatch.
  intros (pack & now & p & w2 & w3 & Hk & Hg & Ha & Hadapter & Hrec)%dispatch_Ok.
  apply authorize_pack_operation_Ok in Ha as (_ & w1 & _ & _ & Hc & _).
  apply (record_events_Ok log) in Hrec as [-> Hlog]; [|done]. simpl in *.
  exists pack, now, w1, w2, w3. done.
Qed.

(** C37. A policy refusal stops the request: no extension and no adapter runs.
    The only effects are the clock read, the engine's own state, one
    [AuthorizationDenied] event with the refusal's text and the event counter;
    the caller gets the policy error, or the sink's error when recording the
    denial failed. *)
Theorem policy_denial_is_audited_and_inert pack_id token r k w pack now w1 e p :
  k_packs k !! pack_id = Some pack → guard_of r pack = Ok () →
  required_of r ⊆ pk_granted_capabilities pack → k_clock k w = (now, w1) →
  pe_authorize token (pk_pack_id pack) now (required_of r) (k_policy k) = (Err e, p) →
  execute pack_id token r (k, w) =
  (denial_result e (k_audit k (denial_event k pack token now e) w1).1,
   (set_event_seq (wrap64 (k_event_seq k + 1)) (set_policy p k),
    (k_audit k (denial_event k pack token now e) w1).2)).
Proof.
  intros Hk Hg Hreq Hc Hp. eapply execute_denied; [done..|].
  edestruct denial_result_Err as (ke & -> & Hke). exists ke. split; [done|].
  unfold authorize_or_audit_denial, with_policy. rewrite Hp, audit_denial_run. by rewrite <-Hke.
Qed.

(** A refusal by a policy extension stops the request the same way: the
    adapter does not run, the effects are those of the extensions that ran
    and one [AuthorizationDenied] event. *)
Theorem extension_denial_is_audited_and_inert pack_id token r k w pack now w1 e p w2 :
  k_packs k !! pack_id = Some pack → guard_of r pack = Ok () →
  required_of r ⊆ pk_granted_capabilities pack → k_clock k w = (now, w1) →
  pe_authorize token (pk_pack_id pack) now (required_of r) (k_policy k) = (Ok (), p) →
  PolicyExtensionChain_authorize (k_policy_extensions k) (extension_context r pack token now) w1 =
    (Err e, w2) →
  execute pack_id token r (k, w) =
  (denial_result e (k_audit k (denial_event k pack token now e) w2).1,
   (set_event_seq (wrap64 (k_event_seq k + 1)) (set_policy p k),
    (k_audit k (denial_event k pack token now e) w2).2)).
Proof.
  intros Hk Hg Hreq Hc Hp Hx. eapply execute_denied; [done..|].
  edestruct denial_result_Err as (ke & -> & Hke). exists ke. split; [done|].
  unfold authorize_or_audit_denial, with_policy. rewrite Hp. unfold on_env. simpl.
  unfold extension_context in Hx. rewrite Hx, audit_denial_run. by rewrite <-Hke.
Qed.

(** A request outside its pack's boundary is refused before anything
    happens: the clock is not read, the engine is not asked, nothing is
    recorded, and the error names the first capability the pack lacks. *)
Theorem pack_boundary_refusal_is_inert pack_id token r k w pack pre c post :
  k_packs k !! pack_id = Some pack → guard_of r pack = Ok () →
  caps_iter (required_of r) = pre ++ c :: post →
  (∀ d, d ∈ pre → d ∈ pk_granted_capabilities pack) → c ∉ pk_granted_capabilities pack →
  execute pack_id token r (k, w) = (Err (PackCapabilityBoundary (pk_pack_id pack) c), (k, w)).
Proof.
  intros Hk Hg Hcaps Hpre Hc. rewrite execute_dispatch. unfold dispatch.
  rewrite st_bind_run, get_pack_run, Hk. simpl. rewrite st_bind_run, lift_run, Hg, st_bind_run.
  unfold authorize_pack_operation. rewrite st_bind_run, lift_run. unfold assert_pack_grants.
  by rewrite Hcaps, assert_grants_all_first.
Qed.

(** C38. Every kernel built by [with_runtime] and driven by any sequence of
    registrations, administrative calls and dispatches keeps its
    representation invariant: packs and namespaces agree, only validated
    packs are registered under their own ids, planes resolve their defaults
    and the event counter stays a 64-bit value. *)
Theorem kernel_runs_are_well_formed policy clock audit w k w' :
  steps kernel_step (with_runtime policy clock audit, w) (k, w') → kernel_wf k.
Proof.
  intros Hs. change k with (k, w').1.
  eapply (steps_invariant kernel_step (λ s, kernel_wf s.1)); [apply kernel_step_wf| |exact Hs].
  apply with_runtime_wf.
Qed.

(** [issue_token] never hands out more than the pack grants, and records
    the token it hands out. *)
Theorem issued_tokens_are_bounded_and_audited `{!PolicyEngineLaws P} log pack_id agent ttl k w
    token k' w' `{!Journal (k_audit k) log} :
  issue_token pack_id agent ttl (k, w) = (Ok token, (k', w')) →
  ∃ pack now w1, k_packs k !! pack_id = Some pack ∧ k_clock k w = (now, w1) ∧
    tok_pack_id token = pk_pack_id pack ∧ tok_agent_id token = agent ∧
    tok_allowed_capabilities token ⊆ pk_granted_capabilities pack ∧
    log w' = log w1 ++ [event_at (k_event_seq k) now (Some agent) (TokenIssued token)].
Proof.
  intros (pack & now & w1 & p & Hpack & Hclock & Hp & Hrec)%issue_token_Ok. rewrite record_event_run in Hrec. simpl in Hrec.
  destruct (k_audit k _ w1) as [r w2] eqn:Ha. injection Hrec as Hr <- <-.
  destruct r as [[]|?]; [|done]. apply pe_issue_token_sound in Hp as (? & ? & ? & ?).
  exists pack, now, w1. split_and!; try done. by apply journal_ok in Ha as ->.
Qed.
End governance.

(** ** Revocation, for the kernel's own policy engine *)
Section revocation.
  Context {W : Type} `{SV : !Semver}.
  Implicit Types (k : LoongClawKernel W StaticPolicyEngine) (w : W).

(** No operation of the engine lifts a revocation. *)
Lemma policy_step_revoked e e' token : policy_step e e' → revoked e token → revoked e' token.
Proof.
  intros [] Hr; simpl in *.
  - done.
  - done.
  - unfold StaticPolicyEngine_revoke_token, revoked in *. case_match; simpl; set_solver.
  - unfold revoked in *. simpl. naive_solver lia.
Qed.

Lemma policy_steps_revoked e e' token : steps policy_step e e' → revoked e token → revoked e' token.
Proof. induction 1; eauto using policy_step_revoked. Qed.

Lemma kernel_steps_revoked (s s' : LoongClawKernel W StaticPolicyEngine * W) token :
  steps kernel_step s s' → revoked (k_policy s.1) token → revoked (k_policy s'.1) token.
Proof.
  intros Hs Hr. eapply (steps_invariant (kernel_step (W:=W)) (λ s, revoked (k_policy s.1) token)); [|done..].
  clear. intros s s' Hr Hstep. eapply policy_steps_revoked; [|done]. by apply kernel_step_policy.
Qed.

(** C3. Revocation is final for the kernel: from the moment a token is
    revoked, no dispatch with it ever succeeds again, whatever is registered,
    issued or revoked in between. *)
Theorem revoked_tokens_never_dispatch (s : LoongClawKernel W StaticPolicyEngine * W) k w token pack_id r out s' :
  revoked (k_policy s.1) token → steps kernel_step s (k, w) →
  execute pack_id token r (k, w) ≠ (Ok out, s').
Proof.
  intros Hr Hs Hrun. apply (kernel_steps_revoked _ _ _ Hs) in Hr. simpl in Hr.
  rewrite execute_dispatch in Hrun.
  apply dispatch_Ok in Hrun as (pack & now & p & w2 & w3 & _ & _ & Ha & _).
  apply authorize_pack_operation_Ok in Ha as (_ & w1 & p' & w2' & _ & Hp & _).
  by apply authorize_Ok in Hp as (_ & ? & _).
Qed.

(** A token fresh from [issue_token] is accepted: until it expires, the
    engine authorizes every request within the pack's grants, provided the
    lock is healthy, its id was not revoked in advance and the generation
    counter is at or above the revoked threshold and does not wrap. *)
Theorem fresh_tokens_are_accepted pack agent now ttl e tok e' now' required :
  StaticPolicyEngine_issue_token pack agent now ttl e = (Ok tok, e') →
  se_revoked_poisoned e = false → tok_token_id tok ∉ se_revoked_tokens e →
  (se_revoked_below_generation e ≤ se_generation e < u64_max)%Z → (0 ≤ se_generation e)%Z →
  (now' ≤ sat_add now ttl)%Z → required ⊆ pk_granted_capabilities pack →
  StaticPolicyEngine_authorize tok (pk_pack_id pack) now' required e' = (Ok (), e').
Proof.
  intros [= <- <-] Hp Hid Hg Hg0 Hnow Hreq. apply authorize_Ok. simpl in *.
  split_and!; [done| |done|done|done]. unfold revoked. simpl.
  rewrite (wrap64_small (se_generation e + 1)) by (unfold is_u64, u64_max in *; lia). intros [?|[?|?]]; [congruence|done|lia].
Qed.
End revocation.

(** ** A concrete kernel

    One pack, one tool, a fixed clock and an in-memory journal: the theorems
    above at work. *)
Module Demo.
#[local] Instance demo_semver : Semver := λ v, bool_decide (v = "1.0.0").

Definition pack : VerticalPackManifest :=
  {| pk_pack_id := "sales"; pk_domain := "sales"; pk_version := "1.0.0";
     pk_default_route := mkExecutionRoute EmbeddedPi None;
     pk_allowed_connectors := {["crm"]}; pk_granted_capabilities := {[InvokeTool]};
     pk_metadata := ∅ |}.

Definition echo : CoreToolAdapter EventLog :=
  {| core_name := "core"; core_execute := λ q, mret (mkToolCoreOutcome "ok" (tcr_payload q)) |}.

Definition no_shell : PolicyExtension EventLog :=
  {| px_name := "no-shell";
     px_authorize_extension := λ c, if decide (tok_agent_id (px_token c) = "intruder")
       then throw (ExtensionDenied "no-shell" "agent") else mret () |}.

Definition start : LoongClawKernel EventLog StaticPolicyEngine :=
  with_runtime StaticPolicyEngine_default (λ w, (100%Z, w)) (InMemoryAuditSink_record cell_id).

Definition kernel : LoongClawKernel EventLog StaticPolicyEngine :=
  register_policy_extension no_shell (register_core_tool_adapter echo
    (set_packs {["sales" := pack]} {["sales" := namespace_of pack]} start)).

#[local] Instance kernel_journal : Journal (k_audit kernel) log_events := memory_journal cell_id.

Definition token_for (agent : string) : CapabilityToken :=
  mkCapabilityToken "tok-0000000000000001" "sales" agent {[InvokeTool]} 100 160 1.

Definition call : kernel_request :=
  ReqToolCore {[InvokeTool]} None (mkToolCoreRequest "echo" JNull).
Definition call_network : kernel_request :=
  ReqToolCore {[InvokeTool; NetworkEgress]} None (mkToolCoreRequest "fetch" JNull).

Definition run (token : CapabilityToken) (r : kernel_request) :=
  execute "sales" token r (kernel, EventLog_default).

Lemma run_ok : run (token_for "a") call =
  (Ok (OutToolCore (mkToolCoreOutcome "ok" JNull)),
   ((run (token_for "a") call).2.1, (run (token_for "a") call).2.2)).
Proof. vm_compute. reflexivity. Qed.

(** A dispatch by agent [a] passes every gate. *)
Lemma governed_dispatch_sound_witness :
  ∃ pack, k_packs kernel !! "sales" = Some pack ∧
    required_of call ⊆ pk_granted_capabilities pack ∧ tok_pack_id (token_for "a") = pk_pack_id pack.
Proof.
  destruct (governed_dispatch_sound _ _ _ _ _ _ _ _ run_ok)
    as (p & now & w1 & pol & w2 & w3 & Hk & _ & _ & Hr & _ & Ht & _).
  exists p. exact (conj Hk (conj Hr Ht)).
Defined.

(** The journal then ends in the plane invocation. *)
Lemma governed_dispatch_audited_witness :
  ∃ w3, log_events (run (token_for "a") call).2.2 =
    log_events w3 ++ events_from 0 100 (Some "a")
      [PlaneInvoked "sales" Plane_Tool Tier_Core "core" None "echo" [InvokeTool]].
Proof.
  destruct (governed_dispatch_audited log_events _ _ _ kernel _ _ _ _ run_ok)
    as (p & now & w1 & w2 & w3 & Hk & Hc & _ & Hl & _).
  exists w3. vm_compute in Hk, Hc. injection Hk as <-. injection Hc as <- _. exact Hl.
Defined.

(** A token without the capability is refused by the engine. *)
Definition weak_token : CapabilityToken :=
  mkCapabilityToken "tok-0000000000000002" "sales" "a" ∅ 100 160 2.

Lemma policy_denial_witness :
  (run weak_token call).1 =
    Err (KernelError_Policy (MissingCapability "tok-0000000000000002" InvokeTool)).
Proof.
  unfold run. rewrite (policy_denial_is_audited_and_inert "sales" weak_token call kernel
    EventLog_default pack 100 EventLog_default
    (MissingCapability "tok-0000000000000002" InvokeTool) StaticPolicyEngine_default);
    [reflexivity|reflexivity|reflexivity|by apply (bool_decide_unpack _)|reflexivity|].
  vm_compute. reflexivity.
Defined.

(** The extension refuses agent [intruder]. *)
Lemma extension_denial_witness :
  (run (token_for "intruder") call).1 =
    Err (KernelError_Policy (ExtensionDenied "no-shell" "agent")).
Proof.
  unfold run. rewrite (extension_denial_is_audited_and_inert "sales" (token_for "intruder") call
    kernel EventLog_default pack 100 EventLog_default (ExtensionDenied "no-shell" "agent")
    StaticPolicyEngine_default EventLog_default);
    [reflexivity|reflexivity|reflexivity|by apply (bool_decide_unpack _)|reflexivity| |];
    vm_compute; reflexivity.
Defined.

(** The pack does not grant network access. *)
Lemma pack_boundary_witness :
  run (token_for "a") call_network =
    (Err (PackCapabilityBoundary "sales" NetworkEgress), (kernel, EventLog_default)).
Proof.
  apply (pack_boundary_refusal_is_inert "sales" (token_for "a") call_network kernel
    EventLog_default pack [InvokeTool] NetworkEgress []); try reflexivity.
  - intros d ->%list_elem_of_singleton. by apply (bool_decide_unpack _).
  - by apply (bool_decide_unpack _).
Defined.

(** The kernel above is a run, so it is well formed. *)
Lemma kernel_runs_witness : kernel_wf (register_core_tool_adapter echo start).
Proof.
  apply (kernel_runs_are_well_formed StaticPolicyEngine_default (λ w, (100%Z, w))
    (InMemoryAuditSink_record cell_id) EventLog_default _ EventLog_default).
  eapply steps_snoc; [apply steps_refl|apply step_register_core_tool].
Defined.

(** The handle of the same kernel after a dispatch. *)
Lemma frozen_witness :
  ∃ p n, inner (Kernel_execute_tool_core "sales" (token_for "a") {[InvokeTool]} None
                  (mkToolCoreRequest "echo" JNull) (build kernel, EventLog_default)).2.1 =
    set_event_seq n (set_policy p kernel).
Proof.
  destruct (build_freezes_configuration kernel EventLog_default
    (Kernel_execute_tool_core "sales" (token_for "a") {[InvokeTool]} None
       (mkToolCoreRequest "echo" JNull) (build kernel, EventLog_default)).2.1
    (Kernel_execute_tool_core "sales" (token_for "a") {[InvokeTool]} None
       (mkToolCoreRequest "echo" JNull) (build kernel, EventLog_default)).2.2) as (p & n & Hi & _).
  - eapply steps_snoc; [apply steps_refl|]. rewrite <-surjective_pairing. apply frozen_tool_core.
  - exists p, n. exact Hi.
Defined.

Definition issue := issue_token "sales" "a" 60 (kernel, EventLog_default).

Lemma issue_ok : issue = (Ok (token_for "a"), (issue.2.1, issue.2.2)).
Proof. vm_compute. reflexivity. Qed.

Lemma issued_tokens_witness :
  ∃ p, k_packs kernel !! "sales" = Some p ∧
    tok_allowed_capabilities (token_for "a") ⊆ pk_granted_capabilities p.
Proof.
  destruct (issued_tokens_are_bounded_and_audited log_events _ _ _ kernel _ _ _ _ issue_ok) as (p & now & w1 & Hk & _ & _ & _ & Ha & _).
  exists p. exact (conj Hk Ha).
Defined.

(** Agent [a]'s token is revoked; registering a tool does not help. *)
Lemma revoked_tokens_witness :
  execute "sales" (token_for "a") call
    (register_core_tool_adapter echo (revoke_generation 1 kernel), EventLog_default) ≠
  (Ok (OutToolCore (mkToolCoreOutcome "ok" JNull)), (kernel, EventLog_default)).
Proof.
  apply (revoked_tokens_never_dispatch (revoke_generation 1 kernel, EventLog_default)).
  - by apply (bool_decide_unpack _).
  - eapply steps_snoc; [apply steps_refl|apply step_register_core_tool].
Defined.

Lemma fresh_tokens_witness :
  StaticPolicyEngine_authorize (token_for "a") "sales" 150 {[InvokeTool]}
    (StaticPolicyEngine_issue_token pack "a" 100 60 StaticPolicyEngine_default).2 =
  (Ok (), (StaticPolicyEngine_issue_token pack "a" 100 60 StaticPolicyEngine_default).2).
Proof.
  apply (fresh_tokens_are_accepted pack "a" 100 60 StaticPolicyEngine_default);
    try (vm_compute; reflexivity); try (by apply (bool_decide_unpack _)); simpl; unfold u64_max; lia.
Defined.
End Demo.
