(* ===== verification/TaskSupervisor.v ===== *)
(** * TaskSupervisor: task execution under the state machine
    (kernel/src/task_supervisor.rs)

    The supervisor owns a [TaskState] and drives it through one
    [execute_task] of the kernel. Its state is passed beside the kernel's. *)
From S2P Require Import Prelude RustStr Contracts Errors Policy AuditSinks Plane Kernel.

(** * The task life cycle (contracts/src/task_state.rs) *)
(** * Dispatch failures (contracts/src/fault.rs) *)
#[export] Instance display_Fault : Display Fault := λ f,
  match f with
  | Panic message => "panic: " +:+ message
  | CapabilityViolation token_id capability =>
      "capability violation: token " +:+ token_id +:+ " missing " +:+ debug capability
  | TokenExpired token_id expires_at =>
      "token " +:+ token_id +:+ " expired at " +:+ display expires_at
  | ProtocolViolation detail => "protocol violation: " +:+ detail
  | PolicyDenied reason => "policy denied: " +:+ reason
  end.

(** [Fault::from_policy_error] *)
Definition Fault_from_policy_error (err : PolicyError) : Fault :=
  match err with
  | ExpiredToken token_id expires_at => TokenExpired token_id expires_at
  | MissingCapability token_id capability => CapabilityViolation token_id capability
  | RevokedToken token_id => PolicyDenied ("token " +:+ token_id +:+ " revoked")
  | PackMismatch token_pack_id runtime_pack_id =>
      PolicyDenied ("pack mismatch: token=" +:+ token_pack_id +:+ " runtime=" +:+ runtime_pack_id)
  | ExtensionDenied extension reason =>
      PolicyDenied ("extension " +:+ extension +:+ ": " +:+ reason)
  | ToolCallDenied tool_name reason => PolicyDenied ("tool " +:+ tool_name +:+ ": " +:+ reason)
  end.

(** [Fault::from_kernel_error] *)
Definition Fault_from_kernel_error (err : KernelError) : Fault :=
  match err with
  | KernelError_Policy policy_err => Fault_from_policy_error policy_err
  | PackCapabilityBoundary pack_id capability =>
      CapabilityViolation ("pack:" +:+ pack_id) capability
  | PackNotFound _ | DuplicatePack _ | ConnectorNotAllowed _ _ | KernelError_Pack _
  | KernelError_Harness _ | KernelError_Connector _ | KernelError_RuntimePlane _
  | KernelError_ToolPlane _ | KernelError_MemoryPlane _ | KernelError_Integration _
  | KernelError_Audit _ => Panic (display err)
  end.

(** The faults a caller may recover from by asking for another token or
    another policy: exactly the ones policy and pack boundaries raise. *)
Definition is_authorization_error (err : KernelError) : bool :=
  match err with KernelError_Policy _ | PackCapabilityBoundary _ _ => true | _ => false end.

Definition is_panic (f : Fault) : bool := match f with Panic _ => true | _ => false end.

(** No authorization failure is reported as a panic, and every other kernel
    error is; a kernel error never becomes a protocol violation. *)
Lemma from_kernel_error_class err :
  is_panic (Fault_from_kernel_error err) = negb (is_authorization_error err) ∧
  ∀ d, Fault_from_kernel_error err ≠ ProtocolViolation d.
Proof. by destruct err as [| | | | |[]| | | | | | |]. Qed.

(** * The states *)
Inductive TaskState :=
| Runnable (intent : TaskIntent)
| InSend (task_id : string)
| InReply (task_id : string)
| Completed (outcome : HarnessOutcome)
| Faulted (fault : Fault).

(** [TaskState::task_id] *)
Definition TaskState_task_id (s : TaskState) : option string :=
  match s with
  | Runnable intent => Some (ti_task_id intent)
  | InSend task_id | InReply task_id => Some task_id
  | Completed _ | Faulted _ => None
  end.

(** [TaskState::is_terminal] *)
Definition TaskState_is_terminal (s : TaskState) : bool :=
  match s with Completed _ | Faulted _ => true | _ => false end.

Section transitions.
  (** The derived [Debug] of a state, which error messages quote. *)
  Context `{!Debug TaskState}.

Definition TaskState_transition_to_in_send (s : TaskState) : result string TaskState :=
  match s with
  | Runnable intent => Ok (InSend (ti_task_id intent))
  | other => Err ("invalid transition: cannot move to InSend from " +:+ debug other)
  end.

Definition TaskState_transition_to_in_reply (s : TaskState) : result string TaskState :=
  match s with
  | InSend task_id => Ok (InReply task_id)
  | other => Err ("invalid transition: cannot move to InReply from " +:+ debug other)
  end.

Definition TaskState_transition_to_completed (s : TaskState) (outcome : HarnessOutcome) :
    result string TaskState :=
  match s with
  | InReply _ => Ok (Completed outcome)
  | other => Err ("invalid transition: cannot move to Completed from " +:+ debug other)
  end.

Definition TaskState_transition_to_faulted (s : TaskState) (fault : Fault) : TaskState :=
  if TaskState_is_terminal s then s else Faulted fault.

(** ** The documented life cycle

    [Runnable -> InSend -> InReply -> Completed], and any non-terminal state
    may fault. *)
Inductive documented : TaskState → TaskState → Prop :=
| doc_send i : documented (Runnable i) (InSend (ti_task_id i))
| doc_reply id : documented (InSend id) (InReply id)
| doc_complete id o : documented (InReply id) (Completed o)
| doc_fault s f : TaskState_is_terminal s = false → documented s (Faulted f).

(** One call of a transition method, and the state that replaces the old one
    when the call succeeds. *)
Inductive transition_call :=
| CallInSend | CallInReply | CallCompleted (o : HarnessOutcome) | CallFaulted (f : Fault).

Definition run_transition (c : transition_call) (s : TaskState) : result string TaskState :=
  match c with
  | CallInSend => TaskState_transition_to_in_send s
  | CallInReply => TaskState_transition_to_in_reply s
  | CallCompleted o => TaskState_transition_to_completed s o
  | CallFaulted f => Ok (TaskState_transition_to_faulted s f)
  end.

Lemma run_transition_documented c s s' :
  run_transition c s = Ok s' → documented s s' ∨ (s' = s ∧ TaskState_is_terminal s = true).
Proof.
  destruct c as [| |o|f]; destruct s; simpl; intros H; simplify_eq;
    eauto using documented; left; by constructor.
Qed.

Lemma documented_run_transition s s' : documented s s' → ∃ c, run_transition c s = Ok s'.
Proof.
  intros []; [by exists CallInSend|by exists CallInReply|by eexists (CallCompleted _)|].
  exists (CallFaulted f). simpl. unfold TaskState_transition_to_faulted.
  match goal with H : _ = false |- _ => by rewrite H end.
Qed.

(** The task id survives until the task ends. *)
Lemma documented_task_id s s' : documented s s' →
  TaskState_is_terminal s' = false → TaskState_task_id s' = TaskState_task_id s.
Proof. by intros []. Qed.

(** How many transitions are left at most. *)
Definition remaining (s : TaskState) : nat :=
  match s with Runnable _ => 3 | InSend _ => 2 | InReply _ => 1 | _ => 0 end.

Lemma documented_remaining s s' : documented s s' → remaining s' < remaining s.
Proof. intros [| | |[]]; simpl in *; try done; lia. Qed.

Lemma documented_terminal s s' : documented s s' → TaskState_is_terminal s = false.
Proof. by intros []. Qed.
End transitions.

(** * Task supervision (kernel/src/task_supervisor.rs) *)
Section supervisor.
  Context {W P : Type} `{PE : !PolicyEngine P} `{SV : !Semver} `{DT : !Debug TaskState}.
  Implicit Types (k : LoongClawKernel W P) (w : W).

Record TaskSupervisor := mkTaskSupervisor { sup_state : TaskState }.

Definition TaskSupervisor_new (intent : TaskIntent) : TaskSupervisor :=
  {| sup_state := Runnable intent |}.

Definition TaskSupervisor_is_runnable (sup : TaskSupervisor) : bool :=
  match sup_state sup with Runnable _ => true | _ => false end.

(** The state of a supervised run: the supervisor, the kernel and the
    environment. *)
Abbreviation SupState := (TaskSupervisor * (LoongClawKernel W P * W))%type.

(** [self.state = taken.transition(..).map_err(ProtocolViolation)?] *)
Definition guarded (transition : TaskState → result string TaskState) : ST SupState Fault unit :=
  λ '(sup, s),
  match transition (sup_state sup) with
  | Ok state => (Ok (), ({| sup_state := state |}, s))
  | Err detail => (Err (ProtocolViolation detail), (sup, s))
  end.

(** [match kernel.execute_task(..).await { .. }] and the final transition. *)
Definition finish (pack_id : string) (token : CapabilityToken) (intent : TaskIntent) :
    ST SupState Fault KernelDispatch := λ '(sup, s),
  match execute_task pack_id token intent s with
  | (Ok dispatch, s) =>
      (guarded (λ state, TaskState_transition_to_completed state (kd_outcome dispatch)) ≫= λ _,
       mret dispatch) (sup, s)
  | (Err kernel_err, s) =>
      let fault := Fault_from_kernel_error kernel_err in
      (Err fault, ({| sup_state := TaskState_transition_to_faulted (sup_state sup) fault |}, s))
  end.

(** [TaskSupervisor::execute] *)
Definition TaskSupervisor_execute (pack_id : string) (token : CapabilityToken) :
    ST SupState Fault KernelDispatch := λ '(sup, s),
  match sup_state sup with
  | Runnable intent =>
      (guarded TaskState_transition_to_in_send ≫= λ _,
       guarded TaskState_transition_to_in_reply ≫= λ _,
       finish pack_id token intent) (sup, s)
  | _ => (Err (ProtocolViolation "task is not in Runnable state"), (sup, s))
  end.

(** The supervisor's answer is the kernel's, and its final state records it. *)
Definition supervised (r : result KernelError KernelDispatch) :
    result Fault KernelDispatch * TaskSupervisor :=
  match r with
  | Ok d => (Ok d, {| sup_state := Completed (kd_outcome d) |})
  | Err e => (Err (Fault_from_kernel_error e), {| sup_state := Faulted (Fault_from_kernel_error e) |})
  end.

Lemma supervisor_runnable intent pack_id token s :
  TaskSupervisor_execute pack_id token (TaskSupervisor_new intent, s) =
  (let '(r, s') := execute_task pack_id token intent s in
   ((supervised r).1, ((supervised r).2, s'))).
Proof.
  unfold TaskSupervisor_execute. simpl. rewrite !st_bind_run. simpl.
  rewrite st_bind_run. simpl. by destruct (execute_task pack_id token intent s) as [[d|e] s'].
Qed.

Lemma supervisor_not_runnable sup pack_id token s :
  TaskSupervisor_is_runnable sup = false →
  TaskSupervisor_execute pack_id token (sup, s) =
  (Err (ProtocolViolation "task is not in Runnable state"), (sup, s)).
Proof. destruct sup as [[]]; done. Qed.

(** [attempts] calls in a row, with any tokens and packs; the answers in
    order. *)
Fixpoint attempts (calls : list (string * CapabilityToken)) (st : SupState) :
    list (result Fault KernelDispatch) * SupState :=
  match calls with
  | [] => ([], st)
  | (pack_id, token) :: calls =>
      let '(r, st) := TaskSupervisor_execute pack_id token st in
      let '(rs, st) := attempts calls st in (r :: rs, st)
  end.

Lemma attempts_not_runnable calls sup s :
  TaskSupervisor_is_runnable sup = false →
  attempts calls (sup, s) =
  (replicate (length calls) (Err (ProtocolViolation "task is not in Runnable state")), (sup, s)).
Proof.
  intros Hn. induction calls as [|[pack_id token] calls IH]; [done|]. cbn [attempts].
  by rewrite supervisor_not_runnable, IH.
Qed.

(** A supervised task reaches the kernel exactly once. The first attempt
    runs [execute_task] and ends in [Completed] with the kernel's outcome or
    in [Faulted] with the translated error; every later attempt, whatever its
    token, is a protocol violation that touches neither kernel nor task. *)
Theorem supervised_task_runs_at_most_once intent pack_id token calls s :
  attempts ((pack_id, token) :: calls) (TaskSupervisor_new intent, s) =
  (let '(r, s') := execute_task pack_id token intent s in
   ((supervised r).1 ::
      replicate (length calls) (Err (ProtocolViolation "task is not in Runnable state")),
    ((supervised r).2, s'))).
Proof.
  cbn [attempts]. rewrite supervisor_runnable.
  destruct (execute_task pack_id token intent s) as [r s'].
  rewrite attempts_not_runnable by (by destruct r). done.
Qed.

(** ** Transition methods in any order *)

(** A sequence of transition calls; a rejected call leaves the state as it
    was. *)
Fixpoint run_transitions (calls : list transition_call) (st : TaskState) : TaskState :=
  match calls with
  | [] => st
  | c :: calls =>
      run_transitions calls (match run_transition c st with Ok st' => st' | Err _ => st end)
  end.

(** Whatever transition methods are called, in any order, the state moves
    only along the documented life cycle, at most three times, and a terminal
    state never changes again. *)
Theorem transitions_follow_lifecycle calls st :
  ∃ n, n ≤ remaining st ∧ nsteps documented n st (run_transitions calls st).
Proof.
  revert st. induction calls as [|c calls IH]; intros st; simpl.
  - exists 0. split; [lia|constructor].
  - destruct (run_transition c st) as [st'|e] eqn:Hc; [|apply IH].
    destruct (run_transition_documented _ _ _ Hc) as [Hd|[-> _]]; [|apply IH].
    destruct (IH st') as (n & Hn & Hs). exists (S n).
    pose proof (documented_remaining _ _ Hd). split; [lia|by econstructor].
Qed.
End supervisor.
