(* ===== verification/Integration.v ===== *)
(** * Integration: the provider catalog and auto-provisioning
    (kernel/src/integration.rs)

    The catalog keeps providers, channels and templates by id and a revision
    counter. [AutoProvisionAgent::plan] computes what a request needs;
    [apply_plan] carries it out on the catalog and on the pack. *)
From S2P Require Import Prelude RustStr Contracts Errors.

Record ProviderConfig := mkProviderConfig {
  pc_provider_id : string;
  pc_connector_name : string;
  pc_version : string;
  pc_metadata : gmap string string;
}.

Record ChannelConfig := mkChannelConfig {
  ch_channel_id : string;
  ch_provider_id : string;
  ch_endpoint : string;
  ch_enabled : bool;
  ch_metadata : gmap string string;
}.

Record ProviderTemplate := mkProviderTemplate {
  pt_provider_id : string;
  pt_default_connector_name : string;
  pt_default_version : string;
  pt_metadata : gmap string string;
}.

Record IntegrationCatalog := mkIntegrationCatalog {
  ic_providers : gmap string ProviderConfig;
  ic_channels : gmap string ChannelConfig;
  ic_templates : gmap string ProviderTemplate;
  ic_revision : Z;
}.

Definition IntegrationCatalog_new : IntegrationCatalog := mkIntegrationCatalog ∅ ∅ ∅ 0.

Definition register_template (t : ProviderTemplate) (c : IntegrationCatalog) : IntegrationCatalog :=
  mkIntegrationCatalog (ic_providers c) (ic_channels c)
    (<[pt_provider_id t := t]> (ic_templates c)) (ic_revision c).

(** [insert] and [revision.saturating_add(1)] *)
Definition upsert_provider (p : ProviderConfig) (c : IntegrationCatalog) : IntegrationCatalog :=
  mkIntegrationCatalog (<[pc_provider_id p := p]> (ic_providers c)) (ic_channels c)
    (ic_templates c) (sat_add (ic_revision c) 1).

Definition upsert_channel (ch : ChannelConfig) (c : IntegrationCatalog) : IntegrationCatalog :=
  mkIntegrationCatalog (ic_providers c) (<[ch_channel_id ch := ch]> (ic_channels c))
    (ic_templates c) (sat_add (ic_revision c) 1).

Definition catalog_providers (c : IntegrationCatalog) : list ProviderConfig :=
  btree_values (ic_providers c).

Definition channels_for_provider (c : IntegrationCatalog) (provider_id : string) :
    list ChannelConfig :=
  filter (λ ch, ch_provider_id ch = provider_id) (btree_values (ic_channels c)).

Record AutoProvisionRequest := mkAutoProvisionRequest {
  ar_provider_id : string;
  ar_channel_id : string;
  ar_connector_name : option string;
  ar_endpoint : option string;
  ar_required_capabilities : gset Capability;
}.

Inductive ProvisionAction :=
| AddProvider (provider : ProviderConfig) (reason : string)
| PatchProvider (provider : ProviderConfig) (reason : string)
| AddChannel (channel : ChannelConfig) (reason : string)
| PatchChannel (channel : ChannelConfig) (reason : string).

Record ProvisionPlan := mkProvisionPlan {
  pp_actions : list ProvisionAction;
  pp_pack_connector_additions : gset string;
  pp_pack_capability_additions : gset Capability;
}.

Definition ProvisionPlan_default : ProvisionPlan := mkProvisionPlan [] ∅ ∅.

Definition ProvisionPlan_is_noop (p : ProvisionPlan) : bool :=
  bool_decide (pp_actions p = []) && bool_decide (pp_pack_connector_additions p = ∅) &&
  bool_decide (pp_pack_capability_additions p = ∅).

(** ** Applying a plan *)

Definition apply_action (a : ProvisionAction) (c : IntegrationCatalog) : IntegrationCatalog :=
  match a with
  | AddProvider provider _ | PatchProvider provider _ => upsert_provider provider c
  | AddChannel channel _ | PatchChannel channel _ => upsert_channel channel c
  end.

Definition pack_extend (connectors : gset string) (caps : gset Capability)
    (p : VerticalPackManifest) : VerticalPackManifest :=
  {| pk_pack_id := pk_pack_id p; pk_domain := pk_domain p; pk_version := pk_version p;
     pk_default_route := pk_default_route p;
     pk_allowed_connectors := pk_allowed_connectors p ∪ connectors;
     pk_granted_capabilities := pk_granted_capabilities p ∪ caps;
     pk_metadata := pk_metadata p |}.

(** [IntegrationCatalog::apply_plan]; it always returns [Ok(())]. *)
Definition apply_plan (plan : ProvisionPlan) (cp : IntegrationCatalog * VerticalPackManifest) :
    result IntegrationError (IntegrationCatalog * VerticalPackManifest) :=
  Ok (foldl (λ c a, apply_action a c) cp.1 (pp_actions plan),
      pack_extend (pp_pack_connector_additions plan) (pp_pack_capability_additions plan) cp.2).

(** ** Hotfixes *)
Inductive IntegrationHotfix :=
| ProviderVersion (provider_id new_version : string)
| ProviderConnector (provider_id new_connector_name : string)
| ChannelEndpoint (channel_id new_endpoint : string)
| ChannelEnabled (channel_id : string) (enabled : bool).

(** [get_mut(id).ok_or(ProviderNotFound)?], a field update and the revision. *)
Definition patch_provider (id : string) (f : ProviderConfig → ProviderConfig)
    (c : IntegrationCatalog) : result IntegrationError IntegrationCatalog :=
  p ← ok_or (ic_providers c !! id) (ProviderNotFound id);
  Ok (mkIntegrationCatalog (<[id := f p]> (ic_providers c)) (ic_channels c) (ic_templates c)
        (sat_add (ic_revision c) 1)).

Definition patch_channel (id : string) (f : ChannelConfig → ChannelConfig)
    (c : IntegrationCatalog) : result IntegrationError IntegrationCatalog :=
  ch ← ok_or (ic_channels c !! id) (ChannelNotFound id);
  Ok (mkIntegrationCatalog (ic_providers c) (<[id := f ch]> (ic_channels c)) (ic_templates c)
        (sat_add (ic_revision c) 1)).

(** [IntegrationCatalog::apply_hotfix] *)
Definition apply_hotfix (h : IntegrationHotfix) (c : IntegrationCatalog) :
    result IntegrationError IntegrationCatalog :=
  match h with
  | ProviderVersion id v =>
      patch_provider id (λ p, mkProviderConfig (pc_provider_id p) (pc_connector_name p) v
                                (pc_metadata p)) c
  | ProviderConnector id n =>
      patch_provider id (λ p, mkProviderConfig (pc_provider_id p) n (pc_version p)
                                (pc_metadata p)) c
  | ChannelEndpoint id e =>
      patch_channel id (λ ch, mkChannelConfig (ch_channel_id ch) (ch_provider_id ch) e
                                (ch_enabled ch) (ch_metadata ch)) c
  | ChannelEnabled id b =>
      patch_channel id (λ ch, mkChannelConfig (ch_channel_id ch) (ch_provider_id ch)
                                (ch_endpoint ch) b (ch_metadata ch)) c
  end.

(** ** Planning *)

(** [unwrap_or_else] *)
Definition unwrap_or {A} (o : option A) (d : A) : A := match o with Some a => a | None => d end.

(** [AutoProvisionAgent::new_provider_from_request] *)
Definition new_provider_from_request (c : IntegrationCatalog) (r : AutoProvisionRequest) :
    ProviderConfig :=
  match ic_templates c !! ar_provider_id r with
  | Some t =>
      {| pc_provider_id := pt_provider_id t;
         pc_connector_name := unwrap_or (ar_connector_name r) (pt_default_connector_name t);
         pc_version := pt_default_version t;
         pc_metadata := pt_metadata t |}
  | None =>
      {| pc_provider_id := ar_provider_id r;
         pc_connector_name := unwrap_or (ar_connector_name r) (ar_provider_id r +:+ "-connector");
         pc_version := "0.1.0";
         pc_metadata := {["source" := "auto-generated"]} |}
  end.

(** The provider a request resolves to, and the action it takes. *)
Definition plan_provider (c : IntegrationCatalog) (r : AutoProvisionRequest) :
    ProviderConfig * list ProvisionAction :=
  match ic_providers c !! ar_provider_id r with
  | Some existing =>
      match ar_connector_name r with
      | Some expected =>
          if decide (pc_connector_name existing ≠ expected) then
            let patched := mkProviderConfig (pc_provider_id existing) expected (pc_version existing)
                             (pc_metadata existing) in
            (patched, [PatchProvider patched "connector override required by request"])
          else (existing, [])
      | None => (existing, [])
      end
  | None =>
      let p := new_provider_from_request c r in
      (p, [AddProvider p "provider missing and generated from template"])
  end.

(** The repair of an existing channel, and whether anything changed. *)
Definition repair_channel (provider_id : string) (endpoint : option string) (ch : ChannelConfig) :
    ChannelConfig * bool :=
  let '(ch, changed) :=
    if decide (ch_provider_id ch ≠ provider_id) then
      (mkChannelConfig (ch_channel_id ch) provider_id (ch_endpoint ch) (ch_enabled ch)
         (ch_metadata ch), true)
    else (ch, false) in
  let '(ch, changed) :=
    if negb (ch_enabled ch) then
      (mkChannelConfig (ch_channel_id ch) (ch_provider_id ch) (ch_endpoint ch) true
         (ch_metadata ch), true)
    else (ch, changed) in
  match endpoint with
  | Some e =>
      if decide (ch_endpoint ch ≠ e) then
        (mkChannelConfig (ch_channel_id ch) (ch_provider_id ch) e (ch_enabled ch)
           (ch_metadata ch), true)
      else (ch, changed)
  | None => (ch, changed)
  end.

(** The channel a request resolves to, and the action it takes. *)
Definition plan_channel (c : IntegrationCatalog) (r : AutoProvisionRequest) (provider_id : string) :
    ChannelConfig * list ProvisionAction :=
  match ic_channels c !! ar_channel_id r with
  | Some existing =>
      let '(patched, changed) := repair_channel provider_id (ar_endpoint r) existing in
      if changed : bool then
        (patched,
         [PatchChannel patched "channel requires repair for provider binding or endpoint"])
      else (existing, [])
  | None =>
      let ch := {| ch_channel_id := ar_channel_id r;
                   ch_provider_id := provider_id;
                   ch_endpoint := unwrap_or (ar_endpoint r)
                     ("https://" +:+ provider_id +:+ ".local/" +:+ ar_channel_id r +:+ "/invoke");
                   ch_enabled := true;
                   ch_metadata := ∅ |} in
      (ch, [AddChannel ch "channel missing and generated from provider defaults"])
  end.

(** [AutoProvisionAgent::plan] *)
Definition plan (c : IntegrationCatalog) (pack : VerticalPackManifest) (r : AutoProvisionRequest) :
    result IntegrationError ProvisionPlan :=
  let '(provider, a1) := plan_provider c r in
  let '(channel, a2) := plan_channel c r (pc_provider_id provider) in
  let connector := pc_connector_name provider in
  let connectors : gset string :=
    if decide (connector ∈ pk_allowed_connectors pack) then ∅ else {[connector]} in
  let caps : gset Capability :=
    if decide (InvokeConnector ∈ pk_granted_capabilities pack) then ∅ else {[InvokeConnector]} in
  let caps := foldl (λ acc cap, if decide (cap ∈ pk_granted_capabilities pack) then acc
                                else acc ∪ {[cap]})
                caps (caps_iter (ar_required_capabilities r)) in
  if ch_enabled channel then Ok (mkProvisionPlan (a1 ++ a2) connectors caps)
  else Err (ChannelDisabled (ch_channel_id channel)).

(** ** The catalog's invariant *)

(** Every entry sits under its own id and the revision is a 64-bit value. *)
Record catalog_wf (c : IntegrationCatalog) : Prop := {
  cwf_providers : map_Forall (λ id p, pc_provider_id p = id) (ic_providers c);
  cwf_channels : map_Forall (λ id ch, ch_channel_id ch = id) (ic_channels c);
  cwf_templates : map_Forall (λ id t, pt_provider_id t = id) (ic_templates c);
  cwf_revision : is_u64 (ic_revision c);
}.

Lemma is_u64_1 : is_u64 1.
Proof. unfold is_u64, u64_max. lia. Qed.
#[local] Hint Resolve is_u64_1 : loong.

Lemma catalog_new_wf : catalog_wf IntegrationCatalog_new.
Proof. split; simpl; try apply map_Forall_empty. unfold is_u64, u64_max. lia. Qed.

Lemma register_template_wf t c : catalog_wf c → catalog_wf (register_template t c).
Proof. intros []. split; simpl; auto. by apply map_Forall_insert_2. Qed.

Lemma upsert_provider_wf p c : catalog_wf c → catalog_wf (upsert_provider p c).
Proof. intros []. split; simpl; auto with loong. by apply map_Forall_insert_2. Qed.

Lemma upsert_channel_wf ch c : catalog_wf c → catalog_wf (upsert_channel ch c).
Proof. intros []. split; simpl; auto with loong. by apply map_Forall_insert_2. Qed.

Lemma apply_actions_wf actions c :
  catalog_wf c → catalog_wf (foldl (λ c a, apply_action a c) c actions).
Proof.
  revert c. induction actions as [|[] actions IH]; intros c Hc; simpl;
    auto using upsert_provider_wf, upsert_channel_wf.
Qed.

Lemma apply_hotfix_wf h c c' : catalog_wf c → apply_hotfix h c = Ok c' → catalog_wf c'.
Proof.
  intros [Hp Hc ? ?] Hf. destruct h; simpl in Hf; unfold patch_provider, patch_channel in Hf;
    run_inv; split; simpl; auto with loong; apply map_Forall_insert_2; simpl; auto.
Qed.

(** ** What a plan achieves *)

(** The request needs nothing more. *)
Definition satisfied (c : IntegrationCatalog) (pack : VerticalPackManifest)
    (r : AutoProvisionRequest) : Prop :=
  ∃ p ch, ic_providers c !! ar_provider_id r = Some p ∧
    unwrap_or (ar_connector_name r) (pc_connector_name p) = pc_connector_name p ∧
    ic_channels c !! ar_channel_id r = Some ch ∧
    ch_provider_id ch = pc_provider_id p ∧ ch_enabled ch = true ∧
    unwrap_or (ar_endpoint r) (ch_endpoint ch) = ch_endpoint ch ∧
    pc_connector_name p ∈ pk_allowed_connectors pack ∧
    {[InvokeConnector]} ∪ ar_required_capabilities r ⊆ pk_granted_capabilities pack.

Lemma repair_channel_spec pid e ch :
  (repair_channel pid e ch).1 =
    mkChannelConfig (ch_channel_id ch) pid (unwrap_or e (ch_endpoint ch)) true (ch_metadata ch) ∧
  ((repair_channel pid e ch).2 = false ↔
    ch_provider_id ch = pid ∧ ch_enabled ch = true ∧ unwrap_or e (ch_endpoint ch) = ch_endpoint ch).
Proof.
  destruct ch as [id p ep en m]. unfold repair_channel. simpl.
  destruct (decide (p ≠ pid)) as [?|Hp]; [|apply dec_stable in Hp as ->];
    destruct en, e as [e|]; simpl; repeat case_decide; simpl; naive_solver.
Qed.

(** The capabilities a plan adds are those the pack lacks, no more. *)
Lemma plan_caps_spec (granted caps : gset Capability) required :
  foldl (λ acc cap, if decide (cap ∈ granted) then acc else acc ∪ {[cap]}) caps required =
  caps ∪ (list_to_set required ∖ granted).
Proof.
  revert caps. induction required as [|c l IH]; intros caps; simpl; [set_solver|].
  rewrite IH. case_decide; apply leibniz_equiv; [set_solver|].
  intros x. destruct (decide (x = c)); set_solver.
Qed.

Lemma plan_provider_spec c r : catalog_wf c →
  let '(p, actions) := plan_provider c r in
  let c' := foldl (λ c a, apply_action a c) c actions in
  pc_provider_id p = ar_provider_id r ∧
  unwrap_or (ar_connector_name r) (pc_connector_name p) = pc_connector_name p ∧
  ic_providers c' !! ar_provider_id r = Some p ∧ ic_channels c' = ic_channels c.
Proof.
  intros [Hp _ Ht _]. unfold plan_provider.
  destruct (ic_providers c !! ar_provider_id r) as [p|] eqn:Hl.
  - pose proof (Hp _ _ Hl) as Hid. simpl in Hid.
    destruct (ar_connector_name r) as [n|]; simpl; [case_decide as Hn|]; simpl.
    + rewrite Hid, lookup_insert_eq. done.
    + done.
    + done.
  - assert (pc_provider_id (new_provider_from_request c r) = ar_provider_id r) as Hid.
    { unfold new_provider_from_request.
      destruct (ic_templates c !! _) as [t|] eqn:Hx; [|done]. by apply (Ht _ _ Hx). }
    simpl. rewrite Hid, lookup_insert_eq. split_and!; try done.
    unfold new_provider_from_request. by destruct (ar_connector_name r), (ic_templates c !! _).
Qed.

Lemma plan_channel_spec c r pid : catalog_wf c →
  let '(ch, actions) := plan_channel c r pid in
  let c' := foldl (λ c a, apply_action a c) c actions in
  ch_provider_id ch = pid ∧ ch_enabled ch = true ∧
  unwrap_or (ar_endpoint r) (ch_endpoint ch) = ch_endpoint ch ∧
  ic_channels c' !! ar_channel_id r = Some ch ∧ ic_providers c' = ic_providers c.
Proof.
  intros [_ Hc _ _]. unfold plan_channel.
  destruct (ic_channels c !! ar_channel_id r) as [ch|] eqn:Hl.
  - pose proof (Hc _ _ Hl) as Hid. simpl in Hid.
    pose proof (repair_channel_spec pid (ar_endpoint r) ch) as [H1 H2].
    destruct (repair_channel pid (ar_endpoint r) ch) as [ch' changed]. simpl in *. subst ch'.
    destruct changed; simpl.
    + rewrite Hid, lookup_insert_eq. split_and!; try done. by destruct (ar_endpoint r).
    + destruct (proj1 H2 eq_refl) as (? & ? & ?). done.
  - simpl. rewrite lookup_insert_eq. split_and!; try done. by destruct (ar_endpoint r).
Qed.

(** Channels do not matter to the provider half of a plan, nor the reverse. *)
Lemma plan_channel_ext c c' r pid : ic_channels c = ic_channels c' →
  plan_channel c r pid = plan_channel c' r pid.
Proof. intros H. unfold plan_channel. by rewrite H. Qed.

(** Planning always succeeds on a well-formed catalog (the
    [ChannelDisabled] error of the code cannot occur), and applying the plan
    satisfies the request: the provider exists with the requested connector,
    the channel is enabled and bound to it with the requested endpoint, and
    the pack allows and grants what the request needs. *)
Theorem provisioning_converges c pack r : catalog_wf c →
  ∃ p c' pack', plan c pack r = Ok p ∧ apply_plan p (c, pack) = Ok (c', pack') ∧
    satisfied c' pack' r.
Proof.
  intros Hwf. unfold plan. pose proof (plan_provider_spec c r Hwf) as Hp.
  destruct (plan_provider c r) as [pr a1]. destruct Hp as (Hid & Hconn & Hl & Hch).
  set (c1 := foldl (λ c a, apply_action a c) c a1) in *.
  pose proof (plan_channel_spec c1 r (pc_provider_id pr) (apply_actions_wf a1 c Hwf)) as Hc.
  rewrite (plan_channel_ext c1 c) in Hc by done.
  destruct (plan_channel c r (pc_provider_id pr)) as [ch a2].
  destruct Hc as (Hpid & Hen & Hend & Hcl & Hpr). rewrite Hen. eexists _, _, _. split; [done|]. split; [done|].
  exists pr, ch. simpl. rewrite foldl_app. fold c1. rewrite Hpr, plan_caps_spec.
  split_and!; try done.
  - destruct (decide (_ ∈ pk_allowed_connectors pack)); set_solver.
  - rewrite list_to_set_caps_iter. intros x Hx.
    destruct (decide (x ∈ pk_granted_capabilities pack)); [set_solver|].
    destruct (decide (InvokeConnector ∈ pk_granted_capabilities pack)); set_solver.
Qed.

Lemma plan_provider_nil c r p :
  plan_provider c r = (p, []) ↔
  ic_providers c !! ar_provider_id r = Some p ∧
  unwrap_or (ar_connector_name r) (pc_connector_name p) = pc_connector_name p.
Proof.
  unfold plan_provider. destruct (ic_providers c !! _) as [q|]; [|naive_solver].
  destruct (ar_connector_name r) as [n|]; simpl; [case_decide|]; naive_solver.
Qed.

Lemma plan_channel_nil c r pid ch :
  plan_channel c r pid = (ch, []) ↔
  ic_channels c !! ar_channel_id r = Some ch ∧ ch_provider_id ch = pid ∧ ch_enabled ch = true ∧
  unwrap_or (ar_endpoint r) (ch_endpoint ch) = ch_endpoint ch.
Proof.
  unfold plan_channel. destruct (ic_channels c !! _) as [q|]; [|naive_solver].
  pose proof (repair_channel_spec pid (ar_endpoint r) q) as [_ H2].
  destruct (repair_channel pid (ar_endpoint r) q) as [q' []]; simpl in H2; [|naive_solver].
  split; [done|]. intros ([= ->] & H3). by apply H2 in H3.
Qed.

(** The pack half of a plan. *)
Lemma plan_connectors_nil (connector : string) (allowed : gset string) :
  (if decide (connector ∈ allowed) then ∅ else {[connector]}) = (∅ : gset string) ↔
  connector ∈ allowed.
Proof. case_decide; [done|]. split; [set_solver|done]. Qed.

Lemma plan_caps_nil (granted required : gset Capability) :
  foldl (λ acc cap, if decide (cap ∈ granted) then acc else acc ∪ {[cap]})
    (if decide (InvokeConnector ∈ granted) then ∅ else {[InvokeConnector]}) (caps_iter required) = (∅ : gset Capability)
  ↔ {[InvokeConnector]} ∪ required ⊆ granted.
Proof.
  rewrite plan_caps_spec, list_to_set_caps_iter. case_decide; [|set_solver].
  split; [|set_solver]. intros He x [->%elem_of_singleton|Hx]%elem_of_union; [done|].
  apply dec_stable. set_solver.
Qed.

(** A plan is empty exactly when the request is already satisfied, so
    provisioning is idempotent: planning again after applying finds nothing
    to do. *)
Theorem plan_noop_iff_satisfied c pack r :
  plan c pack r = Ok ProvisionPlan_default ↔ satisfied c pack r.
Proof.
  unfold plan, satisfied, ProvisionPlan_default.
  destruct (plan_provider c r) as [p a1] eqn:Hp.
  destruct (plan_channel c r (pc_provider_id p)) as [ch a2] eqn:Hc. split.
  - destruct (ch_enabled ch) eqn:Hen; [|done].
    intros [= [-> ->]%app_nil Hx Hy]. apply plan_provider_nil in Hp as [? ?].
    apply plan_channel_nil in Hc as (? & ? & ? & ?). exists p, ch.
    rewrite plan_connectors_nil in Hx. rewrite plan_caps_nil in Hy. done.
  - intros (p' & ch' & Hp1 & Hp2 & Hc1 & Hc2 & Hc3 & Hc4 & Hx & Hy).
    rewrite (proj2 (plan_provider_nil c r p')) in Hp by done. simplify_eq.
    rewrite (proj2 (plan_channel_nil c r (pc_provider_id p) ch')) in Hc by done. simplify_eq.
    rewrite Hc3. f_equal. f_equal; [by apply plan_connectors_nil|by apply plan_caps_nil].
Qed.

(** A plan is minimal: it adds to the pack only the capabilities the
    request needs and the pack lacks, and only the one connector of the
    provider. *)
Theorem plan_grants_no_more_than_requested c pack r p :
  plan c pack r = Ok p →
  pp_pack_capability_additions p =
    ({[InvokeConnector]} ∪ ar_required_capabilities r) ∖ pk_granted_capabilities pack ∧
  pp_pack_connector_additions p =
    {[pc_connector_name (plan_provider c r).1]} ∖ pk_allowed_connectors pack.
Proof.
  unfold plan. destruct (plan_provider c r) as [pr a1].
  destruct (plan_channel c r _) as [ch a2]. destruct (ch_enabled ch); [|done].
  intros [= <-]. simpl. rewrite plan_caps_spec, list_to_set_caps_iter.
  split; case_decide; apply leibniz_equiv; set_solver.
Qed.

(** A hotfix for an unknown id is an error; otherwise it changes the one
    entry it names, keeps every other entry and bumps the revision. *)
Theorem hotfix_is_local h c c' :
  apply_hotfix h c = Ok c' →
  ic_templates c' = ic_templates c ∧ ic_revision c' = sat_add (ic_revision c) 1 ∧
  match h with
  | ProviderVersion id _ | ProviderConnector id _ =>
      is_Some (ic_providers c !! id) ∧ is_Some (ic_providers c' !! id) ∧
      ic_channels c' = ic_channels c ∧ delete id (ic_providers c') = delete id (ic_providers c)
  | ChannelEndpoint id _ | ChannelEnabled id _ =>
      is_Some (ic_channels c !! id) ∧ is_Some (ic_channels c' !! id) ∧
      ic_providers c' = ic_providers c ∧ delete id (ic_channels c') = delete id (ic_channels c)
  end.
Proof.
  destruct h; simpl; unfold patch_provider, patch_channel; intros H; run_inv;
    rewrite lookup_insert_eq, delete_insert_eq; eauto 10.
Qed.

(** ** A concrete catalog *)
Module IntegrationDemo.
Definition pack : VerticalPackManifest :=
  {| pk_pack_id := "sales"; pk_domain := "sales"; pk_version := "1.0.0";
     pk_default_route := mkExecutionRoute EmbeddedPi None; pk_allowed_connectors := ∅;
     pk_granted_capabilities := {[InvokeTool]}; pk_metadata := ∅ |}.

Definition request : AutoProvisionRequest :=
  mkAutoProvisionRequest "crm" "primary" (Some "crm-v2") None {[NetworkEgress]}.

Definition catalog : IntegrationCatalog :=
  upsert_channel (mkChannelConfig "primary" "old" "https://x" false ∅)
    (upsert_provider (mkProviderConfig "crm" "crm-v1" "1.0.0" ∅) IntegrationCatalog_new).

Lemma provisioning_converges_witness :
  ∃ p c' pack', plan catalog pack request = Ok p ∧ apply_plan p (catalog, pack) = Ok (c', pack') ∧
    satisfied c' pack' request.
Proof.
  apply provisioning_converges, upsert_channel_wf, upsert_provider_wf, catalog_new_wf.
Defined.

Lemma plan_grants_witness :
  match plan catalog pack request with
  | Ok p => pp_pack_capability_additions p = {[InvokeConnector; NetworkEgress]}
  | Err _ => False
  end.
Proof.
  destruct (plan catalog pack request) as [p|] eqn:Hp; [|vm_compute in Hp; congruence].
  rewrite (proj1 (plan_grants_no_more_than_requested catalog pack request p Hp)).
  by apply (bool_decide_unpack _).
Defined.

Lemma hotfix_witness :
  ic_revision (upsert_provider (mkProviderConfig "crm" "crm-v1" "2.0.0" ∅) catalog) =
    sat_add (ic_revision catalog) 1.
Proof.
  apply (hotfix_is_local (ProviderVersion "crm" "2.0.0") catalog). vm_compute. reflexivity.
Defined.
End IntegrationDemo.
