(* ===== verification/Architecture.v ===== *)
(** * Architecture: the boundary guard (kernel/src/architecture.rs)

    A policy lists immutable and mutable path prefixes. [evaluate_paths]
    classifies every proposed path: immutable prefixes deny, mutable prefixes
    allow, everything else is denied as unknown. *)
From S2P Require Import Prelude RustStr.
From Stdlib Require Import Ascii.

Inductive ArchitecturePathDecision := AllowedMutable | DeniedImmutable | DeniedUnknown.

#[export] Instance ArchitecturePathDecision_eq_dec : EqDecision ArchitecturePathDecision.
Proof. solve_decision. Defined.

Record ArchitecturePathReport := mkArchitecturePathReport {
  pr_path : string;
  pr_decision : ArchitecturePathDecision;
  pr_matched_prefix : option string;
  pr_reason : string;
}.

Record ArchitectureGuardReport := mkArchitectureGuardReport {
  gr_total_paths : Z;
  gr_allowed_paths : list string;
  gr_denied_paths : list string;
  gr_unknown_paths : list string;
  gr_reports : list ArchitecturePathReport;
}.

Definition ArchitectureGuardReport_default : ArchitectureGuardReport :=
  mkArchitectureGuardReport 0 [] [] [] [].

Definition ArchitectureGuardReport_has_denials (r : ArchitectureGuardReport) : bool :=
  negb (bool_decide (gr_denied_paths r = [])).

Record ArchitectureBoundaryPolicy := mkArchitectureBoundaryPolicy {
  bp_immutable_prefixes : gset string;
  bp_mutable_prefixes : gset string;
}.

(** [ArchitectureBoundaryPolicy::default()] *)
Definition ArchitectureBoundaryPolicy_default : ArchitectureBoundaryPolicy :=
  {| bp_immutable_prefixes := list_to_set
       ["crates/kernel/src/contracts.rs"; "crates/kernel/src/errors.rs";
        "crates/kernel/src/harness.rs"; "crates/kernel/src/kernel.rs";
        "crates/kernel/src/policy.rs"];
     bp_mutable_prefixes := list_to_set
       ["README.md"; "crates/daemon/src/"; "crates/kernel/src/audit.rs";
        "crates/kernel/src/architecture.rs"; "crates/kernel/src/awareness.rs";
        "crates/kernel/src/connector.rs"; "crates/kernel/src/evolution.rs";
        "crates/kernel/src/integration.rs"; "crates/kernel/src/memory.rs";
        "crates/kernel/src/plugin.rs"; "crates/kernel/src/plugin_ir.rs";
        "crates/kernel/src/policy_ext.rs"; "crates/kernel/src/runtime.rs";
        "crates/kernel/src/tests.rs"; "crates/kernel/src/tool.rs"; "docs/"; "examples/"] |}.

(** [normalize] *)
Definition normalize (path : string) : string :=
  let replaced := replace_char backslash "/"%char (trim path) in
  let without_prefix := default replaced (strip_prefix "./" replaced) in
  trim_start_matches "/" without_prefix.

(** [prefix_matches] *)
Definition prefix_matches (path prefix : string) : bool :=
  if is_empty prefix then false
  else if decide (path = prefix) then true
  else match strip_suffix "/" prefix with
       | Some trimmed => bool_decide (path = trimmed) || starts_with prefix path
       | None => starts_with (prefix +:+ "/") path
       end.

(** [Iterator::max_by_key]: the last element with the greatest key. *)
Fixpoint max_by_key {A} (key : A → nat) (best : option A) (xs : list A) : option A :=
  match xs with
  | [] => best
  | x :: xs =>
      match best with
      | Some b => max_by_key key (if key b <=? key x then Some x else Some b) xs
      | None => max_by_key key (Some x) xs
      end
  end.

(** [longest_prefix_match] *)
Definition longest_prefix_match (path : string) (prefixes : list string) : option string :=
  max_by_key String.length None (filter (λ prefix, prefix_matches path prefix = true) prefixes).

(** The body of the loop of [evaluate_paths] for one normalized path. *)
Definition classify (immutable mutable : list string) (normalized : string) :
    ArchitecturePathReport :=
  match longest_prefix_match normalized immutable with
  | Some prefix =>
      {| pr_path := normalized; pr_decision := DeniedImmutable; pr_matched_prefix := Some prefix;
         pr_reason := "path is protected by immutable core boundary: " +:+ prefix |}
  | None =>
      match longest_prefix_match normalized mutable with
      | Some prefix =>
          {| pr_path := normalized; pr_decision := AllowedMutable;
             pr_matched_prefix := Some prefix;
             pr_reason := "path is inside mutable extension boundary: " +:+ prefix |}
      | None =>
          {| pr_path := normalized; pr_decision := DeniedUnknown; pr_matched_prefix := None;
             pr_reason := "path is outside declared mutable boundaries" |}
      end
  end.

(** What one path adds to the report. *)
Definition guard_add (report : ArchitectureGuardReport) (r : ArchitecturePathReport) :
    ArchitectureGuardReport :=
  let total := sat_add (gr_total_paths report) 1 in
  let p := pr_path r in
  match pr_decision r with
  | DeniedImmutable =>
      mkArchitectureGuardReport total (gr_allowed_paths report) (gr_denied_paths report ++ [p])
        (gr_unknown_paths report) (gr_reports report ++ [r])
  | AllowedMutable =>
      mkArchitectureGuardReport total (gr_allowed_paths report ++ [p]) (gr_denied_paths report)
        (gr_unknown_paths report) (gr_reports report ++ [r])
  | DeniedUnknown =>
      mkArchitectureGuardReport total (gr_allowed_paths report) (gr_denied_paths report ++ [p])
        (gr_unknown_paths report ++ [p]) (gr_reports report ++ [r])
  end.

(** [ArchitectureBoundaryPolicy::evaluate_paths] *)
Definition evaluate_paths (policy : ArchitectureBoundaryPolicy) (paths : list string) :
    ArchitectureGuardReport :=
  let immutable := normalize <$> btree_elements (bp_immutable_prefixes policy) in
  let mutable := normalize <$> btree_elements (bp_mutable_prefixes policy) in
  foldl (λ report path, guard_add report (classify immutable mutable (normalize path)))
    ArchitectureGuardReport_default paths.

(** ** What a prefix covers *)

(** [path] is [base] or lies below it, component by component. *)
Definition below (base path : string) : Prop := path = base ∨ ∃ rest, path = base +:+ "/" +:+ rest.

(** A prefix with or without its final slash. *)
Definition prefix_base (prefix : string) : string := default prefix (strip_suffix "/" prefix).

Definition covers (prefix path : string) : Prop := prefix ≠ "" ∧ below (prefix_base prefix) path.

Lemma prefix_matches_iff path prefix : prefix_matches path prefix = true ↔ covers prefix path.
Proof.
  unfold prefix_matches, covers, below, prefix_base.
  destruct (is_empty prefix) eqn:He; [by destruct prefix; naive_solver|].
  assert (prefix ≠ "") by (by intros ->).
  destruct (strip_suffix "/" prefix) as [t|] eqn:Hs; simpl.
  - apply strip_suffix_Some in Hs as ->. case_decide as Hpath.
    + split; [|done]. intros _. split; [done|]. right. exists "". by rewrite app_nil_r_str.
    + rewrite orb_true_iff, bool_decide_eq_true, starts_with_iff.
      setoid_rewrite app_assoc_str. naive_solver.
  - case_decide; [naive_solver|]. rewrite starts_with_iff. setoid_rewrite app_assoc_str. naive_solver.
Qed.

#[export] Instance covers_dec prefix path : Decision (covers prefix path).
Proof.
  refine (cast_if (decide (prefix_matches path prefix = true))); by rewrite <-prefix_matches_iff.
Defined.

Lemma max_by_key_None {A} (key : A → nat) best xs :
  max_by_key key best xs = None ↔ best = None ∧ xs = [].
Proof.
  revert best. induction xs as [|x xs IH]; intros best; simpl; [naive_solver|].
  destruct best as [b|]; [destruct (_ <=? _)|]; rewrite IH; naive_solver.
Qed.

(** The result is a candidate and no candidate is longer. *)
Lemma max_by_key_Some {A} (key : A → nat) best xs y :
  max_by_key key best xs = Some y →
  (best = Some y ∨ y ∈ xs) ∧ (∀ x, best = Some x ∨ x ∈ xs → key x ≤ key y).
Proof.
  revert best. induction xs as [|x xs IH]; intros best; simpl.
  - intros ->. split; [by left|]. intros z [[= ->]|[]%not_elem_of_nil]; done.
  - setoid_rewrite elem_of_cons. destruct best as [b|].
    + destruct (Nat.leb_spec (key b) (key x)); intros [H1 H2]%IH.
      * split; [naive_solver|]. specialize (H2 x) as Hx. intros z [[= ->]|[->|Hz]]; eauto.
        etrans; [done|]. eauto.
      * split; [naive_solver|]. specialize (H2 b) as Hb. intros z [[= ->]|[->|Hz]]; eauto.
        etrans; [by apply Nat.lt_le_incl|]. eauto.
    + intros [H1 H2]%IH. split; naive_solver.
Qed.

Lemma longest_prefix_match_None path prefixes :
  longest_prefix_match path prefixes = None ↔ ∀ prefix, prefix ∈ prefixes → ¬ covers prefix path.
Proof.
  unfold longest_prefix_match. rewrite max_by_key_None. setoid_rewrite <-prefix_matches_iff. split.
  - intros [_ Hf] prefix Hin Hm. apply (not_elem_of_nil prefix). rewrite <-Hf.
    by apply list_elem_of_filter.
  - intros H. split; [done|]. destruct (filter _ prefixes) as [|x l] eqn:Hf; [done|].
    assert (x ∈ x :: l) as Hx by (by left). rewrite <-Hf in Hx.
    apply list_elem_of_filter in Hx as [? ?]. naive_solver.
Qed.

(** The match is a covering prefix, and the longest one. *)
Lemma longest_prefix_match_Some path prefixes prefix :
  longest_prefix_match path prefixes = Some prefix →
  prefix ∈ prefixes ∧ covers prefix path ∧
  ∀ q, q ∈ prefixes → covers q path → String.length q ≤ String.length prefix.
Proof.
  unfold longest_prefix_match. intros [[?|Hin] Hmax]%max_by_key_Some; [done|].
  apply list_elem_of_filter in Hin as [Hm Hin]. rewrite prefix_matches_iff in Hm.
  split_and!; [done..|]. intros q Hq Hc. apply Hmax. right. apply list_elem_of_filter.
  by rewrite prefix_matches_iff.
Qed.

(** ** Reports *)

(** The reports one call produces, one per path, in order. *)
Definition path_reports (policy : ArchitectureBoundaryPolicy) (paths : list string) :
    list ArchitecturePathReport :=
  (λ path, classify (normalize <$> btree_elements (bp_immutable_prefixes policy))
             (normalize <$> btree_elements (bp_mutable_prefixes policy)) (normalize path)) <$> paths.

Definition decided (d : ArchitecturePathDecision) (rs : list ArchitecturePathReport) : list string :=
  pr_path <$> filter (λ r, pr_decision r = d) rs.

Definition denied (rs : list ArchitecturePathReport) : list string :=
  pr_path <$> filter (λ r, pr_decision r ≠ AllowedMutable) rs.

Lemma guard_fold rs report :
  foldl guard_add report rs =
  mkArchitectureGuardReport
    (foldl (λ n _, sat_add n 1) (gr_total_paths report) rs)
    (gr_allowed_paths report ++ decided AllowedMutable rs)
    (gr_denied_paths report ++ denied rs)
    (gr_unknown_paths report ++ decided DeniedUnknown rs)
    (gr_reports report ++ rs).
Proof.
  unfold decided, denied. revert report. induction rs as [|r rs IH]; intros report; simpl.
  { rewrite !app_nil_r. by destruct report. }
  rewrite IH. unfold guard_add. rewrite !filter_cons.
  destruct (pr_decision r) eqn:Hd; 
    repeat case_decide; try congruence; simpl; by rewrite <-?app_assoc.
Qed.

Lemma evaluate_paths_reports policy paths :
  evaluate_paths policy paths =
  mkArchitectureGuardReport (sat_add 0 (len paths))
    (decided AllowedMutable (path_reports policy paths))
    (denied (path_reports policy paths))
    (decided DeniedUnknown (path_reports policy paths))
    (path_reports policy paths).
Proof.
  unfold evaluate_paths. rewrite foldl_map_fn. fold (path_reports policy paths).
  rewrite guard_fold, sat_count by (unfold is_u64, u64_max; simpl; lia).
  f_equal. unfold path_reports, len. by rewrite length_fmap.
Qed.

(** ** Results *)

(** No immutable prefix covers the path and some mutable prefix does. *)
Definition inside_boundary (policy : ArchitectureBoundaryPolicy) (path : string) : Prop :=
  (∀ prefix, prefix ∈ bp_immutable_prefixes policy → ¬ covers (normalize prefix) path) ∧
  ∃ prefix, prefix ∈ bp_mutable_prefixes policy ∧ covers (normalize prefix) path.

Lemma elem_of_normalized x (ps : gset string) :
  x ∈ normalize <$> btree_elements ps ↔ ∃ prefix, prefix ∈ ps ∧ x = normalize prefix.
Proof. rewrite list_elem_of_fmap. setoid_rewrite elem_of_btree_elements. naive_solver. Qed.

Lemma classify_allowed policy p :
  pr_decision (classify (normalize <$> btree_elements (bp_immutable_prefixes policy))
    (normalize <$> btree_elements (bp_mutable_prefixes policy)) p) = AllowedMutable ↔
  inside_boundary policy p.
Proof.
  unfold classify, inside_boundary. destruct (longest_prefix_match p _) as [i|] eqn:Hi.
  - apply longest_prefix_match_Some in Hi as ((q & Hq & ->)%elem_of_normalized & Hc & _).
    split; [done|]. intros [Hn _]. by destruct (Hn q).
  - rewrite longest_prefix_match_None in Hi.
    assert (∀ q, q ∈ bp_immutable_prefixes policy → ¬ covers (normalize q) p) as Hn.
    { intros q Hq. apply Hi, elem_of_normalized. eauto. }
    destruct (longest_prefix_match p (normalize <$> btree_elements (bp_mutable_prefixes policy)))
      as [m|] eqn:Hm.
    + apply longest_prefix_match_Some in Hm as ((q & Hq & ->)%elem_of_normalized & Hc & _).
      split; [eauto|done].
    + rewrite longest_prefix_match_None in Hm. split; [done|]. intros [_ (q & Hq & Hc)].
      destruct (Hm (normalize q)); [|done]. apply elem_of_normalized. eauto.
Qed.

Lemma classify_path immutable mutable p : pr_path (classify immutable mutable p) = p.
Proof. unfold classify. by repeat case_match. Qed.

(** A path ends up allowed exactly when, after normalization, a mutable
    prefix covers it component-wise and no immutable prefix does: immutable
    prefixes win whatever the lengths of the two matches. *)
Theorem guard_allows_iff_inside policy paths p :
  p ∈ gr_allowed_paths (evaluate_paths policy paths) ↔
  inside_boundary policy p ∧ ∃ path, path ∈ paths ∧ p = normalize path.
Proof.
  rewrite evaluate_paths_reports. simpl. unfold decided, path_reports.
  rewrite list_elem_of_fmap. setoid_rewrite list_elem_of_filter.
  setoid_rewrite list_elem_of_fmap. split.
  - intros (r & -> & Hd & path & -> & Hin). rewrite classify_path. rewrite classify_allowed in Hd.
    eauto.
  - intros [Hb (path & Hin & ->)]. eexists. split; [by rewrite classify_path|].
    rewrite classify_allowed. eauto.
Qed.

(** The report accounts for every proposed path exactly once: allowed and
    denied paths together are the normalized input, the unknown ones are
    among the denied, and the count is the length of the input up to
    saturation. *)
Theorem guard_partitions_paths policy paths :
  let r := evaluate_paths policy paths in
  gr_allowed_paths r ++ gr_denied_paths r ≡ₚ normalize <$> paths ∧
  gr_unknown_paths r ⊆ gr_denied_paths r ∧
  pr_path <$> gr_reports r = normalize <$> paths ∧
  gr_total_paths r = sat_add 0 (len paths).
Proof.
  simpl. rewrite evaluate_paths_reports. simpl.
  assert (pr_path <$> path_reports policy paths = normalize <$> paths) as Hp.
  { unfold path_reports. rewrite <-list_fmap_compose. apply list_fmap_ext. intros i x _.
    apply classify_path. }
  split_and!; [|intros x|done|done].
  - unfold decided, denied. rewrite <-fmap_app, filter_app_complement. by rewrite Hp.
  - unfold decided, denied. rewrite !list_elem_of_fmap. setoid_rewrite list_elem_of_filter.
    intros (r & -> & Hd & Hin). exists r. rewrite Hd. done.
Qed.

Lemma no_denials_inside policy paths :
  ArchitectureGuardReport_has_denials (evaluate_paths policy paths) = false ↔
  ∀ path, path ∈ paths → inside_boundary policy (normalize path).
Proof.
  unfold ArchitectureGuardReport_has_denials. rewrite evaluate_paths_reports. simpl.
  rewrite negb_false_iff, bool_decide_eq_true. unfold denied, path_reports. split.
  - intros Hn path Hin. apply classify_allowed. apply dec_stable. intros Hd.
    apply fmap_nil_inv in Hn. apply (not_elem_of_nil (classify
      (normalize <$> btree_elements (bp_immutable_prefixes policy))
      (normalize <$> btree_elements (bp_mutable_prefixes policy)) (normalize path))).
    rewrite <-Hn. apply list_elem_of_filter. split; [done|]. apply list_elem_of_fmap. eauto.
  - intros Hall. destruct (filter _ _) as [|r l] eqn:Hf; [done|].
    assert (r ∈ r :: l) as Hr by (by left). rewrite <-Hf in Hr.
    apply list_elem_of_filter in Hr as [Hd (path & -> & Hin)%list_elem_of_fmap].
    destruct Hd. by apply classify_allowed, Hall.
Qed.

(** A report without denials means that every proposed path stays inside
    the boundary; one path outside it is enough for a denial. *)
Theorem no_denials_means_inside policy paths :
  (ArchitectureGuardReport_has_denials (evaluate_paths policy paths) = false ↔
     ∀ path, path ∈ paths → inside_boundary policy (normalize path)) ∧
  (ArchitectureGuardReport_has_denials (evaluate_paths policy paths) = true ↔
     ∃ path, path ∈ paths ∧ ¬ inside_boundary policy (normalize path)).
Proof.
  split; [apply no_denials_inside|]. split.
  - intros Hd. destruct (gr_denied_paths (evaluate_paths policy paths)) as [|p l] eqn:Hp.
    { unfold ArchitectureGuardReport_has_denials in Hd. by rewrite Hp in Hd. }
    rewrite evaluate_paths_reports in Hp. simpl in Hp. assert (p ∈ p :: l) as Hin by (by left).
    rewrite <-Hp in Hin. unfold denied, path_reports in Hin.
    apply list_elem_of_fmap in Hin as (r & -> & Hr).
    apply list_elem_of_filter in Hr as [Hd' (path & -> & Hpath)%list_elem_of_fmap].
    exists path. by rewrite classify_allowed in Hd'.
  - intros (path & Hin & Hno). apply not_false_iff_true. rewrite no_denials_inside. naive_solver.
Qed.

(** The guard compares path text: a parent-directory component is not
    resolved, so a path that names an immutable file through a mutable
    directory is allowed. *)
Theorem parent_components_escape_boundary :
  let p := "docs/../crates/kernel/src/kernel.rs" in
  p ∈ gr_allowed_paths (evaluate_paths ArchitectureBoundaryPolicy_default [p]) ∧
  "crates/kernel/src/kernel.rs" ∈
    gr_denied_paths (evaluate_paths ArchitectureBoundaryPolicy_default
                       ["crates/kernel/src/kernel.rs"]).
Proof. split; apply (bool_decide_unpack _); vm_compute; done. Qed.
