(* ===== verification/Fs.v ===== *)
(** * Fs: paths and directory walks

    Paths are Unix paths with UTF-8 names, as byte strings. The file system
    is a record of the standard library's read-only calls, each with the text
    of the error it may fail with; it does not change during a walk. Two
    walkers of the source (kernel/src/plugin.rs [collect_files] and
    kernel/src/awareness.rs [collect_file_facts]) have the same text up to
    what they collect and how they wrap errors; it is modelled once. *)
From S2P Require Import Prelude RustStr.
From Stdlib Require Import Ascii.

(** ** std::path *)

Inductive component := RootDir | CurDir | ParentDir | Normal (name : string).

#[export] Instance component_eq_dec : EqDecision component.
Proof. solve_decision. Defined.

(** One segment between slashes; empty and inner [.] segments vanish. *)
Definition segment_component (s : string) : option component :=
  if decide (s = "") then None
  else if decide (s = ".") then None
  else if decide (s = "..") then Some ParentDir
  else Some (Normal s).

(** [Path::components] *)
Definition components (p : string) : list component :=
  let segments := split_char "/"%char p in
  (if starts_with "/" p then [RootDir]
   else match segments with s :: _ => if decide (s = ".") then [CurDir] else [] | [] => [] end) ++
  omap segment_component segments.

(** [Path::file_name] *)
Definition file_name (p : string) : option string :=
  match last (components p) with Some (Normal name) => Some name | _ => None end.

(** The bytes after the last [c], and those before it. *)
Fixpoint rsplit_at (c : ascii) (s : string) : option (string * string) :=
  match s with
  | "" => None
  | String a s =>
      match rsplit_at c s with
      | Some (before, after) => Some (String a before, after)
      | None => if Ascii.eqb a c then Some ("", s) else None
      end
  end.

(** [Path::extension] *)
Definition extension (p : string) : option string :=
  match file_name p with
  | Some name =>
      match rsplit_at "."%char name with
      | Some (before, after) => if is_empty before then None else Some after
      | None => None
      end
  | None => None
  end.

(** Components in the order of the derived [Ord]: the variant first. *)
Definition component_key (c : component) : string :=
  match c with
  | RootDir => "0" | CurDir => "1" | ParentDir => "2" | Normal name => "3" +:+ name
  end.

Fixpoint keys_le (xs ys : list string) : Prop :=
  match xs, ys with
  | [], _ => True
  | _ :: _, [] => False
  | x :: xs, y :: ys => (x = y ∧ keys_le xs ys) ∨ (x ≠ y ∧ String.le x y)
  end.

(** [Ord for Path] compares component by component. *)
Definition path_le (p q : string) : Prop :=
  keys_le (component_key <$> components p) (component_key <$> components q).

#[export] Instance keys_le_dec xs ys : Decision (keys_le xs ys).
Proof. revert ys. induction xs as [|x xs IH]; intros [|y ys]; simpl; apply _. Defined.

#[export] Instance path_le_dec : RelDecision path_le.
Proof. intros p q. unfold path_le. apply _. Defined.

#[export] Instance keys_le_total : Total keys_le.
Proof.
  intros xs. induction xs as [|x xs IH]; intros [|y ys]; simpl; auto.
  destruct (decide (x = y)) as [->|Hne]; [destruct (IH ys); auto|].
  destruct (total String.le x y); auto.
Qed.

#[export] Instance keys_le_trans : Transitive keys_le.
Proof.
  intros xs. induction xs as [|x xs IH]; intros [|y ys] [|z zs]; simpl; try done.
  intros [[-> H1]|[Hne1 H1]] [[-> H2]|[Hne2 H2]]; auto.
  - left. split; [done|]. by eapply IH.
  - right. split; [|by etrans]. intros ->. by destruct Hne1; apply (anti_symm String.le).
Qed.

#[export] Instance path_le_total : Total path_le.
Proof. intros p q. apply keys_le_total. Qed.
#[export] Instance path_le_trans : Transitive path_le.
Proof. intros p q r. apply keys_le_trans. Qed.

(** [files.sort()] on paths *)
Definition sort_paths (files : list string) : list string := stable_sort path_le files.

Lemma sort_paths_Permutation files : sort_paths files ≡ₚ files.
Proof. apply stable_sort_Permutation. Qed.

Lemma sort_paths_sorted files : StronglySorted path_le (sort_paths files).
Proof. apply stable_sort_sorted; apply _. Qed.

(** ** std::fs *)
Record FileSystem := mkFileSystem {
  fs_exists : string → bool;
  fs_metadata : string → result string (bool * Z);        (** [is_file()] and [len()] *)
  fs_read_dir : string → result string (list (result string string));
  fs_is_dir : string → bool;
  fs_is_file : string → bool;
  fs_read : string → result string string;
}.

(** [should_skip_dir], the same in both modules *)
Definition should_skip_dir (path : string) : bool :=
  match file_name path with
  | Some name => bool_decide (name ∈ [".git"; "target"; "node_modules"; ".venv"; ".idea"; ".codex"])
  | None => false
  end.

Section walk.
  Context {E A : Type} (fs : FileSystem).
  (** How the caller wraps an error, and what it collects at the root and at
      a listed file. *)
  Context (wrap : string → string → E) (leaf : string → Z → A).
  Context (leaf_child : string → result E A).

Definition walk_child (walk : string → option (result E (list A))) (child : string) :
    option (result E (list A)) :=
  if fs_is_dir fs child then
    if should_skip_dir child then Some (Ok []) else walk child
  else if fs_is_file fs child then Some ((λ a, [a]) <$> leaf_child child)
  else Some (Ok []).

(** The loop over the entries of [path]. *)
Fixpoint walk_entries (walk : string → option (result E (list A))) (path : string)
    (entries : list (result string string)) : option (result E (list A)) :=
  match entries with
  | [] => Some (Ok [])
  | Err reason :: _ => Some (Err (wrap path reason))
  | Ok child :: entries =>
      match walk_child walk child with
      | None => None
      | Some (Err e) => Some (Err e)
      | Some (Ok here) =>
          match walk_entries walk path entries with
          | Some (Ok rest) => Some (Ok (here ++ rest))
          | other => other
          end
      end
  end.

(** The recursive walk; [None] is out of fuel. *)
Fixpoint walk (fuel : nat) (path : string) : option (result E (list A)) :=
  match fuel with
  | O => None
  | S fuel =>
      match fs_metadata fs path with
      | Err reason => Some (Err (wrap path reason))
      | Ok (true, size) => Some (Ok [leaf path size])
      | Ok (false, _) =>
          match fs_read_dir fs path with
          | Err reason => Some (Err (wrap path reason))
          | Ok entries => walk_entries (walk fuel) path entries
          end
      end
  end.

(** ** Termination

    A file system without directory cycles gives every directory a rank above
    those of the directories listed in it; fuel above the root's rank is
    enough. *)
Definition ranked (rank : string → nat) : Prop :=
  ∀ path entries child, fs_read_dir fs path = Ok entries → Ok child ∈ entries →
    fs_is_dir fs child = true → rank child < rank path.

Lemma walk_entries_total (w : string → option (result E (list A))) path entries :
  (∀ child, Ok child ∈ entries → fs_is_dir fs child = true → is_Some (w child)) →
  is_Some (walk_entries w path entries).
Proof.
  induction entries as [|[child|reason] entries IH]; intros Hw; simpl; [eauto| |eauto].
  assert (is_Some (walk_child w child)) as [r ->].
  { unfold walk_child. destruct (fs_is_dir fs child) eqn:Hd; [|case_match; eauto].
    case_match; [eauto|]. apply Hw; [by left|done]. }
  destruct r as [here|]; [|eauto].
  destruct IH as [r ->]; [|destruct r; eauto]. intros c ?. apply Hw. by right.
Qed.

Lemma walk_total rank fuel path : ranked rank → rank path < fuel → is_Some (walk fuel path).
Proof.
  intros Hr. revert path. induction fuel as [|fuel IH]; intros path Hf; [lia|]. simpl.
  destruct (fs_metadata fs path) as [[[] size]|]; [eauto| |eauto].
  destruct (fs_read_dir fs path) as [entries|] eqn:He; [|eauto].
  apply walk_entries_total. intros child Hin Hd. apply IH.
  specialize (Hr _ _ _ He Hin Hd). lia.
Qed.

(** ** What a walk collects *)

(** [yields path a]: [a] is collected from [path]. *)
Inductive yields : string → A → Prop :=
| yields_root path size : fs_metadata fs path = Ok (true, size) → yields path (leaf path size)
| yields_file path size entries child a :
    fs_metadata fs path = Ok (false, size) → fs_read_dir fs path = Ok entries →
    Ok child ∈ entries → fs_is_dir fs child = false → fs_is_file fs child = true →
    leaf_child child = Ok a → yields path a
| yields_dir path size entries child a :
    fs_metadata fs path = Ok (false, size) → fs_read_dir fs path = Ok entries →
    Ok child ∈ entries → fs_is_dir fs child = true → should_skip_dir child = false →
    yields child a → yields path a.

(** [from_child child a]: what one entry contributes. *)
Definition from_child (child : string) (a : A) : Prop :=
  (fs_is_dir fs child = true ∧ should_skip_dir child = false ∧ yields child a) ∨
  (fs_is_dir fs child = false ∧ fs_is_file fs child = true ∧ leaf_child child = Ok a).

Lemma walk_child_spec w child here :
  (∀ l, w child = Some (Ok l) → ∀ a, a ∈ l ↔ yields child a) →
  walk_child w child = Some (Ok here) → ∀ a, a ∈ here ↔ from_child child a.
Proof.
  unfold walk_child, from_child. intros Hw H a.
  destruct (fs_is_dir fs child); [destruct (should_skip_dir child)|destruct (fs_is_file fs child)].
  - simplify_eq. set_solver.
  - rewrite (Hw _ H). naive_solver.
  - destruct (leaf_child child); simplify_eq/=. set_solver.
  - simplify_eq. set_solver.
Qed.

Lemma walk_entries_spec w path entries l :
  (∀ child l, w child = Some (Ok l) → ∀ a, a ∈ l ↔ yields child a) →
  walk_entries w path entries = Some (Ok l) →
  ∀ a, a ∈ l ↔ ∃ child, Ok child ∈ entries ∧ from_child child a.
Proof.
  intros Hw. revert l. induction entries as [|[child|reason] entries IH]; intros l H a; simpl in H.
  - simplify_eq. set_solver.
  - destruct (walk_child w child) as [[here|]|] eqn:Hc; simplify_eq.
    destruct (walk_entries w path entries) as [[rest|]|]; simplify_eq.
    rewrite elem_of_app, (walk_child_spec w child here (Hw child) Hc), (IH rest eq_refl).
    setoid_rewrite elem_of_cons. naive_solver.
  - done.
Qed.

Lemma walk_spec fuel path l :
  walk fuel path = Some (Ok l) → ∀ a, a ∈ l ↔ yields path a.
Proof.
  revert path l. induction fuel as [|fuel IH]; intros path l H a; [done|]. simpl in H.
  destruct (fs_metadata fs path) as [[[] size]|] eqn:Hm; [|destruct (fs_read_dir fs path) as
    [entries|] eqn:Hd|]; simplify_eq.
  - rewrite list_elem_of_singleton. split; [intros ->; by constructor|].
    inversion 1; congruence.
  - rewrite (walk_entries_spec _ _ _ _ IH H). unfold from_child. split.
    + intros (child & Hin & [(? & ? & ?)|(? & ? & ?)]); [by eapply yields_dir|by eapply yields_file].
    + intros Hy. inversion Hy as [? ? Hm'|? ? es child ? Hm' Hd'|? ? es child ? Hm' Hd']; subst;
        [congruence| |]; rewrite Hd in Hd'; injection Hd' as <-; naive_solver.
Qed.
End walk.

(** ** UTF-8 *)

(** [String::from_utf8] accepts exactly the well-formed sequences of the
    Unicode standard (no surrogates, no overlong forms, up to U+10FFFF). *)
Fixpoint utf8_valid (s : string) : bool :=
  match s with
  | "" => true
  | String a s1 =>
      if in_range 0 127 a then utf8_valid s1 else
      match s1 with
      | "" => false
      | String b s2 =>
          if in_range 194 223 a then is_continuation b && utf8_valid s2 else
          match s2 with
          | "" => false
          | String c s3 =>
              if in_range 224 239 a then
                (if (byte a =? 224)%N then in_range 160 191 b
                 else if (byte a =? 237)%N then in_range 128 159 b else is_continuation b)
                && is_continuation c && utf8_valid s3
              else
              match s3 with
              | "" => false
              | String d s4 =>
                  in_range 240 244 a &&
                  (if (byte a =? 240)%N then in_range 144 191 b
                   else if (byte a =? 244)%N then in_range 128 143 b else is_continuation b)
                  && is_continuation c && is_continuation d && utf8_valid s4
              end
          end
      end
  end.
