(* ===== verification/Plugin.v ===== *)
(** * Plugin: scanning for plugin manifests and absorbing them
    (kernel/src/plugin.rs)

    A plugin is a source file with a manifest in a comment block. The scanner
    walks a tree, extracts the manifests and absorbs them into the integration
    catalog and the pack. *)
From S2P Require Import Prelude RustStr Contracts Errors Integration Fs.
From Stdlib Require Import Ascii.

Record PluginManifest := mkPluginManifest {
  pm_plugin_id : string;
  pm_provider_id : string;
  pm_connector_name : string;
  pm_channel_id : option string;
  pm_endpoint : option string;
  pm_capabilities : gset Capability;
  pm_metadata : gmap string string;
  pm_summary : option string;
  pm_tags : list string;
  pm_input_examples : list Value;
  pm_output_examples : list Value;
  pm_defer_loading : bool;
}.

Record PluginDescriptor := mkPluginDescriptor {
  pd_path : string;
  pd_language : string;
  pd_manifest : PluginManifest;
}.

Record PluginScanReport := mkPluginScanReport {
  sr_scanned_files : Z;
  sr_matched_plugins : Z;
  sr_descriptors : list PluginDescriptor;
}.

Definition PluginScanReport_default : PluginScanReport := mkPluginScanReport 0 0 [].

Record PluginAbsorbReport := mkPluginAbsorbReport {
  ab_absorbed_plugins : Z;
  ab_provider_upserts : Z;
  ab_channel_upserts : Z;
  ab_connectors_added_to_pack : gset string;
  ab_capabilities_added_to_pack : gset Capability;
}.

Definition PluginAbsorbReport_default : PluginAbsorbReport := mkPluginAbsorbReport 0 0 0 ∅ ∅.

(** ** Absorbing *)

(** [BTreeSet::insert] and the set of newly added elements: [added] gains
    [x] when [x] was not in [s]. *)
Definition insert_added `{Countable A} (x : A) (sa : gset A * gset A) : gset A * gset A :=
  let '(s, added) := sa in
  if decide (x ∈ s) then (s, added) else (s ∪ {[x]}, added ∪ {[x]}).
#[global] Arguments insert_added : simpl never.

Definition provider_of_manifest (m : PluginManifest) : ProviderConfig :=
  {| pc_provider_id := pm_provider_id m;
     pc_connector_name := pm_connector_name m;
     pc_version := unwrap_or (pm_metadata m !! "version") "0.1.0";
     pc_metadata := pm_metadata m |}.

Definition channel_of_manifest (m : PluginManifest) (channel_id : string) : ChannelConfig :=
  {| ch_channel_id := channel_id;
     ch_provider_id := pm_provider_id m;
     ch_endpoint := unwrap_or (pm_endpoint m)
       ("https://" +:+ pm_provider_id m +:+ ".local/" +:+ channel_id +:+ "/invoke");
     ch_enabled := true;
     ch_metadata := {["source_plugin" := pm_plugin_id m]} |}.

Definition set_pack_sets (connectors : gset string) (caps : gset Capability)
    (p : VerticalPackManifest) : VerticalPackManifest :=
  {| pk_pack_id := pk_pack_id p; pk_domain := pk_domain p; pk_version := pk_version p;
     pk_default_route := pk_default_route p; pk_allowed_connectors := connectors;
     pk_granted_capabilities := caps; pk_metadata := pk_metadata p |}.

Definition absorb_failed (m : PluginManifest) (reason : string) : IntegrationError :=
  PluginAbsorbFailed (pm_plugin_id m) reason.

(** One turn of the loop of [absorb_inner]; the report is part of the state. *)
Definition absorb_descriptor (d : PluginDescriptor) :
    ST (IntegrationCatalog * VerticalPackManifest * PluginAbsorbReport) IntegrationError unit :=
  λ '(catalog, pack, absorbed),
  let m := pd_manifest d in
  if is_empty (pm_provider_id m) then
    (Err (absorb_failed m "provider_id must not be empty"), (catalog, pack, absorbed))
  else if is_empty (pm_connector_name m) then
    (Err (absorb_failed m "connector_name must not be empty"), (catalog, pack, absorbed))
  else
    let catalog := upsert_provider (provider_of_manifest m) catalog in
    let provider_upserts := sat_add (ab_provider_upserts absorbed) 1 in
    let '(catalog, channel_upserts) :=
      match pm_channel_id m with
      | Some channel_id =>
          (upsert_channel (channel_of_manifest m channel_id) catalog,
           sat_add (ab_channel_upserts absorbed) 1)
      | None => (catalog, ab_channel_upserts absorbed)
      end in
    let '(connectors, connectors_added) :=
      insert_added (pm_connector_name m)
        (pk_allowed_connectors pack, ab_connectors_added_to_pack absorbed) in
    let caps := insert_added InvokeConnector
        (pk_granted_capabilities pack, ab_capabilities_added_to_pack absorbed) in
    let '(granted, caps_added) :=
      foldl (λ acc c, insert_added c acc) caps (caps_iter (pm_capabilities m)) in
    (Ok (),
     (catalog, set_pack_sets connectors granted pack,
      {| ab_absorbed_plugins := sat_add (ab_absorbed_plugins absorbed) 1;
         ab_provider_upserts := provider_upserts;
         ab_channel_upserts := channel_upserts;
         ab_connectors_added_to_pack := connectors_added;
         ab_capabilities_added_to_pack := caps_added |})).

(** [PluginScanner::absorb_inner] *)
Definition absorb_inner (report : PluginScanReport) :
    ST (IntegrationCatalog * VerticalPackManifest) IntegrationError PluginAbsorbReport := λ '(c, p),
  match for_each absorb_descriptor (sr_descriptors report) (c, p, PluginAbsorbReport_default) with
  | (Ok _, (c, p, absorbed)) => (Ok absorbed, (c, p))
  | (Err e, (c, p, _)) => (Err e, (c, p))
  end.

(** [PluginScanner::absorb]: both arguments are restored on failure. *)
Definition absorb (report : PluginScanReport) :
    ST (IntegrationCatalog * VerticalPackManifest) IntegrationError PluginAbsorbReport := λ snapshot,
  let '(result, s) := absorb_inner report snapshot in
  (result, if is_ok result then s else snapshot).

(** [PluginScanner::to_auto_provision_requests] *)
Definition to_auto_provision_requests (report : PluginScanReport) : list AutoProvisionRequest :=
  (λ d, let m := pd_manifest d in
        {| ar_provider_id := pm_provider_id m;
           ar_channel_id := unwrap_or (pm_channel_id m) (pm_provider_id m +:+ "-default");
           ar_connector_name := Some (pm_connector_name m);
           ar_endpoint := pm_endpoint m;
           ar_required_capabilities := pm_capabilities m |}) <$> sr_descriptors report.

(** ** Manifests in comments *)

Definition comment_prefixes : list string :=
  ["//"; "#"; "--"; ";"; String "/" "*"; "*"; String "*" "/"].

(** [for prefix in [..] { if let Some(rest) = trimmed.strip_prefix(prefix) { return .. } }] *)
Fixpoint strip_first (prefixes : list string) (trimmed : string) : string :=
  match prefixes with
  | [] => trimmed
  | prefix :: prefixes =>
      match strip_prefix prefix trimmed with
      | Some rest => trim_start rest
      | None => strip_first prefixes trimmed
      end
  end.

(** [clean_manifest_line] *)
Definition clean_manifest_line (line : string) : string :=
  strip_first comment_prefixes (trim_start line).

Definition START : string := "LOONGCLAW_PLUGIN_START".
Definition END_ : string := "LOONGCLAW_PLUGIN_END".

(** [&s[n..]] *)
Fixpoint drop_str (n : nat) (s : string) : string :=
  match n, s with
  | O, _ => s
  | S n, String _ s => drop_str n s
  | S _, "" => ""
  end.

(** [&s[..n]] *)
Fixpoint take_str (n : nat) (s : string) : string :=
  match n, s with
  | O, _ => ""
  | S n, String a s => String a (take_str n s)
  | S _, "" => ""
  end.

(** The text between the markers: no start marker, a start marker without an
    end marker, or a block. *)
Inductive block_search := NoStart | NoEnd | Block (block : string).

Definition find_block (content : string) : block_search :=
  match find_str START content with
  | None => NoStart
  | Some start_idx =>
      match find_str END_ (drop_str start_idx content) with
      | None => NoEnd
      | Some idx =>
          let end_idx := start_idx + idx in
          let from := start_idx + String.length START in
          Block (take_str (end_idx - from) (drop_str from content))
      end
  end.

Definition clean_block (block : string) : string :=
  join (String newline "") (clean_manifest_line <$> lines block).

Section scanner.
  (** [serde_json::from_str::<PluginManifest>], with the error's text, and
      [str::to_lowercase] on an extension. *)
  Context (manifest_from_str : string → result string PluginManifest).
  Context (to_lowercase : string → string).

(** [parse_manifest_block] *)
Definition parse_manifest_block (content path : string) :
    result IntegrationError (option PluginManifest) :=
  match find_block content with
  | NoStart => Ok None
  | NoEnd => Err (PluginManifestParse path "missing LOONGCLAW_PLUGIN_END")
  | Block block =>
      manifest ← map_err (PluginManifestParse path)
                   (manifest_from_str (trim (clean_block block)));
      Ok (Some manifest)
  end.

(** [detect_language] *)
Definition plugin_detect_language (path : string) : string :=
  match extension path with Some ext => to_lowercase ext | None => "unknown" end.

(** [collect_files] *)
Definition collect_files (fs : FileSystem) (fuel : nat) (root : string) :
    option (result IntegrationError (list string)) :=
  walk fs PluginFileRead (λ path _, path) (λ child, Ok child) fuel root.

(** One turn of the loop of [scan_path]. *)
Definition scan_file (fs : FileSystem) (path : string) :
    ST PluginScanReport IntegrationError unit := λ report,
  let report := mkPluginScanReport (sat_add (sr_scanned_files report) 1)
                  (sr_matched_plugins report) (sr_descriptors report) in
  match map_err (PluginFileRead path) (fs_read fs path) with
  | Err e => (Err e, report)
  | Ok bytes =>
      if utf8_valid bytes then
        match parse_manifest_block bytes path with
        | Err e => (Err e, report)
        | Ok (Some manifest) =>
            (Ok (), mkPluginScanReport (sr_scanned_files report)
                      (sat_add (sr_matched_plugins report) 1)
                      (sr_descriptors report ++
                         [mkPluginDescriptor path (plugin_detect_language path) manifest]))
        | Ok None => (Ok (), report)
        end
      else (Ok (), report)
  end.

(** [PluginScanner::scan_path]; [None] is out of fuel. *)
Definition scan_path (fs : FileSystem) (fuel : nat) (root : string) :
    option (result IntegrationError PluginScanReport) :=
  if negb (fs_exists fs root) then Some (Err (PluginScanRootNotFound root))
  else
    match collect_files fs fuel root with
    | None => None
    | Some (Err e) => Some (Err e)
    | Some (Ok files) =>
        Some (let '(r, report) :=
                for_each (scan_file fs) (sort_paths files) PluginScanReport_default in
              _ ← r; Ok report)
    end.
End scanner.

(** ** Absorbing: all or nothing, and an exact report *)

(** [added] is what [cur] has beyond [base]. *)
Definition tracks `{Countable A} (base : gset A) (sa : gset A * gset A) : Prop :=
  base ⊆ sa.1 ∧ sa.2 = sa.1 ∖ base.

Lemma insert_added_tracks `{Countable A} (base : gset A) x sa :
  tracks base sa → tracks base (insert_added x sa) ∧ (insert_added x sa).1 = sa.1 ∪ {[x]}.
Proof.
  destruct sa as [s added]. unfold tracks, insert_added. simpl. intros [Hb ->].
  case_decide; simpl; (split; [split|]); first [done|set_solver|apply leibniz_equiv; set_solver].
Qed.

Lemma insert_all_tracks `{Countable A} (base : gset A) xs sa :
  tracks base sa →
  tracks base (foldl (λ acc c, insert_added c acc) sa xs) ∧
  (foldl (λ acc c, insert_added c acc) sa xs).1 = sa.1 ∪ list_to_set xs.
Proof.
  revert sa. induction xs as [|x xs IH]; intros sa Ht; simpl.
  - split; [done|]. set_solver.
  - destruct (insert_added_tracks base x sa Ht) as [Ht' He].
    destruct (IH _ Ht') as [? ->]. split; [done|]. rewrite He. set_solver.
Qed.

(** A descriptor the loop accepts. *)
Definition absorbable (d : PluginDescriptor) : Prop :=
  pm_provider_id (pd_manifest d) ≠ "" ∧ pm_connector_name (pd_manifest d) ≠ "".

Definition connectors_of (ds : list PluginDescriptor) : gset string :=
  list_to_set ((λ d, pm_connector_name (pd_manifest d)) <$> ds).

Definition capabilities_of (ds : list PluginDescriptor) : gset Capability :=
  ⋃ ((λ d, {[InvokeConnector]} ∪ pm_capabilities (pd_manifest d)) <$> ds).

(** The loop's state after [ds], started from the pack [p0]. *)
Record absorbing (p0 : VerticalPackManifest) (ds : list PluginDescriptor)
    (s : IntegrationCatalog * VerticalPackManifest * PluginAbsorbReport) : Prop := {
  abs_wf : catalog_wf s.1.1;
  abs_connectors : tracks (pk_allowed_connectors p0)
    (pk_allowed_connectors s.1.2, ab_connectors_added_to_pack s.2);
  abs_caps : tracks (pk_granted_capabilities p0)
    (pk_granted_capabilities s.1.2, ab_capabilities_added_to_pack s.2);
  abs_allowed : pk_allowed_connectors s.1.2 = pk_allowed_connectors p0 ∪ connectors_of ds;
  abs_granted : pk_granted_capabilities s.1.2 = pk_granted_capabilities p0 ∪ capabilities_of ds;
  abs_count : ab_absorbed_plugins s.2 = sat_add 0 (len ds);
  abs_upserts : ab_provider_upserts s.2 = sat_add 0 (len ds);
}.

Lemma is_empty_true s : is_empty s = true ↔ s = "".
Proof. by destruct s. Qed.

Lemma is_empty_false s : is_empty s = false ↔ s ≠ "".
Proof. by destruct s. Qed.

Lemma absorb_descriptor_Ok p0 ds d s s' :
  absorbing p0 ds s → absorb_descriptor d s = (Ok (), s') →
  absorbable d ∧ absorbing p0 (ds ++ [d]) s'.
Proof.
  destruct s as [[c p] a]. intros [Hwf Hco Hca Hal Hgr Hn Hu]. simpl in *. unfold absorb_descriptor.
  destruct (is_empty (pm_provider_id _)) eqn:H1; [done|].
  destruct (is_empty (pm_connector_name _)) eqn:H2; [done|].
  apply is_empty_false in H1, H2.
  destruct (insert_added_tracks _ (pm_connector_name (pd_manifest d)) _ Hco) as [Hco' Hal'].
  destruct (insert_added_tracks _ InvokeConnector _ Hca) as [Hca1 Hgr1].
  destruct (insert_all_tracks _ (caps_iter (pm_capabilities (pd_manifest d))) _ Hca1)
    as [Hca' Hgr'].
  destruct (insert_added (pm_connector_name _) _) as [co coa].
  destruct (foldl _ _ _) as [gr gra]. simpl in *.
  assert (catalog_wf (upsert_provider (provider_of_manifest (pd_manifest d)) c)) as Hwf'
    by (by apply upsert_provider_wf).
  destruct (pm_channel_id _) as [ch|]; intros Heq; injection Heq as <-; (split; [done|split]; simpl);
    try done; try (by apply upsert_channel_wf); try (rewrite ?Hn, ?Hu; apply sat_add_snoc).
  1,3: rewrite Hal', Hal; unfold connectors_of; rewrite fmap_app, list_to_set_app_L; set_solver.
  all: rewrite Hgr', Hgr1, Hgr, list_to_set_caps_iter; unfold capabilities_of;
    rewrite fmap_app, union_list_app_L; set_solver.
Qed.

Lemma absorb_loop_Ok p0 done ds s s' :
  absorbing p0 done s → for_each absorb_descriptor ds s = (Ok (), s') →
  Forall absorbable ds ∧ absorbing p0 (done ++ ds) s'.
Proof.
  revert done s. induction ds as [|d ds IH]; intros done s Ha; cbn [for_each].
  - intros [= <-]. by rewrite app_nil_r.
  - intros ([] & s1 & H1 & H2)%st_bind_Ok.
    destruct (absorb_descriptor_Ok _ _ _ _ _ Ha H1) as [? Ha1].
    destruct (IH _ _ Ha1 H2) as [? Ha2]. rewrite <-app_assoc in Ha2. auto.
Qed.

(** The loop fails exactly when a descriptor is not absorbable. *)
Lemma absorb_loop_total ds s : Forall absorbable ds → ∃ s', for_each absorb_descriptor ds s = (Ok (), s').
Proof.
  intros Hd. revert s. induction Hd as [|d ds [H1 H2] _ IH]; intros [[c p] a]; cbn [for_each]; [eauto|].
  rewrite st_bind_run. unfold absorb_descriptor at 1.
  rewrite (proj2 (is_empty_false _) H1), (proj2 (is_empty_false _) H2).
  by repeat (case_match; simplify_eq); apply IH.
Qed.

Lemma absorbing_start c p : catalog_wf c → absorbing p [] (c, p, PluginAbsorbReport_default).
Proof.
  intros Hc. split; simpl; try done; [split; simpl; [done|set_solver]..| |];
    unfold connectors_of, capabilities_of; simpl; set_solver.
Qed.

(** Absorbing plugins is all or nothing, and its report is exact. It
    succeeds exactly when every descriptor names a provider and a connector.
    Then the pack gains precisely the plugins' connectors and capabilities
    (with [InvokeConnector]), the report lists exactly what was new, and the
    catalog stays well formed; otherwise catalog and pack are as before. *)
Theorem absorb_all_or_nothing report c p : catalog_wf c →
  match absorb report (c, p) with
  | (Ok a, (c', p')) =>
      Forall absorbable (sr_descriptors report) ∧ catalog_wf c' ∧
      pk_allowed_connectors p' = pk_allowed_connectors p ∪ connectors_of (sr_descriptors report) ∧
      pk_granted_capabilities p' =
        pk_granted_capabilities p ∪ capabilities_of (sr_descriptors report) ∧
      ab_connectors_added_to_pack a = pk_allowed_connectors p' ∖ pk_allowed_connectors p ∧
      ab_capabilities_added_to_pack a = pk_granted_capabilities p' ∖ pk_granted_capabilities p ∧
      ab_absorbed_plugins a = sat_add 0 (len (sr_descriptors report))
  | (Err _, s') => ¬ Forall absorbable (sr_descriptors report) ∧ s' = (c, p)
  end.
Proof.
  intros Hc. unfold absorb, absorb_inner.
  destruct (for_each absorb_descriptor _ _) as [[[]|e] [[c' p'] a]] eqn:Hf; simpl.
  - destruct (absorb_loop_Ok p [] _ _ _ (absorbing_start c p Hc) Hf) as [? [? [_ ?] [_ ?] ? ? ? _]].
    done.
  - split; [|done]. intros Hall.
    destruct (absorb_loop_total _ (c, p, PluginAbsorbReport_default) Hall) as [? Hs].
    by rewrite Hf in Hs.
Qed.

(** ** Manifests in comments *)

(** The end marker cannot begin inside the start marker. *)
Lemma find_end_after_start s : find_str END_ (START +:+ s) = Nat.add 22 <$> find_str END_ s.
Proof.
  unfold START. rewrite !app_cons_str, app_nil_l_str.
  do 22 (rewrite find_str_skip by reflexivity). by destruct (find_str END_ s).
Qed.

Lemma drop_str_app s t : drop_str (String.length s) (s +:+ t) = t.
Proof. induction s as [|a s IH]; [done|]. rewrite app_cons_str. apply IH. Qed.

Lemma take_str_app s t : take_str (String.length s) (s +:+ t) = s.
Proof. induction s as [|a s IH]; [done|]. rewrite app_cons_str. simpl. by rewrite IH. Qed.

Lemma block_slice pre blk rest :
  take_str (String.length pre + (22 + String.length blk) - (String.length pre + String.length START))
    (drop_str (String.length pre + String.length START) (pre +:+ START +:+ blk +:+ rest)) = blk.
Proof.
  rewrite <-length_app_str, <-(app_assoc_str pre START), drop_str_app, length_app_str.
  change (String.length START) with 22.
  replace (String.length pre + (22 + String.length blk) - (String.length pre + 22))
    with (String.length blk) by lia. apply take_str_app.
Qed.

(** The block runs from the first start marker to the first end marker after
    it. *)
Lemma find_block_Block content block :
  find_block content = Block block →
  ∃ pre post, content = pre +:+ START +:+ block +:+ END_ +:+ post ∧
    find_str START content = Some (String.length pre) ∧
    find_str END_ (block +:+ END_ +:+ post) = Some (String.length block).
Proof.
  unfold find_block. destruct (find_str START content) as [n|] eqn:Hs; [|done].
  destruct (find_str_Some _ _ _ Hs) as (pre & rest & -> & <-). rewrite drop_str_app.
  rewrite find_end_after_start. destruct (find_str END_ rest) as [m|] eqn:He; [|done].
  destruct (find_str_Some _ _ _ He) as (blk & post & -> & <-). cbn [fmap option_fmap option_map].
  rewrite block_slice. intros [= <-]. by exists pre, post.
Qed.

Lemma find_block_markers pre block post :
  find_str START (pre +:+ START +:+ block +:+ END_ +:+ post) = Some (String.length pre) →
  find_str END_ (block +:+ END_ +:+ post) = Some (String.length block) →
  find_block (pre +:+ START +:+ block +:+ END_ +:+ post) = Block block.
Proof.
  intros Hs He. unfold find_block. rewrite Hs, drop_str_app, find_end_after_start, He.
  cbn [fmap option_fmap option_map]. by rewrite block_slice.
Qed.

(** The comment leaders the cleaner removes. *)
Definition comment_leaders : list string := ["//"; "#"; "--"; ";"; String "/" "*"; "*"].

Lemma clean_commented_line p l :
  p ∈ comment_leaders → clean_manifest_line (p +:+ " " +:+ l) = trim_start l.
Proof.
  intros Hp. assert (trim_start (p +:+ " " +:+ l) = p +:+ " " +:+ l) as Ht.
  { apply trim_with_id. revert p Hp. apply Forall_forall.
    repeat (apply Forall_cons_2; [by destruct l|]); apply Forall_nil_2. }
  unfold clean_manifest_line. rewrite Ht. clear Ht. revert p Hp. apply Forall_forall.
  repeat (apply Forall_cons_2; [reflexivity|]); apply Forall_nil_2.
Qed.

(** A manifest written in a comment: each line behind the leader [p], then the
    leader of the end marker's line. *)
Fixpoint comment_lines (p : string) (ls : list string) : string :=
  match ls with
  | [] => p +:+ " "
  | l :: ls => (p +:+ " " +:+ l) +:+ String newline (comment_lines p ls)
  end.
Definition commented (p : string) (ls : list string) : string := String newline (comment_lines p ls).

Definition plain_line (l : string) : Prop :=
  all_bytes (λ a, negb (Ascii.eqb a newline) && negb (Ascii.eqb a carriage_return)) l = true.

Lemma plain_line_bytes l : plain_line l →
  all_bytes (λ a, negb (Ascii.eqb a newline)) l = true ∧
  all_bytes (λ a, negb (Ascii.eqb a carriage_return)) l = true.
Proof.
  unfold plain_line. induction l as [|a l IH]; simpl; [done|].
  intros [[-> ->]%andb_true_iff Hl]%andb_true_iff. by apply IH.
Qed.

(** The lines of a commented text, before cleaning. *)
Lemma split_comment_lines p ls : plain_line p → Forall plain_line ls →
  split_char newline (comment_lines p ls) = ((λ l, p +:+ " " +:+ l) <$> ls) ++ [p +:+ " "].
Proof.
  intros [Hp _]%plain_line_bytes.
  induction 1 as [|l ls [Hl _]%plain_line_bytes _ IH]; cbn [comment_lines].
  - apply split_char_free. by rewrite all_bytes_app, Hp.
  - rewrite split_char_app, IH; [done|]. by rewrite !all_bytes_app, Hp, Hl.
Qed.

Lemma lines_of_snoc ls last :
  last ≠ "" → Forall (λ l, strip_cr l = l) ls → lines_of (ls ++ [last]) = ls ++ [last].
Proof.
  intros Hl. induction 1 as [|l ls Hs _ IH]; simpl; [by destruct last|].
  rewrite IH, Hs. by destruct ls.
Qed.

Lemma comment_leader_plain p : p ∈ comment_leaders → plain_line p ∧ p +:+ " " ≠ "".
Proof. revert p. apply Forall_forall. repeat (apply Forall_cons_2; [done|]). apply Forall_nil_2. Qed.

(** Cleaning undoes commenting, up to surrounding white space. *)
Lemma clean_commented p ls : p ∈ comment_leaders → Forall plain_line ls →
  trim (clean_block (commented p ls)) = trim (join (String newline "") (trim_start <$> ls)).
Proof.
  intros Hp Hls. destruct (comment_leader_plain p Hp) as [Hpp Hne].
  unfold clean_block, lines, commented.
  change (String newline (comment_lines p ls)) with ("" +:+ String newline (comment_lines p ls)).
  rewrite split_char_app, split_comment_lines by done.
  change ("" :: ((λ l, p +:+ " " +:+ l) <$> ls) ++ [p +:+ " "])
    with (("" :: ((λ l, p +:+ " " +:+ l) <$> ls)) ++ [p +:+ " "]).
  rewrite lines_of_snoc; [|done|].
  2:{ constructor; [done|]. apply Forall_fmap. eapply Forall_impl; [exact Hls|]. intros l Hl.
      apply strip_cr_free. simpl. rewrite !all_bytes_app.
      by rewrite (proj2 (plain_line_bytes p Hpp)), (proj2 (plain_line_bytes l Hl)). }
  rewrite fmap_app. cbn [fmap list_fmap]. rewrite <-list_fmap_compose.
  rewrite (list_fmap_ext _ trim_start ls)
    by (intros i l _; unfold compose; by apply clean_commented_line).
  rewrite <-(app_nil_r_str " ") at 1. rewrite (clean_commented_line p "") by done.
  change (clean_manifest_line "") with "". change (trim_start "") with "".
  rewrite join_snoc by done. rewrite app_nil_r_str, trim_snoc by done.
  destruct ls as [|l ls]; [done|]. rewrite join_cons by done.
  by rewrite app_nil_l_str, app_cons_str, app_nil_l_str, trim_cons.
Qed.

Section results.
  Context (manifest_from_str : string → result string PluginManifest).
  Context (to_lowercase : string → string).

(** A manifest round-trips through a comment: written line by line behind
    any of the six comment leaders and between the markers, whatever
    surrounds them, it reaches the JSON parser as the original text, up to
    the indentation of its lines. The hypotheses say that the markers are the
    first ones in the file. *)
Theorem commented_manifest_roundtrip p ls pre post path :
  p ∈ comment_leaders → Forall plain_line ls →
  find_str START (pre +:+ START +:+ commented p ls +:+ END_ +:+ post) = Some (String.length pre) →
  find_str END_ (commented p ls +:+ END_ +:+ post) = Some (String.length (commented p ls)) →
  parse_manifest_block manifest_from_str (pre +:+ START +:+ commented p ls +:+ END_ +:+ post) path =
  map_err (PluginManifestParse path)
    (Some <$> manifest_from_str (trim (join (String newline "") (trim_start <$> ls)))).
Proof.
  intros Hp Hls Hs He. unfold parse_manifest_block.
  rewrite (find_block_markers pre (commented p ls) post Hs He), clean_commented by done.
  by destruct (manifest_from_str _).
Qed.

(** ** Scanning *)

(** The descriptor a file contributes. *)
Definition describe (fs : FileSystem) (path : string) : option PluginDescriptor :=
  match fs_read fs path with
  | Ok bytes =>
      if utf8_valid bytes then
        match parse_manifest_block manifest_from_str bytes path with
        | Ok (Some m) => Some (mkPluginDescriptor path (plugin_detect_language to_lowercase path) m)
        | _ => None
        end
      else None
  | Err _ => None
  end.

(** The file can be read and its manifest, if it has one, parses. *)
Definition readable (fs : FileSystem) (path : string) : Prop :=
  match fs_read fs path with
  | Ok bytes => utf8_valid bytes = true →
      is_ok (parse_manifest_block manifest_from_str bytes path) = true
  | Err _ => False
  end.

Lemma scan_file_Ok fs path r r' :
  scan_file manifest_from_str to_lowercase fs path r = (Ok (), r') ↔
  readable fs path ∧
  r' = mkPluginScanReport (sat_add (sr_scanned_files r) 1)
         (match describe fs path with
          | Some _ => sat_add (sr_matched_plugins r) 1 | None => sr_matched_plugins r end)
         (sr_descriptors r ++ option_list (describe fs path)).
Proof.
  unfold scan_file, readable, describe. simpl.
  destruct (fs_read fs path) as [bytes|]; simpl; [|naive_solver].
  destruct (utf8_valid bytes); [|rewrite app_nil_r; naive_solver].
  destruct (parse_manifest_block _ bytes path) as [[m|]|]; simpl;
    rewrite ?app_nil_r; naive_solver.
Qed.

Lemma scan_loop_Ok fs files r r' :
  is_u64 (sr_scanned_files r) → is_u64 (sr_matched_plugins r) →
  for_each (scan_file manifest_from_str to_lowercase fs) files r = (Ok (), r') →
  Forall (readable fs) files ∧
  r' = mkPluginScanReport (sat_add (sr_scanned_files r) (len files))
         (sat_add (sr_matched_plugins r) (len (omap (describe fs) files)))
         (sr_descriptors r ++ omap (describe fs) files).
Proof.
  revert r. induction files as [|f files IH]; intros r Hs Hm; cbn [for_each].
  - intros [= <-]. split; [done|]. unfold sat_add, len, is_u64, u64_max in *. simpl.
    destruct r; simpl in *. rewrite app_nil_r. f_equal; lia.
  - intros ([] & r1 & [Hr ->]%scan_file_Ok & H2)%st_bind_Ok.
    pose proof (len_nonneg files). pose proof (len_nonneg (omap (describe fs) files)).
    assert (is_u64 1) by (unfold is_u64, u64_max; lia).
    apply IH in H2 as [? ->]; cbn [sr_scanned_files sr_matched_plugins sr_descriptors];
      [|by apply sat_add_range|destruct (describe fs f); [by apply sat_add_range|done]].
    split; [by constructor|]. cbn [omap list_omap]. rewrite len_cons.
    destruct (describe fs f); simpl; rewrite ?len_cons, <-app_assoc; f_equal;
      unfold sat_add, is_u64, u64_max in *; lia.
Qed.

(** A scan that succeeds has read every visible file, in path order, and
    reports exactly the manifests they contain: one descriptor per file whose
    UTF-8 content holds a manifest block, none for the others. Files below
    [.git], [target] and the other skipped directories are not visible. *)
Theorem scan_reports_visible_manifests fs fuel root report :
  scan_path manifest_from_str to_lowercase fs fuel root = Some (Ok report) →
  ∃ files,
    (∀ f, f ∈ files ↔ yields fs (λ path _, path) (λ child, Ok child : result IntegrationError string)
                        root f) ∧
    Forall (readable fs) files ∧
    sr_descriptors report = omap (describe fs) (sort_paths files) ∧
    sr_scanned_files report = sat_add 0 (len files) ∧
    sr_matched_plugins report = sat_add 0 (len (sr_descriptors report)).
Proof.
  unfold scan_path, collect_files. destruct (fs_exists fs root); simpl; [|done].
  destruct (walk _ _ _ _ fuel root) as [[files|]|] eqn:Hw; [|done..].
  destruct (for_each _ _ _) as [[[]|] r] eqn:Hf; [|done]. intros [= <-].
  apply scan_loop_Ok in Hf as [Hr ->]; [|by unfold is_u64, u64_max; simpl; lia..].
  exists files. split_and!; [by eapply walk_spec| | | |]; simpl; try done.
  - by rewrite sort_paths_Permutation in Hr.
  - by rewrite sort_paths_Permutation.
Qed.

(** Scanning terminates: on a file system without directory cycles, fuel
    above the root's rank gives an answer. *)
Theorem scan_terminates fs rank fuel root :
  ranked fs rank → rank root < fuel →
  is_Some (scan_path manifest_from_str to_lowercase fs fuel root).
Proof.
  intros Hr Hf. unfold scan_path, collect_files. destruct (fs_exists fs root); simpl; [|eauto].
  destruct (walk_total fs PluginFileRead (λ path _, path) (λ child, Ok child) rank fuel root Hr Hf)
    as [[] ->]; eauto.
Qed.
End results.

(** The closing leader of a block comment is not removed: the list of
    leaders tries the single star before the star with a slash, so a line
    that closes a block comment leaves a slash in the manifest text. *)
Theorem block_comment_close_leaves_slash rest :
  clean_manifest_line (String "*" (String "/" rest)) = trim_start (String "/" rest).
Proof. unfold clean_manifest_line, trim_start at 2. simpl. by destruct rest. Qed.

(** ** A concrete tree *)
Module PluginDemo.
Definition manifest : PluginManifest :=
  mkPluginManifest "p" "crm" "crm-connector" (Some "primary") None {[NetworkEgress]} ∅ None [] [] []
    false.

Definition from_str (s : string) : result string PluginManifest :=
  if decide (s = "{}") then Ok manifest else Err "not a manifest".

Definition source : string := "x " +:+ START +:+ commented "//" ["{}"] +:+ END_ +:+ " y".

(** A root with one plugin and a skipped directory. *)
Definition tree : FileSystem :=
  {| fs_exists := λ p, bool_decide (p = "root");
     fs_metadata := λ p, if decide (p = "root") then Ok (false, 0%Z) else Ok (true, 10%Z);
     fs_read_dir := λ p, if decide (p = "root") then Ok [Ok "root/.git"; Ok "root/a.rs"] else Ok [];
     fs_is_dir := λ p, bool_decide (p = "root/.git");
     fs_is_file := λ p, bool_decide (p = "root/a.rs");
     fs_read := λ p, Ok source |}.

Definition rank (p : string) : nat := if decide (p = "root") then 1 else 0.

Lemma absorb_witness :
  pk_granted_capabilities
    (absorb (mkPluginScanReport 1 1 [mkPluginDescriptor "a.rs" "rs" manifest])
       (IntegrationCatalog_new, IntegrationDemo.pack)).2.2 =
  {[InvokeTool]} ∪ capabilities_of [mkPluginDescriptor "a.rs" "rs" manifest].
Proof.
  pose proof (absorb_all_or_nothing (mkPluginScanReport 1 1 [mkPluginDescriptor "a.rs" "rs" manifest])
    IntegrationCatalog_new IntegrationDemo.pack catalog_new_wf) as H.
  destruct (absorb _ _) as [[a|e] [c' p']] eqn:Ha.
  - exact (proj1 (proj2 (proj2 (proj2 H)))).
  - destruct H as [[] _]. by repeat constructor.
Defined.

Lemma commented_manifest_witness :
  parse_manifest_block from_str source "a.rs" = Ok (Some manifest).
Proof.
  unfold source. rewrite (commented_manifest_roundtrip from_str "//" ["{}"] "x " " y" "a.rs");
    [reflexivity|by apply (bool_decide_unpack _)|by repeat constructor|reflexivity|reflexivity].
Defined.

Lemma scan_witness :
  match scan_path from_str (λ s, s) tree 2 "root" with
  | Some (Ok report) => sr_matched_plugins report = sat_add 0 (len (sr_descriptors report))
  | _ => False
  end.
Proof.
  destruct (scan_path from_str (λ s, s) tree 2 "root") as [[report|]|] eqn:Hs.
  - destruct (scan_reports_visible_manifests from_str (λ s, s) tree 2 "root" report Hs)
      as (files & _ & _ & _ & _ & Hm). exact Hm.
  - vm_compute in Hs. discriminate.
  - vm_compute in Hs. discriminate.
Defined.

Lemma scan_terminates_witness : is_Some (scan_path from_str (λ s, s) tree 2 "root").
Proof.
  apply (scan_terminates from_str (λ s, s) tree rank); [|vm_compute; lia].
  intros path entries child Hd Hin Hc. simpl in Hd, Hc. apply bool_decide_eq_true in Hc as ->.
  unfold rank. case_decide; [simpl; lia|]. injection Hd as <-.
  by apply not_elem_of_nil in Hin.
Defined.
End PluginDemo.
