(* ===== verification/PluginIR.v ===== *)
(** * PluginIR: plugin translation and activation planning
    (kernel/src/plugin_ir.rs)

    Descriptors are translated to an intermediate form with an inferred
    runtime profile; a support matrix then decides which plugins can be
    activated. *)
From S2P Require Import Prelude RustStr Contracts Errors Integration Fs Plugin.

Inductive PluginBridgeKind :=
| HttpJson | ProcessStdio | NativeFfi | WasmComponent | McpServer | AcpBridge | AcpRuntime
| UnknownBridge.

#[export] Instance PluginBridgeKind_eq_dec : EqDecision PluginBridgeKind.
Proof. solve_decision. Defined.

Definition all_bridge_kinds : list PluginBridgeKind :=
  [HttpJson; ProcessStdio; NativeFfi; WasmComponent; McpServer; AcpBridge; AcpRuntime; UnknownBridge].

#[export] Program Instance PluginBridgeKind_finite : finite.Finite PluginBridgeKind :=
  {| finite.enum := all_bridge_kinds |}.
Next Obligation. by apply (bool_decide_unpack _). Qed.
Next Obligation. intros []; by apply (bool_decide_unpack _). Qed.
#[export] Instance PluginBridgeKind_countable : Countable PluginBridgeKind := finite.finite_countable.

(** [PluginBridgeKind::as_str] *)
Definition PluginBridgeKind_as_str (k : PluginBridgeKind) : string :=
  match k with
  | HttpJson => "http_json"
  | ProcessStdio => "process_stdio"
  | NativeFfi => "native_ffi"
  | WasmComponent => "wasm_component"
  | McpServer => "mcp_server"
  | AcpBridge => "acp_bridge"
  | AcpRuntime => "acp_runtime"
  | UnknownBridge => "unknown"
  end.

Record PluginRuntimeProfile := mkPluginRuntimeProfile {
  rp_source_language : string;
  rp_bridge_kind : PluginBridgeKind;
  rp_adapter_family : string;
  rp_entrypoint_hint : string;
}.

Record PluginIR := mkPluginIR {
  ir_plugin_id : string;
  ir_provider_id : string;
  ir_connector_name : string;
  ir_channel_id : option string;
  ir_endpoint : option string;
  ir_capabilities : gset Capability;
  ir_metadata : gmap string string;
  ir_source_path : string;
  ir_runtime : PluginRuntimeProfile;
}.

Record PluginTranslationReport := mkPluginTranslationReport {
  tr_translated_plugins : Z;
  tr_bridge_distribution : gmap string Z;
  tr_entries : list PluginIR;
}.

Definition PluginTranslationReport_default : PluginTranslationReport :=
  mkPluginTranslationReport 0 ∅ [].

Inductive PluginActivationStatus :=
| ActivationReady | BlockedUnsupportedBridge | BlockedUnsupportedAdapterFamily.

#[export] Instance PluginActivationStatus_eq_dec : EqDecision PluginActivationStatus.
Proof. solve_decision. Defined.

Record PluginActivationCandidate := mkPluginActivationCandidate {
  pa_plugin_id : string;
  pa_source_path : string;
  pa_bridge_kind : PluginBridgeKind;
  pa_adapter_family : string;
  pa_status : PluginActivationStatus;
  pa_reason : string;
  pa_bootstrap_hint : string;
}.

Record PluginActivationPlan := mkPluginActivationPlan {
  ap_total_plugins : Z;
  ap_ready_plugins : Z;
  ap_blocked_plugins : Z;
  ap_candidates : list PluginActivationCandidate;
}.

Definition PluginActivationPlan_default : PluginActivationPlan := mkPluginActivationPlan 0 0 0 [].

Definition PluginActivationPlan_has_blockers (p : PluginActivationPlan) : bool :=
  (0 <? ap_blocked_plugins p)%Z.

Record BridgeSupportMatrix := mkBridgeSupportMatrix {
  sm_supported_bridges : gset PluginBridgeKind;
  sm_supported_adapter_families : gset string;
}.

(** [BridgeSupportMatrix::default()]: every bridge but [Unknown]. *)
Definition BridgeSupportMatrix_default : BridgeSupportMatrix :=
  {| sm_supported_bridges := list_to_set
       [HttpJson; ProcessStdio; NativeFfi; WasmComponent; McpServer; AcpBridge; AcpRuntime];
     sm_supported_adapter_families := ∅ |}.

Definition is_bridge_supported (m : BridgeSupportMatrix) (k : PluginBridgeKind) : bool :=
  bool_decide (k ∈ sm_supported_bridges m).

(** An empty family set supports every family. *)
Definition is_adapter_family_supported (m : BridgeSupportMatrix) (family : string) : bool :=
  bool_decide (sm_supported_adapter_families m = ∅) ||
  bool_decide (family ∈ sm_supported_adapter_families m).

(** ** Inference *)

(** [match s { "a" | "b" => v, .. }] as a table of arms. *)
Fixpoint match_str {A} (s : string) (arms : list (list string * A)) : option A :=
  match arms with
  | [] => None
  | (pats, v) :: arms => if decide (s ∈ pats) then Some v else match_str s arms
  end.

Definition normalize_language (language : string) : string :=
  let s := to_ascii_lowercase (trim language) in
  unwrap_or (match_str s
    [(["rs"], "rust"); (["py"], "python"); (["js"], "javascript"); (["ts"], "typescript");
     (["go"], "go"); (["wasm"], "wasm"); ([""], "unknown")]) s.

Definition parse_bridge_kind (raw : string) : option PluginBridgeKind :=
  match_str (to_ascii_lowercase (trim raw))
    [(["http_json"; "http"], HttpJson); (["process_stdio"; "stdio"], ProcessStdio);
     (["native_ffi"; "ffi"], NativeFfi); (["wasm_component"; "wasm"], WasmComponent);
     (["mcp_server"; "mcp"], McpServer); (["acp_bridge"; "acp"], AcpBridge);
     (["acp_runtime"; "acpx"], AcpRuntime); (["unknown"], UnknownBridge)].

Definition default_bridge_kind (language : string) (endpoint : option string) : PluginBridgeKind :=
  match match_str language
          [(["rust"; "go"; "c"; "cpp"; "cxx"], NativeFfi);
           (["python"; "javascript"; "typescript"; "java"], ProcessStdio);
           (["wasm"; "wat"], WasmComponent)] with
  | Some k => k
  | None =>
      match endpoint with
      | Some e => if starts_with "http://" e || starts_with "https://" e then HttpJson
                  else UnknownBridge
      | None => UnknownBridge
      end
  end.

Definition default_adapter_family (language : string) (k : PluginBridgeKind) : string :=
  match k with
  | HttpJson => "http-adapter"
  | ProcessStdio => language +:+ "-stdio-adapter"
  | NativeFfi => language +:+ "-ffi-adapter"
  | WasmComponent => "wasm-component-adapter"
  | McpServer => "mcp-adapter"
  | AcpBridge => "acp-bridge-adapter"
  | AcpRuntime => "acp-runtime-adapter"
  | UnknownBridge => language +:+ "-unknown-adapter"
  end.

Definition default_entrypoint_hint (k : PluginBridgeKind) (endpoint : option string) :
    option string :=
  match k with
  | HttpJson => Some (unwrap_or endpoint "https://localhost/invoke")
  | ProcessStdio => Some "stdin/stdout::invoke"
  | NativeFfi => Some "lib::invoke"
  | WasmComponent => Some "component::run"
  | McpServer => Some "mcp::stdio"
  | AcpBridge => Some "acp::bridge"
  | AcpRuntime => Some "acp::turn"
  | UnknownBridge => None
  end.

(** [Option::or_else] *)
Definition or_else {A} (o p : option A) : option A := match o with Some a => Some a | None => p end.

Definition infer_runtime_profile (language : string) (m : PluginManifest) : PluginRuntimeProfile :=
  let source_language := normalize_language language in
  let bridge_kind :=
    unwrap_or
      (or_else (pm_metadata m !! "bridge_kind" ≫= parse_bridge_kind)
         (value ← pm_metadata m !! "protocol";
          if eq_ignore_ascii_case value "mcp" then Some McpServer else None))
      (default_bridge_kind source_language (pm_endpoint m)) in
  {| rp_source_language := source_language;
     rp_bridge_kind := bridge_kind;
     rp_adapter_family := unwrap_or (pm_metadata m !! "adapter_family")
                            (default_adapter_family source_language bridge_kind);
     rp_entrypoint_hint := unwrap_or
       (or_else (pm_metadata m !! "entrypoint") (default_entrypoint_hint bridge_kind (pm_endpoint m)))
       "invoke" |}.

Definition bootstrap_hint (ir : PluginIR) : string :=
  let rt := ir_runtime ir in
  match rp_bridge_kind rt with
  | HttpJson => "register http connector adapter for " +:+ ir_connector_name ir +:+ " at " +:+
                unwrap_or (ir_endpoint ir) "https://localhost/invoke"
  | ProcessStdio => "spawn " +:+ rp_source_language rt +:+ " worker and bind stdio bridge " +:+
                    rp_entrypoint_hint rt
  | NativeFfi => "load native library adapter " +:+ rp_adapter_family rt +:+ " with symbol " +:+
                 rp_entrypoint_hint rt
  | WasmComponent => "load wasm component and invoke " +:+ rp_entrypoint_hint rt
  | McpServer => "register MCP server bridge and handshake capability schema"
  | AcpBridge => "register ACP bridge surface and bind the external gateway/runtime contract"
  | AcpRuntime => "register ACP runtime backend and bind a session-aware control plane"
  | UnknownBridge => "inspect plugin metadata and define explicit bridge_kind override"
  end.

(** ** PluginTranslator *)

Definition translate_descriptor (d : PluginDescriptor) : PluginIR :=
  let m := pd_manifest d in
  {| ir_plugin_id := pm_plugin_id m;
     ir_provider_id := pm_provider_id m;
     ir_connector_name := pm_connector_name m;
     ir_channel_id := pm_channel_id m;
     ir_endpoint := pm_endpoint m;
     ir_capabilities := pm_capabilities m;
     ir_metadata := pm_metadata m;
     ir_source_path := pd_path d;
     ir_runtime := infer_runtime_profile (pd_language d) m |}.

(** [*map.entry(key).or_insert(0) += 1] *)
Definition count_in (key : string) (m : gmap string Z) : gmap string Z :=
  <[key := (unwrap_or (m !! key) 0 + 1)%Z]> m.

Definition translate_step (t : PluginTranslationReport) (d : PluginDescriptor) :
    PluginTranslationReport :=
  let ir := translate_descriptor d in
  let bridge := PluginBridgeKind_as_str (rp_bridge_kind (ir_runtime ir)) in
  {| tr_bridge_distribution := count_in bridge (tr_bridge_distribution t);
     tr_translated_plugins := sat_add (tr_translated_plugins t) 1;
     tr_entries := tr_entries t ++ [ir] |}.

Definition translate_scan_report (report : PluginScanReport) : PluginTranslationReport :=
  foldl translate_step PluginTranslationReport_default (sr_descriptors report).

Definition activation_status (matrix : BridgeSupportMatrix) (ir : PluginIR) :
    PluginActivationStatus * string :=
  let rt := ir_runtime ir in
  if negb (is_bridge_supported matrix (rp_bridge_kind rt)) then
    (BlockedUnsupportedBridge,
     "bridge kind " +:+ PluginBridgeKind_as_str (rp_bridge_kind rt) +:+
     " is not supported by current runtime matrix")
  else if negb (is_adapter_family_supported matrix (rp_adapter_family rt)) then
    (BlockedUnsupportedAdapterFamily,
     "adapter family " +:+ rp_adapter_family rt +:+ " is not supported by current runtime matrix")
  else (ActivationReady, "plugin runtime profile is supported by current runtime matrix").

Definition activation_candidate (matrix : BridgeSupportMatrix) (ir : PluginIR) :
    PluginActivationCandidate :=
  {| pa_plugin_id := ir_plugin_id ir;
     pa_source_path := ir_source_path ir;
     pa_bridge_kind := rp_bridge_kind (ir_runtime ir);
     pa_adapter_family := rp_adapter_family (ir_runtime ir);
     pa_status := (activation_status matrix ir).1;
     pa_reason := (activation_status matrix ir).2;
     pa_bootstrap_hint := bootstrap_hint ir |}.

Definition plan_step (matrix : BridgeSupportMatrix) (plan : PluginActivationPlan) (ir : PluginIR) :
    PluginActivationPlan :=
  let ready := match (activation_status matrix ir).1 with
               | ActivationReady => true | _ => false end in
  {| ap_total_plugins := sat_add (ap_total_plugins plan) 1;
     ap_ready_plugins :=
       if ready then sat_add (ap_ready_plugins plan) 1 else ap_ready_plugins plan;
     ap_blocked_plugins :=
       if ready then ap_blocked_plugins plan else sat_add (ap_blocked_plugins plan) 1;
     ap_candidates := ap_candidates plan ++ [activation_candidate matrix ir] |}.

(** [PluginTranslator::plan_activation] *)
Definition plan_activation (translation : PluginTranslationReport) (matrix : BridgeSupportMatrix) :
    PluginActivationPlan :=
  foldl (plan_step matrix) PluginActivationPlan_default (tr_entries translation).

(** ** Results *)

(** The runtime matrix supports the plugin's profile. *)
Definition supported (matrix : BridgeSupportMatrix) (ir : PluginIR) : Prop :=
  rp_bridge_kind (ir_runtime ir) ∈ sm_supported_bridges matrix ∧
  (sm_supported_adapter_families matrix = ∅ ∨
   rp_adapter_family (ir_runtime ir) ∈ sm_supported_adapter_families matrix).

#[export] Instance supported_dec matrix ir : Decision (supported matrix ir).
Proof. unfold supported. apply _. Defined.

Lemma activation_status_ready matrix ir :
  (activation_status matrix ir).1 = ActivationReady ↔ supported matrix ir.
Proof.
  unfold activation_status, is_bridge_supported, is_adapter_family_supported, supported.
  repeat case_bool_decide; simpl; naive_solver.
Qed.

(** Canonical bridge names, in any case and with any surrounding white
    space, parse to the kind they name. *)
Theorem bridge_kind_roundtrip k raw :
  to_ascii_lowercase (trim raw) = PluginBridgeKind_as_str k → parse_bridge_kind raw = Some k.
Proof. unfold parse_bridge_kind. intros ->. by destruct k. Qed.

Lemma plan_fold matrix irs plan :
  is_u64 (ap_total_plugins plan) → is_u64 (ap_ready_plugins plan) →
  is_u64 (ap_blocked_plugins plan) →
  foldl (plan_step matrix) plan irs =
  {| ap_total_plugins := sat_add (ap_total_plugins plan) (len irs);
     ap_ready_plugins :=
       sat_add (ap_ready_plugins plan) (len (filter (λ ir, supported matrix ir) irs));
     ap_blocked_plugins :=
       sat_add (ap_blocked_plugins plan) (len (filter (λ ir, ¬ supported matrix ir) irs));
     ap_candidates := ap_candidates plan ++ (activation_candidate matrix <$> irs) |}.
Proof.
  assert (is_u64 1) as H1 by (unfold is_u64, u64_max; lia).
  revert plan. induction irs as [|ir irs IH]; intros plan Ht Hr Hb; simpl.
  - rewrite !sat_add_small by (unfold is_u64, len in *; simpl; lia). rewrite app_nil_r.
    destruct plan; simpl; f_equal; unfold len; simpl; lia.
  - rewrite !filter_cons. pose proof (activation_status_ready matrix ir) as Hs.
    pose proof (len_nonneg irs). pose proof (len_nonneg (filter (λ ir, supported matrix ir) irs)).
    pose proof (len_nonneg (filter (λ ir, ¬ supported matrix ir) irs)).
    rewrite IH by (simpl; repeat case_match; auto using sat_add_range). simpl.
    rewrite <-app_assoc, len_cons.
    destruct (decide (supported matrix ir)) as [Hsup|Hsup].
    + rewrite (proj2 Hs Hsup), decide_False by tauto. rewrite len_cons.
      f_equal; unfold sat_add, is_u64, u64_max in *; lia.
    + rewrite decide_True by done. rewrite len_cons.
      destruct (activation_status matrix ir).1; [naive_solver|..];
        f_equal; unfold sat_add, is_u64, u64_max in *; lia.
Qed.

(** An activation plan is exact: one candidate per translated plugin in
    order, ready exactly when the matrix supports its bridge and its adapter
    family, and the three counters count them. *)
Theorem activation_plan_exact translation matrix :
  let plan := plan_activation translation matrix in
  let entries := tr_entries translation in
  ap_candidates plan = activation_candidate matrix <$> entries ∧
  (∀ ir, pa_status (activation_candidate matrix ir) = ActivationReady ↔ supported matrix ir) ∧
  ap_total_plugins plan = sat_add 0 (len entries) ∧
  ap_ready_plugins plan = sat_add 0 (len (filter (λ ir, supported matrix ir) entries)) ∧
  ap_blocked_plugins plan = sat_add 0 (len (filter (λ ir, ¬ supported matrix ir) entries)) ∧
  (PluginActivationPlan_has_blockers plan = false ↔ Forall (supported matrix) entries).
Proof.
  simpl. unfold plan_activation.
  rewrite plan_fold by (unfold is_u64, u64_max; simpl; lia). simpl.
  split_and!; try done; [apply activation_status_ready|].
  unfold PluginActivationPlan_has_blockers. simpl. rewrite Z.ltb_ge.
  by rewrite sat_len_zero, filter_not_nil.
Qed.

(** ** Bridge distribution *)

(** How many entries have the bridge named [key]. *)
Definition bridge_count (key : string) (irs : list PluginIR) : Z :=
  len (filter (λ ir, PluginBridgeKind_as_str (rp_bridge_kind (ir_runtime ir)) = key) irs).

Lemma unwrap_count_in key k (m : gmap string Z) :
  unwrap_or (count_in k m !! key) 0%Z =
  (unwrap_or (m !! key) 0 + if decide (k = key) then 1 else 0)%Z.
Proof.
  unfold count_in. rewrite lookup_insert. case_decide; simplify_eq; [done|].
  simpl. destruct (m !! key); simpl; lia.
Qed.

Lemma translate_fold ds t :
  is_u64 (tr_translated_plugins t) →
  let t' := foldl translate_step t ds in
  tr_entries t' = tr_entries t ++ (translate_descriptor <$> ds) ∧
  tr_translated_plugins t' = sat_add (tr_translated_plugins t) (len ds) ∧
  ∀ key, unwrap_or (tr_bridge_distribution t' !! key) 0%Z =
    (unwrap_or (tr_bridge_distribution t !! key) 0 +
     bridge_count key (translate_descriptor <$> ds))%Z.
Proof.
  assert (is_u64 1) as H1 by (unfold is_u64, u64_max; lia).
  revert t. induction ds as [|d ds IH]; intros t Ht; simpl.
  - rewrite app_nil_r, sat_add_small by (unfold is_u64, len in *; simpl; lia).
    split_and!; [done|unfold len; simpl; lia|]. intros key. unfold bridge_count, len. simpl. lia.
  - destruct (IH (translate_step t d)) as (-> & -> & Hd); [by apply sat_add_range|].
    change (tr_bridge_distribution (translate_step t d)) with
      (count_in (PluginBridgeKind_as_str (rp_bridge_kind (ir_runtime (translate_descriptor d))))
         (tr_bridge_distribution t)) in Hd.
    change (tr_entries (translate_step t d)) with (tr_entries t ++ [translate_descriptor d]).
    change (tr_translated_plugins (translate_step t d)) with (sat_add (tr_translated_plugins t) 1).
    rewrite <-app_assoc, len_cons. pose proof (len_nonneg ds). split_and!; [done| |].
    + unfold sat_add, is_u64, u64_max in *. lia.
    + intros key. rewrite Hd, unwrap_count_in. fold (translate_descriptor <$> ds).
      unfold bridge_count. rewrite filter_cons.
      repeat case_decide; try congruence; rewrite ?len_cons; lia.
Qed.

Lemma translate_entries report :
  tr_entries (translate_scan_report report) = translate_descriptor <$> sr_descriptors report.
Proof.
  apply (translate_fold (sr_descriptors report) PluginTranslationReport_default).
  unfold is_u64, u64_max. simpl. lia.
Qed.

(** Translation keeps every plugin, in order, and its bridge distribution
    counts the entries of each bridge kind. *)
Theorem translation_distribution_exact report key :
  let t := translate_scan_report report in
  tr_entries t = translate_descriptor <$> sr_descriptors report ∧
  tr_translated_plugins t = sat_add 0 (len (tr_entries t)) ∧
  unwrap_or (tr_bridge_distribution t !! key) 0%Z = bridge_count key (tr_entries t).
Proof.
  simpl. unfold translate_scan_report.
  destruct (translate_fold (sr_descriptors report) PluginTranslationReport_default)
    as (-> & -> & Hd); [unfold is_u64, u64_max; simpl; lia|].
  split_and!; [done| |by rewrite Hd].
  simpl. unfold len. by rewrite length_fmap.
Qed.

(** A name with odd case and white space. *)
Lemma bridge_kind_witness : parse_bridge_kind "  MCP_Server " = Some McpServer.
Proof. apply bridge_kind_roundtrip. reflexivity. Defined.
