(* ===== verification/Bootstrap.v ===== *)
(** * Bootstrap: applying an activation plan (kernel/src/bootstrap.rs)

    The executor goes through the candidates of an activation plan and decides
    for each whether it is applied, deferred or skipped. *)
From S2P Require Import Prelude RustStr Contracts Errors Integration Fs Plugin PluginIR.

Record BootstrapPolicy := mkBootstrapPolicy {
  bo_allow_http_json_auto_apply : bool;
  bo_allow_process_stdio_auto_apply : bool;
  bo_allow_native_ffi_auto_apply : bool;
  bo_allow_wasm_component_auto_apply : bool;
  bo_allow_mcp_server_auto_apply : bool;
  bo_allow_acp_bridge_auto_apply : bool;
  bo_allow_acp_runtime_auto_apply : bool;
  bo_enforce_ready_execution : bool;
  bo_max_tasks : Z;
}.

(** [BootstrapPolicy::default()] *)
Definition BootstrapPolicy_default : BootstrapPolicy :=
  mkBootstrapPolicy true false false false false false false false 256.

Inductive BootstrapTaskStatus :=
| Applied | DeferredUnsupportedAutoApply | SkippedNotReady | SkippedByPolicyLimit.

#[export] Instance BootstrapTaskStatus_eq_dec : EqDecision BootstrapTaskStatus.
Proof. solve_decision. Defined.

Record BootstrapTask := mkBootstrapTask {
  bt_plugin_id : string;
  bt_source_path : string;
  bt_bridge_kind : PluginBridgeKind;
  bt_adapter_family : string;
  bt_bootstrap_hint : string;
  bt_status : BootstrapTaskStatus;
  bt_reason : string;
}.

Record BootstrapReport := mkBootstrapReport {
  br_total_tasks : Z;
  br_applied_tasks : Z;
  br_deferred_tasks : Z;
  br_skipped_tasks : Z;
  br_blocked : bool;
  br_block_reason : option string;
  br_applied_plugin_keys : gset (string * string);
  br_tasks : list BootstrapTask;
}.

Definition BootstrapReport_default : BootstrapReport :=
  mkBootstrapReport 0 0 0 0 false None ∅ [].

Definition bridge_auto_apply_allowed (bridge : PluginBridgeKind) (policy : BootstrapPolicy) : bool :=
  match bridge with
  | HttpJson => bo_allow_http_json_auto_apply policy
  | ProcessStdio => bo_allow_process_stdio_auto_apply policy
  | NativeFfi => bo_allow_native_ffi_auto_apply policy
  | WasmComponent => bo_allow_wasm_component_auto_apply policy
  | McpServer => bo_allow_mcp_server_auto_apply policy
  | AcpBridge => bo_allow_acp_bridge_auto_apply policy
  | AcpRuntime => bo_allow_acp_runtime_auto_apply policy
  | UnknownBridge => false
  end.

Definition bootstrap_task (c : PluginActivationCandidate) (status : BootstrapTaskStatus)
    (reason : string) : BootstrapTask :=
  {| bt_plugin_id := pa_plugin_id c; bt_source_path := pa_source_path c;
     bt_bridge_kind := pa_bridge_kind c; bt_adapter_family := pa_adapter_family c;
     bt_bootstrap_hint := pa_bootstrap_hint c; bt_status := status; bt_reason := reason |}.

Definition push_task (t : BootstrapTask) (r : BootstrapReport) : BootstrapReport :=
  mkBootstrapReport (br_total_tasks r) (br_applied_tasks r) (br_deferred_tasks r)
    (br_skipped_tasks r) (br_blocked r) (br_block_reason r) (br_applied_plugin_keys r)
    (br_tasks r ++ [t]).

(** One turn of the loop; the state is the report and [ready_handled]. *)
Definition bootstrap_step (policy : BootstrapPolicy) (st : BootstrapReport * Z)
    (c : PluginActivationCandidate) : BootstrapReport * Z :=
  let '(r, ready_handled) := st in
  let total := sat_add (br_total_tasks r) 1 in
  let skip r t := push_task t (mkBootstrapReport total (br_applied_tasks r) (br_deferred_tasks r)
                    (sat_add (br_skipped_tasks r) 1) (br_blocked r) (br_block_reason r)
                    (br_applied_plugin_keys r) (br_tasks r)) in
  match pa_status c with
  | ActivationReady =>
      if (bo_max_tasks policy <=? ready_handled)%Z then
        (skip r (bootstrap_task c SkippedByPolicyLimit
           ("max bootstrap task limit reached: " +:+ display (bo_max_tasks policy))), ready_handled)
      else
        let ready_handled := sat_add ready_handled 1 in
        if bridge_auto_apply_allowed (pa_bridge_kind c) policy then
          (push_task (bootstrap_task c Applied "bridge is allowed for automatic bootstrap apply")
             (mkBootstrapReport total (sat_add (br_applied_tasks r) 1) (br_deferred_tasks r)
                (br_skipped_tasks r) (br_blocked r) (br_block_reason r)
                (br_applied_plugin_keys r ∪ {[(pa_source_path c, pa_plugin_id c)]}) (br_tasks r)),
           ready_handled)
        else
          (push_task (bootstrap_task c DeferredUnsupportedAutoApply
                        "bridge is ready but auto-apply is disabled by bootstrap policy")
             (mkBootstrapReport total (br_applied_tasks r) (sat_add (br_deferred_tasks r) 1)
                (br_skipped_tasks r) (br_blocked r) (br_block_reason r)
                (br_applied_plugin_keys r) (br_tasks r)), ready_handled)
  | _ => (skip r (bootstrap_task c SkippedNotReady "activation status is not ready"), ready_handled)
  end.

(** [PluginBootstrapExecutor::execute] *)
Definition bootstrap_execute (plan : PluginActivationPlan) (policy : BootstrapPolicy) :
    BootstrapReport :=
  let '(r, _) := foldl (bootstrap_step policy) (BootstrapReport_default, 0%Z) (ap_candidates plan) in
  if bo_enforce_ready_execution policy && (0 <? br_deferred_tasks r)%Z then
    mkBootstrapReport (br_total_tasks r) (br_applied_tasks r) (br_deferred_tasks r)
      (br_skipped_tasks r) true
      (Some ("bootstrap policy blocked " +:+ display (br_deferred_tasks r) +:+
             " ready plugin(s) that were not auto-applied"))
      (br_applied_plugin_keys r) (br_tasks r)
  else r.

(** ** Results *)

(** The tasks with a status. *)
Definition with_status (P : BootstrapTaskStatus → bool) (ts : list BootstrapTask) :
    list BootstrapTask := filter (λ t, P (bt_status t) = true) ts.

Definition is_applied (s : BootstrapTaskStatus) : bool := bool_decide (s = Applied).
Definition is_deferred (s : BootstrapTaskStatus) : bool :=
  bool_decide (s = DeferredUnsupportedAutoApply).
Definition is_skipped (s : BootstrapTaskStatus) : bool :=
  match s with SkippedNotReady | SkippedByPolicyLimit => true | _ => false end.
Definition is_handled (s : BootstrapTaskStatus) : bool := is_applied s || is_deferred s.

(** The loop's invariant after the candidates [cs]. *)
Record bootstrapped (policy : BootstrapPolicy) (cs : list PluginActivationCandidate)
    (st : BootstrapReport * Z) : Prop := {
  bs_total : br_total_tasks st.1 = sat_add 0 (len cs);
  bs_applied : br_applied_tasks st.1 = sat_add 0 (len (with_status is_applied (br_tasks st.1)));
  bs_deferred : br_deferred_tasks st.1 = sat_add 0 (len (with_status is_deferred (br_tasks st.1)));
  bs_skipped : br_skipped_tasks st.1 = sat_add 0 (len (with_status is_skipped (br_tasks st.1)));
  bs_handled : st.2 = len (with_status is_handled (br_tasks st.1));
  bs_limit : (st.2 ≤ bo_max_tasks policy)%Z;
  bs_unblocked : br_blocked st.1 = false;
  bs_keys : br_applied_plugin_keys st.1 =
    list_to_set ((λ t, (bt_source_path t, bt_plugin_id t)) <$> with_status is_applied (br_tasks st.1));
  bs_tasks : Forall2 (λ c t, bt_plugin_id t = pa_plugin_id c ∧ bt_source_path t = pa_source_path c ∧
      bt_bridge_kind t = pa_bridge_kind c ∧
      (bt_status t = SkippedNotReady ↔ pa_status c ≠ ActivationReady) ∧
      (bt_status t = Applied → bridge_auto_apply_allowed (pa_bridge_kind c) policy = true) ∧
      (bt_status t = DeferredUnsupportedAutoApply →
         bridge_auto_apply_allowed (pa_bridge_kind c) policy = false))
    cs (br_tasks st.1);
}.

Lemma with_status_snoc P ts t :
  with_status P (ts ++ [t]) = with_status P ts ++ (if P (bt_status t) then [t] else []).
Proof.
  unfold with_status. rewrite filter_app, filter_cons, filter_nil.
  by destruct (P (bt_status t)).
Qed.


Lemma bootstrap_step_inv policy cs st c :
  is_u64 (bo_max_tasks policy) → bootstrapped policy cs st →
  bootstrapped policy (cs ++ [c]) (bootstrap_step policy st c).
Proof.
  destruct st as [r n]. intros Hmax [Ht Ha Hd Hs Hh Hl Hb Hk Hf]. simpl in *.
  unfold bootstrap_step. destruct (pa_status c) eqn:Hc;
    [destruct (Z.leb_spec (bo_max_tasks policy) n);
       [|destruct (bridge_auto_apply_allowed (pa_bridge_kind c) policy) eqn:Hal]|..];
    split; simpl; rewrite ?with_status_snoc; simpl; rewrite ?app_nil_r, <-?sat_add_snoc;
    rewrite ?Ht, ?Ha, ?Hd, ?Hs, ?Hk; try done;
    try (apply Forall2_app; [done|]; constructor; [|constructor]; simpl; rewrite Hc; done);
    try (rewrite sat_add_small by (unfold is_u64 in *; lia); rewrite ?len_app, ?Hh; unfold len; simpl; lia);
    try lia.
  all: try (unfold sat_add; lia).
  rewrite fmap_app, list_to_set_app_L. simpl. set_solver.
Qed.

Lemma bootstrap_fold policy cs st handled :
  is_u64 (bo_max_tasks policy) → bootstrapped policy handled st →
  bootstrapped policy (handled ++ cs) (foldl (bootstrap_step policy) st cs).
Proof.
  intros Hmax. revert handled st. induction cs as [|c cs IH]; intros handled st Hst; simpl.
  - by rewrite app_nil_r.
  - replace (handled ++ c :: cs) with ((handled ++ [c]) ++ cs) by (by rewrite <-app_assoc).
    apply IH. by apply bootstrap_step_inv.
Qed.

Lemma bootstrap_start policy : is_u64 (bo_max_tasks policy) →
  bootstrapped policy [] (BootstrapReport_default, 0%Z).
Proof. intros [? _]. split; simpl; try done. Qed.

(** Bootstrapping is exact and bounded: one task per candidate in order,
    a task is skipped as not ready exactly when its candidate is, only
    bridges the policy allows are applied (an unknown bridge never is), at
    most [max_tasks] ready plugins are handled, counters and applied keys
    match the tasks, and the run is blocked exactly when the policy enforces
    execution and some ready plugin was deferred. *)
Theorem bootstrap_report_exact plan policy : is_u64 (bo_max_tasks policy) →
  let r := bootstrap_execute plan policy in
  Forall2 (λ c t, bt_plugin_id t = pa_plugin_id c ∧
      (bt_status t = SkippedNotReady ↔ pa_status c ≠ ActivationReady) ∧
      (bt_status t = Applied → bridge_auto_apply_allowed (pa_bridge_kind c) policy = true))
    (ap_candidates plan) (br_tasks r) ∧
  (len (with_status is_handled (br_tasks r)) ≤ bo_max_tasks policy)%Z ∧
  br_applied_tasks r = sat_add 0 (len (with_status is_applied (br_tasks r))) ∧
  br_deferred_tasks r = sat_add 0 (len (with_status is_deferred (br_tasks r))) ∧
  br_skipped_tasks r = sat_add 0 (len (with_status is_skipped (br_tasks r))) ∧
  br_applied_plugin_keys r =
    list_to_set ((λ t, (bt_source_path t, bt_plugin_id t)) <$> with_status is_applied (br_tasks r)) ∧
  (br_blocked r = true ↔
    bo_enforce_ready_execution policy = true ∧ with_status is_deferred (br_tasks r) ≠ []).
Proof.
  intros Hmax. unfold bootstrap_execute.
  pose proof (bootstrap_fold policy (ap_candidates plan) _ [] Hmax (bootstrap_start policy Hmax)) as Hi.
  destruct (foldl _ _ _) as [r n]. destruct Hi as [_ Ha Hd Hs Hh Hl Hb Hk Hf]. simpl in *.
  assert ((0 <? br_deferred_tasks r)%Z = true ↔ with_status is_deferred (br_tasks r) ≠ []) as Hdef.
  { rewrite Z.ltb_lt, Hd, <-(sat_len_zero (with_status is_deferred (br_tasks r))). lia. }
  assert (Forall2 (λ c t, bt_plugin_id t = pa_plugin_id c ∧
      (bt_status t = SkippedNotReady ↔ pa_status c ≠ ActivationReady) ∧
      (bt_status t = Applied → bridge_auto_apply_allowed (pa_bridge_kind c) policy = true))
    (ap_candidates plan) (br_tasks r)) as Hf'.
  { eapply Forall2_impl; [exact Hf|]. naive_solver. }
  destruct (bo_enforce_ready_execution policy && (0 <? br_deferred_tasks r)%Z) eqn:Hblock; simpl.
  - apply andb_true_iff in Hblock as [-> Hx]. apply Hdef in Hx. split_and!; try done. lia.
  - split_and!; try done; [lia|]. rewrite Hb. split; [done|]. intros [He Hx].
    apply Hdef in Hx. by rewrite He, Hx in Hblock.
Qed.

(** Enforcement looks only at deferred tasks: a ready plugin that the
    task limit leaves out does not block the run, although it was not
    auto-applied either. *)
Theorem limit_skips_evade_enforcement :
  let policy := mkBootstrapPolicy true false false false false false false true 0 in
  let c := mkPluginActivationCandidate "p" "a.rs" HttpJson "http-adapter" ActivationReady "" "" in
  let r := bootstrap_execute (mkPluginActivationPlan 1 1 0 [c]) policy in
  br_blocked r = false ∧ br_applied_tasks r = 0%Z ∧
  (bt_status <$> br_tasks r) = [SkippedByPolicyLimit].
Proof. done. Qed.

Lemma bootstrap_witness :
  (len (with_status is_handled (br_tasks (bootstrap_execute
     (mkPluginActivationPlan 1 1 0
        [mkPluginActivationCandidate "p" "a.rs" HttpJson "http-adapter" ActivationReady "" ""])
     BootstrapPolicy_default))) ≤ 256)%Z.
Proof.
  apply (bootstrap_report_exact (mkPluginActivationPlan 1 1 0
    [mkPluginActivationCandidate "p" "a.rs" HttpJson "http-adapter" ActivationReady "" ""])
    BootstrapPolicy_default). unfold is_u64, u64_max. simpl. lia.
Defined.
