(* ===== verification/Awareness.v ===== *)
(** * Awareness: codebase snapshots (kernel/src/awareness.rs)

    A snapshot walks the configured roots, counts languages, scans for
    plugins, evaluates proposed mutations and computes an FNV-1a fingerprint
    of the files it saw. *)
From S2P Require Import Prelude RustStr Contracts Errors Integration Architecture Fs Plugin.
From S2P Require Import PluginIR.
From Stdlib Require Import Ascii.

Record CodebaseAwarenessConfig := mkCodebaseAwarenessConfig {
  aw_roots : list string;
  aw_plugin_roots : list string;
  aw_proposed_mutations : list string;
  aw_architecture_policy : ArchitectureBoundaryPolicy;
}.

Definition CodebaseAwarenessConfig_default : CodebaseAwarenessConfig :=
  mkCodebaseAwarenessConfig ["."] [] [] ArchitectureBoundaryPolicy_default.

Record CodebaseAwarenessSnapshot := mkCodebaseAwarenessSnapshot {
  sn_scanned_roots : list string;
  sn_scanned_files : Z;
  sn_language_distribution : gmap string Z;
  sn_deterministic_fingerprint : string;
  sn_plugin_scan_reports : list PluginScanReport;
  sn_plugin_translation_reports : list PluginTranslationReport;
  sn_plugin_inventory : list PluginIR;
  sn_architecture_guard : ArchitectureGuardReport;
}.

Record FileFact := mkFileFact { ff_path : string; ff_size_bytes : Z; ff_language : string }.

(** [detect_language] *)
Definition awareness_detect_language (path : string) : string :=
  let ext := match extension path with
             | Some e => to_ascii_lowercase e | None => "unknown" end in
  unwrap_or (match_str ext
    [(["rs"], "rust"); (["py"], "python"); (["go"], "go"); (["js"], "javascript");
     (["ts"], "typescript"); (["toml"], "toml"); (["md"], "markdown"); (["json"], "json");
     (["yaml"; "yml"], "yaml")]) ext.

(** [normalize_path] *)
Definition normalize_path (path : string) : string :=
  trim_start_matches "./" (replace_char backslash "/"%char path).

Definition file_fact (path : string) (size : Z) : FileFact :=
  mkFileFact (normalize_path path) size (awareness_detect_language path).

(** [collect_file_facts] *)
Definition collect_file_facts (fs : FileSystem) (fuel : nat) (root : string) :
    option (result IntegrationError (list FileFact)) :=
  walk fs AwarenessFileRead file_fact
    (λ child, '(_, size) ← map_err (AwarenessFileRead child) (fs_metadata fs child);
              Ok (file_fact child size)) fuel root.

(** [left.path.cmp(&right.path)] *)
Definition fact_le (f g : FileFact) : Prop := String.le (ff_path f) (ff_path g).
#[export] Instance fact_le_dec : RelDecision fact_le.
Proof. intros f g. unfold fact_le. apply _. Defined.
#[export] Instance fact_le_total : Total fact_le.
Proof. intros f g. apply String.le_total. Qed.
#[export] Instance fact_le_trans : Transitive fact_le.
Proof. intros f g h. unfold fact_le. intros. by etrans. Qed.

Definition sort_facts (facts : list FileFact) : list FileFact := stable_sort fact_le facts.

(** ** Fingerprint *)
Definition OFFSET_BASIS : Z := 0xcbf29ce484222325.
Definition PRIME : Z := 0x100000001b3.

(** [hash ^= byte; hash = hash.wrapping_mul(PRIME)] *)
Definition fnv_step (hash : Z) (b : ascii) : Z :=
  wrap64 (Z.lxor hash (Z.of_N (byte b)) * PRIME).

Fixpoint fnv_bytes (hash : Z) (s : string) : Z :=
  match s with "" => hash | String a s => fnv_bytes (fnv_step hash a) s end.

(** [format!("{}:{}:{}\n", path, size_bytes, language)] *)
Definition fact_row (f : FileFact) : string :=
  ff_path f +:+ ":" +:+ display (ff_size_bytes f) +:+ ":" +:+ ff_language f +:+ String newline "".

Definition fingerprint (facts : list FileFact) : string :=
  hex016 (foldl (λ hash f, fnv_bytes hash (fact_row f)) OFFSET_BASIS facts).

(** ** Snapshots *)

(** The loop over the roots; [None] is out of fuel. *)
Fixpoint collect_roots (fs : FileSystem) (fuel : nat) (roots : list string) :
    option (result IntegrationError (list FileFact)) :=
  match roots with
  | [] => Some (Ok [])
  | root :: roots =>
      if negb (fs_exists fs root) then Some (Err (AwarenessRootNotFound root))
      else
        match collect_file_facts fs fuel root with
        | Some (Ok facts) =>
            match collect_roots fs fuel roots with
            | Some (Ok rest) => Some (Ok (facts ++ rest))
            | other => other
            end
        | other => other
        end
  end.

Definition language_distribution (facts : list FileFact) : gmap string Z :=
  foldl (λ m f, count_in (ff_language f) m) ∅ facts.

Section snapshot.
  Context (manifest_from_str : string → result string PluginManifest).
  Context (to_lowercase : string → string).

(** The loop over the plugin roots. *)
Fixpoint scan_roots (fs : FileSystem) (fuel : nat) (roots : list string) :
    option (result IntegrationError (list PluginScanReport)) :=
  match roots with
  | [] => Some (Ok [])
  | root :: roots =>
      match scan_path manifest_from_str to_lowercase fs fuel root with
      | Some (Ok report) =>
          match scan_roots fs fuel roots with
          | Some (Ok rest) => Some (Ok (report :: rest))
          | other => other
          end
      | Some (Err e) => Some (Err e)
      | None => None
      end
  end.

(** [CodebaseAwarenessEngine::snapshot] *)
Definition snapshot (fs : FileSystem) (fuel : nat) (config : CodebaseAwarenessConfig) :
    option (result IntegrationError CodebaseAwarenessSnapshot) :=
  let roots := match aw_roots config with [] => ["."] | rs => rs end in
  match collect_roots fs fuel roots with
  | None => None
  | Some (Err e) => Some (Err e)
  | Some (Ok file_facts) =>
      let file_facts := sort_facts file_facts in
      let plugin_roots := match aw_plugin_roots config with [] => roots | rs => rs end in
      match scan_roots fs fuel plugin_roots with
      | None => None
      | Some (Err e) => Some (Err e)
      | Some (Ok reports) =>
          let translations := translate_scan_report <$> reports in
          Some (Ok {| sn_scanned_roots := roots;
                      sn_scanned_files := len file_facts;
                      sn_language_distribution := language_distribution file_facts;
                      sn_deterministic_fingerprint := fingerprint file_facts;
                      sn_plugin_scan_reports := reports;
                      sn_plugin_translation_reports := translations;
                      sn_plugin_inventory := concat (tr_entries <$> translations);
                      sn_architecture_guard :=
                        evaluate_paths (aw_architecture_policy config)
                          (aw_proposed_mutations config) |})
      end
  end.
End snapshot.

(** ** The hash *)

(** The inverse of [PRIME] modulo 2^64. *)
Definition PRIME_INVERSE : Z := 0xce965057aff6957b.

Lemma wrap64_mul_prime x y : is_u64 x → is_u64 y → wrap64 (x * PRIME) = wrap64 (y * PRIME) → x = y.
Proof.
  intros Hx Hy H. unfold wrap64 in H.
  assert (∀ z, is_u64 z → ((z * PRIME) mod 2 ^ 64 * PRIME_INVERSE) mod 2 ^ 64 = z)%Z as Hinv.
  { intros z Hz%is_u64_pow. rewrite Z.mul_mod_idemp_l by lia. rewrite <-Z.mul_assoc.
    rewrite <-Z.mul_mod_idemp_r by lia.
    change ((PRIME * PRIME_INVERSE) mod 2 ^ 64)%Z with 1%Z. rewrite Z.mul_1_r.
    by apply Z.mod_small. }
  rewrite <-(Hinv x Hx), <-(Hinv y Hy). by rewrite H.
Qed.

Lemma log2_u64 x : (0 ≤ x < 2 ^ 64)%Z → (Z.log2 x < 64)%Z.
Proof.
  intros Hx. destruct (decide (x = 0)%Z) as [->|]; [done|]. apply Z.log2_lt_pow2; lia.
Qed.

Lemma lxor_u64 h b : is_u64 h → is_u64 (Z.lxor h (Z.of_N (byte b))).
Proof.
  intros Hh%is_u64_pow. apply is_u64_pow. pose proof (byte_lt b).
  assert (0 ≤ Z.lxor h (Z.of_N (byte b)))%Z as H0 by (apply Z.lxor_nonneg; lia).
  split; [done|].
  destruct (decide (Z.lxor h (Z.of_N (byte b)) = 0)%Z) as [->|Hne]; [lia|].
  apply Z.log2_lt_pow2; [lia|]. eapply Z.le_lt_trans; [apply Z.log2_lxor; lia|].
  apply Z.max_lub_lt; apply log2_u64; lia.
Qed.

Lemma fnv_step_u64 h b : is_u64 (fnv_step h b).
Proof. apply wrap64_range. Qed.

Lemma fnv_bytes_u64 h s : is_u64 h → is_u64 (fnv_bytes h s).
Proof. revert h. induction s as [|a s IH]; intros h Hh; simpl; [done|]. apply IH, fnv_step_u64. Qed.

(** A step loses nothing of the hash, and different bytes lead apart. *)
Lemma fnv_step_hash_inj h h' b : is_u64 h → is_u64 h' → fnv_step h b = fnv_step h' b → h = h'.
Proof.
  intros Hh Hh' H. apply wrap64_mul_prime in H; [|by apply lxor_u64..].
  apply (f_equal (λ x, Z.lxor x (Z.of_N (byte b)))) in H.
  by rewrite !Z.lxor_assoc, !Z.lxor_nilpotent, !Z.lxor_0_r in H.
Qed.

Lemma fnv_step_byte_inj h a b : is_u64 h → fnv_step h a = fnv_step h b → a = b.
Proof.
  intros Hh H. apply wrap64_mul_prime in H; [|by apply lxor_u64..].
  apply (f_equal (Z.lxor h)) in H.
  rewrite <-!Z.lxor_assoc, !Z.lxor_nilpotent, !Z.lxor_0_l in H. apply byte_inj. lia.
Qed.

Lemma fnv_bytes_hash_inj h h' s : is_u64 h → is_u64 h' → fnv_bytes h s = fnv_bytes h' s → h = h'.
Proof.
  revert h h'. induction s as [|a s IH]; intros h h' Hh Hh' H; simpl in H; [done|].
  apply IH in H; [|apply fnv_step_u64..]. by apply fnv_step_hash_inj in H.
Qed.

Lemma fnv_bytes_app h s t : fnv_bytes h (s +:+ t) = fnv_bytes (fnv_bytes h s) t.
Proof. revert h. induction s as [|a s IH]; intros h; [done|]. rewrite app_cons_str. apply IH. Qed.

(** The fingerprint hashes the concatenation of the rows. *)
Lemma fingerprint_rows facts h :
  foldl (λ hash f, fnv_bytes hash (fact_row f)) h facts = fnv_bytes h (join "" (fact_row <$> facts)).
Proof.
  revert h. induction facts as [|f facts IH]; intros h; [done|].
  cbn [foldl fmap list_fmap]. rewrite IH. destruct facts as [|g facts]; cbn [fmap list_fmap join]; [done|].
  by rewrite !fnv_bytes_app.
Qed.

(** The fingerprint detects every single-byte change: two file lists whose
    rows spell texts that differ in exactly one byte never share a
    fingerprint. *)
Theorem fingerprint_detects_byte_change facts facts' s t a b :
  join "" (fact_row <$> facts) = s +:+ String a t →
  join "" (fact_row <$> facts') = s +:+ String b t →
  a ≠ b → fingerprint facts ≠ fingerprint facts'.
Proof.
  intros H1 H2 Hab H. unfold fingerprint in H. rewrite !fingerprint_rows, H1, H2 in H.
  assert (is_u64 OFFSET_BASIS) as H0 by (unfold is_u64, u64_max, OFFSET_BASIS; lia).
  apply hex016_inj in H; [|by apply fnv_bytes_u64..]. rewrite !fnv_bytes_app in H. simpl in H.
  apply fnv_bytes_hash_inj in H; [|apply fnv_step_u64..].
  apply fnv_step_byte_inj in H; [done|by apply fnv_bytes_u64].
Qed.

(** The fingerprint does not depend on the order in which directories list
    their entries: sorting makes it a function of the set of files, provided
    a path determines its size and language. *)
Theorem fingerprint_order_independent facts facts' :
  facts ≡ₚ facts' →
  (∀ f g, f ∈ facts → g ∈ facts → ff_path f = ff_path g → f = g) →
  fingerprint (sort_facts facts) = fingerprint (sort_facts facts').
Proof.
  intros Hp Hinj. f_equal. unfold sort_facts.
  apply (StronglySorted_unique_strong fact_le); [|apply stable_sort_sorted; apply _..|].
  - intros f g Hf Hg H1 H2. rewrite stable_sort_Permutation in Hf, Hg. rewrite <-Hp in Hg.
    apply Hinj; [done..|]. by apply (anti_symm String.le).
  - by rewrite !stable_sort_Permutation.
Qed.

(** ** Counting languages *)
Lemma language_fold facts m key :
  unwrap_or (foldl (λ m f, count_in (ff_language f) m) m facts !! key) 0%Z =
  (unwrap_or (m !! key) 0 + len (filter (λ f, ff_language f = key) facts))%Z.
Proof.
  revert m. induction facts as [|f facts IH]; intros m; simpl.
  - unfold len. simpl. lia.
  - rewrite IH, unwrap_count_in, filter_cons. repeat case_decide; rewrite ?len_cons; lia.
Qed.

Lemma collect_roots_total fs rank fuel roots :
  ranked fs rank → Forall (λ r, rank r < fuel) roots → is_Some (collect_roots fs fuel roots).
Proof.
  intros Hr. induction 1 as [|root roots Hroot _ IH]; simpl; [eauto|].
  destruct (fs_exists fs root); simpl; [|eauto]. unfold collect_file_facts.
  match goal with |- context [walk fs ?w ?l ?lc fuel root] =>
    destruct (walk_total fs w l lc rank fuel root Hr Hroot) as [[facts|e] ->] end; [|eauto].
  destruct IH as [[|] ->]; eauto.
Qed.

Section snapshot_props.
  Context (manifest_from_str : string → result string PluginManifest).
  Context (to_lowercase : string → string).

(** The numbers of a snapshot agree: every scanned file is counted under
    exactly one language, and the inventory lists the plugins of every scan
    report in order. *)
Theorem snapshot_counts_files fs fuel config sn :
  snapshot manifest_from_str to_lowercase fs fuel config = Some (Ok sn) →
  ∃ facts, collect_roots fs fuel (sn_scanned_roots sn) = Some (Ok facts) ∧
    sn_scanned_files sn = len facts ∧
    (∀ key, unwrap_or (sn_language_distribution sn !! key) 0%Z =
      len (filter (λ f, ff_language f = key) facts)) ∧
    sn_deterministic_fingerprint sn = fingerprint (sort_facts facts) ∧
    sn_plugin_inventory sn =
      translate_descriptor <$> concat (sr_descriptors <$> sn_plugin_scan_reports sn).
Proof.
  unfold snapshot. destruct (collect_roots fs fuel _) as [[facts|]|] eqn:Hc; [|done..].
  destruct (scan_roots _ _ fs fuel _) as [[reports|]|]; [|done..]. intros [= <-]. simpl.
  exists facts. split_and!; [done| | |done|].
  - unfold sort_facts, len. by rewrite stable_sort_Permutation.
  - intros key. unfold language_distribution. rewrite language_fold, lookup_empty. simpl.
    unfold sort_facts, len. by rewrite stable_sort_Permutation.
  - induction reports as [|r reports IH]; [done|]. cbn [fmap list_fmap concat].
    rewrite fmap_app, <-IH. f_equal. apply translate_entries.
Qed.
End snapshot_props.

(** ** A concrete tree *)
Module AwarenessDemo.
Definition facts : list FileFact := [mkFileFact "b" 2 "md"; mkFileFact "a" 1 "md"].
Definition facts' : list FileFact := [mkFileFact "b" 3 "md"; mkFileFact "a" 1 "md"].

Lemma fingerprint_byte_witness : fingerprint facts ≠ fingerprint facts'.
Proof.
  apply (fingerprint_detects_byte_change facts facts' "b:"
    (":md" +:+ String newline ("a:1:md" +:+ String newline "")) "2"%char "3"%char);
    [reflexivity|reflexivity|discriminate].
Defined.

Lemma fingerprint_order_witness :
  fingerprint (sort_facts facts) = fingerprint (sort_facts (reverse facts)).
Proof.
  apply fingerprint_order_independent; [by rewrite reverse_Permutation|].
  intros f g Hf Hg. apply elem_of_cons in Hf as [-> | ->%list_elem_of_singleton];
    apply elem_of_cons in Hg as [-> | ->%list_elem_of_singleton]; done.
Defined.

Definition config : CodebaseAwarenessConfig :=
  mkCodebaseAwarenessConfig ["root"] [] ["docs/a.md"] ArchitectureBoundaryPolicy_default.

Lemma snapshot_witness :
  match snapshot PluginDemo.from_str (λ s, s) PluginDemo.tree 2 config with
  | Some (Ok sn) => ∃ facts, sn_scanned_files sn = len facts ∧
      sn_deterministic_fingerprint sn = fingerprint (sort_facts facts)
  | _ => False
  end.
Proof.
  destruct (snapshot PluginDemo.from_str (λ s, s) PluginDemo.tree 2 config) as [[sn|]|] eqn:Hs.
  - destruct (snapshot_counts_files PluginDemo.from_str (λ s, s) PluginDemo.tree 2 config sn Hs)
      as (fs & _ & Hn & _ & Hf & _). exists fs. exact (conj Hn Hf).
  - vm_compute in Hs. discriminate.
  - vm_compute in Hs. discriminate.
Defined.
End AwarenessDemo.
