(* ===== verification/Evolution.v ===== *)
(** * Evolution: the self-modification engine
    (kernel/src/evolution.rs, contracts/src/evolution_types.rs)

    The engine detects issues, guards, snapshots, patches, verifies and then
    keeps or rolls back. All effects go through [EvolutionExecutor]; here it
    is a record of operations on an environment [W]. *)
From S2P Require Import Prelude RustStr Architecture.
From Stdlib Require Import Ascii.

(** ** Types *)

Inductive EvolutionMode := Scan | Fix | Improve | Full.

Definition EvolutionMode_as_str (m : EvolutionMode) : string :=
  match m with Scan => "scan" | Fix => "fix" | Improve => "improve" | Full => "full" end.
Definition includes_fix (m : EvolutionMode) : bool :=
  match m with Fix | Full => true | _ => false end.
Definition includes_improve (m : EvolutionMode) : bool :=
  match m with Improve | Full => true | _ => false end.

Inductive EvolutionTrigger :=
| Trigger_Manual
| Trigger_TestFailure (test_name error : string)
| Trigger_RuntimeError (context error : string)
| Trigger_Scheduled (schedule_id : string).

Definition EvolutionTrigger_kind_str (t : EvolutionTrigger) : string :=
  match t with
  | Trigger_Manual => "manual" | Trigger_TestFailure _ _ => "test_failure"
  | Trigger_RuntimeError _ _ => "runtime_error" | Trigger_Scheduled _ => "scheduled"
  end.

Inductive EvolutionPhase :=
  Phase_Detect | Phase_Diagnose | Phase_Snapshot | Phase_Patch | Phase_Verify | Phase_Decide.

Definition EvolutionPhase_as_str (p : EvolutionPhase) : string :=
  match p with
  | Phase_Detect => "detect" | Phase_Diagnose => "diagnose" | Phase_Snapshot => "snapshot"
  | Phase_Patch => "patch" | Phase_Verify => "verify" | Phase_Decide => "decide"
  end.

Inductive EvolutionDecision :=
| Keep (commit_sha : string)
| Rollback (reason breadcrumb_id : string)
| Skip (reason : string).

Inductive EvolutionIssueKind :=
  TestFailure | CompilationError | ClippyWarning | MissingTest | DeadCode | RuntimeError.

Definition EvolutionIssueKind_as_str (k : EvolutionIssueKind) : string :=
  match k with
  | TestFailure => "test_failure" | CompilationError => "compilation_error"
  | ClippyWarning => "clippy_warning" | MissingTest => "missing_test" | DeadCode => "dead_code"
  | RuntimeError => "runtime_error"
  end.
Definition EvolutionIssueKind_is_reactive (k : EvolutionIssueKind) : bool :=
  match k with TestFailure | CompilationError | RuntimeError => true | _ => false end.

Inductive IssueSeverity := Low | Medium | High | Critical.

(** The derived [Ord]. *)
Definition severity_rank (s : IssueSeverity) : nat :=
  match s with Low => 0 | Medium => 1 | High => 2 | Critical => 3 end.

Record EvolutionIssue := mkEvolutionIssue {
  is_issue_id : string;
  is_kind : EvolutionIssueKind;
  is_file_path : string;
  is_description : string;
  is_severity : IssueSeverity;
  is_raw_output : option string;
}.

Record EvolutionBreadcrumb := mkEvolutionBreadcrumb {
  bc_breadcrumb_id : string;
  bc_session_id : string;
  bc_issue_id : string;
  bc_attempt_number : Z;
  bc_phase_reached : EvolutionPhase;
  bc_decision : EvolutionDecision;
  bc_patch_description : string;
  bc_error_output : option string;
  bc_files_modified : list string;
  bc_fingerprint_before : string;
  bc_fingerprint_after : option string;
  bc_timestamp_epoch_s : Z;
}.

Record EvolutionSessionSummary := mkEvolutionSessionSummary {
  es_session_id : string;
  es_mode : EvolutionMode;
  es_trigger : EvolutionTrigger;
  es_started_at_epoch_s : Z;
  es_completed_at_epoch_s : option Z;
  es_issues_detected : Z;
  es_patches_applied : Z;
  es_patches_rolled_back : Z;
  es_patches_skipped : Z;
}.

Record EvolutionConfig := mkEvolutionConfig {
  ec_max_retries_per_issue : Z;
  ec_max_mutations_per_session : Z;
  ec_cooldown_seconds : Z;
  ec_auto_commit : bool;
  ec_dry_run : bool;
  ec_verify_commands : list string;
}.

Definition EvolutionConfig_default : EvolutionConfig :=
  mkEvolutionConfig 3 10 300 true false
    ["cargo test --workspace";
     "cargo clippy --workspace --all-targets --all-features -- -D warnings"].

Record ShellOutput := mkShellOutput { so_exit_code : Z; so_stdout : string; so_stderr : string }.
Definition ShellOutput_success (o : ShellOutput) : bool := (so_exit_code o =? 0)%Z.

Inductive PatchStrategy := CompilerErrorFix | ClippyAutofix | AddMissingTest | Refactor | ManualInspection.

#[export] Instance debug_PatchStrategy : Debug PatchStrategy := λ s,
  match s with
  | CompilerErrorFix => "CompilerErrorFix" | ClippyAutofix => "ClippyAutofix"
  | AddMissingTest => "AddMissingTest" | Refactor => "Refactor"
  | ManualInspection => "ManualInspection"
  end.

Record Diagnosis := mkDiagnosis {
  dg_root_cause : string; dg_suggested_files : list string; dg_strategy : PatchStrategy }.
Record SnapshotRecord := mkSnapshotRecord { ss_commit_sha : string; ss_fingerprint : string }.
Record PatchRecord := mkPatchRecord { pt_files_modified : list string; pt_description : string }.
Inductive VerifyOutcome := Pass | VFail (stderr : string) (exit_code : Z).

Record EvolutionEngine := mkEvolutionEngine {
  en_architecture_policy : ArchitectureBoundaryPolicy;
  en_config : EvolutionConfig;
}.

(** ** Output parsers *)

Record ParsedFailure := mkParsedFailure { pf_file : string; pf_description : string; pf_raw : string }.

(** The body of the loop of [extract_file_path] for one token. *)
Definition token_path (token : string) : option string :=
  let cleaned := trim (trim_start_matches "-->" token) in
  if contains ".rs:" cleaned || contains ".rs" cleaned then
    match split_char ":"%char cleaned with
    | path :: _ =>
        let path := trim path in
        if ends_with ".rs" path && negb (is_empty path) then Some path else None
    | [] => None
    end
  else None.

Fixpoint first_some {A B} (f : A → option B) (xs : list A) : option B :=
  match xs with
  | [] => None
  | x :: xs => match f x with Some b => Some b | None => first_some f xs end
  end.

Definition extract_file_path (text : string) : option string :=
  first_some token_path (split_whitespace text).

Definition parse_test_failures (output : string) : list ParsedFailure :=
  omap (λ line,
    let trimmed := trim line in
    rest ← strip_prefix "error" trimmed;
    file ← extract_file_path rest;
    Some (mkParsedFailure file trimmed trimmed)) (lines output).

Definition parse_clippy_warnings (output : string) : list ParsedFailure :=
  omap (λ line,
    let trimmed := trim line in
    if starts_with "warning:" trimmed || starts_with "error:" trimmed then
      file ← extract_file_path trimmed;
      Some (mkParsedFailure file trimmed trimmed)
    else None) (lines output).

(** [issues.sort_by(|a, b| b.severity.cmp(&a.severity))] *)
Definition severity_ge (a b : EvolutionIssue) : Prop :=
  severity_rank (is_severity b) ≤ severity_rank (is_severity a).
#[export] Instance severity_ge_dec : RelDecision severity_ge.
Proof. intros a b. unfold severity_ge. apply _. Defined.
#[export] Instance severity_ge_total : Total severity_ge.
Proof. intros a b. unfold severity_ge. lia. Qed.
#[export] Instance severity_ge_trans : Transitive severity_ge.
Proof. intros a b c. unfold severity_ge. lia. Qed.

(** ** The engine *)
Section engine.
  Context {W : Type}.
  (** [{:?}] of a list of paths, in a guard's message. *)
  Context `{!Debug (list string)}.

(** [trait EvolutionExecutor] *)
Record EvolutionExecutor := mkEvolutionExecutor {
  ex_shell_exec : string → option string → ST W string ShellOutput;
  ex_read_file : string → ST W string string;
  ex_write_file : string → string → ST W string unit;
  ex_store_breadcrumb : EvolutionBreadcrumb → ST W string unit;
  ex_query_breadcrumbs : string → ST W string (list EvolutionBreadcrumb);
  ex_latest_session : ST W string (option EvolutionSessionSummary);
  ex_save_session : EvolutionSessionSummary → ST W string unit;
  ex_now_epoch_s : W → Z * W;
  ex_generate_id : string → W → string * W;
}.

  Context (self : EvolutionEngine) (executor : EvolutionExecutor).

Definition shell (command : string) : ST W string ShellOutput := ex_shell_exec executor command None.
Definition generate_id (prefix : string) : ST W string string := act (ex_generate_id executor prefix).
Definition now_epoch_s : ST W string Z := act (ex_now_epoch_s executor).

(** One issue per parsed item, each with a fresh id. *)
Fixpoint issues_of (kind : EvolutionIssueKind) (severity : IssueSeverity)
    (found : list ParsedFailure) : ST W string (list EvolutionIssue) :=
  match found with
  | [] => mret []
  | f :: found =>
      generate_id "issue" ≫= λ id,
      issues_of kind severity found ≫= λ rest,
      mret (mkEvolutionIssue id kind (pf_file f) (pf_description f) severity (Some (pf_raw f)) :: rest)
  end.

Definition combined_output (o : ShellOutput) : string :=
  so_stdout o +:+ String newline "" +:+ so_stderr o.

Definition detect_reactive : ST W string (list EvolutionIssue) :=
  shell "cargo test --workspace --no-fail-fast 2>&1" ≫= λ test_output,
  if negb (ShellOutput_success test_output) then
    let combined := combined_output test_output in
    issues_of TestFailure High (parse_test_failures combined) ≫= λ issues,
    match issues with
    | [] =>
        generate_id "issue" ≫= λ id,
        mret [mkEvolutionIssue id CompilationError "" "cargo test failed" Critical (Some combined)]
    | _ => mret issues
    end
  else mret [].

Definition detect_proactive : ST W string (list EvolutionIssue) :=
  shell "cargo clippy --workspace --all-targets --all-features --message-format=short 2>&1"
    ≫= λ clippy_output,
  if negb (ShellOutput_success clippy_output) then
    issues_of ClippyWarning Medium (parse_clippy_warnings (combined_output clippy_output))
  else mret [].

(** [EvolutionEngine::detect] *)
Definition detect (mode : EvolutionMode) : ST W string (list EvolutionIssue) :=
  (if includes_fix mode || match mode with Scan => true | _ => false end
   then detect_reactive else mret []) ≫= λ reactive,
  (if includes_improve mode then detect_proactive else mret []) ≫= λ proactive,
  mret (stable_sort severity_ge (reactive ++ proactive)).

(** [EvolutionEngine::diagnose] *)
Definition diagnose (issue : EvolutionIssue) : Diagnosis :=
  {| dg_root_cause := is_description issue;
     dg_suggested_files := if is_empty (is_file_path issue) then [] else [is_file_path issue];
     dg_strategy :=
       match is_kind issue with
       | TestFailure | CompilationError => CompilerErrorFix
       | ClippyWarning => ClippyAutofix
       | MissingTest => AddMissingTest
       | DeadCode => Refactor
       | RuntimeError => ManualInspection
       end |}.

Definition quoted (s : string) : string := String dquote (s +:+ String dquote "").

(** [EvolutionEngine::snapshot] *)
Definition take_snapshot (session_id : string) : ST W string SnapshotRecord :=
  shell "git add -A" ≫= λ _,
  shell ("git commit --allow-empty -m " +:+ quoted ("evolution-snapshot: pre-" +:+ session_id))
    ≫= λ commit_result,
  shell "git rev-parse HEAD" ≫= λ sha_output,
  let commit_sha := trim (so_stdout sha_output) in
  if is_empty commit_sha then
    throw ("failed to get commit SHA after snapshot: " +:+ so_stderr commit_result)
  else
    shell "git diff --stat HEAD" ≫= λ status,
    mret (mkSnapshotRecord commit_sha (trim (so_stdout status))).

(** [EvolutionEngine::guard_paths] *)
Definition guard_paths (paths : list string) : result string ArchitectureGuardReport :=
  let report := evaluate_paths (en_architecture_policy self) paths in
  if ArchitectureGuardReport_has_denials report then
    Err ("architecture guard denied mutation of " +:+ display (len (gr_denied_paths report)) +:+
         " path(s): " +:+ debug (gr_denied_paths report))
  else Ok report.

(** [EvolutionEngine::patch_clippy_autofix] *)
Definition patch_clippy_autofix : ST W string PatchRecord :=
  shell ("cargo clippy --fix --allow-dirty --allow-staged --workspace --all-targets " +:+
         "--all-features 2>&1") ≫= λ result,
  shell "git diff --name-only" ≫= λ diff_output,
  let files_modified :=
    filter (λ line, is_empty line = false) (trim <$> lines (so_stdout diff_output)) in
  (match files_modified with
   | [] => mret ()
   | _ => lift (guard_paths files_modified) ≫= λ _, mret ()
   end) ≫= λ _,
  mret (mkPatchRecord files_modified
          ("clippy autofix (exit=" +:+ display (so_exit_code result) +:+ ")")).

(** [EvolutionEngine::verify] *)
Fixpoint verify_commands (commands : list string) : ST W string VerifyOutcome :=
  match commands with
  | [] => mret Pass
  | command :: commands =>
      shell command ≫= λ output,
      if negb (ShellOutput_success output) then
        mret (VFail (combined_output output) (so_exit_code output))
      else verify_commands commands
  end.
Definition verify : ST W string VerifyOutcome := verify_commands (ec_verify_commands (en_config self)).

(** [EvolutionEngine::decide] *)
Definition decide_outcome (verify_outcome : VerifyOutcome) (snapshot : SnapshotRecord)
    (issue : EvolutionIssue) (session_id : string) (attempt_number : Z) (patch : PatchRecord)
    (fingerprint_before : string) : ST W string EvolutionDecision :=
  match verify_outcome with
  | Pass =>
      shell "git add -A" ≫= λ _,
      shell ("git commit --allow-empty -m " +:+
             quoted ("evolution: fix " +:+ EvolutionIssueKind_as_str (is_kind issue) +:+ " in " +:+
                     is_file_path issue)) ≫= λ _,
      shell "git rev-parse HEAD" ≫= λ out,
      let sha := trim (so_stdout out) in
      let decision := Keep sha in
      generate_id "bc" ≫= λ id,
      now_epoch_s ≫= λ now,
      ex_store_breadcrumb executor
        {| bc_breadcrumb_id := id; bc_session_id := session_id; bc_issue_id := is_issue_id issue;
           bc_attempt_number := attempt_number; bc_phase_reached := Phase_Decide;
           bc_decision := decision; bc_patch_description := pt_description patch;
           bc_error_output := None; bc_files_modified := pt_files_modified patch;
           bc_fingerprint_before := fingerprint_before; bc_fingerprint_after := Some sha;
           bc_timestamp_epoch_s := now |} ≫= λ _,
      mret decision
  | VFail stderr _ =>
      shell ("git reset --hard " +:+ ss_commit_sha snapshot) ≫= λ _,
      generate_id "bc" ≫= λ breadcrumb_id,
      let decision := Rollback (take_chars 500 stderr) breadcrumb_id in
      now_epoch_s ≫= λ now,
      ex_store_breadcrumb executor
        {| bc_breadcrumb_id := breadcrumb_id; bc_session_id := session_id;
           bc_issue_id := is_issue_id issue; bc_attempt_number := attempt_number;
           bc_phase_reached := Phase_Verify; bc_decision := decision;
           bc_patch_description := pt_description patch;
           bc_error_output := Some (take_chars 2000 stderr);
           bc_files_modified := pt_files_modified patch;
           bc_fingerprint_before := fingerprint_before; bc_fingerprint_after := None;
           bc_timestamp_epoch_s := now |} ≫= λ _,
      mret decision
  end.

Definition is_rollback (d : EvolutionDecision) : bool :=
  match d with Rollback _ _ => true | _ => false end.

(** [EvolutionEngine::should_skip] *)
Definition should_skip (issue : EvolutionIssue) : ST W string (option string) :=
  ex_query_breadcrumbs executor (is_issue_id issue) ≫= λ breadcrumbs,
  let failed_attempts := len (filter (λ b, is_rollback (bc_decision b) = true) breadcrumbs) in
  if (ec_max_retries_per_issue (en_config self) <=? failed_attempts)%Z then
    mret (Some ("max retries (" +:+ display (ec_max_retries_per_issue (en_config self)) +:+
                ") exceeded for issue " +:+ is_issue_id issue))
  else mret None.

(** [EvolutionEngine::check_cooldown]; [i64] subtraction wraps in release
    builds. *)
Definition check_cooldown : ST W string bool :=
  if (ec_cooldown_seconds (en_config self) =? 0)%Z then mret true
  else
    ex_latest_session executor ≫= λ session,
    match session with
    | None => mret true
    | Some s =>
        now_epoch_s ≫= λ now,
        let since := default (es_started_at_epoch_s s) (es_completed_at_epoch_s s) in
        mret (to_i64 (ec_cooldown_seconds (en_config self)) <=? to_i64 (now - since))%Z
    end.

(** [EvolutionEngine::evolve_issue] from the snapshot on. *)
Definition evolve_guarded (issue : EvolutionIssue) (session_id : string) (attempt_number : Z) :
    ST W string EvolutionDecision :=
  take_snapshot session_id ≫= λ snapshot,
  let fingerprint_before := ss_fingerprint snapshot in
  match dg_strategy (diagnose issue) with
  | ClippyAutofix =>
      patch_clippy_autofix ≫= λ patch,
      if ec_dry_run (en_config self) then
        shell ("git reset --hard " +:+ ss_commit_sha snapshot) ≫= λ _,
        mret (Skip "dry-run mode: patch applied and rolled back")
      else
        verify ≫= λ outcome,
        decide_outcome outcome snapshot issue session_id attempt_number patch fingerprint_before
  | strategy =>
      mret (Skip ("strategy " +:+ debug strategy +:+
                  " requires AI code generation (not yet implemented)"))
  end.

(** [EvolutionEngine::evolve_issue] *)
Definition evolve_issue (issue : EvolutionIssue) (session_id : string) :
    ST W string EvolutionDecision :=
  should_skip issue ≫= λ skip,
  match skip with
  | Some reason => mret (Skip reason)
  | None =>
      ex_query_breadcrumbs executor (is_issue_id issue) ≫= λ breadcrumbs,
      let attempt_number := wrap32 (wrap32 (len breadcrumbs) + 1) in
      let files := dg_suggested_files (diagnose issue) in
      match files, guard_paths files with
      | _ :: _, Err reason => mret (Skip reason)
      | _, _ => evolve_guarded issue session_id attempt_number
      end
  end.

(** The counters of a session: applied, rolled back, skipped. *)
Record tally := mkTally { ta_applied : Z; ta_rolled_back : Z; ta_skipped : Z }.

(** The loop over the issues; [mutations] counts kept and rolled back
    patches. *)
Fixpoint evolve_issues (issues : list EvolutionIssue) (session_id : string) (mutations : Z)
    (t : tally) : ST W string tally :=
  match issues with
  | [] => mret t
  | issue :: issues =>
      if (ec_max_mutations_per_session (en_config self) <=? mutations)%Z then mret t
      else
        evolve_issue issue session_id ≫= λ decision,
        match decision with
        | Keep _ =>
            evolve_issues issues session_id (wrap32 (mutations + 1))
              (mkTally (wrap32 (ta_applied t + 1)) (ta_rolled_back t) (ta_skipped t))
        | Rollback _ _ =>
            evolve_issues issues session_id (wrap32 (mutations + 1))
              (mkTally (ta_applied t) (wrap32 (ta_rolled_back t + 1)) (ta_skipped t))
        | Skip _ =>
            evolve_issues issues session_id mutations
              (mkTally (ta_applied t) (ta_rolled_back t) (wrap32 (ta_skipped t + 1)))
        end
  end.

Definition summary_of (session_id : string) (mode : EvolutionMode) (trigger : EvolutionTrigger)
    (started : Z) (completed : option Z) (detected : Z) (t : tally) : EvolutionSessionSummary :=
  mkEvolutionSessionSummary session_id mode trigger started completed detected (ta_applied t)
    (ta_rolled_back t) (ta_skipped t).

(** [EvolutionEngine::run_session] *)
Definition run_session (mode : EvolutionMode) (trigger : EvolutionTrigger) :
    ST W string EvolutionSessionSummary :=
  generate_id "ev" ≫= λ session_id,
  now_epoch_s ≫= λ started_at,
  ex_save_session executor
    (summary_of session_id mode trigger started_at None 0 (mkTally 0 0 0)) ≫= λ _,
  detect mode ≫= λ issues,
  let detected := wrap32 (len issues) in
  match mode with
  | Scan =>
      now_epoch_s ≫= λ completed,
      let summary := summary_of session_id mode trigger started_at (Some completed) detected
                       (mkTally 0 0 0) in
      ex_save_session executor summary ≫= λ _,
      mret summary
  | _ =>
      evolve_issues issues session_id 0 (mkTally 0 0 0) ≫= λ t,
      now_epoch_s ≫= λ completed,
      let summary := summary_of session_id mode trigger started_at (Some completed) detected t in
      ex_save_session executor summary ≫= λ _,
      mret summary
  end.
End engine.
Arguments EvolutionExecutor : clear implicits.
