(* ===== verification/EvolutionProps.v ===== *)
(** * EvolutionProps: what the evolution engine guarantees *)
From S2P Require Import Prelude RustStr Architecture Evolution.

Section props.
  Context {W : Type} `{DL : !Debug (list string)}.
  Context (self : EvolutionEngine) (executor : EvolutionExecutor W).
  Implicit Types (w : W).
  #[local] Abbreviation shell := (shell executor).

(** ** Verification *)

(** Every command ran, in order, and exited with 0. *)
Inductive all_succeed : list string → W → W → Prop :=
| succeed_nil w : all_succeed [] w w
| succeed_cons command commands w output w1 w' :
    shell command w = (Ok output, w1) → so_exit_code output = 0%Z →
    all_succeed commands w1 w' → all_succeed (command :: commands) w w'.

Lemma verify_commands_Pass commands w w' :
  verify_commands executor commands w = (Ok Pass, w') ↔ all_succeed commands w w'.
Proof.
  split.
  - revert w. induction commands as [|c commands IH]; intros w; cbn [verify_commands].
    + intros [= <-]. constructor.
    + intros (o & w1 & Hs & H)%st_bind_Ok.
      destruct (ShellOutput_success o) eqn:Ho; simpl in H; [|done].
      apply Z.eqb_eq in Ho. eapply succeed_cons; eauto.
  - induction 1 as [|c commands w o w1 w' Hs Ho _ IH]; [done|]. cbn [verify_commands].
    rewrite st_bind_run, Hs. unfold ShellOutput_success. by rewrite Ho.
Qed.

(** A failing verification names a command that ran and did not exit with 0. *)
Lemma verify_commands_Fail commands w stderr code w' :
  verify_commands executor commands w = (Ok (VFail stderr code), w') → code ≠ 0%Z.
Proof.
  revert w. induction commands as [|c commands IH]; intros w; cbn [verify_commands]; [done|].
  intros (o & w1 & Hs & H)%st_bind_Ok. destruct (ShellOutput_success o) eqn:Ho; simpl in H; [eauto|].
  injection H as <- <- _. by apply Z.eqb_neq in Ho.
Qed.

(** ** Guards *)

(** A guard passes exactly when every path stays inside the boundary. *)
Lemma guard_paths_inside paths :
  is_ok (guard_paths self paths) = true ↔
  ArchitectureGuardReport_has_denials (evaluate_paths (en_architecture_policy self) paths) = false.
Proof. unfold guard_paths. case_match; naive_solver. Qed.

(** Every path named by a patch record passed the guard. *)
Lemma patch_files_guarded w patch w' :
  patch_clippy_autofix self executor w = (Ok patch, w') →
  pt_files_modified patch = [] ∨ is_ok (guard_paths self (pt_files_modified patch)) = true.
Proof.
  unfold patch_clippy_autofix. intros (o & w1 & _ & H)%st_bind_Ok.
  apply st_bind_Ok in H as (d & w2 & _ & H). apply st_bind_Ok in H as (u & w3 & Hg & [= <- _]).
  simpl. destruct (filter _ _) as [|f files]; [by left|right].
  apply st_bind_Ok in Hg as (r & w4 & Hl & _). unfold lift in Hl. injection Hl as Hl _.
  by rewrite Hl.
Qed.

(** ** One issue *)

(** The phases after the guards of a run that does not end in [Skip]. *)
Lemma evolve_guarded_phases issue session_id attempt w d w' :
  evolve_guarded self executor issue session_id attempt w = (Ok d, w') →
  (∃ reason, d = Skip reason) ∨
  ∃ snapshot patch outcome w2 w3 w4,
    is_kind issue = ClippyWarning ∧ ec_dry_run (en_config self) = false ∧
    take_snapshot executor session_id w = (Ok snapshot, w2) ∧
    patch_clippy_autofix self executor w2 = (Ok patch, w3) ∧
    verify self executor w3 = (Ok outcome, w4) ∧
    decide_outcome executor outcome snapshot issue session_id attempt patch
      (ss_fingerprint snapshot) w4 = (Ok d, w').
Proof.
  unfold evolve_guarded. intros (snapshot & w2 & Hs & H)%st_bind_Ok.
  unfold diagnose in H. simpl in H. destruct (is_kind issue) eqn:Hk; simpl in H;
    try (injection H as <- _; eauto).
  apply st_bind_Ok in H as (patch & w3 & Hp & H). destruct (ec_dry_run (en_config self)) eqn:Hd.
  - apply st_bind_Ok in H as (o & w4 & _ & [= <- _]). eauto.
  - apply st_bind_Ok in H as (outcome & w4 & Hv & H). right.
    by exists snapshot, patch, outcome, w2, w3, w4.
Qed.

(** The whole run of an issue that does not end in [Skip]. *)
Lemma evolve_issue_phases issue session_id w d w' :
  evolve_issue self executor issue session_id w = (Ok d, w') →
  (∃ reason, d = Skip reason) ∨
  ∃ attempt snapshot patch outcome w1 w2 w3 w4,
    is_kind issue = ClippyWarning ∧ ec_dry_run (en_config self) = false ∧
    (is_file_path issue = "" ∨ is_ok (guard_paths self [is_file_path issue]) = true) ∧
    take_snapshot executor session_id w1 = (Ok snapshot, w2) ∧
    patch_clippy_autofix self executor w2 = (Ok patch, w3) ∧
    verify self executor w3 = (Ok outcome, w4) ∧
    decide_outcome executor outcome snapshot issue session_id attempt patch
      (ss_fingerprint snapshot) w4 = (Ok d, w').
Proof.
  unfold evolve_issue. intros (skip & w0 & _ & H)%st_bind_Ok.
  destruct skip as [reason|]; [injection H as <- _; eauto|].
  apply st_bind_Ok in H as (bcs & w1 & _ & H). cbv zeta in H.
  assert ((∃ reason, d = Skip reason) ∨
    (is_file_path issue = "" ∨ is_ok (guard_paths self [is_file_path issue]) = true) ∧
    evolve_guarded self executor issue session_id (wrap32 (wrap32 (len bcs) + 1)) w1 = (Ok d, w'))
    as [?|[Hg He]]; [|by left|].
  { unfold diagnose at 1 in H. cbn [dg_suggested_files] in H.
    destruct (is_file_path issue) as [|a f]; cbn [is_empty] in H; [eauto|].
    destruct (guard_paths self [String a f]) as [r|reason]; [eauto|].
    injection H as <- _. eauto. }
  apply evolve_guarded_phases in He as [?|He]; [by left|right]. naive_solver.
Qed.

(** C39. A change is kept only if it stayed inside the architecture boundary
    and every verification command succeeded on it: a [Keep] decision means
    that the issue's own file and all files the autofix touched passed the
    guard, that all configured commands then exited with 0 in order, and that
    the engine was not in dry-run mode. *)
Theorem keep_requires_guard_and_verification issue session_id w sha w' :
  evolve_issue self executor issue session_id w = (Ok (Keep sha), w') →
  ec_dry_run (en_config self) = false ∧
  (is_file_path issue = "" ∨
   inside_boundary (en_architecture_policy self) (normalize (is_file_path issue))) ∧
  ∃ patch w2 w3 w4,
    patch_clippy_autofix self executor w2 = (Ok patch, w3) ∧
    (∀ f, f ∈ pt_files_modified patch →
       inside_boundary (en_architecture_policy self) (normalize f)) ∧
    all_succeed (ec_verify_commands (en_config self)) w3 w4.
Proof.
  intros H. apply evolve_issue_phases in H as [[? [=]]|H].
  destruct H as (attempt & snapshot & patch & outcome & w1 & w2 & w3 & w4 & _ & Hdry & Hf & _ & Hp &
    Hv & Hdec).
  destruct outcome as [|stderr code].
  2:{ cbn [decide_outcome] in Hdec. run_inv. }
  split_and!; [done| |].
  - destruct Hf as [?|Hf]; [by left|right]. rewrite guard_paths_inside in Hf.
    rewrite no_denials_inside in Hf. apply Hf. by left.
  - exists patch, w2, w3, w4. split_and!; [done| |by apply verify_commands_Pass].
    intros f Hin. destruct (patch_files_guarded _ _ _ Hp) as [He|He];
      [rewrite He in Hin; by apply not_elem_of_nil in Hin|].
    rewrite guard_paths_inside, no_denials_inside in He. by apply He.
Qed.

(** A failed verification is rolled back: a [Rollback] decision means that
    a verification command exited with a non-zero code and that the working
    tree was then reset to the commit taken before the patch. *)
Theorem rollback_resets_to_snapshot issue session_id w reason id w' :
  evolve_issue self executor issue session_id w = (Ok (Rollback reason id), w') →
  ∃ snapshot stderr code out w1 w2 w3 w4 w5,
    take_snapshot executor session_id w1 = (Ok snapshot, w2) ∧
    verify self executor w3 = (Ok (VFail stderr code), w4) ∧ code ≠ 0%Z ∧
    reason = take_chars 500 stderr ∧
    shell ("git reset --hard " +:+ ss_commit_sha snapshot) w4 = (Ok out, w5).
Proof.
  intros H. apply evolve_issue_phases in H as [[? [=]]|H].
  destruct H as (attempt & snapshot & patch & outcome & w1 & w2 & w3 & w4 & _ & _ & _ & Hs & Hp &
    Hv & Hdec).
  destruct outcome as [|stderr code]; cbn [decide_outcome] in Hdec.
  { run_inv. }
  pose proof (verify_commands_Fail _ _ _ _ _ Hv). apply st_bind_Ok in Hdec as (out & w5 & Hr & Hdec).
  run_inv. eauto 20.
Qed.

(** An issue in a protected file is skipped before anything is touched:
    the two breadcrumb queries are the only calls made. *)
Theorem protected_issue_is_skipped_untouched issue session_id w bcs w1 bcs' w2 :
  is_file_path issue ≠ "" →
  ¬ inside_boundary (en_architecture_policy self) (normalize (is_file_path issue)) →
  ex_query_breadcrumbs executor (is_issue_id issue) w = (Ok bcs, w1) →
  (len (filter (λ b, is_rollback (bc_decision b) = true) bcs) <
     ec_max_retries_per_issue (en_config self))%Z →
  ex_query_breadcrumbs executor (is_issue_id issue) w1 = (Ok bcs', w2) →
  ∃ reason, evolve_issue self executor issue session_id w = (Ok (Skip reason), w2).
Proof.
  intros Hf Hb Hq Hn Hq'. unfold evolve_issue, should_skip. rewrite !st_bind_run, Hq.
  destruct (Z.leb_spec (ec_max_retries_per_issue (en_config self))
    (len (filter (λ b, is_rollback (bc_decision b) = true) bcs))) as [?|_]; [lia|].
  unfold mret, st_ret. rewrite st_bind_run, Hq'. cbv zeta. unfold diagnose at 1.
  cbn [dg_suggested_files]. destruct (is_file_path issue) as [|a f] eqn:He; [done|].
  cbn [is_empty]. destruct (guard_paths self [String a f]) as [r|reason] eqn:Hg; [|eauto].
  destruct Hb. assert (is_ok (guard_paths self [String a f]) = true) as Hok by (by rewrite Hg).
  rewrite guard_paths_inside, no_denials_inside in Hok. apply Hok. by left.
Qed.

(** The guard on autofixed files comes after the fix and its failure is
    not followed by a reset: when the fix touched a protected file the engine
    reports an error and leaves the modified tree as it is. *)
Theorem denied_autofix_is_left_in_place issue session_id attempt w snapshot w1 o w2 d w3 f :
  is_kind issue = ClippyWarning →
  take_snapshot executor session_id w = (Ok snapshot, w1) →
  shell ("cargo clippy --fix --allow-dirty --allow-staged --workspace --all-targets " +:+
         "--all-features 2>&1") w1 = (Ok o, w2) →
  shell "git diff --name-only" w2 = (Ok d, w3) →
  f ∈ filter (λ line, is_empty line = false) (trim <$> lines (so_stdout d)) →
  ¬ inside_boundary (en_architecture_policy self) (normalize f) →
  ∃ reason, evolve_guarded self executor issue session_id attempt w = (Err reason, w3).
Proof.
  intros Hk Hs Ho Hd Hin Hno. unfold evolve_guarded. rewrite st_bind_run, Hs. unfold diagnose.
  rewrite Hk. cbn [dg_strategy]. unfold patch_clippy_autofix.
  rewrite !st_bind_run, Ho, st_bind_run, Hd. rewrite st_bind_run.
  destruct (filter _ _) as [|f0 files] eqn:Hf; [by apply not_elem_of_nil in Hin|].
  rewrite st_bind_run. unfold lift. destruct (guard_paths self (f0 :: files)) as [r|reason] eqn:Hg;
    [|eauto].
  destruct Hno. assert (is_ok (guard_paths self (f0 :: files)) = true) as Hok by (by rewrite Hg).
  rewrite guard_paths_inside, no_denials_inside in Hok. by apply Hok.
Qed.

(** ** Sessions *)

Lemma wrap32_small n : (0 ≤ n ≤ u32_max)%Z → wrap32 n = n.
Proof. intros ?. apply Z.mod_small. unfold u32_max in *. lia. Qed.

Lemma evolve_issues_bound issues session_id m t w t' w' :
  (0 ≤ ec_max_mutations_per_session (en_config self) ≤ u32_max)%Z →
  (0 ≤ ta_applied t)%Z → (0 ≤ ta_rolled_back t)%Z → m = (ta_applied t + ta_rolled_back t)%Z →
  (m ≤ ec_max_mutations_per_session (en_config self))%Z →
  evolve_issues self executor issues session_id m t w = (Ok t', w') →
  (0 ≤ ta_applied t' ∧ 0 ≤ ta_rolled_back t' ∧
   ta_applied t' + ta_rolled_back t' ≤ ec_max_mutations_per_session (en_config self))%Z.
Proof.
  intros Hmax. revert m t w. induction issues as [|i issues IH]; intros m t w Ha Hr -> Hm;
    cbn [evolve_issues].
  - intros [= <- _]. lia.
  - destruct (Z.leb_spec (ec_max_mutations_per_session (en_config self))
      (ta_applied t + ta_rolled_back t)) as [?|Hlt]; [intros [= <- _]; lia|].
    intros (d & w1 & _ & H)%st_bind_Ok.
    destruct d; rewrite ?(wrap32_small (ta_applied t + ta_rolled_back t + 1)),
      ?(wrap32_small (ta_applied t + 1)), ?(wrap32_small (ta_rolled_back t + 1)) in H by lia;
      eapply IH in H; simpl; try lia; try done; simpl in H; lia.
Qed.

(** A session applies and rolls back at most the configured number of
    patches, whatever the executor answers. *)
Theorem session_respects_mutation_limit mode trigger w summary w' :
  (0 ≤ ec_max_mutations_per_session (en_config self) ≤ u32_max)%Z →
  run_session self executor mode trigger w = (Ok summary, w') →
  (0 ≤ es_patches_applied summary ∧ 0 ≤ es_patches_rolled_back summary ∧
   es_patches_applied summary + es_patches_rolled_back summary ≤
     ec_max_mutations_per_session (en_config self))%Z.
Proof.
  intros Hmax. unfold run_session. intros (sid & w1 & _ & H)%st_bind_Ok.
  apply st_bind_Ok in H as (started & w2 & _ & H). apply st_bind_Ok in H as ([] & w3 & _ & H).
  apply st_bind_Ok in H as (issues & w4 & _ & H). cbv zeta in H.
  destruct mode.
  1:{ run_inv. simpl. lia. }
  all: apply st_bind_Ok in H as (t & w5 & Ht & H);
    apply (evolve_issues_bound _ _ _ (mkTally 0 0 0)) in Ht; simpl; try lia; run_inv; simpl; lia.
Qed.

(** [m] keeps [I], on success and on failure. *)
Definition preserves {A} (I : W → Prop) (m : ST W string A) : Prop := ∀ w, I w → I (m w).2.

Lemma preserves_bind {A B} I (m : ST W string A) (f : A → ST W string B) :
  preserves I m → (∀ a, preserves I (f a)) → preserves I (m ≫= f).
Proof.
  intros Hm Hf w Hw. rewrite st_bind_run. specialize (Hm w Hw). destruct (m w) as [[a|e] w1]; [|done].
  by apply Hf.
Qed.

Lemma preserves_mret {A} I (a : A) : preserves I (mret a : ST W string A).
Proof. by intros w. Qed.

Lemma preserves_act {A} I (f : W → A * W) : (∀ w, I w → I (f w).2) → preserves I (act f).
Proof. intros Hf w Hw. unfold act. specialize (Hf w Hw). by destruct (f w). Qed.

Lemma preserves_issues_of I kind severity found :
  (∀ p w, I w → I (ex_generate_id executor p w).2) →
  preserves I (issues_of executor kind severity found).
Proof.
  intros Hg. induction found as [|f found IH]; cbn [issues_of]; [apply preserves_mret|].
  apply preserves_bind; [apply preserves_act; auto|intros id].
  apply preserves_bind; [done|intros rest; apply preserves_mret].
Qed.

(** A [Scan] session only observes: besides saving its summary and asking
    for ids and the time, the test command is the only call it makes, so
    whatever that command leaves alone the session leaves alone. No git
    command, patch or breadcrumb is involved. *)
Theorem scan_session_only_observes I trigger :
  (∀ s, preserves I (ex_save_session executor s)) →
  (∀ p w, I w → I (ex_generate_id executor p w).2) →
  (∀ w, I w → I (ex_now_epoch_s executor w).2) →
  preserves I (shell "cargo test --workspace --no-fail-fast 2>&1") →
  preserves I (run_session self executor Scan trigger).
Proof.
  intros Hsave Hgen Hnow Htest. unfold run_session.
  apply preserves_bind; [apply preserves_act; auto|intros sid].
  apply preserves_bind; [apply preserves_act; auto|intros started].
  apply preserves_bind; [done|intros _].
  apply preserves_bind; [|intros issues].
  - unfold detect. simpl. apply preserves_bind; [|intros reactive].
    + unfold detect_reactive. apply preserves_bind; [done|intros out].
      destruct (negb _); [|apply preserves_mret].
      apply preserves_bind; [by apply preserves_issues_of|intros []; [|apply preserves_mret]].
      apply preserves_bind; [apply preserves_act; auto|intros id; apply preserves_mret].
    + apply preserves_bind; [apply preserves_mret|intros ?; apply preserves_mret].
  - apply preserves_bind; [apply preserves_act; auto|intros completed].
    apply preserves_bind; [done|intros _; apply preserves_mret].
Qed.

Lemma issues_of_spec kind severity found w issues w' :
  issues_of executor kind severity found w = (Ok issues, w') →
  Forall (λ i, is_kind i = kind ∧ is_severity i = severity) issues.
Proof.
  revert w issues w'. induction found as [|f found IH]; intros w issues w'; cbn [issues_of].
  - intros [= <- _]. constructor.
  - intros (id & w1 & _ & H)%st_bind_Ok. apply st_bind_Ok in H as (rest & w2 & Hr & [= <- _]).
    constructor; [done|]. by eapply IH.
Qed.

(** Detection hands issues over most severe first, and only of the kinds
    its mode asks for: a [Fix] or [Scan] session sees no lint warnings and an
    [Improve] session nothing but them. *)
Theorem detection_is_sorted_by_severity mode w issues w' :
  detect executor mode w = (Ok issues, w') →
  StronglySorted severity_ge issues ∧
  Forall (λ i, match is_kind i with
               | ClippyWarning => includes_improve mode = true
               | TestFailure | CompilationError =>
                   includes_fix mode = true ∨ mode = Scan
               | _ => False
               end) issues.
Proof.
  unfold detect. intros (reactive & w1 & Hr & H)%st_bind_Ok.
  apply st_bind_Ok in H as (proactive & w2 & Hp & [= <- _]).
  split; [apply stable_sort_sorted; apply _|]. rewrite stable_sort_Permutation, Forall_app. split.
  - destruct (includes_fix mode || _) eqn:Hm; [|injection Hr as <- _; constructor].
    assert (includes_fix mode = true ∨ mode = Scan) as Hmode
      by (destruct mode; naive_solver).
    unfold detect_reactive in Hr. apply st_bind_Ok in Hr as (out & w3 & _ & Hr).
    destruct (negb _); [|injection Hr as <- _; constructor].
    apply st_bind_Ok in Hr as (found & w4 & Hf%issues_of_spec & Hr).
    destruct found as [|i found].
    + run_inv. constructor; [exact Hmode|constructor].
    + injection Hr as <- _. eapply Forall_impl; [exact Hf|]. by intros j [-> _].
  - destruct (includes_improve mode) eqn:Hm; [|injection Hp as <- _; constructor].
    unfold detect_proactive in Hp. apply st_bind_Ok in Hp as (out & w3 & _ & Hp).
    destruct (negb _); [|injection Hp as <- _; constructor].
    apply issues_of_spec in Hp. eapply Forall_impl; [exact Hp|]. by intros j [-> _].
Qed.
End props.

(** ** A concrete executor

    It logs the commands it runs; a command in [failing] exits with 1. *)
Module EvolutionDemo.
#[local] Instance debug_paths : Debug (list string) := λ l, join ", " l.

Definition clippy : string :=
  "cargo clippy --workspace --all-targets --all-features --message-format=short 2>&1".

Definition executor (failing : list string) (touched : string) : EvolutionExecutor (list string) :=
  {| ex_shell_exec := λ c _ log,
       (Ok (mkShellOutput (if decide (c ∈ failing) then 1 else 0)
              (if decide (c = "git rev-parse HEAD") then "abc"
               else if decide (c = "git diff --name-only") then touched
               else if decide (c = clippy) then "warning: unused --> examples/a.rs:1:2"
               else "") ""), log ++ [c]);
     ex_read_file := λ _ log, (Ok "", log);
     ex_write_file := λ _ _ log, (Ok (), log);
     ex_store_breadcrumb := λ _ log, (Ok (), log);
     ex_query_breadcrumbs := λ _ log, (Ok [], log);
     ex_latest_session := λ log, (Ok None, log);
     ex_save_session := λ _ log, (Ok (), log);
     ex_now_epoch_s := λ log, (100%Z, log);
     ex_generate_id := λ p log, (p, log) |}.

Definition engine : EvolutionEngine :=
  mkEvolutionEngine ArchitectureBoundaryPolicy_default
    (mkEvolutionConfig 3 10 300 true false ["check"]).

Definition issue (file : string) : EvolutionIssue :=
  mkEvolutionIssue "issue" ClippyWarning file "unused" Medium None.

Definition fine := executor [clippy] "examples/a.rs".
Definition broken := executor ["check"] "examples/a.rs".

Lemma protected_outside :
  ¬ inside_boundary (en_architecture_policy engine) (normalize "crates/kernel/src/kernel.rs").
Proof.
  intros [Hno _]. apply (Hno "crates/kernel/src/kernel.rs"); [by apply (bool_decide_unpack _)|].
  apply prefix_matches_iff. vm_compute. reflexivity.
Qed.

Lemma keep_witness :
  inside_boundary (en_architecture_policy engine) (normalize (is_file_path (issue "examples/a.rs"))).
Proof.
  destruct (keep_requires_guard_and_verification engine fine (issue "examples/a.rs") "s" [] "abc"
    (evolve_issue engine fine (issue "examples/a.rs") "s" []).2) as (_ & [H|H] & _).
  - vm_compute. reflexivity.
  - discriminate H.
  - exact H.
Defined.

Lemma rollback_witness :
  ∃ snapshot w4 out w5, shell broken ("git reset --hard " +:+ ss_commit_sha snapshot) w4 = (Ok out, w5).
Proof.
  destruct (rollback_resets_to_snapshot engine broken (issue "examples/a.rs") "s" []
    (String newline "") "bc" (evolve_issue engine broken (issue "examples/a.rs") "s" []).2)
    as (snapshot & stderr & code & out & w1 & w2 & w3 & w4 & w5 & _ & _ & _ & _ & Hr).
  - vm_compute. reflexivity.
  - exists snapshot, w4, out, w5. exact Hr.
Defined.

Lemma protected_witness :
  ∃ reason, evolve_issue engine fine (issue "crates/kernel/src/kernel.rs") "s" [] =
    (Ok (Skip reason), []).
Proof.
  apply (protected_issue_is_skipped_untouched engine fine (issue "crates/kernel/src/kernel.rs") "s"
    [] [] [] [] []); [discriminate|exact protected_outside|reflexivity|vm_compute; reflexivity|reflexivity].
Defined.

Definition careless := executor [] "crates/kernel/src/kernel.rs".
Definition snapped := (take_snapshot careless "s" []).2.
Definition fixed := snapped ++
  ["cargo clippy --fix --allow-dirty --allow-staged --workspace --all-targets " +:+
   "--all-features 2>&1"].

Lemma denied_autofix_witness :
  ∃ reason, evolve_guarded engine careless (issue "examples/a.rs") "s" 1 [] =
    (Err reason, fixed ++ ["git diff --name-only"]).
Proof.
  apply (denied_autofix_is_left_in_place engine careless (issue "examples/a.rs") "s" 1 []
    (mkSnapshotRecord "abc" "") snapped (mkShellOutput 0 "" "") fixed
    (mkShellOutput 0 "crates/kernel/src/kernel.rs" "") _ "crates/kernel/src/kernel.rs");
    [reflexivity|vm_compute; reflexivity|reflexivity|reflexivity
    |by apply (bool_decide_unpack _)|exact protected_outside].
Defined.

Lemma session_witness :
  ∃ summary w', run_session engine fine Improve Trigger_Manual [] = (Ok summary, w') ∧
    (es_patches_applied summary + es_patches_rolled_back summary ≤ 10)%Z.
Proof.
  eexists _, _. split; [vm_compute; reflexivity|].
  eapply (session_respects_mutation_limit engine fine Improve Trigger_Manual []);
    [unfold u32_max; simpl; lia|vm_compute; reflexivity].
Defined.

(** In the demonstration the log never contains a git command. *)
Lemma scan_witness_evolution :
  preserves (λ log, "git add -A" ∉ log) (run_session engine fine Scan Trigger_Manual).
Proof.
  apply scan_session_only_observes; [by intros s log|by intros p log|by intros log|].
  intros log H. simpl. rewrite not_elem_of_app. split; [exact H|].
  by apply (bool_decide_unpack _).
Defined.

Lemma detection_witness :
  ∃ issues w', detect fine Improve [] = (Ok issues, w') ∧ StronglySorted severity_ge issues.
Proof.
  eexists _, _. split; [vm_compute; reflexivity|].
  eapply (detection_is_sorted_by_severity fine Improve []). vm_compute. reflexivity.
Defined.
End EvolutionDemo.
