(* ===== verification/Protocol.v ===== *)
(** * Protocol: method routing and transports (protocol/src/lib.rs)

    The router validates method names, resolves them to routes with a policy
    and authorizes callers. [ChannelTransport] is a pair of bounded queues,
    [JsonLineTransport] a stream of JSON lines. *)
From S2P Require Import Prelude RustStr Contracts Fs.
From Stdlib Require Import Ascii.

Definition PROTOCOL_VERSION : Z := 1.

Record TransportInfo := mkTransportInfo {
  tp_name : string; tp_version : string; tp_secure : bool }.

Record InboundFrame := mkInboundFrame {
  if_method : string; if_id : option string; if_payload : Value; if_version : Z }.

Record OutboundFrame := mkOutboundFrame {
  of_method : string; of_id : option string; of_payload : Value; of_version : Z }.

(** ** Routes *)

Inductive ProtocolRoute := ToolsCall | Custom (method : string).

Definition ProtocolRoute_from_method (method : string) : ProtocolRoute :=
  if decide (method = "tools/call") then ToolsCall else Custom method.
Definition ProtocolRoute_method (r : ProtocolRoute) : string :=
  match r with ToolsCall => "tools/call" | Custom method => method end.
Definition ProtocolRoute_is_standard (r : ProtocolRoute) : bool :=
  match r with ToolsCall => true | _ => false end.

Record RoutePolicy := mkRoutePolicy {
  ro_allow_anonymous : bool; ro_required_capability : option string }.
Definition RoutePolicy_default : RoutePolicy := mkRoutePolicy true None.

Record ResolvedRoute := mkResolvedRoute { rr_route : ProtocolRoute; rr_policy : RoutePolicy }.
Definition ResolvedRoute_method (r : ResolvedRoute) : string := ProtocolRoute_method (rr_route r).

Record ProtocolRouter := mkProtocolRouter {
  pr_strict : bool; pr_custom_routes : gmap string RoutePolicy }.

Definition ProtocolRouter_new (strict : bool) : ProtocolRouter := mkProtocolRouter strict ∅.

Inductive RouterError := UnknownMethod (method : string) | InvalidMethod (reason : string).

Record RouteAuthorizationRequest := mkRouteAuthorizationRequest { rq_capabilities : gset string }.

Inductive RouteAuthorizationDecision := RouteAllow.

Inductive RouteAuthorizationError :=
  RouteMissingCapability (method required_capability : string).

Inductive TransportError := TransportClosed | TransportFailure (s : string) | TransportProtocol (s : string).

Definition method_byte (a : ascii) : bool :=
  is_ascii_lowercase a || is_ascii_digit a || Ascii.eqb a "-" || Ascii.eqb a "_" || Ascii.eqb a "/"
  || Ascii.eqb a ".".

(** [normalize_capability] *)
Definition normalize_capability (raw : string) : string := to_ascii_lowercase (trim raw).

Section router.
  (** [{:?}] of a string, in one message. *)
  Context `{!Debug string}.

(** [validate_method_name]; a valid UTF-8 string whose characters are all
    ASCII is one whose bytes are. *)
Definition validate_method_name (method : string) : result RouterError unit :=
  if is_empty (trim method) then Err (InvalidMethod "method cannot be empty")
  else if decide (trim method ≠ method) then
    Err (InvalidMethod ("method cannot include surrounding whitespace: " +:+ debug method))
  else if 128 <? String.length method then
    Err (InvalidMethod ("method exceeds max length (128): " +:+
                        display (Z.of_nat (String.length method))))
  else if starts_with "/" method || ends_with "/" method || contains "//" method then
    Err (InvalidMethod ("method contains invalid slash placement: " +:+ method))
  else if negb (all_bytes method_byte method) then
    Err (InvalidMethod ("method contains unsupported characters: " +:+ method))
  else Ok ().

(** [ProtocolRouter::register_custom_route] *)
Definition register_custom_route (method : string) (policy : RoutePolicy) (r : ProtocolRouter) :
    result RouterError ProtocolRouter :=
  _ ← validate_method_name method;
  if ProtocolRoute_is_standard (ProtocolRoute_from_method method) then
    Err (InvalidMethod ("standard route cannot be registered as custom: " +:+ method))
  else Ok (mkProtocolRouter (pr_strict r) (<[method := policy]> (pr_custom_routes r))).

(** [ProtocolRouter::resolve] *)
Definition resolve (r : ProtocolRouter) (method : string) : result RouterError ResolvedRoute :=
  _ ← validate_method_name method;
  match ProtocolRoute_from_method method with
  | ToolsCall => Ok (mkResolvedRoute ToolsCall (mkRoutePolicy false (Some "invoke")))
  | Custom custom =>
      match pr_custom_routes r !! custom with
      | Some policy => Ok (mkResolvedRoute (Custom custom) policy)
      | None => if pr_strict r then Err (UnknownMethod custom)
                else Ok (mkResolvedRoute (Custom custom) RoutePolicy_default)
      end
  end.

(** [ProtocolRouter::authorize] *)
Definition router_authorize (resolved : ResolvedRoute) (request : RouteAuthorizationRequest) :
    result RouteAuthorizationError RouteAuthorizationDecision :=
  match ro_required_capability (rr_policy resolved) with
  | Some required =>
      let normalized_required := normalize_capability required in
      if existsb (λ capability,
           let normalized := normalize_capability capability in
           bool_decide (normalized = normalized_required) || bool_decide (normalized = "*"))
         (btree_elements (rq_capabilities request))
      then Ok RouteAllow
      else Err (RouteMissingCapability (ResolvedRoute_method resolved) normalized_required)
  | None => Ok RouteAllow
  end.
End router.

(** ** ChannelTransport

    One direction of a linked pair: a bounded queue, the sender handle in
    [outbound], and the senders cloned by [send] calls that wait for room.
    [accepted] and [received] record the history. *)
Record channel := mkChannel {
  cn_capacity : nat;
  cn_open : bool;
  cn_pending : list InboundFrame;
  cn_queue : list InboundFrame;
  cn_accepted : list InboundFrame;
  cn_received : list InboundFrame;
}.

Definition inbound_of (f : OutboundFrame) : InboundFrame :=
  mkInboundFrame (of_method f) (of_id f) (of_payload f) (of_version f).

(** [ChannelTransport::linked]: two directions, or an error for no room. *)
Inductive TransportBuildError := InvalidCapacity (capacity : nat).
Definition channel_new (capacity : nat) : channel := mkChannel capacity true [] [] [] [].
Definition linked (capacity : nat) : result TransportBuildError (channel * channel) :=
  if decide (capacity = 0) then Err (InvalidCapacity capacity)
  else Ok (channel_new capacity, channel_new capacity).

(** What a call reports when it finishes. *)
Inductive channel_event :=
| Sent (f : InboundFrame)
| SendClosed
| Received (f : option InboundFrame)
| ClosedSide
| Waiting.

(** Steps of one direction. [send] clones the sender under the lock, then
    waits for room; [recv] takes the oldest frame, or reports the end once no
    sender is left. The receiver lives as long as its transport. *)
Inductive channel_step : channel → channel_event → channel → Prop :=
| ch_send_start c f : cn_open c = true →
    channel_step c Waiting
      (mkChannel (cn_capacity c) true (inbound_of f :: cn_pending c) (cn_queue c) (cn_accepted c)
         (cn_received c))
| ch_send_closed c : cn_open c = false → channel_step c SendClosed c
| ch_send_done c f pending : cn_pending c ≡ₚ f :: pending →
    length (cn_queue c) < cn_capacity c →
    channel_step c (Sent f)
      (mkChannel (cn_capacity c) (cn_open c) pending (cn_queue c ++ [f]) (cn_accepted c ++ [f])
         (cn_received c))
| ch_recv c f queue : cn_queue c = f :: queue →
    channel_step c (Received (Some f))
      (mkChannel (cn_capacity c) (cn_open c) (cn_pending c) queue (cn_accepted c)
         (cn_received c ++ [f]))
| ch_recv_end c : cn_queue c = [] → cn_open c = false → cn_pending c = [] →
    channel_step c (Received None) c
| ch_close c :
    channel_step c ClosedSide
      (mkChannel (cn_capacity c) false (cn_pending c) (cn_queue c) (cn_accepted c) (cn_received c)).

Definition channel_reachable (capacity : nat) (c : channel) : Prop :=
  steps (λ c c', ∃ e, channel_step c e c') (channel_new capacity) c.

(** ** JsonLineTransport *)
Section jsonline.
  (** [serde_json::to_vec] on a frame and [from_str] back, with the errors'
      texts. *)
  Context (frame_to_json : OutboundFrame → result string string).
  Context (frame_from_json : string → result string InboundFrame).

(** The reader: the bytes it yields, and the error that ends them when the
    stream breaks instead of ending. *)
Record Reader := mkReader { rd_bytes : string; rd_error : option string }.

(** The writer: the bytes written, and what [write_all] (after so many bytes),
    [flush] and [shutdown] fail with, if they do. *)
Record Writer := mkWriter {
  wr_bytes : string; wr_write_error : option (nat * string); wr_flush_error : option string;
  wr_shutdown_error : option string }.

Record JsonLineTransport := mkJsonLineTransport {
  jl_info : TransportInfo; jl_reader : Reader; jl_writer : Writer; jl_closed : bool }.

Definition wr_append (s : string) (w : Writer) : Writer :=
  mkWriter (wr_bytes w +:+ s) (wr_write_error w) (wr_flush_error w) (wr_shutdown_error w).

(** [send] *)
Definition jsonline_send (frame : OutboundFrame) : ST JsonLineTransport TransportError unit := λ t,
  if jl_closed t then (Err TransportClosed, t)
  else match frame_to_json frame with
       | Err error => (Err (TransportFailure ("failed to encode outbound frame: " +:+ error)), t)
       | Ok payload =>
           let payload := payload +:+ String newline "" in
           let wrote s := mkJsonLineTransport (jl_info t) (jl_reader t) (wr_append s (jl_writer t))
                            (jl_closed t) in
           match wr_write_error (jl_writer t) with
           | Some (n, error) =>
               (Err (TransportFailure ("failed to write frame: " +:+ error)),
                wrote (String.substring 0 n payload))
           | None =>
               match wr_flush_error (jl_writer t) with
               | Some error =>
                   (Err (TransportFailure ("failed to flush frame: " +:+ error)), wrote payload)
               | None => (Ok (), wrote payload)
               end
           end
       end.

(** Bytes up to and with the next newline, whether there is one, and the
    bytes after it. *)
Fixpoint read_line (s : string) : string * bool * string :=
  match s with
  | "" => ("", false, "")
  | String a s =>
      if Ascii.eqb a newline then (String a "", true, s)
      else let '(line, ended, rest) := read_line s in (String a line, ended, rest)
  end.

Definition is_line_end (a : ascii) : bool := Ascii.eqb a newline || Ascii.eqb a carriage_return.

(** [line.trim_end_matches(['\n', '\r'])] *)
Fixpoint drop_line_ends (s : string) : string :=
  match s with
  | "" => ""
  | String a s' => if is_line_end a then drop_line_ends s' else s
  end.
Definition trim_line_ends (s : string) : string := String.rev (drop_line_ends (String.rev s)).

(** [AsyncBufReadExt::read_line]: the line, or the error of a stream that
    breaks before its newline or of bytes that are not UTF-8. *)
Definition read_utf8_line (error : option string) (input : string) : result string string * string :=
  let '(line, ended, rest) := read_line input in
  match error, ended with
  | Some e, false => (Err e, rest)
  | _, _ => (if utf8_valid line then Ok line else Err "stream did not contain valid UTF-8", rest)
  end.

(** The loop of [recv]: each round reads at least one byte, so fuel above the
    length of the input is enough. *)
Fixpoint jsonline_recv_loop (fuel : nat) (read_error : option string) (input : string) :
    option (result TransportError (option InboundFrame) * string) :=
  match fuel with
  | O => None
  | S fuel =>
      match read_utf8_line read_error input with
      | (Err error, rest) => Some (Err (TransportFailure ("failed to read frame: " +:+ error)), rest)
      | (Ok line, rest) =>
          if is_empty line then Some (Ok None, rest)
          else
            let trimmed := trim_line_ends line in
            if is_empty trimmed then jsonline_recv_loop fuel read_error rest
            else match frame_from_json trimmed with
                 | Err error =>
                     Some (Err (TransportFailure ("failed to decode inbound frame: " +:+ error)), rest)
                 | Ok frame =>
                     if (PROTOCOL_VERSION <? if_version frame)%Z then
                       Some (Err (TransportProtocol ("unsupported frame version " +:+
                               display (if_version frame) +:+ " (max supported: " +:+
                               display PROTOCOL_VERSION +:+ ")")), rest)
                     else Some (Ok (Some frame), rest)
                 end
      end
  end.

(** [recv] *)
Definition jsonline_recv (t : JsonLineTransport) :
    option (result TransportError (option InboundFrame) * JsonLineTransport) :=
  let reader := jl_reader t in
  '(r, rest) ← jsonline_recv_loop (S (String.length (rd_bytes reader))) (rd_error reader)
                 (rd_bytes reader);
  Some (r, mkJsonLineTransport (jl_info t) (mkReader rest (rd_error reader)) (jl_writer t)
             (jl_closed t)).

(** [close]: only the first call shuts the writer down. *)
Definition jsonline_close (t : JsonLineTransport) : result TransportError unit * JsonLineTransport :=
  let closed := mkJsonLineTransport (jl_info t) (jl_reader t) (jl_writer t) true in
  if jl_closed t then (Ok (), closed)
  else match wr_shutdown_error (jl_writer t) with
       | Some error => (Err (TransportFailure ("failed to shutdown writer: " +:+ error)), closed)
       | None => (Ok (), closed)
       end.
End jsonline.
