(* ===== verification/ProtocolProps.v ===== *)
(** * ProtocolProps: what routing and transports guarantee *)
From S2P Require Import Prelude RustStr Contracts Fs Protocol.
From Stdlib Require Import Ascii.

(** ** Method names *)

(** No segment between slashes is empty. *)
Definition segments_ok (m : string) : Prop := Forall (λ s, s ≠ "") (split_char "/" m).

Lemma ends_with_slash_cons a s :
  ends_with "/" (String a s) = if is_empty s then Ascii.eqb a "/" else ends_with "/" s.
Proof.
  apply eq_bool_prop_intro. rewrite !Is_true_true. rewrite ends_with_iff.
  destruct s as [|b s]; simpl.
  - rewrite Ascii.eqb_eq. split; [intros [[|c t] Ht]|intros ->; by exists ""].
    + rewrite app_nil_l_str in Ht. congruence.
    + rewrite app_cons_str in Ht. injection Ht as _ Ht. by destruct t.
  - rewrite ends_with_iff. split.
    + intros [[|c t] Ht]; [by rewrite app_nil_l_str in Ht|].
      rewrite app_cons_str in Ht. injection Ht as _ Ht. by exists t.
    + intros [t Ht]. exists (String a t). by rewrite app_cons_str, Ht.
Qed.

Lemma contains_cons p a s : contains p (String a s) = String.prefix p (String a s) || contains p s.
Proof.
  unfold contains. cbn [find_str]. destruct (String.prefix p (String a s)); [done|].
  by destruct (find_str p s).
Qed.

Lemma starts_with_slash_cons b s : starts_with "/" (String b s) = Ascii.eqb b "/".
Proof.
  unfold starts_with. cbn [String.prefix].
  destruct (ascii_dec "/" b) as [<-|Hne]; [by destruct s|].
  destruct (Ascii.eqb_spec b "/"); congruence.
Qed.

Lemma contains_slashes_cons a s :
  contains "//" (String a s) = (Ascii.eqb a "/" && starts_with "/" s) || contains "//" s.
Proof.
  rewrite contains_cons. f_equal. cbn [String.prefix].
  destruct (ascii_dec "/" a) as [<-|Hne]; [done|].
  by destruct (Ascii.eqb_spec a "/") as [->|_].
Qed.

(** The later segments of [m] are non-empty: no double slash, no final one. *)
Lemma later_segments m :
  Forall (λ s, s ≠ "") (tail (split_char "/" m)) ↔
  ends_with "/" m = false ∧ contains "//" m = false.
Proof.
  induction m as [|a m IH]; [done|]. rewrite ends_with_slash_cons, contains_slashes_cons.
  cbn [split_char]. destruct (Ascii.eqb_spec a "/") as [->|Hne]; cbn [tail andb].
  - destruct m as [|b m]; [split; [|naive_solver]; intros H; by inversion H|].
    rewrite starts_with_slash_cons. cbn [is_empty]. rewrite orb_false_iff. cbn [split_char] in *.
    destruct (Ascii.eqb_spec b "/") as [->|Hb].
    + split; [|naive_solver]. intros H. by inversion H.
    + destruct (split_char "/" m) as [|w ws]; cbn [tail] in IH; rewrite Forall_cons, IH; naive_solver.
  - assert (tail (match split_char "/" m with
      | [] => [String a ""] | w :: ws => String a w :: ws end) = tail (split_char "/" m)) as ->
      by (by destruct (split_char "/" m)).
    rewrite IH, orb_false_l. destruct m as [|b m]; cbn [is_empty]; [|done].
    destruct (Ascii.eqb_spec a "/"); naive_solver.
Qed.

Lemma segments_ok_iff m : m ≠ "" →
  segments_ok m ↔
  starts_with "/" m = false ∧ ends_with "/" m = false ∧ contains "//" m = false.
Proof.
  intros Hm. unfold segments_ok. destruct m as [|a m]; [done|].
  rewrite starts_with_slash_cons, <-later_segments. cbn [split_char].
  destruct (Ascii.eqb_spec a "/") as [->|Hne]; cbn [tail].
  - split; [|naive_solver]. intros H. by inversion H.
  - destruct (split_char "/" m) as [|w ws]; rewrite Forall_cons; cbn [tail]; naive_solver.
Qed.

(** A method byte is never part of white space. *)
Lemma method_byte_no_ws a : method_byte a = true →
  ws1 a = false ∧ (byte a < 128)%N.
Proof.
  unfold method_byte, is_ascii_lowercase, is_ascii_digit, in_range, ws1, in_range.
  rewrite !orb_true_iff, !andb_true_iff, !N.leb_le, !Ascii.eqb_eq.
  intros [[[[[[? ?]|[? ?]]|?]|?]|?]|?]; subst; try done.
  - destruct (N.leb_spec 9 (byte a)), (N.leb_spec (byte a) 13), (N.eqb_spec (byte a) 32); simpl; split;
      try done; lia.
  - destruct (N.leb_spec 9 (byte a)), (N.leb_spec (byte a) 13), (N.eqb_spec (byte a) 32); simpl; split;
      try done; lia.
Qed.

Lemma no_lead_ws w2 w3 m : (∀ a b, (byte a < 128)%N → w2 a b = false) →
  (∀ a b c, (byte a < 128)%N → w3 a b c = false) →
  all_bytes method_byte m = true → lead_ws w2 w3 m = false.
Proof.
  intros H2 H3. destruct m as [|a m]; [done|]. simpl. intros [[-> Ha]%method_byte_no_ws _]%andb_true_iff.
  destruct m as [|b m]; [done|]. rewrite H2 by done. destruct m as [|c m]; [done|]. by rewrite H3.
Qed.

Lemma method_bytes_trimmed m : all_bytes method_byte m = true → trim m = m.
Proof.
  intros Hm. assert (∀ n k : N, (n < 128)%N → (128 < k)%N → (n =? k)%N = false) as Hk
    by (intros; apply N.eqb_neq; lia).
  unfold trim, trim_end, trim_start. rewrite (trim_with_id ws2 ws3).
  2:{ apply no_lead_ws; [| |done].
      - intros a b Ha. unfold ws2. by rewrite !(Hk (byte a)) by lia.
      - intros a b c Ha. unfold ws3. by rewrite !(Hk (byte a)) by lia. }
  rewrite trim_with_id, rev_rev_str; [done|].
  apply no_lead_ws; [| |by rewrite all_bytes_rev].
  - intros a b Ha. unfold ws2.
    assert (∀ k : N, (127 < k)%N → (byte a =? k)%N = false) as He by (intros; apply N.eqb_neq; lia).
    rewrite !He by lia. by rewrite andb_false_r.
  - intros a b c Ha. unfold ws3, in_range.
    assert (∀ k : N, (127 < k)%N → (byte a =? k)%N = false) as He by (intros; apply N.eqb_neq; lia).
    assert (∀ k : N, (127 < k)%N → (k <=? byte a)%N = false) as Hl by (intros; apply N.leb_gt; lia).
    rewrite !He, !Hl by lia. by rewrite !andb_false_r.
Qed.

Section router_props.
  Context `{DS : !Debug string}.

(** The names the router accepts: 1 to 128 bytes of lower-case letters,
    digits and [-_./], in non-empty segments separated by single slashes. *)
Definition valid_method (m : string) : Prop :=
  m ≠ "" ∧ String.length m ≤ 128 ∧ all_bytes method_byte m = true ∧ segments_ok m.

Lemma validate_method_iff m : validate_method_name m = Ok () ↔ valid_method m.
Proof.
  unfold validate_method_name, valid_method. split.
  - destruct (is_empty (trim m)) eqn:He; [done|]. case_decide as Ht; [done|].
    rewrite Ht in He.
    destruct (Nat.ltb_spec 128 (String.length m)); [done|].
    destruct (starts_with "/" m || ends_with "/" m || contains "//" m) eqn:Hs; [done|].
    apply orb_false_iff in Hs as [[? ?]%orb_false_iff ?].
    destruct (all_bytes method_byte m); [|done]. intros _.
    assert (m ≠ "") by (by intros ->). split_and!; try done. by apply segments_ok_iff.
  - intros (Hne & Hl & Hb & Hs). rewrite (method_bytes_trimmed m Hb).
    apply segments_ok_iff in Hs as (-> & -> & ->); [|done].
    destruct (is_empty m) eqn:He; [by destruct m|]. rewrite decide_False by auto.
    destruct (Nat.ltb_spec 128 (String.length m)); [lia|]. simpl. by rewrite Hb.
Qed.

(** [validate_method_name] accepts exactly the well-formed names; every
    other name is an [InvalidMethod]. *)
Theorem method_validation_exact m :
  (validate_method_name m = Ok () ↔ valid_method m) ∧
  (¬ valid_method m ↔ ∃ reason, validate_method_name m = Err (InvalidMethod reason)).
Proof.
  split; [apply validate_method_iff|]. rewrite <-validate_method_iff.
  assert (validate_method_name m = Ok () ∨ ∃ reason, validate_method_name m = Err (InvalidMethod reason))
    as [->|[r ->]]; [|naive_solver..].
  unfold validate_method_name. repeat case_match; eauto.
Qed.

(** ** Routing *)

(** Routers built by [new] and [register_custom_route]. *)
Inductive router_built (strict : bool) : ProtocolRouter → Prop :=
| built_new : router_built strict (ProtocolRouter_new strict)
| built_register r method policy r' :
    router_built strict r → register_custom_route method policy r = Ok r' → router_built strict r'.

Lemma from_method_spec m :
  (m = "tools/call" ∧ ProtocolRoute_from_method m = ToolsCall) ∨
  (m ≠ "tools/call" ∧ ProtocolRoute_from_method m = Custom m).
Proof. unfold ProtocolRoute_from_method. case_decide; auto. Qed.

Lemma router_built_routes strict r : router_built strict r →
  pr_strict r = strict ∧
  map_Forall (λ m _, valid_method m ∧ m ≠ "tools/call") (pr_custom_routes r).
Proof.
  induction 1 as [|r m p r' _ [IHs IH] Hr]; [by split; [|apply map_Forall_empty]|].
  unfold register_custom_route in Hr. apply bind_Ok in Hr as ([] & Hv & Hr).
  destruct (from_method_spec m) as [[-> Hm]|[Hne Hm]]; rewrite Hm in Hr; simplify_eq/=.
  split; [done|]. apply map_Forall_insert_2; [|done]. by rewrite <-validate_method_iff.
Qed.

(** Routing cannot weaken the standard route: whatever is registered,
    [tools/call] resolves to the policy that requires the [invoke]
    capability; a registered name resolves to its policy, and an unknown
    valid name is refused by a strict router and open on a lenient one. *)
Theorem routing_is_faithful strict r m (policy : RoutePolicy) :
  router_built strict r → valid_method m →
  resolve r m =
  (if decide (m = "tools/call") then
    Ok (mkResolvedRoute ToolsCall (mkRoutePolicy false (Some "invoke")))
  else match pr_custom_routes r !! m with
       | Some p => Ok (mkResolvedRoute (Custom m) p)
       | None => if strict then Err (UnknownMethod m)
                 else Ok (mkResolvedRoute (Custom m) RoutePolicy_default)
       end) ∧
  (m ≠ "tools/call" → ∃ r', register_custom_route m policy r = Ok r' ∧
     resolve r' m = Ok (mkResolvedRoute (Custom m) policy)) ∧
  (∀ r', register_custom_route "tools/call" policy r ≠ Ok r').
Proof.
  intros Hb Hm. destruct (router_built_routes _ _ Hb) as [<- _].
  apply validate_method_iff in Hm as Hv. unfold resolve, register_custom_route. rewrite Hv.
  cbn [mbind result_bind]. destruct (from_method_spec m) as [[-> Hf]|[Hne Hf]]; rewrite Hf.
  - split_and!; [done|done|]. intros r' H. apply bind_Ok in H as ([] & _ & H). done.
  - rewrite decide_False by done. split_and!; [done| |].
    + intros _. eexists. split; [done|]. cbn [pr_custom_routes]. by rewrite lookup_insert_eq.
    + intros r' H. apply bind_Ok in H as ([] & _ & H). done.
Qed.

Lemma authorize_iff resolved request :
  router_authorize resolved request = Ok RouteAllow ↔
  ∀ required, ro_required_capability (rr_policy resolved) = Some required →
    ∃ c, c ∈ rq_capabilities request ∧
      (normalize_capability c = normalize_capability required ∨ normalize_capability c = "*").
Proof.
  unfold router_authorize. destruct (ro_required_capability _) as [req|]; [|naive_solver].
  destruct (existsb _ _) eqn:He.
  - split; [|done]. intros _ ? [= <-]. apply existsb_exists in He as (c & Hin & Hc).
    apply list_elem_of_In, elem_of_btree_elements in Hin. exists c. split; [done|].
    apply orb_true_iff in Hc as [?%bool_decide_eq_true|?%bool_decide_eq_true]; auto.
  - split; [done|]. intros H. destruct (H req eq_refl) as (c & Hin & Hc).
    assert (existsb (λ capability, bool_decide (normalize_capability capability =
      normalize_capability req) || bool_decide (normalize_capability capability = "*"))
      (btree_elements (rq_capabilities request)) = true); [|simpl in *; congruence].
    apply existsb_exists. exists c. rewrite <-list_elem_of_In, elem_of_btree_elements.
    split; [done|]. apply orb_true_iff. destruct Hc; [left|right]; by apply bool_decide_eq_true.
Qed.

(** A caller is authorized exactly when the route requires nothing or one
    of its capabilities is the required one, up to case and surrounding white
    space, or the wildcard. *)
Theorem route_authorization_exact resolved request :
  match router_authorize resolved request with
  | Ok RouteAllow => ∀ required, ro_required_capability (rr_policy resolved) = Some required →
      ∃ c, c ∈ rq_capabilities request ∧
        (normalize_capability c = normalize_capability required ∨ normalize_capability c = "*")
  | Err (RouteMissingCapability method required) =>
      method = ResolvedRoute_method resolved ∧
      ∃ raw, ro_required_capability (rr_policy resolved) = Some raw ∧
        required = normalize_capability raw ∧
        ∀ c, c ∈ rq_capabilities request →
          normalize_capability c ≠ required ∧ normalize_capability c ≠ "*"
  end.
Proof.
  destruct (router_authorize resolved request) as [[]|[method required]] eqn:Ha;
    [by apply authorize_iff|].
  assert (method = ResolvedRoute_method resolved ∧ ∃ raw,
    ro_required_capability (rr_policy resolved) = Some raw ∧ required = normalize_capability raw)
    as (Hm & raw & Hr & ->).
  { unfold router_authorize in Ha. repeat case_match; simplify_eq; eauto. }
  split; [done|]. exists raw. split_and!; [done..|]. intros c Hc.
  assert (¬ (normalize_capability c = normalize_capability raw ∨ normalize_capability c = "*")) as Hn.
  { intros Hor. assert (router_authorize resolved request = Ok RouteAllow); [|congruence].
    apply authorize_iff. intros req' Hr'. rewrite Hr in Hr'. simplify_eq. eauto. }
  naive_solver.
Qed.

(** [allow_anonymous] has no effect: two policies that differ only there
    give the same answers, and a route that forbids anonymous callers but
    names no capability admits a caller without any. *)
Theorem allow_anonymous_is_ignored route required request a b :
  router_authorize (mkResolvedRoute route (mkRoutePolicy a required)) request =
    router_authorize (mkResolvedRoute route (mkRoutePolicy b required)) request ∧
  router_authorize (mkResolvedRoute route (mkRoutePolicy false None))
    (mkRouteAuthorizationRequest ∅) = Ok RouteAllow.
Proof. done. Qed.
End router_props.

(** ** Channels *)

(** What was accepted is what was received followed by what waits, and the
    queue never exceeds its capacity. *)
Definition channel_ok (c : channel) : Prop :=
  cn_accepted c = cn_received c ++ cn_queue c ∧ length (cn_queue c) ≤ cn_capacity c.

Lemma channel_step_ok c e c' : channel_ok c → channel_step c e c' → channel_ok c'.
Proof.
  intros [Ha Hl] Hs. destruct Hs as [| |? ? ? ? Hroom|? ? ? Hq| |]; unfold channel_ok in *; simpl; try done.
  - rewrite Ha, <-app_assoc, length_app. simpl. split; [done|lia].
  - rewrite Hq in *. simpl in *. rewrite <-app_assoc. split; [done|lia].
Qed.

(** A channel delivers every accepted frame exactly once, in order, never
    holds more than its capacity, and reports the end of the stream only after
    everything accepted has been received and the sending side is closed. *)
Theorem channel_delivers_in_order capacity c e c' :
  channel_reachable capacity c → channel_step c e c' →
  cn_accepted c = cn_received c ++ cn_queue c ∧ length (cn_queue c) ≤ cn_capacity c ∧
  match e with
  | Received (Some f) => cn_received c' = cn_received c ++ [f] ∧ head (cn_queue c) = Some f
  | Received None => cn_received c = cn_accepted c ∧ cn_open c = false
  | Sent f => cn_accepted c' = cn_accepted c ++ [f]
  | SendClosed => cn_open c = false
  | _ => cn_accepted c' = cn_accepted c ∧ cn_received c' = cn_received c
  end.
Proof.
  intros Hr Hs. assert (channel_ok c) as [Ha Hl].
  { apply (steps_invariant (λ c c', ∃ e, channel_step c e c') channel_ok (channel_new capacity) c);
      [|split; [done|simpl; lia]|exact Hr].
    intros x y Hx [ev Hev]. by eapply channel_step_ok. }
  split_and!; [done..|]. destruct Hs as [| | |? ? ? Hq|? Hq| ]; simpl; try done.
  - by rewrite Hq.
  - by rewrite Ha, Hq, app_nil_r.
Qed.

(** ** JSON lines *)
Section jsonline_props.
  Context (frame_to_json : OutboundFrame → result string string).
  Context (frame_from_json : string → result string InboundFrame).

(** The codec writes one non-empty line of valid UTF-8 that reads back as the
    same frame. *)
Definition codec_ok (f : OutboundFrame) : Prop :=
  ∃ s, frame_to_json f = Ok s ∧ s ≠ "" ∧ utf8_valid s = true ∧
    all_bytes (λ a, negb (is_line_end a)) s = true ∧
    frame_from_json s = Ok (inbound_of f).

(** Sending frames one after the other. *)
Definition send_all (fs : list OutboundFrame) : ST JsonLineTransport TransportError unit :=
  for_each (jsonline_send frame_to_json) fs.

(** Receiving until the end of the stream; [None] is out of fuel. *)
Fixpoint recv_all (n : nat) (t : JsonLineTransport) :
    option (result TransportError (list InboundFrame)) :=
  match n with
  | O => None
  | S n =>
      match jsonline_recv frame_from_json t with
      | Some (Ok (Some f), t) =>
          match recv_all n t with
          | Some (Ok fs) => Some (Ok (f :: fs))
          | other => other
          end
      | Some (Ok None, _) => Some (Ok [])
      | Some (Err e, _) => Some (Err e)
      | None => None
      end
  end.

Lemma read_line_app s rest : all_bytes (λ a, negb (is_line_end a)) s = true →
  read_line (s +:+ String newline rest) = (s +:+ String newline "", true, rest).
Proof.
  induction s as [|a s IH]; [done|]. cbn [all_bytes]. intros [Ha Hs]%andb_true_iff.
  rewrite !app_cons_str. cbn [read_line]. rewrite (IH Hs).
  unfold is_line_end in Ha. by destruct (Ascii.eqb a newline).
Qed.

Lemma read_line_length s line ended rest : read_line s = (line, ended, rest) →
  String.length line + String.length rest = String.length s.
Proof.
  revert line ended rest. induction s as [|a s IH]; intros line ended rest; simpl;
    [by intros [= <- _ <-]|].
  destruct (Ascii.eqb a newline); [by intros [= <- _ <-]|].
  destruct (read_line s) as [[l e] r] eqn:Hr. intros [= <- _ <-]. simpl. by rewrite (IH l e r).
Qed.

Lemma read_utf8_line_length error s line rest : read_utf8_line error s = (Ok line, rest) →
  String.length line + String.length rest = String.length s.
Proof.
  unfold read_utf8_line. destruct (read_line s) as [[l e] r] eqn:Hr.
  intros H. apply (read_line_length s line e rest). rewrite Hr. repeat case_match; naive_solver.
Qed.

Lemma trim_line_ends_app s : all_bytes (λ a, negb (is_line_end a)) s = true →
  trim_line_ends (s +:+ String newline "") = s.
Proof.
  intros Hs. unfold trim_line_ends. rewrite rev_app_str. cbn.
  rewrite <-(rev_rev_str s) at 2. f_equal. rewrite <-all_bytes_rev in Hs.
  destruct (String.rev s) as [|a t]; [done|]. simpl in *. by destruct (is_line_end a).
Qed.

Lemma utf8_valid_app_newline s : utf8_valid s = true → utf8_valid (s +:+ String newline "") = true.
Proof.
  assert (∀ n s, String.length s ≤ n → utf8_valid s = true →
    utf8_valid (s +:+ String newline "") = true) as H; [|by apply (H (String.length s))].
  clear s. induction n as [|n IH]; intros s Hn Hv.
  { by rewrite (length_nil_str s) by lia. }
  destruct s as [|a s]; [done|]. rewrite app_cons_str. cbn [utf8_valid] in *. simpl in Hn.
  destruct (in_range 0 127 a); [apply IH; [lia|done]|].
  destruct s as [|b s]; [done|]. rewrite app_cons_str. simpl in Hn.
  destruct (in_range 194 223 a); [apply andb_true_iff in Hv as [-> Hv]; simpl; apply IH; [lia|done]|].
  destruct s as [|c s]; [done|]. rewrite app_cons_str. simpl in Hn.
  destruct (in_range 224 239 a);
    [apply andb_true_iff in Hv as [-> Hv]; simpl; apply IH; [lia|done]|].
  destruct s as [|d s]; [done|]. rewrite app_cons_str. simpl in Hn.
  apply andb_true_iff in Hv as [-> Hv]. simpl. apply IH; [lia|done].
Qed.

(** [recv] always answers: the fuel is enough. *)
Lemma recv_loop_total fuel error input : String.length input < fuel →
  is_Some (jsonline_recv_loop frame_from_json fuel error input).
Proof.
  revert input. induction fuel as [|fuel IH]; intros input Hf; [lia|]. cbn [jsonline_recv_loop].
  destruct (read_utf8_line error input) as [[line|] rest] eqn:Hr; [|eauto].
  apply read_utf8_line_length in Hr. destruct line as [|a line]; [eauto|]. cbn [is_empty].
  destruct (is_empty (trim_line_ends _)); [apply IH; simpl in Hr; lia|].
  repeat case_match; eauto.
Qed.

(** One sent line is one received frame, even on a stream that breaks later. *)
Lemma recv_line f s info rest error w closed :
  frame_to_json f = Ok s → codec_ok f → (of_version f ≤ PROTOCOL_VERSION)%Z →
  jsonline_recv frame_from_json
    (mkJsonLineTransport info (mkReader (s +:+ String newline rest) error) w closed) =
  Some (Ok (Some (inbound_of f)), mkJsonLineTransport info (mkReader rest error) w closed).
Proof.
  intros Hs (s' & Hs' & Hne & Hu & Hb & Hj) Hv. rewrite Hs in Hs'. simplify_eq.
  unfold jsonline_recv. cbn [jl_reader rd_bytes rd_error jsonline_recv_loop].
  unfold read_utf8_line. rewrite (read_line_app s' rest Hb).
  rewrite (utf8_valid_app_newline s' Hu).
  destruct error; (rewrite (trim_line_ends_app s' Hb);
    destruct (is_empty (s' +:+ _)) eqn:He; [by destruct s'|];
    destruct (is_empty s') eqn:He'; [by destruct s'|]; rewrite Hj; cbn [inbound_of if_version];
    destruct (Z.ltb_spec PROTOCOL_VERSION (of_version f)); [lia|done]).
Qed.

(** A writer that does not fail. *)
Definition writes (w : Writer) : Prop := wr_write_error w = None ∧ wr_flush_error w = None.

(** What is left of a stream once its frames are received: the end, or the
    error that breaks it. *)
Definition drained (error : option string) (fs : list InboundFrame) :
    result TransportError (list InboundFrame) :=
  match error with
  | None => Ok fs
  | Some e => Err (TransportFailure ("failed to read frame: " +:+ e))
  end.

(** Everything [fs] writes, as one stream. *)
Lemma send_all_output fs info reader w : writes w → Forall codec_ok fs →
  ∃ out, send_all fs (mkJsonLineTransport info reader w false) =
    (Ok (), mkJsonLineTransport info reader (wr_append out w) false) ∧
  (Forall (λ f, (of_version f ≤ PROTOCOL_VERSION)%Z) fs → ∀ info' error w' c n, length fs < n →
    recv_all n (mkJsonLineTransport info' (mkReader out error) w' c) =
    Some (drained error (inbound_of <$> fs))).
Proof.
  intros Hw Hall. revert w Hw. induction Hall as [|f fs Hf _ IH]; intros w [Hw Hfl].
  - exists "". split.
    { unfold wr_append. rewrite app_nil_r_str. by destruct w. }
    intros _ info' error w' c n Hn. destruct n; [simpl in Hn; lia|]. by destruct error.
  - pose proof Hf as (s & Hs & _). unfold send_all. cbn [for_each]. rewrite st_bind_run.
    unfold jsonline_send at 1. cbn [jl_closed jl_writer]. rewrite Hs, Hw, Hfl.
    destruct (IH (wr_append (s +:+ String newline "") w)) as (out & Ho & Hr); [done|].
    exists (s +:+ String newline out). split.
    + unfold send_all in Ho. cbn [jl_info jl_reader]. rewrite Ho. unfold wr_append. simpl wr_bytes.
      by rewrite !app_assoc_str, app_cons_str, app_nil_l_str.
    + intros [Hv Hvs]%Forall_cons info' error w' c n Hn. destruct n as [|n]; [simpl in Hn; lia|].
      cbn [recv_all]. rewrite (recv_line f s info' out error w' c Hs Hf Hv).
      simpl in Hn. rewrite (Hr Hvs info' error w' c n) by lia. by destruct error.
Qed.

(** Frames round-trip over a JSON line stream: what one side sends over a
    writer that does not fail, the other receives in order, followed by the
    end of the stream, or by the read error of a stream that breaks after
    them; as long as the frames' version is supported and the codec writes
    single lines that it reads back. *)
Theorem jsonline_roundtrip fs info reader w info' error w' c :
  writes w → Forall codec_ok fs → Forall (λ f, (of_version f ≤ PROTOCOL_VERSION)%Z) fs →
  ∃ stream,
    send_all fs (mkJsonLineTransport info reader w false) =
      (Ok (), mkJsonLineTransport info reader (wr_append stream w) false) ∧
    recv_all (S (length fs)) (mkJsonLineTransport info' (mkReader stream error) w' c) =
      Some (drained error (inbound_of <$> fs)).
Proof.
  intros Hw Hall Hv. destruct (send_all_output fs info reader w Hw Hall) as (stream & Hs & Hr).
  exists stream. split; [done|]. apply Hr; [done|lia].
Qed.

(** A closed transport sends nothing, and receiving terminates on every input:
    the loop always ends in a frame, the end of the stream or an error. *)
Lemma jsonline_recv_terminates t f :
  is_Some (jsonline_recv frame_from_json t) ∧
  jsonline_send frame_to_json f (jsonline_close t).2 = (Err TransportClosed, (jsonline_close t).2).
Proof.
  split.
  - unfold jsonline_recv.
    destruct (recv_loop_total (S (String.length (rd_bytes (jl_reader t)))) (rd_error (jl_reader t))
      (rd_bytes (jl_reader t))) as [[r rest] ->]; [lia|]. simpl. eauto.
  - unfold jsonline_close. by repeat case_match.
Qed.
End jsonline_props.

(** ** Concrete instances *)
Module ProtocolDemo.
#[local] Instance debug_str : Debug string := λ s, s.

Lemma demo_valid : valid_method "tools/list".
Proof. apply validate_method_iff. vm_compute. reflexivity. Qed.

Lemma routing_witness :
  resolve (ProtocolRouter_new true) "tools/list" = Err (UnknownMethod "tools/list").
Proof.
  rewrite (proj1 (routing_is_faithful true (ProtocolRouter_new true) "tools/list" RoutePolicy_default
    (built_new true) demo_valid)). vm_compute. reflexivity.
Defined.

Definition frame : OutboundFrame := mkOutboundFrame "tools/call" (Some "1") JNull 1.
Definition to_json (f : OutboundFrame) : result string string := Ok (of_method f).
Definition from_json (s : string) : result string InboundFrame :=
  Ok (mkInboundFrame s (Some "1") JNull 1).

Lemma channel_witness :
  cn_accepted (channel_new 1) = cn_received (channel_new 1) ++ cn_queue (channel_new 1).
Proof.
  apply (channel_delivers_in_order 1 (channel_new 1) Waiting
    (mkChannel 1 true [inbound_of frame] [] [] [])); [apply steps_refl|].
  apply (ch_send_start (channel_new 1) frame). reflexivity.
Defined.

Definition info : TransportInfo := mkTransportInfo "demo" "1" false.
Definition writer : Writer := mkWriter "" None None None.

Lemma jsonline_witness :
  ∃ stream, recv_all from_json 3 (mkJsonLineTransport info (mkReader stream None) writer false) =
    Some (Ok [inbound_of frame; inbound_of frame]).
Proof.
  destruct (jsonline_roundtrip to_json from_json [frame; frame] info (mkReader "" None) writer
    info None writer false) as (stream & _ & Hr).
  - done.
  - repeat constructor; exists "tools/call"; repeat split; discriminate.
  - repeat constructor; discriminate.
  - exists stream. exact Hr.
Defined.
End ProtocolDemo.
