(* ===== verification/Programmatic.v ===== *)
(** * Programmatic: policies of programmatic connector calls
    (spec/src/programmatic.rs, with the types of spec/src/spec_runtime.rs)

    A scenario may call connectors in a program of steps. Each call runs
    under a retry policy, a rate limit and a circuit breaker, and batches run
    under a concurrency policy. This file holds the policies, their validation
    and the error texts; [Circuit], [Scheduler] and [Resilience] use them.
    [usize] is 64 bits wide. *)
From S2P Require Import Prelude Json RustStr Contracts Errors.
From Stdlib Require Import SpecFloat.

(** ** Error texts *)
Inductive ProgrammaticErrorCode :=
| EC_InvalidSpec | EC_UnknownStep | EC_PointerNotFound | EC_TemplateError
| EC_ConnectorNotAllowed | EC_CallBudgetExceeded | EC_CircuitOpen | EC_ConnectorInvokeFailed.

Definition ProgrammaticErrorCode_as_str (c : ProgrammaticErrorCode) : string :=
  match c with
  | EC_InvalidSpec => "invalid_spec"
  | EC_UnknownStep => "unknown_step"
  | EC_PointerNotFound => "pointer_not_found"
  | EC_TemplateError => "template_error"
  | EC_ConnectorNotAllowed => "connector_not_allowed"
  | EC_CallBudgetExceeded => "call_budget_exceeded"
  | EC_CircuitOpen => "circuit_open"
  | EC_ConnectorInvokeFailed => "connector_invoke_failed"
  end.

Definition programmatic_error (code : ProgrammaticErrorCode) (message : string) : string :=
  "programmatic_error[" +:+ ProgrammaticErrorCode_as_str code +:+ "]: " +:+ message.

(** [call_id.map(|id| format!(" call_id={id}")).unwrap_or_default()] *)
Definition call_label (call_id : option string) : string :=
  match call_id with Some id => " call_id=" +:+ id | None => "" end.

(** ** Policies *)

Record ProgrammaticRetryPolicy := mkProgrammaticRetryPolicy {
  rt_max_attempts : Z;
  rt_initial_backoff_ms : Z;
  rt_max_backoff_ms : Z;
  rt_jitter_ratio : f64;
  rt_adaptive_jitter : bool;
}.

Record ProgrammaticConnectorRateLimit := mkProgrammaticConnectorRateLimit {
  rl_min_interval_ms : Z }.

Inductive ProgrammaticPriorityClass := PriorityHigh | PriorityNormal | PriorityLow.

#[export] Instance ProgrammaticPriorityClass_eq_dec : EqDecision ProgrammaticPriorityClass.
Proof. solve_decision. Defined.

Definition ProgrammaticPriorityClass_as_str (p : ProgrammaticPriorityClass) : string :=
  match p with PriorityHigh => "high" | PriorityNormal => "normal" | PriorityLow => "low" end.

Inductive ProgrammaticFairnessPolicy := StrictRoundRobin | WeightedRoundRobin.

Definition ProgrammaticFairnessPolicy_as_str (f : ProgrammaticFairnessPolicy) : string :=
  match f with
  | StrictRoundRobin => "strict_round_robin"
  | WeightedRoundRobin => "weighted_round_robin"
  end.

Inductive ProgrammaticAdaptiveReduceOn :=
| OnAnyError | OnConnectorExecutionError | OnCircuitOpen | OnConnectorNotFound
| OnConnectorNotAllowed | OnCapabilityDenied | OnPolicyDenied.

#[export] Instance ProgrammaticAdaptiveReduceOn_eq_dec : EqDecision ProgrammaticAdaptiveReduceOn.
Proof. solve_decision. Defined.

(** The derived [Ord] is the order of declaration. *)
Definition all_reduce_on : list ProgrammaticAdaptiveReduceOn :=
  [OnAnyError; OnConnectorExecutionError; OnCircuitOpen; OnConnectorNotFound;
   OnConnectorNotAllowed; OnCapabilityDenied; OnPolicyDenied].

#[export] Program Instance ProgrammaticAdaptiveReduceOn_finite :
    finite.Finite ProgrammaticAdaptiveReduceOn := {| finite.enum := all_reduce_on |}.
Next Obligation. by apply (bool_decide_unpack _). Qed.
Next Obligation. intros []; by apply (bool_decide_unpack _). Qed.
#[export] Instance ProgrammaticAdaptiveReduceOn_countable : Countable ProgrammaticAdaptiveReduceOn :=
  finite.finite_countable.

Definition ProgrammaticAdaptiveReduceOn_as_str (r : ProgrammaticAdaptiveReduceOn) : string :=
  match r with
  | OnAnyError => "any_error"
  | OnConnectorExecutionError => "connector_execution_error"
  | OnCircuitOpen => "circuit_open"
  | OnConnectorNotFound => "connector_not_found"
  | OnConnectorNotAllowed => "connector_not_allowed"
  | OnCapabilityDenied => "capability_denied"
  | OnPolicyDenied => "policy_denied"
  end.

Record ProgrammaticConcurrencyPolicy := mkProgrammaticConcurrencyPolicy {
  cp_max_in_flight : Z;
  cp_min_in_flight : Z;
  cp_fairness : ProgrammaticFairnessPolicy;
  cp_adaptive_budget : bool;
  cp_high_weight : Z;
  cp_normal_weight : Z;
  cp_low_weight : Z;
  cp_adaptive_recovery_successes : Z;
  cp_adaptive_upshift_step : Z;
  cp_adaptive_downshift_step : Z;
  cp_adaptive_reduce_on : gset ProgrammaticAdaptiveReduceOn;
}.

Record ProgrammaticCircuitBreakerPolicy := mkProgrammaticCircuitBreakerPolicy {
  cb_failure_threshold : Z;
  cb_cooldown_ms : Z;
  cb_half_open_max_calls : Z;
  cb_success_threshold : Z;
}.

(** ** Defaults *)

(** 0.2 as a binary64 number *)
Definition default_programmatic_retry_jitter_ratio : f64 :=
  S754_finite false 7205759403792794 (-55).

Definition default_retry_policy : ProgrammaticRetryPolicy :=
  mkProgrammaticRetryPolicy 1 100 2000 default_programmatic_retry_jitter_ratio true.

Definition default_programmatic_concurrency_policy : ProgrammaticConcurrencyPolicy :=
  mkProgrammaticConcurrencyPolicy 4 1 WeightedRoundRobin true 4 2 1 2 1 1
    {[OnConnectorExecutionError; OnCircuitOpen]}.

(** ** Validation *)

(** [if bad { return Err(..) }] *)
Definition reject (bad : bool) (message : string) : result string unit :=
  if bad then Err (programmatic_error EC_InvalidSpec message) else Ok ().

(** A loop of checks that returns at the first error. *)
Fixpoint check_each {A} (check : A → result string unit) (xs : list A) : result string unit :=
  match xs with [] => Ok () | x :: xs => _ ← check x; check_each check xs end.

Definition validate_retry_policy (policy : option ProgrammaticRetryPolicy) (step_id : string)
    (call_id : option string) : result string ProgrammaticRetryPolicy :=
  let resolved := match policy with Some p => p | None => default_retry_policy end in
  let suffix := match call_id with Some id => " (call_id=" +:+ id +:+ ")" | None => "" end in
  _ ← reject (rt_max_attempts resolved =? 0)%Z
        ("programmatic step " +:+ step_id +:+ " retry.max_attempts must be greater than 0" +:+ suffix);
  _ ← reject (rt_max_backoff_ms resolved <? rt_initial_backoff_ms resolved)%Z
        ("programmatic step " +:+ step_id +:+
         " retry.max_backoff_ms must be >= retry.initial_backoff_ms" +:+ suffix);
  _ ← reject (negb (f64_is_finite (rt_jitter_ratio resolved)) ||
              negb (SFleb f64_0 (rt_jitter_ratio resolved) && SFleb (rt_jitter_ratio resolved) f64_1))
        ("programmatic step " +:+ step_id +:+ " retry.jitter_ratio must be within [0.0, 1.0]" +:+
         suffix);
  Ok resolved.

Definition validate_programmatic_rate_limits
    (rate_limits : gmap string ProgrammaticConnectorRateLimit) : result string unit :=
  check_each (λ '(connector_name, limit),
    _ ← reject (is_empty (trim connector_name)) "connector_rate_limits contains an empty connector key";
    reject (rl_min_interval_ms limit =? 0)%Z
      ("connector_rate_limits[" +:+ connector_name +:+ "] min_interval_ms must be greater than 0"))
    (btree_entries rate_limits).

Definition validate_circuit_breaker (connector_name : string)
    (policy : ProgrammaticCircuitBreakerPolicy) : result string unit :=
  let field text := "connector_circuit_breakers[" +:+ connector_name +:+ "] " +:+ text in
  _ ← reject (is_empty (trim connector_name))
        "connector_circuit_breakers contains an empty connector key";
  _ ← reject (cb_failure_threshold policy =? 0)%Z (field "failure_threshold must be greater than 0");
  _ ← reject (cb_cooldown_ms policy =? 0)%Z (field "cooldown_ms must be greater than 0");
  _ ← reject (cb_half_open_max_calls policy =? 0)%Z
        (field "half_open_max_calls must be greater than 0");
  _ ← reject (cb_success_threshold policy =? 0)%Z (field "success_threshold must be greater than 0");
  reject (cb_half_open_max_calls policy <? cb_success_threshold policy)%Z
    (field "success_threshold must be <= half_open_max_calls").

Definition validate_programmatic_circuit_breakers
    (policies : gmap string ProgrammaticCircuitBreakerPolicy) : result string unit :=
  check_each (λ '(connector_name, policy), validate_circuit_breaker connector_name policy)
    (btree_entries policies).

Definition validate_programmatic_concurrency_policy (c : ProgrammaticConcurrencyPolicy) :
    result string unit :=
  _ ← reject (cp_max_in_flight c =? 0)%Z
        "programmatic concurrency.max_in_flight must be greater than 0";
  _ ← reject (cp_min_in_flight c =? 0)%Z
        "programmatic concurrency.min_in_flight must be greater than 0";
  _ ← reject (cp_max_in_flight c <? cp_min_in_flight c)%Z
        "programmatic concurrency.min_in_flight must be <= max_in_flight";
  _ ← reject ((cp_high_weight c =? 0) || (cp_normal_weight c =? 0) || (cp_low_weight c =? 0))%Z
        "programmatic concurrency priority weights must all be greater than 0";
  _ ← reject ((cp_adaptive_upshift_step c =? 0) || (cp_adaptive_downshift_step c =? 0))%Z
        "programmatic concurrency adaptive_upshift_step and adaptive_downshift_step must be greater than 0";
  _ ← reject (cp_adaptive_budget c && (cp_adaptive_recovery_successes c =? 0)%Z)
        "programmatic concurrency.adaptive_recovery_successes must be greater than 0 when adaptive_budget is enabled";
  reject (cp_adaptive_budget c && bool_decide (cp_adaptive_reduce_on c = ∅))
    "programmatic concurrency.adaptive_reduce_on must include at least one trigger when adaptive_budget is enabled".

(** ** What validation guarantees *)

Lemma reject_Ok bad message : reject bad message = Ok () ↔ bad = false.
Proof. unfold reject. by destruct bad. Qed.

Lemma check_each_Ok {A} (check : A → result string unit) xs :
  check_each check xs = Ok () ↔ Forall (λ x, check x = Ok ()) xs.
Proof.
  induction xs as [|x xs IH]; simpl; [done|]. rewrite Forall_cons, <-IH.
  destruct (check x) as [[]|]; simpl; [tauto|]. split; [done|by intros [? _]].
Qed.

(** A validated breaker, on policies whose fields are unsigned. *)
Record breaker_valid (p : ProgrammaticCircuitBreakerPolicy) : Prop := {
  bv_threshold : (0 < cb_failure_threshold p)%Z;
  bv_cooldown : (0 < cb_cooldown_ms p)%Z;
  bv_success : (0 < cb_success_threshold p ≤ cb_half_open_max_calls p)%Z;
}.

Definition breaker_unsigned (p : ProgrammaticCircuitBreakerPolicy) : Prop :=
  is_u64 (cb_failure_threshold p) ∧ is_u64 (cb_cooldown_ms p) ∧
  is_u64 (cb_half_open_max_calls p) ∧ is_u64 (cb_success_threshold p).

Lemma validate_circuit_breaker_valid name p :
  breaker_unsigned p → validate_circuit_breaker name p = Ok () → breaker_valid p.
Proof.
  intros (Hf & Hc & Hh & Hs) H. unfold validate_circuit_breaker in H. run_inv.
  repeat match goal with x : unit |- _ => destruct x end.
  rewrite ?reject_Ok, ?Z.eqb_neq, ?Z.ltb_ge in *. unfold is_u64 in *. constructor; lia.
Qed.

Lemma validate_circuit_breakers_valid policies name p :
  validate_programmatic_circuit_breakers policies = Ok () → policies !! name = Some p →
  breaker_unsigned p → breaker_valid p.
Proof.
  unfold validate_programmatic_circuit_breakers. rewrite check_each_Ok, Forall_forall.
  intros H Hp Hu. apply (validate_circuit_breaker_valid name); [done|].
  apply (H (name, p)). by apply elem_of_btree_entries.
Qed.

Lemma validate_concurrency_valid c :
  validate_programmatic_concurrency_policy c = Ok () → (0 ≤ cp_min_in_flight c)%Z →
  (0 < cp_min_in_flight c ≤ cp_max_in_flight c)%Z.
Proof.
  intros H H0. unfold validate_programmatic_concurrency_policy in H. run_inv.
  repeat match goal with x : unit |- _ => destruct x end.
  rewrite ?reject_Ok, ?Z.eqb_neq, ?Z.ltb_ge in *. lia.
Qed.
