(* ===== verification/Circuit.v ===== *)
(** * Circuit: circuit breakers and rate limits of connectors
    (spec/src/programmatic.rs)

    Both keep one entry per connector in a map behind a mutex; an operation
    locks the map, reads the time and updates the entry. Instants are
    nanoseconds. *)
From S2P Require Import Prelude RustStr Contracts Errors Programmatic.

(** [Duration::from_millis] and [Duration::as_millis] *)
Definition millis (ms : Z) : Z := (ms * 1000000)%Z.
Definition as_millis (ns : Z) : Z := (ns / 1000000)%Z.

(** ** Circuit breaker *)

Inductive ProgrammaticCircuitPhase := PhaseClosed | PhaseOpen | PhaseHalfOpen.

#[export] Instance ProgrammaticCircuitPhase_eq_dec : EqDecision ProgrammaticCircuitPhase.
Proof. solve_decision. Defined.

Record ProgrammaticCircuitRuntimeState := mkCircuitState {
  cs_phase : ProgrammaticCircuitPhase;
  cs_consecutive_failures : Z;
  cs_open_until : option Z;
  cs_half_open_remaining_calls : Z;
  cs_half_open_successes : Z;
}.

Definition CircuitState_default : ProgrammaticCircuitRuntimeState :=
  mkCircuitState PhaseClosed 0 None 0 0.

(** [Some(now + Duration::from_millis(policy.cooldown_ms))] *)
Definition cooldown_end (policy : ProgrammaticCircuitBreakerPolicy) (now : Z) : option Z :=
  Some (now + millis (cb_cooldown_ms policy))%Z.

(** The second test of [acquire_programmatic_circuit_slot], on the entry that
    the first one leaves. *)
Definition take_slot (policy : ProgrammaticCircuitBreakerPolicy) (who : string) (now : Z)
    (e : ProgrammaticCircuitRuntimeState) : result string string * ProgrammaticCircuitRuntimeState :=
  match cs_phase e with
  | PhaseHalfOpen =>
      if (cs_half_open_remaining_calls e =? 0)%Z then
        (Err (programmatic_error EC_CircuitOpen
                (who +:+ " half-open window exhausted and re-opened")),
         mkCircuitState PhaseOpen (cs_consecutive_failures e) (cooldown_end policy now)
           (cs_half_open_remaining_calls e) (cs_half_open_successes e))
      else
        (Ok "half_open",
         mkCircuitState PhaseHalfOpen (cs_consecutive_failures e) (cs_open_until e)
           (sat_sub (cs_half_open_remaining_calls e) 1) (cs_half_open_successes e))
  | _ => (Ok "closed", e)
  end.

(** [until.is_some_and(|until| until > now)], the cooldown that remains *)
Definition cooling (now : Z) (e : ProgrammaticCircuitRuntimeState) : option Z :=
  match cs_open_until e with
  | Some until => if (now <? until)%Z then Some (until - now)%Z else None
  | None => None
  end.

(** [acquire_programmatic_circuit_slot] on the connector's entry *)
Definition acquire_entry (policy : ProgrammaticCircuitBreakerPolicy) (who : string) (now : Z)
    (e : ProgrammaticCircuitRuntimeState) : result string string * ProgrammaticCircuitRuntimeState :=
  match cs_phase e with
  | PhaseOpen =>
      match cooling now e with
      | Some remaining =>
          (Err (programmatic_error EC_CircuitOpen
                  (who +:+ " is circuit-open (remaining_cooldown_ms=" +:+
                   display (as_millis remaining) +:+ ")")), e)
      | None =>
          take_slot policy who now
            (mkCircuitState PhaseHalfOpen (cs_consecutive_failures e) None
               (cb_half_open_max_calls policy) 0)
      end
  | _ => take_slot policy who now e
  end.

(** [record_programmatic_circuit_outcome] on the connector's entry *)
Definition record_entry (policy : ProgrammaticCircuitBreakerPolicy) (success : bool) (now : Z)
    (e : ProgrammaticCircuitRuntimeState) : ProgrammaticCircuitRuntimeState :=
  match cs_phase e, success with
  | PhaseClosed, true =>
      mkCircuitState PhaseClosed 0 (cs_open_until e) (cs_half_open_remaining_calls e)
        (cs_half_open_successes e)
  | PhaseClosed, false =>
      let failures := sat_add (cs_consecutive_failures e) 1 in
      if (cb_failure_threshold policy <=? failures)%Z then
        mkCircuitState PhaseOpen failures (cooldown_end policy now) 0 0
      else
        mkCircuitState PhaseClosed failures (cs_open_until e) (cs_half_open_remaining_calls e)
          (cs_half_open_successes e)
  | PhaseHalfOpen, true =>
      let successes := sat_add (cs_half_open_successes e) 1 in
      if (cb_success_threshold policy <=? successes)%Z then mkCircuitState PhaseClosed 0 None 0 0
      else if (cs_half_open_remaining_calls e =? 0)%Z then
        mkCircuitState PhaseOpen (cs_consecutive_failures e) (cooldown_end policy now)
          (cs_half_open_remaining_calls e) 0
      else
        mkCircuitState PhaseHalfOpen (cs_consecutive_failures e) (cs_open_until e)
          (cs_half_open_remaining_calls e) successes
  | PhaseHalfOpen, false =>
      mkCircuitState PhaseOpen (cs_consecutive_failures e) (cooldown_end policy now) 0 0
  | PhaseOpen, _ => e
  end.

Definition phase_str (p : ProgrammaticCircuitPhase) : string :=
  match p with PhaseClosed => "closed" | PhaseOpen => "open" | PhaseHalfOpen => "half_open" end.

Abbreviation CircuitMap := (gmap string ProgrammaticCircuitRuntimeState).

(** [guard.entry(name).or_default()] *)
Definition circuit_entry (connector_name : string) (m : CircuitMap) : ProgrammaticCircuitRuntimeState :=
  match m !! connector_name with Some e => e | None => CircuitState_default end.

(** [acquire_programmatic_circuit_slot] *)
Definition acquire_programmatic_circuit_slot (connector_name : string)
    (policies : gmap string ProgrammaticCircuitBreakerPolicy) (step_id : string)
    (call_id : option string) (now : Z) : ST CircuitMap string string := λ m,
  match policies !! connector_name with
  | None => (Ok "disabled", m)
  | Some policy =>
      let who := "programmatic step " +:+ step_id +:+ call_label call_id +:+ " connector " +:+
                 connector_name in
      let '(r, e) := acquire_entry policy who now (circuit_entry connector_name m) in
      (r, <[connector_name := e]> m)
  end.

(** [record_programmatic_circuit_outcome] *)
Definition record_programmatic_circuit_outcome (connector_name : string) (success : bool)
    (policies : gmap string ProgrammaticCircuitBreakerPolicy) (now : Z) (m : CircuitMap) :
    string * CircuitMap :=
  match policies !! connector_name with
  | None => ("disabled", m)
  | Some policy =>
      let e := record_entry policy success now (circuit_entry connector_name m) in
      (phase_str (cs_phase e), <[connector_name := e]> m)
  end.

(** ** Rate limit *)

(** [apply_programmatic_rate_limit] up to the sleep: the wait, and the next
    slot of the connector. *)
Definition rate_limit_slot (connector_name : string) (limit : ProgrammaticConnectorRateLimit)
    (now : Z) (m : gmap string Z) : Z * gmap string Z :=
  let scheduled := match m !! connector_name with Some t => t | None => now end in
  let wait := if (now <? scheduled)%Z then (scheduled - now)%Z else 0%Z in
  let base := if (now <? scheduled)%Z then scheduled else now in
  (wait, <[connector_name := (base + millis (rl_min_interval_ms limit))%Z]> m).

(** [apply_programmatic_rate_limit] up to the sleep, for any connector. *)
Definition rate_limit_wait (connector_name : string)
    (limits : gmap string ProgrammaticConnectorRateLimit) (now : Z) (m : gmap string Z) :
    Z * gmap string Z :=
  match limits !! connector_name with
  | None => (0%Z, m)
  | Some limit => rate_limit_slot connector_name limit now m
  end.

(** ** Runs of one breaker

    Calls of any number of tasks reach the entry one after the other, at
    increasing times: slots are requested and outcomes recorded in any
    order. *)
Inductive circuit_op := Acquire (who : string) | Outcome (success : bool).

Section runs.
  Context (policy : ProgrammaticCircuitBreakerPolicy).

(** The answer to a slot request, and the entry after the operation. *)
Definition circuit_step (now : Z) (op : circuit_op) (e : ProgrammaticCircuitRuntimeState) :
    option (result string string) * ProgrammaticCircuitRuntimeState :=
  match op with
  | Acquire who => let '(r, e) := acquire_entry policy who now e in (Some r, e)
  | Outcome success => (None, record_entry policy success now e)
  end.

Fixpoint circuit_run (ops : list (Z * circuit_op)) (e : ProgrammaticCircuitRuntimeState) :
    list (result string string) * ProgrammaticCircuitRuntimeState :=
  match ops with
  | [] => ([], e)
  | (now, op) :: ops =>
      let '(r, e) := circuit_step now op e in
      let '(rs, e) := circuit_run ops e in
      (match r with Some r => r :: rs | None => rs end, e)
  end.

Lemma circuit_run_app ops ops' e :
  circuit_run (ops ++ ops') e =
  (let '(rs, e1) := circuit_run ops e in
   let '(rs', e2) := circuit_run ops' e1 in (rs ++ rs', e2)).
Proof.
  revert e. induction ops as [|[now op] ops IH]; intros e; simpl.
  { by destruct (circuit_run ops' e). }
  destruct (circuit_step now op e) as [r e1]. rewrite IH.
  destruct (circuit_run ops e1) as [rs e2]. destruct (circuit_run ops' e2) as [rs' e3].
  by destruct r.
Qed.

(** An open entry whose cooldown runs ignores everything. *)
Lemma open_step_ignored now op e until :
  cs_phase e = PhaseOpen → cs_open_until e = Some until → (now < until)%Z →
  (circuit_step now op e).2 = e ∧
  match (circuit_step now op e).1 with Some r => is_ok r = false | None => True end.
Proof.
  intros Hp Hu Hn. destruct op as [who|success]; simpl.
  - unfold acquire_entry, cooling. rewrite Hp, Hu. by destruct (Z.ltb_spec now until); [|lia].
  - unfold record_entry. by rewrite Hp.
Qed.

Lemma open_run_ignored ops e until :
  cs_phase e = PhaseOpen → cs_open_until e = Some until → Forall (λ o, (o.1 < until)%Z) ops →
  (circuit_run ops e).2 = e ∧ Forall (λ r, is_ok r = false) (circuit_run ops e).1.
Proof.
  intros Hp Hu. induction 1 as [|[now op] ops Hn _ IH]; [by repeat constructor|]. simpl in *.
  destruct (open_step_ignored now op e until Hp Hu Hn) as [He Hr].
  destruct (circuit_step now op e) as [r e']; simpl in *; subst e'.
  destruct (circuit_run ops e) as [rs e'']; simpl in *. destruct IH as [-> IH].
  split; [done|]. destruct r; [by constructor|done].
Qed.

(** The step that opens an entry starts a full cooldown. *)
Lemma opening_step now op e e' :
  e' = (circuit_step now op e).2 → cs_phase e' = PhaseOpen → e' ≠ e →
  cs_open_until e' = Some (now + millis (cb_cooldown_ms policy))%Z.
Proof.
  intros -> Hp Hne. destruct op as [who|success]; simpl in *.
  - unfold acquire_entry, take_slot in *. repeat case_match; simplify_eq/=; done || congruence.
  - unfold record_entry in *. repeat case_match; simplify_eq/=; done || congruence.
Qed.

(** *** Tripping *)

(** A run of [n] recorded failures somewhere in [outcomes]. *)
Definition failure_run (n : nat) (outcomes : list bool) : Prop :=
  ∃ pre post, outcomes = pre ++ replicate n false ++ post.

(** The outcomes reported in a run *)
Definition outcomes_of (ops : list (Z * circuit_op)) : list bool :=
  omap (λ o, match o.2 with Outcome success => Some success | Acquire _ => None end) ops.

(** No request comes later than a cooldown after an earlier failure. *)
Definition prompt (ops : list (Z * circuit_op)) : Prop :=
  ForallOrdPairs (λ o o', o.2 = Outcome false → ∀ who, o'.2 = Acquire who →
                    (o'.1 < o.1 + millis (cb_cooldown_ms policy))%Z) ops.

Lemma prompt_snoc ops o :
  prompt (ops ++ [o]) →
  prompt ops ∧ ∀ t who, (t, Outcome false) ∈ ops → o.2 = Acquire who → (o.1 < t + millis (cb_cooldown_ms policy))%Z.
Proof.
  unfold prompt. induction ops as [|o1 ops IH]; cbn.
  { intros _. split; [constructor|]. by intros ? ? ?%elem_of_nil. }
  inversion 1 as [|? ? H1 H2]; subst. apply IH in H2 as [H2 H3]. apply List.Forall_app in H1 as [H1 Hlast]. split.
  - by constructor.
  - intros t who [<-|Hin]%elem_of_cons Ho; [|by eapply H3]. inversion Hlast as [|? ? H4 _]; subst.
    by apply (H4 eq_refl who).
Qed.

(** An open entry stays as it is until the cooldown is over. *)
Lemma open_run_keeps ops e until :
  cs_phase e = PhaseOpen → cs_open_until e = Some until →
  Forall (λ o, ∀ who, o.2 = Acquire who → (o.1 < until)%Z) ops → (circuit_run ops e).2 = e.
Proof.
  intros Hp Hu. induction 1 as [|[now op] ops Hn _ IH]; [done|]. cbn [circuit_run].
  assert ((circuit_step now op e).2 = e) as He.
  { destruct op as [who|success]; [eapply open_step_ignored; [done|done|by eapply Hn]|].
    unfold circuit_step, record_entry. cbn. by rewrite Hp. }
  destruct (circuit_step now op e) as [r e']; cbn in He; subst e'. by destruct (circuit_run ops e).
Qed.

Lemma failure_run_short n k : k < n → ¬ failure_run n (replicate k false).
Proof.
  intros Hk (pre & post & H%(f_equal length)).
  rewrite !length_app, !length_replicate in H. lia.
Qed.

(** A success separates the failures before it from those after it. *)
Lemma failure_run_success n k outcomes : k < n →
  failure_run n (replicate k false ++ true :: outcomes) ↔ failure_run n outcomes.
Proof.
  intros Hk. split; intros (pre & post & H).
  - assert (k < length pre) as Hlen.
    { destruct (decide (k < length pre)); [done|].
      assert ((replicate k false ++ true :: outcomes) !! k = Some true) as Hl
        by (rewrite lookup_app_r; rewrite length_replicate; [by rewrite Nat.sub_diag|done]).
      rewrite H, lookup_app_r, lookup_app_l in Hl by (rewrite ?length_replicate; lia).
      apply lookup_replicate in Hl as [? _]. done. }
    exists (drop (S k) pre), post. apply (f_equal (drop (S k))) in H.
    rewrite (drop_app_le pre) in H by lia. rewrite <-H.
    rewrite drop_app_ge by (rewrite length_replicate; lia).
    by rewrite length_replicate, Nat.sub_succ_l, Nat.sub_diag by lia.
  - exists (replicate k false ++ true :: pre), post. rewrite H. by rewrite <-app_assoc.
Qed.

(** The closed phase counts the failures at the end of the record, and only a
    failure opens it. *)
Lemma run_trips ops e k n :
  Z.of_nat n = cb_failure_threshold policy → (cb_failure_threshold policy ≤ u64_max)%Z → prompt ops →
  cs_phase e = PhaseClosed → cs_consecutive_failures e = Z.of_nat k → k < n →
  let e' := (circuit_run ops e).2 in
  (cs_phase e' = PhaseClosed ∧ ¬ failure_run n (replicate k false ++ outcomes_of ops)) ∨
  (failure_run n (replicate k false ++ outcomes_of ops) ∧ cs_phase e' = PhaseOpen ∧
   ∃ t, (t, Outcome false) ∈ ops ∧ cs_open_until e' = Some (t + millis (cb_cooldown_ms policy))%Z).
Proof.
  intros Hn Hmax Hops. revert e k. induction Hops as [|[t op] ops Ho Hops IH]; intros e k Hp Hf Hk.
  { left. cbn. rewrite app_nil_r. split; [done|]. by apply failure_run_short. }
  cbn [circuit_run]. cbn zeta. rewrite (surjective_pairing (circuit_step t op e)), (surjective_pairing (circuit_run _ _)).
  cbn [snd]. specialize (IH (circuit_step t op e).2).
  assert (∀ P (l : list bool) e', (P l ∧ cs_phase e' = PhaseOpen ∧ ∃ t', (t', Outcome false) ∈ ops ∧
      cs_open_until e' = Some (t' + millis (cb_cooldown_ms policy))%Z) → P l ∧ cs_phase e' = PhaseOpen ∧
      ∃ t', (t', Outcome false) ∈ (t, op) :: ops ∧ cs_open_until e' = Some (t' + millis (cb_cooldown_ms policy))%Z) as Hlater.
  { intros P l e' (? & ? & t' & ? & ?). split_and!; [done|done|]. exists t'. split; [by right|done]. }
  destruct op as [who|[]]; cbn in IH |- *.
  - unfold acquire_entry, take_slot in *. rewrite Hp in *. cbn in *.
    destruct (IH k Hp Hf Hk) as [?|H]; [by left|right]. by apply (Hlater (failure_run n)).
  - unfold record_entry in *. rewrite Hp in *. rewrite failure_run_success by done.
    destruct (IH 0) as [?|H]; [done|done|lia|by left|right]. by apply (Hlater (failure_run n)).
  - unfold record_entry in *. rewrite Hp in *.
    assert (sat_add (cs_consecutive_failures e) 1 = Z.of_nat (S k)) as Hs by (rewrite Hf, sat_add_small; lia).
    rewrite Hs in *. rewrite <-Hn in *.
    replace (replicate k false ++ false :: _) with (replicate (S k) false ++ outcomes_of ops)
      by (rewrite replicate_S_end, <-app_assoc; done).
    destruct (Z.leb_spec (Z.of_nat n) (Z.of_nat (S k))).
    + right. rewrite (open_run_keeps ops _ (t + millis (cb_cooldown_ms policy))); [|done|done|].
      * split_and!; [|done|exists t; split; [by left|done]].
        exists [], (outcomes_of ops). by replace (S k) with n by lia.
      * eapply List.Forall_impl; [|exact Ho]. intros o' H'. exact (H' eq_refl).
    + destruct (IH (S k)) as [?|Ht]; [done|done|lia|by left|right]. by apply (Hlater (failure_run n)).
Qed.

(** *** Recovery *)

(** A probe: a request that is admitted and succeeds. *)
Definition probe (who : string) (t : Z) : list (Z * circuit_op) :=
  [(t, Acquire who); (t, Outcome true)].

(** Probes from the half-open phase close the breaker. *)
Lemma probes_close who ts e :
  breaker_valid policy → (cb_half_open_max_calls policy ≤ u64_max)%Z →
  cs_phase e = PhaseHalfOpen → (0 ≤ cs_half_open_successes e)%Z →
  (cs_half_open_successes e + len ts = cb_success_threshold policy)%Z → ts ≠ [] →
  (len ts ≤ cs_half_open_remaining_calls e)%Z →
  circuit_run (concat (probe who <$> ts)) e =
    (replicate (length ts) (Ok "half_open"), CircuitState_default).
Proof.
  intros [_ _ Hs] Hmax. revert e. induction ts as [|t ts IH]; intros e Hp H0 Hsum Hne Hrem; [done|].
  cbn [fmap list_fmap concat]. rewrite circuit_run_app. unfold probe at 1.
  cbn [circuit_run circuit_step]. unfold acquire_entry, take_slot. rewrite Hp.
  pose proof (len_nonneg ts) as Hts. rewrite len_cons in *.
  destruct (Z.eqb_spec (cs_half_open_remaining_calls e) 0); [lia|].
  unfold record_entry. cbn [cs_phase cs_half_open_successes cs_half_open_remaining_calls].
  rewrite sat_add_small by lia. unfold sat_sub.
  destruct (Z.leb_spec (cb_success_threshold policy) (cs_half_open_successes e + 1)).
  - destruct ts as [|t' ts]; [done|]. rewrite len_cons in *. pose proof (len_nonneg ts). lia.
  - destruct ts as [|t' ts']; [rewrite len_nil in *; lia|].
    assert (0 < len (t' :: ts'))%Z by (rewrite len_cons; pose proof (len_nonneg ts'); lia).
    destruct (Z.eqb_spec (Z.max 0 (cs_half_open_remaining_calls e - 1)) 0); [lia|].
    rewrite IH; cbn [cs_phase cs_half_open_successes cs_half_open_remaining_calls];
      [done|done|lia|lia|done|lia].
Qed.
End runs.

(** ** Runs of the shared map

    The entries of different connectors do not interfere. *)
Inductive slot_op :=
| SlotAcquire (connector_name step_id : string) (call_id : option string)
| SlotOutcome (connector_name : string) (success : bool).

Definition slot_connector (o : slot_op) : string :=
  match o with SlotAcquire c _ _ => c | SlotOutcome c _ => c end.

Definition slot_to_circuit (o : slot_op) : circuit_op :=
  match o with
  | SlotAcquire c step_id call_id =>
      Acquire ("programmatic step " +:+ step_id +:+ call_label call_id +:+ " connector " +:+ c)
  | SlotOutcome _ success => Outcome success
  end.

Section map_runs.
  Context (policies : gmap string ProgrammaticCircuitBreakerPolicy).

(** One locked operation; requests are answered. *)
Definition slot_step (now : Z) (o : slot_op) (m : CircuitMap) :
    option (result string string) * CircuitMap :=
  match o with
  | SlotAcquire c step_id call_id =>
      let '(r, m) := acquire_programmatic_circuit_slot c policies step_id call_id now m in (Some r, m)
  | SlotOutcome c success => (None, (record_programmatic_circuit_outcome c success policies now m).2)
  end.

(** The answers to requests, each with its connector. *)
Fixpoint slot_run (ops : list (Z * slot_op)) (m : CircuitMap) :
    list (string * result string string) * CircuitMap :=
  match ops with
  | [] => ([], m)
  | (now, o) :: ops =>
      let '(r, m) := slot_step now o m in
      let '(rs, m) := slot_run ops m in
      (match r with Some r => (slot_connector o, r) :: rs | None => rs end, m)
  end.

(** What a connector sees of a run. *)
Definition ops_of (c : string) (ops : list (Z * slot_op)) : list (Z * circuit_op) :=
  (λ o, (o.1, slot_to_circuit o.2)) <$> filter (λ o, slot_connector o.2 = c) ops.
Definition answers_of (c : string) (rs : list (string * result string string)) :
    list (result string string) := (filter (λ r, r.1 = c) rs).*2.

Lemma slot_step_entry c policy now o m :
  policies !! c = Some policy →
  (slot_connector o = c → (slot_step now o m).1 = (circuit_step policy now (slot_to_circuit o) (circuit_entry c m)).1 ∧
     circuit_entry c (slot_step now o m).2 =
       (circuit_step policy now (slot_to_circuit o) (circuit_entry c m)).2) ∧
  (slot_connector o ≠ c → circuit_entry c (slot_step now o m).2 = circuit_entry c m).
Proof.
  intros Hc. split.
  - intros <-. destruct o as [c step_id call_id|c success]; simpl in *.
    + unfold acquire_programmatic_circuit_slot. rewrite Hc.
      destruct (acquire_entry policy _ now (circuit_entry c m)) as [r e]. simpl.
      unfold circuit_entry. by rewrite lookup_insert_eq.
    + unfold record_programmatic_circuit_outcome. rewrite Hc. simpl. split; [done|].
      unfold circuit_entry. by rewrite lookup_insert_eq.
  - intros Hne. destruct o as [c' step_id call_id|c' success]; simpl in *.
    + unfold acquire_programmatic_circuit_slot. destruct (policies !! c'); [|done].
      destruct (acquire_entry _ _ now (circuit_entry c' m)) as [r e]. simpl.
      unfold circuit_entry. by rewrite lookup_insert_ne.
    + unfold record_programmatic_circuit_outcome. destruct (policies !! c'); [|done].
      simpl. unfold circuit_entry. by rewrite lookup_insert_ne.
Qed.

(** A run of the map is, for each connector, a run of its breaker. *)
Lemma slot_run_project c policy ops m :
  policies !! c = Some policy →
  answers_of c (slot_run ops m).1 = (circuit_run policy (ops_of c ops) (circuit_entry c m)).1 ∧
  circuit_entry c (slot_run ops m).2 = (circuit_run policy (ops_of c ops) (circuit_entry c m)).2.
Proof.
  intros Hc. revert m. induction ops as [|[now o] ops IH]; intros m; [done|].
  destruct (slot_step_entry c policy now o m Hc) as [Hsame Hother].
  cbn [slot_run]. destruct (slot_step now o m) as [r m1]; simpl in Hsame, Hother.
  specialize (IH m1). destruct (slot_run ops m1) as [rs m2]; simpl in IH.
  unfold ops_of. rewrite filter_cons. destruct (decide (slot_connector o = c)) as [Ho|Ho].
  - rewrite decide_True by done. destruct (Hsame Ho) as [-> He1]. rewrite He1 in IH.
    cbn [fmap list_fmap circuit_run fst snd]. fold (ops_of c ops).
    destruct (circuit_step policy now (slot_to_circuit o) (circuit_entry c m)) as [r' e']; simpl in *.
    destruct (circuit_run policy (ops_of c ops) e') as [rs' e'']; simpl in *. destruct IH as [<- <-].
    split; [|done]. destruct r'; [|done]. unfold answers_of. cbn [fst]. by rewrite filter_cons_True.
  - rewrite decide_False by done. rewrite (Hother Ho) in IH. fold (ops_of c ops).
    destruct IH as [IH1 IH2]. split; [|done]. rewrite <-IH1.
    destruct r; [|done]. unfold answers_of. cbn [fst]. by rewrite filter_cons_False.
Qed.

(** While a breaker cools down it admits nobody. Let an operation open the
    breaker of connector [c]: a failure in the closed or half-open phase, or a
    request that finds the half-open window used up. Whatever other tasks and
    connectors do, every request for [c] before the end of the cooldown is
    refused, and nothing recorded meanwhile changes its entry. *)
Theorem open_circuit_admits_nobody c policy now o m ops :
  policies !! c = Some policy → slot_connector o = c →
  let m1 := (slot_step now o m).2 in
  cs_phase (circuit_entry c m1) = PhaseOpen → circuit_entry c m1 ≠ circuit_entry c m →
  Forall (λ p, slot_connector p.2 = c →
               (now ≤ p.1 < now + millis (cb_cooldown_ms policy))%Z) ops →
  let '(rs, m2) := slot_run ops m1 in
  circuit_entry c m2 = circuit_entry c m1 ∧ Forall (λ r, is_ok r = false) (answers_of c rs).
Proof.
  intros Hc Ho m1 Hp Hne Hops. destruct (slot_step_entry c policy now o m Hc) as [Hs _].
  destruct (Hs Ho) as [_ He]. fold m1 in He.
  pose proof (opening_step policy now _ _ _ He Hp Hne) as Hu.
  destruct (slot_run_project c policy ops m1 Hc) as [Ha Hm].
  destruct (open_run_ignored policy (ops_of c ops) _ _ Hp Hu) as [Hr1 Hr2].
  { unfold ops_of. rewrite Forall_fmap. apply Forall_forall. intros [t o'] Hin.
    apply list_elem_of_filter in Hin as [Hcon Hin]. rewrite Forall_forall in Hops.
    specialize (Hops _ Hin Hcon). simpl in *. lia. }
  destruct (slot_run ops m1) as [rs m2]; simpl in *. by rewrite Ha, Hm.
Qed.

(** C25. A circuit breaker turns a connector off exactly after [failure_threshold]
    failures in a row. Let any tasks request slots and report outcomes, for any
    connectors and in any interleaving, starting with no entry for connector [c],
    its threshold being at least one, and let every request for [c] come less
    than a cooldown after each earlier failure of [c]. Then a request for [c] is
    refused if and only if the outcomes reported for [c] so far contain
    [failure_threshold] consecutive failures. *)
Theorem circuit_trips_on_consecutive_failures c policy ops step_id call_id now m :
  policies !! c = Some policy → m !! c = None →
  (0 < cb_failure_threshold policy ≤ u64_max)%Z →
  prompt policy (ops_of c (ops ++ [(now, SlotAcquire c step_id call_id)])) →
  is_ok (acquire_programmatic_circuit_slot c policies step_id call_id now (slot_run ops m).2).1 = false ↔
  failure_run (Z.to_nat (cb_failure_threshold policy)) (outcomes_of (ops_of c ops)).
Proof.
  intros Hc Hm Ht Hops. destruct (slot_run_project c policy ops m Hc) as [_ He].
  unfold acquire_programmatic_circuit_slot. rewrite Hc, He. unfold circuit_entry. rewrite Hm.
  unfold ops_of in Hops. rewrite filter_app, filter_cons_True, fmap_app in Hops by done. cbn in Hops.
  apply prompt_snoc in Hops as [Hops Hlast].
  destruct (run_trips policy (ops_of c ops) CircuitState_default 0 (Z.to_nat (cb_failure_threshold policy)))
    as [[Hp Hno]|(Hyes & Hp & t & Hin & Hu)]; [lia|lia|done|done|done|lia|..].
  - unfold acquire_entry, take_slot. rewrite Hp. cbn. by split; [|intros ?].
  - unfold acquire_entry, cooling. rewrite Hp, Hu. specialize (Hlast t _ Hin eq_refl). cbn in Hlast.
    destruct (Z.ltb_spec now (t + millis (cb_cooldown_ms policy))); [by split|lia].
Qed.

(** A breaker recovers: once the cooldown of an open breaker is over,
    [success_threshold] probes that succeed are all admitted and close it, and
    its entry is as good as new. *)
Theorem circuit_recovers_after_cooldown c policy step_id call_id ts m :
  policies !! c = Some policy → breaker_valid policy → (cb_half_open_max_calls policy ≤ u64_max)%Z →
  cs_phase (circuit_entry c m) = PhaseOpen →
  len ts = cb_success_threshold policy →
  Forall (λ t, cooling t (circuit_entry c m) = None) ts →
  let ops := concat ((λ t, [(t, SlotAcquire c step_id call_id); (t, SlotOutcome c true)]) <$> ts) in
  answers_of c (slot_run ops m).1 = replicate (length ts) (Ok "half_open") ∧
  circuit_entry c (slot_run ops m).2 = CircuitState_default.
Proof.
  intros Hc Hv Hmax Hp Hlen Hcool ops.
  set (who := "programmatic step " +:+ step_id +:+ call_label call_id +:+ " connector " +:+ c).
  assert (ops_of c ops = concat (probe who <$> ts)) as Hops.
  { subst ops. clear -c. induction ts as [|t ts IH]; [done|]. cbn [fmap list_fmap concat].
    unfold ops_of in *. rewrite filter_app, fmap_app, IH. f_equal.
    rewrite !filter_cons_True by done. done. }
  destruct (slot_run_project c policy ops m Hc) as [-> ->]. rewrite Hops.
  pose proof Hv as [_ _ Hs]. destruct ts as [|t ts]; [rewrite len_nil in Hlen; lia|].
  apply Forall_cons in Hcool as [Ht _].
  set (e := mkCircuitState PhaseHalfOpen (cs_consecutive_failures (circuit_entry c m)) None
              (cb_half_open_max_calls policy) 0).
  assert (circuit_run policy (concat (probe who <$> t :: ts)) (circuit_entry c m) =
          circuit_run policy (concat (probe who <$> t :: ts)) e) as ->.
  { simpl. unfold acquire_entry. by rewrite Hp, Ht. }
  rewrite (probes_close policy who (t :: ts) e Hv Hmax); simpl; [done|done|lia|lia|done|lia].
Qed.
End map_runs.

(** ** Runs under rate limits *)
Section rate_runs.
  Context (limits : gmap string ProgrammaticConnectorRateLimit).

(** Calls at the given times; each is released after its wait. *)
Fixpoint rate_run (ops : list (Z * string)) (m : gmap string Z) : list (string * Z) :=
  match ops with
  | [] => []
  | (now, c) :: ops =>
      let '(wait, m) := rate_limit_wait c limits now m in (c, (now + wait)%Z) :: rate_run ops m
  end.

Definition releases_of (c : string) (rs : list (string * Z)) : list Z := (filter (λ r, r.1 = c) rs).*2.

Lemma rate_wait_other c c' now m : c ≠ c' → (rate_limit_wait c' limits now m).2 !! c = m !! c.
Proof.
  intros Hne. unfold rate_limit_wait. destruct (limits !! c'); [|done].
  unfold rate_limit_slot. simpl. by rewrite lookup_insert_ne.
Qed.

(** Once a slot is scheduled at [s], the releases come at [s] and every
    interval after it, or later. *)
Lemma releases_after c limit ops m s i t :
  limits !! c = Some limit → (0 ≤ rl_min_interval_ms limit)%Z → m !! c = Some s →
  releases_of c (rate_run ops m) !! i = Some t →
  (s + Z.of_nat i * millis (rl_min_interval_ms limit) ≤ t)%Z.
Proof.
  intros Hl Hpos. revert m s i t. induction ops as [|[now c'] ops IH]; intros m s i t Hm; [done|].
  cbn [rate_run]. destruct (rate_limit_wait c' limits now m) as [wait m'] eqn:Hw.
  unfold releases_of. destruct (decide (c' = c)) as [->|Hne].
  - rewrite filter_cons_True by done. unfold rate_limit_wait, rate_limit_slot in Hw.
    rewrite Hl, Hm in Hw. injection Hw as <- <-. destruct i as [|i]; simpl.
    + intros [= <-]. destruct (Z.ltb_spec now s); lia.
    + intros Hi. eapply IH in Hi; [|apply lookup_insert_eq].
      unfold millis in *. destruct (Z.ltb_spec now s); lia.
  - rewrite filter_cons_False by done. intros Hi. eapply IH; [|exact Hi].
    pose proof (rate_wait_other c c' now m) as H. rewrite Hw in H. simpl in H. by rewrite H.
Qed.

(** Rate-limited calls are spaced: whatever the order and times at which
    tasks ask, the [j]-th release of a connector comes at least [j - i]
    intervals after the [i]-th. *)
Theorem rate_limited_calls_are_spaced c limit ops m i j ti tj :
  limits !! c = Some limit → (0 ≤ rl_min_interval_ms limit)%Z → i < j →
  releases_of c (rate_run ops m) !! i = Some ti →
  releases_of c (rate_run ops m) !! j = Some tj →
  (ti + (Z.of_nat j - Z.of_nat i) * millis (rl_min_interval_ms limit) ≤ tj)%Z.
Proof.
  intros Hl Hpos. revert m i j ti tj.
  induction ops as [|[now c'] ops IH]; intros m i j ti tj Hij; [done|].
  cbn [rate_run]. destruct (rate_limit_wait c' limits now m) as [wait m'] eqn:Hw.
  unfold releases_of. destruct (decide (c' = c)) as [->|Hne].
  - rewrite filter_cons_True by done. destruct j as [|j]; [lia|]. destruct i as [|i]; simpl.
    + intros [= <-] Hj. unfold rate_limit_wait, rate_limit_slot in Hw. rewrite Hl in Hw.
      injection Hw as <- <-. eapply releases_after in Hj; [|done|done|apply lookup_insert_eq].
      unfold millis in *. destruct (m !! c) as [s|]; simpl in *;
        [destruct (Z.ltb_spec now s)|destruct (Z.ltb_spec now now)]; lia.
    + intros Hi Hj. pose proof (IH _ i j ti tj ltac:(lia) Hi Hj). lia.
  - rewrite filter_cons_False by done. apply IH. done.
Qed.
End rate_runs.

(** ** A concrete breaker: two failures trip it for a second, one probe closes
    it. *)
Module CircuitDemo.
Definition policy : ProgrammaticCircuitBreakerPolicy := mkProgrammaticCircuitBreakerPolicy 2 1000 2 1.
Definition policies : gmap string ProgrammaticCircuitBreakerPolicy := {["crm" := policy]}.
Definition limits : gmap string ProgrammaticConnectorRateLimit :=
  {["crm" := mkProgrammaticConnectorRateLimit 10]}.
Definition failing : CircuitMap := {["crm" := mkCircuitState PhaseClosed 1 None 0 0]}.
Definition tripped : CircuitMap := {["crm" := mkCircuitState PhaseOpen 2 (Some 1000000000%Z) 0 0]}.
Definition ask : slot_op := SlotAcquire "crm" "s" None.

(** The second failure opens the breaker, and half a second later a request
    is refused although a success was recorded meanwhile. *)
Lemma open_circuit_witness :
  Forall (λ r, is_ok r = false)
    (answers_of "crm" (slot_run policies [(5, SlotOutcome "crm" true); (500000000, ask)]%Z
       (slot_step policies 0 (SlotOutcome "crm" false) failing).2).1).
Proof.
  pose proof (open_circuit_admits_nobody policies "crm" policy 0 (SlotOutcome "crm" false) failing
    [(5, SlotOutcome "crm" true); (500000000, ask)]%Z eq_refl eq_refl eq_refl) as H.
  cbv zeta in H. rewrite (surjective_pairing (slot_run _ _ _)) in H. apply H.
  - by vm_compute.
  - repeat constructor; vm_compute; congruence.
Defined.

Lemma trip_witness :
  is_ok (acquire_programmatic_circuit_slot "crm" policies "s" None 6
    (slot_run policies
      [(1, SlotOutcome "crm" true); (2, ask); (2, SlotAcquire "mail" "s" None); (3, SlotOutcome "crm" false); (4, ask);
       (5, SlotOutcome "mail" true); (5, SlotOutcome "crm" false)]%Z ∅).2).1 = false.
Proof.
  apply (circuit_trips_on_consecutive_failures policies "crm" policy _ "s" None 6 ∅); try reflexivity.
  - unfold u64_max. simpl. lia.
  - unfold prompt, ops_of, millis. simpl. repeat constructor; simpl; intros; congruence || lia.
  - exists [true], []. reflexivity.
Defined.

Lemma recovery_witness :
  circuit_entry "crm" (slot_run policies
    [(2000000000, ask); (2000000000, SlotOutcome "crm" true)]%Z tripped).2 = CircuitState_default.
Proof.
  apply (circuit_recovers_after_cooldown policies "crm" policy "s" None [2000000000%Z] tripped);
    try reflexivity.
  - constructor; simpl; lia.
  - unfold u64_max. simpl. lia.
  - repeat constructor.
Defined.

(** Three calls at once are released 10 ms apart. *)
Lemma rate_witness :
  (0 + (Z.of_nat 2 - Z.of_nat 0) * millis 10 ≤ 20000000)%Z.
Proof.
  apply (rate_limited_calls_are_spaced limits "crm" (mkProgrammaticConnectorRateLimit 10)
    [(0, "crm"); (0, "mail"); (0, "crm"); (0, "crm")]%Z ∅ 0 2); try reflexivity; simpl; lia.
Defined.

(** Probes that overlap can keep a breaker open: with two half-open calls and
    two successes required, two admitted probes that both succeed leave it
    open, because the first success finds the window used up. *)
Lemma overlapping_probes_reopen :
  let policies := {["crm" := mkProgrammaticCircuitBreakerPolicy 2 1000 2 2]} in
  let '(rs, m) := slot_run policies
    [(2000000000, ask); (2000000000, ask); (2000000001, SlotOutcome "crm" true);
     (2000000002, SlotOutcome "crm" true)]%Z tripped in
  rs.*2 = [Ok "half_open"; Ok "half_open"] ∧ cs_phase (circuit_entry "crm" m) = PhaseOpen.
Proof. vm_compute. done. Qed.
End CircuitDemo.
