(* ===== verification/Scheduler.v ===== *)
(** * Scheduler: batches of connector calls (spec/src/programmatic.rs)

    A parallel batch keeps one queue per priority class, dispatches calls by
    a (weighted) round robin while fewer than the current budget are in
    flight, and adapts the budget to the outcomes. Completions arrive in any
    order and with any result: the loop is a transition system. *)
From S2P Require Import Prelude RustStr Contracts Errors Kernel Programmatic.

Record PreparedProgrammaticBatchCall := mkPreparedCall {
  bc_call_id : string;
  bc_connector_name : string;
  bc_operation : string;
  bc_required_capabilities : gset Capability;
  bc_retry_policy : ProgrammaticRetryPolicy;
  bc_priority_class : ProgrammaticPriorityClass;
  bc_payload : Value;
}.

Record ProgrammaticInvocationMetrics := mkInvocationMetrics {
  im_attempts : Z;
  im_retries : Z;
  im_priority_class : string;
  im_rate_wait_ms_total : Z;
  im_backoff_ms_total : Z;
  im_circuit_phase_before : string;
  im_circuit_phase_after : string;
}.

(** ** Queues *)

(** The map from priority class to queue; all three keys are present from the
    start. *)
Record Pending := mkPending {
  pq_high : list PreparedProgrammaticBatchCall;
  pq_normal : list PreparedProgrammaticBatchCall;
  pq_low : list PreparedProgrammaticBatchCall;
}.

Definition queue (p : ProgrammaticPriorityClass) (q : Pending) : list PreparedProgrammaticBatchCall :=
  match p with PriorityHigh => pq_high q | PriorityNormal => pq_normal q | PriorityLow => pq_low q end.

Definition set_queue (p : ProgrammaticPriorityClass) (cs : list PreparedProgrammaticBatchCall)
    (q : Pending) : Pending :=
  match p with
  | PriorityHigh => mkPending cs (pq_normal q) (pq_low q)
  | PriorityNormal => mkPending (pq_high q) cs (pq_low q)
  | PriorityLow => mkPending (pq_high q) (pq_normal q) cs
  end.

(** [group_programmatic_calls_by_priority] *)
Definition group_programmatic_calls_by_priority (calls : list PreparedProgrammaticBatchCall) :
    Pending :=
  foldl (λ q c, set_queue (bc_priority_class c) (queue (bc_priority_class c) q ++ [c]) q)
    (mkPending [] [] []) calls.

Definition pending_programmatic_call_count (q : Pending) : nat :=
  length (pq_high q) + length (pq_normal q) + length (pq_low q).

Definition has_pending_programmatic_calls (q : Pending) : bool :=
  negb (pending_programmatic_call_count q =? 0).

(** [build_programmatic_weighted_cycle] *)
Definition build_programmatic_weighted_cycle (c : ProgrammaticConcurrencyPolicy) :
    list ProgrammaticPriorityClass :=
  replicate (Z.to_nat (Z.max 1 (cp_high_weight c))) PriorityHigh ++
  replicate (Z.to_nat (Z.max 1 (cp_normal_weight c))) PriorityNormal ++
  replicate (Z.to_nat (Z.max 1 (cp_low_weight c))) PriorityLow.

Definition strict_order : list ProgrammaticPriorityClass := [PriorityHigh; PriorityNormal; PriorityLow].

(** [grouped.get_mut(&priority).and_then(VecDeque::pop_front)] *)
Definition pop_front (p : ProgrammaticPriorityClass) (q : Pending) :
    option (PreparedProgrammaticBatchCall * Pending) :=
  match queue p q with [] => None | c :: cs => Some (c, set_queue p cs q) end.

(** The loop over offsets of both fairness policies: [n] offsets are left,
    starting at [offset]. The cursor stays below the length of the order, so
    [cursor.saturating_add(offset)] does not saturate. *)
Fixpoint pop_scan (order : list ProgrammaticPriorityClass) (cursor : nat) (n offset : nat)
    (q : Pending) : option (PreparedProgrammaticBatchCall * Pending * nat) :=
  match n with
  | O => None
  | S n =>
      let index := (cursor + offset) mod length order in
      match order !! index with
      | None => pop_scan order cursor n (S offset) q
      | Some priority =>
          match pop_front priority q with
          | Some (call, q) => Some (call, q, S index mod length order)
          | None => pop_scan order cursor n (S offset) q
          end
      end
  end.

(** [pop_next_programmatic_call]; the cursor is returned beside the queues. *)
Definition pop_next_programmatic_call (fairness : ProgrammaticFairnessPolicy)
    (weighted_cycle : list ProgrammaticPriorityClass) (cursor : nat) (q : Pending) :
    option (PreparedProgrammaticBatchCall * Pending * nat) :=
  match fairness with
  | StrictRoundRobin => pop_scan strict_order cursor (length strict_order) 0 q
  | WeightedRoundRobin =>
      match weighted_cycle with
      | [] => '(call, q) ← pop_front PriorityNormal q; Some (call, q, cursor)
      | _ => pop_scan weighted_cycle cursor (length weighted_cycle) 0 q
      end
  end.

(** ** Errors that reduce the budget *)

(** [classify_connector_error_code] *)
Definition classify_connector_error_code (error : string) : string :=
  let normalized := to_ascii_lowercase error in
  if contains "programmatic_error[circuit_open]" normalized then "circuit_open"
  else if contains "connector not found" normalized ||
          contains "core connector adapter not found" normalized then "connector_not_found"
  else if contains "not allowed" normalized then "connector_not_allowed"
  else if contains "missing required capability" normalized then "capability_denied"
  else if contains "policy denied" normalized then "policy_denied"
  else "connector_execution_error".

(** [should_reduce_programmatic_budget] *)
Definition should_reduce_programmatic_budget (c : ProgrammaticConcurrencyPolicy)
    (error_code : string) : bool :=
  let triggers := cp_adaptive_reduce_on c in
  bool_decide (OnAnyError ∈ triggers) ||
  match
    (if decide (error_code = "connector_execution_error") then Some OnConnectorExecutionError
     else if decide (error_code = "circuit_open") then Some OnCircuitOpen
     else if decide (error_code = "connector_not_found") then Some OnConnectorNotFound
     else if decide (error_code = "connector_not_allowed") then Some OnConnectorNotAllowed
     else if decide (error_code = "capability_denied") then Some OnCapabilityDenied
     else if decide (error_code = "policy_denied") then Some OnPolicyDenied
     else None)
  with
  | Some mapped => bool_decide (mapped ∈ triggers)
  | None => false
  end.

(** ** Reports, as JSON; object keys are kept sorted *)

Definition json_u64 (n : Z) : Value := JNumber (PosInt n).

Definition metrics_value (m : ProgrammaticInvocationMetrics) : Value :=
  JObject [("attempts", json_u64 (im_attempts m));
           ("backoff_ms_total", json_u64 (im_backoff_ms_total m));
           ("circuit_phase_after", JString (im_circuit_phase_after m));
           ("circuit_phase_before", JString (im_circuit_phase_before m));
           ("priority_class", JString (im_priority_class m));
           ("rate_wait_ms_total", json_u64 (im_rate_wait_ms_total m));
           ("retries", json_u64 (im_retries m))].

Definition outcome_value (o : ConnectorOutcome) : Value :=
  JObject [("payload", co_payload o); ("status", JString (co_status o))].

Abbreviation CallResult := (result string (ConnectorDispatch * ProgrammaticInvocationMetrics)).

Definition call_report (c : PreparedProgrammaticBatchCall) (r : CallResult) : Value :=
  match r with
  | Ok (dispatch, metrics) =>
      JObject [("call_id", JString (bc_call_id c));
               ("connector_name", JString (cd_connector_name dispatch));
               ("execution", metrics_value metrics);
               ("operation", JString (bc_operation c));
               ("outcome", outcome_value (cd_outcome dispatch));
               ("status", JString "ok")]
  | Err error =>
      JObject [("call_id", JString (bc_call_id c));
               ("connector_name", JString (bc_connector_name c));
               ("error", JString error);
               ("error_code", JString (classify_connector_error_code error));
               ("operation", JString (bc_operation c));
               ("status", JString "error")]
  end.

(** [programmatic batch step {step_id} call {call_id} failed: {error}] *)
Definition batch_failure (step_id : string) (c : PreparedProgrammaticBatchCall) (error : string) :
    string :=
  programmatic_error EC_ConnectorInvokeFailed
    ("programmatic batch step " +:+ step_id +:+ " call " +:+ bc_call_id c +:+ " failed: " +:+ error).

(** ** The scheduling loop *)

(** The fields of [ProgrammaticBatchExecutionSummary] that the loop updates. *)
Record SchedulerCounters := mkSchedulerCounters {
  sc_peak_in_flight : Z;
  sc_final_in_flight_budget : Z;
  sc_budget_reductions : Z;
  sc_budget_increases : Z;
  sc_scheduler_wait_cycles : Z;
  sc_dispatch_order : list string;
  sc_priority_dispatch_counts : gmap string Z;
}.

Record BatchState := mkBatchState {
  bs_pending : Pending;
  bs_cursor : nat;
  bs_inflight : list PreparedProgrammaticBatchCall;
  bs_budget : Z;
  bs_successes : Z;
  bs_counters : SchedulerCounters;
  bs_reports : gmap string Value;
  bs_first_error : option string;
}.

Section batch.
  Context (concurrency : ProgrammaticConcurrencyPolicy) (step_id : string).

Definition batch_init (calls : list PreparedProgrammaticBatchCall) : BatchState :=
  {| bs_pending := group_programmatic_calls_by_priority calls;
     bs_cursor := 0;
     bs_inflight := [];
     bs_budget := cp_max_in_flight concurrency;
     bs_successes := 0;
     bs_counters := mkSchedulerCounters 0 (cp_max_in_flight concurrency) 0 0 0 []
       (list_to_map [("high", 0%Z); ("normal", 0%Z); ("low", 0%Z)]);
     bs_reports := ∅;
     bs_first_error := None |}.

(** A popped call goes in flight and is recorded. *)
Definition launch (c : PreparedProgrammaticBatchCall) (q : Pending) (cursor : nat)
    (st : BatchState) : BatchState :=
  let k := bs_counters st in
  let inflight := bs_inflight st ++ [c] in
  let key := ProgrammaticPriorityClass_as_str (bc_priority_class c) in
  let counts := sc_priority_dispatch_counts k in
  {| bs_pending := q;
     bs_cursor := cursor;
     bs_inflight := inflight;
     bs_budget := bs_budget st;
     bs_successes := bs_successes st;
     bs_counters := mkSchedulerCounters (Z.max (sc_peak_in_flight k) (len inflight))
       (sc_final_in_flight_budget k) (sc_budget_reductions k) (sc_budget_increases k)
       (sc_scheduler_wait_cycles k) (sc_dispatch_order k ++ [bc_call_id c])
       (match counts !! key with Some n => <[key := sat_add n 1]> counts | None => counts end);
     bs_reports := bs_reports st;
     bs_first_error := bs_first_error st |}.

(** [while inflight.len() < current_budget { pop or break; launch }]; each
    round takes a call out of the queues, so fuel for every pending call is
    enough. *)
Fixpoint fill (fuel : nat) (st : BatchState) : BatchState :=
  match fuel with
  | O => st
  | S fuel =>
      if (len (bs_inflight st) <? bs_budget st)%Z then
        match pop_next_programmatic_call (cp_fairness concurrency)
                (build_programmatic_weighted_cycle concurrency) (bs_cursor st) (bs_pending st) with
        | Some (c, q, cursor) => fill fuel (launch c q cursor st)
        | None => st
        end
      else st
  end.

(** [scheduler_wait_cycles], counted when calls were pending and the budget is
    used up. *)
Definition note_wait (pending_before : nat) (st : BatchState) : BatchState :=
  let k := bs_counters st in
  let waited := (0 <? pending_before) && (bs_budget st <=? len (bs_inflight st))%Z in
  {| bs_pending := bs_pending st; bs_cursor := bs_cursor st; bs_inflight := bs_inflight st;
     bs_budget := bs_budget st; bs_successes := bs_successes st;
     bs_counters := mkSchedulerCounters (sc_peak_in_flight k) (sc_final_in_flight_budget k)
       (sc_budget_reductions k) (sc_budget_increases k)
       (if waited then sat_add (sc_scheduler_wait_cycles k) 1 else sc_scheduler_wait_cycles k)
       (sc_dispatch_order k) (sc_priority_dispatch_counts k);
     bs_reports := bs_reports st; bs_first_error := bs_first_error st |}.

(** The adaptive budget after an outcome: budget, consecutive successes, and
    whether it went down or up. *)
Definition adapt_budget (r : CallResult) (budget successes : Z) : Z * Z * bool * bool :=
  if cp_adaptive_budget concurrency then
    match r with
    | Ok _ =>
        let successes := sat_add successes 1 in
        if ((budget <? cp_max_in_flight concurrency) &&
            (cp_adaptive_recovery_successes concurrency <=? successes))%Z then
          (Z.min (sat_add budget (cp_adaptive_upshift_step concurrency))
             (cp_max_in_flight concurrency), 0%Z, false, true)
        else (budget, successes, false, false)
    | Err error =>
        if should_reduce_programmatic_budget concurrency (classify_connector_error_code error) &&
           (cp_min_in_flight concurrency <? budget)%Z then
          (Z.max (sat_sub budget (cp_adaptive_downshift_step concurrency))
             (cp_min_in_flight concurrency), 0%Z, true, false)
        else (budget, 0%Z, false, false)
    end
  else (budget, successes, false, false).

(** [inflight.next().await] returned call [c] with result [r]; [rest] is what
    stays in flight. *)
Definition complete (c : PreparedProgrammaticBatchCall) (r : CallResult)
    (rest : list PreparedProgrammaticBatchCall) (st : BatchState) : BatchState :=
  let k := bs_counters st in
  let '(budget, successes, reduced, increased) := adapt_budget r (bs_budget st) (bs_successes st) in
  {| bs_pending := bs_pending st;
     bs_cursor := bs_cursor st;
     bs_inflight := rest;
     bs_budget := budget;
     bs_successes := successes;
     bs_counters := mkSchedulerCounters (sc_peak_in_flight k) budget
       (if reduced : bool then sat_add (sc_budget_reductions k) 1 else sc_budget_reductions k)
       (if increased : bool then sat_add (sc_budget_increases k) 1 else sc_budget_increases k)
       (sc_scheduler_wait_cycles k) (sc_dispatch_order k) (sc_priority_dispatch_counts k);
     bs_reports := <[bc_call_id c := call_report c r]> (bs_reports st);
     bs_first_error :=
       match bs_first_error st, r with
       | None, Err error => Some (batch_failure step_id c error)
       | first, _ => first
       end |}.

(** The loop's condition, negated. *)
Definition batch_done (st : BatchState) : bool :=
  negb (has_pending_programmatic_calls (bs_pending st)) &&
  match bs_inflight st with [] => true | _ => false end.

(** The state after the inner loop. *)
Definition filled (st : BatchState) : BatchState :=
  let pending_before := pending_programmatic_call_count (bs_pending st) in
  note_wait pending_before (fill pending_before st).

(** One round of the outer loop: fill, then some call in flight completes. *)
Inductive batch_step : BatchState → BatchState → Prop :=
| batch_round st pre c post r :
    batch_done st = false →
    bs_inflight (filled st) = pre ++ c :: post →
    batch_step st (complete c r (pre ++ post) (filled st)).

(** [call_order.iter().filter_map(|id| reports_by_call.get(id).cloned())] *)
Definition batch_reports (calls : list PreparedProgrammaticBatchCall) (st : BatchState) : list Value :=
  omap (λ c, bs_reports st !! bc_call_id c) calls.

(** The result of a parallel batch. *)
Definition batch_result (calls : list PreparedProgrammaticBatchCall) (continue_on_error : bool)
    (st : BatchState) : result string (list Value * SchedulerCounters) :=
  match bs_first_error st with
  | Some error => if continue_on_error then Ok (batch_reports calls st, bs_counters st) else Err error
  | None => Ok (batch_reports calls st, bs_counters st)
  end.
End batch.
