(* ===== verification/SchedulerProps.v ===== *)
(** * SchedulerProps: what batch scheduling guarantees *)
From S2P Require Import Prelude RustStr Contracts Errors Kernel Programmatic Scheduler.

(** ** Queues *)

Lemma queue_set_queue p p' cs q :
  queue p (set_queue p' cs q) = if decide (p = p') then cs else queue p q.
Proof. by destruct p, p'. Qed.

Lemma group_queue calls p :
  queue p (group_programmatic_calls_by_priority calls) = filter (λ c, bc_priority_class c = p) calls.
Proof.
  unfold group_programmatic_calls_by_priority.
  assert (∀ q, queue p (foldl (λ q c, set_queue (bc_priority_class c)
      (queue (bc_priority_class c) q ++ [c]) q) q calls) =
    queue p q ++ filter (λ c, bc_priority_class c = p) calls) as H.
  { induction calls as [|c calls IH]; intros q; simpl; [by rewrite app_nil_r|].
    rewrite IH, queue_set_queue, filter_cons.
    destruct (decide (p = bc_priority_class c)) as [->|Hne].
    - rewrite decide_True by done. by rewrite <-app_assoc.
    - rewrite decide_False by congruence. done. }
  rewrite H. by destruct p.
Qed.

(** All pending calls, class by class. *)
Definition pending_list (q : Pending) : list PreparedProgrammaticBatchCall :=
  pq_high q ++ pq_normal q ++ pq_low q.

Lemma pending_count_list q : pending_programmatic_call_count q = length (pending_list q).
Proof. unfold pending_programmatic_call_count, pending_list. rewrite !length_app. lia. Qed.

Lemma pop_front_Some p q c q' :
  pop_front p q = Some (c, q') → ∃ cs, queue p q = c :: cs ∧ q' = set_queue p cs q.
Proof. unfold pop_front. destruct (queue p q) as [|c' cs]; [done|]. intros [= <- <-]. eauto. Qed.

Lemma pop_front_pending p q c q' :
  pop_front p q = Some (c, q') → pending_list q ≡ₚ c :: pending_list q'.
Proof.
  intros (cs & Hq & ->)%pop_front_Some. unfold pending_list.
  destruct p; simpl in *; rewrite Hq; simpl; [done| |]; solve_Permutation.
Qed.

(** ** Scanning *)

Lemma pop_scan_Some order cursor n off q c q' cursor' :
  pop_scan order cursor n off q = Some (c, q', cursor') →
  ∃ o p, off ≤ o < off + n ∧ order !! ((cursor + o) mod length order) = Some p ∧
    pop_front p q = Some (c, q') ∧ cursor' = S ((cursor + o) mod length order) mod length order ∧
    ∀ o' p', off ≤ o' < o → order !! ((cursor + o') mod length order) = Some p' → queue p' q = [].
Proof.
  revert off. induction n as [|n IH]; intros off; [done|]. cbn [pop_scan].
  assert (pop_scan order cursor n (S off) q = Some (c, q', cursor') →
    (∀ p, order !! ((cursor + off) mod length order) = Some p → queue p q = []) →
    ∃ o p, off ≤ o < off + S n ∧ order !! ((cursor + o) mod length order) = Some p ∧
    pop_front p q = Some (c, q') ∧ cursor' = S ((cursor + o) mod length order) mod length order ∧
    ∀ o' p', off ≤ o' < o → order !! ((cursor + o') mod length order) = Some p' → queue p' q = [])
    as Hnext.
  { intros (o & p & Ho & Hp & Hpop & Hc & Hmin)%IH Hoff. exists o, p. split_and!; try done; [lia|lia|].
    intros o' p' Ho' Hp'. destruct (decide (o' = off)) as [->|]; [by apply Hoff|].
    eapply Hmin; [|exact Hp']. lia. }
  destruct (order !! _) as [p|] eqn:Hp; [|intros H; apply Hnext; [done|congruence]].
  unfold pop_front at 1. destruct (queue p q) as [|c0 cs] eqn:Hq.
  - intros H. apply Hnext; [done|]. by intros ? [= <-].
  - intros [= <- <- <-]. exists off, p. split_and!; [lia|lia|done| |done|].
    + unfold pop_front. by rewrite Hq.
    + intros. lia.
Qed.

Lemma pop_scan_None order cursor n off q o p :
  pop_scan order cursor n off q = None → off ≤ o < off + n →
  order !! ((cursor + o) mod length order) = Some p → queue p q = [].
Proof.
  revert off. induction n as [|n IH]; intros off; [lia|]. cbn [pop_scan]. intros H Ho Hp.
  destruct (decide (o = off)) as [->|].
  - rewrite Hp in H. unfold pop_front in H. by destruct (queue p q).
  - apply (IH (S off)); [|lia|done]. by repeat case_match.
Qed.

(** ** Fairness *)
Section fairness.
  Context (concurrency : ProgrammaticConcurrencyPolicy).

(** The order the configured policy goes round. *)
Definition service_order : list ProgrammaticPriorityClass :=
  match cp_fairness concurrency with
  | StrictRoundRobin => strict_order
  | WeightedRoundRobin => build_programmatic_weighted_cycle concurrency
  end.

Definition next_call (cursor : nat) (q : Pending) :=
  pop_next_programmatic_call (cp_fairness concurrency) (build_programmatic_weighted_cycle concurrency)
    cursor q.

Lemma service_order_all p : p ∈ service_order.
Proof.
  unfold service_order, build_programmatic_weighted_cycle. destruct (cp_fairness concurrency).
  - destruct p; set_solver.
  - rewrite !elem_of_app, !elem_of_replicate. destruct p; [left|right; left|right; right];
      (split; [done|lia]).
Qed.

Lemma service_order_pos : 0 < length service_order.
Proof.
  pose proof (service_order_all PriorityHigh) as H.
  destruct service_order; [by apply not_elem_of_nil in H|simpl; lia].
Qed.

Lemma next_call_scan cursor q :
  next_call cursor q = pop_scan service_order cursor (length service_order) 0 q.
Proof.
  pose proof service_order_pos as H. unfold next_call, pop_next_programmatic_call, service_order in *.
  destruct (cp_fairness concurrency); [done|].
  destruct (build_programmatic_weighted_cycle concurrency); [simpl in H; lia|done].
Qed.

(** Every class has a place ahead of every cursor. *)
Lemma class_ahead cursor p : cursor < length service_order →
  ∃ d, d < length service_order ∧ service_order !! ((cursor + d) mod length service_order) = Some p.
Proof.
  intros Hc. pose proof service_order_pos as Hn.
  destruct (proj1 (list_elem_of_lookup _ _) (service_order_all p)) as [i Hi].
  pose proof (lookup_lt_Some _ _ _ Hi) as Hlt. set (n := length service_order) in *.
  exists ((i + n - cursor) mod n). split; [apply Nat.mod_upper_bound; lia|].
  rewrite Nat.Div0.add_mod_idemp_r. replace (cursor + (i + n - cursor)) with (i + 1 * n) by lia.
  rewrite Nat.Div0.mod_add. by rewrite Nat.mod_small.
Qed.

(** Calls dispatched in a row. *)
Fixpoint dispatches (n : nat) (cursor : nat) (q : Pending) : list PreparedProgrammaticBatchCall :=
  match n with
  | O => []
  | S n =>
      match next_call cursor q with
      | Some (c, q, cursor) => c :: dispatches n cursor q
      | None => []
      end
  end.

Lemma mod_step a b n : n ≠ 0 → (S (a mod n) mod n + b) mod n = (a + S b) mod n.
Proof.
  intros Hn. rewrite Nat.Div0.add_mod_idemp_l. replace (S (a mod n) + b) with (a mod n + S b) by lia.
  by rewrite Nat.Div0.add_mod_idemp_l.
Qed.

Lemma dispatches_reach d m cursor q p c :
  service_order !! ((cursor + d) mod length service_order) = Some p → d < length service_order →
  head (queue p q) = Some c → d < m → c ∈ dispatches m cursor q.
Proof.
  pose proof service_order_pos as Hn. revert m cursor q.
  induction (lt_wf d) as [d _ IH]; intros m cursor q Hp Hd Hc Hm. destruct m as [|m]; [lia|].
  cbn [dispatches]. rewrite next_call_scan.
  destruct (pop_scan service_order cursor _ 0 q) as [[[c' q'] cursor']|] eqn:Hs.
  - apply pop_scan_Some in Hs as (o & p' & Ho & Hp' & Hpop & -> & Hmin).
    apply pop_front_Some in Hpop as (cs & Hq & ->).
    destruct (decide (p' = p)) as [->|Hne].
    { rewrite Hq in Hc. injection Hc as ->. set_solver. }
    assert (o < d) as Hod.
    { destruct (decide (o < d)); [done|]. assert (o ≠ d) by (intros ->; congruence).
      rewrite (Hmin d p) in Hc by (done || lia). done. }
    apply elem_of_cons. right. apply (IH (d - S o)); [lia| |lia| |lia].
    + rewrite mod_step by lia. by replace (cursor + o + S (d - S o)) with (cursor + d) by lia.
    + rewrite queue_set_queue, decide_False by done. done.
  - pose proof (pop_scan_None _ _ _ _ _ d p Hs ltac:(lia) Hp) as Hnil. by rewrite Hnil in Hc.
Qed.

(** C40. No class starves: with either fairness policy and whatever else is
    waiting, the first pending call of a class is dispatched within one round
    of the service order. *)
Theorem scheduler_starves_no_class cursor q p c :
  cursor < length service_order → head (queue p q) = Some c →
  c ∈ dispatches (length service_order) cursor q.
Proof.
  intros Hcur Hc. destruct (class_ahead cursor p Hcur) as (d & Hd & Hp).
  by apply (dispatches_reach d (length service_order) cursor q p c).
Qed.

Lemma next_call_Some cursor q c q' cursor' :
  next_call cursor q = Some (c, q', cursor') →
  cursor' < length service_order ∧ ∃ p, pop_front p q = Some (c, q').
Proof.
  rewrite next_call_scan. intros (o & p & _ & _ & Hpop & -> & _)%pop_scan_Some.
  split; [apply Nat.mod_upper_bound; pose proof service_order_pos; lia|eauto].
Qed.

Lemma next_call_None cursor q :
  cursor < length service_order → next_call cursor q = None → pending_list q = [].
Proof.
  intros Hcur. rewrite next_call_scan. intros Hs.
  assert (∀ p, queue p q = []) as Hq.
  { intros p. destruct (class_ahead cursor p Hcur) as (d & Hd & Hp).
    by apply (pop_scan_None _ _ _ _ _ d p Hs); [lia|]. }
  unfold pending_list. rewrite (Hq PriorityHigh : pq_high q = []).
  by rewrite (Hq PriorityNormal : pq_normal q = []), (Hq PriorityLow : pq_low q = []).
Qed.
End fairness.

(** ** Batches *)
Section batches.
  Context (concurrency : ProgrammaticConcurrencyPolicy) (step_id : string).
  Context (calls : list PreparedProgrammaticBatchCall).

(** The state of a batch in terms of the calls: [dispatched] in order,
    [finished] of them completed. *)
Record batch_ok (st : BatchState) (dispatched finished : list PreparedProgrammaticBatchCall) : Prop := {
  bo_split : dispatched ≡ₚ bs_inflight st ++ finished;
  bo_fifo p : filter (λ c, bc_priority_class c = p) dispatched ++ queue p (bs_pending st) =
              filter (λ c, bc_priority_class c = p) calls;
  bo_all : calls ≡ₚ dispatched ++ pending_list (bs_pending st);
  bo_order : sc_dispatch_order (bs_counters st) = bc_call_id <$> dispatched;
  bo_cursor : bs_cursor st < length (service_order concurrency);
  bo_budget : (cp_min_in_flight concurrency ≤ bs_budget st ≤ cp_max_in_flight concurrency)%Z;
  bo_inflight : (len (bs_inflight st) ≤ cp_max_in_flight concurrency)%Z;
  bo_peak : (sc_peak_in_flight (bs_counters st) ≤ cp_max_in_flight concurrency)%Z;
  bo_reports id : is_Some (bs_reports st !! id) ↔ id ∈ bc_call_id <$> finished;
  bo_content id v : bs_reports st !! id = Some v →
    ∃ c r, c ∈ finished ∧ id = bc_call_id c ∧ v = call_report c r;
}.

Lemma pending_group : pending_list (group_programmatic_calls_by_priority calls) ≡ₚ calls.
Proof.
  unfold pending_list. rewrite (group_queue calls PriorityHigh : pq_high _ = _).
  rewrite (group_queue calls PriorityNormal : pq_normal _ = _).
  rewrite (group_queue calls PriorityLow : pq_low _ = _).
  induction calls as [|c cs IH]; [done|]. rewrite !filter_cons.
  destruct (bc_priority_class c); simpl; rewrite <-IH at 4; solve_Permutation.
Qed.

Lemma batch_init_ok : (0 < cp_min_in_flight concurrency ≤ cp_max_in_flight concurrency)%Z →
  batch_ok (batch_init concurrency calls) [] [].
Proof.
  intros H. constructor; simpl; try done.
  - intros p. apply group_queue.
  - by rewrite pending_group.
  - apply service_order_pos.
  - lia.
  - rewrite len_nil. lia.
  - lia.
  - intros id. rewrite lookup_empty, elem_of_nil. split; [by intros []|done].
Qed.

(** The class of a popped call is the queue it came from. *)
Lemma fifo_class dispatched st p c cs :
  (∀ p, filter (λ c, bc_priority_class c = p) dispatched ++ queue p (bs_pending st) =
        filter (λ c, bc_priority_class c = p) calls) →
  queue p (bs_pending st) = c :: cs → bc_priority_class c = p.
Proof.
  intros Hf Hq. specialize (Hf p). rewrite Hq in Hf.
  assert (c ∈ filter (λ c, bc_priority_class c = p) calls) as Hin by (rewrite <-Hf; set_solver).
  by apply list_elem_of_filter in Hin as [? _].
Qed.

Lemma launch_ok st dispatched finished c q cursor :
  batch_ok st dispatched finished → (len (bs_inflight st) < bs_budget st)%Z →
  next_call concurrency (bs_cursor st) (bs_pending st) = Some (c, q, cursor) →
  batch_ok (launch c q cursor st) (dispatched ++ [c]) finished.
Proof.
  intros [Hsplit Hfifo Hall Hord Hcur Hbud Hin Hpeak Hrep Hcon] Hlt Hnext.
  apply next_call_Some in Hnext as (Hcur' & p & Hpop).
  pose proof (pop_front_pending _ _ _ _ Hpop) as Hpend.
  apply pop_front_Some in Hpop as (cs & Hq & ->).
  pose proof (fifo_class _ _ _ _ _ Hfifo Hq) as Hclass.
  constructor; simpl; try done.
  - rewrite Hsplit. solve_Permutation.
  - intros p'. rewrite filter_app, filter_cons, filter_nil, queue_set_queue.
    rewrite <-(Hfifo p'). destruct (decide (p' = p)) as [->|Hne].
    + rewrite decide_True by done. by rewrite Hq, <-app_assoc.
    + rewrite decide_False by congruence. by rewrite app_nil_r.
  - rewrite Hall, Hpend. solve_Permutation.
  - by rewrite Hord, fmap_app.
  - rewrite len_app. unfold len at 2. simpl. lia.
  - rewrite len_app. unfold len at 2. simpl. lia.
Qed.

Lemma fill_ok fuel st dispatched finished :
  batch_ok st dispatched finished →
  ∃ more, batch_ok (fill concurrency fuel st) (dispatched ++ more) finished.
Proof.
  revert st dispatched. induction fuel as [|fuel IH]; intros st dispatched Hok; cbn [fill].
  { exists []. by rewrite app_nil_r. }
  destruct (Z.ltb_spec (len (bs_inflight st)) (bs_budget st)) as [Hlt|]; 
    [|exists []; by rewrite app_nil_r].
  destruct (pop_next_programmatic_call _ _ _ _) as [[[c q] cursor]|] eqn:Hn;
    [|exists []; by rewrite app_nil_r].
  destruct (IH (launch c q cursor st) (dispatched ++ [c])) as [more Hmore].
  { by apply launch_ok. }
  exists (c :: more). by rewrite <-app_assoc in Hmore.
Qed.

Lemma note_wait_ok n st dispatched finished :
  batch_ok st dispatched finished → batch_ok (note_wait n st) dispatched finished.
Proof. intros []. by constructor. Qed.

Lemma filled_ok st dispatched finished :
  batch_ok st dispatched finished →
  ∃ more, batch_ok (filled concurrency st) (dispatched ++ more) finished.
Proof. intros [more H]%(fill_ok (pending_programmatic_call_count (bs_pending st))). eauto using note_wait_ok. Qed.

Lemma adapt_budget_range r budget successes :
  is_u64 (cp_max_in_flight concurrency) → (0 ≤ cp_adaptive_upshift_step concurrency)%Z →
  (0 ≤ cp_adaptive_downshift_step concurrency)%Z →
  (0 ≤ cp_min_in_flight concurrency ≤ budget)%Z → (budget ≤ cp_max_in_flight concurrency)%Z →
  let '(budget', _, _, _) := adapt_budget concurrency r budget successes in
  (cp_min_in_flight concurrency ≤ budget' ≤ cp_max_in_flight concurrency)%Z.
Proof.
  intros Hmax Hup Hdown Hb Hb'. unfold adapt_budget, sat_sub, sat_add, is_u64, u64_max in *.
  repeat case_match; simplify_eq/=; lia.
Qed.

(** Unsigned fields, as validated. *)
Definition concurrency_valid : Prop :=
  validate_programmatic_concurrency_policy concurrency = Ok () ∧
  is_u64 (cp_max_in_flight concurrency) ∧ (0 ≤ cp_min_in_flight concurrency)%Z ∧
  (0 ≤ cp_adaptive_upshift_step concurrency)%Z ∧ (0 ≤ cp_adaptive_downshift_step concurrency)%Z.

Lemma complete_ok st dispatched finished pre c post r :
  concurrency_valid → batch_ok st dispatched finished → bs_inflight st = pre ++ c :: post →
  batch_ok (complete concurrency step_id c r (pre ++ post) st) dispatched (c :: finished).
Proof.
  intros (Hval & Hmax & Hmin & Hup & Hdown) [Hsplit Hfifo Hall Hord Hcur Hbud Hin Hpeak Hrep Hcon] Hinf.
  unfold complete. pose proof (adapt_budget_range r (bs_budget st) (bs_successes st) Hmax Hup Hdown)
    as Hr. destruct (adapt_budget _ _ _ _) as [[[budget successes] reduced] increased].
  constructor; simpl; try done.
  - rewrite Hsplit, Hinf. solve_Permutation.
  - apply Hr; lia.
  - rewrite Hinf in Hin. rewrite len_app, len_cons in *. lia.
  - intros id. rewrite elem_of_cons, <-Hrep. destruct (decide (id = bc_call_id c)) as [->|Hne].
    + rewrite lookup_insert_eq. naive_solver.
    + rewrite lookup_insert_ne by done. naive_solver.
  - intros id v. destruct (decide (id = bc_call_id c)) as [->|Hne].
    + rewrite lookup_insert_eq. intros [= <-]. exists c, r. set_solver.
    + rewrite lookup_insert_ne by done. intros (c' & r' & Hc' & -> & ->)%Hcon. exists c', r'. set_solver.
Qed.

(** Calls not completed yet. *)
Definition remaining_calls (st : BatchState) : nat :=
  pending_programmatic_call_count (bs_pending st) + length (bs_inflight st).

Lemma batch_ok_remaining st dispatched finished :
  batch_ok st dispatched finished → remaining_calls st + length finished = length calls.
Proof.
  intros [Hsplit _ Hall _ _ _ _ _ _ _]. unfold remaining_calls. rewrite pending_count_list.
  apply Permutation_length in Hall, Hsplit. rewrite length_app in *. lia.
Qed.

Lemma fill_grows fuel st : ∃ more, bs_inflight (fill concurrency fuel st) = bs_inflight st ++ more.
Proof.
  revert st. induction fuel as [|fuel IH]; intros st; cbn [fill]; [exists []; by rewrite app_nil_r|].
  repeat case_match; try (exists []; by rewrite app_nil_r).
  edestruct IH as [more ->]. simpl. rewrite <-app_assoc. eauto.
Qed.

Lemma filled_nonempty st dispatched finished :
  concurrency_valid → batch_ok st dispatched finished → batch_done st = false →
  bs_inflight (filled concurrency st) ≠ [].
Proof.
  intros (Hval & _ & Hmin & _ & _) Hok Hd. unfold filled. simpl.
  pose proof (validate_concurrency_valid _ Hval Hmin) as Hpos.
  destruct (bs_inflight st) as [|c cs] eqn:Hi.
  - unfold batch_done, has_pending_programmatic_calls in Hd. rewrite Hi in Hd.
    destruct (pending_programmatic_call_count (bs_pending st)) as [|n] eqn:Hc; [done|].
    cbn [fill]. rewrite Hi. destruct (Z.ltb_spec (len (@nil PreparedProgrammaticBatchCall)) (bs_budget st)) as [|Hb];
      [|destruct Hok; rewrite len_nil in Hb; lia].
    destruct (pop_next_programmatic_call _ _ _ _) as [[[c q] cursor]|] eqn:Hn.
    + destruct (fill_grows n (launch c q cursor st)) as [more ->]. simpl. by rewrite Hi.
    + apply next_call_None in Hn; [|by destruct Hok]. rewrite pending_count_list, Hn in Hc. done.
  - destruct (fill_grows (pending_programmatic_call_count (bs_pending st)) st) as [more ->].
    by rewrite Hi.
Qed.

Lemma batch_reachable_ok st :
  concurrency_valid → steps (batch_step concurrency step_id) (batch_init concurrency calls) st →
  ∃ dispatched finished, batch_ok st dispatched finished.
Proof.
  intros Hv Hs. apply (steps_invariant _ (λ st, ∃ d f, batch_ok st d f)) in Hs; [done| |].
  - intros a b (d & f & Hok) Hstep. destruct Hstep as [a pre c post r _ Hinf].
    destruct (filled_ok a d f Hok) as [more Hok']. eauto using complete_ok.
  - exists [], []. apply batch_init_ok. destruct Hv as (Hval & _ & Hmin & _).
    by apply validate_concurrency_valid.
Qed.

Lemma call_id_inj c c' :
  NoDup (bc_call_id <$> calls) → c ∈ calls → c' ∈ calls → bc_call_id c = bc_call_id c' → c = c'.
Proof.
  intros Hnd [i Hi]%list_elem_of_lookup [j Hj]%list_elem_of_lookup Heq.
  assert (i = j) as ->; [|congruence].
  eapply NoDup_lookup; [exact Hnd| |]; rewrite list_lookup_fmap; [by rewrite Hi|].
  rewrite Hj. simpl. by rewrite Heq.
Qed.

Lemma reports_zip cs st :
  Forall (λ c, ∃ r, bs_reports st !! bc_call_id c = Some (call_report c r)) cs →
  ∃ results, length results = length cs ∧ batch_reports cs st = zip_with call_report cs results.
Proof.
  induction 1 as [|c cs [r Hr] _ (rs & Hl & IH)]; [by exists []|].
  exists (r :: rs). split; [by simpl; f_equal|]. cbn. rewrite Hr. simpl. by f_equal.
Qed.

(** A round completes one call. *)
Lemma batch_step_remaining st st' d f :
  concurrency_valid → batch_ok st d f → batch_step concurrency step_id st st' →
  S (remaining_calls st') = remaining_calls st.
Proof.
  intros Hv Hok Hstep. destruct Hstep as [st pre c post r Hd Hinf].
  destruct (filled_ok st d f Hok) as [more Hok'].
  pose proof (complete_ok _ _ _ _ _ _ r Hv Hok' Hinf) as Hok''.
  apply batch_ok_remaining in Hok, Hok''. simpl in Hok''. lia.
Qed.

(** When nothing is left, every call was dispatched, in order within its class,
    and has its report. *)
Lemma batch_done_reports st d f :
  NoDup (bc_call_id <$> calls) → batch_ok st d f → batch_done st = true →
  d ≡ₚ calls ∧
  (∀ p, filter (λ c, bc_priority_class c = p) d = filter (λ c, bc_priority_class c = p) calls) ∧
  Forall (λ c, ∃ r, bs_reports st !! bc_call_id c = Some (call_report c r)) calls.
Proof.
  intros Hnd Hok Hd.
  assert (pending_list (bs_pending st) = [] ∧ bs_inflight st = []) as [Hp Hi].
  { unfold batch_done, has_pending_programmatic_calls in Hd.
    rewrite pending_count_list in Hd. apply andb_true_iff in Hd as [Hd1 Hd2].
    destruct (pending_list (bs_pending st)), (bs_inflight st); done. }
  destruct Hok as [Hsplit Hfifo Hall Hord _ _ _ _ Hrep Hcon].
  rewrite Hp, app_nil_r in Hall. rewrite Hi in Hsplit. simpl in Hsplit.
  split_and!; [done| |].
  - intros p. rewrite <-(Hfifo p). unfold pending_list in Hp.
    apply app_nil in Hp as [H1 [H2 H3]%app_nil]. by destruct p; simpl; rewrite ?H1, ?H2, ?H3, app_nil_r.
  - apply Forall_forall. intros c Hc. destruct (proj2 (Hrep (bc_call_id c))) as [v Hv'].
    { apply list_elem_of_fmap. exists c. split; [done|]. by rewrite <-Hsplit, <-Hall. }
    destruct (Hcon _ _ Hv') as (c' & r & Hc' & Hid & ->). exists r.
    assert (c = c') as ->; [|done]. apply call_id_inj; [done|done|by rewrite Hall, Hsplit|done].
Qed.

(** A parallel batch runs every call exactly once within its budget. In every
    reachable state at most [max_in_flight] calls are in flight and the
    adaptive budget lies between the configured bounds; the loop makes progress
    until nothing is left, each round completing one call; at the end every
    call was dispatched once, in order within its priority class, and the
    result has one report per call, which is that call's. *)
Theorem batch_runs_every_call_once st :
  concurrency_valid → NoDup (bc_call_id <$> calls) →
  steps (batch_step concurrency step_id) (batch_init concurrency calls) st →
  (len (bs_inflight st) ≤ cp_max_in_flight concurrency)%Z ∧
  (sc_peak_in_flight (bs_counters st) ≤ cp_max_in_flight concurrency)%Z ∧
  (cp_min_in_flight concurrency ≤ bs_budget st ≤ cp_max_in_flight concurrency)%Z ∧
  (batch_done st = false → ∃ st', batch_step concurrency step_id st st') ∧
  (∀ st', batch_step concurrency step_id st st' → S (remaining_calls st') = remaining_calls st) ∧
  (batch_done st = true → ∃ dispatched,
     sc_dispatch_order (bs_counters st) = bc_call_id <$> dispatched ∧ dispatched ≡ₚ calls ∧
     (∀ p, filter (λ c, bc_priority_class c = p) dispatched =
           filter (λ c, bc_priority_class c = p) calls) ∧
     ∃ results, length results = length calls ∧
       batch_reports calls st = zip_with call_report calls results).
Proof.
  intros Hv Hnd Hs. destruct (batch_reachable_ok st Hv Hs) as (d & f & Hok).
  split_and!; [destruct Hok; lia..| | |].
  - intros Hd. pose proof (filled_nonempty st d f Hv Hok Hd) as Hne.
    destruct (bs_inflight (filled concurrency st)) as [|c cs] eqn:Hi; [done|].
    exists (complete concurrency step_id c (Err "") ([] ++ cs) (filled concurrency st)).
    by constructor.
  - intros st' Hstep. by eapply batch_step_remaining.
  - intros Hd. exists d. destruct (batch_done_reports st d f Hnd Hok Hd) as (Hp & Hf & Hr).
    split_and!; [by destruct Hok|done|done|by apply reports_zip].
Qed.
End batches.

(** ** A concrete batch *)
Module SchedulerDemo.
Definition call (id : string) (p : ProgrammaticPriorityClass) : PreparedProgrammaticBatchCall :=
  mkPreparedCall id "crm" "list" ∅ default_retry_policy p JNull.
Definition concurrency : ProgrammaticConcurrencyPolicy := default_programmatic_concurrency_policy.
Definition calls : list PreparedProgrammaticBatchCall := [call "a" PriorityLow; call "b" PriorityHigh].

(** A low-priority call behind high-priority ones is served in the first
    round. *)
Lemma fairness_witness :
  call "a" PriorityLow ∈ dispatches concurrency (length (service_order concurrency)) 0
    (group_programmatic_calls_by_priority (calls ++ calls)).
Proof.
  apply (scheduler_starves_no_class concurrency 0 _ PriorityLow).
  - vm_compute. lia.
  - reflexivity.
Defined.

(** Both calls complete, the second one with an error. *)
Definition first : BatchState := filled concurrency (batch_init concurrency calls).
Definition mid : BatchState :=
  complete concurrency "s" (call "b" PriorityHigh)
    (Ok (mkConnectorDispatch "crm" (mkConnectorOutcome "ok" JNull),
         mkInvocationMetrics 1 0 "high" 0 0 "closed" "closed"))
    [call "a" PriorityLow] first.
Definition last : BatchState :=
  complete concurrency "s" (call "a" PriorityLow) (Err "boom") [] (filled concurrency mid).

Lemma batch_witness :
  ∃ dispatched, sc_dispatch_order (bs_counters last) = bc_call_id <$> dispatched ∧ dispatched ≡ₚ calls.
Proof.
  destruct (batch_runs_every_call_once concurrency "s" calls last) as (_ & _ & _ & _ & _ & Hdone).
  - repeat split; vm_compute; congruence.
  - by apply (bool_decide_unpack _).
  - apply steps_snoc with mid; [apply steps_snoc with (batch_init concurrency calls)|].
    + apply steps_refl.
    + apply (batch_round concurrency "s" (batch_init concurrency calls) [] (call "b" PriorityHigh)
        [call "a" PriorityLow]); reflexivity.
    + apply (batch_round concurrency "s" mid [] (call "a" PriorityLow) []); reflexivity.
  - destruct Hdone as (d & Ho & Hp & _); [reflexivity|]. exists d. exact (conj Ho Hp).
Defined.
End SchedulerDemo.
