(* ===== verification/Resilience.v ===== *)
(** * Resilience: one connector call with retries (spec/src/programmatic.rs)

    [invoke_programmatic_connector_with_resilience] asks the circuit breaker
    for a slot, then tries the kernel's connector dispatch up to
    [max_attempts] times, each try behind the rate limit and with a backoff in
    between, and reports the outcome to the breaker once. *)
From S2P Require Import Prelude Json RustStr Contracts Errors Policy AuditSinks Plane Kernel KernelProps.
From S2P Require Import Governance Awareness Programmatic Circuit Scheduler.
From Stdlib Require Import SpecFloat.

(** ** Error messages *)

(** [s.replacen(p, q, 1)] *)
Definition replace_first (p q s : string) : string :=
  match find_str p s with
  | None => s
  | Some i => String.substring 0 i s +:+ q +:+
              String.substring (i + String.length p) (String.length s) s
  end.

(** [normalize_connector_error_message] *)
Definition normalize_connector_error_message (error : string) : string :=
  if contains "core connector adapter not found" (to_ascii_lowercase error)
  then replace_first "core connector adapter not found" "connector not found" error
  else error.

(** ** Backoff *)

(** [deterministic_jitter_ms]: FNV-1a of the seed, reduced *)
Definition deterministic_jitter_ms (seed : string) (modulus : Z) : Z :=
  if (modulus =? 0)%Z then 0%Z else (fnv_bytes OFFSET_BASIS seed mod modulus)%Z.

(** [2_u64.saturating_pow(exponent)] *)
Definition saturating_pow2 (exponent : Z) : Z :=
  if (exponent <? 64)%Z then (2 ^ exponent)%Z else u64_max.

(** [compute_programmatic_backoff_ms] *)
Definition compute_programmatic_backoff_ms (policy : ProgrammaticRetryPolicy)
    (connector_name step_id : string) (call_id : option string) (attempt : Z) : Z :=
  if (attempt =? 0)%Z then 0%Z
  else
    let growth := saturating_pow2 (wrap32 (sat_sub attempt 1)) in
    let base := Z.min (sat_mul (rt_initial_backoff_ms policy) growth) (rt_max_backoff_ms policy) in
    if negb (rt_adaptive_jitter policy) || (base =? 0)%Z || SFleb (rt_jitter_ratio policy) f64_0
    then base
    else
      let jitter_cap := f64_round_u64 (f64_mul (f64_of_u64 base) (rt_jitter_ratio policy)) in
      if (jitter_cap =? 0)%Z then base
      else
        let seed := connector_name +:+ "|" +:+ step_id +:+ "|" +:+
          match call_id with Some id => id | None => "no-call-id" end +:+
          "|attempt-" +:+ display attempt in
        let jitter := deterministic_jitter_ms seed (sat_add jitter_cap 1) in
        Z.min (sat_add base jitter) (rt_max_backoff_ms policy).

(** ** The call *)
Section invoke.
  Context {W : Type}.
  (** [TokioInstant::now] and [tokio::time::sleep]. *)
  Context (instant_now : W → Z * W) (sleep : Z → W → W).

(** The shared rate and circuit maps, the kernel and the environment. *)
Record ResilienceState := mkResilienceState {
  rs_rates : gmap string Z;
  rs_circuits : CircuitMap;
  rs_kernel : LoongClawKernel W StaticPolicyEngine;
  rs_env : W;
}.

  Context (pack_id : string) (token : CapabilityToken) (connector_name operation : string).
  Context (required_capabilities : gset Capability) (payload : Value).
  Context (retry_policy : ProgrammaticRetryPolicy).
  Context (connector_rate_limits : gmap string ProgrammaticConnectorRateLimit).
  Context (connector_circuit_breakers : gmap string ProgrammaticCircuitBreakerPolicy).
  Context (step_id : string) (call_id : option string).
  Context (priority_class : ProgrammaticPriorityClass).

Definition with_env (w : W) (s : ResilienceState) : ResilienceState :=
  mkResilienceState (rs_rates s) (rs_circuits s) (rs_kernel s) w.

(** [acquire_programmatic_circuit_slot(..).await]; the time is read only for a
    connector with a breaker. *)
Definition acquire_slot : ST ResilienceState string string := λ s,
  match connector_circuit_breakers !! connector_name with
  | None => (Ok "disabled", s)
  | Some _ =>
      let '(now, w) := instant_now (rs_env s) in
      let '(r, m) := acquire_programmatic_circuit_slot connector_name connector_circuit_breakers
                       step_id call_id now (rs_circuits s) in
      (r, mkResilienceState (rs_rates s) m (rs_kernel s) w)
  end.

(** [record_programmatic_circuit_outcome(..).await] *)
Definition record_outcome (success : bool) (s : ResilienceState) : string * ResilienceState :=
  match connector_circuit_breakers !! connector_name with
  | None => ("disabled", s)
  | Some _ =>
      let '(now, w) := instant_now (rs_env s) in
      let '(phase, m) := record_programmatic_circuit_outcome connector_name success
                           connector_circuit_breakers now (rs_circuits s) in
      (phase, mkResilienceState (rs_rates s) m (rs_kernel s) w)
  end.

(** [apply_programmatic_rate_limit(..).await]: sleeps out the wait and returns
    it in milliseconds. *)
Definition apply_programmatic_rate_limit (s : ResilienceState) : Z * ResilienceState :=
  match connector_rate_limits !! connector_name with
  | None => (0%Z, s)
  | Some limit =>
      let '(now, w) := instant_now (rs_env s) in
      let '(wait, m) := rate_limit_slot connector_name limit now (rs_rates s) in
      let w := if (wait =? 0)%Z then w else sleep wait w in
      (wrap64 (as_millis wait), mkResilienceState m (rs_circuits s) (rs_kernel s) w)
  end.

Definition connector_command : ConnectorCommand :=
  {| cc_connector_name := connector_name; cc_operation := operation;
     cc_required_capabilities := required_capabilities; cc_payload := payload |}.

(** [kernel.execute_connector_core(..).await] *)
Definition dispatch_once (s : ResilienceState) :
    result KernelError ConnectorDispatch * ResilienceState :=
  let '(r, (k, w)) := execute_connector_core pack_id token (Some connector_name) connector_command
                        (rs_kernel s, rs_env s) in
  (r, mkResilienceState (rs_rates s) (rs_circuits s) k w).

Definition invoke_failed (attempt : Z) (error phase_before phase_after : string) : string :=
  programmatic_error EC_ConnectorInvokeFailed
    ("programmatic step " +:+ step_id +:+ call_label call_id +:+ " connector " +:+ connector_name +:+
     " invoke failed after attempts=" +:+ display attempt +:+ ": " +:+ error +:+
     " (connector_error_code=" +:+ classify_connector_error_code error +:+
     ", circuit_phase_before=" +:+ phase_before +:+ ", circuit_phase_after=" +:+ phase_after +:+ ")").

(** [for attempt in 1..=max_attempts]: [n] attempts are left, the next one is
    [attempt]. *)
Fixpoint attempt_loop (n : nat) (attempt : Z) (phase_before : string)
    (rate_wait_ms_total backoff_ms_total : Z) (last_error : option string) (s : ResilienceState) :
    result string (ConnectorDispatch * ProgrammaticInvocationMetrics) * ResilienceState :=
  match n with
  | O =>
      (Err (programmatic_error EC_ConnectorInvokeFailed
         ("programmatic step " +:+ step_id +:+
          " exhausted retries without terminal dispatch (last_error=" +:+
          match last_error with Some e => e | None => "unknown" end +:+ ")")), s)
  | S n =>
      let '(waited, s) := apply_programmatic_rate_limit s in
      let rate_wait_ms_total := sat_add rate_wait_ms_total waited in
      match dispatch_once s with
      | (Ok dispatch, s) =>
          let '(phase_after, s) := record_outcome true s in
          (Ok (dispatch,
               {| im_attempts := attempt; im_retries := sat_sub attempt 1;
                  im_priority_class := ProgrammaticPriorityClass_as_str priority_class;
                  im_rate_wait_ms_total := rate_wait_ms_total;
                  im_backoff_ms_total := backoff_ms_total;
                  im_circuit_phase_before := phase_before;
                  im_circuit_phase_after := phase_after |}), s)
      | (Err error, s) =>
          let error_string := normalize_connector_error_message (display error) in
          if (rt_max_attempts retry_policy <=? attempt)%Z then
            let '(phase_after, s) := record_outcome false s in
            (Err (invoke_failed attempt error_string phase_before phase_after), s)
          else
            let backoff :=
              compute_programmatic_backoff_ms retry_policy connector_name step_id call_id attempt in
            let '(total, s) :=
              if (0 <? backoff)%Z
              then (sat_add backoff_ms_total backoff, with_env (sleep (millis backoff) (rs_env s)) s)
              else (backoff_ms_total, s) in
            attempt_loop n (attempt + 1) phase_before rate_wait_ms_total total (Some error_string) s
      end
  end.

(** [invoke_programmatic_connector_with_resilience] *)
Definition invoke_programmatic_connector_with_resilience :
    ST ResilienceState string (ConnectorDispatch * ProgrammaticInvocationMetrics) :=
  acquire_slot ≫= λ phase_before,
  attempt_loop (Z.to_nat (rt_max_attempts retry_policy)) 1 phase_before 0 0 None.
End invoke.

(** * What a resilient connector call guarantees *)

(** ** Backoff *)

Definition retry_unsigned (p : ProgrammaticRetryPolicy) : Prop :=
  is_u64 (rt_max_attempts p) ∧ is_u64 (rt_initial_backoff_ms p) ∧ is_u64 (rt_max_backoff_ms p).

Lemma validate_retry_Ok p step call p' :
  validate_retry_policy (Some p) step call = Ok p' →
  p' = p ∧ rt_max_attempts p ≠ 0%Z ∧ (rt_initial_backoff_ms p ≤ rt_max_backoff_ms p)%Z.
Proof.
  unfold validate_retry_policy. intros H. run_inv.
  repeat match goal with x : unit |- _ => destruct x end.
  rewrite ?reject_Ok, ?Z.eqb_neq, ?Z.ltb_ge in *. by repeat split.
Qed.

(** The exponential growth, saturated, is the exact one under the cap. *)
Lemma growth_capped initial cap e :
  is_u64 initial → is_u64 cap → (0 ≤ e)%Z →
  Z.min (sat_mul initial (saturating_pow2 e)) cap = Z.min (initial * 2 ^ e) cap.
Proof.
  intros [Hi0 Hi1] [Hc0 Hc1] He. unfold sat_mul, saturating_pow2.
  destruct (Z.ltb_spec e 64) as [|He']; [lia|].
  destruct (decide (initial = 0%Z)) as [->|]; [by rewrite !Z.mul_0_l; lia|].
  assert (2 ^ 64 ≤ 2 ^ e)%Z by (apply Z.pow_le_mono_r; lia). unfold u64_max in *. nia.
Qed.

Lemma f64_round_nonneg x : (0 ≤ f64_round_u64 x)%Z.
Proof.
  unfold f64_round_u64, u64_max. destruct x as [| [] | |[] m e]; try lia.
  apply Z.min_glb; [lia|]. destruct (Z.leb_spec 0 e); [by apply Z.mul_nonneg_nonneg; [lia|apply Z.pow_nonneg]|].
  apply Z.div_pos; [|apply Z.pow_pos_nonneg; lia].
  apply Z.add_nonneg_nonneg; [lia|by apply Z.pow_nonneg].
Qed.

Lemma jitter_nonneg seed modulus : (0 ≤ modulus)%Z → (0 ≤ deterministic_jitter_ms seed modulus)%Z.
Proof.
  intros Hm. unfold deterministic_jitter_ms. destruct (Z.eqb_spec modulus 0); [lia|].
  apply Z.mod_pos_bound. lia.
Qed.

(** Retries back off exponentially within bounds: before retry [attempt + 1]
    the wait is at least [initial * 2^(attempt-1)], capped at the maximum,
    never more than the maximum, and exactly the exponential without jitter. *)
Theorem backoff_is_exponential_and_capped policy connector step call attempt :
  validate_retry_policy (Some policy) step call = Ok policy → retry_unsigned policy →
  (1 ≤ attempt ≤ 2 ^ 32)%Z →
  let exact := Z.min (rt_initial_backoff_ms policy * 2 ^ (attempt - 1)) (rt_max_backoff_ms policy) in
  let backoff := compute_programmatic_backoff_ms policy connector step call attempt in
  (exact ≤ backoff ≤ rt_max_backoff_ms policy)%Z ∧
  (rt_adaptive_jitter policy = false → backoff = exact).
Proof.
  intros (_ & _ & Hle)%validate_retry_Ok (_ & Hi & Hm) Ha. simpl.
  unfold compute_programmatic_backoff_ms. destruct (Z.eqb_spec attempt 0); [lia|].
  assert (wrap32 (sat_sub attempt 1) = attempt - 1)%Z as ->
    by (unfold wrap32, sat_sub; rewrite Z.max_r, Z.mod_small by lia; done).
  rewrite growth_capped by (done || lia).
  set (base := Z.min (rt_initial_backoff_ms policy * 2 ^ (attempt - 1)) (rt_max_backoff_ms policy)).
  assert (0 ≤ base ≤ rt_max_backoff_ms policy)%Z as Hb.
  { pose proof (Z.pow_nonneg 2 (attempt - 1)). unfold is_u64 in *. subst base. nia. }
  destruct (rt_adaptive_jitter policy); simpl; [|split; [lia|done]].
  split; [|done]. destruct ((base =? 0)%Z || _); [lia|].
  set (cap := f64_round_u64 _). destruct (Z.eqb_spec cap 0); [lia|].
  pose proof (f64_round_nonneg (f64_mul (f64_of_u64 base) (rt_jitter_ratio policy))) as Hcap.
  fold cap in Hcap.
  match goal with |- context [deterministic_jitter_ms ?seed ?m] =>
    assert (0 ≤ deterministic_jitter_ms seed m)%Z as Hj
      by (apply jitter_nonneg; unfold sat_add, u64_max; lia);
    revert Hj; generalize (deterministic_jitter_ms seed m) end.
  intros j Hj. unfold sat_add, is_u64, u64_max in *. lia.
Qed.

(** ** Calls *)
Section calls.
  Context {W : Type} (instant_now : W → Z * W) (sleep : Z → W → W).
  Context (pack_id : string) (token : CapabilityToken) (connector_name operation : string).
  Context (required : gset Capability) (payload : Value) (retry_policy : ProgrammaticRetryPolicy).
  Context (limits : gmap string ProgrammaticConnectorRateLimit).
  Context (breakers : gmap string ProgrammaticCircuitBreakerPolicy).
  Context (step_id : string) (call_id : option string) (priority : ProgrammaticPriorityClass).
  Implicit Types s : ResilienceState (W := W).

#[local] Abbreviation invoke := (invoke_programmatic_connector_with_resilience instant_now sleep
  pack_id token connector_name operation required payload retry_policy limits breakers step_id call_id
  priority).
#[local] Abbreviation loop := (attempt_loop instant_now sleep pack_id token connector_name operation
  required payload retry_policy limits breakers step_id call_id priority).
#[local] Abbreviation dispatch :=
  (dispatch_once (W := W) pack_id token connector_name operation required payload).

Lemma rate_limit_kernel s :
  rs_kernel (apply_programmatic_rate_limit instant_now sleep connector_name limits s).2 = rs_kernel s.
Proof.
  unfold apply_programmatic_rate_limit. destruct (limits !! connector_name); [|done].
  by destruct (instant_now (rs_env s)).
Qed.

Lemma record_outcome_kernel b s :
  rs_kernel (record_outcome instant_now connector_name breakers b s).2 = rs_kernel s.
Proof.
  unfold record_outcome. destruct (breakers !! connector_name); [|done].
  destruct (instant_now (rs_env s)).
  by destruct (record_programmatic_circuit_outcome _ _ _ _ _).
Qed.

Lemma acquire_slot_kernel s :
  rs_kernel (acquire_slot instant_now connector_name breakers step_id call_id s).2 = rs_kernel s.
Proof.
  unfold acquire_slot. destruct (breakers !! connector_name); [|done].
  destruct (instant_now (rs_env s)).
  by destruct (acquire_programmatic_circuit_slot _ _ _ _ _ _).
Qed.

#[local] Abbreviation req := (ReqConnectorCore (Some connector_name)
  (connector_command connector_name operation required payload)).

Lemma dispatch_once_execute s r s' :
  dispatch s = (r, s') →
  execute pack_id token req (rs_kernel s, rs_env s) =
    (match r with Ok d => Ok (OutConnector d) | Err e => Err e end, (rs_kernel s', rs_env s')).
Proof.
  unfold dispatch_once, execute. rewrite st_fmap_run.
  destruct (execute_connector_core _ _ _ _ _) as [[d|e] [k w]]; by intros [= <- <-].
Qed.

Lemma dispatch_once_interior s r s' : dispatch s = (r, s') → interior (rs_kernel s) (rs_kernel s').
Proof.
  intros H%dispatch_once_execute. pose proof (stays_execute pack_id token req (rs_kernel s, rs_env s)).
  by rewrite H in *.
Qed.

(** A success comes from a dispatch by a kernel that earlier attempts changed
    only inside. *)
Lemma attempt_loop_Ok n attempt pb rw bt le s d m s' :
  (1 ≤ attempt)%Z → loop n attempt pb rw bt le s = (Ok (d, m), s') →
  ∃ s1 s2, interior (rs_kernel s) (rs_kernel s1) ∧ dispatch s1 = (Ok d, s2) ∧
    (attempt ≤ im_attempts m < attempt + Z.of_nat n)%Z ∧
    im_retries m = (im_attempts m - 1)%Z ∧ im_circuit_phase_before m = pb.
Proof.
  revert attempt rw bt le s. induction n as [|n IH]; intros attempt rw bt le s Ha; [done|].
  cbn [attempt_loop]. pose proof (rate_limit_kernel s) as Hk.
  destruct (apply_programmatic_rate_limit _ _ _ _ s) as [waited s0]; simpl in Hk.
  destruct (dispatch s0) as [[d'|e] s1] eqn:Hd.
  - destruct (record_outcome _ _ _ true s1) as [phase s2]. intros [= -> <- <-].
    exists s0, s1. rewrite Hk. split_and!; simpl; try done; try (unfold sat_sub; lia).
    apply interior_refl.
  - destruct (_ <=? attempt)%Z; [by destruct (record_outcome _ _ _ false s1)|].
    pose proof (dispatch_once_interior _ _ _ Hd) as Hi. rewrite Hk in Hi.
    destruct (0 <? _)%Z; intros H; apply IH in H; try lia;
      destruct H as (s2 & s3 & Hi2 & Hd2 & Hat & Hr & Hpb); exists s2, s3;
      (split_and!; [by eapply interior_trans|done|lia|lia|done|done]).
Qed.

(** Whatever its result, a call changes the kernel only inside. *)
Lemma attempt_loop_interior n attempt pb rw bt le s :
  interior (rs_kernel s) (rs_kernel (loop n attempt pb rw bt le s).2).
Proof.
  revert attempt rw bt le s. induction n as [|n IH]; intros attempt rw bt le s; [apply interior_refl|].
  cbn [attempt_loop]. pose proof (rate_limit_kernel s) as Hk.
  destruct (apply_programmatic_rate_limit _ _ _ _ s) as [waited s0]. cbn in Hk. rewrite <-Hk.
  destruct (dispatch s0) as [[d|e] s1] eqn:Hd; pose proof (dispatch_once_interior _ _ _ Hd) as Hi.
  - pose proof (record_outcome_kernel true s1) as Hr. destruct (record_outcome _ _ _ true s1). cbn in *. by rewrite Hr.
  - destruct (_ <=? attempt)%Z.
    + pose proof (record_outcome_kernel false s1) as Hr. destruct (record_outcome _ _ _ false s1). cbn in *. by rewrite Hr.
    + destruct (0 <? _)%Z; (eapply interior_trans; [exact Hi|]); apply (IH _ _ _ _ (with_env _ _)) || apply IH.
Qed.

Lemma invoke_interior s : interior (rs_kernel s) (rs_kernel (invoke s).2).
Proof.
  unfold invoke_programmatic_connector_with_resilience. rewrite st_bind_run.
  pose proof (acquire_slot_kernel s) as Hk. destruct (acquire_slot _ _ _ _ _ s) as [[pb|e] s0]; cbn in Hk; rewrite <-Hk.
  - apply attempt_loop_interior.
  - apply interior_refl.
Qed.

(** *** What a call keeps of the environment *)
Section keeps.
Context (I : W → Prop).
Context (Hnow : ∀ w, I w → I (instant_now w).2) (Hsleep : ∀ d w, I w → I (sleep d w)).

Definition env_safe (s : ResilienceState (W := W)) : Prop := env_kept I (rs_kernel s) ∧ I (rs_env s).

Lemma rate_limit_safe s :
  env_safe s → env_safe (apply_programmatic_rate_limit instant_now sleep connector_name limits s).2.
Proof.
  intros [Hk Hw]. unfold apply_programmatic_rate_limit. destruct (limits !! connector_name); [|done].
  pose proof (Hnow _ Hw) as Hw1. destruct (instant_now (rs_env s)) as [now w]. destruct (rate_limit_slot _ _ _ _).
  split; [done|]. cbn. destruct (_ =? 0)%Z; [done|]. by apply Hsleep.
Qed.

Lemma record_outcome_safe b s : env_safe s → env_safe (record_outcome instant_now connector_name breakers b s).2.
Proof.
  intros [Hk Hw]. unfold record_outcome. destruct (breakers !! connector_name); [|done].
  pose proof (Hnow _ Hw) as Hw1. destruct (instant_now (rs_env s)).
  by destruct (record_programmatic_circuit_outcome _ _ _ _ _).
Qed.

Lemma acquire_slot_safe s :
  env_safe s → env_safe (acquire_slot instant_now connector_name breakers step_id call_id s).2.
Proof.
  intros [Hk Hw]. unfold acquire_slot. destruct (breakers !! connector_name); [|done].
  pose proof (Hnow _ Hw) as Hw1. destruct (instant_now (rs_env s)).
  by destruct (acquire_programmatic_circuit_slot _ _ _ _ _ _).
Qed.

Lemma dispatch_once_safe s : env_safe s → env_safe (dispatch s).2.
Proof.
  intros [Hk Hw]. destruct (dispatch s) as [r s'] eqn:Hd. apply dispatch_once_execute in Hd.
  pose proof (keeps_execute I pack_id token req (rs_kernel s, rs_env s) Hk Hw) as [? ?]. by rewrite Hd in *.
Qed.

Lemma attempt_loop_safe n attempt pb rw bt le s : env_safe s → env_safe (loop n attempt pb rw bt le s).2.
Proof.
  revert attempt rw bt le s. induction n as [|n IH]; intros attempt rw bt le s Hs; [done|].
  cbn [attempt_loop]. apply rate_limit_safe in Hs. destruct (apply_programmatic_rate_limit _ _ _ _ s) as [waited s0].
  apply dispatch_once_safe in Hs. cbn [snd] in *. destruct (dispatch s0) as [[d|e] s1]; cbn [snd] in Hs.
  - apply (record_outcome_safe true) in Hs. by destruct (record_outcome _ _ _ true s1).
  - destruct (_ <=? attempt)%Z; [apply (record_outcome_safe false) in Hs; by destruct (record_outcome _ _ _ false s1)|].
    destruct (0 <? _)%Z; apply IH; [|done]. destruct Hs as [? ?]. split; [done|]. by apply Hsleep.
Qed.

Lemma invoke_safe s : env_safe s → env_safe (invoke s).2.
Proof.
  intros Hs%acquire_slot_safe. unfold invoke_programmatic_connector_with_resilience. rewrite st_bind_run.
  destruct (acquire_slot _ _ _ _ _ s) as [[pb|e] s0]; [by apply attempt_loop_safe|done].
Qed.
End keeps.

(** Resilience does not weaken governance: a call that succeeds, after
    however many retries, was admitted by the kernel as it was configured
    when the call started. Its pack is registered, lists the connector and
    grants what the call needs; the token belongs to the pack, holds those
    capabilities and was not revoked when the call started; and the number of
    attempts is within the policy. *)
Theorem resilient_calls_stay_governed s d m s' :
  invoke s = (Ok (d, m), s') → (0 ≤ rt_max_attempts retry_policy)%Z →
  ∃ pack, k_packs (rs_kernel s) !! pack_id = Some pack ∧
    connector_name ∈ pk_allowed_connectors pack ∧
    required ⊆ pk_granted_capabilities pack ∧ required ⊆ tok_allowed_capabilities token ∧
    tok_pack_id token = pk_pack_id pack ∧ ¬ revoked (k_policy (rs_kernel s)) token ∧
    (1 ≤ im_attempts m ≤ rt_max_attempts retry_policy)%Z ∧
    im_retries m = (im_attempts m - 1)%Z.
Proof.
  unfold invoke_programmatic_connector_with_resilience. intros H Hmax.
  apply st_bind_Ok in H as (pb & s0 & Hacq & Hloop).
  pose proof (acquire_slot_kernel s) as Hk. rewrite Hacq in Hk. simpl in Hk.
  apply attempt_loop_Ok in Hloop as (s1 & s2 & Hint & Hd & Hat & Hret & _); [|lia].
  apply dispatch_once_execute in Hd. rewrite execute_dispatch in Hd.
  apply dispatch_Ok in Hd as (pack & now & p & w2 & w3 & Hpack & Hguard & Hauth & _).
  apply authorize_pack_operation_Ok in Hauth as (Hgr & w1 & p' & w2' & _ & Hpe & _).
  apply authorize_Ok in Hpe as (_ & Hnr & Htp & _ & Hcaps). rewrite Hk in Hint.
  destruct Hint as (pol & n & Hs1 & Hpol & _). rewrite Hs1 in Hpack. simpl in Hpack.
  exists pack. split_and!; try done; [| |lia|lia].
  - unfold guard_of, assert_connector_allowed in Hguard. simpl in Hguard.
    destruct (VerticalPackManifest_allows_connector pack connector_name) eqn:Hall; [|done].
    by apply allows_connector_true in Hall.
  - intros Hr. apply Hnr. rewrite Hs1. simpl. by eapply policy_steps_revoked.
Qed.

(** An open breaker protects the connector: while it cools down a call is
    refused at once with a [circuit_open] error; the kernel is not called,
    nothing sleeps and no state changes. *)
Theorem open_breaker_blocks_call s policy e now w remaining :
  breakers !! connector_name = Some policy → rs_circuits s !! connector_name = Some e →
  cs_phase e = PhaseOpen → instant_now (rs_env s) = (now, w) → cooling now e = Some remaining →
  ∃ message, invoke s = (Err (programmatic_error EC_CircuitOpen message), with_env w s).
Proof.
  intros Hb He Hp Hn Hc. unfold invoke_programmatic_connector_with_resilience.
  rewrite st_bind_run. unfold acquire_slot. rewrite Hb, Hn.
  unfold acquire_programmatic_circuit_slot, circuit_entry, acquire_entry. rewrite Hb, He, Hp, Hc.
  simpl. eexists. by rewrite insert_id.
Qed.
End calls.

(** ** A concrete call *)
Module ResilienceDemo.
Definition pack : VerticalPackManifest :=
  {| pk_pack_id := "sales"; pk_domain := "sales"; pk_version := "1.0.0";
     pk_default_route := mkExecutionRoute EmbeddedPi None;
     pk_allowed_connectors := {["crm"]}; pk_granted_capabilities := {[InvokeConnector]};
     pk_metadata := ∅ |}.
Definition crm : CoreConnectorAdapter EventLog :=
  {| core_name := "crm"; core_execute := λ c, mret (mkConnectorOutcome "ok" (cc_payload c)) |}.
Definition kernel : LoongClawKernel EventLog StaticPolicyEngine :=
  register_core_connector_adapter crm (set_packs {["sales" := pack]} {["sales" := namespace_of pack]}
    (with_runtime StaticPolicyEngine_default (λ w, (100%Z, w)) (InMemoryAuditSink_record cell_id))).
Definition token : CapabilityToken :=
  mkCapabilityToken "tok-0000000000000001" "sales" "a" {[InvokeConnector]} 100 160 1.
Definition breaker : gmap string ProgrammaticCircuitBreakerPolicy :=
  {["crm" := mkProgrammaticCircuitBreakerPolicy 3 1000 1 1]}.
Definition state (m : CircuitMap) : ResilienceState := mkResilienceState ∅ m kernel EventLog_default.
Definition tripped : CircuitMap := {["crm" := mkCircuitState PhaseOpen 3 (Some 500%Z) 0 0]}.
Definition invoke (now : Z) :=
  invoke_programmatic_connector_with_resilience (λ w : EventLog, (now, w)) (λ _ w, w) "sales" token
    "crm" "list" {[InvokeConnector]} JNull default_retry_policy ∅ breaker "s" None PriorityNormal.

Definition metrics : ProgrammaticInvocationMetrics :=
  mkInvocationMetrics 1 0 "normal" 0 0 "closed" "closed".

Lemma invoke_ok : invoke 0 (state ∅) =
  (Ok (mkConnectorDispatch "crm" (mkConnectorOutcome "ok" JNull), metrics), (invoke 0 (state ∅)).2).
Proof. vm_compute. reflexivity. Qed.

Lemma governed_call_witness :
  ∃ p, k_packs kernel !! "sales" = Some p ∧ "crm" ∈ pk_allowed_connectors p ∧
    {[InvokeConnector]} ⊆ tok_allowed_capabilities token.
Proof.
  destruct (resilient_calls_stay_governed _ _ _ _ _ _ _ _ _ _ _ _ _ _ _ _ _ _ invoke_ok)
    as (p & Hk & Hc & _ & Ht & _).
  - simpl. lia.
  - exists p. exact (conj Hk (conj Hc Ht)).
Defined.

Lemma blocked_call_witness :
  ∃ message, invoke 100 (state tripped) =
    (Err (programmatic_error EC_CircuitOpen message), state tripped).
Proof.
  apply (open_breaker_blocks_call (λ w : EventLog, (100%Z, w)) (λ _ w, w) "sales" token "crm" "list"
    {[InvokeConnector]} JNull default_retry_policy ∅ breaker "s" None PriorityNormal (state tripped)
    (mkProgrammaticCircuitBreakerPolicy 3 1000 1 1) (mkCircuitState PhaseOpen 3 (Some 500%Z) 0 0)
    100 EventLog_default 400); reflexivity.
Defined.

Lemma backoff_witness :
  (400 ≤ compute_programmatic_backoff_ms default_retry_policy "crm" "s" None 3 ≤ 2000)%Z.
Proof.
  apply (backoff_is_exponential_and_capped default_retry_policy "crm" "s" None 3).
  - vm_compute. reflexivity.
  - unfold retry_unsigned, is_u64, u64_max. simpl. lia.
  - lia.
Defined.
End ResilienceDemo.
