(* ===== verification/PlanGraph.v ===== *)
(** * PlanGraph: plans of the safe lane (app/src/conversation/plan_ir.rs)

    A plan is a graph of nodes with a budget; [PlanGraph_validate] is the
    gate in front of its execution. The first half is Kahn's traversal by
    in-degrees, the second half proves that validation accepts exactly the
    well-formed plans: the traversal agrees with the absence of cycles. *)
From S2P Require Import Prelude RustStr.

(** * Topological traversal of a directed graph by in-degrees

    Both the plan validator and the plan executor (conversation/plan_ir.rs,
    plan_executor.rs) walk a graph the same way: nodes whose in-degree is zero
    wait in a queue; taking a node out lowers the in-degree of its successors,
    and a successor that reaches zero joins the queue. Here is the step they
    share, on plain indices, and what the walk computes. *)

(** The inner loop [for next in neighbors]: lowers the in-degree of every
    neighbor and queues the ones that reach zero. [None] is an index outside
    the vector. *)
Fixpoint relax (neighbors : list nat) (indegree : list Z) (queue : list nat) :
    option (list Z * list nat) :=
  match neighbors with
  | [] => Some (indegree, queue)
  | next :: neighbors =>
      degree ← indegree !! next;
      let degree := sat_sub degree 1 in
      relax neighbors (<[next := degree]> indegree)
        (if (degree =? 0)%Z then queue ++ [next] else queue)
  end.

(** [for (index, degree) in indegree.iter().enumerate() { if *degree == 0 .. }] *)
Definition initial_queue (indegree : list Z) : list nat :=
  omap (λ p, if (p.2 =? 0)%Z then Some p.1 else None) (imap pair indegree).

(** ** Graphs as lists of edges between indices *)

(** The edges from [i] to [j], with multiplicity. *)
Definition count (i j : nat) (es : list (nat * nat)) : nat :=
  length (filter (λ e, e = (i, j)) es).

(** The edges into [j] whose source is not in [done]. *)
Definition pending_in (done : list nat) (j : nat) (es : list (nat * nat)) : nat :=
  length (filter (λ e, e.2 = j ∧ e.1 ∉ done) es).

(** A list of nodes that puts the source of every edge before its target. *)
Definition topological (es : list (nat * nat)) (order : list nat) : Prop :=
  ∀ pre j post, order = pre ++ j :: post → ∀ i, (i, j) ∈ es → i ∈ pre.

Definition occ (j : nat) (l : list nat) : nat := length (filter (λ x, x = j) l).

Lemma occ_cons j x l : occ j (x :: l) = (if decide (x = j) then 1 else 0) + occ j l.
Proof. unfold occ. rewrite filter_cons. by destruct (decide (x = j)). Qed.

Lemma occ_pos j l : j ∈ l ↔ 0 < occ j l.
Proof.
  induction l as [|x l IH]; [split; [by intros ?%not_elem_of_nil|unfold occ; simpl; lia]|].
  rewrite occ_cons, elem_of_cons, IH. destruct (decide (x = j)); naive_solver lia.
Qed.

(** ** The inner loop *)

Lemma relax_spec ns d q :
  (∀ j, j ∈ ns → ∃ x, d !! j = Some x ∧ (Z.of_nat (occ j ns) ≤ x)%Z) →
  ∃ d' fresh, relax ns d q = Some (d', q ++ fresh) ∧ length d' = length d ∧
    (∀ j x, d !! j = Some x → d' !! j = Some (x - Z.of_nat (occ j ns))%Z) ∧
    NoDup fresh ∧
    (∀ j, j ∈ fresh ↔ j ∈ ns ∧ d !! j = Some (Z.of_nat (occ j ns))).
Proof.
  revert d q. induction ns as [|n ns IH]; intros d q Hd; cbn [relax].
  { exists d, []. rewrite app_nil_r. split; [done|]. split; [done|]. split.
    { intros j x Hj. rewrite Hj. f_equal. unfold occ. simpl. lia. }
    split; [constructor|]. intros j. split; [by intros ?%not_elem_of_nil|].
    by intros [?%not_elem_of_nil _]. }
  destruct (Hd n) as (x & Hx & Hle); [left|]. rewrite Hx. cbn [mbind option_bind].
  rewrite occ_cons, decide_True in Hle by done.
  assert (sat_sub x 1 = x - 1)%Z as -> by (unfold sat_sub; lia).
  pose proof (lookup_lt_Some _ _ _ Hx) as Hlt.
  assert (∀ j, <[n:=(x-1)%Z]> d !! j = if decide (n = j) then Some (x - 1)%Z else d !! j) as Hins.
  { intros j. case_decide as Hj; [subst; by rewrite list_lookup_insert_eq|].
    by rewrite list_lookup_insert_ne. }
  destruct (IH (<[n:=(x-1)%Z]> d) (if (x - 1 =? 0)%Z then q ++ [n] else q))
    as (d' & fresh & Hr & Hlen & Hd' & Hnd & Hfresh).
  { intros j Hj. rewrite Hins. destruct (Hd j) as (y & Hy & Hley); [by right|].
    rewrite occ_cons in Hley. case_decide; simplify_eq; eexists; (split; [done|lia]). }
  rewrite length_insert in Hlen.
  assert (∀ j y, d !! j = Some y → d' !! j = Some (y - Z.of_nat (occ j (n :: ns)))%Z) as Hall.
  { intros j y Hj. rewrite occ_cons. case_decide as Hnj.
    - subst j. simplify_eq. rewrite (Hd' n (x - 1)%Z) by (by rewrite Hins, decide_True). f_equal; lia.
    - rewrite (Hd' j y) by (by rewrite Hins, decide_False). f_equal; lia. }
  destruct (Z.eqb_spec (x - 1) 0) as [Hz|Hnz].
  - assert (occ n ns = 0) as Hocc by lia.
    exists d', (n :: fresh). rewrite Hr, <-app_assoc. split; [done|]. split; [done|]. split; [done|].
    assert (n ∉ ns) as Hn by (rewrite occ_pos; lia).
    split; [apply NoDup_cons; split; [rewrite Hfresh; naive_solver|done]|].
    intros j. rewrite !elem_of_cons, Hfresh, occ_cons, Hins.
    destruct (decide (n = j)) as [->|Hnj].
    + rewrite Hx. split; [intros _; split; [by left|f_equal; lia]|by left].
    + split; naive_solver.
  - exists d', fresh. split; [done|]. split; [done|]. split; [done|]. split; [done|].
    intros j. rewrite elem_of_cons, Hfresh, occ_cons, Hins.
    destruct (decide (n = j)) as [->|Hnj].
    + rewrite Hx. split.
      * intros [Hj [= Heq]]. split; [by left|]. f_equal; lia.
      * intros [_ [= Heq]]. split; [|f_equal; lia]. rewrite occ_pos. lia.
    + split; [naive_solver|]. intros [[->|?] ?]; naive_solver.
Qed.

(** ** Edges still to come *)

Lemma pending_in_snoc o i j es :
  i ∉ o → pending_in o j es = count i j es + pending_in (o ++ [i]) j es.
Proof.
  intros Hi. unfold pending_in, count. induction es as [|[a b] es IH]; [done|].
  rewrite !filter_cons. cbn [fst snd].
  assert (a ∉ (o ++ [i]) ↔ (a ∉ o) ∧ a ≠ i) as Ha by set_solver.
  repeat case_decide; simpl; try lia; exfalso; naive_solver.
Qed.

Lemma pending_in_pos o j es : 0 < pending_in o j es ↔ ∃ i, (i, j) ∈ es ∧ i ∉ o.
Proof.
  unfold pending_in. split.
  - intros H. destruct (filter _ es) as [|[a b] l] eqn:He; [simpl in H; lia|].
    assert ((a, b) ∈ filter (λ e, e.2 = j ∧ e.1 ∉ o) es) as Hin by (rewrite He; left).
    apply list_elem_of_filter in Hin as [[Hb Ha] Hin]. simpl in *. subst. eauto.
  - intros (i & Hin & Hi).
    assert ((i, j) ∈ filter (λ e, e.2 = j ∧ e.1 ∉ o) es) as H by (by apply list_elem_of_filter).
    destruct (filter _ es); [by apply not_elem_of_nil in H|simpl; lia].
Qed.

Lemma pending_in_nil j es : pending_in [] j es = length (filter (λ e, e.2 = j) es).
Proof.
  unfold pending_in. f_equal. apply list_filter_iff. intros e.
  pose proof (not_elem_of_nil e.1). naive_solver.
Qed.

Lemma count_pos i j es : (i, j) ∈ es ↔ 0 < count i j es.
Proof.
  unfold count. split.
  - intros Hin. assert ((i, j) ∈ filter (λ e, e = (i, j)) es) as H by (by apply list_elem_of_filter).
    destruct (filter _ es); [by apply not_elem_of_nil in H|simpl; lia].
  - intros H. destruct (filter _ es) as [|e l] eqn:He; [simpl in H; lia|].
    assert (e ∈ filter (λ e, e = (i, j)) es) as Hin by (rewrite He; left).
    by apply list_elem_of_filter in Hin as [-> ?].
Qed.

(** ** The traversal *)

(** [while let Some(index) = queue.pop_front()], collecting the nodes taken
    out. Every round takes one node out, so the number of nodes is enough
    fuel ([kahn_walk_spec]). *)
Fixpoint walk (fuel : nat) (adjacency : list (list nat)) (queue : list nat) (indegree : list Z)
    (order : list nat) : option (list nat) :=
  match fuel, queue with
  | S fuel, index :: queue =>
      neighbors ← adjacency !! index;
      '(indegree, queue) ← relax neighbors indegree queue;
      walk fuel adjacency queue indegree (order ++ [index])
  | _, _ => Some order
  end.

(** ** Cycles *)

Definition acyclic (es : list (nat * nat)) : Prop := ∀ i, ¬ tc (λ i j, (i, j) ∈ es) i i.

(** In a finite non-empty set where everything has a predecessor there is a
    cycle: a backward walk must come back to a node it visited. *)
Lemma finite_cycle {A} `{EqDecision A} (R : A → A → Prop) (l : list A) :
  l ≠ [] → (∀ x, x ∈ l → ∃ y, y ∈ l ∧ R y x) → ∃ x, tc R x x.
Proof.
  intros Hl Hpred.
  assert (∀ k, (∃ x, tc R x x) ∨ ∃ x path, length path = k ∧ NoDup (x :: path) ∧
    (∀ y, y ∈ x :: path → y ∈ l) ∧ ∀ y, y ∈ path → tc R x y) as Hk.
  { induction k as [|k [IH|(x & path & Hlen & Hnd & Hin & Htc)]]; [right|by left|].
    { destruct l as [|x l]; [done|]. exists x, []. split; [done|]. split; [apply NoDup_singleton|].
      split; [set_solver|by intros y ?%not_elem_of_nil]. }
    destruct (Hpred x) as (y & Hy & Hyx); [apply Hin; left|].
    destruct (decide (y ∈ x :: path)) as [Hyp|Hyp].
    - left. exists y. apply elem_of_cons in Hyp as [->|Hyp]; [by apply tc_once|].
      eapply tc_l; [exact Hyx|]. by apply Htc.
    - right. exists y, (x :: path). split; [simpl; lia|]. split; [by apply NoDup_cons|].
      split; [set_solver|]. intros z [->|Hz]%elem_of_cons; [by apply tc_once|].
      eapply tc_l; [exact Hyx|]. by apply Htc. }
  destruct (Hk (length l)) as [?|(x & path & Hlen & Hnd & Hin & _)]; [done|].
  exfalso. assert (length (x :: path) ≤ length l); [|simpl in *; lia].
  apply submseteq_length, NoDup_submseteq; [done|exact Hin].
Qed.

(** A topological order of all nodes rules out cycles. *)
Lemma topological_acyclic es order :
  NoDup order → (∀ i j, (i, j) ∈ es → j ∈ order) → topological es order → acyclic es.
Proof.
  intros Hnd Hall Htop i Hi.
  assert (∀ i j, tc (λ i j, (i, j) ∈ es) i j → j ∈ order ∧
    ∀ pre post, order = pre ++ j :: post → i ∈ pre) as Hbefore.
  { intros a b Hab. induction Hab as [a b Hab|a b c Hab Hbc [Hc IH]].
    - split; [by eapply Hall|]. intros pre post Ho. by eapply Htop.
    - split; [done|]. intros pre post Ho. specialize (IH pre post Ho) as Hb.
      apply list_elem_of_split in Hb as (p1 & p2 & ->).
      rewrite <-app_assoc in Ho. simpl in Ho. apply elem_of_app. left. by eapply Htop. }
  destruct (Hbefore i i Hi) as [Hin Hb]. apply list_elem_of_split in Hin as (pre & post & Ho).
  specialize (Hb pre post Ho). rewrite Ho in Hnd. apply NoDup_app in Hnd as (_ & Hd & _).
  by apply (Hd i Hb); left.
Qed.

Section walk.
  Context (n : nat) (es : list (nat * nat)) (adjacency : list (list nat)).

Definition edges_in_range : Prop := ∀ i j, (i, j) ∈ es → i < n ∧ j < n.

(** The adjacency lists hold exactly the edges, with multiplicity. *)
Definition adjacency_ok : Prop :=
  ∀ i, i < n → ∃ ns, adjacency !! i = Some ns ∧ ∀ j, occ j ns = count i j es.

Record walk_inv (queue : list nat) (indegree : list Z) (order : list nat) : Prop := {
  wi_length : length indegree = n;
  wi_nodup : NoDup (order ++ queue);
  wi_range : ∀ j, j ∈ order ++ queue → j < n;
  wi_degree : ∀ j x, indegree !! j = Some x → x = Z.of_nat (pending_in order j es);
  wi_ready : ∀ j, j < n → (j ∈ order ++ queue ↔ pending_in order j es = 0);
  wi_topological : topological es order;
}.

Context (Hes : edges_in_range) (Hadj : adjacency_ok).

Lemma topological_snoc order i :
  topological es order → pending_in order i es = 0 → topological es (order ++ [i]).
Proof.
  intros Ho Hi pre j post Heq a Ha. destruct post as [|p post _] using rev_ind.
  - apply app_inj_tail in Heq as [<- <-]. destruct (decide (a ∈ order)); [done|].
    assert (0 < pending_in order i es) by (apply pending_in_pos; eauto). lia.
  - rewrite app_comm_cons, app_assoc in Heq. apply app_inj_tail in Heq as [-> <-].
    by eapply Ho.
Qed.

Lemma walk_step index queue indegree order :
  walk_inv (index :: queue) indegree order →
  ∃ ns indegree' queue', adjacency !! index = Some ns ∧
    relax ns indegree queue = Some (indegree', queue') ∧
    walk_inv queue' indegree' (order ++ [index]).
Proof.
  intros [Hlen Hnd Hrange Hdeg Hready Htop].
  assert (index < n) as Hlt by (apply Hrange; set_solver).
  destruct (Hadj index Hlt) as (ns & Hns & Hocc).
  assert ((index ∉ order) ∧ index ∉ queue) as [Hio Hiq].
  { apply NoDup_app in Hnd as (_ & Hd & Hq). apply NoDup_cons in Hq as [Hq _].
    split; [|done]. intros Hin. by apply (Hd index Hin); left. }
  assert (∀ j, j < n → ∃ x, indegree !! j = Some x) as Hsome.
  { intros j Hj. apply lookup_lt_is_Some. by rewrite Hlen. }
  destruct (relax_spec ns indegree queue) as (d' & fresh & Hr & Hlen' & Hd' & Hndf & Hfresh).
  { intros j Hj. rewrite occ_pos, Hocc, <-count_pos in Hj.
    destruct (Hsome j) as [x Hx]; [by apply (Hes index)|]. exists x. split; [done|].
    rewrite (Hdeg _ _ Hx), Hocc, (pending_in_snoc order index) by done. lia. }
  exists ns, d', (queue ++ fresh). split; [done|]. split; [done|].
  assert (∀ j, j < n → pending_in order j es = occ j ns + pending_in (order ++ [index]) j es) as Hp.
  { intros j _. rewrite Hocc. by apply pending_in_snoc. }
  assert (∀ j, j ∈ fresh ↔ j < n ∧ 0 < pending_in order j es
      ∧ pending_in (order ++ [index]) j es = 0) as Hfr.
  { intros j. rewrite Hfresh. split.
    - intros [Hj Hx]. assert (j < n) as Hjn.
      { rewrite occ_pos, Hocc, <-count_pos in Hj. by apply (Hes index). }
      rewrite (Hp j Hjn). apply Hdeg in Hx. rewrite (Hp j Hjn) in Hx. apply occ_pos in Hj. lia.
    - intros (Hjn & Hpos & Hz). destruct (Hsome j Hjn) as [x Hx]. rewrite Hx.
      rewrite (Hdeg _ _ Hx). rewrite (Hp j Hjn) in *. split; [apply occ_pos; lia|f_equal; lia]. }
  assert (pending_in order index es = 0) as Hi0 by (apply Hready; set_solver).
  split.
  - lia.
  - rewrite <-app_assoc. change ([index] ++ queue ++ fresh) with ((index :: queue) ++ fresh).
    rewrite app_assoc. apply NoDup_app. split; [done|]. split; [|done].
    intros j Hj Hjf. apply Hfr in Hjf as (Hjn & Hpos & _).
    apply (Hready j Hjn) in Hj. lia.
  - intros j. rewrite !elem_of_app, list_elem_of_singleton. intros [[Hj| ->]|[Hj|Hj]]; [|done| |].
    + apply Hrange. set_solver.
    + apply Hrange. set_solver.
    + by apply Hfr in Hj as [? _].
  - intros j x Hx. assert (j < n) as Hj by (apply lookup_lt_Some in Hx; lia).
    destruct (Hsome j Hj) as [y Hy]. rewrite (Hd' _ _ Hy) in Hx. simplify_eq.
    rewrite (Hdeg _ _ Hy), (Hp j Hj). lia.
  - intros j Hj. split.
    + rewrite !elem_of_app, list_elem_of_singleton. intros Hin.
      destruct (decide (j ∈ fresh)) as [Hf|Hf]; [by apply Hfr in Hf as (_ & _ & ?)|].
      assert (pending_in order j es = 0); [|rewrite (Hp j Hj) in *; lia].
      apply Hready; [done|]. rewrite elem_of_app, elem_of_cons. naive_solver.
    + intros Hz. destruct (decide (pending_in order j es = 0)) as [H0|H0].
      * apply Hready in H0; [|done]. set_solver.
      * assert (j ∈ fresh) by (apply Hfr; split; [done|]; split; [lia|done]). set_solver.
  - by apply topological_snoc.
Qed.

Lemma NoDup_bounded (l : list nat) : NoDup l → (∀ j, j ∈ l → j < n) → length l ≤ n.
Proof.
  intros Hnd Hb. rewrite <-(length_seq n 0). apply submseteq_length, NoDup_submseteq; [done|].
  intros j Hj. apply elem_of_seq. specialize (Hb j Hj). lia.
Qed.

(** With fuel for every node left the walk ends with an empty queue. *)
Lemma kahn_walk_spec fuel queue indegree order :
  walk_inv queue indegree order → n ≤ length order + fuel →
  ∃ order' indegree', walk fuel adjacency queue indegree order = Some order' ∧
    walk_inv [] indegree' order'.
Proof.
  revert queue indegree order. induction fuel as [|fuel IH]; intros q d o Hinv Hf.
  - destruct q as [|i q]; [by exists o, d|]. exfalso.
    pose proof (NoDup_bounded _ (wi_nodup _ _ _ Hinv) (wi_range _ _ _ Hinv)) as Hb.
    rewrite length_app in Hb. simpl in Hb. lia.
  - destruct q as [|i q]; [by exists o, d|].
    destruct (walk_step i q d o Hinv) as (ns & d' & q' & Hns & Hr & Hinv').
    destruct (IH q' d' (o ++ [i]) Hinv') as (o' & d'' & Hw & Hi'); [rewrite length_app; simpl; lia|].
    exists o', d''. split; [|done]. cbn [walk]. rewrite Hns. cbn [mbind option_bind].
    rewrite Hr. done.
Qed.

Lemma elem_of_initial_queue d j : j ∈ initial_queue d ↔ d !! j = Some 0%Z.
Proof.
  unfold initial_queue. rewrite list_elem_of_omap. split.
  - intros ([k x] & Hin & Hx). apply elem_of_lookup_imap in Hin as (i & y & [= -> ->] & Hi).
    simpl in Hx. destruct (Z.eqb_spec y 0); naive_solver.
  - intros Hj. exists (j, 0%Z). split; [|done]. apply elem_of_lookup_imap. eauto.
Qed.

Lemma initial_queue_NoDup d : NoDup (initial_queue d).
Proof.
  assert (NoDup (imap pair d).*1) as Hnd.
  { rewrite fmap_imap. apply NoDup_alt. intros i j x Hi Hj.
    rewrite list_lookup_imap in Hi, Hj. apply fmap_Some in Hi as (? & _ & Hx).
    apply fmap_Some in Hj as (? & _ & Hy). unfold compose in *. simpl in *. congruence. }
  unfold initial_queue. induction (imap pair d) as [|[i x] l IH]; [constructor|].
  csimpl in *. apply NoDup_cons in Hnd as [Hi Hnd]. destruct (x =? 0)%Z; [|by apply IH].
  apply NoDup_cons. split; [|by apply IH]. intros ([j y] & Hin & Hy)%list_elem_of_omap.
  apply Hi, list_elem_of_fmap. exists (j, y). simpl in Hy. destruct (y =? 0)%Z; naive_solver.
Qed.

(** The walk starts from in-degrees that count the edges. *)
Lemma walk_inv_initial indegree :
  length indegree = n →
  (∀ j x, indegree !! j = Some x → x = Z.of_nat (length (filter (λ e, e.2 = j) es))) →
  walk_inv (initial_queue indegree) indegree [].
Proof.
  intros Hlen Hdeg. split; [done|apply initial_queue_NoDup| | | |].
  - intros j Hj%elem_of_initial_queue%lookup_lt_Some. lia.
  - intros j x Hx. rewrite pending_in_nil. by apply Hdeg.
  - intros j Hj. rewrite pending_in_nil. simpl. rewrite elem_of_initial_queue.
    destruct (lookup_lt_is_Some_2 indegree j) as [x Hx]; [lia|]. rewrite Hx.
    rewrite (Hdeg _ _ Hx). split; [intros [= ?]; lia|by intros ->].
  - intros pre j post Ho. by destruct pre.
Qed.

(** A walk that has emptied its queue has seen every node exactly when there
    is no cycle. *)
Lemma walk_complete_iff indegree order :
  walk_inv [] indegree order → (length order = n ↔ acyclic es).
Proof.
  intros [Hlen Hnd Hrange Hdeg Hready Htop]. rewrite app_nil_r in *. split.
  - intros Ho. apply (topological_acyclic es order); [done| |done]. intros i j Hij.
    assert (seq 0 n ≡ₚ order) as Hperm.
    { symmetry. apply submseteq_length_Permutation; [|by rewrite length_seq, Ho].
      apply NoDup_submseteq; [done|]. intros x Hx. apply elem_of_seq.
      specialize (Hrange x Hx). lia. }
    rewrite <-Hperm. apply elem_of_seq. apply Hes in Hij. lia.
  - intros Hac. destruct (decide (length order = n)) as [|Hne]; [done|]. exfalso.
    pose proof (NoDup_bounded _ Hnd Hrange) as Hle.
    destruct (finite_cycle (λ i j, (i, j) ∈ es) (filter (λ j, j ∉ order) (seq 0 n))) as [x Hx].
    + intros Hnil. apply (filter_not_nil (λ j, j ∈ order)) in Hnil. rewrite Forall_forall in Hnil.
      assert (length (seq 0 n) ≤ length order); [|rewrite length_seq in *; lia].
      apply submseteq_length, NoDup_submseteq; [apply NoDup_seq|]. intros x Hx. by apply Hnil.
    + intros j [Hj Hjn]%list_elem_of_filter. apply elem_of_seq in Hjn.
      assert (0 < pending_in order j es) as (i & Hij & Hi)%pending_in_pos.
      { destruct (decide (pending_in order j es = 0)) as [H0|]; [|lia].
        by apply Hready in H0; [|lia]. }
      exists i. split; [|done]. apply list_elem_of_filter. split; [done|].
      apply elem_of_seq. apply Hes in Hij. lia.
    + by apply (Hac x).
Qed.
End walk.

(** ** Building the graph

    The in-degrees and adjacency lists after processing edges one by one. *)
Record graph_of (n : nat) (es : list (nat * nat)) (indegree outdegree : list Z)
    (adjacency : list (list nat)) : Prop := {
  go_in_length : length indegree = n;
  go_out_length : length outdegree = n;
  go_in : ∀ j x, indegree !! j = Some x → x = Z.of_nat (length (filter (λ e, e.2 = j) es));
  go_out : ∀ i x, outdegree !! i = Some x → x = Z.of_nat (length (filter (λ e, e.1 = i) es));
  go_adj : ∀ i, i < n → ∃ ns, adjacency !! i = Some ns ∧ ∀ j, occ j ns = count i j es;
}.

Lemma graph_of_nil n : graph_of n [] (replicate n 0%Z) (replicate n 0%Z) (replicate n []).
Proof.
  split; rewrite ?length_replicate; try done.
  - by intros j x [-> _]%lookup_replicate.
  - by intros j x [-> _]%lookup_replicate.
  - intros i Hi. exists []. split; [by apply lookup_replicate_2|done].
Qed.

Lemma graph_of_snoc n es ind outd adj i j di dj ns :
  graph_of n es ind outd adj → (len es < u64_max)%Z →
  ind !! j = Some dj → outd !! i = Some di → adj !! i = Some ns →
  graph_of n (es ++ [(i, j)]) (<[j := sat_add dj 1]> ind) (<[i := sat_add di 1]> outd)
    (<[i := ns ++ [j]]> adj).
Proof.
  intros [Hil Hol Hin Hout Hadj] Hlen Hj Hi Hns.
  assert (∀ (P : nat * nat → Prop) `{∀ e, Decision (P e)},
    (Z.of_nat (length (filter P es)) ≤ len es)%Z) as Hle.
  { intros P ?. unfold len. pose proof (length_filter P es). lia. }
  split; rewrite ?length_insert; try done.
  - intros k x Hx. rewrite filter_app, length_app, filter_cons, filter_nil. cbn [snd].
    apply list_lookup_insert_Some in Hx as [(<- & <- & _)|[Hne Hx]].
    + rewrite decide_True by done. rewrite (Hin _ _ Hj), sat_add_small; [simpl; lia|].
      specialize (Hle (λ e, e.2 = j) _). unfold u64_max in *. lia.
    + rewrite decide_False by done. rewrite (Hin _ _ Hx). simpl. lia.
  - intros k x Hx. rewrite filter_app, length_app, filter_cons, filter_nil. cbn [fst].
    apply list_lookup_insert_Some in Hx as [(<- & <- & _)|[Hne Hx]].
    + rewrite decide_True by done. rewrite (Hout _ _ Hi), sat_add_small; [simpl; lia|].
      specialize (Hle (λ e, e.1 = i) _). unfold u64_max in *. lia.
    + rewrite decide_False by done. rewrite (Hout _ _ Hx). simpl. lia.
  - intros k Hk. destruct (Hadj k Hk) as (ms & Hms & Hocc). destruct (decide (k = i)) as [->|Hne].
    + simplify_eq. exists (ns ++ [j]). split; [apply list_lookup_insert_eq; by eapply lookup_lt_Some|].
      intros l. unfold occ, count in *. rewrite !filter_app, !length_app, Hocc. f_equal.
      rewrite !filter_cons. repeat case_decide; simplify_eq; done.
    + exists ms. rewrite list_lookup_insert_ne by done. split; [done|]. intros l. rewrite Hocc.
      unfold count. rewrite filter_app, length_app, filter_cons, decide_False by naive_solver.
      simpl. lia.
Qed.

(** * Plans *)
(** [PLAN_GRAPH_VERSION] *)
Definition PLAN_GRAPH_VERSION : string := "hybrid_lane_plan.v1".

Inductive PlanNodeKind := Node_Tool | Node_Transform | Node_Verify | Node_Respond.
Inductive RiskTier := Risk_Low | Risk_Medium | Risk_High.

#[export] Instance PlanNodeKind_eq_dec : EqDecision PlanNodeKind.
Proof. solve_decision. Defined.
#[export] Instance RiskTier_eq_dec : EqDecision RiskTier.
Proof. solve_decision. Defined.

Record PlanNode := mkPlanNode {
  pn_id : string;
  pn_kind : PlanNodeKind;
  pn_label : string;
  pn_tool_name : option string;
  pn_timeout_ms : Z;
  pn_max_attempts : Z;
  pn_risk_tier : RiskTier;
}.

Record PlanEdge := mkPlanEdge { pe_from : string; pe_to : string }.

Record PlanBudget := mkPlanBudget {
  pb_max_nodes : Z;
  pb_max_total_attempts : Z;
  pb_max_wall_time_ms : Z;
}.

(** [impl Default for PlanBudget] *)
Definition PlanBudget_default : PlanBudget := mkPlanBudget 16 32 60000.

Record PlanGraph := mkPlanGraph {
  pg_version : string;
  pg_nodes : list PlanNode;
  pg_edges : list PlanEdge;
  pg_budget : PlanBudget;
}.

(** ** [PlanGraph::validate] *)

(** The body of the node loop: the index of ids seen so far and the attempts
    they may use together. *)
Definition validate_node (st : gmap string nat * Z) (node : PlanNode) :
    result string (gmap string nat * Z) :=
  let '(node_index, total_attempts) := st in
  if is_empty (trim (pn_id node)) then Err "plan node id must not be empty"
  else if (pn_timeout_ms node =? 0)%Z then
    Err ("plan node `" +:+ pn_id node +:+ "` has invalid timeout_ms=0")
  else if (pn_max_attempts node =? 0)%Z then
    Err ("plan node `" +:+ pn_id node +:+ "` has invalid max_attempts=0")
  else
    let total_attempts := sat_add total_attempts (pn_max_attempts node) in
    match node_index !! pn_id node with
    | Some _ => Err ("duplicate plan node id `" +:+ pn_id node +:+ "`")
    | None => Ok (<[pn_id node := size node_index]> node_index, total_attempts)
    end.

(** The vectors of the edge loop. *)
Record Degrees := mkDegrees {
  dg_indegree : list Z;
  dg_outdegree : list Z;
  dg_adjacency : list (list nat);
}.

(** The body of the edge loop. *)
Definition validate_edge (node_index : gmap string nat) (d : Degrees) (edge : PlanEdge) :
    result string Degrees :=
  match node_index !! pe_from edge with
  | None => Err ("plan edge references unknown `from` node `" +:+ pe_from edge +:+ "`")
  | Some from_index =>
      match node_index !! pe_to edge with
      | None => Err ("plan edge references unknown `to` node `" +:+ pe_to edge +:+ "`")
      | Some to_index =>
          if Nat.eqb from_index to_index then
            Err ("plan edge has self-loop at `" +:+ pe_from edge +:+ "`")
          else
          match dg_indegree d !! to_index with
          | None => Err "plan graph indegree index out of bounds"
          | Some to_degree =>
              match dg_outdegree d !! from_index with
              | None => Err "plan graph outdegree index out of bounds"
              | Some from_degree =>
                  match dg_adjacency d !! from_index with
                  | None => Err "plan graph adjacency index out of bounds"
                  | Some neighbors =>
                      Ok (mkDegrees (<[to_index := sat_add to_degree 1]> (dg_indegree d))
                            (<[from_index := sat_add from_degree 1]> (dg_outdegree d))
                            (<[from_index := neighbors ++ [to_index]]> (dg_adjacency d)))
                  end
              end
          end
      end
  end.

(** The final loop, counting the nodes taken out of the queue. The fuel is
    the number of nodes, enough by [validate_walk_walk]. *)
Fixpoint validate_walk (fuel : nat) (adjacency : list (list nat)) (queue : list nat)
    (remaining_indegree : list Z) (visited : Z) : result string Z :=
  match fuel, queue with
  | S fuel, index :: queue =>
      let visited := sat_add visited 1 in
      match adjacency !! index with
      | None => Err "plan graph adjacency traversal index out of bounds"
      | Some neighbors =>
          match relax neighbors remaining_indegree queue with
          | None => Err "plan graph indegree traversal index out of bounds"
          | Some (remaining_indegree, queue) =>
              validate_walk fuel adjacency queue remaining_indegree visited
          end
      end
  | _, _ => Ok visited
  end.

Definition zeros (degrees : list Z) : nat := length (filter (λ d, d = 0%Z) degrees).

Definition PlanGraph_validate (g : PlanGraph) : result string unit :=
  let nodes := pg_nodes g in
  let budget := pg_budget g in
  if bool_decide (nodes = []) then Err "plan graph must include at least one node"
  else if (pb_max_nodes budget <? len nodes)%Z then
    Err ("plan graph node budget exceeded actual=" +:+ display (len nodes) +:+ " limit="
         +:+ display (pb_max_nodes budget))
  else
  '(node_index, total_attempts) ← try_fold validate_node (∅, 0%Z) nodes;
  if (pb_max_total_attempts budget <? total_attempts)%Z then
    Err ("plan attempt budget exceeded actual=" +:+ display total_attempts +:+ " limit="
         +:+ display (pb_max_total_attempts budget))
  else
  let n := length nodes in
  d ← try_fold (validate_edge node_index)
        (mkDegrees (replicate n 0%Z) (replicate n 0%Z) (replicate n [])) (pg_edges g);
  if Nat.eqb (zeros (dg_indegree d)) 0 then
    Err "plan graph must include at least one entry node"
  else if Nat.eqb (zeros (dg_outdegree d)) 0 then
    Err "plan graph must include at least one terminal node"
  else
  visited ← validate_walk n (dg_adjacency d) (initial_queue (dg_indegree d)) (dg_indegree d) 0;
  if negb (visited =? len nodes)%Z then Err "plan graph must be acyclic"
  else Ok ().

(** ** The specification *)

(** Vectors fit in memory. *)
Definition plan_fits (g : PlanGraph) : Prop :=
  is_u64 (len (pg_nodes g)) ∧ (len (pg_edges g) < u64_max)%Z.

(** An edge between two ids. *)
Definition plan_edge (g : PlanGraph) (a b : string) : Prop :=
  mkPlanEdge a b ∈ pg_edges g.

Definition plan_ids (g : PlanGraph) : list string := pn_id <$> pg_nodes g.

(** The attempts all nodes may use together, as a [usize]. *)
Definition plan_attempts (g : PlanGraph) : Z :=
  foldl (λ total node, sat_add total (pn_max_attempts node)) 0%Z (pg_nodes g).

(** What a plan must satisfy: it is non-empty and within its budgets, every
    node is named and can be attempted, names are unique, edges join two
    different nodes of the plan, and there is no cycle. *)
Record plan_wf (g : PlanGraph) : Prop := {
  pw_nonempty : pg_nodes g ≠ [];
  pw_nodes : (len (pg_nodes g) ≤ pb_max_nodes (pg_budget g))%Z;
  pw_node : ∀ node, node ∈ pg_nodes g →
    trim (pn_id node) ≠ "" ∧ pn_timeout_ms node ≠ 0%Z ∧ pn_max_attempts node ≠ 0%Z;
  pw_unique : NoDup (plan_ids g);
  pw_attempts : (plan_attempts g ≤ pb_max_total_attempts (pg_budget g))%Z;
  pw_edges : ∀ a b, plan_edge g a b → a ∈ plan_ids g ∧ b ∈ plan_ids g;
  pw_acyclic : ∀ a, ¬ tc (plan_edge g) a a;
}.

(** ** The node loop *)

Definition node_ok (node : PlanNode) : Prop :=
  trim (pn_id node) ≠ "" ∧ pn_timeout_ms node ≠ 0%Z ∧ pn_max_attempts node ≠ 0%Z.

(** [m] numbers the ids in the order they came. *)
Definition index_map (m : gmap string nat) (ids : list string) : Prop :=
  (∀ i id, ids !! i = Some id ↔ m !! id = Some i) ∧ size m = length ids.

Lemma index_map_empty : index_map ∅ [].
Proof. split; [intros i id; rewrite lookup_nil, lookup_empty|]; done. Qed.

Lemma index_map_snoc m ids id : index_map m ids → m !! id = None →
  index_map (<[id := size m]> m) (ids ++ [id]).
Proof.
  intros [Hm Hs] Hid. split; [|rewrite map_size_insert_None, length_app by done; simpl; lia].
  intros i id'. rewrite lookup_app_Some, list_lookup_singleton_Some. rewrite Hs. split.
  - intros [Hi|(Hle & Hi & <-)].
    + apply Hm in Hi as Hi'. rewrite lookup_insert_ne; [done|]. by intros ->; rewrite Hid in Hi'.
    + rewrite lookup_insert_eq. f_equal. lia.
  - intros [[<- <-]|[Hne Hi]]%lookup_insert_Some; [right; repeat split; lia|left; by apply Hm].
Qed.

Lemma index_map_NoDup m ids : index_map m ids → NoDup ids.
Proof.
  intros [Hm _]. apply NoDup_alt. intros i j id Hi%Hm Hj%Hm. by simplify_eq.
Qed.

Lemma index_map_None m ids id : index_map m ids → (m !! id = None ↔ id ∉ ids).
Proof.
  intros [Hm _]. split.
  - intros Hn [i Hi]%list_elem_of_lookup. apply Hm in Hi. by rewrite Hi in Hn.
  - intros Hn. destruct (m !! id) as [i|] eqn:Hi; [|done]. destruct Hn.
    apply Hm in Hi. by eapply list_elem_of_lookup_2.
Qed.

Lemma is_empty_iff s : is_empty s = true ↔ s = "".
Proof. by destruct s. Qed.

Lemma validate_node_Ok m t node m' t' ids : index_map m ids →
  (validate_node (m, t) node = Ok (m', t') ↔
   node_ok node ∧ (pn_id node ∉ ids) ∧ m' = <[pn_id node := size m]> m
   ∧ t' = sat_add t (pn_max_attempts node)).
Proof.
  intros Hm. unfold validate_node, node_ok. rewrite <-(index_map_None m ids) by done.
  destruct (is_empty _) eqn:He; [apply is_empty_iff in He; naive_solver|].
  assert (trim (pn_id node) ≠ "") by (rewrite <-is_empty_iff; congruence).
  destruct (Z.eqb_spec (pn_timeout_ms node) 0); [naive_solver|].
  destruct (Z.eqb_spec (pn_max_attempts node) 0); [naive_solver|].
  destruct (m !! pn_id node); naive_solver.
Qed.

(** The loop succeeds exactly on acceptable nodes with fresh names, numbers
    them and adds up their attempts. *)
Lemma validate_nodes_Ok ns m t m' t' ids : index_map m ids →
  (try_fold validate_node (m, t) ns = Ok (m', t') ↔
   Forall node_ok ns ∧ NoDup (ids ++ (pn_id <$> ns)) ∧
   m' = foldl (λ m node, <[pn_id node := size m]> m) m ns ∧
   t' = foldl (λ t node, sat_add t (pn_max_attempts node)) t ns) ∧
  (NoDup (ids ++ (pn_id <$> ns)) →
   index_map (foldl (λ m node, <[pn_id node := size m]> m) m ns) (ids ++ (pn_id <$> ns))).
Proof.
  revert m t ids. induction ns as [|node ns IH]; intros m t ids Hm.
  { simpl. rewrite app_nil_r. pose proof (index_map_NoDup _ _ Hm). split; [|done].
    split; [intros [= <- <-]|]; naive_solver. }
  rewrite try_fold_Ok, Forall_cons. csimpl. rewrite cons_middle, app_assoc.
  destruct (decide (pn_id node ∈ ids)) as [Hin|Hin].
  { assert (NoDup ((ids ++ [pn_id node]) ++ (pn_id <$> ns)) → False) as Hno.
    { intros (Hnd & _ & _)%NoDup_app. apply NoDup_app in Hnd as (_ & Hd & _).
      by apply (Hd _ Hin), list_elem_of_singleton. }
    split; [|done]. split; [|naive_solver]. intros ([m1 t1] & Hn & _).
    by apply (validate_node_Ok m t node m1 t1 ids Hm) in Hn as (_ & ? & _). }
  assert (index_map (<[pn_id node := size m]> m) (ids ++ [pn_id node])) as Hm1.
  { apply index_map_snoc; [done|]. by apply (index_map_None m ids). }
  destruct (IH _ (sat_add t (pn_max_attempts node)) _ Hm1) as [IH1 IH2].
  split; [|exact IH2]. split.
  - intros ([m1 t1] & Hn & Hf). apply (validate_node_Ok m t node m1 t1 ids Hm) in Hn as (? & _ & -> & ->).
    apply IH1 in Hf. naive_solver.
  - intros ([Hok Hall] & Hnd & Hm' & Ht'). eexists (_, _). split.
    + by apply (validate_node_Ok m t node _ _ ids Hm).
    + apply IH1. naive_solver.
Qed.

(** ** The edge loop *)

(** An edge as a pair of indices. *)
Definition edge_at (ids : list string) (e : PlanEdge) (p : nat * nat) : Prop :=
  ids !! p.1 = Some (pe_from e) ∧ ids !! p.2 = Some (pe_to e).

Definition degrees_of (n : nat) (es : list (nat * nat)) (d : Degrees) : Prop :=
  graph_of n es (dg_indegree d) (dg_outdegree d) (dg_adjacency d).

Lemma degrees_of_nil n :
  degrees_of n [] (mkDegrees (replicate n 0%Z) (replicate n 0%Z) (replicate n [])).
Proof. apply graph_of_nil. Qed.

Section edges.
  Context (m : gmap string nat) (ids : list string) (Hm : index_map m ids).

Lemma validate_edge_Ok es d e : degrees_of (length ids) es d → (len es < u64_max)%Z →
  (∀ p, edge_at ids e p → p.1 ≠ p.2 →
     ∃ d', validate_edge m d e = Ok d' ∧ degrees_of (length ids) (es ++ [p]) d') ∧
  (∀ d', validate_edge m d e = Ok d' → ∃ p, edge_at ids e p ∧ p.1 ≠ p.2).
Proof.
  intros Hd Hlen. destruct Hm as [Hidx _]. split.
  - intros [i j] [Hi Hj] Hne. simpl in *. apply lookup_lt_Some in Hi as Hli.
    apply lookup_lt_Some in Hj as Hlj. apply Hidx in Hi, Hj.
    unfold validate_edge. rewrite Hi, Hj. destruct (Nat.eqb_spec i j); [done|].
    destruct (lookup_lt_is_Some_2 (dg_indegree d) j) as [dj Hdj]; [by rewrite (go_in_length _ _ _ _ _ Hd)|].
    destruct (lookup_lt_is_Some_2 (dg_outdegree d) i) as [di Hdi]; [by rewrite (go_out_length _ _ _ _ _ Hd)|].
    destruct (go_adj _ _ _ _ _ Hd i Hli) as (ns & Hns & _).
    rewrite Hdj, Hdi, Hns. eexists. split; [done|]. by apply graph_of_snoc.
  - intros d'. unfold validate_edge. destruct (m !! pe_from e) as [i|] eqn:Hi; [|done].
    destruct (m !! pe_to e) as [j|] eqn:Hj; [|done]. destruct (Nat.eqb_spec i j); [done|].
    intros _. exists (i, j). unfold edge_at. simpl. by rewrite !Hidx.
Qed.

Lemma edge_at_inj e p q : edge_at ids e p → edge_at ids e q → p = q.
Proof.
  destruct Hm as [Hidx _]. destruct p as [i j], q as [i' j']. unfold edge_at. simpl.
  rewrite !Hidx. naive_solver.
Qed.

Lemma validate_edges_Ok edges es d : degrees_of (length ids) es d →
  (len es + len edges ≤ u64_max)%Z →
  (∀ ies, Forall2 (edge_at ids) edges ies → Forall (λ p, p.1 ≠ p.2) ies →
     ∃ d', try_fold (validate_edge m) d edges = Ok d' ∧ degrees_of (length ids) (es ++ ies) d') ∧
  (∀ d', try_fold (validate_edge m) d edges = Ok d' →
     ∃ ies, Forall2 (edge_at ids) edges ies ∧ Forall (λ p, p.1 ≠ p.2) ies).
Proof.
  revert es d. induction edges as [|e edges IH]; intros es d Hd Hlen.
  { split; [|by exists []]. intros ies ->%Forall2_nil_inv_l _. rewrite app_nil_r. by exists d. }
  rewrite len_cons in Hlen. pose proof (len_nonneg edges).
  destruct (validate_edge_Ok es d e Hd) as [H1 H2]; [unfold u64_max in *; lia|]. split.
  - intros ies Hies Hne. apply Forall2_cons_inv_l in Hies as (p & ies' & Hp & Hies & ->).
    apply Forall_cons in Hne as [Hpne Hne].
    destruct (H1 p Hp Hpne) as (d1 & Hd1 & Hg1).
    destruct (IH (es ++ [p]) d1 Hg1) as [IH1 _]; [rewrite len_app, len_cons, len_nil; lia|].
    destruct (IH1 ies' Hies Hne) as (d' & Hd' & Hg'). exists d'. rewrite cons_middle, app_assoc.
    split; [|done]. apply try_fold_Ok. eauto.
  - intros d' (d1 & Hd1 & Hd')%try_fold_Ok. destruct (H2 d1 Hd1) as (p & Hp & Hne).
    destruct (H1 p Hp Hne) as (d1' & Hd1' & Hg1).
    assert (d1' = d1) as -> by congruence.
    destruct (IH (es ++ [p]) d1 Hg1) as [_ IH2]; [rewrite len_app, len_cons, len_nil; lia|].
    destruct (IH2 d' Hd') as (ies & Hies & Hnes). exists (p :: ies). split; by constructor.
Qed.
End edges.

(** ** The walk *)

Lemma walk_length fuel adj q d o o' : walk fuel adj q d o = Some o' → length o ≤ length o'.
Proof.
  revert q d o. induction fuel as [|fuel IH]; intros q d o; cbn [walk]; [naive_solver|].
  destruct q as [|i q]; [naive_solver|]. intros H.
  destruct (adj !! i) as [ns|]; [|done]. cbn [mbind option_bind] in H.
  destruct (relax ns d q) as [[d' q']|]; [|done]. apply IH in H. rewrite length_app in H. lia.
Qed.

(** Counting the nodes and listing them is the same walk. *)
Lemma validate_walk_walk fuel adj q d o o' :
  walk fuel adj q d o = Some o' → is_u64 (len o') →
  validate_walk fuel adj q d (len o) = Ok (len o').
Proof.
  revert q d o. induction fuel as [|fuel IH]; intros q d o; cbn [walk validate_walk]; [naive_solver|].
  destruct q as [|i q]; [naive_solver|]. intros H Hu.
  destruct (adj !! i) as [ns|]; [|done]. cbn [mbind option_bind] in H.
  destruct (relax ns d q) as [[d' q']|]; [|done]. pose proof (walk_length _ _ _ _ _ _ H) as Hl.
  rewrite <-(IH _ _ _ H Hu). f_equal. rewrite len_app, len_cons, len_nil.
  rewrite length_app in Hl. simpl in Hl. apply sat_add_small. unfold is_u64, len in *. lia.
Qed.

Lemma zeros_zero degrees : zeros degrees = 0 ↔ ∀ j x, degrees !! j = Some x → x ≠ 0%Z.
Proof.
  unfold zeros. rewrite length_zero_iff_nil. split.
  - intros Hn j x Hj ->. assert (0%Z ∈ filter (λ d, d = 0%Z) degrees) as Hin.
    { apply list_elem_of_filter. split; [done|]. by eapply list_elem_of_lookup_2. }
    rewrite Hn in Hin. by apply not_elem_of_nil in Hin.
  - intros H. 
    destruct (filter _ degrees) as [|x l] eqn:Hf; [done|].
    assert (x ∈ filter (λ d, d = 0%Z) degrees) as Hin by (rewrite Hf; left).
    apply list_elem_of_filter in Hin as [-> [j Hj]%list_elem_of_lookup]. by destruct (H j 0%Z).
Qed.

Lemma tc_flip_rev {A} (R : A → A → Prop) x y : tc (flip R) x y → tc R y x.
Proof. induction 1 as [x y H|x y z H _ IH]; [by apply tc_once|]. eapply tc_r; [exact IH|exact H]. Qed.

(** A plan without cycles starts and ends somewhere. *)
Lemma acyclic_entry_terminal n es d : n ≠ 0 → edges_in_range n es → degrees_of n es d → acyclic es →
  zeros (dg_indegree d) ≠ 0 ∧ zeros (dg_outdegree d) ≠ 0.
Proof.
  intros Hn Hes Hd Hac.
  assert (∀ (P : nat * nat → Prop) `{∀ e, Decision (P e)},
    Z.of_nat (length (filter P es)) ≠ 0%Z → ∃ e, e ∈ es ∧ P e) as Hex.
  { intros P ? Hl. destruct (filter P es) as [|e l] eqn:Hf; [done|].
    assert (e ∈ filter P es) as [? ?]%list_elem_of_filter by (rewrite Hf; left). eauto. }
  assert (seq 0 n ≠ []) as Hseq by (by destruct n).
  split; rewrite zeros_zero; intros Hz.
  - destruct (finite_cycle (λ i j, (i, j) ∈ es) (seq 0 n) Hseq) as [x Hx]; [|by apply (Hac x)].
    intros j Hj%elem_of_seq. destruct (lookup_lt_is_Some_2 (dg_indegree d) j) as [x Hx].
    { rewrite (go_in_length _ _ _ _ _ Hd). lia. }
    specialize (Hz _ _ Hx). rewrite (go_in _ _ _ _ _ Hd _ _ Hx) in Hz.
    apply Hex in Hz as ([i j'] & He & Heq); simpl in Heq; subst j'.
    exists i. split; [|done]. apply elem_of_seq. apply Hes in He. lia.
  - destruct (finite_cycle (flip (λ i j, (i, j) ∈ es)) (seq 0 n) Hseq) as [x Hx].
    { intros i Hi%elem_of_seq. destruct (lookup_lt_is_Some_2 (dg_outdegree d) i) as [x Hx].
      { rewrite (go_out_length _ _ _ _ _ Hd). lia. }
      specialize (Hz _ _ Hx). rewrite (go_out _ _ _ _ _ Hd _ _ Hx) in Hz.
      apply Hex in Hz as ([i' j] & He & Heq); simpl in Heq; subst i'.
      exists j. split; [|done]. apply elem_of_seq. apply Hes in He. lia. }
    by apply (Hac x), tc_flip_rev.
Qed.

(** ** Cycles of ids and of indices *)

Section cycles.
  Context (g : PlanGraph) (ies : list (nat * nat)).
  Context (Hies : Forall2 (edge_at (plan_ids g)) (pg_edges g) ies).

Lemma index_edge_plan_edge i j a b : plan_ids g !! i = Some a → plan_ids g !! j = Some b →
  (i, j) ∈ ies → plan_edge g a b.
Proof.
  intros Hi Hj [k Hk]%list_elem_of_lookup. destruct (Forall2_lookup_r _ _ _ _ _ Hies Hk) as ([a' b'] & Hk' & Hat).
  destruct Hat as [? ?]. simpl in *. simplify_eq. by eapply list_elem_of_lookup_2.
Qed.

Lemma plan_edge_index_edge a b : plan_edge g a b →
  ∃ i j, plan_ids g !! i = Some a ∧ plan_ids g !! j = Some b ∧ (i, j) ∈ ies.
Proof.
  intros [k Hk]%list_elem_of_lookup. destruct (Forall2_lookup_l _ _ _ _ _ Hies Hk) as ([i j] & Hk' & Hi & Hj).
  exists i, j. split; [done|]. split; [done|]. by eapply list_elem_of_lookup_2.
Qed.

Lemma ies_in_range : edges_in_range (length (plan_ids g)) ies.
Proof.
  intros i j [k Hk]%list_elem_of_lookup. destruct (Forall2_lookup_r _ _ _ _ _ Hies Hk) as (e & _ & Hi & Hj).
  split; by eapply lookup_lt_Some.
Qed.

Lemma acyclic_ids_iff : NoDup (plan_ids g) → (acyclic ies ↔ ∀ a, ¬ tc (plan_edge g) a a).
Proof.
  intros Hnd. split; intros Hac.
  - intros a Ha. set (f := λ a, default 0 (fst <$> list_find (λ x, x = a) (plan_ids g))).
    assert (∀ i a, plan_ids g !! i = Some a → f a = i) as Hf.
    { intros i x Hi. unfold f. destruct (list_find (λ y, y = x) (plan_ids g)) as [[k y]|] eqn:Hk.
      - apply list_find_Some in Hk as (Hk & -> & _). simpl. by eapply NoDup_lookup.
      - apply list_find_None in Hk. rewrite Forall_forall in Hk. exfalso.
        by apply (Hk x); [eapply list_elem_of_lookup_2|]. }
    apply (Hac (f a)). apply (tc_congruence f (λ i j, (i, j) ∈ ies)) in Ha; [done|].
    intros x y (i & j & Hi & Hj & Hin)%plan_edge_index_edge. by rewrite (Hf _ _ Hi), (Hf _ _ Hj).
  - intros i Hi. set (f := λ i, default "" (plan_ids g !! i)).
    apply (Hac (f i)). apply (tc_congruence f (plan_edge g)) in Hi; [done|].
    intros x y Hxy. destruct (ies_in_range x y Hxy) as [Hx Hy].
    apply lookup_lt_is_Some_2 in Hx as [a Ha], Hy as [b Hb].
    unfold f. rewrite Ha, Hb. simpl. by eapply index_edge_plan_edge.
Qed.
End cycles.

(** ** Validation is exact *)

(** Once nodes and edges are read, the walk decides acyclicity. *)
Lemma validate_walk_spec n es d :
  n ≠ 0 → is_u64 (Z.of_nat n) → edges_in_range n es → degrees_of n es d →
  ∃ order, walk n (dg_adjacency d) (initial_queue (dg_indegree d)) (dg_indegree d) [] = Some order ∧
    validate_walk n (dg_adjacency d) (initial_queue (dg_indegree d)) (dg_indegree d) 0
      = Ok (len order) ∧
    NoDup order ∧ (∀ j, j ∈ order → j < n) ∧ topological es order ∧
    (len order = Z.of_nat n ↔ acyclic es).
Proof.
  intros Hn Hu Hes Hd.
  pose proof (walk_inv_initial n es (dg_indegree d) (go_in_length _ _ _ _ _ Hd) (go_in _ _ _ _ _ Hd)) as Hi.
  destruct (kahn_walk_spec n es (dg_adjacency d) Hes (go_adj _ _ _ _ _ Hd) n _ _ _ Hi)
    as (order & ind & Hw & Hinv); [simpl; lia|].
  pose proof (wi_nodup _ _ _ _ _ Hinv) as Hnd. pose proof (wi_range _ _ _ _ _ Hinv) as Hr.
  rewrite app_nil_r in Hnd, Hr. exists order. split; [done|]. split.
  { change 0%Z with (len (@nil nat)). apply validate_walk_walk; [done|].
    pose proof (NoDup_bounded n order Hnd Hr). unfold is_u64, len in *. lia. }
  split; [done|]. split; [done|]. split; [exact (wi_topological _ _ _ _ _ Hinv)|].
  rewrite <-(walk_complete_iff n es Hes _ _ Hinv). unfold len. lia.
Qed.

Lemma plan_edges_index g : (∀ a b, plan_edge g a b → a ∈ plan_ids g ∧ b ∈ plan_ids g) →
  ∃ ies, Forall2 (edge_at (plan_ids g)) (pg_edges g) ies.
Proof.
  unfold plan_edge. induction (pg_edges g) as [|[a b] edges IH]; intros H; [by exists []|].
  destruct IH as [ies Hies]; [intros; apply H; by right|].
  destruct (H a b) as [[i Hi]%list_elem_of_lookup [j Hj]%list_elem_of_lookup]; [left|].
  exists ((i, j) :: ies). by constructor.
Qed.

Lemma length_plan_ids g : length (plan_ids g) = length (pg_nodes g).
Proof. apply length_fmap. Qed.

(** Everything [validate] establishes when it accepts. *)
Lemma validate_sound g : plan_fits g → PlanGraph_validate g = Ok () → plan_wf g.
Proof.
  intros [Hn He] Hv. unfold PlanGraph_validate in Hv.
  case_bool_decide as Hne; [done|]. destruct (Z.ltb_spec (pb_max_nodes (pg_budget g)) (len (pg_nodes g)));
    [done|].
  apply bind_Ok in Hv as ([m t] & Hnodes & Hv).
  destruct (validate_nodes_Ok (pg_nodes g) ∅ 0%Z m t [] index_map_empty) as [Hiff Hmap].
  apply Hiff in Hnodes as (Hok & Hnd & -> & ->). specialize (Hmap Hnd).
  change ([] ++ (pn_id <$> pg_nodes g)) with (plan_ids g) in *.
  match type of Hv with context[(?a <? ?b)%Z] => destruct (Z.ltb_spec a b) end; [done|].
  apply bind_Ok in Hv as (d & Hedges & Hv). rewrite <-length_plan_ids in Hedges, Hv.
  destruct (validate_edges_Ok _ _ Hmap (pg_edges g) [] _ (degrees_of_nil (length (plan_ids g))))
    as [He1 He2]; [rewrite len_nil; lia|].
  destruct (He2 d Hedges) as (ies & Hies & Hne2). destruct (He1 ies Hies Hne2) as (d' & Hd' & Hdeg).
  assert (d' = d) as -> by congruence. simpl in Hdeg.
  destruct (Nat.eqb _ 0); [done|]. destruct (Nat.eqb _ 0); [done|].
  assert (length (plan_ids g) ≠ 0) as Hlen0 by (rewrite length_plan_ids; by destruct (pg_nodes g)).
  destruct (validate_walk_spec (length (plan_ids g)) ies d Hlen0) as
    (order & _ & Hw & _ & _ & _ & Hiff2); [by rewrite length_plan_ids|by apply ies_in_range|done|].
  rewrite Hw in Hv. cbn [mbind result_bind] in Hv.
  destruct (Z.eqb_spec (len order) (len (pg_nodes g))) as [Heq|]; [|done].
  split; try done.
  - by rewrite Forall_forall in Hok.
  - intros a b (i & j & Hi & Hj & _)%(plan_edge_index_edge g ies Hies).
    split; by eapply list_elem_of_lookup_2.
  - apply (acyclic_ids_iff g ies Hies Hnd), Hiff2. rewrite Heq. unfold len. by rewrite length_plan_ids.
Qed.

(** Everything [validate] does on a well-formed plan. *)
Lemma validate_complete g : plan_fits g → plan_wf g → PlanGraph_validate g = Ok ().
Proof.
  intros [Hn He] [Hne Hmax Hnode Hnd Hatt Hedge Hac]. unfold PlanGraph_validate.
  rewrite bool_decide_false by done.
  destruct (Z.ltb_spec (pb_max_nodes (pg_budget g)) (len (pg_nodes g))); [lia|].
  destruct (validate_nodes_Ok (pg_nodes g) ∅ 0%Z
    (foldl (λ m node, <[pn_id node := size m]> m) ∅ (pg_nodes g)) (plan_attempts g) [] index_map_empty) as [Hiff Hmap].
  rewrite (proj2 Hiff); [|rewrite Forall_forall; done]. cbn [mbind result_bind].
  destruct (Z.ltb_spec (pb_max_total_attempts (pg_budget g)) (plan_attempts g)); [lia|].
  specialize (Hmap Hnd). change ([] ++ (pn_id <$> pg_nodes g)) with (plan_ids g) in *.
  rewrite <-length_plan_ids. destruct (plan_edges_index g Hedge) as [ies Hies].
  destruct (validate_edges_Ok _ _ Hmap (pg_edges g) [] _ (degrees_of_nil (length (plan_ids g))))
    as [He1 _]; [rewrite len_nil; lia|].
  apply (acyclic_ids_iff g ies Hies Hnd) in Hac as Haci.
  destruct (He1 ies Hies) as (d & Hd & Hdeg).
  { apply Forall_forall. intros [i j] Hij Heq. simpl in Heq. subst. by apply (Haci j), tc_once. }
  rewrite Hd. cbn [mbind result_bind]. simpl in Hdeg.
  assert (length (plan_ids g) ≠ 0) as Hlen0 by (rewrite length_plan_ids; by destruct (pg_nodes g)).
  destruct (acyclic_entry_terminal _ _ _ Hlen0 (ies_in_range g ies Hies) Hdeg Haci) as [Hz1 Hz2].
  destruct (Nat.eqb_spec (zeros (dg_indegree d)) 0); [done|].
  destruct (Nat.eqb_spec (zeros (dg_outdegree d)) 0); [done|].
  destruct (validate_walk_spec (length (plan_ids g)) ies d Hlen0) as
    (order & _ & Hw & _ & _ & _ & Hiff2); [by rewrite length_plan_ids|by apply ies_in_range|done|].
  rewrite Hw. cbn [mbind result_bind]. apply Hiff2 in Haci. rewrite Haci, length_plan_ids.
  unfold len. by rewrite Z.eqb_refl.
Qed.

(** C15. Plan validation is exact: [validate] accepts a plan if and only if it is
    non-empty and within its node and attempt budgets, every node is named, can
    be attempted and has a timeout, names are unique, every edge joins nodes of
    the plan, and the edges form no cycle. Self-loops and plans without an
    entry or a terminal node are cyclic, and the counting walk always ends. *)
Theorem validate_accepts_iff_well_formed g :
  plan_fits g → (PlanGraph_validate g = Ok () ↔ plan_wf g).
Proof. intros Hf. split; [by apply validate_sound|by apply validate_complete]. Qed.

Module PlanGraphDemo.

Definition node (id : string) (kind : PlanNodeKind) (attempts : Z) : PlanNode :=
  mkPlanNode id kind "" None 1000 attempts Risk_Low.

(** A diamond: n1 before n2 and n3, both before n4. *)
Definition diamond : PlanGraph :=
  mkPlanGraph PLAN_GRAPH_VERSION
    [node "n4" Node_Respond 1; node "n2" Node_Tool 2; node "n1" Node_Tool 1; node "n3" Node_Verify 1]
    [mkPlanEdge "n1" "n2"; mkPlanEdge "n1" "n3"; mkPlanEdge "n2" "n4"; mkPlanEdge "n3" "n4"]
    PlanBudget_default.

Definition looped : PlanGraph :=
  mkPlanGraph PLAN_GRAPH_VERSION (pg_nodes diamond)
    (pg_edges diamond ++ [mkPlanEdge "n3" "n1"; mkPlanEdge "n1" "n3"]) PlanBudget_default.

Example diamond_valid : PlanGraph_validate diamond = Ok ().
Proof. vm_compute. reflexivity. Qed.

Example looped_invalid :
  PlanGraph_validate looped = Err "plan graph must include at least one entry node".
Proof. vm_compute. reflexivity. Qed.

Lemma validate_witness : plan_fits diamond ∧ plan_wf diamond.
Proof.
  assert (plan_fits diamond) as Hf by (split; vm_compute; intuition congruence).
  split; [exact Hf|]. apply (proj1 (validate_accepts_iff_well_formed diamond Hf)).
  vm_compute. reflexivity.
Defined.

End PlanGraphDemo.
