(* ===== verification/PlanExecutor.v ===== *)
(** * PlanExecutor: running a plan (app/src/conversation/plan_executor.rs)

    Nodes run one at a time in a topological order; a node is attempted until
    it succeeds, its attempts are used up, or its error says that trying again
    is pointless. The code that performs a node and the clock are arbitrary
    transformers of an environment [W]. *)
From S2P Require Import Prelude RustStr PlanGraph.

Inductive PlanNodeErrorKind := PNE_ApprovalRequired | PNE_Retryable | PNE_PolicyDenied | PNE_NonRetryable.

#[export] Instance PlanNodeErrorKind_eq_dec : EqDecision PlanNodeErrorKind.
Proof. solve_decision. Defined.

Record PlanNodeError := mkPlanNodeError { pne_kind : PlanNodeErrorKind; pne_message : string }.

(** [PlanNodeError::retryable] and the other constructors *)
Definition PlanNodeError_approval_required := mkPlanNodeError PNE_ApprovalRequired.
Definition PlanNodeError_retryable := mkPlanNodeError PNE_Retryable.
Definition PlanNodeError_policy_denied := mkPlanNodeError PNE_PolicyDenied.
Definition PlanNodeError_non_retryable := mkPlanNodeError PNE_NonRetryable.

Inductive PlanRunFailure :=
| PRF_ValidationFailed (error : string)
| PRF_TopologyResolutionFailed
| PRF_BudgetExceeded (attempts_used limit : Z)
| PRF_WallTimeExceeded (elapsed_ms limit_ms : Z)
| PRF_NodeFailed (node_id : string) (attempts_used : Z) (last_error_kind : PlanNodeErrorKind)
    (last_error : string).

Inductive PlanRunStatus := Run_Succeeded | Run_Failed (failure : PlanRunFailure).

Record PlanNodeAttemptEvent := mkPlanNodeAttemptEvent {
  pae_node_id : string;
  pae_attempt : Z;
  pae_success : bool;
  pae_error_kind : option PlanNodeErrorKind;
  pae_error : option string;
}.

Record PlanRunReport := mkPlanRunReport {
  prr_status : PlanRunStatus;
  prr_ordered_nodes : list string;
  prr_attempts_used : Z;
  prr_attempt_events : list PlanNodeAttemptEvent;
  prr_elapsed_ms : Z;
}.

(** [normalize_node_error] *)
Definition normalize_node_error (error : PlanNodeError) : PlanNodeError :=
  let trimmed := trim (pne_message error) in
  if is_empty trimmed then
    mkPlanNodeError (pne_kind error) "node execution failed with empty reason"
  else mkPlanNodeError (pne_kind error) trimmed.

(** ** [topological_order] *)

Definition order_index (nodes : list PlanNode) : gmap string nat :=
  foldl (λ m p, <[pn_id p.2 := p.1]> m) ∅ (imap pair nodes).

Definition order_edge (node_index : gmap string nat) (st : list Z * list (list nat))
    (edge : PlanEdge) : option (list Z * list (list nat)) :=
  let '(indegree, adjacency) := st in
  from ← node_index !! pe_from edge;
  to ← node_index !! pe_to edge;
  degree ← indegree !! to;
  let indegree := <[to := sat_add degree 1]> indegree in
  neighbors ← adjacency !! from;
  Some (indegree, <[from := neighbors ++ [to]]> adjacency).

Definition topological_order (plan : PlanGraph) : option (list nat) :=
  let n := length (pg_nodes plan) in
  '(indegree, adjacency) ←
    foldl (λ st edge, st ≫= λ st, order_edge (order_index (pg_nodes plan)) st edge)
      (Some (replicate n 0%Z, replicate n [])) (pg_edges plan);
  order ← walk n adjacency (initial_queue indegree) indegree [];
  if Nat.eqb (length order) n then Some order else None.

(** ** [PlanExecutor::execute] *)

Section execute.
  Context {W : Type}.
  (** [tokio::time::timeout(deadline, executor.execute(node, attempt)).await]:
      [None] when the deadline passes first *)
  Context (timed_execute : Z → PlanNode → Z → W → option (result PlanNodeError unit) * W).
  (** [started_at.elapsed().as_millis()] *)
  Context (elapsed : W → Z * W).

Definition ok_event (node : PlanNode) (attempt : Z) : PlanNodeAttemptEvent :=
  mkPlanNodeAttemptEvent (pn_id node) attempt true None None.

Definition failed_event (node : PlanNode) (attempt : Z) (error : PlanNodeError) :
    PlanNodeAttemptEvent :=
  mkPlanNodeAttemptEvent (pn_id node) attempt false (Some (pne_kind error)) (Some (pne_message error)).

Definition node_timeout_error (node : PlanNode) : PlanNodeError :=
  normalize_node_error (PlanNodeError_retryable
    ("node_timeout node=" +:+ pn_id node +:+ " timeout_ms=" +:+ display (pn_timeout_ms node))).

(** The local variables that survive an iteration, and what an early [return]
    reports. *)
Record Progress := mkProgress { pr_used : Z; pr_events : list PlanNodeAttemptEvent }.
Inductive Flow := Continue (p : Progress) | Return (status : PlanRunStatus) (p : Progress) (elapsed_ms : Z).

(** [kind] makes another attempt pointless *)
Definition terminal_kind (kind : PlanNodeErrorKind) : bool :=
  match kind with PNE_PolicyDenied | PNE_ApprovalRequired => true | _ => false end.

Definition fail_node (node : PlanNode) (attempt : Z) (error : PlanNodeError) (p : Progress) (w : W) :
    Flow * W :=
  let '(elapsed_ms, w) := elapsed w in
  (Return (Run_Failed (PRF_NodeFailed (pn_id node) attempt (pne_kind error) (pne_message error)))
     p elapsed_ms, w).

(** [for attempt in 1..=node.max_attempts]: [fuel] attempts are left, the next
    one is [attempt]. *)
Fixpoint run_attempts (budget : PlanBudget) (node : PlanNode) (fuel : nat) (attempt : Z)
    (p : Progress) (w : W) : Flow * W :=
  match fuel with
  | O => (Continue p, w)
  | S fuel =>
      let '(elapsed_ms, w) := elapsed w in
      if (pb_max_wall_time_ms budget <? elapsed_ms)%Z then
        (Return (Run_Failed (PRF_WallTimeExceeded elapsed_ms (pb_max_wall_time_ms budget))) p elapsed_ms, w)
      else if (pb_max_total_attempts budget <=? pr_used p)%Z then
        (Return (Run_Failed (PRF_BudgetExceeded (pr_used p) (pb_max_total_attempts budget))) p elapsed_ms, w)
      else
        let used := sat_add (pr_used p) 1 in
        let '(outcome, w) := timed_execute (Z.max (pn_timeout_ms node) 1) node attempt w in
        match outcome with
        | None =>
            let error := node_timeout_error node in
            let p := mkProgress used (pr_events p ++ [failed_event node attempt error]) in
            if (attempt =? pn_max_attempts node)%Z then fail_node node attempt error p w
            else run_attempts budget node fuel (attempt + 1) p w
        | Some (Ok _) => (Continue (mkProgress used (pr_events p ++ [ok_event node attempt])), w)
        | Some (Err error) =>
            let error := normalize_node_error error in
            let p := mkProgress used (pr_events p ++ [failed_event node attempt error]) in
            if terminal_kind (pne_kind error) || (attempt =? pn_max_attempts node)%Z
            then fail_node node attempt error p w
            else run_attempts budget node fuel (attempt + 1) p w
        end
  end.

(** [for node_index in ordered_indexes] *)
Fixpoint run_nodes (plan : PlanGraph) (indexes : list nat) (p : Progress) (w : W) : Flow * W :=
  match indexes with
  | [] => (Continue p, w)
  | node_index :: indexes =>
      match pg_nodes plan !! node_index with
      | None =>
          let '(elapsed_ms, w) := elapsed w in
          (Return (Run_Failed PRF_TopologyResolutionFailed) p elapsed_ms, w)
      | Some node =>
          match run_attempts (pg_budget plan) node (Z.to_nat (pn_max_attempts node)) 1 p w with
          | (Continue p, w) => run_nodes plan indexes p w
          | (Return status p elapsed_ms, w) => (Return status p elapsed_ms, w)
          end
      end
  end.

Definition early_report (failure : PlanRunFailure) : PlanRunReport :=
  mkPlanRunReport (Run_Failed failure) [] 0 [] 0.

Definition PlanExecutor_execute (plan : PlanGraph) (w : W) : PlanRunReport * W :=
  match PlanGraph_validate plan with
  | Err error => (early_report (PRF_ValidationFailed error), w)
  | Ok _ =>
      match topological_order plan with
      | None => (early_report PRF_TopologyResolutionFailed, w)
      | Some ordered_indexes =>
          match mapM (λ index, pn_id <$> pg_nodes plan !! index) ordered_indexes with
          | None => (early_report PRF_TopologyResolutionFailed, w)
          | Some ordered_nodes =>
              match run_nodes plan ordered_indexes (mkProgress 0 []) w with
              | (Return status p elapsed_ms, w) =>
                  (mkPlanRunReport status ordered_nodes (pr_used p) (pr_events p) elapsed_ms, w)
              | (Continue p, w) =>
                  let '(elapsed_ms, w) := elapsed w in
                  (mkPlanRunReport Run_Succeeded ordered_nodes (pr_used p) (pr_events p) elapsed_ms, w)
              end
          end
      end
  end.
End execute.

(** ** The topological order exists for every valid plan *)

Lemma order_index_map nodes : NoDup (pn_id <$> nodes) → index_map (order_index nodes) (pn_id <$> nodes).
Proof.
  unfold order_index. induction nodes as [|node nodes IH] using rev_ind; intros Hnd.
  { apply index_map_empty. }
  rewrite fmap_app in *. apply NoDup_app in Hnd as (Hnd & Hd & _). specialize (IH Hnd).
  rewrite imap_app, foldl_app. simpl. rewrite Nat.add_0_r.
  assert (length nodes = size (foldl (λ m p, <[pn_id p.2:=p.1]> m) (∅ : gmap string nat) (imap pair nodes)))
    as -> by (rewrite (proj2 IH), length_fmap; done).
  apply index_map_snoc; [done|]. apply (index_map_None _ _ _ IH). intros Hin.
  by apply (Hd _ Hin), list_elem_of_singleton.
Qed.

Lemma foldl_bind_None {A B} (f : A → B → option A) l : foldl (λ st e, st ≫= λ st, f st e) None l = None.
Proof. by induction l. Qed.

Section order.
  Context (m : gmap string nat) (ids : list string) (Hm : index_map m ids).

Lemma order_edges_graph edges ies es ind outd adj :
  graph_of (length ids) es ind outd adj → (len es + len edges ≤ u64_max)%Z →
  Forall2 (edge_at ids) edges ies →
  ∃ ind' outd' adj', graph_of (length ids) (es ++ ies) ind' outd' adj' ∧
    foldl (λ st edge, st ≫= λ st, order_edge m st edge) (Some (ind, adj)) edges = Some (ind', adj').
Proof.
  intros Hg Hlen Hies. revert es ind outd adj Hg Hlen. destruct Hm as [Hidx _].
  induction Hies as [|e [i j] edges ies [Hi Hj] Hies IH]; intros es ind outd adj Hg Hlen.
  { exists ind, outd, adj. by rewrite app_nil_r. }
  rewrite len_cons in Hlen. pose proof (len_nonneg edges). simpl in Hi, Hj.
  apply lookup_lt_Some in Hi as Hli. apply lookup_lt_Some in Hj as Hlj. apply Hidx in Hi, Hj.
  destruct (lookup_lt_is_Some_2 ind j) as [dj Hdj]; [by rewrite (go_in_length _ _ _ _ _ Hg)|].
  destruct (lookup_lt_is_Some_2 outd i) as [di Hdi]; [by rewrite (go_out_length _ _ _ _ _ Hg)|].
  destruct (go_adj _ _ _ _ _ Hg i Hli) as (ns & Hns & _).
  destruct (IH (es ++ [(i, j)]) (<[j := sat_add dj 1]> ind) (<[i := sat_add di 1]> outd)
    (<[i := ns ++ [j]]> adj)) as (ind' & outd' & adj' & Hg' & Hf).
  { apply graph_of_snoc; try done. unfold u64_max in *. lia. }
  { rewrite len_app, len_cons, len_nil. lia. }
  exists ind', outd', adj'. rewrite cons_middle, app_assoc. split; [done|]. cbn [foldl].
  rewrite <-Hf. f_equal. unfold order_edge. cbn [mbind option_bind]. rewrite Hi. cbn [mbind option_bind].
  rewrite Hj. cbn [mbind option_bind]. rewrite Hdj. cbn [mbind option_bind]. by rewrite Hns.
Qed.
End order.

(** The indices of a plan in execution order: all of them, once, sources
    first. *)
Definition execution_order (plan : PlanGraph) (order : list nat) : Prop :=
  order ≡ₚ seq 0 (length (pg_nodes plan)) ∧
  ∀ pre j post, order = pre ++ j :: post → ∀ a b,
    plan_edge plan a b → plan_ids plan !! j = Some b → ∃ i, i ∈ pre ∧ plan_ids plan !! i = Some a.

Lemma topological_order_wf plan : plan_fits plan → plan_wf plan →
  ∃ order, topological_order plan = Some order ∧ execution_order plan order.
Proof.
  intros [Hn He] Hwf. destruct (plan_edges_index plan (pw_edges _ Hwf)) as [ies Hies].
  pose proof (order_index_map _ (pw_unique _ Hwf)) as Hm. fold (plan_ids plan) in Hm.
  destruct (order_edges_graph _ _ Hm (pg_edges plan) ies [] _ _ _ (graph_of_nil (length (plan_ids plan))))
    as (ind & outd & adj & Hg & Hf); [rewrite len_nil; lia|done|]. simpl in Hg.
  unfold topological_order. rewrite <-length_plan_ids, Hf. cbn [mbind option_bind].
  assert (length (plan_ids plan) ≠ 0) as Hlen0.
  { rewrite length_plan_ids. pose proof (pw_nonempty _ Hwf). by destruct (pg_nodes plan). }
  destruct (validate_walk_spec (length (plan_ids plan)) ies (mkDegrees ind outd adj) Hlen0) as
    (order & Hw & _ & Hnd & Hr & Htop & Hiff); [by rewrite length_plan_ids|by apply ies_in_range|done|].
  simpl in Hw. rewrite Hw. cbn [mbind option_bind].
  pose proof (proj2 (acyclic_ids_iff plan ies Hies (pw_unique _ Hwf)) (pw_acyclic _ Hwf)) as Hac.
  apply Hiff in Hac. assert (length order = length (plan_ids plan)) as Hlen by (unfold len in Hac; lia).
  rewrite Hlen, Nat.eqb_refl. exists order. split; [done|]. split.
  - apply submseteq_length_Permutation; [|by rewrite length_seq, Hlen, length_plan_ids].
    apply NoDup_submseteq; [done|]. intros j Hj. apply elem_of_seq. specialize (Hr j Hj).
    rewrite <-length_plan_ids. lia.
  - intros pre j post Ho a b Hab Hj.
    destruct (plan_edge_index_edge plan ies Hies a b Hab) as (i & j' & Hi & Hj' & Hij).
    assert (j' = j) as -> by (by eapply NoDup_lookup; [apply (pw_unique _ Hwf)| |]).
    exists i. split; [|done]. by eapply Htop.
Qed.
