(* ===== verification/PlanExecutorProps.v ===== *)
(** * PlanExecutorProps: the executor refines a plan semantics

    The specification is an inductive semantics without counters, budgets or
    fuel: nodes run in a dependency order, each until it succeeds, fails for
    good or the plan is out of time. The executor of [PlanExecutor.v] is shown
    to follow it; that no node runs before its dependencies have succeeded is
    then a fact about the semantics. *)
From S2P Require Import Prelude RustStr PlanGraph PlanExecutor.

(** How a node or a plan ends. *)
Inductive verdict :=
| V_Done
| V_Late (elapsed_ms : Z)
| V_NodeFailed (node_id : string) (attempt : Z) (kind : PlanNodeErrorKind) (message : string).

Definition verdict_status (plan : PlanGraph) (v : verdict) : PlanRunStatus :=
  match v with
  | V_Done => Run_Succeeded
  | V_Late e => Run_Failed (PRF_WallTimeExceeded e (pb_max_wall_time_ms (pg_budget plan)))
  | V_NodeFailed id a kind message => Run_Failed (PRF_NodeFailed id a kind message)
  end.

(** The integer fields lie in the range of their types. *)
Definition plan_typed (plan : PlanGraph) : Prop :=
  (∀ node, node ∈ pg_nodes plan → (0 ≤ pn_max_attempts node ≤ u8_max)%Z) ∧
  (pb_max_total_attempts (pg_budget plan) < u64_max)%Z.

Section semantics.
  Context {W : Type}.
  Context (timed_execute : Z → PlanNode → Z → W → option (result PlanNodeError unit) * W).
  Context (elapsed : W → Z * W) (limit_ms : Z).

(** The error of an attempt that did not succeed. *)
Definition attempt_error (node : PlanNode) (outcome : option (result PlanNodeError unit)) :
    option PlanNodeError :=
  match outcome with
  | None => Some (node_timeout_error node)
  | Some (Err error) => Some (normalize_node_error error)
  | Some (Ok _) => None
  end.

(** One node from attempt [a] on. *)
Inductive attempts_trace (node : PlanNode) :
    Z → W → list PlanNodeAttemptEvent → verdict → W → Prop :=
| at_late a w e w1 :
    elapsed w = (e, w1) → (limit_ms < e)%Z → attempts_trace node a w [] (V_Late e) w1
| at_success a w e w1 w2 :
    elapsed w = (e, w1) → (e ≤ limit_ms)%Z →
    timed_execute (Z.max (pn_timeout_ms node) 1) node a w1 = (Some (Ok ()), w2) →
    attempts_trace node a w [ok_event node a] V_Done w2
| at_retry a w e w1 out error w2 evs v w' :
    elapsed w = (e, w1) → (e ≤ limit_ms)%Z →
    timed_execute (Z.max (pn_timeout_ms node) 1) node a w1 = (out, w2) →
    attempt_error node out = Some error →
    terminal_kind (pne_kind error) = false → (a < pn_max_attempts node)%Z →
    attempts_trace node (a + 1) w2 evs v w' →
    attempts_trace node a w (failed_event node a error :: evs) v w'
| at_fail a w e w1 out error w2 e' w3 :
    elapsed w = (e, w1) → (e ≤ limit_ms)%Z →
    timed_execute (Z.max (pn_timeout_ms node) 1) node a w1 = (out, w2) →
    attempt_error node out = Some error →
    terminal_kind (pne_kind error) = true ∨ a = pn_max_attempts node →
    elapsed w2 = (e', w3) →
    attempts_trace node a w [failed_event node a error]
      (V_NodeFailed (pn_id node) a (pne_kind error) (pne_message error)) w3.

(** The nodes of a plan one after the other. *)
Inductive nodes_trace : list PlanNode → W → list PlanNodeAttemptEvent → verdict → W → Prop :=
| nt_done w : nodes_trace [] w [] V_Done w
| nt_next node nodes w evs w1 evs' v w' :
    attempts_trace node 1 w evs V_Done w1 → nodes_trace nodes w1 evs' v w' →
    nodes_trace (node :: nodes) w (evs ++ evs') v w'
| nt_stop node nodes w evs v w' :
    attempts_trace node 1 w evs v w' → v ≠ V_Done → nodes_trace (node :: nodes) w evs v w'.

(** ** The executor follows the semantics *)

Lemma timeout_not_terminal node : terminal_kind (pne_kind (node_timeout_error node)) = false.
Proof. unfold node_timeout_error, normalize_node_error. by case_match. Qed.

(** What a loop hands on, in terms of the events it added. *)
Definition flow_matches (plan : PlanGraph) (p : Progress) (evs : list PlanNodeAttemptEvent)
    (v : verdict) (fl : Flow) : Prop :=
  let p' := mkProgress (pr_used p + len evs)%Z (pr_events p ++ evs) in
  match fl with
  | Continue q => v = V_Done ∧ q = p'
  | Return status q _ => v ≠ V_Done ∧ status = verdict_status plan v ∧ q = p'
  end.

Lemma flow_matches_cons plan p ev evs v fl used :
  used = (pr_used p + 1)%Z →
  flow_matches plan (mkProgress used (pr_events p ++ [ev])) evs v fl →
  flow_matches plan p (ev :: evs) v fl.
Proof.
  intros -> H. unfold flow_matches in *. simpl in *. rewrite len_cons, cons_middle, app_assoc.
  replace (pr_used p + (1 + len evs))%Z with (pr_used p + 1 + len evs)%Z by lia. done.
Qed.

Lemma run_attempts_trace plan node fuel a p w fl w' :
  limit_ms = pb_max_wall_time_ms (pg_budget plan) →
  fuel ≠ 0 → Z.of_nat fuel = (pn_max_attempts node - a + 1)%Z →
  (0 ≤ pr_used p)%Z → (pr_used p + Z.of_nat fuel ≤ pb_max_total_attempts (pg_budget plan))%Z →
  (pb_max_total_attempts (pg_budget plan) < u64_max)%Z →
  run_attempts timed_execute elapsed (pg_budget plan) node fuel a p w = (fl, w') →
  ∃ evs v, attempts_trace node a w evs v w' ∧ flow_matches plan p evs v fl ∧ length evs ≤ fuel.
Proof.
  intros Hlim. revert a p w. induction fuel as [|fuel IH]; intros a p w Hf Ha Hu Hb Hmax Hr; [done|].
  cbn [run_attempts] in Hr. destruct (elapsed w) as [e w1] eqn:He. rewrite <-Hlim in Hr.
  destruct (Z.ltb_spec limit_ms e) as [Hlate|Hin].
  { simplify_eq. exists [], (V_Late e). split; [by econstructor|]. split; [|simpl; lia].
    split; [done|]. split; [simpl; by rewrite <-Hlim|]. destruct p. by rewrite len_nil, app_nil_r, Z.add_0_r. }
  destruct (Z.leb_spec (pb_max_total_attempts (pg_budget plan)) (pr_used p)); [lia|].
  assert (sat_add (pr_used p) 1 = pr_used p + 1)%Z as Hsat by (apply sat_add_small; lia).
  rewrite Hsat in Hr.
  destruct (timed_execute _ node a w1) as [out w2] eqn:Hout.
  (* an attempt that failed, once its error is known *)
  assert (∀ error stop, attempt_error node out = Some error →
    stop = terminal_kind (pne_kind error) || (a =? pn_max_attempts node)%Z →
    (if stop then fail_node elapsed node a error
         (mkProgress (pr_used p + 1) (pr_events p ++ [failed_event node a error])) w2
       else run_attempts timed_execute elapsed (pg_budget plan) node fuel (a + 1)
         (mkProgress (pr_used p + 1) (pr_events p ++ [failed_event node a error])) w2) = (fl, w') →
    ∃ evs v, attempts_trace node a w evs v w' ∧ flow_matches plan p evs v fl ∧ length evs ≤ S fuel)
    as Hfail.
  { intros error stop Herr -> Hrun.
    destruct (terminal_kind (pne_kind error) || (a =? pn_max_attempts node)%Z) eqn:Hstop.
    - unfold fail_node in Hrun. destruct (elapsed w2) as [e' w3] eqn:He'. simplify_eq.
      eexists [_], _. split.
      { eapply at_fail; try done. apply orb_true_iff in Hstop as [|?%Z.eqb_eq]; auto. }
      split; [|simpl; lia]. split; [done|]. split; [done|]. by rewrite len_cons, len_nil.
    - apply orb_false_iff in Hstop as [Hk Hne%Z.eqb_neq].
      apply IH in Hrun as (evs & v & Ht & Hm & Hl); [|simpl; lia..].
      exists (failed_event node a error :: evs), v. split; [eapply at_retry; try done; lia|].
      split; [by eapply flow_matches_cons; [|exact Hm]|simpl; lia]. }
  destruct out as [[[]|error]|].
  - simplify_eq. exists [ok_event node a], V_Done. split; [by econstructor|].
    split; [|simpl; lia]. split; [done|]. by rewrite len_cons, len_nil.
  - eapply Hfail; [done|done|exact Hr].
  - eapply Hfail; [done| |exact Hr]. by rewrite timeout_not_terminal.
Qed.

(** The attempts a list of nodes may still use. *)
Definition attempts_left (nodes : list PlanNode) : Z := foldr (λ n t, (pn_max_attempts n + t)%Z) 0%Z nodes.

Lemma run_nodes_trace plan indexes nodes p w fl w' :
  limit_ms = pb_max_wall_time_ms (pg_budget plan) →
  Forall2 (λ i node, pg_nodes plan !! i = Some node) indexes nodes →
  Forall (λ node, 0 < pn_max_attempts node)%Z nodes →
  (0 ≤ pr_used p)%Z →
  (pr_used p + attempts_left nodes ≤ pb_max_total_attempts (pg_budget plan))%Z →
  (pb_max_total_attempts (pg_budget plan) < u64_max)%Z →
  run_nodes timed_execute elapsed plan indexes p w = (fl, w') →
  ∃ evs v, nodes_trace nodes w evs v w' ∧ flow_matches plan p evs v fl ∧
    (len evs ≤ attempts_left nodes)%Z.
Proof.
  intros Hlim H2 Hpos Hu Hb Hmax. revert p w Hu Hb.
  induction H2 as [|i node indexes nodes Hi H2 IH]; intros p w Hu Hb Hr; cbn [run_nodes] in Hr.
  { simplify_eq. exists [], V_Done. split; [constructor|]. split; [|done].
    split; [done|]. destruct p. by rewrite len_nil, app_nil_r, Z.add_0_r. }
  apply Forall_cons in Hpos as [Hp Hpos]. rewrite Hi in Hr. simpl in Hb.
  assert (0 ≤ attempts_left nodes)%Z as Hleft.
  { clear -Hpos. induction Hpos; simpl; lia. }
  destruct (run_attempts _ _ _ _ _ _ _ _) as [fl1 w1] eqn:Hatt.
  apply (run_attempts_trace plan) in Hatt as (evs & v & Ht & Hm & Hl); [|done|lia..].
  destruct fl1 as [p1|status p1 ms].
  - destruct Hm as [-> ->]. apply IH in Hr as (evs' & v & Ht' & Hm' & Hl'); [|done| |].
    + exists (evs ++ evs'), v. split; [by eapply nt_next|]. split.
      * unfold flow_matches in *. simpl in *. rewrite len_app, app_assoc.
        replace (pr_used p + (len evs + len evs'))%Z with (pr_used p + len evs + len evs')%Z by lia. done.
      * rewrite len_app. unfold len in *. simpl. lia.
    + simpl. pose proof (len_nonneg evs). lia.
    + simpl. unfold len. lia.
  - simplify_eq. exists evs, v. split; [apply nt_stop; [done|by destruct Hm]|]. split; [done|].
    unfold len. simpl. lia.
Qed.
End semantics.

(** ** Attempts add up *)

Lemma attempts_left_Permutation nodes nodes' : nodes ≡ₚ nodes' → attempts_left nodes = attempts_left nodes'.
Proof. induction 1; simpl; lia. Qed.

Lemma sat_fold_left nodes t :
  Forall (λ n, 0 ≤ pn_max_attempts n)%Z nodes →
  (foldl (λ t n, sat_add t (pn_max_attempts n)) t nodes < u64_max)%Z →
  foldl (λ t n, sat_add t (pn_max_attempts n)) t nodes = (t + attempts_left nodes)%Z ∧
  (0 ≤ attempts_left nodes)%Z.
Proof.
  intros Hpos. revert t. induction Hpos as [|node nodes Hp Hpos IH]; intros t Hlt; simpl in *; [lia|].
  destruct (IH _ Hlt) as [Heq Hnn]. rewrite Heq in *. unfold sat_add in *. lia.
Qed.

Lemma plan_attempts_left plan : plan_typed plan →
  (plan_attempts plan ≤ pb_max_total_attempts (pg_budget plan))%Z →
  plan_attempts plan = attempts_left (pg_nodes plan).
Proof.
  intros [Hty Hlt] Hle. unfold plan_attempts in *.
  destruct (sat_fold_left (pg_nodes plan) 0) as [-> _]; [|lia|lia].
  apply Forall_forall. intros node Hn. specialize (Hty node Hn). lia.
Qed.

(** ** Nodes in execution order *)

Lemma omap_lookup_seq {A} (l : list A) : omap (λ i, l !! i) (seq 0 (length l)) = l.
Proof.
  induction l as [|x l IH] using rev_ind; [done|].
  rewrite length_app, seq_app, omap_app. simpl. rewrite lookup_app_r, Nat.sub_diag by lia. simpl.
  f_equal. rewrite <-IH at 2. apply list_omap_ext. apply Forall_Forall2_diag, Forall_forall.
  intros i Hi%elem_of_seq. by rewrite lookup_app_l by lia.
Qed.

Lemma ordered_nodes_exist plan order : order ≡ₚ seq 0 (length (pg_nodes plan)) →
  ∃ nodes, Forall2 (λ i node, pg_nodes plan !! i = Some node) order nodes ∧ nodes ≡ₚ pg_nodes plan ∧
    mapM (λ i, pn_id <$> pg_nodes plan !! i) order = Some (pn_id <$> nodes).
Proof.
  intros Hperm. exists (omap (λ i, pg_nodes plan !! i) order).
  assert (Forall (λ i, i < length (pg_nodes plan)) order) as Hr.
  { apply Forall_forall. intros i Hi. rewrite Hperm in Hi. apply elem_of_seq in Hi. lia. }
  assert (Forall2 (λ i node, pg_nodes plan !! i = Some node) order
    (omap (λ i, pg_nodes plan !! i) order)) as H2.
  { clear Hperm. induction Hr as [|i order [x Hx]%lookup_lt_is_Some_2 Hr IH]; csimpl; [constructor|].
    rewrite Hx. by constructor. }
  split; [done|]. split; [rewrite Hperm; by rewrite omap_lookup_seq|].
  apply mapM_Some, Forall2_fmap_r. eapply Forall2_impl; [exact H2|]. intros i node Hi. by rewrite Hi.
Qed.

(** ** Refinement *)

Section refinement.
  Context {W : Type}.
  Context (timed_execute : Z → PlanNode → Z → W → option (result PlanNodeError unit) * W).
  Context (elapsed : W → Z * W).

Abbreviation execute := (PlanExecutor_execute timed_execute elapsed).
Abbreviation run_of plan := (nodes_trace timed_execute elapsed (pb_max_wall_time_ms (pg_budget plan))).

(** A report that the semantics explains. *)
Definition explained (plan : PlanGraph) (w : W) (report : PlanRunReport) (w' : W) : Prop :=
  ∃ order nodes v w1,
    execution_order plan order ∧
    Forall2 (λ i node, pg_nodes plan !! i = Some node) order nodes ∧
    run_of plan nodes w (prr_attempt_events report) v w1 ∧
    prr_status report = verdict_status plan v ∧
    prr_ordered_nodes report = pn_id <$> nodes ∧
    prr_attempts_used report = len (prr_attempt_events report) ∧
    (prr_attempts_used report ≤ plan_attempts plan)%Z ∧
    w' = match v with V_Done => (elapsed w1).2 | _ => w1 end.

Lemma execute_explained plan w report w' :
  plan_fits plan → plan_typed plan → PlanGraph_validate plan = Ok () →
  execute plan w = (report, w') → explained plan w report w'.
Proof.
  intros Hfit Hty Hv Hex. pose proof (validate_sound plan Hfit Hv) as Hwf.
  destruct (topological_order_wf plan Hfit Hwf) as (order & Hto & Hord).
  destruct (ordered_nodes_exist plan order (proj1 Hord)) as (nodes & H2 & Hperm & HmapM).
  pose proof (plan_attempts_left plan Hty (pw_attempts _ Hwf)) as Hatt.
  unfold PlanExecutor_execute in Hex. rewrite Hv, Hto, HmapM in Hex.
  destruct (run_nodes _ _ _ _ _ _) as [fl w1] eqn:Hrun.
  apply (run_nodes_trace _ _ (pb_max_wall_time_ms (pg_budget plan)) plan _ nodes) in Hrun
    as (evs & v & Ht & Hm & Hl); [|done|done| |done| |exact (proj2 Hty)].
  - exists order, nodes, v, w1. destruct fl as [p|status p ms]; simpl in Hm.
    + destruct Hm as [-> ->]. destruct (elapsed w1) as [e w2]. simplify_eq. simpl in *.
      rewrite <-(attempts_left_Permutation _ _ Hperm) in Hatt. split_and!; try done; lia.
    + destruct Hm as (Hne & -> & ->). simplify_eq. simpl in *.
      rewrite <-(attempts_left_Permutation _ _ Hperm) in Hatt. split_and!; try done; [lia|].
      by destruct v.
  - rewrite Hperm. apply Forall_forall. intros node Hn.
    pose proof (pw_node _ Hwf node Hn). destruct Hty as [Hty _]. specialize (Hty node Hn). lia.
  - rewrite (attempts_left_Permutation _ _ Hperm), <-Hatt. simpl. apply (pw_attempts _ Hwf).
Qed.

(** C14. The executor refines the plan semantics. An invalid plan touches
    nothing. A valid plan runs its nodes in a dependency order, each attempted
    from 1 on until it succeeds, fails for good or the wall time is over; the
    report lists exactly those attempts, its status is how the run ended, and
    the attempts stay within the plan's budget. In particular a valid plan never
    fails with BudgetExceeded or TopologyResolutionFailed. *)
Theorem executor_refines_plan_semantics plan w report w' :
  plan_fits plan → plan_typed plan → execute plan w = (report, w') →
  match PlanGraph_validate plan with
  | Err error => report = early_report (PRF_ValidationFailed error) ∧ w' = w
  | Ok _ => explained plan w report w'
  end.
Proof.
  intros Hfit Hty Hex. destruct (PlanGraph_validate plan) as [[]|error] eqn:Hv.
  - by apply execute_explained.
  - unfold PlanExecutor_execute in Hex. rewrite Hv in Hex. by simplify_eq.
Qed.

(** ** Facts of the semantics *)

Lemma attempts_trace_ids lim node a w evs v w' ev :
  attempts_trace timed_execute elapsed lim node a w evs v w' → ev ∈ evs → pae_node_id ev = pn_id node.
Proof.
  induction 1; intros Hin; try (by apply not_elem_of_nil in Hin);
    try (by apply list_elem_of_singleton in Hin as ->).
  apply elem_of_cons in Hin as [->|Hin]; auto.
Qed.

Lemma attempts_trace_success lim node a w evs w' :
  attempts_trace timed_execute elapsed lim node a w evs V_Done w' →
  ∃ ev, ev ∈ evs ∧ pae_node_id ev = pn_id node ∧ pae_success ev = true.
Proof.
  remember V_Done as v. induction 1; simplify_eq.
  - eexists. split; [by left|done].
  - destruct IHattempts_trace as (ev & ? & ?); [done|]. exists ev. split; [by right|done].
Qed.

(** When an attempt is made, every earlier node has succeeded. *)
Lemma nodes_trace_before lim nodes w evs v w' pre ev post :
  nodes_trace timed_execute elapsed lim nodes w evs v w' → evs = pre ++ ev :: post →
  ∃ npre node npost, nodes = npre ++ node :: npost ∧ pae_node_id ev = pn_id node ∧
    ∀ n, n ∈ npre → ∃ ev', ev' ∈ pre ∧ pae_node_id ev' = pn_id n ∧ pae_success ev' = true.
Proof.
  intros Hn. revert pre. induction Hn as [w|node nodes w evs w1 evs' v w' Ha Hn IH|node nodes w evs v w' Ha Hv];
    intros pre Heq.
  - by destruct pre.
  - destruct (decide (length evs ≤ length pre)) as [Hle|Hgt].
    + assert (∃ pre', pre = evs ++ pre' ∧ evs' = pre' ++ ev :: post) as (pre' & -> & Hevs').
      { exists (drop (length evs) pre).
        apply (f_equal (λ l, (take (length evs) l, drop (length evs) l))) in Heq.
        rewrite take_app_length, drop_app_length, take_app_le, drop_app_le in Heq by done.
        injection Heq as H1 H2. split; [|done]. rewrite H1 at 1. by rewrite take_drop. }
      destruct (IH pre' Hevs') as (npre & n & npost & -> & Hid & Hsucc).
      exists (node :: npre), n, npost. split; [done|]. split; [done|].
      intros m [->|Hm]%elem_of_cons.
      * destruct (attempts_trace_success _ _ _ _ _ _ Ha) as (ev' & ? & ?). exists ev'. set_solver.
      * destruct (Hsucc m Hm) as (ev' & ? & ?). exists ev'. set_solver.
    + exists [], node, nodes. split; [done|]. split; [|by intros m ?%not_elem_of_nil].
      eapply attempts_trace_ids; [exact Ha|].
      assert ((evs ++ evs') !! length pre = Some ev) as Hl by (rewrite Heq; by apply list_lookup_middle).
      rewrite lookup_app_l in Hl by lia. by eapply list_elem_of_lookup_2.
  - exists [], node, nodes. split; [done|]. split; [|by intros m ?%not_elem_of_nil].
    eapply attempts_trace_ids; [exact Ha|]. subst. set_solver.
Qed.

(** An error that forbids another attempt is the last event. *)
Lemma attempts_trace_terminal lim node a w evs v w' pre ev post k :
  attempts_trace timed_execute elapsed lim node a w evs v w' → evs = pre ++ ev :: post →
  pae_error_kind ev = Some k → terminal_kind k = true →
  post = [] ∧ ∃ a message, v = V_NodeFailed (pae_node_id ev) a k message.
Proof.
  intros Ht. revert pre. induction Ht; intros pre Heq Hk Hterm.
  - by destruct pre.
  - destruct pre as [|? [|]]; simplify_eq/=.
  - destruct pre as [|? pre]; simplify_eq/=; [congruence|]. eauto.
  - destruct pre as [|? [|]]; simplify_eq/=. eauto.
Qed.

Lemma nodes_trace_terminal lim nodes w evs v w' pre ev post k :
  nodes_trace timed_execute elapsed lim nodes w evs v w' → evs = pre ++ ev :: post →
  pae_error_kind ev = Some k → terminal_kind k = true →
  post = [] ∧ ∃ a message, v = V_NodeFailed (pae_node_id ev) a k message.
Proof.
  intros Hn. revert pre. induction Hn as [w|node nodes w evs w1 evs' v w' Ha Hn IH|node nodes w evs v w' Ha Hv];
    intros pre Heq Hk Hterm.
  - by destruct pre.
  - apply app_eq_app in Heq as (mid & [[-> Hmid]|[-> Hmid]]).
    + destruct mid as [|ev0 mid]; [by eapply (IH []); [rewrite Hmid| |]|].
      injection Hmid as <- ->.
      destruct (attempts_trace_terminal _ _ _ _ _ _ _ pre ev mid k Ha) as (_ & ? & ? & ?); done.
    + by eapply IH.
  - by eapply attempts_trace_terminal.
Qed.

(** Dependencies come first and denials are final: whenever an attempt at a
    node is reported, every node with an edge into it has a successful attempt
    before; and an attempt that failed with PolicyDenied or ApprovalRequired is
    the last of the run, which fails with that error: nothing is tried after
    it. *)
Theorem plan_respects_dependencies_and_denials plan w report w' pre ev post :
  plan_fits plan → plan_typed plan → execute plan w = (report, w') →
  prr_attempt_events report = pre ++ ev :: post →
  (∀ a, plan_edge plan a (pae_node_id ev) →
     ∃ ev', ev' ∈ pre ∧ pae_node_id ev' = a ∧ pae_success ev' = true) ∧
  (∀ k, pae_error_kind ev = Some k → k = PNE_PolicyDenied ∨ k = PNE_ApprovalRequired →
     post = [] ∧ ∃ a message,
       prr_status report = Run_Failed (PRF_NodeFailed (pae_node_id ev) a k message)).
Proof.
  intros Hfit Hty Hex Hevs. destruct (PlanGraph_validate plan) as [[]|error] eqn:Hv.
  2:{ unfold PlanExecutor_execute in Hex. rewrite Hv in Hex. simplify_eq. by destruct pre. }
  destruct (execute_explained plan w report w' Hfit Hty Hv Hex)
    as (order & nodes & v & w1 & [Hperm Hord] & H2 & Ht & Hst & _). split.
  - intros a Hedge.
    destruct (nodes_trace_before _ _ _ _ _ _ _ _ _ Ht Hevs) as (npre & node & npost & -> & Hid & Hsucc).
    apply Forall2_app_inv_r in H2 as (opre & orest & H2pre & H2rest & Ho).
    apply Forall2_cons_inv_r in H2rest as (j & opost & Hj & _ & ->).
    assert (plan_ids plan !! j = Some (pae_node_id ev)) as Hj'.
    { unfold plan_ids. rewrite list_lookup_fmap, Hj, Hid. done. }
    destruct (Hord opre j opost Ho a _ Hedge Hj') as (i & [k Hk]%list_elem_of_lookup & Hi).
    destruct (Forall2_lookup_l _ _ _ _ _ H2pre Hk) as (n & Hn & Hin).
    unfold plan_ids in Hi. rewrite list_lookup_fmap, Hin in Hi. injection Hi as <-.
    apply Hsucc. by eapply list_elem_of_lookup_2.
  - intros k Hk Hkind. assert (terminal_kind k = true) as Hterm by (by destruct Hkind as [->| ->]).
    destruct (nodes_trace_terminal _ _ _ _ _ _ _ _ _ _ Ht Hevs Hk Hterm) as (-> & a & message & ->).
    split; [done|]. by exists a, message.
Qed.
End refinement.

Module PlanExecutorDemo.
Import PlanGraphDemo.

(** An environment that counts calls; the first attempt at n2 fails, n3 is
    denied. *)
Definition demo_execute (deadline : Z) (n : PlanNode) (attempt : Z) (w : Z) :
    option (result PlanNodeError unit) * Z :=
  let w := (w + 1)%Z in
  if bool_decide (pn_id n = "n2") && (attempt =? 1)%Z then
    (Some (Err (PlanNodeError_retryable " flaky ")), w)
  else if bool_decide (pn_id n = "n3") then (Some (Err (PlanNodeError_policy_denied "no")), w)
  else (Some (Ok ()), w).

Definition demo_elapsed (w : Z) : Z * Z := (w, w).

Definition demo_run := PlanExecutor_execute demo_execute demo_elapsed diamond 0%Z.

Example demo_events : (λ e, (pae_node_id e, pae_attempt e, pae_success e)) <$> prr_attempt_events demo_run.1
  = [("n1", 1%Z, true); ("n2", 1%Z, false); ("n2", 2%Z, true); ("n3", 1%Z, false)].
Proof. vm_compute. reflexivity. Qed.

Lemma diamond_fits : plan_fits diamond ∧ plan_typed diamond.
Proof.
  split; [split; vm_compute; intuition congruence|]. split; [|vm_compute; reflexivity].
  intros n Hn. repeat (apply elem_of_cons in Hn as [->|Hn]; [vm_compute; intuition congruence|]).
  by apply not_elem_of_nil in Hn.
Qed.

Lemma refinement_witness :
  prr_status demo_run.1 = Run_Failed (PRF_NodeFailed "n3" 1 PNE_PolicyDenied "no") ∧
  explained demo_execute demo_elapsed diamond 0%Z demo_run.1 demo_run.2.
Proof.
  split; [vm_compute; reflexivity|].
  pose proof (executor_refines_plan_semantics demo_execute demo_elapsed diamond 0%Z demo_run.1 demo_run.2
    (proj1 diamond_fits) (proj2 diamond_fits) eq_refl) as H.
  rewrite diamond_valid in H. exact H.
Defined.

Lemma dependencies_witness :
  ∃ pre ev, prr_attempt_events demo_run.1 = pre ++ [ev] ∧ pae_node_id ev = "n3" ∧
  ∃ ev', ev' ∈ pre ∧ pae_node_id ev' = "n1" ∧ pae_success ev' = true.
Proof.
  exists (take 3 (prr_attempt_events demo_run.1)), (failed_event (node "n3" Node_Verify 1) 1
    (PlanNodeError_policy_denied "no")).
  assert (prr_attempt_events demo_run.1 = take 3 (prr_attempt_events demo_run.1)
    ++ [failed_event (node "n3" Node_Verify 1) 1 (PlanNodeError_policy_denied "no")]) as Heq
    by (vm_compute; reflexivity).
  split; [exact Heq|]. split; [reflexivity|].
  apply (proj1 (plan_respects_dependencies_and_denials demo_execute demo_elapsed diamond 0%Z demo_run.1
    demo_run.2 _ _ [] (proj1 diamond_fits) (proj2 diamond_fits) eq_refl Heq) "n1").
  unfold plan_edge. simpl. right. left.
Defined.

End PlanExecutorDemo.
