(* ===== verification/ConversationConfig.v ===== *)
(** * ConversationConfig: the conversation settings (app/src/config/conversation.rs)

    The settings with their defaults, and the accessors that bring raw values
    into their valid range. *)
From S2P Require Import Prelude Json RustStr.
From Stdlib Require Import SpecFloat.

Record ConversationTurnLoopConfig := mkConversationTurnLoopConfig {
  tl_max_rounds : Z;
  tl_max_tool_steps_per_round : Z;
  tl_max_repeated_tool_call_rounds : Z;
  tl_max_ping_pong_cycles : Z;
  tl_max_same_tool_failure_rounds : Z;
  tl_max_followup_tool_payload_chars : Z;
  tl_max_followup_tool_payload_chars_total : Z;
  tl_max_discovery_followup_rounds : Z;
  tl_max_total_tool_calls : Z;
  tl_max_consecutive_same_tool : Z;
}.

Definition ConversationTurnLoopConfig_default : ConversationTurnLoopConfig := {|
  tl_max_rounds := 4;
  tl_max_tool_steps_per_round := 1;
  tl_max_repeated_tool_call_rounds := 2;
  tl_max_ping_pong_cycles := 2;
  tl_max_same_tool_failure_rounds := 3;
  tl_max_followup_tool_payload_chars := 8000;
  tl_max_followup_tool_payload_chars_total := 20000;
  tl_max_discovery_followup_rounds := 2;
  tl_max_total_tool_calls := 200;
  tl_max_consecutive_same_tool := 10 |}.

Record ConversationConfig := mkConversationConfig {
  cv_context_engine : option string;
  cv_turn_middlewares : list string;
  cv_compact_enabled : bool;
  cv_compact_min_messages : option Z;
  cv_compact_trigger_estimated_tokens : option Z;
  cv_compact_fail_open : bool;
  cv_turn_loop : ConversationTurnLoopConfig;
  cv_hybrid_lane_enabled : bool;
  cv_safe_lane_plan_execution_enabled : bool;
  cv_fast_lane_max_tool_steps_per_turn : Z;
  cv_fast_lane_parallel_tool_execution_enabled : bool;
  cv_fast_lane_parallel_tool_execution_max_in_flight : Z;
  cv_safe_lane_max_tool_steps_per_turn : Z;
  cv_safe_lane_node_max_attempts : Z;
  cv_safe_lane_plan_max_wall_time_ms : Z;
  cv_safe_lane_verify_output_non_empty : bool;
  cv_safe_lane_verify_min_output_chars : Z;
  cv_safe_lane_verify_require_status_prefix : bool;
  cv_safe_lane_verify_adaptive_anchor_escalation : bool;
  cv_safe_lane_verify_anchor_escalation_after_failures : Z;
  cv_safe_lane_verify_anchor_escalation_min_matches : Z;
  cv_safe_lane_emit_runtime_events : bool;
  cv_safe_lane_event_sample_every : Z;
  cv_safe_lane_event_adaptive_sampling : bool;
  cv_safe_lane_event_adaptive_failure_threshold : Z;
  cv_safe_lane_verify_deny_markers : list string;
  cv_safe_lane_replan_max_rounds : Z;
  cv_safe_lane_replan_max_node_attempts : Z;
  cv_safe_lane_session_governor_enabled : bool;
  cv_safe_lane_session_governor_window_turns : Z;
  cv_safe_lane_session_governor_failed_final_status_threshold : Z;
  cv_safe_lane_session_governor_backpressure_failure_threshold : Z;
  cv_safe_lane_session_governor_trend_enabled : bool;
  cv_safe_lane_session_governor_trend_min_samples : Z;
  cv_safe_lane_session_governor_trend_ewma_alpha : f64;
  cv_safe_lane_session_governor_trend_failure_ewma_threshold : f64;
  cv_safe_lane_session_governor_trend_backpressure_ewma_threshold : f64;
  cv_safe_lane_session_governor_recovery_success_streak : Z;
  cv_safe_lane_session_governor_recovery_max_failure_ewma : f64;
  cv_safe_lane_session_governor_recovery_max_backpressure_ewma : f64;
  cv_safe_lane_session_governor_force_no_replan : bool;
  cv_safe_lane_session_governor_force_node_max_attempts : Z;
  cv_safe_lane_backpressure_guard_enabled : bool;
  cv_safe_lane_backpressure_max_total_attempts : Z;
  cv_safe_lane_backpressure_max_replans : Z;
  cv_safe_lane_risk_threshold : Z;
  cv_safe_lane_complexity_threshold : Z;
  cv_fast_lane_max_input_chars : Z;
  cv_tool_result_payload_summary_limit_chars : Z;
  cv_safe_lane_health_truncation_warn_threshold : f64;
  cv_safe_lane_health_truncation_critical_threshold : f64;
  cv_safe_lane_health_verify_failure_warn_threshold : f64;
  cv_safe_lane_health_replan_warn_threshold : f64;
  cv_high_risk_keywords : list string;
  cv_agentic_tool_followup : bool;
}.

Definition default_high_risk_keywords : list string :=
  ["rm -rf"; "drop table"; "delete"; "credential"; "token"; "secret"; "prod"; "production";
   "deploy"; "payment"; "wallet"].

Definition default_safe_lane_verify_deny_markers : list string :=
  ["tool_failure"; "provider_error"; "no_kernel_context"; "tool_not_found"].

(** [impl Default for ConversationConfig] *)
Definition ConversationConfig_default : ConversationConfig := {|
  cv_context_engine := None;
  cv_turn_middlewares := [];
  cv_compact_enabled := true;
  cv_compact_min_messages := None;
  cv_compact_trigger_estimated_tokens := None;
  cv_compact_fail_open := true;
  cv_turn_loop := ConversationTurnLoopConfig_default;
  cv_hybrid_lane_enabled := true;
  cv_safe_lane_plan_execution_enabled := false;
  cv_fast_lane_max_tool_steps_per_turn := 1;
  cv_fast_lane_parallel_tool_execution_enabled := false;
  cv_fast_lane_parallel_tool_execution_max_in_flight := 4;
  cv_safe_lane_max_tool_steps_per_turn := 1;
  cv_safe_lane_node_max_attempts := 2;
  cv_safe_lane_plan_max_wall_time_ms := 30000;
  cv_safe_lane_verify_output_non_empty := true;
  cv_safe_lane_verify_min_output_chars := 8;
  cv_safe_lane_verify_require_status_prefix := true;
  cv_safe_lane_verify_adaptive_anchor_escalation := true;
  cv_safe_lane_verify_anchor_escalation_after_failures := 2;
  cv_safe_lane_verify_anchor_escalation_min_matches := 1;
  cv_safe_lane_emit_runtime_events := true;
  cv_safe_lane_event_sample_every := 1;
  cv_safe_lane_event_adaptive_sampling := true;
  cv_safe_lane_event_adaptive_failure_threshold := 1;
  cv_safe_lane_verify_deny_markers := default_safe_lane_verify_deny_markers;
  cv_safe_lane_replan_max_rounds := 1;
  cv_safe_lane_replan_max_node_attempts := 4;
  cv_safe_lane_session_governor_enabled := true;
  cv_safe_lane_session_governor_window_turns := 96;
  cv_safe_lane_session_governor_failed_final_status_threshold := 3;
  cv_safe_lane_session_governor_backpressure_failure_threshold := 1;
  cv_safe_lane_session_governor_trend_enabled := true;
  cv_safe_lane_session_governor_trend_min_samples := 4;
  cv_safe_lane_session_governor_trend_ewma_alpha := f64_lit 35 100;
  cv_safe_lane_session_governor_trend_failure_ewma_threshold := f64_lit 60 100;
  cv_safe_lane_session_governor_trend_backpressure_ewma_threshold := f64_lit 20 100;
  cv_safe_lane_session_governor_recovery_success_streak := 3;
  cv_safe_lane_session_governor_recovery_max_failure_ewma := f64_lit 25 100;
  cv_safe_lane_session_governor_recovery_max_backpressure_ewma := f64_lit 10 100;
  cv_safe_lane_session_governor_force_no_replan := true;
  cv_safe_lane_session_governor_force_node_max_attempts := 1;
  cv_safe_lane_backpressure_guard_enabled := true;
  cv_safe_lane_backpressure_max_total_attempts := 32;
  cv_safe_lane_backpressure_max_replans := 8;
  cv_safe_lane_risk_threshold := 4;
  cv_safe_lane_complexity_threshold := 6;
  cv_fast_lane_max_input_chars := 400;
  cv_tool_result_payload_summary_limit_chars := 2048;
  cv_safe_lane_health_truncation_warn_threshold := f64_lit 30 100;
  cv_safe_lane_health_truncation_critical_threshold := f64_lit 60 100;
  cv_safe_lane_health_verify_failure_warn_threshold := f64_lit 40 100;
  cv_safe_lane_health_replan_warn_threshold := f64_lit 50 100;
  cv_high_risk_keywords := default_high_risk_keywords;
  cv_agentic_tool_followup := false |}.

Definition clamp_unit_interval (value fallback : f64) : f64 :=
  if f64_is_finite value then f64_clamp value f64_0 f64_1 else fallback.

Definition clamp_open_unit_interval (value fallback : f64) : f64 :=
  f64_max (clamp_unit_interval value fallback) (f64_lit 1 100).

(** ** Accessors *)

Definition fast_lane_max_tool_steps (c : ConversationConfig) : Z :=
  Z.max (cv_fast_lane_max_tool_steps_per_turn c) 1.
Definition fast_lane_parallel_tool_execution_max_in_flight (c : ConversationConfig) : Z :=
  Z.max (cv_fast_lane_parallel_tool_execution_max_in_flight c) 1.
Definition safe_lane_max_tool_steps (c : ConversationConfig) : Z :=
  Z.max (cv_safe_lane_max_tool_steps_per_turn c) 1.
Definition safe_lane_event_sample_every (c : ConversationConfig) : Z :=
  Z.max (cv_safe_lane_event_sample_every c) 1.
Definition safe_lane_event_adaptive_failure_threshold (c : ConversationConfig) : Z :=
  Z.max (cv_safe_lane_event_adaptive_failure_threshold c) 1.
Definition safe_lane_verify_anchor_escalation_after_failures (c : ConversationConfig) : Z :=
  Z.max (cv_safe_lane_verify_anchor_escalation_after_failures c) 1.
Definition safe_lane_verify_anchor_escalation_min_matches (c : ConversationConfig) : Z :=
  Z.max (cv_safe_lane_verify_anchor_escalation_min_matches c) 1.
Definition safe_lane_backpressure_max_total_attempts (c : ConversationConfig) : Z :=
  Z.max (cv_safe_lane_backpressure_max_total_attempts c) 1.
Definition safe_lane_backpressure_max_replans (c : ConversationConfig) : Z :=
  Z.max (cv_safe_lane_backpressure_max_replans c) 1.
Definition safe_lane_session_governor_window_turns (c : ConversationConfig) : Z :=
  Z.max (cv_safe_lane_session_governor_window_turns c) 1.
Definition safe_lane_session_governor_failed_final_status_threshold (c : ConversationConfig) : Z :=
  Z.max (cv_safe_lane_session_governor_failed_final_status_threshold c) 1.
Definition safe_lane_session_governor_backpressure_failure_threshold (c : ConversationConfig) : Z :=
  Z.max (cv_safe_lane_session_governor_backpressure_failure_threshold c) 1.
Definition safe_lane_session_governor_trend_min_samples (c : ConversationConfig) : Z :=
  Z.max (cv_safe_lane_session_governor_trend_min_samples c) 1.
Definition safe_lane_session_governor_trend_ewma_alpha (c : ConversationConfig) : f64 :=
  clamp_open_unit_interval (cv_safe_lane_session_governor_trend_ewma_alpha c) (f64_lit 35 100).
Definition safe_lane_session_governor_trend_failure_ewma_threshold (c : ConversationConfig) : f64 :=
  clamp_unit_interval (cv_safe_lane_session_governor_trend_failure_ewma_threshold c) (f64_lit 60 100).
Definition safe_lane_session_governor_trend_backpressure_ewma_threshold (c : ConversationConfig) : f64 :=
  clamp_unit_interval (cv_safe_lane_session_governor_trend_backpressure_ewma_threshold c) (f64_lit 20 100).
Definition safe_lane_session_governor_recovery_success_streak (c : ConversationConfig) : Z :=
  Z.max (cv_safe_lane_session_governor_recovery_success_streak c) 1.
Definition safe_lane_session_governor_recovery_max_failure_ewma (c : ConversationConfig) : f64 :=
  clamp_unit_interval (cv_safe_lane_session_governor_recovery_max_failure_ewma c) (f64_lit 25 100).
Definition safe_lane_session_governor_recovery_max_backpressure_ewma (c : ConversationConfig) : f64 :=
  clamp_unit_interval (cv_safe_lane_session_governor_recovery_max_backpressure_ewma c) (f64_lit 10 100).
Definition safe_lane_session_governor_force_node_max_attempts (c : ConversationConfig) : Z :=
  Z.max (cv_safe_lane_session_governor_force_node_max_attempts c) 1.
Definition safe_lane_health_truncation_warn_threshold (c : ConversationConfig) : f64 :=
  clamp_unit_interval (cv_safe_lane_health_truncation_warn_threshold c) (f64_lit 30 100).
Definition safe_lane_health_verify_failure_warn_threshold (c : ConversationConfig) : f64 :=
  clamp_unit_interval (cv_safe_lane_health_verify_failure_warn_threshold c) (f64_lit 40 100).
Definition safe_lane_health_replan_warn_threshold (c : ConversationConfig) : f64 :=
  clamp_unit_interval (cv_safe_lane_health_replan_warn_threshold c) (f64_lit 50 100).

Definition tool_result_payload_summary_limit_chars (c : ConversationConfig) : Z :=
  Z.min (Z.max (cv_tool_result_payload_summary_limit_chars c) 256) 64000.

Definition safe_lane_health_truncation_critical_threshold (c : ConversationConfig) : f64 :=
  f64_max (clamp_unit_interval (cv_safe_lane_health_truncation_critical_threshold c) (f64_lit 60 100))
    (safe_lane_health_truncation_warn_threshold c).

Definition compaction_fail_open (c : ConversationConfig) : bool := cv_compact_fail_open c.

(** [ConversationConfig::context_engine_id] *)
Definition context_engine_id (c : ConversationConfig) : option string :=
  value ← cv_context_engine c;
  let value := trim value in
  if is_empty value then None else Some (to_ascii_lowercase value).

(** The body of the loop over [turn_middlewares]: [seen] is the set of names
    taken so far. *)
Definition middleware_step (st : gset string * list string) (raw : string) : gset string * list string :=
  let '(seen, ids) := st in
  let normalized := to_ascii_lowercase (trim raw) in
  if is_empty normalized || bool_decide (normalized ∈ seen) then (seen, ids)
  else ({[normalized]} ∪ seen, ids ++ [normalized]).

Definition turn_middleware_ids (c : ConversationConfig) : list string :=
  (foldl middleware_step (∅, []) (cv_turn_middlewares c)).2.

Definition compact_min_messages (c : ConversationConfig) : option Z :=
  v ← cv_compact_min_messages c; if (0 <? v)%Z then Some v else None.

Definition compact_trigger_estimated_tokens (c : ConversationConfig) : option Z :=
  v ← cv_compact_trigger_estimated_tokens c; if (0 <? v)%Z then Some v else None.

Definition should_compact_with_estimate (c : ConversationConfig) (message_count : Z)
    (estimated_tokens : option Z) : bool :=
  if negb (cv_compact_enabled c) then false
  else
    let min_messages := compact_min_messages c in
    let trigger_tokens := compact_trigger_estimated_tokens c in
    match min_messages, trigger_tokens with
    | None, None => true
    | _, _ =>
        let message_threshold_hit :=
          match min_messages with Some min => (min <=? message_count)%Z | None => false end in
        let token_threshold_hit :=
          match trigger_tokens, estimated_tokens with
          | Some threshold, Some tokens => (threshold <=? tokens)%Z
          | _, _ => false
          end in
        message_threshold_hit || token_threshold_hit
    end.

Definition should_compact (c : ConversationConfig) (message_count : Z) : bool :=
  should_compact_with_estimate c message_count None.

Definition normalized_high_risk_keywords (c : ConversationConfig) : list string :=
  filter (λ k, k ≠ "") ((λ k, to_ascii_lowercase (trim k)) <$> cv_high_risk_keywords c).

(** ** Middleware names are normalized, unique and in order of first mention *)

Lemma middleware_fold raws seen ids :
  (∀ x, x ∈ seen ↔ x ∈ ids) → NoDup ids →
  let '(seen', ids') := foldl middleware_step (seen, ids) raws in
  (∀ x, x ∈ seen' ↔ x ∈ ids') ∧ NoDup ids' ∧
  ∀ x, x ∈ ids' ↔ x ∈ ids ∨ x ≠ "" ∧ ∃ raw, raw ∈ raws ∧ x = to_ascii_lowercase (trim raw).
Proof.
  revert seen ids. induction raws as [|raw raws IH]; intros seen ids Hseen Hnd; simpl.
  { split; [done|]. split; [done|]. intros x. split; [by left|].
    intros [?|(_ & raw & ?%not_elem_of_nil & _)]; done. }
  destruct (is_empty _) eqn:He; simpl.
  { specialize (IH seen ids Hseen Hnd). destruct (foldl _ _ _) as [seen' ids'].
    destruct IH as (? & ? & Hx). split; [done|]. split; [done|]. intros x. rewrite Hx.
    setoid_rewrite elem_of_cons. destruct (to_ascii_lowercase (trim raw)) eqn:Hl; [|done]. naive_solver. }
  assert (to_ascii_lowercase (trim raw) ≠ "") as Hne by (by destruct (to_ascii_lowercase (trim raw))).
  case_bool_decide as Hin.
  - specialize (IH seen ids Hseen Hnd). destruct (foldl _ _ _) as [seen' ids'].
    destruct IH as (? & ? & Hx). split; [done|]. split; [done|]. intros x. rewrite Hx.
    setoid_rewrite elem_of_cons. apply Hseen in Hin. naive_solver.
  - destruct (foldl _ _ _) as [seen' ids'] eqn:Hf.
    specialize (IH ({[to_ascii_lowercase (trim raw)]} ∪ seen) (ids ++ [to_ascii_lowercase (trim raw)])).
    rewrite Hf in IH. destruct IH as (? & ? & Hx).
    + intros x. rewrite elem_of_app, list_elem_of_singleton, elem_of_union, elem_of_singleton, Hseen.
      naive_solver.
    + apply NoDup_app. split; [done|]. split; [|apply NoDup_singleton].
      intros x Hxi ->%list_elem_of_singleton. by apply Hin, Hseen.
    + split; [done|]. split; [done|]. intros x. rewrite Hx, elem_of_app, list_elem_of_singleton.
      setoid_rewrite elem_of_cons. naive_solver.
Qed.

Lemma turn_middleware_ids_spec c :
  NoDup (turn_middleware_ids c) ∧
  ∀ x, x ∈ turn_middleware_ids c ↔
    x ≠ "" ∧ ∃ raw, raw ∈ cv_turn_middlewares c ∧ x = to_ascii_lowercase (trim raw).
Proof.
  pose proof (middleware_fold (cv_turn_middlewares c) ∅ []) as H. unfold turn_middleware_ids.
  destruct (foldl _ _ _) as [seen ids]. destruct H as (_ & Hnd & Hx); [set_solver|constructor|].
  split; [done|]. intros x. rewrite Hx. set_solver.
Qed.
