(* ===== verification/LaneArbiter.v ===== *)
(** * LaneArbiter: choosing the fast or the safe lane
    (app/src/conversation/lane_arbiter.rs)

    A request that looks risky, complex or long goes through the safe lane.
    Short alphanumeric keywords must match as whole words; the second half
    shows that the search with non-overlapping matches finds exactly the whole
    words. *)
From S2P Require Import Prelude RustStr.
From Stdlib Require Import Ascii.

Inductive ExecutionLane := Lane_Fast | Lane_Safe.

Record LaneDecision := mkLaneDecision {
  ld_lane : ExecutionLane;
  ld_risk_score : Z;
  ld_complexity_score : Z;
  ld_reasons : list string;
}.

Record LaneArbiterPolicy := mkLaneArbiterPolicy {
  la_safe_lane_risk_threshold : Z;
  la_safe_lane_complexity_threshold : Z;
  la_fast_lane_max_input_chars : Z;
  la_high_risk_keywords : gset string;
}.

(** [impl Default for LaneArbiterPolicy] *)
Definition LaneArbiterPolicy_default : LaneArbiterPolicy :=
  mkLaneArbiterPolicy 4 6 400
    (list_to_set ["rm -rf"; "drop table"; "delete"; "credential"; "token"; "secret"; "prod";
                  "production"; "deploy"; "payment"; "wallet"]).

(** [is_word_boundary]: a character is ASCII alphanumeric exactly when the
    byte of it that touches the match is. *)
Definition is_word_boundary (ch : option ascii) : bool :=
  match ch with None => true | Some value => negb (is_ascii_alphanumeric value) end.

Definition contains_with_word_boundaries (haystack needle : string) : bool :=
  if is_empty needle then false
  else any_match (λ left right, is_word_boundary left && is_word_boundary right) needle 0 None haystack.

Definition should_use_word_boundary_match (keyword : string) : bool :=
  (String.length keyword <=? 4) && all_bytes is_ascii_alphanumeric keyword.

Definition keyword_matches_risk_signal (normalized_input keyword : string) : bool :=
  if should_use_word_boundary_match keyword
  then contains_with_word_boundaries normalized_input keyword
  else contains keyword normalized_input.

(** [LaneArbiterPolicy::risk_score] *)
Definition risk_score (p : LaneArbiterPolicy) (user_input : string) : Z :=
  let normalized := to_ascii_lowercase user_input in
  wrap32 (sat_mul (len (filter (λ keyword, keyword_matches_risk_signal normalized keyword = true)
                          (btree_elements (la_high_risk_keywords p)))) 2).

Definition lane_connectors : list string :=
  [" and "; " then "; " after "; " before "; " meanwhile "; "同时"; "然后"; "接着"].

(** The occurrences of a character given by its encoding. *)
Fixpoint count_char (c s : string) : nat :=
  match s with
  | "" => 0
  | String _ s' => (if starts_with c s then 1 else 0) + count_char c s'
  end.

(** [LaneArbiterPolicy::complexity_score] *)
Definition complexity_score (user_input : string) : Z :=
  let normalized := to_ascii_lowercase user_input in
  let tokens := wrap32 (len (split_whitespace normalized)) in
  let connectors := wrap32 (len (filter (λ c, contains c normalized = true) lane_connectors)) in
  let punctuation := wrap32 (Z.of_nat (list_sum ((λ c, count_char c user_input)
                       <$> [","; ";"; ":"; "，"; "；"; "："]))) in
  let token_component :=
    if (50 <? tokens)%Z then 6%Z else if (30 <? tokens)%Z then 4%Z
    else if (15 <? tokens)%Z then 2%Z else 0%Z in
  (token_component + Z.min u32_max (connectors * 2) + Z.min punctuation 3)%Z.

(** [LaneArbiterPolicy::decide] *)
Definition decide_lane (p : LaneArbiterPolicy) (user_input : string) : LaneDecision :=
  let risk := risk_score p user_input in
  let complexity := complexity_score user_input in
  let chars := Z.of_nat (char_count user_input) in
  let reasons :=
    (if (la_safe_lane_risk_threshold p <=? risk)%Z then
       ["risk_score_exceeded score=" +:+ display risk +:+ " threshold="
        +:+ display (la_safe_lane_risk_threshold p)] else [])
    ++ (if (la_safe_lane_complexity_threshold p <=? complexity)%Z then
       ["complexity_score_exceeded score=" +:+ display complexity +:+ " threshold="
        +:+ display (la_safe_lane_complexity_threshold p)] else [])
    ++ (if (la_fast_lane_max_input_chars p <? chars)%Z then
       ["input_length_exceeded chars=" +:+ display chars +:+ " threshold="
        +:+ display (la_fast_lane_max_input_chars p)] else []) in
  mkLaneDecision (if bool_decide (reasons = []) then Lane_Fast else Lane_Safe) risk complexity reasons.

(** ** Whole words *)

(** The byte before a position: the last of what precedes it. *)
Fixpoint last_byte (prev : option ascii) (s : string) : option ascii :=
  match s with "" => prev | String a s => last_byte (Some a) s end.

(** [word] occurs in [s], preceded by [prev], with no alphanumeric neighbor. *)
Definition whole_word (word : string) (prev : option ascii) (s : string) : Prop :=
  ∃ pre post, s = pre +:+ word +:+ post ∧ is_word_boundary (last_byte prev pre) = true
    ∧ is_word_boundary (head_byte post) = true.

Lemma whole_word_cons word prev a s :
  whole_word word prev (String a s) ↔
    (∃ post, String a s = word +:+ post ∧ is_word_boundary prev = true
       ∧ is_word_boundary (head_byte post) = true) ∨ whole_word word (Some a) s.
Proof.
  unfold whole_word. split.
  - intros ([|b pre] & post & Heq & H1 & H2); [left; exists post; by rewrite app_nil_l_str in Heq|].
    right. rewrite app_cons_str in Heq. injection Heq as <- ->. by exists pre, post.
  - intros [(post & Heq & H1 & H2)|(pre & post & -> & H1 & H2)]; [by exists "", post|].
    by exists (String a pre), post.
Qed.

Section whole_words.
  Context (word : string) (Hword : word ≠ "") (Halnum : all_bytes is_ascii_alphanumeric word = true).

(** Skipping the rest of a match loses nothing: inside it every position has
    an alphanumeric neighbor on its left. *)
Lemma any_match_whole_word s skip prev u t :
  s = u +:+ t → String.length u = skip → all_bytes is_ascii_alphanumeric u = true →
  (skip ≠ 0 → is_word_boundary prev = false) →
  any_match (λ l r, is_word_boundary l && is_word_boundary r) word skip prev s = true ↔
  whole_word word prev s.
Proof.
  revert skip prev u t. induction s as [|a s IH]; intros skip prev u t Hs Hu Hal Hprev.
  { split; [done|]. intros ([|] & post & Heq & _); [|done]. by destruct word. }
  rewrite whole_word_cons. cbn [any_match]. destruct skip as [|skip].
  - destruct (strip_prefix word (String a s)) as [rest|] eqn:Hp.
    + apply strip_prefix_Some in Hp as Heq. destruct word as [|b w] eqn:Hw; [done|].
      rewrite app_cons_str in Heq. injection Heq as <- ->.
      cbn [all_bytes] in Halnum. apply andb_true_iff in Halnum as [Ha Hw'].
      rewrite orb_true_iff, (IH _ (Some a) w rest); [|done|simpl; lia|done|by simpl; rewrite Ha].
      apply or_iff_compat_r. rewrite andb_true_iff. split.
      * intros [? ?]. by exists rest.
      * intros (post & Heq & ? & ?). rewrite app_cons_str in Heq. injection Heq as Heq.
        apply app_inj_len_str in Heq as [_ ->]; done.
    + rewrite (IH 0 (Some a) "" s) by done. split; [by right|]. intros [(post & Heq & _)|?]; [|done].
      assert (strip_prefix word (String a s) = Some post) by (by apply strip_prefix_Some). congruence.
  - destruct u as [|b u]; [done|]. rewrite app_cons_str in Hs. injection Hs as <- Hs.
    simpl in Hu. cbn [all_bytes] in Hal. apply andb_true_iff in Hal as [Ha Hal].
    rewrite (IH skip (Some a) u t); [|done|lia|done|by simpl; rewrite Ha].
    split; [by right|]. intros [(post & _ & Hb & _)|?]; [|done]. rewrite Hprev in Hb; done.
Qed.
End whole_words.

(** What it means for a request to mention a keyword. *)
Definition mentions (input keyword : string) : Prop :=
  if should_use_word_boundary_match keyword
  then keyword ≠ "" ∧ whole_word keyword None input
  else ∃ pre post, input = pre +:+ keyword +:+ post.

Lemma keyword_matches_iff input keyword :
  keyword_matches_risk_signal input keyword = true ↔ mentions input keyword.
Proof.
  unfold keyword_matches_risk_signal, mentions. destruct (should_use_word_boundary_match keyword) eqn:Hs.
  - unfold contains_with_word_boundaries. apply andb_true_iff in Hs as [_ Hal].
    destruct keyword as [|a k] eqn:Hk; [split; [done|by intros [? _]]|]. cbn [is_empty].
    rewrite (any_match_whole_word (String a k) ltac:(done) Hal input 0 None "" input) by done. naive_solver.
  - unfold contains. destruct (find_str keyword input) as [n|] eqn:Hf.
    + apply find_str_Some in Hf as (pre & post & -> & _). split; [|done]. intros _. by exists pre, post.
    + rewrite find_str_None in Hf. split; [done|]. intros (pre & post & Heq). by destruct (Hf pre post).
Qed.

(** The keywords of the policy that a request mentions. *)
Definition mentioned (p : LaneArbiterPolicy) (input : string) (k : string) : Prop :=
  k ∈ la_high_risk_keywords p ∧ mentions (to_ascii_lowercase input) k.

(** The lane decision is exact: a request takes the safe lane if and only if
    two points for every high-risk keyword it mentions reach the risk threshold,
    its complexity score reaches the other threshold, or it is too long; and a
    keyword counts exactly when it occurs in the lower-cased request, for short
    alphanumeric keywords as a whole word. [ks] is any list of those keywords
    without repetition. *)
Theorem lane_decision_exact p input ks :
  (Z.of_nat (size (la_high_risk_keywords p)) < 2 ^ 31)%Z →
  NoDup ks → (∀ k, k ∈ ks ↔ mentioned p input k) →
  ld_lane (decide_lane p input) = Lane_Safe ↔
    (la_safe_lane_risk_threshold p ≤ 2 * len ks)%Z
    ∨ (la_safe_lane_complexity_threshold p ≤ complexity_score input)%Z
    ∨ (la_fast_lane_max_input_chars p < Z.of_nat (char_count input))%Z.
Proof.
  intros Hsz Hnd Hks.
  assert (risk_score p input = (2 * len ks)%Z) as Hrisk.
  { unfold risk_score.
    set (l := filter _ _). assert (l ≡ₚ ks) as Hp.
    { apply NoDup_Permutation; [|done|].
      - apply NoDup_filter. unfold btree_elements. rewrite merge_sort_Permutation. apply NoDup_elements.
      - intros k. unfold l. rewrite list_elem_of_filter, keyword_matches_iff, elem_of_btree_elements, Hks.
        unfold mentioned. naive_solver. }
    assert (len l ≤ Z.of_nat (size (la_high_risk_keywords p)))%Z as Hle.
    { unfold len, size, set_size, l. unfold btree_elements. rewrite merge_sort_Permutation. simpl.
      match goal with |- context [filter ?P (elements ?X)] => pose proof (length_filter P (elements X)) end.
      lia. }
    rewrite Hp in *. pose proof (len_nonneg ks).
    unfold wrap32, sat_mul, u64_max. rewrite Z.mod_small; lia. }
  unfold decide_lane. cbv zeta. cbn [ld_lane]. rewrite Hrisk.
  destruct (Z.leb_spec (la_safe_lane_risk_threshold p) (2 * len ks)) as [H1|H1];
  destruct (Z.leb_spec (la_safe_lane_complexity_threshold p) (complexity_score input)) as [H2|H2];
  destruct (Z.ltb_spec (la_fast_lane_max_input_chars p) (Z.of_nat (char_count input))) as [H3|H3];
  simpl; try (split; [intros _; lia|done]). split; [done|lia].
Qed.

Module LaneArbiterDemo.

Definition request : string := "deploy the patch to prod after smoke tests".

(** Product is not prod. *)
Example product_is_not_prod :
  risk_score LaneArbiterPolicy_default "review product launch notes and summarize user feedback" = 0%Z.
Proof. vm_compute. reflexivity. Qed.

Lemma mentioned_filter p input k :
  mentioned p input k ↔ k ∈ filter (λ k, keyword_matches_risk_signal (to_ascii_lowercase input) k = true)
    (elements (la_high_risk_keywords p)).
Proof. unfold mentioned. rewrite list_elem_of_filter, keyword_matches_iff, elem_of_elements. naive_solver. Qed.

Lemma lane_witness : ld_lane (decide_lane LaneArbiterPolicy_default request) = Lane_Safe.
Proof.
  set (ks := filter (λ k, keyword_matches_risk_signal (to_ascii_lowercase request) k = true)
    (elements (la_high_risk_keywords LaneArbiterPolicy_default))).
  apply (proj2 (lane_decision_exact LaneArbiterPolicy_default request ks
    ltac:(vm_compute; reflexivity) ltac:(apply NoDup_filter, NoDup_elements)
    ltac:(intros k; symmetry; apply mentioned_filter))).
  left. vm_compute. discriminate.
Defined.

End LaneArbiterDemo.
