(* ===== verification/PlanVerifier.v ===== *)
(** * PlanVerifier: checking the output of a plan
    (app/src/conversation/plan_verifier.rs) *)
From S2P Require Import Prelude RustStr.
From Stdlib Require Import Ascii.

Record PlanVerificationPolicy := mkPlanVerificationPolicy {
  vp_require_non_empty : bool;
  vp_min_output_chars : Z;
  vp_require_status_prefix : bool;
  vp_deny_markers : gset string;
}.

Definition default_deny_markers : list string :=
  ["tool_failure"; "provider_error"; "no_kernel_context"; "tool_not_found"].

(** [impl Default for PlanVerificationPolicy] *)
Definition PlanVerificationPolicy_default : PlanVerificationPolicy :=
  mkPlanVerificationPolicy true 8 true (list_to_set default_deny_markers).

Record PlanVerificationContext := mkPlanVerificationContext {
  vc_expected_result_lines : Z;
  vc_semantic_anchors : gset string;
  vc_min_anchor_matches : Z;
}.

(** [impl Default for PlanVerificationContext] *)
Definition PlanVerificationContext_default : PlanVerificationContext :=
  mkPlanVerificationContext 1 ∅ 0.

Inductive PlanVerificationFailureCode :=
| VF_EmptyOutput | VF_OutputTooShort | VF_DenyMarkerDetected | VF_InsufficientResultLines
| VF_MissingStatusPrefix | VF_FailureStatusDetected | VF_MissingSemanticAnchors.

#[export] Instance PlanVerificationFailureCode_eq_dec : EqDecision PlanVerificationFailureCode.
Proof. solve_decision. Defined.

Record PlanVerificationReport := mkPlanVerificationReport {
  vr_passed : bool;
  vr_failure_reasons : list string;
  vr_failure_codes : list PlanVerificationFailureCode;
  vr_observed_statuses : list string;
  vr_matched_anchors : list string;
}.

Definition parse_status_prefix (line : string) : option string :=
  remainder ← strip_prefix "[" line;
  bracket_index ← find_str "]" remainder;
  let status := String.substring 0 bracket_index remainder in
  if is_empty (trim status) then None else Some (trim status).

Definition looks_like_failure_status (status : string) : bool :=
  bool_decide (status ∈ ["error"; "denied"; "fail"; "failed"; "forbidden"; "timeout"]).

(** A failure is pushed to both vectors at once. *)
Abbreviation Failure := (PlanVerificationFailureCode * string)%type.

(** [for marker in &policy.deny_markers] *)
Definition marker_failures (normalized : string) (markers : gset string) : list Failure :=
  omap (λ marker,
    if is_empty marker then None
    else if contains marker normalized
    then Some (VF_DenyMarkerDetected, "deny_marker_detected marker=" +:+ marker)
    else None) (btree_elements markers).

(** [for (index, line) in lines.iter().enumerate()]: the failures and the
    statuses seen; a missing prefix that is required ends the loop. *)
Fixpoint scan_lines (require_status_prefix : bool) (index : Z) (ls : list string) :
    list Failure * list string :=
  match ls with
  | [] => ([], [])
  | line :: ls =>
      match parse_status_prefix line with
      | Some status =>
          let normalized_status := to_ascii_lowercase status in
          let '(fails, statuses) := scan_lines require_status_prefix (index + 1) ls in
          ((if looks_like_failure_status normalized_status
            then [(VF_FailureStatusDetected, "failure_status_detected line_index="
                    +:+ display (index + 1)%Z +:+ " status=" +:+ normalized_status)]
            else []) ++ fails,
           normalized_status :: statuses)
      | None =>
          if require_status_prefix then
            ([(VF_MissingStatusPrefix, "missing_status_prefix line_index=" +:+ display (index + 1)%Z
                +:+ " content=" +:+ line)], [])
          else scan_lines require_status_prefix (index + 1) ls
      end
  end.

(** The result lines: trimmed, blank ones dropped. *)
Definition result_lines (trimmed : string) : list string :=
  filter (λ l, l ≠ "") (trim <$> lines trimmed).

(** The anchors worth looking for. *)
Definition usable_anchors (anchors : gset string) : gset string :=
  list_to_set (filter (λ a, 3 ≤ String.length a)
    ((λ a, to_ascii_lowercase (trim a)) <$> elements anchors)).

Definition verify_output (output : string) (context : PlanVerificationContext)
    (policy : PlanVerificationPolicy) : PlanVerificationReport :=
  let trimmed := trim output in
  if is_empty trimmed then
    let fails := if vp_require_non_empty policy then [(VF_EmptyOutput, "empty_output")] else [] in
    mkPlanVerificationReport (bool_decide (fails.*2 = [])) fails.*2 fails.*1 [] []
  else
  let char_count := Z.of_nat (char_count trimmed) in
  let short :=
    if (char_count <? vp_min_output_chars policy)%Z then
      [(VF_OutputTooShort, "output_too_short chars=" +:+ display char_count +:+ " min="
         +:+ display (vp_min_output_chars policy))]
    else [] in
  let normalized := to_ascii_lowercase trimmed in
  let denied := marker_failures normalized (vp_deny_markers policy) in
  let ls := result_lines trimmed in
  let expected_result_lines := Z.max (vc_expected_result_lines context) 1 in
  let missing :=
    if (len ls <? expected_result_lines)%Z then
      [(VF_InsufficientResultLines, "insufficient_result_lines actual=" +:+ display (len ls)
         +:+ " expected>=" +:+ display expected_result_lines)]
    else [] in
  let '(line_fails, observed_statuses) := scan_lines (vp_require_status_prefix policy) 0 ls in
  let semantic_anchors := btree_elements (usable_anchors (vc_semantic_anchors context)) in
  let matched_anchors := filter (λ a, contains a normalized = true) semantic_anchors in
  let anchor_fails :=
    if negb (bool_decide (semantic_anchors = [])) && (0 <? vc_min_anchor_matches context)%Z then
      let required_matches :=
        Z.max (Z.min (vc_min_anchor_matches context) (len semantic_anchors)) 1 in
      if (len matched_anchors <? required_matches)%Z then
        [(VF_MissingSemanticAnchors, "semantic_anchor_miss matched=" +:+ display (len matched_anchors)
           +:+ " required>=" +:+ display required_matches)]
      else []
    else [] in
  let fails := short ++ denied ++ missing ++ line_fails ++ anchor_fails in
  mkPlanVerificationReport (bool_decide (fails.*2 = [])) fails.*2 fails.*1 observed_statuses
    matched_anchors.

(** ** What a passing report means *)

(** A result line that raises no objection. *)
Definition line_acceptable (require_status_prefix : bool) (line : string) : Prop :=
  match parse_status_prefix line with
  | Some status => looks_like_failure_status (to_ascii_lowercase status) = false
  | None => require_status_prefix = false
  end.

Lemma scan_lines_clean req index ls :
  (scan_lines req index ls).1 = [] ↔ Forall (line_acceptable req) ls.
Proof.
  revert index. induction ls as [|line ls IH]; intros index; [done|].
  cbn [scan_lines]. rewrite Forall_cons. unfold line_acceptable at 1.
  specialize (IH (index + 1)%Z). destruct (parse_status_prefix line) as [status|].
  - destruct (scan_lines req (index + 1) ls) as [fails statuses]. simpl in *.
    destruct (looks_like_failure_status _); naive_solver.
  - destruct req; [naive_solver|]. rewrite IH. naive_solver.
Qed.

Lemma marker_failures_clean normalized markers :
  marker_failures normalized markers = [] ↔
  ∀ m, m ∈ markers → m ≠ "" → contains m normalized = false.
Proof.
  unfold marker_failures. setoid_rewrite <-(elem_of_btree_elements markers).
  induction (btree_elements markers) as [|m ms IH]; [csimpl; set_solver|].
  csimpl. setoid_rewrite elem_of_cons. destruct m as [|a m]; cbn [is_empty].
  - rewrite IH. naive_solver.
  - destruct (contains (String a m) normalized) eqn:Hc; [split; [done|]|rewrite IH; naive_solver].
    intros H. specialize (H (String a m)). rewrite Hc in H. naive_solver.
Qed.

(** The specification of an acceptable output. *)
Record output_acceptable (output : string) (context : PlanVerificationContext)
    (policy : PlanVerificationPolicy) : Prop := {
  oa_chars : (vp_min_output_chars policy ≤ Z.of_nat (char_count (trim output)))%Z;
  oa_markers : ∀ m, m ∈ vp_deny_markers policy → m ≠ "" →
    contains m (to_ascii_lowercase (trim output)) = false;
  oa_count : (Z.max (vc_expected_result_lines context) 1 ≤ len (result_lines (trim output)))%Z;
  oa_lines : Forall (line_acceptable (vp_require_status_prefix policy)) (result_lines (trim output));
  oa_anchors : usable_anchors (vc_semantic_anchors context) ≠ ∅ →
    (0 < vc_min_anchor_matches context)%Z →
    (Z.min (vc_min_anchor_matches context) (Z.of_nat (size (usable_anchors (vc_semantic_anchors context))))
     ≤ len (filter (λ a, contains a (to_ascii_lowercase (trim output)) = true)
              (btree_elements (usable_anchors (vc_semantic_anchors context)))))%Z;
}.

Lemma fmap_nil_iff {A B} (f : A → B) l : f <$> l = [] ↔ l = [].
Proof. by destruct l. Qed.

Lemma singleton_if_nil {A} (b : bool) (x : A) : (if b then [x] else []) = [] ↔ b = false.
Proof. by destruct b. Qed.

(** Verification accepts exactly the acceptable outputs: a blank output
    passes exactly when none is required; any other passes exactly when it is
    long enough, contains no deny marker, has the expected number of result
    lines, no line reports a failure or lacks a required status, and enough
    anchors occur. The loop over the lines stops early only when it has already
    failed. *)
Theorem verify_output_exact output context policy :
  vr_passed (verify_output output context policy) = true ↔
  if is_empty (trim output) then vp_require_non_empty policy = false
  else output_acceptable output context policy.
Proof.
  unfold verify_output. destruct (is_empty (trim output)).
  { cbn [vr_passed]. rewrite bool_decide_eq_true. by destruct (vp_require_non_empty policy). }
  destruct (scan_lines _ _ _) as [line_fails statuses] eqn:Hscan. cbn [vr_passed].
  rewrite bool_decide_eq_true, fmap_nil_iff.
  rewrite !app_nil, singleton_if_nil, Z.ltb_ge, marker_failures_clean, singleton_if_nil, Z.ltb_ge.
  pose proof (scan_lines_clean (vp_require_status_prefix policy) 0 (result_lines (trim output))) as Hl.
  rewrite Hscan in Hl. simpl in Hl. rewrite Hl.
  set (anchors := usable_anchors _). set (matched := filter _ _).
  assert (((if negb (bool_decide (btree_elements anchors = [])) && (0 <? vc_min_anchor_matches context)%Z
     then if (len matched <? Z.max (Z.min (vc_min_anchor_matches context) (len (btree_elements anchors))) 1)%Z
          then [(VF_MissingSemanticAnchors, "semantic_anchor_miss matched=" +:+ display (len matched)
             +:+ " required>=" +:+ display (Z.max (Z.min (vc_min_anchor_matches context)
                                                    (len (btree_elements anchors))) 1))]
          else [] else []) = [])
    ↔ (anchors ≠ ∅ → (0 < vc_min_anchor_matches context)%Z →
        (Z.min (vc_min_anchor_matches context) (Z.of_nat (size anchors)) ≤ len matched)%Z)) as ->.
  { rewrite len_btree_elements, <-btree_elements_nil.
    case_bool_decide as Ha; simpl; [naive_solver|].
    assert (0 < Z.of_nat (size anchors))%Z as Hpos.
    { rewrite <-len_btree_elements. destruct (btree_elements anchors); [done|].
      rewrite len_cons. pose proof (len_nonneg l). lia. }
    destruct (Z.ltb_spec 0 (vc_min_anchor_matches context)); [|split; [intros _ _; lia|done]].
    rewrite singleton_if_nil, Z.ltb_ge. split; [intros ? _ _; lia|]. intros Hm. specialize (Hm Ha). lia. }
  split; [intros (?&?&?&?&?); by split|intros [????]; by split_and!].
Qed.
