(* ===== verification/Turn.v ===== *)
(** * Turn: the data of a conversation turn
    (the types at the head of app/src/conversation/turn_engine.rs) *)
From S2P Require Import Prelude RustStr Contracts.

Record ToolIntent := mkToolIntent {
  in_tool_name : string;
  in_args_json : Value;
  in_source : string;
  in_session_id : string;
  in_turn_id : string;
  in_tool_call_id : string;
}.

Record ProviderTurn := mkProviderTurn {
  pt_assistant_text : string;
  pt_tool_intents : list ToolIntent;
  pt_raw_meta : Value;
}.

Inductive ApprovalRequirementKind := AR_KernelContextRequired | AR_GovernedTool.

Record ApprovalRequirement := mkApprovalRequirement {
  ar_kind : ApprovalRequirementKind;
  ar_reason : string;
  ar_rule_id : string;
  ar_tool_name : option string;
  ar_approval_key : option string;
  ar_approval_request_id : option string;
}.

(** [ApprovalRequirement::governed_tool] *)
Definition ApprovalRequirement_governed_tool (tool_name approval_key reason rule_id : string)
    (approval_request_id : option string) : ApprovalRequirement :=
  mkApprovalRequirement AR_GovernedTool reason rule_id (Some tool_name) (Some approval_key)
    approval_request_id.

Inductive TurnFailureKind := TF_PolicyDenied | TF_Retryable | TF_NonRetryable | TF_Provider.

#[export] Instance TurnFailureKind_eq_dec : EqDecision TurnFailureKind.
Proof. solve_decision. Defined.

Record TurnFailure := mkTurnFailure {
  tf_kind : TurnFailureKind;
  tf_code : string;
  tf_reason : string;
  tf_retryable : bool;
}.

Definition TurnFailure_policy_denied (code reason : string) : TurnFailure :=
  mkTurnFailure TF_PolicyDenied code reason false.
Definition TurnFailure_retryable (code reason : string) : TurnFailure :=
  mkTurnFailure TF_Retryable code reason true.
Definition TurnFailure_non_retryable (code reason : string) : TurnFailure :=
  mkTurnFailure TF_NonRetryable code reason false.
Definition TurnFailure_provider (code reason : string) : TurnFailure :=
  mkTurnFailure TF_Provider code reason false.

Inductive TurnResult :=
| TR_FinalText (text : string)
| TR_StreamingText (text : string)
| TR_StreamingDone (text : string)
| TR_NeedsApproval (requirement : ApprovalRequirement)
| TR_ToolDenied (failure : TurnFailure)
| TR_ToolError (failure : TurnFailure)
| TR_ProviderError (failure : TurnFailure).

Definition TurnResult_policy_denied (code reason : string) : TurnResult :=
  TR_ToolDenied (TurnFailure_policy_denied code reason).
Definition TurnResult_retryable_tool_error (code reason : string) : TurnResult :=
  TR_ToolError (TurnFailure_retryable code reason).
Definition TurnResult_non_retryable_tool_error (code reason : string) : TurnResult :=
  TR_ToolError (TurnFailure_non_retryable code reason).
Definition TurnResult_provider_error (code reason : string) : TurnResult :=
  TR_ProviderError (TurnFailure_provider code reason).

(** [TurnResult::failure] *)
Definition TurnResult_failure (r : TurnResult) : option TurnFailure :=
  match r with
  | TR_FinalText _ | TR_StreamingText _ | TR_StreamingDone _ | TR_NeedsApproval _ => None
  | TR_ToolDenied failure | TR_ToolError failure | TR_ProviderError failure => Some failure
  end.

(** * Budgets of turns, replans and attempts
    (app/src/conversation/turn_budget.rs) *)

Inductive TurnRoundBudgetDecision := ContinueWithFollowup | FinalizeWithCompletionPass.

Record TurnRoundBudget := mkTurnRoundBudget { rb_round_index : Z; rb_max_rounds : Z }.

Definition TurnRoundBudget_for_round_index (round_index max_rounds : Z) : TurnRoundBudget :=
  mkTurnRoundBudget round_index (Z.max max_rounds 1).

Definition TurnRoundBudget_followup_decision (b : TurnRoundBudget) : TurnRoundBudgetDecision :=
  if (sat_add (rb_round_index b) 1 <? rb_max_rounds b)%Z then ContinueWithFollowup
  else FinalizeWithCompletionPass.

(** ** Reasons of a route *)

Inductive SafeLaneFailureRouteReason :=
| RR_RetryableFailure | RR_RoundBudgetExhausted | RR_PolicyDenied | RR_NonRetryableFailure
| RR_RetryableFlagFalse | RR_ProviderFailure | RR_BackpressureAttemptsExhausted
| RR_BackpressureReplansExhausted | RR_SessionGovernorNoReplan.

#[export] Instance SafeLaneFailureRouteReason_eq_dec : EqDecision SafeLaneFailureRouteReason.
Proof. solve_decision. Defined.

Definition SafeLaneFailureRouteReason_as_str (r : SafeLaneFailureRouteReason) : string :=
  match r with
  | RR_RetryableFailure => "retryable_failure"
  | RR_RoundBudgetExhausted => "round_budget_exhausted"
  | RR_PolicyDenied => "policy_denied"
  | RR_NonRetryableFailure => "non_retryable_failure"
  | RR_RetryableFlagFalse => "retryable_flag_false"
  | RR_ProviderFailure => "provider_failure"
  | RR_BackpressureAttemptsExhausted => "backpressure_attempts_exhausted"
  | RR_BackpressureReplansExhausted => "backpressure_replans_exhausted"
  | RR_SessionGovernorNoReplan => "session_governor_no_replan"
  end.

Definition SafeLaneFailureRouteReason_parse (value : string) : option SafeLaneFailureRouteReason :=
  let value := trim value in
  if bool_decide (value = "retryable_failure") then Some RR_RetryableFailure
  else if bool_decide (value = "round_budget_exhausted") then Some RR_RoundBudgetExhausted
  else if bool_decide (value = "policy_denied") then Some RR_PolicyDenied
  else if bool_decide (value = "non_retryable_failure") then Some RR_NonRetryableFailure
  else if bool_decide (value = "retryable_flag_false") then Some RR_RetryableFlagFalse
  else if bool_decide (value = "provider_failure") then Some RR_ProviderFailure
  else if bool_decide (value = "backpressure_attempts_exhausted") then Some RR_BackpressureAttemptsExhausted
  else if bool_decide (value = "backpressure_replans_exhausted") then Some RR_BackpressureReplansExhausted
  else if bool_decide (value = "session_governor_no_replan") then Some RR_SessionGovernorNoReplan
  else None.

Definition SafeLaneFailureRouteReason_is_backpressure (r : SafeLaneFailureRouteReason) : bool :=
  match r with
  | RR_BackpressureAttemptsExhausted | RR_BackpressureReplansExhausted => true
  | _ => false
  end.

Inductive SafeLaneContinuationBudgetDecision :=
| Budget_Continue
| Budget_Terminal (reason : SafeLaneFailureRouteReason).

(** ** Replans: a [u8] counter *)

Record SafeLaneReplanBudget := mkSafeLaneReplanBudget { sr_current_round : Z; sr_max_replans : Z }.

Definition SafeLaneReplanBudget_new (max_replans : Z) : SafeLaneReplanBudget :=
  mkSafeLaneReplanBudget 0 max_replans.

Definition SafeLaneReplanBudget_continuation_decision (b : SafeLaneReplanBudget) :
    SafeLaneContinuationBudgetDecision :=
  if (sr_current_round b <? sr_max_replans b)%Z then Budget_Continue
  else Budget_Terminal RR_RoundBudgetExhausted.

Definition SafeLaneReplanBudget_after_replan (b : SafeLaneReplanBudget) : SafeLaneReplanBudget :=
  mkSafeLaneReplanBudget (sat_add8 (sr_current_round b) 1) (sr_max_replans b).

(** ** Attempts per node: a [u8] limit that grows by one per replan *)

Record EscalatingAttemptBudget := mkEscalatingAttemptBudget { ea_current_limit : Z; ea_max_limit : Z }.

Definition EscalatingAttemptBudget_new (initial_limit max_limit : Z) : EscalatingAttemptBudget :=
  let current_limit := Z.max initial_limit 1 in
  let max_limit := Z.max (Z.max max_limit current_limit) 1 in
  mkEscalatingAttemptBudget (Z.min current_limit max_limit) max_limit.

Definition EscalatingAttemptBudget_after_retry (b : EscalatingAttemptBudget) : EscalatingAttemptBudget :=
  mkEscalatingAttemptBudget
    (Z.max (Z.min (sat_add8 (ea_current_limit b) 1) (ea_max_limit b)) 1) (ea_max_limit b).

(** ** Backpressure over a whole turn *)

Record SafeLaneBackpressureBudget := mkSafeLaneBackpressureBudget {
  bp_max_total_attempts : Z;
  bp_max_replans : Z;
}.

Definition SafeLaneBackpressureBudget_new (max_total_attempts max_replans : Z) :
    SafeLaneBackpressureBudget :=
  mkSafeLaneBackpressureBudget (Z.max max_total_attempts 1) (Z.max max_replans 1).

Definition SafeLaneBackpressureBudget_continuation_decision (b : SafeLaneBackpressureBudget)
    (total_attempts_used replans_triggered : Z) : SafeLaneContinuationBudgetDecision :=
  if (bp_max_total_attempts b <=? total_attempts_used)%Z then
    Budget_Terminal RR_BackpressureAttemptsExhausted
  else if (bp_max_replans b <=? replans_triggered)%Z then
    Budget_Terminal RR_BackpressureReplansExhausted
  else Budget_Continue.

(** ** Facts *)

Lemma route_reason_roundtrip r :
  SafeLaneFailureRouteReason_parse (SafeLaneFailureRouteReason_as_str r) = Some r.
Proof. destruct r; vm_compute; reflexivity. Qed.

(** The limit of attempts per node stays between one and its maximum, and
    grows to the maximum with the number of retries. *)
Definition attempt_budget_after (n : nat) (b : EscalatingAttemptBudget) : EscalatingAttemptBudget :=
  Nat.iter n EscalatingAttemptBudget_after_retry b.

Lemma attempt_budget_grows n initial max : (0 ≤ initial ≤ u8_max)%Z → (0 ≤ max ≤ u8_max)%Z →
  let b := EscalatingAttemptBudget_new initial max in
  ea_max_limit (attempt_budget_after n b) = ea_max_limit b ∧
  ea_current_limit (attempt_budget_after n b) =
    Z.min (ea_current_limit b + Z.of_nat n) (ea_max_limit b) ∧
  (1 ≤ ea_current_limit b ≤ ea_max_limit b)%Z ∧ (ea_max_limit b ≤ u8_max)%Z.
Proof.
  intros Hi Hm b. unfold b, EscalatingAttemptBudget_new, u8_max in *. simpl.
  induction n as [|n IH]; simpl; [lia|]. destruct IH as (IHm & IHc & _).
  unfold attempt_budget_after in *. simpl in *. rewrite IHm, IHc. unfold sat_add8, u8_max. lia.
Qed.
