(* ===== verification/SafeLaneFailure.v ===== *)
(** * SafeLaneFailure: codes and classification of safe-lane failures
    (app/src/conversation/safe_lane_failure.rs) *)
From S2P Require Import Prelude RustStr Contracts Turn PlanGraph PlanExecutor.

Inductive SafeLaneFailureRouteDecision := Route_Replan | Route_Terminal.
Inductive SafeLaneFailureRouteSource := Source_BaseRouting | Source_BackpressureGuard | Source_SessionGovernor.

#[export] Instance SafeLaneFailureRouteDecision_eq_dec : EqDecision SafeLaneFailureRouteDecision.
Proof. solve_decision. Defined.
#[export] Instance SafeLaneFailureRouteSource_eq_dec : EqDecision SafeLaneFailureRouteSource.
Proof. solve_decision. Defined.

Definition SafeLaneFailureRouteDecision_as_str (d : SafeLaneFailureRouteDecision) : string :=
  match d with Route_Replan => "replan" | Route_Terminal => "terminal" end.

Definition SafeLaneFailureRouteDecision_parse (value : string) : option SafeLaneFailureRouteDecision :=
  let value := trim value in
  if bool_decide (value = "replan") then Some Route_Replan
  else if bool_decide (value = "terminal") then Some Route_Terminal
  else None.

Definition SafeLaneFailureRouteSource_as_str (d : SafeLaneFailureRouteSource) : string :=
  match d with
  | Source_BaseRouting => "base_routing"
  | Source_BackpressureGuard => "backpressure_guard"
  | Source_SessionGovernor => "session_governor"
  end.

Definition SafeLaneFailureRouteSource_parse (value : string) : option SafeLaneFailureRouteSource :=
  let value := trim value in
  if bool_decide (value = "base_routing") then Some Source_BaseRouting
  else if bool_decide (value = "backpressure_guard") then Some Source_BackpressureGuard
  else if bool_decide (value = "session_governor") then Some Source_SessionGovernor
  else None.

Record SafeLaneTerminalRouteSnapshot := mkSafeLaneTerminalRouteSnapshot {
  rs_decision : SafeLaneFailureRouteDecision;
  rs_reason : SafeLaneFailureRouteReason;
  rs_source : SafeLaneFailureRouteSource;
}.

Definition RouteSnapshot_is_terminal (s : SafeLaneTerminalRouteSnapshot) : bool :=
  bool_decide (rs_decision s = Route_Terminal).

Definition RouteSnapshot_is_backpressure_override_terminal (s : SafeLaneTerminalRouteSnapshot) : bool :=
  RouteSnapshot_is_terminal s && bool_decide (rs_source s = Source_BackpressureGuard)
  && SafeLaneFailureRouteReason_is_backpressure (rs_reason s).

Definition RouteSnapshot_is_session_governor_override_terminal (s : SafeLaneTerminalRouteSnapshot) : bool :=
  RouteSnapshot_is_terminal s && bool_decide (rs_source s = Source_SessionGovernor)
  && bool_decide (rs_reason s = RR_SessionGovernorNoReplan).

(** ** Failure codes *)

Inductive SafeLaneFailureCode :=
| FC_PlanValidationFailed | FC_PlanTopologyResolutionFailed | FC_PlanBudgetExceeded
| FC_PlanWallTimeExceeded | FC_PlanNodePolicyDenied | FC_PlanNodeRetryableError
| FC_PlanNodeNonRetryableError | FC_VerifyFailed | FC_VerifyFailedBackpressureGuard
| FC_VerifyFailedSessionGovernor | FC_VerifyFailedBudgetExhausted | FC_PlanBackpressureGuard
| FC_PlanSessionGovernorNoReplan.

Definition all_failure_codes : list SafeLaneFailureCode :=
  [FC_PlanValidationFailed; FC_PlanTopologyResolutionFailed; FC_PlanBudgetExceeded;
   FC_PlanWallTimeExceeded; FC_PlanNodePolicyDenied; FC_PlanNodeRetryableError;
   FC_PlanNodeNonRetryableError; FC_VerifyFailed; FC_VerifyFailedBackpressureGuard;
   FC_VerifyFailedSessionGovernor; FC_VerifyFailedBudgetExhausted; FC_PlanBackpressureGuard;
   FC_PlanSessionGovernorNoReplan].

Definition SafeLaneFailureCode_as_str (c : SafeLaneFailureCode) : string :=
  match c with
  | FC_PlanValidationFailed => "safe_lane_plan_validation_failed"
  | FC_PlanTopologyResolutionFailed => "safe_lane_plan_topology_resolution_failed"
  | FC_PlanBudgetExceeded => "safe_lane_plan_budget_exceeded"
  | FC_PlanWallTimeExceeded => "safe_lane_plan_wall_time_exceeded"
  | FC_PlanNodePolicyDenied => "safe_lane_plan_node_policy_denied"
  | FC_PlanNodeRetryableError => "safe_lane_plan_node_retryable_error"
  | FC_PlanNodeNonRetryableError => "safe_lane_plan_node_non_retryable_error"
  | FC_VerifyFailed => "safe_lane_plan_verify_failed"
  | FC_VerifyFailedBackpressureGuard => "safe_lane_plan_verify_failed_backpressure_guard"
  | FC_VerifyFailedSessionGovernor => "safe_lane_plan_verify_failed_session_governor"
  | FC_VerifyFailedBudgetExhausted => "safe_lane_plan_verify_failed_budget_exhausted"
  | FC_PlanBackpressureGuard => "safe_lane_plan_backpressure_guard"
  | FC_PlanSessionGovernorNoReplan => "safe_lane_plan_session_governor_no_replan"
  end.

(** The arms of the source test the trimmed value against the same thirteen
    literals in the same order. *)
Definition SafeLaneFailureCode_parse (value : string) : option SafeLaneFailureCode :=
  let value := trim value in
  snd <$> list_find (λ c, SafeLaneFailureCode_as_str c = value) all_failure_codes.

Definition SafeLaneFailureCode_is_backpressure (c : SafeLaneFailureCode) : bool :=
  match c with FC_VerifyFailedBackpressureGuard | FC_PlanBackpressureGuard => true | _ => false end.

Definition SafeLaneFailureCode_is_terminal_instability (c : SafeLaneFailureCode) : bool :=
  match c with
  | FC_VerifyFailed | FC_VerifyFailedBackpressureGuard | FC_VerifyFailedSessionGovernor
  | FC_VerifyFailedBudgetExhausted | FC_PlanBackpressureGuard | FC_PlanSessionGovernorNoReplan => true
  | _ => false
  end.

Definition SafeLaneFailureCode_into_turn_failure (c : SafeLaneFailureCode) (kind : TurnFailureKind)
    (reason : string) : TurnFailure :=
  match kind with
  | TF_PolicyDenied => TurnFailure_policy_denied (SafeLaneFailureCode_as_str c) reason
  | TF_Retryable => TurnFailure_retryable (SafeLaneFailureCode_as_str c) reason
  | TF_NonRetryable => TurnFailure_non_retryable (SafeLaneFailureCode_as_str c) reason
  | TF_Provider => TurnFailure_provider (SafeLaneFailureCode_as_str c) reason
  end.

Definition classify_safe_lane_plan_failure (failure : PlanRunFailure) :
    SafeLaneFailureCode * TurnFailureKind :=
  match failure with
  | PRF_ValidationFailed _ => (FC_PlanValidationFailed, TF_NonRetryable)
  | PRF_TopologyResolutionFailed => (FC_PlanTopologyResolutionFailed, TF_NonRetryable)
  | PRF_BudgetExceeded _ _ => (FC_PlanBudgetExceeded, TF_NonRetryable)
  | PRF_WallTimeExceeded _ _ => (FC_PlanWallTimeExceeded, TF_NonRetryable)
  | PRF_NodeFailed _ _ last_error_kind _ =>
      match last_error_kind with
      | PNE_ApprovalRequired => (FC_PlanNodePolicyDenied, TF_PolicyDenied)
      | PNE_PolicyDenied => (FC_PlanNodePolicyDenied, TF_PolicyDenied)
      | PNE_Retryable => (FC_PlanNodeRetryableError, TF_Retryable)
      | PNE_NonRetryable => (FC_PlanNodeNonRetryableError, TF_NonRetryable)
      end
  end.

Definition is_safe_lane_backpressure_failure_code (value : string) : bool :=
  default false (SafeLaneFailureCode_is_backpressure <$> SafeLaneFailureCode_parse value).

Definition is_safe_lane_terminal_instability_failure_code (value : option string) : bool :=
  default false (SafeLaneFailureCode_is_terminal_instability <$> (value ≫= SafeLaneFailureCode_parse)).

Definition is_safe_lane_backpressure_route_reason (value : string) : bool :=
  default false (SafeLaneFailureRouteReason_is_backpressure <$> SafeLaneFailureRouteReason_parse value).

(** Codes survive being written into an event and read back. *)
Lemma failure_code_roundtrip c : SafeLaneFailureCode_parse (SafeLaneFailureCode_as_str c) = Some c.
Proof. destruct c; vm_compute; reflexivity. Qed.

Lemma route_decision_roundtrip d :
  SafeLaneFailureRouteDecision_parse (SafeLaneFailureRouteDecision_as_str d) = Some d.
Proof. destruct d; vm_compute; reflexivity. Qed.

Lemma route_source_roundtrip d :
  SafeLaneFailureRouteSource_parse (SafeLaneFailureRouteSource_as_str d) = Some d.
Proof. destruct d; vm_compute; reflexivity. Qed.
