(* ===== verification/SafeLanePolicy.v ===== *)
(** * SafeLanePolicy: decisions of the safe lane
    (app/src/conversation/turn_coordinator.rs, the pure part)

    Metrics and health signals, and the session governor that tightens budgets
    after a bad history. The plan of a turn and the routing of its failures are
    in [SafeLaneRoute.v], the loop that uses them in [SafeLane.v]. *)
From S2P Require Import Prelude RustStr Contracts Json Turn PlanGraph PlanExecutor.
From S2P Require Import PlanVerifier LaneArbiter SafeLaneFailure ConversationConfig.
From Stdlib Require Import SpecFloat Ascii.

(** ** Lanes *)

Definition lane_policy_from_config (c : ConversationConfig) : LaneArbiterPolicy :=
  let normalized_keywords := normalized_high_risk_keywords c in
  mkLaneArbiterPolicy (cv_safe_lane_risk_threshold c) (cv_safe_lane_complexity_threshold c)
    (cv_fast_lane_max_input_chars c)
    (if bool_decide (normalized_keywords = []) then la_high_risk_keywords LaneArbiterPolicy_default
     else list_to_set normalized_keywords).

Definition disabled_lane_decision (user_input : string) : LaneDecision :=
  mkLaneDecision Lane_Fast 0 0
    ["hybrid_lane_disabled chars=" +:+ display (Z.of_nat (char_count user_input))].

Record ProviderTurnLanePlan := mkProviderTurnLanePlan {
  lp_decision : LaneDecision;
  lp_max_tool_steps : Z;
}.

Definition ProviderTurnLanePlan_from_user_input (c : ConversationConfig) (user_input : string) :
    ProviderTurnLanePlan :=
  let decision :=
    if cv_hybrid_lane_enabled c then decide_lane (lane_policy_from_config c) user_input
    else disabled_lane_decision user_input in
  mkProviderTurnLanePlan decision
    (match ld_lane decision with
     | Lane_Fast => fast_lane_max_tool_steps c
     | Lane_Safe => safe_lane_max_tool_steps c
     end).

Definition should_use_safe_lane_plan_path (p : ProviderTurnLanePlan) (c : ConversationConfig)
    (turn : ProviderTurn) : bool :=
  cv_safe_lane_plan_execution_enabled c
  && match ld_lane (lp_decision p) with Lane_Safe => true | Lane_Fast => false end
  && negb (bool_decide (length (pt_tool_intents turn) = 0)).

(** ** Tool output statistics and metrics *)

Record SafeLaneToolOutputStats := mkSafeLaneToolOutputStats {
  os_output_lines : Z;
  os_result_lines : Z;
  os_truncated_result_lines : Z;
}.

Definition truncation_ratio_milli (s : SafeLaneToolOutputStats) : Z :=
  if (os_result_lines s =? 0)%Z then 0%Z
  else (sat_mul (os_truncated_result_lines s) 1000 / os_result_lines s)%Z.

Definition ToolOutputStats_as_json (s : SafeLaneToolOutputStats) : Value :=
  JObject [("output_lines", json_uint (os_output_lines s));
           ("result_lines", json_uint (os_result_lines s));
           ("truncated_result_lines", json_uint (os_truncated_result_lines s));
           ("any_truncated", json_bool (0 <? os_truncated_result_lines s)%Z);
           ("truncation_ratio_milli", json_uint (truncation_ratio_milli s))].

Section stats.
  (** [serde_json::from_str::<Value>] *)
  Context (parse_json : string → option Value).

(** [line_contains_structured_truncation_signal] of turn_shared.rs *)
Definition line_contains_structured_truncation_signal (line : string) : bool :=
  let trimmed := trim line in
  if is_empty trimmed then false
  else
    let candidate :=
      if starts_with "[" trimmed then
        match find_str " " trimmed with
        | Some i => trim (str_drop (S i) trimmed)
        | None => ""
        end
      else trimmed in
    if negb (starts_with "{" candidate || starts_with "[" candidate) then false
    else
      match parse_json candidate with
      | None => false
      | Some envelope => default false (json_get "payload_truncated" envelope ≫= json_as_bool)
      end.

(** [tool_result_contains_truncation_signal] of turn_shared.rs *)
Definition tool_result_contains_truncation_signal (tool_result_text : string) : bool :=
  let normalized := to_ascii_lowercase tool_result_text in
  contains "...(truncated " normalized || contains "... (truncated " normalized
  || contains "[tool_result_truncated]" normalized
  || existsb line_contains_structured_truncation_signal (lines tool_result_text).

Definition stats_line (stats : SafeLaneToolOutputStats) (line : string) : SafeLaneToolOutputStats :=
  let output := sat_add (os_output_lines stats) 1 in
  if negb (starts_with "[" line) then
    mkSafeLaneToolOutputStats output (os_result_lines stats) (os_truncated_result_lines stats)
  else
    mkSafeLaneToolOutputStats output (sat_add (os_result_lines stats) 1)
      (if tool_result_contains_truncation_signal line then sat_add (os_truncated_result_lines stats) 1
       else os_truncated_result_lines stats).

Definition summarize_safe_lane_tool_output_stats (outputs : list string) : SafeLaneToolOutputStats :=
  foldl (λ stats output, foldl stats_line stats (filter (λ l, l ≠ "") (trim <$> lines output)))
    (mkSafeLaneToolOutputStats 0 0 0) outputs.
End stats.

Record SafeLaneExecutionMetrics := mkSafeLaneExecutionMetrics {
  sm_rounds_started : Z;
  sm_rounds_succeeded : Z;
  sm_rounds_failed : Z;
  sm_verify_failures : Z;
  sm_replans_triggered : Z;
  sm_total_attempts_used : Z;
  sm_tool_output_result_lines_total : Z;
  sm_tool_output_truncated_result_lines_total : Z;
}.

Definition SafeLaneExecutionMetrics_default : SafeLaneExecutionMetrics :=
  mkSafeLaneExecutionMetrics 0 0 0 0 0 0 0 0.

Definition record_tool_output_stats (m : SafeLaneExecutionMetrics) (stats : SafeLaneToolOutputStats) :
    SafeLaneExecutionMetrics :=
  mkSafeLaneExecutionMetrics (sm_rounds_started m) (sm_rounds_succeeded m) (sm_rounds_failed m)
    (sm_verify_failures m) (sm_replans_triggered m) (sm_total_attempts_used m)
    (sat_add (sm_tool_output_result_lines_total m) (os_result_lines stats))
    (sat_add (sm_tool_output_truncated_result_lines_total m) (os_truncated_result_lines stats)).

Definition aggregate_tool_truncation_ratio_milli (m : SafeLaneExecutionMetrics) : option Z :=
  if (sm_tool_output_result_lines_total m =? 0)%Z then None
  else Some (Z.min (sat_mul (sm_tool_output_truncated_result_lines_total m) 1000
                    / sm_tool_output_result_lines_total m) u32_max)%Z.

Definition ExecutionMetrics_as_json (m : SafeLaneExecutionMetrics) : Value :=
  JObject [("rounds_started", json_uint (sm_rounds_started m));
           ("rounds_succeeded", json_uint (sm_rounds_succeeded m));
           ("rounds_failed", json_uint (sm_rounds_failed m));
           ("verify_failures", json_uint (sm_verify_failures m));
           ("replans_triggered", json_uint (sm_replans_triggered m));
           ("total_attempts_used", json_uint (sm_total_attempts_used m));
           ("tool_output_result_lines_total", json_uint (sm_tool_output_result_lines_total m));
           ("tool_output_truncated_result_lines_total",
              json_uint (sm_tool_output_truncated_result_lines_total m));
           ("tool_output_aggregate_truncation_ratio_milli",
              json_opt json_uint (aggregate_tool_truncation_ratio_milli m))].

Record SafeLaneRuntimeHealthSignal := mkSafeLaneRuntimeHealthSignal {
  hs_severity : string;
  hs_flags : list string;
}.

Definition HealthSignal_as_json (h : SafeLaneRuntimeHealthSignal) : Value :=
  JObject [("severity", json_str (hs_severity h)); ("flags", json_strs (hs_flags h))].

Definition derive_safe_lane_runtime_health_signal (c : ConversationConfig)
    (m : SafeLaneExecutionMetrics) (final_status_failed : bool) (final_failure_code : option string) :
    SafeLaneRuntimeHealthSignal :=
  let rounds_started := f64_of_u64 (sm_rounds_started m) in
  let rate n := if SFltb f64_0 rounds_started then f64_div (f64_of_u64 n) rounds_started else f64_0 in
  let replan_rate := rate (sm_replans_triggered m) in
  let verify_failure_rate := rate (sm_verify_failures m) in
  let aggregate_truncation_ratio :=
    (λ milli, f64_div (f64_of_u64 milli) (f64_of_u64 1000)) <$> aggregate_tool_truncation_ratio_milli m in
  let '(truncation_flags, severe) :=
    match aggregate_truncation_ratio with
    | Some ratio =>
        if f64_ge ratio (safe_lane_health_truncation_critical_threshold c) then
          (["truncation_severe(" +:+ f64_fixed3 ratio +:+ ")"], true)
        else if f64_ge ratio (safe_lane_health_truncation_warn_threshold c) then
          (["truncation_pressure(" +:+ f64_fixed3 ratio +:+ ")"], false)
        else ([], false)
    | None => ([], false)
    end in
  let verify_flags :=
    if f64_ge verify_failure_rate (safe_lane_health_verify_failure_warn_threshold c) then
      ["verify_failure_pressure(" +:+ f64_fixed3 verify_failure_rate +:+ ")"] else [] in
  let replan_flags :=
    if f64_ge replan_rate (safe_lane_health_replan_warn_threshold c) then
      ["replan_pressure(" +:+ f64_fixed3 replan_rate +:+ ")"] else [] in
  let terminal_instability := final_status_failed &&
    match final_failure_code with
    | Some code => contains "verify_failed" code || contains "backpressure" code
                   || contains "session_governor" code
    | None => false
    end in
  let flags := truncation_flags ++ verify_flags ++ replan_flags
               ++ (if terminal_instability then ["terminal_instability"] else []) in
  mkSafeLaneRuntimeHealthSignal
    (if severe || terminal_instability then "critical"
     else if bool_decide (flags = []) then "ok" else "warn") flags.

(** ** The session governor *)

Inductive SafeLaneGovernorHistoryLoadStatus := History_Disabled | History_Loaded | History_Unavailable.

Definition HistoryLoadStatus_as_str (s : SafeLaneGovernorHistoryLoadStatus) : string :=
  match s with
  | History_Disabled => "disabled" | History_Loaded => "loaded" | History_Unavailable => "unavailable"
  end.

Inductive AssistantHistoryLoadErrorCode :=
| DirectReadFailed | KernelRequestFailed | KernelNonOkStatus | KernelMalformedPayload.

Definition AssistantHistoryLoadErrorCode_as_str (c : AssistantHistoryLoadErrorCode) : string :=
  match c with
  | DirectReadFailed => "direct_read_failed"
  | KernelRequestFailed => "kernel_request_failed"
  | KernelNonOkStatus => "kernel_non_ok_status"
  | KernelMalformedPayload => "kernel_malformed_payload"
  end.

(** What the governor reads of the session's history: of the event summary,
    the two counts it compares with thresholds. *)
Record SafeLaneGovernorHistorySignals := mkSafeLaneGovernorHistorySignals {
  gh_history_load_status : SafeLaneGovernorHistoryLoadStatus;
  gh_history_load_error : option AssistantHistoryLoadErrorCode;
  gh_failed_final_status_events : Z;
  gh_backpressure_failure_events : Z;
  gh_final_status_failed_samples : list bool;
  gh_backpressure_failure_samples : list bool;
}.

Record SafeLaneSessionGovernorDecision := mkSafeLaneSessionGovernorDecision {
  gd_engaged : bool;
  gd_history_window_turns : Z;
  gd_history_load_status : SafeLaneGovernorHistoryLoadStatus;
  gd_history_load_error : option AssistantHistoryLoadErrorCode;
  gd_failed_final_status_events : Z;
  gd_failed_final_status_threshold : Z;
  gd_failed_threshold_triggered : bool;
  gd_backpressure_failure_events : Z;
  gd_backpressure_failure_threshold : Z;
  gd_backpressure_threshold_triggered : bool;
  gd_trend_enabled : bool;
  gd_trend_samples : Z;
  gd_trend_min_samples : Z;
  gd_trend_failure_ewma : option f64;
  gd_trend_failure_ewma_threshold : f64;
  gd_trend_backpressure_ewma : option f64;
  gd_trend_backpressure_ewma_threshold : f64;
  gd_trend_threshold_triggered : bool;
  gd_recovery_success_streak : Z;
  gd_recovery_success_streak_threshold : Z;
  gd_recovery_failure_ewma_threshold : f64;
  gd_recovery_backpressure_ewma_threshold : f64;
  gd_recovery_threshold_triggered : bool;
  gd_force_no_replan : bool;
  gd_forced_node_max_attempts : option Z;
}.

Definition GovernorDecision_as_json (g : SafeLaneSessionGovernorDecision) : Value :=
  JObject [("engaged", json_bool (gd_engaged g));
    ("history_window_turns", json_uint (gd_history_window_turns g));
    ("history_load_status", json_str (HistoryLoadStatus_as_str (gd_history_load_status g)));
    ("history_load_error",
       json_opt (λ e, json_str (AssistantHistoryLoadErrorCode_as_str e)) (gd_history_load_error g));
    ("failed_final_status_events", json_uint (gd_failed_final_status_events g));
    ("failed_final_status_threshold", json_uint (gd_failed_final_status_threshold g));
    ("failed_threshold_triggered", json_bool (gd_failed_threshold_triggered g));
    ("backpressure_failure_events", json_uint (gd_backpressure_failure_events g));
    ("backpressure_failure_threshold", json_uint (gd_backpressure_failure_threshold g));
    ("backpressure_threshold_triggered", json_bool (gd_backpressure_threshold_triggered g));
    ("trend_enabled", json_bool (gd_trend_enabled g));
    ("trend_samples", json_uint (gd_trend_samples g));
    ("trend_min_samples", json_uint (gd_trend_min_samples g));
    ("trend_failure_ewma", json_opt json_f64 (gd_trend_failure_ewma g));
    ("trend_failure_ewma_threshold", json_f64 (gd_trend_failure_ewma_threshold g));
    ("trend_backpressure_ewma", json_opt json_f64 (gd_trend_backpressure_ewma g));
    ("trend_backpressure_ewma_threshold", json_f64 (gd_trend_backpressure_ewma_threshold g));
    ("trend_threshold_triggered", json_bool (gd_trend_threshold_triggered g));
    ("recovery_success_streak", json_uint (gd_recovery_success_streak g));
    ("recovery_success_streak_threshold", json_uint (gd_recovery_success_streak_threshold g));
    ("recovery_failure_ewma_threshold", json_f64 (gd_recovery_failure_ewma_threshold g));
    ("recovery_backpressure_ewma_threshold", json_f64 (gd_recovery_backpressure_ewma_threshold g));
    ("recovery_threshold_triggered", json_bool (gd_recovery_threshold_triggered g));
    ("force_no_replan", json_bool (gd_force_no_replan g));
    ("forced_node_max_attempts", json_opt json_uint (gd_forced_node_max_attempts g))].

(** [compute_ewma_bool] *)
Definition compute_ewma_bool (samples : list bool) (alpha : f64) : option f64 :=
  let value (b : bool) := if b then f64_1 else f64_0 in
  match samples with
  | [] => None
  | first :: rest =>
      Some (foldl (λ ewma sample,
              f64_add (f64_mul alpha (value sample)) (f64_mul (f64_sub f64_1 alpha) ewma))
              (value first) rest)
  end.

(** [trailing_success_streak]: the loop runs over the samples backwards *)
Fixpoint success_streak (reversed : list bool) (streak : Z) : Z :=
  match reversed with
  | false :: rest => success_streak rest (sat_add32 streak 1)
  | _ => streak
  end.
Definition trailing_success_streak (failed_samples : list bool) : Z :=
  success_streak (reverse failed_samples) 0.

Definition decide_safe_lane_session_governor (c : ConversationConfig)
    (h : SafeLaneGovernorHistorySignals) : SafeLaneSessionGovernorDecision :=
  let failed_final_status_threshold := safe_lane_session_governor_failed_final_status_threshold c in
  let backpressure_failure_threshold := safe_lane_session_governor_backpressure_failure_threshold c in
  let failed_threshold_triggered :=
    (failed_final_status_threshold <=? gh_failed_final_status_events h)%Z in
  let backpressure_threshold_triggered :=
    (backpressure_failure_threshold <=? gh_backpressure_failure_events h)%Z in
  let trend_enabled := cv_safe_lane_session_governor_trend_enabled c in
  let trend_samples := len (gh_final_status_failed_samples h) in
  let trend_min_samples := safe_lane_session_governor_trend_min_samples c in
  let alpha := safe_lane_session_governor_trend_ewma_alpha c in
  let trend_ready := trend_enabled && (trend_min_samples <=? trend_samples)%Z in
  let trend_failure_ewma :=
    if trend_ready then compute_ewma_bool (gh_final_status_failed_samples h) alpha else None in
  let trend_backpressure_ewma :=
    if trend_ready then compute_ewma_bool (gh_backpressure_failure_samples h) alpha else None in
  let trend_threshold_triggered :=
    default false ((λ v, f64_ge v (safe_lane_session_governor_trend_failure_ewma_threshold c))
                   <$> trend_failure_ewma)
    || default false ((λ v, f64_ge v (safe_lane_session_governor_trend_backpressure_ewma_threshold c))
                   <$> trend_backpressure_ewma) in
  let recovery_success_streak :=
    if trend_ready then trailing_success_streak (gh_final_status_failed_samples h) else 0%Z in
  let recovery_success_streak_threshold := safe_lane_session_governor_recovery_success_streak c in
  let recovery_threshold_triggered :=
    trend_ready && (recovery_success_streak_threshold <=? recovery_success_streak)%Z
    && default false ((λ v, SFleb v (safe_lane_session_governor_recovery_max_failure_ewma c))
                      <$> trend_failure_ewma)
    && default false ((λ v, SFleb v (safe_lane_session_governor_recovery_max_backpressure_ewma c))
                      <$> trend_backpressure_ewma) in
  let engaged :=
    cv_safe_lane_session_governor_enabled c
    && (failed_threshold_triggered || backpressure_threshold_triggered || trend_threshold_triggered)
    && negb recovery_threshold_triggered in
  {| gd_engaged := engaged;
     gd_history_window_turns := safe_lane_session_governor_window_turns c;
     gd_history_load_status := gh_history_load_status h;
     gd_history_load_error := gh_history_load_error h;
     gd_failed_final_status_events := gh_failed_final_status_events h;
     gd_failed_final_status_threshold := failed_final_status_threshold;
     gd_failed_threshold_triggered := failed_threshold_triggered;
     gd_backpressure_failure_events := gh_backpressure_failure_events h;
     gd_backpressure_failure_threshold := backpressure_failure_threshold;
     gd_backpressure_threshold_triggered := backpressure_threshold_triggered;
     gd_trend_enabled := trend_enabled;
     gd_trend_samples := trend_samples;
     gd_trend_min_samples := trend_min_samples;
     gd_trend_failure_ewma := trend_failure_ewma;
     gd_trend_failure_ewma_threshold := safe_lane_session_governor_trend_failure_ewma_threshold c;
     gd_trend_backpressure_ewma := trend_backpressure_ewma;
     gd_trend_backpressure_ewma_threshold :=
       safe_lane_session_governor_trend_backpressure_ewma_threshold c;
     gd_trend_threshold_triggered := trend_threshold_triggered;
     gd_recovery_success_streak := recovery_success_streak;
     gd_recovery_success_streak_threshold := recovery_success_streak_threshold;
     gd_recovery_failure_ewma_threshold := safe_lane_session_governor_recovery_max_failure_ewma c;
     gd_recovery_backpressure_ewma_threshold :=
       safe_lane_session_governor_recovery_max_backpressure_ewma c;
     gd_recovery_threshold_triggered := recovery_threshold_triggered;
     gd_force_no_replan := engaged && cv_safe_lane_session_governor_force_no_replan c;
     gd_forced_node_max_attempts :=
       if engaged then Some (safe_lane_session_governor_force_node_max_attempts c) else None |}.
