(* ===== verification/SafeLaneRoute.v ===== *)
(** * SafeLaneRoute: plans, checks and failure routes of the safe lane
    (app/src/conversation/turn_coordinator.rs, the pure part)

    The plan built for a turn, the check of its output, the route of a failure
    to a replan or to the end of the turn, and the restart point of a replan. *)
From S2P Require Import Prelude RustStr Contracts Json Turn PlanGraph PlanExecutor.
From S2P Require Import PlanVerifier LaneArbiter SafeLaneFailure ConversationConfig SafeLanePolicy.
From Stdlib Require Import Ascii.

(** ** Events *)

Definition is_safe_lane_critical_event (event_name : string) : bool :=
  bool_decide (event_name ∈ ["lane_selected"; "verify_failed"; "final_status"]).

(** [get(key).and_then(Value::as_str).map(test).unwrap_or(false)] *)
Definition str_field (key : string) (test : string → bool) (payload : Value) : bool :=
  default false (test <$> json_get_str key payload).
(** [get(outer).and_then(|v| v.get(key)).and_then(Value::as_u64).unwrap_or_default() > 0] *)
Definition positive_field (outer key : string) (payload : Value) : bool :=
  (0 <? default 0 (json_get outer payload ≫= json_get_u64 key))%Z.

Definition safe_lane_failure_pressure (payload : Value) : Z :=
  foldl (λ pressure (hit : bool), if hit then sat_add pressure 1 else pressure) 0%Z
    [str_field "status" (λ s, bool_decide (s = "failed")) payload;
     str_field "failure_kind" (λ s, negb (is_empty (trim s))) payload;
     str_field "route_decision" (λ s, bool_decide (s = "replan") || bool_decide (s = "terminal")) payload;
     str_field "failure_code" (λ s, negb (is_empty (trim s))) payload;
     positive_field "tool_output_stats" "truncated_result_lines" payload;
     positive_field "metrics" "verify_failures" payload].

Definition should_emit_safe_lane_event (c : ConversationConfig) (event_name : string) (payload : Value) :
    bool :=
  if negb (cv_safe_lane_emit_runtime_events c) then false
  else if is_safe_lane_critical_event event_name then true
  else
    let sample_every := safe_lane_event_sample_every c in
    if (sample_every <=? 1)%Z then true
    else if cv_safe_lane_event_adaptive_sampling c
            && (safe_lane_event_adaptive_failure_threshold c <=? safe_lane_failure_pressure payload)%Z
    then true
    else (default 0 (json_get_u64 "round" payload) mod sample_every =? 0)%Z.

(** ** The plan of a turn *)

Definition select_safe_lane_risk_tier (c : ConversationConfig) (d : LaneDecision) : RiskTier :=
  let high_risk_bar := sat_mul32 (cv_safe_lane_risk_threshold c) 2 in
  let high_complexity_bar := sat_mul32 (cv_safe_lane_complexity_threshold c) 2 in
  if (high_risk_bar <=? ld_risk_score d)%Z || (high_complexity_bar <=? ld_complexity_score d)%Z then
    Risk_High
  else if (0 <? ld_risk_score d)%Z || (0 <? ld_complexity_score d)%Z then Risk_Medium
  else Risk_Low.

Definition tool_node_id (index : nat) : string := "tool-" +:+ display (Z.of_nat (S index)).

Definition tool_node (risk_tier : RiskTier) (max_attempts : Z) (index : nat) (intent : ToolIntent) :
    PlanNode :=
  mkPlanNode (tool_node_id index) Node_Tool ("invoke `" +:+ in_tool_name intent +:+ "`")
    (Some (in_tool_name intent)) 3000 max_attempts risk_tier.

Definition verify_node : PlanNode :=
  mkPlanNode "verify-1" Node_Verify "verify non-empty tool outputs" None 500 1 Risk_Medium.
Definition respond_node : PlanNode :=
  mkPlanNode "respond-1" Node_Respond "compose final response" None 500 1 Risk_Low.

(** [for pair in nodes.windows(2)] *)
Fixpoint chain_edges (nodes : list PlanNode) : list PlanEdge :=
  match nodes with
  | from :: ((to :: _) as rest) => mkPlanEdge (pn_id from) (pn_id to) :: chain_edges rest
  | _ => []
  end.

Definition build_safe_lane_plan_graph (c : ConversationConfig) (d : LaneDecision) (turn : ProviderTurn)
    (tool_node_max_attempts : Z) (start_tool_index : nat) : PlanGraph :=
  let node_risk_tier := select_safe_lane_risk_tier c d in
  let normalized_start := start_tool_index `min` length (pt_tool_intents turn) in
  let nodes :=
    drop normalized_start (imap (tool_node node_risk_tier tool_node_max_attempts) (pt_tool_intents turn))
    ++ (if cv_safe_lane_verify_output_non_empty c then [verify_node] else [])
    ++ [respond_node] in
  let max_total_attempts := Z.max (foldr Z.add 0%Z (pn_max_attempts <$> nodes)) 1 in
  mkPlanGraph PLAN_GRAPH_VERSION nodes (chain_edges nodes)
    (mkPlanBudget 16 max_total_attempts (Z.max (cv_safe_lane_plan_max_wall_time_ms c) 1)).

Definition parse_tool_node_index (node_id : string) : result PlanNodeError nat :=
  match strip_prefix "tool-" node_id with
  | None => Err (PlanNodeError_non_retryable ("invalid tool node id `" +:+ node_id +:+ "`"))
  | Some suffix =>
      match parse_usize suffix with
      | Err error => Err (PlanNodeError_non_retryable
          ("invalid tool node id `" +:+ node_id +:+ "`: " +:+ display_ParseIntError error))
      | Ok parsed =>
          if (parsed =? 0)%Z then
            Err (PlanNodeError_non_retryable ("invalid tool node ordinal in `" +:+ node_id +:+ "`"))
          else Ok (Z.to_nat (parsed - 1))
      end
  end.

(** ** Checking the output *)

Definition is_anchor_key_allowed (key : string) : bool :=
  bool_decide (to_ascii_lowercase (trim key) ∈
    ["path"; "file"; "filename"; "url"; "endpoint"; "target"; "query"; "operation"; "command"; "cwd";
     "dir"; "directory"]).

Definition is_sensitive_key (key : string) : bool :=
  let normalized := to_ascii_lowercase (trim key) in
  existsb (λ marker, contains marker normalized)
    ["token"; "secret"; "password"; "credential"; "api_key"; "apikey"; "auth"; "authorization";
     "cookie"; "session"; "bearer"].

Definition push_anchor_candidate (text : string) (anchors : gset string) : gset string :=
  let normalized := to_ascii_lowercase (trim text) in
  if bool_decide (String.length normalized < 3) || bool_decide (96 < String.length normalized) then anchors
  else if contains " " normalized then anchors
  else
    let anchors := {[normalized]} ∪ anchors in
    let last := last_segment "/"%char normalized in
    if bool_decide (3 ≤ String.length last) then {[last]} ∪ anchors else anchors.

Fixpoint collect_value_anchors (parent_key : option string) (value : Value) (anchors : gset string) :
    gset string :=
  match value with
  | JString text =>
      if default false (is_anchor_key_allowed <$> parent_key) then push_anchor_candidate text anchors
      else anchors
  | JArray items => foldl (λ anchors item, collect_value_anchors parent_key item anchors) anchors items
  | JObject fields =>
      foldl (λ anchors '(key, item),
        if is_sensitive_key key then anchors else collect_value_anchors (Some key) item anchors)
        anchors fields
  | _ => anchors
  end.

Definition collect_semantic_anchors (tool_intents : list ToolIntent) : gset string :=
  foldl (λ anchors intent, collect_value_anchors None (in_args_json intent) anchors) ∅ tool_intents.

Definition verify_safe_lane_final_output (c : ConversationConfig) (output : string)
    (tool_intents : list ToolIntent) (min_anchor_matches : Z) : PlanVerificationReport :=
  let policy := mkPlanVerificationPolicy (cv_safe_lane_verify_output_non_empty c)
    (cv_safe_lane_verify_min_output_chars c) (cv_safe_lane_verify_require_status_prefix c)
    (list_to_set (filter (λ m, m ≠ "")
      ((λ m, to_ascii_lowercase (trim m)) <$> cv_safe_lane_verify_deny_markers c))) in
  let context := mkPlanVerificationContext (Z.max (len tool_intents) 1)
    (collect_semantic_anchors tool_intents) min_anchor_matches in
  verify_output output context policy.

Definition compute_safe_lane_verify_min_anchor_matches (c : ConversationConfig) (verify_failures : Z) : Z :=
  if negb (cv_safe_lane_verify_adaptive_anchor_escalation c) then 0%Z
  else if (verify_failures <? safe_lane_verify_anchor_escalation_after_failures c)%Z then 0%Z
  else safe_lane_verify_anchor_escalation_min_matches c.

Definition should_replan_for_verification_failure (report : PlanVerificationReport) : bool :=
  negb (existsb (λ code, match code with
    | VF_DenyMarkerDetected | VF_MissingStatusPrefix | VF_MissingSemanticAnchors => true
    | _ => false
    end) (vr_failure_codes report)).

Definition format_verification_failure_code (code : PlanVerificationFailureCode) : string :=
  match code with
  | VF_EmptyOutput => "empty_output"
  | VF_OutputTooShort => "output_too_short"
  | VF_DenyMarkerDetected => "deny_marker_detected"
  | VF_InsufficientResultLines => "insufficient_result_lines"
  | VF_MissingStatusPrefix => "missing_status_prefix"
  | VF_FailureStatusDetected => "failure_status_detected"
  | VF_MissingSemanticAnchors => "missing_semantic_anchors"
  end.

(** ** Routes of failures *)

Definition safe_lane_backpressure_budget (c : ConversationConfig) : option SafeLaneBackpressureBudget :=
  if cv_safe_lane_backpressure_guard_enabled c then
    Some (SafeLaneBackpressureBudget_new (safe_lane_backpressure_max_total_attempts c)
            (safe_lane_backpressure_max_replans c))
  else None.

Record SafeLaneFailureRoute := mkSafeLaneFailureRoute {
  ro_decision : SafeLaneFailureRouteDecision;
  ro_reason : SafeLaneFailureRouteReason;
  ro_source : SafeLaneFailureRouteSource;
}.

Definition Route_replan (reason : SafeLaneFailureRouteReason) : SafeLaneFailureRoute :=
  mkSafeLaneFailureRoute Route_Replan reason Source_BaseRouting.
Definition Route_terminal (reason : SafeLaneFailureRouteReason) : SafeLaneFailureRoute :=
  mkSafeLaneFailureRoute Route_Terminal reason Source_BaseRouting.
Definition Route_terminal_with_source (reason : SafeLaneFailureRouteReason)
    (source : SafeLaneFailureRouteSource) : SafeLaneFailureRoute :=
  mkSafeLaneFailureRoute Route_Terminal reason source.

Definition Route_from_failure (failure : TurnFailure) (replan_budget : SafeLaneReplanBudget) :
    SafeLaneFailureRoute :=
  match SafeLaneReplanBudget_continuation_decision replan_budget with
  | Budget_Terminal reason => Route_terminal reason
  | Budget_Continue =>
      if bool_decide (tf_code failure ∈ ["kernel_policy_denied"; "tool_not_found";
                                         "max_tool_steps_exceeded"; "no_kernel_context"]) then
        Route_terminal RR_PolicyDenied
      else if bool_decide (tf_code failure = "tool_execution_failed") then
        if tf_retryable failure then Route_replan RR_RetryableFailure
        else Route_terminal RR_RetryableFlagFalse
      else if bool_decide (tf_code failure = "kernel_execution_failed") then
        Route_terminal RR_NonRetryableFailure
      else
        match SafeLaneFailureCode_parse (tf_code failure) with
        | Some FC_PlanNodePolicyDenied => Route_terminal RR_PolicyDenied
        | Some FC_VerifyFailed =>
            if tf_retryable failure then Route_replan RR_RetryableFailure
            else Route_terminal RR_NonRetryableFailure
        | Some FC_PlanNodeRetryableError =>
            if tf_retryable failure then Route_replan RR_RetryableFailure
            else Route_terminal RR_RetryableFlagFalse
        | Some FC_VerifyFailedBudgetExhausted => Route_terminal RR_RoundBudgetExhausted
        | Some (FC_PlanValidationFailed | FC_PlanTopologyResolutionFailed | FC_PlanBudgetExceeded
                | FC_PlanWallTimeExceeded | FC_PlanNodeNonRetryableError | FC_VerifyFailedBackpressureGuard
                | FC_VerifyFailedSessionGovernor | FC_PlanBackpressureGuard
                | FC_PlanSessionGovernorNoReplan) => Route_terminal RR_NonRetryableFailure
        | None =>
            match tf_kind failure with
            | TF_Retryable => if tf_retryable failure then Route_replan RR_RetryableFailure
                              else Route_terminal RR_RetryableFlagFalse
            | TF_PolicyDenied => Route_terminal RR_PolicyDenied
            | TF_NonRetryable => Route_terminal RR_NonRetryableFailure
            | TF_Provider => Route_terminal RR_ProviderFailure
            end
        end
  end.

Definition Route_is_base_round_budget_terminal (r : SafeLaneFailureRoute) : bool :=
  bool_decide (ro_decision r = Route_Terminal) && bool_decide (ro_source r = Source_BaseRouting)
  && bool_decide (ro_reason r = RR_RoundBudgetExhausted).
Definition Route_should_replan (r : SafeLaneFailureRoute) : bool :=
  bool_decide (ro_decision r = Route_Replan).
Definition Route_decision_label (r : SafeLaneFailureRoute) : string :=
  SafeLaneFailureRouteDecision_as_str (ro_decision r).
Definition Route_source_label (r : SafeLaneFailureRoute) : string :=
  SafeLaneFailureRouteSource_as_str (ro_source r).

Definition verify_terminal_summary_label (r : SafeLaneFailureRoute) : string :=
  match ro_source r, ro_reason r with
  | Source_BackpressureGuard, _ => "verify_failed_backpressure_guard"
  | Source_SessionGovernor, _ => "verify_failed_session_governor"
  | Source_BaseRouting, RR_RoundBudgetExhausted => "verify_failed_budget_exhausted"
  | Source_BaseRouting, _ => "verify_failed_non_retryable"
  end.

Definition terminal_verify_failure_code (r : SafeLaneFailureRoute) (retryable_signal : bool) :
    SafeLaneFailureCode :=
  match ro_source r, ro_reason r, retryable_signal with
  | Source_BackpressureGuard, _, _ => FC_VerifyFailedBackpressureGuard
  | Source_SessionGovernor, _, _ => FC_VerifyFailedSessionGovernor
  | Source_BaseRouting, RR_RoundBudgetExhausted, true => FC_VerifyFailedBudgetExhausted
  | Source_BaseRouting, _, _ => FC_VerifyFailed
  end.

Definition terminal_plan_failure_code (r : SafeLaneFailureRoute) : option SafeLaneFailureCode :=
  match ro_source r with
  | Source_BackpressureGuard => Some FC_PlanBackpressureGuard
  | Source_SessionGovernor => Some FC_PlanSessionGovernorNoReplan
  | Source_BaseRouting => None
  end.

Definition with_backpressure_guard (r : SafeLaneFailureRoute)
    (backpressure_budget : option SafeLaneBackpressureBudget) (m : SafeLaneExecutionMetrics) :
    SafeLaneFailureRoute :=
  if negb (Route_should_replan r) then r
  else
    match backpressure_budget with
    | None => r
    | Some budget =>
        match SafeLaneBackpressureBudget_continuation_decision budget
                (sm_total_attempts_used m) (sm_replans_triggered m) with
        | Budget_Continue => r
        | Budget_Terminal reason => Route_terminal_with_source reason Source_BackpressureGuard
        end
    end.

Definition with_session_governor_override (r : SafeLaneFailureRoute)
    (g : SafeLaneSessionGovernorDecision) : SafeLaneFailureRoute :=
  if gd_force_no_replan g && Route_is_base_round_budget_terminal r then
    Route_terminal_with_source RR_SessionGovernorNoReplan Source_SessionGovernor
  else r.

Definition decide_safe_lane_failure_route (c : ConversationConfig) (failure : TurnFailure)
    (replan_budget : SafeLaneReplanBudget) (m : SafeLaneExecutionMetrics)
    (g : SafeLaneSessionGovernorDecision) : SafeLaneFailureRoute :=
  with_session_governor_override
    (with_backpressure_guard (Route_from_failure failure replan_budget)
       (safe_lane_backpressure_budget c) m) g.

(** ** From a failed round to its continuation *)

Inductive SafeLaneRoundDecision :=
| Round_Finalize (r : TurnResult)
| Round_Replan (reason : string) (next_plan_start_tool_index : nat) (next_seed_tool_outputs : list string).

Definition derive_replan_cursor (failure : PlanRunFailure) (round_tool_outputs : list string)
    (tool_count : nat) : nat * list string :=
  match failure with
  | PRF_NodeFailed node_id _ _ _ =>
      match parse_tool_node_index node_id with
      | Ok index => if bool_decide (index < tool_count) then (index, round_tool_outputs) else (0, [])
      | Err _ => (0, [])
      end
  | _ => (0, [])
  end.

(** [{:?}] of the derived [Debug] *)
Definition debug_PlanNodeErrorKind (k : PlanNodeErrorKind) : string :=
  match k with
  | PNE_ApprovalRequired => "ApprovalRequired" | PNE_Retryable => "Retryable"
  | PNE_PolicyDenied => "PolicyDenied" | PNE_NonRetryable => "NonRetryable"
  end.

Definition summarize_plan_failure (failure : PlanRunFailure) : string :=
  match failure with
  | PRF_ValidationFailed error => "validation_failed:" +:+ error
  | PRF_TopologyResolutionFailed => "topology_resolution_failed"
  | PRF_BudgetExceeded attempts_used limit =>
      "budget_exceeded attempts_used=" +:+ display attempts_used +:+ " limit=" +:+ display limit
  | PRF_WallTimeExceeded elapsed_ms limit_ms =>
      "wall_time_exceeded elapsed_ms=" +:+ display elapsed_ms +:+ " limit_ms=" +:+ display limit_ms
  | PRF_NodeFailed node_id _ last_error_kind last_error =>
      "node_failed node=" +:+ node_id +:+ " error_kind=" +:+ debug_PlanNodeErrorKind last_error_kind
      +:+ " reason=" +:+ last_error
  end.

Definition format_turn_failure_kind (kind : TurnFailureKind) : string :=
  match kind with
  | TF_PolicyDenied => "policy_denied" | TF_Retryable => "retryable"
  | TF_NonRetryable => "non_retryable" | TF_Provider => "provider"
  end.

Definition turn_failure_from_plan_failure (failure : PlanRunFailure) : TurnFailure :=
  let '(code, kind) := classify_safe_lane_plan_failure failure in
  let code_str := SafeLaneFailureCode_as_str code in
  SafeLaneFailureCode_into_turn_failure code kind
    match failure with
    | PRF_ValidationFailed error => code_str +:+ ": " +:+ error
    | PRF_TopologyResolutionFailed => code_str
    | PRF_BudgetExceeded attempts_used limit =>
        code_str +:+ " attempts_used=" +:+ display attempts_used +:+ " limit=" +:+ display limit
    | PRF_WallTimeExceeded elapsed_ms limit_ms =>
        code_str +:+ " elapsed_ms=" +:+ display elapsed_ms +:+ " limit_ms=" +:+ display limit_ms
    | PRF_NodeFailed _ _ _ last_error => last_error
    end.

Definition turn_failure_from_verify_failure (verify_error : string) (retryable : bool) : TurnFailure :=
  SafeLaneFailureCode_into_turn_failure FC_VerifyFailed
    (if retryable then TF_Retryable else TF_NonRetryable)
    (SafeLaneFailureCode_as_str FC_VerifyFailed +:+ ": " +:+ verify_error).

Definition terminal_turn_failure_from_verify_failure (verify_error : string) (retryable_signal : bool)
    (route : SafeLaneFailureRoute) : TurnFailure :=
  SafeLaneFailureCode_into_turn_failure (terminal_verify_failure_code route retryable_signal)
    TF_NonRetryable (SafeLaneFailureCode_as_str FC_VerifyFailed +:+ ": " +:+ verify_error).

Definition turn_result_from_plan_failure (failure : PlanRunFailure) : TurnResult :=
  let failure_meta := turn_failure_from_plan_failure failure in
  match tf_kind failure_meta with
  | TF_PolicyDenied => TR_ToolDenied failure_meta
  | TF_Provider => TR_ProviderError failure_meta
  | _ => TR_ToolError failure_meta
  end.

Definition terminal_turn_result_from_plan_failure_with_route (failure : PlanRunFailure)
    (route : SafeLaneFailureRoute) : TurnResult :=
  match terminal_plan_failure_code route with
  | Some code =>
      TR_ToolError (SafeLaneFailureCode_into_turn_failure code TF_NonRetryable
        (SafeLaneFailureCode_as_str code +:+ ": " +:+ summarize_plan_failure failure))
  | None => turn_result_from_plan_failure failure
  end.

Definition decide_safe_lane_verify_failure_action (verify_error : string) (retryable_signal : bool)
    (route : SafeLaneFailureRoute) : SafeLaneRoundDecision :=
  if negb (Route_should_replan route) then
    Round_Finalize (TR_ToolError
      (terminal_turn_failure_from_verify_failure verify_error retryable_signal route))
  else Round_Replan "verify_failed" 0 [].

Definition decide_safe_lane_plan_failure_action (failure : PlanRunFailure) (route : SafeLaneFailureRoute)
    (next_plan_start_tool_index : nat) (next_seed_tool_outputs : list string) : SafeLaneRoundDecision :=
  if Route_should_replan route then
    Round_Replan (summarize_plan_failure failure) next_plan_start_tool_index next_seed_tool_outputs
  else Round_Finalize (terminal_turn_result_from_plan_failure_with_route failure route).
