(* ===== verification/SafeLane.v ===== *)
(** * SafeLane: the replanning loop of a safe-lane turn
    (app/src/conversation/turn_coordinator.rs)

    A round builds a plan for the tool intents that have not succeeded yet,
    runs it, checks the joined outputs and ends the turn or replans. The tool
    runs, the clock, the conversation store and the audit sink are transformers
    of an environment [W]. *)
From S2P Require Import Prelude RustStr Contracts Json Turn PlanGraph PlanExecutor PlanVerifier.
From S2P Require Import LaneArbiter SafeLaneFailure ConversationConfig SafeLanePolicy SafeLaneRoute.

(** ** Loop state *)

Record SafeLanePlanLoopState := mkSafeLanePlanLoopState {
  ls_governor : SafeLaneSessionGovernorDecision;
  ls_replan_budget : SafeLaneReplanBudget;
  ls_tool_node_attempt_budget : EscalatingAttemptBudget;
  ls_plan_start_tool_index : nat;
  ls_seed_tool_outputs : list string;
  ls_metrics : SafeLaneExecutionMetrics;
  ls_min_anchor_matches : Z;
}.

Definition LoopState_new (c : ConversationConfig) (g : SafeLaneSessionGovernorDecision) :
    SafeLanePlanLoopState :=
  let forced n := match gd_forced_node_max_attempts g with
                  | Some forced_node_max_attempts => Z.min n (Z.max forced_node_max_attempts 1)
                  | None => n
                  end in
  let tool_node_max_attempts := forced (Z.max (cv_safe_lane_node_max_attempts c) 1) in
  let max_node_attempts :=
    forced (Z.max (cv_safe_lane_replan_max_node_attempts c) tool_node_max_attempts) in
  {| ls_governor := g;
     ls_replan_budget := SafeLaneReplanBudget_new
       (if gd_force_no_replan g then 0 else cv_safe_lane_replan_max_rounds c);
     ls_tool_node_attempt_budget := EscalatingAttemptBudget_new tool_node_max_attempts max_node_attempts;
     ls_plan_start_tool_index := 0;
     ls_seed_tool_outputs := [];
     ls_metrics := SafeLaneExecutionMetrics_default;
     ls_min_anchor_matches := 0 |}.

Definition set_metrics (st : SafeLanePlanLoopState) (m : SafeLaneExecutionMetrics) : SafeLanePlanLoopState :=
  mkSafeLanePlanLoopState (ls_governor st) (ls_replan_budget st) (ls_tool_node_attempt_budget st)
    (ls_plan_start_tool_index st) (ls_seed_tool_outputs st) m (ls_min_anchor_matches st).

Definition refresh_verify_policy (c : ConversationConfig) (st : SafeLanePlanLoopState) :
    option Z * SafeLanePlanLoopState :=
  let next := compute_safe_lane_verify_min_anchor_matches c (sm_verify_failures (ls_metrics st)) in
  if (next =? ls_min_anchor_matches st)%Z then (None, st)
  else (if (0 <? next)%Z then Some next else None,
        mkSafeLanePlanLoopState (ls_governor st) (ls_replan_budget st) (ls_tool_node_attempt_budget st)
          (ls_plan_start_tool_index st) (ls_seed_tool_outputs st) (ls_metrics st) next).

Definition note_round_started (st : SafeLanePlanLoopState) : SafeLanePlanLoopState :=
  let m := ls_metrics st in
  set_metrics st (mkSafeLaneExecutionMetrics (sat_add32 (sm_rounds_started m) 1) (sm_rounds_succeeded m)
    (sm_rounds_failed m) (sm_verify_failures m) (sm_replans_triggered m) (sm_total_attempts_used m)
    (sm_tool_output_result_lines_total m) (sm_tool_output_truncated_result_lines_total m)).

Definition record_round_execution (report : PlanRunReport) (stats : SafeLaneToolOutputStats)
    (st : SafeLanePlanLoopState) : SafeLanePlanLoopState :=
  let m := ls_metrics st in
  set_metrics st (record_tool_output_stats
    (mkSafeLaneExecutionMetrics (sm_rounds_started m) (sm_rounds_succeeded m)
      (sm_rounds_failed m) (sm_verify_failures m) (sm_replans_triggered m)
      (sat_add (sm_total_attempts_used m) (prr_attempts_used report))
      (sm_tool_output_result_lines_total m) (sm_tool_output_truncated_result_lines_total m)) stats).

Definition note_round_succeeded (st : SafeLanePlanLoopState) : SafeLanePlanLoopState :=
  let m := ls_metrics st in
  set_metrics st (mkSafeLaneExecutionMetrics (sm_rounds_started m) (sat_add32 (sm_rounds_succeeded m) 1)
    (sm_rounds_failed m) (sm_verify_failures m) (sm_replans_triggered m) (sm_total_attempts_used m)
    (sm_tool_output_result_lines_total m) (sm_tool_output_truncated_result_lines_total m)).

Definition note_round_failed (st : SafeLanePlanLoopState) : SafeLanePlanLoopState :=
  let m := ls_metrics st in
  set_metrics st (mkSafeLaneExecutionMetrics (sm_rounds_started m) (sm_rounds_succeeded m)
    (sat_add32 (sm_rounds_failed m) 1) (sm_verify_failures m) (sm_replans_triggered m)
    (sm_total_attempts_used m) (sm_tool_output_result_lines_total m)
    (sm_tool_output_truncated_result_lines_total m)).

Definition note_verify_failure (st : SafeLanePlanLoopState) : SafeLanePlanLoopState :=
  let m := ls_metrics st in
  set_metrics st (mkSafeLaneExecutionMetrics (sm_rounds_started m) (sm_rounds_succeeded m)
    (sm_rounds_failed m) (sat_add32 (sm_verify_failures m) 1) (sm_replans_triggered m)
    (sm_total_attempts_used m) (sm_tool_output_result_lines_total m)
    (sm_tool_output_truncated_result_lines_total m)).

Definition note_replan (next_plan_start_tool_index : nat) (next_seed_tool_outputs : list string)
    (st : SafeLanePlanLoopState) : SafeLanePlanLoopState :=
  let m := ls_metrics st in
  mkSafeLanePlanLoopState (ls_governor st) (ls_replan_budget st) (ls_tool_node_attempt_budget st)
    next_plan_start_tool_index next_seed_tool_outputs
    (mkSafeLaneExecutionMetrics (sm_rounds_started m) (sm_rounds_succeeded m)
      (sm_rounds_failed m) (sm_verify_failures m) (sat_add32 (sm_replans_triggered m) 1)
      (sm_total_attempts_used m) (sm_tool_output_result_lines_total m)
      (sm_tool_output_truncated_result_lines_total m))
    (ls_min_anchor_matches st).

Definition advance_round (st : SafeLanePlanLoopState) : SafeLanePlanLoopState :=
  mkSafeLanePlanLoopState (ls_governor st) (SafeLaneReplanBudget_after_replan (ls_replan_budget st))
    (EscalatingAttemptBudget_after_retry (ls_tool_node_attempt_budget st))
    (ls_plan_start_tool_index st) (ls_seed_tool_outputs st) (ls_metrics st) (ls_min_anchor_matches st).

Definition ls_round (st : SafeLanePlanLoopState) : Z := sr_current_round (ls_replan_budget st).
Definition ls_max_rounds (st : SafeLanePlanLoopState) : Z := sr_max_replans (ls_replan_budget st).
Definition ls_tool_node_max_attempts (st : SafeLanePlanLoopState) : Z :=
  ea_current_limit (ls_tool_node_attempt_budget st).
Definition ls_max_node_attempts (st : SafeLanePlanLoopState) : Z :=
  ea_max_limit (ls_tool_node_attempt_budget st).

Record SafeLaneTurnOutcome := mkSafeLaneTurnOutcome {
  so_result : TurnResult;
  so_terminal_route : option SafeLaneFailureRoute;
}.

(** ** Tool runs *)

(** [join_non_empty_lines] of turn_shared.rs *)
Definition join_non_empty_lines (parts : list string) : string :=
  join (String newline "") (filter (λ p, p ≠ "") (trim <$> parts)).

(** [format_approval_required_reply] of turn_shared.rs *)
Definition format_approval_required_reply (assistant_preface : string) (r : ApprovalRequirement) : string :=
  let optional prefix o := match o with Some v => [prefix +:+ v] | None => [] end in
  let ls :=
    [match ar_kind r with
     | AR_GovernedTool => "[tool_approval_required]"
     | AR_KernelContextRequired => "[approval_required]"
     end]
    ++ optional "tool: " (ar_tool_name r)
    ++ optional "request_id: " (ar_approval_request_id r)
    ++ optional "approval_key: " (ar_approval_key r)
    ++ ["rule_id: " +:+ ar_rule_id r; "reason: " +:+ ar_reason r]
    ++ match ar_kind r with
       | AR_GovernedTool => ["allowed_decisions: approve_once, approve_always, deny"]
       | AR_KernelContextRequired => []
       end in
  join_non_empty_lines [assistant_preface; join (String newline "") ls].

(** The turn of one intent that [execute_single_tool_intent] hands to the turn
    engine, and what it makes of the answer. *)
Definition single_intent_turn (intent : ToolIntent) : ProviderTurn := mkProviderTurn "" [intent] JNull.

Definition tool_node_outcome (r : TurnResult) : result PlanNodeError string :=
  match r with
  | TR_FinalText text | TR_StreamingText text | TR_StreamingDone text => Ok text
  | TR_NeedsApproval requirement =>
      Err (PlanNodeError_policy_denied (format_approval_required_reply "" requirement))
  | TR_ToolDenied failure => Err (PlanNodeError_policy_denied (tf_reason failure))
  | TR_ToolError failure =>
      Err (mkPlanNodeError
        match tf_kind failure with
        | TF_Retryable => PNE_Retryable
        | TF_PolicyDenied | TF_NonRetryable | TF_Provider => PNE_NonRetryable
        end (tf_reason failure))
  | TR_ProviderError failure => Err (mkPlanNodeError PNE_NonRetryable (tf_reason failure))
  end.

(** ** The loop *)

Record KernelIds := mkKernelIds { ki_agent_id : string; ki_pack_id : string }.

(** The environment and, as a history variable, the events emitted so far. *)
Record LaneWorld (W : Type) := mkLaneWorld { lw_env : W; lw_emitted : list (string * Value) }.
Arguments mkLaneWorld {W} _ _.
Arguments lw_env {W} _.
Arguments lw_emitted {W} _.

Section safe_lane.
  Context {W : Type}.
  (** [timeout(deadline, engine.execute_turn_in_context(turn, ..)).await] for a
      turn engine of one step with this summary limit: [None] when the deadline
      passes first *)
  Context (timed_turn : Z → Z → ProviderTurn → W → option TurnResult * W).
  (** [started_at.elapsed().as_millis()] *)
  Context (elapsed : W → Z * W).
  (** [persist_conversation_event], its result ignored *)
  Context (persist_event : string → Value → W → W).
  (** [kernel.record_audit_event], its result ignored *)
  Context (record_audit_event : option string → AuditEventKind → W → W).
  (** [load_assistant_contents_from_session_window_detailed] and the summary of
      what it returns *)
  Context (load_history : Z → W → result AssistantHistoryLoadErrorCode SafeLaneGovernorHistorySignals * W).
  (** [serde_json::from_str::<Value>] *)
  Context (parse_json : string → option Value).
  Context (c : ConversationConfig) (kernel_ctx : option KernelIds).

(** [SafeLanePlanNodeExecutor::execute] under the deadline of the node; the
    second component of the state is the vector behind [tool_outputs]. *)
Definition node_execute (tool_intents : list ToolIntent) (deadline : Z) (node : PlanNode) (attempt : Z)
    (st : W * list string) : option (result PlanNodeError unit) * (W * list string) :=
  let '(w, outputs) := st in
  match pn_kind node with
  | Node_Tool =>
      match parse_tool_node_index (pn_id node) with
      | Err error => (Some (Err error), st)
      | Ok index =>
          match tool_intents !! index with
          | None => (Some (Err (PlanNodeError_non_retryable
                       ("missing tool intent for node `" +:+ pn_id node +:+ "`"))), st)
          | Some intent =>
              match timed_turn (tool_result_payload_summary_limit_chars c) deadline
                      (single_intent_turn intent) w with
              | (None, w) => (None, (w, outputs))
              | (Some r, w) =>
                  match tool_node_outcome r with
                  | Err error => (Some (Err error), (w, outputs))
                  | Ok output => (Some (Ok tt), (w, outputs ++ [output]))
                  end
              end
          end
      end
  | Node_Verify =>
      if negb (cv_safe_lane_verify_output_non_empty c) then (Some (Ok tt), st)
      else if bool_decide (outputs = []) || existsb (λ line, is_empty (trim line)) outputs then
        (Some (Err (PlanNodeError_non_retryable "verify_failed:empty_tool_output")), st)
      else (Some (Ok tt), st)
  | Node_Transform | Node_Respond => (Some (Ok tt), st)
  end.

Definition elapsed_outputs (st : W * list string) : Z * (W * list string) :=
  let '(ms, w) := elapsed st.1 in (ms, (w, st.2)).

Record SafeLaneRoundExecution := mkSafeLaneRoundExecution {
  re_report : PlanRunReport;
  re_tool_outputs : list string;
  re_tool_output_stats : SafeLaneToolOutputStats;
}.

Definition evaluate_safe_lane_round (d : LaneDecision) (turn : ProviderTurn) (st : SafeLanePlanLoopState)
    (w : W) : SafeLaneRoundExecution * W :=
  let plan := build_safe_lane_plan_graph c d turn (ls_tool_node_max_attempts st)
                (ls_plan_start_tool_index st) in
  let '(report, (w, tool_outputs)) :=
    PlanExecutor_execute (node_execute (pt_tool_intents turn)) elapsed_outputs plan
      (w, ls_seed_tool_outputs st) in
  (mkSafeLaneRoundExecution report tool_outputs
     (summarize_safe_lane_tool_output_stats parse_json tool_outputs), w).

Definition emit_safe_lane_event (event_name : string) (payload : Value) (w : LaneWorld W) : LaneWorld W :=
  if negb (should_emit_safe_lane_event c event_name payload) then w
  else
    let env := persist_event event_name payload (lw_env w) in
    mkLaneWorld
      match kernel_ctx with
      | Some ctx =>
          record_audit_event (Some (ki_agent_id ctx))
            (PlaneInvoked (ki_pack_id ctx) Plane_Runtime Tier_Core "conversation.safe_lane" None
               ("conversation.safe_lane." +:+ event_name) []) env
      | None => env
      end (lw_emitted w ++ [(event_name, payload)]).

(** The fields every report of a round carries *)
Definition health_json (st : SafeLanePlanLoopState) (failed : bool) (code : option string) : Value :=
  HealthSignal_as_json (derive_safe_lane_runtime_health_signal c (ls_metrics st) failed code).
Definition round_fields (ex : SafeLaneRoundExecution) (st : SafeLanePlanLoopState) (failed : bool)
    (code : option string) : list (string * Value) :=
  [("tool_output_stats", ToolOutputStats_as_json (re_tool_output_stats ex));
   ("health_signal", health_json st failed code);
   ("metrics", ExecutionMetrics_as_json (ls_metrics st))].
Definition route_fields (route : SafeLaneFailureRoute) : list (string * Value) :=
  [("route_decision", json_str (Route_decision_label route));
   ("route_reason", json_str (SafeLaneFailureRouteReason_as_str (ro_reason route)));
   ("route_source", json_str (Route_source_label route))].

Definition lane_selected_payload (d : LaneDecision) (turn : ProviderTurn)
    (g : SafeLaneSessionGovernorDecision) : Value :=
  JObject [("lane", json_str "safe"); ("risk_score", json_uint (ld_risk_score d));
           ("complexity_score", json_uint (ld_complexity_score d));
           ("reasons", json_strs (ld_reasons d));
           ("tool_intents", json_uint (len (pt_tool_intents turn)));
           ("session_governor", GovernorDecision_as_json g)].

(** The head of an iteration: the verification policy is refreshed and the
    round announced. *)
Definition begin_round (st : SafeLanePlanLoopState) (w : LaneWorld W) :
    SafeLanePlanLoopState * LaneWorld W :=
  let '(adjusted, st) := refresh_verify_policy c st in
  let w := match adjusted with
    | Some min_anchor_matches =>
        emit_safe_lane_event "verify_policy_adjusted"
          (JObject [("round", json_uint (ls_round st));
                    ("policy", json_str "adaptive_anchor_escalation");
                    ("min_anchor_matches", json_uint min_anchor_matches);
                    ("verify_failures", json_uint (sm_verify_failures (ls_metrics st)));
                    ("escalation_after_failures",
                       json_uint (safe_lane_verify_anchor_escalation_after_failures c));
                    ("metrics", ExecutionMetrics_as_json (ls_metrics st))]) w
    | None => w
    end in
  let st := note_round_started st in
  (st, emit_safe_lane_event "plan_round_started"
    (JObject [("round", json_uint (ls_round st));
              ("start_tool_index", json_uint (Z.of_nat (ls_plan_start_tool_index st)));
              ("tool_node_max_attempts", json_uint (ls_tool_node_max_attempts st));
              ("effective_max_rounds", json_uint (ls_max_rounds st));
              ("effective_max_node_attempts", json_uint (ls_max_node_attempts st));
              ("verify_min_anchor_matches", json_uint (ls_min_anchor_matches st));
              ("session_governor", GovernorDecision_as_json (ls_governor st));
              ("metrics", ExecutionMetrics_as_json (ls_metrics st))]) w).

(** [final_status] of a failed turn, and its outcome *)
Definition finish_failed (summary : string) (r : TurnResult) (route : SafeLaneFailureRoute)
    (ex : SafeLaneRoundExecution) (st : SafeLanePlanLoopState) (w : LaneWorld W) :
    SafeLaneTurnOutcome * LaneWorld W :=
  let failure_meta := TurnResult_failure r in
  (mkSafeLaneTurnOutcome r (Some route),
   emit_safe_lane_event "final_status"
    (JObject ([("status", json_str "failed"); ("round", json_uint (ls_round st));
               ("failure", json_str summary);
               ("failure_kind", json_opt (λ f, json_str (format_turn_failure_kind (tf_kind f))) failure_meta);
               ("failure_code", json_opt (λ f, json_str (tf_code f)) failure_meta);
               ("failure_retryable", json_opt (λ f, json_bool (tf_retryable f)) failure_meta)]
              ++ route_fields route ++ round_fields ex st true (tf_code <$> failure_meta))) w).

Inductive RoundStep :=
| Step_Done (outcome : SafeLaneTurnOutcome) (st : SafeLanePlanLoopState)
| Step_Again (st : SafeLanePlanLoopState).

(** The arm [PlanRunStatus::Succeeded] *)
Definition after_success (turn : ProviderTurn) (ex : SafeLaneRoundExecution) (st : SafeLanePlanLoopState)
    (w : LaneWorld W) : RoundStep * LaneWorld W :=
  let st := note_round_succeeded st in
  let w := emit_safe_lane_event "plan_round_completed"
    (JObject ([("round", json_uint (ls_round st)); ("status", json_str "succeeded");
               ("attempts_used", json_uint (prr_attempts_used (re_report ex)));
               ("elapsed_ms", json_uint (prr_elapsed_ms (re_report ex)))]
              ++ round_fields ex st false None)) w in
  let tool_output := join (String newline "") (re_tool_outputs ex) in
  let verify_report := verify_safe_lane_final_output c tool_output (pt_tool_intents turn)
                         (ls_min_anchor_matches st) in
  if vr_passed verify_report then
    (Step_Done (mkSafeLaneTurnOutcome (TR_FinalText tool_output) None) st,
     emit_safe_lane_event "final_status"
      (JObject ([("status", json_str "succeeded"); ("round", json_uint (ls_round st))]
                ++ round_fields ex st false None)) w)
  else
    let verify_error := join "," (vr_failure_reasons verify_report) in
    let failure_codes := format_verification_failure_code <$> vr_failure_codes verify_report in
    let retryable_verify_failure := should_replan_for_verification_failure verify_report in
    let verify_failure := turn_failure_from_verify_failure verify_error retryable_verify_failure in
    let st := note_verify_failure st in
    let verify_route := decide_safe_lane_failure_route c verify_failure (ls_replan_budget st)
                          (ls_metrics st) (ls_governor st) in
    let w := emit_safe_lane_event "verify_failed"
      (JObject ([("round", json_uint (ls_round st)); ("error", json_str verify_error);
                 ("failure_codes", json_strs failure_codes);
                 ("retryable", json_bool retryable_verify_failure);
                 ("failure_kind", json_str (format_turn_failure_kind (tf_kind verify_failure)));
                 ("failure_code", json_str (tf_code verify_failure));
                 ("failure_retryable", json_bool (tf_retryable verify_failure))]
                ++ route_fields verify_route ++ round_fields ex st false None)) w in
    match decide_safe_lane_verify_failure_action verify_error retryable_verify_failure verify_route with
    | Round_Finalize r =>
        let '(outcome, w) :=
          finish_failed (verify_terminal_summary_label verify_route) r verify_route ex st w in
        (Step_Done outcome st, w)
    | Round_Replan reason next_plan_start_tool_index next_seed_tool_outputs =>
        let st := note_replan next_plan_start_tool_index next_seed_tool_outputs st in
        (Step_Again st, emit_safe_lane_event "replan_triggered"
          (JObject ([("round", json_uint (ls_round st)); ("reason", json_str reason);
                     ("detail", json_str verify_error)]
                    ++ route_fields verify_route ++ round_fields ex st false None)) w)
    end.

(** The arm [PlanRunStatus::Failed(failure)] *)
Definition after_failure (turn : ProviderTurn) (failure : PlanRunFailure) (ex : SafeLaneRoundExecution)
    (st : SafeLanePlanLoopState) (w : LaneWorld W) : RoundStep * LaneWorld W :=
  let st := note_round_failed st in
  let round_failure_meta := turn_failure_from_plan_failure failure in
  let route := decide_safe_lane_failure_route c round_failure_meta (ls_replan_budget st)
                 (ls_metrics st) (ls_governor st) in
  let failure_summary := summarize_plan_failure failure in
  let w := emit_safe_lane_event "plan_round_completed"
    (JObject ([("round", json_uint (ls_round st)); ("status", json_str "failed");
               ("attempts_used", json_uint (prr_attempts_used (re_report ex)));
               ("elapsed_ms", json_uint (prr_elapsed_ms (re_report ex)));
               ("failure", json_str failure_summary);
               ("failure_kind", json_str (format_turn_failure_kind (tf_kind round_failure_meta)));
               ("failure_code", json_str (tf_code round_failure_meta));
               ("failure_retryable", json_bool (tf_retryable round_failure_meta))]
              ++ route_fields route ++ round_fields ex st false None)) w in
  let '(next_start_tool_index, next_seed_outputs) :=
    if Route_should_replan route then
      derive_replan_cursor failure (re_tool_outputs ex) (length (pt_tool_intents turn))
    else (0, []) in
  match decide_safe_lane_plan_failure_action failure route next_start_tool_index next_seed_outputs with
  | Round_Finalize r =>
      let '(outcome, w) := finish_failed failure_summary r route ex st w in
      (Step_Done outcome st, w)
  | Round_Replan reason next_plan_start_tool_index next_seed_tool_outputs =>
      let st := note_replan next_plan_start_tool_index next_seed_tool_outputs st in
      (Step_Again st, emit_safe_lane_event "replan_triggered"
        (JObject ([("round", json_uint (ls_round st)); ("reason", json_str reason);
                   ("restart_tool_index", json_uint (Z.of_nat (ls_plan_start_tool_index st)));
                   ("seeded_outputs", json_uint (len next_seed_tool_outputs))]
                  ++ route_fields route ++ round_fields ex st false None)) w)
  end.

(** One iteration of the loop *)
Definition safe_lane_round (d : LaneDecision) (turn : ProviderTurn) (st : SafeLanePlanLoopState)
    (w : LaneWorld W) : RoundStep * LaneWorld W :=
  let '(st, w) := begin_round st w in
  let '(ex, env) := evaluate_safe_lane_round d turn st (lw_env w) in
  let w := mkLaneWorld env (lw_emitted w) in
  let st := record_round_execution (re_report ex) (re_tool_output_stats ex) st in
  match prr_status (re_report ex) with
  | Run_Succeeded => after_success turn ex st w
  | Run_Failed failure => after_failure turn failure ex st w
  end.

(** [loop]; [None] when the fuel runs out. *)
Fixpoint safe_lane_loop (fuel : nat) (d : LaneDecision) (turn : ProviderTurn)
    (st : SafeLanePlanLoopState) (w : LaneWorld W) :
    option (SafeLaneTurnOutcome * SafeLanePlanLoopState * LaneWorld W) :=
  match fuel with
  | O => None
  | S fuel =>
      match safe_lane_round d turn st w with
      | (Step_Done outcome st, w) => Some (outcome, st, w)
      | (Step_Again st, w) => safe_lane_loop fuel d turn (advance_round st) w
      end
  end.

Definition no_history (status : SafeLaneGovernorHistoryLoadStatus)
    (error : option AssistantHistoryLoadErrorCode) : SafeLaneGovernorHistorySignals :=
  mkSafeLaneGovernorHistorySignals status error 0 0 [] [].

Definition load_safe_lane_history_signals_for_governor (w : W) : SafeLaneGovernorHistorySignals * W :=
  if negb (cv_safe_lane_session_governor_enabled c) then (no_history History_Disabled None, w)
  else
    match load_history (safe_lane_session_governor_window_turns c) w with
    | (Ok signals, w) => (signals, w)
    | (Err error, w) => (no_history History_Unavailable (Some error), w)
    end.

(** The counter of rounds is a [u8]: 256 iterations are enough. *)
Definition execute_turn_with_safe_lane_plan (d : LaneDecision) (turn : ProviderTurn) (w : LaneWorld W) :
    option (SafeLaneTurnOutcome * SafeLanePlanLoopState * LaneWorld W) :=
  let '(signals, env) := load_safe_lane_history_signals_for_governor (lw_env w) in
  let governor := decide_safe_lane_session_governor c signals in
  let w := emit_safe_lane_event "lane_selected" (lane_selected_payload d turn governor)
             (mkLaneWorld env (lw_emitted w)) in
  safe_lane_loop 256 d turn (LoopState_new c governor) w.
End safe_lane.
