(* ===== verification/SafeLanePlan.v ===== *)
(** * SafeLanePlan: the plans the safe lane builds

    A built plan is a chain of nodes: the tools that are left, the check of
    their outputs, the reply. It is valid exactly when it has at most sixteen
    nodes, and the executor runs a chain from its head to its end. *)
From S2P Require Import Prelude RustStr Contracts Turn PlanGraph PlanExecutor PlanExecutorProps.
From S2P Require Import LaneArbiter ConversationConfig SafeLaneRoute.
From Stdlib Require Import Ascii.

(** ** Names of nodes *)

Lemma display_inj a b : (0 ≤ a)%Z → (0 ≤ b)%Z → display a = display b → a = b.
Proof.
  intros Ha Hb Heq. pose proof (parse_unsigned_display (Z.max a b) a ltac:(lia)) as H1.
  pose proof (parse_unsigned_display (Z.max a b) b ltac:(lia)) as H2.
  rewrite Heq in H1. rewrite H1 in H2. by injection H2.
Qed.

Lemma app_inj_r_str s t u : s +:+ t = s +:+ u → t = u.
Proof. induction s as [|a s IH]; simpl; [done|]. intros [= H]. by apply IH. Qed.

Lemma tool_node_id_inj i j : tool_node_id i = tool_node_id j → i = j.
Proof. intros H%app_inj_r_str%display_inj; lia. Qed.

Lemma parse_tool_node_id i : (Z.of_nat (S i) ≤ u64_max)%Z →
  parse_tool_node_index (tool_node_id i) = Ok i.
Proof.
  intros Hi. unfold parse_tool_node_index, tool_node_id.
  replace (strip_prefix "tool-" ("tool-" +:+ display (Z.of_nat (S i))))
    with (Some (display (Z.of_nat (S i)))) by (symmetry; by apply strip_prefix_Some).
  unfold parse_usize. rewrite parse_unsigned_display by lia.
  destruct (Z.eqb_spec (Z.of_nat (S i)) 0); [lia|]. f_equal. lia.
Qed.

(** A byte that is no part of a white space character survives trimming. *)
Lemma trim_with_keeps w2 w3 a n s : String.length s ≤ n →
  ws1 a = false → (∀ x, w2 x a = false) → (∀ x y, w3 x y a = false) →
  trim_with w2 w3 (s +:+ String a "") ≠ "".
Proof.
  intros Hn H1 H2 H3. revert s Hn. induction n as [|n IH]; intros s Hn.
  { rewrite (length_nil_str s) by lia. simpl. by rewrite H1. }
  destruct s as [|x s]; [simpl; by rewrite H1|]. rewrite app_cons_str. simpl. simpl in Hn.
  destruct (ws1 x); [apply IH; lia|].
  destruct s as [|y s]; rewrite ?app_nil_l_str, ?app_cons_str; [by rewrite H2|]. simpl in Hn.
  destruct (w2 x y); [apply IH; lia|].
  destruct s as [|z s]; rewrite ?app_nil_l_str, ?app_cons_str; [by rewrite H3|]. simpl in Hn.
  destruct (w3 x y z); [apply IH; lia|done].
Qed.

Lemma trim_head_t s : trim (String "t"%char s) ≠ "".
Proof.
  unfold trim, trim_end. assert (trim_start (String "t"%char s) = String "t"%char s) as ->.
  { apply trim_with_id. destruct s as [|b [|c s]]; reflexivity. }
  intros H%(f_equal String.rev). rewrite rev_rev_str, rev_cons_str in H. revert H.
  apply (trim_with_keeps _ _ _ (String.length (String.rev s))); done.
Qed.

(** ** Chains *)

Lemma chain_edges_iff nodes a b : mkPlanEdge a b ∈ chain_edges nodes ↔
  ∃ i, (pn_id <$> nodes) !! i = Some a ∧ (pn_id <$> nodes) !! S i = Some b.
Proof.
  induction nodes as [|x [|y nodes] IH]; simpl.
  - split; [by intros ?%elem_of_nil|by intros (i & ? & ?)].
  - split; [by intros ?%elem_of_nil|]. by intros (i & ? & ?).
  - rewrite elem_of_cons, IH. split.
    + intros [[= -> ->]|(i & Ha & Hb)]; [by exists 0|by exists (S i)].
    + intros ([|i] & Ha & Hb); simpl in *; [left; by simplify_eq|right; by exists i].
Qed.

(** A plan whose edges chain its nodes. *)
Definition chain_plan (g : PlanGraph) : Prop := pg_edges g = chain_edges (pg_nodes g).

Lemma chain_edge g a b : chain_plan g → plan_edge g a b ↔
  ∃ i, plan_ids g !! i = Some a ∧ plan_ids g !! S i = Some b.
Proof. unfold chain_plan, plan_edge. intros ->. apply chain_edges_iff. Qed.

Lemma chain_path g a b : chain_plan g → NoDup (plan_ids g) → tc (plan_edge g) a b →
  ∃ i j, i < j ∧ plan_ids g !! i = Some a ∧ plan_ids g !! j = Some b.
Proof.
  intros Hc Hnd. induction 1 as [a b (i & Ha & Hb)%(chain_edge _ _ _ Hc)
    |a b e (i & Ha & Hb)%(chain_edge _ _ _ Hc) _ (j & k & Hjk & Hj & Hk)].
  - exists i, (S i). auto.
  - assert (j = S i) as -> by (by eapply NoDup_lookup). exists i, k. split; [lia|done].
Qed.

Lemma chain_acyclic g : chain_plan g → NoDup (plan_ids g) → ∀ a, ¬ tc (plan_edge g) a a.
Proof.
  intros Hc Hnd a Ht. destruct (chain_path _ _ _ Hc Hnd Ht) as (i & j & Hij & Hi & Hj).
  assert (i = j) by (by eapply NoDup_lookup). lia.
Qed.

(** A chain has one execution order. *)
Lemma chain_order g order : chain_plan g → NoDup (plan_ids g) → execution_order g order →
  order = seq 0 (length (pg_nodes g)).
Proof.
  intros Hc Hnd [Hperm Hdep].
  assert (length order = length (pg_nodes g)) as Hlen by (by rewrite Hperm, length_seq).
  assert (∀ k, k ≤ length order → take k order = seq 0 k) as Hk.
  { induction k as [|k IH]; intros Hle; [done|]. specialize (IH ltac:(lia)).
    destruct (lookup_lt_is_Some_2 order k) as [j Hj]; [lia|].
    pose proof (take_drop_middle _ _ _ Hj) as Hsplit. symmetry in Hsplit. rewrite IH in Hsplit.
    rewrite (take_S_r _ _ _ Hj), IH, seq_S. f_equal. f_equal.
    assert (NoDup order) as Hndo by (rewrite Hperm; apply NoDup_seq).
    assert (j < length (pg_nodes g)) as Hjn.
    { assert (j ∈ order) as Hin by (by eapply list_elem_of_lookup_2).
      rewrite Hperm in Hin. apply elem_of_seq in Hin. lia. }
    assert (¬ j < k) as Hjk.
    { intros Hlt. rewrite Hsplit in Hndo. apply NoDup_app in Hndo as (_ & Hd & _).
      apply (Hd j); [apply elem_of_seq; lia|]. by left. }
    destruct (decide (j = k)) as [|Hne]; [simpl; lia|]. exfalso.
    rewrite <-length_plan_ids in Hjn.
    destruct (lookup_lt_is_Some_2 (plan_ids g) j Hjn) as [b Hb].
    destruct (lookup_lt_is_Some_2 (plan_ids g) (pred j)) as [a Ha]; [lia|].
    destruct (Hdep _ _ _ Hsplit a b) as (i & Hin & Hi); [|done|].
    - apply chain_edge; [done|]. exists (pred j). by rewrite Nat.succ_pred by lia.
    - assert (i = pred j) as -> by (by eapply (NoDup_lookup (plan_ids g))). apply elem_of_seq in Hin. lia. }
  rewrite <-(firstn_all order), Hlen. apply Hk. lia.
Qed.

Lemma ordered_nodes_seq {A} (l nodes : list A) :
  Forall2 (λ i x, l !! i = Some x) (seq 0 (length l)) nodes → nodes = l.
Proof.
  intros H. apply list_eq_same_length with (n := length l); [done| |].
  - by rewrite <-(Forall2_length _ _ _ H), length_seq.
  - intros i x y Hi Hx Hy. eapply Forall2_lookup_r in Hx as (j & Hj & Hx); [|done].
    apply lookup_seq in Hj as [-> _]. simpl in Hx. congruence.
Qed.

(** ** Built plans *)

Section built.
  Context (c : ConversationConfig) (d : LaneDecision) (turn : ProviderTurn) (k : Z) (start : nat).
  Context (Hk : (1 ≤ k ≤ u8_max)%Z).

Abbreviation built := (build_safe_lane_plan_graph c d turn k start).
Abbreviation tools := (imap (tool_node (select_safe_lane_risk_tier c d) k) (pt_tool_intents turn)).
Definition tail_nodes : list PlanNode :=
  (if cv_safe_lane_verify_output_non_empty c then [verify_node] else []) ++ [respond_node].

(** The number of nodes of the plan. *)
Definition built_size : nat :=
  (length (pt_tool_intents turn) - start) + (if cv_safe_lane_verify_output_non_empty c then 2 else 1).

Lemma built_nodes : pg_nodes built = drop start tools ++ tail_nodes.
Proof.
  unfold build_safe_lane_plan_graph. cbn [pg_nodes]. f_equal.
  destruct (Nat.le_ge_cases start (length (pt_tool_intents turn))).
  - by rewrite Nat.min_l by done.
  - rewrite Nat.min_r, !drop_ge by (rewrite ?length_imap; lia). done.
Qed.

Lemma built_length : length (pg_nodes built) = built_size.
Proof.
  rewrite built_nodes, length_app, length_drop, length_imap. unfold built_size, tail_nodes.
  by destruct (cv_safe_lane_verify_output_non_empty c).
Qed.

Lemma built_chain : chain_plan built.
Proof. done. Qed.

(** The node of each kind. *)
Lemma built_node node : node ∈ pg_nodes built →
  (∃ i intent, pt_tool_intents turn !! i = Some intent ∧
     node = tool_node (select_safe_lane_risk_tier c d) k i intent) ∨
  node = verify_node ∨ node = respond_node.
Proof.
  rewrite built_nodes. unfold tail_nodes. rewrite !elem_of_app. intros [Hn|Hn].
  - left. apply list_elem_of_lookup in Hn as [i Hi]. rewrite lookup_drop, list_lookup_imap in Hi.
    destruct (pt_tool_intents turn !! (start + i)) as [intent|] eqn:Hin; [|done]. simplify_eq/=. eauto.
  - right. destruct (cv_safe_lane_verify_output_non_empty c); set_solver.
Qed.

Lemma built_attempts node : node ∈ pg_nodes built → (1 ≤ pn_max_attempts node ≤ k)%Z.
Proof. intros [(i & intent & _ & ->)|[->| ->]]%built_node; simpl; lia. Qed.

Lemma built_ids : NoDup (plan_ids built).
Proof.
  unfold plan_ids. rewrite built_nodes, fmap_app. apply NoDup_app. split; [|split].
  - rewrite fmap_drop, fmap_imap. eapply sublist_NoDup; [|apply sublist_drop].
    apply NoDup_alt. intros i j x Hi Hj. rewrite list_lookup_imap in Hi, Hj.
    destruct (_ !! i); [|done]. destruct (_ !! j); [|done]. simplify_eq/=. symmetry.
    by apply tool_node_id_inj.
  - intros x Hx Ht. rewrite fmap_drop in Hx. apply list_elem_of_lookup in Hx as [i Hi].
    rewrite lookup_drop, list_lookup_fmap, list_lookup_imap in Hi.
    destruct (_ !! _) as [intent|]; [|done]. simplify_eq/=. unfold tail_nodes in Ht.
    destruct (cv_safe_lane_verify_output_non_empty c); simpl in Ht;
      repeat (apply elem_of_cons in Ht as [Ht|Ht]; [done|]); by apply elem_of_nil in Ht.
  - unfold tail_nodes. destruct (cv_safe_lane_verify_output_non_empty c); simpl; apply NoDup_alt;
      intros [|[|i]] [|[|j]] x Hi Hj; simplify_eq/=; done.
Qed.

Lemma attempts_sum_le nodes t :
  (foldl (λ total node, sat_add total (pn_max_attempts node)) t nodes
   ≤ t + foldr Z.add 0 (pn_max_attempts <$> nodes))%Z.
Proof.
  revert t. induction nodes as [|n nodes IH]; intros t; csimpl; [lia|].
  specialize (IH (sat_add t (pn_max_attempts n))).
  assert (sat_add t (pn_max_attempts n) ≤ t + pn_max_attempts n)%Z by (unfold sat_add; lia). lia.
Qed.

Lemma attempts_sum_bound nodes : (∀ node, node ∈ nodes → (1 ≤ pn_max_attempts node ≤ k)%Z) →
  (foldr Z.add 0 (pn_max_attempts <$> nodes) ≤ k * len nodes)%Z.
Proof.
  induction nodes as [|n nodes IH]; intros Hn; [unfold len; simpl; lia|]. rewrite len_cons. csimpl.
  pose proof (Hn n ltac:(by left)). specialize (IH ltac:(intros; apply Hn; by right)). lia.
Qed.

Lemma built_budget : (plan_attempts built ≤ pb_max_total_attempts (pg_budget built))%Z.
Proof.
  unfold plan_attempts. pose proof (attempts_sum_le (pg_nodes built) 0). simpl in *. lia.
Qed.

Lemma built_small : built_size ≤ 16 → plan_fits built ∧ plan_typed built ∧ plan_wf built.
Proof.
  intros Hs. rewrite <-built_length in Hs.
  pose proof (attempts_sum_bound (pg_nodes built) built_attempts) as Hsum.
  assert (len (pg_nodes built) ≤ 16)%Z as Hlen by (unfold len; lia).
  split; [split|split; [split|split]].
  - unfold is_u64, u64_max, len in *. lia.
  - assert (∀ l, length (chain_edges l) ≤ length l) as Hce.
    { induction l as [|x [|y l] IH]; simpl in *; lia. }
    pose proof (Hce (pg_nodes built)). unfold u64_max, len. change (pg_edges built) with
      (chain_edges (pg_nodes built)). lia.
  - intros node Hn%built_attempts. lia.
  - change (pb_max_total_attempts (pg_budget built)) with
      (Z.max (foldr Z.add 0 (pn_max_attempts <$> pg_nodes built)) 1)%Z. unfold u64_max, u8_max in *. nia.
  - rewrite built_nodes. unfold tail_nodes. by destruct (drop start tools), (cv_safe_lane_verify_output_non_empty c).
  - done.
  - intros node Hn. pose proof (built_attempts node Hn).
    apply built_node in Hn as [(i & intent & _ & ->)|[->| ->]]; simpl; (split; [|lia]).
    + apply trim_head_t.
    + by vm_compute.
    + by vm_compute.
  - apply built_ids.
  - apply built_budget.
  - intros a b (i & Ha & Hb)%(chain_edge _ _ _ built_chain).
    split; by eapply list_elem_of_lookup_2.
  - apply chain_acyclic; [apply built_chain|apply built_ids].
Qed.

Lemma built_too_big : 16 < built_size → ∃ error, PlanGraph_validate built = Err error.
Proof.
  intros Hs. rewrite <-built_length in Hs. unfold PlanGraph_validate.
  destruct (bool_decide_reflect (pg_nodes built = [])) as [He|_]; [rewrite He in Hs; simpl in Hs; lia|].
  change (pb_max_nodes (pg_budget built)) with 16%Z.
  destruct (Z.ltb_spec 16 (len (pg_nodes built))); [by eexists|unfold len in *; lia].
Qed.

Lemma built_valid_iff : PlanGraph_validate built = Ok () ↔ built_size ≤ 16.
Proof.
  destruct (Nat.le_gt_cases built_size 16) as [Hs|Hs].
  - destruct (built_small Hs) as (Hf & _ & Hwf). split; [done|]. intros _. by apply validate_complete.
  - destruct (built_too_big Hs) as [e ->]. split; [done|lia].
Qed.
End built.

(** The plans of the safe lane are always accepted while they are small: for
    any configuration, lane decision, turn, restart index and attempt limit, a
    built plan is a well-formed chain, and the validator refuses it exactly when
    the tools that are left, the optional check and the reply exceed sixteen
    nodes. *)
Theorem safe_lane_plan_valid_iff_small c d turn k start : (1 ≤ k ≤ u8_max)%Z →
  let plan := build_safe_lane_plan_graph c d turn k start in
  (PlanGraph_validate plan = Ok () ↔
     length (pt_tool_intents turn) - start
     + (if cv_safe_lane_verify_output_non_empty c then 2 else 1) ≤ 16) ∧
  (PlanGraph_validate plan = Ok () → plan_wf plan ∧
     ∀ order, topological_order plan = Some order → order = seq 0 (length (pg_nodes plan))).
Proof.
  intros Hk plan. pose proof (built_valid_iff c d turn k start Hk) as Hiff. split; [done|].
  intros Hs%Hiff. destruct (built_small c d turn k start Hk Hs) as (Hf & _ & Hwf). split; [done|].
  intros order Ho. destruct (topological_order_wf plan Hf Hwf) as (order' & Ho' & Hex).
  rewrite Ho' in Ho. injection Ho as <-. apply chain_order; [done|apply (pw_unique _ Hwf)|done].
Qed.

Module SafeLanePlanDemo.

Definition turn_of (n : nat) : ProviderTurn :=
  mkProviderTurn "" (replicate n (mkToolIntent "file.read" JNull "provider" "s" "t" "c")) JNull.
Definition decision : LaneDecision := mkLaneDecision Lane_Safe 4 0 [].

(** Fifteen tools are refused. *)
Example fifteen_tools :
  PlanGraph_validate (build_safe_lane_plan_graph ConversationConfig_default decision (turn_of 15) 2 0)
  = Err "plan graph node budget exceeded actual=17 limit=16".
Proof. vm_compute. reflexivity. Qed.

Lemma plan_witness :
  PlanGraph_validate (build_safe_lane_plan_graph ConversationConfig_default decision (turn_of 14) 2 0) = Ok ().
Proof.
  apply (proj2 (proj1 (safe_lane_plan_valid_iff_small ConversationConfig_default decision (turn_of 14) 2 0
    ltac:(unfold u8_max; lia)))). vm_compute. lia.
Defined.

End SafeLanePlanDemo.
