(* ===== verification/SafeLaneProps.v ===== *)
(** * SafeLaneProps: what a safe-lane turn guarantees

    Facts about the loop of [SafeLane.v] that hold for every configuration,
    every history and every behaviour of the tools: it ends within its budgets,
    a reply joins exactly one answer of each tool intent in order, denials are
    final, and the emitted events tell how the turn ended. *)
From S2P Require Import Prelude RustStr Contracts Json Turn PlanGraph PlanExecutor.
From S2P Require Import PlanExecutorProps PlanVerifier LaneArbiter SafeLaneFailure ConversationConfig.
From S2P Require Import SafeLanePolicy SafeLaneRoute SafeLane SafeLanePlan.

(** ** Routes *)

(** The failures a round can end with. *)
Inductive round_failure : TurnFailure → Prop :=
| rf_plan f : round_failure (turn_failure_from_plan_failure f)
| rf_verify e r : round_failure (turn_failure_from_verify_failure e r).

(** What the guard against runaway turns still allows. *)
Definition guard_allows (c : ConversationConfig) (m : SafeLaneExecutionMetrics) : Prop :=
  cv_safe_lane_backpressure_guard_enabled c = true →
  (sm_total_attempts_used m < safe_lane_backpressure_max_total_attempts c)%Z ∧
  (sm_replans_triggered m < safe_lane_backpressure_max_replans c)%Z.

Lemma route_from_round_failure f b : round_failure f →
  Route_should_replan (Route_from_failure f b) = true ↔
  tf_kind f = TF_Retryable ∧ (sr_current_round b < sr_max_replans b)%Z.
Proof.
  intros Hf. unfold Route_from_failure, SafeLaneReplanBudget_continuation_decision.
  destruct (Z.ltb_spec (sr_current_round b) (sr_max_replans b)); [|split; [done|lia]].
  assert (∀ x, x = true ↔ tf_kind f = TF_Retryable → x = true ↔ tf_kind f = TF_Retryable ∧
    (sr_current_round b < sr_max_replans b)%Z) as Hx by tauto. apply Hx. clear Hx.
  destruct Hf as [[| | | |n a [] e]|e []]; split; done.
Qed.

Lemma guard_spec c m r :
  Route_should_replan (with_backpressure_guard r (safe_lane_backpressure_budget c) m) = true ↔
  Route_should_replan r = true ∧ guard_allows c m.
Proof.
  unfold with_backpressure_guard, guard_allows, safe_lane_backpressure_budget.
  destruct (Route_should_replan r) eqn:Hr; [|simpl; rewrite Hr; naive_solver]. simpl.
  destruct (cv_safe_lane_backpressure_guard_enabled c); [|rewrite Hr; naive_solver].
  unfold SafeLaneBackpressureBudget_continuation_decision, SafeLaneBackpressureBudget_new,
    safe_lane_backpressure_max_total_attempts, safe_lane_backpressure_max_replans. cbn [bp_max_total_attempts bp_max_replans].
  destruct (Z.leb_spec (Z.max (Z.max (cv_safe_lane_backpressure_max_total_attempts c) 1) 1)
    (sm_total_attempts_used m)).
  { split; [done|]. intros [_ Hg]. specialize (Hg eq_refl). lia. }
  destruct (Z.leb_spec (Z.max (Z.max (cv_safe_lane_backpressure_max_replans c) 1) 1)
    (sm_replans_triggered m)).
  { split; [done|]. intros [_ Hg]. specialize (Hg eq_refl). lia. }
  rewrite Hr. split; [|done]. intros _. split; [done|]. intros _. lia.
Qed.

Lemma governor_spec r g : Route_should_replan (with_session_governor_override r g) = Route_should_replan r.
Proof.
  unfold with_session_governor_override, Route_is_base_round_budget_terminal, Route_should_replan.
  destruct (gd_force_no_replan g); [simpl|done].
  destruct (ro_decision r) eqn:Hd; simpl; [by rewrite Hd|].
  destruct (_ && _); [done|by rewrite Hd].
Qed.

Lemma route_replans_iff c f b m g : round_failure f →
  Route_should_replan (decide_safe_lane_failure_route c f b m g) = true ↔
  tf_kind f = TF_Retryable ∧ (sr_current_round b < sr_max_replans b)%Z ∧ guard_allows c m.
Proof.
  intros Hf. unfold decide_safe_lane_failure_route. rewrite governor_spec, guard_spec.
  rewrite (route_from_round_failure _ _ Hf). tauto.
Qed.

Lemma guard_source c m r : ro_source r = Source_BaseRouting →
  ro_source (with_backpressure_guard r (safe_lane_backpressure_budget c) m) = Source_BackpressureGuard ↔
  Route_should_replan r = true ∧ ¬ guard_allows c m.
Proof.
  intros Hs. pose proof (guard_spec c m r) as Hg. unfold with_backpressure_guard in *.
  destruct (Route_should_replan r) eqn:Hr; cbn [negb] in *; [|rewrite Hs; split; [done|by intros []]].
  assert (guard_allows c m → Source_BaseRouting = Source_BackpressureGuard ↔ true = true ∧ ¬ guard_allows c m)
    as Hno by (intros Ha; split; [done|by intros []]).
  destruct (safe_lane_backpressure_budget c) as [b|]; [|rewrite Hs; rewrite Hr in Hg; by apply Hno, Hg].
  destruct (SafeLaneBackpressureBudget_continuation_decision _ _ _).
  - rewrite Hs. rewrite Hr in Hg. by apply Hno, Hg.
  - split; [|done]. intros _. split; [done|]. intros Ha.
    by pose proof (proj2 Hg (conj eq_refl Ha)).
Qed.

Lemma route_sources c f b m g : round_failure f →
  let r := decide_safe_lane_failure_route c f b m g in
  (ro_source r = Source_BackpressureGuard ↔
     tf_kind f = TF_Retryable ∧ (sr_current_round b < sr_max_replans b)%Z ∧ ¬ guard_allows c m) ∧
  (ro_source r = Source_SessionGovernor ↔
     gd_force_no_replan g = true ∧ (sr_max_replans b ≤ sr_current_round b)%Z).
Proof.
  intros Hf r. pose proof (route_from_round_failure f b Hf) as Hre. unfold r, decide_safe_lane_failure_route.
  assert (ro_source (Route_from_failure f b) = Source_BaseRouting ∧
    (Route_is_base_round_budget_terminal (Route_from_failure f b) = true ↔
     (sr_max_replans b ≤ sr_current_round b)%Z)) as [Hsrc Hbase].
  { clear -Hf. unfold Route_from_failure, SafeLaneReplanBudget_continuation_decision.
    destruct (Z.ltb_spec (sr_current_round b) (sr_max_replans b)); [|by split; [|split]].
    destruct Hf as [[| | | |n a [] e]|e []]; (split; [done|split; [done|lia]]). }
  pose proof (guard_source c m _ Hsrc) as Hg.
  set (base := Route_from_failure f b) in *. unfold with_session_governor_override.
  assert (Route_is_base_round_budget_terminal (with_backpressure_guard base
    (safe_lane_backpressure_budget c) m) = Route_is_base_round_budget_terminal base ∧
    ro_source (with_backpressure_guard base (safe_lane_backpressure_budget c) m) ≠ Source_SessionGovernor)
    as [-> Hns].
  { unfold with_backpressure_guard. destruct (Route_should_replan base) eqn:Hr; simpl; [|by rewrite Hsrc].
    assert (Route_is_base_round_budget_terminal base = false) as Hb.
    { apply not_true_is_false. rewrite Hbase. pose proof (proj1 Hre eq_refl) as [_ ?]. lia. }
    destruct (safe_lane_backpressure_budget c) as [bb|]; [|by rewrite Hsrc].
    destruct (SafeLaneBackpressureBudget_continuation_decision _ _ _); [by rewrite Hsrc|].
    rewrite Hb. done. }
  assert (∀ P : Prop, Route_should_replan base = true ∧ P ↔ tf_kind f = TF_Retryable ∧
    (sr_current_round b < sr_max_replans b)%Z ∧ P) as Hassoc by (intros P; rewrite Hre; tauto).
  rewrite <-Hassoc.
  destruct (gd_force_no_replan g); cbn [andb]; [|rewrite Hg; by split; [|split; [|intros []]]].
  destruct (Route_is_base_round_budget_terminal base) eqn:Hb; cbn [ro_source Route_terminal_with_source].
  - pose proof (proj1 Hbase eq_refl). split; [|done]. split; [done|]. intros [[_ ?]%Hre _]. lia.
  - rewrite Hg. split; [done|]. split; [done|]. by intros [_ ?%Hbase].
Qed.

(** Failure routes, exactly. When a round has failed, the turn is replanned
    if and only if the failure is retryable, a replanning round is left, and the
    backpressure guard, where it is enabled, has attempts and replans left. The
    route names the guard as its source exactly when only the guard stood in the
    way, and the session governor exactly when it forbids replans and no round is
    left; the governor never turns a terminal route into a replan. *)
Theorem failure_route_exact c f b m g : round_failure f →
  let r := decide_safe_lane_failure_route c f b m g in
  (Route_should_replan r = true ↔
     tf_kind f = TF_Retryable ∧ (sr_current_round b < sr_max_replans b)%Z ∧ guard_allows c m) ∧
  (ro_source r = Source_BackpressureGuard ↔
     tf_kind f = TF_Retryable ∧ (sr_current_round b < sr_max_replans b)%Z ∧ ¬ guard_allows c m) ∧
  (ro_source r = Source_SessionGovernor ↔
     gd_force_no_replan g = true ∧ (sr_max_replans b ≤ sr_current_round b)%Z).
Proof. intros Hf r. split; [by apply route_replans_iff|by apply route_sources]. Qed.

(** ** Rounds *)

Section rounds.
  Context {W : Type}.
  Context (timed_turn : Z → Z → ProviderTurn → W → option TurnResult * W).
  Context (elapsed : W → Z * W).
  Context (c : ConversationConfig) (turn : ProviderTurn).

Abbreviation intents := (pt_tool_intents turn).
Abbreviation execute_node := (node_execute timed_turn c intents).
Abbreviation clock := (elapsed_outputs elapsed).

(** The turn engine answered the intent with this text. *)
Definition answered (intent : ToolIntent) (out : string) : Prop :=
  ∃ deadline w r w',
    timed_turn (tool_result_payload_summary_limit_chars c) deadline (single_intent_turn intent) w
      = (Some r, w') ∧ tool_node_outcome r = Ok out.

Lemma clock_outputs st : ((clock st).2).2 = st.2.
Proof. unfold elapsed_outputs. by destruct (elapsed st.1). Qed.

Lemma execute_tool_node tier k i intent deadline a st out st' :
  intents !! i = Some intent → (Z.of_nat (S i) ≤ u64_max)%Z →
  execute_node deadline (tool_node tier k i intent) a st = (out, st') →
  match out with
  | Some (Ok _) => ∃ o, st'.2 = st.2 ++ [o] ∧ answered intent o
  | _ => st'.2 = st.2
  end.
Proof.
  intros Hi Hb. destruct st as [w outs]. unfold node_execute. cbn [pn_kind tool_node pn_id].
  rewrite parse_tool_node_id by done. rewrite Hi.
  destruct (timed_turn _ _ _ _) as [[r|] w1] eqn:Ht; [|by intros [= <- <-]].
  destruct (tool_node_outcome r) as [o|e] eqn:Ho; intros [= <- <-]; [|done].
  exists o. split; [done|]. by exists deadline, w, r, w1.
Qed.

Lemma execute_tail_node node deadline a st out st' :
  node = verify_node ∨ node = respond_node → execute_node deadline node a st = (out, st') → st' = st.
Proof.
  intros [->| ->]; destruct st; simpl; repeat case_match; by intros [= <- <-].
Qed.

Lemma attempts_tool lim tier k i intent a st evs v st' :
  intents !! i = Some intent → (Z.of_nat (S i) ≤ u64_max)%Z →
  attempts_trace execute_node clock lim (tool_node tier k i intent) a st evs v st' →
  match v with
  | V_Done => ∃ o, st'.2 = st.2 ++ [o] ∧ answered intent o
  | _ => st'.2 = st.2
  end.
Proof.
  intros Hi Hb. induction 1 as [a st e st1 He|a st e st1 st2 He _ Hx|a st e st1 out err st2 evs v st' He _ Hx Herr _ _ _ IH
    |a st e st1 out err st2 e' st3 He _ Hx Herr _ He'];
    pose proof (clock_outputs st) as Hc; rewrite He in Hc; simpl in Hc.
  - done.
  - apply (execute_tool_node _ _ _ _ _ _ _ _ _ Hi Hb) in Hx. by rewrite <-Hc.
  - apply (execute_tool_node _ _ _ _ _ _ _ _ _ Hi Hb) in Hx.
    destruct out as [[]|]; [done| |]; by rewrite <-Hc, <-Hx.
  - apply (execute_tool_node _ _ _ _ _ _ _ _ _ Hi Hb) in Hx.
    pose proof (clock_outputs st2) as Hc2. rewrite He' in Hc2. simpl in Hc2.
    destruct out as [[]|]; [done| |]; by rewrite Hc2, Hx.
Qed.

Lemma attempts_tail lim node a st evs v st' : node = verify_node ∨ node = respond_node →
  attempts_trace execute_node clock lim node a st evs v st' → st'.2 = st.2.
Proof.
  intros Hn. induction 1 as [a st e st1 He|a st e st1 st2 He _ Hx|a st e st1 out err st2 evs v st' He _ Hx Herr _ _ _ IH
    |a st e st1 out err st2 e' st3 He _ Hx Herr _ He'];
    pose proof (clock_outputs st) as Hc; rewrite He in Hc; simpl in Hc;
    try (apply (execute_tail_node _ _ _ _ _ _ Hn) in Hx as ->).
  - done.
  - done.
  - by rewrite IH.
  - pose proof (clock_outputs st1) as Hc2. rewrite He' in Hc2. simpl in Hc2. by rewrite Hc2.
Qed.
Lemma attempts_failed_id {V} (ex : Z → PlanNode → Z → V → option (result PlanNodeError unit) * V) cl
    lim node a st evs id n kind message st' :
  attempts_trace ex cl lim node a st evs (V_NodeFailed id n kind message) st' → id = pn_id node.
Proof. remember (V_NodeFailed id n kind message) as v eqn:Hv. induction 1; simplify_eq; auto. Qed.

(** Nodes that touch no output. *)
Lemma nodes_tail lim nodes st evs v st' : Forall (λ n, n = verify_node ∨ n = respond_node) nodes →
  nodes_trace execute_node clock lim nodes st evs v st' →
  st'.2 = st.2 ∧ ∀ id n kind message, v = V_NodeFailed id n kind message → id = "verify-1" ∨ id = "respond-1".
Proof.
  intros Hn Ht. induction Ht as [st|node nodes st evs st1 evs' v st' Ha Ht IH|node nodes st evs v st' Ha _].
  - done.
  - apply Forall_cons in Hn as [Hn1 Hn2]. destruct (IH Hn2) as [IH1 IH2]. split; [|done].
    by rewrite IH1, (attempts_tail _ _ _ _ _ _ _ Hn1 Ha).
  - apply Forall_cons in Hn as [Hn1 Hn2]. split; [by rewrite (attempts_tail _ _ _ _ _ _ _ Hn1 Ha)|].
    intros id n kind message ->. apply attempts_failed_id in Ha as ->. destruct Hn1 as [->| ->]; auto.
Qed.

Lemma tail_nodes_kinds : Forall (λ n, n = verify_node ∨ n = respond_node) (tail_nodes c).
Proof. unfold tail_nodes. destruct (cv_safe_lane_verify_output_non_empty c); simpl;
  repeat (apply Forall_cons_2; [auto|]); by apply Forall_nil. Qed.

(** The outputs a run leaves: one answer per tool before the point where it
    stopped. *)
Definition outputs_at (v : verdict) (outs : list string) : Prop :=
  match v with
  | V_Done => Forall2 answered intents outs
  | V_NodeFailed id _ _ _ =>
      (∃ k, k < length intents ∧ id = tool_node_id k ∧ Forall2 answered (take k intents) outs) ∨
      id = "verify-1" ∨ id = "respond-1"
  | V_Late _ => True
  end.

Lemma nodes_outputs lim tier k m s st evs v st' :
  m = length intents - s → s ≤ length intents → (len intents ≤ u64_max)%Z →
  Forall2 answered (take s intents) st.2 →
  nodes_trace execute_node clock lim (drop s (imap (tool_node tier k) intents) ++ tail_nodes c) st evs v st' →
  outputs_at v st'.2.
Proof.
  intros Hm Hs Hlen. revert s Hm Hs st evs. induction m as [|m IH]; intros s Hm Hs st evs Hseed Ht.
  - rewrite drop_ge in Ht by (rewrite length_imap; lia).
    apply (nodes_tail _ _ _ _ _ _ tail_nodes_kinds) in Ht as [Ho Hid]. rewrite Ho.
    rewrite take_ge in Hseed by lia. destruct v; [done|done|]. right. by eapply Hid.
  - destruct (lookup_lt_is_Some_2 intents s) as [intent Hi]; [lia|].
    assert (imap (tool_node tier k) intents !! s = Some (tool_node tier k s intent)) as Hi'
      by (by rewrite list_lookup_imap, Hi).
    rewrite (drop_S _ _ _ Hi') in Ht. simpl in Ht.
    assert (Z.of_nat (S s) ≤ u64_max)%Z as Hb by (unfold len in Hlen; lia).
    inversion Ht as [|? ? ? evs1 st1 evs' ? ? Ha Hn|? ? ? ? ? ? Ha Hne]; simplify_eq.
    + apply (attempts_tool _ _ _ _ _ _ _ _ _ _ Hi Hb) in Ha as (o & Ho & Hans).
      eapply (IH (S s)); [lia|lia| |exact Hn].
      rewrite (take_S_r _ _ _ Hi), Ho. apply Forall2_app; [done|]. by constructor.
    + pose proof (attempts_tool _ _ _ _ _ _ _ _ _ _ Hi Hb Ha) as Ho.
      destruct v as [|e|id n kind message]; [done|done|]. left. exists s.
      apply attempts_failed_id in Ha as ->. split; [lia|]. split; [done|]. by rewrite Ho.
Qed.
End rounds.

(** ** The loop invariant *)

(** The [u8] fields of the configuration are in range. *)
Definition config_typed (c : ConversationConfig) : Prop :=
  (0 ≤ cv_safe_lane_node_max_attempts c ≤ u8_max)%Z ∧
  (0 ≤ cv_safe_lane_replan_max_node_attempts c ≤ u8_max)%Z ∧
  (0 ≤ cv_safe_lane_replan_max_rounds c ≤ u8_max)%Z.

Section loop.
  Context {W : Type}.
  Context (timed_turn : Z → Z → ProviderTurn → W → option TurnResult * W).
  Context (elapsed : W → Z * W).
  Context (persist_event : string → Value → W → W).
  Context (record_audit_event : option string → AuditEventKind → W → W).
  Context (load_history : Z → W → result AssistantHistoryLoadErrorCode SafeLaneGovernorHistorySignals * W).
  Context (parse_json : string → option Value).
  Context (c : ConversationConfig) (kernel_ctx : option KernelIds).
  Context (d : LaneDecision) (turn : ProviderTurn).

Abbreviation intents := (pt_tool_intents turn).
Abbreviation ans := (answered timed_turn c).
Abbreviation evaluate := (evaluate_safe_lane_round timed_turn elapsed parse_json c d turn).
Abbreviation round :=
  (safe_lane_round timed_turn elapsed persist_event record_audit_event parse_json c kernel_ctx d turn).
Abbreviation begin := (begin_round persist_event record_audit_event c kernel_ctx).
Abbreviation succeed := (after_success persist_event record_audit_event c kernel_ctx turn).
Abbreviation fail := (after_failure persist_event record_audit_event c kernel_ctx turn).

(** Where the next plan starts: an answer is kept for each tool before it. *)
Record cursor_ok (start : nat) (seed : list string) : Prop := {
  cu_start : start ≤ length intents;
  cu_small : start = 0 ∨ length intents ≤ 16;
  cu_seed : Forall2 ans (take start intents) seed;
}.

Lemma cursor_zero : cursor_ok 0 [].
Proof. split; [lia|by left|]. simpl. constructor. Qed.

(** What a round's report says about its outputs. *)
Definition status_outputs (status : PlanRunStatus) (outs : list string) : Prop :=
  match status with
  | Run_Succeeded => Forall2 ans intents outs
  | Run_Failed f =>
      let '(start, seed) := derive_replan_cursor f outs (length intents) in cursor_ok start seed
  end.

Lemma cursor_of_failure id n kind message outs : length intents ≤ 16 →
  outputs_at timed_turn c turn (V_NodeFailed id n kind message) outs →
  status_outputs (Run_Failed (PRF_NodeFailed id n kind message)) outs.
Proof.
  intros Hsmall [(k & Hk & -> & Hans)|Hid]; simpl.
  - rewrite parse_tool_node_id by (unfold u64_max; lia). rewrite bool_decide_eq_true_2 by done.
    by split; [lia|right|].
  - destruct Hid as [->| ->]; apply cursor_zero.
Qed.

Lemma evaluate_outputs st w ex w' :
  (1 ≤ ls_tool_node_max_attempts st ≤ u8_max)%Z →
  cursor_ok (ls_plan_start_tool_index st) (ls_seed_tool_outputs st) →
  evaluate st w = (ex, w') →
  status_outputs (prr_status (re_report ex)) (re_tool_outputs ex) ∧
  (0 ≤ prr_attempts_used (re_report ex) ≤ 16 * ls_tool_node_max_attempts st)%Z.
Proof.
  intros Hk [Hstart Hsmall Hseed]. unfold evaluate_safe_lane_round.
  set (plan := build_safe_lane_plan_graph c d turn (ls_tool_node_max_attempts st) (ls_plan_start_tool_index st)).
  destruct (PlanExecutor_execute _ _ plan _) as [report [w1 outs]] eqn:Hx. intros [= <- <-].
  cbn [re_report re_tool_outputs].
  destruct (Nat.le_gt_cases (built_size c turn (ls_plan_start_tool_index st)) 16) as [Hs|Hs].
  - destruct (built_small c d turn _ (ls_plan_start_tool_index st) Hk Hs) as (Hf & Hty & Hwf).
    apply (execute_explained _ _ _ _ _ _ Hf Hty (validate_complete _ Hf Hwf)) in Hx
      as (order & nodes & v & [w2 outs2] & Hord & Hnodes & Htr & Hst & _ & Hused & Hle & Hw).
    rewrite (chain_order _ _ (built_chain _ _ _ _ _) (pw_unique _ Hwf) Hord) in Hnodes.
    apply ordered_nodes_seq in Hnodes as ->. unfold plan in Htr. rewrite built_nodes in Htr.
    assert (length intents ≤ 16) as Hn by (unfold built_size in Hs; destruct Hsmall as [Hz|]; [|done];
      rewrite Hz in Hs; lia).
    eapply (nodes_outputs timed_turn elapsed c turn) in Htr; [|reflexivity|done| |done];
      [|unfold len, u64_max; lia].
    simpl in Htr. assert (outs = outs2) as ->.
    { pose proof (clock_outputs elapsed (w2, outs2)) as Hc. destruct v; simplify_eq/=; [|done..].
      by rewrite <-Hw in Hc. }
    split.
    + rewrite Hst. destruct v as [|e|id n kind message]; [exact Htr|apply cursor_zero|].
      by apply cursor_of_failure.
    + split; [rewrite Hused; apply len_nonneg|]. etrans; [exact Hle|].
      unfold plan_attempts. etrans; [apply attempts_sum_le|].
      pose proof (attempts_sum_bound (ls_tool_node_max_attempts st) (pg_nodes plan)
        (built_attempts c d turn _ _ Hk)) as Hb.
      pose proof (built_length c d turn (ls_tool_node_max_attempts st) (ls_plan_start_tool_index st)) as Hl.
      fold plan in Hl. assert (len (pg_nodes plan) ≤ 16)%Z by (unfold len; lia).
      etrans; [apply Z.add_le_mono_l, Hb|]. nia.
  - destruct (built_too_big c d turn (ls_tool_node_max_attempts st) _ Hs) as [e He].
    fold plan in He. unfold PlanExecutor_execute in Hx. rewrite He in Hx. simplify_eq/=.
    split; [apply cursor_zero|lia].
Qed.

(** Before a round. *)
Record lane_inv (st : SafeLanePlanLoopState) : Prop := {
  li_cursor : cursor_ok (ls_plan_start_tool_index st) (ls_seed_tool_outputs st);
  li_attempts : (1 ≤ ls_tool_node_max_attempts st ≤ ls_max_node_attempts st)%Z;
  li_max_attempts : (ls_max_node_attempts st ≤ u8_max)%Z;
  li_rounds : (0 ≤ ls_round st ≤ ls_max_rounds st)%Z;
  li_max_rounds : (ls_max_rounds st ≤ u8_max)%Z;
  li_started : sm_rounds_started (ls_metrics st) = ls_round st;
  li_replans : sm_replans_triggered (ls_metrics st) = ls_round st;
  li_total : (0 ≤ sm_total_attempts_used (ls_metrics st))%Z;
  li_first : ls_round st = 0%Z → sm_total_attempts_used (ls_metrics st) = 0%Z;
  li_guard : cv_safe_lane_backpressure_guard_enabled c = true →
    (sm_total_attempts_used (ls_metrics st) < safe_lane_backpressure_max_total_attempts c)%Z ∧
    (ls_round st ≤ safe_lane_backpressure_max_replans c)%Z;
}.

(** How a turn may end. *)
Record lane_end (st : SafeLanePlanLoopState) (o : SafeLaneTurnOutcome) : Prop := {
  le_rounds : (0 ≤ ls_round st ≤ ls_max_rounds st)%Z;
  le_started : sm_rounds_started (ls_metrics st) = (ls_round st + 1)%Z;
  le_replans : sm_replans_triggered (ls_metrics st) = ls_round st;
  le_guard : cv_safe_lane_backpressure_guard_enabled c = true →
    (sm_total_attempts_used (ls_metrics st)
     < safe_lane_backpressure_max_total_attempts c + 16 * ls_max_node_attempts st)%Z ∧
    (ls_round st ≤ safe_lane_backpressure_max_replans c)%Z;
  le_reply : match so_result o with
    | TR_FinalText text =>
        so_terminal_route o = None ∧ ∃ outs, text = join (String newline "") outs ∧ Forall2 ans intents outs ∧
          vr_passed (verify_safe_lane_final_output c text intents (ls_min_anchor_matches st)) = true
    | TR_ToolDenied f | TR_ToolError f =>
        tf_retryable f = true → (ls_max_rounds st ≤ ls_round st)%Z
    | _ => False
    end;
  le_route : ∀ route, so_terminal_route o = Some route → Route_should_replan route = false;
}.

(** The state a round works on. *)
Record in_round (st st1 : SafeLanePlanLoopState) : Prop := {
  ir_governor : ls_governor st1 = ls_governor st;
  ir_budget : ls_replan_budget st1 = ls_replan_budget st;
  ir_attempts : ls_tool_node_attempt_budget st1 = ls_tool_node_attempt_budget st;
  ir_started : sm_rounds_started (ls_metrics st1) = sat_add32 (sm_rounds_started (ls_metrics st)) 1;
  ir_replans : sm_replans_triggered (ls_metrics st1) = sm_replans_triggered (ls_metrics st);
}.

Lemma begin_state st w st1 w1 : begin st w = (st1, w1) →
  in_round st st1 ∧ ls_plan_start_tool_index st1 = ls_plan_start_tool_index st ∧
  ls_seed_tool_outputs st1 = ls_seed_tool_outputs st ∧
  sm_total_attempts_used (ls_metrics st1) = sm_total_attempts_used (ls_metrics st).
Proof.
  unfold begin_round, refresh_verify_policy. destruct (_ =? _)%Z; intros [= <- _];
    (split; [by split|done]).
Qed.

(** The attempts of the round are counted. *)
Definition counted (st st2 : SafeLanePlanLoopState) : Prop :=
  (0 ≤ sm_total_attempts_used (ls_metrics st2)
     ≤ sm_total_attempts_used (ls_metrics st) + 16 * ls_max_node_attempts st)%Z.

(** What no step changes. *)
Definition same_limits (st st' : SafeLanePlanLoopState) : Prop :=
  ls_governor st' = ls_governor st ∧ ls_max_rounds st' = ls_max_rounds st ∧
  ls_max_node_attempts st' = ls_max_node_attempts st.

Lemma again_inv st st2 start seed : lane_inv st → in_round st st2 → counted st st2 →
  guard_allows c (ls_metrics st2) → (ls_round st < ls_max_rounds st)%Z → cursor_ok start seed →
  lane_inv (advance_round (note_replan start seed st2)) ∧
  ls_round (advance_round (note_replan start seed st2)) = (ls_round st + 1)%Z ∧
  same_limits st (advance_round (note_replan start seed st2)).
Proof.
  intros [Hcur Ha Hma Hr Hmr Hs Hp Ht Hf Hg] [Hgov Hb Hab Hst Hrp] [Hc1 Hc2] Hgu Hlt Hcu.
  unfold ls_round, ls_max_rounds, ls_tool_node_max_attempts, ls_max_node_attempts in *.
  unfold advance_round, note_replan, SafeLaneReplanBudget_after_replan,
    EscalatingAttemptBudget_after_retry, guard_allows in *.
  unfold same_limits, ls_max_rounds, ls_max_node_attempts.
  split; [|cbn; rewrite Hb, Hab; unfold sat_add8, u8_max in *; split; [lia|done]].
  split; cbn; rewrite ?Hb, ?Hab, ?Hst, ?Hrp; unfold sat_add8, sat_add32, u8_max, u32_max in *;
    try lia; try done.
  intros He. specialize (Hgu He). specialize (Hg He). rewrite Hrp in Hgu. lia.
Qed.

Lemma end_inv st st2 o : lane_inv st → in_round st st2 → counted st st2 →
  match so_result o with
  | TR_FinalText text =>
      so_terminal_route o = None ∧ ∃ outs, text = join (String newline "") outs ∧ Forall2 ans intents outs ∧
        vr_passed (verify_safe_lane_final_output c text intents (ls_min_anchor_matches st2)) = true
  | TR_ToolDenied f | TR_ToolError f => tf_retryable f = true → (ls_max_rounds st ≤ ls_round st)%Z
  | _ => False
  end →
  (∀ route, so_terminal_route o = Some route → Route_should_replan route = false) →
  lane_end st2 o ∧ same_limits st st2.
Proof.
  intros [Hcur Ha Hma Hr Hmr Hs Hp Ht Hf Hg] [Hgov Hb Hab Hst Hrp] [Hc1 Hc2] Hre Hro.
  unfold ls_round, ls_max_rounds, ls_tool_node_max_attempts, ls_max_node_attempts in *.
  split; [|by unfold same_limits, ls_max_rounds, ls_max_node_attempts; rewrite Hb, Hab].
  split; unfold ls_round, ls_max_rounds, ls_max_node_attempts; rewrite ?Hb, ?Hab; try done; try lia.
  - rewrite Hst. unfold sat_add32, u8_max, u32_max in *. lia.
  - intros He. specialize (Hg He). lia.
Qed.

Lemma verify_failure_round e r : tf_kind (turn_failure_from_verify_failure e r) = TF_Retryable → r = true.
Proof. by destruct r. Qed.

(** A step of the loop, given what the round left. *)
Definition step_ok (st : SafeLanePlanLoopState) (step : RoundStep) : Prop :=
  match step with
  | Step_Done o st' => lane_end st' o ∧ same_limits st st'
  | Step_Again st' =>
      lane_inv (advance_round st') ∧ (ls_round st < ls_max_rounds st)%Z ∧
      ls_round (advance_round st') = (ls_round st + 1)%Z ∧
      same_limits st (advance_round st')
  end.

Lemma success_step st st2 ex w : lane_inv st → in_round st st2 → counted st st2 →
  Forall2 ans intents (re_tool_outputs ex) → step_ok st (succeed ex st2 w).1.
Proof.
  intros Hinv Hir Hco Hans. unfold after_success.
  set (st3 := note_round_succeeded st2).
  assert (in_round st st3 ∧ counted st st3) as [Hir3 Hco3] by (split; [by destruct Hir; split|exact Hco]).
  set (output := join _ _). set (rep := verify_safe_lane_final_output _ _ _ _).
  destruct (vr_passed rep) eqn:Hp.
  { cbn [fst step_ok]. apply (end_inv st); try done. simpl. split; [done|]. by eexists. }
  set (e := join "," _). set (retry := should_replan_for_verification_failure rep).
  set (st4 := note_verify_failure st3).
  assert (in_round st st4 ∧ counted st st4) as [Hir4 Hco4] by (split; [by destruct Hir3; split|exact Hco3]).
  set (route := decide_safe_lane_failure_route _ _ _ _ _).
  unfold decide_safe_lane_verify_failure_action.
  pose proof (route_replans_iff c _ (ls_replan_budget st4) (ls_metrics st4) (ls_governor st4)
    (rf_verify e retry)) as Hroute. fold route in Hroute.
  destruct (Route_should_replan route) eqn:Hr; cbn [negb].
  - destruct (proj1 Hroute eq_refl) as (_ & Hlt & Hg). cbn [fst step_ok].
    rewrite (ir_budget _ _ Hir4) in Hlt.
    by destruct (again_inv st st4 0 [] Hinv Hir4 Hco4 Hg Hlt cursor_zero) as (? & ? & ?).
  - cbn [fst step_ok finish_failed]. apply (end_inv st); [done..| |by intros ? [= <-]]. simpl.
    by destruct (terminal_verify_failure_code route retry).
Qed.

Lemma plan_failure_result f route : ∃ g,
  (terminal_turn_result_from_plan_failure_with_route f route = TR_ToolDenied g ∨
   terminal_turn_result_from_plan_failure_with_route f route = TR_ToolError g) ∧
  (tf_retryable g = true → terminal_plan_failure_code route = None ∧
     tf_kind (turn_failure_from_plan_failure f) = TF_Retryable).
Proof.
  unfold terminal_turn_result_from_plan_failure_with_route.
  destruct (terminal_plan_failure_code route) as [code|]; [eexists; split; [by right|by destruct code]|].
  unfold turn_result_from_plan_failure. destruct f as [| | | |n a [] e]; eexists; (split; [by eauto|done]).
Qed.

Lemma failure_step st st2 f ex w : lane_inv st → in_round st st2 → counted st st2 →
  status_outputs (Run_Failed f) (re_tool_outputs ex) → step_ok st (fail f ex st2 w).1.
Proof.
  intros Hinv Hir Hco Hout. unfold after_failure.
  set (st3 := note_round_failed st2).
  assert (in_round st st3 ∧ counted st st3) as [Hir3 Hco3] by (split; [by destruct Hir; split|exact Hco]).
  set (route := decide_safe_lane_failure_route _ _ _ _ _).
  unfold decide_safe_lane_plan_failure_action.
  pose proof (route_replans_iff c _ (ls_replan_budget st3) (ls_metrics st3) (ls_governor st3)
    (rf_plan f)) as Hroute. fold route in Hroute.
  destruct (Route_should_replan route) eqn:Hr; simpl in Hout.
  - destruct (proj1 Hroute eq_refl) as (_ & Hlt & Hg).
    destruct (derive_replan_cursor _ _ _) as [start seed]. cbn [fst step_ok].
    rewrite (ir_budget _ _ Hir3) in Hlt.
    by destruct (again_inv st st3 start seed Hinv Hir3 Hco3 Hg Hlt Hout) as (? & ? & ?).
  - cbn [fst step_ok finish_failed]. apply (end_inv st); try done; cbn [so_result so_terminal_route].
    + destruct (plan_failure_result f route) as (g & Hres & Hretry).
      assert (tf_retryable g = true → (ls_max_rounds st ≤ ls_round st)%Z) as Hfin;
        [|by destruct Hres as [->| ->]].
      intros [Hcode Hkind]%Hretry. apply Znot_gt_le. intros Hgt.
      destruct (route_sources c _ (ls_replan_budget st3) (ls_metrics st3) (ls_governor st3) (rf_plan f))
        as [Hbg _]. fold route in Hbg. unfold terminal_plan_failure_code in Hcode.
      unfold ls_max_rounds, ls_round in Hgt. rewrite <-(ir_budget _ _ Hir3) in Hgt.
      assert (ro_source route = Source_BackpressureGuard) as Hsrc.
      { apply Hbg. split; [done|]. split; [lia|]. intros Hg.
        assert (false = true) by (apply Hroute; split; [done|split; [lia|done]]). done. }
      by rewrite Hsrc in Hcode.
    + by intros ? [= <-].
Qed.

Lemma round_step st w : lane_inv st → step_ok st (round st w).1.
Proof.
  intros Hinv. unfold safe_lane_round. destruct (begin st w) as [st1 w1] eqn:Hb.
  destruct (begin_state _ _ _ _ Hb) as (Hir & Hstart & Hseed & Htot).
  destruct (evaluate st1 (lw_env w1)) as [ex env] eqn:He.
  pose proof (li_attempts _ Hinv) as Ha. pose proof (li_max_attempts _ Hinv) as Hm.
  assert (ls_tool_node_max_attempts st1 = ls_tool_node_max_attempts st) as Hk
    by (unfold ls_tool_node_max_attempts; by rewrite (ir_attempts _ _ Hir)).
  destruct (evaluate_outputs st1 (lw_env w1) ex env) as [Hout Hused]; [lia| |done|].
  { rewrite Hstart, Hseed. apply (li_cursor _ Hinv). }
  set (st2 := record_round_execution _ _ st1).
  assert (in_round st st2) as Hir2 by (by destruct Hir; split).
  assert (counted st st2) as Hco.
  { pose proof (li_total _ Hinv). unfold counted, st2, record_round_execution. simpl. rewrite Htot.
    unfold sat_add, u64_max in *. lia. }
  destruct (prr_status (re_report ex)) as [|f] eqn:Hst.
  - by apply success_step.
  - by apply failure_step.
Qed.

Abbreviation loop :=
  (safe_lane_loop timed_turn elapsed persist_event record_audit_event parse_json c kernel_ctx).
Abbreviation run := (execute_turn_with_safe_lane_plan timed_turn elapsed persist_event record_audit_event
  load_history parse_json c kernel_ctx d turn).

Lemma loop_ends fuel st w : lane_inv st → (ls_max_rounds st - ls_round st < Z.of_nat fuel)%Z →
  ∃ o st' w', loop fuel d turn st w = Some (o, st', w') ∧ lane_end st' o ∧ same_limits st st'.
Proof.
  revert st w. induction fuel as [|fuel IH]; intros st w Hinv Hf; cbn [safe_lane_loop].
  { pose proof (li_rounds _ Hinv). lia. }
  pose proof (round_step st w Hinv) as Hstep.
  destruct (round st w) as [[o st1|st1] w1]; cbn [fst step_ok] in *.
  - exists o, st1, w1. done.
  - destruct Hstep as (Hinv1 & Hlt & Hr & Hm).
    destruct (IH (advance_round st1) w1 Hinv1) as (o & st' & w' & Hl & He & Hme);
      [destruct Hm as (_ & -> & _); lia|].
    exists o, st', w'. split; [done|]. split; [done|]. unfold same_limits in *. intuition congruence.
Qed.

Lemma initial_inv g : config_typed c → lane_inv (LoopState_new c g).
Proof.
  intros (Hn & Hm & Hr). unfold u8_max in *.
  split; unfold ls_tool_node_max_attempts, ls_max_node_attempts, ls_round, ls_max_rounds; simpl;
    try done; unfold u8_max, safe_lane_backpressure_max_total_attempts, safe_lane_backpressure_max_replans.
  - apply cursor_zero.
  - destruct (gd_forced_node_max_attempts g); simpl; lia.
  - destruct (gd_forced_node_max_attempts g); simpl; lia.
  - destruct (gd_force_no_replan g); lia.
  - destruct (gd_force_no_replan g); lia.
  - intros _. lia.
Qed.

(** The governor's decision at the start of the turn. *)
Definition turn_governor (w : LaneWorld W) : SafeLaneSessionGovernorDecision :=
  decide_safe_lane_session_governor c
    (load_safe_lane_history_signals_for_governor load_history c (lw_env w)).1.

Lemma run_ends w : config_typed c →
  ∃ o st w', run w = Some (o, st, w') ∧ lane_end st o ∧ same_limits (LoopState_new c (turn_governor w)) st.
Proof.
  intros Hc. unfold execute_turn_with_safe_lane_plan, turn_governor.
  destruct (load_safe_lane_history_signals_for_governor _ _ _) as [signals env]. cbn [fst].
  set (g := decide_safe_lane_session_governor c signals).
  apply loop_ends; [by apply initial_inv|].
  pose proof (li_max_rounds _ (initial_inv g Hc)) as Hm. change (Z.of_nat 256) with 256%Z.
  change (ls_round (LoopState_new c g)) with 0%Z. unfold u8_max in Hm. lia.
Qed.

(** C16. A safe-lane turn ends within its budgets, whatever the tools, the
    clock, the history and the conversation store do. It runs one round more
    than it replans; it replans at most the configured number of times, not at
    all when the session governor forbids it; and with the backpressure guard it
    neither replans more often nor uses more attempts than the guard allows, up
    to the attempts of the last round. *)
Theorem safe_lane_turn_ends_within_budgets w : config_typed c →
  ∃ o st w', run w = Some (o, st, w') ∧
    ls_governor st = turn_governor w ∧
    sm_rounds_started (ls_metrics st) = (sm_replans_triggered (ls_metrics st) + 1)%Z ∧
    (0 ≤ sm_replans_triggered (ls_metrics st)
       ≤ if gd_force_no_replan (turn_governor w) then 0 else cv_safe_lane_replan_max_rounds c)%Z ∧
    (cv_safe_lane_backpressure_guard_enabled c = true →
       (sm_replans_triggered (ls_metrics st) ≤ safe_lane_backpressure_max_replans c)%Z ∧
       (sm_total_attempts_used (ls_metrics st)
          < safe_lane_backpressure_max_total_attempts c + 16 * ls_max_node_attempts st)%Z) ∧
    (∀ route, so_terminal_route o = Some route → Route_should_replan route = false).
Proof.
  intros Hc. destruct (run_ends w Hc) as (o & st & w' & Hrun & [Hr Hs Hp Hg _ Hro] & Hgov & Hmr & _).
  exists o, st, w'. split; [done|]. split; [done|]. rewrite Hs, Hp. split; [done|].
  unfold ls_max_rounds at 2 in Hmr. simpl in Hmr. rewrite Hmr in Hr. split; [done|]. split; [|done].
  intros He. by destruct (Hg He).
Qed.

(** C17. A reply of the safe lane is complete and checked: when the turn answers
    with a text, that text joins exactly one answer of the turn engine for each
    tool intent, in the order of the intents, over all the rounds it took, and it
    passes the verification with the anchors the last round asked for. A failure
    that is reported as retryable means that no replanning round was left. *)
Theorem safe_lane_reply_joins_one_answer_per_tool w o st w' : config_typed c → run w = Some (o, st, w') →
  match so_result o with
  | TR_FinalText text =>
      so_terminal_route o = None ∧ ∃ outs, text = join (String newline "") outs ∧ Forall2 ans intents outs ∧
        vr_passed (verify_safe_lane_final_output c text intents (ls_min_anchor_matches st)) = true
  | TR_ToolDenied f | TR_ToolError f => tf_retryable f = true → ls_round st = ls_max_rounds st
  | _ => False
  end.
Proof.
  intros Hc Hrun. destruct (run_ends w Hc) as (o' & st' & w'' & Hrun' & [Hr _ _ _ Hre _] & _).
  rewrite Hrun in Hrun'. simplify_eq. destruct (so_result o'); try done; intros Ht%Hre; lia.
Qed.

(** ** Denials *)

(** A denied tool ends the turn. Whatever the budgets, a round whose plan
    failed because a tool was denied or needs approval is not followed by
    another round: the turn ends as denied with the reason of the denial, unless
    the session governor forbids replans and no round is left, when the same
    summary is reported under the governor's code as a tool error. *)
Theorem denied_tool_ends_turn node_id n kind message ex st w : terminal_kind kind = true →
  let f := PRF_NodeFailed node_id n kind message in
  ∃ o st', (fail f ex st w).1 = Step_Done o st' ∧
    so_result o =
      if gd_force_no_replan (ls_governor st) && (ls_max_rounds st <=? ls_round st)%Z then
        TR_ToolError (TurnFailure_non_retryable "safe_lane_plan_session_governor_no_replan"
          ("safe_lane_plan_session_governor_no_replan: " +:+ summarize_plan_failure f))
      else TR_ToolDenied (TurnFailure_policy_denied "safe_lane_plan_node_policy_denied" message).
Proof.
  intros Hk f. unfold after_failure. set (st3 := note_round_failed st).
  assert (tf_kind (turn_failure_from_plan_failure f) = TF_PolicyDenied) as Hkind by (by destruct kind).
  set (route := decide_safe_lane_failure_route _ _ _ _ _).
  pose proof (route_replans_iff c _ (ls_replan_budget st3) (ls_metrics st3) (ls_governor st3)
    (rf_plan f)) as Hre. fold route in Hre.
  destruct (route_sources c _ (ls_replan_budget st3) (ls_metrics st3) (ls_governor st3) (rf_plan f))
    as [Hbg Hsg]. fold route in Hbg, Hsg. rewrite Hkind in Hre, Hbg.
  assert (Route_should_replan route = false) as Hr by (apply not_true_is_false; by intros [? _]%Hre).
  unfold decide_safe_lane_plan_failure_action. rewrite Hr. cbn [finish_failed fst].
  eexists _, _. split; [done|]. cbn [so_result].
  unfold terminal_turn_result_from_plan_failure_with_route, terminal_plan_failure_code.
  change (ls_governor st3) with (ls_governor st) in Hsg.
  change (sr_max_replans (ls_replan_budget st3) ≤ sr_current_round (ls_replan_budget st3))%Z
    with (ls_max_rounds st ≤ ls_round st)%Z in Hsg. rewrite <-Z.leb_le in Hsg.
  destruct (ro_source route).
  - destruct (gd_force_no_replan _ && _) eqn:Hb; [|by destruct kind].
    apply andb_true_iff in Hb. by apply Hsg in Hb.
  - by destruct (proj1 Hbg eq_refl).
  - destruct (proj1 Hsg eq_refl) as [-> ->]. done.
Qed.

(** ** Events *)

Abbreviation emit := (emit_safe_lane_event persist_event record_audit_event c kernel_ctx).

(** Events were added, none of them a first or last event of a turn. *)
Definition quiet (w w' : LaneWorld W) : Prop :=
  ∃ mid, lw_emitted w' = lw_emitted w ++ mid ∧
    Forall (λ e, e.1 ≠ "lane_selected" ∧ e.1 ≠ "final_status") mid ∧
    (cv_safe_lane_emit_runtime_events c = false → mid = []).

Lemma quiet_refl w : quiet w w.
Proof. exists []. by rewrite app_nil_r. Qed.

Lemma quiet_trans w1 w2 w3 : quiet w1 w2 → quiet w2 w3 → quiet w1 w3.
Proof.
  intros (m1 & H1 & F1 & N1) (m2 & H2 & F2 & N2). exists (m1 ++ m2). rewrite H2, H1, app_assoc.
  split; [done|]. split; [by apply Forall_app|]. intros He. by rewrite (N1 He), (N2 He).
Qed.

Lemma emit_emitted name payload w : lw_emitted (emit name payload w) =
  lw_emitted w ++ (if should_emit_safe_lane_event c name payload then [(name, payload)] else []).
Proof.
  unfold emit_safe_lane_event. destruct (should_emit_safe_lane_event c name payload); simpl; [done|].
  by rewrite app_nil_r.
Qed.

Lemma quiet_emit name payload w w0 : name ≠ "lane_selected" → name ≠ "final_status" →
  quiet w0 w → quiet w0 (emit name payload w).
Proof.
  intros H1 H2 Hq. apply (quiet_trans _ w); [done|]. eexists. split; [apply emit_emitted|]. split.
  - destruct (should_emit_safe_lane_event c name payload); by repeat constructor.
  - intros He. unfold should_emit_safe_lane_event. by rewrite He.
Qed.

Lemma critical_emitted name payload w : is_safe_lane_critical_event name = true →
  lw_emitted (emit name payload w) =
  lw_emitted w ++ (if cv_safe_lane_emit_runtime_events c then [(name, payload)] else []).
Proof.
  intros Hcr. rewrite emit_emitted. unfold should_emit_safe_lane_event. rewrite Hcr.
  by destruct (cv_safe_lane_emit_runtime_events c).
Qed.

(** The last event of a turn. *)
Definition final_event (o : SafeLaneTurnOutcome) (q : Value) : Prop :=
  json_get_str "status" q =
    Some (match so_result o with TR_FinalText _ => "succeeded" | _ => "failed" end) ∧
  json_get_str "failure_code" q = tf_code <$> TurnResult_failure (so_result o) ∧
  json_get_str "route_reason" q =
    (λ r, SafeLaneFailureRouteReason_as_str (ro_reason r)) <$> so_terminal_route o.

Definition turn_over (o : SafeLaneTurnOutcome) (w w' : LaneWorld W) : Prop :=
  ∃ w1 q, quiet w w1 ∧ final_event o q ∧
    lw_emitted w' = lw_emitted w1 ++ (if cv_safe_lane_emit_runtime_events c then [("final_status", q)] else []).

Definition step_events (w : LaneWorld W) (p : RoundStep * LaneWorld W) : Prop :=
  match p.1 with
  | Step_Done o _ => turn_over o w p.2
  | Step_Again _ => quiet w p.2
  end.

Lemma finish_events summary r route ex st w w0 : quiet w0 w →
  (∃ f, r = TR_ToolDenied f ∨ r = TR_ToolError f) →
  turn_over (mkSafeLaneTurnOutcome r (Some route)) w0
    (finish_failed persist_event record_audit_event c kernel_ctx summary r route ex st w).2.
Proof.
  intros Hq Hr. exists w. eexists. split; [done|]. split; cycle 1.
  { unfold finish_failed. cbn [snd]. by apply critical_emitted. }
  destruct Hr as [f [->| ->]]; (split; [|split]); reflexivity.
Qed.

Lemma success_events ex st w0 w : quiet w0 w → step_events w0 (succeed ex st w).
Proof.
  intros Hq. unfold after_success. set (w1 := emit _ _ w).
  assert (quiet w0 w1) as Hq1 by (by apply quiet_emit).
  destruct (vr_passed _).
  { cbn [step_events fst]. exists w1. eexists. split; [done|]. split; cycle 1.
    - cbn [snd]. by apply critical_emitted.
    - split; [|split]; reflexivity. }
  set (w2 := emit _ _ w1). assert (quiet w0 w2) as Hq2 by (by apply quiet_emit).
  unfold decide_safe_lane_verify_failure_action. destruct (Route_should_replan _); cbn [negb].
  - unfold step_events. cbn [fst snd]. by apply quiet_emit.
  - apply (finish_events _ _ _ ex _ _ w0 Hq2). eauto.
Qed.

Lemma failure_events f ex st w0 w : quiet w0 w → step_events w0 (fail f ex st w).
Proof.
  intros Hq. unfold after_failure. set (w1 := emit _ _ w).
  assert (quiet w0 w1) as Hq1 by (by apply quiet_emit). set (route := decide_safe_lane_failure_route _ _ _ _ _).
  unfold decide_safe_lane_plan_failure_action. destruct (Route_should_replan route).
  - destruct (derive_replan_cursor _ _ _). unfold step_events. cbn [fst snd]. by apply quiet_emit.
  - apply (finish_events _ _ _ ex _ _ w0 Hq1).
    destruct (plan_failure_result f route) as (g & Hres & _). by exists g.
Qed.

Lemma round_events st w : step_events w (round st w).
Proof.
  unfold safe_lane_round. destruct (begin st w) as [st1 w1] eqn:Hb.
  assert (quiet w w1) as Hq.
  { unfold begin_round in Hb. destruct (refresh_verify_policy c st) as [[m|] st0]; injection Hb as _ <-;
      repeat apply quiet_emit; try done; apply quiet_refl. }
  destruct (evaluate st1 (lw_env w1)) as [ex env].
  assert (quiet w (mkLaneWorld env (lw_emitted w1))) as Hq1 by exact Hq.
  destruct (prr_status (re_report ex)); [by apply success_events|by apply failure_events].
Qed.

Lemma loop_events fuel st w w0 o st' w' : quiet w0 w →
  loop fuel d turn st w = Some (o, st', w') → turn_over o w0 w'.
Proof.
  revert st w. induction fuel as [|fuel IH]; intros st w Hq; cbn [safe_lane_loop]; [done|].
  pose proof (round_events st w) as He.
  destruct (round st w) as [[o1 st1|st1] w1]; unfold step_events in He; cbn [fst snd] in He.
  - intros [= <- <- <-]. destruct He as (w2 & q & Hq2 & Hfin). exists w2, q.
    split; [by eapply quiet_trans|done].
  - apply IH. by eapply quiet_trans.
Qed.

(** The events of a turn tell how it ended. With runtime events enabled, and
    whatever the sampling of the others, a turn emits first lane_selected and
    last final_status, each exactly once; final_status carries the status, the
    failure code and the route reason of the result the caller gets. With
    runtime events disabled nothing is emitted. *)
Theorem safe_lane_events_tell_the_outcome w o st w' : run w = Some (o, st, w') →
  if cv_safe_lane_emit_runtime_events c then
    ∃ p mid q, lw_emitted w' = lw_emitted w ++ ("lane_selected", p) :: mid ++ [("final_status", q)] ∧
      Forall (λ e, e.1 ≠ "lane_selected" ∧ e.1 ≠ "final_status") mid ∧ final_event o q
  else lw_emitted w' = lw_emitted w.
Proof.
  unfold execute_turn_with_safe_lane_plan.
  destruct (load_safe_lane_history_signals_for_governor _ _ _) as [signals env].
  set (w1 := emit _ _ _). intros Hl%(loop_events _ _ w1 w1); [|apply quiet_refl].
  destruct Hl as (w2 & q & (mid & Hmid & Hf & Hno) & Hfin & Hlast). rewrite Hlast, Hmid.
  unfold w1. rewrite critical_emitted by done. simpl.
  destruct (cv_safe_lane_emit_runtime_events c) eqn:He.
  - eexists _, mid, q. split; [by rewrite <-!app_assoc|done].
  - by rewrite (Hno eq_refl), !app_nil_r.
Qed.
End loop.

(** ** Examples *)

Module SafeLaneDemo.

(** A turn of two tools. The environment counts the tool runs; the second tool
    fails with a retryable error the first three times. *)
Definition intent (name : string) : ToolIntent :=
  mkToolIntent name (JObject [("path", JString "/tmp/notes.txt")]) "provider" "s" "t" "c".
Definition demo_turn : ProviderTurn := mkProviderTurn "" [intent "file.read"; intent "file.write"] JNull.
Definition demo_tool (limit deadline : Z) (turn : ProviderTurn) (runs : nat) : option TurnResult * nat :=
  let name := match pt_tool_intents turn with i :: _ => in_tool_name i | [] => "" end in
  (Some (if bool_decide (name = "file.write") && bool_decide (runs < 4)
         then TurnResult_retryable_tool_error "tool_execution_failed" "busy"
         else TR_FinalText ("[ok] " +:+ name)), S runs).
Definition demo_decision : LaneDecision := mkLaneDecision Lane_Safe 4 0 [].
Definition demo_run : option (SafeLaneTurnOutcome * SafeLanePlanLoopState * LaneWorld nat) :=
  execute_turn_with_safe_lane_plan demo_tool (λ w, (0%Z, w)) (λ _ _ w, w) (λ _ _ w, w)
    (λ _ w, (Err DirectReadFailed, w)) (λ _, None) ConversationConfig_default None demo_decision demo_turn
    (mkLaneWorld 0 []).

(** Two rounds: the second restarts at the tool that failed and keeps the answer
    of the first. *)
Example demo_two_rounds :
  match demo_run with
  | Some (o, st, w) =>
      so_result o = TR_FinalText (join (String newline "") ["[ok] file.read"; "[ok] file.write"]) ∧
      ls_round st = 1%Z ∧ lw_env w = 5 ∧
      (lw_emitted w).*1 = ["lane_selected"; "plan_round_started"; "plan_round_completed"; "replan_triggered";
        "plan_round_started"; "plan_round_completed"; "final_status"]
  | None => False
  end.
Proof. vm_compute. done. Qed.

Lemma demo_typed : config_typed ConversationConfig_default.
Proof. unfold config_typed, u8_max. simpl. lia. Qed.

Lemma route_witness :
  Route_should_replan (decide_safe_lane_failure_route ConversationConfig_default
    (turn_failure_from_verify_failure "empty_output" true) (SafeLaneReplanBudget_new 1)
    SafeLaneExecutionMetrics_default
    (decide_safe_lane_session_governor ConversationConfig_default (no_history History_Disabled None))) = true.
Proof.
  apply (proj1 (failure_route_exact ConversationConfig_default
    (turn_failure_from_verify_failure "empty_output" true) (SafeLaneReplanBudget_new 1)
    SafeLaneExecutionMetrics_default
    (decide_safe_lane_session_governor ConversationConfig_default (no_history History_Disabled None))
    (rf_verify "empty_output" true))).
  split; [done|]. split; [simpl; lia|]. intros _. split; vm_compute; done.
Defined.

Lemma budgets_witness : ∃ o st w, demo_run = Some (o, st, w) ∧
  sm_rounds_started (ls_metrics st) = (sm_replans_triggered (ls_metrics st) + 1)%Z.
Proof.
  destruct (safe_lane_turn_ends_within_budgets demo_tool (λ w, (0%Z, w)) (λ _ _ w, w) (λ _ _ w, w)
    (λ _ w, (Err DirectReadFailed, w)) (λ _, None) ConversationConfig_default None demo_decision demo_turn
    (mkLaneWorld 0 []) demo_typed) as (o & st & w & Hrun & _ & Hs & _).
  exists o, st, w. split; [exact Hrun|exact Hs].
Defined.

Lemma reply_witness : ∃ o st w text outs, demo_run = Some (o, st, w) ∧ so_result o = TR_FinalText text ∧
  text = join (String newline "") outs ∧
  Forall2 (answered demo_tool ConversationConfig_default) (pt_tool_intents demo_turn) outs.
Proof.
  destruct demo_run as [[[o st] w]|] eqn:Hrun; [|vm_compute in Hrun; discriminate].
  pose proof (safe_lane_reply_joins_one_answer_per_tool demo_tool (λ w, (0%Z, w)) (λ _ _ w, w) (λ _ _ w, w)
    (λ _ w, (Err DirectReadFailed, w)) (λ _, None) ConversationConfig_default None demo_decision demo_turn
    (mkLaneWorld 0 []) o st w demo_typed Hrun) as H.
  destruct (so_result o) as [text| | | | | |] eqn:Ho.
  2-7: exfalso; vm_compute in Hrun; injection Hrun as Hrun _ _; rewrite <-Hrun in Ho; discriminate Ho.
  destruct H as (_ & outs & Ht & Hf & _). exists o, st, w, text, outs.
  exact (conj eq_refl (conj Ho (conj Ht Hf))).
Defined.

Definition denied_report : SafeLaneRoundExecution :=
  mkSafeLaneRoundExecution (early_report (PRF_NodeFailed "tool-1" 1 PNE_PolicyDenied "no")) []
    (mkSafeLaneToolOutputStats 0 0 0).

Lemma denied_witness : ∃ o st', (after_failure (λ _ _ w, w) (λ _ _ w, w) ConversationConfig_default None
    demo_turn (PRF_NodeFailed "tool-1" 1 PNE_PolicyDenied "no") denied_report
    (LoopState_new ConversationConfig_default (decide_safe_lane_session_governor ConversationConfig_default
      (no_history History_Disabled None))) (mkLaneWorld 0 [])).1 = Step_Done o st' ∧
  so_result o = TR_ToolDenied (TurnFailure_policy_denied "safe_lane_plan_node_policy_denied" "no").
Proof.
  apply (denied_tool_ends_turn (λ _ _ w, w) (λ _ _ w, w) ConversationConfig_default None demo_turn
    "tool-1" 1 PNE_PolicyDenied "no"). reflexivity.
Defined.

Lemma events_witness : match demo_run with
  | Some (_, _, w) => ∃ p mid q,
      lw_emitted w = ("lane_selected", p) :: mid ++ [("final_status", q)]
  | None => False
  end.
Proof.
  destruct demo_run as [[[o st] w]|] eqn:Hrun; [|vm_compute in Hrun; discriminate].
  destruct (safe_lane_events_tell_the_outcome demo_tool (λ w, (0%Z, w)) (λ _ _ w, w) (λ _ _ w, w)
    (λ _ w, (Err DirectReadFailed, w)) (λ _, None) ConversationConfig_default None demo_decision demo_turn
    (mkLaneWorld 0 []) o st w Hrun) as (p & mid & q & H & _).
  exists p, mid, q. exact H.
Defined.

End SafeLaneDemo.
