(* ===== verification/ToolRuntimeConfig.v ===== *)
(** * ToolRuntimeConfig: the runtime configuration of the tools
    (app/src/tools/runtime_config.rs)

    The policies the tool executors consult, and [narrowed], which a delegated
    child session uses to restrict them. Paths are strings. *)
From S2P Require Import Prelude RustStr.

(** ** Narrowings *)

Record BrowserRuntimeNarrowing := mkBrowserRuntimeNarrowing {
  bn_max_sessions : option Z;
  bn_max_links : option Z;
  bn_max_text_chars : option Z;
}.

Definition BrowserRuntimeNarrowing_is_empty (n : BrowserRuntimeNarrowing) : bool :=
  bool_decide (bn_max_sessions n = None) && bool_decide (bn_max_links n = None)
  && bool_decide (bn_max_text_chars n = None).

Record WebFetchRuntimeNarrowing := mkWebFetchRuntimeNarrowing {
  wn_allow_private_hosts : option bool;
  wn_allowed_domains : gset string;
  wn_blocked_domains : gset string;
  wn_timeout_seconds : option Z;
  wn_max_bytes : option Z;
  wn_max_redirects : option Z;
}.

Definition WebFetchRuntimeNarrowing_is_empty (n : WebFetchRuntimeNarrowing) : bool :=
  bool_decide (wn_allow_private_hosts n = None) && bool_decide (wn_allowed_domains n = ∅)
  && bool_decide (wn_blocked_domains n = ∅) && bool_decide (wn_timeout_seconds n = None)
  && bool_decide (wn_max_bytes n = None) && bool_decide (wn_max_redirects n = None).

Record ToolRuntimeNarrowing := mkToolRuntimeNarrowing {
  tn_browser : BrowserRuntimeNarrowing;
  tn_web_fetch : WebFetchRuntimeNarrowing;
}.

Definition ToolRuntimeNarrowing_is_empty (n : ToolRuntimeNarrowing) : bool :=
  BrowserRuntimeNarrowing_is_empty (tn_browser n) && WebFetchRuntimeNarrowing_is_empty (tn_web_fetch n).

(** ** Policies *)

Inductive ShellPolicyDefault := ShellDefault_Deny | ShellDefault_Allow.

(** [ShellPolicyDefault::parse] of shell_policy_ext.rs *)
Definition ShellPolicyDefault_parse (s : string) : ShellPolicyDefault :=
  if bool_decide (to_ascii_lowercase s = "allow") then ShellDefault_Allow else ShellDefault_Deny.

Record ExternalSkillsRuntimePolicy := mkExternalSkillsRuntimePolicy {
  ep_enabled : bool;
  ep_require_download_approval : bool;
  ep_allowed_domains : gset string;
  ep_blocked_domains : gset string;
  ep_install_root : option string;
  ep_auto_expose_installed : bool;
}.

Definition ExternalSkillsRuntimePolicy_default : ExternalSkillsRuntimePolicy :=
  mkExternalSkillsRuntimePolicy false true ∅ ∅ None false.

Record BrowserRuntimePolicy := mkBrowserRuntimePolicy {
  bp_enabled : bool;
  bp_max_sessions : Z;
  bp_max_links : Z;
  bp_max_text_chars : Z;
}.

Definition BrowserRuntimePolicy_default : BrowserRuntimePolicy := mkBrowserRuntimePolicy true 8 40 6000.

Record BrowserCompanionRuntimePolicy := mkBrowserCompanionRuntimePolicy {
  bc_enabled : bool;
  bc_ready : bool;
  bc_command : option string;
  bc_expected_version : option string;
  bc_timeout_seconds : Z;
}.

Definition BrowserCompanionRuntimePolicy_default : BrowserCompanionRuntimePolicy :=
  mkBrowserCompanionRuntimePolicy false false None None 30.

Definition is_runtime_ready (p : BrowserCompanionRuntimePolicy) : bool :=
  bc_enabled p && bc_ready p && bool_decide (is_Some (bc_command p)).

Record WebFetchRuntimePolicy := mkWebFetchRuntimePolicy {
  wf_enabled : bool;
  wf_allow_private_hosts : bool;
  wf_enforce_allowed_domains : bool;
  wf_allowed_domains : gset string;
  wf_blocked_domains : gset string;
  wf_timeout_seconds : Z;
  wf_max_bytes : Z;
  wf_max_redirects : Z;
}.

Definition WebFetchRuntimePolicy_default : WebFetchRuntimePolicy :=
  mkWebFetchRuntimePolicy true false false ∅ ∅ 15 (1024 * 1024) 3.

Record WebSearchRuntimePolicy := mkWebSearchRuntimePolicy {
  wp_enabled : bool;
  wp_default_provider : string;
  wp_brave_api_key : option string;
  wp_tavily_api_key : option string;
  wp_timeout_seconds : Z;
  wp_max_results : Z;
}.

Definition WebSearchRuntimePolicy_default : WebSearchRuntimePolicy :=
  mkWebSearchRuntimePolicy true "duckduckgo" None None 30 5.

(** Of the Feishu configuration only its presence matters here. *)
Record ToolRuntimeConfig := mkToolRuntimeConfig {
  rt_file_root : option string;
  rt_shell_allow : gset string;
  rt_shell_deny : gset string;
  rt_shell_default_mode : ShellPolicyDefault;
  rt_config_path : option string;
  rt_sessions_enabled : bool;
  rt_messages_enabled : bool;
  rt_delegate_enabled : bool;
  rt_browser : BrowserRuntimePolicy;
  rt_browser_companion : BrowserCompanionRuntimePolicy;
  rt_web_fetch : WebFetchRuntimePolicy;
  rt_web_search : WebSearchRuntimePolicy;
  rt_external_skills : ExternalSkillsRuntimePolicy;
  rt_feishu : bool;
}.

Definition ToolRuntimeConfig_default : ToolRuntimeConfig :=
  {| rt_file_root := None;
     rt_shell_allow := ∅;
     rt_shell_deny := ∅;
     rt_shell_default_mode := ShellDefault_Deny;
     rt_config_path := None;
     rt_sessions_enabled := true;
     rt_messages_enabled := false;
     rt_delegate_enabled := true;
     rt_browser := BrowserRuntimePolicy_default;
     rt_browser_companion := BrowserCompanionRuntimePolicy_default;
     rt_web_fetch := WebFetchRuntimePolicy_default;
     rt_web_search := WebSearchRuntimePolicy_default;
     rt_external_skills := ExternalSkillsRuntimePolicy_default;
     rt_feishu := false |}.

(** ** [narrowed] *)

(** [x.min(limit.max(least))] where a limit is given *)
Definition cap_at (least : Z) (limit : option Z) (x : Z) : Z :=
  match limit with Some l => Z.min x (Z.max l least) | None => x end.

Definition narrow_browser (p : BrowserRuntimePolicy) (n : BrowserRuntimeNarrowing) : BrowserRuntimePolicy :=
  mkBrowserRuntimePolicy (bp_enabled p) (cap_at 1 (bn_max_sessions n) (bp_max_sessions p))
    (cap_at 1 (bn_max_links n) (bp_max_links p)) (cap_at 1 (bn_max_text_chars n) (bp_max_text_chars p)).

Definition narrow_web_fetch (p : WebFetchRuntimePolicy) (n : WebFetchRuntimeNarrowing) :
    WebFetchRuntimePolicy :=
  let allow_private_hosts :=
    match wn_allow_private_hosts n with
    | Some false => false
    | Some true | None => wf_allow_private_hosts p
    end in
  let preserve_deny_all := wf_enforce_allowed_domains p && bool_decide (wf_allowed_domains p = ∅) in
  let '(enforce, allowed) :=
    if bool_decide (wn_allowed_domains n = ∅) then (wf_enforce_allowed_domains p, wf_allowed_domains p)
    else
      (true,
       if preserve_deny_all then wf_allowed_domains p
       else if bool_decide (wf_allowed_domains p = ∅) then wn_allowed_domains n
       else wf_allowed_domains p ∩ wn_allowed_domains n) in
  mkWebFetchRuntimePolicy (wf_enabled p) allow_private_hosts enforce allowed
    (wf_blocked_domains p ∪ wn_blocked_domains n)
    (cap_at 1 (wn_timeout_seconds n) (wf_timeout_seconds p))
    (cap_at 1 (wn_max_bytes n) (wf_max_bytes p))
    (match wn_max_redirects n with Some l => Z.min (wf_max_redirects p) l | None => wf_max_redirects p end).

Definition narrowed (c : ToolRuntimeConfig) (n : ToolRuntimeNarrowing) : ToolRuntimeConfig :=
  if ToolRuntimeNarrowing_is_empty n then c
  else
    {| rt_file_root := rt_file_root c;
       rt_shell_allow := rt_shell_allow c;
       rt_shell_deny := rt_shell_deny c;
       rt_shell_default_mode := rt_shell_default_mode c;
       rt_config_path := rt_config_path c;
       rt_sessions_enabled := rt_sessions_enabled c;
       rt_messages_enabled := rt_messages_enabled c;
       rt_delegate_enabled := rt_delegate_enabled c;
       rt_browser := narrow_browser (rt_browser c) (tn_browser n);
       rt_browser_companion := rt_browser_companion c;
       rt_web_fetch := narrow_web_fetch (rt_web_fetch c) (tn_web_fetch n);
       rt_web_search := rt_web_search c;
       rt_external_skills := rt_external_skills c;
       rt_feishu := rt_feishu c |}.
