(* ===== verification/WebPolicy.v ===== *)
(** * WebPolicy: which web targets may be contacted
    (app/src/tools/web_fetch.rs: [validate_web_target] and the domain rules;
    app/src/tools/web_http.rs: the address filter) *)
From S2P Require Import Prelude RustStr ToolRuntimeConfig.

(** ** Addresses *)

(** Four octets, eight 16-bit segments. *)
Inductive IpAddr :=
| V4 (a b c d : Z)
| V6 (segments : list Z).

(** The predicates of [std::net::Ipv4Addr] *)
Definition v4_is_private (a b : Z) : bool :=
  (a =? 10)%Z || ((a =? 172)%Z && (16 <=? b)%Z && (b <=? 31)%Z) || ((a =? 192)%Z && (b =? 168)%Z).
Definition v4_is_documentation (a b c : Z) : bool :=
  ((a =? 192)%Z && (b =? 0)%Z && (c =? 2)%Z) || ((a =? 198)%Z && (b =? 51)%Z && (c =? 100)%Z)
  || ((a =? 203)%Z && (b =? 0)%Z && (c =? 113)%Z).
Definition v4_is_multicast (a : Z) : bool := (224 <=? a)%Z && (a <=? 239)%Z.

Definition is_private_or_special_ipv4 (a b c d : Z) : bool :=
  v4_is_private a b
  || (a =? 127)%Z
  || ((a =? 169)%Z && (b =? 254)%Z)
  || ((a =? 255)%Z && (b =? 255)%Z && (c =? 255)%Z && (d =? 255)%Z)
  || v4_is_documentation a b c
  || ((a =? 0)%Z && (b =? 0)%Z && (c =? 0)%Z && (d =? 0)%Z)
  || v4_is_multicast a
  || (a =? 0)%Z
  || ((a =? 100)%Z && (64 <=? b)%Z && (b <=? 127)%Z)
  || ((a =? 192)%Z && (b =? 0)%Z && (c =? 0)%Z)
  || ((a =? 198)%Z && ((b =? 18)%Z || (b =? 19)%Z))
  || ((a =? 198)%Z && (b =? 51)%Z && (c =? 100)%Z)
  || ((a =? 203)%Z && (b =? 0)%Z && (c =? 113)%Z)
  || (240 <=? a)%Z.

(** [to_ipv4_mapped().or_else(to_ipv4)]: [::ffff:a.b.c.d] and [::a.b.c.d] *)
Definition embedded_ipv4 (segments : list Z) : option (Z * Z * Z * Z) :=
  match segments with
  | [0%Z; 0%Z; 0%Z; 0%Z; 0%Z; s5; ab; cd] =>
      if (s5 =? 0xffff)%Z || (s5 =? 0)%Z
      then Some (ab / 256, ab mod 256, cd / 256, cd mod 256)%Z
      else None
  | _ => None
  end.

Definition segment (segments : list Z) (i : nat) : Z := default 0%Z (segments !! i).

Definition is_private_or_special_ipv6 (segments : list Z) : bool :=
  let s := segment segments in
  if bool_decide (segments = [0; 0; 0; 0; 0; 0; 0; 1]%Z) || bool_decide (segments = [0; 0; 0; 0; 0; 0; 0; 0]%Z)
     || (Z.land (s 0%nat) 0xff00 =? 0xff00)%Z then true
  else
    match embedded_ipv4 segments with
    | Some (a, b, c, d) => is_private_or_special_ipv4 a b c d
    | None =>
        (Z.land (s 0%nat) 0xfe00 =? 0xfc00)%Z || (Z.land (s 0%nat) 0xffc0 =? 0xfe80)%Z
        || (Z.land (s 0%nat) 0xffc0 =? 0xfec0)%Z || ((s 0%nat =? 0x2001)%Z && (s 1%nat =? 0x0db8)%Z)
    end.

Definition is_private_or_special_ip (ip : IpAddr) : bool :=
  match ip with
  | V4 a b c d => is_private_or_special_ipv4 a b c d
  | V6 segments => is_private_or_special_ipv6 segments
  end.

(** ** Domain rules *)

Definition domain_rule_matches (host rule : string) : bool :=
  match strip_prefix "*." rule with
  | Some suffix => bool_decide (host = suffix) || ends_with ("." +:+ suffix) host
  | None => bool_decide (host = rule)
  end.

Definition first_matching_domain_rule (host : string) (rules : gset string) : option string :=
  snd <$> list_find (λ rule, domain_rule_matches host rule = true) (btree_elements rules).

(** ** Targets *)

(** What is read of a [reqwest::Url]; [url_text] is its display. *)
Record Url := mkUrl {
  url_scheme : string;
  url_host_str : option string;
  url_port_or_known_default : option Z;
  url_text : string;
}.

Section target.
  Context {W : Type}.
  (** [host.parse::<IpAddr>()] and the display of an address *)
  Context (parse_ip : string → option IpAddr) (display_ip : IpAddr → string).
  (** [(host, port).to_socket_addrs()]: the addresses a name resolves to now *)
  Context (to_socket_addrs : string → Z → W → result string (list IpAddr) * W).

(** Scheme, host and domain rules *)
Definition check_domain_rules (url : Url) (policy : WebFetchRuntimePolicy) (surface_name : string) :
    result string string :=
  if negb (bool_decide (url_scheme url = "http") || bool_decide (url_scheme url = "https")) then
    Err (surface_name +:+ " requires http or https url, got scheme `" +:+ url_scheme url +:+ "`")
  else
  match to_ascii_lowercase <$> url_host_str url with
  | None => Err (surface_name +:+ " url `" +:+ url_text url +:+ "` has no host")
  | Some host =>
      match first_matching_domain_rule host (wf_blocked_domains policy) with
      | Some rule => Err (surface_name +:+ " blocked host `" +:+ host
          +:+ "` because it matches blocked domain rule `" +:+ rule +:+ "`")
      | None =>
          if wf_enforce_allowed_domains policy
             && bool_decide (first_matching_domain_rule host (wf_allowed_domains policy) = None) then
            Err (surface_name +:+ " denied host `" +:+ host +:+ "` because it is not in allowed_domains")
          else Ok host
      end
  end.

(** The loop over the addresses of a name *)
Definition check_addresses (surface_name host : string) (addrs : list IpAddr) : result string string :=
  match list_find (λ ip, is_private_or_special_ip ip = true) addrs with
  | Some (_, ip) => Err (surface_name +:+ " blocked private or special-use address `"
      +:+ display_ip ip +:+ "` for host `" +:+ host +:+ "`")
  | None =>
      if bool_decide (addrs = []) then
        Err (surface_name +:+ " resolved no addresses for host `" +:+ host +:+ "`")
      else Ok host
  end.

(** The filter of private hosts *)
Definition check_private_hosts (url : Url) (policy : WebFetchRuntimePolicy) (surface_name host : string)
    (w : W) : result string string * W :=
  if wf_allow_private_hosts policy then (Ok host, w)
  else if bool_decide (host = "localhost") then
    (Err (surface_name +:+ " blocked private or special-use host `localhost`"), w)
  else
    match parse_ip host with
    | Some ip =>
        (if is_private_or_special_ip ip then
           Err (surface_name +:+ " blocked private or special-use address `" +:+ display_ip ip +:+ "`")
         else Ok host, w)
    | None =>
        match url_port_or_known_default url with
        | None => (Err (surface_name +:+ " url `" +:+ url_text url +:+ "` has no known port"), w)
        | Some port =>
            let '(resolved, w) := to_socket_addrs host port w in
            (match resolved with
             | Err error => Err (surface_name +:+ " failed to resolve host `" +:+ host +:+ "`: " +:+ error)
             | Ok addrs => check_addresses surface_name host addrs
             end, w)
        end
    end.

Definition validate_web_target (url : Url) (policy : WebFetchRuntimePolicy) (surface_name : string) (w : W) :
    result string string * W :=
  match check_domain_rules url policy surface_name with
  | Err error => (Err error, w)
  | Ok host => check_private_hosts url policy surface_name host w
  end.

(** ** What an accepted target satisfies *)

(** The domain rules let the host through. *)
Definition host_permitted (policy : WebFetchRuntimePolicy) (host : string) : Prop :=
  (∀ rule, rule ∈ wf_blocked_domains policy → domain_rule_matches host rule = false) ∧
  (wf_enforce_allowed_domains policy = true →
     ∃ rule, rule ∈ wf_allowed_domains policy ∧ domain_rule_matches host rule = true).

(** Every address the host stands for is public. *)
Definition host_public (url : Url) (host : string) (w : W) : Prop :=
  host ≠ "localhost" ∧
  match parse_ip host with
  | Some ip => is_private_or_special_ip ip = false
  | None => ∃ port addrs w', url_port_or_known_default url = Some port ∧
      to_socket_addrs host port w = (Ok addrs, w') ∧ addrs ≠ [] ∧
      Forall (λ ip, is_private_or_special_ip ip = false) addrs
  end.

Lemma first_matching_None host rules : first_matching_domain_rule host rules = None ↔
  ∀ rule, rule ∈ rules → domain_rule_matches host rule = false.
Proof.
  unfold first_matching_domain_rule. rewrite fmap_None, list_find_None, Forall_forall.
  setoid_rewrite elem_of_btree_elements. setoid_rewrite not_true_iff_false. done.
Qed.

Lemma first_matching_not_None host rules : first_matching_domain_rule host rules ≠ None ↔
  ∃ rule, rule ∈ rules ∧ domain_rule_matches host rule = true.
Proof.
  unfold first_matching_domain_rule. split.
  - destruct (list_find _ _) as [[i rule]|] eqn:Hf; [|done]. intros _.
    apply list_find_Some in Hf as (Hi & Hm & _). exists rule. split; [|done].
    apply elem_of_btree_elements. by eapply list_elem_of_lookup_2.
  - intros (rule & Hin & Hm) Hn. pose proof (proj1 (first_matching_None host rules) Hn rule Hin). congruence.
Qed.

(** The target's host, as far as scheme and name are concerned. *)
Definition web_host (url : Url) : option string :=
  if bool_decide (url_scheme url = "http") || bool_decide (url_scheme url = "https")
  then to_ascii_lowercase <$> url_host_str url else None.

Lemma check_domain_rules_Ok url policy surface host :
  check_domain_rules url policy surface = Ok host ↔ web_host url = Some host ∧ host_permitted policy host.
Proof.
  unfold check_domain_rules, web_host, host_permitted.
  destruct (_ || _); cbn [negb]; [|naive_solver].
  destruct (to_ascii_lowercase <$> url_host_str url) as [h|]; [|naive_solver].
  pose proof (first_matching_None h (wf_blocked_domains policy)) as Hb.
  pose proof (first_matching_not_None h (wf_allowed_domains policy)) as Ha.
  destruct (first_matching_domain_rule h (wf_blocked_domains policy)) as [rule|].
  { split; [done|]. intros ([= <-] & Hp & _). by apply Hb in Hp. }
  destruct (wf_enforce_allowed_domains policy); cbn [andb].
  - case_bool_decide as Hall.
    + split; [done|]. intros ([= <-] & _ & Hp). by apply Ha in Hp.
    + split; [|naive_solver]. intros [= <-]. split; [done|]. split; [by apply Hb|]. intros _. by apply Ha.
  - split; [|naive_solver]. intros [= <-]. split; [done|]. split; [by apply Hb|done].
Qed.

Lemma check_addresses_Ok surface host addrs host' : check_addresses surface host addrs = Ok host' ↔
  host' = host ∧ addrs ≠ [] ∧ Forall (λ ip, is_private_or_special_ip ip = false) addrs.
Proof.
  unfold check_addresses. destruct (list_find _ addrs) as [[i ip]|] eqn:Hf.
  - split; [done|]. intros (_ & _ & Hall). apply list_find_Some in Hf as (Hi & Hp & _).
    eapply Forall_lookup_1 in Hall; [|done]. simpl in Hall. congruence.
  - apply list_find_None in Hf. assert (Forall (λ ip, is_private_or_special_ip ip = false) addrs) as Hall
      by (eapply Forall_impl; [exact Hf|intros ip; apply not_true_is_false]).
    case_bool_decide; naive_solver.
Qed.

Lemma check_private_hosts_Ok url policy surface host host' w :
  (check_private_hosts url policy surface host w).1 = Ok host' ↔
  host' = host ∧ (wf_allow_private_hosts policy = false → host_public url host w).
Proof.
  unfold check_private_hosts, host_public. destruct (wf_allow_private_hosts policy); [naive_solver|].
  case_bool_decide as Hl; [naive_solver|]. destruct (parse_ip host) as [ip|].
  { destruct (is_private_or_special_ip ip); naive_solver. }
  destruct (url_port_or_known_default url) as [port|]; [|naive_solver].
  destruct (to_socket_addrs host port w) as [[addrs|e] w'] eqn:Ht; cbn [fst].
  - rewrite check_addresses_Ok. split.
    + intros (-> & Hne & Hall). split; [done|]. intros _. split; [done|]. by exists port, addrs, w'.
    + intros (-> & Hp). destruct (Hp eq_refl) as (_ & p & a & w'' & [= <-] & Ht' & Hne & Hall).
      rewrite Ht in Ht'. by simplify_eq.
  - split; [done|]. intros (-> & Hp). destruct (Hp eq_refl) as (_ & p & a & w'' & [= <-] & Ht' & _).
    rewrite Ht in Ht'. done.
Qed.

(** A target is accepted exactly when it is an http or https url whose host the
    domain rules let through and, unless private hosts are allowed, whose
    addresses are all public. *)
Lemma validate_web_target_Ok url policy surface host w :
  (validate_web_target url policy surface w).1 = Ok host ↔
  web_host url = Some host ∧ host_permitted policy host ∧
  (wf_allow_private_hosts policy = false → host_public url host w).
Proof.
  unfold validate_web_target. pose proof (check_domain_rules_Ok url policy surface) as Hr.
  destruct (check_domain_rules url policy surface) as [h|e]; cbn [fst].
  - rewrite check_private_hosts_Ok. destruct (proj1 (Hr h) eq_refl) as [Hw Hp].
    split; [by intros [-> ?]|]. intros (Hw' & _ & Hpub). rewrite Hw in Hw'. by simplify_eq.
  - split; [done|]. intros (H1 & H2 & _). by pose proof (proj2 (Hr host) (conj H1 H2)).
Qed.
End target.

(** ** Narrowing *)

(** A policy that permits no more than another. *)
Record policy_within (p q : WebFetchRuntimePolicy) : Prop := {
  within_private : wf_allow_private_hosts p = true → wf_allow_private_hosts q = true;
  within_hosts : ∀ host, host_permitted p host → host_permitted q host;
  within_timeout : (wf_timeout_seconds p ≤ wf_timeout_seconds q)%Z;
  within_bytes : (wf_max_bytes p ≤ wf_max_bytes q)%Z;
  within_redirects : (wf_max_redirects p ≤ wf_max_redirects q)%Z;
}.

Lemma cap_at_le least limit x : (cap_at least limit x ≤ x)%Z.
Proof. destruct limit; simpl; lia. Qed.

Lemma narrow_web_fetch_within p n : policy_within (narrow_web_fetch p n) p.
Proof.
  unfold narrow_web_fetch. split; simpl; try apply cap_at_le.
  - repeat case_match; simplify_eq/=; done.
  - intros host [Hb Ha]. split.
    + intros rule Hr. apply Hb. destruct (if bool_decide _ then _ else _) as [e a]. simpl. set_solver.
    + intros He. destruct (bool_decide (wn_allowed_domains n = ∅)) eqn:H1; [by apply Ha|].
      destruct (bool_decide_reflect (wf_allowed_domains p = ∅)) as [Hemp|Hne];
        rewrite ?He in Ha; simpl in Ha; destruct (Ha eq_refl) as (rule & Hin & Hm).
      * by exists rule.
      * exists rule. set_solver.
  - destruct (if bool_decide _ then _ else _) as [e a]. simpl. apply cap_at_le.
  - destruct (if bool_decide _ then _ else _) as [e a]. simpl. apply cap_at_le.
  - destruct (if bool_decide _ then _ else _) as [e a]. simpl. destruct (wn_max_redirects n); lia.
Qed.

(** A narrowing never widens: a delegated session's narrowed configuration
    accepts a web target only when the configuration it was derived from accepts
    it, for the same host; its byte, redirect, time and browser limits are no
    larger; and everything else, the shell and file policy in particular, is
    unchanged. *)
Theorem narrowing_never_widens {W} parse_ip display_ip (to_socket_addrs : string → Z → W → result string (list IpAddr) * W)
    c n url surface host w :
  (validate_web_target parse_ip display_ip to_socket_addrs url (rt_web_fetch (narrowed c n)) surface w).1 = Ok host →
  (validate_web_target parse_ip display_ip to_socket_addrs url (rt_web_fetch c) surface w).1 = Ok host ∧
  policy_within (rt_web_fetch (narrowed c n)) (rt_web_fetch c) ∧
  (bp_max_sessions (rt_browser (narrowed c n)) ≤ bp_max_sessions (rt_browser c))%Z ∧
  (bp_max_links (rt_browser (narrowed c n)) ≤ bp_max_links (rt_browser c))%Z ∧
  (bp_max_text_chars (rt_browser (narrowed c n)) ≤ bp_max_text_chars (rt_browser c))%Z ∧
  (rt_shell_allow (narrowed c n), rt_shell_deny (narrowed c n), rt_shell_default_mode (narrowed c n),
   rt_file_root (narrowed c n)) =
  (rt_shell_allow c, rt_shell_deny c, rt_shell_default_mode c, rt_file_root c).
Proof.
  rewrite !validate_web_target_Ok. intros (Hw & Hp & Hpub).
  assert (policy_within (rt_web_fetch (narrowed c n)) (rt_web_fetch c)) as Hin.
  { unfold narrowed. destruct (ToolRuntimeNarrowing_is_empty n); [by split|apply narrow_web_fetch_within]. }
  split.
  - split; [done|]. split; [by apply (within_hosts _ _ Hin)|]. intros Hpriv. apply Hpub.
    apply not_true_is_false. intros Ht%(within_private _ _ Hin). congruence.
  - split; [done|]. unfold narrowed. destruct (ToolRuntimeNarrowing_is_empty n); [by split_and!; try lia|].
    cbn [rt_browser narrow_browser bp_max_sessions bp_max_links bp_max_text_chars rt_shell_allow
      rt_shell_deny rt_shell_default_mode rt_file_root].
    split; [apply cap_at_le|]. split; [apply cap_at_le|]. by split; [apply cap_at_le|].
Qed.

(** ** The address filter against the registries *)

(** An address block: a 32-bit base address and the length of its prefix. *)
Definition v4_value (a b c d : Z) : Z := (((a * 256 + b) * 256 + c) * 256 + d)%Z.
Definition in_block (n : Z) (block : Z * Z) : bool :=
  (n / 2 ^ (32 - block.2) =? block.1 / 2 ^ (32 - block.2))%Z.

(** The IPv4 special-purpose blocks: this network, private use, shared address
    space, loopback, link local, protocol assignments, documentation,
    benchmarking, multicast and reserved addresses. *)
Definition special_v4_blocks : list (Z * Z) :=
  [(v4_value 0 0 0 0, 8); (v4_value 10 0 0 0, 8); (v4_value 100 64 0 0, 10); (v4_value 127 0 0 0, 8);
   (v4_value 169 254 0 0, 16); (v4_value 172 16 0 0, 12); (v4_value 192 0 0 0, 24);
   (v4_value 192 0 2 0, 24); (v4_value 192 168 0 0, 16); (v4_value 198 18 0 0, 15);
   (v4_value 198 51 100 0, 24); (v4_value 203 0 113 0, 24); (v4_value 224 0 0 0, 4);
   (v4_value 240 0 0 0, 4)]%Z.

Definition octet (x : Z) : Prop := (0 ≤ x < 256)%Z.

Lemma in_block_range n base len : (0 ≤ len ≤ 32)%Z →
  in_block n (base, len) = true ↔
  (base / 2 ^ (32 - len) * 2 ^ (32 - len) ≤ n < (base / 2 ^ (32 - len) + 1) * 2 ^ (32 - len))%Z.
Proof.
  intros Hl. unfold in_block. simpl. rewrite Z.eqb_eq.
  assert (0 < 2 ^ (32 - len))%Z as Hp by (apply Z.pow_pos_nonneg; lia).
  generalize dependent (2 ^ (32 - len))%Z. intros k Hk. split.
  - intros <-. pose proof (Z.div_mod n k ltac:(lia)). pose proof (Z.mod_pos_bound n k Hk). nia.
  - intros [H1 H2]. generalize dependent (base / k)%Z. intros q H1 H2. symmetry.
    apply Z.div_unique with (r := (n - q * k)%Z); [left; nia|lia].
Qed.

Lemma or_cong (A B C D : Prop) : (A ↔ B) → (C ↔ D) → A ∨ C ↔ B ∨ D.
Proof. tauto. Qed.

(** A block by its first and last address, with the constants computed *)
Ltac block_range :=
  rewrite in_block_range by lia;
  repeat match goal with |- context [(?x / 2 ^ ?k)%Z] =>
    let v := eval vm_compute in (x / 2 ^ k)%Z in change (x / 2 ^ k)%Z with v end;
  repeat match goal with |- context [(2 ^ ?k)%Z] =>
    let v := eval vm_compute in (2 ^ k)%Z in change (2 ^ k)%Z with v end;
  unfold v4_value; lia.

(** The blocks by octets. *)
Lemma special_blocks_octets a b c d : octet a → octet b → octet c → octet d →
  Exists (λ block, in_block (v4_value a b c d) block = true) special_v4_blocks ↔
  (a = 0 ∨ a = 10 ∨ (a = 100 ∧ 64 ≤ b ≤ 127) ∨ a = 127 ∨ (a = 169 ∧ b = 254) ∨ (a = 172 ∧ 16 ≤ b ≤ 31)
   ∨ (a = 192 ∧ b = 0 ∧ c = 0) ∨ (a = 192 ∧ b = 0 ∧ c = 2) ∨ (a = 192 ∧ b = 168)
   ∨ (a = 198 ∧ 18 ≤ b ≤ 19) ∨ (a = 198 ∧ b = 51 ∧ c = 100) ∨ (a = 203 ∧ b = 0 ∧ c = 113)
   ∨ 224 ≤ a ≤ 239 ∨ 240 ≤ a)%Z.
Proof.
  unfold octet. intros Ha Hb Hc Hd. unfold special_v4_blocks. rewrite !Exists_cons, Exists_nil.
  assert (∀ P : Prop, P ∨ False ↔ P) as Hor by tauto. rewrite Hor. cbv beta.
  repeat match goal with |- in_block _ _ = true ∨ _ ↔ _ ∨ _ =>
    apply or_cong; [block_range|] end.
  block_range.
Qed.

(** Pick the disjunct that holds, in a disjunction nested to the right or to
    the left. *)
Ltac pick_right := first [left; lia | right; pick_right | lia].
Ltac pick_left := first [right; lia | left; pick_left | lia].

(** The address filter is exact: an IPv4 address is refused if and only if it
    lies in one of the special-purpose blocks, each given by its base address
    and prefix length; and an IPv6 address that embeds an IPv4 address is
    refused whenever that IPv4 address is. *)
Theorem private_address_filter_exact a b c d : octet a → octet b → octet c → octet d →
  (is_private_or_special_ip (V4 a b c d) = true ↔
     Exists (λ block, in_block (v4_value a b c d) block = true) special_v4_blocks) ∧
  (∀ s5, s5 = 0%Z ∨ s5 = 0xffff%Z → is_private_or_special_ip (V4 a b c d) = true →
     is_private_or_special_ip (V6 [0; 0; 0; 0; 0; s5; a * 256 + b; c * 256 + d]%Z) = true).
Proof.
  unfold octet. intros Ha Hb Hc Hd. split.
  - rewrite special_blocks_octets by done. unfold is_private_or_special_ip, is_private_or_special_ipv4,
      v4_is_private, v4_is_documentation, v4_is_multicast.
    rewrite !orb_true_iff, !andb_true_iff, !orb_true_iff, !Z.eqb_eq, !Z.leb_le.
    split; intros H; [repeat (destruct H as [H|H]); pick_right|repeat (destruct H as [H|H]); pick_left].
  - simpl. intros s5 Hs Hp. unfold is_private_or_special_ipv6.
    destruct (_ || _ || _); [done|]. simpl.
    assert ((s5 =? 65535) || (s5 =? 0) = true)%Z as -> by (destruct Hs as [->| ->]; done).
    rewrite !Z.div_add_l, !(Z.add_comm (_ * 256)), !Z.mod_add, !Z.div_small, !Z.mod_small by lia.
    by rewrite !Z.add_0_r.
Qed.

Module WebPolicyDemo.

Definition demo_url : Url := mkUrl "https" (Some "api.example.com") (Some 443%Z) "https://api.example.com/".
Definition demo_narrowing : ToolRuntimeNarrowing :=
  mkToolRuntimeNarrowing (mkBrowserRuntimeNarrowing (Some 2%Z) None None)
    (mkWebFetchRuntimeNarrowing None {["*.example.com"]} {["ads.example.com"]} (Some 5%Z) None None).
Definition demo_dns (host : string) (port : Z) (w : unit) : result string (list IpAddr) * unit :=
  (Ok [V4 93 184 216 34], w).

(** The narrowed configuration refuses what the default one accepts. *)
Example narrowed_refuses_other_hosts :
  (validate_web_target (λ _, None) (λ _, "") demo_dns (mkUrl "https" (Some "example.org") (Some 443%Z) "")
    (rt_web_fetch (narrowed ToolRuntimeConfig_default demo_narrowing)) "web.fetch" ()).1
  = Err "web.fetch denied host `example.org` because it is not in allowed_domains".
Proof. vm_compute. reflexivity. Qed.

Lemma narrowing_witness :
  (validate_web_target (λ _, None) (λ _, "") demo_dns demo_url (rt_web_fetch ToolRuntimeConfig_default)
    "web.fetch" ()).1 = Ok "api.example.com".
Proof.
  apply (narrowing_never_widens (λ _, None) (λ _, "") demo_dns ToolRuntimeConfig_default demo_narrowing
    demo_url "web.fetch" "api.example.com" ()). vm_compute. reflexivity.
Defined.

Lemma filter_witness : is_private_or_special_ip (V4 172 31 0 9) = true.
Proof.
  apply (proj2 (proj1 (private_address_filter_exact 172 31 0 9 ltac:(unfold octet; lia)
    ltac:(unfold octet; lia) ltac:(unfold octet; lia) ltac:(unfold octet; lia)))).
  do 5 right. left. vm_compute. reflexivity.
Defined.

End WebPolicyDemo.
