(* ===== verification/WebFetch.v ===== *)
(** * WebFetch: the tool web.fetch (app/src/tools/web_fetch.rs)

    The target is checked before every request, also of a redirect; the body is
    read in chunks up to a cap and rendered as text. The HTTP client and the
    resolver are transformers of an environment [W]. *)
From S2P Require Import Prelude RustStr Contracts Json ToolRuntimeConfig WebPolicy.
From Stdlib Require Import Ascii.

(** ** Payload *)

Inductive RenderMode := ReadableText | RawText.

Definition RenderMode_as_str (m : RenderMode) : string :=
  match m with ReadableText => "readable_text" | RawText => "raw_text" end.

(** [.map(str::trim).filter(|value| !value.is_empty())] *)
Definition trimmed_non_empty (o : option string) : option string :=
  s ← o; if is_empty (trim s) then None else Some (trim s).

Definition parse_render_mode (payload : Value) : result string RenderMode :=
  match json_get "mode" payload with
  | None => Ok ReadableText
  | Some value =>
      match trimmed_non_empty (json_as_str value) with
      | None => Err "web.fetch payload.mode must be a string"
      | Some raw =>
          if bool_decide (raw ∈ ["readable_text"; "text"]) then Ok ReadableText
          else if bool_decide (raw ∈ ["raw_text"; "raw"]) then Ok RawText
          else Err "web.fetch payload.mode must be one of `readable_text`, `raw_text`, `text`, or `raw`"
      end
  end.

(** [usize] is 64 bits wide, so the conversion of a [u64] does not fail. *)
Definition parse_max_bytes (payload : Value) (configured_max : Z) : result string Z :=
  match json_get "max_bytes" payload with
  | None => Ok configured_max
  | Some value =>
      match json_as_u64 value with
      | None => Err "web.fetch payload.max_bytes must be an integer"
      | Some parsed =>
          if (parsed =? 0)%Z then Err "web.fetch payload.max_bytes must be >= 1"
          else if (configured_max <? parsed)%Z then
            Err ("web.fetch payload.max_bytes exceeds configured limit (" +:+ display configured_max +:+ " bytes)")
          else Ok parsed
      end
  end.

(** ** Text of a page *)

Definition looks_like_html (content_type : option string) (body : string) : bool :=
  match content_type with
  | Some content_type =>
      let lowered := to_ascii_lowercase content_type in
      contains "text/html" lowered || contains "application/xhtml+xml" lowered
  | None => false
  end
  || (let lowered := to_ascii_lowercase body in
      contains "<html" lowered || contains "<body" lowered || contains "<!doctype html" lowered).

(** [sample.iter().filter(..).count()] *)
Fixpoint count_bytes (p : ascii → bool) (s : string) : Z :=
  match s with
  | "" => 0%Z
  | String a s => ((if p a then 1 else 0) + count_bytes p s)%Z
  end.

Definition is_text_control (a : ascii) : bool :=
  let b := byte a in
  ((b <? 32)%N && negb ((b =? 10)%N || (b =? 13)%N || (b =? 9)%N || (b =? 12)%N)) || (b =? 127)%N.

Definition response_is_probably_binary (content_type : option string) (body : string) : bool :=
  if is_empty body then false
  else
    let by_type :=
      content_type ← content_type;
      let lowered := to_ascii_lowercase content_type in
      if starts_with "text/" lowered || contains "json" lowered || contains "xml" lowered
         || contains "javascript" lowered || contains "x-www-form-urlencoded" lowered
         || contains "yaml" lowered || contains "csv" lowered then Some false
      else if contains "octet-stream" lowered || contains "pdf" lowered || contains "zip" lowered
              || starts_with "image/" lowered || starts_with "audio/" lowered
              || starts_with "video/" lowered then Some true
      else None in
    match by_type with
    | Some binary => binary
    | None =>
        let sample := String.substring 0 (String.length body `min` 512) body in
        if negb (all_bytes (λ a, negb (byte a =? 0)%N) sample) then true
        else (Z.of_nat (String.length sample) <? sat_mul (count_bytes is_text_control sample) 8)%Z
    end.

Definition decode_basic_entities (input : string) : string :=
  replace_str "&#39;" "'" (replace_str "&quot;" (String dquote "") (replace_str "&gt;" ">"
    (replace_str "&lt;" "<" (replace_str "&amp;" "&" (replace_str "&nbsp;" " " input))))).

Definition collapse_whitespace (input : string) : string := join " " (split_whitespace input).

(** [for ch in input.chars()]; both delimiters are ASCII, so bytes are as good. *)
Fixpoint strip_tags_go (in_tag ends_with_space : bool) (s : string) : string :=
  match s with
  | "" => ""
  | String a rest =>
      let space tail := if ends_with_space then tail else String " "%char tail in
      if Ascii.eqb a "<"%char then space (strip_tags_go true true rest)
      else if Ascii.eqb a ">"%char then space (strip_tags_go false true rest)
      else if in_tag then strip_tags_go in_tag ends_with_space rest
      else String a (strip_tags_go in_tag (Ascii.eqb a " "%char) rest)
  end.
Definition strip_tags (input : string) : string := strip_tags_go false false input.

(** The range of the first block of a tag: its start and end. *)
Definition tag_block (tag lowered : string) : option (nat * nat) :=
  start ← find_str ("<" +:+ tag) lowered;
  close_start_rel ← find_str ("</" +:+ tag +:+ ">") (str_drop start lowered);
  let close_start := start + close_start_rel in
  close_end_rel ← find_str ">" (str_drop close_start lowered);
  Some (start, close_start + close_end_rel + 1).

(** Every pass makes the text shorter: its length is fuel enough. *)
Fixpoint strip_tag_block_go (fuel : nat) (tag output : string) : string :=
  match fuel with
  | O => output
  | S fuel =>
      match tag_block tag (to_ascii_lowercase output) with
      | None => output
      | Some (start, stop) =>
          strip_tag_block_go fuel tag
            (String.substring 0 start output +:+ " " +:+ str_drop stop output)
      end
  end.
Definition strip_tag_block (input tag : string) : string :=
  strip_tag_block_go (String.length input) tag input.

Definition extract_tag_inner_text (input tag : string) : option string :=
  let lowered := to_ascii_lowercase input in
  start ← find_str ("<" +:+ tag) lowered;
  gt ← find_str ">" (str_drop start lowered);
  let open_end := start + gt + 1 in
  rel ← find_str ("</" +:+ tag +:+ ">") (str_drop open_end lowered);
  Some (String.substring open_end rel input).

Definition extract_html_title (html : string) : option string :=
  value ← extract_tag_inner_text html "title";
  let collapsed := collapse_whitespace (decode_basic_entities (trim value)) in
  if is_empty collapsed then None else Some collapsed.

Definition extract_readable_text_from_html (html : string) : string :=
  let sanitized := strip_tag_block html "script" in
  let sanitized := strip_tag_block sanitized "style" in
  let sanitized := strip_tag_block sanitized "noscript" in
  let sanitized := strip_tag_block sanitized "head" in
  collapse_whitespace (decode_basic_entities (strip_tags sanitized)).

Example readable_text_example :
  extract_readable_text_from_html
    "<html><head><title>T</title></head><body><SCRIPT>x()</SCRIPT><p>a &amp; b</p></body></html>" = "a & b".
Proof. vm_compute. reflexivity. Qed.

(** ** Requests *)

(** What is read of a response; the chunks of the body arrive in order. *)
Record Response := mkResponse {
  rs_status : Z;
  rs_location : option (result string string);
  rs_content_type : option string;
  rs_content_length : option Z;
  rs_chunks : list (result string string);
}.

Definition is_redirection (status : Z) : bool := (300 <=? status)%Z && (status <=? 399)%Z.
Definition is_success (status : Z) : bool := (200 <=? status)%Z && (status <=? 299)%Z.

(** [while let Some(chunk) = stream.next().await] *)
Fixpoint read_body (max_bytes limit : Z) (body : string) (chunks : list (result string string)) :
    result string string :=
  match chunks with
  | [] => Ok body
  | Err error :: _ => Err ("failed to read web.fetch response body: " +:+ error)
  | Ok chunk :: chunks =>
      if (limit <? Z.of_nat (String.length body) + Z.of_nat (String.length chunk))%Z then
        Err ("web.fetch response exceeded max_bytes limit (" +:+ display max_bytes +:+ " bytes)")
      else read_body max_bytes limit (body +:+ chunk) chunks
  end.

(** The environment and, as a history variable, the urls requested so far. *)
Record FetchWorld (W : Type) := mkFetchWorld { fw_env : W; fw_sent : list Url }.
Arguments mkFetchWorld {W} _ _.
Arguments fw_env {W} _.
Arguments fw_sent {W} _.

Section fetch.
  Context {W : Type}.
  Context (parse_ip : string → option IpAddr) (display_ip : IpAddr → string).
  Context (to_socket_addrs : string → Z → W → result string (list IpAddr) * W).
  (** [reqwest]: parsing and joining urls, building the client, sending a
      request, the display of a status; [String::from_utf8_lossy] *)
  Context (parse_url : string → result string Url) (join_url : Url → string → result string Url).
  Context (build_client : Z → result string unit) (send : Url → W → result string Response * W).
  Context (display_status : Z → string) (from_utf8_lossy : string → string).

(** The payload of a page *)
Definition fetched_payload (tool_name raw_url : string) (url : Url) (host : string) (response : Response)
    (mode : RenderMode) (body : string) (redirect_count : Z) : result string Value :=
  let raw_text := from_utf8_lossy body in
  let content_type := rs_content_type response in
  let is_html := looks_like_html content_type raw_text in
  if match mode with ReadableText => true | RawText => false end && negb is_html
     && response_is_probably_binary content_type body then
    Err "web.fetch readable_text mode only supports text-like responses; binary bodies are not returned"
  else
    let title := if is_html then extract_html_title raw_text else None in
    let content := if match mode with ReadableText => is_html | RawText => false end
      then extract_readable_text_from_html raw_text else trim raw_text in
    Ok (JObject [("adapter", json_str "core-tools"); ("tool_name", json_str tool_name);
      ("requested_url", json_str raw_url); ("final_url", json_str (url_text url));
      ("host", json_str host); ("status_code", json_uint (rs_status response));
      ("content_type", json_opt json_str content_type); ("mode", json_str (RenderMode_as_str mode));
      ("content", json_str content); ("title", json_opt json_str title);
      ("bytes_downloaded", json_uint (Z.of_nat (String.length body)));
      ("redirect_count", json_uint redirect_count)]).

(** A response that is no redirection *)
Definition finish_fetch (tool_name raw_url : string) (url : Url) (host : string) (response : Response)
    (mode : RenderMode) (max_bytes redirect_count : Z) : result string ToolCoreOutcome :=
  if negb (is_success (rs_status response)) then
    Err ("web.fetch returned non-success status " +:+ display_status (rs_status response) +:+ " for `"
         +:+ url_text url +:+ "`")
  else
    let over := match rs_content_length response with
                | Some content_length => if (max_bytes <? content_length)%Z then Some content_length else None
                | None => None
                end in
    match over with
    | Some content_length =>
        Err ("web.fetch response Content-Length (" +:+ display content_length
             +:+ ") exceeds max_bytes limit (" +:+ display max_bytes +:+ " bytes)")
    | None =>
        body ← read_body max_bytes (sat_add max_bytes 1) "" (rs_chunks response);
        payload ← fetched_payload tool_name raw_url url host response mode body redirect_count;
        Ok (mkToolCoreOutcome "ok" payload)
    end.

(** The target of a redirection *)
Definition redirect_target (policy : WebFetchRuntimePolicy) (url : Url) (response : Response)
    (redirect_count : Z) : result string Url :=
  if (wf_max_redirects policy <=? redirect_count)%Z then
    Err ("web.fetch exceeded redirect limit (" +:+ display (wf_max_redirects policy) +:+ ")")
  else
    match rs_location response with
    | None => Err ("web.fetch received redirect status " +:+ display_status (rs_status response)
                   +:+ " without Location header")
    | Some (Err error) => Err ("web.fetch redirect Location header was invalid: " +:+ error)
    | Some (Ok location) =>
        map_err (λ error, "web.fetch failed to resolve redirect target: " +:+ error) (join_url url location)
    end.

(** [loop]; [None] when the fuel runs out. *)
Fixpoint fetch_loop (fuel : nat) (policy : WebFetchRuntimePolicy) (tool_name raw_url : string)
    (mode : RenderMode) (max_bytes : Z) (url : Url) (host : string) (redirect_count : Z)
    (w : FetchWorld W) : option (result string ToolCoreOutcome * FetchWorld W) :=
  match fuel with
  | O => None
  | S fuel =>
      let '(sent, env) := send url (fw_env w) in
      let w := mkFetchWorld env (fw_sent w ++ [url]) in
      match sent with
      | Err error => Some (Err ("web.fetch request failed: " +:+ error), w)
      | Ok response =>
          if is_redirection (rs_status response) then
            match redirect_target policy url response redirect_count with
            | Err error => Some (Err error, w)
            | Ok next_url =>
                let '(checked, env) :=
                  validate_web_target parse_ip display_ip to_socket_addrs next_url policy "web.fetch" (fw_env w) in
                let w := mkFetchWorld env (fw_sent w) in
                match checked with
                | Err error => Some (Err error, w)
                | Ok next_host =>
                    fetch_loop fuel policy tool_name raw_url mode max_bytes next_url next_host
                      (redirect_count + 1) w
                end
            end
          else Some (finish_fetch tool_name raw_url url host response mode max_bytes redirect_count, w)
      end
  end.

Definition execute_web_fetch_tool_enabled (request : ToolCoreRequest) (config : ToolRuntimeConfig)
    (w : FetchWorld W) : option (result string ToolCoreOutcome * FetchWorld W) :=
  let policy := rt_web_fetch config in
  if negb (wf_enabled policy) then
    Some (Err "web.fetch is disabled by config.tools.web.enabled=false", w)
  else
  match tcr_payload request with
  | JObject _ =>
      match trimmed_non_empty (json_get_str "url" (tcr_payload request)) with
      | None => Some (Err "web.fetch requires payload.url", w)
      | Some raw_url =>
          match parse_render_mode (tcr_payload request) with
          | Err error => Some (Err error, w)
          | Ok mode =>
          match parse_max_bytes (tcr_payload request) (wf_max_bytes policy) with
          | Err error => Some (Err error, w)
          | Ok max_bytes =>
          match build_client (wf_timeout_seconds policy) with
          | Err error => Some (Err ("failed to build HTTP client for web.fetch: " +:+ error), w)
          | Ok _ =>
          match parse_url raw_url with
          | Err error => Some (Err ("invalid web.fetch url `" +:+ raw_url +:+ "`: " +:+ error), w)
          | Ok url =>
              let '(checked, env) :=
                validate_web_target parse_ip display_ip to_socket_addrs url policy "web.fetch" (fw_env w) in
              let w := mkFetchWorld env (fw_sent w) in
              match checked with
              | Err error => Some (Err error, w)
              | Ok host =>
                  fetch_loop (S (Z.to_nat (wf_max_redirects policy))) policy (tcr_tool_name request) raw_url
                    mode max_bytes url host 0 w
              end
          end
          end
          end
          end
      end
  | _ => Some (Err "web.fetch payload must be an object", w)
  end.
End fetch.

(** ** Facts *)

Lemma read_body_bound max_bytes limit body chunks b :
  (Z.of_nat (String.length body) ≤ limit)%Z → read_body max_bytes limit body chunks = Ok b →
  (Z.of_nat (String.length b) ≤ limit)%Z.
Proof.
  revert body. induction chunks as [|[chunk|e] chunks IH]; intros body Hb; simpl; [by intros [= <-]| |done].
  destruct (Z.ltb_spec limit (Z.of_nat (String.length body) + Z.of_nat (String.length chunk))); [done|].
  apply IH. rewrite length_app_str. lia.
Qed.

Lemma tag_block_shrinks tag lowered start stop : tag_block tag lowered = Some (start, stop) →
  S start < stop ∧ stop ≤ String.length lowered.
Proof.
  unfold tag_block. intros H.
  apply bind_Some in H as (st & Hst & H). apply bind_Some in H as (rel & Hrel & H).
  apply bind_Some in H as (e & He & [= <- <-]).
  apply find_str_Some in Hrel as (pre & post & Hd & <-).
  rewrite str_drop_add, Hd, str_drop_app in He. rewrite !app_assoc_str, app_cons_str in He.
  rewrite find_str_skip in He by done. apply fmap_Some in He as (e' & He' & ->).
  apply find_str_Some in He' as (pre' & post' & Heq & <-).
  assert (String.length (str_drop st lowered) = String.length lowered - st) as Hlen by apply length_str_drop.
  rewrite Hd in Hlen. apply (f_equal String.length) in Heq.
  rewrite !length_app_str in *. simpl in *. rewrite ?length_app_str in *. simpl in *. lia.
Qed.

(** The fuel is enough: what is left has no complete block of the tag. *)
Lemma strip_tag_block_go_done fuel tag output : String.length output ≤ fuel →
  tag_block tag (to_ascii_lowercase (strip_tag_block_go fuel tag output)) = None.
Proof.
  revert output. induction fuel as [|fuel IH]; intros output Hf; simpl.
  - rewrite (length_nil_str output) by lia. done.
  - destruct (tag_block tag (to_ascii_lowercase output)) as [[start stop]|] eqn:Ht; [|done].
    apply tag_block_shrinks in Ht as [H1 H2]. unfold to_ascii_lowercase in H2. rewrite length_map_str in H2.
    apply IH. rewrite !length_app_str, length_substring_0, length_str_drop by lia. simpl. lia.
Qed.

Lemma strip_tag_block_done input tag :
  tag_block tag (to_ascii_lowercase (strip_tag_block input tag)) = None.
Proof. by apply strip_tag_block_go_done. Qed.

(** No markup is left in front of the entities. *)
Lemma strip_tags_no_angle input :
  all_bytes (λ a, negb (Ascii.eqb a "<"%char) && negb (Ascii.eqb a ">"%char)) (strip_tags input) = true.
Proof.
  unfold strip_tags.
  assert (∀ b b', all_bytes (λ a, negb (Ascii.eqb a "<"%char) && negb (Ascii.eqb a ">"%char))
    (strip_tags_go b b' input) = true) as H; [|apply H].
  induction input as [|a s IH]; intros b b'; cbn [strip_tags_go]; [done|].
  destruct (Ascii.eqb a "<"%char) eqn:H1; [destruct b'; [apply IH|cbn [all_bytes]; apply IH]|].
  destruct (Ascii.eqb a ">"%char) eqn:H2; [destruct b'; [apply IH|cbn [all_bytes]; apply IH]|].
  destruct b; cbn [all_bytes]; [apply IH|]. rewrite H1, H2. apply IH.
Qed.

Section facts.
  Context {W : Type}.
  Context (parse_ip : string → option IpAddr) (display_ip : IpAddr → string).
  Context (to_socket_addrs : string → Z → W → result string (list IpAddr) * W).
  Context (parse_url : string → result string Url) (join_url : Url → string → result string Url).
  Context (build_client : Z → result string unit) (send : Url → W → result string Response * W).
  Context (display_status : Z → string) (from_utf8_lossy : string → string).

Abbreviation validate := (validate_web_target parse_ip display_ip to_socket_addrs).
Abbreviation loop := (fetch_loop parse_ip display_ip to_socket_addrs join_url send display_status from_utf8_lossy).
Abbreviation execute := (execute_web_fetch_tool_enabled parse_ip display_ip to_socket_addrs parse_url join_url
  build_client send display_status from_utf8_lossy).

(** The check let the url through at some point. *)
Definition target_checked (policy : WebFetchRuntimePolicy) (url : Url) : Prop :=
  ∃ w host, (validate url policy "web.fetch" w).1 = Ok host.

(** The number of bytes an outcome reports. *)
Definition downloaded (r : result string ToolCoreOutcome) (limit : Z) : Prop :=
  ∀ outcome, r = Ok outcome →
    ∃ n, json_get_u64 "bytes_downloaded" (tco_payload outcome) = Some n ∧ (0 ≤ n ≤ limit)%Z.

Lemma finish_fetch_bound tool raw url host response mode max_bytes count : (0 ≤ max_bytes)%Z →
  downloaded (finish_fetch display_status from_utf8_lossy tool raw url host response mode max_bytes count)
    (max_bytes + 1).
Proof.
  intros Hm outcome. unfold finish_fetch. destruct (is_success _); simpl; [|done].
  destruct (match rs_content_length response with Some _ => _ | None => _ end); [done|].
  intros H. apply bind_Ok in H as (body & Hb & H). apply bind_Ok in H as (payload & Hp & [= <-]).
  apply read_body_bound in Hb; [|simpl; unfold sat_add; unfold u64_max; lia].
  unfold fetched_payload in Hp. destruct (_ && _ && _); [done|]. injection Hp as <-.
  exists (Z.of_nat (String.length body)). split; [reflexivity|]. unfold sat_add in Hb. lia.
Qed.

Lemma fetch_loop_spec fuel policy tool raw mode max_bytes url host count w :
  (0 ≤ max_bytes)%Z → (0 ≤ count)%Z → (wf_max_redirects policy - count < Z.of_nat fuel)%Z → (fuel ≠ 0) →
  Forall (target_checked policy) (fw_sent w) → target_checked policy url →
  ∃ r w', loop fuel policy tool raw mode max_bytes url host count w = Some (r, w') ∧
    Forall (target_checked policy) (fw_sent w') ∧ downloaded r (max_bytes + 1) ∧
    (len (fw_sent w') ≤ len (fw_sent w) + 1 + Z.max 0 (wf_max_redirects policy - count))%Z.
Proof.
  intros Hm. revert url host count w. induction fuel as [|fuel IH]; [done|].
  intros url host count w Hc Hf _ Hall Hu. cbn [fetch_loop].
  destruct (send url (fw_env w)) as [[response|e] env].
  2: { eexists _, _. split; [done|]. cbn [fw_sent]. split; [by apply Forall_app; split; [|constructor]|].
       split; [by intros ?|]. rewrite len_app, len_cons, len_nil. lia. }
  set (w1 := mkFetchWorld env (fw_sent w ++ [url])).
  assert (Forall (target_checked policy) (fw_sent w1)) as Hall1 by (apply Forall_app; by repeat constructor).
  assert (len (fw_sent w1) = len (fw_sent w) + 1)%Z as Hlen1 by (unfold w1; simpl; by rewrite len_app).
  destruct (is_redirection (rs_status response)).
  - unfold redirect_target. destruct (Z.leb_spec (wf_max_redirects policy) count) as [Hle|Hlt].
    { eexists _, _. split; [done|]. split; [done|]. split; [by intros ?|]. lia. }
    assert (∀ e, ∃ r w', Some (@Err string ToolCoreOutcome e, w1) = Some (r, w') ∧
      Forall (target_checked policy) (fw_sent w') ∧ downloaded r (max_bytes + 1) ∧
      (len (fw_sent w') ≤ len (fw_sent w) + 1 + Z.max 0 (wf_max_redirects policy - count))%Z) as Herr.
    { intros e. eexists _, _. split; [done|]. split; [done|]. split; [by intros ?|lia]. }
    destruct (rs_location response) as [[location|e]|]; [|apply Herr..].
    destruct (join_url url location) as [next_url|e]; simpl; [|apply Herr].
    destruct (validate next_url policy "web.fetch" env) as [[next_host|e] env2] eqn:Hv.
    + destruct (IH next_url next_host (count + 1)%Z (mkFetchWorld env2 (fw_sent w1)))
        as (r & w' & Hrun & Hs & Hd & Hl); [lia|lia|lia|done| |].
      { exists env, next_host. by rewrite Hv. }
      exists r, w'. split; [done|]. split; [done|]. split; [done|]. cbn [fw_sent] in Hl. lia.
    + eexists _, _. split; [done|]. split; [done|]. split; [by intros ?|]. cbn [fw_sent]. simpl in Hlen1. lia.
  - eexists _, _. split; [done|]. split; [done|]. split; [by apply finish_fetch_bound|]. lia.
Qed.

(** The [max_bytes] of a payload is a [u64]. *)
Definition max_bytes_typed (payload : Value) : Prop :=
  ∀ n, json_get_u64 "max_bytes" payload = Some n → (0 ≤ n)%Z.

Lemma parse_max_bytes_range payload configured m : (0 ≤ configured)%Z → max_bytes_typed payload →
  parse_max_bytes payload configured = Ok m → (0 ≤ m ≤ configured)%Z.
Proof.
  unfold parse_max_bytes, max_bytes_typed, json_get_u64. intros Hc Ht.
  destruct (json_get _ _) as [v|]; [|intros [= <-]; lia]. cbn [mbind option_bind] in Ht.
  destruct (json_as_u64 v) as [n|]; [|done]. specialize (Ht n eq_refl). destruct (_ =? 0)%Z; [done|].
  destruct (Z.ltb_spec configured n); [done|]. intros [= <-]. lia.
Qed.

(** C23. web.fetch contacts only targets its policy accepts. Whatever the servers
    and the resolver answer, the tool ends; it sends at most one request more
    than the redirects its policy allows; every url it sends a request to, also
    the target of a redirection, passed [validate_web_target] first; and an
    outcome reports no more than one byte over the configured limit. *)
Theorem web_fetch_contacts_only_checked_targets request config w :
  (0 ≤ wf_max_bytes (rt_web_fetch config))%Z → (0 ≤ wf_max_redirects (rt_web_fetch config))%Z →
  max_bytes_typed (tcr_payload request) → fw_sent w = [] →
  ∃ r w', execute request config w = Some (r, w') ∧
    Forall (target_checked (rt_web_fetch config)) (fw_sent w') ∧
    (len (fw_sent w') ≤ wf_max_redirects (rt_web_fetch config) + 1)%Z ∧
    downloaded r (wf_max_bytes (rt_web_fetch config) + 1).
Proof.
  intros Hb Hr Ht Hw. unfold execute_web_fetch_tool_enabled. set (policy := rt_web_fetch config) in *.
  assert (∀ e (w1 : FetchWorld W), fw_sent w1 = [] → ∃ r w', Some (@Err string ToolCoreOutcome e, w1) = Some (r, w') ∧
    Forall (target_checked policy) (fw_sent w') ∧ (len (fw_sent w') ≤ wf_max_redirects policy + 1)%Z ∧
    downloaded r (wf_max_bytes policy + 1)) as Herr.
  { intros e w1 H1. eexists _, _. split; [done|]. rewrite H1. split; [done|].
    split; [rewrite len_nil; lia|by intros ?]. }
  destruct (wf_enabled policy); cbn [negb]; [|by apply Herr].
  destruct (tcr_payload request) as [| | | | |fields] eqn:Hp; try (by apply Herr).
  destruct (trimmed_non_empty _) as [raw_url|]; [|by apply Herr].
  destruct (parse_render_mode _) as [mode|e]; [|by apply Herr].
  destruct (parse_max_bytes _ _) as [max_bytes|e] eqn:Hmb; [|by apply Herr].
  apply parse_max_bytes_range in Hmb; [|done|done].
  destruct (build_client _); [|by apply Herr]. destruct (parse_url raw_url) as [url|e]; [|by apply Herr].
  destruct (validate url policy "web.fetch" (fw_env w)) as [[host|e] env] eqn:Hv; [|by apply Herr].
  destruct (fetch_loop_spec (S (Z.to_nat (wf_max_redirects policy))) policy (tcr_tool_name request) raw_url
    mode max_bytes url host 0 (mkFetchWorld env (fw_sent w))) as (r & w' & Hrun & Hs & Hd & Hl);
    [lia|lia|lia|done|by rewrite Hw| |].
  { exists (fw_env w), host. by rewrite Hv. }
  exists r, w'. cbn [fw_sent] in Hl. rewrite Hw, len_nil in Hl. split_and!; [done|done|lia|].
  intros outcome Ho. destruct (Hd outcome Ho) as (n & Hn & ?). exists n. split; [done|lia].
Qed.

(** A body of one byte more than [max_bytes] is returned when the server does not
    announce its length: the cap of the stream is never compared again. *)
Theorem oversize_body_is_returned tool raw url host status body max_bytes count :
  is_success status = true → (0 ≤ max_bytes < u64_max)%Z →
  Z.of_nat (String.length body) = (max_bytes + 1)%Z →
  ∃ outcome, finish_fetch display_status from_utf8_lossy tool raw url host
    (mkResponse status None None None [Ok body]) RawText max_bytes count = Ok outcome ∧
    json_get_u64 "bytes_downloaded" (tco_payload outcome) = Some (max_bytes + 1)%Z.
Proof.
  intros Hs Hm Hb. unfold finish_fetch, rs_status. rewrite Hs. cbn [negb rs_content_length rs_chunks read_body].
  rewrite sat_add_small by lia. simpl String.length.
  destruct (Z.ltb_spec (max_bytes + 1) (Z.of_nat 0 + Z.of_nat (String.length body))); [lia|].
  cbn [mbind result_bind]. eexists. split; [reflexivity|].
  transitivity (Some (Z.of_nat (String.length body))); [reflexivity|by rewrite Hb].
Qed.
End facts.

Module WebFetchDemo.

(** The first server redirects to another one. *)
Definition demo_send (url : Url) (w : unit) : result string Response * unit :=
  (Ok (if bool_decide (url_text url = "https://a.example/")
       then mkResponse 302 (Some (Ok "https://b.example/")) None None []
       else mkResponse 200 None (Some "text/html") None [Ok "<p>hi</p>"]), w).
Definition demo_parse (s : string) : result string Url :=
  Ok (mkUrl "https" (Some (if bool_decide (s = "https://a.example/") then "a.example" else "b.example"))
        (Some 443%Z) s).
Definition demo_request : ToolCoreRequest :=
  mkToolCoreRequest "web.fetch" (JObject [("url", JString "https://a.example/")]).
Definition demo_execute : option (result string ToolCoreOutcome * FetchWorld unit) :=
  execute_web_fetch_tool_enabled (λ _, None) (λ _, "") (λ _ _ w, (Ok [V4 93 184 216 34], w)) demo_parse
    (λ _, demo_parse) (λ _, Ok ()) demo_send display (λ s, s) demo_request ToolRuntimeConfig_default
    (mkFetchWorld () []).

Example demo_follows_redirect : match demo_execute with
  | Some (Ok outcome, w) => json_get_str "content" (tco_payload outcome) = Some "hi" ∧
      url_text <$> fw_sent w = ["https://a.example/"; "https://b.example/"]
  | _ => False
  end.
Proof. vm_compute. done. Qed.

Lemma fetch_witness : ∃ r w', demo_execute = Some (r, w') ∧ (len (fw_sent w') ≤ 4)%Z.
Proof.
  destruct (web_fetch_contacts_only_checked_targets (λ _, None) (λ _, "")
    (λ _ _ w, (Ok [V4 93 184 216 34], w)) demo_parse (λ _, demo_parse) (λ _, Ok ()) demo_send display (λ s, s)
    demo_request ToolRuntimeConfig_default (mkFetchWorld () []) ltac:(simpl; lia) ltac:(simpl; lia)
    ltac:(intros n; vm_compute; discriminate) eq_refl) as (r & w' & Hrun & _ & Hl & _).
  exists r, w'. split; [exact Hrun|exact Hl].
Defined.

End WebFetchDemo.
