(* ===== verification/ToolCatalog.v ===== *)
(** * ToolCatalog: the tools and what they need
    (app/src/tools/catalog.rs; names, views and required capabilities of
    app/src/tools/mod.rs)

    The catalogue is the one of the default features of the crate (all tool and
    channel features enabled). *)
From S2P Require Import Prelude RustStr Contracts Json ToolRuntimeConfig.

Inductive ToolExecutionKind := Exec_Core | Exec_App.
Inductive ToolAvailability := Avail_Runtime | Avail_Planned.
Inductive ToolSchedulingClass := Sched_SerialOnly | Sched_ParallelSafe.
Inductive ToolGovernanceScope := Scope_Routine | Scope_TopologyMutation.
Inductive ToolRiskClass := RiskClass_Low | RiskClass_Elevated | RiskClass_High.
Inductive ToolApprovalMode := Approval_Never | Approval_PolicyDriven.
Inductive ToolExposureClass := Exposure_ProviderCore | Exposure_Discoverable.
Inductive ToolVisibilityGate :=
| Gate_Always | Gate_Sessions | Gate_Messages | Gate_Delegate | Gate_Browser | Gate_BrowserCompanion
| Gate_ExternalSkills | Gate_WebFetch | Gate_WebSearch.

#[export] Instance ToolExecutionKind_eq_dec : EqDecision ToolExecutionKind.
Proof. solve_decision. Defined.
#[export] Instance ToolAvailability_eq_dec : EqDecision ToolAvailability.
Proof. solve_decision. Defined.
#[export] Instance ToolSchedulingClass_eq_dec : EqDecision ToolSchedulingClass.
Proof. solve_decision. Defined.
#[export] Instance ToolExposureClass_eq_dec : EqDecision ToolExposureClass.
Proof. solve_decision. Defined.

Definition ToolSchedulingClass_as_str (c : ToolSchedulingClass) : string :=
  match c with Sched_SerialOnly => "serial_only" | Sched_ParallelSafe => "parallel_safe" end.

(** [match name { patterns => value, .., _ => default }] on string literals *)
Definition match_arms {A} (name : string) (arms : list (list string * A)) (dflt : A) : A :=
  match list_find (λ arm, name ∈ arm.1) arms with
  | Some (_, (_, value)) => value
  | None => dflt
  end.

Record ToolGovernanceProfile := mkToolGovernanceProfile {
  tg_scope : ToolGovernanceScope;
  tg_risk_class : ToolRiskClass;
  tg_approval_mode : ToolApprovalMode;
}.

Definition governance_profile_for_tool_name (tool_name : string) : ToolGovernanceProfile :=
  match_arms tool_name
    [(["delegate"; "delegate_async"],
        mkToolGovernanceProfile Scope_TopologyMutation RiskClass_High Approval_PolicyDriven);
     (["browser.companion.click"; "browser.companion.type"],
        mkToolGovernanceProfile Scope_Routine RiskClass_High Approval_PolicyDriven);
     (["session_archive"; "session_cancel"; "session_recover"; "sessions_send"],
        mkToolGovernanceProfile Scope_Routine RiskClass_Elevated Approval_PolicyDriven)]
    (mkToolGovernanceProfile Scope_Routine RiskClass_Low Approval_Never).

Definition scheduling_class_for_tool_name (tool_name : string) : ToolSchedulingClass :=
  if bool_decide (tool_name ∈ ["tool.search"; "file.read"; "web.fetch"; "web.search"; "sessions_list"])
  then Sched_ParallelSafe else Sched_SerialOnly.

(** A descriptor without the function that renders its schema. *)
Record ToolDescriptor := mkToolDescriptor {
  td_name : string;
  td_provider_name : string;
  td_aliases : list string;
  td_description : string;
  td_execution_kind : ToolExecutionKind;
  td_availability : ToolAvailability;
  td_exposure : ToolExposureClass;
  td_visibility_gate : ToolVisibilityGate;
}.

Definition matches_name (d : ToolDescriptor) (raw : string) : bool :=
  bool_decide (td_name d = raw) || bool_decide (td_provider_name d = raw) || bool_decide (raw ∈ td_aliases d).
Definition is_provider_core (d : ToolDescriptor) : bool := bool_decide (td_exposure d = Exposure_ProviderCore).
Definition is_discoverable (d : ToolDescriptor) : bool := bool_decide (td_exposure d = Exposure_Discoverable).
Definition descriptor_scheduling_class (d : ToolDescriptor) : ToolSchedulingClass :=
  scheduling_class_for_tool_name (td_name d).

Definition runtime_session_tool_availability : ToolAvailability := Avail_Runtime.
Definition runtime_messaging_tool_availability : ToolAvailability := Avail_Runtime.

(** ** The descriptors *)

Definition core_tool_descriptors : list ToolDescriptor :=
  [
   mkToolDescriptor "tool.search" "tool_search" []
     "Discover non-core tools"
     Exec_Core Avail_Runtime Exposure_ProviderCore Gate_Always;
   mkToolDescriptor "tool.invoke" "tool_invoke" []
     "Invoke a discovered non-core tool"
     Exec_Core Avail_Runtime Exposure_ProviderCore Gate_Always;
   mkToolDescriptor "claw.migrate" "claw_migrate" []
     "Migrate legacy Claw configs into native LoongClaw settings"
     Exec_Core Avail_Runtime Exposure_Discoverable Gate_Always;
   mkToolDescriptor "external_skills.fetch" "external_skills_fetch" []
     "Download external skills artifacts with domain policy and approval guards"
     Exec_Core Avail_Runtime Exposure_Discoverable Gate_ExternalSkills;
   mkToolDescriptor "external_skills.inspect" "external_skills_inspect" []
     "Read metadata for a resolved external skill across managed, user, and project scopes"
     Exec_Core Avail_Runtime Exposure_Discoverable Gate_ExternalSkills;
   mkToolDescriptor "external_skills.install" "external_skills_install" []
     "Install a managed external skill from a local directory or archive"
     Exec_Core Avail_Runtime Exposure_Discoverable Gate_ExternalSkills;
   mkToolDescriptor "external_skills.invoke" "external_skills_invoke" []
     "Load a resolved external skill into the conversation loop"
     Exec_Core Avail_Runtime Exposure_Discoverable Gate_ExternalSkills;
   mkToolDescriptor "external_skills.list" "external_skills_list" []
     "List resolved external skills across managed, user, and project scopes"
     Exec_Core Avail_Runtime Exposure_Discoverable Gate_ExternalSkills;
   mkToolDescriptor "external_skills.policy" "external_skills_policy" []
     "Read/update external skills domain allow/block policy at runtime"
     Exec_Core Avail_Runtime Exposure_Discoverable Gate_Always;
   mkToolDescriptor "external_skills.remove" "external_skills_remove" []
     "Remove an installed external skill from the managed runtime"
     Exec_Core Avail_Runtime Exposure_Discoverable Gate_ExternalSkills;
   mkToolDescriptor "provider.switch" "provider_switch" []
     "Inspect current provider state or switch the default provider profile for subsequent turns"
     Exec_Core Avail_Runtime Exposure_Discoverable Gate_Always].

Definition app_tool_descriptors : list ToolDescriptor :=
  [
   mkToolDescriptor "approval_request_resolve" "approval_request_resolve" []
     "Resolve one visible governed tool approval request"
     Exec_App runtime_session_tool_availability Exposure_Discoverable Gate_Sessions;
   mkToolDescriptor "approval_request_status" "approval_request_status" []
     "Inspect full detail for a visible governed tool approval request"
     Exec_App runtime_session_tool_availability Exposure_Discoverable Gate_Sessions;
   mkToolDescriptor "approval_requests_list" "approval_requests_list" []
     "List visible governed tool approval requests across the current session scope"
     Exec_App runtime_session_tool_availability Exposure_Discoverable Gate_Sessions;
   mkToolDescriptor "delegate" "delegate" []
     "Delegate a focused subtask into a child session"
     Exec_App runtime_session_tool_availability Exposure_Discoverable Gate_Delegate;
   mkToolDescriptor "delegate_async" "delegate_async" []
     "Delegate a focused subtask into a background child session"
     Exec_App runtime_session_tool_availability Exposure_Discoverable Gate_Delegate;
   mkToolDescriptor "session_archive" "session_archive" []
     "Archive a visible terminal session from default session listings"
     Exec_App runtime_session_tool_availability Exposure_Discoverable Gate_Sessions;
   mkToolDescriptor "session_cancel" "session_cancel" []
     "Cancel a visible async delegate child session"
     Exec_App runtime_session_tool_availability Exposure_Discoverable Gate_Sessions;
   mkToolDescriptor "session_events" "session_events" []
     "Fetch session events for a visible session"
     Exec_App runtime_session_tool_availability Exposure_Discoverable Gate_Sessions;
   mkToolDescriptor "session_recover" "session_recover" []
     "Recover an overdue queued async delegate child session by marking it failed"
     Exec_App runtime_session_tool_availability Exposure_Discoverable Gate_Sessions;
   mkToolDescriptor "session_status" "session_status" []
     "Inspect the current status of a visible session"
     Exec_App runtime_session_tool_availability Exposure_Discoverable Gate_Sessions;
   mkToolDescriptor "session_wait" "session_wait" []
     "Wait for a visible session to reach a terminal state"
     Exec_App runtime_session_tool_availability Exposure_Discoverable Gate_Sessions;
   mkToolDescriptor "sessions_history" "sessions_history" []
     "Fetch transcript history for a visible session"
     Exec_App runtime_session_tool_availability Exposure_Discoverable Gate_Sessions;
   mkToolDescriptor "sessions_list" "sessions_list" []
     "List visible sessions and their high-level state"
     Exec_App runtime_session_tool_availability Exposure_Discoverable Gate_Sessions;
   mkToolDescriptor "sessions_send" "sessions_send" []
     "Send an outbound text message to a known channel-backed root session"
     Exec_App runtime_messaging_tool_availability Exposure_Discoverable Gate_Messages].

Definition file_tool_descriptors : list ToolDescriptor :=
  [
   mkToolDescriptor "file.read" "file_read" []
     "Read file contents"
     Exec_Core Avail_Runtime Exposure_Discoverable Gate_Always;
   mkToolDescriptor "file.write" "file_write" []
     "Write file contents"
     Exec_Core Avail_Runtime Exposure_Discoverable Gate_Always;
   mkToolDescriptor "file.edit" "file_edit" []
     "Replace text in a file"
     Exec_Core Avail_Runtime Exposure_Discoverable Gate_Always].

Definition shell_tool_descriptors : list ToolDescriptor :=
  [
   mkToolDescriptor "shell.exec" "shell_exec" ["shell"]
     "Execute shell commands"
     Exec_Core Avail_Runtime Exposure_ProviderCore Gate_Always].

Definition browser_tool_descriptors : list ToolDescriptor :=
  [
   mkToolDescriptor "browser.click" "browser_click" ["browser_click"]
     "Follow one previously discovered page link within a bounded browser session"
     Exec_Core Avail_Runtime Exposure_Discoverable Gate_Browser;
   mkToolDescriptor "browser.companion.click" "browser_companion_click" ["browser_companion_click"]
     "Click a page element inside a governed browser companion session after policy review"
     Exec_App Avail_Runtime Exposure_Discoverable Gate_BrowserCompanion;
   mkToolDescriptor "browser.companion.navigate" "browser_companion_navigate" ["browser_companion_navigate"]
     "Navigate a governed browser companion session to a target URL"
     Exec_Core Avail_Runtime Exposure_Discoverable Gate_BrowserCompanion;
   mkToolDescriptor "browser.companion.session.start" "browser_companion_session_start" ["browser_companion_session_start"]
     "Start a governed browser companion session at a target URL"
     Exec_Core Avail_Runtime Exposure_Discoverable Gate_BrowserCompanion;
   mkToolDescriptor "browser.companion.session.stop" "browser_companion_session_stop" ["browser_companion_session_stop"]
     "Stop a governed browser companion session and release companion-side state"
     Exec_Core Avail_Runtime Exposure_Discoverable Gate_BrowserCompanion;
   mkToolDescriptor "browser.companion.snapshot" "browser_companion_snapshot" ["browser_companion_snapshot"]
     "Capture a readable snapshot of the current browser companion page"
     Exec_Core Avail_Runtime Exposure_Discoverable Gate_BrowserCompanion;
   mkToolDescriptor "browser.companion.type" "browser_companion_type" ["browser_companion_type"]
     "Type text into a page element inside a governed browser companion session after policy review"
     Exec_App Avail_Runtime Exposure_Discoverable Gate_BrowserCompanion;
   mkToolDescriptor "browser.companion.wait" "browser_companion_wait" ["browser_companion_wait"]
     "Wait inside a governed browser companion session for a condition or timeout window"
     Exec_Core Avail_Runtime Exposure_Discoverable Gate_BrowserCompanion;
   mkToolDescriptor "browser.extract" "browser_extract" ["browser_extract"]
     "Extract structured text or links from the current browser session page"
     Exec_Core Avail_Runtime Exposure_Discoverable Gate_Browser;
   mkToolDescriptor "browser.open" "browser_open" ["browser_open"]
     "Open a public web page into a bounded browser session with safe link discovery"
     Exec_Core Avail_Runtime Exposure_ProviderCore Gate_Browser].

Definition web_tool_descriptors : list ToolDescriptor :=
  [
   mkToolDescriptor "web.fetch" "web_fetch" ["web_fetch"]
     "Fetch a public web page with SSRF-safe guards and readable extraction"
     Exec_Core Avail_Runtime Exposure_Discoverable Gate_WebFetch;
   mkToolDescriptor "web.search" "web_search" []
     "Search the web for APIs, documentation, and error messages using configured web search providers"
     Exec_Core Avail_Runtime Exposure_ProviderCore Gate_WebSearch].

(** [descriptors.sort_by(|left, right| left.name.cmp(right.name))] *)
Definition descriptor_le (d e : ToolDescriptor) : Prop := String.le (td_name d) (td_name e).
#[export] Instance descriptor_le_dec d e : Decision (descriptor_le d e).
Proof. unfold descriptor_le. apply _. Defined.

Definition tool_catalog : list ToolDescriptor :=
  Eval vm_compute in
    merge_sort descriptor_le
      (core_tool_descriptors ++ app_tool_descriptors ++ file_tool_descriptors ++ shell_tool_descriptors
       ++ browser_tool_descriptors ++ web_tool_descriptors).

(** [ToolCatalog::descriptor] and [ToolCatalog::resolve] *)
Definition catalog_descriptor (tool_name : string) : option ToolDescriptor :=
  snd <$> list_find (λ d, td_name d = tool_name) tool_catalog.
Definition catalog_resolve (raw : string) : option ToolDescriptor :=
  snd <$> list_find (λ d, matches_name d raw = true) tool_catalog.

(** ** Tables of the catalogue *)

Definition tool_argument_hint (name : string) : string :=
  match_arms name [
    (["tool.search"], "query:string,limit?:integer");
    (["tool.invoke"], "tool_id:string,lease:string,arguments:object");
    (["claw.migrate"], "input_path?:string,mode?:string,source?:string");
    (["external_skills.fetch"],
      "url:string,approval_granted?:boolean,save_as?:string,max_bytes?:integer");
    (["external_skills.inspect"], "skill_id:string");
    (["external_skills.install"],
      "path?:string,bundled_skill_id?:string,skill_id?:string,replace?:boolean");
    (["external_skills.invoke"], "skill_id:string");
    (["external_skills.list"], "");
    (["external_skills.policy"],
      "action?:string,enabled?:boolean,allowed_domains?:string[],blocked_domains?:string[]");
    (["external_skills.remove"], "skill_id:string");
    (["browser.companion.session.start"], "url:string");
    (["browser.companion.navigate"], "session_id:string,url:string");
    (["browser.companion.snapshot"], "session_id:string,mode?:string");
    (["browser.companion.wait"], "session_id:string,condition?:string,timeout_ms?:integer");
    (["browser.companion.session.stop"], "session_id:string");
    (["browser.companion.click"], "session_id:string,selector:string");
    (["browser.companion.type"], "session_id:string,selector:string,text:string");
    (["file.read"], "path:string,max_bytes?:integer");
    (["file.write"], "path:string,content:string,create_dirs?:boolean");
    (["file.edit"], "path:string,old_string:string,new_string:string,replace_all?:boolean");
    (["shell.exec"], "command:string,args?:string[],timeout_ms?:integer,cwd?:string");
    (["provider.switch"], "selector?:string");
    (["delegate"; "delegate_async"], "task:string,label?:string,timeout_seconds?:integer");
    (["session_archive"; "session_cancel"; "session_events"; "session_recover"; "session_status";
      "session_wait"; "sessions_history"],
      "session_id:string");
    (["sessions_list"], "limit?:integer,state?:string");
    (["sessions_send"], "session_id:string,text:string");
    (["web.search"], "query:string,provider?:string,max_results?:integer")] "".

Definition tool_required_fields (name : string) : list string :=
  match_arms name [
    (["tool.search"], ["query"]);
    (["tool.invoke"], ["tool_id"; "lease"; "arguments"]);
    (["external_skills.fetch"], ["url"]);
    (["external_skills.inspect"; "external_skills.invoke"; "external_skills.remove"], ["skill_id"]);
    (["external_skills.install"], []);
    (["browser.companion.session.start"], ["url"]);
    (["browser.companion.navigate"], ["session_id"; "url"]);
    (["browser.companion.snapshot"; "browser.companion.wait"; "browser.companion.session.stop"],
      ["session_id"]);
    (["browser.companion.click"], ["session_id"; "selector"]);
    (["browser.companion.type"], ["session_id"; "selector"; "text"]);
    (["file.read"], ["path"]);
    (["file.write"], ["path"; "content"]);
    (["file.edit"], ["path"; "old_string"; "new_string"]);
    (["shell.exec"], ["command"]);
    (["delegate"; "delegate_async"], ["task"]);
    (["session_archive"; "session_cancel"; "session_events"; "session_recover"; "session_status";
      "session_wait"; "sessions_history"],
      ["session_id"]);
    (["sessions_send"], ["session_id"; "text"]);
    (["web.search"], ["query"])] [].

Definition tool_required_field_groups (name : string) : list (list string) :=
  match_arms name [(["external_skills.install"], [["path"]; ["bundled_skill_id"]])] [].

Definition tool_tags (name : string) : list string :=
  match_arms name [
    (["tool.search"], ["core"; "discover"; "search"]);
    (["tool.invoke"], ["core"; "dispatch"; "invoke"]);
    (["claw.migrate"], ["migration"; "migrate"; "config"; "legacy"]);
    (["external_skills.fetch"], ["skills"; "download"; "external"; "fetch"]);
    (["external_skills.inspect"], ["skills"; "inspect"; "metadata"]);
    (["external_skills.install"], ["skills"; "install"; "package"]);
    (["external_skills.invoke"], ["skills"; "invoke"; "instructions"]);
    (["external_skills.list"], ["skills"; "list"; "discover"]);
    (["external_skills.policy"], ["skills"; "policy"; "security"]);
    (["external_skills.remove"], ["skills"; "remove"; "uninstall"]);
    (["browser.companion.session.start"; "browser.companion.navigate"; "browser.companion.snapshot";
      "browser.companion.wait"; "browser.companion.session.stop"],
      ["browser"; "companion"; "session"; "read"]);
    (["browser.companion.click"; "browser.companion.type"],
      ["browser"; "companion"; "write"; "approval"]);
    (["file.read"], ["file"; "read"; "filesystem"; "repo"]);
    (["file.write"], ["file"; "write"; "filesystem"]);
    (["file.edit"], ["file"; "edit"; "filesystem"]);
    (["shell.exec"], ["shell"; "command"; "process"; "exec"]);
    (["provider.switch"], ["provider"; "switch"; "model"; "runtime"]);
    (["delegate"; "delegate_async"], ["session"; "delegate"; "child"]);
    (["session_archive"; "session_cancel"; "session_events"; "session_recover"; "session_status";
      "session_wait"; "sessions_history"; "sessions_list"],
      ["session"; "history"; "runtime"]);
    (["sessions_send"], ["session"; "message"; "channel"]);
    (["web.search"], ["web"; "search"; "discover"; "external"])] [].
