(* ===== verification/ToolNames.v ===== *)
(** * ToolNames: tool names, views and required capabilities
    (app/src/tools/mod.rs, with the views and visibility gates of
    app/src/tools/catalog.rs and the names of app/src/tools/feishu.rs) *)
From S2P Require Import Prelude RustStr Contracts Json ToolRuntimeConfig ToolCatalog.

(** ** Feishu names *)

Definition feishu_pairs : list (list string * string) :=
  [(["feishu.whoami"; "feishu_whoami"], "feishu.whoami");
   (["feishu.doc.create"; "feishu_doc_create"], "feishu.doc.create");
   (["feishu.doc.append"; "feishu_doc_append"], "feishu.doc.append");
   (["feishu.doc.read"; "feishu_doc_read"], "feishu.doc.read");
   (["feishu.messages.history"; "feishu_messages_history"], "feishu.messages.history");
   (["feishu.messages.get"; "feishu_messages_get"], "feishu.messages.get");
   (["feishu.messages.resource.get"; "feishu_messages_resource_get"], "feishu.messages.resource.get");
   (["feishu.messages.search"; "feishu_messages_search"], "feishu.messages.search");
   (["feishu.messages.send"; "feishu_messages_send"], "feishu.messages.send");
   (["feishu.messages.reply"; "feishu_messages_reply"], "feishu.messages.reply");
   (["feishu.card.update"; "feishu_card_update"], "feishu.card.update");
   (["feishu.calendar.list"; "feishu_calendar_list"], "feishu.calendar.list");
   (["feishu.calendar.freebusy"; "feishu_calendar_freebusy"], "feishu.calendar.freebusy")].

Definition canonical_feishu_tool_name (raw : string) : option string :=
  match_arms raw ((λ '(names, c), (names, Some c)) <$> feishu_pairs) None.

Definition is_known_feishu_tool_name (raw : string) : bool :=
  bool_decide (is_Some (canonical_feishu_tool_name raw)).

(** The names of [feishu_tool_registry_entries], in its order. *)
Definition feishu_tool_registry_names : list string :=
  ["feishu.calendar.freebusy"; "feishu.doc.create"; "feishu.doc.append"; "feishu.doc.read";
   "feishu.messages.get"; "feishu.messages.resource.get"; "feishu.messages.history";
   "feishu.messages.search"; "feishu.messages.send"; "feishu.messages.reply"; "feishu.card.update";
   "feishu.calendar.list"; "feishu.whoami"].

(** ** Canonical names *)

Definition canonical_tool_name (raw : string) : string :=
  match catalog_resolve raw with
  | Some descriptor => td_name descriptor
  | None => default raw (canonical_feishu_tool_name raw)
  end.

Record ResolvedToolExecution := mkResolvedToolExecution {
  rte_canonical_name : string;
  rte_execution_kind : ToolExecutionKind;
}.

Definition resolve_tool_execution (raw : string) : option ResolvedToolExecution :=
  match catalog_resolve raw with
  | Some descriptor =>
      Some (mkResolvedToolExecution (td_name descriptor) (td_execution_kind descriptor))
  | None => (λ c, mkResolvedToolExecution c Exec_Core) <$> canonical_feishu_tool_name raw
  end.

(** [find_tool_catalog_entry(..)]: the descriptor the entry is made of *)
Definition find_tool_catalog_entry (name : string) : option ToolDescriptor := catalog_resolve name.

Definition is_provider_exposed_tool_name (raw : string) : bool :=
  match find_tool_catalog_entry (canonical_tool_name raw) with
  | Some entry => is_provider_core entry
  | None => false
  end.

(** ** Views *)

(** [struct ToolView { allowed_names: BTreeSet<String> }] *)
Definition ToolView : Type := gset string.

Definition from_tool_names (names : list string) : ToolView := list_to_set names.
Definition view_contains (v : ToolView) (tool_name : string) : bool := bool_decide (tool_name ∈ v).
Definition view_intersect (v other : ToolView) : ToolView := v ∩ other.
(** [ToolView::iter]: the catalogue's descriptors that the view allows *)
Definition view_iter (v : ToolView) (catalog : list ToolDescriptor) : list ToolDescriptor :=
  filter (λ d, view_contains v (td_name d) = true) catalog.

Definition tool_visibility_gate_enabled_for_runtime_policy (gate : ToolVisibilityGate)
    (config : ToolRuntimeConfig) : bool :=
  match gate with
  | Gate_Always => true
  | Gate_Sessions => rt_sessions_enabled config
  | Gate_Messages => rt_messages_enabled config
  | Gate_Delegate => rt_delegate_enabled config
  | Gate_Browser => bp_enabled (rt_browser config)
  | Gate_BrowserCompanion => is_runtime_ready (rt_browser_companion config)
  | Gate_ExternalSkills => ep_enabled (rt_external_skills config)
  | Gate_WebFetch => wf_enabled (rt_web_fetch config)
  | Gate_WebSearch => wp_enabled (rt_web_search config)
  end.

Definition runtime_tool_view_for_runtime_config (config : ToolRuntimeConfig) : ToolView :=
  from_tool_names
    (td_name <$>
       filter (λ d, tool_visibility_gate_enabled_for_runtime_policy (td_visibility_gate d) config = true)
         (filter (λ d, td_availability d = Avail_Runtime) tool_catalog)).

Definition build_runtime_tool_view_for_runtime_config (config : ToolRuntimeConfig) : ToolView :=
  from_tool_names
    ((td_name <$> view_iter (runtime_tool_view_for_runtime_config config) tool_catalog)
     ++ (if rt_feishu config then feishu_tool_registry_names else [])).

Definition full_runtime_tool_view_for_runtime_config (config : ToolRuntimeConfig) : ToolView :=
  build_runtime_tool_view_for_runtime_config config.

Definition is_known_tool_name_in_view (raw : string) (view : ToolView) : bool :=
  is_provider_exposed_tool_name (canonical_tool_name raw) || view_contains view (canonical_tool_name raw).

Definition discoverable_tool_catalog : list ToolDescriptor :=
  filter (λ d, is_discoverable d = true) tool_catalog.
Definition provider_core_tool_catalog : list ToolDescriptor :=
  filter (λ d, is_provider_core d = true) tool_catalog.

(** ** Required capabilities *)

Definition claw_migrate_mode_requires_write (payload : Value) : bool :=
  let mode :=
    match trim <$> json_get_str "mode" payload with
    | Some m => if is_empty m then "plan" else m
    | None => "plan"
    end in
  bool_decide (mode ∈ ["apply"; "apply_selected"; "rollback_last_apply"]).

Definition invoked_discoverable_tool_request (payload : Value) : option (string * Value) :=
  tool_id ← canonical_tool_name <$> json_get_str "tool_id" payload;
  if bool_decide (tool_id ∈ ["tool.search"; "tool.invoke"]) then None
  else
    resolved ← resolve_tool_execution tool_id;
    if is_provider_exposed_tool_name (rte_canonical_name resolved) then None
    else Some (rte_canonical_name resolved, default payload (json_get "arguments" payload)).

(** The arms of the [match] other than [tool.invoke]. *)
Definition direct_required_capabilities (tool_name : string) (payload : Value) : gset Capability :=
  let caps := {[InvokeTool]} in
  if bool_decide (tool_name = "file.read") then caps ∪ {[FilesystemRead]}
  else if bool_decide (tool_name ∈ ["file.write"; "file.edit"]) then caps ∪ {[FilesystemWrite]}
  else if bool_decide (tool_name = "claw.migrate") then
    let caps := caps ∪ {[FilesystemRead]} in
    if claw_migrate_mode_requires_write payload then caps ∪ {[FilesystemWrite]} else caps
  else caps.

(** The recursive call is on a discoverable tool, which [tool.invoke] is not:
    [fuel] 1 is enough (lemma [invoke_recursion_is_one_level]). *)
Fixpoint required_capabilities_fuel (fuel : nat) (tool_name : string) (payload : Value) :
    gset Capability :=
  if bool_decide (tool_name = "tool.invoke") then
    match invoked_discoverable_tool_request payload, fuel with
    | Some (invoked_tool_name, invoked_payload), S fuel =>
        required_capabilities_fuel fuel invoked_tool_name invoked_payload
    | _, _ => {[InvokeTool]}
    end
  else direct_required_capabilities tool_name payload.

Definition required_capabilities_for_tool_name_and_payload (tool_name : string) (payload : Value) :
    gset Capability := required_capabilities_fuel 1 tool_name payload.

Definition required_capabilities_for_request (request : ToolCoreRequest) : gset Capability :=
  required_capabilities_for_tool_name_and_payload (canonical_tool_name (tcr_tool_name request))
    (tcr_payload request).

(** ** The kernel's view of a request *)

Definition TOOL_SEARCH_GRANTED_CAPABILITIES_FIELD : string := "_granted_capabilities".
Definition TOOL_LEASE_TOKEN_ID_FIELD : string := "_lease_token_id".
Definition TOOL_LEASE_SESSION_ID_FIELD : string := "_lease_session_id".
Definition TOOL_LEASE_TURN_ID_FIELD : string := "_lease_turn_id".
Definition LOONGCLAW_INTERNAL_TOOL_CONTEXT_KEY : string := "_loongclaw".
Definition LOONGCLAW_INTERNAL_TOOL_SEARCH_KEY : string := "tool_search".
Definition LOONGCLAW_INTERNAL_TOOL_SEARCH_VISIBLE_TOOL_IDS_KEY : string := "visible_tool_ids".
Definition LOONGCLAW_INTERNAL_RUNTIME_NARROWING_KEY : string := "runtime_narrowing".

(** [if let Some(id) = id { payload.insert(field, Value::String(id)) }] *)
Definition insert_id (field : string) (id : option string) (payload : list (string * Value)) :
    list (string * Value) :=
  match id with Some s => obj_insert field (JString s) payload | None => payload end.

Definition inject_tool_lease_binding (payload : list (string * Value))
    (token_id session_id turn_id : option string) : list (string * Value) :=
  insert_id TOOL_LEASE_TURN_ID_FIELD turn_id
    (insert_id TOOL_LEASE_SESSION_ID_FIELD session_id
       (insert_id TOOL_LEASE_TOKEN_ID_FIELD token_id payload)).

(** A unit variant is serialized as the name of its constructor; a [BTreeSet]
    of them is read back from an array of such names, in any order. *)
Definition capability_to_value (c : Capability) : Value := JString (debug_Capability c).
Definition capability_from_value (v : Value) : option Capability :=
  name ← json_as_str v; snd <$> list_find (λ c, debug_Capability c = name) all_capabilities.
Definition capabilities_from_value (v : Value) : option (gset Capability) :=
  xs ← json_as_array v; caps ← mapM capability_from_value xs; Some (list_to_set caps).

Definition prepare_kernel_tool_request (request : ToolCoreRequest)
    (granted_capabilities : gset Capability) (token_id session_id turn_id : option string) :
    ToolCoreRequest :=
  let name := canonical_tool_name (tcr_tool_name request) in
  if negb (bool_decide (name ∈ ["tool.search"; "tool.invoke"])) then request
  else
    match tcr_payload request with
    | JObject payload =>
        let payload :=
          if bool_decide (name = "tool.search") then
            obj_insert TOOL_SEARCH_GRANTED_CAPABILITIES_FIELD
              (JArray (capability_to_value <$> caps_iter granted_capabilities)) payload
          else payload in
        mkToolCoreRequest (tcr_tool_name request)
          (JObject (inject_tool_lease_binding payload token_id session_id turn_id))
    | _ => request
    end.

(** ** Which capabilities a tool needs

    Every tool needs the right to invoke tools; reading and writing files need
    the rights of the file system, and so does a migration, which writes in the
    modes that apply or roll back. *)
Inductive tool_needs (tool_name : string) (payload : Value) : Capability → Prop :=
| needs_invoke : tool_needs tool_name payload InvokeTool
| needs_read : tool_name = "file.read" → tool_needs tool_name payload FilesystemRead
| needs_write : tool_name = "file.write" ∨ tool_name = "file.edit" → tool_needs tool_name payload FilesystemWrite
| needs_migrate_read : tool_name = "claw.migrate" → tool_needs tool_name payload FilesystemRead
| needs_migrate_write mode :
    tool_name = "claw.migrate" → json_get_str "mode" payload = Some mode →
    trim mode ∈ ["apply"; "apply_selected"; "rollback_last_apply"] →
    tool_needs tool_name payload FilesystemWrite.

Lemma tool_needs_required tool_name payload c :
  tool_needs tool_name payload c → c ∈ direct_required_capabilities tool_name payload.
Proof.
  assert (∀ n, InvokeTool ∈ direct_required_capabilities n payload) as Hinvoke.
  { intros n. unfold direct_required_capabilities. repeat case_match; set_solver. }
  intros [ | -> | [-> | ->] | -> | mode -> Hmode Hin ]; [done|apply (bool_decide_unpack _); by vm_compute..| |];
    unfold direct_required_capabilities; rewrite !bool_decide_eq_false_2, bool_decide_eq_true_2 by set_solver.
  - destruct (claw_migrate_mode_requires_write payload); set_solver.
  - unfold claw_migrate_mode_requires_write. rewrite Hmode. cbn [fmap option_fmap option_map].
    assert (is_empty (trim mode) = false) as -> by (destruct (trim mode); [set_solver|done]).
    rewrite bool_decide_eq_true_2 by done. set_solver.
Qed.

(** ** Lemmas *)

#[export] Instance ToolVisibilityGate_eq_dec : EqDecision ToolVisibilityGate.
Proof. solve_decision. Defined.
#[export] Instance ToolDescriptor_eq_dec : EqDecision ToolDescriptor.
Proof. solve_decision. Defined.

Lemma catalog_resolve_elem raw d : catalog_resolve raw = Some d → d ∈ tool_catalog ∧ matches_name d raw = true.
Proof.
  unfold catalog_resolve. destruct (list_find _ tool_catalog) as [[i x]|] eqn:H; [|done].
  intros [= ->]. apply list_find_Some in H as (Hi & Hm & _).
  split; [by eapply list_elem_of_lookup_2|done].
Qed.

(** Every descriptor is found by its own name, its provider name and its
    aliases. *)
Lemma catalog_names_unambiguous : Forall (λ d,
  Forall (λ n, catalog_resolve n = Some d) (td_name d :: td_provider_name d :: td_aliases d)) tool_catalog.
Proof. apply (bool_decide_unpack _). vm_compute. done. Qed.

Lemma catalog_resolve_name d : d ∈ tool_catalog → catalog_resolve (td_name d) = Some d.
Proof. intros H. by apply (Forall_cons_1 _ _ _ (proj1 (List.Forall_forall _ _) catalog_names_unambiguous d
  (proj1 (list_elem_of_In _ _) H))). Qed.

(** [canonical_feishu_tool_name] yields names that it maps to themselves and
    that the catalogue does not contain. *)
Lemma feishu_names_canonical : Forall (λ p,
  catalog_resolve p.2 = None ∧ canonical_feishu_tool_name p.2 = Some p.2) feishu_pairs.
Proof. apply (bool_decide_unpack _). vm_compute. done. Qed.

Lemma match_arms_cases {A} name (arms : list (list string * A)) dflt :
  match_arms name arms dflt = dflt ∨ ∃ arm, arm ∈ arms ∧ match_arms name arms dflt = arm.2.
Proof.
  unfold match_arms. destruct (list_find _ arms) as [[i [ns v]]|] eqn:H; [|by left].
  right. exists (ns, v). split; [|done]. apply list_find_Some in H as (Hi & _).
  by eapply list_elem_of_lookup_2.
Qed.

Lemma canonical_feishu_Some raw c : canonical_feishu_tool_name raw = Some c →
  catalog_resolve c = None ∧ canonical_feishu_tool_name c = Some c.
Proof.
  unfold canonical_feishu_tool_name at 1. intros H.
  destruct (match_arms_cases raw ((λ '(names, c), (names, Some c)) <$> feishu_pairs) None)
    as [E|([ns v] & Hin & E)]; [congruence|]. rewrite H in E. simpl in E. subst v.
  apply list_elem_of_fmap in Hin as ([ns' c'] & [= -> ->] & Hin).
  by apply (proj1 (List.Forall_forall _ _) feishu_names_canonical (ns', c') (proj1 (list_elem_of_In _ _) Hin)).
Qed.

Lemma canonical_tool_name_idemp raw :
  canonical_tool_name (canonical_tool_name raw) = canonical_tool_name raw.
Proof.
  unfold canonical_tool_name at 2 3. destruct (catalog_resolve raw) as [d|] eqn:Hr.
  - apply catalog_resolve_elem in Hr as [Hd _]. unfold canonical_tool_name.
    by rewrite (catalog_resolve_name d Hd).
  - destruct (canonical_feishu_tool_name raw) as [c|] eqn:Hf; simpl.
    + apply canonical_feishu_Some in Hf as [H1 H2]. unfold canonical_tool_name. by rewrite H1, H2.
    + unfold canonical_tool_name. by rewrite Hr, Hf.
Qed.

(** Resolving a tool finds its canonical name, whichever of its names is used. *)
Lemma resolve_tool_execution_Some raw r : resolve_tool_execution raw = Some r →
  rte_canonical_name r = canonical_tool_name raw ∧
  resolve_tool_execution (canonical_tool_name raw) = Some r.
Proof.
  unfold resolve_tool_execution, canonical_tool_name. destruct (catalog_resolve raw) as [d|] eqn:Hr.
  - intros [= <-]. apply catalog_resolve_elem in Hr as [Hd _]. by rewrite (catalog_resolve_name d Hd).
  - destruct (canonical_feishu_tool_name raw) as [c|] eqn:Hf; [|done]. simpl. intros [= <-].
    apply canonical_feishu_Some in Hf as [-> ->]. done.
Qed.

Lemma canonical_of_resolved raw r : resolve_tool_execution raw = Some r →
  canonical_tool_name (rte_canonical_name r) = rte_canonical_name r.
Proof. intros [-> _]%resolve_tool_execution_Some. apply canonical_tool_name_idemp. Qed.

Lemma invoke_is_provider_exposed : is_provider_exposed_tool_name "tool.invoke" = true.
Proof. vm_compute. done. Qed.

Lemma invoked_request_Some payload name args :
  invoked_discoverable_tool_request payload = Some (name, args) →
  ∃ tool_id r, json_get_str "tool_id" payload = Some tool_id ∧
    resolve_tool_execution (canonical_tool_name tool_id) = Some r ∧ name = rte_canonical_name r ∧
    is_provider_exposed_tool_name name = false ∧ args = default payload (json_get "arguments" payload).
Proof.
  unfold invoked_discoverable_tool_request. destruct (json_get_str "tool_id" payload) as [t|]; [|done]. simpl.
  case_bool_decide; [done|]. destruct (resolve_tool_execution _) as [r|] eqn:Hr; [|done]. simpl.
  destruct (is_provider_exposed_tool_name _) eqn:E; [done|]. intros [= <- <-]. by exists t, r.
Qed.

Lemma invoke_recursion_is_one_level fuel tool_name payload :
  required_capabilities_fuel (S fuel) tool_name payload
  = required_capabilities_for_tool_name_and_payload tool_name payload.
Proof.
  unfold required_capabilities_for_tool_name_and_payload. simpl. case_bool_decide; [|done].
  destruct (invoked_discoverable_tool_request payload) as [[n q]|] eqn:Hi; [|done].
  apply invoked_request_Some in Hi as (? & ? & _ & _ & _ & He & _).
  assert (n ≠ "tool.invoke") by (intros ->; by rewrite invoke_is_provider_exposed in He).
  destruct fuel; simpl; by rewrite bool_decide_false.
Qed.

Lemma capabilities_round_trip caps :
  capabilities_from_value (JArray (capability_to_value <$> caps_iter caps)) = Some caps.
Proof.
  transitivity (mapM capability_from_value (capability_to_value <$> caps_iter caps)
                  ≫= λ l, Some (list_to_set (C := gset Capability) l)); [done|].
  rewrite (mapM_fmap_Some capability_from_value) by (by intros []).
  simpl. f_equal. apply set_eq. intros c. unfold caps_iter.
  rewrite elem_of_list_to_set, list_elem_of_filter. split; [by intros []|]. intros Hc. split; [done|].
  by destruct c; apply (bool_decide_unpack _).
Qed.
