(* ===== verification/ToolLease.v ===== *)
(** * ToolLease: leases for discovered tools (app/src/tools/mod.rs)

    [tool.search] hands out a signed lease with every tool it finds, and
    [tool.invoke] runs a tool only with such a lease. Hashing, base64 and JSON
    text are third-party code: the operations of [LeaseCodec], with the round
    trips [LeaseCodecLaws] states. *)
From S2P Require Import Prelude RustStr Contracts Json ToolRuntimeConfig ToolCatalog ToolNames.
From Stdlib Require Import Ascii.

Record ToolLeaseClaims := mkToolLeaseClaims {
  lc_tool_id : string;
  lc_catalog_digest : string;
  lc_expires_at_unix : Z;
  lc_token_id : option string;
  lc_session_id : option string;
  lc_turn_id : option string;
}.

Record LeaseCodec := mkLeaseCodec {
  sha256_hex : string → string;
  b64_encode : string → string;
  b64_decode : string → result string string;
  claims_to_vec : ToolLeaseClaims → string;
  claims_from_slice : string → result string ToolLeaseClaims;
  catalog_to_vec : list ToolDescriptor → string;
}.

(** Decoding inverts encoding, and the URL-safe alphabet has no full stop. *)
Class LeaseCodecLaws (codec : LeaseCodec) := {
  b64_decode_encode bytes : b64_decode codec (b64_encode codec bytes) = Ok bytes;
  b64_no_stop bytes : all_bytes (λ a, negb (Ascii.eqb a "."%char)) (b64_encode codec bytes) = true;
  claims_round_trip claims : claims_from_slice codec (claims_to_vec codec claims) = Ok claims;
}.

Definition TOOL_LEASE_TTL_SECONDS : Z := 300.

Record ToolLeaseBinding := mkToolLeaseBinding {
  lb_token_id : option string;
  lb_session_id : option string;
  lb_turn_id : option string;
}.

Definition extract_tool_lease_binding (payload : list (string * Value)) : ToolLeaseBinding :=
  mkToolLeaseBinding (obj_get TOOL_LEASE_TOKEN_ID_FIELD payload ≫= json_as_str)
    (obj_get TOOL_LEASE_SESSION_ID_FIELD payload ≫= json_as_str)
    (obj_get TOOL_LEASE_TURN_ID_FIELD payload ≫= json_as_str).

Section leases.
  Context (codec : LeaseCodec) (secret : string).

Definition sign_tool_lease (encoded_claims : string) : string :=
  sha256_hex codec (secret +:+ ":" +:+ encoded_claims).

Definition tool_catalog_digest : string := sha256_hex codec (catalog_to_vec codec tool_catalog).

Definition issue_tool_lease (now_unix_seconds : Z) (tool_id : string) (payload : list (string * Value)) :
    string :=
  let binding := extract_tool_lease_binding payload in
  let claims :=
    mkToolLeaseClaims tool_id tool_catalog_digest (sat_add now_unix_seconds TOOL_LEASE_TTL_SECONDS)
      (lb_token_id binding) (lb_session_id binding) (lb_turn_id binding) in
  let encoded_claims := b64_encode codec (claims_to_vec codec claims) in
  encoded_claims +:+ "." +:+ sign_tool_lease encoded_claims.

(** [claims.f.is_some() && claims.f != binding.f] *)
Definition binding_mismatch (claimed bound : option string) : bool :=
  bool_decide (is_Some claimed) && negb (bool_decide (claimed = bound)).

Definition validate_tool_lease (now_unix_seconds : Z) (expected_tool_id lease : string)
    (payload : list (string * Value)) : result string unit :=
  match split_once "."%char lease with
  | None => Err "invalid_tool_lease: malformed lease"
  | Some (encoded_claims, signature) =>
      if negb (bool_decide (sign_tool_lease encoded_claims = signature)) then
        Err "invalid_tool_lease: signature mismatch"
      else
        match b64_decode codec encoded_claims with
        | Err error => Err ("invalid_tool_lease: claims decode failed: " +:+ error)
        | Ok claims_bytes =>
            match claims_from_slice codec claims_bytes with
            | Err error => Err ("invalid_tool_lease: claims parse failed: " +:+ error)
            | Ok claims =>
                let binding := extract_tool_lease_binding payload in
                if negb (bool_decide (lc_tool_id claims = expected_tool_id)) then
                  Err "invalid_tool_lease: tool mismatch"
                else if negb (bool_decide (lc_catalog_digest claims = tool_catalog_digest)) then
                  Err "invalid_tool_lease: catalog mismatch"
                else if (lc_expires_at_unix claims <=? now_unix_seconds)%Z then
                  Err "invalid_tool_lease: expired lease"
                else if binding_mismatch (lc_token_id claims) (lb_token_id binding) then
                  Err "invalid_tool_lease: token mismatch"
                else if binding_mismatch (lc_session_id claims) (lb_session_id binding) then
                  Err "invalid_tool_lease: session mismatch"
                else if binding_mismatch (lc_turn_id claims) (lb_turn_id binding) then
                  Err "invalid_tool_lease: turn mismatch"
                else Ok ()
            end
        end
  end.

(** ** [tool.invoke] *)

Definition merge_trusted_internal_tool_context_into_arguments (arguments : list (string * Value))
    (internal_context : Value) : result string (list (string * Value)) :=
  match json_as_object internal_context with
  | None =>
      Err ("tool.invoke payload." +:+ LOONGCLAW_INTERNAL_TOOL_CONTEXT_KEY +:+ " must be an object")
  | Some trusted_context =>
      let rest := obj_remove LOONGCLAW_INTERNAL_TOOL_CONTEXT_KEY arguments in
      match obj_get LOONGCLAW_INTERNAL_TOOL_CONTEXT_KEY arguments with
      | None => Ok (obj_insert LOONGCLAW_INTERNAL_TOOL_CONTEXT_KEY (JObject trusted_context) rest)
      | Some (JObject existing_context) =>
          Ok (obj_insert LOONGCLAW_INTERNAL_TOOL_CONTEXT_KEY
                (JObject (obj_extend trusted_context existing_context)) rest)
      | Some _ =>
          Err ("tool.invoke payload.arguments." +:+ LOONGCLAW_INTERNAL_TOOL_CONTEXT_KEY
               +:+ " must be an object")
      end
  end.

Definition resolve_tool_invoke_request (now_unix_seconds : Z) (request : ToolCoreRequest) :
    result string (ResolvedToolExecution * ToolCoreRequest) :=
  if negb (bool_decide (canonical_tool_name (tcr_tool_name request) = "tool.invoke")) then
    Err ("tool_invoke_required: expected `tool.invoke`, got `" +:+ tcr_tool_name request +:+ "`")
  else
    payload ← ok_or (json_as_object (tcr_payload request)) "tool.invoke payload must be an object";
    tool_id ← ok_or (canonical_tool_name <$> (obj_get "tool_id" payload ≫= json_as_str))
                "tool.invoke requires payload.tool_id";
    lease ← ok_or (obj_get "lease" payload ≫= json_as_str) "tool.invoke requires payload.lease";
    arguments ← ok_or (json_as_object (default (JObject []) (obj_get "arguments" payload)))
                  "tool.invoke payload.arguments must be an object";
    arguments ←
      match obj_get LOONGCLAW_INTERNAL_TOOL_CONTEXT_KEY payload with
      | Some internal_context =>
          merge_trusted_internal_tool_context_into_arguments arguments internal_context
      | None => Ok arguments
      end;
    resolved ← ok_or (resolve_tool_execution tool_id)
                 ("tool_not_found: unknown tool `" +:+ tool_id +:+ "`");
    let resolved_tool_name := rte_canonical_name resolved in
    if is_provider_exposed_tool_name resolved_tool_name then
      Err ("tool_not_provider_exposed: " +:+ resolved_tool_name
           +:+ " must be called directly as a core tool")
    else
      _ ← validate_tool_lease now_unix_seconds resolved_tool_name lease payload;
      Ok (resolved, mkToolCoreRequest resolved_tool_name (JObject arguments)).

(** [bridge_provider_tool_call_with_scope]: a provider's direct call of a
    discoverable tool becomes a [tool.invoke] with a fresh lease. *)
Definition bridge_provider_tool_call_with_scope (now_unix_seconds : Z) (tool_name : string)
    (args_json : Value) (session_id turn_id : option string) : string * Value :=
  let canonical_name := canonical_tool_name tool_name in
  match find_tool_catalog_entry canonical_name with
  | None => (canonical_name, args_json)
  | Some entry =>
      if negb (is_discoverable entry) then (canonical_name, args_json)
      else
        let lease_payload := inject_tool_lease_binding [] None session_id turn_id in
        let lease := issue_tool_lease now_unix_seconds (td_name entry) lease_payload in
        let outer_payload :=
          obj_insert "arguments" args_json
            (obj_insert "lease" (JString lease) (obj_insert "tool_id" (JString (td_name entry)) [])) in
        ("tool.invoke", JObject (obj_extend lease_payload outer_payload))
  end.
End leases.

(** ** Lemmas *)

#[local] Arguments obj_get : simpl never.
#[local] Arguments canonical_tool_name : simpl never.
#[local] Arguments resolve_tool_execution : simpl never.
#[local] Arguments is_provider_exposed_tool_name : simpl never.
#[local] Arguments validate_tool_lease : simpl never.

Lemma binding_mismatch_false claimed bound :
  binding_mismatch claimed bound = false ↔ ∀ s, claimed = Some s → bound = Some s.
Proof.
  unfold binding_mismatch. destruct claimed as [c|].
  - rewrite (bool_decide_true (is_Some _)) by eauto. cbn [andb].
    rewrite negb_false_iff, bool_decide_eq_true. split; [intros <- s; done|]. intros H. by rewrite (H c).
  - rewrite (bool_decide_false (is_Some _)) by (by intros [? ?]). naive_solver.
Qed.

(** A binding field is what was injected, or what the payload already said. *)
Lemma insert_id_get field id payload :
  obj_get field (insert_id field id payload) ≫= json_as_str
  = match id with Some s => Some s | None => obj_get field payload ≫= json_as_str end.
Proof. destruct id as [s|]; simpl; [by rewrite obj_get_insert_eq|done]. Qed.

Lemma insert_id_get_ne key field id payload : key ≠ field →
  obj_get key (insert_id field id payload) = obj_get key payload.
Proof. intros H. destruct id as [s|]; simpl; [by apply obj_get_insert_ne|done]. Qed.

Lemma inject_get_ne key payload token session turn :
  key ∉ [TOOL_LEASE_TOKEN_ID_FIELD; TOOL_LEASE_SESSION_ID_FIELD; TOOL_LEASE_TURN_ID_FIELD] →
  obj_get key (inject_tool_lease_binding payload token session turn) = obj_get key payload.
Proof.
  intros H. rewrite !not_elem_of_cons in H. destruct H as (? & ? & ? & _).
  unfold inject_tool_lease_binding. by rewrite !insert_id_get_ne.
Qed.

Lemma inject_extract payload token session turn :
  extract_tool_lease_binding (inject_tool_lease_binding payload token session turn)
  = let b := extract_tool_lease_binding payload in
    let over (o old : option string) := match o with Some s => Some s | None => old end in
    mkToolLeaseBinding (over token (lb_token_id b)) (over session (lb_session_id b))
      (over turn (lb_turn_id b)).
Proof.
  unfold extract_tool_lease_binding, inject_tool_lease_binding. simpl. f_equal;
    repeat first [rewrite insert_id_get | rewrite insert_id_get_ne by (by vm_compute)]; done.
Qed.

Section lease_props.
  Context (codec : LeaseCodec) (secret : string).

(** What an accepted lease carries: the process's signature over claims for
    this tool and this catalogue that have not expired, bound to nothing the
    payload does not repeat. *)
Lemma validate_lease_sound now expected lease payload :
  validate_tool_lease codec secret now expected lease payload = Ok () →
  ∃ encoded bytes claims, lease = encoded +:+ "." +:+ sign_tool_lease codec secret encoded ∧
    b64_decode codec encoded = Ok bytes ∧ claims_from_slice codec bytes = Ok claims ∧
    lc_tool_id claims = expected ∧ lc_catalog_digest claims = tool_catalog_digest codec ∧
    (now < lc_expires_at_unix claims)%Z ∧
    let b := extract_tool_lease_binding payload in
    binding_mismatch (lc_token_id claims) (lb_token_id b) = false ∧
    binding_mismatch (lc_session_id claims) (lb_session_id b) = false ∧
    binding_mismatch (lc_turn_id claims) (lb_turn_id b) = false.
Proof.
  unfold validate_tool_lease. destruct (split_once _ lease) as [[enc sig]|] eqn:Hs; [|done].
  apply split_once_Some in Hs as [-> _].
  case_bool_decide as Hsig; [|done]. cbn [negb]. destruct (b64_decode codec enc) as [bytes|] eqn:Hd; [|done].
  destruct (claims_from_slice codec bytes) as [claims|] eqn:Hc; [|done].
  case_bool_decide as Ht; [|done]. case_bool_decide as Hg; [|done]. cbn [negb].
  destruct (Z.leb_spec (lc_expires_at_unix claims) now); [done|].
  destruct (binding_mismatch (lc_token_id _) _) eqn:?; [done|].
  destruct (binding_mismatch (lc_session_id _) _) eqn:?; [done|].
  destruct (binding_mismatch (lc_turn_id _) _) eqn:?; [done|].
  intros _. exists enc, bytes, claims. subst sig. by split_and!.
Qed.

Context `{!LeaseCodecLaws codec}.

(** An issued lease read back: every check on what was put in it. *)
Lemma validate_issued now now' tool expected payload payload' :
  validate_tool_lease codec secret now' expected (issue_tool_lease codec secret now tool payload) payload'
    = Ok () ↔
  tool = expected ∧ (now' < sat_add now TOOL_LEASE_TTL_SECONDS)%Z ∧
  let b := extract_tool_lease_binding payload in
  let b' := extract_tool_lease_binding payload' in
  (∀ t, lb_token_id b = Some t → lb_token_id b' = Some t) ∧
  (∀ s, lb_session_id b = Some s → lb_session_id b' = Some s) ∧
  (∀ u, lb_turn_id b = Some u → lb_turn_id b' = Some u).
Proof.
  unfold validate_tool_lease, issue_tool_lease. cbv zeta.
  rewrite app_cons_str, app_nil_l_str, (split_once_app "."%char) by apply b64_no_stop.
  rewrite (bool_decide_true (sign_tool_lease _ _ _ = _)) by done. cbn [negb].
  rewrite b64_decode_encode, claims_round_trip. cbn [lc_tool_id lc_catalog_digest lc_expires_at_unix
    lc_token_id lc_session_id lc_turn_id]. rewrite (bool_decide_true (tool_catalog_digest _ = _)) by done.
  rewrite <-!binding_mismatch_false.
  case_bool_decide; cbn [negb]; [|naive_solver].
  destruct (Z.leb_spec (sat_add now TOOL_LEASE_TTL_SECONDS) now'); [naive_solver lia|].
  do 3 (destruct (binding_mismatch _ _); [naive_solver|]). naive_solver.
Qed.

(** [tool.invoke] without internal context: what [resolve_tool_invoke_request]
    checks before and after the lease. *)
Lemma resolve_invoke_plain now (p args : list (string * Value)) tool_id lease resolved name :
  canonical_tool_name name = "tool.invoke" →
  obj_get "tool_id" p = Some (JString tool_id) → obj_get "lease" p = Some (JString lease) →
  obj_get "arguments" p = Some (JObject args) → obj_get LOONGCLAW_INTERNAL_TOOL_CONTEXT_KEY p = None →
  resolve_tool_execution (canonical_tool_name tool_id) = Some resolved →
  is_provider_exposed_tool_name (rte_canonical_name resolved) = false →
  resolve_tool_invoke_request codec secret now (mkToolCoreRequest name (JObject p))
  = match validate_tool_lease codec secret now (rte_canonical_name resolved) lease p with
    | Ok _ => Ok (resolved, mkToolCoreRequest (rte_canonical_name resolved) (JObject args))
    | Err e => Err e
    end.
Proof.
  intros Hn Ht Hl Ha Hi Hr Hx. unfold resolve_tool_invoke_request. simpl tcr_tool_name. rewrite Hn.
  cbn. rewrite Ht, Hl, Ha. cbn. rewrite Hi.
  cbn. rewrite Hr. cbn. rewrite Hx.
  by destruct (validate_tool_lease _ _ _ _ _ _).
Qed.
End lease_props.

(** C20. A lease handed out by [tool.search] opens exactly the tool it was
    issued for: a [tool.invoke] that presents it, prepared for the kernel like
    the search was, is resolved to that tool with the caller's arguments if and
    only if the named tool is the leased one, the 300 seconds have not run out,
    it is made under the same capability token, and it repeats the session and
    the turn the lease is bound to, where it is bound to one. *)
Theorem lease_opens_exactly_its_tool codec secret `{!LeaseCodecLaws codec} now now' caps caps'
    leased tool_id resolved token token' session session' turn turn' query bound p args :
  resolve_tool_execution (canonical_tool_name tool_id) = Some resolved →
  is_provider_exposed_tool_name (rte_canonical_name resolved) = false →
  tcr_payload (prepare_kernel_tool_request (mkToolCoreRequest "tool.search" (JObject query)) caps
                 (Some token) session turn) = JObject bound →
  obj_get "tool_id" p = Some (JString tool_id) →
  obj_get "lease" p = Some (JString (issue_tool_lease codec secret now leased bound)) →
  obj_get "arguments" p = Some (JObject args) →
  obj_get LOONGCLAW_INTERNAL_TOOL_CONTEXT_KEY p = None →
  let p' := inject_tool_lease_binding p (Some token') session' turn' in
  resolve_tool_invoke_request codec secret now'
    (prepare_kernel_tool_request (mkToolCoreRequest "tool.invoke" (JObject p)) caps' (Some token')
       session' turn')
  = Ok (resolved, mkToolCoreRequest (rte_canonical_name resolved) (JObject args)) ↔
  leased = rte_canonical_name resolved ∧ (now' < sat_add now TOOL_LEASE_TTL_SECONDS)%Z ∧ token = token' ∧
  (∀ s, lb_session_id (extract_tool_lease_binding bound) = Some s →
    lb_session_id (extract_tool_lease_binding p') = Some s) ∧
  (∀ u, lb_turn_id (extract_tool_lease_binding bound) = Some u →
    lb_turn_id (extract_tool_lease_binding p') = Some u).
Proof.
  intros Hr Hx Hb Ht Hl Ha Hi p'.
  assert (Htok : lb_token_id (extract_tool_lease_binding bound) = Some token).
  { injection Hb as <-. by rewrite inject_extract. }
  assert (Htok' : lb_token_id (extract_tool_lease_binding p') = Some token').
  { unfold p'. by rewrite inject_extract. }
  change (prepare_kernel_tool_request _ _ _ _ _) with (mkToolCoreRequest "tool.invoke" (JObject p')).
  rewrite (resolve_invoke_plain codec secret now' p' args tool_id _ resolved) by
    first [done | unfold p'; rewrite inject_get_ne by (by apply (bool_decide_unpack _)); done].
  pose proof (validate_issued codec secret now now' leased (rte_canonical_name resolved) bound p') as Hv.
  cbv zeta in Hv. rewrite Htok, Htok' in Hv.
  destruct (validate_tool_lease _ _ _ _ _ _) as [[]|e]; naive_solver.
Qed.

Lemma extend_is_inject outer session turn :
  obj_extend (inject_tool_lease_binding [] None session turn) outer
  = inject_tool_lease_binding outer None session turn.
Proof. by destruct session, turn. Qed.

(** A provider's direct call of a discoverable tool, bridged to [tool.invoke],
    resolves to that tool with its arguments as long as the lease lives. *)
Theorem bridged_call_resolves codec secret `{!LeaseCodecLaws codec} now now' d args session turn :
  d ∈ tool_catalog → is_discoverable d = true → (now' < sat_add now TOOL_LEASE_TTL_SECONDS)%Z →
  let '(name, payload) :=
    bridge_provider_tool_call_with_scope codec secret now (td_name d) (JObject args) session turn in
  resolve_tool_invoke_request codec secret now' (mkToolCoreRequest name payload)
  = Ok (mkResolvedToolExecution (td_name d) (td_execution_kind d),
        mkToolCoreRequest (td_name d) (JObject args)).
Proof.
  intros Hd Hdisc Hnow.
  assert (Hres : catalog_resolve (td_name d) = Some d) by by apply catalog_resolve_name.
  assert (Hcan : canonical_tool_name (td_name d) = td_name d) by (unfold canonical_tool_name; by rewrite Hres).
  unfold bridge_provider_tool_call_with_scope, find_tool_catalog_entry. rewrite Hcan, Hres, Hdisc.
  cbn [negb]. rewrite extend_is_inject.
  set (outer := obj_insert "arguments" _ _). set (p := inject_tool_lease_binding outer None session turn).
  assert (Hout : ∀ key, key ∉ [TOOL_LEASE_TOKEN_ID_FIELD; TOOL_LEASE_SESSION_ID_FIELD; TOOL_LEASE_TURN_ID_FIELD] →
    obj_get key p = obj_get key outer) by (intros; by apply inject_get_ne).
  rewrite (resolve_invoke_plain codec secret now' p args (td_name d)
             (issue_tool_lease codec secret now (td_name d) (inject_tool_lease_binding [] None session turn))
             (mkResolvedToolExecution (td_name d) (td_execution_kind d))); simpl;
    try first [done | rewrite Hout by (by apply (bool_decide_unpack _)); done].
  - pose proof (validate_issued codec secret now now' (td_name d) (td_name d)
      (inject_tool_lease_binding [] None session turn) p) as [_ Hv].
    rewrite Hv; [done|]. split; [done|]. split; [done|]. unfold p. rewrite !inject_extract. simpl.
    by destruct session, turn.
  - rewrite Hcan. unfold resolve_tool_execution. by rewrite Hres.
  - unfold is_provider_exposed_tool_name, find_tool_catalog_entry. rewrite Hcan, Hres.
    unfold is_discoverable in Hdisc. unfold is_provider_core.
    apply bool_decide_eq_true in Hdisc. by rewrite Hdisc.

Qed.

Module LeaseDemo.
(** A codec that satisfies the laws: claims are written as the bits of the
    positive number that encodes them, and base64 is replaced by an escape. *)
Fixpoint bits (p : positive) : string :=
  match p with xH => "" | xO p => String "0"%char (bits p) | xI p => String "1"%char (bits p) end.
Fixpoint unbits (s : string) : positive :=
  match s with
  | "" => 1%positive
  | String a s => if Ascii.eqb a "0"%char then xO (unbits s) else xI (unbits s)
  end.
Fixpoint escape (s : string) : string :=
  match s with
  | "" => ""
  | String a s =>
      if Ascii.eqb a "."%char then "~d" +:+ escape s
      else if Ascii.eqb a "~"%char then "~~" +:+ escape s
      else String a (escape s)
  end.
Fixpoint unescape (s : string) : string :=
  match s with
  | String "~" (String b s') => String (if Ascii.eqb b "d"%char then "."%char else "~"%char) (unescape s')
  | String a s' => String a (unescape s')
  | "" => ""
  end.

Lemma unbits_bits p : unbits (bits p) = p.
Proof. induction p as [p IH|p IH|]; simpl; by rewrite ?IH. Qed.

Lemma unescape_escape s : unescape (escape s) = s.
Proof.
  induction s as [|a s IH]; [done|]. transitivity (String a (unescape (escape s))); [|by rewrite IH].
  destruct a as [[] [] [] [] [] [] [] []]; reflexivity.
Qed.

Lemma escape_no_stop s : all_bytes (λ a, negb (Ascii.eqb a "."%char)) (escape s) = true.
Proof.
  induction s as [|a s IH]; [done|]. simpl.
  destruct (Ascii.eqb a ".") eqn:E; [done|]. destruct (Ascii.eqb a "~"); [done|]. simpl. by rewrite E.
Qed.

Definition claims_tuple (c : ToolLeaseClaims) :=
  (lc_tool_id c, lc_catalog_digest c, lc_expires_at_unix c, lc_token_id c, lc_session_id c, lc_turn_id c).

Definition bit_codec : LeaseCodec :=
  {| sha256_hex s := "#" +:+ s;
     b64_encode := escape;
     b64_decode s := Ok (unescape s);
     claims_to_vec c := bits (encode (claims_tuple c));
     claims_from_slice s :=
       '(a, b, c, d, e, f) ← ok_or (decode (unbits s)) "bits"; Ok (mkToolLeaseClaims a b c d e f);
     catalog_to_vec _ := "catalog" |}.

#[export] Instance bit_codec_laws : LeaseCodecLaws bit_codec.
Proof.
  split.
  - intros bytes. simpl. by rewrite unescape_escape.
  - apply escape_no_stop.
  - intros [a b c d e f]. cbn -[encode decode]. by rewrite unbits_bits, decode_encode.
Qed.

Definition bound : list (string * Value) :=
  [("_granted_capabilities", JArray [JString "InvokeTool"]); ("_lease_token_id", JString "t1");
   ("query", JString "read")].
Definition invoke : list (string * Value) :=
  [("arguments", JObject [("path", JString "a.txt")]);
   ("lease", JString (issue_tool_lease bit_codec "k" 1000 "file.read" bound));
   ("tool_id", JString "file_read")].

Lemma lease_witness :
  resolve_tool_invoke_request bit_codec "k" 1299
    (prepare_kernel_tool_request (mkToolCoreRequest "tool.invoke" (JObject invoke)) ∅ (Some "t1") None None)
  = Ok (mkResolvedToolExecution "file.read" Exec_Core,
        mkToolCoreRequest "file.read" (JObject [("path", JString "a.txt")])).
Proof.
  refine (proj2 (lease_opens_exactly_its_tool bit_codec "k" 1000 1299 {[InvokeTool]} ∅ "file.read"
    "file_read" (mkResolvedToolExecution "file.read" Exec_Core) "t1" "t1" None None None None
    [("query", JString "read")] bound invoke [("path", JString "a.txt")] _ _ _ _ _ _ _) _);
    try (vm_compute; reflexivity).
  split_and!; [done|by vm_compute|done|by vm_compute|by vm_compute].
Defined.

(** After 300 seconds, or under another token, the lease is refused. *)
Example lease_refused :
  resolve_tool_invoke_request bit_codec "k" 1300
    (prepare_kernel_tool_request (mkToolCoreRequest "tool.invoke" (JObject invoke)) ∅ (Some "t1") None None)
  = Err "invalid_tool_lease: expired lease" ∧
  resolve_tool_invoke_request bit_codec "k" 1200
    (prepare_kernel_tool_request (mkToolCoreRequest "tool.invoke" (JObject invoke)) ∅ (Some "t2") None None)
  = Err "invalid_tool_lease: token mismatch".
Proof. by vm_compute. Qed.
End LeaseDemo.
