(* ===== verification/ToolSchemas.v ===== *)
(** * ToolSchemas: the provider definitions of the catalogue's tools
    (app/src/tools/catalog.rs)

    The function definitions sent to the model provider, one per descriptor. *)
From S2P Require Import Prelude RustStr Contracts Json ToolRuntimeConfig ToolCatalog.

(** ** Constants of app/src/config *)
Definition MAX_WEB_FETCH_MAX_BYTES : Z := 5 * 1024 * 1024.
Definition MAX_BROWSER_MAX_LINKS : Z := 200.
Definition WEB_SEARCH_PROVIDER_SCHEMA_VALUES : list string := ["duckduckgo"; "ddg"; "brave"; "tavily"].
Definition PROVIDER_SELECTOR_HUMAN_SUMMARY : string :=
  "profile id, unique model name or suffix, or provider kind".
Definition web_search_provider_parameter_description : string :=
  "Search provider. Defaults to 'duckduckgo'. Supported providers: duckduckgo (or ddg), brave, tavily. "
  +:+ "Brave and Tavily require a configured API key; use tools.web_search.brave_api_key / "
  +:+ "tools.web_search.tavily_api_key or the BRAVE_API_KEY / TAVILY_API_KEY environment variable fallbacks.".

(** ** The definitions *)

Definition tool_search_definition (descriptor : ToolDescriptor) : Value :=
  json_object [
    ("type", JString "function");
    ("function", json_object [
      ("name", JString (td_provider_name descriptor));
      ("description", JString "Discover non-core tools relevant to the current task.");
      ("parameters", json_object [
        ("type", JString "object");
        ("properties", json_object [
          ("query", json_object [
            ("type", JString "string");
            ("description", JString "English natural-language description of the tool capability you need.")]);
          ("limit", json_object [
            ("type", JString "integer");
            ("description", JString "Optional maximum number of search results to return.")])]);
        ("required", JArray [JString "query"]);
        ("additionalProperties", JBool false)])])].

Definition browser_open_definition (descriptor : ToolDescriptor) : Value :=
  json_object [
    ("type", JString "function");
    ("function", json_object [
      ("name", JString (td_provider_name descriptor));
      ("description", JString (td_description descriptor));
      ("parameters", json_object [
        ("type", JString "object");
        ("properties", json_object [
          ("url", json_object [
            ("type", JString "string");
            ("description", JString "HTTP or HTTPS URL to open.")]);
          ("max_bytes", json_object [
            ("type", JString "integer");
            ("minimum", json_uint 1);
            ("maximum", json_uint MAX_WEB_FETCH_MAX_BYTES);
            ("description",
              JString "Optional per-call read limit in bytes. Cannot exceed the configured runtime max.")])]);
        ("required", JArray [JString "url"]);
        ("additionalProperties", JBool false)])])].

Definition browser_extract_definition (descriptor : ToolDescriptor) : Value :=
  json_object [
    ("type", JString "function");
    ("function", json_object [
      ("name", JString (td_provider_name descriptor));
      ("description", JString (td_description descriptor));
      ("parameters", json_object [
        ("type", JString "object");
        ("properties", json_object [
          ("session_id", json_object [
            ("type", JString "string");
            ("description", JString "Bounded browser session identifier returned by browser.open.")]);
          ("mode", json_object [
            ("type", JString "string");
            ("enum", JArray [JString "page_text"; JString "title"; JString "links"; JString "selector_text"]);
            ("description", JString "Extraction mode. Defaults to `page_text`.")]);
          ("selector", json_object [
            ("type", JString "string");
            ("description", JString "Optional CSS selector used only with `selector_text` mode.")]);
          ("limit", json_object [
            ("type", JString "integer");
            ("minimum", json_uint 1);
            ("maximum", json_uint MAX_BROWSER_MAX_LINKS);
            ("description", JString "Maximum extracted items when the mode returns a list.")])]);
        ("required", JArray [JString "session_id"]);
        ("additionalProperties", JBool false)])])].

Definition browser_click_definition (descriptor : ToolDescriptor) : Value :=
  json_object [
    ("type", JString "function");
    ("function", json_object [
      ("name", JString (td_provider_name descriptor));
      ("description", JString (td_description descriptor));
      ("parameters", json_object [
        ("type", JString "object");
        ("properties", json_object [
          ("session_id", json_object [
            ("type", JString "string");
            ("description", JString "Bounded browser session identifier returned by browser.open.")]);
          ("link_id", json_object [
            ("type", JString "integer");
            ("minimum", json_uint 1);
            ("maximum", json_uint MAX_BROWSER_MAX_LINKS);
            ("description", JString "One-based link identifier returned in the current page snapshot.")])]);
        ("required", JArray [JString "session_id"; JString "link_id"]);
        ("additionalProperties", JBool false)])])].

Definition browser_companion_session_start_definition (descriptor : ToolDescriptor) : Value :=
  json_object [
    ("type", JString "function");
    ("function", json_object [
      ("name", JString (td_provider_name descriptor));
      ("description", JString (td_description descriptor));
      ("parameters", json_object [
        ("type", JString "object");
        ("properties", json_object [
          ("url", json_object [
            ("type", JString "string");
            ("description", JString "HTTP or HTTPS URL to open in the managed browser companion session.")])]);
        ("required", JArray [JString "url"]);
        ("additionalProperties", JBool false)])])].

Definition browser_companion_navigate_definition (descriptor : ToolDescriptor) : Value :=
  json_object [
    ("type", JString "function");
    ("function", json_object [
      ("name", JString (td_provider_name descriptor));
      ("description", JString (td_description descriptor));
      ("parameters", json_object [
        ("type", JString "object");
        ("properties", json_object [
          ("session_id", json_object [
            ("type", JString "string");
            ("description",
              JString "Browser companion session identifier returned by browser.companion.session.start.")]);
          ("url", json_object [
            ("type", JString "string");
            ("description", JString "HTTP or HTTPS URL to load next.")])]);
        ("required", JArray [JString "session_id"; JString "url"]);
        ("additionalProperties", JBool false)])])].

Definition browser_companion_snapshot_definition (descriptor : ToolDescriptor) : Value :=
  json_object [
    ("type", JString "function");
    ("function", json_object [
      ("name", JString (td_provider_name descriptor));
      ("description", JString (td_description descriptor));
      ("parameters", json_object [
        ("type", JString "object");
        ("properties", json_object [
          ("session_id", json_object [
            ("type", JString "string");
            ("description",
              JString "Browser companion session identifier returned by browser.companion.session.start.")]);
          ("mode", json_object [
            ("type", JString "string");
            ("enum", JArray [JString "summary"; JString "html"; JString "links"]);
            ("description", JString "Optional snapshot mode. Defaults to `summary`.")])]);
        ("required", JArray [JString "session_id"]);
        ("additionalProperties", JBool false)])])].

Definition browser_companion_wait_definition (descriptor : ToolDescriptor) : Value :=
  json_object [
    ("type", JString "function");
    ("function", json_object [
      ("name", JString (td_provider_name descriptor));
      ("description", JString (td_description descriptor));
      ("parameters", json_object [
        ("type", JString "object");
        ("properties", json_object [
          ("session_id", json_object [
            ("type", JString "string");
            ("description",
              JString "Browser companion session identifier returned by browser.companion.session.start.")]);
          ("condition", json_object [
            ("type", JString "string");
            ("description", JString "Optional companion-side wait condition.")]);
          ("timeout_ms", json_object [
            ("type", JString "integer");
            ("minimum", json_uint 1);
            ("maximum", json_uint 30000);
            ("description", JString "Optional maximum wait in milliseconds.")])]);
        ("required", JArray [JString "session_id"]);
        ("additionalProperties", JBool false)])])].

Definition browser_companion_session_stop_definition (descriptor : ToolDescriptor) : Value :=
  json_object [
    ("type", JString "function");
    ("function", json_object [
      ("name", JString (td_provider_name descriptor));
      ("description", JString (td_description descriptor));
      ("parameters", json_object [
        ("type", JString "object");
        ("properties", json_object [
          ("session_id", json_object [
            ("type", JString "string");
            ("description",
              JString "Browser companion session identifier returned by browser.companion.session.start.")])]);
        ("required", JArray [JString "session_id"]);
        ("additionalProperties", JBool false)])])].

Definition browser_companion_click_definition (descriptor : ToolDescriptor) : Value :=
  json_object [
    ("type", JString "function");
    ("function", json_object [
      ("name", JString (td_provider_name descriptor));
      ("description", JString (td_description descriptor));
      ("parameters", json_object [
        ("type", JString "object");
        ("properties", json_object [
          ("session_id", json_object [
            ("type", JString "string");
            ("description",
              JString "Browser companion session identifier returned by browser.companion.session.start.")]);
          ("selector", json_object [
            ("type", JString "string");
            ("description", JString "Selector for the element to click.")])]);
        ("required", JArray [JString "session_id"; JString "selector"]);
        ("additionalProperties", JBool false)])])].

Definition browser_companion_type_definition (descriptor : ToolDescriptor) : Value :=
  json_object [
    ("type", JString "function");
    ("function", json_object [
      ("name", JString (td_provider_name descriptor));
      ("description", JString (td_description descriptor));
      ("parameters", json_object [
        ("type", JString "object");
        ("properties", json_object [
          ("session_id", json_object [
            ("type", JString "string");
            ("description",
              JString "Browser companion session identifier returned by browser.companion.session.start.")]);
          ("selector", json_object [
            ("type", JString "string");
            ("description", JString "Selector for the element to type into.")]);
          ("text", json_object [("type", JString "string"); ("description", JString "Text to enter.")])]);
        ("required", JArray [JString "session_id"; JString "selector"; JString "text"]);
        ("additionalProperties", JBool false)])])].

Definition tool_invoke_definition (descriptor : ToolDescriptor) : Value :=
  json_object [
    ("type", JString "function");
    ("function", json_object [
      ("name", JString (td_provider_name descriptor));
      ("description", JString "Invoke a discovered non-core tool using a valid lease from tool_search.");
      ("parameters", json_object [
        ("type", JString "object");
        ("properties", json_object [
          ("tool_id", json_object [
            ("type", JString "string");
            ("description", JString "Canonical id of the discovered tool.")]);
          ("lease", json_object [
            ("type", JString "string");
            ("description", JString "Short-lived lease returned by tool_search.")]);
          ("arguments", json_object [
            ("type", JString "object");
            ("description", JString "Arguments for the discovered tool payload.")])]);
        ("required", JArray [JString "tool_id"; JString "lease"; JString "arguments"]);
        ("additionalProperties", JBool false)])])].

Definition claw_migrate_definition (descriptor : ToolDescriptor) : Value :=
  json_object [
    ("type", JString "function");
    ("function", json_object [
      ("name", JString (td_provider_name descriptor));
      ("description",
        JString
          "Import, discover, plan, merge, apply, and rollback legacy Claw workspace migration into native LoongClaw config.");
      ("parameters", json_object [
        ("type", JString "object");
        ("properties", json_object [
          ("input_path", json_object [
            ("type", JString "string");
            ("description",
              JString
                "Path to the legacy Claw workspace, config root, or portable migration file. Required for all modes except rollback_last_apply.")]);
          ("mode", json_object [
            ("type", JString "string");
            ("enum", JArray [
              JString "plan";
              JString "apply";
              JString "discover";
              JString "plan_many";
              JString "recommend_primary";
              JString "merge_profiles";
              JString "map_external_skills";
              JString "apply_selected";
              JString "rollback_last_apply"]);
            ("description", JString "Migration mode. Defaults to `plan` when omitted.")]);
          ("source", json_object [
            ("type", JString "string");
            ("enum", JArray [
              JString "auto";
              JString "nanobot";
              JString "openclaw";
              JString "picoclaw";
              JString "zeroclaw";
              JString "nanoclaw"]);
            ("description", JString "Optional source hint for plan/apply modes. Defaults to automatic detection.")]);
          ("source_id", json_object [
            ("type", JString "string");
            ("description", JString "Selected source identifier for apply_selected mode.")]);
          ("selection_id", json_object [
            ("type", JString "string");
            ("description", JString "Alias of source_id for apply_selected mode.")]);
          ("primary_source_id", json_object [
            ("type", JString "string");
            ("description", JString "Primary source identifier for safe profile merge in apply_selected mode.")]);
          ("primary_selection_id", json_object [
            ("type", JString "string");
            ("description", JString "Alias of primary_source_id for safe profile merge in apply_selected mode.")]);
          ("safe_profile_merge", json_object [
            ("type", JString "boolean");
            ("description", JString "Enable safe multi-source profile merge in apply_selected mode.")]);
          ("apply_external_skills_plan", json_object [
            ("type", JString "boolean");
            ("description",
              JString
                "When true, apply a generated external-skills mapping addendum into profile_note during apply_selected.")]);
          ("output_path", json_object [
            ("type", JString "string");
            ("description",
              JString "Target config path. Required in apply/apply_selected/rollback_last_apply modes.")]);
          ("force", json_object [
            ("type", JString "boolean");
            ("description", JString "Overwrite an existing target config when applying. Defaults to false.")])]);
        ("required", JArray []);
        ("additionalProperties", JBool false)])])].

Definition provider_switch_definition (descriptor : ToolDescriptor) : Value :=
  json_object [
    ("type", JString "function");
    ("function", json_object [
      ("name", JString (td_provider_name descriptor));
      ("description",
        JString
          "Inspect current provider state or switch the default provider profile for subsequent turns when the user explicitly wants future replies to use another configured provider, profile, or model.");
      ("parameters", json_object [
        ("type", JString "object");
        ("properties", json_object [
          ("selector", json_object [
            ("type", JString "string");
            ("description",
              JString
                ("Optional provider selector. Accepts a " +:+ PROVIDER_SELECTOR_HUMAN_SUMMARY +:+ " such as `openai-gpt-5`, `gpt-5.1-codex`, or `deepseek`. When omitted, the tool reports current provider state without changing it."))])]);
        ("required", JArray [])])])].

Definition external_skills_policy_definition (descriptor : ToolDescriptor) : Value :=
  json_object [
    ("type", JString "function");
    ("function", json_object [
      ("name", JString (td_provider_name descriptor));
      ("description",
        JString
          "Get, set, or reset runtime policy for external skills downloads (enabled flag, approval gate, domain allowlist/blocklist).");
      ("parameters", json_object [
        ("type", JString "object");
        ("properties", json_object [
          ("action", json_object [
            ("type", JString "string");
            ("enum", JArray [JString "get"; JString "set"; JString "reset"]);
            ("description", JString "Policy action. Defaults to `get`.")]);
          ("policy_update_approved", json_object [
            ("type", JString "boolean");
            ("description",
              JString "Explicit user authorization for policy updates. Required for `set` and `reset`.")]);
          ("enabled", json_object [
            ("type", JString "boolean");
            ("description", JString "Whether external skills runtime/download is enabled.")]);
          ("require_download_approval", json_object [
            ("type", JString "boolean");
            ("description",
              JString "When true, every external skills download requires explicit approval_granted=true.")]);
          ("allowed_domains", json_object [
            ("type", JString "array");
            ("items", json_object [("type", JString "string")]);
            ("description",
              JString
                "Optional domain allowlist (supports exact domains and wildcard forms like *.example.com). Empty list means allow all domains unless blocked.")]);
          ("blocked_domains", json_object [
            ("type", JString "array");
            ("items", json_object [("type", JString "string")]);
            ("description",
              JString
                "Optional domain blocklist (supports exact domains and wildcard forms like *.example.com). Blocklist always takes precedence.")])]);
        ("required", JArray []);
        ("additionalProperties", JBool false)])])].

Definition external_skills_fetch_definition (descriptor : ToolDescriptor) : Value :=
  json_object [
    ("type", JString "function");
    ("function", json_object [
      ("name", JString (td_provider_name descriptor));
      ("description",
        JString "Download an external skill artifact with strict domain policy checks and explicit approval gating.");
      ("parameters", json_object [
        ("type", JString "object");
        ("properties", json_object [
          ("url", json_object [("type", JString "string"); ("description", JString "HTTPS URL to download.")]);
          ("approval_granted", json_object [
            ("type", JString "boolean");
            ("description",
              JString
                "Explicit user authorization for this download. Required when require_download_approval=true.")]);
          ("save_as", json_object [
            ("type", JString "string");
            ("description",
              JString "Optional output filename (stored under configured file root / external-skills-downloads).")]);
          ("max_bytes", json_object [
            ("type", JString "integer");
            ("minimum", json_uint 1);
            ("maximum", json_uint 20971520);
            ("description",
              JString "Maximum download size in bytes. Defaults to 5242880 and is capped at 20971520.")])]);
        ("required", JArray [JString "url"]);
        ("additionalProperties", JBool false)])])].

Definition external_skills_inspect_definition (descriptor : ToolDescriptor) : Value :=
  json_object [
    ("type", JString "function");
    ("function", json_object [
      ("name", JString (td_provider_name descriptor));
      ("description",
        JString
          "Read metadata and a short preview for a resolved external skill across managed, user, and project scopes.");
      ("parameters", json_object [
        ("type", JString "object");
        ("properties", json_object [
          ("skill_id", json_object [
            ("type", JString "string");
            ("description", JString "Resolved external skill identifier.")])]);
        ("required", JArray [JString "skill_id"]);
        ("additionalProperties", JBool false)])])].

Definition external_skills_install_definition (descriptor : ToolDescriptor) : Value :=
  json_object [
    ("type", JString "function");
    ("function", json_object [
      ("name", JString (td_provider_name descriptor));
      ("description",
        JString
          "Install a managed external skill from a local directory, local .tgz/.tar.gz archive, or a first-party bundled skill id.");
      ("parameters", json_object [
        ("type", JString "object");
        ("properties", json_object [
          ("path", json_object [
            ("type", JString "string");
            ("description",
              JString "Path to a local directory containing SKILL.md or a local .tgz/.tar.gz archive.")]);
          ("bundled_skill_id", json_object [
            ("type", JString "string");
            ("description",
              JString "Optional first-party bundled skill identifier, for example `browser-companion-preview`.")]);
          ("skill_id", json_object [
            ("type", JString "string");
            ("description", JString "Optional explicit managed skill id override.")]);
          ("replace", json_object [
            ("type", JString "boolean");
            ("description", JString "Replace an existing installed skill with the same id. Defaults to false.")])]);
        ("anyOf", JArray [
          json_object [("required", JArray [JString "path"])];
          json_object [("required", JArray [JString "bundled_skill_id"])]]);
        ("additionalProperties", JBool false)])])].

Definition external_skills_invoke_definition (descriptor : ToolDescriptor) : Value :=
  json_object [
    ("type", JString "function");
    ("function", json_object [
      ("name", JString (td_provider_name descriptor));
      ("description",
        JString
          "Load a resolved external skill's SKILL.md instructions into the conversation loop across managed, user, and project scopes.");
      ("parameters", json_object [
        ("type", JString "object");
        ("properties", json_object [
          ("skill_id", json_object [
            ("type", JString "string");
            ("description", JString "Resolved external skill identifier.")])]);
        ("required", JArray [JString "skill_id"]);
        ("additionalProperties", JBool false)])])].

Definition external_skills_list_definition (descriptor : ToolDescriptor) : Value :=
  json_object [
    ("type", JString "function");
    ("function", json_object [
      ("name", JString (td_provider_name descriptor));
      ("description",
        JString "List resolved external skills available for invocation across managed, user, and project scopes.");
      ("parameters", json_object [
        ("type", JString "object");
        ("properties", json_object []);
        ("required", JArray []);
        ("additionalProperties", JBool false)])])].

Definition external_skills_remove_definition (descriptor : ToolDescriptor) : Value :=
  json_object [
    ("type", JString "function");
    ("function", json_object [
      ("name", JString (td_provider_name descriptor));
      ("description", JString "Remove an installed external skill from the managed runtime.");
      ("parameters", json_object [
        ("type", JString "object");
        ("properties", json_object [
          ("skill_id", json_object [
            ("type", JString "string");
            ("description", JString "Managed external skill identifier.")])]);
        ("required", JArray [JString "skill_id"]);
        ("additionalProperties", JBool false)])])].

Definition file_read_definition (descriptor : ToolDescriptor) : Value :=
  json_object [
    ("type", JString "function");
    ("function", json_object [
      ("name", JString (td_provider_name descriptor));
      ("description", JString (td_description descriptor));
      ("parameters", json_object [
        ("type", JString "object");
        ("properties", json_object [
          ("path", json_object [
            ("type", JString "string");
            ("description", JString "Path to read (absolute or relative to configured file root).")]);
          ("max_bytes", json_object [
            ("type", JString "integer");
            ("minimum", json_uint 1);
            ("maximum", json_uint 8388608);
            ("description", JString "Optional read limit in bytes. Defaults to 1048576.")])]);
        ("required", JArray [JString "path"]);
        ("additionalProperties", JBool false)])])].

Definition file_write_definition (descriptor : ToolDescriptor) : Value :=
  json_object [
    ("type", JString "function");
    ("function", json_object [
      ("name", JString (td_provider_name descriptor));
      ("description", JString (td_description descriptor));
      ("parameters", json_object [
        ("type", JString "object");
        ("properties", json_object [
          ("path", json_object [
            ("type", JString "string");
            ("description", JString "Path to write (absolute or relative to configured file root).")]);
          ("content", json_object [("type", JString "string"); ("description", JString "File content to write.")]);
          ("create_dirs", json_object [
            ("type", JString "boolean");
            ("description", JString "Create parent directories when missing. Defaults to true.")])]);
        ("required", JArray [JString "path"; JString "content"]);
        ("additionalProperties", JBool false)])])].

Definition file_edit_definition (descriptor : ToolDescriptor) : Value :=
  json_object [
    ("type", JString "function");
    ("function", json_object [
      ("name", JString (td_provider_name descriptor));
      ("description", JString (td_description descriptor));
      ("parameters", json_object [
        ("type", JString "object");
        ("properties", json_object [
          ("path", json_object [
            ("type", JString "string");
            ("description", JString "Path to the file (absolute or relative to configured file root).")]);
          ("old_string", json_object [
            ("type", JString "string");
            ("minLength", json_uint 1);
            ("description",
              JString
                "Literal substring to find. Must be non-empty. Must match exactly once unless replace_all is true.")]);
          ("new_string", json_object [("type", JString "string"); ("description", JString "Replacement text.")]);
          ("replace_all", json_object [
            ("type", JString "boolean");
            ("description",
              JString
                "Replace all occurrences instead of requiring a unique match. Zero-match still fails regardless of this flag. Defaults to false.")])]);
        ("required", JArray [JString "path"; JString "old_string"; JString "new_string"]);
        ("additionalProperties", JBool false)])])].

Definition web_fetch_definition (descriptor : ToolDescriptor) : Value :=
  json_object [
    ("type", JString "function");
    ("function", json_object [
      ("name", JString (td_provider_name descriptor));
      ("description", JString (td_description descriptor));
      ("parameters", json_object [
        ("type", JString "object");
        ("properties", json_object [
          ("url", json_object [
            ("type", JString "string");
            ("description", JString "HTTP or HTTPS URL to fetch.")]);
          ("mode", json_object [
            ("type", JString "string");
            ("enum", JArray [JString "readable_text"; JString "raw_text"]);
            ("description", JString "How to render the response body. Defaults to `readable_text`.")]);
          ("max_bytes", json_object [
            ("type", JString "integer");
            ("minimum", json_uint 1);
            ("maximum", json_uint MAX_WEB_FETCH_MAX_BYTES);
            ("description",
              JString "Optional per-call read limit in bytes. Cannot exceed the configured runtime max.")])]);
        ("required", JArray [JString "url"]);
        ("additionalProperties", JBool false)])])].

Definition web_search_definition (descriptor : ToolDescriptor) : Value :=
  json_object [
    ("type", JString "function");
    ("function", json_object [
      ("name", JString (td_provider_name descriptor));
      ("description", JString (td_description descriptor));
      ("parameters", json_object [
        ("type", JString "object");
        ("properties", json_object [
          ("query", json_object [("type", JString "string"); ("description", JString "Search query string.")]);
          ("provider", json_object [
            ("type", JString "string");
            ("enum", json_strs WEB_SEARCH_PROVIDER_SCHEMA_VALUES);
            ("description", JString web_search_provider_parameter_description)]);
          ("max_results", json_object [
            ("type", JString "integer");
            ("minimum", json_uint 1);
            ("maximum", json_uint 10);
            ("description", JString "Maximum results to return. Defaults to 5.")])]);
        ("required", JArray [JString "query"]);
        ("additionalProperties", JBool false)])])].

Definition shell_exec_definition (descriptor : ToolDescriptor) : Value :=
  json_object [
    ("type", JString "function");
    ("function", json_object [
      ("name", JString (td_provider_name descriptor));
      ("description", JString (td_description descriptor));
      ("parameters", json_object [
        ("type", JString "object");
        ("properties", json_object [
          ("command", json_object [
            ("type", JString "string");
            ("description", JString "Executable command name. Must be allowlisted.")]);
          ("args", json_object [
            ("type", JString "array");
            ("items", json_object [("type", JString "string")]);
            ("description", JString "Optional command arguments.")]);
          ("timeout_ms", json_object [
            ("type", JString "integer");
            ("minimum", json_uint 1000);
            ("maximum", json_uint 600000);
            ("description",
              JString
                "Optional command timeout in milliseconds. Defaults to 120000 and is clamped to 1000..=600000.")]);
          ("cwd", json_object [
            ("type", JString "string");
            ("description", JString "Optional working directory.")])]);
        ("required", JArray [JString "command"]);
        ("additionalProperties", JBool false)])])].

Definition approval_request_resolve_definition (descriptor : ToolDescriptor) : Value :=
  json_object [
    ("type", JString "function");
    ("function", json_object [
      ("name", JString (td_provider_name descriptor));
      ("description", JString (td_description descriptor));
      ("parameters", json_object [
        ("type", JString "object");
        ("properties", json_object [
          ("approval_request_id", json_object [
            ("type", JString "string");
            ("description", JString "Visible approval request identifier to resolve.")]);
          ("decision", json_object [
            ("type", JString "string");
            ("enum", JArray [JString "approve_once"; JString "approve_always"; JString "deny"]);
            ("description", JString "Operator decision for the pending approval request.")])]);
        ("required", JArray [JString "approval_request_id"; JString "decision"]);
        ("additionalProperties", JBool false)])])].

Definition approval_request_status_definition (descriptor : ToolDescriptor) : Value :=
  json_object [
    ("type", JString "function");
    ("function", json_object [
      ("name", JString (td_provider_name descriptor));
      ("description", JString (td_description descriptor));
      ("parameters", json_object [
        ("type", JString "object");
        ("properties", json_object [
          ("approval_request_id", json_object [
            ("type", JString "string");
            ("description", JString "Visible approval request identifier to inspect in detail.")])]);
        ("required", JArray [JString "approval_request_id"]);
        ("additionalProperties", JBool false)])])].

Definition approval_requests_list_definition (descriptor : ToolDescriptor) : Value :=
  json_object [
    ("type", JString "function");
    ("function", json_object [
      ("name", JString (td_provider_name descriptor));
      ("description", JString (td_description descriptor));
      ("parameters", json_object [
        ("type", JString "object");
        ("properties", json_object [
          ("session_id", json_object [
            ("type", JString "string");
            ("description",
              JString "Optional visible session identifier to scope approval requests to one session.")]);
          ("status", json_object [
            ("type", JString "string");
            ("enum", JArray [
              JString "pending";
              JString "approved";
              JString "executing";
              JString "executed";
              JString "denied";
              JString "expired";
              JString "cancelled"]);
            ("description", JString "Optional approval request status filter.")]);
          ("limit", json_object [
            ("type", JString "integer");
            ("minimum", json_uint 1);
            ("maximum", json_uint 100);
            ("description", JString "Maximum visible approval requests to return after filtering.")])]);
        ("additionalProperties", JBool false)])])].

Definition sessions_list_definition (descriptor : ToolDescriptor) : Value :=
  json_object [
    ("type", JString "function");
    ("function", json_object [
      ("name", JString (td_provider_name descriptor));
      ("description", JString (td_description descriptor));
      ("parameters", json_object [
        ("type", JString "object");
        ("properties", json_object [
          ("limit", json_object [
            ("type", JString "integer");
            ("minimum", json_uint 1);
            ("maximum", json_uint 200);
            ("description", JString "Maximum visible sessions to return after filtering.")]);
          ("state", json_object [
            ("type", JString "string");
            ("enum", JArray [
              JString "ready";
              JString "running";
              JString "completed";
              JString "failed";
              JString "timed_out"]);
            ("description", JString "Optional lifecycle state filter.")]);
          ("kind", json_object [
            ("type", JString "string");
            ("enum", JArray [JString "root"; JString "delegate_child"]);
            ("description", JString "Optional session kind filter.")]);
          ("parent_session_id", json_object [
            ("type", JString "string");
            ("description", JString "Optional direct parent session filter.")]);
          ("overdue_only", json_object [
            ("type", JString "boolean");
            ("description",
              JString "When true, only return async delegate children whose lifecycle staleness is overdue.")]);
          ("include_archived", json_object [
            ("type", JString "boolean");
            ("description", JString "When true, include archived visible sessions in the returned list.")]);
          ("include_delegate_lifecycle", json_object [
            ("type", JString "boolean");
            ("description",
              JString "When true, include normalized delegate lifecycle metadata for returned sessions.")])]);
        ("additionalProperties", JBool false)])])].

Definition sessions_history_definition (descriptor : ToolDescriptor) : Value :=
  json_object [
    ("type", JString "function");
    ("function", json_object [
      ("name", JString (td_provider_name descriptor));
      ("description", JString (td_description descriptor));
      ("parameters", json_object [
        ("type", JString "object");
        ("properties", json_object [
          ("session_id", json_object [
            ("type", JString "string");
            ("description", JString "Visible session identifier to inspect.")]);
          ("limit", json_object [
            ("type", JString "integer");
            ("minimum", json_uint 1);
            ("maximum", json_uint 200);
            ("description", JString "Maximum transcript entries to return.")])]);
        ("required", JArray [JString "session_id"]);
        ("additionalProperties", JBool false)])])].

Definition session_events_definition (descriptor : ToolDescriptor) : Value :=
  json_object [
    ("type", JString "function");
    ("function", json_object [
      ("name", JString (td_provider_name descriptor));
      ("description", JString (td_description descriptor));
      ("parameters", json_object [
        ("type", JString "object");
        ("properties", json_object [
          ("session_id", json_object [
            ("type", JString "string");
            ("description", JString "Visible session identifier to inspect.")]);
          ("after_id", json_object [
            ("type", JString "integer");
            ("minimum", json_uint 0);
            ("description", JString "Optional event id cursor; when present only newer events are returned.")]);
          ("limit", json_object [
            ("type", JString "integer");
            ("minimum", json_uint 1);
            ("maximum", json_uint 200);
            ("description", JString "Maximum event rows to return.")])]);
        ("required", JArray [JString "session_id"]);
        ("additionalProperties", JBool false)])])].

Definition session_status_definition (descriptor : ToolDescriptor) : Value :=
  json_object [
    ("type", JString "function");
    ("function", json_object [
      ("name", JString (td_provider_name descriptor));
      ("description", JString (td_description descriptor));
      ("parameters", json_object [
        ("type", JString "object");
        ("properties", json_object [
          ("session_id", json_object [
            ("type", JString "string");
            ("description", JString "Visible session identifier to inspect.")]);
          ("session_ids", json_object [
            ("type", JString "array");
            ("items", json_object [("type", JString "string")]);
            ("minItems", json_uint 1);
            ("description", JString "Visible session identifiers to inspect in one request.")])]);
        ("oneOf", JArray [
          json_object [("required", JArray [JString "session_id"])];
          json_object [("required", JArray [JString "session_ids"])]]);
        ("additionalProperties", JBool false)])])].

Definition session_recover_definition (descriptor : ToolDescriptor) : Value :=
  json_object [
    ("type", JString "function");
    ("function", json_object [
      ("name", JString (td_provider_name descriptor));
      ("description", JString (td_description descriptor));
      ("parameters", json_object [
        ("type", JString "object");
        ("properties", json_object [
          ("session_id", json_object [
            ("type", JString "string");
            ("description", JString "Visible delegate child session identifier to recover.")]);
          ("session_ids", json_object [
            ("type", JString "array");
            ("items", json_object [("type", JString "string")]);
            ("minItems", json_uint 1);
            ("description", JString "Visible delegate child session identifiers to recover in one request.")]);
          ("dry_run", json_object [
            ("type", JString "boolean");
            ("description", JString "When true, preview which targets are recoverable without mutating state.")])]);
        ("oneOf", JArray [
          json_object [("required", JArray [JString "session_id"])];
          json_object [("required", JArray [JString "session_ids"])]]);
        ("additionalProperties", JBool false)])])].

Definition session_archive_definition (descriptor : ToolDescriptor) : Value :=
  json_object [
    ("type", JString "function");
    ("function", json_object [
      ("name", JString (td_provider_name descriptor));
      ("description", JString (td_description descriptor));
      ("parameters", json_object [
        ("type", JString "object");
        ("properties", json_object [
          ("session_id", json_object [
            ("type", JString "string");
            ("description", JString "Visible terminal session identifier to archive.")]);
          ("session_ids", json_object [
            ("type", JString "array");
            ("items", json_object [("type", JString "string")]);
            ("minItems", json_uint 1);
            ("description", JString "Visible terminal session identifiers to archive in one request.")]);
          ("dry_run", json_object [
            ("type", JString "boolean");
            ("description", JString "When true, preview which targets are archivable without mutating state.")])]);
        ("oneOf", JArray [
          json_object [("required", JArray [JString "session_id"])];
          json_object [("required", JArray [JString "session_ids"])]]);
        ("additionalProperties", JBool false)])])].

Definition session_cancel_definition (descriptor : ToolDescriptor) : Value :=
  json_object [
    ("type", JString "function");
    ("function", json_object [
      ("name", JString (td_provider_name descriptor));
      ("description", JString (td_description descriptor));
      ("parameters", json_object [
        ("type", JString "object");
        ("properties", json_object [
          ("session_id", json_object [
            ("type", JString "string");
            ("description", JString "Visible async delegate child session identifier to cancel.")]);
          ("session_ids", json_object [
            ("type", JString "array");
            ("items", json_object [("type", JString "string")]);
            ("minItems", json_uint 1);
            ("description", JString "Visible async delegate child session identifiers to cancel in one request.")]);
          ("dry_run", json_object [
            ("type", JString "boolean");
            ("description", JString "When true, preview which targets are cancellable without mutating state.")])]);
        ("oneOf", JArray [
          json_object [("required", JArray [JString "session_id"])];
          json_object [("required", JArray [JString "session_ids"])]]);
        ("additionalProperties", JBool false)])])].

Definition session_wait_definition (descriptor : ToolDescriptor) : Value :=
  json_object [
    ("type", JString "function");
    ("function", json_object [
      ("name", JString (td_provider_name descriptor));
      ("description", JString (td_description descriptor));
      ("parameters", json_object [
        ("type", JString "object");
        ("properties", json_object [
          ("session_id", json_object [
            ("type", JString "string");
            ("description", JString "Visible session identifier to wait on.")]);
          ("session_ids", json_object [
            ("type", JString "array");
            ("items", json_object [("type", JString "string")]);
            ("minItems", json_uint 1);
            ("description", JString "Visible session identifiers to wait on in one request.")]);
          ("after_id", json_object [
            ("type", JString "integer");
            ("description",
              JString
                "Optional event cursor. When present, the response also returns session events with id greater than this value.")]);
          ("timeout_ms", json_object [
            ("type", JString "integer");
            ("minimum", json_uint 1);
            ("maximum", json_uint 30000);
            ("description", JString "Bounded wait timeout in milliseconds.")])]);
        ("oneOf", JArray [
          json_object [("required", JArray [JString "session_id"])];
          json_object [("required", JArray [JString "session_ids"])]]);
        ("additionalProperties", JBool false)])])].

Definition sessions_send_definition (descriptor : ToolDescriptor) : Value :=
  json_object [
    ("type", JString "function");
    ("function", json_object [
      ("name", JString (td_provider_name descriptor));
      ("description", JString (td_description descriptor));
      ("parameters", json_object [
        ("type", JString "object");
        ("properties", json_object [
          ("session_id", json_object [
            ("type", JString "string");
            ("description",
              JString
                "Known channel-backed root session identifier to receive the outbound text message (for example Telegram, Feishu, or Matrix).")]);
          ("text", json_object [
            ("type", JString "string");
            ("description", JString "Outbound plain-text message content.")])]);
        ("required", JArray [JString "session_id"; JString "text"]);
        ("additionalProperties", JBool false)])])].

Definition delegate_definition (descriptor : ToolDescriptor) : Value :=
  json_object [
    ("type", JString "function");
    ("function", json_object [
      ("name", JString (td_provider_name descriptor));
      ("description", JString (td_description descriptor));
      ("parameters", json_object [
        ("type", JString "object");
        ("properties", json_object [
          ("task", json_object [
            ("type", JString "string");
            ("description", JString "Focused subtask to run in a child session.")]);
          ("label", json_object [
            ("type", JString "string");
            ("description", JString "Optional human-readable label for the child session.")]);
          ("timeout_seconds", json_object [
            ("type", JString "integer");
            ("minimum", json_uint 1);
            ("maximum", json_uint 600);
            ("description", JString "Optional timeout for the delegated task.")])]);
        ("required", JArray [JString "task"]);
        ("additionalProperties", JBool false)])])].

Definition delegate_async_definition (descriptor : ToolDescriptor) : Value :=
  json_object [
    ("type", JString "function");
    ("function", json_object [
      ("name", JString (td_provider_name descriptor));
      ("description", JString (td_description descriptor));
      ("parameters", json_object [
        ("type", JString "object");
        ("properties", json_object [
          ("task", json_object [
            ("type", JString "string");
            ("description", JString "Focused subtask to run in a background child session.")]);
          ("label", json_object [
            ("type", JString "string");
            ("description", JString "Optional human-readable label for the child session.")]);
          ("timeout_seconds", json_object [
            ("type", JString "integer");
            ("minimum", json_uint 1);
            ("maximum", json_uint 600);
            ("description", JString "Optional timeout for the delegated task.")])]);
        ("required", JArray [JString "task"]);
        ("additionalProperties", JBool false)])])].

(** [descriptor.provider_definition_builder] of the descriptor with this name *)
Definition provider_definition_builder (name : string) : ToolDescriptor → Value :=
  match_arms name [
    (["tool.search"], tool_search_definition);
    (["tool.invoke"], tool_invoke_definition);
    (["claw.migrate"], claw_migrate_definition);
    (["external_skills.fetch"], external_skills_fetch_definition);
    (["external_skills.inspect"], external_skills_inspect_definition);
    (["external_skills.install"], external_skills_install_definition);
    (["external_skills.invoke"], external_skills_invoke_definition);
    (["external_skills.list"], external_skills_list_definition);
    (["external_skills.policy"], external_skills_policy_definition);
    (["external_skills.remove"], external_skills_remove_definition);
    (["provider.switch"], provider_switch_definition);
    (["approval_request_resolve"], approval_request_resolve_definition);
    (["approval_request_status"], approval_request_status_definition);
    (["approval_requests_list"], approval_requests_list_definition);
    (["delegate"], delegate_definition);
    (["delegate_async"], delegate_async_definition);
    (["session_archive"], session_archive_definition);
    (["session_cancel"], session_cancel_definition);
    (["session_events"], session_events_definition);
    (["session_recover"], session_recover_definition);
    (["session_status"], session_status_definition);
    (["session_wait"], session_wait_definition);
    (["sessions_history"], sessions_history_definition);
    (["sessions_list"], sessions_list_definition);
    (["sessions_send"], sessions_send_definition);
    (["file.read"], file_read_definition);
    (["file.write"], file_write_definition);
    (["file.edit"], file_edit_definition);
    (["shell.exec"], shell_exec_definition);
    (["browser.click"], browser_click_definition);
    (["browser.companion.click"], browser_companion_click_definition);
    (["browser.companion.navigate"], browser_companion_navigate_definition);
    (["browser.companion.session.start"], browser_companion_session_start_definition);
    (["browser.companion.session.stop"], browser_companion_session_stop_definition);
    (["browser.companion.snapshot"], browser_companion_snapshot_definition);
    (["browser.companion.type"], browser_companion_type_definition);
    (["browser.companion.wait"], browser_companion_wait_definition);
    (["browser.extract"], browser_extract_definition);
    (["browser.open"], browser_open_definition);
    (["web.fetch"], web_fetch_definition);
    (["web.search"], web_search_definition)]
    (λ _, JNull).

(** [ToolDescriptor::provider_definition] *)
Definition provider_definition (descriptor : ToolDescriptor) : Value :=
  provider_definition_builder (td_name descriptor) descriptor.

Definition tool_parameter_types (name : string) : list (string * string) :=
  match_arms name [
    (["tool.search"],
      [("query", "string"); ("limit", "integer")]);
    (["tool.invoke"],
      [("tool_id", "string"); ("lease", "string"); ("arguments", "object")]);
    (["claw.migrate"],
      [("input_path", "string"); ("mode", "string"); ("source", "string")]);
    (["external_skills.fetch"],
      [("url", "string"); ("approval_granted", "boolean"); ("save_as", "string"); ("max_bytes", "integer")]);
    (["external_skills.inspect"; "external_skills.invoke"; "external_skills.remove"],
      [("skill_id", "string")]);
    (["external_skills.install"],
      [("path", "string"); ("bundled_skill_id", "string"); ("skill_id", "string"); ("replace", "boolean")]);
    (["external_skills.list"],
      []);
    (["browser.companion.session.start"],
      [("url", "string")]);
    (["browser.companion.navigate"],
      [("session_id", "string"); ("url", "string")]);
    (["browser.companion.snapshot"],
      [("session_id", "string"); ("mode", "string")]);
    (["browser.companion.wait"],
      [("session_id", "string"); ("condition", "string"); ("timeout_ms", "integer")]);
    (["browser.companion.session.stop"],
      [("session_id", "string")]);
    (["browser.companion.click"],
      [("session_id", "string"); ("selector", "string")]);
    (["browser.companion.type"],
      [("session_id", "string"); ("selector", "string"); ("text", "string")]);
    (["external_skills.policy"],
      [("action", "string"); ("enabled", "boolean"); ("allowed_domains", "array"); ("blocked_domains", "array")]);
    (["file.read"],
      [("path", "string"); ("max_bytes", "integer")]);
    (["file.write"],
      [("path", "string"); ("content", "string"); ("create_dirs", "boolean")]);
    (["file.edit"],
      [("path", "string"); ("old_string", "string"); ("new_string", "string"); ("replace_all", "boolean")]);
    (["shell.exec"],
      [("command", "string"); ("args", "array"); ("timeout_ms", "integer"); ("cwd", "string")]);
    (["provider.switch"],
      [("selector", "string")]);
    (["delegate"; "delegate_async"],
      [("task", "string"); ("label", "string"); ("timeout_seconds", "integer")]);
    (["session_archive"; "session_cancel"; "session_events"; "session_recover"; "session_status"; "session_wait";
      "sessions_history"],
      [("session_id", "string")]);
    (["sessions_list"],
      [("limit", "integer"); ("state", "string")]);
    (["sessions_send"],
      [("session_id", "string"); ("text", "string")]);
    (["web.search"],
      [("query", "string"); ("provider", "string"); ("max_results", "integer")])] [].
