(* ===== verification/FeishuSchemas.v ===== *)
(** * FeishuSchemas: the provider definitions of the Feishu tools
    (app/src/tools/feishu.rs, [feishu_provider_tool_definitions])

    With the [tool-file] feature, which adds the parameters that name local
    files. *)
From S2P Require Import Prelude RustStr Contracts Json.

(** [push_feishu_provider_tool_definition] *)
Definition feishu_provider_tool_definition (name description : string) (parameters : Value) : Value :=
  json_object [("type", JString "function");
    ("function", json_object [("name", JString name); ("description", JString description);
      ("parameters", parameters)])].

(** [parameters[key] = value], for an object *)
Definition set_field (key : string) (value parameters : Value) : Value :=
  match parameters with JObject fields => JObject (obj_insert key value fields) | other => other end.

(** [parameters.get_mut("properties").as_object_mut().insert(key, schema)] *)
Definition set_property (key : string) (schema parameters : Value) : Value :=
  match json_get "properties" parameters with
  | Some (JObject properties) => set_field "properties" (JObject (obj_insert key schema properties)) parameters
  | _ => parameters
  end.

Definition feishu_calendar_freebusy_definition : Value :=
  feishu_provider_tool_definition "feishu_calendar_freebusy"
    "Query Feishu calendar free/busy for the selected account grant or an explicit user/room."
    (json_object [
      ("type", JString "object");
      ("properties", json_object [
        ("account_id", json_object [
          ("type", JString "string");
          ("description", JString "Optional Feishu configured account id to route through.")]);
        ("open_id", json_object [
          ("type", JString "string");
          ("description", JString "Optional explicit Feishu user open_id grant selector.")]);
        ("user_id_type", json_object [
          ("type", JString "string");
          ("description",
            JString
              "Optional Feishu calendar user id type. Defaults to `open_id` when user_id is inferred from the selected grant.")]);
        ("time_min", json_object [
          ("type", JString "string");
          ("description", JString "Inclusive time window start, typically RFC3339.")]);
        ("time_max", json_object [
          ("type", JString "string");
          ("description", JString "Exclusive time window end, typically RFC3339.")]);
        ("user_id", json_object [
          ("type", JString "string");
          ("description",
            JString
              "Optional explicit Feishu user id. Defaults to the selected grant open_id when room_id is omitted.")]);
        ("room_id", json_object [
          ("type", JString "string");
          ("description", JString "Optional meeting room id to query instead of a user calendar.")]);
        ("include_external_calendar", json_object [
          ("type", JString "boolean");
          ("description", JString "Whether to include external calendars.")]);
        ("only_busy", json_object [
          ("type", JString "boolean");
          ("description", JString "Whether to return only busy slots.")]);
        ("need_rsvp_status", json_object [
          ("type", JString "boolean");
          ("description", JString "Whether to include RSVP status in each slot.")])]);
      ("required", JArray [JString "time_min"; JString "time_max"]);
      ("additionalProperties", JBool false)]).

Definition feishu_card_update_definition : Value :=
  feishu_provider_tool_definition "feishu_card_update"
    "Update a Feishu interactive card after a card callback. Pass markdown for a standard markdown card or card for full Feishu card JSON. When called from a Feishu callback turn, LoongClaw can infer account_id, callback_token, and a default exclusive open_ids target from internal callback context. Set shared=true for shared-card updates so callback operator defaults are suppressed. Callback tokens expire after 30 minutes and can be used at most twice."
    (json_object [
      ("type", JString "object");
      ("properties", json_object [
        ("account_id", json_object [
          ("type", JString "string");
          ("description",
            JString
              "Optional Feishu configured account id to route through. Defaults from the current Feishu ingress when available.")]);
        ("callback_token", json_object [
          ("type", JString "string");
          ("description",
            JString
              "Optional callback token for delayed card updates. Usually inferred from the current Feishu card callback turn.")]);
        ("card", json_object [
          ("type", JString "object");
          ("description",
            JString
              "Optional full Feishu card JSON object to apply to the existing card. Mutually exclusive with `markdown`.")]);
        ("markdown", json_object [
          ("type", JString "string");
          ("description",
            JString "Optional markdown text to wrap in a standard markdown card. Mutually exclusive with `card`.")]);
        ("shared", json_object [
          ("type", JString "boolean");
          ("description",
            JString
              "Set true for shared-card updates. Shared-card updates must not send non-empty open_ids, and in callback turns this suppresses the default operator open_id target.")]);
        ("open_ids", json_object [
          ("type", JString "array");
          ("items", json_object [("type", JString "string")]);
          ("description",
            JString
              "Optional explicit open_id targets for non-shared cards. For shared cards, either omit open_ids or set shared=true. When omitted in a callback turn without shared=true, LoongClaw can default to the callback operator open_id.")])]);
      ("required", JArray []);
      ("additionalProperties", JBool false)]).

Definition feishu_calendar_list_definition : Value :=
  feishu_provider_tool_definition "feishu_calendar_list"
    "List Feishu calendars or primary calendars for the selected account grant."
    (json_object [
      ("type", JString "object");
      ("properties", json_object [
        ("account_id", json_object [
          ("type", JString "string");
          ("description", JString "Optional Feishu configured account id to route through.")]);
        ("open_id", json_object [
          ("type", JString "string");
          ("description", JString "Optional explicit Feishu user open_id grant selector.")]);
        ("primary", json_object [
          ("type", JString "boolean");
          ("description", JString "When true, list primary calendars for the selected user.")]);
        ("user_id_type", json_object [
          ("type", JString "string");
          ("description", JString "Optional Feishu user id type for primary calendar lookup.")]);
        ("page_size", json_object [("type", JString "integer"); ("minimum", json_uint 1); ("maximum",
          json_uint 100)]);
        ("page_token", json_object [("type", JString "string")]);
        ("sync_token", json_object [("type", JString "string")])]);
      ("required", JArray []);
      ("additionalProperties", JBool false)]).

Definition feishu_doc_create_definition : Value :=
  feishu_provider_tool_definition "feishu_doc_create"
    "Create a Feishu document with the selected account grant and optionally insert initial markdown or html content into the new doc."
    (set_property "content_path" (json_object [
      ("type", JString "string");
      ("description",
        JString
          "Optional relative or rooted local UTF-8 text file path resolved under the configured tool file root and inserted into the new document. Mutually exclusive with `content`.")])
    (json_object [
      ("type", JString "object");
      ("properties", json_object [
        ("account_id", json_object [
          ("type", JString "string");
          ("description", JString "Optional Feishu configured account id to route through.")]);
        ("open_id", json_object [
          ("type", JString "string");
          ("description", JString "Optional explicit Feishu user open_id grant selector.")]);
        ("title", json_object [
          ("type", JString "string");
          ("description", JString "Optional plain-text Feishu document title.")]);
        ("folder_token", json_object [
          ("type", JString "string");
          ("description", JString "Optional folder token where the new document should be created.")]);
        ("content", json_object [
          ("type", JString "string");
          ("description",
            JString
              "Optional initial content to convert and insert into the new document. Mutually exclusive with `content_path`.")]);
        ("content_type", json_object [
          ("type", JString "string");
          ("enum", JArray [JString "markdown"; JString "html"]);
          ("description",
            JString
              "Optional content format for `content` or `content_path`. Defaults to the file extension for `content_path` (`.md`/`.markdown` => markdown, `.html`/`.htm` => html) and otherwise `markdown`.")])]);
      ("required", JArray []);
      ("additionalProperties", JBool false)])).

Definition feishu_doc_append_definition : Value :=
  feishu_provider_tool_definition "feishu_doc_append"
    "Append markdown or html content to an existing Feishu document identified by docx url or document id using the selected account grant."
    (set_field "anyOf" (JArray [
      json_object [("required", JArray [JString "content"])];
      json_object [("required", JArray [JString "content_path"])]])
    (set_field "required" (JArray [JString "url"])
    (set_property "content_path" (json_object [
      ("type", JString "string");
      ("description",
        JString
          "Relative or rooted local UTF-8 text file path resolved under the configured tool file root and appended to the document. Mutually exclusive with `content`.")])
    (json_object [
      ("type", JString "object");
      ("properties", json_object [
        ("account_id", json_object [
          ("type", JString "string");
          ("description", JString "Optional Feishu configured account id to route through.")]);
        ("open_id", json_object [
          ("type", JString "string");
          ("description", JString "Optional explicit Feishu user open_id grant selector.")]);
        ("url", json_object [
          ("type", JString "string");
          ("description", JString "Feishu docx URL or document id of the existing document to append to.")]);
        ("content", json_object [
          ("type", JString "string");
          ("description",
            JString
              "Markdown or html content to convert and append to the document. Mutually exclusive with `content_path`.")]);
        ("content_type", json_object [
          ("type", JString "string");
          ("enum", JArray [JString "markdown"; JString "html"]);
          ("description",
            JString
              "Optional content format for `content` or `content_path`. Defaults to the file extension for `content_path` (`.md`/`.markdown` => markdown, `.html`/`.htm` => html) and otherwise `markdown`.")])]);
      ("required", JArray [JString "url"; JString "content"]);
      ("additionalProperties", JBool false)])))).

Definition feishu_doc_read_definition : Value :=
  feishu_provider_tool_definition "feishu_doc_read"
    "Read a Feishu document by docx url or document id using the selected account grant."
    (json_object [
      ("type", JString "object");
      ("properties", json_object [
        ("account_id", json_object [
          ("type", JString "string");
          ("description", JString "Optional Feishu configured account id to route through.")]);
        ("open_id", json_object [
          ("type", JString "string");
          ("description", JString "Optional explicit Feishu user open_id grant selector.")]);
        ("url", json_object [
          ("type", JString "string");
          ("description", JString "Feishu docx URL or document id.")]);
        ("lang", json_object [
          ("type", JString "integer");
          ("minimum", json_uint 0);
          ("maximum", json_uint 255);
          ("description", JString "Optional Feishu language selector.")])]);
      ("required", JArray [JString "url"]);
      ("additionalProperties", JBool false)]).

Definition feishu_messages_get_definition : Value :=
  feishu_provider_tool_definition "feishu_messages_get"
    "Fetch one Feishu message detail using a tenant token resolved from the selected account grant. When called from a Feishu conversation, LoongClaw can infer the account and current message from ingress context."
    (json_object [
      ("type", JString "object");
      ("properties", json_object [
        ("account_id", json_object [
          ("type", JString "string");
          ("description", JString "Optional Feishu configured account id to route through.")]);
        ("open_id", json_object [
          ("type", JString "string");
          ("description", JString "Optional explicit Feishu user open_id grant selector.")]);
        ("message_id", json_object [
          ("type", JString "string");
          ("description",
            JString
              "Feishu message id to fetch. Optional when current Feishu ingress already provides the source message id.")])]);
      ("required", JArray []);
      ("additionalProperties", JBool false)]).

Definition feishu_messages_resource_get_definition : Value :=
  feishu_provider_tool_definition "feishu_messages_resource_get"
    "Explicitly download one Feishu message image or file resource using a tenant token resolved from the selected account grant and save it under the configured file root. When called from a Feishu conversation, LoongClaw can infer the source message from ingress context and can infer the resource key or type when the current Feishu ingress carries exactly one Feishu message resource or when either payload.file_key or payload.type uniquely identifies one current ingress resource for the same message, as long as payload.message_id is omitted or matches the current ingress message. If the current Feishu ingress summary exposes resource_inventory, choose one entry and copy its file_key plus payload_type into this tool call when multiple resources are present. Outside the current ingress turn, also pass the source message_id explicitly. This does not perform implicit webhook binary downloads."
    (json_object [
      ("type", JString "object");
      ("properties", json_object [
        ("account_id", json_object [
          ("type", JString "string");
          ("description", JString "Optional Feishu configured account id to route through.")]);
        ("open_id", json_object [
          ("type", JString "string");
          ("description", JString "Optional explicit Feishu user open_id grant selector.")]);
        ("message_id", json_object [
          ("type", JString "string");
          ("description",
            JString
              "Feishu message id that owns the resource. Optional when current Feishu ingress already identifies the source message. Outside the current ingress turn, provide this explicitly. If you override it to a different message, current ingress resource defaults no longer apply.")]);
        ("file_key", json_object [
          ("type", JString "string");
          ("description",
            JString
              "Feishu message resource key paired with the source message id. Optional when the current Feishu ingress carries exactly one Feishu message resource or when payload.type uniquely selects one current ingress resource for the same message, as long as payload.message_id is omitted or matches the current ingress message. If the current Feishu ingress summary includes resource_inventory and multiple resources are present, choose one entry and copy its file_key explicitly.")]);
        ("type", json_object [
          ("type", JString "string");
          ("enum", JArray [JString "image"; JString "file"; JString "audio"; JString "media"]);
          ("description",
            JString
              "Feishu message resource type. Use `image` for image resources, preview images from media messages, and image resource keys; use `file`, `audio`, or `media` for binary file resources. `audio` and `media` aliases normalize to the Feishu file transport type. If the current Feishu ingress summary includes resource_inventory, copy the selected entry's payload_type here. Optional when the current Feishu ingress carries exactly one Feishu message resource or when payload.file_key uniquely selects one current ingress resource for the same message, as long as payload.message_id is omitted or matches the current ingress message.")]);
        ("save_as", json_object [
          ("type", JString "string");
          ("description", JString "Relative file path to write under the configured file root.")])]);
      ("required", JArray [JString "save_as"]);
      ("additionalProperties", JBool false)]).

Definition feishu_messages_history_definition : Value :=
  feishu_provider_tool_definition "feishu_messages_history"
    "List Feishu message history using a tenant token resolved from the selected account grant. When called from a Feishu conversation, LoongClaw can infer the current chat or thread container from ingress context."
    (json_object [
      ("type", JString "object");
      ("properties", json_object [
        ("account_id", json_object [
          ("type", JString "string");
          ("description", JString "Optional Feishu configured account id to route through.")]);
        ("open_id", json_object [
          ("type", JString "string");
          ("description", JString "Optional explicit Feishu user open_id grant selector.")]);
        ("container_id_type", json_object [
          ("type", JString "string");
          ("description",
            JString
              "Feishu message container id type, for example `chat` or `thread`. Optional when current Feishu conversation ingress can infer the active chat or thread.")]);
        ("container_id", json_object [
          ("type", JString "string");
          ("description",
            JString
              "Feishu message container id. Optional when current Feishu conversation ingress can infer the active chat or thread id.")]);
        ("start_time", json_object [("type", JString "string")]);
        ("end_time", json_object [("type", JString "string")]);
        ("sort_type", json_object [("type", JString "string")]);
        ("page_size", json_object [("type", JString "integer"); ("minimum", json_uint 1); ("maximum",
          json_uint 100)]);
        ("page_token", json_object [("type", JString "string")])]);
      ("required", JArray []);
      ("additionalProperties", JBool false)]).

Definition feishu_messages_search_definition : Value :=
  feishu_provider_tool_definition "feishu_messages_search"
    "Search Feishu messages using the selected account grant. When called from the current Feishu conversation, LoongClaw can infer the account and default chat scope from ingress context."
    (json_object [
      ("type", JString "object");
      ("properties", json_object [
        ("account_id", json_object [
          ("type", JString "string");
          ("description", JString "Optional Feishu configured account id to route through.")]);
        ("open_id", json_object [
          ("type", JString "string");
          ("description", JString "Optional explicit Feishu user open_id grant selector.")]);
        ("user_id_type", json_object [
          ("type", JString "string");
          ("description", JString "Optional Feishu search user id type.")]);
        ("page_size", json_object [("type", JString "integer"); ("minimum", json_uint 1); ("maximum",
          json_uint 100)]);
        ("page_token", json_object [("type", JString "string")]);
        ("query", json_object [("type", JString "string"); ("description", JString "Search query string.")]);
        ("from_ids", json_object [("type", JString "array"); ("items", json_object [("type", JString "string")])]);
        ("chat_ids", json_object [
          ("type", JString "array");
          ("items", json_object [("type", JString "string")]);
          ("description",
            JString
              "Optional Feishu chat ids to scope the search. When omitted inside the current Feishu conversation, LoongClaw can default this to the active conversation.")]);
        ("message_type", json_object [("type", JString "string")]);
        ("at_chatter_ids", json_object [("type", JString "array"); ("items", json_object [("type",
          JString "string")])]);
        ("from_type", json_object [("type", JString "string")]);
        ("chat_type", json_object [("type", JString "string")]);
        ("start_time", json_object [("type", JString "string")]);
        ("end_time", json_object [("type", JString "string")])]);
      ("required", JArray [JString "query"]);
      ("additionalProperties", JBool false)]).

Definition feishu_messages_send_definition : Value :=
  feishu_provider_tool_definition "feishu_messages_send"
    "Send a Feishu text, post, image, file, or markdown card message using a tenant token resolved from the selected account grant. When called from the current Feishu conversation, LoongClaw can infer the account and receive_id from ingress context."
    (set_property "file_type" (json_object [
      ("type", JString "string");
      ("description", JString "Optional Feishu upload file_type used only with `file_path`. Defaults to `stream`.")])
    (set_property "file_path" (json_object [
      ("type", JString "string");
      ("description",
        JString
          "Optional relative or rooted local file path resolved under the configured tool file root, uploaded to Feishu before sending. Mutually exclusive with `file_key`, `text`, `post`, `image_key`, `image_path`, and `as_card`.")])
    (set_property "image_path" (json_object [
      ("type", JString "string");
      ("description",
        JString
          "Optional relative or rooted local image path resolved under the configured tool file root, uploaded to Feishu before sending. Mutually exclusive with `image_key`, `text`, `post`, `file_key`, `file_path`, and `as_card`.")])
    (json_object [
      ("type", JString "object");
      ("properties", json_object [
        ("account_id", json_object [
          ("type", JString "string");
          ("description", JString "Optional Feishu configured account id to route through.")]);
        ("open_id", json_object [
          ("type", JString "string");
          ("description", JString "Optional explicit Feishu user open_id grant selector.")]);
        ("receive_id_type", json_object [
          ("type", JString "string");
          ("description",
            JString
              "Optional Feishu receive_id_type override. Defaults to the configured account receive_id_type.")]);
        ("receive_id", json_object [
          ("type", JString "string");
          ("description",
            JString
              "Feishu receive id to send to. Optional when current Feishu conversation ingress already identifies the active chat.")]);
        ("text", json_object [
          ("type", JString "string");
          ("description",
            JString
              "Optional plain-text body to send. Mutually exclusive with `post`, `image_key`, `image_path`, `file_key`, and `file_path`.")]);
        ("post", json_object [
          ("type", JString "object");
          ("description",
            JString
              "Optional Feishu post rich-text content JSON object. Mutually exclusive with `text`, `image_key`, `image_path`, `file_key`, and `file_path`; incompatible with `as_card`.")]);
        ("image_key", json_object [
          ("type", JString "string");
          ("description",
            JString
              "Optional uploaded Feishu image_key for an image message. Mutually exclusive with `text`, `post`, `image_path`, `file_key`, `file_path`, and `as_card`.")]);
        ("file_key", json_object [
          ("type", JString "string");
          ("description",
            JString
              "Optional uploaded Feishu file_key for a file message. Mutually exclusive with `text`, `post`, `image_key`, `image_path`, `file_path`, and `as_card`.")]);
        ("as_card", json_object [
          ("type", JString "boolean");
          ("description",
            JString
              "When true, wrap `text` in a markdown interactive card instead of sending a plain text message. Not allowed with `post`, `image_key`, `image_path`, `file_key`, or `file_path`.")]);
        ("uuid", json_object [
          ("type", JString "string");
          ("description", JString "Optional Feishu request UUID used for one-hour message deduplication.")])]);
      ("required", JArray []);
      ("additionalProperties", JBool false)])))).

Definition feishu_messages_reply_definition : Value :=
  feishu_provider_tool_definition "feishu_messages_reply"
    "Reply to a Feishu message with text, post, image, file, or a markdown card using a tenant token resolved from the selected account grant. When called from a Feishu conversation, LoongClaw can infer the account and source Feishu message from ingress context."
    (set_property "file_type" (json_object [
      ("type", JString "string");
      ("description", JString "Optional Feishu upload file_type used only with `file_path`. Defaults to `stream`.")])
    (set_property "file_path" (json_object [
      ("type", JString "string");
      ("description",
        JString
          "Optional relative or rooted local file path resolved under the configured tool file root, uploaded to Feishu before replying. Mutually exclusive with `file_key`, `text`, `post`, `image_key`, `image_path`, and `as_card`.")])
    (set_property "image_path" (json_object [
      ("type", JString "string");
      ("description",
        JString
          "Optional relative or rooted local image path resolved under the configured tool file root, uploaded to Feishu before replying. Mutually exclusive with `image_key`, `text`, `post`, `file_key`, `file_path`, and `as_card`.")])
    (json_object [
      ("type", JString "object");
      ("properties", json_object [
        ("account_id", json_object [
          ("type", JString "string");
          ("description", JString "Optional Feishu configured account id to route through.")]);
        ("open_id", json_object [
          ("type", JString "string");
          ("description", JString "Optional explicit Feishu user open_id grant selector.")]);
        ("message_id", json_object [
          ("type", JString "string");
          ("description",
            JString
              "Feishu message id to reply to. Optional when current Feishu ingress already identifies the source Feishu message.")]);
        ("text", json_object [
          ("type", JString "string");
          ("description",
            JString
              "Optional plain-text reply body. Mutually exclusive with `post`, `image_key`, `image_path`, `file_key`, and `file_path`.")]);
        ("post", json_object [
          ("type", JString "object");
          ("description",
            JString
              "Optional Feishu post rich-text content JSON object. Mutually exclusive with `text`, `image_key`, `image_path`, `file_key`, and `file_path`; incompatible with `as_card`.")]);
        ("image_key", json_object [
          ("type", JString "string");
          ("description",
            JString
              "Optional uploaded Feishu image_key for an image reply. Mutually exclusive with `text`, `post`, `image_path`, `file_key`, `file_path`, and `as_card`.")]);
        ("file_key", json_object [
          ("type", JString "string");
          ("description",
            JString
              "Optional uploaded Feishu file_key for a file reply. Mutually exclusive with `text`, `post`, `image_key`, `image_path`, `file_path`, and `as_card`.")]);
        ("as_card", json_object [
          ("type", JString "boolean");
          ("description",
            JString
              "When true, wrap `text` in a markdown interactive card. Not allowed with `post`, `image_key`, `image_path`, `file_key`, or `file_path`.")]);
        ("reply_in_thread", json_object [
          ("type", JString "boolean");
          ("description",
            JString
              "When true, force the reply to be posted in thread form. When omitted, LoongClaw defaults to thread form if internal Feishu ingress metadata indicates the source message is already in a thread/topic.")]);
        ("uuid", json_object [
          ("type", JString "string");
          ("description", JString "Optional Feishu request UUID used for one-hour reply deduplication.")])]);
      ("required", JArray []);
      ("additionalProperties", JBool false)])))).

Definition feishu_whoami_definition : Value :=
  feishu_provider_tool_definition "feishu_whoami"
    "Resolve the currently selected Feishu OAuth grant and fetch the live user profile."
    (json_object [
      ("type", JString "object");
      ("properties", json_object [
        ("account_id", json_object [
          ("type", JString "string");
          ("description", JString "Optional Feishu configured account id to route through.")]);
        ("open_id", json_object [
          ("type", JString "string");
          ("description", JString "Optional explicit Feishu user open_id grant selector.")])]);
      ("required", JArray []);
      ("additionalProperties", JBool false)]).

(** [feishu_provider_tool_function_name] *)
Definition feishu_provider_tool_function_name (tool : Value) : string :=
  default "" (json_get "function" tool ≫= json_get_str "name").

Definition function_name_le (l r : Value) : Prop :=
  String.le (feishu_provider_tool_function_name l) (feishu_provider_tool_function_name r).
#[export] Instance function_name_le_dec l r : Decision (function_name_le l r).
Proof. unfold function_name_le. apply _. Defined.

Definition feishu_provider_tool_definitions : list Value :=
  merge_sort function_name_le
    [feishu_calendar_freebusy_definition;
     feishu_card_update_definition;
     feishu_calendar_list_definition;
     feishu_doc_create_definition;
     feishu_doc_append_definition;
     feishu_doc_read_definition;
     feishu_messages_get_definition;
     feishu_messages_resource_get_definition;
     feishu_messages_history_definition;
     feishu_messages_search_definition;
     feishu_messages_send_definition;
     feishu_messages_reply_definition;
     feishu_whoami_definition].
