(* ===== verification/ToolSearch.v ===== *)
(** * ToolSearch: [tool.search] (app/src/tools/mod.rs)

    Which tools a search may reveal, how they are ranked, and the leases that
    come with them. *)
From S2P Require Import Prelude RustStr Contracts Json ToolRuntimeConfig ToolCatalog ToolSchemas.
From S2P Require Import FeishuSchemas ToolNames ToolLease.
From Stdlib Require Import Ascii.

Record SearchableToolEntry := mkSearchableToolEntry {
  se_canonical_name : string;
  se_summary : string;
  se_argument_hint : string;
  se_required_fields : list string;
  se_required_field_groups : list (list string);
  se_tags : list string;
}.

(** ** Reading a parameter schema *)

(** [values.filter_map(Value::as_str).collect::<BTreeSet<_>>()], in its order *)
Definition sorted_strings (values : list Value) : list string :=
  btree_elements (list_to_set (omap json_as_str values)).

Definition schema_required_fields (parameters : Value) : list string :=
  sorted_strings (default [] (json_get "required" parameters ≫= json_as_array)).

Definition search_argument_hint_from_provider_definition (parameters : Value) : string :=
  match json_get "properties" parameters ≫= json_as_object with
  | None => ""
  | Some properties =>
      let required := schema_required_fields parameters in
      let field '(name, schema) :=
        let schema_type := default "value" (json_get_str "type" schema) in
        let suffix := if bool_decide (name ∈ required) then "" else "?" in
        name +:+ suffix +:+ ":" +:+ schema_type in
      join "," (merge_sort String.le (field <$> properties))
  end.

Definition schema_required_field_groups (parameters : Value) : list (list string) :=
  omap (λ schema,
      required ← sorted_strings <$> (json_get "required" schema ≫= json_as_array);
      if bool_decide (required = []) then None else Some required)
    (concat (omap (λ key, json_get key parameters ≫= json_as_array) ["anyOf"; "oneOf"])).

Definition default_required_field_groups (required_fields : list string)
    (required_field_groups : list (list string)) : list (list string) :=
  if bool_decide (required_field_groups = []) && negb (bool_decide (required_fields = []))
  then [required_fields] else required_field_groups.

(** ** The searchable entries *)

Definition searchable_entry_from_catalog (entry : ToolDescriptor) : SearchableToolEntry :=
  let required_fields := tool_required_fields (td_name entry) in
  {| se_canonical_name := td_name entry;
     se_summary := td_description entry;
     se_argument_hint := tool_argument_hint (td_name entry);
     se_required_fields := required_fields;
     se_required_field_groups :=
       default_required_field_groups required_fields (tool_required_field_groups (td_name entry));
     se_tags := tool_tags (td_name entry) |}.

Definition feishu_searchable_entries : list SearchableToolEntry :=
  omap (λ tool,
      function ← json_get "function" tool;
      provider_name ← json_get_str "name" function;
      let parameters := default (JObject []) (json_get "parameters" function) in
      let required_fields := schema_required_fields parameters in
      Some {| se_canonical_name := canonical_tool_name provider_name;
              se_summary := default "" (json_get_str "description" function);
              se_argument_hint := search_argument_hint_from_provider_definition parameters;
              se_required_fields := required_fields;
              se_required_field_groups :=
                default_required_field_groups required_fields (schema_required_field_groups parameters);
              se_tags := ["feishu"] |})
    feishu_provider_tool_definitions.

Definition tool_search_entry_is_runtime_usable (canonical_name : string) (config : ToolRuntimeConfig) : bool :=
  if bool_decide (canonical_name = "shell.exec") then
    negb (bool_decide (rt_shell_allow config = ∅))
    || match rt_shell_default_mode config with ShellDefault_Allow => true | ShellDefault_Deny => false end
  else if bool_decide (canonical_name ∈ ["external_skills.fetch"; "external_skills.install";
      "external_skills.inspect"; "external_skills.invoke"; "external_skills.list"; "external_skills.remove"])
  then ep_enabled (rt_external_skills config)
  else true.

Definition tool_search_entry_is_capability_usable (tool_name : string)
    (granted_capabilities : option (gset Capability)) : bool :=
  match granted_capabilities with
  | None => true
  | Some granted =>
      bool_decide (required_capabilities_for_tool_name_and_payload tool_name (JObject []) ⊆ granted)
  end.

(** [trusted]: the payload comes from the application itself
    ([trusted_internal_tool_payload_enabled]) *)
Definition search_tool_view_from_payload (trusted : bool) (payload : list (string * Value))
    (config : ToolRuntimeConfig) : ToolView :=
  let visible_tool_names : option (list string) :=
    if trusted then
      body ← obj_get LOONGCLAW_INTERNAL_TOOL_CONTEXT_KEY payload;
      body ← json_get LOONGCLAW_INTERNAL_TOOL_SEARCH_KEY body;
      body ← json_get LOONGCLAW_INTERNAL_TOOL_SEARCH_VISIBLE_TOOL_IDS_KEY body;
      tool_names ← json_as_array body;
      Some (canonical_tool_name <$> omap json_as_str (tool_names : list Value))
    else None in
  match visible_tool_names with
  | Some names => from_tool_names names
  | None => full_runtime_tool_view_for_runtime_config config
  end.

Definition runtime_discoverable_tool_entries (config : ToolRuntimeConfig)
    (visible_tool_view : option ToolView) : list SearchableToolEntry :=
  let runtime_view := full_runtime_tool_view_for_runtime_config config in
  let view :=
    match visible_tool_view with
    | Some injected => view_intersect injected runtime_view
    | None => runtime_view
    end in
  (searchable_entry_from_catalog <$>
     filter (λ e, tool_search_entry_is_runtime_usable (td_name e) config = true)
       (filter (λ e, view_contains view (td_name e) = true) discoverable_tool_catalog))
  ++ (if rt_feishu config then
        filter (λ e, view_contains view (se_canonical_name e) = true) feishu_searchable_entries
      else []).

(** ** Scoring *)

Definition is_token_char (a : ascii) : bool :=
  is_ascii_alphanumeric a || Ascii.eqb a "_"%char || Ascii.eqb a "-"%char.

(** [query.split(|ch| !token_char(ch))]: the delimiters may be of several bytes,
    whose pieces between them are empty and dropped below *)
Fixpoint split_tokens (cur : string) (s : string) : list string :=
  match s with
  | "" => [String.rev cur]
  | String a s => if is_token_char a then split_tokens (String a cur) s else String.rev cur :: split_tokens "" s
  end.

Definition tokenize_search_query (query : string) : list string :=
  filter (λ t, is_empty t = false) (trim <$> split_tokens "" query).

(** One [if field.contains(needle) { score += points; why.push(reason) }] *)
Definition score_if (field needle : string) (points : Z) (reason : string) (acc : Z * list string) :
    Z * list string :=
  if contains needle field then ((acc.1 + points)%Z, acc.2 ++ [reason]) else acc.

(** Scores are [u32]; a query has fewer than 2^26 tokens (each adds at most 46). *)
Definition search_score (entry : SearchableToolEntry) (query : string) (tokens : list string) :
    Z * list string :=
  let name := to_ascii_lowercase (se_canonical_name entry) in
  let summary := to_ascii_lowercase (se_summary entry) in
  let argument_hint := to_ascii_lowercase (se_argument_hint entry) in
  let tags := to_ascii_lowercase (join " " (se_tags entry)) in
  let whole :=
    score_if argument_hint query 20 "argument_match"
      (score_if summary query 30 "summary_match"
         (score_if name query 50 "name_match" (0%Z, []))) in
  foldl (λ acc token,
      score_if tags token 12 ("tag:" +:+ token)
        (score_if argument_hint token 8 ("argument:" +:+ token)
           (score_if summary token 10 ("summary:" +:+ token)
              (score_if name token 16 ("name:" +:+ token) acc))))
    whole tokens.

Record RankedEntry := mkRankedEntry {
  rk_score : Z;
  rk_why : list string;
  rk_entry : SearchableToolEntry;
}.

(** [right_score.cmp(left_score).then_with(|| left.name.cmp(right.name))] *)
Definition ranked_le (l r : RankedEntry) : Prop :=
  (rk_score r < rk_score l)%Z ∨
  rk_score l = rk_score r ∧ String.le (se_canonical_name (rk_entry l)) (se_canonical_name (rk_entry r)).
#[export] Instance ranked_le_dec l r : Decision (ranked_le l r).
Proof. unfold ranked_le. apply _. Defined.

Definition rank_entry (query : string) (tokens : list string) (entry : SearchableToolEntry) : option RankedEntry :=
  let '(score, why) := search_score entry query tokens in
  if bool_decide (score = 0%Z) then None else Some (mkRankedEntry score why entry).

(** ** [execute_tool_search_tool_with_config] *)

Section search.
  Context (codec : LeaseCodec) (secret : string) (trusted : bool).

Definition search_query (payload : list (string * Value)) : result string string :=
  match trim <$> (obj_get "query" payload ≫= json_as_str) with
  | Some q => if is_empty q then Err "tool.search requires payload.query" else Ok q
  | None => Err "tool.search requires payload.query"
  end.

(** [value.clamp(1, 8)], 5 by default *)
Definition search_limit (payload : list (string * Value)) : Z :=
  match obj_get "limit" payload ≫= json_as_u64 with
  | Some value => Z.max 1 (Z.min value 8)
  | None => 5
  end.

Definition ranked_results (config : ToolRuntimeConfig) (payload : list (string * Value)) (query : string) :
    list RankedEntry :=
  let granted_capabilities :=
    obj_get TOOL_SEARCH_GRANTED_CAPABILITIES_FIELD payload ≫= capabilities_from_value in
  let visible_tool_view := search_tool_view_from_payload trusted payload config in
  let query_normalized := to_ascii_lowercase query in
  let tokens := tokenize_search_query query_normalized in
  take (Z.to_nat (search_limit payload))
    (merge_sort ranked_le
       (omap (rank_entry query_normalized tokens)
          (filter (λ e, tool_search_entry_is_capability_usable (se_canonical_name e) granted_capabilities = true)
             (runtime_discoverable_tool_entries config (Some visible_tool_view))))).

Definition result_value (now_unix_seconds : Z) (payload : list (string * Value)) (r : RankedEntry) : Value :=
  let entry := rk_entry r in
  json_object [
    ("tool_id", JString (se_canonical_name entry));
    ("summary", JString (se_summary entry));
    ("argument_hint", JString (se_argument_hint entry));
    ("required_fields", json_strs (se_required_fields entry));
    ("required_field_groups", JArray (json_strs <$> se_required_field_groups entry));
    ("tags", json_strs (se_tags entry));
    ("why", json_strs (rk_why r));
    ("lease", JString (issue_tool_lease codec secret now_unix_seconds (se_canonical_name entry) payload))].

Definition execute_tool_search_tool_with_config (now_unix_seconds : Z) (request : ToolCoreRequest)
    (config : ToolRuntimeConfig) : result string ToolCoreOutcome :=
  payload ← ok_or (json_as_object (tcr_payload request)) "tool.search payload must be an object";
  query ← search_query payload;
  let results := result_value now_unix_seconds payload <$> ranked_results config payload query in
  Ok (mkToolCoreOutcome "ok"
        (json_object [
           ("adapter", JString "core-tools");
           ("tool_name", JString (tcr_tool_name request));
           ("query", JString query);
           ("returned", json_uint (Z.of_nat (length results)));
           ("results", JArray results)])).
End search.

(** ** Lemmas *)

#[local] Arguments obj_get : simpl never.
#[local] Arguments canonical_tool_name : simpl never.

#[export] Instance ranked_le_total : Total ranked_le.
Proof.
  intros l r. unfold ranked_le.
  destruct (Z.lt_trichotomy (rk_score l) (rk_score r)) as [?|[?|?]]; [by right; left| |by left; left].
  destruct (String.le_total (se_canonical_name (rk_entry l)) (se_canonical_name (rk_entry r))) as [H1|H2];
    [by left; right|by right; right].
Qed.

#[export] Instance ranked_le_trans : Transitive ranked_le.
Proof.
  intros x y z. unfold ranked_le. intros [?|[E1 ?]] [?|[E2 ?]]; [left; lia|left; lia|left; lia|].
  right. split; [congruence|by etrans].
Qed.

Lemma elem_of_ranked trusted config payload query r :
  r ∈ ranked_results trusted config payload query →
  let q := to_ascii_lowercase query in
  ∃ e, rank_entry q (tokenize_search_query q) e = Some r ∧
    e ∈ runtime_discoverable_tool_entries config (Some (search_tool_view_from_payload trusted payload config)) ∧
    tool_search_entry_is_capability_usable (se_canonical_name e)
      (obj_get TOOL_SEARCH_GRANTED_CAPABILITIES_FIELD payload ≫= capabilities_from_value) = true.
Proof.
  unfold ranked_results. intros H. apply elem_of_take in H as (i & H & _).
  apply list_elem_of_lookup_2 in H. rewrite merge_sort_Permutation in H.
  apply list_elem_of_omap in H as (e & He & Hr). apply list_elem_of_filter in He as [Hc He].
  by exists e.
Qed.

Lemma rank_entry_Some q tokens e r : rank_entry q tokens e = Some r →
  rk_entry r = e ∧ rk_score r = (search_score e q tokens).1 ∧ rk_score r ≠ 0%Z.
Proof.
  unfold rank_entry. destruct (search_score e q tokens) as [s w]. case_bool_decide; [done|]. by intros [= <-].
Qed.

(** The Feishu entries are all known Feishu tools, none of which is exposed to
    the provider directly. *)
Lemma feishu_entries_hidden :
  Forall (λ e, is_provider_exposed_tool_name (se_canonical_name e) = false) feishu_searchable_entries.
Proof. apply (bool_decide_unpack _). vm_compute. done. Qed.

Lemma discoverable_hidden d : d ∈ tool_catalog → is_discoverable d = true →
  is_provider_exposed_tool_name (td_name d) = false.
Proof.
  intros Hd Hdisc. unfold is_provider_exposed_tool_name, find_tool_catalog_entry, canonical_tool_name.
  rewrite (catalog_resolve_name d Hd), (catalog_resolve_name d Hd).
  unfold is_discoverable in Hdisc. apply bool_decide_eq_true in Hdisc. unfold is_provider_core. by rewrite Hdisc.
Qed.

(** Whether the runtime has a use for a tool: a shell that may run something, and
    external skills that are switched on *)
Definition external_skill_tools : list string :=
  ["external_skills.fetch"; "external_skills.install"; "external_skills.inspect"; "external_skills.invoke";
   "external_skills.list"; "external_skills.remove"].
Definition usable (config : ToolRuntimeConfig) (name : string) : Prop :=
  (name = "shell.exec" → rt_shell_allow config ≠ ∅ ∨ rt_shell_default_mode config = ShellDefault_Allow) ∧
  (name ∈ external_skill_tools → ep_enabled (rt_external_skills config) = true).

Lemma runtime_usable_iff name config : tool_search_entry_is_runtime_usable name config = true ↔ usable config name.
Proof.
  unfold tool_search_entry_is_runtime_usable, usable. fold external_skill_tools.
  case_bool_decide as Hs; [subst name|case_bool_decide as Hx].
  - assert ("shell.exec" ∉ external_skill_tools) as Hno by (apply (bool_decide_unpack _); by vm_compute).
    rewrite orb_true_iff, negb_true_iff, bool_decide_eq_false.
    destruct (rt_shell_default_mode config); naive_solver.
  - naive_solver.
  - naive_solver.
Qed.

Lemma feishu_entries_usable config e : e ∈ feishu_searchable_entries → usable config (se_canonical_name e).
Proof.
  assert (Forall (λ e, se_canonical_name e ∉ "shell.exec" :: external_skill_tools) feishu_searchable_entries) as Hall
    by (apply (bool_decide_unpack _); by vm_compute).
  intros He. apply (proj1 (Forall_forall _ _) Hall), not_elem_of_cons in He as [??]. by split.
Qed.

(** The tools that may be revealed: the discoverable ones of the catalogue and,
    where Feishu is configured, those of Feishu, that the configuration enables,
    the view shows, the runtime has a use for and the capabilities cover *)
Record revealable (config : ToolRuntimeConfig) (view : ToolView) (caps : gset Capability)
    (e : SearchableToolEntry) : Prop := {
  rv_entry : (∃ d, d ∈ tool_catalog ∧ is_discoverable d = true ∧ e = searchable_entry_from_catalog d) ∨
             (rt_feishu config = true ∧ e ∈ feishu_searchable_entries);
  rv_view : se_canonical_name e ∈ view;
  rv_runtime : se_canonical_name e ∈ full_runtime_tool_view_for_runtime_config config;
  rv_usable : usable config (se_canonical_name e);
  rv_capabilities : required_capabilities_for_tool_name_and_payload (se_canonical_name e) (JObject []) ⊆ caps;
}.

Lemma elem_of_discoverable_entries config view e :
  e ∈ runtime_discoverable_tool_entries config (Some view) ↔
  ((∃ d, d ∈ tool_catalog ∧ is_discoverable d = true ∧ e = searchable_entry_from_catalog d) ∨
   (rt_feishu config = true ∧ e ∈ feishu_searchable_entries)) ∧
  se_canonical_name e ∈ view ∧ se_canonical_name e ∈ full_runtime_tool_view_for_runtime_config config ∧
  usable config (se_canonical_name e).
Proof.
  assert (∀ name, view_contains (view_intersect view (full_runtime_tool_view_for_runtime_config config)) name = true ↔
    name ∈ view ∧ name ∈ full_runtime_tool_view_for_runtime_config config) as Hview.
  { intros name. unfold view_contains, view_intersect. by rewrite bool_decide_eq_true, elem_of_intersection. }
  unfold runtime_discoverable_tool_entries, discoverable_tool_catalog. rewrite elem_of_app, list_elem_of_fmap. split.
  - intros [(d & -> & H)|H].
    + apply list_elem_of_filter in H as [Hu%runtime_usable_iff H].
      apply list_elem_of_filter in H as [[Hv Hr]%Hview [Hdisc Hd]%list_elem_of_filter].
      split_and!; [left; by exists d|done..].
    + destruct (rt_feishu config) eqn:Ef; [|by apply not_elem_of_nil in H].
      apply list_elem_of_filter in H as [[Hv Hr]%Hview Hf]. split_and!; [by right|done|done|by apply feishu_entries_usable].
  - intros ([(d & Hd & Hdisc & ->)|[-> Hf]] & Hv & Hr & Hu).
    + left. exists d. split; [done|]. apply list_elem_of_filter. split; [by apply runtime_usable_iff|].
      apply list_elem_of_filter. split; [by apply Hview|]. by apply list_elem_of_filter.
    + right. apply list_elem_of_filter. split; [by apply Hview|done].
Qed.

Lemma revealable_hidden config view caps e : revealable config view caps e →
  is_provider_exposed_tool_name (se_canonical_name e) = false.
Proof.
  intros [[(d & Hd & Hdisc & ->)|[_ Hf]] _ _ _ _]; [by apply discoverable_hidden|].
  by apply (proj1 (Forall_forall _ _) feishu_entries_hidden).
Qed.

(** What [prepare_kernel_tool_request] writes is what the search reads. *)
Lemma prepared_search_grants fields caps token session turn payload :
  tcr_payload (prepare_kernel_tool_request (mkToolCoreRequest "tool.search" (JObject fields)) caps token
                 session turn) = JObject payload →
  obj_get TOOL_SEARCH_GRANTED_CAPABILITIES_FIELD payload ≫= capabilities_from_value = Some caps.
Proof.
  intros H. injection H as <-. rewrite inject_get_ne by (by apply (bool_decide_unpack _)).
  rewrite obj_get_insert_eq. apply capabilities_round_trip.
Qed.

(** C24. A search the kernel prepared for a capability token reveals only tools
    that may be revealed: discoverable tools of the catalogue, or of Feishu where
    it is configured, that the runtime configuration enables and has a use for (a
    shell only if it may run something, external skills only if they are switched
    on), that the application did not hide, that the provider cannot call
    directly, and that need no capability the token lacks, whatever the model
    wrote into the payload. It reveals at most eight, each matched the query, and
    no tool that may be revealed, matched and ranks higher was left out. *)
Theorem search_reveals_only_usable_tools trusted config fields caps token session turn payload query r :
  tcr_payload (prepare_kernel_tool_request (mkToolCoreRequest "tool.search" (JObject fields)) caps token
                 session turn) = JObject payload →
  let results := ranked_results trusted config payload query in
  let q := to_ascii_lowercase query in
  let may_see := revealable config (search_tool_view_from_payload trusted payload config) caps in
  r ∈ results →
  length results ≤ 8 ∧ may_see (rk_entry r) ∧
  is_provider_exposed_tool_name (se_canonical_name (rk_entry r)) = false ∧
  rk_score r = (search_score (rk_entry r) q (tokenize_search_query q)).1 ∧ rk_score r ≠ 0%Z ∧
  ∀ e r', may_see e → rank_entry q (tokenize_search_query q) e = Some r' → r' ∉ results → ranked_le r r'.
Proof.
  intros Hprep results q may_see Hr. apply prepared_search_grants in Hprep.
  pose proof Hr as Hel. apply elem_of_ranked in Hel as (e & He & Hin & Hcap).
  apply rank_entry_Some in He as (He & Hscore & Hpos).
  rewrite Hprep in Hcap. apply bool_decide_eq_true in Hcap.
  assert (may_see e) as Hmay by (by apply elem_of_discoverable_entries in Hin as (?&?&?&?); split).
  rewrite He. split_and!; [|done|by eapply revealable_hidden|exact Hscore|done|].
  - unfold results, ranked_results. rewrite length_take. unfold search_limit.
    destruct (obj_get "limit" payload ≫= json_as_u64); lia.
  - intros e' r' [Hentry Hv Hrt Hu Hcap'] Hrank Hn. unfold results, ranked_results in Hr, Hn.
    eapply take_sorted_below; [|exact Hr| |exact Hn]; [apply StronglySorted_merge_sort; apply _|].
    rewrite merge_sort_Permutation. apply list_elem_of_omap. exists e'. split; [|done].
    apply list_elem_of_filter. split; [rewrite Hprep; by apply bool_decide_eq_true|].
    by apply elem_of_discoverable_entries.
Qed.

(** ** The catalogue's tables and the schemas *)

Definition schema_parameters (d : ToolDescriptor) : Value :=
  default JNull (json_get "function" (provider_definition d) ≫= json_get "parameters").

Definition schema_property_type (parameters : Value) (name : string) : option string :=
  properties ← json_get "properties" parameters; schema ← json_get name properties; json_get_str "type" schema.

(** The tools whose table of required fields is not their schema's. *)
Definition tables_disagree : list string :=
  ["approval_request_resolve"; "approval_request_status"; "browser.click"; "browser.extract"; "browser.open";
   "session_archive"; "session_cancel"; "session_recover"; "session_status"; "session_wait"; "web.fetch"].

Definition tables_agree (d : ToolDescriptor) : bool :=
  let parameters := schema_parameters d in
  let required := btree_elements (list_to_set (tool_required_fields (td_name d))) in
  bool_decide (json_get "function" (provider_definition d) ≫= json_get_str "name" = Some (td_provider_name d))
  && bool_decide (Forall (λ p, schema_property_type parameters p.1 = Some p.2)
                    (tool_parameter_types (td_name d)))
  && bool_decide (Forall (λ f, is_Some (schema_property_type parameters f)) required)
  && bool_decide ((required = schema_required_fields parameters) ↔ td_name d ∉ tables_disagree).

(** The catalogue's tables are typed by the schemas the provider sees: each
    definition carries the tool's provider name, every published parameter type
    is the type of that property, every published required field is a property,
    and the required fields are exactly the schema's, except for the eleven
    tools of [tables_disagree] (the table of [web.fetch], of the browser tools
    and of two approval tools is empty although the schema demands fields). *)
Theorem catalogue_tables_typed_by_schemas : Forall (λ d, tables_agree d = true) tool_catalog.
Proof. apply (bool_decide_unpack _). vm_compute. done. Qed.

(** What the model is told about [web.fetch], whose schema requires [url]. *)
Example web_fetch_reported_without_fields :
  (λ d, (tool_required_fields (td_name d), tool_argument_hint (td_name d),
         schema_required_fields (schema_parameters d))) <$> catalog_resolve "web.fetch"
  = Some ([], "", ["url"]).
Proof. by vm_compute. Qed.

Module ToolSearchDemo.
Definition fields : list (string * Value) :=
  [("_granted_capabilities", JArray [JString "InvokeTool"; JString "FilesystemWrite"]);
   ("limit", JNumber (PosInt 3)); ("query", JString "Edit file")].
Definition caps : gset Capability := {[InvokeTool; FilesystemRead]}.
Definition prepared : list (string * Value) :=
  match tcr_payload (prepare_kernel_tool_request (mkToolCoreRequest "tool.search" (JObject fields)) caps
                       (Some "t1") None None) with
  | JObject p => p
  | _ => []
  end.
Definition first_hit : RankedEntry :=
  default (mkRankedEntry 0 [] (mkSearchableToolEntry "" "" "" [] [] []))
    (head (ranked_results false ToolRuntimeConfig_default prepared "Edit file")).

(** The model asked for write capabilities it was not granted: [file.edit],
    the best match, stays hidden. *)
Lemma search_witness :
  se_canonical_name (rk_entry first_hit) = "file.read" ∧
  required_capabilities_for_tool_name_and_payload "file.read" (JObject []) ⊆ caps.
Proof.
  split; [by vm_compute|].
  pose proof (search_reveals_only_usable_tools false ToolRuntimeConfig_default fields caps (Some "t1") None None
    prepared "Edit file" first_hit) as H.
  destruct (H ltac:(by vm_compute) ltac:(apply list_elem_of_In; vm_compute; by left)) as (_ & [_ _ _ _ Hc] & _).
  assert (se_canonical_name (rk_entry first_hit) = "file.read") as Hn by (by vm_compute). by rewrite Hn in Hc.
Defined.
End ToolSearchDemo.
