(* ===== verification/ToolDispatch.v ===== *)
(** * ToolDispatch: from a tool request to its executor
    (app/src/tools/mod.rs, app/src/tools/kernel_adapter.rs)

    [execute_kernel_tool_request] derives the capabilities a request needs and
    sends it through the kernel to [MvpToolAdapter], which runs the executor of
    the tool. The executors are the arguments [CoreToolHandlers]; the task-local
    flag that marks payloads of the application itself is a cell of the
    environment. *)
From S2P Require Import Prelude RustStr Contracts Errors Policy AuditSinks Plane Kernel KernelProps.
From S2P Require Import Json ToolRuntimeConfig ToolCatalog ToolNames ToolLease ToolSearch.

Section dispatch.
  Context {W : Type} (codec : LeaseCodec) (secret : string).
  Context (unix_now : W → Z) (trusted_cell : Cell W bool).
  (** [serde_json::from_value::<ToolRuntimeNarrowing>] *)
  Context (narrowing_from_value : Value → result string ToolRuntimeNarrowing).

Definition Handler : Type := ToolCoreRequest → ToolRuntimeConfig → ST W string ToolCoreOutcome.

(** One executor per module the dispatcher calls. *)
Record CoreToolHandlers := mkCoreToolHandlers {
  h_claw_migrate : Handler;
  h_external_skills : string → Handler;
  h_browser_companion_core : Handler;
  h_browser : Handler;
  h_feishu : Handler;
  h_shell : Handler;
  h_file_read : Handler;
  h_file_write : Handler;
  h_file_edit : Handler;
  h_provider_switch : Handler;
  h_web_fetch : Handler;
  h_web_search : Handler;
}.

Context (handlers : CoreToolHandlers).

Definition payload_uses_reserved_internal_tool_context (payload : Value) : bool :=
  bool_decide (is_Some (json_get LOONGCLAW_INTERNAL_TOOL_CONTEXT_KEY payload)).

Definition trusted_runtime_narrowing_from_payload (trusted : bool) (payload : Value) :
    result string (option ToolRuntimeNarrowing) :=
  if negb trusted then Ok None
  else
    match json_get LOONGCLAW_INTERNAL_TOOL_CONTEXT_KEY payload
            ≫= json_get LOONGCLAW_INTERNAL_RUNTIME_NARROWING_KEY with
    | None => Ok None
    | Some value =>
        match narrowing_from_value value with
        | Ok narrowing => Ok (Some narrowing)
        | Err error => Err ("invalid_internal_runtime_narrowing: " +:+ error)
        end
    end.

Definition execute_discoverable_tool_core_with_config (request : ToolCoreRequest)
    (config : ToolRuntimeConfig) : ST W string ToolCoreOutcome :=
  let name := tcr_tool_name request in
  if bool_decide (name = "claw.migrate") then h_claw_migrate handlers request config
  else if bool_decide (name ∈ ["external_skills.inspect"; "external_skills.install"; "external_skills.invoke";
      "external_skills.list"; "external_skills.policy"; "external_skills.fetch"; "external_skills.remove"])
  then h_external_skills handlers name request config
  else if bool_decide (name ∈ ["browser.companion.session.start"; "browser.companion.navigate";
      "browser.companion.snapshot"; "browser.companion.wait"; "browser.companion.session.stop"])
  then h_browser_companion_core handlers request config
  else if bool_decide (name ∈ ["browser.open"; "browser.extract"; "browser.click"])
  then h_browser handlers request config
  else if is_known_feishu_tool_name name then h_feishu handlers request config
  else if bool_decide (name = "shell.exec") then h_shell handlers request config
  else if bool_decide (name = "file.read") then h_file_read handlers request config
  else if bool_decide (name = "file.write") then h_file_write handlers request config
  else if bool_decide (name = "file.edit") then h_file_edit handlers request config
  else if bool_decide (name = "provider.switch") then h_provider_switch handlers request config
  else if bool_decide (name = "web.fetch") then h_web_fetch handlers request config
  else if bool_decide (name = "web.search") then h_web_search handlers request config
  else lift (Err ("tool_not_found: unknown tool `" +:+ name +:+ "`")).

Definition execute_tool_invoke_tool_with_config (request : ToolCoreRequest) (config : ToolRuntimeConfig) :
    ST W string ToolCoreOutcome := λ w,
  match resolve_tool_invoke_request codec secret (unix_now w) request with
  | Err e => (Err e, w)
  | Ok (entry, effective_request) =>
      match rte_execution_kind entry with
      | Exec_Core => execute_discoverable_tool_core_with_config effective_request config w
      | Exec_App => (Err ("tool_requires_app_dispatcher: " +:+ rte_canonical_name entry), w)
      end
  end.

Definition execute_tool_core_with_config (request : ToolCoreRequest) (config : ToolRuntimeConfig) :
    ST W string ToolCoreOutcome := λ w,
  let trusted := cell_get trusted_cell w in
  if negb trusted && payload_uses_reserved_internal_tool_context (tcr_payload request) then
    (Err ("tool `" +:+ tcr_tool_name request +:+ "` payload." +:+ LOONGCLAW_INTERNAL_TOOL_CONTEXT_KEY
          +:+ " is reserved for trusted internal tool context; retry without that field"), w)
  else
    let canonical_name := canonical_tool_name (tcr_tool_name request) in
    let request := mkToolCoreRequest canonical_name (tcr_payload request) in
    match trusted_runtime_narrowing_from_payload trusted (tcr_payload request) with
    | Err e => (Err e, w)
    | Ok narrowing =>
        let config := match narrowing with Some n => narrowed config n | None => config end in
        if bool_decide (canonical_name = "tool.search") then
          (execute_tool_search_tool_with_config codec secret trusted (unix_now w) request config, w)
        else if bool_decide (canonical_name = "tool.invoke") then
          execute_tool_invoke_tool_with_config request config w
        else execute_discoverable_tool_core_with_config request config w
    end.

(** ** The kernel adapter *)

(** [MvpToolAdapter::with_config] *)
Definition MvpToolAdapter (config : ToolRuntimeConfig) : CoreToolAdapter W :=
  mkCoreAdapter "mvp-tools"
    (λ request, st_map_err Tool_Execution (execute_tool_core_with_config request config)).

(** ** Through the kernel *)

Context {P : Type} `{PE : !PolicyEngine P}.

(** [with_trusted_internal_tool_payload_async] *)
Definition with_trusted_internal_tool_payload {E A} (m : ST (LoongClawKernel W P * W) E A) :
    ST (LoongClawKernel W P * W) E A := λ '(k, w),
  if cell_get trusted_cell w then m (k, w)
  else
    let '(r, (k', w')) := m (k, cell_set trusted_cell true w) in
    (r, (k', cell_set trusted_cell false w')).

Definition execute_kernel_tool_request (pack_id : string) (token : CapabilityToken)
    (request : ToolCoreRequest) (trusted_internal_payload : bool) : KM W P ToolCoreOutcome :=
  let caps := required_capabilities_for_request request in
  if trusted_internal_payload then
    with_trusted_internal_tool_payload (execute_tool_core pack_id token caps None request)
  else execute_tool_core pack_id token caps None request.

(** [execute_tool] *)
Definition execute_tool (pack_id : string) (token : CapabilityToken) (request : ToolCoreRequest) :
    ST (LoongClawKernel W P * W) string ToolCoreOutcome :=
  st_map_err display
    (execute_kernel_tool_request pack_id token
       (prepare_kernel_tool_request request (tok_allowed_capabilities token) (Some (tok_token_id token)) None None)
       false).
End dispatch.

#[local] Arguments obj_get : simpl never.
#[local] Arguments canonical_tool_name : simpl never.
#[local] Arguments resolve_tool_execution : simpl never.
#[local] Arguments is_provider_exposed_tool_name : simpl never.

(** ** Capabilities of an invoked tool *)

Lemma merge_context_get args ctx args' key : key ≠ LOONGCLAW_INTERNAL_TOOL_CONTEXT_KEY →
  merge_trusted_internal_tool_context_into_arguments args ctx = Ok args' → obj_get key args' = obj_get key args.
Proof.
  intros Hne. unfold merge_trusted_internal_tool_context_into_arguments.
  destruct (json_as_object ctx); [|done].
  destruct (obj_get LOONGCLAW_INTERNAL_TOOL_CONTEXT_KEY args) as [[]|]; intros [= <-];
    by rewrite obj_get_insert_ne, obj_get_remove_ne.
Qed.

(** What a resolved [tool.invoke] runs. *)
Lemma resolve_invoke_Ok codec secret now request resolved eff :
  resolve_tool_invoke_request codec secret now request = Ok (resolved, eff) →
  ∃ p tool_id args, tcr_payload request = JObject p ∧ obj_get "tool_id" p ≫= json_as_str = Some tool_id ∧
    canonical_tool_name (tcr_tool_name request) = "tool.invoke" ∧
    resolve_tool_execution (canonical_tool_name tool_id) = Some resolved ∧
    is_provider_exposed_tool_name (rte_canonical_name resolved) = false ∧
    eff = mkToolCoreRequest (rte_canonical_name resolved) (JObject args) ∧
    ∃ given, json_as_object (default (JObject []) (obj_get "arguments" p)) = Some given ∧
    ∀ key, key ≠ LOONGCLAW_INTERNAL_TOOL_CONTEXT_KEY → obj_get key args = obj_get key given.
Proof.
  unfold resolve_tool_invoke_request. case_bool_decide as Hname; [|done]. cbn [negb].
  destruct (tcr_payload request) as [| | | | |p] eqn:Hp; try done. cbn.
  destruct (obj_get "tool_id" p ≫= json_as_str) as [tool_id|] eqn:Ht; [|done]. cbn.
  destruct (obj_get "lease" p ≫= json_as_str) as [lease|]; [|done]. cbn.
  destruct (json_as_object (default (JObject []) (obj_get "arguments" p))) as [given|] eqn:Ha; [|done]. cbn.
  intros H. apply bind_Ok in H as (args & Hargs & H).
  destruct (resolve_tool_execution (canonical_tool_name tool_id)) as [r|] eqn:Hr; [|done]. cbn in H.
  destruct (is_provider_exposed_tool_name (rte_canonical_name r)) eqn:Hx; [done|].
  apply bind_Ok in H as (? & _ & [= <- <-]).
  exists p, tool_id, args. split_and!; try done. exists given. split; [done|]. intros key Hne.
  destruct (obj_get LOONGCLAW_INTERNAL_TOOL_CONTEXT_KEY p); [by eapply merge_context_get|by injection Hargs as ->].
Qed.

Lemma direct_required_mono name q args :
  (json_get_str "mode" args = json_get_str "mode" q ∨ json_get_str "mode" args = None) →
  direct_required_capabilities name args ⊆ direct_required_capabilities name q.
Proof.
  intros H. unfold direct_required_capabilities. repeat case_bool_decide; try set_solver.
  unfold claw_migrate_mode_requires_write. destruct H as [->| ->]; [set_solver|]. simpl.
  repeat case_bool_decide; set_solver.
Qed.

(** The capabilities demanded of a [tool.invoke] cover those of the tool it
    runs with the arguments it runs on. *)
Lemma invoke_capabilities_cover codec secret now request resolved eff :
  resolve_tool_invoke_request codec secret now request = Ok (resolved, eff) →
  direct_required_capabilities (tcr_tool_name eff) (tcr_payload eff)
  ⊆ required_capabilities_for_request request.
Proof.
  intros (p & tool_id & args & Hp & Ht & Hn & Hr & Hx & -> & given & Hg & Heq)%resolve_invoke_Ok.
  unfold required_capabilities_for_request, required_capabilities_for_tool_name_and_payload. rewrite Hn, Hp.
  assert (Hc : canonical_tool_name tool_id = rte_canonical_name resolved).
  { apply resolve_tool_execution_Some in Hr as [-> _]. by rewrite canonical_tool_name_idemp. }
  assert (Hi : invoked_discoverable_tool_request (JObject p)
    = Some (rte_canonical_name resolved, default (JObject p) (obj_get "arguments" p))).
  { unfold invoked_discoverable_tool_request. change (json_get_str "tool_id" (JObject p)) with
      (obj_get "tool_id" p ≫= json_as_str). rewrite Ht. cbn [fmap option_fmap option_map mbind option_bind].
    rewrite bool_decide_false; [by rewrite Hr; cbn; rewrite Hx|]. rewrite Hc.
    intros Hin. assert (Hp' : ∀ n, n ∈ ["tool.search"; "tool.invoke"] → is_provider_exposed_tool_name n = true).
    { apply Forall_forall, (bool_decide_unpack _). vm_compute. done. }
    by rewrite (Hp' _ Hin) in Hx. }
  cbn [required_capabilities_fuel]. rewrite (bool_decide_true ("tool.invoke" = _)) by done. rewrite Hi.
  rewrite bool_decide_false by (intros E; by rewrite E, invoke_is_provider_exposed in Hx).
  apply direct_required_mono. cbn [tcr_payload].
  change (json_get_str "mode" (JObject args)) with (obj_get "mode" args ≫= json_as_str).
  rewrite Heq by done. destruct (obj_get "arguments" p) as [a|]; cbn in Hg |- *.
  - destruct a; try done. injection Hg as <-. by left.
  - injection Hg as <-. by right.
Qed.

(** ** The kernel's tool dispatch *)

Section governed.
  Context {W P : Type} `{PE : !PolicyEngine P} `{SV : !Semver} `{!PolicyEngineLaws P}.
  Context (codec : LeaseCodec) (secret : string) (unix_now : W → Z) (trusted_cell : Cell W bool).
  Context (narrowing_from_value : Value → result string ToolRuntimeNarrowing).
  Context (handlers : CoreToolHandlers (W := W)).
  Implicit Types (k : LoongClawKernel W P) (w : W).

(** The adapter is the kernel's default for core tools. *)
Definition serves_tools k (config : ToolRuntimeConfig) : Prop :=
  default_core_adapter (k_tool_plane k) = Some "mvp-tools" ∧
  core_adapters (k_tool_plane k) !! "mvp-tools" 
    = Some (MvpToolAdapter codec secret unix_now trusted_cell narrowing_from_value handlers config).

Lemma plane_default_run (p : ToolPlane W) d core request w :
  default_core_adapter p = Some d → core_adapters p !! d = Some core →
  ToolPlane_execute_core p None request w = core_execute core request w.
Proof.
  intros Hd Hc. unfold ToolPlane_execute_core, plane_execute_core, plane_resolve, mbind, st_bind, lift.
  rewrite Hd. simpl. by rewrite Hc.
Qed.

(** What [execute_tool_core_with_config] ran when it succeeded. *)
Definition executed_as (request eff : ToolCoreRequest) : Prop :=
  let name := canonical_tool_name (tcr_tool_name request) in
  if bool_decide (name = "tool.invoke") then is_provider_exposed_tool_name (tcr_tool_name eff) = false
  else eff = mkToolCoreRequest name (tcr_payload request).

Lemma execute_core_Ok request config w out w' :
  canonical_tool_name (tcr_tool_name request) ≠ "tool.search" →
  execute_tool_core_with_config codec secret unix_now trusted_cell narrowing_from_value handlers request config w
    = (Ok out, w') →
  ∃ eff config', executed_as request eff ∧
    (config' = config ∨ ∃ n, config' = narrowed config n) ∧
    direct_required_capabilities (tcr_tool_name eff) (tcr_payload eff)
      ⊆ required_capabilities_for_request request ∧
    execute_discoverable_tool_core_with_config handlers eff config' w = (Ok out, w').
Proof.
  intros Hns. unfold execute_tool_core_with_config. cbv zeta.
  destruct (negb _ && _); [done|].
  destruct (trusted_runtime_narrowing_from_payload _ _ _) as [n|e]; [|done].
  set (config' := match n with Some n => narrowed config n | None => config end).
  assert (Hc : config' = config ∨ ∃ n, config' = narrowed config n) by (destruct n; eauto).
  rewrite (bool_decide_false _ Hns). case_bool_decide as Hinv.
  - unfold execute_tool_invoke_tool_with_config.
    destruct (resolve_tool_invoke_request _ _ _ _) as [[r eff]|e] eqn:Hr; [|done].
    destruct (rte_execution_kind r); [|done]. intros H. exists eff, config'.
    pose proof (invoke_capabilities_cover _ _ _ _ _ _ Hr) as Hcov.
    apply resolve_invoke_Ok in Hr as (p & t & args & Hp & Ht & Hn & Hre & Hx & -> & _).
    split_and!; [|done| |done].
    + unfold executed_as. cbv zeta. rewrite (bool_decide_true _ Hinv). done.
    + etrans; [exact Hcov|]. unfold required_capabilities_for_request. cbn [tcr_tool_name tcr_payload].
      by rewrite canonical_tool_name_idemp.
  - intros H. exists (mkToolCoreRequest (canonical_tool_name (tcr_tool_name request)) (tcr_payload request)), config'.
    split_and!; [|done| |done].
    + unfold executed_as. cbv zeta. by rewrite (bool_decide_false _ Hinv).
    + unfold required_capabilities_for_request, required_capabilities_for_tool_name_and_payload.
      cbn [required_capabilities_fuel tcr_tool_name tcr_payload]. by rewrite (bool_decide_false _ Hinv).
Qed.

(** A successful dispatch passed the pack and the token and reached the adapter. *)
Lemma kernel_tool_Ok pack_id token request config k w out s :
  serves_tools k config →
  execute_tool_core pack_id token (required_capabilities_for_request request) None request (k, w) = (Ok out, s) →
  ∃ pack w2 w3, k_packs k !! pack_id = Some pack ∧
    required_capabilities_for_request request ⊆ pk_granted_capabilities pack ∧
    required_capabilities_for_request request ⊆ tok_allowed_capabilities token ∧
    execute_tool_core_with_config codec secret unix_now trusted_cell narrowing_from_value handlers request config
      w2 = (Ok out, w3).
Proof.
  intros [Hd Hcore] H.
  assert (He : execute pack_id token (ReqToolCore (required_capabilities_for_request request) None request) (k, w)
    = (Ok (OutToolCore out), s)) by (cbn [execute]; rewrite st_fmap_run, H; done).
  rewrite execute_dispatch in He. apply dispatch_Ok in He as (pack & now & p & w2 & w3 & Hpk & _ & Ha & Hcall & _).
  apply authorize_pack_operation_Ok in Ha as (Hg & ? & ? & ? & _ & Hpe & _).
  apply pe_authorize_sound in Hpe as (_ & _ & Htok). cbn [required_of] in Hg, Htok.
  exists pack, w2, w3. split_and!; [done..|].
  cbn [adapter_call] in Hcall. rewrite st_fmap_run in Hcall.
  unfold st_map_err in Hcall. rewrite (plane_default_run _ _ _ _ _ Hd Hcore) in Hcall.
  cbn [MvpToolAdapter core_execute] in Hcall. unfold st_map_err in Hcall.
  destruct (execute_tool_core_with_config _ _ _ _ _ _ _ _ w2) as [[o|e] w4]; cbn in Hcall; [|done].
  by simplify_eq.
Qed.

(** C5. No tool runs on capabilities that were not granted: when a tool request
    sent through the kernel succeeds, the executor that ran was called for a
    tool and arguments whose capabilities (reading or writing the file system,
    invoking tools) the token and the pack both hold, also when the tool was
    reached through [tool.invoke]; a tool reached that way is never one the
    provider can call directly; and the configuration it ran under is the
    adapter's own or a narrowing of it. *)
Theorem granted_capabilities_cover_the_executed_tool pack_id token request trusted config k w out s :
  serves_tools k config →
  canonical_tool_name (tcr_tool_name request) ≠ "tool.search" →
  execute_kernel_tool_request trusted_cell pack_id token request trusted (k, w) = (Ok out, s) →
  ∃ eff config' pack w1 w2,
    execute_discoverable_tool_core_with_config handlers eff config' w1 = (Ok out, w2) ∧
    executed_as request eff ∧ (config' = config ∨ ∃ n, config' = narrowed config n) ∧
    k_packs k !! pack_id = Some pack ∧
    ∀ c, tool_needs (tcr_tool_name eff) (tcr_payload eff) c →
      c ∈ tok_allowed_capabilities token ∧ c ∈ pk_granted_capabilities pack.
Proof.
  intros Hserves Hns H.
  assert (∃ w0 s0, execute_tool_core pack_id token (required_capabilities_for_request request) None request (k, w0)
    = (Ok out, s0)) as (w0 & s0 & H0).
  { unfold execute_kernel_tool_request in H. destruct trusted; [|by exists w, s].
    unfold with_trusted_internal_tool_payload in H. destruct (cell_get trusted_cell w); [by exists w, s|].
    destruct (execute_tool_core _ _ _ _ _ _) as [r [k' w']] eqn:E; simplify_eq. eauto. }
  apply (kernel_tool_Ok _ _ _ config) in H0 as (pack & w2 & w3 & Hpk & Hg & Ht & Hex); [|done].
  apply execute_core_Ok in Hex as (eff & config' & Has & Hc & Hcov & Hrun); [|done].
  exists eff, config', pack, w2, w3. split_and!; try done.
  intros c Hneed%tool_needs_required%Hcov. split; [by apply Ht|by apply Hg].
Qed.
End governed.

Module ToolDispatchDemo.
Import LeaseDemo.
#[local] Instance demo_semver : Semver := λ v, bool_decide (v = "1.0.0").

(** The environment: the journal, and the flag of trusted payloads. *)
Definition World : Type := EventLog * bool.
Definition log_cell : Cell World EventLog := mkCell fst (λ l w, (l, w.2)).
Definition flag_cell : Cell World bool := mkCell snd (λ b w, (w.1, b)).

Definition say (name : string) : Handler (W := World) := λ request _,
  mret (mkToolCoreOutcome "ok" (JObject [("ran", JString name); ("with", tcr_payload request)])).
Definition demo_handlers : CoreToolHandlers (W := World) :=
  mkCoreToolHandlers (say "migrate") say (say "companion") (say "browser") (say "feishu") (say "shell")
    (say "read") (say "write") (say "edit") (say "switch") (say "fetch") (say "search").

Definition tools : CoreToolAdapter World :=
  MvpToolAdapter bit_codec "k" (λ _, 1100%Z) flag_cell (λ _, Err "none") demo_handlers ToolRuntimeConfig_default.

Definition pack : VerticalPackManifest :=
  {| pk_pack_id := "app"; pk_domain := "app"; pk_version := "1.0.0";
     pk_default_route := mkExecutionRoute EmbeddedPi None; pk_allowed_connectors := ∅;
     pk_granted_capabilities := {[InvokeTool; FilesystemRead; FilesystemWrite]}; pk_metadata := ∅ |}.
Definition kernel : LoongClawKernel World StaticPolicyEngine :=
  register_core_tool_adapter tools
    (set_packs {["app" := pack]} {["app" := namespace_of pack]}
       (with_runtime StaticPolicyEngine_default (λ w, (100%Z, w)) (InMemoryAuditSink_record log_cell))).
Definition token_of (caps : gset Capability) : CapabilityToken :=
  mkCapabilityToken "t1" "app" "a" caps 100 160 1.

(** [file.read] through [tool.invoke], with the lease of the lease demo. *)
Definition request : ToolCoreRequest :=
  prepare_kernel_tool_request (mkToolCoreRequest "tool.invoke" (JObject LeaseDemo.invoke))
    {[InvokeTool; FilesystemRead]} (Some "t1") None None.
Definition run (caps : gset Capability) :=
  execute_kernel_tool_request flag_cell "app" (token_of caps) request false (kernel, (EventLog_default, false)).
Definition answer : ToolCoreOutcome :=
  mkToolCoreOutcome "ok" (JObject [("ran", JString "read"); ("with", JObject [("path", JString "a.txt")])]).

(** A token without [FilesystemRead] cannot invoke [file.read]. *)
Example read_needs_the_capability :
  (run {[InvokeTool]}).1
  = Err (KernelError_Policy (MissingCapability "t1" FilesystemRead)).
Proof. by vm_compute. Qed.

Lemma coverage_witness :
  ∃ eff, executed_as request eff ∧
    ∀ c, tool_needs (tcr_tool_name eff) (tcr_payload eff) c → c ∈ ({[InvokeTool; FilesystemRead]} : gset Capability).
Proof.
  destruct (granted_capabilities_cover_the_executed_tool bit_codec "k" (λ _, 1100%Z) flag_cell (λ _, Err "none")
    demo_handlers "app" (token_of {[InvokeTool; FilesystemRead]}) request false ToolRuntimeConfig_default kernel
    (EventLog_default, false) answer (run {[InvokeTool; FilesystemRead]}).2)
    as (eff & config' & p & w1 & w2 & _ & Hex & _ & _ & Hsub).
  - split; [reflexivity|]. exact (lookup_insert_eq _ "mvp-tools" tools).
  - vm_compute. discriminate.
  - refine (eq_trans (surjective_pairing _) (f_equal (λ r, (r, _)) _)). vm_compute. reflexivity.
  - exists eff. split; [exact Hex|]. intros c Hc. exact (proj1 (Hsub c Hc)).
Defined.
(** The reserved context is refused at the top of an untrusted payload only: a
    [tool.invoke] hands the context its arguments carry to the tool. *)
Definition spoofed : Value := JObject [("feishu_callback", JObject [("open_chat_id", JString "oc_other")])].
Definition spoofing_arguments : Value := JObject [("_loongclaw", spoofed); ("text", JString "hi")].
Definition spoofing_invoke : ToolCoreRequest :=
  mkToolCoreRequest "tool.invoke"
    (JObject [("arguments", spoofing_arguments);
              ("lease", JString (issue_tool_lease bit_codec "k" 1000 "feishu.messages.send" []));
              ("tool_id", JString "feishu.messages.send")]).

Theorem nested_internal_context_is_not_refused :
  let run r := (core_execute tools r (EventLog_default, false)).1 in
  run (mkToolCoreRequest "feishu.messages.send" spoofing_arguments)
  = Err (Tool_Execution ("tool `feishu.messages.send` payload._loongclaw is reserved for trusted internal "
                         +:+ "tool context; retry without that field")) ∧
  run spoofing_invoke
  = Ok (mkToolCoreOutcome "ok" (JObject [("ran", JString "feishu"); ("with", spoofing_arguments)])).
Proof. by vm_compute. Qed.
End ToolDispatchDemo.
