(* ===== verification/ShellPolicy.v ===== *)
(** * ShellPolicy: the shell tool and its policy
    (app/src/tools/shell_policy_ext.rs, app/src/tools/shell.rs)

    The command policy is enforced twice: by a policy extension of the kernel
    and by the executor itself. Running the process is the argument [launch]. *)
From S2P Require Import Prelude RustStr Contracts Errors Policy Kernel Json ToolRuntimeConfig ToolCatalog ToolNames.
From Stdlib Require Import Ascii.

(** ** [ToolPolicyExtension] *)

Record ToolPolicyExtension := mkToolPolicyExtension {
  tp_hard_deny : gset string;
  tp_allow : gset string;
  tp_default_mode : ShellPolicyDefault;
}.

Definition ToolPolicyExtension_from_config (rt : ToolRuntimeConfig) : ToolPolicyExtension :=
  mkToolPolicyExtension (rt_shell_deny rt) (rt_shell_allow rt) (rt_shell_default_mode rt).

(** [s.split_whitespace().next().unwrap_or(s)] *)
Definition first_word (s : string) : string := default s (head (split_whitespace s)).

Definition validate_shell_command_name (command : string) : result string string :=
  let trimmed := trim command in
  if is_empty trimmed then Err "shell.exec requires payload.command"
  else
    let trimmed := first_word trimmed in
    if contains "/" trimmed || contains (String backslash "") trimmed then
      Err ("policy_denied: shell command `" +:+ trimmed
           +:+ "` must be a bare command name without path separators")
    else
      let normalized := to_ascii_lowercase trimmed in
      if negb (bool_decide (trimmed = normalized)) then
        Err ("policy_denied: shell command `" +:+ trimmed
             +:+ "` must use a lowercase bare command name to match shell policy")
      else Ok normalized.

Definition effective_shell_request (params : Value) : string * option Value :=
  let tool_name := canonical_tool_name (default "" (json_get_str "tool_name" params)) in
  let payload := json_get "payload" params in
  if negb (bool_decide (tool_name = "tool.invoke")) then (tool_name, payload)
  else
    (default tool_name (canonical_tool_name <$> (payload ≫= json_get_str "tool_id")),
     payload ≫= json_get "arguments").

(** [.map(str::trim).filter(|s| !s.is_empty())] *)
Definition non_empty_trimmed (o : option string) : option string :=
  match trim <$> o with Some s => if is_empty s then None else Some s | None => None end.

Definition ToolPolicyExtension_decide (self : ToolPolicyExtension) (params : option Value) :
    result PolicyError unit :=
  match params with
  | None => Ok ()
  | Some params =>
      let '(tool_name, payload) := effective_shell_request params in
      if negb (bool_decide (tool_name = "shell.exec")) then Ok ()
      else
        match non_empty_trimmed (payload ≫= json_get_str "command") with
        | None => Ok ()
        | Some command =>
            match validate_shell_command_name command with
            | Err reason => Err (ToolCallDenied tool_name reason)
            | Ok basename =>
                if bool_decide (basename ∈ tp_hard_deny self) then
                  Err (ToolCallDenied tool_name ("command `" +:+ basename +:+ "` is blocked by shell policy"))
                else if bool_decide (basename ∈ tp_allow self) then Ok ()
                else
                  match tp_default_mode self with
                  | ShellDefault_Allow => Ok ()
                  | ShellDefault_Deny =>
                      Err (ToolCallDenied tool_name
                             ("command `" +:+ basename +:+ "` is not in the allow list (default-deny policy)"))
                  end
            end
        end
  end.

Definition tool_policy_extension {W} (self : ToolPolicyExtension) : PolicyExtension W :=
  {| px_name := "tool-policy";
     px_authorize_extension context :=
       lift (ToolPolicyExtension_decide self (px_request_parameters context)) |}.

(** ** [execute_shell_tool_with_config] *)

Fixpoint contains_whitespace (s : string) : bool :=
  lead_ws ws2 ws3 s || match s with "" => false | String _ s' => contains_whitespace s' end.

Definition contains_shell_operators (cmd : string) : bool :=
  contains "|" cmd || contains ">" cmd || contains "<" cmd || contains "&&" cmd || contains "||" cmd
  || contains ";" cmd || contains "$" cmd || contains "`" cmd.

Definition arg_is_operator (a : string) : bool :=
  contains "|" a || contains ">" a || contains "<" a || bool_decide (a = "&&") || bool_decide (a = "||").

Definition SHELL_EXEC_DEFAULT_TIMEOUT_MS : Z := 30000.
Definition SHELL_EXEC_MAX_TIMEOUT_MS : Z := 600000.

Definition parse_shell_timeout_ms (payload : list (string * Value)) : result string Z :=
  timeout_ms ←
    match obj_get "timeout_ms" payload with
    | Some timeout_ms => ok_or (json_as_u64 timeout_ms) "shell.exec payload.timeout_ms must be an integer"
    | None => Ok SHELL_EXEC_DEFAULT_TIMEOUT_MS
    end;
  Ok (Z.max 1000 (Z.min timeout_ms SHELL_EXEC_MAX_TIMEOUT_MS)).

(** The program and its arguments: the command line split, passed on, or wrapped
    in [sh -c]. *)
Definition shell_invocation (raw_command : string) (explicit_args : list string) : string * list string :=
  if contains_whitespace raw_command && bool_decide (explicit_args = []) then
    if contains_shell_operators raw_command then ("sh", ["-c"; raw_command])
    else
      match split_whitespace raw_command with
      | cmd :: parts => (cmd, parts ++ explicit_args)
      | [] => (raw_command, explicit_args)
      end
  else if negb (bool_decide (explicit_args = [])) && existsb arg_is_operator explicit_args then
    ("sh", ["-c"; foldl (λ full arg, full +:+ " " +:+ arg) raw_command explicit_args])
  else (raw_command, explicit_args).

Record ShellLaunch := mkShellLaunch {
  sl_command : string;
  sl_args : list string;
  sl_cwd : string;
  sl_timeout_ms : Z;
}.

(** Everything up to the launch. *)
Definition shell_plan (current_dir : string) (config : ToolRuntimeConfig) (request_payload : Value) :
    result string ShellLaunch :=
  payload ← ok_or (json_as_object request_payload) "shell.exec payload must be an object";
  raw_command ← ok_or (non_empty_trimmed (obj_get "command" payload ≫= json_as_str))
                  "shell.exec requires payload.command";
  let explicit_args := omap json_as_str (default [] (obj_get "args" payload ≫= json_as_array)) in
  basename ← validate_shell_command_name raw_command;
  let '(command, args) := shell_invocation raw_command explicit_args in
  let cwd := default current_dir (obj_get "cwd" payload ≫= json_as_str) in
  timeout_ms ← parse_shell_timeout_ms payload;
  if bool_decide (basename ∈ rt_shell_deny config) then
    Err ("policy_denied: shell command `" +:+ basename +:+ "` is blocked by shell policy")
  else
    let default_allows :=
      match rt_shell_default_mode config with ShellDefault_Allow => true | ShellDefault_Deny => false end in
    if negb (bool_decide (basename ∈ rt_shell_allow config)) && negb default_allows then
      Err ("policy_denied: shell command `" +:+ basename
           +:+ "` is not in the allow list (default-deny policy)")
    else Ok (mkShellLaunch command args cwd timeout_ms).

(** The output of a process, its text decoded. *)
Record ShellOutput := mkShellOutput {
  so_success : bool;
  so_code : option Z;
  so_stdout : string;
  so_stderr : string;
}.

Section shell.
  Context {W : Type} (launch : ShellLaunch → ST W string ShellOutput) (current_dir : string).

Definition execute_shell_tool_with_config (request : ToolCoreRequest) (config : ToolRuntimeConfig) :
    ST W string ToolCoreOutcome :=
  lift (shell_plan current_dir config (tcr_payload request)) ≫= λ plan,
  launch plan ≫= λ output,
  mret (mkToolCoreOutcome (if so_success output then "ok" else "failed")
    (json_object [
       ("adapter", JString "core-tools");
       ("tool_name", JString (tcr_tool_name request));
       ("command", JString (sl_command plan));
       ("args", json_strs (sl_args plan));
       ("cwd", JString (sl_cwd plan));
       ("exit_code", json_opt json_int (so_code output));
       ("stdout", JString (trim (so_stdout output)));
       ("stderr", JString (trim (so_stderr output)))])).
End shell.

(** ** Lemmas *)

#[local] Arguments obj_get : simpl never.
#[local] Arguments canonical_tool_name : simpl never.

Lemma non_empty_trimmed_Some o s : non_empty_trimmed o = Some s → trim s = s ∧ is_empty s = false.
Proof.
  unfold non_empty_trimmed. destruct o as [x|]; [|done]. simpl.
  destruct (is_empty (trim x)) eqn:E; [done|]. intros [= <-]. by rewrite trim_idemp.
Qed.

(** A command name that passes is the first word of the line: bare and in
    lower case. *)
Lemma validate_name_Ok raw basename : trim raw = raw → is_empty raw = false →
  validate_shell_command_name raw = Ok basename ↔
  basename = first_word raw ∧ contains "/" basename = false ∧ contains (String backslash "") basename = false ∧
  to_ascii_lowercase basename = basename.
Proof.
  intros Ht Hne. unfold validate_shell_command_name. rewrite Ht, Hne.
  destruct (contains "/" (first_word raw)) eqn:E1; simpl.
  { split; [done|]. intros (-> & ? & _). congruence. }
  destruct (contains (String backslash "") (first_word raw)) eqn:E2; simpl.
  { split; [done|]. intros (-> & _ & ? & _). congruence. }
  case_bool_decide as Hl; simpl.
  - rewrite <-Hl. split; [intros [= <-]; by rewrite <-Hl|by intros (-> & _)].
  - split; [done|]. intros (-> & _ & _ & Hx). by rewrite Hx in Hl.
Qed.

(** The decision both gates make about a command name. *)
Definition name_allowed (config : ToolRuntimeConfig) (basename : string) : Prop :=
  (basename ∉ rt_shell_deny config) ∧
  (basename ∈ rt_shell_allow config ∨ rt_shell_default_mode config = ShellDefault_Allow).

(** The executor's gate. *)
Lemma shell_gate_Ok {A} config basename e1 e2 (x y : A) :
  (if bool_decide (basename ∈ rt_shell_deny config) then Err e1
   else if negb (bool_decide (basename ∈ rt_shell_allow config)) &&
           negb match rt_shell_default_mode config with ShellDefault_Allow => true | ShellDefault_Deny => false end
        then Err e2 else Ok x : result string A) = Ok y ↔ name_allowed config basename ∧ y = x.
Proof.
  unfold name_allowed. destruct (rt_shell_default_mode config); repeat case_bool_decide; cbn; naive_solver.
Qed.

Lemma shell_plan_Ok dir config fields plan :
  shell_plan dir config (JObject fields) = Ok plan ↔
  ∃ raw basename t,
    non_empty_trimmed (obj_get "command" fields ≫= json_as_str) = Some raw ∧
    validate_shell_command_name raw = Ok basename ∧ parse_shell_timeout_ms fields = Ok t ∧
    name_allowed config basename ∧
    let invocation :=
      shell_invocation raw (omap json_as_str (default [] (obj_get "args" fields ≫= json_as_array))) in
    plan = mkShellLaunch invocation.1 invocation.2 (default dir (obj_get "cwd" fields ≫= json_as_str)) t.
Proof.
  unfold shell_plan. cbn.
  destruct (non_empty_trimmed _) as [raw|]; cbn; [|split; [done|]; intros (? & ? & ? & ? & _); congruence].
  destruct (validate_shell_command_name raw) as [basename|e] eqn:Hv; cbn; [|split; [done|]; intros (? & ? & ? & [= <-] & ? & _); congruence].
  destruct (shell_invocation _ _) as [command args] eqn:Hi.
  destruct (parse_shell_timeout_ms fields) as [t|e]; cbn;
    [|split; [done|]; intros (? & ? & ? & _ & _ & ? & _); congruence].
  rewrite shell_gate_Ok. split.
  - intros [Hok ->]. exists raw, basename, t. by rewrite Hi.
  - intros (? & ? & ? & [= <-] & H0 & [= <-] & Hok & Heq). rewrite Hi in Heq. rewrite Hv in H0. by simplify_eq.
Qed.

(** A request that is not wrapped in [tool.invoke] is judged by its own payload. *)
Lemma effective_direct name payload : canonical_tool_name name ≠ "tool.invoke" →
  effective_shell_request (tool_policy_params name payload) = (canonical_tool_name name, Some payload).
Proof.
  intros Hn. unfold effective_shell_request.
  change (json_get_str "tool_name" (tool_policy_params name payload)) with (Some name).
  change (json_get "payload" (tool_policy_params name payload)) with (Some payload).
  cbn [default from_option id]. by rewrite bool_decide_false.
Qed.

Lemma decide_shell config name fields raw :
  canonical_tool_name name = "shell.exec" →
  non_empty_trimmed (obj_get "command" fields ≫= json_as_str) = Some raw →
  ToolPolicyExtension_decide (ToolPolicyExtension_from_config config)
    (Some (tool_policy_params name (JObject fields))) = Ok () ↔
  ∃ basename, validate_shell_command_name raw = Ok basename ∧ name_allowed config basename.
Proof.
  intros Hn Hraw. unfold ToolPolicyExtension_decide, name_allowed.
  rewrite effective_direct by (by rewrite Hn). rewrite Hn. cbn -[obj_get json_get_str].
  change (json_get_str "command" (JObject fields)) with (obj_get "command" fields ≫= json_as_str). rewrite Hraw.
  destruct (validate_shell_command_name raw) as [basename|e]; [|naive_solver].
  repeat case_bool_decide; destruct (rt_shell_default_mode config); naive_solver.
Qed.

(** The kernel's policy extension and the shell executor make the same
    decision: for a [shell.exec] request with a command and a valid timeout,
    under any of the tool's names, the extension built from the configuration
    lets the request pass if and only if the executor goes on to launch it. *)
Theorem shell_gates_agree {W} config name fields raw timeout dir context (w : W) :
  canonical_tool_name name = "shell.exec" →
  px_request_parameters context = Some (tool_policy_params name (JObject fields)) →
  non_empty_trimmed (obj_get "command" fields ≫= json_as_str) = Some raw →
  parse_shell_timeout_ms fields = Ok timeout →
  px_authorize_extension (tool_policy_extension (ToolPolicyExtension_from_config config)) context w = (Ok (), w) ↔
  ∃ plan, shell_plan dir config (JObject fields) = Ok plan.
Proof.
  intros Hn Hp Hraw Ht. cbn [tool_policy_extension px_authorize_extension]. rewrite Hp.
  pose proof (decide_shell config name fields raw Hn Hraw) as Hd. unfold lift. split.
  - intros [= Hok]. apply Hd in Hok as (basename & Hv & Ha). eexists. apply shell_plan_Ok. eauto 10.
  - intros [plan (raw' & basename & t & Hraw' & Hv & _ & Ha & _)%shell_plan_Ok].
    rewrite Hraw in Hraw'. injection Hraw' as <-. f_equal. apply Hd. eauto.
Qed.

Lemma foldl_spaces raw args : foldl (λ full arg, full +:+ " " +:+ arg) raw args = join " " (raw :: args).
Proof.
  revert raw. induction args as [|x args IH]; intros raw; [done|]. cbn [foldl]. rewrite IH.
  destruct args; cbn; by rewrite ?app_assoc_str.
Qed.

(** C22. What the shell tool launches: its first word is a bare lower-case
    command name that is not denied and is allowed (or the default is to
    allow), in the working directory asked for and with a timeout between one
    second and ten minutes. Without arguments, a command with white space goes to
    [sh -c] as it is when it has a shell operator and is split into its words
    otherwise; one without white space is the program itself, operators and all.
    With arguments, command and arguments are joined by spaces for [sh -c] when
    an argument has a pipe or a redirection or is && or ||; otherwise the command
    is the program, whatever operators it has, and the arguments are passed on. *)
Theorem shell_launches_only_allowed_commands dir config fields plan :
  shell_plan dir config (JObject fields) = Ok plan →
  ∃ raw, non_empty_trimmed (obj_get "command" fields ≫= json_as_str) = Some raw ∧
  let word := first_word raw in
  let args := omap json_as_str (default [] (obj_get "args" fields ≫= json_as_array)) in
  name_allowed config word ∧ to_ascii_lowercase word = word ∧ contains "/" word = false ∧
  sl_cwd plan = default dir (obj_get "cwd" fields ≫= json_as_str) ∧ (1000 ≤ sl_timeout_ms plan ≤ 600000)%Z ∧
  if bool_decide (args = []) then
    if contains_whitespace raw then
      if contains_shell_operators raw then sl_command plan = "sh" ∧ sl_args plan = ["-c"; raw]
      else sl_command plan = word ∧ sl_args plan = tail (split_whitespace raw)
    else sl_command plan = raw ∧ sl_args plan = []
  else if existsb arg_is_operator args then sl_command plan = "sh" ∧ sl_args plan = ["-c"; join " " (raw :: args)]
  else sl_command plan = raw ∧ sl_args plan = args.
Proof.
  intros (raw & basename & t & Hraw & Hv & Ht & Ha & ->)%shell_plan_Ok. exists raw. split; [done|].
  pose proof (non_empty_trimmed_Some _ _ Hraw) as [Htrim Hne].
  apply validate_name_Ok in Hv as (-> & Hs & _ & Hl); [|done..].
  cbv zeta. cbn [sl_timeout_ms sl_command sl_args]. split_and!; try done.
  1,2: unfold parse_shell_timeout_ms in Ht; apply bind_Ok in Ht as (x & _ & [= <-]);
    unfold SHELL_EXEC_MAX_TIMEOUT_MS; lia.
  unfold shell_invocation, first_word.
  set (args := omap json_as_str (default [] (obj_get "args" fields ≫= json_as_array))).
  case_bool_decide as Hargs; [rewrite Hargs|]; rewrite ?andb_true_r, ?andb_false_r; cbn.
  - destruct (contains_whitespace raw); [|done]. destruct (contains_shell_operators raw); [done|].
    destruct (split_whitespace raw); cbn; [done|]. by rewrite app_nil_r.
  - destruct (existsb arg_is_operator args); [|done]. split; [done|]. by rewrite foldl_spaces.
Qed.

(** The policy looks at the first word of the line only: with [echo] allowed and
    [rm] denied, the whole line still runs. *)
Definition guarded_config : ToolRuntimeConfig :=
  {| rt_file_root := None; rt_shell_allow := {["echo"]}; rt_shell_deny := {["rm"]};
     rt_shell_default_mode := ShellDefault_Deny; rt_config_path := None; rt_sessions_enabled := true;
     rt_messages_enabled := false; rt_delegate_enabled := true; rt_browser := BrowserRuntimePolicy_default;
     rt_browser_companion := BrowserCompanionRuntimePolicy_default;
     rt_web_fetch := WebFetchRuntimePolicy_default; rt_web_search := WebSearchRuntimePolicy_default;
     rt_external_skills := ExternalSkillsRuntimePolicy_default; rt_feishu := false |}.

Theorem denied_command_runs_behind_an_operator :
  shell_plan "/work" guarded_config (JObject [("command", JString "rm -rf data")])
    = Err "policy_denied: shell command `rm` is blocked by shell policy" ∧
  shell_plan "/work" guarded_config (JObject [("command", JString "echo ok && rm -rf data")])
    = Ok (mkShellLaunch "sh" ["-c"; "echo ok && rm -rf data"] "/work" 30000).
Proof. by vm_compute. Qed.

Module ShellPolicyDemo.
Definition fields : list (string * Value) := [("command", JString "  echo hi there ")].
Definition context : PolicyExtensionContext :=
  mkPolicyExtensionContext
    {| pk_pack_id := "app"; pk_domain := "app"; pk_version := "1.0.0";
       pk_default_route := mkExecutionRoute EmbeddedPi None; pk_allowed_connectors := ∅;
       pk_granted_capabilities := {[InvokeTool]}; pk_metadata := ∅ |}
    (mkCapabilityToken "t1" "app" "a" {[InvokeTool]} 100 160 1) 100 {[InvokeTool]}
    (Some (tool_policy_params "shell" (JObject fields))).

Lemma gates_witness :
  px_authorize_extension (tool_policy_extension (ToolPolicyExtension_from_config guarded_config)) context tt
    = (Ok (), tt) ↔
  ∃ plan, shell_plan "/work" guarded_config (JObject fields) = Ok plan.
Proof.
  apply (shell_gates_agree guarded_config "shell" fields "echo hi there" 30000); vm_compute; reflexivity.
Defined.

Lemma launch_witness :
  shell_plan "/work" guarded_config (JObject fields)
    = Ok (mkShellLaunch "echo" ["hi"; "there"] "/work" 30000) ∧
  ∃ raw, non_empty_trimmed (obj_get "command" fields ≫= json_as_str) = Some raw ∧
    name_allowed guarded_config (first_word raw).
Proof.
  assert (Hp : shell_plan "/work" guarded_config (JObject fields)
    = Ok (mkShellLaunch "echo" ["hi"; "there"] "/work" 30000)) by (vm_compute; reflexivity).
  split; [exact Hp|].
  destruct (shell_launches_only_allowed_commands "/work" guarded_config fields _ Hp) as (raw & H1 & H2 & _).
  exists raw. split; assumption.
Defined.
End ShellPolicyDemo.
