(* ===== verification/Paths.v ===== *)
(** * Paths: lexical paths and a file system with symbolic links

    A Unix path as [std::path::Path::components] reads it, the operations of
    [Path] the file tools use, [normalize_without_fs] of app/src/tools/mod.rs,
    and the behaviour of the operating system that [std::fs] exposes: a tree of
    files, directories and symbolic links. *)
From S2P Require Import Prelude RustStr Fs.
From Stdlib Require Import Ascii.

(** A path is the list of its components. *)
Definition Path : Type := list component.

Definition component_text (c : component) : string :=
  match c with RootDir => "" | CurDir => "." | ParentDir => ".." | Normal n => n end.

Definition path_display (p : Path) : string :=
  match p with
  | RootDir :: rest => "/" +:+ join "/" (component_text <$> rest)
  | _ => join "/" (component_text <$> p)
  end.

Definition is_absolute (p : Path) : bool := match p with RootDir :: _ => true | _ => false end.

(** [base.join(p)] *)
Definition path_join (base p : Path) : Path :=
  if is_absolute p then p
  else match base with [] => p | _ => base ++ match p with CurDir :: rest => rest | _ => p end end.

(** [base.push(name)] for a single name *)
Definition path_push (base : Path) (name : string) : Path := path_join base [Normal name].

(** [p.starts_with(base)], by components *)
Definition path_starts_with (p base : Path) : bool := bool_decide (base `prefix_of` p).

Definition path_file_name (p : Path) : option string :=
  match last p with Some (Normal n) => Some n | _ => None end.

Definition parent (p : Path) : option Path :=
  match last p with
  | Some (Normal _) | Some CurDir | Some ParentDir => Some (removelast p)
  | _ => None
  end.

(** ** [normalize_without_fs] *)

(** The loop's state: the parts so far, and whether a root was seen. *)
Definition normalize_step (st : list component * bool) (c : component) : list component * bool :=
  let '(parts, has_root) := st in
  match c with
  | RootDir => (parts, true)
  | CurDir => (parts, has_root)
  | ParentDir =>
      match last parts with
      | Some ParentDir => (if has_root then parts else parts ++ [ParentDir], has_root)
      | Some _ => (removelast parts, has_root)
      | None => (if has_root then parts else [ParentDir], has_root)
      end
  | Normal n => (parts ++ [Normal n], has_root)
  end.

Definition normalize_without_fs (path : Path) : Path :=
  let '(parts, has_root) := foldl normalize_step ([], false) path in
  if has_root then RootDir :: parts else if bool_decide (parts = []) then [CurDir] else parts.

(** ** The file system *)

Inductive Node := NFile (content : string) | NDir | NLink (target : Path).

#[export] Instance Node_eq_dec : EqDecision Node.
Proof. solve_decision. Defined.

(** What is at each absolute location; the root directory is the empty list. *)
Abbreviation Disk := (gmap (list string) Node).

Definition lookup_node (fs : Disk) (loc : list string) : option Node :=
  match loc with [] => Some NDir | _ => fs !! loc end.

(** The kernel follows at most this many symbolic links in a lookup. *)
Definition MAX_SYMLINKS : nat := 40.

(** Path resolution: the location a path names, following links. With [create],
    the last component may be missing in an existing directory, as for
    [O_CREAT]. *)
Fixpoint resolve (links : nat) (create : bool) (fs : Disk) : list string → Path → option (list string) :=
  fix go (cur : list string) (todo : Path) : option (list string) :=
    match todo with
    | [] => Some cur
    | RootDir :: rest => go [] rest
    | CurDir :: rest => go cur rest
    | ParentDir :: rest => go (removelast cur) rest
    | Normal n :: rest =>
        match lookup_node fs (cur ++ [n]) with
        | Some NDir => go (cur ++ [n]) rest
        | Some (NFile _) => if bool_decide (rest = []) then Some (cur ++ [n]) else None
        | Some (NLink target) =>
            match links with
            | O => None
            | S links => resolve links create fs cur (target ++ rest)
            end
        | None => if create && bool_decide (rest = []) then Some (cur ++ [n]) else None
        end
    end.

Definition to_path (loc : list string) : Path := RootDir :: (Normal <$> loc).

Section fs.
  Context (cwd : list string).

(** [fs::canonicalize] *)
Definition canonicalize (fs : Disk) (p : Path) : option Path :=
  to_path <$> resolve MAX_SYMLINKS false fs cwd p.

(** [Path::exists] *)
Definition path_exists (fs : Disk) (p : Path) : bool :=
  bool_decide (is_Some (resolve MAX_SYMLINKS false fs cwd p)).

(** [Path::is_dir] *)
Definition is_dir (fs : Disk) (p : Path) : bool :=
  match resolve MAX_SYMLINKS false fs cwd p with
  | Some loc => bool_decide (lookup_node fs loc = Some NDir)
  | None => false
  end.

(** The location of the last component itself, links not followed there. *)
Definition entry_location (fs : Disk) (p : Path) : option (list string) :=
  n ← path_file_name p;
  dir ← resolve MAX_SYMLINKS false fs cwd (removelast p);
  if bool_decide (lookup_node fs dir = Some NDir) then Some (dir ++ [n]) else None.

(** [Path::is_symlink] and [fs::read_link] *)
Definition read_link (fs : Disk) (p : Path) : option Path :=
  match entry_location fs p ≫= lookup_node fs with Some (NLink target) => Some target | _ => None end.
Definition is_symlink (fs : Disk) (p : Path) : bool := bool_decide (is_Some (read_link fs p)).

(** [fs::read] *)
Definition fs_read (fs : Disk) (p : Path) : option string :=
  match resolve MAX_SYMLINKS false fs cwd p ≫= lookup_node fs with
  | Some (NFile content) => Some content
  | _ => None
  end.

(** [fs::write]: opens with [O_CREAT | O_TRUNC], following a final link even
    when its target does not exist yet. *)
Definition fs_write (fs : Disk) (p : Path) (content : string) : option Disk :=
  loc ← resolve MAX_SYMLINKS true fs cwd p;
  match lookup_node fs loc with
  | Some (NFile _) | None => Some (<[loc := NFile content]> fs)
  | Some _ => None
  end.

(** [fs::create_dir]: fails when the entry exists, also as a dangling link *)
Inductive MkdirError := Mkdir_NotFound | Mkdir_Other.

Definition create_dir (fs : Disk) (p : Path) : result MkdirError Disk :=
  match resolve MAX_SYMLINKS false fs cwd (removelast p), path_file_name p with
  | Some dir, Some n =>
      if bool_decide (lookup_node fs dir = Some NDir) then
        match lookup_node fs (dir ++ [n]) with
        | None => Ok (<[dir ++ [n] := NDir]> fs)
        | Some _ => Err Mkdir_Other
        end
      else Err Mkdir_Other
  | None, _ => Err Mkdir_NotFound
  | _, None => Err Mkdir_Other
  end.

(** [fs::create_dir_all]: the loop over the ancestors, [fuel] the length of the
    path. What was created stays when a later step fails. *)
Fixpoint create_dir_all_fuel (fuel : nat) (fs : Disk) (p : Path) : bool * Disk :=
  match p with
  | [] => (true, fs)
  | _ =>
      match create_dir fs p with
      | Ok fs' => (true, fs')
      | Err Mkdir_NotFound =>
          match fuel, parent p with
          | S fuel, Some parent_path =>
              let '(made, fs1) := create_dir_all_fuel fuel fs parent_path in
              if made then
                match create_dir fs1 p with
                | Ok fs2 => (true, fs2)
                | Err _ => (is_dir fs1 p, fs1)
                end
              else (false, fs1)
          | _, _ => (false, fs)
          end
      | Err Mkdir_Other => (is_dir fs p, fs)
      end
  end.

Definition create_dir_all (fs : Disk) (p : Path) : bool * Disk := create_dir_all_fuel (length p) fs p.
End fs.

(** ** Lemmas: normalization *)

(** The parts the loop keeps: leading [..] (only without a root), then names. *)
Definition tidy (has_root : bool) (parts : list component) : Prop :=
  ∃ ups names, parts = replicate ups ParentDir ++ (Normal <$> names) ∧ (has_root = true → ups = 0).

Lemma last_names ups names : last (replicate ups ParentDir ++ (Normal <$> names)) =
  match last names with
  | Some n => Some (Normal n)
  | None => if bool_decide (ups = 0) then None else Some ParentDir
  end.
Proof.
  rewrite last_app, fmap_last. destruct (last names); simpl; [done|].
  destruct ups as [|ups]; [done|]. by rewrite replicate_S_end, last_snoc.
Qed.

(** A root comes first or not at all: that is how [components] builds paths. *)
Definition rooted_first (p : Path) : Prop := RootDir ∉ tail p.

Lemma normalize_step_tidy parts has_root c :
  tidy has_root parts → (c = RootDir → parts = []) →
  tidy (normalize_step (parts, has_root) c).2 (normalize_step (parts, has_root) c).1.
Proof.
  intros (ups & names & -> & Hup) Hroot. destruct c as [| | |n]; simpl.
  - exists 0, []. split; [|done]. by rewrite (Hroot eq_refl).
  - by exists ups, names.
  - rewrite last_names. destruct names as [|x names _] using rev_ind; simpl.
    + rewrite app_nil_r. case_bool_decide as H0.
      * subst. destruct has_root; simpl; [by exists 0, []|]. exists 1, []. by split.
      * destruct has_root; simpl; [naive_solver|]. exists (S ups), []. rewrite app_nil_r. split; [|done].
        by rewrite replicate_S_end.
    + rewrite last_snoc, fmap_app, app_assoc. simpl. rewrite removelast_last. by exists ups, names.
  - exists ups, (names ++ [n]). by rewrite fmap_app, app_assoc.
Qed.

Lemma normalize_loop_tidy p : ∀ parts has_root,
  tidy has_root parts → (RootDir ∈ p → parts = [] ∧ RootDir ∉ tail p) →
  tidy (foldl normalize_step (parts, has_root) p).2 (foldl normalize_step (parts, has_root) p).1.
Proof.
  induction p as [|c p IH]; intros parts has_root Ht Hr; [done|]. cbn [foldl].
  pose proof (normalize_step_tidy parts has_root c Ht) as H.
  destruct (normalize_step (parts, has_root) c) as [parts' has_root'] eqn:E. apply IH.
  - apply H. intros ->. apply Hr. by left.
  - intros Hin. destruct Hr as [_ Hn]; [by right|]. by destruct Hn.
Qed.

(** What [normalize_without_fs] returns: an absolute path of names only, or a
    relative one whose [..] all come first. *)
Lemma normalize_shape p : rooted_first p →
  (∃ names, normalize_without_fs p = to_path names) ∨ normalize_without_fs p = [CurDir] ∨
  ∃ ups names, normalize_without_fs p = replicate ups ParentDir ++ (Normal <$> names).
Proof.
  intros Hr. unfold normalize_without_fs.
  pose proof (normalize_loop_tidy p [] false) as H.
  destruct (foldl normalize_step ([], false) p) as [parts has_root].
  destruct H as (ups & names & Hp & Hup); [by exists 0, []| |].
  { intros _. done. }
  simpl in Hp, Hup. subst parts. destruct has_root.
  - left. exists names. by rewrite (Hup eq_refl).
  - right. case_bool_decide; [by left|]. right. eauto.
Qed.

(** ** Lemmas: resolution *)

(** Every strict prefix of a location is a directory. *)
Definition dirs_below (fs : Disk) (loc : list string) : Prop :=
  ∀ pre x post, loc = pre ++ x :: post → lookup_node fs pre = Some NDir.

(** A location that is what it seems: a directory or file reached without links. *)
Definition plain (fs : Disk) (loc : list string) : Prop :=
  dirs_below fs loc ∧ (lookup_node fs loc = Some NDir ∨ ∃ c, lookup_node fs loc = Some (NFile c)).

Definition is_directory (fs : Disk) (loc : list string) : Prop :=
  dirs_below fs loc ∧ lookup_node fs loc = Some NDir.

Lemma is_directory_root fs : is_directory fs [].
Proof. split; [|done]. by intros [] ? ? ?. Qed.

Lemma dirs_below_snoc fs dir n : is_directory fs dir → dirs_below fs (dir ++ [n]).
Proof.
  intros [Hb Hd] pre x post E. destruct post as [|y post _] using rev_ind.
  - apply app_inj_tail in E as [-> _]. done.
  - rewrite app_comm_cons, app_assoc in E. apply app_inj_tail in E as [-> _]. by eapply Hb.
Qed.

Lemma is_directory_parent fs dir : is_directory fs dir → is_directory fs (removelast dir).
Proof.
  intros [Hb Hd]. destruct dir as [|x dir _] using rev_ind; [done|]. rewrite removelast_last. split.
  - intros pre y post ->. eapply (Hb pre y (post ++ [x])). by rewrite <-app_assoc.
  - by apply (Hb dir x []).
Qed.

(** Resolving without creation ends at a plain location. *)
Lemma resolve_plain links fs : ∀ cur todo loc, is_directory fs cur →
  resolve links false fs cur todo = Some loc → plain fs loc.
Proof.
  induction links as [|links IHl]; intros cur todo; revert cur;
    (induction todo as [|c todo IH]; intros cur loc Hcur;
     [simpl; intros [= <-]; destruct Hcur; split; [done|by left]|]);
    destruct c as [| | |n]; simpl;
    try (by apply IH; auto using is_directory_root, is_directory_parent);
    (destruct (lookup_node fs (cur ++ [n])) as [[content| |target]|] eqn:Hn; [| | |done]);
    try done.
  1,3: case_bool_decide; [|done]; intros [= <-]; split; [by apply dirs_below_snoc|eauto].
  1,2: apply IH; split; [by apply dirs_below_snoc|done].
  by apply IHl.
Qed.

(** A plain location resolves to itself. *)
Lemma resolve_self links create fs loc : plain fs loc →
  resolve links create fs [] (Normal <$> loc) = Some loc.
Proof.
  intros [Hb Hl].
  assert (H : ∀ done_ rest, loc = done_ ++ rest → resolve links create fs done_ (Normal <$> rest) = Some loc).
  { intros done_ rest. revert done_. induction rest as [|n rest IH]; intros done_ E.
    - rewrite app_nil_r in E. subst. by destruct links.
    - destruct rest as [|m rest].
      + destruct Hl as [Hl|[c Hl]]; rewrite E in Hl; destruct links; simpl; rewrite Hl; by rewrite E.
      + assert (Hd : lookup_node fs (done_ ++ [n]) = Some NDir).
        { apply (Hb _ m rest). by rewrite <-app_assoc. }
        specialize (IH (done_ ++ [n])). rewrite <-app_assoc in IH. specialize (IH E).
        destruct links; simpl in *; by rewrite Hd. }
  by apply H.
Qed.

(** No location on the way to [loc] is a symbolic link. *)
Definition link_free (fs : Disk) (loc : list string) : Prop :=
  ∀ pre, pre `prefix_of` loc → ∀ target, lookup_node fs pre ≠ Some (NLink target).

Lemma plain_link_free fs loc : plain fs loc → link_free fs loc.
Proof.
  intros [Hb Hl] pre [post ->] target Hp. destruct post as [|x post].
  - rewrite app_nil_r in *. naive_solver.
  - specialize (Hb pre x post eq_refl). congruence.
Qed.

Lemma link_free_prefix fs loc pre : pre `prefix_of` loc → link_free fs loc → link_free fs pre.
Proof. intros Hp H l Hl. apply H. by etrans. Qed.

(** Without links on the way, a location resolves to itself or not at all. *)
Lemma resolve_link_free links create fs loc r : link_free fs loc →
  resolve links create fs [] (Normal <$> loc) = Some r → r = loc.
Proof.
  intros Hf.
  assert (H : ∀ rest done_, loc = done_ ++ rest →
    resolve links create fs done_ (Normal <$> rest) = Some r → r = loc).
  { induction rest as [|n rest IH]; intros done_ E.
    - rewrite app_nil_r in E. destruct links; simpl; congruence.
    - assert (Hn : ∀ t, lookup_node fs (done_ ++ [n]) ≠ Some (NLink t)).
      { apply Hf. exists rest. by rewrite <-app_assoc. }
      specialize (IH (done_ ++ [n])). rewrite <-app_assoc in IH. specialize (IH E).
      assert (Hend : Normal <$> rest = [] → Some (done_ ++ [n]) = Some r → r = loc)
        by (destruct rest; [intros _ [= <-]; done|done]).
      destruct links; simpl in *;
        (destruct (lookup_node fs (done_ ++ [n])) as [[c| |t]|]; [| |by destruct (Hn t)|]);
        try (by apply IH);
        try (case_bool_decide; [by apply Hend|done]);
        (destruct create; simpl; [case_bool_decide; [by apply Hend|done]|done]). }
  by apply H.
Qed.

Lemma link_free_insert fs loc l n : link_free fs loc → (∀ t, n ≠ NLink t) → link_free (<[l := n]> fs) loc.
Proof.
  intros Hf Hn pre Hp t. specialize (Hf pre Hp t). destruct pre as [|x pre]; [done|]. simpl in *.
  destruct (decide (l = x :: pre)) as [->|Hne]; [rewrite lookup_insert_eq; naive_solver|].
  by rewrite lookup_insert_ne.
Qed.

Lemma removelast_to_path loc : loc ≠ [] → removelast (to_path loc) = to_path (removelast loc).
Proof.
  destruct loc as [|x loc _] using rev_ind; [done|]. intros _. unfold to_path.
  rewrite fmap_app, app_comm_cons. simpl fmap. by rewrite !removelast_last.
Qed.

Lemma last_to_path loc : last (to_path loc) = Some match last loc with Some n => Normal n | None => RootDir end.
Proof.
  unfold to_path. rewrite last_cons, fmap_last. by destruct (last loc).
Qed.

Lemma removelast_prefix {A} (l : list A) : removelast l `prefix_of` l.
Proof. destruct l as [|x l _] using rev_ind; [done|]. rewrite removelast_last. by apply prefix_app_r. Qed.

(** Where [create_dir] may write: the entry itself, which was free. *)
Lemma create_dir_frame cwd fs loc fs' : link_free fs loc → create_dir cwd fs (to_path loc) = Ok fs' →
  fs' = <[loc := NDir]> fs ∧ lookup_node fs loc = None ∧ loc ≠ [].
Proof.
  intros Hf. unfold create_dir, path_file_name. rewrite last_to_path.
  destruct loc as [|n loc _] using rev_ind; [by destruct (resolve _ _ _ _ _)|].
  rewrite last_snoc, removelast_to_path by (by destruct loc). rewrite removelast_last.
  destruct (resolve _ _ _ cwd (to_path loc)) as [dir|] eqn:Hr; [|done].
  assert (dir = loc) as ->.
  { eapply (resolve_link_free MAX_SYMLINKS false fs); [|exact Hr].
    eapply link_free_prefix; [|exact Hf]. by apply prefix_app_r. }
  case_bool_decide; [|done]. destruct (lookup_node fs (loc ++ [n])) eqn:Hl; [done|].
  intros [= <-]. split_and!; [done|done|by destruct loc].
Qed.

(** [create_dir_all] only adds directories, on the way to its path. *)
Lemma create_dir_all_frame cwd fuel : ∀ fs loc made fs', link_free fs loc →
  create_dir_all_fuel cwd fuel fs (to_path loc) = (made, fs') →
  link_free fs' loc ∧ ∀ l, fs' !! l ≠ fs !! l → l `prefix_of` loc ∧ lookup_node fs l = None.
Proof.
  induction fuel as [|fuel IH]; intros fs loc made fs' Hf.
  all: assert (Hstep : ∀ fs fs', link_free fs loc → create_dir cwd fs (to_path loc) = Ok fs' →
    link_free fs' loc ∧ ∀ l, fs' !! l ≠ fs !! l → l `prefix_of` loc ∧ lookup_node fs l = None)
    by (intros ? ? Hf' (-> & Hn & Hne)%create_dir_frame; [|done];
        split; [by apply link_free_insert|]; intros l Hl; destruct (decide (l = loc)) as [->|];
        [done|by rewrite lookup_insert_ne in Hl]).
  all: cbn [create_dir_all_fuel to_path]; fold (to_path loc).
  all: destruct (create_dir cwd fs (to_path loc)) as [fs1|[|]] eqn:Hc;
    [intros [= _ <-]; by apply Hstep| |intros [= _ <-]; by split].
  { intros [= _ <-]. by split. }
  unfold parent. rewrite last_to_path. destruct loc as [|n loc _] using rev_ind; [intros [= _ <-]; by split|].
  rewrite last_snoc, removelast_to_path, removelast_last by (by destruct loc).
  destruct (create_dir_all_fuel cwd fuel fs (to_path loc)) as [made1 fs1] eqn:Hrec.
  assert (Hpre : loc `prefix_of` loc ++ [n]) by (by apply prefix_app_r).
  apply IH in Hrec as [Hf1 Hch1]; [|by eapply link_free_prefix].
  assert (Hf1' : link_free fs1 (loc ++ [n])).
  { intros pre Hp t Hl. apply (Hf pre Hp t). destruct (decide (fs1 !! pre = fs !! pre)) as [E|Hne].
    - unfold lookup_node in *. destruct pre; congruence.
    - apply Hch1 in Hne as [Hpl _]. by destruct (Hf1 pre Hpl t). }
  assert (Hw1 : ∀ l, fs1 !! l ≠ fs !! l → l `prefix_of` loc ++ [n] ∧ lookup_node fs l = None).
  { intros l [? ?]%Hch1. split; [by etrans|done]. }
  destruct made1; [|intros [= _ <-]; by split].
  destruct (create_dir cwd fs1 (to_path (loc ++ [n]))) as [fs2|e2] eqn:Hc2; [|intros [= _ <-]; by split].
  - intros [= _ <-]. apply Hstep in Hc2 as [Hf2 Hch2]; [|done]. split; [done|]. intros l Hl.
    destruct (decide (fs1 !! l = fs !! l)) as [E|Hne]; [|by apply Hw1].
    destruct (Hch2 l) as [Hp Hn]; [congruence|]. split; [done|].
    unfold lookup_node in *. destruct l; congruence.
Qed.
