(* ===== verification/FileTool.v ===== *)
(** * FileTool: the file tools and their sandbox (app/src/tools/file.rs)

    [file.read], [file.write] and [file.edit] on the disk of Paths.v, and the
    resolution that confines them to the configured root. The text of an
    operating-system error is the argument [os_error]. *)
From S2P Require Import Prelude RustStr Contracts Json ToolRuntimeConfig Fs Paths Errors Policy Kernel ToolCatalog.
From S2P Require Import ToolNames.

Section file.
  Context (cwd : list string) (os_error : Path → string).

(** ** Path resolution *)

Definition ensure_path_within_root (root path : Path) : result string unit :=
  if path_starts_with path root then Ok ()
  else Err ("policy_denied: file path " +:+ path_display path +:+ " escapes configured file root "
            +:+ path_display root).

Definition canonicalize_or_fallback (fs : Disk) (path : Path) : result string Path :=
  if path_exists cwd fs path then
    match canonicalize cwd fs path with
    | Some p => Ok p
    | None => Err ("failed to canonicalize " +:+ path_display path +:+ ": " +:+ os_error path)
    end
  else Ok (normalize_without_fs path).

(** The loop of [split_existing_ancestor]; [suffix] holds the names below the
    cursor, outermost first. *)
Fixpoint split_existing_ancestor_loop (fuel : nat) (fs : Disk) (path cursor : Path) (suffix : list string) :
    result string (Path * list string) :=
  let stuck := Err ("cannot resolve existing ancestor for " +:+ path_display path) in
  if path_exists cwd fs cursor then Ok (cursor, suffix)
  else
    match fuel, path_file_name cursor, parent cursor with
    | S fuel, Some name, Some parent_path =>
        split_existing_ancestor_loop fuel fs path parent_path (name :: suffix)
    | _, _, _ => stuck
    end.

Definition split_existing_ancestor (fs : Disk) (path : Path) : result string (Path * list string) :=
  split_existing_ancestor_loop (length path) fs path path [].

Definition resolve_path_within_root (fs : Disk) (root normalized : Path) : result string Path :=
  _ ← ensure_path_within_root root normalized;
  if path_exists cwd fs normalized then
    canonical ←
      ok_or (canonicalize cwd fs normalized)
        ("failed to canonicalize target file path " +:+ path_display normalized +:+ ": " +:+ os_error normalized);
    _ ← ensure_path_within_root root canonical;
    Ok canonical
  else
    '(ancestor, suffix) ← split_existing_ancestor fs normalized;
    canonical_ancestor ←
      ok_or (canonicalize cwd fs ancestor)
        ("failed to canonicalize ancestor " +:+ path_display ancestor +:+ ": " +:+ os_error ancestor);
    _ ← ensure_path_within_root root canonical_ancestor;
    let reconstructed := foldl path_push canonical_ancestor suffix in
    _ ← ensure_path_within_root root reconstructed;
    Ok reconstructed.

(** The root a configuration names; the working directory by default. *)
Definition configured_root (config : ToolRuntimeConfig) : Path :=
  match rt_file_root config with Some root => components root | None => to_path cwd end.

Definition resolve_safe_file_path_with_config (fs : Disk) (raw : string) (config : ToolRuntimeConfig) :
    result string Path :=
  root ← canonicalize_or_fallback fs (configured_root config);
  let candidate := components raw in
  let combined := if is_absolute candidate then candidate else path_join root candidate in
  resolve_path_within_root fs root (normalize_without_fs combined).

(** ** The tools *)

(** [.map(str::trim).filter(|value| !value.is_empty()).ok_or_else(..)] *)
Definition required_path (payload : list (string * Value)) (error : string) : result string string :=
  match trim <$> (obj_get "path" payload ≫= json_as_str) with
  | Some p => if is_empty p then Err error else Ok p
  | None => Err error
  end.

Definition execute_file_read_tool_with_config (request : ToolCoreRequest) (config : ToolRuntimeConfig)
    (fs : Disk) : result string ToolCoreOutcome :=
  payload ← ok_or (json_as_object (tcr_payload request)) "file.read payload must be an object";
  target ← required_path payload "file.read requires payload.path";
  let max_bytes := Z.min (default 1048576%Z (obj_get "max_bytes" payload ≫= json_as_u64)) (8 * 1048576) in
  resolved ← resolve_safe_file_path_with_config fs target config;
  if is_dir cwd fs resolved then
    Err ("path '" +:+ path_display resolved +:+ "' is a directory, not a file")
  else
    bytes ← ok_or (fs_read cwd fs resolved)
              ("failed to read file " +:+ path_display resolved +:+ ": " +:+ os_error resolved);
    let len := Z.of_nat (String.length bytes) in
    let clipped := (max_bytes <? len)%Z in
    let content_slice := if clipped then String.substring 0 (Z.to_nat max_bytes) bytes else bytes in
    Ok (mkToolCoreOutcome "ok"
          (json_object [
             ("adapter", JString "core-tools");
             ("tool_name", JString (tcr_tool_name request));
             ("path", JString (path_display resolved));
             ("bytes", json_uint len);
             ("truncated", JBool clipped);
             ("content", JString (from_utf8_lossy content_slice))])).

Definition execute_file_write_tool_with_config (request : ToolCoreRequest) (config : ToolRuntimeConfig) :
    ST Disk string ToolCoreOutcome := λ fs,
  let plan : result string (string * bool * Path) :=
    payload ← ok_or (json_as_object (tcr_payload request)) "file.write payload must be an object";
    target ← required_path payload "file.write requires payload.path";
    content ← ok_or (obj_get "content" payload ≫= json_as_str) "file.write requires payload.content";
    let create_dirs := default true (obj_get "create_dirs" payload ≫= json_as_bool) in
    resolved ← resolve_safe_file_path_with_config fs target config;
    Ok (content, create_dirs, resolved) in
  match plan with
  | Err e => (Err e, fs)
  | Ok (content, create_dirs, resolved) =>
      let '(made, fs1) :=
        if create_dirs then
          match parent resolved with
          | Some parent_path =>
              let '(made, fs1) := create_dir_all cwd fs parent_path in
              (if made then Ok ()
               else Err ("failed to create parent directory " +:+ path_display parent_path +:+ ": "
                         +:+ os_error parent_path), fs1)
          | None => (Ok (), fs)
          end
        else (Ok (), fs) in
      match made with
      | Err e => (Err e, fs1)
      | Ok _ =>
          match fs_write cwd fs1 resolved content with
          | None => (Err ("failed to write file " +:+ path_display resolved +:+ ": " +:+ os_error resolved), fs1)
          | Some fs2 =>
              (Ok (mkToolCoreOutcome "ok"
                     (json_object [
                        ("adapter", JString "core-tools");
                        ("tool_name", JString (tcr_tool_name request));
                        ("path", JString (path_display resolved));
                        ("bytes_written", json_uint (Z.of_nat (String.length content)))])), fs2)
          end
      end
  end.

(** The new text of an edited file, and how often the old text was replaced. *)
Definition edit_content (content old_string new_string : string) (replace_all : bool) :
    result string (string * nat) :=
  let match_count := count_matches old_string content in
  if bool_decide (match_count = 0) then Err "edit_failed: old_string not found in file"
  else if bool_decide (1 < match_count) && negb replace_all then
    Err ("edit_failed: old_string matches " +:+ display (Z.of_nat match_count)
         +:+ " locations; set replace_all:true to replace all occurrences")
  else if replace_all then Ok (replace_str old_string new_string content, match_count)
  else Ok (replace_first old_string new_string content, 1).

Definition execute_file_edit_tool_with_config (request : ToolCoreRequest) (config : ToolRuntimeConfig) :
    ST Disk string ToolCoreOutcome := λ fs,
  let plan : result string (Path * string * nat) :=
    payload ← ok_or (json_as_object (tcr_payload request)) "file.edit payload must be an object";
    path ← required_path payload "file.edit requires payload.path (string)";
    old_string ← ok_or (obj_get "old_string" payload ≫= json_as_str)
                   "file.edit requires payload.old_string (string)";
    new_string ← ok_or (obj_get "new_string" payload ≫= json_as_str)
                   "file.edit requires payload.new_string (string)";
    let replace_all := default false (obj_get "replace_all" payload ≫= json_as_bool) in
    if is_empty old_string then Err "edit_failed: old_string must not be empty"
    else
      resolved ← resolve_safe_file_path_with_config fs path config;
      content ← ok_or (content ← fs_read cwd fs resolved; if utf8_valid content then Some content else None)
                  ("failed to read " +:+ path_display resolved +:+ ": " +:+ os_error resolved);
      '(updated, replacements_made) ← edit_content content old_string new_string replace_all;
      Ok (resolved, updated, replacements_made) in
  match plan with
  | Err e => (Err e, fs)
  | Ok (resolved, updated, replacements_made) =>
      match fs_write cwd fs resolved updated with
      | None => (Err ("failed to write " +:+ path_display resolved +:+ ": " +:+ os_error resolved), fs)
      | Some fs' =>
          (Ok (mkToolCoreOutcome "ok"
                 (json_object [
                    ("adapter", JString "core-tools");
                    ("tool_name", JString (tcr_tool_name request));
                    ("path", JString (path_display resolved));
                    ("replacements_made", json_uint (Z.of_nat replacements_made));
                    ("bytes_written", json_uint (Z.of_nat (String.length updated)))])), fs')
      end
  end.
End file.

(** ** Lemmas *)

#[local] Arguments obj_get : simpl never.

Lemma ensure_within_Ok root path : ensure_path_within_root root path = Ok () ↔ path_starts_with path root = true.
Proof. unfold ensure_path_within_root. by destruct (path_starts_with path root). Qed.

Lemma push_to_path loc names : foldl path_push (to_path loc) names = to_path (loc ++ names).
Proof.
  revert loc. induction names as [|n names IH]; intros loc; simpl; [by rewrite app_nil_r|].
  assert (E : path_push (to_path loc) n = to_path (loc ++ [n])) by (unfold path_push, to_path; by rewrite fmap_app).
  rewrite E, IH. by rewrite <-app_assoc.
Qed.

Lemma starts_with_app root loc names : path_starts_with (to_path loc) root = true →
  path_starts_with (to_path (loc ++ names)) root = true.
Proof.
  unfold path_starts_with. rewrite !bool_decide_eq_true. intros H. etrans; [exact H|].
  unfold to_path. rewrite fmap_app, app_comm_cons. by apply prefix_app_r.
Qed.

#[local] Instance Normal_inj : Inj (=) (=) Normal.
Proof. by intros ? ? [= ->]. Qed.

Lemma to_path_inj a b : to_path a = to_path b → a = b.
Proof. intros [= H]. by apply list_fmap_eq_inj in H; [|apply _]. Qed.

Section file_props.
  Context (cwd : list string) (os_error : Path → string).

Lemma canonicalize_plain fs p q : is_directory fs cwd → canonicalize cwd fs p = Some q →
  ∃ loc, q = to_path loc ∧ plain fs loc.
Proof.
  intros Hcwd. unfold canonicalize. destruct (resolve _ _ _ _ p) as [loc|] eqn:Hr; [|done].
  intros [= <-]. exists loc. split; [done|]. by eapply resolve_plain.
Qed.

(** A resolved path starts at an existing place inside the root, reached
    without links, and goes on with the names that do not exist yet. *)
Lemma resolve_safe_Ok fs raw config p : is_directory fs cwd →
  resolve_safe_file_path_with_config cwd os_error fs raw config = Ok p →
  ∃ root anchor names, canonicalize_or_fallback cwd os_error fs (configured_root cwd config) = Ok root ∧
    p = to_path (anchor ++ names) ∧ plain fs anchor ∧ path_starts_with (to_path anchor) root = true.
Proof.
  intros Hcwd H. unfold resolve_safe_file_path_with_config in H. apply bind_Ok in H as (root & Hroot & H).
  unfold resolve_path_within_root in H. apply bind_Ok in H as ([] & _ & H). destruct (path_exists _ _ _).
  - apply bind_Ok in H as (q & Hq & H). apply ok_or_Ok in Hq.
    apply bind_Ok in H as ([] & Hin & [= <-]). apply ensure_within_Ok in Hin.
    apply canonicalize_plain in Hq as (loc & -> & Hp); [|done].
    exists root, loc, []. by rewrite app_nil_r.
  - apply bind_Ok in H as ([ancestor suffix] & _ & H). apply bind_Ok in H as (q & Hq & H).
    apply ok_or_Ok in Hq. apply bind_Ok in H as ([] & Hin & H). apply ensure_within_Ok in Hin.
    apply bind_Ok in H as ([] & _ & [= <-]).
    apply canonicalize_plain in Hq as (loc & -> & Hp); [|done].
    exists root, loc, suffix. by rewrite push_to_path.
Qed.

End file_props.

Section file_ops.
  Context (cwd : list string).

(** On a path without links, opening for reading or writing acts on the very
    location. *)
Lemma fs_read_link_free fs loc content : link_free fs loc → fs_read cwd fs (to_path loc) = Some content →
  lookup_node fs loc = Some (NFile content).
Proof.
  intros Hf. unfold fs_read. destruct (resolve _ _ _ _ (to_path loc)) as [r|] eqn:Hr; [|done].
  apply (resolve_link_free MAX_SYMLINKS false fs loc r) in Hr as ->; [|done]. simpl.
  destruct (lookup_node fs loc) as [[| |]|]; naive_solver.
Qed.

Lemma fs_write_link_free fs loc content fs' : link_free fs loc → fs_write cwd fs (to_path loc) content = Some fs' →
  fs' = <[loc := NFile content]> fs.
Proof.
  intros Hf. unfold fs_write. destruct (resolve _ _ _ _ (to_path loc)) as [r|] eqn:Hr; [|done].
  apply (resolve_link_free MAX_SYMLINKS true fs loc r) in Hr as ->; [|done]. simpl.
  destruct (lookup_node fs loc) as [[| |]|]; naive_solver.
Qed.

Lemma write_changes fs loc content fs' l : link_free fs loc → fs_write cwd fs (to_path loc) content = Some fs' →
  fs' !! l ≠ fs !! l → l = loc.
Proof.
  intros Hf ->%fs_write_link_free Hl; [|done]. destruct (decide (l = loc)) as [->|Hne]; [done|].
  by rewrite lookup_insert_ne in Hl.
Qed.

(** A free place on the way to [anchor ++ names] lies below [anchor]. *)
Lemma free_prefix_below fs anchor names l : plain fs anchor → l `prefix_of` anchor ++ names →
  lookup_node fs l = None → ∃ more, l = anchor ++ more.
Proof.
  intros [Hb Ha] Hl Hn.
  destruct (prefix_weak_total l anchor (anchor ++ names)) as [[post ->]|[more ->]];
    [done|by apply prefix_app_r| |by exists more].
  destruct post as [|x post]; [exists []; by rewrite !app_nil_r in *|].
  specialize (Hb l x post eq_refl). congruence.
Qed.

Lemma parent_to_path loc q : parent (to_path loc) = Some q → q = to_path (removelast loc) ∧ loc ≠ [].
Proof.
  unfold parent. rewrite last_to_path. destruct loc as [|x loc _] using rev_ind; [done|].
  rewrite last_snoc. intros [= <-]. split; [|by destruct loc]. apply removelast_to_path. by destruct loc.
Qed.
End file_ops.

Inductive FileToolKind := FileRead | FileWrite | FileEdit.

(** A run of one of the three tools. *)
Definition run_file_tool (cwd : list string) (os_error : Path → string) (tool : FileToolKind)
    (request : ToolCoreRequest) (config : ToolRuntimeConfig) : ST Disk string ToolCoreOutcome :=
  match tool with
  | FileRead => λ fs, (execute_file_read_tool_with_config cwd os_error request config fs, fs)
  | FileWrite => execute_file_write_tool_with_config cwd os_error request config
  | FileEdit => execute_file_edit_tool_with_config cwd os_error request config
  end.

Lemma required_path_Ok payload e target :
  required_path payload e = Ok target ↔
  trim <$> (obj_get "path" payload ≫= json_as_str) = Some target ∧ is_empty target = false.
Proof.
  unfold required_path. destruct (trim <$> _) as [p|]; [|split; [done|by intros [? _]]].
  destruct (is_empty p) eqn:E; (split; [try done; by intros [= <-]|]); intros [[= ->] ?]; congruence.
Qed.

Section confined.
  Context (cwd : list string) (os_error : Path → string) (config : ToolRuntimeConfig) (fs : Disk).
  Context (root : Path) (payload : list (string * Value)) (target : string) (loc : list string).
  Hypothesis Hcwd : is_directory fs cwd.
  Hypothesis Htarget : trim <$> (obj_get "path" payload ≫= json_as_str) = Some target.
  Hypothesis Hroot : canonicalize_or_fallback cwd os_error fs (configured_root cwd config) = Ok root.
  Hypothesis Hloc : resolve_safe_file_path_with_config cwd os_error fs target config = Ok (to_path loc).
  Hypothesis Hfree : link_free fs loc.

Lemma confined_place : ∃ anchor names, loc = anchor ++ names ∧ plain fs anchor ∧
  path_starts_with (to_path anchor) root = true.
Proof.
  destruct (resolve_safe_Ok cwd os_error fs target config _ Hcwd Hloc) as (root' & a & n & Hr & E & Hp & Hs).
  rewrite Hroot in Hr. injection Hr as <-. apply to_path_inj in E. eauto.
Qed.

Lemma loc_inside : path_starts_with (to_path loc) root = true.
Proof. destruct confined_place as (a & n & -> & _ & Hs). by apply starts_with_app. Qed.

Lemma edit_confined request r fs' l : tcr_payload request = JObject payload →
  execute_file_edit_tool_with_config cwd os_error request config fs = (r, fs') →
  fs' !! l ≠ fs !! l → path_starts_with (to_path l) root = true.
Proof.
  intros Hp. unfold execute_file_edit_tool_with_config. rewrite Hp. cbn [json_as_object].
  match goal with |- context [match ?plan with Ok _ => _ | Err _ => _ end] => destruct plan as [[[resolved u] n]|e] eqn:Hplan end;
    [|by intros [= _ <-]].
  assert (resolved = to_path loc) as ->.
  { apply bind_Ok in Hplan as (? & [= <-] & Hplan). apply bind_Ok in Hplan as (t & Ht & Hplan).
    apply required_path_Ok in Ht as [Ht _]. rewrite Htarget in Ht. injection Ht as <-.
    apply bind_Ok in Hplan as (? & _ & Hplan). apply bind_Ok in Hplan as (? & _ & Hplan).
    destruct (is_empty _); [done|]. apply bind_Ok in Hplan as (p & Hres & Hplan). rewrite Hloc in Hres.
    injection Hres as <-. apply bind_Ok in Hplan as (? & _ & Hplan).
    apply bind_Ok in Hplan as ([? ?] & _ & [= <- _ _]). done. }
  destruct (fs_write _ _ _ _) as [fs2|] eqn:Hw; [|by intros [= _ <-]].
  intros [= _ <-] Hl. assert (l = loc) as -> by (eapply write_changes; eauto). apply loc_inside.
Qed.

Lemma write_confined request r fs' l : tcr_payload request = JObject payload →
  execute_file_write_tool_with_config cwd os_error request config fs = (r, fs') →
  fs' !! l ≠ fs !! l → path_starts_with (to_path l) root = true.
Proof.
  intros Hp. unfold execute_file_write_tool_with_config. rewrite Hp. cbn [json_as_object].
  match goal with |- context [match ?plan with Ok _ => _ | Err _ => _ end] => destruct plan as [[[content cd] resolved]|e] eqn:Hplan end;
    [|by intros [= _ <-]].
  assert (resolved = to_path loc) as ->.
  { apply bind_Ok in Hplan as (? & [= <-] & Hplan). apply bind_Ok in Hplan as (t & Ht & Hplan).
    apply required_path_Ok in Ht as [Ht _]. rewrite Htarget in Ht. injection Ht as <-.
    apply bind_Ok in Hplan as (? & _ & Hplan). apply bind_Ok in Hplan as (p & Hres & [= _ _ <-]). congruence. }
  set (step := if cd then _ else _).
  assert (Hstep : link_free step.2 loc ∧ ∀ l, step.2 !! l ≠ fs !! l → l `prefix_of` loc ∧ lookup_node fs l = None).
  { unfold step. destruct cd; [|by split]. destruct (parent (to_path loc)) as [q|] eqn:Hq; [|by split].
    apply parent_to_path in Hq as [-> Hne]. unfold create_dir_all.
    destruct (create_dir_all_fuel _ _ _ _) as [made fs1] eqn:Hc. simpl.
    apply create_dir_all_frame in Hc as [Hf1 Hch];
      [|eapply link_free_prefix; [apply removelast_prefix|exact Hfree]].
    split; [|intros l' [? ?]%Hch; split; [|done]; etrans; [done|apply removelast_prefix]].
    intros pre Hpre t Ht. destruct (decide (fs1 !! pre = fs !! pre)) as [E|Hch'].
    - apply (Hfree pre Hpre t). unfold lookup_node in *. destruct pre; congruence.
    - apply Hch in Hch' as [Hpl _]. by destruct (Hf1 pre Hpl t). }
  destruct step as [made fs1]. simpl in Hstep. destruct Hstep as [Hf1 Hch].
  assert (Hmade : ∀ l, fs1 !! l ≠ fs !! l → path_starts_with (to_path l) root = true).
  { intros l' [Hpre Hn]%Hch. destruct confined_place as (a & n & -> & Ha & Hs).
    destruct (free_prefix_below fs a n l' Ha Hpre Hn) as [more ->]. by apply starts_with_app. }
  destruct made as [[]|e]; [|by intros [= _ <-]; apply Hmade].
  destruct (fs_write _ _ _ _) as [fs2|] eqn:Hw; [|by intros [= _ <-]; apply Hmade].
  intros [= _ <-] Hl. destruct (decide (fs1 !! l = fs !! l)) as [E|Hne]; [|by apply Hmade].
  assert (l = loc) as -> by (eapply (write_changes cwd fs1); [exact Hf1|exact Hw|congruence]). apply loc_inside.
Qed.
End confined.

(** C21. The file tools change nothing outside the configured root: whatever a
    tool answers, every location of the disk that differs afterwards lies under
    the resolved root, provided no component of the path it resolved is itself a
    symbolic link (links that do resolve were already replaced by their
    targets, and checked). *)
Theorem file_changes_stay_inside_root cwd os_error tool request config fs r fs' root payload target loc l :
  is_directory fs cwd →
  tcr_payload request = JObject payload → trim <$> (obj_get "path" payload ≫= json_as_str) = Some target →
  canonicalize_or_fallback cwd os_error fs (configured_root cwd config) = Ok root →
  resolve_safe_file_path_with_config cwd os_error fs target config = Ok (to_path loc) → link_free fs loc →
  run_file_tool cwd os_error tool request config fs = (r, fs') →
  fs' !! l ≠ fs !! l → path_starts_with (to_path l) root = true.
Proof.
  intros Hcwd Hp Ht Hr Hl Hf Hrun. destruct tool; simpl in Hrun.
  - by injection Hrun as _ <-.
  - by eapply write_confined.
  - by eapply edit_confined.
Qed.

(** What [file.read] returns is the beginning of a file inside the root: the
    path it reports is a location under the root, and, unless that path still
    contains a symbolic link, its content is the first [max_bytes] (at most
    8 MiB) of the file there, with the full size and whether it was cut. *)
Theorem file_read_returns_a_file_inside_root cwd os_error request config fs out :
  is_directory fs cwd →
  execute_file_read_tool_with_config cwd os_error request config fs = Ok out →
  ∃ root loc, canonicalize_or_fallback cwd os_error fs (configured_root cwd config) = Ok root ∧
    path_starts_with (to_path loc) root = true ∧
    json_get_str "path" (tco_payload out) = Some (path_display (to_path loc)) ∧
    (link_free fs loc → ∃ content n, lookup_node fs loc = Some (NFile content) ∧ (n ≤ 8 * 1048576)%Z ∧
      json_get_u64 "bytes" (tco_payload out) = Some (Z.of_nat (String.length content)) ∧
      json_get "truncated" (tco_payload out) = Some (JBool (n <? Z.of_nat (String.length content))%Z) ∧
      json_get_str "content" (tco_payload out)
      = Some (from_utf8_lossy
               (if (n <? Z.of_nat (String.length content))%Z then String.substring 0 (Z.to_nat n) content
                else content))).
Proof.
  intros Hcwd H. unfold execute_file_read_tool_with_config in H.
  apply bind_Ok in H as (payload & _ & H). apply bind_Ok in H as (target & _ & H).
  apply bind_Ok in H as (p & Hres & H). destruct (is_dir cwd fs p); [done|].
  apply bind_Ok in H as (bytes & Hb & [= <-]). apply ok_or_Ok in Hb.
  apply resolve_safe_Ok in Hres as (root & a & names & Hroot & -> & Ha & Hs); [|done].
  exists root, (a ++ names). split_and!; [done|by apply starts_with_app|done|]. intros Hf.
  apply fs_read_link_free in Hb; [|done]. exists bytes, (Z.min (default 1048576%Z (obj_get "max_bytes" payload ≫= json_as_u64)) (8 * 1048576)).
  split_and!; [done|lia|done..].
Qed.

(** A dangling link is not followed when the path is checked, but it is when the
    file is written: inside the root [/box] there is a link [out] to a file that
    does not exist yet, and [file.write] creates that file outside the root. *)
Definition boxed_config : ToolRuntimeConfig :=
  {| rt_file_root := Some "/box"; rt_shell_allow := ∅; rt_shell_deny := ∅;
     rt_shell_default_mode := ShellDefault_Deny; rt_config_path := None; rt_sessions_enabled := true;
     rt_messages_enabled := false; rt_delegate_enabled := true; rt_browser := BrowserRuntimePolicy_default;
     rt_browser_companion := BrowserCompanionRuntimePolicy_default;
     rt_web_fetch := WebFetchRuntimePolicy_default; rt_web_search := WebSearchRuntimePolicy_default;
     rt_external_skills := ExternalSkillsRuntimePolicy_default; rt_feishu := false |}.
Definition boxed_disk : Disk :=
  {[ ["box"] := NDir; ["etc"] := NDir; ["box"; "a.txt"] := NFile "hello";
     ["box"; "out"] := NLink (components "/etc/cron") ]}.
Definition write_request (path content : string) : ToolCoreRequest :=
  mkToolCoreRequest "file.write" (JObject [("content", JString content); ("path", JString path)]).

Theorem write_through_dangling_link_escapes :
  let '(r, disk) := run_file_tool [] (λ _, "os") FileWrite (write_request "out" "evil") boxed_config boxed_disk in
  r = Ok (mkToolCoreOutcome "ok"
        (json_object [("adapter", JString "core-tools"); ("tool_name", JString "file.write");
                      ("path", JString "/box/out"); ("bytes_written", json_uint 4)])) ∧
  boxed_disk !! ["etc"; "cron"] = None ∧ disk !! ["etc"; "cron"] = Some (NFile "evil").
Proof. vm_compute. done. Qed.

Module FileToolDemo.
Definition read_request : ToolCoreRequest :=
  mkToolCoreRequest "file.read" (JObject [("max_bytes", JNumber (PosInt 3)); ("path", JString "x/../a.txt")]).
Definition new_file : Disk :=
  (run_file_tool [] (λ _, "os") FileWrite (write_request "d/new" "hi") boxed_config boxed_disk).2.

Lemma boxed_cwd : is_directory boxed_disk [].
Proof. apply is_directory_root. Qed.

Lemma new_link_free : link_free boxed_disk ["box"; "d"; "new"].
Proof.
  intros pre Hp target.
  assert (Hin : pre ∈ [[]; ["box"]; ["box"; "d"]; ["box"; "d"; "new"]]).
  { destruct Hp as [post E]. destruct pre as [|a [|b [|c [|]]]]; simplify_eq/=; set_solver. }
  repeat (apply elem_of_cons in Hin as [->|Hin]; [by vm_compute|]). by apply not_elem_of_nil in Hin.
Qed.

Lemma changes_witness :
  new_file !! ["box"; "d"] = Some NDir ∧ path_starts_with (to_path ["box"; "d"]) (components "/box") = true.
Proof.
  split; [vm_compute; reflexivity|].
  apply (file_changes_stay_inside_root [] (λ _, "os") FileWrite (write_request "d/new" "hi") boxed_config boxed_disk
    (run_file_tool [] (λ _, "os") FileWrite (write_request "d/new" "hi") boxed_config boxed_disk).1 new_file
    (components "/box") [("content", JString "hi"); ("path", JString "d/new")] "d/new" ["box"; "d"; "new"]).
  - exact boxed_cwd.
  - reflexivity.
  - vm_compute. reflexivity.
  - vm_compute. reflexivity.
  - vm_compute. reflexivity.
  - exact new_link_free.
  - apply surjective_pairing.
  - vm_compute. discriminate.
Defined.

Lemma read_witness :
  ∃ out loc, execute_file_read_tool_with_config [] (λ _, "os") read_request boxed_config boxed_disk = Ok out ∧
    json_get_str "content" (tco_payload out) = Some "hel" ∧
    path_starts_with (to_path loc) (components "/box") = true.
Proof.
  destruct (execute_file_read_tool_with_config [] (λ _, "os") read_request boxed_config boxed_disk)
    as [out|e] eqn:Hr; [|vm_compute in Hr; discriminate].
  destruct (file_read_returns_a_file_inside_root [] (λ _, "os") read_request boxed_config boxed_disk out boxed_cwd Hr)
    as (root & loc & Hroot & Hs & _).
  exists out, loc. split; [reflexivity|]. vm_compute in Hr. injection Hr as <-. split; [reflexivity|].
  vm_compute in Hroot. injection Hroot as <-. exact Hs.
Defined.
End FileToolDemo.

(** * The policy extension of the file tools
    (app/src/tools/file_policy_ext.rs)

    The extension checks the capability a file tool needs and that its path does
    not leave the configured root, on the disk as it is when the kernel asks. *)

Section file_policy.
  Context (cwd : list string).

(** The root is kept as given and in canonical form. *)
Record FilePolicyExtension := mkFilePolicyExtension {
  fp_file_root : option string;
  fp_canon_root : option Path;
}.

(** [FilePolicyExtension::new] *)
Definition FilePolicyExtension_new (fs : Disk) (file_root : option string) : FilePolicyExtension :=
  mkFilePolicyExtension file_root (file_root ≫= λ r, canonicalize cwd fs (components r)).

Definition required_capability (tool_name : string) : option Capability :=
  if bool_decide (tool_name ∈ ["file.read"; "claw.migrate"]) then Some FilesystemRead
  else if bool_decide (tool_name ∈ ["file.write"; "file.edit"]) then Some FilesystemWrite
  else None.

Definition path_escapes_root (self : FilePolicyExtension) (fs : Disk) (raw_path : string) : bool :=
  match fp_file_root self with
  | None => false
  | Some root_text =>
      let root := components root_text in
      let candidate := components raw_path in
      let combined := if is_absolute candidate then candidate else path_join root candidate in
      let effective_root := default root (fp_canon_root self) in
      match canonicalize cwd fs combined with
      | Some canon => negb (path_starts_with canon effective_root)
      | None =>
          if is_symlink cwd fs combined then
            match read_link cwd fs combined with
            | Some target =>
                let resolved :=
                  if is_absolute target then target else path_join (default root (parent combined)) target in
                negb (path_starts_with (normalize_without_fs resolved) effective_root)
            | None => true
            end
          else
            let lexical := negb (path_starts_with (normalize_without_fs combined) effective_root) in
            match parent combined, path_file_name combined with
            | Some parent_path, Some name =>
                match canonicalize cwd fs parent_path with
                | Some canon_parent => negb (path_starts_with (path_push canon_parent name) effective_root)
                | None => lexical
                end
            | _, _ => lexical
            end
      end
  end.

Definition FilePolicyExtension_decide (self : FilePolicyExtension) (fs : Disk)
    (context : PolicyExtensionContext) : result PolicyError unit :=
  match px_request_parameters context with
  | None => Ok ()
  | Some params =>
      let tool_name := canonical_tool_name (default "" (json_get_str "tool_name" params)) in
      match required_capability tool_name with
      | None => Ok ()
      | Some required_cap =>
          if negb (bool_decide (required_cap ∈ tok_allowed_capabilities (px_token context))) then
            Err (ExtensionDenied "file-policy"
                   ("tool `" +:+ tool_name +:+ "` requires capability `" +:+ debug_Capability required_cap
                    +:+ "` not granted to token"))
          else
            match fp_file_root self with
            | None => Ok ()
            | Some root =>
                let path_key := if bool_decide (tool_name = "claw.migrate") then "input_path" else "path" in
                let raw_path := default "" (json_get "payload" params ≫= json_get_str path_key) in
                if negb (is_empty raw_path) && path_escapes_root self fs raw_path then
                  Err (ExtensionDenied "file-policy"
                         ("path `" +:+ raw_path +:+ "` escapes file root `" +:+ root +:+ "`"))
                else Ok ()
            end
      end
  end.

(** The disk is read from the environment. *)
Definition file_policy_extension {W} (disk : W → Disk) (self : FilePolicyExtension) : PolicyExtension W :=
  {| px_name := "file-policy";
     px_authorize_extension context w := (FilePolicyExtension_decide self (disk w) context, w) |}.
End file_policy.

#[local] Arguments canonical_tool_name : simpl never.

(** A [tool.invoke] is never examined, whatever tool and path it carries. *)
Theorem file_policy_ignores_tool_invoke cwd self fs context payload name :
  px_request_parameters context = Some (tool_policy_params name payload) →
  canonical_tool_name name = "tool.invoke" →
  FilePolicyExtension_decide cwd self fs context = Ok ().
Proof.
  intros Hp Hn. unfold FilePolicyExtension_decide. rewrite Hp.
  change (json_get_str "tool_name" (tool_policy_params name payload)) with (Some name). cbn [default from_option id].
  rewrite Hn. done.
Qed.

(** The tools whose paths the extension guards, and [claw.migrate], are
    discoverable: a provider reaches them only through [tool.invoke]. *)
Theorem guarded_tools_arrive_as_tool_invoke name cap :
  required_capability name = Some cap →
  is_provider_exposed_tool_name name = false ∧ is_Some (resolve_tool_execution name).
Proof.
  assert (Hall : Forall (λ n, is_provider_exposed_tool_name n = false ∧ is_Some (resolve_tool_execution n))
    ["file.read"; "claw.migrate"; "file.write"; "file.edit"]).
  { apply (bool_decide_unpack _). vm_compute. done. }
  intros Hc. apply (proj1 (Forall_forall _ _) Hall). unfold required_capability in Hc.
  do 2 (case_bool_decide; [set_solver|]). done.
Qed.

Module FilePolicyDemo.
Definition extension : FilePolicyExtension := FilePolicyExtension_new [] boxed_disk (Some "/box").
Definition context (name : string) (payload : Value) : PolicyExtensionContext :=
  mkPolicyExtensionContext
    {| pk_pack_id := "app"; pk_domain := "app"; pk_version := "1.0.0";
       pk_default_route := mkExecutionRoute EmbeddedPi None; pk_allowed_connectors := ∅;
       pk_granted_capabilities := {[InvokeTool; FilesystemWrite]}; pk_metadata := ∅ |}
    (mkCapabilityToken "t1" "app" "a" {[InvokeTool; FilesystemWrite]} 100 160 1) 100 {[InvokeTool]}
    (Some (tool_policy_params name payload)).

(** Called directly, the write through the dangling link of FileTool.v would be
    refused by the extension; as a [tool.invoke] it is not. *)
Example dangling_link_refused_only_directly :
  FilePolicyExtension_decide [] extension boxed_disk
    (context "file.write" (tcr_payload (write_request "out" "evil")))
  = Err (ExtensionDenied "file-policy" "path `out` escapes file root `/box`") ∧
  FilePolicyExtension_decide [] extension boxed_disk
    (context "tool.invoke"
       (JObject [("arguments", tcr_payload (write_request "out" "evil")); ("tool_id", JString "file.write")]))
  = Ok ().
Proof. by vm_compute. Qed.
End FilePolicyDemo.
