(* ===== verification/Ingress.v ===== *)
(** * Ingress: where a turn came from (app/src/conversation/ingress.rs)

    The channel metadata of an inbound message, its JSON form, and the internal
    context it adds to the payload of Feishu tools. *)
From S2P Require Import Prelude RustStr Contracts Json ToolRuntimeConfig ToolCatalog ToolNames.

Record ConversationIngressChannel := mkConversationIngressChannel {
  ic_platform : string;
  ic_configured_account_id : option string;
  ic_account_id : option string;
  ic_conversation_id : string;
  ic_participant_id : option string;
  ic_thread_id : option string;
}.

Record ConversationIngressDeliveryResource := mkDeliveryResource {
  dr_resource_type : string;
  dr_file_key : string;
  dr_file_name : option string;
}.

Record ConversationIngressDelivery := mkConversationIngressDelivery {
  id_source_message_id : option string;
  id_sender_identity_key : option string;
  id_thread_root_id : option string;
  id_parent_message_id : option string;
  id_resources : list ConversationIngressDeliveryResource;
}.

Record ConversationIngressFeishuCallbackContext := mkFeishuCallbackContext {
  fc_callback_token : option string;
  fc_open_message_id : option string;
  fc_open_chat_id : option string;
  fc_operator_open_id : option string;
  fc_deferred_context_id : option string;
}.

(** [ConversationIngressPrivateContext] has the one field [feishu_callback]. *)
Record ConversationIngressContext := mkConversationIngressContext {
  ig_channel : ConversationIngressChannel;
  ig_delivery : ConversationIngressDelivery;
  ig_feishu_callback : option ConversationIngressFeishuCallbackContext;
}.

Definition normalized_optional_string (value : option string) : option string :=
  match trim <$> value with Some s => if is_empty s then None else Some s | None => None end.

(** [insert_optional_string] is [insert_id] of ToolNames.v. *)

Definition DeliveryResource_normalized (r : ConversationIngressDeliveryResource) :
    option ConversationIngressDeliveryResource :=
  let resource_type := trim (dr_resource_type r) in
  let file_key := trim (dr_file_key r) in
  if is_empty resource_type || is_empty file_key then None
  else Some (mkDeliveryResource resource_type file_key (normalized_optional_string (dr_file_name r))).

Definition DeliveryResource_as_json (r : ConversationIngressDeliveryResource) : Value :=
  JObject (insert_id "file_name" (dr_file_name r)
    (obj_insert "file_key" (JString (dr_file_key r)) (obj_insert "type" (JString (dr_resource_type r)) []))).

Definition Delivery_has_values (d : ConversationIngressDelivery) : bool :=
  bool_decide (is_Some (id_source_message_id d)) || bool_decide (is_Some (id_sender_identity_key d))
  || bool_decide (is_Some (id_thread_root_id d)) || bool_decide (is_Some (id_parent_message_id d))
  || existsb (λ r, match DeliveryResource_normalized r with Some _ => true | None => false end) (id_resources d).

Definition Delivery_as_json (d : ConversationIngressDelivery) : Value :=
  let delivery :=
    insert_id "parent_message_id" (id_parent_message_id d)
      (insert_id "thread_root_id" (id_thread_root_id d)
         (insert_id "sender_identity_key" (id_sender_identity_key d)
            (insert_id "source_message_id" (id_source_message_id d) []))) in
  let resources := DeliveryResource_as_json <$> omap DeliveryResource_normalized (id_resources d) in
  JObject (if bool_decide (resources = []) then delivery
           else obj_insert "resources" (JArray resources) delivery).

Definition Channel_as_json (c : ConversationIngressChannel) : Value :=
  JObject
    (insert_id "thread_id" (ic_thread_id c)
       (insert_id "participant_id" (ic_participant_id c)
          (insert_id "account_id" (ic_account_id c)
             (insert_id "configured_account_id" (ic_configured_account_id c)
                (obj_insert "conversation_id" (JString (ic_conversation_id c))
                   (obj_insert "platform" (JString (ic_platform c)) [])))))).

Definition FeishuCallback_normalized (c : ConversationIngressFeishuCallbackContext) :
    option ConversationIngressFeishuCallbackContext :=
  let n := mkFeishuCallbackContext (normalized_optional_string (fc_callback_token c))
    (normalized_optional_string (fc_open_message_id c)) (normalized_optional_string (fc_open_chat_id c))
    (normalized_optional_string (fc_operator_open_id c)) (normalized_optional_string (fc_deferred_context_id c)) in
  match n with
  | mkFeishuCallbackContext None None None None None => None
  | _ => Some n
  end.

Definition FeishuCallback_as_json (c : ConversationIngressFeishuCallbackContext) : option Value :=
  n ← FeishuCallback_normalized c;
  Some (JObject
    (insert_id "deferred_context_id" (fc_deferred_context_id n)
       (insert_id "operator_open_id" (fc_operator_open_id n)
          (insert_id "open_chat_id" (fc_open_chat_id n)
             (insert_id "open_message_id" (fc_open_message_id n)
                (insert_id "callback_token" (fc_callback_token n) [])))))).

Definition has_contextual_hints (i : ConversationIngressContext) : bool :=
  bool_decide (is_Some (ic_participant_id (ig_channel i))) || bool_decide (is_Some (ic_thread_id (ig_channel i)))
  || Delivery_has_values (ig_delivery i).

(** [self.private.has_values()] *)
Definition Private_has_values (i : ConversationIngressContext) : bool :=
  match ig_feishu_callback i ≫= FeishuCallback_normalized with Some _ => true | None => false end.

Definition has_internal_tool_hints (i : ConversationIngressContext) : bool :=
  has_contextual_hints i || Private_has_values i.

Definition as_event_payload (i : ConversationIngressContext) : Value :=
  let payload :=
    obj_insert "channel" (Channel_as_json (ig_channel i)) (obj_insert "source" (JString "channel") []) in
  JObject
    match Delivery_as_json (ig_delivery i) with
    | JObject [] => payload
    | JObject delivery => obj_insert "delivery" (JObject delivery) payload
    | _ => payload
    end.

Record InjectedToolPayload := mkInjectedToolPayload {
  ip_payload : Value;
  ip_trusted_internal_context : bool;
}.

Definition LOONGCLAW_INTERNAL_TOOL_INGRESS_KEY : string := "ingress".
Definition LOONGCLAW_INTERNAL_TOOL_FEISHU_CALLBACK_KEY : string := "feishu_callback".

Definition inject_feishu_internal_context (payload : Value) (ingress : ConversationIngressContext) :
    InjectedToolPayload :=
  match payload with
  | JObject body =>
      let internal :=
        if has_contextual_hints ingress
        then obj_insert LOONGCLAW_INTERNAL_TOOL_INGRESS_KEY (as_event_payload ingress) [] else [] in
      let internal :=
        match ig_feishu_callback ingress ≫= FeishuCallback_as_json with
        | Some callback => obj_insert LOONGCLAW_INTERNAL_TOOL_FEISHU_CALLBACK_KEY callback internal
        | None => internal
        end in
      match internal with
      | [] => mkInjectedToolPayload (JObject body) false
      | _ =>
          mkInjectedToolPayload
            (JObject (obj_insert LOONGCLAW_INTERNAL_TOOL_CONTEXT_KEY (JObject internal) body)) true
      end
  | _ => mkInjectedToolPayload payload false
  end.

Definition inject_internal_tool_ingress (tool_name : string) (payload : Value)
    (ingress : option ConversationIngressContext) : InjectedToolPayload :=
  match ingress with
  | None => mkInjectedToolPayload payload false
  | Some ingress =>
      if negb (has_internal_tool_hints ingress) then mkInjectedToolPayload payload false
      else
        let canonical_name := canonical_tool_name tool_name in
        if bool_decide (canonical_name = "tool.invoke") then
          let inner_is_feishu :=
            match canonical_tool_name <$> json_get_str "tool_id" payload with
            | Some name => starts_with "feishu." name
            | None => false
            end in
          match inner_is_feishu, payload with
          | true, JObject outer =>
              let arguments := default (JObject []) (obj_get "arguments" outer) in
              let injected := inject_feishu_internal_context arguments ingress in
              mkInjectedToolPayload
                (JObject (obj_insert "arguments" (ip_payload injected) (obj_remove "arguments" outer)))
                (ip_trusted_internal_context injected)
          | _, _ => mkInjectedToolPayload payload false
          end
        else if negb (starts_with "feishu." canonical_name) then mkInjectedToolPayload payload false
        else inject_feishu_internal_context payload ingress
  end.
