(* ===== verification/TurnEngine.v ===== *)
(** * TurnEngine: checking and executing the tool calls of a turn
    (app/src/conversation/turn_engine.rs, with [SessionContext] of
    app/src/conversation/runtime.rs)

    The kernel binding and the dispatcher of application tools are arguments:
    transformers of a state [S]. The text serde_json produces for a value or an
    envelope is an argument too. Wall-clock times and the peak concurrency of a
    trace are observations and are not modelled. *)
From S2P Require Import Prelude RustStr Contracts Errors Json ToolRuntimeConfig ToolCatalog ToolNames ToolLease.
From S2P Require Import Turn Ingress.

(** ** Sessions *)

Record SessionContext := mkSessionContext {
  sc_session_id : string;
  sc_parent_session_id : option string;
  sc_tool_view : ToolView;
  sc_runtime_narrowing : option ToolRuntimeNarrowing;
}.

Definition normalize_session_id (session_id : string) : string :=
  let trimmed := trim session_id in if is_empty trimmed then "default" else trimmed.

Definition root_with_tool_view (session_id : string) (tool_view : ToolView) : SessionContext :=
  mkSessionContext (normalize_session_id session_id) None tool_view None.

Definition SessionContext_child (session_id parent_session_id : string) (tool_view : ToolView) : SessionContext :=
  mkSessionContext (normalize_session_id session_id) (Some (normalize_session_id parent_session_id)) tool_view None.

Definition with_runtime_narrowing (n : ToolRuntimeNarrowing) (c : SessionContext) : SessionContext :=
  if ToolRuntimeNarrowing_is_empty n then c
  else mkSessionContext (sc_session_id c) (sc_parent_session_id c) (sc_tool_view c) (Some n).

(** ** Kernel failures *)

Inductive KernelFailureClass := KF_PolicyDenied | KF_RetryableExecution | KF_NonRetryable.

Definition classify_tool_execution_reason (reason : string) : KernelFailureClass :=
  if starts_with "policy_denied: " reason then KF_PolicyDenied else KF_RetryableExecution.

Definition classify_kernel_error (error : KernelError) : KernelFailureClass :=
  match error with
  | KernelError_Policy _ | PackCapabilityBoundary _ _ | ConnectorNotAllowed _ _ => KF_PolicyDenied
  | KernelError_ToolPlane (Tool_Execution reason) => classify_tool_execution_reason reason
  | _ => KF_NonRetryable
  end.

Definition render_kernel_error_reason (error : KernelError) : string :=
  match error with
  | KernelError_ToolPlane (Tool_Execution reason) =>
      "tool execution failed: " +:+ default reason (strip_prefix "policy_denied: " reason)
  | _ => display error
  end.

Definition turn_failure_from_kernel_error (error : KernelError) : TurnFailure :=
  let reason := render_kernel_error_reason error in
  match classify_kernel_error error with
  | KF_PolicyDenied => TurnFailure_policy_denied "kernel_policy_denied" reason
  | KF_RetryableExecution => TurnFailure_retryable "tool_execution_failed" reason
  | KF_NonRetryable => TurnFailure_non_retryable "kernel_execution_failed" reason
  end.

Definition turn_result_from_tool_execution_failure (failure : TurnFailure) : TurnResult :=
  match tf_kind failure with
  | TF_PolicyDenied => TR_ToolDenied failure
  | TF_Retryable | TF_NonRetryable => TR_ToolError failure
  | TF_Provider => TR_ProviderError failure
  end.

(** ** Payloads *)

Definition browser_scope_injection_required (tool_name : string) : bool :=
  bool_decide (tool_name ∈ ["browser.open"; "browser.extract"; "browser.click"; "browser.companion.session.start";
    "browser.companion.navigate"; "browser.companion.snapshot"; "browser.companion.wait";
    "browser.companion.session.stop"; "browser.companion.click"; "browser.companion.type"]).

Definition BROWSER_SESSION_SCOPE_FIELD : string := "__loongclaw_browser_scope".

Definition inject_browser_scope_field (payload : Value) (session_id : string) : Value :=
  match payload with
  | JObject object => JObject (obj_insert BROWSER_SESSION_SCOPE_FIELD (JString session_id) object)
  | other => other
  end.

(** ** Names in results and denials *)

Definition effective_result_tool_name (intent : ToolIntent) : string :=
  let canonical := canonical_tool_name (in_tool_name intent) in
  if negb (bool_decide (canonical = "tool.invoke")) then canonical
  else
    let target :=
      tool_name ← canonical_tool_name <$> json_get_str "tool_id" (in_args_json intent);
      resolved ← resolve_tool_execution tool_name;
      if is_provider_exposed_tool_name (rte_canonical_name resolved) then None
      else Some (rte_canonical_name resolved) in
    default canonical target.

Definition effective_visible_tool_name (intent : ToolIntent) (descriptor : ToolDescriptor) : string :=
  if negb (bool_decide (td_name descriptor = "tool.invoke")) then td_name descriptor
  else
    let target :=
      tool_name ← canonical_tool_name <$> json_get_str "tool_id" (in_args_json intent);
      d ← catalog_descriptor tool_name;
      if is_provider_core d then None else Some (td_name d) in
    default (td_name descriptor) target.

Definition provider_tool_denial_should_conceal_name (intent : ToolIntent) (descriptor : ToolDescriptor)
    (tool_is_visible : bool) : bool :=
  if negb (starts_with "provider_" (in_source intent)) then false
  else if negb (is_provider_core descriptor) then true
  else negb tool_is_visible && bool_decide (td_name descriptor = "tool.invoke")
       && negb (bool_decide (effective_visible_tool_name intent descriptor = td_name descriptor)).

Definition concealed_provider_tool_denial : TurnFailure :=
  TurnFailure_policy_denied "tool_not_found" "tool_not_found: requested tool is not available".

Definition tool_intent_is_visible (session_context : SessionContext) (intent : ToolIntent)
    (descriptor : ToolDescriptor) : bool :=
  if is_provider_core descriptor then
    if negb (bool_decide (td_name descriptor = "tool.invoke")) then true
    else
      let effective_name := effective_visible_tool_name intent descriptor in
      bool_decide (effective_name = td_name descriptor) || view_contains (sc_tool_view session_context) effective_name
  else view_contains (sc_tool_view session_context) (td_name descriptor).

(** ** Result lines *)

Definition TOOL_RESULT_PAYLOAD_SUMMARY_LIMIT_CHARS : Z := 2048.
Definition MIN_TOOL_RESULT_PAYLOAD_SUMMARY_LIMIT_CHARS : Z := 256.
Definition MAX_TOOL_RESULT_PAYLOAD_SUMMARY_LIMIT_CHARS : Z := 64000.

Record ToolResultEnvelope := mkToolResultEnvelope {
  tre_status : string;
  tre_tool : string;
  tre_tool_call_id : string;
  tre_payload_summary : string;
  tre_payload_chars : Z;
  tre_payload_truncated : bool;
}.

Definition effective_payload_summary_limit (intent : ToolIntent) (default_limit : Z) : Z :=
  if bool_decide (effective_result_tool_name intent = "external_skills.invoke")
  then MAX_TOOL_RESULT_PAYLOAD_SUMMARY_LIMIT_CHARS else default_limit.

Definition clamp_summary_limit (limit : Z) : Z :=
  Z.max MIN_TOOL_RESULT_PAYLOAD_SUMMARY_LIMIT_CHARS (Z.min limit MAX_TOOL_RESULT_PAYLOAD_SUMMARY_LIMIT_CHARS).

Definition truncate_by_chars (value : string) (limit : Z) : string * Z * bool :=
  let total_chars := Z.of_nat (char_count value) in
  if (total_chars <=? limit)%Z then (value, total_chars, false)
  else
    let omitted := sat_sub total_chars limit in
    (take_chars (Z.to_nat limit) value +:+ "...(truncated " +:+ display omitted +:+ " chars)", total_chars, true).

(** ** The engine *)

Record TurnEngine := mkTurnEngine {
  te_max_tool_steps : Z;
  te_tool_result_payload_summary_limit_chars : Z;
  te_parallel_tool_execution_enabled : bool;
  te_parallel_tool_execution_max_in_flight : Z;
}.

Definition with_parallel_tool_execution (max_tool_steps summary_limit : Z) (parallel : bool) (max_in_flight : Z) :
    TurnEngine :=
  mkTurnEngine max_tool_steps (clamp_summary_limit summary_limit) parallel (Z.max max_in_flight 1).

Definition TurnEngine_new (max_tool_steps : Z) : TurnEngine :=
  with_parallel_tool_execution max_tool_steps TOOL_RESULT_PAYLOAD_SUMMARY_LIMIT_CHARS false 1.

Definition with_tool_result_payload_summary_limit (max_tool_steps limit : Z) : TurnEngine :=
  with_parallel_tool_execution max_tool_steps limit false 1.

Inductive TurnValidation := TV_FinalText (text : string) | TV_ToolExecutionRequired.

(** One iteration of the loop of [validate_turn_in_context]. *)
Definition validate_intent (session_context : SessionContext) (intent : ToolIntent) : result TurnFailure unit :=
  match resolve_tool_execution (in_tool_name intent) with
  | None => Err (TurnFailure_policy_denied "tool_not_found" ("tool_not_found: " +:+ in_tool_name intent))
  | Some resolved_tool =>
      match catalog_resolve (in_tool_name intent) with
      | Some descriptor =>
          if negb (tool_intent_is_visible session_context intent descriptor) then
            if provider_tool_denial_should_conceal_name intent descriptor false
            then Err concealed_provider_tool_denial
            else Err (TurnFailure_policy_denied "tool_not_visible"
                        ("tool_not_visible: " +:+ effective_visible_tool_name intent descriptor))
          else if provider_tool_denial_should_conceal_name intent descriptor true
          then Err concealed_provider_tool_denial
          else if bool_decide (td_name descriptor = "tool.invoke") then Ok ()
          else if negb (is_provider_exposed_tool_name (in_tool_name intent)) then
            Err (TurnFailure_policy_denied "tool_not_provider_exposed"
                   ("tool_not_provider_exposed: " +:+ in_tool_name intent))
          else Ok ()
      | None =>
          if negb (view_contains (sc_tool_view session_context) (rte_canonical_name resolved_tool)) then
            Err (TurnFailure_policy_denied "tool_not_visible" ("tool_not_visible: " +:+ in_tool_name intent))
          else if starts_with "provider_" (in_source intent) then Err concealed_provider_tool_denial
          else Ok ()
      end
  end.

Definition validate_turn_in_context (self : TurnEngine) (turn : ProviderTurn) (session_context : SessionContext) :
    result TurnFailure TurnValidation :=
  if bool_decide (pt_tool_intents turn = []) then Ok (TV_FinalText (pt_assistant_text turn))
  else if (te_max_tool_steps self <? Z.of_nat (length (pt_tool_intents turn)))%Z then
    Err (TurnFailure_policy_denied "max_tool_steps_exceeded" "max_tool_steps_exceeded")
  else
    _ ← try_fold (λ _ intent, validate_intent session_context intent) () (pt_tool_intents turn);
    Ok TV_ToolExecutionRequired.

Definition evaluate_turn_in_context (self : TurnEngine) (turn : ProviderTurn) (session_context : SessionContext) :
    TurnResult :=
  match validate_turn_in_context self turn session_context with
  | Ok (TV_FinalText text) => TR_FinalText text
  | Err failure => TR_ToolDenied failure
  | Ok TV_ToolExecutionRequired => TurnResult_policy_denied "kernel_context_required" "kernel_context_required"
  end.

Definition session_context_from_turn (turn : ProviderTurn) (tool_view : ToolView) : SessionContext :=
  root_with_tool_view (default "default" (in_session_id <$> head (pt_tool_intents turn))) tool_view.

(** ** Preparing and executing *)

Inductive ToolBatchExecutionMode := Mode_Sequential | Mode_Parallel.

Record PreparedBatchSegment := mkPreparedBatchSegment {
  bs_len : nat;
  bs_scheduling_class : ToolSchedulingClass;
  bs_execution_mode : ToolBatchExecutionMode;
}.

Record PreparedToolIntent := mkPreparedToolIntent {
  pi_intent : ToolIntent;
  pi_request : ToolCoreRequest;
  pi_execution_kind : ToolExecutionKind;
  pi_scheduling_class : ToolSchedulingClass;
  pi_trusted_internal_context : bool;
}.

(** [trait AppToolDispatcher] *)
Record AppToolDispatcher (S : Type) := mkAppToolDispatcher {
  ad_maybe_require_approval :
    SessionContext → ToolIntent → ToolDescriptor → ST S string (option ApprovalRequirement);
  ad_execute_app_tool : SessionContext → ToolCoreRequest → ST S string ToolCoreOutcome;
}.
Arguments mkAppToolDispatcher {S} _ _.
Arguments ad_maybe_require_approval {S} _ _ _ _.
Arguments ad_execute_app_tool {S} _ _ _.

Definition segment_execution_mode (self : TurnEngine) (scheduling_class : ToolSchedulingClass) (segment_len : nat) :
    ToolBatchExecutionMode :=
  if te_parallel_tool_execution_enabled self && (1 <? te_parallel_tool_execution_max_in_flight self)%Z
     && bool_decide (scheduling_class = Sched_ParallelSafe) && bool_decide (1 < segment_len)
  then Mode_Parallel else Mode_Sequential.

(** How many of the first intents have this class: [take_while(..).count()] *)
Fixpoint run_length (c : ToolSchedulingClass) (prepared : list PreparedToolIntent) : nat :=
  match prepared with
  | p :: rest => if bool_decide (pi_scheduling_class p = c) then S (run_length c rest) else 0
  | [] => 0
  end.

(** The [while] loop, which drops at least one intent each time. *)
Fixpoint batch_segments_fuel (self : TurnEngine) (fuel : nat) (remaining : list PreparedToolIntent) :
    list PreparedBatchSegment :=
  match fuel, remaining with
  | S fuel, first :: _ =>
      let c := pi_scheduling_class first in
      let len := run_length c remaining in
      mkPreparedBatchSegment len c (segment_execution_mode self c len)
        :: batch_segments_fuel self fuel (drop len remaining)
  | _, _ => []
  end.

Definition prepared_batch_segments (self : TurnEngine) (prepared : list PreparedToolIntent) :
    list PreparedBatchSegment := batch_segments_fuel self (length prepared) prepared.

Section engine.
  Context {S : Type} (codec : LeaseCodec) (secret : string) (unix_now : S → Z).
  (** serde_json *)
  Context (narrowing_to_value : ToolRuntimeNarrowing → Value) (value_to_string : Value → string)
    (envelope_to_string : ToolResultEnvelope → string).
  (** [binding.kernel_context()] with [execute_kernel_tool_request] on it *)
  Context (kernel : option (ToolCoreRequest → bool → ST S KernelError ToolCoreOutcome)).
  Context (app_dispatcher : AppToolDispatcher S).
  (** The order in which the executions of a parallel segment finish. *)
  Context (completion : list PreparedToolIntent → S → list nat).

Definition build_tool_result_envelope (intent : ToolIntent) (outcome : ToolCoreOutcome) (limit : Z) :
    ToolResultEnvelope :=
  let normalized_limit := clamp_summary_limit (effective_payload_summary_limit intent limit) in
  let '(summary, chars, truncated) :=
    truncate_by_chars (value_to_string (tco_payload outcome)) normalized_limit in
  mkToolResultEnvelope (tco_status outcome) (effective_result_tool_name intent) (in_tool_call_id intent)
    summary chars truncated.

Definition format_tool_result_line_with_limit (intent : ToolIntent) (outcome : ToolCoreOutcome) (limit : Z) :
    string :=
  "[" +:+ tco_status outcome +:+ "] " +:+ envelope_to_string (build_tool_result_envelope intent outcome limit).

Definition inject_runtime_narrowing_context (payload : Value) (session_context : SessionContext) : Value :=
  match sc_runtime_narrowing session_context with
  | None => payload
  | Some runtime_narrowing =>
      if ToolRuntimeNarrowing_is_empty runtime_narrowing then payload
      else
        match payload with
        | JObject object =>
            let internal :=
              default [] (obj_get LOONGCLAW_INTERNAL_TOOL_CONTEXT_KEY object ≫= json_as_object) in
            let internal :=
              obj_insert LOONGCLAW_INTERNAL_RUNTIME_NARROWING_KEY (narrowing_to_value runtime_narrowing) internal in
            JObject (obj_insert LOONGCLAW_INTERNAL_TOOL_CONTEXT_KEY (JObject internal)
                       (obj_remove LOONGCLAW_INTERNAL_TOOL_CONTEXT_KEY object))
        | other => other
        end
  end.

Definition augment_tool_payload_for_kernel (canonical_name : string) (payload : Value)
    (session_context : SessionContext) : Value :=
  let payload := inject_runtime_narrowing_context payload session_context in
  if browser_scope_injection_required canonical_name then
    inject_browser_scope_field payload (sc_session_id session_context)
  else
    let is_browser_invoke :=
      bool_decide (canonical_name = "tool.invoke")
      && match canonical_tool_name <$> json_get_str "tool_id" payload with
         | Some name => browser_scope_injection_required name
         | None => false
         end in
    match is_browser_invoke, payload with
    | true, JObject outer =>
        match obj_get "arguments" outer with
        | Some arguments =>
            JObject (obj_insert "arguments" (inject_browser_scope_field arguments (sc_session_id session_context))
                       (obj_remove "arguments" outer))
        | None => JObject outer
        end
    | _, _ => payload
    end.

Definition prepare_tool_intent (intent : ToolIntent) (session_context : SessionContext)
    (ingress : option ConversationIngressContext) : ST S TurnResult PreparedToolIntent := λ s,
  match resolve_tool_execution (in_tool_name intent) with
  | None =>
      (Err (TurnResult_policy_denied "tool_not_found" ("tool_not_found: " +:+ in_tool_name intent)), s)
  | Some resolved_tool =>
      let name := rte_canonical_name resolved_tool in
      let injected := inject_internal_tool_ingress name (in_args_json intent) ingress in
      let request :=
        mkToolCoreRequest name (augment_tool_payload_for_kernel name (ip_payload injected) session_context) in
      let '(kind, effective_request, effective_intent) :=
        if bool_decide (name = "tool.invoke") then
          match resolve_tool_invoke_request codec secret (unix_now s) request with
          | Ok (inner_resolved, inner_request) =>
              match rte_execution_kind inner_resolved with
              | Exec_App =>
                  (Exec_App, inner_request,
                   mkToolIntent (rte_canonical_name inner_resolved) (tcr_payload inner_request) (in_source intent)
                     (in_session_id intent) (in_turn_id intent) (in_tool_call_id intent))
              | Exec_Core => (rte_execution_kind resolved_tool, request, intent)
              end
          | Err _ => (rte_execution_kind resolved_tool, request, intent)
          end
        else (rte_execution_kind resolved_tool, request, intent) in
      match catalog_resolve (tcr_tool_name effective_request) with
      | None =>
          (Err (TurnResult_non_retryable_tool_error "tool_descriptor_missing"
                  ("tool_descriptor_missing: " +:+ tcr_tool_name effective_request)), s)
      | Some descriptor =>
          let prepared :=
            mkPreparedToolIntent intent effective_request kind (descriptor_scheduling_class descriptor)
              (ip_trusted_internal_context injected) in
          match kind with
          | Exec_Core =>
              match kernel with
              | None => (Err (TurnResult_policy_denied "no_kernel_context" "no_kernel_context"), s)
              | Some _ => (Ok prepared, s)
              end
          | Exec_App =>
              match ad_maybe_require_approval app_dispatcher session_context effective_intent descriptor s with
              | (Ok (Some requirement), s') => (Err (TR_NeedsApproval requirement), s')
              | (Ok None, s') => (Ok prepared, s')
              | (Err reason, s') =>
                  (Err (if starts_with "app_tool_denied:" reason
                        then TurnResult_policy_denied "app_tool_denied" reason
                        else TurnResult_non_retryable_tool_error "app_tool_preflight_failed" reason), s')
              end
          end
      end
  end.

(** The denials an application tool reports by the head of its message. *)
Definition app_tool_failure (reason : string) : TurnResult :=
  if starts_with "tool_not_visible:" reason then TurnResult_policy_denied "tool_not_visible" reason
  else if starts_with "tool_not_found:" reason || starts_with "app_tool_not_found:" reason
  then TurnResult_policy_denied "tool_not_found" reason
  else if starts_with "app_tool_disabled:" reason then TurnResult_policy_denied "app_tool_disabled" reason
  else if starts_with "app_tool_denied:" reason then TurnResult_policy_denied "app_tool_denied" reason
  else TurnResult_non_retryable_tool_error "app_tool_execution_failed" reason.

Definition execute_prepared_tool_intent (session_context : SessionContext) (p : PreparedToolIntent) :
    ST S TurnResult ToolCoreOutcome :=
  match pi_execution_kind p with
  | Exec_Core =>
      match kernel with
      | None => throw (TurnResult_policy_denied "no_kernel_context" "no_kernel_context")
      | Some execute =>
          st_map_err (λ error, turn_result_from_tool_execution_failure (turn_failure_from_kernel_error error))
            (execute (pi_request p) (pi_trusted_internal_context p))
      end
  | Exec_App => st_map_err app_tool_failure (ad_execute_app_tool app_dispatcher session_context (pi_request p))
  end.

(** The line of one executed intent. *)
Definition execute_to_line (self : TurnEngine) (session_context : SessionContext) (p : PreparedToolIntent) :
    ST S TurnResult string :=
  execute_prepared_tool_intent session_context p ≫= λ outcome,
  mret (format_tool_result_line_with_limit (pi_intent p) outcome (te_tool_result_payload_summary_limit_chars self)).

Fixpoint execute_prepared_batch_sequential (self : TurnEngine) (session_context : SessionContext)
    (prepared : list PreparedToolIntent) : ST S TurnResult (list string) :=
  match prepared with
  | [] => mret []
  | p :: rest =>
      execute_to_line self session_context p ≫= λ line,
      execute_prepared_batch_sequential self session_context rest ≫= λ lines, mret (line :: lines)
  end.

(** [while let Some((index, result)) = executions.next().await]: the executions
    in the order in which they finish, each as one step *)
Fixpoint drain_executions (self : TurnEngine) (session_context : SessionContext)
    (prepared : list PreparedToolIntent) (order : list nat) : ST S TurnResult (list (nat * string)) :=
  match order with
  | [] => mret []
  | index :: rest =>
      match prepared !! index with
      | None => drain_executions self session_context prepared rest
      | Some p =>
          execute_to_line self session_context p ≫= λ line,
          drain_executions self session_context prepared rest ≫= λ results, mret ((index, line) :: results)
      end
  end.

Definition index_le (x y : nat * string) : Prop := x.1 ≤ y.1.
#[export] Instance index_le_dec x y : Decision (index_le x y).
Proof. unfold index_le. apply _. Defined.

Definition execute_prepared_batch_in_parallel (self : TurnEngine) (session_context : SessionContext)
    (prepared : list PreparedToolIntent) : ST S TurnResult (list string) := λ s,
  (drain_executions self session_context prepared (completion prepared s) ≫= λ results,
   mret ((merge_sort index_le results).*2)) s.

Fixpoint execute_prepared_batch (self : TurnEngine) (session_context : SessionContext)
    (segments : list PreparedBatchSegment) (remaining : list PreparedToolIntent) : ST S TurnResult (list string) :=
  match segments with
  | [] => mret []
  | segment :: rest =>
      let prepared_segment := take (bs_len segment) remaining in
      match bs_execution_mode segment with
      | Mode_Parallel => execute_prepared_batch_in_parallel self session_context prepared_segment
      | Mode_Sequential => execute_prepared_batch_sequential self session_context prepared_segment
      end ≫= λ segment_outputs,
      execute_prepared_batch self session_context rest (drop (bs_len segment) remaining) ≫= λ outputs,
      mret (segment_outputs ++ outputs)
  end.

(** [for intent in &turn.tool_intents { prepared.push(self.prepare_tool_intent(..)?) }] *)
Fixpoint prepare_all (session_context : SessionContext) (ingress : option ConversationIngressContext)
    (intents : list ToolIntent) : ST S TurnResult (list PreparedToolIntent) :=
  match intents with
  | [] => mret []
  | intent :: rest =>
      prepare_tool_intent intent session_context ingress ≫= λ p,
      prepare_all session_context ingress rest ≫= λ ps, mret (p :: ps)
  end.

Definition execute_turn_in_context (self : TurnEngine) (turn : ProviderTurn) (session_context : SessionContext)
    (ingress : option ConversationIngressContext) : S → TurnResult * S := λ s,
  match validate_turn_in_context self turn session_context with
  | Ok (TV_FinalText text) => (TR_FinalText text, s)
  | Err failure => (TR_ToolDenied failure, s)
  | Ok TV_ToolExecutionRequired =>
      let run :=
        prepare_all session_context ingress (pt_tool_intents turn) ≫= λ prepared,
        execute_prepared_batch self session_context (prepared_batch_segments self prepared) prepared in
      match run s with
      | (Ok outputs, s') => (TR_FinalText (join (String newline "") outputs), s')
      | (Err result, s') => (result, s')
      end
  end.
End engine.
