(* ===== verification/TurnEngineProps.v ===== *)
(** * TurnEngineProps: what the turn engine admits and how it executes *)
From S2P Require Import Prelude RustStr Contracts Errors AuditSinks Plane Json ToolRuntimeConfig ToolCatalog ToolNames ToolLease.
From S2P Require Import ToolDispatch Turn Ingress TurnEngine.

#[local] Arguments canonical_tool_name : simpl never.
#[local] Arguments resolve_tool_execution : simpl never.
#[local] Arguments is_provider_exposed_tool_name : simpl never.
#[local] Arguments catalog_resolve : simpl never.
#[local] Arguments catalog_descriptor : simpl never.
#[local] Arguments obj_get : simpl never.

(** ** Admission *)

(** What a session may call: a core tool of the catalogue, where a [tool.invoke]
    whose [tool_id] names a discoverable tool of the catalogue needs that tool in
    the session's view; or, for calls that do not come from a provider, a Feishu
    tool in the view. *)
Definition admitted (context : SessionContext) (intent : ToolIntent) : Prop :=
  match catalog_resolve (in_tool_name intent) with
  | Some d =>
      is_provider_core d = true ∧
      (td_name d = "tool.invoke" → ∀ tool_id target,
         json_get_str "tool_id" (in_args_json intent) = Some tool_id →
         catalog_descriptor (canonical_tool_name tool_id) = Some target → is_discoverable target = true →
         td_name target ∈ sc_tool_view context)
  | None =>
      starts_with "provider_" (in_source intent) = false ∧
      ∃ c, canonical_feishu_tool_name (in_tool_name intent) = Some c ∧ c ∈ sc_tool_view context
  end.

Lemma exposed_iff_core raw d : catalog_resolve raw = Some d →
  is_provider_exposed_tool_name raw = is_provider_core d.
Proof.
  intros Hr. unfold is_provider_exposed_tool_name, find_tool_catalog_entry, canonical_tool_name. rewrite Hr.
  apply catalog_resolve_elem in Hr as [Hd _]. by rewrite (catalog_resolve_name d Hd).
Qed.

Lemma conceal_core intent d : is_provider_core d = true →
  provider_tool_denial_should_conceal_name intent d true = false.
Proof.
  intros Hc. unfold provider_tool_denial_should_conceal_name. rewrite Hc. by destruct (starts_with _ _).
Qed.

Lemma invoke_is_core d : d ∈ tool_catalog → td_name d = "tool.invoke" → is_provider_core d = true.
Proof.
  assert (Hall : Forall (λ d, td_name d = "tool.invoke" → is_provider_core d = true) tool_catalog)
    by (apply (bool_decide_unpack _); vm_compute; done).
  apply (proj1 (Forall_forall _ _) Hall).
Qed.

Lemma discoverable_not_core d : is_discoverable d = negb (is_provider_core d).
Proof. unfold is_discoverable, is_provider_core. by destruct (td_exposure d). Qed.

Lemma visible_core context intent d : is_provider_core d = true →
  tool_intent_is_visible context intent d = true ↔
  (td_name d = "tool.invoke" → ∀ tool_id target,
     json_get_str "tool_id" (in_args_json intent) = Some tool_id →
     catalog_descriptor (canonical_tool_name tool_id) = Some target → is_discoverable target = true →
     td_name target ∈ sc_tool_view context).
Proof.
  intros Hc. unfold tool_intent_is_visible, view_contains. rewrite Hc.
  case_bool_decide as Hn; cbn [negb]; [|done]. unfold effective_visible_tool_name.
  rewrite Hn, (bool_decide_true ("tool.invoke" = "tool.invoke")) by done. cbn [negb].
  destruct (json_get_str "tool_id" _) as [tool_id|]; cbn;
    [|rewrite bool_decide_true by done; split; [by intros _ _ ? ? [=]|done]].
  destruct (catalog_descriptor _) as [target|] eqn:Ht; cbn.
  2: { rewrite bool_decide_true by done. split; [|done]. intros _ _ ? ? [= <-]. by rewrite Ht. }
  destruct (is_provider_core target) eqn:Hct; cbn.
  - rewrite bool_decide_true by done. split; [|done]. intros _ _ ? ? [= <-]. rewrite Ht. intros [= <-].
    by rewrite discoverable_not_core, Hct.
  - rewrite (bool_decide_false (td_name target = _)); cbn.
    + rewrite bool_decide_eq_true. split.
      * intros Hin _ ? ? [= <-]. rewrite Ht. by intros [= <-].
      * intros H. apply (H eq_refl tool_id target eq_refl Ht). by rewrite discoverable_not_core, Hct.
    + intros Hni. apply fmap_Some in Ht as ([n ?] & (Ht & _)%list_find_Some & ->). cbn in *.
      apply list_elem_of_lookup_2 in Ht. by rewrite (invoke_is_core _ Ht Hni) in Hct.
Qed.

Lemma validate_intent_Ok context intent : validate_intent context intent = Ok () ↔ admitted context intent.
Proof.
  unfold validate_intent, admitted, resolve_tool_execution.
  destruct (catalog_resolve (in_tool_name intent)) as [d|] eqn:Hd.
  - rewrite (exposed_iff_core _ _ Hd). destruct (is_provider_core d) eqn:Hc.
    + rewrite <-(visible_core _ _ _ Hc), (conceal_core _ _ Hc).
      destruct (tool_intent_is_visible context intent d); cbn [negb].
      * case_bool_decide; by split.
      * destruct (provider_tool_denial_should_conceal_name _ _ _); split; [done|by intros []|done|by intros []].
    + apply catalog_resolve_elem in Hd as [Hel _].
      rewrite (bool_decide_false (td_name d = _)) by (intros Hn; by rewrite (invoke_is_core d Hel Hn) in Hc).
      cbn [negb]. destruct (tool_intent_is_visible _ _ _), (provider_tool_denial_should_conceal_name _ _ _),
        (provider_tool_denial_should_conceal_name _ _ _); (split; [done|by intros []]).
  - destruct (canonical_feishu_tool_name (in_tool_name intent)) as [c|]; cbn; [|split; [done|by intros (_ & ? & ? & _)]].
    unfold view_contains. case_bool_decide as Hv; cbn; destruct (starts_with "provider_" (in_source intent)).
    + split; [done|by intros []].
    + split; [intros _; split; [done|by exists c]|done].
    + split; [done|by intros []].
    + split; [done|]. intros (_ & ? & [= <-] & ?). done.
Qed.

Lemma validate_all_Ok context intents :
  try_fold (λ _ intent, validate_intent context intent) () intents = Ok () ↔ Forall (admitted context) intents.
Proof.
  induction intents as [|i intents IH]; [done|]. rewrite try_fold_Ok, Forall_cons, <-validate_intent_Ok, <-IH.
  split; [by intros ([] & ? & ?)|intros [? ?]; by exists ()].
Qed.

(** C18. The turn engine executes tools exactly when the turn asks for at least
    one and at most [max_tool_steps], and the session may call every one of
    them: core tools of the catalogue, whatever the view of the session is, and
    Feishu tools in the view when the call does not come from a provider. A
    [tool.invoke] is stopped here only if its [tool_id] names a discoverable tool
    of the catalogue that is not in the view; towards a core tool, an unknown one
    or none it is let through, and the lease decides when it runs. *)
Theorem turn_admission_exact engine turn context :
  validate_turn_in_context engine turn context = Ok TV_ToolExecutionRequired ↔
  pt_tool_intents turn ≠ [] ∧ (Z.of_nat (length (pt_tool_intents turn)) ≤ te_max_tool_steps engine)%Z ∧
  Forall (admitted context) (pt_tool_intents turn).
Proof.
  unfold validate_turn_in_context. case_bool_decide as Hn; [naive_solver|].
  destruct (Z.ltb_spec (te_max_tool_steps engine) (Z.of_nat (length (pt_tool_intents turn)))); [naive_solver lia|].
  rewrite <-validate_all_Ok. destruct (try_fold _ _ _) as [[]|e]; cbn; naive_solver.
Qed.

(** The view of a delegated session hides no core tool: [shell.exec] is admitted
    in a session whose view is empty. *)
Theorem core_tools_ignore_the_session_view :
  admitted (SessionContext_child "c" "p" ∅)
    (mkToolIntent "shell.exec" (JObject [("command", JString "echo")]) "provider_tool_call" "c" "t1" "call-1").
Proof.
  unfold admitted. destruct (catalog_resolve _) as [d|] eqn:Ed; [|by vm_compute in Ed].
  vm_compute in Ed. injection Ed as <-. by split.
Qed.

(** ** Segments *)

(** [prepared] cut along the segments. *)
Fixpoint cut (segments : list PreparedBatchSegment) (prepared : list PreparedToolIntent) :
    list (PreparedBatchSegment * list PreparedToolIntent) :=
  match segments with
  | [] => []
  | s :: rest => (s, take (bs_len s) prepared) :: cut rest (drop (bs_len s) prepared)
  end.

(** Adjacent segments differ in class. *)
Fixpoint alternating (segments : list PreparedBatchSegment) : Prop :=
  match segments with
  | s :: ((s' :: _) as rest) => bs_scheduling_class s ≠ bs_scheduling_class s' ∧ alternating rest
  | _ => True
  end.

Lemma run_length_all c prepared : Forall (λ p, pi_scheduling_class p = c) (take (run_length c prepared) prepared).
Proof. induction prepared as [|p rest IH]; simpl; [done|]. case_bool_decide; simpl; [by constructor|done]. Qed.

Lemma run_length_stops c prepared p rest : drop (run_length c prepared) prepared = p :: rest →
  pi_scheduling_class p ≠ c.
Proof.
  induction prepared as [|q prepared IH]; simpl; [done|]. case_bool_decide; simpl; [done|]. by intros [= -> ->].
Qed.

Lemma run_length_pos p rest : 0 < run_length (pi_scheduling_class p) (p :: rest).
Proof. simpl. rewrite bool_decide_true by done. lia. Qed.

Lemma run_length_le c prepared : run_length c prepared ≤ length prepared.
Proof. induction prepared as [|p rest IH]; simpl; [done|]. case_bool_decide; simpl; lia. Qed.

Lemma batch_segments_spec engine fuel prepared : length prepared ≤ fuel →
  let segments := batch_segments_fuel engine fuel prepared in
  concat (cut segments prepared).*2 = prepared ∧
  Forall (λ '(s, chunk), length chunk = bs_len s ∧ 0 < bs_len s ∧
    Forall (λ p, pi_scheduling_class p = bs_scheduling_class s) chunk ∧
    bs_execution_mode s = segment_execution_mode engine (bs_scheduling_class s) (bs_len s)) (cut segments prepared) ∧
  alternating segments ∧
  ∀ s rest, segments = s :: rest → ∃ p ps, prepared = p :: ps ∧ bs_scheduling_class s = pi_scheduling_class p.
Proof.
  revert prepared. induction fuel as [|fuel IH]; intros prepared Hf.
  { destruct prepared; [done|simpl in Hf; lia]. }
  destruct prepared as [|p ps]; [done|]. cbn [batch_segments_fuel]. cbv zeta.
  set (c := pi_scheduling_class p). set (len := run_length c (p :: ps)).
  pose proof (run_length_pos p ps) as Hpos. fold c in Hpos. fold len in Hpos.
  pose proof (run_length_le c (p :: ps)) as Hle. fold len in Hle.
  assert (Hshort : length (drop len (p :: ps)) ≤ fuel) by (rewrite length_drop; simpl in *; lia).
  destruct (IH _ Hshort) as (Hcat & Hall & Halt & Hhead). split_and!.
  - change (take len (p :: ps) ++ concat (cut (batch_segments_fuel engine fuel (drop len (p :: ps)))
      (drop len (p :: ps))).*2 = p :: ps). rewrite Hcat. apply take_drop.
  - apply Forall_cons. split; [|done]. cbn [bs_len bs_scheduling_class bs_execution_mode].
    split_and!; [rewrite length_take; simpl length in *; lia|done|apply run_length_all|done].
  - destruct (batch_segments_fuel engine fuel (drop len (p :: ps))) as [|s rest] eqn:E; [done|]. split; [|done].
    destruct (Hhead s rest eq_refl) as (q & qs & Hq & ->). cbn. apply not_eq_sym. by eapply run_length_stops.
  - intros s rest [= <- _]. by exists p, ps.
Qed.

(** The batch is cut into maximal runs of one scheduling class: the segments
    put together are the batch in order, each is a non-empty run of one class,
    neighbours differ in class, and a segment is parallel exactly when parallel
    execution is on with room for two, its tools are parallel-safe and it has
    more than one. *)
Theorem batch_segments_are_maximal_runs engine prepared :
  let segments := prepared_batch_segments engine prepared in
  concat (cut segments prepared).*2 = prepared ∧ alternating segments ∧
  Forall (λ '(s, chunk), length chunk = bs_len s ∧ chunk ≠ [] ∧
    Forall (λ p, pi_scheduling_class p = bs_scheduling_class s) chunk ∧
    (bs_execution_mode s = Mode_Parallel ↔
     te_parallel_tool_execution_enabled engine = true ∧ (1 < te_parallel_tool_execution_max_in_flight engine)%Z ∧
     bs_scheduling_class s = Sched_ParallelSafe ∧ 1 < length chunk)) (cut segments prepared).
Proof.
  intros segments. destruct (batch_segments_spec engine (length prepared) prepared) as (Hcat & Hall & Halt & _); [done|].
  split_and!; [done|done|]. eapply Forall_impl; [exact Hall|]. intros [s chunk] (Hlen & Hpos & Hcls & Hmode).
  split_and!; [done|by destruct chunk; [simpl in Hlen; lia|]|done|].
  rewrite Hmode, Hlen. unfold segment_execution_mode.
  destruct (te_parallel_tool_execution_enabled engine); cbn; [|naive_solver].
  destruct (Z.ltb_spec 1 (te_parallel_tool_execution_max_in_flight engine)); cbn; [|naive_solver lia].
  repeat case_bool_decide; cbn; naive_solver lia.
Qed.

(** ** Parallel segments *)

Lemma imap_pair_sorted (outs : list string) : ∀ k,
  StronglySorted index_le (imap (λ i line, (k + i, line)) outs).
Proof.
  induction outs as [|o outs IH]; intros k; [constructor|]. rewrite imap_cons. constructor.
  - specialize (IH (S k)). erewrite imap_ext; [exact IH|]. intros i x _. simpl. f_equal. lia.
  - apply Forall_forall. intros [i x] Hin. apply elem_of_lookup_imap in Hin as (j & y & [= -> ->] & _).
    unfold index_le. simpl. lia.
Qed.

(** The results of the indices of a batch, in any order, sorted by index. *)
Lemma sort_by_index (outs : list string) (order : list nat) results :
  order ≡ₚ seq 0 (length outs) →
  Forall2 (λ i r, ∃ line, outs !! i = Some line ∧ r = (i, line)) order results →
  (merge_sort index_le results).*2 = outs.
Proof.
  intros Hperm Hres.
  assert (E : merge_sort index_le results = imap (λ i line, (i, line)) outs).
  { apply (StronglySorted_unique_strong index_le).
    - intros [i x] [j y] Hx Hy H1 H2. rewrite merge_sort_Permutation in Hx.
      apply elem_of_lookup_imap in Hy as (k & z & [= -> ->] & Hk).
      apply list_elem_of_lookup_1 in Hx as [n Hn].
      destruct (Forall2_lookup_r _ _ _ _ _ Hres Hn) as (m & _ & line & Hl & [= -> ->]).
      unfold index_le in *. simpl in *. assert (m = k) as -> by lia. congruence.
    - apply StronglySorted_merge_sort; [|].
      + intros [i x] [j y] [k z]. unfold index_le. simpl. lia.
      + intros [i x] [j y]. unfold index_le. simpl. lia.
    - apply (imap_pair_sorted outs 0).
    - rewrite merge_sort_Permutation. apply NoDup_Permutation.
      + apply (NoDup_fmap_1 fst). assert (results.*1 = order) as ->; [|by rewrite Hperm; apply NoDup_seq].
        clear Hperm. induction Hres as [|i r order results (line & _ & ->) _ IH]; [done|]. by rewrite fmap_cons, IH.
      + apply (NoDup_fmap_1 fst). rewrite fmap_imap. unfold compose. simpl.
        rewrite imap_seq_0. rewrite list_fmap_id. apply NoDup_seq.
      + intros [i x]. rewrite elem_of_lookup_imap. split.
        * intros [n Hn]%list_elem_of_lookup_1.
          destruct (Forall2_lookup_r _ _ _ _ _ Hres Hn) as (m & _ & line & Hl & [= -> ->]). by exists m, line.
        * intros (j & y & [= -> ->] & Hj).
          assert (Hin : j ∈ order) by (rewrite Hperm; apply elem_of_seq; apply lookup_lt_Some in Hj; lia).
          apply list_elem_of_lookup_1 in Hin as [n Hn].
          destruct (Forall2_lookup_l _ _ _ _ _ Hres Hn) as (r & Hr & line & Hl & ->).
          rewrite Hj in Hl. injection Hl as <-. by eapply list_elem_of_lookup_2. }
  rewrite E, fmap_imap. unfold compose. simpl. apply list_eq. intros i. by rewrite list_lookup_imap, option_fmap_id.
Qed.

Lemma Forall_choose {A B} (P : A → B → Prop) (xs : list A) :
  Forall (λ x, ∃ y, P x y) xs → ∃ ys, Forall2 P xs ys.
Proof. induction 1 as [|x xs [y Hy] _ [ys IH]]; [by exists []|]. exists (y :: ys). by constructor. Qed.

Section equivalence.
  Context {S : Type} (value_to_string : Value → string) (envelope_to_string : ToolResultEnvelope → string).
  Context (kernel : option (ToolCoreRequest → bool → ST S KernelError ToolCoreOutcome)).
  Context (dispatcher : AppToolDispatcher S) (completion : list PreparedToolIntent → S → list nat).
  Context (context : SessionContext).

  Abbreviation to_line engine := (execute_to_line value_to_string envelope_to_string kernel dispatcher engine context).
  Abbreviation run_sequential engine :=
    (execute_prepared_batch_sequential value_to_string envelope_to_string kernel dispatcher engine context).
  Abbreviation run_parallel engine :=
    (execute_prepared_batch_in_parallel value_to_string envelope_to_string kernel dispatcher completion engine context).
  Abbreviation run_batch engine :=
    (execute_prepared_batch value_to_string envelope_to_string kernel dispatcher completion engine context).

  (** Every execution of a segment finishes once. *)
  Hypothesis completes : ∀ chunk s, completion chunk s ≡ₚ seq 0 (length chunk).
  (** A parallel-safe tool leaves the state as it is. *)
  Hypothesis read_only : ∀ engine p s, pi_scheduling_class p = Sched_ParallelSafe → (to_line engine p s).2 = s.

Definition safe (p : PreparedToolIntent) : Prop := pi_scheduling_class p = Sched_ParallelSafe.

Lemma line_state engine p s r s' : safe p → to_line engine p s = (r, s') → s' = s.
Proof. intros Hp H. pose proof (read_only engine p s Hp) as E. by rewrite H in E. Qed.

Lemma sequential_chunk engine chunk s outs s' : Forall safe chunk →
  run_sequential engine chunk s = (Ok outs, s') ↔
  s' = s ∧ Forall2 (λ p line, to_line engine p s = (Ok line, s)) chunk outs.
Proof.
  intros Hs. revert outs s'. induction Hs as [|p chunk Hp _ IH]; intros outs s'; cbn.
  { split; [intros [= <- <-]; by split|intros [-> H]; by inversion H]. }
  rewrite st_bind_Ok. split.
  - intros (line & s1 & Hl & H). pose proof (line_state _ _ _ _ _ Hp Hl) as ->.
    apply st_bind_Ok in H as (lines & s2 & Hr & [= <- <-]). apply IH in Hr as [-> Hr]. split; [done|]. by constructor.
  - intros [-> H]. inversion H as [|? line ? lines Hl Hr]; subst. exists line, s. split; [done|].
    apply st_bind_Ok. exists lines, s. split; [|done]. by apply IH.
Qed.

Lemma drain_chunk engine chunk s order results s' : Forall safe chunk → Forall (λ i, i < length chunk) order →
  drain_executions value_to_string envelope_to_string kernel dispatcher engine context chunk order s = (Ok results, s')
  ↔ s' = s ∧
    Forall2 (λ i r, ∃ p line, chunk !! i = Some p ∧ to_line engine p s = (Ok line, s) ∧ r = (i, line)) order results.
Proof.
  intros Hs Ho. revert results s'. induction Ho as [|i order Hi _ IH]; intros results s'; cbn.
  { split; [intros [= <- <-]; by split|intros [-> H]; by inversion H]. }
  destruct (lookup_lt_is_Some_2 chunk i Hi) as [p Hp]. rewrite Hp.
  assert (Hsafe : safe p) by (by eapply Forall_lookup_1). rewrite st_bind_Ok. split.
  - intros (line & s1 & Hl & H). pose proof (line_state _ _ _ _ _ Hsafe Hl) as ->.
    apply st_bind_Ok in H as (rs & s2 & Hr & [= <- <-]). apply IH in Hr as [-> Hr]. split; [done|].
    constructor; [by exists p, line|done].
  - intros [-> H]. inversion H as [|? r ? rs (p' & line & Hp' & Hl & ->) Hr]; subst.
    rewrite Hp in Hp'. injection Hp' as <-. exists line, s. split; [done|].
    apply st_bind_Ok. exists rs, s. split; [|done]. by apply IH.
Qed.

Lemma completion_in_range chunk s : Forall (λ i, i < length chunk) (completion chunk s).
Proof. apply Forall_forall. intros i. rewrite (completes chunk s), elem_of_seq. lia. Qed.

(** A parallel segment of read-only tools does what running it in order does. *)
Lemma parallel_chunk engine chunk s outs s' : Forall safe chunk →
  run_parallel engine chunk s = (Ok outs, s') ↔ run_sequential engine chunk s = (Ok outs, s').
Proof.
  intros Hs. rewrite sequential_chunk by done. unfold execute_prepared_batch_in_parallel. rewrite st_bind_Ok.
  assert (Hsort : ∀ outs results, Forall2 (λ p line, to_line engine p s = (Ok line, s)) chunk outs →
    Forall2 (λ i r, ∃ p line, chunk !! i = Some p ∧ to_line engine p s = (Ok line, s) ∧ r = (i, line))
      (completion chunk s) results → (merge_sort index_le results).*2 = outs).
  { intros os rs Hos Hrs. apply (sort_by_index os (completion chunk s)).
    - rewrite <-(Forall2_length _ _ _ Hos). apply completes.
    - eapply Forall2_impl; [exact Hrs|]. intros i r (p & line & Hp & Hl & ->). exists line. split; [|done].
      destruct (Forall2_lookup_l _ _ _ _ _ Hos Hp) as (line' & Hline & Hl'). congruence. }
  split.
  - intros (results & s1 & Hd & [= <- <-]). apply drain_chunk in Hd as [-> Hr];
      [|done|apply completion_in_range]. split; [done|].
    destruct (Forall_choose (λ p line, to_line engine p s = (Ok line, s)) chunk) as [os Hos].
    { apply Forall_lookup. intros i p Hp.
      assert (Hin : i ∈ completion chunk s).
      { rewrite (completes chunk s), elem_of_seq. apply lookup_lt_Some in Hp. lia. }
      apply list_elem_of_lookup_1 in Hin as [n Hn].
      destruct (Forall2_lookup_l _ _ _ _ _ Hr Hn) as (r & _ & p' & line & Hp' & Hl & _).
      rewrite Hp in Hp'. injection Hp' as <-. by exists line. }
    by rewrite (Hsort os results Hos Hr).
  - intros [-> Hos].
    destruct (Forall_choose (λ i r, ∃ p line, chunk !! i = Some p ∧ to_line engine p s = (Ok line, s) ∧ r = (i, line))
      (completion chunk s)) as [results Hr].
    { eapply Forall_impl; [apply completion_in_range|]. intros i Hi.
      destruct (lookup_lt_is_Some_2 chunk i Hi) as [p Hp].
      destruct (Forall2_lookup_l _ _ _ _ _ Hos Hp) as (line & _ & Hl). exists (i, line), p, line. done. }
    exists results, s. split; [apply drain_chunk; [done|apply completion_in_range|done]|].
    unfold mret, st_ret. by rewrite (Hsort outs results Hos Hr).
Qed.

(** C19. Parallel execution changes only the timing: with read-only parallel-safe
    tools, whatever the order in which concurrent calls finish, a batch that the
    parallel engine completes gives exactly the result lines, in the order of
    the intents, and the final state that the sequential engine gives, and the
    other way round. *)
Theorem parallel_batch_equals_sequential par sequential prepared s outs s' :
  te_tool_result_payload_summary_limit_chars par = te_tool_result_payload_summary_limit_chars sequential →
  te_parallel_tool_execution_enabled sequential = false →
  run_batch par (prepared_batch_segments par prepared) prepared s = (Ok outs, s') ↔
  run_batch sequential (prepared_batch_segments sequential prepared) prepared s = (Ok outs, s').
Proof.
  intros Hlim Hoff.
  assert (Hline : ∀ p s, to_line par p s = to_line sequential p s) by (intros; unfold execute_to_line; by rewrite Hlim).
  assert (Hseq : ∀ chunk s, run_sequential par chunk s = run_sequential sequential chunk s).
  { induction chunk as [|p chunk IH]; intros s0; [done|]. cbn. rewrite !st_bind_run, Hline.
    destruct (to_line sequential p s0) as [[line|e] s1]; [|done]. by rewrite !st_bind_run, IH. }
  assert (Hmode : ∀ c n, segment_execution_mode sequential c n = Mode_Sequential)
    by (intros; unfold segment_execution_mode; by rewrite Hoff).
  unfold prepared_batch_segments. generalize (length prepared) as fuel. intros fuel.
  revert prepared s outs s'. induction fuel as [|fuel IH]; intros prepared s outs s'; [done|].
  destruct prepared as [|p ps]; [done|].
  cbn [batch_segments_fuel execute_prepared_batch bs_len bs_execution_mode]. rewrite Hmode.
  set (c := pi_scheduling_class p). set (len := run_length c (p :: ps)).
  assert (Hchunk : ∀ o s1, match segment_execution_mode par c len with
      | Mode_Parallel => run_parallel par (take len (p :: ps))
      | Mode_Sequential => run_sequential par (take len (p :: ps)) end s = (Ok o, s1) ↔
    run_sequential sequential (take len (p :: ps)) s = (Ok o, s1)).
  { intros o s1. rewrite <-Hseq. unfold segment_execution_mode.
    destruct (te_parallel_tool_execution_enabled par && _ && _ && _) eqn:E; [|done].
    apply parallel_chunk. eapply Forall_impl; [apply (run_length_all c)|]. intros q Hq.
    rewrite !andb_true_iff in E. destruct E as [[_ E] _]. apply bool_decide_eq_true in E.
    unfold safe. by rewrite Hq. }
  rewrite !st_bind_Ok. setoid_rewrite Hchunk. setoid_rewrite st_bind_Ok. setoid_rewrite IH. done.
Qed.
End equivalence.

(** ** Narrowed sessions *)

Lemma obj_get_reserved_scope payload session_id :
  payload_uses_reserved_internal_tool_context (inject_browser_scope_field payload session_id)
  = payload_uses_reserved_internal_tool_context payload.
Proof.
  unfold payload_uses_reserved_internal_tool_context. destruct payload as [| | | | |object]; try done.
  unfold inject_browser_scope_field. apply bool_decide_ext. rewrite !json_get_obj. by rewrite obj_get_insert_ne.
Qed.

Lemma reserved_augmented narrowing_to_value name args context n :
  sc_runtime_narrowing context = Some n → ToolRuntimeNarrowing_is_empty n = false →
  payload_uses_reserved_internal_tool_context
    (augment_tool_payload_for_kernel narrowing_to_value name (JObject args) context) = true.
Proof.
  intros Hn He.
  assert (Hinj : ∃ object, inject_runtime_narrowing_context narrowing_to_value (JObject args) context = JObject object ∧
    is_Some (obj_get LOONGCLAW_INTERNAL_TOOL_CONTEXT_KEY object)).
  { unfold inject_runtime_narrowing_context. rewrite Hn, He. eexists. split; [done|]. by rewrite obj_get_insert_eq. }
  destruct Hinj as (object & Hinj & Hkey). unfold augment_tool_payload_for_kernel. rewrite Hinj.
  destruct (browser_scope_injection_required name).
  { rewrite obj_get_reserved_scope. by apply bool_decide_eq_true. }
  destruct (bool_decide _ && _); [|by apply bool_decide_eq_true].
  destruct (obj_get "arguments" object); [|by apply bool_decide_eq_true].
  apply bool_decide_eq_true. rewrite json_get_obj. by rewrite obj_get_insert_ne, obj_get_remove_ne.
Qed.

(** In a session with a runtime narrowing every core tool call is refused: the
    engine writes the narrowing into the reserved field of the payload but does
    not mark the payload as trusted, and the dispatcher refuses untrusted
    payloads with that field. *)
Theorem narrowed_session_core_tools_refused {S W} codec secret (unix_now : S → Z) narrowing_to_value kernel dispatcher
    intent args context n (s : S) p s' (wnow : W → Z) trusted_cell narrowing_from_value handlers config (w : W) :
  in_args_json intent = JObject args →
  sc_runtime_narrowing context = Some n → ToolRuntimeNarrowing_is_empty n = false →
  prepare_tool_intent codec secret unix_now narrowing_to_value kernel dispatcher intent context None s = (Ok p, s') →
  pi_execution_kind p = Exec_Core → cell_get trusted_cell w = false →
  pi_trusted_internal_context p = false ∧
  execute_tool_core_with_config codec secret wnow trusted_cell narrowing_from_value handlers (pi_request p) config w
  = (Err ("tool `" +:+ tcr_tool_name (pi_request p) +:+ "` payload._loongclaw"
          +:+ " is reserved for trusted internal tool context; retry without that field"), w).
Proof.
  intros Hargs Hn He Hprep Hkind Hw. unfold prepare_tool_intent in Hprep.
  destruct (resolve_tool_execution (in_tool_name intent)) as [r|]; [|done].
  cbn [inject_internal_tool_ingress ip_payload ip_trusted_internal_context] in Hprep. rewrite Hargs in Hprep.
  set (request := mkToolCoreRequest _ _) in Hprep.
  assert (Hres : payload_uses_reserved_internal_tool_context (tcr_payload request) = true)
    by (by eapply reserved_augmented).
  match type of Hprep with context [if bool_decide (?a = ?b) then ?x else ?y] =>
    destruct (if bool_decide (a = b) then x else y) as [[kind eff] i] eqn:Heff end.
  assert (Hcore : kind = Exec_Core → eff = request).
  { intros ->. case_bool_decide; [|by simplify_eq].
    destruct (resolve_tool_invoke_request _ _ _ _) as [[ir iq]|]; [|by simplify_eq].
    by destruct (rte_execution_kind ir); simplify_eq. }
  destruct (catalog_resolve (tcr_tool_name eff)) as [d|]; [|done].
  destruct kind; [|by destruct (ad_maybe_require_approval _ _ _ _ _) as [[[?|]|?] ?]; simplify_eq].
  rewrite (Hcore eq_refl) in Hprep. destruct kernel; [|done]. injection Hprep as <- <-. split; [done|].
  unfold execute_tool_core_with_config. cbn [pi_request]. by rewrite Hw, Hres.
Qed.

Module TurnEngineDemo.
(** Two parallel-safe reads around a serial write; concurrent calls finish in
    reverse order. *)
Definition world : Type := Z.
Definition kernel : option (ToolCoreRequest → bool → ST world KernelError ToolCoreOutcome) :=
  Some (λ request _, mret (mkToolCoreOutcome "ok" (tcr_payload request))).
Definition dispatcher : AppToolDispatcher world :=
  mkAppToolDispatcher (λ _ _ _, mret None) (λ _ _, mret (mkToolCoreOutcome "ok" JNull)).
Definition backwards (chunk : list PreparedToolIntent) (_ : world) : list nat := rev (seq 0 (length chunk)).
Definition context : SessionContext := root_with_tool_view "s" ∅.

Definition call (name id : string) : ToolIntent := mkToolIntent name (JObject []) "provider_tool_call" "s" "t" id.
Definition prepared_call (name id : string) (c : ToolSchedulingClass) : PreparedToolIntent :=
  mkPreparedToolIntent (call name id) (mkToolCoreRequest name (JObject [])) Exec_Core c false.
Definition batch : list PreparedToolIntent :=
  [prepared_call "web.search" "1" Sched_ParallelSafe; prepared_call "tool.search" "2" Sched_ParallelSafe;
   prepared_call "shell.exec" "3" Sched_SerialOnly].

Definition show (e : ToolResultEnvelope) : string := tre_tool e +:+ "#" +:+ tre_tool_call_id e.
Definition par : TurnEngine := with_parallel_tool_execution 8 2048 true 4.
Definition run (engine : TurnEngine) :=
  execute_prepared_batch (λ _, "{}") show kernel dispatcher backwards engine context
    (prepared_batch_segments engine batch) batch 7%Z.

Example batch_modes : bs_execution_mode <$> prepared_batch_segments par batch = [Mode_Parallel; Mode_Sequential].
Proof. by vm_compute. Qed.

Lemma parallel_witness :
  run par = (Ok ["[ok] web.search#1"; "[ok] tool.search#2"; "[ok] shell.exec#3"], 7%Z) ∧
  run (TurnEngine_new 8) = (Ok ["[ok] web.search#1"; "[ok] tool.search#2"; "[ok] shell.exec#3"], 7%Z).
Proof.
  assert (Hpar : run par = (Ok ["[ok] web.search#1"; "[ok] tool.search#2"; "[ok] shell.exec#3"], 7%Z))
    by (vm_compute; reflexivity).
  split; [exact Hpar|].
  refine (proj1 (parallel_batch_equals_sequential (λ _, "{}") show kernel dispatcher backwards context
    _ _ par (TurnEngine_new 8) batch 7%Z _ 7%Z _ _) Hpar).
  - intros chunk s. apply Permutation_sym, Permutation_rev.
  - intros engine p s _. unfold execute_to_line, execute_prepared_tool_intent.
    destruct (pi_execution_kind p); reflexivity.
  - reflexivity.
  - reflexivity.
Defined.

(** The refusal at work: a child session limited to one page per fetch. *)
Definition narrow : ToolRuntimeNarrowing :=
  mkToolRuntimeNarrowing (mkBrowserRuntimeNarrowing (Some 1%Z) None None)
    (mkWebFetchRuntimeNarrowing None ∅ ∅ None None None).
Definition child : SessionContext := with_runtime_narrowing narrow (SessionContext_child "c" "p" ∅).

Example narrowed_child_refused :
  match prepare_tool_intent LeaseDemo.bit_codec "k" (λ _ : world, 0%Z) (λ _, JObject []) kernel dispatcher
          (call "shell.exec" "1") child None 7%Z with
  | (Ok p, _) =>
      (core_execute ToolDispatchDemo.tools (pi_request p) (AuditSinks.EventLog_default, false)).1
      = Err (Tool_Execution ("tool `shell.exec` payload._loongclaw is reserved for trusted internal "
                             +:+ "tool context; retry without that field"))
  | _ => False
  end.
Proof. by vm_compute. Qed.
End TurnEngineDemo.
