(* ===== verification/SessionDb.v ===== *)
(** * SessionDb: the SQLite tables behind sessions, and how code reaches them

    The tables created in app/src/memory/sqlite.rs that the session repository
    uses, the statements it runs on them, and connections. The database is
    shared with other connections: [others] is what they do between two
    statements of ours, and [fault] makes any statement fail. A statement is
    atomic; a transaction is isolated and either commits or leaves no trace. *)
From S2P Require Import Prelude RustStr Contracts.

(** [match call { Ok(a) => .., Err(e) => .. }] on a stateful call *)
Definition st_match {S E E' A B} (m : ST S E A) (on_ok : A → ST S E' B) (on_err : E → ST S E' B) : ST S E' B :=
  λ s, match m s with (Ok a, s') => on_ok a s' | (Err e, s') => on_err e s' end.

(** ** Rows *)
Record SessionRow := mkSessionRow {
  sr_session_id : string;
  sr_kind : string;
  sr_parent_session_id : option string;
  sr_label : option string;
  sr_state : string;
  sr_created_at : Z;
  sr_updated_at : Z;
  sr_last_error : option string }.

Record EventRow := mkEventRow {
  er_id : Z;
  er_session_id : string;
  er_event_kind : string;
  er_actor_session_id : option string;
  er_payload_json : string;
  er_ts : Z }.

Record OutcomeRow := mkOutcomeRow {
  or_session_id : string;
  or_status : string;
  or_payload_json : string;
  or_recorded_at : Z }.

Record RequestRow := mkRequestRow {
  rr_approval_request_id : string;
  rr_session_id : string;
  rr_turn_id : string;
  rr_tool_call_id : string;
  rr_tool_name : string;
  rr_approval_key : string;
  rr_status : string;
  rr_decision : option string;
  rr_request_payload_json : string;
  rr_governance_snapshot_json : string;
  rr_requested_at : Z;
  rr_resolved_at : option Z;
  rr_resolved_by_session_id : option string;
  rr_executed_at : option Z;
  rr_last_error : option string }.

Record GrantRow := mkGrantRow {
  gr_scope_session_id : string;
  gr_approval_key : string;
  gr_created_by_session_id : option string;
  gr_created_at : Z;
  gr_updated_at : Z }.

(** The columns of [turns] that sessions are summarized from *)
Record TurnRow := mkTurnRow { tn_session_id : string; tn_ts : Z }.

(** Tables with a primary key are maps; [session_events] has an
    [AUTOINCREMENT] key, whose last value is [db_event_seq]. *)
Record Db := mkDb {
  db_sessions : gmap string SessionRow;
  db_events : list EventRow;
  db_event_seq : Z;
  db_outcomes : gmap string OutcomeRow;
  db_requests : gmap string RequestRow;
  db_grants : gmap (string * string) GrantRow;
  db_turns : list TurnRow }.

Definition Db_empty : Db := mkDb ∅ [] 0 ∅ ∅ ∅ [].

Definition set_sessions (m : gmap string SessionRow) (db : Db) : Db :=
  mkDb m (db_events db) (db_event_seq db) (db_outcomes db) (db_requests db) (db_grants db) (db_turns db).
Definition set_outcomes (m : gmap string OutcomeRow) (db : Db) : Db :=
  mkDb (db_sessions db) (db_events db) (db_event_seq db) m (db_requests db) (db_grants db) (db_turns db).
Definition set_requests (m : gmap string RequestRow) (db : Db) : Db :=
  mkDb (db_sessions db) (db_events db) (db_event_seq db) (db_outcomes db) m (db_grants db) (db_turns db).
Definition set_grants (m : gmap (string * string) GrantRow) (db : Db) : Db :=
  mkDb (db_sessions db) (db_events db) (db_event_seq db) (db_outcomes db) (db_requests db) m (db_turns db).

(** ** Statements

    A statement reads or changes the database, or reports an SQLite error. *)
Definition Sql (A : Type) : Type := Db → result string (A * Db).

(** [SELECT] *)
Definition sql_select {A} (f : Db → A) : Sql A := λ db, Ok (f db, db).

(** [INSERT INTO sessions(..) VALUES (..)] *)
Definition sql_insert_session (row : SessionRow) : Sql unit := λ db,
  match db_sessions db !! sr_session_id row with
  | Some _ => Err "UNIQUE constraint failed: sessions.session_id"
  | None => Ok ((), set_sessions (<[sr_session_id row := row]> (db_sessions db)) db)
  end.

(** [UPDATE sessions SET .. WHERE session_id = ?1 AND ..], with the number of
    rows it changed *)
Definition sql_update_session (session_id : string) (cond : SessionRow → bool) (f : SessionRow → SessionRow) :
    Sql nat := λ db,
  match db_sessions db !! session_id with
  | Some row =>
      if cond row then Ok (1, set_sessions (<[session_id := f row]> (db_sessions db)) db) else Ok (0, db)
  | None => Ok (0, db)
  end.

(** [SET state = .., updated_at = .., last_error = ..] *)
Definition set_session_state (state : string) (ts : Z) (last_error : option string) (row : SessionRow) :
    SessionRow :=
  mkSessionRow (sr_session_id row) (sr_kind row) (sr_parent_session_id row) (sr_label row) state
    (sr_created_at row) ts last_error.

(** [INSERT INTO session_events(..) VALUES (..)] and [last_insert_rowid()] *)
Definition sql_insert_event (session_id event_kind : string) (actor_session_id : option string)
    (payload_json : string) (ts : Z) : Sql Z := λ db,
  let id := (db_event_seq db + 1)%Z in
  Ok (id, mkDb (db_sessions db)
            (db_events db ++ [mkEventRow id session_id event_kind actor_session_id payload_json ts]) id
            (db_outcomes db) (db_requests db) (db_grants db) (db_turns db)).

(** [INSERT INTO session_terminal_outcomes(..) .. ON CONFLICT(session_id) DO UPDATE SET ..] *)
Definition sql_upsert_outcome (row : OutcomeRow) : Sql unit := λ db,
  Ok ((), set_outcomes (<[or_session_id row := row]> (db_outcomes db)) db).

(** [INSERT INTO approval_requests(..) VALUES (..)] *)
Definition sql_insert_request (row : RequestRow) : Sql unit := λ db,
  match db_requests db !! rr_approval_request_id row with
  | Some _ => Err "UNIQUE constraint failed: approval_requests.approval_request_id"
  | None => Ok ((), set_requests (<[rr_approval_request_id row := row]> (db_requests db)) db)
  end.

(** [UPDATE approval_requests SET .. WHERE approval_request_id = ?1 AND status = ?2] *)
Definition sql_update_request (approval_request_id expected_status : string) (f : RequestRow → RequestRow) :
    Sql nat := λ db,
  match db_requests db !! approval_request_id with
  | Some row =>
      if bool_decide (rr_status row = expected_status)
      then Ok (1, set_requests (<[approval_request_id := f row]> (db_requests db)) db) else Ok (0, db)
  | None => Ok (0, db)
  end.

(** [CASE WHEN ?n IS NULL THEN column ELSE ?n END], also [COALESCE] *)
Definition coalesce {A} (new old : option A) : option A :=
  match new with Some _ => new | None => old end.

(** [INSERT INTO approval_grants(..) .. ON CONFLICT(..) DO UPDATE SET
    created_by_session_id = COALESCE(..), updated_at = ..] *)
Definition sql_upsert_grant (row : GrantRow) : Sql unit := λ db,
  let key := (gr_scope_session_id row, gr_approval_key row) in
  let row' :=
    match db_grants db !! key with
    | None => row
    | Some old =>
        mkGrantRow (gr_scope_session_id old) (gr_approval_key old)
          (coalesce (gr_created_by_session_id row) (gr_created_by_session_id old))
          (gr_created_at old) (gr_updated_at row)
    end in
  Ok ((), set_grants (<[key := row']> (db_grants db)) db).

(** [LIMIT n]: a negative limit is no limit *)
Definition sql_limit {A} (n : Z) (l : list A) : list A :=
  if (n <? 0)%Z then l else take (Z.to_nat n) l.

(** [MIN], [MAX] over a column: [NULL] for no rows *)
Definition sql_max (l : list Z) : option Z :=
  match l with [] => None | x :: l => Some (foldl Z.max x l) end.
Definition sql_min (l : list Z) : option Z :=
  match l with [] => None | x :: l => Some (foldl Z.min x l) end.

(** ** Connections *)
Section connections.
Context {W : Type}.

(** The environment: whether the next statement fails, what other connections
    do meanwhile, and the clock. *)
Record DbEnv := mkDbEnv {
  env_fault : W → option string * W;
  env_others : Db * W → Db * W;
  env_clock : W → Z * W }.
Context (env : DbEnv).

Abbreviation DB := (ST (Db * W) string).

(** One statement in the current state of the database. *)
Definition run_sql {A} (context : string → string) (q : Sql A) : DB A := λ '(db, w),
  let '(fault, w) := env_fault env w in
  match fault with
  | Some error => (Err (context error), (db, w))
  | None =>
      match q db with
      | Err error => (Err (context error), (db, w))
      | Ok (a, db') => (Ok a, (db', w))
      end
  end.

(** What happens outside our transactions *)
Definition yield_to_others : DB unit := λ s, (Ok (), env_others env s).

(** A statement of a connection in autocommit mode *)
Definition statement {A} (context : string → string) (q : Sql A) : DB A :=
  yield_to_others ≫= λ _, run_sql context q.

(** [Connection::open] *)
Definition open_connection : DB unit :=
  statement (λ error, "open session repository sqlite db failed: " +:+ error) (sql_select (λ _, ())).

(** [conn.transaction()] .. [tx.commit()]: [body] says whether to commit; a
    transaction dropped without a commit is rolled back. *)
Definition transaction {A} (begin_context commit_context : string → string) (body : DB (A * bool)) : DB A :=
  λ s,
  let s := env_others env s in
  match run_sql begin_context (sql_select (λ _, ())) s with
  | (Err error, s) => (Err error, s)
  | (Ok _, s) =>
      let db0 := s.1 in
      match body s with
      | (Err error, (_, w)) => (Err error, (db0, w))
      | (Ok (a, false), (_, w)) => (Ok a, (db0, w))
      | (Ok (a, true), s) =>
          match run_sql commit_context (sql_select (λ _, ())) s with
          | (Err error, (_, w)) => (Err error, (db0, w))
          | (Ok _, s) => (Ok a, s)
          end
      end
  end.

(** [unix_ts_now] *)
Definition unix_ts_now : DB Z := λ '(db, w), let '(t, w) := env_clock env w in (Ok t, (db, w)).
End connections.
Arguments DbEnv : clear implicits.
Arguments mkDbEnv {_} _ _ _.
