(* ===== verification/SessionRepo.v ===== *)
(** * SessionRepo: the session repository (app/src/session/repository.rs)

    Sessions with their lineage, their events and terminal outcomes, approval
    requests and approval grants, as operations on the tables of [SessionDb].
    Every operation is the source's sequence of statements and transactions;
    texts of errors are the source's. *)
From S2P Require Import Prelude RustStr Contracts Json SessionDb.

(** ** Values stored as text *)
Inductive SessionKind := Kind_Root | Kind_DelegateChild.
Inductive SessionState := State_Ready | State_Running | State_Completed | State_Failed | State_TimedOut.
Inductive ApprovalRequestStatus :=
  Status_Pending | Status_Approved | Status_Executing | Status_Executed | Status_Denied | Status_Expired
| Status_Cancelled.
Inductive ApprovalDecision := Decision_ApproveOnce | Decision_ApproveAlways | Decision_Deny.

#[export] Instance SessionKind_eq_dec : EqDecision SessionKind.
Proof. solve_decision. Defined.
#[export] Instance SessionState_eq_dec : EqDecision SessionState.
Proof. solve_decision. Defined.
#[export] Instance ApprovalRequestStatus_eq_dec : EqDecision ApprovalRequestStatus.
Proof. solve_decision. Defined.
#[export] Instance ApprovalDecision_eq_dec : EqDecision ApprovalDecision.
Proof. solve_decision. Defined.

Definition SessionKind_as_str (k : SessionKind) : string :=
  match k with Kind_Root => "root" | Kind_DelegateChild => "delegate_child" end.
Definition SessionKind_from_db (value : string) : result string SessionKind :=
  if bool_decide (value = "root") then Ok Kind_Root
  else if bool_decide (value = "delegate_child") then Ok Kind_DelegateChild
  else Err ("unknown session kind `" +:+ value +:+ "`").

Definition SessionState_as_str (s : SessionState) : string :=
  match s with
  | State_Ready => "ready" | State_Running => "running" | State_Completed => "completed"
  | State_Failed => "failed" | State_TimedOut => "timed_out"
  end.
Definition SessionState_from_db (value : string) : result string SessionState :=
  if bool_decide (value = "ready") then Ok State_Ready
  else if bool_decide (value = "running") then Ok State_Running
  else if bool_decide (value = "completed") then Ok State_Completed
  else if bool_decide (value = "failed") then Ok State_Failed
  else if bool_decide (value = "timed_out") then Ok State_TimedOut
  else Err ("unknown session state `" +:+ value +:+ "`").

Definition ApprovalRequestStatus_as_str (s : ApprovalRequestStatus) : string :=
  match s with
  | Status_Pending => "pending" | Status_Approved => "approved" | Status_Executing => "executing"
  | Status_Executed => "executed" | Status_Denied => "denied" | Status_Expired => "expired"
  | Status_Cancelled => "cancelled"
  end.
Definition ApprovalRequestStatus_from_db (value : string) : result string ApprovalRequestStatus :=
  if bool_decide (value = "pending") then Ok Status_Pending
  else if bool_decide (value = "approved") then Ok Status_Approved
  else if bool_decide (value = "executing") then Ok Status_Executing
  else if bool_decide (value = "executed") then Ok Status_Executed
  else if bool_decide (value = "denied") then Ok Status_Denied
  else if bool_decide (value = "expired") then Ok Status_Expired
  else if bool_decide (value = "cancelled") then Ok Status_Cancelled
  else Err ("unknown approval request status `" +:+ value +:+ "`").

Definition ApprovalDecision_as_str (d : ApprovalDecision) : string :=
  match d with
  | Decision_ApproveOnce => "approve_once" | Decision_ApproveAlways => "approve_always"
  | Decision_Deny => "deny"
  end.
Definition ApprovalDecision_from_db (value : string) : result string ApprovalDecision :=
  if bool_decide (value = "approve_once") then Ok Decision_ApproveOnce
  else if bool_decide (value = "approve_always") then Ok Decision_ApproveAlways
  else if bool_decide (value = "deny") then Ok Decision_Deny
  else Err ("unknown approval decision `" +:+ value +:+ "`").

(** ** Records *)
Record SessionRecord := mkSessionRecord {
  sn_session_id : string;
  sn_kind : SessionKind;
  sn_parent_session_id : option string;
  sn_label : option string;
  sn_state : SessionState;
  sn_created_at : Z;
  sn_updated_at : Z;
  sn_last_error : option string }.

Record SessionEventRecord := mkSessionEventRecord {
  se_id : Z;
  se_session_id : string;
  se_event_kind : string;
  se_actor_session_id : option string;
  se_payload_json : Value;
  se_ts : Z }.

Record SessionTerminalOutcomeRecord := mkSessionTerminalOutcomeRecord {
  to_session_id : string;
  to_status : string;
  to_payload_json : Value;
  to_recorded_at : Z }.

Record ApprovalRequestRecord := mkApprovalRequestRecord {
  aq_approval_request_id : string;
  aq_session_id : string;
  aq_turn_id : string;
  aq_tool_call_id : string;
  aq_tool_name : string;
  aq_approval_key : string;
  aq_status : ApprovalRequestStatus;
  aq_decision : option ApprovalDecision;
  aq_request_payload_json : Value;
  aq_governance_snapshot_json : Value;
  aq_requested_at : Z;
  aq_resolved_at : option Z;
  aq_resolved_by_session_id : option string;
  aq_executed_at : option Z;
  aq_last_error : option string }.

Record NewApprovalRequestRecord := mkNewApprovalRequestRecord {
  nr_approval_request_id : string;
  nr_session_id : string;
  nr_turn_id : string;
  nr_tool_call_id : string;
  nr_tool_name : string;
  nr_approval_key : string;
  nr_request_payload_json : Value;
  nr_governance_snapshot_json : Value }.

Record TransitionApprovalRequestIfCurrentRequest := mkTransitionApprovalRequest {
  ta_expected_status : ApprovalRequestStatus;
  ta_next_status : ApprovalRequestStatus;
  ta_decision : option ApprovalDecision;
  ta_resolved_by_session_id : option string;
  ta_executed_at : option Z;
  ta_last_error : option string }.

Record ApprovalGrantRecord := mkApprovalGrantRecord {
  ag_scope_session_id : string;
  ag_approval_key : string;
  ag_created_by_session_id : option string;
  ag_created_at : Z;
  ag_updated_at : Z }.

Record NewApprovalGrantRecord := mkNewApprovalGrantRecord {
  ng_scope_session_id : string;
  ng_approval_key : string;
  ng_created_by_session_id : option string }.

Record SessionSummaryRecord := mkSessionSummaryRecord {
  ss_session_id : string;
  ss_kind : SessionKind;
  ss_parent_session_id : option string;
  ss_label : option string;
  ss_state : SessionState;
  ss_created_at : Z;
  ss_updated_at : Z;
  ss_archived_at : option Z;
  ss_turn_count : Z;
  ss_last_turn_at : option Z;
  ss_last_error : option string }.

Record SessionObservationRecord := mkSessionObservationRecord {
  so_session : SessionSummaryRecord;
  so_terminal_outcome : option SessionTerminalOutcomeRecord;
  so_recent_events : list SessionEventRecord;
  so_tail_events : list SessionEventRecord }.

Record NewSessionRecord := mkNewSessionRecord {
  ns_session_id : string;
  ns_kind : SessionKind;
  ns_parent_session_id : option string;
  ns_label : option string;
  ns_state : SessionState }.

Record NewSessionEvent := mkNewSessionEvent {
  ne_session_id : string;
  ne_event_kind : string;
  ne_actor_session_id : option string;
  ne_payload_json : Value }.

Record CreateSessionWithEventRequest := mkCreateSessionWithEventRequest {
  cs_session : NewSessionRecord;
  cs_event_kind : string;
  cs_actor_session_id : option string;
  cs_event_payload_json : Value }.

Record CreateSessionWithEventResult := mkCreateSessionWithEventResult {
  cr_session : SessionRecord;
  cr_event : SessionEventRecord }.

Record FinalizeSessionTerminalRequest := mkFinalizeSessionTerminalRequest {
  fr_state : SessionState;
  fr_last_error : option string;
  fr_event_kind : string;
  fr_actor_session_id : option string;
  fr_event_payload_json : Value;
  fr_outcome_status : string;
  fr_outcome_payload_json : Value }.

Record FinalizeSessionTerminalResult := mkFinalizeSessionTerminalResult {
  ff_session : SessionRecord;
  ff_event : SessionEventRecord;
  ff_terminal_outcome : SessionTerminalOutcomeRecord }.

Record TransitionSessionWithEventIfCurrentRequest := mkTransitionSessionWithEvent {
  ts_expected_state : SessionState;
  ts_next_state : SessionState;
  ts_last_error : option string;
  ts_event_kind : string;
  ts_actor_session_id : option string;
  ts_event_payload_json : Value }.

Record TransitionSessionWithEventResult := mkTransitionSessionWithEventResult {
  tr_session : SessionRecord;
  tr_event : SessionEventRecord }.

(** ** Helpers *)
Definition normalize_required_text (value field_name : string) : result string string :=
  let trimmed := trim value in
  if is_empty trimmed then Err ("session repository requires " +:+ field_name) else Ok trimmed.

Definition normalize_optional_text (value : option string) : option string :=
  value ≫= λ raw, let trimmed := trim raw in if is_empty trimmed then None else Some trimmed.

Definition infer_legacy_session_kind (session_id : string) : SessionKind :=
  if starts_with "delegate:" session_id then Kind_DelegateChild else Kind_Root.

(** [ORDER BY updated_at DESC, session_id ASC], also [sort_session_summaries] *)
Definition newest_first (key : string * Z) (key' : string * Z) : Prop :=
  (key'.2 < key.2)%Z ∨ (key'.2 = key.2 ∧ String.le key.1 key'.1).
#[export] Instance newest_first_dec : RelDecision newest_first.
Proof. intros ??. unfold newest_first. apply _. Defined.

Definition row_newest_first (r r' : SessionRow) : Prop :=
  newest_first (sr_session_id r, sr_updated_at r) (sr_session_id r', sr_updated_at r').
#[export] Instance row_newest_first_dec : RelDecision row_newest_first.
Proof. intros ??. unfold row_newest_first. apply _. Defined.

Definition summary_newest_first (s s' : SessionSummaryRecord) : Prop :=
  newest_first (ss_session_id s, ss_updated_at s) (ss_session_id s', ss_updated_at s').
#[export] Instance summary_newest_first_dec : RelDecision summary_newest_first.
Proof. intros ??. unfold summary_newest_first. apply _. Defined.

Definition sort_session_summaries (sessions : list SessionSummaryRecord) : list SessionSummaryRecord :=
  stable_sort summary_newest_first sessions.

Definition request_newest_first (r r' : RequestRow) : Prop :=
  newest_first (rr_approval_request_id r, rr_requested_at r) (rr_approval_request_id r', rr_requested_at r').
#[export] Instance request_newest_first_dec : RelDecision request_newest_first.
Proof. intros ??. unfold request_newest_first. apply _. Defined.

(** [row.map(..).transpose()] and [for row in rows { out.push(try_from_raw(row)?) }] *)
Definition transpose {A B} (f : A → result string B) (o : option A) : result string (option B) :=
  match o with None => Ok None | Some a => Some <$> f a end.
Fixpoint map_rows {A B} (f : A → result string B) (rows : list A) : result string (list B) :=
  match rows with
  | [] => Ok []
  | row :: rows => f row ≫= λ b, map_rows f rows ≫= λ bs, Ok (b :: bs)
  end.

(** The text form of JSON: [serde_json::to_string] and [from_str] *)
Record JsonText := mkJsonText {
  jt_to_string : Value → string;
  jt_from_str : string → result string Value }.

Definition SessionRecord_try_from_raw (raw : SessionRow) : result string SessionRecord :=
  kind ← SessionKind_from_db (sr_kind raw);
  state ← SessionState_from_db (sr_state raw);
  Ok (mkSessionRecord (sr_session_id raw) kind (sr_parent_session_id raw) (sr_label raw) state
        (sr_created_at raw) (sr_updated_at raw) (sr_last_error raw)).

Section raw_records.
Context (json : JsonText).

Definition SessionEventRecord_try_from_raw (raw : EventRow) : result string SessionEventRecord :=
  payload ← map_err (λ error, "decode session event payload failed: " +:+ error)
              (jt_from_str json (er_payload_json raw));
  Ok (mkSessionEventRecord (er_id raw) (er_session_id raw) (er_event_kind raw) (er_actor_session_id raw)
        payload (er_ts raw)).

Definition SessionTerminalOutcomeRecord_try_from_raw (raw : OutcomeRow) :
    result string SessionTerminalOutcomeRecord :=
  payload ← map_err (λ error, "decode session terminal outcome payload failed: " +:+ error)
              (jt_from_str json (or_payload_json raw));
  Ok (mkSessionTerminalOutcomeRecord (or_session_id raw) (or_status raw) payload (or_recorded_at raw)).

Definition ApprovalRequestRecord_try_from_raw (raw : RequestRow) : result string ApprovalRequestRecord :=
  status ← ApprovalRequestStatus_from_db (rr_status raw);
  decision ← transpose ApprovalDecision_from_db (rr_decision raw);
  request_payload ← map_err (λ error, "decode approval request payload failed: " +:+ error)
                      (jt_from_str json (rr_request_payload_json raw));
  snapshot ← map_err (λ error, "decode approval governance snapshot failed: " +:+ error)
               (jt_from_str json (rr_governance_snapshot_json raw));
  Ok (mkApprovalRequestRecord (rr_approval_request_id raw) (rr_session_id raw) (rr_turn_id raw)
        (rr_tool_call_id raw) (rr_tool_name raw) (rr_approval_key raw) status decision request_payload
        snapshot (rr_requested_at raw) (rr_resolved_at raw) (rr_resolved_by_session_id raw)
        (rr_executed_at raw) (rr_last_error raw)).
End raw_records.

Definition ApprovalGrantRecord_try_from_raw (raw : GrantRow) : result string ApprovalGrantRecord :=
  Ok (mkApprovalGrantRecord (gr_scope_session_id raw) (gr_approval_key raw) (gr_created_by_session_id raw)
        (gr_created_at raw) (gr_updated_at raw)).

(** ** Queries *)

Definition rows {K A} `{Countable K} (m : gmap K A) : list A := (map_to_list m).*2.

Definition session_turns (session_id : string) (db : Db) : list Z :=
  tn_ts <$> filter (λ t, tn_session_id t = session_id) (db_turns db).

Definition archived_at (session_id : string) (db : Db) : option Z :=
  sql_max (er_ts <$> filter (λ e, er_session_id e = session_id ∧ er_event_kind e = "session_archived")
             (db_events db)).

(** A row of the summary query, decoded by [SessionSummaryRecord::try_from_raw] *)
Definition SessionSummaryRecord_of_row (db : Db) (row : SessionRow) : result string SessionSummaryRecord :=
  kind ← SessionKind_from_db (sr_kind row);
  state ← SessionState_from_db (sr_state row);
  let turns := session_turns (sr_session_id row) db in
  Ok (mkSessionSummaryRecord (sr_session_id row) kind (sr_parent_session_id row) (sr_label row) state
        (sr_created_at row) (sr_updated_at row) (archived_at (sr_session_id row) db)
        (Z.max (len turns) 0) (sql_max turns) (sr_last_error row)).

(** [WITH RECURSIVE visible(session_id) AS (.. UNION ..)]: the session and all
    that descend from it. Every round adds a session, so as many rounds as there
    are sessions reach the fixed point ([SessionRepoProps.visible_set_spec]). *)
Definition child_of (visible : gset string) (row : SessionRow) : bool :=
  match sr_parent_session_id row with Some parent => bool_decide (parent ∈ visible) | None => false end.
Definition visible_step (sessions : gmap string SessionRow) (visible : gset string) : gset string :=
  visible ∪ dom (filter (λ p : string * SessionRow, child_of visible p.2 = true) sessions).
Definition visible_set (sessions : gmap string SessionRow) (current_session_id : string) : gset string :=
  Nat.iter (size sessions) (visible_step sessions)
    (match sessions !! current_session_id with Some _ => {[current_session_id]} | None => ∅ end).

Definition select_session (session_id : string) (db : Db) : option SessionRow := db_sessions db !! session_id.

Definition is_active (row : SessionRow) : Prop := sr_state row = "ready" ∨ sr_state row = "running".
#[export] Instance is_active_dec row : Decision (is_active row).
Proof. unfold is_active. apply _. Defined.
Definition count_active_children (parent_session_id : string) (db : Db) : nat :=
  size (filter (λ p : string * SessionRow,
                  sr_parent_session_id p.2 = Some parent_session_id ∧ is_active p.2) (db_sessions db)).

(** ** The repository *)
Section repository.
Context {W : Type} (env : DbEnv W) (json : JsonText).
Abbreviation DB := (ST (Db * W) string).

(** [SessionRepository::new]: the tables exist or are created, which can fail *)
Definition SessionRepository_new : DB unit := statement env id (sql_select (λ _, ())).

(** A connection runs statements on its own or inside a transaction. *)
Definition Conn : Type := ∀ A, (string → string) → Sql A → DB A.
Definition autocommit : Conn := λ A, statement env.
Definition in_tx : Conn := λ A, run_sql env.

Definition load_session (session_id : string) : DB (option SessionRecord) :=
  lift (normalize_required_text session_id "session_id") ≫= λ session_id,
  open_connection env ≫= λ _,
  statement env (λ error, "load session row failed: " +:+ error) (sql_select (select_session session_id))
  ≫= λ raw, lift (transpose SessionRecord_try_from_raw raw).

(** [self.load_session(&id)?.ok_or_else(..)] *)
Definition reload_session (session_id missing : string) : DB SessionRecord :=
  load_session session_id ≫= λ session, lift (ok_or session missing).

Definition new_session_row (session_id : string) (kind : SessionKind) (parent label : option string)
    (state : SessionState) (ts : Z) : SessionRow :=
  mkSessionRow session_id (SessionKind_as_str kind) parent label (SessionState_as_str state) ts ts None.

Definition create_session (record : NewSessionRecord) : DB SessionRecord :=
  lift (normalize_required_text (ns_session_id record) "session_id") ≫= λ session_id,
  unix_ts_now env ≫= λ ts,
  open_connection env ≫= λ _,
  statement env (λ error, "insert session row failed: " +:+ error)
    (sql_insert_session
       (new_session_row session_id (ns_kind record) (normalize_optional_text (ns_parent_session_id record))
          (normalize_optional_text (ns_label record)) (ns_state record) ts)) ≫= λ _,
  reload_session session_id ("session row `" +:+ session_id +:+ "` disappeared after insert").

Definition ensure_session (record : NewSessionRecord) : DB SessionRecord :=
  lift (normalize_required_text (ns_session_id record) "session_id") ≫= λ session_id,
  load_session session_id ≫= λ existing,
  match existing with
  | Some existing => mret existing
  | None =>
      st_match (create_session record) mret (λ error,
        if contains "UNIQUE constraint failed" error
        then reload_session session_id ("session `" +:+ session_id +:+ "` missing after concurrent insert")
        else throw error)
  end.

Definition create_session_with_event_in_tx (request : CreateSessionWithEventRequest) : DB SessionEventRecord :=
  lift (normalize_required_text (ns_session_id (cs_session request)) "session_id") ≫= λ session_id,
  let parent_session_id := normalize_optional_text (ns_parent_session_id (cs_session request)) in
  let label := normalize_optional_text (ns_label (cs_session request)) in
  lift (normalize_required_text (cs_event_kind request) "event_kind") ≫= λ event_kind,
  let actor_session_id := normalize_optional_text (cs_actor_session_id request) in
  unix_ts_now env ≫= λ ts,
  run_sql env (λ error, "insert session row failed: " +:+ error)
    (sql_insert_session (new_session_row session_id (ns_kind (cs_session request)) parent_session_id label
                           (ns_state (cs_session request)) ts)) ≫= λ _,
  run_sql env (λ error, "insert session event failed: " +:+ error)
    (sql_insert_event session_id event_kind actor_session_id
       (jt_to_string json (cs_event_payload_json request)) ts) ≫= λ id,
  mret (mkSessionEventRecord id session_id event_kind actor_session_id (cs_event_payload_json request) ts).

Definition create_session_with_event (request : CreateSessionWithEventRequest) : DB CreateSessionWithEventResult :=
  open_connection env ≫= λ _,
  transaction env (λ error, "open session create transaction failed: " +:+ error)
    (λ error, "commit session create transaction failed: " +:+ error)
    (create_session_with_event_in_tx request ≫= λ event, mret (event, true)) ≫= λ event,
  reload_session (se_session_id event) ("session `" +:+ se_session_id event +:+ "` disappeared after insert")
  ≫= λ session, mret (mkCreateSessionWithEventResult session event).

Definition count_active_direct_children_with_conn (exec : Conn) (parent_session_id : string) : DB nat :=
  exec _ (λ error, "count active direct child sessions failed: " +:+ error)
    (sql_select (count_active_children parent_session_id)).

Definition count_active_direct_children (parent_session_id : string) : DB nat :=
  lift (normalize_required_text parent_session_id "parent_session_id") ≫= λ parent_session_id,
  open_connection env ≫= λ _, count_active_direct_children_with_conn autocommit parent_session_id.

(** The checks between counting and creating *)
Definition check_child_request (parent_session_id : string) (request : CreateSessionWithEventRequest) :
    result string unit :=
  match normalize_optional_text (ns_parent_session_id (cs_session request)) with
  | None => Err "delegate child create request requires parent_session_id"
  | Some request_parent =>
      if negb (bool_decide (ns_kind (cs_session request) = Kind_DelegateChild)) then
        Err "delegate child create request requires kind `delegate_child`"
      else if negb (bool_decide (request_parent = parent_session_id)) then
        Err ("delegate child create request parent mismatch: expected `" +:+ parent_session_id +:+ "`, got `"
             +:+ request_parent +:+ "`")
      else Ok ()
  end.

Definition create_delegate_child_session_with_event_if_within_limit {T} (parent_session_id : string)
    (max_active_children : nat) (build_request : nat → result string (CreateSessionWithEventRequest * T)) :
    DB (CreateSessionWithEventResult * T) :=
  lift (normalize_required_text parent_session_id "parent_session_id") ≫= λ parent_session_id,
  open_connection env ≫= λ _,
  transaction env (λ error, "open delegate child create transaction failed: " +:+ error)
    (λ error, "commit delegate child create transaction failed: " +:+ error)
    (count_active_direct_children_with_conn in_tx parent_session_id ≫= λ active_children,
     if bool_decide (max_active_children ≤ active_children) then
       throw ("delegate_active_children_exceeded: active child count " +:+ pretty active_children
              +:+ " reaches configured max_active_children " +:+ pretty max_active_children)
     else
     lift (build_request active_children) ≫= λ '(request, sidecar),
     lift (check_child_request parent_session_id request) ≫= λ _,
     create_session_with_event_in_tx request ≫= λ event, mret ((event, sidecar), true))
  ≫= λ '(event, sidecar),
  reload_session (se_session_id event) ("session `" +:+ se_session_id event +:+ "` disappeared after insert")
  ≫= λ session, mret (mkCreateSessionWithEventResult session event, sidecar).

(** ** Summaries and observations *)
Definition load_session_summary_with_conn (exec : Conn) (session_id : string) :
    DB (option SessionSummaryRecord) :=
  exec _ (λ error, "load session summary failed: " +:+ error)
    (sql_select (λ db, transpose (SessionSummaryRecord_of_row db) (select_session session_id db)))
  ≫= λ summary, lift summary.

Definition infer_legacy_session_summary_with_conn (exec : Conn) (session_id : string) :
    DB (option SessionSummaryRecord) :=
  exec _ (λ error, "load legacy session aggregate failed: " +:+ error)
    (sql_select (λ db, let turns := session_turns session_id db in (sql_min turns, sql_max turns, len turns)))
  ≫= λ '(created_at, updated_at, turn_count),
  if (turn_count <=? 0)%Z then mret None
  else
    let created_at := default 0%Z created_at in
    let updated_at := default created_at updated_at in
    mret (Some (mkSessionSummaryRecord session_id (infer_legacy_session_kind session_id) None None
                  State_Ready created_at updated_at None (Z.max turn_count 0) (Some updated_at) None)).

Definition load_session_summary_with_legacy_fallback_with_conn (exec : Conn) (session_id : string) :
    DB (option SessionSummaryRecord) :=
  load_session_summary_with_conn exec session_id ≫= λ summary,
  match summary with
  | Some summary => mret (Some summary)
  | None => infer_legacy_session_summary_with_conn exec session_id
  end.

Definition load_session_summary (session_id : string) : DB (option SessionSummaryRecord) :=
  lift (normalize_required_text session_id "session_id") ≫= λ session_id,
  open_connection env ≫= λ _, load_session_summary_with_conn autocommit session_id.

Definition load_session_summary_with_legacy_fallback (session_id : string) : DB (option SessionSummaryRecord) :=
  lift (normalize_required_text session_id "session_id") ≫= λ session_id,
  open_connection env ≫= λ _, load_session_summary_with_legacy_fallback_with_conn autocommit session_id.

Definition infer_legacy_session_summary (session_id : string) : DB (option SessionSummaryRecord) :=
  lift (normalize_required_text session_id "session_id") ≫= λ session_id,
  open_connection env ≫= λ _, infer_legacy_session_summary_with_conn autocommit session_id.

Definition list_recent_events_with_conn (exec : Conn) (session_id : string) (limit : Z) :
    DB (list SessionEventRecord) :=
  exec _ (λ error, "query session events failed: " +:+ error)
    (sql_select (λ db, sql_limit (to_i64 limit)
                         (reverse (filter (λ e, er_session_id e = session_id) (db_events db))))) ≫= λ raws,
  lift (map_rows (SessionEventRecord_try_from_raw json) raws) ≫= λ events, mret (reverse events).

Definition list_events_after_with_conn (exec : Conn) (session_id : string) (after_id limit : Z) :
    DB (list SessionEventRecord) :=
  exec _ (λ error, "query session event tail failed: " +:+ error)
    (sql_select (λ db, sql_limit (to_i64 limit)
                         (filter (λ e, er_session_id e = session_id ∧ (after_id < er_id e)%Z) (db_events db))))
  ≫= λ raws, lift (map_rows (SessionEventRecord_try_from_raw json) raws).

Definition lifecycle_kinds : list string := ["delegate_queued"; "delegate_started"; "delegate_cancel_requested"].

Definition list_delegate_lifecycle_events_with_conn (exec : Conn) (session_id : string) :
    DB (list SessionEventRecord) :=
  exec _ (λ error, "query delegate lifecycle events failed: " +:+ error)
    (sql_select (λ db, filter (λ e, er_session_id e = session_id ∧ er_event_kind e ∈ lifecycle_kinds)
                         (db_events db)))
  ≫= λ raws, lift (map_rows (SessionEventRecord_try_from_raw json) raws).

Definition load_terminal_outcome_with_conn (exec : Conn) (session_id : string) :
    DB (option SessionTerminalOutcomeRecord) :=
  exec _ (λ error, "load session terminal outcome failed: " +:+ error)
    (sql_select (λ db, db_outcomes db !! session_id))
  ≫= λ raw, lift (transpose (SessionTerminalOutcomeRecord_try_from_raw json) raw).

(** [loop]: a page at a time until one is empty. [None] when the fuel runs out. *)
Fixpoint drain_pages (fuel : nat) (exec : Conn) (session_id : string) (next_after_id page_limit : Z)
    (events : list SessionEventRecord) : DB (option (list SessionEventRecord)) :=
  match fuel with
  | O => mret None
  | S fuel =>
      list_events_after_with_conn exec session_id next_after_id page_limit ≫= λ page,
      match last page with
      | None => mret (Some events)
      | Some event => drain_pages fuel exec session_id (se_id event) page_limit (events ++ page)
      end
  end.

(** Every page advances past an event, so in a transaction the number of events
    is fuel enough ([SessionRepoProps.drain_pages_done]). *)
Definition drain_events_after_with_conn (exec : Conn) (session_id : string) (after_id page_limit : Z) :
    DB (list SessionEventRecord) := λ s,
  if (page_limit =? 0)%Z then (Ok [], s)
  else (default [] <$> drain_pages (S (length (db_events s.1))) exec session_id (Z.max after_id 0) page_limit []) s.

Definition load_session_observation_with_conn (exec : Conn) (session_id : string) (recent_event_limit : Z)
    (tail_after_id : option Z) (tail_page_limit : Z) : DB (option SessionObservationRecord) :=
  load_session_summary_with_legacy_fallback_with_conn exec session_id ≫= λ session,
  match session with
  | None => mret None
  | Some session =>
      list_recent_events_with_conn exec session_id recent_event_limit ≫= λ recent_events,
      load_terminal_outcome_with_conn exec session_id ≫= λ terminal_outcome,
      match tail_after_id with
      | Some after_id => drain_events_after_with_conn exec session_id (Z.max after_id 0) tail_page_limit
      | None => mret []
      end ≫= λ tail_events,
      mret (Some (mkSessionObservationRecord session terminal_outcome recent_events tail_events))
  end.

Definition load_session_observation (session_id : string) (recent_event_limit : Z) (tail_after_id : option Z)
    (tail_page_limit : Z) : DB (option SessionObservationRecord) :=
  lift (normalize_required_text session_id "session_id") ≫= λ session_id,
  open_connection env ≫= λ _,
  transaction env (λ error, "open session observation transaction failed: " +:+ error)
    (λ error, "commit session observation transaction failed: " +:+ error)
    (load_session_observation_with_conn in_tx session_id recent_event_limit tail_after_id tail_page_limit
     ≫= λ observation, mret (observation, true)).

Definition list_recent_events (session_id : string) (limit : Z) : DB (list SessionEventRecord) :=
  lift (normalize_required_text session_id "session_id") ≫= λ session_id,
  open_connection env ≫= λ _, list_recent_events_with_conn autocommit session_id limit.

Definition list_events_after (session_id : string) (after_id limit : Z) : DB (list SessionEventRecord) :=
  lift (normalize_required_text session_id "session_id") ≫= λ session_id,
  open_connection env ≫= λ _, list_events_after_with_conn autocommit session_id after_id limit.

Definition list_delegate_lifecycle_events (session_id : string) : DB (list SessionEventRecord) :=
  lift (normalize_required_text session_id "session_id") ≫= λ session_id,
  open_connection env ≫= λ _, list_delegate_lifecycle_events_with_conn autocommit session_id.

Definition load_terminal_outcome (session_id : string) : DB (option SessionTerminalOutcomeRecord) :=
  lift (normalize_required_text session_id "session_id") ≫= λ session_id,
  open_connection env ≫= λ _, load_terminal_outcome_with_conn autocommit session_id.

(** ** Changes of state *)
Definition update_session_state (session_id : string) (state : SessionState) (last_error : option string) :
    DB SessionRecord :=
  lift (normalize_required_text session_id "session_id") ≫= λ session_id,
  open_connection env ≫= λ _,
  unix_ts_now env ≫= λ ts,
  statement env (λ error, "update session state failed: " +:+ error)
    (sql_update_session session_id (λ _, true)
       (set_session_state (SessionState_as_str state) ts (normalize_optional_text last_error))) ≫= λ affected,
  if bool_decide (affected = 0) then throw ("session `" +:+ session_id +:+ "` not found")
  else reload_session session_id ("session `" +:+ session_id +:+ "` missing after update").

Definition in_state (state : SessionState) (row : SessionRow) : bool :=
  bool_decide (sr_state row = SessionState_as_str state).

Definition update_session_state_if_current (session_id : string) (expected_state next_state : SessionState)
    (last_error : option string) : DB (option SessionRecord) :=
  lift (normalize_required_text session_id "session_id") ≫= λ session_id,
  open_connection env ≫= λ _,
  unix_ts_now env ≫= λ ts,
  statement env (λ error, "conditionally update session state failed: " +:+ error)
    (sql_update_session session_id (in_state expected_state)
       (set_session_state (SessionState_as_str next_state) ts (normalize_optional_text last_error)))
  ≫= λ affected,
  if bool_decide (affected = 0) then mret None
  else Some <$> reload_session session_id
                  ("session `" +:+ session_id +:+ "` missing after conditional update").

Definition transition_session_with_event_if_current (session_id : string)
    (request : TransitionSessionWithEventIfCurrentRequest) : DB (option TransitionSessionWithEventResult) :=
  lift (normalize_required_text session_id "session_id") ≫= λ session_id,
  lift (normalize_required_text (ts_event_kind request) "event_kind") ≫= λ event_kind,
  let actor_session_id := normalize_optional_text (ts_actor_session_id request) in
  let last_error := normalize_optional_text (ts_last_error request) in
  unix_ts_now env ≫= λ ts,
  open_connection env ≫= λ _,
  transaction env (λ error, "open session transition transaction failed: " +:+ error)
    (λ error, "commit session transition failed: " +:+ error)
    (run_sql env (λ error, "conditionally update session state in transition failed: " +:+ error)
       (sql_update_session session_id (in_state (ts_expected_state request))
          (set_session_state (SessionState_as_str (ts_next_state request)) ts last_error)) ≫= λ affected,
     if bool_decide (affected = 0) then mret (None, false)
     else
       run_sql env (λ error, "insert session transition event failed: " +:+ error)
         (sql_insert_event session_id event_kind actor_session_id
            (jt_to_string json (ts_event_payload_json request)) ts) ≫= λ event_id, mret (Some event_id, true))
  ≫= λ event_id,
  match event_id with
  | None => mret None
  | Some event_id =>
      reload_session session_id ("session `" +:+ session_id +:+ "` missing after conditional transition")
      ≫= λ session,
      mret (Some (mkTransitionSessionWithEventResult session
              (mkSessionEventRecord event_id session_id event_kind actor_session_id
                 (ts_event_payload_json request) ts)))
  end.

(** The statements that end a session: state, event and outcome *)
Definition finalize_statements (event_context outcome_context : string → string) (session_id event_kind : string)
    (actor_session_id : option string) (outcome_status : string) (request : FinalizeSessionTerminalRequest)
    (ts : Z) : DB Z :=
  run_sql env event_context
    (sql_insert_event session_id event_kind actor_session_id
       (jt_to_string json (fr_event_payload_json request)) ts) ≫= λ event_id,
  run_sql env outcome_context
    (sql_upsert_outcome (mkOutcomeRow session_id outcome_status
                           (jt_to_string json (fr_outcome_payload_json request)) ts)) ≫= λ _,
  mret event_id.

Definition finalize_result (session_id event_kind : string) (actor_session_id : option string)
    (outcome_status : string) (request : FinalizeSessionTerminalRequest) (ts event_id : Z)
    (session : SessionRecord) : FinalizeSessionTerminalResult :=
  mkFinalizeSessionTerminalResult session
    (mkSessionEventRecord event_id session_id event_kind actor_session_id (fr_event_payload_json request) ts)
    (mkSessionTerminalOutcomeRecord session_id outcome_status (fr_outcome_payload_json request) ts).

Definition finalize_session_terminal (session_id : string) (request : FinalizeSessionTerminalRequest) :
    DB FinalizeSessionTerminalResult :=
  lift (normalize_required_text session_id "session_id") ≫= λ session_id,
  lift (normalize_required_text (fr_event_kind request) "event_kind") ≫= λ event_kind,
  lift (normalize_required_text (fr_outcome_status request) "outcome_status") ≫= λ outcome_status,
  let actor_session_id := normalize_optional_text (fr_actor_session_id request) in
  let last_error := normalize_optional_text (fr_last_error request) in
  unix_ts_now env ≫= λ ts,
  open_connection env ≫= λ _,
  transaction env (λ error, "open session terminal transaction failed: " +:+ error)
    (λ error, "commit session terminal finalize failed: " +:+ error)
    (run_sql env (λ error, "update session state in terminal finalize failed: " +:+ error)
       (sql_update_session session_id (λ _, true)
          (set_session_state (SessionState_as_str (fr_state request)) ts last_error)) ≫= λ affected,
     if bool_decide (affected = 0) then throw ("session `" +:+ session_id +:+ "` not found")
     else
       finalize_statements (λ error, "insert session terminal event failed: " +:+ error)
         (λ error, "upsert session terminal outcome in finalize failed: " +:+ error)
         session_id event_kind actor_session_id outcome_status request ts ≫= λ event_id,
       mret (event_id, true)) ≫= λ event_id,
  reload_session session_id ("session `" +:+ session_id +:+ "` missing after terminal finalize") ≫= λ session,
  mret (finalize_result session_id event_kind actor_session_id outcome_status request ts event_id session).

Definition finalize_session_terminal_if_current (session_id : string) (expected_state : SessionState)
    (request : FinalizeSessionTerminalRequest) : DB (option FinalizeSessionTerminalResult) :=
  lift (normalize_required_text session_id "session_id") ≫= λ session_id,
  lift (normalize_required_text (fr_event_kind request) "event_kind") ≫= λ event_kind,
  lift (normalize_required_text (fr_outcome_status request) "outcome_status") ≫= λ outcome_status,
  let actor_session_id := normalize_optional_text (fr_actor_session_id request) in
  let last_error := normalize_optional_text (fr_last_error request) in
  unix_ts_now env ≫= λ ts,
  open_connection env ≫= λ _,
  transaction env (λ error, "open conditional session terminal transaction failed: " +:+ error)
    (λ error, "commit conditional session terminal finalize failed: " +:+ error)
    (run_sql env (λ error, "conditionally update session state in terminal finalize failed: " +:+ error)
       (sql_update_session session_id (in_state expected_state)
          (set_session_state (SessionState_as_str (fr_state request)) ts last_error)) ≫= λ affected,
     if bool_decide (affected = 0) then mret (None, false)
     else
       finalize_statements (λ error, "insert conditional session terminal event failed: " +:+ error)
         (λ error, "upsert session terminal outcome in conditional finalize failed: " +:+ error)
         session_id event_kind actor_session_id outcome_status request ts ≫= λ event_id,
       mret (Some event_id, true)) ≫= λ event_id,
  match event_id with
  | None => mret None
  | Some event_id =>
      reload_session session_id ("session `" +:+ session_id +:+ "` missing after conditional terminal finalize")
      ≫= λ session,
      mret (Some (finalize_result session_id event_kind actor_session_id outcome_status request ts event_id
                    session))
  end.

Definition upsert_terminal_outcome (session_id status : string) (payload_json : Value) :
    DB SessionTerminalOutcomeRecord :=
  lift (normalize_required_text session_id "session_id") ≫= λ session_id,
  lift (normalize_required_text status "status") ≫= λ status,
  load_session session_id ≫= λ session,
  match session with
  | None => throw ("session `" +:+ session_id +:+ "` not found")
  | Some _ =>
      unix_ts_now env ≫= λ recorded_at,
      open_connection env ≫= λ _,
      statement env (λ error, "upsert session terminal outcome failed: " +:+ error)
        (sql_upsert_outcome (mkOutcomeRow session_id status (jt_to_string json payload_json) recorded_at))
      ≫= λ _, mret (mkSessionTerminalOutcomeRecord session_id status payload_json recorded_at)
  end.

Definition append_event (event : NewSessionEvent) : DB SessionEventRecord :=
  lift (normalize_required_text (ne_session_id event) "session_id") ≫= λ session_id,
  lift (normalize_required_text (ne_event_kind event) "event_kind") ≫= λ event_kind,
  unix_ts_now env ≫= λ ts,
  let actor_session_id := normalize_optional_text (ne_actor_session_id event) in
  open_connection env ≫= λ _,
  statement env (λ error, "check session exists failed: " +:+ error)
    (sql_select (λ db, bool_decide (is_Some (select_session session_id db)))) ≫= λ session_exists,
  if negb session_exists then throw ("session `" +:+ session_id +:+ "` not found")
  else
    statement env (λ error, "insert session event failed: " +:+ error)
      (sql_insert_event session_id event_kind actor_session_id (jt_to_string json (ne_payload_json event)) ts)
    ≫= λ id, mret (mkSessionEventRecord id session_id event_kind actor_session_id (ne_payload_json event) ts).

(** ** Lists and lineage *)
Definition list_sessions : DB (list SessionRecord) :=
  open_connection env ≫= λ _,
  statement env (λ error, "query session list failed: " +:+ error)
    (sql_select (λ db, merge_sort row_newest_first (rows (db_sessions db)))) ≫= λ raws,
  lift (map_rows SessionRecord_try_from_raw raws).

Definition select_visible (current_session_id : string) (db : Db) : result string (list SessionSummaryRecord) :=
  map_rows (SessionSummaryRecord_of_row db)
    (merge_sort row_newest_first
       (rows (filter (λ p : string * SessionRow, p.1 ∈ visible_set (db_sessions db) current_session_id)
                (db_sessions db)))).

Definition list_visible_sessions (current_session_id : string) : DB (list SessionSummaryRecord) :=
  lift (normalize_required_text current_session_id "current_session_id") ≫= λ current_session_id,
  open_connection env ≫= λ _,
  statement env (λ error, "query visible sessions failed: " +:+ error)
    (sql_select (select_visible current_session_id)) ≫= λ sessions,
  lift sessions ≫= λ sessions,
  if bool_decide (Exists (λ session, ss_session_id session = current_session_id) sessions) then mret sessions
  else
    infer_legacy_session_summary current_session_id ≫= λ legacy,
    match legacy with
    | Some legacy => mret (sort_session_summaries (sessions ++ [legacy]))
    | None => mret sessions
    end.

(** The loops over a lineage visit a session at most once; [None] when the fuel
    runs out before they end. *)
Fixpoint visible_loop (fuel : nat) (current_session_id : string) (seen : gset string) (session_id : string) :
    DB (option bool) :=
  match fuel with
  | O => mret None
  | S fuel =>
      if bool_decide (session_id ∈ seen) then
        throw ("session_lineage_cycle_detected: `" +:+ session_id
               +:+ "` reappeared while checking visibility")
      else
        load_session session_id ≫= λ session,
        match session with
        | None => mret (Some false)
        | Some session =>
            match sn_parent_session_id session with
            | Some parent =>
                if bool_decide (parent = current_session_id) then mret (Some true)
                else visible_loop fuel current_session_id ({[session_id]} ∪ seen) parent
            | None => mret (Some false)
            end
        end
  end.

Definition is_session_visible (fuel : nat) (current_session_id target_session_id : string) : DB (option bool) :=
  lift (normalize_required_text current_session_id "current_session_id") ≫= λ current_session_id,
  lift (normalize_required_text target_session_id "target_session_id") ≫= λ target_session_id,
  if bool_decide (current_session_id = target_session_id) then mret (Some true)
  else visible_loop fuel current_session_id ∅ target_session_id.

Fixpoint depth_loop (fuel : nat) (seen : gset string) (depth : nat) (session_id : string) : DB (option nat) :=
  match fuel with
  | O => mret None
  | S fuel =>
      if bool_decide (session_id ∈ seen) then
        throw ("session_lineage_cycle_detected: `" +:+ session_id
               +:+ "` reappeared while computing lineage depth")
      else
        load_session session_id ≫= λ session,
        match session with
        | None =>
            if bool_decide (depth = 0) then mret (Some 0)
            else throw ("session_lineage_broken: missing parent row for `" +:+ session_id +:+ "`")
        | Some session =>
            match sn_parent_session_id session with
            | Some parent => depth_loop fuel ({[session_id]} ∪ seen) (depth + 1) parent
            | None => mret (Some depth)
            end
        end
  end.

Definition session_lineage_depth (fuel : nat) (session_id : string) : DB (option nat) :=
  lift (normalize_required_text session_id "session_id") ≫= λ session_id, depth_loop fuel ∅ 0 session_id.

Fixpoint root_loop (fuel : nat) (seen : gset string) (session_id : string) : DB (option (option string)) :=
  match fuel with
  | O => mret None
  | S fuel =>
      if bool_decide (session_id ∈ seen) then
        throw ("session_lineage_cycle_detected: `" +:+ session_id
               +:+ "` reappeared while computing lineage root")
      else
        let seen := {[session_id]} ∪ seen in
        load_session session_id ≫= λ session,
        match session with
        | None =>
            if bool_decide (size seen = 1) then mret (Some None)
            else throw ("session_lineage_broken: missing parent row for `" +:+ session_id +:+ "`")
        | Some session =>
            match sn_parent_session_id session with
            | Some parent => root_loop fuel seen parent
            | None => mret (Some (Some (sn_session_id session)))
            end
        end
  end.

Definition lineage_root_session_id (fuel : nat) (session_id : string) : DB (option (option string)) :=
  lift (normalize_required_text session_id "session_id") ≫= λ session_id, root_loop fuel ∅ session_id.

(** ** Approvals *)
Definition load_approval_request (approval_request_id : string) : DB (option ApprovalRequestRecord) :=
  lift (normalize_required_text approval_request_id "approval_request_id") ≫= λ approval_request_id,
  open_connection env ≫= λ _,
  statement env (λ error, "load approval request row failed: " +:+ error)
    (sql_select (λ db, db_requests db !! approval_request_id))
  ≫= λ raw, lift (transpose (ApprovalRequestRecord_try_from_raw json) raw).

Definition reload_request (approval_request_id missing : string) : DB ApprovalRequestRecord :=
  load_approval_request approval_request_id ≫= λ request, lift (ok_or request missing).

Definition ensure_approval_request (record : NewApprovalRequestRecord) : DB ApprovalRequestRecord :=
  lift (normalize_required_text (nr_approval_request_id record) "approval_request_id")
  ≫= λ approval_request_id,
  lift (normalize_required_text (nr_session_id record) "session_id") ≫= λ session_id,
  lift (normalize_required_text (nr_turn_id record) "turn_id") ≫= λ turn_id,
  lift (normalize_required_text (nr_tool_call_id record) "tool_call_id") ≫= λ tool_call_id,
  lift (normalize_required_text (nr_tool_name record) "tool_name") ≫= λ tool_name,
  lift (normalize_required_text (nr_approval_key record) "approval_key") ≫= λ approval_key,
  load_session session_id ≫= λ session,
  match session with
  | None => throw ("session `" +:+ session_id +:+ "` not found")
  | Some _ =>
      unix_ts_now env ≫= λ requested_at,
      open_connection env ≫= λ _,
      st_match
        (statement env (λ error, error)
           (sql_insert_request
              (mkRequestRow approval_request_id session_id turn_id tool_call_id tool_name approval_key
                 (ApprovalRequestStatus_as_str Status_Pending) None
                 (jt_to_string json (nr_request_payload_json record))
                 (jt_to_string json (nr_governance_snapshot_json record)) requested_at None None None None)))
        (λ _, reload_request approval_request_id
                ("approval request `" +:+ approval_request_id +:+ "` disappeared after insert"))
        (λ error,
           if contains "UNIQUE constraint failed" error
           then reload_request approval_request_id
                  ("approval request `" +:+ approval_request_id +:+ "` missing after concurrent insert")
           else throw ("insert approval request row failed: " +:+ error))
  end.

Definition select_requests (session_id : string) (status : option ApprovalRequestStatus) (db : Db) :
    list RequestRow :=
  merge_sort request_newest_first
    (rows (filter (λ p : string * RequestRow,
                     rr_session_id p.2 = session_id ∧
                     match status with
                     | Some status => bool_decide (rr_status p.2 = ApprovalRequestStatus_as_str status)
                     | None => true
                     end = true)
             (db_requests db))).

Definition list_approval_requests_for_session (session_id : string) (status : option ApprovalRequestStatus) :
    DB (list ApprovalRequestRecord) :=
  lift (normalize_required_text session_id "session_id") ≫= λ session_id,
  open_connection env ≫= λ _,
  statement env (λ error, "query approval request list failed: " +:+ error)
    (sql_select (select_requests session_id status)) ≫= λ raws,
  lift (map_rows (ApprovalRequestRecord_try_from_raw json) raws).

Definition transition_request_row (request : TransitionApprovalRequestIfCurrentRequest)
    (resolution_ts : option Z) (row : RequestRow) : RequestRow :=
  mkRequestRow (rr_approval_request_id row) (rr_session_id row) (rr_turn_id row) (rr_tool_call_id row)
    (rr_tool_name row) (rr_approval_key row) (ApprovalRequestStatus_as_str (ta_next_status request))
    (coalesce (ApprovalDecision_as_str <$> ta_decision request) (rr_decision row))
    (rr_request_payload_json row) (rr_governance_snapshot_json row) (rr_requested_at row)
    (coalesce resolution_ts (rr_resolved_at row))
    (coalesce (normalize_optional_text (ta_resolved_by_session_id request)) (rr_resolved_by_session_id row))
    (coalesce (ta_executed_at request) (rr_executed_at row))
    (normalize_optional_text (ta_last_error request)).

Definition transition_approval_request_if_current (approval_request_id : string)
    (request : TransitionApprovalRequestIfCurrentRequest) : DB (option ApprovalRequestRecord) :=
  lift (normalize_required_text approval_request_id "approval_request_id") ≫= λ approval_request_id,
  match ta_next_status request with
  | Status_Approved | Status_Denied => Some <$> unix_ts_now env
  | _ => mret None
  end ≫= λ resolution_ts,
  open_connection env ≫= λ _,
  statement env (λ error, "conditionally update approval request failed: " +:+ error)
    (sql_update_request approval_request_id (ApprovalRequestStatus_as_str (ta_expected_status request))
       (transition_request_row request resolution_ts)) ≫= λ affected,
  if bool_decide (affected = 0) then mret None
  else Some <$> reload_request approval_request_id
                  ("approval request `" +:+ approval_request_id +:+ "` missing after conditional update").

Definition load_approval_grant (scope_session_id approval_key : string) : DB (option ApprovalGrantRecord) :=
  lift (normalize_required_text scope_session_id "scope_session_id") ≫= λ scope_session_id,
  lift (normalize_required_text approval_key "approval_key") ≫= λ approval_key,
  open_connection env ≫= λ _,
  statement env (λ error, "load approval grant failed: " +:+ error)
    (sql_select (λ db, db_grants db !! (scope_session_id, approval_key)))
  ≫= λ raw, lift (transpose ApprovalGrantRecord_try_from_raw raw).

Definition upsert_approval_grant (record : NewApprovalGrantRecord) : DB ApprovalGrantRecord :=
  lift (normalize_required_text (ng_scope_session_id record) "scope_session_id") ≫= λ scope_session_id,
  lift (normalize_required_text (ng_approval_key record) "approval_key") ≫= λ approval_key,
  load_session scope_session_id ≫= λ session,
  match session with
  | None => throw ("session `" +:+ scope_session_id +:+ "` not found")
  | Some _ =>
      unix_ts_now env ≫= λ ts,
      open_connection env ≫= λ _,
      statement env (λ error, "upsert approval grant failed: " +:+ error)
        (sql_upsert_grant (mkGrantRow scope_session_id approval_key
                             (normalize_optional_text (ng_created_by_session_id record)) ts ts)) ≫= λ _,
      load_approval_grant scope_session_id approval_key ≫= λ grant,
      lift (ok_or grant ("approval grant `" +:+ scope_session_id +:+ ":" +:+ approval_key
                         +:+ "` disappeared after upsert"))
  end.
End repository.
