(* ===== verification/ToolConfig.v ===== *)
(** * ToolConfig: the configured tools (app/src/config/tools.rs)

    The [tools] section of the configuration with its defaults and its
    validation, the runtime configuration and the tool views that follow from
    it (app/src/tools/runtime_config.rs, app/src/tools/catalog.rs). Environment
    variables are a function from names to values. *)
From Stdlib Require Import Ascii.
From S2P Require Import Prelude RustStr Contracts ToolRuntimeConfig ToolCatalog ToolNames.

(** ** Constants *)
Definition DEFAULT_WEB_FETCH_MAX_BYTES : Z := 1024 * 1024.
Definition DEFAULT_WEB_FETCH_TIMEOUT_SECONDS : Z := 15.
Definition DEFAULT_WEB_FETCH_MAX_REDIRECTS : Z := 3.
Definition DEFAULT_BROWSER_MAX_SESSIONS : Z := 8.
Definition DEFAULT_BROWSER_MAX_LINKS : Z := 40.
Definition DEFAULT_BROWSER_MAX_TEXT_CHARS : Z := 6000.
Definition DEFAULT_BROWSER_COMPANION_TIMEOUT_SECONDS : Z := 30.
Definition MIN_WEB_FETCH_MAX_BYTES : Z := 1024.
Definition MAX_WEB_FETCH_MAX_BYTES : Z := 5 * 1024 * 1024.
Definition MIN_WEB_FETCH_TIMEOUT_SECONDS : Z := 1.
Definition MAX_WEB_FETCH_TIMEOUT_SECONDS : Z := 120.
Definition MAX_WEB_FETCH_MAX_REDIRECTS : Z := 10.
Definition MIN_BROWSER_MAX_SESSIONS : Z := 1.
Definition MAX_BROWSER_MAX_SESSIONS : Z := 32.
Definition MIN_BROWSER_MAX_LINKS : Z := 1.
Definition MAX_BROWSER_MAX_LINKS : Z := 200.
Definition MIN_BROWSER_MAX_TEXT_CHARS : Z := 256.
Definition MAX_BROWSER_MAX_TEXT_CHARS : Z := 20000.
Definition DEFAULT_WEB_SEARCH_TIMEOUT_SECONDS : Z := 30.
Definition DEFAULT_WEB_SEARCH_MAX_RESULTS : Z := 5.
Definition WEB_SEARCH_PROVIDER_DUCKDUCKGO : string := "duckduckgo".
Definition DEFAULT_WEB_SEARCH_PROVIDER : string := WEB_SEARCH_PROVIDER_DUCKDUCKGO.
Definition WEB_SEARCH_PROVIDER_VALID_VALUES : string := "duckduckgo (or ddg), brave, tavily".
Definition WEB_SEARCH_BRAVE_API_KEY_ENV : string := "BRAVE_API_KEY".
Definition WEB_SEARCH_TAVILY_API_KEY_ENV : string := "TAVILY_API_KEY".
Definition MIN_WEB_SEARCH_TIMEOUT_SECONDS : Z := 1.
Definition MAX_WEB_SEARCH_TIMEOUT_SECONDS : Z := 60.
Definition MIN_WEB_SEARCH_MAX_RESULTS : Z := 1.
Definition MAX_WEB_SEARCH_MAX_RESULTS : Z := 10.
Definition DEFAULT_SHELL_ALLOW : list string := [].

(** ** The sections *)
Inductive GovernedToolApprovalMode := GA_Disabled | GA_MediumBalanced | GA_Strict.
Inductive SessionVisibility := Visibility_SelfOnly | Visibility_Children.
#[export] Instance GovernedToolApprovalMode_eq_dec : EqDecision GovernedToolApprovalMode.
Proof. solve_decision. Defined.
#[export] Instance SessionVisibility_eq_dec : EqDecision SessionVisibility.
Proof. solve_decision. Defined.

Record GovernedToolApprovalConfig := mkGovernedToolApprovalConfig {
  ga_mode : GovernedToolApprovalMode;
  ga_approved_calls : list string;
  ga_denied_calls : list string }.

Record SessionToolConfig := mkSessionToolConfig {
  st_enabled : bool;
  st_visibility : SessionVisibility;
  st_list_limit : Z;
  st_history_limit : Z }.

Record MessageToolConfig := mkMessageToolConfig { mt_enabled : bool }.

Record DelegateChildWebRuntimeConfig := mkDelegateChildWebRuntimeConfig {
  dw_allow_private_hosts : option bool;
  dw_allowed_domains : list string;
  dw_blocked_domains : list string;
  dw_timeout_seconds : option Z;
  dw_max_bytes : option Z;
  dw_max_redirects : option Z }.

Record DelegateChildBrowserRuntimeConfig := mkDelegateChildBrowserRuntimeConfig {
  db_max_sessions : option Z;
  db_max_links : option Z;
  db_max_text_chars : option Z }.

Record DelegateChildRuntimeConfig := mkDelegateChildRuntimeConfig {
  cr_web : DelegateChildWebRuntimeConfig;
  cr_browser : DelegateChildBrowserRuntimeConfig }.

Record DelegateToolConfig := mkDelegateToolConfig {
  dt_enabled : bool;
  dt_max_depth : nat;
  dt_max_active_children : nat;
  dt_timeout_seconds : Z;
  dt_child_tool_allowlist : list string;
  dt_allow_shell_in_child : bool;
  dt_child_runtime : DelegateChildRuntimeConfig }.

Record BrowserToolConfig := mkBrowserToolConfig {
  bt_enabled : bool;
  bt_max_sessions : Z;
  bt_max_links : Z;
  bt_max_text_chars : Z }.

Record BrowserCompanionToolConfig := mkBrowserCompanionToolConfig {
  bct_enabled : bool;
  bct_command : option string;
  bct_expected_version : option string;
  bct_timeout_seconds : Z }.

Record WebToolConfig := mkWebToolConfig {
  wt_enabled : bool;
  wt_allow_private_hosts : bool;
  wt_allowed_domains : list string;
  wt_blocked_domains : list string;
  wt_max_bytes : Z;
  wt_timeout_seconds : Z;
  wt_max_redirects : Z }.

Record WebSearchToolConfig := mkWebSearchToolConfig {
  ws_enabled : bool;
  ws_default_provider : string;
  ws_timeout_seconds : Z;
  ws_max_results : Z;
  ws_brave_api_key : option string;
  ws_tavily_api_key : option string }.

Record ExternalSkillsConfig := mkExternalSkillsConfig {
  xs_enabled : bool;
  xs_require_download_approval : bool;
  xs_allowed_domains : list string;
  xs_blocked_domains : list string;
  xs_install_root : option string;
  xs_auto_expose_installed : bool }.

Record ToolConfig := mkToolConfig {
  tc_file_root : option string;
  tc_shell_allow : list string;
  tc_shell_deny : list string;
  tc_shell_default_mode : string;
  tc_approval : GovernedToolApprovalConfig;
  tc_sessions : SessionToolConfig;
  tc_messages : MessageToolConfig;
  tc_delegate : DelegateToolConfig;
  tc_browser : BrowserToolConfig;
  tc_browser_companion : BrowserCompanionToolConfig;
  tc_web : WebToolConfig;
  tc_web_search : WebSearchToolConfig }.

(** ** Defaults *)
Definition default_delegate_child_tool_allowlist : list string := ["file.read"; "file.write"; "file.edit"].

Definition GovernedToolApprovalConfig_default : GovernedToolApprovalConfig :=
  mkGovernedToolApprovalConfig GA_Disabled [] [].
Definition SessionToolConfig_default : SessionToolConfig := mkSessionToolConfig true Visibility_Children 100 200.
Definition MessageToolConfig_default : MessageToolConfig := mkMessageToolConfig false.
Definition DelegateChildRuntimeConfig_default : DelegateChildRuntimeConfig :=
  mkDelegateChildRuntimeConfig (mkDelegateChildWebRuntimeConfig None [] [] None None None)
    (mkDelegateChildBrowserRuntimeConfig None None None).
Definition DelegateToolConfig_default : DelegateToolConfig :=
  mkDelegateToolConfig true 1 5 60 default_delegate_child_tool_allowlist false
    DelegateChildRuntimeConfig_default.
Definition BrowserToolConfig_default : BrowserToolConfig :=
  mkBrowserToolConfig true DEFAULT_BROWSER_MAX_SESSIONS DEFAULT_BROWSER_MAX_LINKS
    DEFAULT_BROWSER_MAX_TEXT_CHARS.
Definition BrowserCompanionToolConfig_default : BrowserCompanionToolConfig :=
  mkBrowserCompanionToolConfig false None None DEFAULT_BROWSER_COMPANION_TIMEOUT_SECONDS.
Definition WebToolConfig_default : WebToolConfig :=
  mkWebToolConfig true false [] [] DEFAULT_WEB_FETCH_MAX_BYTES DEFAULT_WEB_FETCH_TIMEOUT_SECONDS
    DEFAULT_WEB_FETCH_MAX_REDIRECTS.
Definition WebSearchToolConfig_default : WebSearchToolConfig :=
  mkWebSearchToolConfig true DEFAULT_WEB_SEARCH_PROVIDER DEFAULT_WEB_SEARCH_TIMEOUT_SECONDS
    DEFAULT_WEB_SEARCH_MAX_RESULTS None None.
Definition ExternalSkillsConfig_default : ExternalSkillsConfig :=
  mkExternalSkillsConfig false true [] [] None false.
Definition ToolConfig_default : ToolConfig :=
  mkToolConfig None DEFAULT_SHELL_ALLOW [] "deny" GovernedToolApprovalConfig_default
    SessionToolConfig_default MessageToolConfig_default DelegateToolConfig_default BrowserToolConfig_default
    BrowserCompanionToolConfig_default WebToolConfig_default WebSearchToolConfig_default.

(** ** Normalization *)
Definition normalize_web_search_provider (raw : string) : option string :=
  match_arms (to_ascii_lowercase (trim raw))
    [(["duckduckgo"; "ddg"], Some WEB_SEARCH_PROVIDER_DUCKDUCKGO);
     (["brave"], Some "brave");
     (["tavily"], Some "tavily")] None.

(** The entries of a [BTreeSet], in order *)
Definition normalize_domain_entries (entries : list string) : list string :=
  btree_elements
    (list_to_set (filter (λ value, is_empty value = false)
                    ((λ entry, to_ascii_lowercase (trim entry)) <$> entries))).

Definition runtime_narrowing (self : DelegateChildRuntimeConfig) : ToolRuntimeNarrowing :=
  mkToolRuntimeNarrowing
    (mkBrowserRuntimeNarrowing (db_max_sessions (cr_browser self)) (db_max_links (cr_browser self))
       (db_max_text_chars (cr_browser self)))
    (mkWebFetchRuntimeNarrowing (dw_allow_private_hosts (cr_web self))
       (list_to_set (normalize_domain_entries (dw_allowed_domains (cr_web self))))
       (list_to_set (normalize_domain_entries (dw_blocked_domains (cr_web self))))
       (dw_timeout_seconds (cr_web self)) (dw_max_bytes (cr_web self)) (dw_max_redirects (cr_web self))).

(** ** Validation (config/shared.rs, config/tools.rs) *)
Inductive ConfigValidationCode := Code_NumericRange | Code_UnknownSearchProvider.

(** An issue of severity [Error]; only the codes that tools raise. *)
Record ConfigValidationIssue := mkConfigValidationIssue {
  ci_code : ConfigValidationCode;
  ci_field_path : string;
  ci_inline_field_path : string;
  ci_example_env_name : string;
  ci_suggested_env_name : option string;
  ci_extra_message_variables : list (string * string) }.

Definition validate_numeric_range (field_path : string) (actual_value min max : Z) :
    result ConfigValidationIssue unit :=
  if (min <=? actual_value)%Z && (actual_value <=? max)%Z then Ok ()
  else Err (mkConfigValidationIssue Code_NumericRange field_path field_path "" None
              [("actual_value", pretty actual_value); ("max", pretty max); ("min", pretty min)]).

(** [if let Err(issue) = .. { issues.push(issue) }] *)
Definition issue_of (r : result ConfigValidationIssue unit) : list ConfigValidationIssue :=
  match r with Ok _ => [] | Err issue => [issue] end.

Definition check_range (field_path : string) (actual_value min max : Z) : list ConfigValidationIssue :=
  issue_of (validate_numeric_range field_path actual_value min max).
Definition check_optional_range (field_path : string) (value : option Z) (min max : Z) :
    list ConfigValidationIssue :=
  match value with Some value => check_range field_path value min max | None => [] end.

Definition unknown_provider_issue (provider : string) : ConfigValidationIssue :=
  mkConfigValidationIssue Code_UnknownSearchProvider "tools.web_search.default_provider"
    "tools.web_search.default_provider" "LOONGCLAW_WEB_SEARCH_PROVIDER"
    (Some "LOONGCLAW_WEB_SEARCH_PROVIDER")
    [("provider_value", provider); ("valid_providers", WEB_SEARCH_PROVIDER_VALID_VALUES)].

(** A [u64] always fits a [usize]. *)
Definition ToolConfig_validate (self : ToolConfig) : list ConfigValidationIssue :=
  let browser := cr_browser (dt_child_runtime (tc_delegate self)) in
  let web := cr_web (dt_child_runtime (tc_delegate self)) in
  check_range "tools.browser.max_sessions" (bt_max_sessions (tc_browser self))
    MIN_BROWSER_MAX_SESSIONS MAX_BROWSER_MAX_SESSIONS
  ++ check_range "tools.browser.max_links" (bt_max_links (tc_browser self))
       MIN_BROWSER_MAX_LINKS MAX_BROWSER_MAX_LINKS
  ++ check_range "tools.browser.max_text_chars" (bt_max_text_chars (tc_browser self))
       MIN_BROWSER_MAX_TEXT_CHARS MAX_BROWSER_MAX_TEXT_CHARS
  ++ check_range "tools.web.max_bytes" (wt_max_bytes (tc_web self))
       MIN_WEB_FETCH_MAX_BYTES MAX_WEB_FETCH_MAX_BYTES
  ++ check_range "tools.web.timeout_seconds" (wt_timeout_seconds (tc_web self))
       MIN_WEB_FETCH_TIMEOUT_SECONDS MAX_WEB_FETCH_TIMEOUT_SECONDS
  ++ check_range "tools.web.max_redirects" (wt_max_redirects (tc_web self)) 0 MAX_WEB_FETCH_MAX_REDIRECTS
  ++ check_optional_range "tools.delegate.child_runtime.browser.max_sessions" (db_max_sessions browser)
       MIN_BROWSER_MAX_SESSIONS MAX_BROWSER_MAX_SESSIONS
  ++ check_optional_range "tools.delegate.child_runtime.browser.max_links" (db_max_links browser)
       MIN_BROWSER_MAX_LINKS MAX_BROWSER_MAX_LINKS
  ++ check_optional_range "tools.delegate.child_runtime.browser.max_text_chars" (db_max_text_chars browser)
       MIN_BROWSER_MAX_TEXT_CHARS MAX_BROWSER_MAX_TEXT_CHARS
  ++ check_optional_range "tools.delegate.child_runtime.web.max_bytes" (dw_max_bytes web)
       MIN_WEB_FETCH_MAX_BYTES MAX_WEB_FETCH_MAX_BYTES
  ++ check_optional_range "tools.delegate.child_runtime.web.timeout_seconds" (dw_timeout_seconds web)
       MIN_WEB_FETCH_TIMEOUT_SECONDS MAX_WEB_FETCH_TIMEOUT_SECONDS
  ++ check_optional_range "tools.delegate.child_runtime.web.max_redirects" (dw_max_redirects web)
       0 MAX_WEB_FETCH_MAX_REDIRECTS
  ++ check_range "tools.web_search.timeout_seconds" (ws_timeout_seconds (tc_web_search self))
       MIN_WEB_SEARCH_TIMEOUT_SECONDS MAX_WEB_SEARCH_TIMEOUT_SECONDS
  ++ check_range "tools.web_search.max_results" (ws_max_results (tc_web_search self))
       MIN_WEB_SEARCH_MAX_RESULTS MAX_WEB_SEARCH_MAX_RESULTS
  ++ (if ws_enabled (tc_web_search self)
         && bool_decide (normalize_web_search_provider (ws_default_provider (tc_web_search self)) = None)
      then [unknown_provider_issue (ws_default_provider (tc_web_search self))] else []).

(** ** Views of a configuration (tools/catalog.rs) *)
Definition tool_visibility_gate_enabled_for_runtime_view (gate : ToolVisibilityGate) (config : ToolConfig)
    (external_skills_enabled : bool) : bool :=
  match gate with
  | Gate_Always => true
  | Gate_Sessions => st_enabled (tc_sessions config)
  | Gate_Messages => mt_enabled (tc_messages config)
  | Gate_Delegate => dt_enabled (tc_delegate config)
  | Gate_Browser => bt_enabled (tc_browser config)
  | Gate_BrowserCompanion => false
  | Gate_ExternalSkills => external_skills_enabled
  | Gate_WebFetch => wt_enabled (tc_web config)
  | Gate_WebSearch => ws_enabled (tc_web_search config)
  end.

Definition runtime_tool_view_for_config_with_external_skills (config : ToolConfig)
    (external_skills_enabled : bool) : ToolView :=
  from_tool_names
    (td_name <$>
       filter (λ d, tool_visibility_gate_enabled_for_runtime_view (td_visibility_gate d) config
                      external_skills_enabled = true)
         (filter (λ d, td_availability d = Avail_Runtime) tool_catalog)).

Definition runtime_tool_view_for_config (config : ToolConfig) : ToolView :=
  runtime_tool_view_for_config_with_external_skills config false.

Definition planned_root_tool_view : ToolView := from_tool_names (td_name <$> tool_catalog).

(** The body of the loop over the core tools *)
Definition child_tool_names (config : ToolConfig) (descriptor : ToolDescriptor) : list string :=
  if bool_decide (td_name descriptor = "shell.exec") then
    if dt_allow_shell_in_child (tc_delegate config) then [td_name descriptor] else []
  else if bool_decide (td_name descriptor ∈ dt_child_tool_allowlist (tc_delegate config))
          && tool_visibility_gate_enabled_for_runtime_view (td_visibility_gate descriptor) config false
  then [td_name descriptor] else [].

Definition delegate_names (config : ToolConfig) (allow_delegate : bool) (name : string) : list string :=
  if allow_delegate && dt_enabled (tc_delegate config)
     && match catalog_descriptor name with
        | Some descriptor => bool_decide (td_availability descriptor = Avail_Runtime)
        | None => false
        end
  then [name] else [].

Definition delegate_child_tool_view_for_config_with_delegate (config : ToolConfig) (allow_delegate : bool) :
    ToolView :=
  from_tool_names
    ((filter (λ d, td_execution_kind d = Exec_Core ∧ td_availability d = Avail_Runtime) tool_catalog
        ≫= child_tool_names config)
     ++ delegate_names config allow_delegate "delegate"
     ++ delegate_names config allow_delegate "delegate_async").

Definition delegate_child_tool_view_for_config (config : ToolConfig) : ToolView :=
  delegate_child_tool_view_for_config_with_delegate config false.
Definition planned_delegate_child_tool_view : ToolView :=
  delegate_child_tool_view_for_config ToolConfig_default.

(** ** The runtime configuration (tools/runtime_config.rs) *)
Definition normalize_optional_string (raw : option string) : option string :=
  raw ≫= λ raw, let value := trim raw in if is_empty value then None else Some value.

(** [PathBuf::join] *)
Definition path_join (base rest : string) : string :=
  if starts_with "/" rest then rest
  else if is_empty base || ends_with "/" base then base +:+ rest
  else base +:+ "/" +:+ rest.

Section runtime.
(** [std::env::var(..).ok()], the user's home and the current directory *)
Context (env_var : string → option string) (get_user_home : string) (current_dir : option string).

Definition expand_path (raw : string) : string :=
  let trimmed := trim raw in
  if bool_decide (trimmed = "~") then get_user_home
  else if starts_with "~/" trimmed then path_join get_user_home (str_drop 2 trimmed)
  else trimmed.

Definition resolved_file_root (self : ToolConfig) : string :=
  match tc_file_root self with Some path => expand_path path | None => default "." current_dir end.

Definition parse_env_bool (key : string) : option bool :=
  env_var key ≫= λ raw,
  match_arms (to_ascii_lowercase (trim raw))
    [(["1"; "true"; "yes"; "on"], Some true); (["0"; "false"; "no"; "off"], Some false)] None.

Definition parse_env_u64 (key : string) : option Z :=
  env_var key ≫= λ raw, match parse_unsigned u64_max (trim raw) with Ok n => Some n | Err _ => None end.
Definition parse_env_usize (key : string) : option Z :=
  env_var key ≫= λ raw, match parse_usize (trim raw) with Ok n => Some n | Err _ => None end.
Definition parse_env_string (key : string) : option string := normalize_optional_string (env_var key).

Definition parse_env_domain_list (key : string) : gset string :=
  let by_comma := split_char ","%char (default EmptyString (env_var key)) in
  let pieces := (by_comma ≫= split_char ";"%char) ≫= split_char " "%char in
  list_to_set (to_ascii_lowercase <$> filter (λ value, is_empty value = false) (trim <$> pieces)).

Definition browser_companion_runtime_policy (enabled ready : bool) (command expected_version : option string)
    (timeout_seconds : Z) : BrowserCompanionRuntimePolicy :=
  mkBrowserCompanionRuntimePolicy enabled ready (normalize_optional_string command)
    (normalize_optional_string expected_version) (Z.max timeout_seconds 1).

Definition browser_companion_runtime_policy_from_tool_config (config : ToolConfig) :
    BrowserCompanionRuntimePolicy :=
  browser_companion_runtime_policy (bct_enabled (tc_browser_companion config))
    (default false (parse_env_bool "LOONGCLAW_BROWSER_COMPANION_READY"))
    (bct_command (tc_browser_companion config)) (bct_expected_version (tc_browser_companion config))
    (bct_timeout_seconds (tc_browser_companion config)).

Definition or_else {A} (o other : option A) : option A := match o with Some _ => o | None => other end.

Definition browser_companion_runtime_policy_with_env_fallback (config : ToolConfig) :
    BrowserCompanionRuntimePolicy :=
  let companion := tc_browser_companion config in
  browser_companion_runtime_policy
    (bct_enabled companion || default false (parse_env_bool "LOONGCLAW_BROWSER_COMPANION_ENABLED"))
    (default false (parse_env_bool "LOONGCLAW_BROWSER_COMPANION_READY"))
    (or_else (bct_command companion) (parse_env_string "LOONGCLAW_BROWSER_COMPANION_COMMAND"))
    (or_else (bct_expected_version companion)
       (parse_env_string "LOONGCLAW_BROWSER_COMPANION_EXPECTED_VERSION"))
    (default (bct_timeout_seconds companion) (parse_env_u64 "LOONGCLAW_BROWSER_COMPANION_TIMEOUT_SECONDS")).

(** [ToolRuntimeConfig::from_loongclaw_config], with whether the Feishu section
    has credentials *)
Definition from_loongclaw_config (tools : ToolConfig) (external_skills : ExternalSkillsConfig)
    (has_feishu_credentials : bool) (config_path : option string) : ToolRuntimeConfig :=
  let web := tc_web tools in
  let allowed : gset string := list_to_set (normalize_domain_entries (wt_allowed_domains web)) in
  {| rt_file_root := Some (resolved_file_root tools);
     rt_shell_allow := list_to_set (to_ascii_lowercase <$> tc_shell_allow tools);
     rt_shell_deny := list_to_set (to_ascii_lowercase <$> tc_shell_deny tools);
     rt_shell_default_mode := ShellPolicyDefault_parse (tc_shell_default_mode tools);
     rt_config_path := config_path;
     rt_sessions_enabled := st_enabled (tc_sessions tools);
     rt_messages_enabled := mt_enabled (tc_messages tools);
     rt_delegate_enabled := dt_enabled (tc_delegate tools);
     rt_browser := mkBrowserRuntimePolicy (bt_enabled (tc_browser tools)) (bt_max_sessions (tc_browser tools))
                     (bt_max_links (tc_browser tools)) (bt_max_text_chars (tc_browser tools));
     rt_browser_companion := browser_companion_runtime_policy_from_tool_config tools;
     rt_web_fetch :=
       mkWebFetchRuntimePolicy (wt_enabled web) (wt_allow_private_hosts web)
         (negb (bool_decide (normalize_domain_entries (wt_allowed_domains web) = []))) allowed
         (list_to_set (normalize_domain_entries (wt_blocked_domains web)))
         (wt_timeout_seconds web) (wt_max_bytes web) (wt_max_redirects web);
     rt_web_search :=
       let search := tc_web_search tools in
       mkWebSearchRuntimePolicy (ws_enabled search)
         (default DEFAULT_WEB_SEARCH_PROVIDER (normalize_web_search_provider (ws_default_provider search)))
         (or_else (ws_brave_api_key search) (env_var WEB_SEARCH_BRAVE_API_KEY_ENV))
         (or_else (ws_tavily_api_key search) (env_var WEB_SEARCH_TAVILY_API_KEY_ENV))
         (ws_timeout_seconds search) (ws_max_results search);
     rt_external_skills :=
       mkExternalSkillsRuntimePolicy (xs_enabled external_skills)
         (xs_require_download_approval external_skills)
         (list_to_set (normalize_domain_entries (xs_allowed_domains external_skills)))
         (list_to_set (normalize_domain_entries (xs_blocked_domains external_skills)))
         (expand_path <$> xs_install_root external_skills) (xs_auto_expose_installed external_skills);
     rt_feishu := has_feishu_credentials |}.

Definition runtime_tool_view_from_loongclaw_config (tools : ToolConfig)
    (external_skills : ExternalSkillsConfig) (has_feishu_credentials : bool) : ToolView :=
  build_runtime_tool_view_for_runtime_config
    (from_loongclaw_config tools external_skills has_feishu_credentials None).

(** [ToolRuntimeConfig::from_env] *)
Definition from_env (has_feishu_credentials : bool) : ToolRuntimeConfig :=
  let allowed := parse_env_domain_list "LOONGCLAW_WEB_FETCH_ALLOWED_DOMAINS" in
  {| rt_file_root := env_var "LOONGCLAW_FILE_ROOT";
     rt_shell_allow := rt_shell_allow ToolRuntimeConfig_default;
     rt_shell_deny := rt_shell_deny ToolRuntimeConfig_default;
     rt_shell_default_mode := rt_shell_default_mode ToolRuntimeConfig_default;
     rt_config_path := env_var "LOONGCLAW_CONFIG_PATH";
     rt_sessions_enabled := default true (parse_env_bool "LOONGCLAW_TOOL_SESSIONS_ENABLED");
     rt_messages_enabled := default false (parse_env_bool "LOONGCLAW_TOOL_MESSAGES_ENABLED");
     rt_delegate_enabled := default true (parse_env_bool "LOONGCLAW_TOOL_DELEGATE_ENABLED");
     rt_browser :=
       mkBrowserRuntimePolicy (default true (parse_env_bool "LOONGCLAW_BROWSER_ENABLED"))
         (default DEFAULT_BROWSER_MAX_SESSIONS (parse_env_usize "LOONGCLAW_BROWSER_MAX_SESSIONS"))
         (default DEFAULT_BROWSER_MAX_LINKS (parse_env_usize "LOONGCLAW_BROWSER_MAX_LINKS"))
         (default DEFAULT_BROWSER_MAX_TEXT_CHARS (parse_env_usize "LOONGCLAW_BROWSER_MAX_TEXT_CHARS"));
     rt_browser_companion :=
       browser_companion_runtime_policy
         (default false (parse_env_bool "LOONGCLAW_BROWSER_COMPANION_ENABLED"))
         (default false (parse_env_bool "LOONGCLAW_BROWSER_COMPANION_READY"))
         (parse_env_string "LOONGCLAW_BROWSER_COMPANION_COMMAND")
         (parse_env_string "LOONGCLAW_BROWSER_COMPANION_EXPECTED_VERSION")
         (default DEFAULT_BROWSER_COMPANION_TIMEOUT_SECONDS
            (parse_env_u64 "LOONGCLAW_BROWSER_COMPANION_TIMEOUT_SECONDS"));
     rt_web_fetch :=
       mkWebFetchRuntimePolicy (default true (parse_env_bool "LOONGCLAW_WEB_FETCH_ENABLED"))
         (default false (parse_env_bool "LOONGCLAW_WEB_FETCH_ALLOW_PRIVATE_HOSTS"))
         (negb (bool_decide (allowed = ∅))) allowed
         (parse_env_domain_list "LOONGCLAW_WEB_FETCH_BLOCKED_DOMAINS")
         (default DEFAULT_WEB_FETCH_TIMEOUT_SECONDS (parse_env_u64 "LOONGCLAW_WEB_FETCH_TIMEOUT_SECONDS"))
         (default DEFAULT_WEB_FETCH_MAX_BYTES (parse_env_usize "LOONGCLAW_WEB_FETCH_MAX_BYTES"))
         (default DEFAULT_WEB_FETCH_MAX_REDIRECTS (parse_env_usize "LOONGCLAW_WEB_FETCH_MAX_REDIRECTS"));
     rt_web_search :=
       mkWebSearchRuntimePolicy (default true (parse_env_bool "LOONGCLAW_WEB_SEARCH_ENABLED"))
         (default DEFAULT_WEB_SEARCH_PROVIDER
            (parse_env_string "LOONGCLAW_WEB_SEARCH_PROVIDER" ≫= normalize_web_search_provider))
         (env_var WEB_SEARCH_BRAVE_API_KEY_ENV) (env_var WEB_SEARCH_TAVILY_API_KEY_ENV)
         (default DEFAULT_WEB_SEARCH_TIMEOUT_SECONDS
            ((λ seconds, Z.min (Z.max seconds 1) 60) <$> parse_env_u64 "LOONGCLAW_WEB_SEARCH_TIMEOUT_SECONDS"))
         (default DEFAULT_WEB_SEARCH_MAX_RESULTS
            ((λ count, Z.min (Z.max count 1) 10) <$> parse_env_usize "LOONGCLAW_WEB_SEARCH_MAX_RESULTS"));
     rt_external_skills :=
       mkExternalSkillsRuntimePolicy (default false (parse_env_bool "LOONGCLAW_EXTERNAL_SKILLS_ENABLED"))
         (default true (parse_env_bool "LOONGCLAW_EXTERNAL_SKILLS_REQUIRE_DOWNLOAD_APPROVAL"))
         (parse_env_domain_list "LOONGCLAW_EXTERNAL_SKILLS_ALLOWED_DOMAINS")
         (parse_env_domain_list "LOONGCLAW_EXTERNAL_SKILLS_BLOCKED_DOMAINS")
         (env_var "LOONGCLAW_EXTERNAL_SKILLS_INSTALL_ROOT")
         (default false (parse_env_bool "LOONGCLAW_EXTERNAL_SKILLS_AUTO_EXPOSE_INSTALLED"));
     rt_feishu := has_feishu_credentials |}.
End runtime.

(** [BrowserCompanionRuntimePolicy::execution_security_tier] *)
Definition companion_execution_security_tier (p : BrowserCompanionRuntimePolicy) : ExecutionSecurityTier :=
  if is_runtime_ready p then Balanced else Restricted.

(** The lines of the prompt that tell a child its limits *)
Definition line_if {A} (o : option A) (line : string) : list string :=
  match o with Some _ => [line] | None => [] end.

Definition delegate_child_prompt_summary (self : ToolRuntimeConfig) (narrowing : ToolRuntimeNarrowing) :
    option string :=
  if ToolRuntimeNarrowing_is_empty narrowing then None
  else
    let effective := narrowed self narrowing in
    let web := rt_web_fetch effective in
    let browser := rt_browser effective in
    let nweb := tn_web_fetch narrowing in
    let nbrowser := tn_browser narrowing in
    let web_lines :=
      if wf_enabled web then
        line_if (wn_allow_private_hosts nweb)
          ("- web.fetch private hosts: " +:+ (if wf_allow_private_hosts web then "allowed" else "denied"))
        ++ (if bool_decide (wn_allowed_domains nweb = ∅) then []
            else if wf_enforce_allowed_domains web && bool_decide (wf_allowed_domains web = ∅)
            then ["- web.fetch allowed domains: none (effective intersection is empty)"]
            else ["- web.fetch allowed domains: " +:+ join ", " (btree_elements (wf_allowed_domains web))])
        ++ (if bool_decide (wn_blocked_domains nweb = ∅) then []
            else ["- web.fetch blocked domains: " +:+ join ", " (btree_elements (wf_blocked_domains web))])
        ++ line_if (wn_timeout_seconds nweb)
             ("- web.fetch timeout seconds: " +:+ pretty (wf_timeout_seconds web))
        ++ line_if (wn_max_bytes nweb) ("- web.fetch max bytes: " +:+ pretty (wf_max_bytes web))
        ++ line_if (wn_max_redirects nweb) ("- web.fetch max redirects: " +:+ pretty (wf_max_redirects web))
      else [] in
    let browser_lines :=
      if bp_enabled browser then
        line_if (bn_max_sessions nbrowser) ("- browser max sessions: " +:+ pretty (bp_max_sessions browser))
        ++ line_if (bn_max_links nbrowser) ("- browser max links: " +:+ pretty (bp_max_links browser))
        ++ line_if (bn_max_text_chars nbrowser)
             ("- browser max text chars: " +:+ pretty (bp_max_text_chars browser))
      else [] in
    if bool_decide (web_lines ++ browser_lines = []) then None
    else
      Some (join (String newline "")
              (["[delegate_child_runtime_contract]"; "Plan within these child-session runtime limits:"]
               ++ web_lines ++ browser_lines
               ++ ["Treat these as enforced limits for this child session."])).
