(* ===== verification/Approvals.v ===== *)
(** * Approvals: the approval tools (app/src/tools/approval.rs)

    [approval_requests_list], [approval_request_status] and
    [approval_request_resolve], on the session repository. Resolving a request
    is the caller's: [ApprovalResolutionRuntime]. *)
From S2P Require Import Prelude RustStr Contracts Json SessionDb SessionRepo ToolConfig.

(** ** Requests and outcomes *)
Inductive GrantAttentionState := Grant_NotApplicable | Grant_Clean | Grant_MissingGrant | Grant_ReviewStale.
Inductive GrantAttentionFilter :=
  Filter_NeedsAttention | Filter_MissingGrant | Filter_ReviewStale | Filter_Clean | Filter_NotApplicable.
Inductive AttentionSeverity := Severity_Medium | Severity_High.

#[export] Instance GrantAttentionState_eq_dec : EqDecision GrantAttentionState.
Proof. solve_decision. Defined.
#[export] Instance AttentionSeverity_eq_dec : EqDecision AttentionSeverity.
Proof. solve_decision. Defined.

Record ApprovalRequestsListRequest := mkApprovalRequestsListRequest {
  al_session_id : option string;
  al_status : option ApprovalRequestStatus;
  al_grant_attention : option GrantAttentionFilter;
  al_limit : Z }.

Record ApprovalRequestResolveRequest := mkApprovalRequestResolveRequest {
  rv_approval_request_id : string;
  rv_decision : ApprovalDecision }.

Record ApprovalResolutionRequest := mkApprovalResolutionRequest {
  rq_current_session_id : string;
  rq_approval_request_id : string;
  rq_decision : ApprovalDecision;
  rq_visibility : SessionVisibility }.

Record ApprovalResolutionOutcome := mkApprovalResolutionOutcome {
  ro_approval_request : ApprovalRequestRecord;
  ro_resumed_tool_output : option ToolCoreOutcome }.

(** [trait ApprovalResolutionRuntime] *)
Definition ApprovalResolutionRuntime (W : Type) : Type :=
  ApprovalResolutionRequest → ST (Db * W) string ApprovalResolutionOutcome.

Definition APPROVAL_GRANT_REVIEW_STALE_AFTER_SECONDS : Z := 60 * 60 * 24 * 30.

(** ** Attention *)
Definition AttentionSeverity_as_str (s : AttentionSeverity) : string :=
  match s with Severity_Medium => "medium" | Severity_High => "high" end.

(** [Iterator::max] over severities *)
Definition max_severity (l : list AttentionSeverity) : option AttentionSeverity :=
  if bool_decide (Severity_High ∈ l) then Some Severity_High
  else if bool_decide (Severity_Medium ∈ l) then Some Severity_Medium else None.

Record AttentionSignal := mkAttentionSignal {
  sg_source : string;
  sg_kind : string;
  sg_severity : AttentionSeverity;
  sg_action : string;
  sg_detail : option string }.

Definition AttentionSignal_to_json (s : AttentionSignal) : Value :=
  json_object
    [("source", json_str (sg_source s)); ("kind", json_str (sg_kind s));
     ("severity", json_str (AttentionSeverity_as_str (sg_severity s))); ("action", json_str (sg_action s));
     ("detail", json_opt json_str (sg_detail s))].

Definition GrantAttentionState_as_str (s : GrantAttentionState) : string :=
  match s with
  | Grant_NotApplicable => "not_applicable" | Grant_Clean => "clean"
  | Grant_MissingGrant => "missing_grant" | Grant_ReviewStale => "review_stale"
  end.
Definition grant_state_needs_attention (s : GrantAttentionState) : bool :=
  match s with Grant_MissingGrant | Grant_ReviewStale => true | _ => false end.

Definition GrantAttentionFilter_as_str (f : GrantAttentionFilter) : string :=
  match f with
  | Filter_NeedsAttention => "needs_attention" | Filter_MissingGrant => "missing_grant"
  | Filter_ReviewStale => "review_stale" | Filter_Clean => "clean" | Filter_NotApplicable => "not_applicable"
  end.
Definition GrantAttentionFilter_matches (f : GrantAttentionFilter) (state : GrantAttentionState) : bool :=
  match f with
  | Filter_NeedsAttention => grant_state_needs_attention state
  | Filter_MissingGrant => bool_decide (state = Grant_MissingGrant)
  | Filter_ReviewStale => bool_decide (state = Grant_ReviewStale)
  | Filter_Clean => bool_decide (state = Grant_Clean)
  | Filter_NotApplicable => bool_decide (state = Grant_NotApplicable)
  end.

Record DerivedAttentionView := mkDerivedAttentionView {
  dv_execution_signals : list AttentionSignal;
  dv_grant_signals : list AttentionSignal;
  dv_grant_state : GrantAttentionState;
  dv_grant_scope_session_id : option string;
  dv_grant_record : option ApprovalGrantRecord;
  dv_grant_age_seconds : option Z }.

Definition combined_signals (v : DerivedAttentionView) : list AttentionSignal :=
  dv_execution_signals v ++ dv_grant_signals v.
Definition view_needs_attention (v : DerivedAttentionView) : bool :=
  negb (bool_decide (length (dv_execution_signals v) = 0)) || negb (bool_decide (length (dv_grant_signals v) = 0)).
Definition severity_str (signals : list AttentionSignal) : string :=
  default "none" (AttentionSeverity_as_str <$> max_severity (sg_severity <$> signals)).
Definition highest_severity_str (v : DerivedAttentionView) : string := severity_str (combined_signals v).

(** [right.severity.cmp(&left.severity).then_with(|| left.kind.cmp(right.kind))] *)
Definition signal_first (s s' : AttentionSignal) : Prop :=
  match sg_severity s, sg_severity s' with
  | Severity_High, Severity_Medium => True
  | Severity_Medium, Severity_High => False
  | _, _ => String.le (sg_kind s) (sg_kind s')
  end.
#[export] Instance signal_first_dec : RelDecision signal_first.
Proof. intros s s'. unfold signal_first. destruct (sg_severity s), (sg_severity s'); apply _. Defined.

Definition primary_action (v : DerivedAttentionView) : option string :=
  sg_action <$> head (stable_sort signal_first (combined_signals v)).

Definition source_category (v : DerivedAttentionView) : string :=
  match dv_execution_signals v, dv_grant_signals v with
  | _ :: _, _ :: _ => "combined"
  | _ :: _, [] => "execution_only"
  | [], _ :: _ => "grant_only"
  | [], [] => "none"
  end.

Definition reason_kinds (v : DerivedAttentionView) : list string := sg_kind <$> combined_signals v.

Definition has_kind (kind : string) (signals : list AttentionSignal) : bool :=
  bool_decide (kind ∈ sg_kind <$> signals).
Definition execution_state (v : DerivedAttentionView) : string :=
  let signals := dv_execution_signals v in
  if has_kind "resumed_execution_failed" signals then "resume_failed"
  else if has_kind "resume_incomplete" signals then "resume_incomplete"
  else if has_kind "pending_operator_decision" signals then "pending_decision"
  else "clean".

Definition signals_json (signals : list AttentionSignal) : Value := JArray (AttentionSignal_to_json <$> signals).

Definition execution_integrity_json (v : DerivedAttentionView) : Value :=
  json_object
    [("state", json_str (execution_state v));
     ("needs_attention", json_bool (negb (bool_decide (length (dv_execution_signals v) = 0))));
     ("signals", signals_json (dv_execution_signals v));
     ("highest_escalation_level", json_str (severity_str (dv_execution_signals v)))].

Definition grant_review_json (v : DerivedAttentionView) : Value :=
  let grant := dv_grant_record v in
  json_object
    [("state", json_str (GrantAttentionState_as_str (dv_grant_state v)));
     ("needs_attention", json_bool (grant_state_needs_attention (dv_grant_state v)));
     ("scope_session_id", json_opt json_str (dv_grant_scope_session_id v));
     ("grant_exists", json_bool (bool_decide (is_Some grant)));
     ("grant_created_by_session_id", json_opt json_str (grant ≫= ag_created_by_session_id));
     ("grant_created_at", json_opt json_int (ag_created_at <$> grant));
     ("grant_updated_at", json_opt json_int (ag_updated_at <$> grant));
     ("grant_age_seconds", json_opt json_int (dv_grant_age_seconds v));
     ("review_stale_after_seconds",
       json_opt json_int ((λ _, APPROVAL_GRANT_REVIEW_STALE_AFTER_SECONDS) <$> grant));
     ("signals", signals_json (dv_grant_signals v))].

Definition grant_attention_json (v : DerivedAttentionView) : Value :=
  json_object
    [("state", json_str (GrantAttentionState_as_str (dv_grant_state v)));
     ("needs_attention", json_bool (grant_state_needs_attention (dv_grant_state v)));
     ("signals", signals_json (dv_grant_signals v));
     ("highest_escalation_level", json_str (severity_str (dv_grant_signals v)))].

Definition attention_json (v : DerivedAttentionView) : Value :=
  let signals := combined_signals v in
  json_object
    [("needs_attention", json_bool (view_needs_attention v));
     ("sources", json_strs (filter (λ source, source ∈ sg_source <$> signals) ["execution"; "grant"]));
     ("signals", signals_json signals);
     ("highest_escalation_level", json_str (highest_severity_str v));
     ("primary_action", json_opt json_str (primary_action v))].

Record ApprovalRequestView := mkApprovalRequestView {
  vw_record : ApprovalRequestRecord;
  vw_attention : DerivedAttentionView }.

(** ** Reports *)

(** [BTreeMap<String, usize>] of counts, [*counts.entry(k).or_default() += 1] *)
Definition count_into (counts : gmap string nat) (key : string) : gmap string nat :=
  <[key := S (default 0 (counts !! key))]> counts.
Definition counts_of (keys : list string) : gmap string nat := foldl count_into ∅ keys.

Definition count_first (p q : string * nat) : Prop := q.2 < p.2 ∨ (q.2 = p.2 ∧ String.le p.1 q.1).
#[export] Instance count_first_dec : RelDecision count_first.
Proof. intros ??. unfold count_first. apply _. Defined.

Definition sorted_counts (counts : gmap string nat) (label : string) : Value :=
  JArray ((λ p : string * nat, json_object [(label, json_str p.1); ("count", json_uint (Z.of_nat p.2))])
            <$> stable_sort count_first (btree_entries counts)).

(** [sort_unstable] and [dedup] *)
Definition distinct_actions (signals : list AttentionSignal) : list string :=
  btree_elements (list_to_set (sg_action <$> signals)).

Definition category_count (category : string) (requests : list ApprovalRequestView) : Value :=
  json_uint (len (filter (λ r, source_category (vw_attention r) = category) requests)).

Definition approval_attention_summary_json (requests : list ApprovalRequestView) : Value :=
  let attended := filter (λ r, view_needs_attention (vw_attention r) = true) requests in
  json_object
    [("needs_attention_count", json_uint (len attended));
     ("source_breakdown",
       json_object
         [("execution_only", category_count "execution_only" requests);
          ("grant_only", category_count "grant_only" requests);
          ("combined", category_count "combined" requests);
          ("none", category_count "none" requests)]);
     ("hotspots",
       json_object
         [("by_reason", sorted_counts (counts_of (requests ≫= λ r, reason_kinds (vw_attention r))) "reason");
          ("by_action",
            sorted_counts (counts_of (requests ≫= λ r, distinct_actions (combined_signals (vw_attention r))))
              "action");
          ("by_tool", sorted_counts (counts_of ((λ r, aq_tool_name (vw_record r)) <$> attended)) "tool_name");
          ("by_session",
            sorted_counts (counts_of ((λ r, aq_session_id (vw_record r)) <$> attended)) "session_id")])].

Definition approval_request_fields (record : ApprovalRequestRecord) : list (string * Value) :=
  [("approval_request_id", json_str (aq_approval_request_id record));
   ("session_id", json_str (aq_session_id record));
   ("turn_id", json_str (aq_turn_id record));
   ("tool_call_id", json_str (aq_tool_call_id record));
   ("tool_name", json_str (aq_tool_name record));
   ("approval_key", json_str (aq_approval_key record));
   ("status", json_str (ApprovalRequestStatus_as_str (aq_status record)));
   ("decision", json_opt json_str (ApprovalDecision_as_str <$> aq_decision record));
   ("requested_at", json_int (aq_requested_at record));
   ("resolved_at", json_opt json_int (aq_resolved_at record));
   ("resolved_by_session_id", json_opt json_str (aq_resolved_by_session_id record));
   ("executed_at", json_opt json_int (aq_executed_at record));
   ("last_error", json_opt json_str (aq_last_error record))].

Definition attention_fields (attention : DerivedAttentionView) : list (string * Value) :=
  [("execution_integrity", execution_integrity_json attention);
   ("grant_review", grant_review_json attention);
   ("grant_attention", grant_attention_json attention);
   ("attention", attention_json attention)].

Definition approval_request_summary_json (view : ApprovalRequestView) : Value :=
  let record := vw_record view in
  json_object
    (approval_request_fields record
     ++ [("reason", json_opt json_str (json_get_str "reason" (aq_governance_snapshot_json record)));
         ("rule_id", json_opt json_str (json_get_str "rule_id" (aq_governance_snapshot_json record)))]
     ++ attention_fields (vw_attention view)).

Definition approval_request_detail_json (record : ApprovalRequestRecord) (attention : DerivedAttentionView) :
    Value :=
  json_object
    (approval_request_fields record
     ++ [("request_payload", aq_request_payload_json record);
         ("governance_snapshot", aq_governance_snapshot_json record)]
     ++ attention_fields attention).

(** ** Parsing payloads *)
Definition optional_payload_string (payload : Value) (field : string) : option string :=
  json_get_str field payload ≫= λ raw, let value := trim raw in if is_empty value then None else Some value.

Definition required_payload_string (payload : Value) (field : string) : result string string :=
  ok_or (optional_payload_string payload field) ("approval tool requires payload." +:+ field).

(** [value.clamp(1, max as u64)] panics when [max] is [0]. *)
Definition clamp_panic : string := "assertion failed: min <= max".
Definition clamp_from_one (value max : Z) : result string Z :=
  if (max <? 1)%Z then Err clamp_panic else Ok (Z.min (Z.max value 1) max).

Definition optional_payload_limit (payload : Value) (field : string) (dflt max : Z) : result string Z :=
  match json_get_u64 field payload with Some value => clamp_from_one value max | None => Ok dflt end.

Definition parse_approval_request_status (value : string) : result string ApprovalRequestStatus :=
  match ApprovalRequestStatus_from_db value with
  | Ok status => Ok status
  | Err _ => Err ("approval_requests_list_invalid_request: unknown status `" +:+ value +:+ "`")
  end.

Definition parse_grant_attention_filter (value : string) : result string GrantAttentionFilter :=
  if bool_decide (value = "needs_attention") then Ok Filter_NeedsAttention
  else if bool_decide (value = "missing_grant") then Ok Filter_MissingGrant
  else if bool_decide (value = "review_stale") then Ok Filter_ReviewStale
  else if bool_decide (value = "clean") then Ok Filter_Clean
  else if bool_decide (value = "not_applicable") then Ok Filter_NotApplicable
  else Err ("approval_requests_list_invalid_request: unknown grant_attention `" +:+ value +:+ "`").

Definition parse_approval_decision (value : string) : result string ApprovalDecision :=
  match ApprovalDecision_from_db value with
  | Ok decision => Ok decision
  | Err _ => Err ("approval_request_resolve_invalid_request: unknown decision `" +:+ value +:+ "`")
  end.

Definition parse_approval_requests_list_request (payload : Value) (tool_config : ToolConfig) :
    result string ApprovalRequestsListRequest :=
  status ← transpose parse_approval_request_status (optional_payload_string payload "status");
  grant_attention ← transpose parse_grant_attention_filter (optional_payload_string payload "grant_attention");
  limit ← optional_payload_limit payload "limit" (st_list_limit (tc_sessions tool_config))
            (st_list_limit (tc_sessions tool_config));
  Ok (mkApprovalRequestsListRequest (optional_payload_string payload "session_id") status grant_attention limit).

Definition parse_approval_request_resolve_request (payload : Value) : result string ApprovalRequestResolveRequest :=
  approval_request_id ← required_payload_string payload "approval_request_id";
  decision ← required_payload_string payload "decision";
  decision ← parse_approval_decision decision;
  Ok (mkApprovalRequestResolveRequest approval_request_id decision).

(** ** The tools *)
Section approval_tools.
Context {W : Type} (env : DbEnv W) (json : JsonText) (fuel : nat).
Abbreviation DB := (ST (Db * W) string).

(** A walk over a lineage that outlasts its fuel has no result. *)
Definition out_of_fuel : string := "lineage walk did not end".
Definition ended {A} (m : DB (option A)) : DB A := m ≫= λ o, lift (ok_or o out_of_fuel).

Definition visible_session_ids (current_session_id : string) (visibility : SessionVisibility) :
    DB (list string) :=
  match visibility with
  | Visibility_SelfOnly => mret [current_session_id]
  | Visibility_Children => fmap (fmap ss_session_id) (list_visible_sessions env current_session_id)
  end.

(** [request.current_session_id == .. || repo.is_session_visible(..)?] *)
Definition session_visible (current_session_id target_session_id : string) (visibility : SessionVisibility) :
    DB bool :=
  if bool_decide (current_session_id = target_session_id) then mret true
  else
    match visibility with
    | Visibility_SelfOnly => mret false
    | Visibility_Children => ended (is_session_visible env fuel current_session_id target_session_id)
    end.

Definition visibility_denied (current_session_id target_session_id : string) : string :=
  "visibility_denied: session `" +:+ target_session_id +:+ "` is not visible from `" +:+ current_session_id
  +:+ "`".

Definition ensure_visible (current_session_id target_session_id : string) (visibility : SessionVisibility) :
    DB unit :=
  session_visible current_session_id target_session_id visibility ≫= λ is_visible : bool,
  if is_visible then mret () else throw (visibility_denied current_session_id target_session_id).

Definition execution_signals_of (record : ApprovalRequestRecord) : list AttentionSignal :=
  match aq_status record with
  | Status_Pending =>
      [mkAttentionSignal "execution" "pending_operator_decision" Severity_Medium "resolve_request"
         (Some "approval request is waiting for an operator decision")]
  | Status_Approved | Status_Executing =>
      [mkAttentionSignal "execution" "resume_incomplete" Severity_High "inspect_replay_state"
         (Some "approval request left the queue without reaching a terminal execution state")]
  | Status_Executed =>
      match aq_last_error record with
      | Some error =>
          [mkAttentionSignal "execution" "resumed_execution_failed" Severity_High "inspect_failed_replay"
             (Some error)]
      | None => []
      end
  | Status_Denied | Status_Expired | Status_Cancelled => []
  end.

Definition grant_signals_of (decision : option ApprovalDecision) (age_seconds : option Z) :
    GrantAttentionState * list AttentionSignal :=
  match decision with
  | Some Decision_ApproveAlways =>
      match age_seconds with
      | None =>
          (Grant_MissingGrant,
           [mkAttentionSignal "grant" "missing_runtime_grant" Severity_High "repair_runtime_grant"
              (Some "approve_always was recorded without a durable runtime grant")])
      | Some age =>
          if (APPROVAL_GRANT_REVIEW_STALE_AFTER_SECONDS <? age)%Z then
            (Grant_ReviewStale,
             [mkAttentionSignal "grant" "stale_runtime_grant_review" Severity_Medium "review_runtime_grant"
                (Some ("runtime grant review age " +:+ pretty age +:+ "s exceeds "
                       +:+ pretty APPROVAL_GRANT_REVIEW_STALE_AFTER_SECONDS +:+ "s"))])
          else (Grant_Clean, [])
      end
  | _ => (Grant_NotApplicable, [])
  end.

(** [now.saturating_sub(updated_at).max(0)] *)
Definition grant_age (now updated_at : Z) : Z := Z.max (Z.min (now - updated_at) (2 ^ 63 - 1)) 0.

Definition derive_attention_view (record : ApprovalRequestRecord) : DB DerivedAttentionView :=
  ended (lineage_root_session_id env fuel (aq_session_id record)) ≫= λ scope,
  match scope with
  | Some scope_session_id => load_approval_grant env scope_session_id (aq_approval_key record)
  | None => mret None
  end ≫= λ grant_record,
  match grant_record with
  | Some grant => unix_ts_now env ≫= λ now, mret (Some (grant_age now (ag_updated_at grant)))
  | None => mret None
  end ≫= λ age,
  let '(grant_state, grant_signals) := grant_signals_of (aq_decision record) age in
  mret (mkDerivedAttentionView (execution_signals_of record) grant_signals grant_state scope grant_record age).

Fixpoint requests_of_sessions (session_ids : list string) (status : option ApprovalRequestStatus) :
    DB (list ApprovalRequestRecord) :=
  match session_ids with
  | [] => mret []
  | session_id :: rest =>
      list_approval_requests_for_session env json session_id status ≫= λ requests,
      requests_of_sessions rest status ≫= λ more, mret (requests ++ more)
  end.

Fixpoint attention_views (filter : option GrantAttentionFilter) (requests : list ApprovalRequestRecord) :
    DB (list ApprovalRequestView) :=
  match requests with
  | [] => mret []
  | record :: rest =>
      derive_attention_view record ≫= λ attention,
      attention_views filter rest ≫= λ views,
      mret (if match filter with
               | Some f => GrantAttentionFilter_matches f (dv_grant_state attention)
               | None => true
               end
            then mkApprovalRequestView record attention :: views else views)
  end.

Definition view_first (v v' : ApprovalRequestView) : Prop :=
  newest_first (aq_approval_request_id (vw_record v), aq_requested_at (vw_record v))
    (aq_approval_request_id (vw_record v'), aq_requested_at (vw_record v')).
#[export] Instance view_first_dec : RelDecision view_first.
Proof. intros ??. unfold view_first. apply _. Defined.

Definition execute_approval_requests_list (payload : Value) (current_session_id : string)
    (tool_config : ToolConfig) : DB ToolCoreOutcome :=
  SessionRepository_new env ≫= λ _,
  lift (parse_approval_requests_list_request payload tool_config) ≫= λ request,
  match al_session_id request with
  | Some session_id =>
      ensure_visible current_session_id session_id (st_visibility (tc_sessions tool_config)) ≫= λ _,
      mret [session_id]
  | None => visible_session_ids current_session_id (st_visibility (tc_sessions tool_config))
  end ≫= λ target_session_ids,
  requests_of_sessions target_session_ids (al_status request) ≫= λ requests,
  attention_views (al_grant_attention request) requests ≫= λ request_views,
  let request_views := stable_sort view_first request_views in
  let returned := take (Z.to_nat (al_limit request)) request_views in
  mret (mkToolCoreOutcome "ok"
    (json_object
       [("current_session_id", json_str current_session_id);
        ("filter",
          json_object
            [("session_id", json_opt json_str (al_session_id request));
             ("status", json_opt json_str (ApprovalRequestStatus_as_str <$> al_status request));
             ("grant_attention", json_opt json_str (GrantAttentionFilter_as_str <$> al_grant_attention request));
             ("limit", json_uint (al_limit request))]);
        ("visible_session_ids", json_strs target_session_ids);
        ("matched_count", json_uint (len request_views));
        ("returned_count", json_uint (len returned));
        ("attention_summary", approval_attention_summary_json request_views);
        ("requests", JArray (approval_request_summary_json <$> returned))])).

Definition request_not_found (approval_request_id : string) : string :=
  "approval_request_not_found: `" +:+ approval_request_id +:+ "`".

Definition execute_approval_request_status (payload : Value) (current_session_id : string)
    (tool_config : ToolConfig) : DB ToolCoreOutcome :=
  lift (required_payload_string payload "approval_request_id") ≫= λ approval_request_id,
  SessionRepository_new env ≫= λ _,
  load_approval_request env json approval_request_id ≫= λ request,
  lift (ok_or request (request_not_found approval_request_id)) ≫= λ request,
  ensure_visible current_session_id (aq_session_id request) (st_visibility (tc_sessions tool_config)) ≫= λ _,
  derive_attention_view request ≫= λ attention,
  mret (mkToolCoreOutcome "ok"
    (json_object
       [("current_session_id", json_str current_session_id);
        ("approval_request", approval_request_detail_json request attention)])).

(** [serde_json::to_value] of a [ToolCoreOutcome] *)
Definition tool_outcome_json (o : ToolCoreOutcome) : Value :=
  json_object [("status", json_str (tco_status o)); ("payload", tco_payload o)].

Definition execute_approval_request_resolve (payload : Value) (current_session_id : string)
    (tool_config : ToolConfig) (runtime : ApprovalResolutionRuntime W) : DB ToolCoreOutcome :=
  lift (parse_approval_request_resolve_request payload) ≫= λ request,
  runtime (mkApprovalResolutionRequest current_session_id (rv_approval_request_id request)
             (rv_decision request) (st_visibility (tc_sessions tool_config))) ≫= λ outcome,
  SessionRepository_new env ≫= λ _,
  derive_attention_view (ro_approval_request outcome) ≫= λ attention,
  mret (mkToolCoreOutcome "ok"
    (json_object
       [("current_session_id", json_str current_session_id);
        ("approval_request", approval_request_detail_json (ro_approval_request outcome) attention);
        ("resumed_tool_output", json_opt tool_outcome_json (ro_resumed_tool_output outcome))])).

Definition session_tools_disabled : string := "app_tool_disabled: session tools are disabled by config".

Definition execute_approval_tool_with_policies (request : ToolCoreRequest) (current_session_id : string)
    (tool_config : ToolConfig) : DB ToolCoreOutcome :=
  if negb (st_enabled (tc_sessions tool_config)) then throw session_tools_disabled
  else if bool_decide (tcr_tool_name request = "approval_requests_list") then
    execute_approval_requests_list (tcr_payload request) current_session_id tool_config
  else if bool_decide (tcr_tool_name request = "approval_request_status") then
    execute_approval_request_status (tcr_payload request) current_session_id tool_config
  else if bool_decide (tcr_tool_name request = "approval_request_resolve") then
    throw "app_tool_requires_runtime_support: approval_request_resolve"
  else throw ("app_tool_not_found: unknown approval tool `" +:+ tcr_tool_name request +:+ "`").

Definition execute_approval_tool_with_runtime_support (request : ToolCoreRequest) (current_session_id : string)
    (tool_config : ToolConfig) (runtime : option (ApprovalResolutionRuntime W)) : DB ToolCoreOutcome :=
  if negb (st_enabled (tc_sessions tool_config)) then throw session_tools_disabled
  else if bool_decide (tcr_tool_name request = "approval_request_resolve") then
    lift (ok_or runtime "approval_request_runtime_not_configured") ≫= λ runtime,
    execute_approval_request_resolve (tcr_payload request) current_session_id tool_config runtime
  else execute_approval_tool_with_policies request current_session_id tool_config.
End approval_tools.
