(* ===== verification/Subagent.v ===== *)
(** * Subagent: what a delegated child session is told and remembered by

    The execution contract of a child (app/src/conversation/subagent.rs) with
    its JSON form, the parameters and outcomes of the delegate tools
    (app/src/tools/delegate.rs), recovery records (app/src/session/recovery.rs)
    and cancellation texts (app/src/session/mod.rs). *)
From S2P Require Import Prelude RustStr Contracts Json ToolRuntimeConfig SessionDb SessionRepo.
From Stdlib Require Import Ascii.

(** ** Derived serialization of structs

    [serde] reads a struct from an object, whose unknown keys it ignores, or
    from an array with one element per field, where trailing fields that have a
    default may be missing. *)
Definition struct_fields (names : list string) (v : Value) : option (list (option Value)) :=
  match v with
  | JObject fields => Some ((λ name, obj_get name fields) <$> names)
  | JArray elements =>
      if bool_decide (length elements ≤ length names)
      then Some (imap (λ i _, elements !! i) names) else None
  | _ => None
  end.

(** A required field, and one with [#[serde(default)]] *)
Definition required_field {A} (decode : Value → option A) (f : option Value) : option A := f ≫= decode.
Definition field_or {A} (dflt : A) (decode : Value → option A) (f : option Value) : option A :=
  match f with None => Some dflt | Some v => decode v end.

Definition decode_option {A} (decode : Value → option A) (v : Value) : option (option A) :=
  match v with JNull => Some None | v => Some <$> decode v end.
Definition decode_strings (v : Value) : option (list string) := json_as_array v ≫= mapM json_as_str.
Definition decode_string_set (v : Value) : option (gset string) := list_to_set <$> decode_strings v.

(** A unit variant: its name, or an object with that one key and [null] *)
Definition decode_variant {A} (variants : list (string * A)) (v : Value) : option A :=
  let find name := snd <$> (snd <$> list_find (λ p, p.1 = name) variants) in
  match v with
  | JString name => find name
  | JObject [(name, JNull)] => find name
  | _ => None
  end.

(** [#[serde(skip_serializing_if = ..)]] *)
Definition field_if {A} (name : string) (encode : A → Value) (o : option A) : list (string * Value) :=
  match o with Some a => [(name, encode a)] | None => [] end.
Definition set_field_if (name : string) (s : gset string) : list (string * Value) :=
  if bool_decide (s = ∅) then [] else [(name, json_strs (btree_elements s))].

Definition browser_narrowing_to_value (n : BrowserRuntimeNarrowing) : Value :=
  json_object (field_if "max_sessions" json_uint (bn_max_sessions n)
               ++ field_if "max_links" json_uint (bn_max_links n)
               ++ field_if "max_text_chars" json_uint (bn_max_text_chars n)).
Definition web_narrowing_to_value (n : WebFetchRuntimeNarrowing) : Value :=
  json_object (field_if "allow_private_hosts" json_bool (wn_allow_private_hosts n)
               ++ set_field_if "allowed_domains" (wn_allowed_domains n)
               ++ set_field_if "blocked_domains" (wn_blocked_domains n)
               ++ field_if "timeout_seconds" json_uint (wn_timeout_seconds n)
               ++ field_if "max_bytes" json_uint (wn_max_bytes n)
               ++ field_if "max_redirects" json_uint (wn_max_redirects n)).
Definition narrowing_to_value (n : ToolRuntimeNarrowing) : Value :=
  json_object [("browser", browser_narrowing_to_value (tn_browser n));
               ("web_fetch", web_narrowing_to_value (tn_web_fetch n))].

Definition BrowserRuntimeNarrowing_default : BrowserRuntimeNarrowing := mkBrowserRuntimeNarrowing None None None.
Definition WebFetchRuntimeNarrowing_default : WebFetchRuntimeNarrowing :=
  mkWebFetchRuntimeNarrowing None ∅ ∅ None None None.
Definition ToolRuntimeNarrowing_default : ToolRuntimeNarrowing :=
  mkToolRuntimeNarrowing BrowserRuntimeNarrowing_default WebFetchRuntimeNarrowing_default.

Definition browser_narrowing_from_value (v : Value) : option BrowserRuntimeNarrowing :=
  fields ← struct_fields ["max_sessions"; "max_links"; "max_text_chars"] v;
  match fields with
  | [sessions; links; chars] =>
      sessions ← field_or None (decode_option json_as_u64) sessions;
      links ← field_or None (decode_option json_as_u64) links;
      chars ← field_or None (decode_option json_as_u64) chars;
      Some (mkBrowserRuntimeNarrowing sessions links chars)
  | _ => None
  end.

Definition web_narrowing_from_value (v : Value) : option WebFetchRuntimeNarrowing :=
  fields ← struct_fields ["allow_private_hosts"; "allowed_domains"; "blocked_domains"; "timeout_seconds";
                          "max_bytes"; "max_redirects"] v;
  match fields with
  | [private; allowed; blocked; timeout; bytes; redirects] =>
      private ← field_or None (decode_option json_as_bool) private;
      allowed ← field_or ∅ decode_string_set allowed;
      blocked ← field_or ∅ decode_string_set blocked;
      timeout ← field_or None (decode_option json_as_u64) timeout;
      bytes ← field_or None (decode_option json_as_u64) bytes;
      redirects ← field_or None (decode_option json_as_u64) redirects;
      Some (mkWebFetchRuntimeNarrowing private allowed blocked timeout bytes redirects)
  | _ => None
  end.

Definition narrowing_from_value (v : Value) : option ToolRuntimeNarrowing :=
  fields ← struct_fields ["browser"; "web_fetch"] v;
  match fields with
  | [browser; web] =>
      browser ← field_or BrowserRuntimeNarrowing_default browser_narrowing_from_value browser;
      web ← field_or WebFetchRuntimeNarrowing_default web_narrowing_from_value web;
      Some (mkToolRuntimeNarrowing browser web)
  | _ => None
  end.

(** ** The execution contract *)
Inductive ConstrainedSubagentMode := Mode_Inline | Mode_Async.
Inductive ConstrainedSubagentTerminalReason :=
  Reason_Completed | Reason_Failed | Reason_TimedOut | Reason_SpawnFailed.
#[export] Instance ConstrainedSubagentMode_eq_dec : EqDecision ConstrainedSubagentMode.
Proof. solve_decision. Defined.

Record ConstrainedSubagentExecution := mkConstrainedSubagentExecution {
  cx_mode : ConstrainedSubagentMode;
  cx_depth : Z;
  cx_max_depth : Z;
  cx_active_children : Z;
  cx_max_active_children : Z;
  cx_timeout_seconds : Z;
  cx_allow_shell_in_child : bool;
  cx_child_tool_allowlist : list string;
  cx_runtime_narrowing : ToolRuntimeNarrowing;
  cx_kernel_bound : bool }.

Definition mode_str (m : ConstrainedSubagentMode) : string :=
  match m with Mode_Inline => "inline" | Mode_Async => "async" end.
Definition reason_str (r : ConstrainedSubagentTerminalReason) : string :=
  match r with
  | Reason_Completed => "completed" | Reason_Failed => "failed" | Reason_TimedOut => "timed_out"
  | Reason_SpawnFailed => "spawn_failed"
  end.

Definition execution_to_value (x : ConstrainedSubagentExecution) : Value :=
  json_object
    ([("mode", json_str (mode_str (cx_mode x)));
      ("depth", json_uint (cx_depth x));
      ("max_depth", json_uint (cx_max_depth x));
      ("active_children", json_uint (cx_active_children x));
      ("max_active_children", json_uint (cx_max_active_children x));
      ("timeout_seconds", json_uint (cx_timeout_seconds x));
      ("allow_shell_in_child", json_bool (cx_allow_shell_in_child x));
      ("child_tool_allowlist", json_strs (cx_child_tool_allowlist x))]
     ++ (if ToolRuntimeNarrowing_is_empty (cx_runtime_narrowing x) then []
         else [("runtime_narrowing", narrowing_to_value (cx_runtime_narrowing x))])
     ++ [("kernel_bound", json_bool (cx_kernel_bound x))]).

Definition execution_from_value (v : Value) : option ConstrainedSubagentExecution :=
  fields ← struct_fields ["mode"; "depth"; "max_depth"; "active_children"; "max_active_children";
                          "timeout_seconds"; "allow_shell_in_child"; "child_tool_allowlist";
                          "runtime_narrowing"; "kernel_bound"] v;
  match fields with
  | [mode; depth; max_depth; active; max_active; timeout; shell; allowlist; narrowing; bound] =>
      mode ← required_field (decode_variant [("inline", Mode_Inline); ("async", Mode_Async)]) mode;
      depth ← required_field json_as_u64 depth;
      max_depth ← required_field json_as_u64 max_depth;
      active ← required_field json_as_u64 active;
      max_active ← required_field json_as_u64 max_active;
      timeout ← required_field json_as_u64 timeout;
      shell ← required_field json_as_bool shell;
      allowlist ← required_field decode_strings allowlist;
      narrowing ← field_or ToolRuntimeNarrowing_default narrowing_from_value narrowing;
      bound ← required_field json_as_bool bound;
      Some (mkConstrainedSubagentExecution mode depth max_depth active max_active timeout shell allowlist
              narrowing bound)
  | _ => None
  end.

Definition spawn_payload (self : ConstrainedSubagentExecution) (task : string) (label : option string) : Value :=
  json_object ([("task", json_str task)] ++ field_if "label" json_str label
               ++ [("execution", execution_to_value self)]).

Definition terminal_payload (self : ConstrainedSubagentExecution) (reason : ConstrainedSubagentTerminalReason)
    (duration_ms : Z) (turn_count : option Z) (error : option string) : Value :=
  json_object ([("terminal_reason", json_str (reason_str reason)); ("execution", execution_to_value self);
                ("duration_ms", json_uint duration_ms)]
               ++ field_if "turn_count" json_uint turn_count ++ field_if "error" json_str error).

Definition from_event_payload (payload : Value) : option ConstrainedSubagentExecution :=
  json_get "execution" payload ≫= execution_from_value.

(** ** The delegate tools *)
Record DelegateRequest := mkDelegateRequest {
  dr_task : string;
  dr_label : option string;
  dr_timeout_seconds : Z }.

Definition payload_text (payload : Value) (field : string) : option string :=
  json_get_str field payload ≫= λ raw, let value := trim raw in if is_empty value then None else Some value.

Definition parse_delegate_request_with_default_timeout (payload : Value) (default_timeout_seconds : Z) :
    result string DelegateRequest :=
  task ← ok_or (payload_text payload "task") "delegate tool requires payload.task";
  Ok (mkDelegateRequest task (payload_text payload "label")
        (default default_timeout_seconds (json_get_u64 "timeout_seconds" payload))).

(** [format!("{n:x}")] of a [u64] *)
Definition hex (n : Z) : string :=
  let digits := trim_start_matches "0" (hex016 n) in if is_empty digits then "0" else digits.

Definition delegate_session_id (now_ms counter : Z) : string := "delegate:" +:+ hex now_ms +:+ hex counter.

Definition delegate_success_outcome (child_session_id : string) (label : option string)
    (final_output : string) (turn_count duration_ms : Z) : ToolCoreOutcome :=
  mkToolCoreOutcome "ok"
    (json_object [("child_session_id", json_str child_session_id); ("label", json_opt json_str label);
                  ("final_output", json_str final_output); ("turn_count", json_uint turn_count);
                  ("duration_ms", json_uint duration_ms)]).
Definition delegate_async_queued_outcome (child_session_id : string) (label : option string)
    (timeout_seconds : Z) : ToolCoreOutcome :=
  mkToolCoreOutcome "ok"
    (json_object [("child_session_id", json_str child_session_id); ("label", json_opt json_str label);
                  ("mode", json_str "async"); ("state", json_str "queued");
                  ("timeout_seconds", json_uint timeout_seconds)]).
Definition delegate_timeout_outcome (child_session_id : string) (label : option string) (duration_ms : Z) :
    ToolCoreOutcome :=
  mkToolCoreOutcome "timeout"
    (json_object [("child_session_id", json_str child_session_id); ("label", json_opt json_str label);
                  ("duration_ms", json_uint duration_ms); ("error", json_str "delegate_timeout")]).
Definition delegate_error_outcome (child_session_id : string) (label : option string) (error : string)
    (duration_ms : Z) : ToolCoreOutcome :=
  mkToolCoreOutcome "error"
    (json_object [("child_session_id", json_str child_session_id); ("label", json_opt json_str label);
                  ("duration_ms", json_uint duration_ms); ("error", json_str error)]).

(** ** Cancellation *)
Definition DELEGATE_CANCEL_REQUESTED_EVENT_KIND : string := "delegate_cancel_requested".
Definition DELEGATE_CANCELLED_EVENT_KIND : string := "delegate_cancelled".
Definition DELEGATE_CANCEL_REASON_OPERATOR_REQUESTED : string := "operator_requested".
Definition DELEGATE_CANCELLED_ERROR_PREFIX : string := "delegate_cancelled:".

(** [s.trim_matches(':')] *)
Definition trim_colons (s : string) : string :=
  String.rev (trim_start_matches ":" (String.rev (trim_start_matches ":" s))).
Definition delegate_cancelled_error (reason : string) : string :=
  DELEGATE_CANCELLED_ERROR_PREFIX +:+ " " +:+ trim_colons (trim reason).
Definition parse_delegate_cancelled_reason (error : string) : option string :=
  if starts_with DELEGATE_CANCELLED_ERROR_PREFIX error then
    let value := trim (str_drop (String.length DELEGATE_CANCELLED_ERROR_PREFIX) error) in
    if is_empty value then None else Some value
  else None.

(** ** Recovery *)
Definition RECOVERY_EVENT_KIND : string := "delegate_recovery_applied".
Definition RECOVERY_KIND_UNKNOWN : string := "unknown".
Definition RECOVERY_KIND_TERMINAL_FINALIZE_PERSIST_FAILED : string := "terminal_finalize_persist_failed".
Definition RECOVERY_KIND_ASYNC_SPAWN_FAILURE_PERSIST_FAILED : string := "async_spawn_failure_persist_failed".
Definition RECOVERY_KIND_QUEUED_ASYNC_OVERDUE_MARKED_FAILED : string := "queued_async_overdue_marked_failed".
Definition RECOVERY_KIND_RUNNING_ASYNC_OVERDUE_MARKED_FAILED : string := "running_async_overdue_marked_failed".
Definition TERMINAL_FINALIZE_LAST_ERROR_PREFIX : string := "delegate_terminal_finalize_failed:".
Definition ASYNC_SPAWN_PERSIST_LAST_ERROR_PREFIX : string := "delegate_async_spawn_failure_persist_failed:".
Definition QUEUED_ASYNC_OVERDUE_LAST_ERROR_PREFIX : string := "delegate_async_queued_overdue_marked_failed:".
Definition RUNNING_ASYNC_OVERDUE_LAST_ERROR_PREFIX : string := "delegate_async_running_overdue_marked_failed:".

Record SessionRecoveryRecord := mkSessionRecoveryRecord {
  sv_source : string;
  sv_kind : string;
  sv_event_kind : string;
  sv_recovered_state : option string;
  sv_recovery_error : option string;
  sv_original_error : option string;
  sv_attempted_terminal_event_kind : option string;
  sv_attempted_outcome_status : option string;
  sv_ts : Z }.

Definition build_terminal_finalize_recovery_payload (request : FinalizeSessionTerminalRequest)
    (recovery_error : string) : Value :=
  json_object
    [("recovery_kind", json_str RECOVERY_KIND_TERMINAL_FINALIZE_PERSIST_FAILED);
     ("recovered_state", json_str "failed"); ("recovery_error", json_str recovery_error);
     ("attempted_terminal_event_kind", json_str (fr_event_kind request));
     ("attempted_outcome_status", json_str (fr_outcome_status request));
     ("attempted_last_error", json_opt json_str (fr_last_error request))].

Definition build_async_spawn_failure_recovery_payload (label : option string)
    (original_error recovery_error : string) : Value :=
  json_object
    [("recovery_kind", json_str RECOVERY_KIND_ASYNC_SPAWN_FAILURE_PERSIST_FAILED);
     ("recovered_state", json_str "failed"); ("recovery_error", json_str recovery_error);
     ("original_error", json_str original_error); ("label", json_opt json_str label)].

Definition build_queued_async_overdue_recovery_payload (label : option string)
    (queued_at elapsed_seconds timeout_seconds deadline_at : Z) (recovery_error : string) : Value :=
  json_object
    [("recovery_kind", json_str RECOVERY_KIND_QUEUED_ASYNC_OVERDUE_MARKED_FAILED);
     ("recovered_state", json_str "failed"); ("recovery_error", json_str recovery_error);
     ("label", json_opt json_str label); ("queued_at", json_int queued_at);
     ("elapsed_seconds", json_uint elapsed_seconds); ("timeout_seconds", json_uint timeout_seconds);
     ("deadline_at", json_int deadline_at); ("reference", json_str "queued")].

Definition build_running_async_overdue_recovery_payload (label : option string)
    (queued_at started_at : option Z) (reference : string)
    (elapsed_seconds timeout_seconds deadline_at : Z) (recovery_error : string) : Value :=
  json_object
    [("recovery_kind", json_str RECOVERY_KIND_RUNNING_ASYNC_OVERDUE_MARKED_FAILED);
     ("recovered_state", json_str "failed"); ("recovery_error", json_str recovery_error);
     ("label", json_opt json_str label); ("queued_at", json_opt json_int queued_at);
     ("started_at", json_opt json_int started_at); ("elapsed_seconds", json_uint elapsed_seconds);
     ("timeout_seconds", json_uint timeout_seconds); ("deadline_at", json_int deadline_at);
     ("reference", json_str reference)].

Definition recovery_kind_from_last_error (last_error : option string) : string :=
  match last_error with
  | Some last_error =>
      if starts_with TERMINAL_FINALIZE_LAST_ERROR_PREFIX last_error
      then RECOVERY_KIND_TERMINAL_FINALIZE_PERSIST_FAILED
      else if starts_with ASYNC_SPAWN_PERSIST_LAST_ERROR_PREFIX last_error
      then RECOVERY_KIND_ASYNC_SPAWN_FAILURE_PERSIST_FAILED
      else if starts_with QUEUED_ASYNC_OVERDUE_LAST_ERROR_PREFIX last_error
      then RECOVERY_KIND_QUEUED_ASYNC_OVERDUE_MARKED_FAILED
      else if starts_with RUNNING_ASYNC_OVERDUE_LAST_ERROR_PREFIX last_error
      then RECOVERY_KIND_RUNNING_ASYNC_OVERDUE_MARKED_FAILED
      else RECOVERY_KIND_UNKNOWN
  | None => RECOVERY_KIND_UNKNOWN
  end.

Definition synthesize_recovery_from_last_error (last_error : option string) : SessionRecoveryRecord :=
  let recovery_error := normalize_optional_text last_error in
  mkSessionRecoveryRecord (match recovery_error with Some _ => "last_error" | None => "none" end)
    (recovery_kind_from_last_error recovery_error) "" None recovery_error None None None 0.

Definition parse_recovery_event (event : SessionEventRecord) : option SessionRecoveryRecord :=
  if negb (bool_decide (se_event_kind event = RECOVERY_EVENT_KIND)) then None
  else
    let payload := se_payload_json event in
    payload_text payload "recovery_kind" ≫= λ kind,
    Some (mkSessionRecoveryRecord "event" kind (se_event_kind event)
            (json_get_str "recovered_state" payload) (json_get_str "recovery_error" payload)
            (json_get_str "original_error" payload) (json_get_str "attempted_terminal_event_kind" payload)
            (json_get_str "attempted_outcome_status" payload) (se_ts event)).

Definition observe_missing_recovery (recent_events : list SessionEventRecord) (last_error : option string) :
    SessionRecoveryRecord :=
  match head (omap parse_recovery_event (reverse recent_events)) with
  | Some recovery => recovery
  | None => synthesize_recovery_from_last_error last_error
  end.

Definition recovery_json (recovery : SessionRecoveryRecord) : Value :=
  json_object
    [("source", json_str (sv_source recovery)); ("kind", json_str (sv_kind recovery));
     ("event_kind",
       if is_empty (sv_event_kind recovery) then JNull else json_str (sv_event_kind recovery));
     ("recovered_state", json_opt json_str (sv_recovered_state recovery));
     ("recovery_error", json_opt json_str (sv_recovery_error recovery));
     ("original_error", json_opt json_str (sv_original_error recovery));
     ("attempted_terminal_event_kind", json_opt json_str (sv_attempted_terminal_event_kind recovery));
     ("attempted_outcome_status", json_opt json_str (sv_attempted_outcome_status recovery));
     ("ts", if (sv_ts recovery =? 0)%Z then JNull else json_int (sv_ts recovery))].

(** ** Lemmas: fields of an object under construction *)
Lemma reverse_field_if {A} name (enc : A → Value) o : reverse (field_if name enc o) = field_if name enc o.
Proof. by destruct o. Qed.
Lemma reverse_set_field_if name s : reverse (set_field_if name s) = set_field_if name s.
Proof. unfold set_field_if. by case_bool_decide. Qed.

Lemma obj_get_field_if {A} key name (enc : A → Value) o :
  obj_get key (field_if name enc o) = if bool_decide (name = key) then enc <$> o else None.
Proof. destruct o; cbn [field_if]; [by rewrite obj_get_cons|]. by case_bool_decide. Qed.
Lemma obj_get_set_field_if key name s :
  obj_get key (set_field_if name s) =
    if bool_decide (name = key) then if bool_decide (s = ∅) then None else Some (json_strs (btree_elements s))
    else None.
Proof.
  unfold set_field_if. case_bool_decide; [by case_bool_decide|]. by rewrite obj_get_cons.
Qed.

(** Reads the fields of a built object; what is left are the optional values. *)
Ltac read_fields :=
  unfold json_object; cbn [struct_fields fmap list_fmap]; rewrite ?obj_get_built, ?reverse_app,
    ?reverse_field_if, ?reverse_set_field_if; cbn [reverse rev_append];
  rewrite ?obj_get_app, ?obj_get_cons, ?obj_get_field_if, ?obj_get_set_field_if, ?obj_get_cons;
  repeat match goal with
  | |- context [bool_decide (@eq string ?x ?y)] =>
      let b := eval vm_compute in (bool_decide (x = y)) in
      lazymatch b with true => idtac | false => idtac end;
      change (bool_decide (x = y)) with b
  end.

(** ** Lemmas: the contract survives storage *)
Lemma mapM_json_as_str l : mapM json_as_str (JString <$> l) = Some l.
Proof. induction l as [|s l IH]; [done|]. cbn. by rewrite IH. Qed.

Lemma decode_strings_json l : decode_strings (json_strs l) = Some l.
Proof. apply mapM_json_as_str. Qed.

Lemma decode_string_set_json s : decode_string_set (json_strs (btree_elements s)) = Some s.
Proof.
  unfold decode_string_set. rewrite decode_strings_json. cbn. f_equal. apply set_eq. intros x.
  by rewrite elem_of_list_to_set, elem_of_btree_elements.
Qed.

(** Decoding an encoded optional field, present or not *)
Lemma field_or_u64 (o : option Z) : field_or None (decode_option json_as_u64) (json_uint <$> o) = Some o.
Proof. by destruct o. Qed.
Lemma field_or_bool (o : option bool) : field_or None (decode_option json_as_bool) (json_bool <$> o) = Some o.
Proof. by destruct o. Qed.
Lemma field_or_set (s : gset string) :
  field_or ∅ decode_string_set (if bool_decide (s = ∅) then None else Some (json_strs (btree_elements s))) = Some s.
Proof. case_bool_decide; cbn; [by subst|apply decode_string_set_json]. Qed.

Lemma or_None {A} (o : option A) : match o with Some v => Some v | None => None end = o.
Proof. by destruct o. Qed.

Lemma browser_narrowing_roundtrip n : browser_narrowing_from_value (browser_narrowing_to_value n) = Some n.
Proof.
  destruct n as [a b c]. unfold browser_narrowing_from_value, browser_narrowing_to_value. cbn [bn_max_sessions
    bn_max_links bn_max_text_chars]. read_fields. cbn [mbind option_bind]. rewrite ?or_None.
  rewrite field_or_u64. cbn [mbind option_bind]. rewrite field_or_u64. cbn [mbind option_bind].
  by rewrite field_or_u64.
Qed.

Lemma web_narrowing_roundtrip n : web_narrowing_from_value (web_narrowing_to_value n) = Some n.
Proof.
  destruct n as [p a b t m r]. unfold web_narrowing_from_value, web_narrowing_to_value. cbn [wn_allow_private_hosts
    wn_allowed_domains wn_blocked_domains wn_timeout_seconds wn_max_bytes wn_max_redirects]. read_fields.
  cbn [mbind option_bind]. rewrite ?or_None. rewrite field_or_bool. cbn [mbind option_bind].
  do 2 (rewrite field_or_set; cbn [mbind option_bind]). do 3 (rewrite field_or_u64; cbn [mbind option_bind]).
  done.
Qed.

Lemma narrowing_roundtrip n : narrowing_from_value (narrowing_to_value n) = Some n.
Proof.
  destruct n as [b w]. unfold narrowing_from_value, narrowing_to_value. read_fields.
  cbn [mbind option_bind field_or tn_browser tn_web_fetch]. rewrite browser_narrowing_roundtrip.
  cbn [mbind option_bind]. by rewrite web_narrowing_roundtrip.
Qed.

Lemma ToolRuntimeNarrowing_is_empty_default n :
  ToolRuntimeNarrowing_is_empty n = true → n = ToolRuntimeNarrowing_default.
Proof.
  destruct n as [[] []].
  unfold ToolRuntimeNarrowing_is_empty, BrowserRuntimeNarrowing_is_empty, WebFetchRuntimeNarrowing_is_empty.
  cbn. rewrite !andb_true_iff, !bool_decide_eq_true. by intros ([[-> ->] ->] & [[[[[-> ->] ->] ->] ->] ->]).
Qed.

Lemma execution_roundtrip x : execution_from_value (execution_to_value x) = Some x.
Proof.
  destruct x as [mode depth max_depth active max_active timeout shell allowlist narrowing bound].
  unfold execution_from_value, execution_to_value. cbn [cx_mode cx_depth cx_max_depth cx_active_children
    cx_max_active_children cx_timeout_seconds cx_allow_shell_in_child cx_child_tool_allowlist
    cx_runtime_narrowing cx_kernel_bound].
  destruct (ToolRuntimeNarrowing_is_empty narrowing) eqn:E.
  - apply ToolRuntimeNarrowing_is_empty_default in E as ->.
    destruct mode; cbv -[decode_strings json_strs]; by rewrite decode_strings_json.
  - destruct mode; cbv -[decode_strings json_strs narrowing_to_value narrowing_from_value];
      rewrite decode_strings_json; cbv -[narrowing_to_value narrowing_from_value];
      by rewrite narrowing_roundtrip.
Qed.

(** The execution contract that a delegated child is created under, with
    the runtime limits it is narrowed to, is read back unchanged from the event
    recorded when the child is spawned. *)
Theorem spawn_payload_keeps_the_contract execution task label :
  from_event_payload (spawn_payload execution task label) = Some execution.
Proof.
  unfold from_event_payload, spawn_payload, json_object.
  change (obj_get "execution" (obj_extend ([("task", json_str task)] ++ field_if "label" json_str label
            ++ [("execution", execution_to_value execution)]) []) ≫= execution_from_value = Some execution).
  read_fields. apply execution_roundtrip.
Qed.
