(* ===== verification/Delegation.v ===== *)
(** * Delegation: child sessions
    (app/src/conversation/turn_coordinator.rs, app/src/conversation/runtime.rs)

    The context and tools of a session, from its place in the lineage; the
    [delegate] and [delegate_async] tools, which create a child within the
    limits, run it, and record how it ended, with the recovery that follows when
    that cannot be recorded. The child's turn, the hooks of the runtime and the
    executor of background tasks are parameters. *)
From S2P Require Import Prelude RustStr Contracts Json ToolRuntimeConfig ToolCatalog ToolNames ToolConfig.
From S2P Require Import TurnEngine SessionDb SessionRepo Approvals Subagent.

(** [effective_tool_config_for_session] *)
Definition with_visibility (visibility : SessionVisibility) (c : ToolConfig) : ToolConfig :=
  mkToolConfig (tc_file_root c) (tc_shell_allow c) (tc_shell_deny c) (tc_shell_default_mode c) (tc_approval c)
    (mkSessionToolConfig (st_enabled (tc_sessions c)) visibility (st_list_limit (tc_sessions c))
       (st_history_limit (tc_sessions c)))
    (tc_messages c) (tc_delegate c) (tc_browser c) (tc_browser_companion c) (tc_web c) (tc_web_search c).

Definition effective_tool_config_for_session (tool_config : ToolConfig) (session_context : SessionContext) :
    ToolConfig :=
  match sc_parent_session_id session_context with
  | Some _ => with_visibility Visibility_SelfOnly tool_config
  | None => tool_config
  end.

(** How a child's turn ends: [timeout(.., catch_unwind(handle_turn))] *)
Inductive ChildResult :=
| Child_Ok (final_output : string)
| Child_Err (error : string)
| Child_Panic (message : option string)
| Child_TimedOut.

Record AsyncDelegateSpawnRequest := mkAsyncDelegateSpawnRequest {
  sp_child_session_id : string;
  sp_parent_session_id : string;
  sp_task : string;
  sp_label : option string;
  sp_execution : ConstrainedSubagentExecution;
  sp_timeout_seconds : Z;
  sp_kernel_bound : bool }.

Section delegation.
Context {W : Type} (env : DbEnv W) (json : JsonText) (fuel : nat).
Abbreviation DB := (ST (Db * W) string).

(** ** The context of a session (runtime.rs) *)

(** [events.into_iter().rev().find_map(..)] *)
Definition last_contract (events : list SessionEventRecord) : option ConstrainedSubagentExecution :=
  head (omap (λ event,
                if bool_decide (se_event_kind event ∈ ["delegate_queued"; "delegate_started"])
                then from_event_payload (se_payload_json event) else None) (reverse events)).

Definition load_delegate_runtime_narrowing (session_id : string) : DB (option ToolRuntimeNarrowing) :=
  list_delegate_lifecycle_events env json session_id ≫= λ events,
  mret (last_contract events ≫= λ execution,
        if ToolRuntimeNarrowing_is_empty (cx_runtime_narrowing execution) then None
        else Some (cx_runtime_narrowing execution)).

(** [if let Ok(repo) = SessionRepository::new(..) { body } else { otherwise }] *)
Definition if_repository {A} (body otherwise : DB A) : DB A :=
  st_match (SessionRepository_new env) (λ _, body) (λ _, otherwise).

(** The tools of a root session follow from the configuration:
    [runtime_tool_view_from_loongclaw_config] *)
Context (tools : ToolConfig) (root_tool_view : ToolView).

Definition lineage_error (error : string) : bool :=
  starts_with "session_lineage_broken:" error || starts_with "session_lineage_cycle_detected:" error.

(** [DefaultConversationRuntime::tool_view] *)
Definition tool_view (session_id : string) : DB ToolView :=
  if_repository
    (st_map_err (λ error, "load session tool-view context failed: " +:+ error) (load_session env session_id)
     ≫= λ session,
     match session with
     | Some session =>
         match sn_parent_session_id session with
         | Some _ =>
             st_match (ended (session_lineage_depth env fuel session_id))
               (λ depth, mret (delegate_child_tool_view_for_config_with_delegate tools
                                 (bool_decide (depth < dt_max_depth (tc_delegate tools)))))
               (λ error,
                  if lineage_error error
                  then mret (delegate_child_tool_view_for_config_with_delegate tools false)
                  else throw ("compute session lineage depth for tool view failed: " +:+ error))
         | None => mret root_tool_view
         end
     | None =>
         st_map_err (λ error, "load legacy session tool-view context failed: " +:+ error)
           (load_session_summary_with_legacy_fallback env session_id) ≫= λ summary,
         match summary with
         | Some summary =>
             if bool_decide (ss_kind summary = Kind_DelegateChild)
             then mret (delegate_child_tool_view_for_config tools) else mret root_tool_view
         | None => mret root_tool_view
         end
     end)
    (mret root_tool_view).

(** [SessionContext::child(..).with_runtime_narrowing(narrowing.unwrap_or_default())] *)
Definition child_context (session_id parent_session_id : string) (view : ToolView)
    (narrowing : option ToolRuntimeNarrowing) : SessionContext :=
  with_runtime_narrowing (default ToolRuntimeNarrowing_default narrowing)
    (SessionContext_child session_id parent_session_id view).

(** [DefaultConversationRuntime::session_context] *)
Definition session_context (session_id : string) : DB SessionContext :=
  tool_view session_id ≫= λ view,
  if_repository
    (st_map_err (λ error, "load session context failed: " +:+ error) (load_session env session_id) ≫= λ session,
     match session with
     | Some session =>
         match sn_parent_session_id session with
         | Some parent_session_id =>
             load_delegate_runtime_narrowing session_id ≫= λ narrowing,
             mret (child_context (sn_session_id session) parent_session_id view narrowing)
         | None => mret (root_with_tool_view session_id view)
         end
     | None =>
         st_map_err (λ error, "load legacy session context failed: " +:+ error)
           (load_session_summary_with_legacy_fallback env session_id) ≫= λ summary,
         match summary ≫= λ summary, pair summary <$> ss_parent_session_id summary with
         | Some (summary, parent_session_id) =>
             load_delegate_runtime_narrowing session_id ≫= λ narrowing,
             mret (child_context (ss_session_id summary) parent_session_id view narrowing)
         | None => mret (root_with_tool_view session_id view)
         end
     end)
    (mret (root_with_tool_view session_id view)).

(** ** Ending a child (turn_coordinator.rs) *)
Definition finalize_terminal_if_current_allowing_stale_state (session_id : string)
    (expected_state : SessionState) (request : FinalizeSessionTerminalRequest) : DB unit :=
  finalize_session_terminal_if_current env json session_id expected_state request ≫= λ finalized,
  match finalized with
  | Some _ => mret ()
  | None =>
      load_session env session_id ≫= λ session,
      match session with
      | Some _ => mret ()
      | None => throw ("session `" +:+ session_id +:+ "` not found")
      end
  end.

(** [.map(|session| session.state.as_str().to_owned()).unwrap_or_else(|| "missing")] *)
Definition current_state_text (session : option SessionRecord) : string :=
  match session with Some session => SessionState_as_str (sn_state session) | None => "missing" end.

Definition delegate_terminal_recovery_skipped_error (child_session_id recovery_error : string) : DB unit :=
  load_session env child_session_id ≫= λ session,
  throw (recovery_error +:+ "; delegate_terminal_recovery_skipped_from_state: " +:+ current_state_text session).

Definition finalize_delegate_child_terminal_with_recovery (child_session_id : string)
    (request : FinalizeSessionTerminalRequest) : DB unit :=
  st_match (finalize_terminal_if_current_allowing_stale_state child_session_id State_Running request) mret
    (λ finalize_error,
       let recovery_error := "delegate_terminal_finalize_failed: " +:+ finalize_error in
       st_match
         (transition_session_with_event_if_current env json child_session_id
            (mkTransitionSessionWithEvent State_Running State_Failed (Some recovery_error) RECOVERY_EVENT_KIND
               (fr_actor_session_id request)
               (build_terminal_finalize_recovery_payload request recovery_error)))
         (λ transitioned,
            match transitioned with
            | Some _ => throw recovery_error
            | None => delegate_terminal_recovery_skipped_error child_session_id recovery_error
            end)
         (λ recovery_event_error,
            st_match
              (update_session_state_if_current env child_session_id State_Running State_Failed
                 (Some recovery_error))
              (λ updated,
                 match updated with
                 | Some _ =>
                     throw (recovery_error +:+ "; delegate_terminal_recovery_event_failed: "
                            +:+ recovery_event_error)
                 | None => delegate_terminal_recovery_skipped_error child_session_id recovery_error
                 end)
              (λ mark_error,
                 throw (recovery_error +:+ "; delegate_terminal_recovery_failed: " +:+ mark_error)))).

(** [panic_payload] as a [String], a [&str], or something else *)
Definition format_panic (prefix : string) (message : option string) : string :=
  match message with Some message => prefix +:+ ": " +:+ message | None => prefix end.

(** [timeout(.., handle_turn)] for a child: how it ended and how long it took *)
Context (handle_child_turn : string → string → Z → Db * W → (ChildResult * Z) * (Db * W)).

Definition act_child (child_session_id user_input : string) (timeout_seconds : Z) : DB (ChildResult * Z) :=
  act (handle_child_turn child_session_id user_input timeout_seconds).

Definition terminal_request (state : SessionState) (last_error : option string) (event_kind : string)
    (parent_session_id : string) (event_payload : Value) (outcome : ToolCoreOutcome) :
    FinalizeSessionTerminalRequest :=
  mkFinalizeSessionTerminalRequest state last_error event_kind (Some parent_session_id) event_payload
    (tco_status outcome) (tco_payload outcome).

Definition run_started_delegate_child_turn_with_runtime (child_session_id parent_session_id : string)
    (child_label : option string) (user_input : string) (execution : ConstrainedSubagentExecution)
    (timeout_seconds : Z) : DB ToolCoreOutcome :=
  SessionRepository_new env ≫= λ _,
  act_child child_session_id user_input timeout_seconds ≫= λ '(child_result, duration_ms),
  match child_result with
  | Child_Ok final_output =>
      load_session_summary env child_session_id ≫= λ summary,
      let turn_count := default 0%Z (ss_turn_count <$> summary) in
      let outcome := delegate_success_outcome child_session_id child_label final_output turn_count duration_ms in
      finalize_delegate_child_terminal_with_recovery child_session_id
        (terminal_request State_Completed None "delegate_completed" parent_session_id
           (terminal_payload execution Reason_Completed duration_ms (Some turn_count) None) outcome) ≫= λ _,
      mret outcome
  | Child_Err error =>
      let outcome := delegate_error_outcome child_session_id child_label error duration_ms in
      finalize_delegate_child_terminal_with_recovery child_session_id
        (terminal_request State_Failed (Some error) "delegate_failed" parent_session_id
           (terminal_payload execution Reason_Failed duration_ms None (Some error)) outcome) ≫= λ _,
      mret outcome
  | Child_Panic message =>
      let panic_error := format_panic "delegate_child_panic" message in
      let outcome := delegate_error_outcome child_session_id child_label panic_error duration_ms in
      finalize_delegate_child_terminal_with_recovery child_session_id
        (terminal_request State_Failed (Some panic_error) "delegate_failed" parent_session_id
           (terminal_payload execution Reason_Failed duration_ms None (Some panic_error)) outcome) ≫= λ _,
      mret outcome
  | Child_TimedOut =>
      let outcome := delegate_timeout_outcome child_session_id child_label duration_ms in
      finalize_delegate_child_terminal_with_recovery child_session_id
        (terminal_request State_TimedOut (Some "delegate_timeout") "delegate_timed_out" parent_session_id
           (terminal_payload execution Reason_TimedOut duration_ms None (Some "delegate_timeout")) outcome)
      ≫= λ _, mret outcome
  end.

(** ** Creating a child *)

(** The runtime's hooks around a child, called when there is a kernel *)
Context (prepare_subagent_spawn on_subagent_ended : string → string → DB unit).

Definition if_kernel_bound (kernel_bound : bool) (hook : DB unit) : DB unit :=
  if kernel_bound then hook else mret ().

(** The work, then the hook that ends it in any case *)
Definition finally {T} (work : DB T) (notify : DB unit) : DB T := λ s,
  let '(work_result, s) := work s in
  let '(notify_result, s) := notify s in
  (match work_result, notify_result with
   | Ok value, Ok _ => Ok value
   | Err work_error, Ok _ => Err work_error
   | Ok _, Err notify_error => Err ("delegate_subagent_end_hook_failed: " +:+ notify_error)
   | Err work_error, Err notify_error =>
       Err (work_error +:+ "; delegate_subagent_end_hook_failed: " +:+ notify_error)
   end, s).

Definition with_prepared_subagent_spawn_cleanup_if_kernel_bound {T} (parent_session_id child_session_id : string)
    (kernel_bound : bool) (work : DB T) : DB T :=
  if_kernel_bound kernel_bound (prepare_subagent_spawn parent_session_id child_session_id) ≫= λ _,
  finally work (if_kernel_bound kernel_bound (on_subagent_ended parent_session_id child_session_id)).

Definition next_delegate_child_depth_for_delegate (context : SessionContext) : DB nat :=
  ended (session_lineage_depth env fuel (sc_session_id context)) ≫= λ current_depth,
  let next_child_depth := current_depth + 1 in
  if bool_decide (dt_max_depth (tc_delegate tools) < next_child_depth) then
    throw ("delegate_depth_exceeded: next child depth " +:+ pretty next_child_depth
           +:+ " exceeds configured max_depth " +:+ pretty (dt_max_depth (tc_delegate tools)))
  else mret next_child_depth.

Definition constrained_subagent_execution_for_delegate (kernel_bound : bool) (mode : ConstrainedSubagentMode)
    (timeout_seconds : Z) (next_child_depth active_children : nat) : ConstrainedSubagentExecution :=
  let delegate := tc_delegate tools in
  mkConstrainedSubagentExecution mode (Z.of_nat next_child_depth) (Z.of_nat (dt_max_depth delegate))
    (Z.of_nat active_children) (Z.of_nat (dt_max_active_children delegate)) timeout_seconds
    (dt_allow_shell_in_child delegate) (dt_child_tool_allowlist delegate)
    (runtime_narrowing (dt_child_runtime delegate)) kernel_bound.

(** The request that the creating transaction builds, given the number of
    active children *)
Definition child_request (kernel_bound : bool) (mode : ConstrainedSubagentMode) (state : SessionState)
    (event_kind : string) (request : DelegateRequest) (parent_session_id child_session_id : string)
    (next_child_depth active_children : nat) :
    result string (CreateSessionWithEventRequest * ConstrainedSubagentExecution) :=
  let execution :=
    constrained_subagent_execution_for_delegate kernel_bound mode (dr_timeout_seconds request) next_child_depth
      active_children in
  Ok (mkCreateSessionWithEventRequest
        (mkNewSessionRecord child_session_id Kind_DelegateChild (Some parent_session_id) (dr_label request) state)
        event_kind (Some parent_session_id) (spawn_payload execution (dr_task request) (dr_label request)),
      execution).

(** The milliseconds and the process-wide counter that name a new child *)
Context (next_id : W → (Z * Z) * W).
Definition next_delegate_session_id : DB string := λ '(db, w),
  let '((now_ms, counter), w) := next_id w in (Ok (delegate_session_id now_ms counter), (db, w)).

Definition delegate_disabled : string := "app_tool_disabled: delegate is disabled by config".

Definition execute_delegate_tool (kernel_bound : bool) (context : SessionContext) (payload : Value) :
    DB ToolCoreOutcome :=
  if negb (dt_enabled (tc_delegate tools)) then throw delegate_disabled
  else
    lift (parse_delegate_request_with_default_timeout payload (dt_timeout_seconds (tc_delegate tools)))
    ≫= λ request,
    next_delegate_session_id ≫= λ child_session_id,
    SessionRepository_new env ≫= λ _,
    next_delegate_child_depth_for_delegate context ≫= λ next_child_depth,
    with_prepared_subagent_spawn_cleanup_if_kernel_bound (sc_session_id context) child_session_id kernel_bound
      (create_delegate_child_session_with_event_if_within_limit env json (sc_session_id context)
         (dt_max_active_children (tc_delegate tools))
         (child_request kernel_bound Mode_Inline State_Running "delegate_started" request
            (sc_session_id context) child_session_id next_child_depth) ≫= λ '(_, execution),
       run_started_delegate_child_turn_with_runtime child_session_id (sc_session_id context) (dr_label request)
         (dr_task request) execution (dr_timeout_seconds request)).

(** ** Background children *)

(** [runtime_handle.spawn(..)]: hands the task to the executor *)
Context (spawn_detached : AsyncDelegateSpawnRequest → DB unit).

Definition execute_delegate_async_tool (executor : option string) (has_spawner kernel_bound : bool)
    (context : SessionContext) (payload : Value) : DB ToolCoreOutcome :=
  if negb (dt_enabled (tc_delegate tools)) then throw delegate_disabled
  else
    match executor with
    | Some error => throw ("delegate_async_runtime_unavailable: " +:+ error)
    | None =>
        if negb has_spawner then throw "delegate_async_not_configured"
        else
          lift (parse_delegate_request_with_default_timeout payload (dt_timeout_seconds (tc_delegate tools)))
          ≫= λ request,
          next_delegate_session_id ≫= λ child_session_id,
          SessionRepository_new env ≫= λ _,
          next_delegate_child_depth_for_delegate context ≫= λ next_child_depth,
          create_delegate_child_session_with_event_if_within_limit env json (sc_session_id context)
            (dt_max_active_children (tc_delegate tools))
            (child_request kernel_bound Mode_Async State_Ready "delegate_queued" request
               (sc_session_id context) child_session_id next_child_depth) ≫= λ '(_, execution),
          spawn_detached
            (mkAsyncDelegateSpawnRequest child_session_id (sc_session_id context) (dr_task request)
               (dr_label request) execution (dr_timeout_seconds request) kernel_bound) ≫= λ _,
          mret (delegate_async_queued_outcome child_session_id (dr_label request) (dr_timeout_seconds request))
    end.

(** [DefaultAsyncDelegateSpawner::spawn]; [new_runtime] is
    [DefaultConversationRuntime::from_config_or_env] *)
Definition spawn_async_child (new_runtime : DB unit) (request : AsyncDelegateSpawnRequest) : DB unit :=
  let execution_timeout_seconds := cx_timeout_seconds (sp_execution request) in
  if negb (sp_timeout_seconds request =? execution_timeout_seconds)%Z then
    throw ("async_delegate_timeout_mismatch: request timeout " +:+ pretty (sp_timeout_seconds request)
           +:+ " != execution timeout " +:+ pretty execution_timeout_seconds)
  else
    SessionRepository_new env ≫= λ _,
    new_runtime ≫= λ _,
    with_prepared_subagent_spawn_cleanup_if_kernel_bound (sp_parent_session_id request)
      (sp_child_session_id request) (sp_kernel_bound request)
      (transition_session_with_event_if_current env json (sp_child_session_id request)
         (mkTransitionSessionWithEvent State_Ready State_Running None "delegate_started"
            (Some (sp_parent_session_id request))
            (spawn_payload (sp_execution request) (sp_task request) (sp_label request))) ≫= λ started,
       match started with
       | None =>
           throw ("async_delegate_spawn_skipped: session `" +:+ sp_child_session_id request
                  +:+ "` was not in Ready state")
       | Some _ =>
           st_match
             (run_started_delegate_child_turn_with_runtime (sp_child_session_id request)
                (sp_parent_session_id request) (sp_label request) (sp_task request) (sp_execution request)
                execution_timeout_seconds)
             (λ _, mret ()) (λ _, mret ())
       end).

Definition finalize_async_delegate_spawn_failure (child_session_id parent_session_id : string)
    (label : option string) (execution : ConstrainedSubagentExecution) (error : string) : DB unit :=
  SessionRepository_new env ≫= λ _,
  let outcome := delegate_error_outcome child_session_id label error 0 in
  finalize_terminal_if_current_allowing_stale_state child_session_id State_Ready
    (terminal_request State_Failed (Some error) "delegate_spawn_failed" parent_session_id
       (terminal_payload execution Reason_SpawnFailed 0 None (Some error)) outcome).

Definition spawn_recovery_skipped (child_session_id recovery_error : string) : DB unit :=
  load_session env child_session_id ≫= λ session,
  throw (recovery_error +:+ "; delegate_async_spawn_recovery_skipped_from_state: "
         +:+ current_state_text session).

Definition finalize_async_delegate_spawn_failure_with_recovery (child_session_id parent_session_id : string)
    (label : option string) (execution : ConstrainedSubagentExecution) (error : string) : DB unit :=
  st_match (finalize_async_delegate_spawn_failure child_session_id parent_session_id label execution error) mret
    (λ finalize_error,
       SessionRepository_new env ≫= λ _,
       let recovery_error :=
         "delegate_async_spawn_failure_persist_failed: " +:+ finalize_error +:+ "; original spawn error: "
         +:+ error in
       st_match
         (transition_session_with_event_if_current env json child_session_id
            (mkTransitionSessionWithEvent State_Ready State_Failed (Some recovery_error) RECOVERY_EVENT_KIND
               (Some parent_session_id)
               (build_async_spawn_failure_recovery_payload label error recovery_error)))
         (λ transitioned,
            match transitioned with
            | Some _ => mret ()
            | None => spawn_recovery_skipped child_session_id recovery_error
            end)
         (λ recovery_event_error,
            st_match
              (update_session_state_if_current env child_session_id State_Ready State_Failed
                 (Some recovery_error))
              (λ updated,
                 match updated with
                 | Some _ => mret ()
                 | None => spawn_recovery_skipped child_session_id recovery_error
                 end)
              (λ mark_error,
                 throw (recovery_error +:+ "; delegate_async_spawn_recovery_failed: " +:+ mark_error
                        +:+ "; delegate_async_spawn_recovery_event_failed: " +:+ recovery_event_error)))).

(** The body of the task of [spawn_async_delegate_detached]: [spawner] is
    [spawner.spawn], which may also panic. *)
Inductive SpawnResult := Spawned | Spawn_Err (error : string) | Spawn_Panic (message : option string).

Definition async_delegate_task (spawner : AsyncDelegateSpawnRequest → Db * W → SpawnResult * (Db * W))
    (request : AsyncDelegateSpawnRequest) (s : Db * W) : Db * W :=
  let '(spawned, s) := spawner request s in
  let spawn_failure :=
    match spawned with
    | Spawned => None
    | Spawn_Err error => Some error
    | Spawn_Panic message => Some (format_panic "delegate_async_spawn_panic" message)
    end in
  match spawn_failure with
  | None => s
  | Some error =>
      (finalize_async_delegate_spawn_failure_with_recovery (sp_child_session_id request)
         (sp_parent_session_id request) (sp_label request) (sp_execution request) error s).2
  end.

(** [spawn_async_child] as a spawner that does not panic *)
Definition as_spawner (spawn : AsyncDelegateSpawnRequest → DB unit) (request : AsyncDelegateSpawnRequest)
    (s : Db * W) : SpawnResult * (Db * W) :=
  match spawn request s with (Ok _, s) => (Spawned, s) | (Err error, s) => (Spawn_Err error, s) end.
End delegation.
