(* ===== verification/SessionTools.v ===== *)
(** * SessionTools: the session tools (app/src/tools/session.rs)

    Listing and inspecting the sessions that are visible from the current one,
    waiting for them, and the operations on delegated children: cancelling,
    recovering the overdue, archiving the ended. The transcript of a session and
    the clock of [session_wait] are parameters. *)
From S2P Require Import Prelude RustStr Contracts Json ToolCatalog ToolConfig SessionDb SessionRepo Approvals.
From S2P Require Import Subagent.

(** ** Records *)
Record SessionInspectionSnapshot := mkSessionInspectionSnapshot {
  is_session : SessionSummaryRecord;
  is_terminal_outcome : option SessionTerminalOutcomeRecord;
  is_recent_events : list SessionEventRecord;
  is_delegate_events : list SessionEventRecord }.

Record SessionObservationSnapshot := mkSessionObservationSnapshot {
  ob_inspection : SessionInspectionSnapshot;
  ob_tail_events : list SessionEventRecord }.

Record SessionDelegateStalenessRecord := mkSessionDelegateStalenessRecord {
  dl_state : string;
  dl_reference : string;
  dl_elapsed_seconds : Z;
  dl_threshold_seconds : Z;
  dl_deadline_at : Z }.

Record SessionDelegateCancellationRecord := mkSessionDelegateCancellationRecord {
  dc_state : string;
  dc_reference : string;
  dc_requested_at : Z;
  dc_reason : string }.

Record SessionDelegateLifecycleRecord := mkSessionDelegateLifecycleRecord {
  lc_mode : string;
  lc_phase : string;
  lc_queued_at : option Z;
  lc_started_at : option Z;
  lc_timeout_seconds : option Z;
  lc_execution : option ConstrainedSubagentExecution;
  lc_staleness : option SessionDelegateStalenessRecord;
  lc_cancellation : option SessionDelegateCancellationRecord }.

Record SessionsListRequest := mkSessionsListRequest {
  sl_limit : Z;
  sl_state : option SessionState;
  sl_kind : option SessionKind;
  sl_parent_session_id : option string;
  sl_overdue_only : bool;
  sl_include_archived : bool;
  sl_include_delegate_lifecycle : bool }.

Record SessionTargetRequest := mkSessionTargetRequest {
  tg_session_ids : list string;
  tg_legacy_single : bool }.

Record SessionMutationRequest := mkSessionMutationRequest {
  mr_target : SessionTargetRequest;
  mr_dry_run : bool }.

Record SessionRecoverPlan := mkSessionRecoverPlan {
  rp_expected_state : SessionState;
  rp_recovery_kind : string;
  rp_reference : string;
  rp_queued_at : option Z;
  rp_started_at : option Z;
  rp_elapsed_seconds : Z;
  rp_timeout_seconds : Z;
  rp_deadline_at : Z }.

Inductive SessionCancelPlan := Cancel_Queued | Cancel_Running.
Record SessionArchivePlan := mkSessionArchivePlan { ap_expected_state : SessionState }.

Record SessionToolActionOutcome := mkSessionToolActionOutcome {
  ao_inspection : Value;
  ao_action : Value }.

Record SessionBatchResultRecord := mkSessionBatchResultRecord {
  br_session_id : string;
  br_result : string;
  br_message : option string;
  br_action : option Value;
  br_inspection : option Value }.

Record SessionWaitTargetState := mkSessionWaitTargetState {
  wx_index : nat;
  wx_session_id : string;
  wx_next_after_id : Z;
  wx_observed_events : list SessionEventRecord;
  wx_latest_inspection : option SessionInspectionSnapshot }.

Definition effective_include_delegate_lifecycle (r : SessionsListRequest) : bool :=
  sl_include_delegate_lifecycle r || sl_overdue_only r.
Definition use_legacy_single_response (r : SessionMutationRequest) : bool :=
  tg_legacy_single (mr_target r) && negb (mr_dry_run r).

(** ** Parsing payloads *)
Definition session_payload_string (payload : Value) (field : string) : result string string :=
  ok_or (optional_payload_string payload field) ("session tool requires payload." +:+ field).

Definition normalize_required_session_id (session_id : string) : result string string :=
  let trimmed := trim session_id in
  if is_empty trimmed then Err "session tool requires payload.session_id" else Ok trimmed.

Definition optional_payload_bool (payload : Value) (field : string) : bool :=
  default false (json_get field payload ≫= json_as_bool).

(** [Value::as_i64] *)
Definition json_as_i64 (v : Value) : option Z :=
  match v with
  | JNumber (PosInt n) => if (n <? 2 ^ 63)%Z then Some n else None
  | JNumber (NegInt n) => Some n
  | _ => None
  end.

Definition string_array_error (field : string) : string :=
  "session tool requires payload." +:+ field +:+ " to be a non-empty array of strings".

Fixpoint trimmed_strings (field : string) (values : list Value) : result string (list string) :=
  match values with
  | [] => Ok []
  | value :: rest =>
      match json_as_str value with
      | None => Err (string_array_error field)
      | Some session_id =>
          let trimmed := trim session_id in
          if is_empty trimmed then Err (string_array_error field)
          else trimmed_strings field rest ≫= λ more, Ok (trimmed :: more)
      end
  end.

Definition optional_payload_string_array (payload : Value) (field : string) :
    result string (option (list string)) :=
  match json_get field payload with
  | None => Ok None
  | Some value =>
      match json_as_array value with
      | None | Some [] => Err (string_array_error field)
      | Some values => Some <$> trimmed_strings field values
      end
  end.

Definition parse_session_target_request (payload : Value) : result string SessionTargetRequest :=
  batch ← optional_payload_string_array payload "session_ids";
  match optional_payload_string payload "session_id", batch with
  | Some session_id, None =>
      session_id ← normalize_required_session_id session_id; Ok (mkSessionTargetRequest [session_id] true)
  | None, Some session_ids => Ok (mkSessionTargetRequest session_ids false)
  | Some _, Some _ => Err "session tool requires exactly one of payload.session_id or payload.session_ids"
  | None, None => Err "session tool requires payload.session_id or payload.session_ids"
  end.

Definition parse_session_mutation_request (payload : Value) : result string SessionMutationRequest :=
  target ← parse_session_target_request payload;
  Ok (mkSessionMutationRequest target (optional_payload_bool payload "dry_run")).

Definition legacy_single_session_id (session_ids : list string) : result string string :=
  ok_or (head session_ids) "session_tool_internal_error: legacy single request missing session id".

Definition optional_payload_session_state (payload : Value) (field : string) :
    result string (option SessionState) :=
  transpose (λ raw, map_err (λ _, "invalid session tool payload." +:+ field +:+ ": `" +:+ raw +:+ "`")
                      (SessionState_from_db raw)) (optional_payload_string payload field).
Definition optional_payload_session_kind (payload : Value) (field : string) : result string (option SessionKind) :=
  transpose (λ raw, map_err (λ _, "invalid session tool payload." +:+ field +:+ ": `" +:+ raw +:+ "`")
                      (SessionKind_from_db raw)) (optional_payload_string payload field).

Definition parse_sessions_list_request (payload : Value) (tool_config : ToolConfig) :
    result string SessionsListRequest :=
  limit ← optional_payload_limit payload "limit" (st_list_limit (tc_sessions tool_config))
            (st_list_limit (tc_sessions tool_config));
  state ← optional_payload_session_state payload "state";
  kind ← optional_payload_session_kind payload "kind";
  Ok (mkSessionsListRequest limit state kind (optional_payload_string payload "parent_session_id")
        (optional_payload_bool payload "overdue_only") (optional_payload_bool payload "include_archived")
        (optional_payload_bool payload "include_delegate_lifecycle")).

(** ** The life of a delegated child *)
Definition session_state_is_terminal (state : SessionState) : bool :=
  match state with State_Completed | State_Failed | State_TimedOut => true | _ => false end.

(** [now.saturating_sub(reference).max(0)] is [grant_age] of [Approvals];
    [saturating_add] *)
Definition saturating_add_i64 (x y : Z) : Z := Z.max (- 2 ^ 63) (Z.min (x + y) (2 ^ 63 - 1)).

Definition session_delegate_staleness_at (reference : string) (reference_at timeout_seconds : option Z)
    (now_ts : Z) : option SessionDelegateStalenessRecord :=
  reference_at ≫= λ reference_at,
  timeout_seconds ≫= λ threshold_seconds,
  let elapsed_seconds := grant_age now_ts reference_at in
  let deadline_at := saturating_add_i64 reference_at (Z.min threshold_seconds (2 ^ 63 - 1)) in
  Some (mkSessionDelegateStalenessRecord
          (if (threshold_seconds <? elapsed_seconds)%Z then "overdue" else "fresh")
          reference elapsed_seconds threshold_seconds deadline_at).

(** What the loop over the events has gathered *)
Record LifecycleScan := mkLifecycleScan {
  ls_queued_at : option Z;
  ls_started_at : option Z;
  ls_queued_timeout : option Z;
  ls_started_timeout : option Z;
  ls_execution : option ConstrainedSubagentExecution;
  ls_cancellation : option SessionDelegateCancellationRecord }.

Definition event_timeout (payload : Value) (execution : option ConstrainedSubagentExecution) : option Z :=
  or_else (json_get_u64 "timeout_seconds" payload) (cx_timeout_seconds <$> execution).

Definition scan_event (a : LifecycleScan) (event : SessionEventRecord) : LifecycleScan :=
  let payload := se_payload_json event in
  if bool_decide (se_event_kind event = "delegate_queued") then
    let execution := or_else (ls_execution a) (from_event_payload payload) in
    mkLifecycleScan (Some (se_ts event)) (ls_started_at a) (event_timeout payload execution)
      (ls_started_timeout a) execution (ls_cancellation a)
  else if bool_decide (se_event_kind event = "delegate_started") then
    let execution := or_else (ls_execution a) (from_event_payload payload) in
    mkLifecycleScan (ls_queued_at a) (Some (se_ts event)) (ls_queued_timeout a)
      (event_timeout payload execution) execution (ls_cancellation a)
  else if bool_decide (se_event_kind event = DELEGATE_CANCEL_REQUESTED_EVENT_KIND) then
    mkLifecycleScan (ls_queued_at a) (ls_started_at a) (ls_queued_timeout a) (ls_started_timeout a)
      (ls_execution a)
      (Some (mkSessionDelegateCancellationRecord "requested" "running" (se_ts event)
               (default DELEGATE_CANCEL_REASON_OPERATOR_REQUESTED (payload_text payload "cancel_reason"))))
  else a.

Definition phase_of (state : SessionState) : string :=
  match state with
  | State_Ready => "queued" | State_Running => "running" | State_Completed => "completed"
  | State_Failed => "failed" | State_TimedOut => "timed_out"
  end.

Definition session_delegate_lifecycle_at (session : SessionSummaryRecord) (events : list SessionEventRecord)
    (now_ts : Z) : option SessionDelegateLifecycleRecord :=
  if negb (bool_decide (ss_kind session = Kind_DelegateChild)) then None
  else
    let a := foldl scan_event (mkLifecycleScan None None None None None None) events in
    match ss_parent_session_id session, ls_queued_at a, ls_started_at a with
    | None, None, None => None
    | _, _, _ =>
        let timeout_seconds := or_else (ls_started_timeout a) (ls_queued_timeout a) in
        let mode :=
          match ls_execution a with
          | Some execution => mode_str (cx_mode execution)
          | None =>
              if bool_decide (is_Some (ls_queued_at a)) || bool_decide (ss_state session = State_Ready)
              then "async" else "inline"
          end in
        let staleness :=
          match ss_state session with
          | State_Ready => session_delegate_staleness_at "queued" (ls_queued_at a) timeout_seconds now_ts
          | State_Running =>
              session_delegate_staleness_at
                (match ls_started_at a with Some _ => "started" | None => "queued" end)
                (or_else (ls_started_at a) (ls_queued_at a)) timeout_seconds now_ts
          | _ => None
          end in
        Some (mkSessionDelegateLifecycleRecord mode (phase_of (ss_state session)) (ls_queued_at a)
                (ls_started_at a) timeout_seconds (ls_execution a) staleness
                (if bool_decide (ss_state session = State_Running) then ls_cancellation a else None))
    end.

(** ** Plans *)
Definition build_session_archive_plan (snapshot : SessionInspectionSnapshot) :
    result string SessionArchivePlan :=
  let session := is_session snapshot in
  if bool_decide (is_Some (ss_archived_at session)) then
    Err ("session_archive_not_archivable: session `" +:+ ss_session_id session +:+ "` is already archived")
  else if negb (session_state_is_terminal (ss_state session)) then
    Err ("session_archive_not_archivable: session `" +:+ ss_session_id session +:+ "` is not terminal")
  else Ok (mkSessionArchivePlan (ss_state session)).

Definition already_ended (snapshot : SessionInspectionSnapshot) : bool :=
  match is_terminal_outcome snapshot with Some _ => true | None => false end
  || session_state_is_terminal (ss_state (is_session snapshot)).

Definition build_session_cancel_plan (snapshot : SessionInspectionSnapshot) (now_ts : Z) :
    result string SessionCancelPlan :=
  let session := is_session snapshot in
  let text suffix := "session `" +:+ ss_session_id session +:+ suffix in
  if negb (bool_decide (ss_kind session = Kind_DelegateChild)) then
    Err ("session_cancel_not_supported: " +:+ text "` is not a delegate child")
  else if already_ended snapshot then
    Err ("session_cancel_not_cancellable: " +:+ text "` is already terminal")
  else
    match session_delegate_lifecycle_at session (is_delegate_events snapshot) now_ts with
    | None => Err ("session_cancel_not_cancellable: " +:+ text "` is missing delegate lifecycle metadata")
    | Some lifecycle =>
        if negb (bool_decide (lc_mode lifecycle = "async")) then
          Err ("session_cancel_not_supported: " +:+ text "` is not an async delegate child")
        else if bool_decide (ss_state session = State_Ready ∧ lc_phase lifecycle = "queued") then Ok Cancel_Queued
        else if bool_decide (ss_state session = State_Running ∧ lc_phase lifecycle = "running")
        then Ok Cancel_Running
        else Err ("session_cancel_not_cancellable: " +:+ text "` is not queued or running")
    end.

Definition build_session_recover_plan (snapshot : SessionInspectionSnapshot) (now_ts : Z) :
    result string SessionRecoverPlan :=
  let session := is_session snapshot in
  let text suffix := "session `" +:+ ss_session_id session +:+ suffix in
  let not_recoverable suffix := "session_recover_not_recoverable: " +:+ text suffix in
  if negb (bool_decide (ss_kind session = Kind_DelegateChild)) then
    Err ("session_recover_not_supported: " +:+ text "` is not a delegate child")
  else if already_ended snapshot then Err (not_recoverable "` is already terminal")
  else
    lifecycle ← ok_or (session_delegate_lifecycle_at session (is_delegate_events snapshot) now_ts)
                  (not_recoverable "` is missing delegate lifecycle metadata");
    if negb (bool_decide (lc_mode lifecycle = "async")) then
      Err (not_recoverable "` is not an overdue async child")
    else
      staleness ← ok_or (lc_staleness lifecycle) (not_recoverable "` is missing staleness metadata");
      if negb (bool_decide (dl_state staleness = "overdue")) then Err (not_recoverable "` is not overdue")
      else
        timeout_seconds ← ok_or (lc_timeout_seconds lifecycle)
                            (not_recoverable "` is missing timeout metadata");
        if bool_decide (ss_state session = State_Ready ∧ lc_phase lifecycle = "queued") then
          queued_at ← ok_or (lc_queued_at lifecycle) (not_recoverable "` is missing queued timestamp");
          Ok (mkSessionRecoverPlan State_Ready RECOVERY_KIND_QUEUED_ASYNC_OVERDUE_MARKED_FAILED "queued"
                (Some queued_at) (lc_started_at lifecycle) (dl_elapsed_seconds staleness) timeout_seconds
                (dl_deadline_at staleness))
        else if bool_decide (ss_state session = State_Running ∧ lc_phase lifecycle = "running") then
          Ok (mkSessionRecoverPlan State_Running RECOVERY_KIND_RUNNING_ASYNC_OVERDUE_MARKED_FAILED
                (dl_reference staleness) (lc_queued_at lifecycle) (lc_started_at lifecycle)
                (dl_elapsed_seconds staleness) timeout_seconds (dl_deadline_at staleness))
        else Err (not_recoverable "` is not an overdue async child").

Definition session_recovery_error (plan : SessionRecoverPlan) : string :=
  let after := " delegate child exceeded timeout after " +:+ pretty (rp_elapsed_seconds plan)
               +:+ "s (threshold " +:+ pretty (rp_timeout_seconds plan) +:+ "s)" in
  if bool_decide (rp_recovery_kind plan = RECOVERY_KIND_QUEUED_ASYNC_OVERDUE_MARKED_FAILED) then
    "delegate_async_queued_overdue_marked_failed: queued" +:+ after
  else if bool_decide (rp_recovery_kind plan = RECOVERY_KIND_RUNNING_ASYNC_OVERDUE_MARKED_FAILED) then
    "delegate_async_running_overdue_marked_failed: running" +:+ after
  else "session_recover_unsupported_kind: unsupported session recovery kind `" +:+ rp_recovery_kind plan +:+ "`".

(** ** Reports *)
Definition session_archive_action_json (plan : SessionArchivePlan) : Value :=
  json_object [("kind", json_str "session_archived");
               ("previous_state", json_str (SessionState_as_str (ap_expected_state plan)));
               ("next_state", json_str (SessionState_as_str (ap_expected_state plan)));
               ("hides_from_sessions_list", json_bool true)].
Definition session_recovery_action_json (plan : SessionRecoverPlan) : Value :=
  json_object [("kind", json_str (rp_recovery_kind plan));
               ("previous_state", json_str (SessionState_as_str (rp_expected_state plan)));
               ("next_state", json_str "failed"); ("reference", json_str (rp_reference plan));
               ("elapsed_seconds", json_uint (rp_elapsed_seconds plan));
               ("timeout_seconds", json_uint (rp_timeout_seconds plan));
               ("deadline_at", json_int (rp_deadline_at plan))].
Definition session_cancel_action_json (plan : SessionCancelPlan) : Value :=
  let '(kind, previous, next, reference) :=
    match plan with
    | Cancel_Queued => ("queued_async_cancelled", "ready", "failed", "queued")
    | Cancel_Running => ("running_async_cancel_requested", "running", "running", "running")
    end in
  json_object [("kind", json_str kind); ("previous_state", json_str previous); ("next_state", json_str next);
               ("reference", json_str reference);
               ("reason", json_str DELEGATE_CANCEL_REASON_OPERATOR_REQUESTED)].

Definition session_delegate_staleness_json (s : SessionDelegateStalenessRecord) : Value :=
  json_object [("state", json_str (dl_state s)); ("reference", json_str (dl_reference s));
               ("elapsed_seconds", json_uint (dl_elapsed_seconds s));
               ("threshold_seconds", json_uint (dl_threshold_seconds s));
               ("deadline_at", json_int (dl_deadline_at s))].
Definition session_delegate_cancellation_json (c : SessionDelegateCancellationRecord) : Value :=
  json_object [("state", json_str (dc_state c)); ("reference", json_str (dc_reference c));
               ("requested_at", json_int (dc_requested_at c)); ("reason", json_str (dc_reason c))].
Definition session_delegate_lifecycle_json (l : SessionDelegateLifecycleRecord) : Value :=
  json_object [("mode", json_str (lc_mode l)); ("phase", json_str (lc_phase l));
               ("queued_at", json_opt json_int (lc_queued_at l));
               ("started_at", json_opt json_int (lc_started_at l));
               ("timeout_seconds", json_opt json_uint (lc_timeout_seconds l));
               ("execution", json_opt execution_to_value (lc_execution l));
               ("staleness", json_opt session_delegate_staleness_json (lc_staleness l));
               ("cancellation", json_opt session_delegate_cancellation_json (lc_cancellation l))].

Definition session_event_json (e : SessionEventRecord) : Value :=
  json_object [("id", json_int (se_id e)); ("session_id", json_str (se_session_id e));
               ("event_kind", json_str (se_event_kind e));
               ("actor_session_id", json_opt json_str (se_actor_session_id e));
               ("payload_json", se_payload_json e); ("ts", json_int (se_ts e))].
Definition session_terminal_outcome_json (o : SessionTerminalOutcomeRecord) : Value :=
  json_object [("session_id", json_str (to_session_id o)); ("status", json_str (to_status o));
               ("payload", to_payload_json o); ("recorded_at", json_int (to_recorded_at o))].

Definition session_fields (s : SessionSummaryRecord) : list (string * Value) :=
  [("session_id", json_str (ss_session_id s)); ("kind", json_str (SessionKind_as_str (ss_kind s)));
   ("parent_session_id", json_opt json_str (ss_parent_session_id s));
   ("label", json_opt json_str (ss_label s));
   ("state", json_str (SessionState_as_str (ss_state s)));
   ("created_at", json_int (ss_created_at s)); ("updated_at", json_int (ss_updated_at s));
   ("archived", json_bool (bool_decide (is_Some (ss_archived_at s))));
   ("archived_at", json_opt json_int (ss_archived_at s))].
Definition session_summary_json (s : SessionSummaryRecord) : Value :=
  json_object (session_fields s
               ++ [("turn_count", json_uint (ss_turn_count s));
                   ("last_turn_at", json_opt json_int (ss_last_turn_at s));
                   ("last_error", json_opt json_str (ss_last_error s))]).

(** [if let Some(object) = payload.as_object_mut() { object.insert(..) }] *)
Definition insert_field (key : string) (v : Value) (payload : Value) : Value :=
  match payload with JObject fields => JObject (obj_insert key v fields) | other => other end.

Definition session_summary_json_with_delegate_lifecycle (s : SessionSummaryRecord)
    (lifecycle : option SessionDelegateLifecycleRecord) (include_delegate_lifecycle : bool) : Value :=
  if include_delegate_lifecycle then
    insert_field "delegate_lifecycle" (json_opt session_delegate_lifecycle_json lifecycle) (session_summary_json s)
  else session_summary_json s.

Definition sessions_list_filters_json (r : SessionsListRequest) : Value :=
  json_object [("limit", json_uint (sl_limit r));
               ("state", json_opt json_str (SessionState_as_str <$> sl_state r));
               ("kind", json_opt json_str (SessionKind_as_str <$> sl_kind r));
               ("parent_session_id", json_opt json_str (sl_parent_session_id r));
               ("overdue_only", json_bool (sl_overdue_only r));
               ("include_archived", json_bool (sl_include_archived r));
               ("include_delegate_lifecycle", json_bool (effective_include_delegate_lifecycle r))].

Definition session_terminal_outcome_state (state : SessionState) (has_terminal_outcome : bool) : string :=
  if has_terminal_outcome then "present"
  else if session_state_is_terminal state then "missing" else "not_terminal".

(** [session_inspection_payload], with the time it reads *)
Definition session_inspection_payload_at (snapshot : SessionInspectionSnapshot) (now_ts : Z) : Value :=
  let session := is_session snapshot in
  let outcome_state :=
    session_terminal_outcome_state (ss_state session) (bool_decide (is_Some (is_terminal_outcome snapshot))) in
  let recovery :=
    if bool_decide (outcome_state = "missing")
    then Some (observe_missing_recovery (is_recent_events snapshot) (ss_last_error session)) else None in
  json_object
    [("session", json_object (session_fields session ++ [("last_error", json_opt json_str (ss_last_error session))]));
     ("terminal_outcome_state", json_str outcome_state);
     ("terminal_outcome_missing_reason", json_opt json_str (sv_kind <$> recovery));
     ("delegate_lifecycle",
       json_opt session_delegate_lifecycle_json
         (session_delegate_lifecycle_at session (is_delegate_events snapshot) now_ts));
     ("recovery", json_opt recovery_json recovery);
     ("terminal_outcome", json_opt session_terminal_outcome_json (is_terminal_outcome snapshot));
     ("recent_events", JArray (session_event_json <$> is_recent_events snapshot))].

Definition session_batch_result_json (r : SessionBatchResultRecord) : Value :=
  json_object [("session_id", json_str (br_session_id r)); ("result", json_str (br_result r));
               ("message", json_opt json_str (br_message r)); ("action", json_opt id (br_action r));
               ("inspection", json_opt id (br_inspection r))].

Definition session_batch_payload_with_optional_dry_run (tool current_session_id : string) (requested_count : nat)
    (results : list SessionBatchResultRecord) (dry_run : option bool) : Value :=
  let payload :=
    json_object
      [("tool", json_str tool); ("current_session_id", json_str current_session_id);
       ("requested_count", json_uint (Z.of_nat requested_count));
       ("result_counts",
         json_object ((λ p : string * nat, (p.1, json_uint (Z.of_nat p.2)))
                        <$> btree_entries (counts_of (br_result <$> results))));
       ("results", JArray (session_batch_result_json <$> results))] in
  match dry_run with Some dry_run => insert_field "dry_run" (json_bool dry_run) payload | None => payload end.

Definition session_wait_batch_payload (current_session_id : string) (after_id : option Z) (timeout_ms : Z)
    (results : list SessionBatchResultRecord) : Value :=
  insert_field "after_id" (json_opt json_int after_id)
    (insert_field "timeout_ms" (json_uint timeout_ms)
       (session_batch_payload_with_optional_dry_run "session_wait" current_session_id (length results) results
          None)).

Definition is_session_visibility_skip_error (error : string) : bool :=
  starts_with "visibility_denied:" error || starts_with "session_not_found:" error.

(** ** The tools *)
Section session_tools.
Context {W : Type} (env : DbEnv W) (json : JsonText) (fuel : nat).
Abbreviation DB := (ST (Db * W) string).

Definition ensure_session_visible (current_session_id target_session_id : string)
    (visibility : SessionVisibility) : DB unit :=
  match visibility with
  | Visibility_SelfOnly => mret (bool_decide (current_session_id = target_session_id))
  | Visibility_Children => ended (is_session_visible env fuel current_session_id target_session_id)
  end ≫= λ is_visible : bool,
  if is_visible then mret () else throw (visibility_denied current_session_id target_session_id).

Definition visibility_of (tool_config : ToolConfig) : SessionVisibility := st_visibility (tc_sessions tool_config).

(** Only a delegated child has lifecycle events. *)
Definition load_delegate_lifecycle_events (session : SessionSummaryRecord) : DB (list SessionEventRecord) :=
  if negb (bool_decide (ss_kind session = Kind_DelegateChild)) then mret []
  else list_delegate_lifecycle_events env json (ss_session_id session).

Definition session_not_found (target_session_id : string) : string :=
  "session_not_found: `" +:+ target_session_id +:+ "`".

Definition observe_visible_session_with_policies (target_session_id current_session_id : string)
    (tool_config : ToolConfig) (recent_event_limit : Z) (tail_after_id : option Z) (tail_page_limit : Z) :
    DB SessionObservationSnapshot :=
  lift (normalize_required_session_id target_session_id) ≫= λ target_session_id,
  SessionRepository_new env ≫= λ _,
  ensure_session_visible current_session_id target_session_id (visibility_of tool_config) ≫= λ _,
  load_session_observation env json target_session_id recent_event_limit tail_after_id tail_page_limit
  ≫= λ observation,
  lift (ok_or observation (session_not_found target_session_id)) ≫= λ observation,
  load_delegate_lifecycle_events (so_session observation) ≫= λ delegate_events,
  mret (mkSessionObservationSnapshot
          (mkSessionInspectionSnapshot (so_session observation) (so_terminal_outcome observation)
             (so_recent_events observation) delegate_events)
          (so_tail_events observation)).

Definition inspect_visible_session_with_policies (target_session_id current_session_id : string)
    (tool_config : ToolConfig) (recent_event_limit : Z) : DB SessionInspectionSnapshot :=
  ob_inspection <$> observe_visible_session_with_policies target_session_id current_session_id tool_config
                      recent_event_limit None 0.

Definition session_inspection_payload (snapshot : SessionInspectionSnapshot) : DB Value :=
  unix_ts_now env ≫= λ now_ts, mret (session_inspection_payload_at snapshot now_ts).

(** [for x in xs { results.push(f(x)?) }] *)
Fixpoint map_results {A B} (f : A → DB B) (xs : list A) : DB (list B) :=
  match xs with
  | [] => mret []
  | x :: xs => f x ≫= λ y, map_results f xs ≫= λ ys, mret (y :: ys)
  end.

(** *** Listing *)
Definition is_overdue (lifecycle : option SessionDelegateLifecycleRecord) : bool :=
  match lifecycle ≫= lc_staleness with
  | Some staleness => bool_decide (dl_state staleness = "overdue")
  | None => false
  end.

Definition listed (tool_config : ToolConfig) (request : SessionsListRequest) (current_session_id : string)
    (s : SessionSummaryRecord) : Prop :=
  (visibility_of tool_config = Visibility_SelfOnly → ss_session_id s = current_session_id) ∧
  (match sl_state request with Some state => ss_state s = state | None => True end) ∧
  (match sl_kind request with Some kind => ss_kind s = kind | None => True end) ∧
  (match sl_parent_session_id request with Some p => ss_parent_session_id s = Some p | None => True end) ∧
  (sl_include_archived request = false → ss_archived_at s = None).
#[export] Instance listed_dec c r i s : Decision (listed c r i s).
Proof.
  unfold listed.
  destruct (sl_state r), (sl_kind r), (sl_parent_session_id r); apply _.
Defined.

Definition execute_sessions_list (payload : Value) (current_session_id : string) (tool_config : ToolConfig) :
    DB ToolCoreOutcome :=
  SessionRepository_new env ≫= λ _,
  lift (parse_sessions_list_request payload tool_config) ≫= λ request,
  let include := effective_include_delegate_lifecycle request in
  unix_ts_now env ≫= λ now_ts,
  list_visible_sessions env current_session_id ≫= λ sessions,
  map_results
    (λ session,
       if include then
         load_delegate_lifecycle_events session ≫= λ events,
         mret (session, session_delegate_lifecycle_at session events now_ts)
       else mret (session, None))
    (filter (listed tool_config request current_session_id) sessions) ≫= λ sessions,
  let listed_sessions :=
    filter (λ p : SessionSummaryRecord * option SessionDelegateLifecycleRecord,
              sl_overdue_only request = true → is_overdue p.2 = true) sessions in
  let returned := take (Z.to_nat (sl_limit request)) listed_sessions in
  mret (mkToolCoreOutcome "ok"
    (json_object
       [("current_session_id", json_str current_session_id);
        ("filters", sessions_list_filters_json request);
        ("matched_count", json_uint (len listed_sessions));
        ("returned_count", json_uint (len returned));
        ("sessions",
          JArray ((λ p, session_summary_json_with_delegate_lifecycle p.1 p.2 include) <$> returned))])).

Definition history_limits (payload : Value) (tool_config : ToolConfig) : result string Z :=
  optional_payload_limit payload "limit" (Z.min (st_history_limit (tc_sessions tool_config)) 50)
    (st_history_limit (tc_sessions tool_config)).

Definition execute_session_events (payload : Value) (current_session_id : string) (tool_config : ToolConfig) :
    DB ToolCoreOutcome :=
  lift (session_payload_string payload "session_id") ≫= λ target_session_id,
  lift (history_limits payload tool_config) ≫= λ limit,
  let after_id := json_get "after_id" payload ≫= json_as_i64 in
  SessionRepository_new env ≫= λ _,
  ensure_session_visible current_session_id target_session_id (visibility_of tool_config) ≫= λ _,
  match after_id with
  | Some after_id => list_events_after env json target_session_id (Z.max after_id 0) limit
  | None => list_recent_events env json target_session_id limit
  end ≫= λ events,
  let next_after_id := default (default 0%Z after_id) (se_id <$> last events) in
  mret (mkToolCoreOutcome "ok"
    (json_object
       [("session_id", json_str target_session_id); ("after_id", json_opt json_int after_id);
        ("limit", json_uint limit); ("next_after_id", json_int next_after_id);
        ("events", JArray (session_event_json <$> events))])).

(** [memory::window_direct] with its turns as JSON *)
Context (window_direct : string → Z → DB (list Value)).

Definition execute_sessions_history (payload : Value) (current_session_id : string) (tool_config : ToolConfig) :
    DB ToolCoreOutcome :=
  lift (session_payload_string payload "session_id") ≫= λ target_session_id,
  lift (history_limits payload tool_config) ≫= λ limit,
  SessionRepository_new env ≫= λ _,
  ensure_session_visible current_session_id target_session_id (visibility_of tool_config) ≫= λ _,
  st_map_err (λ error, "load session transcript failed: " +:+ error) (window_direct target_session_id limit)
  ≫= λ turns,
  mret (mkToolCoreOutcome "ok"
    (json_object [("session_id", json_str target_session_id); ("limit", json_uint limit);
                  ("turns", JArray turns)])).

(** *** Batches *)
Definition skipped_not_visible (session_id error : string) : SessionBatchResultRecord :=
  mkSessionBatchResultRecord session_id "skipped_not_visible" (Some error) None None.

(** The head of every batch operation: a session that cannot be seen or found
    is skipped, other errors end the batch. *)
Definition with_inspection (target_session_id current_session_id : string) (tool_config : ToolConfig)
    (recent_event_limit : Z) (k : SessionInspectionSnapshot → DB SessionBatchResultRecord) :
    DB SessionBatchResultRecord :=
  SessionRepository_new env ≫= λ _,
  st_match (ensure_session_visible current_session_id target_session_id (visibility_of tool_config))
    (λ _,
       st_match
         (inspect_visible_session_with_policies target_session_id current_session_id tool_config
            recent_event_limit) k
         (λ error,
            if is_session_visibility_skip_error error then mret (skipped_not_visible target_session_id error)
            else throw error))
    (λ error, mret (skipped_not_visible target_session_id error)).

(** The tail of the operations that change a session: the plan, the dry run, and
    the outcome of applying it. *)
Definition batch_apply {P} (target_session_id current_session_id : string) (tool_config : ToolConfig)
    (dry_run : bool) (snapshot : SessionInspectionSnapshot) (plan : result string P)
    (refused : string → string) (action : P → Value) (changed_prefix : string)
    (apply : P → DB SessionToolActionOutcome) (inspection : Value) : DB SessionBatchResultRecord :=
  match plan with
  | Err error =>
      mret (mkSessionBatchResultRecord target_session_id (refused error) (Some error) None (Some inspection))
  | Ok plan =>
      if dry_run then
        mret (mkSessionBatchResultRecord target_session_id "would_apply" None (Some (action plan))
                (Some inspection))
      else
        st_match (apply plan)
          (λ outcome, mret (mkSessionBatchResultRecord target_session_id "applied" None
                              (Some (ao_action outcome)) (Some (ao_inspection outcome))))
          (λ error,
             if starts_with changed_prefix error then
               st_match
                 (inspect_visible_session_with_policies target_session_id current_session_id tool_config 10
                  ≫= session_inspection_payload)
                 (λ inspection, mret (mkSessionBatchResultRecord target_session_id "skipped_state_changed"
                                        (Some error) (Some (action plan)) (Some inspection)))
                 (λ _, mret (mkSessionBatchResultRecord target_session_id "skipped_state_changed" (Some error)
                               (Some (action plan)) None))
             else throw error)
  end.

(** *** Status *)
Definition execute_session_status_batch_result (current_session_id : string) (tool_config : ToolConfig)
    (target_session_id : string) : DB SessionBatchResultRecord :=
  with_inspection target_session_id current_session_id tool_config 5 (λ snapshot,
    session_inspection_payload snapshot ≫= λ inspection,
    mret (mkSessionBatchResultRecord target_session_id "ok" None None (Some inspection))).

Definition execute_session_status (payload : Value) (current_session_id : string) (tool_config : ToolConfig) :
    DB ToolCoreOutcome :=
  lift (parse_session_target_request payload) ≫= λ request,
  if tg_legacy_single request then
    lift (legacy_single_session_id (tg_session_ids request)) ≫= λ target_session_id,
    inspect_visible_session_with_policies target_session_id current_session_id tool_config 5 ≫= λ snapshot,
    session_inspection_payload snapshot ≫= λ inspection, mret (mkToolCoreOutcome "ok" inspection)
  else
    map_results (execute_session_status_batch_result current_session_id tool_config) (tg_session_ids request)
    ≫= λ results,
    mret (mkToolCoreOutcome "ok"
            (session_batch_payload_with_optional_dry_run "session_status" current_session_id
               (length (tg_session_ids request)) results None)).

(** *** Changing sessions *)

(** What changed instead: the error when the guarded update found another state *)
Definition state_changed (prefix verb target_session_id : string) : DB SessionToolActionOutcome :=
  load_session_summary_with_legacy_fallback env target_session_id ≫= λ latest,
  lift (ok_or latest (session_not_found target_session_id)) ≫= λ latest,
  throw (prefix +:+ ": session `" +:+ target_session_id +:+ "` is no longer " +:+ verb +:+ " from state `"
         +:+ SessionState_as_str (ss_state latest) +:+ "`").

Definition reinspect (target_session_id current_session_id : string) (tool_config : ToolConfig) (action : Value) :
    DB SessionToolActionOutcome :=
  inspect_visible_session_with_policies target_session_id current_session_id tool_config 10 ≫= λ snapshot,
  session_inspection_payload snapshot ≫= λ inspection, mret (mkSessionToolActionOutcome inspection action).

Definition archive_transition (plan : SessionArchivePlan) (last_error : option string)
    (current_session_id : string) : TransitionSessionWithEventIfCurrentRequest :=
  mkTransitionSessionWithEvent (ap_expected_state plan) (ap_expected_state plan) last_error "session_archived"
    (Some current_session_id)
    (json_object [("previous_state", json_str (SessionState_as_str (ap_expected_state plan)));
                  ("hides_from_sessions_list", json_bool true)]).

Definition apply_session_archive_plan (target_session_id current_session_id : string) (tool_config : ToolConfig)
    (snapshot : SessionInspectionSnapshot) (plan : SessionArchivePlan) : DB SessionToolActionOutcome :=
  transition_session_with_event_if_current env json target_session_id
    (archive_transition plan (ss_last_error (is_session snapshot)) current_session_id) ≫= λ transitioned,
  match transitioned with
  | None => state_changed "session_archive_state_changed" "archivable" target_session_id
  | Some _ => reinspect target_session_id current_session_id tool_config (session_archive_action_json plan)
  end.

(** [elapsed_seconds.saturating_mul(1_000)] *)
Definition saturating_mul_1000 (n : Z) : Z := Z.min (n * 1000) u64_max.

Definition recovery_event_payload (target_session_id : string) (snapshot : SessionInspectionSnapshot)
    (plan : SessionRecoverPlan) (recovery_error : string) : result string Value :=
  if bool_decide (rp_recovery_kind plan = RECOVERY_KIND_QUEUED_ASYNC_OVERDUE_MARKED_FAILED) then
    match rp_queued_at plan with
    | None =>
        Err ("session_recover_not_recoverable: session `" +:+ target_session_id
             +:+ "` is missing queued timestamp")
    | Some queued_at =>
        Ok (build_queued_async_overdue_recovery_payload (ss_label (is_session snapshot)) queued_at
              (rp_elapsed_seconds plan) (rp_timeout_seconds plan) (rp_deadline_at plan) recovery_error)
    end
  else if bool_decide (rp_recovery_kind plan = RECOVERY_KIND_RUNNING_ASYNC_OVERDUE_MARKED_FAILED) then
    Ok (build_running_async_overdue_recovery_payload (ss_label (is_session snapshot)) (rp_queued_at plan)
          (rp_started_at plan) (rp_reference plan) (rp_elapsed_seconds plan) (rp_timeout_seconds plan)
          (rp_deadline_at plan) recovery_error)
  else Err ("session_recover_not_supported: unsupported recovery kind `" +:+ rp_recovery_kind plan +:+ "`").

Definition apply_session_recover_plan (target_session_id current_session_id : string) (tool_config : ToolConfig)
    (snapshot : SessionInspectionSnapshot) (plan : SessionRecoverPlan) : DB SessionToolActionOutcome :=
  let recovery_error := session_recovery_error plan in
  let session := is_session snapshot in
  let outcome := delegate_error_outcome (ss_session_id session) (ss_label session) recovery_error
                   (saturating_mul_1000 (rp_elapsed_seconds plan)) in
  lift (recovery_event_payload target_session_id snapshot plan recovery_error) ≫= λ event_payload,
  finalize_session_terminal_if_current env json target_session_id (rp_expected_state plan)
    (mkFinalizeSessionTerminalRequest State_Failed (Some recovery_error) RECOVERY_EVENT_KIND
       (Some current_session_id) event_payload (tco_status outcome) (tco_payload outcome)) ≫= λ finalized,
  match finalized with
  | None => state_changed "session_recover_state_changed" "recoverable" target_session_id
  | Some _ => reinspect target_session_id current_session_id tool_config (session_recovery_action_json plan)
  end.

Definition cancel_payload (reference : string) : Value :=
  json_object [("reference", json_str reference);
               ("cancel_reason", json_str DELEGATE_CANCEL_REASON_OPERATOR_REQUESTED)].

Definition apply_session_cancel_plan (target_session_id current_session_id : string) (tool_config : ToolConfig)
    (snapshot : SessionInspectionSnapshot) (plan : SessionCancelPlan) : DB SessionToolActionOutcome :=
  match plan with
  | Cancel_Queued =>
      let session := is_session snapshot in
      let cancel_error := delegate_cancelled_error DELEGATE_CANCEL_REASON_OPERATOR_REQUESTED in
      let outcome := delegate_error_outcome (ss_session_id session) (ss_label session) cancel_error 0 in
      finalize_session_terminal_if_current env json target_session_id State_Ready
        (mkFinalizeSessionTerminalRequest State_Failed (Some cancel_error) DELEGATE_CANCELLED_EVENT_KIND
           (Some current_session_id) (cancel_payload "queued") (tco_status outcome) (tco_payload outcome))
      ≫= λ finalized,
      match finalized with
      | None => state_changed "session_cancel_state_changed" "cancellable" target_session_id
      | Some _ =>
          reinspect target_session_id current_session_id tool_config (session_cancel_action_json Cancel_Queued)
      end
  | Cancel_Running =>
      transition_session_with_event_if_current env json target_session_id
        (mkTransitionSessionWithEvent State_Running State_Running None DELEGATE_CANCEL_REQUESTED_EVENT_KIND
           (Some current_session_id) (cancel_payload "running")) ≫= λ requested,
      match requested with
      | None => state_changed "session_cancel_state_changed" "cancellable" target_session_id
      | Some _ =>
          reinspect target_session_id current_session_id tool_config (session_cancel_action_json Cancel_Running)
      end
  end.

(** A tool that changes one session, or a batch of them: [plan] decides from an
    inspection, [apply] does it. *)
Definition execute_session_mutation {P} (tool action_field : string) (refused : string → string)
    (changed_prefix : string) (plan : SessionInspectionSnapshot → DB (result string P)) (action : P → Value)
    (apply : string → string → ToolConfig → SessionInspectionSnapshot → P → DB SessionToolActionOutcome)
    (payload : Value) (current_session_id : string) (tool_config : ToolConfig) : DB ToolCoreOutcome :=
  lift (parse_session_mutation_request payload) ≫= λ request,
  let target := mr_target request in
  if use_legacy_single_response request then
    lift (legacy_single_session_id (tg_session_ids target)) ≫= λ target_session_id,
    SessionRepository_new env ≫= λ _,
    ensure_session_visible current_session_id target_session_id (visibility_of tool_config) ≫= λ _,
    inspect_visible_session_with_policies target_session_id current_session_id tool_config 10 ≫= λ snapshot,
    plan snapshot ≫= λ p,
    lift p ≫= λ p,
    apply target_session_id current_session_id tool_config snapshot p ≫= λ outcome,
    mret (mkToolCoreOutcome "ok" (insert_field action_field (ao_action outcome) (ao_inspection outcome)))
  else
    map_results
      (λ target_session_id,
         with_inspection target_session_id current_session_id tool_config 10 (λ snapshot,
           session_inspection_payload snapshot ≫= λ inspection,
           plan snapshot ≫= λ p,
           batch_apply target_session_id current_session_id tool_config (mr_dry_run request) snapshot
             p refused action changed_prefix
             (apply target_session_id current_session_id tool_config snapshot) inspection))
      (tg_session_ids target) ≫= λ results,
    mret (mkToolCoreOutcome "ok"
            (session_batch_payload_with_optional_dry_run tool current_session_id (length (tg_session_ids target))
               results (Some (mr_dry_run request)))).

Definition recover_plan_now (snapshot : SessionInspectionSnapshot) : DB (result string SessionRecoverPlan) :=
  unix_ts_now env ≫= λ now_ts, mret (build_session_recover_plan snapshot now_ts).

(** The clock is read once the session is a child that has not ended. *)
Definition cancel_plan_now (snapshot : SessionInspectionSnapshot) : DB (result string SessionCancelPlan) :=
  if bool_decide (ss_kind (is_session snapshot) = Kind_DelegateChild) && negb (already_ended snapshot)
  then unix_ts_now env ≫= λ now_ts, mret (build_session_cancel_plan snapshot now_ts)
  else mret (build_session_cancel_plan snapshot 0).

Definition execute_session_recover : Value → string → ToolConfig → DB ToolCoreOutcome :=
  execute_session_mutation "session_recover" "recovery_action" (λ _, "skipped_not_recoverable")
    "session_recover_state_changed:" recover_plan_now session_recovery_action_json
    apply_session_recover_plan.

Definition execute_session_cancel : Value → string → ToolConfig → DB ToolCoreOutcome :=
  execute_session_mutation "session_cancel" "cancel_action" (λ _, "skipped_not_cancellable")
    "session_cancel_state_changed:" cancel_plan_now session_cancel_action_json
    apply_session_cancel_plan.

(** Archiving does not depend on the time. *)
Definition execute_session_archive : Value → string → ToolConfig → DB ToolCoreOutcome :=
  execute_session_mutation "session_archive" "archive_action"
    (λ error, if starts_with "session_archive_not_archivable:" error && contains "already archived" error
              then "skipped_already_archived" else "skipped_not_archivable")
    "session_archive_state_changed:" (λ snapshot, mret (build_session_archive_plan snapshot))
    session_archive_action_json apply_session_archive_plan.

Definition execute_session_tool_with_policies (request : ToolCoreRequest) (current_session_id : string)
    (tool_config : ToolConfig) : DB ToolCoreOutcome :=
  if negb (st_enabled (tc_sessions tool_config)) then throw session_tools_disabled
  else
    match_arms (tcr_tool_name request)
      [(["sessions_list"], execute_sessions_list (tcr_payload request) current_session_id tool_config);
       (["session_events"], execute_session_events (tcr_payload request) current_session_id tool_config);
       (["sessions_history"], execute_sessions_history (tcr_payload request) current_session_id tool_config);
       (["session_status"], execute_session_status (tcr_payload request) current_session_id tool_config);
       (["session_cancel"], execute_session_cancel (tcr_payload request) current_session_id tool_config);
       (["session_archive"], execute_session_archive (tcr_payload request) current_session_id tool_config);
       (["session_recover"], execute_session_recover (tcr_payload request) current_session_id tool_config)]
      (throw ("app_tool_not_found: unknown session tool `" +:+ tcr_tool_name request +:+ "`")).

(** *** Waiting *)

(** The time since the wait began, and sleeping *)
Context (elapsed_ms : W → Z * W) (sleep_ms : Z → Db * W → Db * W).
Definition read_elapsed : DB Z := λ '(db, w), let '(t, w) := elapsed_ms w in (Ok t, (db, w)).
Definition sleep (ms : Z) : DB unit := λ s, (Ok (), sleep_ms ms s).

Definition wait_payload (snapshot : SessionInspectionSnapshot) (wait_status : string) (after_id : option Z)
    (timeout_ms : Z) (observed_events : list SessionEventRecord) (next_after_id : Z) : DB Value :=
  let next_after_id :=
    match after_id with
    | Some _ => next_after_id
    | None => default 0%Z (se_id <$> last (is_recent_events snapshot))
    end in
  let events := match after_id with Some _ => observed_events | None => is_recent_events snapshot end in
  session_inspection_payload snapshot ≫= λ payload,
  mret (insert_field "events" (JArray (session_event_json <$> events))
         (insert_field "next_after_id" (json_int next_after_id)
            (insert_field "after_id" (json_opt json_int after_id)
               (insert_field "timeout_ms" (json_uint timeout_ms)
                  (insert_field "wait_status" (json_str wait_status) payload))))).

(** The events since [after_id], when it is given *)
Definition reported (after_id : option Z) (observed : list SessionEventRecord) : list SessionEventRecord :=
  match after_id with Some _ => observed | None => [] end.

(** One poll of a session: its inspection, the new events and where they end *)
Definition advance (next_after_id : Z) (tail_events : list SessionEventRecord) : Z :=
  default next_after_id (se_id <$> last tail_events).

(** [None] when the fuel runs out before the session ends or the time is up *)
Fixpoint wait_single_loop (polls : nat) (target_session_id current_session_id : string)
    (tool_config : ToolConfig) (after_id : option Z) (timeout_ms event_limit next_after_id : Z)
    (observed : list SessionEventRecord) : DB (option ToolCoreOutcome) :=
  match polls with
  | O => mret None
  | S polls =>
      observe_visible_session_with_policies target_session_id current_session_id tool_config event_limit
        ((λ _, next_after_id) <$> after_id) event_limit ≫= λ observation,
      let snapshot := ob_inspection observation in
      let next_after_id := advance next_after_id (ob_tail_events observation) in
      let observed := observed ++ ob_tail_events observation in
      if session_state_is_terminal (ss_state (is_session snapshot)) then
        wait_payload snapshot "completed" after_id timeout_ms (reported after_id observed) next_after_id
        ≫= λ payload, mret (Some (mkToolCoreOutcome "ok" payload))
      else
        read_elapsed ≫= λ elapsed,
        if (timeout_ms <=? elapsed)%Z then
          wait_payload snapshot "timeout" after_id timeout_ms (reported after_id observed) next_after_id
          ≫= λ payload, mret (Some (mkToolCoreOutcome "timeout" payload))
        else
          sleep (Z.min (timeout_ms - elapsed) 25) ≫= λ _,
          wait_single_loop polls target_session_id current_session_id tool_config after_id timeout_ms
            event_limit next_after_id observed
  end.

(** The sessions of a batch that cannot be seen are skipped at once. *)
Fixpoint batch_targets (index : nat) (current_session_id : string) (tool_config : ToolConfig)
    (after_id : option Z) (target_session_ids : list string) :
    DB (list (option SessionBatchResultRecord) * list SessionWaitTargetState) :=
  match target_session_ids with
  | [] => mret ([], [])
  | target_session_id :: rest =>
      st_match (ensure_session_visible current_session_id target_session_id (visibility_of tool_config))
        (λ _, mret (None, [mkSessionWaitTargetState index target_session_id (Z.max (default 0%Z after_id) 0)
                             [] None]))
        (λ error, mret (Some (skipped_not_visible target_session_id error), [])) ≫= λ '(result, target),
      batch_targets (S index) current_session_id tool_config after_id rest ≫= λ '(results, targets),
      mret (result :: results, target ++ targets)
  end.

Definition set_session_batch_result (results : list (option SessionBatchResultRecord)) (index : nat)
    (r : SessionBatchResultRecord) : result string (list (option SessionBatchResultRecord)) :=
  match results !! index with
  | None => Err ("session_wait_internal_error: result slot `" +:+ pretty index +:+ "` is out of bounds")
  | Some _ => Ok (<[index := Some r]> results)
  end.

Fixpoint collect_session_batch_results (index : nat) (results : list (option SessionBatchResultRecord)) :
    result string (list SessionBatchResultRecord) :=
  match results with
  | [] => Ok []
  | None :: _ => Err ("session_wait_internal_error: missing batch result at index `" +:+ pretty index +:+ "`")
  | Some r :: rest => collect_session_batch_results (S index) rest ≫= λ rs, Ok (r :: rs)
  end.

(** [for mut target in pending]: the sessions still to wait for *)
Fixpoint poll_targets (current_session_id : string) (tool_config : ToolConfig) (after_id : option Z)
    (timeout_ms event_limit : Z) (pending : list SessionWaitTargetState)
    (results : list (option SessionBatchResultRecord)) :
    DB (list SessionWaitTargetState * list (option SessionBatchResultRecord)) :=
  match pending with
  | [] => mret ([], results)
  | target :: rest =>
      st_match
        (observe_visible_session_with_policies (wx_session_id target) current_session_id tool_config event_limit
           ((λ _, wx_next_after_id target) <$> after_id) event_limit)
        (λ observation,
           let snapshot := ob_inspection observation in
           let next_after_id := advance (wx_next_after_id target) (ob_tail_events observation) in
           let observed := wx_observed_events target ++ ob_tail_events observation in
           if session_state_is_terminal (ss_state (is_session snapshot)) then
             wait_payload snapshot "completed" after_id timeout_ms (reported after_id observed) next_after_id
             ≫= λ payload,
             lift (set_session_batch_result results (wx_index target)
                     (mkSessionBatchResultRecord (wx_session_id target) "ok" None None (Some payload)))
             ≫= λ results, mret ([], results)
           else
             mret ([mkSessionWaitTargetState (wx_index target) (wx_session_id target) next_after_id observed
                      (Some snapshot)], results))
        (λ error,
           if is_session_visibility_skip_error error then
             lift (set_session_batch_result results (wx_index target)
                     (skipped_not_visible (wx_session_id target) error)) ≫= λ results, mret ([], results)
           else throw error) ≫= λ '(kept, results),
      poll_targets current_session_id tool_config after_id timeout_ms event_limit rest results
      ≫= λ '(next_pending, results), mret (kept ++ next_pending, results)
  end.

(** When the time is up, what is left is reported as it was seen last. *)
Fixpoint time_out_targets (after_id : option Z) (timeout_ms : Z) (pending : list SessionWaitTargetState)
    (results : list (option SessionBatchResultRecord)) : DB (list (option SessionBatchResultRecord)) :=
  match pending with
  | [] => mret results
  | target :: rest =>
      lift (ok_or (wx_latest_inspection target)
              ("session_wait_internal_error: missing pending inspection for `" +:+ wx_session_id target +:+ "`"))
      ≫= λ snapshot,
      wait_payload snapshot "timeout" after_id timeout_ms (reported after_id (wx_observed_events target))
        (wx_next_after_id target) ≫= λ payload,
      lift (set_session_batch_result results (wx_index target)
              (mkSessionBatchResultRecord (wx_session_id target) "timeout" None None (Some payload)))
      ≫= λ results, time_out_targets after_id timeout_ms rest results
  end.

Definition batch_wait_outcome (current_session_id : string) (after_id : option Z) (timeout_ms : Z)
    (results : list (option SessionBatchResultRecord)) : DB (option ToolCoreOutcome) :=
  lift (collect_session_batch_results 0 results) ≫= λ results,
  mret (Some (mkToolCoreOutcome "ok" (session_wait_batch_payload current_session_id after_id timeout_ms results))).

Fixpoint wait_batch_loop (polls : nat) (current_session_id : string) (tool_config : ToolConfig)
    (after_id : option Z) (timeout_ms event_limit : Z) (pending : list SessionWaitTargetState)
    (results : list (option SessionBatchResultRecord)) : DB (option ToolCoreOutcome) :=
  match polls with
  | O => mret None
  | S polls =>
      poll_targets current_session_id tool_config after_id timeout_ms event_limit pending results
      ≫= λ '(pending, results),
      match pending with
      | [] => batch_wait_outcome current_session_id after_id timeout_ms results
      | _ :: _ =>
          read_elapsed ≫= λ elapsed,
          if (timeout_ms <=? elapsed)%Z then
            time_out_targets after_id timeout_ms pending results ≫= λ results,
            batch_wait_outcome current_session_id after_id timeout_ms results
          else
            sleep (Z.min (timeout_ms - elapsed) 25) ≫= λ _,
            wait_batch_loop polls current_session_id tool_config after_id timeout_ms event_limit pending results
      end
  end.

Definition wait_for_session_batch_with_policies (polls : nat) (target_session_ids : list string)
    (current_session_id : string) (tool_config : ToolConfig) (after_id : option Z)
    (timeout_ms event_limit : Z) : DB (option ToolCoreOutcome) :=
  SessionRepository_new env ≫= λ _,
  batch_targets 0 current_session_id tool_config after_id target_session_ids ≫= λ '(results, pending),
  wait_batch_loop polls current_session_id tool_config after_id timeout_ms event_limit pending results.

Definition wait_timeout_ms (payload : Value) : Z :=
  Z.min (Z.max (default 1000%Z (json_get_u64 "timeout_ms" payload)) 1) 30000.

Definition wait_for_session_tool_with_policies (polls : nat) (payload : Value) (current_session_id : string)
    (tool_config : ToolConfig) : DB (option ToolCoreOutcome) :=
  lift (parse_session_target_request payload) ≫= λ request,
  let after_id := json_get "after_id" payload ≫= json_as_i64 in
  let timeout_ms := wait_timeout_ms payload in
  let event_limit := Z.min (st_history_limit (tc_sessions tool_config)) 50 in
  if tg_legacy_single request then
    lift (legacy_single_session_id (tg_session_ids request)) ≫= λ target_session_id,
    wait_single_loop polls target_session_id current_session_id tool_config after_id timeout_ms event_limit
      (Z.max (default 0%Z after_id) 0) []
  else
    wait_for_session_batch_with_policies polls (tg_session_ids request) current_session_id tool_config after_id
      timeout_ms event_limit.

Definition wait_for_session_with_config (polls : nat) (payload : Value) (current_session_id : string)
    (tool_config : ToolConfig) : DB (option ToolCoreOutcome) :=
  if negb (st_enabled (tc_sessions tool_config)) then throw session_tools_disabled
  else wait_for_session_tool_with_policies polls payload current_session_id tool_config.
End session_tools.
