(* ===== verification/AppTools.v ===== *)
(** * AppTools: the dispatcher of application tools
    (app/src/conversation/turn_engine.rs, app/src/conversation/turn_coordinator.rs,
    app/src/tools/mod.rs)

    Which calls need an approval and what becomes of an approved one; which
    application tools a session may run. [sessions_send], the browser companion
    and the hash behind request ids are parameters. *)
From S2P Require Import Prelude RustStr Contracts Json ToolRuntimeConfig ToolCatalog ToolNames ToolConfig Turn.
From S2P Require Import TurnEngine SessionDb SessionRepo Approvals Subagent SessionTools Delegation.

(** ** Names of governance (tools/catalog.rs) *)
#[export] Instance ToolApprovalMode_eq_dec : EqDecision ToolApprovalMode.
Proof. solve_decision. Defined.
#[export] Instance ToolRiskClass_eq_dec : EqDecision ToolRiskClass.
Proof. solve_decision. Defined.

Definition ToolGovernanceScope_as_str (s : ToolGovernanceScope) : string :=
  match s with Scope_Routine => "routine" | Scope_TopologyMutation => "topology_mutation" end.
Definition ToolRiskClass_as_str (r : ToolRiskClass) : string :=
  match r with RiskClass_Low => "low" | RiskClass_Elevated => "elevated" | RiskClass_High => "high" end.
Definition ToolApprovalMode_as_str (m : ToolApprovalMode) : string :=
  match m with Approval_Never => "never" | Approval_PolicyDriven => "policy_driven" end.

Definition governance_profile_for_descriptor (d : ToolDescriptor) : ToolGovernanceProfile :=
  governance_profile_for_tool_name (td_name d).

Definition with_runtime_ready_browser_companion_tools (base_view session_tool_view : ToolView) : ToolView :=
  base_view ∪ filter (λ name, starts_with "browser.companion." name = true) session_tool_view.

(** ** When an approval is needed *)
Definition approval_key (d : ToolDescriptor) : string := "tool:" +:+ td_name d.

(** The decision of the configuration: run, refuse, or ask *)
Inductive ApprovalPolicy := Policy_Run | Policy_Refuse | Policy_Ask.

Definition requires_approval (mode : GovernedToolApprovalMode) (risk : ToolRiskClass) : bool :=
  match mode with
  | GA_Disabled => false
  | GA_MediumBalanced => bool_decide (risk = RiskClass_High)
  | GA_Strict => true
  end.

Definition approval_policy (config : GovernedToolApprovalConfig) (d : ToolDescriptor) : ApprovalPolicy :=
  let governance := governance_profile_for_descriptor d in
  if negb (bool_decide (td_execution_kind d = Exec_App))
     || negb (bool_decide (tg_approval_mode governance = Approval_PolicyDriven)) then Policy_Run
  else if negb (requires_approval (ga_mode config) (tg_risk_class governance)) then Policy_Run
  else if bool_decide (approval_key d ∈ ga_approved_calls config) then Policy_Run
  else if bool_decide (approval_key d ∈ ga_denied_calls config) then Policy_Refuse
  else Policy_Ask.

Definition governed_reason (d : ToolDescriptor) : string :=
  "operator approval required before running `" +:+ td_name d +:+ "`".
Definition governed_rule_id : string := "governed_tool_requires_approval".

Definition approval_request_payload (context : SessionContext) (intent : ToolIntent) (d : ToolDescriptor) : Value :=
  json_object
    [("session_id", json_str (sc_session_id context));
     ("parent_session_id", json_opt json_str (sc_parent_session_id context));
     ("turn_id", json_str (in_turn_id intent)); ("tool_call_id", json_str (in_tool_call_id intent));
     ("tool_name", json_str (td_name d)); ("args_json", in_args_json intent);
     ("source", json_str (in_source intent));
     ("execution_kind",
       json_str (match td_execution_kind d with Exec_Core => "core" | Exec_App => "app" end))].

Definition governance_snapshot (d : ToolDescriptor) : Value :=
  let governance := governance_profile_for_descriptor d in
  json_object
    [("governance_scope", json_str (ToolGovernanceScope_as_str (tg_scope governance)));
     ("risk_class", json_str (ToolRiskClass_as_str (tg_risk_class governance)));
     ("approval_mode", json_str (ToolApprovalMode_as_str (tg_approval_mode governance)));
     ("rule_id", json_str governed_rule_id); ("reason", json_str (governed_reason d))].

Section app_tools.
Context {W : Type} (env : DbEnv W) (json : JsonText) (fuel polls : nat).
Abbreviation DB := (ST (Db * W) string).

(** [format!("{:x}", Sha256::digest(bytes))] *)
Context (sha256_hex : string → string).

Definition nul : string := String (Ascii.ascii_of_nat 0) "".

Definition governed_approval_request_id (context : SessionContext) (tool_name : string) (intent : ToolIntent) :
    string :=
  "apr_" +:+ sha256_hex (sc_session_id context +:+ nul +:+ in_turn_id intent +:+ nul
                         +:+ in_tool_call_id intent +:+ nul +:+ tool_name).

(** [DefaultAppToolDispatcher::lineage_root_session_id] *)
Fixpoint grant_scope_loop (fuel : nat) (visited : gset string) (current_session_id : string) :
    DB (option string) :=
  match fuel with
  | O => mret None
  | S fuel =>
      if bool_decide (current_session_id ∈ visited) then
        throw ("session_lineage_cycle_detected: `" +:+ current_session_id
               +:+ "` reappeared while resolving approval grant scope")
      else
        load_session env current_session_id ≫= λ session,
        match session ≫= sn_parent_session_id with
        | Some parent_session_id => grant_scope_loop fuel ({[current_session_id]} ∪ visited) parent_session_id
        | None => mret (Some current_session_id)
        end
  end.
Definition dispatcher_lineage_root_session_id (context : SessionContext) : DB string :=
  ended (grant_scope_loop fuel ∅ (sc_session_id context)).

(** The configuration and whether the whole application configuration is there
    (for [sessions_send]) *)
Context (tool_config : ToolConfig).

(** [DefaultAppToolDispatcher::maybe_require_approval] *)
Definition maybe_require_approval (context : SessionContext) (intent : ToolIntent) (d : ToolDescriptor) :
    DB (option ApprovalRequirement) :=
  match approval_policy (tc_approval tool_config) d with
  | Policy_Run => mret None
  | Policy_Refuse =>
      throw ("app_tool_denied: governed tool `" +:+ approval_key d +:+ "` is denied by approval policy")
  | Policy_Ask =>
      SessionRepository_new env ≫= λ _,
      ensure_session env
        (mkNewSessionRecord (sc_session_id context)
           (match sc_parent_session_id context with Some _ => Kind_DelegateChild | None => Kind_Root end)
           (sc_parent_session_id context) None State_Ready) ≫= λ _,
      dispatcher_lineage_root_session_id context ≫= λ scope_session_id,
      load_approval_grant env scope_session_id (approval_key d) ≫= λ grant,
      match grant with
      | Some _ => mret None
      | None =>
          ensure_approval_request env json
            (mkNewApprovalRequestRecord (governed_approval_request_id context (td_name d) intent)
               (sc_session_id context) (in_turn_id intent) (in_tool_call_id intent) (td_name d)
               (approval_key d) (approval_request_payload context intent d) (governance_snapshot d))
          ≫= λ stored,
          mret (Some (ApprovalRequirement_governed_tool (td_name d) (approval_key d) (governed_reason d)
                        governed_rule_id (Some (aq_approval_request_id stored))))
      end
  end.

(** ** Running an application tool *)

(** [DefaultAppToolDispatcher::effective_tool_view_for_session] *)
Definition effective_tool_view_for_session (context : SessionContext) : DB ToolView :=
  let with_companion view := with_runtime_ready_browser_companion_tools view (sc_tool_view context) in
  SessionRepository_new env ≫= λ _,
  load_session env (sc_session_id context) ≫= λ session,
  match session with
  | Some session =>
      match sn_parent_session_id session with
      | Some _ =>
          st_map_err
            (λ error, "compute session lineage depth for dispatcher tool view failed: " +:+ error)
            (ended (session_lineage_depth env fuel (sc_session_id context))) ≫= λ depth,
          mret (with_companion
                  (delegate_child_tool_view_for_config_with_delegate tool_config
                     (bool_decide (depth < dt_max_depth (tc_delegate tool_config)))))
      | None => mret (with_companion (runtime_tool_view_for_config tool_config))
      end
  | None =>
      load_session_summary_with_legacy_fallback env (sc_session_id context) ≫= λ summary,
      match summary with
      | Some summary =>
          if bool_decide (ss_kind summary = Kind_DelegateChild)
          then mret (with_companion (delegate_child_tool_view_for_config tool_config))
          else mret (with_companion (runtime_tool_view_for_config tool_config))
      | None => mret (with_companion (runtime_tool_view_for_config tool_config))
      end
  end.

(** The tools of other components *)
Context (window_direct : string → Z → DB (list Value)).
Context (elapsed_ms : W → Z * W) (sleep_ms : Z → Db * W → Db * W).
Context (execute_sessions_send : option (Value → string → ToolConfig → DB ToolCoreOutcome)).
Context (execute_browser_companion : ToolCoreRequest → string → ToolConfig → DB ToolCoreOutcome).

(** [execute_app_tool_with_visibility_checked_config] *)
Definition execute_app_tool_with_visibility_checked_config (request : ToolCoreRequest)
    (current_session_id : string) (config : ToolConfig) : DB ToolCoreOutcome :=
  let canonical_name := canonical_tool_name (tcr_tool_name request) in
  let request := mkToolCoreRequest canonical_name (tcr_payload request) in
  match_arms canonical_name
    [(["approval_requests_list"; "approval_request_status"; "approval_request_resolve"],
        execute_approval_tool_with_policies env json fuel request current_session_id config);
     (["sessions_list"; "sessions_history"; "session_status"; "session_events"; "session_archive";
       "session_cancel"; "session_recover"],
        execute_session_tool_with_policies env json fuel window_direct request current_session_id config);
     (["browser.companion.click"; "browser.companion.type"],
        execute_browser_companion request current_session_id config)]
    (throw ("app_tool_not_found: unknown app tool `" +:+ canonical_name +:+ "`")).

(** The visibility check of [execute_app_tool] *)
Definition app_tool_visible (context : SessionContext) (effective_view : ToolView) (canonical_name : string) :
    result string unit :=
  match catalog_descriptor canonical_name with
  | Some d =>
      if bool_decide (td_execution_kind d = Exec_App)
         && (negb (view_contains (sc_tool_view context) (td_name d))
             || negb (view_contains effective_view (td_name d)))
      then Err ("tool_not_visible: " +:+ td_name d) else Ok ()
  | None => Ok ()
  end.

(** [DefaultAppToolDispatcher::execute_app_tool] *)
Definition default_execute_app_tool (context : SessionContext) (request : ToolCoreRequest) : DB ToolCoreOutcome :=
  let canonical_name := canonical_tool_name (tcr_tool_name request) in
  effective_tool_view_for_session context ≫= λ effective_view,
  lift (app_tool_visible context effective_view canonical_name) ≫= λ _,
  let config := effective_tool_config_for_session tool_config context in
  if bool_decide (canonical_name = "session_wait") then
    ended (wait_for_session_with_config env json fuel elapsed_ms sleep_ms polls (tcr_payload request)
             (sc_session_id context) config)
  else if bool_decide (canonical_name = "sessions_send") then
    lift (ok_or execute_sessions_send "sessions_send_not_configured") ≫= λ send,
    send (tcr_payload request) (sc_session_id context) config
  else execute_app_tool_with_visibility_checked_config request (sc_session_id context) config.

(** ** Resolving an approval (turn_coordinator.rs) *)

(** The delegate tools and the runtime's [session_context], from [Delegation] *)
Context (execute_delegate execute_delegate_async : SessionContext → Value → DB ToolCoreOutcome).
Context (runtime_session_context : string → DB SessionContext).

Definition replay_request (request : ApprovalRequestRecord) : result string ToolCoreRequest :=
  let payload := aq_request_payload_json request in
  execution_kind ← ok_or (json_get_str "execution_kind" payload)
                     "approval_request_invalid_payload: missing execution_kind";
  if negb (bool_decide (execution_kind = "app")) then
    Err ("approval_request_invalid_execution_kind: expected `app`, got `" +:+ execution_kind +:+ "`")
  else
    tool_name ← ok_or (payload_text payload "tool_name") "approval_request_invalid_payload: missing tool_name";
    args ← ok_or (json_get "args_json" payload) "approval_request_invalid_payload: missing args_json";
    Ok (mkToolCoreRequest tool_name args).

Definition replay_approved_request (request : ApprovalRequestRecord) : DB ToolCoreOutcome :=
  lift (replay_request request) ≫= λ replay,
  st_map_err (λ error, "load approval request session context failed: " +:+ error)
    (runtime_session_context (aq_session_id request)) ≫= λ context,
  let name := canonical_tool_name (tcr_tool_name replay) in
  if bool_decide (name = "delegate") then execute_delegate context (tcr_payload replay)
  else if bool_decide (name = "delegate_async") then execute_delegate_async context (tcr_payload replay)
  else default_execute_app_tool context replay.

Definition executing_transition : TransitionApprovalRequestIfCurrentRequest :=
  mkTransitionApprovalRequest Status_Approved Status_Executing None None None None.
Definition executed_transition (now : Z) (error : option string) : TransitionApprovalRequestIfCurrentRequest :=
  mkTransitionApprovalRequest Status_Executing Status_Executed None None (Some now) error.

Definition execute_approved_request (approval_request_id : string) : DB ApprovalResolutionOutcome :=
  transition_approval_request_if_current env json approval_request_id executing_transition ≫= λ executing,
  lift (ok_or executing ("approval_request_not_approved: `" +:+ approval_request_id
                         +:+ "` is no longer approved")) ≫= λ executing,
  st_match (replay_approved_request executing)
    (λ resumed_tool_output,
       unix_ts_now env ≫= λ now,
       transition_approval_request_if_current env json approval_request_id (executed_transition now None)
       ≫= λ executed,
       lift (ok_or executed ("approval_request_not_executing: `" +:+ approval_request_id
                             +:+ "` is no longer executing")) ≫= λ executed,
       mret (mkApprovalResolutionOutcome executed (Some resumed_tool_output)))
    (λ error,
       unix_ts_now env ≫= λ now,
       transition_approval_request_if_current env json approval_request_id
         (executed_transition now (Some error)) ≫= λ _, throw error).

Definition decision_transition (decision : ApprovalDecision) (current_session_id : string) :
    TransitionApprovalRequestIfCurrentRequest :=
  mkTransitionApprovalRequest Status_Pending
    (match decision with Decision_Deny => Status_Denied | _ => Status_Approved end) (Some decision)
    (Some current_session_id) None None.

(** The transition from [Pending], or the error that says what the request is *)
Definition decide_request (request : ApprovalResolutionRequest) : DB ApprovalRequestRecord :=
  transition_approval_request_if_current env json (rq_approval_request_id request)
    (decision_transition (rq_decision request) (rq_current_session_id request)) ≫= λ decided,
  match decided with
  | Some decided => mret decided
  | None =>
      load_approval_request env json (rq_approval_request_id request) ≫= λ latest,
      lift (ok_or latest (request_not_found (rq_approval_request_id request))) ≫= λ latest,
      throw ("approval_request_not_pending: `" +:+ rq_approval_request_id request +:+ "` is already "
             +:+ ApprovalRequestStatus_as_str (aq_status latest))
  end.

(** [CoordinatorApprovalResolutionRuntime::resolve_approval_request] *)
Definition resolve_approval_request : ApprovalResolutionRuntime W := λ request,
  SessionRepository_new env ≫= λ _,
  load_approval_request env json (rq_approval_request_id request) ≫= λ approval_request,
  lift (ok_or approval_request (request_not_found (rq_approval_request_id request))) ≫= λ approval_request,
  ensure_visible env fuel (rq_current_session_id request) (aq_session_id approval_request)
    (rq_visibility request) ≫= λ _,
  decide_request request ≫= λ decided,
  match rq_decision request with
  | Decision_Deny => mret (mkApprovalResolutionOutcome decided None)
  | Decision_ApproveOnce => execute_approved_request (rq_approval_request_id request)
  | Decision_ApproveAlways =>
      ended (lineage_root_session_id env fuel (aq_session_id decided)) ≫= λ scope,
      lift (ok_or scope ("approval_request_session_not_found: `" +:+ aq_session_id decided +:+ "`")) ≫= λ scope,
      upsert_approval_grant env
        (mkNewApprovalGrantRecord scope (aq_approval_key decided) (Some (rq_current_session_id request))) ≫= λ _,
      execute_approved_request (rq_approval_request_id request)
  end.

(** ** The coordinator's dispatcher *)
Definition coordinator_execute_app_tool (context : SessionContext) (request : ToolCoreRequest) :
    DB ToolCoreOutcome :=
  let name := canonical_tool_name (tcr_tool_name request) in
  if bool_decide (name = "approval_request_resolve") then
    execute_approval_tool_with_runtime_support env json fuel request (sc_session_id context)
      (effective_tool_config_for_session tool_config context) (Some resolve_approval_request)
  else if bool_decide (name = "delegate") then execute_delegate context (tcr_payload request)
  else if bool_decide (name = "delegate_async") then execute_delegate_async context (tcr_payload request)
  else default_execute_app_tool context request.

Definition CoordinatorAppToolDispatcher : AppToolDispatcher (Db * W) :=
  mkAppToolDispatcher maybe_require_approval coordinator_execute_app_tool.
End app_tools.
