(* ===== verification/SessionLaws.v ===== *)
(** * SessionLaws: what never happens to the session tables

    Whatever statement fails, and whatever other connections do in between as
    long as they obey the same laws, the operations of the repository that the
    program uses keep these laws of the tables: sessions keep their identity and
    only move forward through their states, an ended session keeps its outcome,
    events are only added, approval requests keep what was asked and only move
    forward through their statuses, grants are not withdrawn. *)
From S2P Require Import Prelude RustStr Contracts Json SessionDb SessionRepo.

(** ** Computations that keep a relation *)
Section evolves.
Context {W : Type} (env : DbEnv W) (R : Db → Db → Prop) `{!PreOrder R}.
Abbreviation DB := (ST (Db * W) string).

Definition evolves {E A} (m : ST (Db * W) E A) : Prop := ∀ s, R s.1 (m s).2.1.
Definition sql_evolves {A} (q : Sql A) : Prop := ∀ db a db', q db = Ok (a, db') → R db db'.

(** What the environment does keeps the relation. *)
Definition env_evolves : Prop := ∀ s, R s.1 (env_others env s).1.

Lemma evolves_ret {E A} (a : A) : evolves (E := E) (mret a).
Proof. intros s. done. Qed.
Lemma evolves_throw {E A} (e : E) : evolves (A := A) (throw e).
Proof. intros s. done. Qed.
Lemma evolves_lift {E A} (r : result E A) : evolves (lift r).
Proof. intros s. done. Qed.

Lemma evolves_bind {E A B} (m : ST (Db * W) E A) (f : A → ST (Db * W) E B) :
  evolves m → (∀ a, evolves (f a)) → evolves (m ≫= f).
Proof.
  intros Hm Hf s. rewrite st_bind_run. specialize (Hm s).
  destruct (m s) as [[a|e] s']; [|done]. by trans s'.1; [|apply Hf].
Qed.

(** The rest need only evolve for the values that can come. *)
Lemma evolves_bind_post {E A B} (m : ST (Db * W) E A) (f : A → ST (Db * W) E B) :
  evolves m → (∀ s a s', m s = (Ok a, s') → evolves (f a)) → evolves (m ≫= f).
Proof.
  intros Hm Hf s. rewrite st_bind_run. specialize (Hm s).
  destruct (m s) as [[a|e] s'] eqn:E'; [|done]. trans s'.1; [done|]. by eapply Hf.
Qed.

Lemma evolves_fmap {E A B} (g : A → B) (m : ST (Db * W) E A) : evolves m → evolves (g <$> m).
Proof. intros Hm s. specialize (Hm s). unfold fmap, st_fmap. by destruct (m s) as [[]]. Qed.

Lemma evolves_match {E E' A B} (m : ST (Db * W) E A) (f : A → ST (Db * W) E' B) (g : E → ST (Db * W) E' B) :
  evolves m → (∀ a, evolves (f a)) → (∀ e, evolves (g e)) → evolves (st_match m f g).
Proof.
  intros Hm Hf Hg s. specialize (Hm s). unfold st_match.
  destruct (m s) as [[a|e] s']; cbn in *; trans s'.1; try done; [apply Hf|apply Hg].
Qed.

Lemma evolves_map_err {E E' A} (g : E → E') (m : ST (Db * W) E A) : evolves m → evolves (st_map_err g m).
Proof. intros Hm s. specialize (Hm s). unfold st_map_err. by destruct (m s) as [[]]. Qed.

Lemma sql_select_evolves {A} (f : Db → A) : sql_evolves (sql_select f).
Proof. by intros db a db' [= _ <-]. Qed.

Lemma evolves_run_sql {A} ctx (q : Sql A) : sql_evolves q → evolves (run_sql env ctx q).
Proof.
  intros Hq [db w]. unfold run_sql. destruct (env_fault env w) as [[e|] w']; [done|].
  destruct (q db) as [[a db']|e] eqn:E; [by eapply Hq|done].
Qed.

Lemma evolves_unix_ts_now : evolves (unix_ts_now env).
Proof. intros [db w]. unfold unix_ts_now. by destruct (env_clock env w). Qed.

Hypothesis others : env_evolves.

Lemma evolves_statement {A} ctx (q : Sql A) : sql_evolves q → evolves (statement env ctx q).
Proof. intros Hq. apply evolves_bind; [intros s; apply others|intros _; by apply evolves_run_sql]. Qed.

Lemma evolves_open : evolves (open_connection env).
Proof. apply evolves_statement, sql_select_evolves. Qed.

(** A transaction evolves when the states in which its body asks to commit do. *)
Lemma evolves_transaction {A} b c (body : DB (A * bool)) :
  (∀ s a s', body s = (Ok (a, true), s') → R s.1 s'.1) → evolves (transaction env b c body).
Proof.
  intros Hbody s. unfold transaction. pose proof (others s) as H0.
  destruct (env_others env s) as [db w]. cbn in H0.
  unfold run_sql at 1. destruct (env_fault env w) as [[e|] w1]; [done|]. cbn.
  destruct (body (db, w1)) as [[[a []]|e] [db' w']] eqn:Eb; try done.
  specialize (Hbody _ _ _ Eb). cbn in Hbody. unfold run_sql.
  destruct (env_fault env w') as [[e|] w2]; [done|]. cbn. by trans db.
Qed.

Lemma evolves_tx_body {A} b c (body : DB (A * bool)) : evolves body → evolves (transaction env b c body).
Proof. intros Hb. apply evolves_transaction. intros s a s' E. specialize (Hb s). by rewrite E in Hb. Qed.
End evolves.

Create HintDb evolves.
#[export] Hint Resolve evolves_ret evolves_throw evolves_lift evolves_unix_ts_now evolves_open sql_select_evolves : evolves.

(** ** The laws *)
Inductive state_edge : string → string → Prop :=
| ready_running : state_edge "ready" "running"
| ready_failed : state_edge "ready" "failed"
| running_completed : state_edge "running" "completed"
| running_failed : state_edge "running" "failed"
| running_timed_out : state_edge "running" "timed_out".

Inductive status_edge : string → string → Prop :=
| pending_approved : status_edge "pending" "approved"
| pending_denied : status_edge "pending" "denied"
| approved_executing : status_edge "approved" "executing"
| executing_executed : status_edge "executing" "executed".

(** A session row keeps who it is. *)
Record session_moves (r r' : SessionRow) : Prop := {
  sm_kind : sr_kind r' = sr_kind r;
  sm_parent : sr_parent_session_id r' = sr_parent_session_id r;
  sm_label : sr_label r' = sr_label r;
  sm_created : sr_created_at r' = sr_created_at r;
  sm_state : rtc state_edge (sr_state r) (sr_state r') }.

(** A request row keeps what was asked; a decision that was made stays. *)
Record request_moves (r r' : RequestRow) : Prop := {
  rm_session : rr_session_id r' = rr_session_id r;
  rm_call : rr_tool_call_id r' = rr_tool_call_id r;
  rm_tool : rr_tool_name r' = rr_tool_name r;
  rm_key : rr_approval_key r' = rr_approval_key r;
  rm_payload : rr_request_payload_json r' = rr_request_payload_json r;
  rm_snapshot : rr_governance_snapshot_json r' = rr_governance_snapshot_json r;
  rm_status : rtc status_edge (rr_status r) (rr_status r') }.

(** What decoding a row relies on: ids are stored trimmed, and kinds, states,
    statuses and decisions by their names. *)
Definition trimmed (id : string) : Prop := trim id = id ∧ is_empty id = false.
Record session_ok (id : string) (r : SessionRow) : Prop := {
  so_id : sr_session_id r = id;
  so_trimmed : trimmed id;
  so_parent : ∀ p, sr_parent_session_id r = Some p → trimmed p;
  so_kind : ∃ k, sr_kind r = SessionKind_as_str k;
  so_state : ∃ s, sr_state r = SessionState_as_str s }.
Record request_ok (id : string) (r : RequestRow) : Prop := {
  ro_id : rr_approval_request_id r = id;
  ro_status : ∃ s, rr_status r = ApprovalRequestStatus_as_str s;
  ro_decision : ∀ d, rr_decision r = Some d → ∃ x, d = ApprovalDecision_as_str x }.
Record Wf (db : Db) : Prop := {
  wf_sessions : map_Forall session_ok (db_sessions db);
  wf_requests : map_Forall request_ok (db_requests db) }.

Definition live (state : string) : Prop := state = "ready" ∨ state = "running".

Record Lawful (db db' : Db) : Prop := {
  law_sessions : ∀ id r, db_sessions db !! id = Some r →
    ∃ r', db_sessions db' !! id = Some r' ∧ session_moves r r';
  law_outcomes : ∀ id r, db_sessions db !! id = Some r → ¬ live (sr_state r) →
    db_outcomes db' !! id = db_outcomes db !! id;
  law_events : db_events db `prefix_of` db_events db';
  law_requests : ∀ id r, db_requests db !! id = Some r →
    ∃ r', db_requests db' !! id = Some r' ∧ request_moves r r';
  law_grants : dom (db_grants db) ⊆ dom (db_grants db');
  law_wf : Wf db → Wf db' }.

#[export] Instance session_moves_preorder : PreOrder session_moves.
Proof.
  split.
  - intros r. by split.
  - intros r r' r'' [] []. split; try congruence. by etrans.
Qed.
#[export] Instance request_moves_preorder : PreOrder request_moves.
Proof.
  split.
  - intros r. by split.
  - intros r r' r'' [] []. split; try congruence. by etrans.
Qed.

(** A state that is not live has no way on. *)
Lemma state_ended s s' : ¬ live s → rtc state_edge s s' → s' = s.
Proof.
  intros Hl Hr. inversion Hr as [|? ? ? He]; [done|]. exfalso. apply Hl. unfold live. inversion He; auto.
Qed.

#[export] Instance Lawful_preorder : PreOrder Lawful.
Proof.
  split.
  - intros db. split; try done; intros id r H; exists r; by split.
  - intros db1 db2 db3 L1 L2. split.
    + intros id r H. destruct (law_sessions _ _ L1 _ _ H) as (r' & H' & M).
      destruct (law_sessions _ _ L2 _ _ H') as (r'' & H'' & M'). exists r''. split; [done|by etrans].
    + intros id r H Hl. destruct (law_sessions _ _ L1 _ _ H) as (r' & H' & M).
      rewrite (law_outcomes _ _ L2 _ _ H'), (law_outcomes _ _ L1 _ _ H Hl); [done|].
      by rewrite (state_ended _ _ Hl (sm_state _ _ M)).
    + by etrans; [apply (law_events _ _ L1)|apply (law_events _ _ L2)].
    + intros id r H. destruct (law_requests _ _ L1 _ _ H) as (r' & H' & M).
      destruct (law_requests _ _ L2 _ _ H') as (r'' & H'' & M'). exists r''. split; [done|by etrans].
    + etrans; [apply (law_grants _ _ L1)|apply (law_grants _ _ L2)].
    + intros ?. by apply (law_wf _ _ L2), (law_wf _ _ L1).
Qed.

(** ** Rows as they are written *)
Lemma normalize_required_trimmed v f id : normalize_required_text v f = Ok id → trimmed id.
Proof.
  unfold normalize_required_text. destruct (is_empty (trim v)) eqn:E; [done|]. intros [= <-].
  split; [apply trim_idemp|done].
Qed.
Lemma normalize_optional_trimmed v id : normalize_optional_text v = Some id → trimmed id.
Proof.
  unfold normalize_optional_text. destruct v as [v|]; [|done]. cbn. destruct (is_empty (trim v)) eqn:E; [done|].
  intros [= <-]. split; [apply trim_idemp|done].
Qed.

Lemma new_session_row_ok id kind parent label state ts : trimmed id →
  session_ok id (new_session_row id kind (normalize_optional_text parent) label state ts).
Proof. intros H. split; cbn; eauto using normalize_optional_trimmed. Qed.

Lemma evolves_required {W A} (R : Db → Db → Prop) `{!PreOrder R} v f (k : string → ST (Db * W) string A) :
  (∀ id, trimmed id → evolves R (k id)) → evolves R (lift (normalize_required_text v f) ≫= k).
Proof.
  intros Hk. apply evolves_bind_post; [done|by apply evolves_lift|].
  intros s id s' [= H _]. by apply Hk, (normalize_required_trimmed _ _ _ H).
Qed.

(** Walks through a computation, leaving what the hints do not close. *)
Ltac evolve_step :=
  match goal with
  | |- evolves _ (lift (normalize_required_text _ _) ≫= _) => apply evolves_required; [apply _|]
  | |- evolves _ (_ ≫= _) => apply evolves_bind; [apply _|..]
  | |- evolves _ (mbind _ _) => apply evolves_bind; [apply _|..]
  | |- evolves _ (st_match _ _ _) => apply evolves_match; [apply _|..]
  | |- evolves _ (_ <$> _) => apply evolves_fmap
  | |- evolves _ (st_map_err _ _) => apply evolves_map_err
  | |- evolves _ (lift _) => apply evolves_lift; apply _
  | |- evolves _ (mret _) => apply evolves_ret; apply _
  | |- evolves _ (throw _) => apply evolves_throw; apply _
  | |- evolves _ (unix_ts_now _) => apply evolves_unix_ts_now; apply _
  | |- evolves _ (open_connection _) => apply evolves_open; [apply _|assumption]
  | |- evolves _ (statement _ _ _) => apply evolves_statement; [apply _|assumption|]
  | |- evolves _ (run_sql _ _ _) => apply evolves_run_sql; [apply _|]
  | |- evolves _ (transaction _ _ _ _) => apply evolves_tx_body; [apply _|assumption|]
  | |- sql_evolves _ (sql_select _) => apply sql_select_evolves; apply _
  | |- evolves _ (match ?x with _ => _ end) => destruct x
  | |- ∀ _, _ => intros ?
  end.
Ltac evolve := repeat first [progress (eauto with evolves) | evolve_step].

(** ** Statements that obey the laws *)
Lemma lawful_sessions db m :
  (∀ id r, db_sessions db !! id = Some r → ∃ r', m !! id = Some r' ∧ session_moves r r') →
  (map_Forall session_ok (db_sessions db) → map_Forall session_ok m) →
  Lawful db (set_sessions m db).
Proof.
  intros H Hw. split; cbn; try done; [|intros []; by split; auto].
  intros id r Hr. exists r. by split.
Qed.

Lemma insert_session_lawful row : session_ok (sr_session_id row) row →
  sql_evolves Lawful (sql_insert_session row).
Proof.
  intros Hok db a db' H. unfold sql_insert_session in H.
  destruct (db_sessions db !! sr_session_id row) eqn:E; [done|]. injection H as <- <-.
  apply lawful_sessions; [|by intros; apply map_Forall_insert_2].
  intros id r Hr. exists r. split; [|done]. rewrite lookup_insert_ne; [done|].
  intros <-. congruence.
Qed.

Lemma update_session_lawful id cond f :
  (∀ r, cond r = true → session_moves r (f r) ∧ ∀ id, session_ok id r → session_ok id (f r)) →
  sql_evolves Lawful (sql_update_session id cond f).
Proof.
  intros Hf db a db' H. unfold sql_update_session in H.
  destruct (db_sessions db !! id) as [row|] eqn:E; [|by injection H as <- <-].
  destruct (cond row) eqn:Ec; [|by injection H as <- <-]. injection H as <- <-.
  destruct (Hf _ Ec) as [Hm Hok]. apply lawful_sessions.
  - intros id' r Hr. destruct (decide (id = id')) as [<-|Hne].
    + rewrite lookup_insert_eq. rewrite E in Hr. injection Hr as <-. eauto.
    + rewrite lookup_insert_ne by done. exists r. by split.
  - intros Hw. apply map_Forall_insert_2; [|done]. apply Hok, (Hw _ _ E).
Qed.

Lemma insert_event_lawful s k a p t : sql_evolves Lawful (sql_insert_event s k a p t).
Proof.
  intros db x db' [= <- <-]. split; cbn; try done; try (intros id r H; exists r; by split).
  - by eexists.
  - intros []; by split.
Qed.

Lemma lawful_requests db m :
  (∀ id r, db_requests db !! id = Some r → ∃ r', m !! id = Some r' ∧ request_moves r r') →
  (map_Forall request_ok (db_requests db) → map_Forall request_ok m) →
  Lawful db (set_requests m db).
Proof.
  intros H Hw. split; cbn; try done; [|intros []; by split; auto].
  intros id r Hr. exists r. by split.
Qed.

Lemma insert_request_lawful row : request_ok (rr_approval_request_id row) row →
  sql_evolves Lawful (sql_insert_request row).
Proof.
  intros Hok db a db' H. unfold sql_insert_request in H.
  destruct (db_requests db !! rr_approval_request_id row) eqn:E; [done|]. injection H as <- <-.
  apply lawful_requests; [|by intros; apply map_Forall_insert_2].
  intros id r Hr. exists r. split; [|done]. rewrite lookup_insert_ne; [done|]. intros <-. congruence.
Qed.

Lemma update_request_lawful id expected f :
  (∀ r, rr_status r = expected → request_moves r (f r) ∧ ∀ id, request_ok id r → request_ok id (f r)) →
  sql_evolves Lawful (sql_update_request id expected f).
Proof.
  intros Hf db a db' H. unfold sql_update_request in H.
  destruct (db_requests db !! id) as [row|] eqn:E; [|by injection H as <- <-].
  case_bool_decide as Ec; [|by injection H as <- <-]. injection H as <- <-.
  destruct (Hf _ Ec) as [Hm Hok]. apply lawful_requests.
  - intros id' r Hr. destruct (decide (id = id')) as [<-|Hne].
    + rewrite lookup_insert_eq. rewrite E in Hr. injection Hr as <-. eauto.
    + rewrite lookup_insert_ne by done. exists r. by split.
  - intros Hw. apply map_Forall_insert_2; [|done]. apply Hok, (Hw _ _ E).
Qed.

Lemma upsert_grant_lawful row : sql_evolves Lawful (sql_upsert_grant row).
Proof.
  intros db a db' [= <- <-]. split; cbn; try done; try (intros id r H; exists r; by split).
  - rewrite dom_insert. set_solver.
  - intros []; by split.
Qed.

#[export] Hint Resolve insert_event_lawful upsert_grant_lawful : evolves.

(** A session set to another state *)
Lemma set_state_moves state ts err r : rtc state_edge (sr_state r) state →
  session_moves r (set_session_state state ts err r).
Proof. intros H. by split. Qed.
Lemma set_state_ok state ts err id r : session_ok id r →
  session_ok id (set_session_state (SessionState_as_str state) ts err r).
Proof. intros []. split; cbn; eauto. Qed.

Lemma transition_row_ok request ts id r : request_ok id r → request_ok id (transition_request_row request ts r).
Proof.
  intros [? ? Hd]. split; cbn; eauto. intros d. destruct (ta_decision request); cbn; [|apply Hd].
  intros [= <-]. eauto.
Qed.

Lemma transition_row_moves request ts r :
  rr_status r = ApprovalRequestStatus_as_str (ta_expected_status request) →
  rtc status_edge (ApprovalRequestStatus_as_str (ta_expected_status request))
    (ApprovalRequestStatus_as_str (ta_next_status request)) →
  request_moves r (transition_request_row request ts r).
Proof. intros Hs H. split; try done. cbn. by rewrite Hs. Qed.

(** ** Operations that obey the laws *)
Section operations.
Context {W : Type} (env : DbEnv W) (json : JsonText).
Hypothesis others : env_evolves env Lawful.
Abbreviation DB := (ST (Db * W) string).
Abbreviation lawful := (evolves Lawful).

Lemma new_lawful : lawful (SessionRepository_new env).
Proof. unfold SessionRepository_new. evolve. Qed.
Lemma load_session_lawful id : lawful (load_session env id).
Proof. unfold load_session. evolve. Qed.
Hint Resolve new_lawful load_session_lawful : evolves.
Lemma reload_session_lawful id m : lawful (reload_session env id m).
Proof. unfold reload_session. evolve. Qed.
Hint Resolve reload_session_lawful : evolves.
Lemma insert_new_lawful id kind parent label state ts : trimmed id →
  sql_evolves Lawful
    (sql_insert_session (new_session_row id kind (normalize_optional_text parent) label state ts)).
Proof. intros H. apply insert_session_lawful. by apply new_session_row_ok. Qed.
Hint Resolve insert_new_lawful : evolves.
Lemma create_session_lawful r : lawful (create_session env r).
Proof. unfold create_session. evolve. Qed.
Hint Resolve create_session_lawful : evolves.
Lemma ensure_session_lawful r : lawful (ensure_session env r).
Proof. unfold ensure_session. evolve. Qed.
Lemma create_in_tx_lawful r : lawful (create_session_with_event_in_tx env json r).
Proof. unfold create_session_with_event_in_tx. evolve. Qed.
Hint Resolve create_in_tx_lawful : evolves.
Lemma create_with_event_lawful r : lawful (create_session_with_event env json r).
Proof. unfold create_session_with_event. evolve. Qed.
Lemma count_in_tx_lawful p : lawful (count_active_direct_children_with_conn (in_tx env) p).
Proof. unfold count_active_direct_children_with_conn, in_tx. evolve. Qed.
Hint Resolve count_in_tx_lawful : evolves.
Lemma create_child_lawful {T} p n (b : nat → result string (CreateSessionWithEventRequest * T)) :
  lawful (create_delegate_child_session_with_event_if_within_limit env json p n b).
Proof. unfold create_delegate_child_session_with_event_if_within_limit. evolve. Qed.

(** Reading, on its own or in a transaction *)
Definition conn_lawful (exec : @Conn W) : Prop := ∀ A ctx (q : Sql A), sql_evolves Lawful q → lawful (exec A ctx q).
Lemma autocommit_lawful : conn_lawful (autocommit env).
Proof. intros A ctx q Hq. unfold autocommit. evolve. Qed.
Lemma in_tx_lawful : conn_lawful (in_tx env).
Proof. intros A ctx q Hq. unfold in_tx. evolve. Qed.
Hint Resolve autocommit_lawful in_tx_lawful : evolves.

Section reading.
Context (exec : @Conn W) (exec_lawful : conn_lawful exec).

Lemma exec_select_lawful {A} ctx (f : Db → A) : lawful (exec A ctx (sql_select f)).
Proof. apply exec_lawful, sql_select_evolves, _. Qed.
Hint Resolve exec_select_lawful : evolves.

Lemma summary_with_conn_lawful id : lawful (load_session_summary_with_conn exec id).
Proof. unfold load_session_summary_with_conn. evolve. Qed.
Lemma infer_with_conn_lawful id : lawful (infer_legacy_session_summary_with_conn exec id).
Proof. unfold infer_legacy_session_summary_with_conn. evolve. Qed.
Hint Resolve summary_with_conn_lawful infer_with_conn_lawful : evolves.
Lemma fallback_with_conn_lawful id : lawful (load_session_summary_with_legacy_fallback_with_conn exec id).
Proof. unfold load_session_summary_with_legacy_fallback_with_conn. evolve. Qed.
Lemma recent_with_conn_lawful id n : lawful (list_recent_events_with_conn json exec id n).
Proof. unfold list_recent_events_with_conn. evolve. Qed.
Lemma after_with_conn_lawful id a n : lawful (list_events_after_with_conn json exec id a n).
Proof. unfold list_events_after_with_conn. evolve. Qed.
Hint Resolve fallback_with_conn_lawful recent_with_conn_lawful after_with_conn_lawful : evolves.
Lemma lifecycle_with_conn_lawful id : lawful (list_delegate_lifecycle_events_with_conn json exec id).
Proof. unfold list_delegate_lifecycle_events_with_conn. evolve. Qed.
Lemma outcome_with_conn_lawful id : lawful (load_terminal_outcome_with_conn json exec id).
Proof. unfold load_terminal_outcome_with_conn. evolve. Qed.
Lemma drain_pages_lawful fuel id a n l : lawful (drain_pages json fuel exec id a n l).
Proof. revert a l. induction fuel as [|fuel IH]; intros a l; cbn [drain_pages]; evolve. Qed.
Hint Resolve outcome_with_conn_lawful drain_pages_lawful : evolves.
Lemma drain_with_conn_lawful id a n : lawful (drain_events_after_with_conn json exec id a n).
Proof.
  intros s. unfold drain_events_after_with_conn. destruct (_ =? _)%Z; [done|].
  apply (evolves_fmap Lawful), drain_pages_lawful.
Qed.
Hint Resolve drain_with_conn_lawful : evolves.
Lemma observation_with_conn_lawful id n a t : lawful (load_session_observation_with_conn json exec id n a t).
Proof. unfold load_session_observation_with_conn. evolve. Qed.
End reading.
Hint Resolve summary_with_conn_lawful infer_with_conn_lawful fallback_with_conn_lawful recent_with_conn_lawful
  after_with_conn_lawful lifecycle_with_conn_lawful observation_with_conn_lawful : evolves.

Lemma load_summary_lawful id : lawful (load_session_summary env id).
Proof. unfold load_session_summary. evolve. Qed.
Lemma load_fallback_lawful id : lawful (load_session_summary_with_legacy_fallback env id).
Proof. unfold load_session_summary_with_legacy_fallback. evolve. Qed.
Lemma infer_legacy_lawful id : lawful (infer_legacy_session_summary env id).
Proof. unfold infer_legacy_session_summary. evolve. Qed.
Lemma load_observation_lawful id n a t : lawful (load_session_observation env json id n a t).
Proof. unfold load_session_observation. evolve. Qed.
Lemma list_recent_lawful id n : lawful (list_recent_events env json id n).
Proof. unfold list_recent_events. evolve. Qed.
Lemma list_after_lawful id a n : lawful (list_events_after env json id a n).
Proof. unfold list_events_after. evolve. Qed.
Lemma list_lifecycle_lawful id : lawful (list_delegate_lifecycle_events env json id).
Proof. unfold list_delegate_lifecycle_events. evolve. Qed.
Hint Resolve infer_legacy_lawful : evolves.
Lemma list_visible_lawful id : lawful (list_visible_sessions env id).
Proof. unfold list_visible_sessions. evolve. Qed.
Lemma visible_loop_lawful fuel c seen id : lawful (visible_loop env fuel c seen id).
Proof. revert seen id. induction fuel as [|fuel IH]; intros seen id; cbn [visible_loop]; evolve. Qed.
Hint Resolve visible_loop_lawful : evolves.
Lemma is_visible_lawful fuel c t : lawful (is_session_visible env fuel c t).
Proof. unfold is_session_visible. evolve. Qed.
Lemma depth_loop_lawful fuel seen d id : lawful (depth_loop env fuel seen d id).
Proof. revert seen d id. induction fuel as [|fuel IH]; intros seen d id; cbn [depth_loop]; evolve. Qed.
Hint Resolve depth_loop_lawful : evolves.
Lemma depth_lawful fuel id : lawful (session_lineage_depth env fuel id).
Proof. unfold session_lineage_depth. evolve. Qed.
Lemma root_loop_lawful fuel seen id : lawful (root_loop env fuel seen id).
Proof. revert seen id. induction fuel as [|fuel IH]; intros seen id; cbn [root_loop]; evolve. Qed.
Hint Resolve root_loop_lawful : evolves.
Lemma root_lawful fuel id : lawful (lineage_root_session_id env fuel id).
Proof. unfold lineage_root_session_id. evolve. Qed.

(** Changing *)
Lemma guarded_update_lawful id expected next ts err :
  rtc state_edge (SessionState_as_str expected) (SessionState_as_str next) →
  sql_evolves Lawful (sql_update_session id (in_state expected)
                        (set_session_state (SessionState_as_str next) ts err)).
Proof.
  intros H. apply update_session_lawful. intros r Hr. split; [|by intros; apply set_state_ok].
  apply set_state_moves. unfold in_state in Hr. apply bool_decide_eq_true in Hr. by rewrite Hr.
Qed.

Lemma update_if_current_lawful id expected next err :
  rtc state_edge (SessionState_as_str expected) (SessionState_as_str next) →
  lawful (update_session_state_if_current env id expected next err).
Proof. intros H. pose proof guarded_update_lawful. unfold update_session_state_if_current. evolve. Qed.

Lemma transition_lawful id request :
  rtc state_edge (SessionState_as_str (ts_expected_state request)) (SessionState_as_str (ts_next_state request)) →
  lawful (transition_session_with_event_if_current env json id request).
Proof. intros H. pose proof guarded_update_lawful. unfold transition_session_with_event_if_current. evolve. Qed.

Lemma append_event_lawful e : lawful (append_event env json e).
Proof. unfold append_event. evolve. Qed.

(** The transaction that ends a session writes state, event and outcome, of a
    session that was live. *)
Lemma finalized_lawful db id row state ts err e outcome :
  db_sessions db !! id = Some row → live (sr_state row) → or_session_id outcome = id →
  rtc state_edge (sr_state row) (SessionState_as_str state) →
  Lawful db (mkDb (<[id := set_session_state (SessionState_as_str state) ts err row]> (db_sessions db)) (db_events db ++ [e])
               (er_id e) (<[id := outcome]> (db_outcomes db)) (db_requests db) (db_grants db) (db_turns db)).
Proof.
  intros Hr Hl <- He. split; cbn; try done.
  - intros id r Hid. destruct (decide (id = or_session_id outcome)) as [->|Hne].
    + rewrite lookup_insert_eq. rewrite Hr in Hid. injection Hid as <-. eauto using set_state_moves.
    + rewrite lookup_insert_ne by done. exists r. by split.
  - intros id r Hid Hnl. rewrite lookup_insert_ne; [done|]. intros <-. congruence.
  - by eexists.
  - intros id r Hid. exists r. by split.
  - intros [Hs Hq]. split; [|done]. cbn. apply map_Forall_insert_2; [|done]. apply set_state_ok, (Hs _ _ Hr).
Qed.

Lemma run_sql_Ok {A} ctx (q : Sql A) s a s' : run_sql env ctx q s = (Ok a, s') → q s.1 = Ok (a, s'.1).
Proof.
  destruct s as [db w]. unfold run_sql. destruct (env_fault env w) as [[e|] w']; [done|].
  destruct (q db) as [[x db']|e] eqn:E; [|done]. intros [= <- <-]. done.
Qed.

Lemma sql_update_session_Ok id cond f db n db' : sql_update_session id cond f db = Ok (n, db') → n ≠ 0 →
  ∃ row, db_sessions db !! id = Some row ∧ cond row = true ∧
         db' = set_sessions (<[id := f row]> (db_sessions db)) db.
Proof.
  unfold sql_update_session. destruct (db_sessions db !! id) as [row|] eqn:E; [|by intros [= <- <-]].
  destruct (cond row) eqn:Ec; [|by intros [= <- <-]]. intros [= <- <-] _. eauto.
Qed.

(** What [finalize_statements] leaves behind *)
Lemma finalize_statements_Ok c1 c2 id kind actor status request ts s event s' :
  finalize_statements env json c1 c2 id kind actor status request ts s = (Ok event, s') →
  s'.1 = mkDb (db_sessions s.1)
           (db_events s.1 ++
            [mkEventRow event id kind actor (jt_to_string json (fr_event_payload_json request)) ts]) event
           (<[id := mkOutcomeRow id status (jt_to_string json (fr_outcome_payload_json request)) ts]>
              (db_outcomes s.1))
           (db_requests s.1) (db_grants s.1) (db_turns s.1).
Proof.
  unfold finalize_statements. intros (event' & s1 & H1 & H)%st_bind_Ok.
  apply run_sql_Ok in H1. unfold sql_insert_event in H1. cbn zeta in H1. injection H1 as <- H1.
  apply st_bind_Ok in H as ([] & s2 & H2 & H). apply run_sql_Ok in H2.
  assert (s2.1 = set_outcomes (<[id := mkOutcomeRow id status
            (jt_to_string json (fr_outcome_payload_json request)) ts]> (db_outcomes s1.1)) s1.1) as E2
    by (unfold sql_upsert_outcome in H2; by injection H2).
  injection H as <- <-. by rewrite E2, <-H1.
Qed.

Lemma finalize_if_current_lawful id expected request :
  live (SessionState_as_str expected) →
  rtc state_edge (SessionState_as_str expected) (SessionState_as_str (fr_state request)) →
  lawful (finalize_session_terminal_if_current env json id expected request).
Proof.
  intros Hl He. unfold finalize_session_terminal_if_current.
  apply evolves_bind; [apply _|evolve|intros id']. do 4 (apply evolves_bind; [apply _|evolve|intros ?]).
  apply evolves_bind; [apply _| |evolve]. apply evolves_transaction; [apply _|exact others|].
  intros s r s' (n & s1 & H1 & H)%st_bind_Ok. apply run_sql_Ok in H1. case_bool_decide as Hn; [done|].
  apply sql_update_session_Ok in H1 as (row & Hr & Hc & H1); [|done].
  apply st_bind_Ok in H as (event & s2 & H2 & H). injection H as <- <-.
  apply finalize_statements_Ok in H2. rewrite H2, H1. cbn.
  unfold in_state in Hc. apply bool_decide_eq_true in Hc.
  apply (finalized_lawful s.1 id' row _ _ _ (mkEventRow _ _ _ _ _ _) (mkOutcomeRow _ _ _ _)); try done;
    by rewrite Hc.
Qed.

(** *** Approvals *)
Lemma load_request_lawful id : lawful (load_approval_request env json id).
Proof. unfold load_approval_request. evolve. Qed.
Hint Resolve load_request_lawful : evolves.
Lemma reload_request_lawful id m : lawful (reload_request env json id m).
Proof. unfold reload_request. evolve. Qed.
Hint Resolve reload_request_lawful : evolves.
Lemma insert_pending_lawful id s t c n k p g ts :
  sql_evolves Lawful
    (sql_insert_request (mkRequestRow id s t c n k (ApprovalRequestStatus_as_str Status_Pending) None p g ts
                           None None None None)).
Proof. apply insert_request_lawful. split; cbn; [done|by exists Status_Pending|done]. Qed.
Hint Resolve insert_pending_lawful : evolves.
Lemma ensure_request_lawful r : lawful (ensure_approval_request env json r).
Proof. unfold ensure_approval_request. evolve. Qed.
Lemma list_requests_lawful id st : lawful (list_approval_requests_for_session env json id st).
Proof. unfold list_approval_requests_for_session. evolve. Qed.
Lemma transition_request_lawful id request :
  rtc status_edge (ApprovalRequestStatus_as_str (ta_expected_status request))
    (ApprovalRequestStatus_as_str (ta_next_status request)) →
  lawful (transition_approval_request_if_current env json id request).
Proof.
  intros H. assert (∀ i ts, sql_evolves Lawful (sql_update_request i
      (ApprovalRequestStatus_as_str (ta_expected_status request)) (transition_request_row request ts))).
  { intros i ts. apply update_request_lawful. intros r Hr.
    split; [by apply transition_row_moves|intros; by apply transition_row_ok]. }
  unfold transition_approval_request_if_current. evolve.
Qed.
Lemma load_grant_lawful s k : lawful (load_approval_grant env s k).
Proof. unfold load_approval_grant. evolve. Qed.
Hint Resolve load_grant_lawful : evolves.
Lemma upsert_approval_grant_lawful r : lawful (upsert_approval_grant env r).
Proof. unfold upsert_approval_grant. evolve. Qed.
End operations.

#[export] Hint Resolve new_lawful load_session_lawful ensure_session_lawful create_with_event_lawful
  create_child_lawful load_summary_lawful load_fallback_lawful load_observation_lawful list_recent_lawful
  list_after_lawful list_lifecycle_lawful list_visible_lawful is_visible_lawful depth_lawful root_lawful
  append_event_lawful load_request_lawful ensure_request_lawful list_requests_lawful load_grant_lawful
  upsert_approval_grant_lawful : evolves.
