(* ===== verification/AppToolLaws.v ===== *)
(** * AppToolLaws: the application tools obey the laws of the session tables

    The laws of [SessionLaws], lifted through the approval tools, the session
    tools, delegation and the dispatcher, for any failing statements and any
    lawful other connections. *)
From S2P Require Import Prelude RustStr Contracts Json ToolCatalog ToolNames ToolConfig Turn TurnEngine SessionDb.
From S2P Require Import SessionRepo SessionLaws Approvals Subagent SessionTools Delegation AppTools.

Section laws.
Context {W : Type} (env : DbEnv W) (json : JsonText) (fuel polls : nat).
Hypothesis others : env_evolves env Lawful.
Abbreviation DB := (ST (Db * W) string).
Abbreviation lawful := (evolves Lawful).

Lemma ended_lawful {A} (m : DB (option A)) : lawful m → lawful (ended m).
Proof. intros H. unfold ended. evolve. Qed.
Hint Resolve ended_lawful : evolves.

(** ** Approval tools *)
Lemma visible_ids_lawful c v : lawful (visible_session_ids env c v).
Proof. unfold visible_session_ids. evolve. Qed.
Lemma session_visible_lawful c t v : lawful (session_visible env fuel c t v).
Proof. unfold session_visible. evolve. Qed.
Hint Resolve visible_ids_lawful session_visible_lawful : evolves.
Lemma ensure_visible_lawful c t v : lawful (ensure_visible env fuel c t v).
Proof. unfold ensure_visible. evolve. Qed.
Lemma derive_attention_lawful r : lawful (derive_attention_view env fuel r).
Proof. unfold derive_attention_view. evolve. Qed.
Hint Resolve ensure_visible_lawful derive_attention_lawful : evolves.
Lemma requests_of_sessions_lawful ids st : lawful (requests_of_sessions env json ids st).
Proof. induction ids as [|id ids IH]; cbn [requests_of_sessions]; evolve. Qed.
Lemma attention_views_lawful f l : lawful (attention_views env fuel f l).
Proof. induction l as [|r l IH]; cbn [attention_views]; evolve. Qed.
Hint Resolve requests_of_sessions_lawful attention_views_lawful : evolves.
Lemma approval_list_lawful p c t : lawful (execute_approval_requests_list env json fuel p c t).
Proof. unfold execute_approval_requests_list. evolve. Qed.
Lemma approval_status_lawful p c t : lawful (execute_approval_request_status env json fuel p c t).
Proof. unfold execute_approval_request_status. evolve. Qed.
Hint Resolve approval_list_lawful approval_status_lawful : evolves.
Lemma approval_tool_lawful r c t : lawful (execute_approval_tool_with_policies env json fuel r c t).
Proof. unfold execute_approval_tool_with_policies. evolve. Qed.
Hint Resolve approval_tool_lawful : evolves.

(** ** Session tools *)
Lemma ensure_session_visible_lawful c t v : lawful (ensure_session_visible env fuel c t v).
Proof. unfold ensure_session_visible. evolve. Qed.
Lemma load_delegate_events_lawful s : lawful (load_delegate_lifecycle_events env json s).
Proof. unfold load_delegate_lifecycle_events. evolve. Qed.
Hint Resolve ensure_session_visible_lawful load_delegate_events_lawful : evolves.
Lemma observe_lawful t c g n a l : lawful (observe_visible_session_with_policies env json fuel t c g n a l).
Proof. unfold observe_visible_session_with_policies. evolve. Qed.
Hint Resolve observe_lawful : evolves.
Lemma inspect_lawful t c g n : lawful (inspect_visible_session_with_policies env json fuel t c g n).
Proof. unfold inspect_visible_session_with_policies. evolve. Qed.
Lemma inspection_payload_lawful s : lawful (session_inspection_payload env s).
Proof. unfold session_inspection_payload. evolve. Qed.
Hint Resolve inspect_lawful inspection_payload_lawful : evolves.
Lemma map_results_lawful {A B} (f : A → DB B) l : (∀ x, lawful (f x)) → lawful (map_results f l).
Proof. intros Hf. induction l as [|x l IH]; cbn [map_results]; evolve. Qed.
Lemma sessions_list_lawful p c t : lawful (execute_sessions_list env json p c t).
Proof.
  unfold execute_sessions_list. do 4 (apply evolves_bind; [apply _|evolve|intros ?]).
  apply evolves_bind; [apply _| |evolve]. apply map_results_lawful. evolve.
Qed.
Lemma session_events_lawful p c t : lawful (execute_session_events env json fuel p c t).
Proof. unfold execute_session_events. evolve. Qed.
Lemma with_inspection_lawful t c g n k : (∀ s, lawful (k s)) → lawful (with_inspection env json fuel t c g n k).
Proof. intros Hk. unfold with_inspection. evolve. Qed.
Lemma batch_apply_lawful {P} t c g d s (plan : result string P) refused action prefix apply insp :
  (∀ p, lawful (apply p)) →
  lawful (batch_apply env json fuel t c g d s plan refused action prefix apply insp).
Proof. intros Ha. unfold batch_apply. evolve. Qed.
Hint Resolve sessions_list_lawful session_events_lawful : evolves.
Lemma status_batch_lawful c g t : lawful (execute_session_status_batch_result env json fuel c g t).
Proof. unfold execute_session_status_batch_result. apply with_inspection_lawful. evolve. Qed.
Lemma session_status_lawful p c g : lawful (execute_session_status env json fuel p c g).
Proof. pose proof status_batch_lawful. pose proof @map_results_lawful. unfold execute_session_status. evolve. Qed.
Lemma state_changed_lawful a b t : lawful (state_changed env a b t).
Proof. unfold state_changed. evolve. Qed.
Lemma reinspect_lawful t c g a : lawful (reinspect env json fuel t c g a).
Proof. unfold reinspect. evolve. Qed.
Hint Resolve session_status_lawful state_changed_lawful reinspect_lawful : evolves.

Lemma apply_archive_lawful t c g s p : lawful (apply_session_archive_plan env json fuel t c g s p).
Proof.
  unfold apply_session_archive_plan. apply evolves_bind; [apply _| |evolve]. by apply transition_lawful.
Qed.

(** The plans to end a session expect it live. *)
Lemma live_failed s : live (SessionState_as_str s) → rtc state_edge (SessionState_as_str s) "failed".
Proof. destruct s; cbn; intros [?|?]; try done; eauto using rtc_once, ready_failed, running_failed. Qed.

Lemma recover_plan_live snapshot now plan :
  build_session_recover_plan snapshot now = Ok plan → live (SessionState_as_str (rp_expected_state plan)).
Proof.
  unfold build_session_recover_plan. intros H.
  repeat match type of H with
  | (if ?b then _ else _) = Ok _ => destruct b; try discriminate H
  | (_ ≫= _) = Ok _ => apply bind_Ok in H as (? & _ & H)
  | Ok _ = Ok _ => injection H as <-
  end; unfold live; cbn; auto.
Qed.

Lemma apply_recover_lawful t c g s p :
  live (SessionState_as_str (rp_expected_state p)) → lawful (apply_session_recover_plan env json fuel t c g s p).
Proof.
  intros Hl. unfold apply_session_recover_plan. apply evolves_bind; [apply _|evolve|intros payload].
  apply evolves_bind; [apply _| |evolve].
  apply finalize_if_current_lawful; [exact others|exact Hl|]. cbn. by apply live_failed.
Qed.

Lemma apply_cancel_lawful t c g s p : lawful (apply_session_cancel_plan env json fuel t c g s p).
Proof.
  unfold apply_session_cancel_plan. destruct p; (apply evolves_bind; [apply _| |evolve]).
  - apply finalize_if_current_lawful; [exact others|by left|]. apply rtc_once, ready_failed.
  - by apply transition_lawful.
Qed.

(** A session tool whose plans are only ever applied lawfully *)
Lemma mutation_lawful {P} tool field refused prefix plan action
    (apply : string → string → ToolConfig → SessionInspectionSnapshot → P → DB SessionToolActionOutcome) p c g :
  (∀ snapshot, lawful (plan snapshot)) →
  (∀ snapshot s x s' t c g, plan snapshot s = (Ok (Ok x), s') → lawful (apply t c g snapshot x)) →
  lawful (execute_session_mutation env json fuel tool field refused prefix plan action apply p c g).
Proof.
  intros Hp Ha. unfold execute_session_mutation. apply evolves_bind; [apply _|evolve|intros request].
  destruct (use_legacy_single_response request).
  - do 4 (apply evolves_bind; [apply _|evolve|intros ?]).
    apply evolves_bind_post; [apply _|apply Hp|intros s [x|e] s' E];
      [|apply evolves_bind_post; [apply _|evolve|by intros]].
    apply evolves_bind_post; [apply _|evolve|intros ? ? ? [= -> _]].
    apply evolves_bind; [apply _|by eapply Ha|evolve].
  - apply evolves_bind; [apply _| |evolve]. apply map_results_lawful. intros t. apply with_inspection_lawful.
    intros snapshot. apply evolves_bind; [apply _|evolve|intros inspection].
    apply evolves_bind_post; [apply _|apply Hp|intros s [x|e] s' E]; [|unfold batch_apply; evolve].
    unfold batch_apply. destruct (mr_dry_run request); [evolve|].
    apply evolves_match; [apply _|by eapply Ha|evolve|evolve].
Qed.

Lemma recover_tool_lawful p c g : lawful (execute_session_recover env json fuel p c g).
Proof.
  apply mutation_lawful.
  - unfold recover_plan_now. evolve.
  - intros snapshot s x s' t c' g' H. unfold recover_plan_now in H. run_inv.
    apply apply_recover_lawful. by eapply recover_plan_live.
Qed.
Lemma cancel_tool_lawful p c g : lawful (execute_session_cancel env json fuel p c g).
Proof.
  apply mutation_lawful; [unfold cancel_plan_now; evolve|]. intros. apply apply_cancel_lawful.
Qed.
Lemma archive_tool_lawful p c g : lawful (execute_session_archive env json fuel p c g).
Proof. apply mutation_lawful; [evolve|]. intros. apply apply_archive_lawful. Qed.
Hint Resolve recover_tool_lawful cancel_tool_lawful archive_tool_lawful : evolves.

Lemma match_arms_elim {A} (Q : A → Prop) name arms (dflt : A) :
  Forall (λ arm, Q arm.2) arms → Q dflt → Q (match_arms name arms dflt).
Proof.
  intros Ha Hd. unfold match_arms. destruct (list_find _ arms) as [[i [ns v]]|] eqn:E; [|done].
  apply list_find_Some in E as (E & _). by eapply (Forall_lookup_1 _ _ _ _ Ha) in E.
Qed.

Context (window_direct : string → Z → DB (list Value)) (elapsed_ms : W → Z * W)
  (sleep_ms : Z → Db * W → Db * W).
Hypothesis window_lawful : ∀ id n, lawful (window_direct id n).
Hypothesis sleep_lawful : ∀ n s, Lawful s.1 (sleep_ms n s).1.

Lemma history_lawful p c t : lawful (execute_sessions_history env fuel window_direct p c t).
Proof. unfold execute_sessions_history. evolve. Qed.
Hint Resolve history_lawful : evolves.
Lemma session_tool_lawful r c t :
  lawful (execute_session_tool_with_policies env json fuel window_direct r c t).
Proof.
  unfold execute_session_tool_with_policies. destruct (negb _); [evolve|].
  apply (match_arms_elim (λ m, lawful m)); [|evolve].
  repeat (apply Forall_cons; split; [cbn; evolve|]). by apply Forall_nil.
Qed.

Lemma read_elapsed_lawful : lawful (read_elapsed elapsed_ms).
Proof. intros [db w]. unfold read_elapsed. by destruct (elapsed_ms w). Qed.
Lemma sleep_ms_lawful n : lawful (sleep sleep_ms n).
Proof. intros s. apply sleep_lawful. Qed.
Lemma wait_payload_lawful s w a t o n : lawful (wait_payload env s w a t o n).
Proof. unfold wait_payload. evolve. Qed.
Hint Resolve read_elapsed_lawful sleep_ms_lawful wait_payload_lawful : evolves.
Lemma wait_single_lawful k t c g a ms n nx o :
  lawful (wait_single_loop env json fuel elapsed_ms sleep_ms k t c g a ms n nx o).
Proof. revert nx o. induction k as [|k IH]; intros nx o; cbn [wait_single_loop]; evolve. Qed.
Lemma batch_targets_lawful i c g a l : lawful (batch_targets env fuel i c g a l).
Proof. revert i. induction l as [|t l IH]; intros i; cbn [batch_targets]; evolve. Qed.
Lemma poll_targets_lawful c g a ms n l r : lawful (poll_targets env json fuel c g a ms n l r).
Proof. revert r. induction l as [|t l IH]; intros r; cbn [poll_targets]; evolve. Qed.
Lemma time_out_targets_lawful a ms l r : lawful (time_out_targets env a ms l r).
Proof. revert r. induction l as [|t l IH]; intros r; cbn [time_out_targets]; evolve. Qed.
Hint Resolve wait_single_lawful batch_targets_lawful poll_targets_lawful time_out_targets_lawful : evolves.
Lemma wait_batch_lawful k c g a ms n l r :
  lawful (wait_batch_loop env json fuel elapsed_ms sleep_ms k c g a ms n l r).
Proof.
  revert l r. induction k as [|k IH]; intros l r; cbn [wait_batch_loop]; unfold batch_wait_outcome; evolve.
Qed.
Hint Resolve wait_batch_lawful : evolves.
Lemma wait_tool_lawful p c g :
  lawful (wait_for_session_with_config env json fuel elapsed_ms sleep_ms polls p c g).
Proof.
  unfold wait_for_session_with_config, wait_for_session_tool_with_policies, wait_for_session_batch_with_policies.
  evolve.
Qed.
Hint Resolve session_tool_lawful wait_tool_lawful : evolves.

(** ** Delegation *)
Lemma if_repository_lawful {A} (m o : DB A) : lawful m → lawful o → lawful (if_repository env m o).
Proof. intros. unfold if_repository. evolve. Qed.
Hint Resolve if_repository_lawful : evolves.
Lemma narrowing_lawful id : lawful (load_delegate_runtime_narrowing env json id).
Proof. unfold load_delegate_runtime_narrowing. evolve. Qed.
Hint Resolve narrowing_lawful : evolves.
Lemma tool_view_lawful g v id : lawful (tool_view env fuel g v id).
Proof. unfold tool_view. apply if_repository_lawful; evolve. Qed.
Hint Resolve tool_view_lawful : evolves.
Lemma session_context_lawful g v id : lawful (session_context env json fuel g v id).
Proof.
  unfold session_context. apply evolves_bind; [apply _|evolve|intros w]. apply if_repository_lawful; evolve.
Qed.

Lemma finalize_stale_lawful id expected request :
  live (SessionState_as_str expected) →
  rtc state_edge (SessionState_as_str expected) (SessionState_as_str (fr_state request)) →
  lawful (finalize_terminal_if_current_allowing_stale_state env json id expected request).
Proof.
  intros Hl He. unfold finalize_terminal_if_current_allowing_stale_state.
  apply evolves_bind; [apply _|by apply finalize_if_current_lawful|evolve].
Qed.

Lemma recovery_skipped_lawful id e : lawful (delegate_terminal_recovery_skipped_error env id e).
Proof. unfold delegate_terminal_recovery_skipped_error. evolve. Qed.
Lemma spawn_skipped_lawful id e : lawful (spawn_recovery_skipped env id e).
Proof. unfold spawn_recovery_skipped. evolve. Qed.
Hint Resolve recovery_skipped_lawful spawn_skipped_lawful : evolves.

Lemma finalize_with_recovery_lawful id request :
  rtc state_edge "running" (SessionState_as_str (fr_state request)) →
  lawful (finalize_delegate_child_terminal_with_recovery env json id request).
Proof.
  intros He. unfold finalize_delegate_child_terminal_with_recovery.
  apply evolves_match; [apply _|apply finalize_stale_lawful; [by right|done]|evolve|intros e].
  apply evolves_match; [apply _| |evolve|intros e'].
  { apply transition_lawful; [exact others|]. apply rtc_once, running_failed. }
  apply evolves_match; [apply _| |evolve|evolve].
  apply update_if_current_lawful; [exact others|]. apply rtc_once, running_failed.
Qed.

Context (handle_child_turn : string → string → Z → Db * W → (ChildResult * Z) * (Db * W)).
Hypothesis child_lawful : ∀ id input t s, Lawful s.1 (handle_child_turn id input t s).2.1.

Lemma run_child_lawful id p l i x t :
  lawful (run_started_delegate_child_turn_with_runtime env json handle_child_turn id p l i x t).
Proof.
  unfold run_started_delegate_child_turn_with_runtime. apply evolves_bind; [apply _|evolve|intros _].
  apply evolves_bind; [apply _| |intros [[] ms]].
  { intros s. unfold act_child, act. pose proof (child_lawful id i t s). by destruct (handle_child_turn id i t s). }
  - apply evolves_bind; [apply _|evolve|intros sm]. apply evolves_bind; [apply _| |evolve].
    apply finalize_with_recovery_lawful, rtc_once, running_completed.
  - apply evolves_bind; [apply _| |evolve]. apply finalize_with_recovery_lawful, rtc_once, running_failed.
  - apply evolves_bind; [apply _| |evolve]. apply finalize_with_recovery_lawful, rtc_once, running_failed.
  - apply evolves_bind; [apply _| |evolve]. apply finalize_with_recovery_lawful, rtc_once, running_timed_out.
Qed.
Hint Resolve run_child_lawful : evolves.

Context (prepare_subagent_spawn on_subagent_ended : string → string → DB unit).
Hypothesis prepare_lawful : ∀ p c, lawful (prepare_subagent_spawn p c).
Hypothesis ended_hook_lawful : ∀ p c, lawful (on_subagent_ended p c).

Lemma finally_lawful {T} (work : DB T) (notify : DB unit) :
  lawful work → lawful notify → lawful (finally work notify).
Proof.
  intros Hw Hn s. unfold finally. specialize (Hw s). destruct (work s) as [r s1].
  specialize (Hn s1). destruct (notify s1) as [r' s2]. cbn in *. by trans s1.1.
Qed.
Lemma if_kernel_lawful b (hook : DB unit) : lawful hook → lawful (if_kernel_bound b hook).
Proof. intros. unfold if_kernel_bound. evolve. Qed.
Lemma with_cleanup_lawful {T} p c b (work : DB T) : lawful work →
  lawful (with_prepared_subagent_spawn_cleanup_if_kernel_bound prepare_subagent_spawn on_subagent_ended p c b work).
Proof.
  intros Hw. unfold with_prepared_subagent_spawn_cleanup_if_kernel_bound.
  apply evolves_bind; [apply _|by apply if_kernel_lawful|intros _].
  apply finally_lawful; [done|]. by apply if_kernel_lawful.
Qed.

Context (next_id : W → (Z * Z) * W) (tools : ToolConfig).
Lemma next_depth_lawful c : lawful (next_delegate_child_depth_for_delegate env fuel tools c).
Proof. unfold next_delegate_child_depth_for_delegate. evolve. Qed.
Lemma next_id_lawful : lawful (next_delegate_session_id next_id).
Proof. intros [db w]. unfold next_delegate_session_id. by destruct (next_id w) as [[]]. Qed.
Hint Resolve next_depth_lawful next_id_lawful : evolves.

Lemma delegate_lawful b c p :
  lawful (execute_delegate_tool env json fuel tools handle_child_turn prepare_subagent_spawn on_subagent_ended
            next_id b c p).
Proof. unfold execute_delegate_tool. evolve. apply with_cleanup_lawful. evolve. Qed.

Context (spawn_detached : AsyncDelegateSpawnRequest → DB unit).
Hypothesis detached_lawful : ∀ r, lawful (spawn_detached r).
Lemma delegate_async_lawful e h b c p :
  lawful (execute_delegate_async_tool env json fuel tools next_id spawn_detached e h b c p).
Proof. unfold execute_delegate_async_tool. evolve. Qed.

Lemma spawn_child_lawful new_runtime r : lawful new_runtime →
  lawful (spawn_async_child env json handle_child_turn prepare_subagent_spawn on_subagent_ended new_runtime r).
Proof.
  intros Hn. unfold spawn_async_child. destruct (negb _); [evolve|].
  do 2 (apply evolves_bind; [apply _|evolve|intros ?]). apply with_cleanup_lawful.
  apply evolves_bind; [apply _| |evolve]. apply transition_lawful; [exact others|].
  apply rtc_once, ready_running.
Qed.

Lemma spawn_failure_lawful id p l x e :
  lawful (finalize_async_delegate_spawn_failure_with_recovery env json id p l x e).
Proof.
  unfold finalize_async_delegate_spawn_failure_with_recovery, finalize_async_delegate_spawn_failure.
  apply evolves_match; [apply _| |evolve|intros e1].
  { apply evolves_bind; [apply _|evolve|intros _].
    apply finalize_stale_lawful; [by left|]. apply rtc_once, ready_failed. }
  apply evolves_bind; [apply _|evolve|intros _]. apply evolves_match; [apply _| |evolve|intros e2].
  { apply transition_lawful; [exact others|]. apply rtc_once, ready_failed. }
  apply evolves_match; [apply _| |evolve|evolve].
  apply update_if_current_lawful; [exact others|]. apply rtc_once, ready_failed.
Qed.

Lemma async_task_lawful spawner r s : (∀ s, Lawful s.1 (spawner r s).2.1) →
  Lawful s.1 (async_delegate_task env json spawner r s).1.
Proof.
  intros Hs. unfold async_delegate_task. specialize (Hs s). destruct (spawner r s) as [x s1]. cbn in Hs.
  destruct x; [done|..]; trans s1.1; try done; apply spawn_failure_lawful.
Qed.

(** ** The dispatcher *)
Context (sha256_hex : string → string).
Context (execute_sessions_send : option (Value → string → ToolConfig → DB ToolCoreOutcome)).
Context (execute_browser_companion : ToolCoreRequest → string → ToolConfig → DB ToolCoreOutcome).
Context (execute_delegate execute_delegate_async : SessionContext → Value → DB ToolCoreOutcome).
Context (runtime_session_context : string → DB SessionContext).
Hypothesis send_lawful :
  match execute_sessions_send with Some send => ∀ p c g, lawful (send p c g) | None => True end.
Hypothesis companion_lawful : ∀ r c g, lawful (execute_browser_companion r c g).
Hypothesis delegate_tool_lawful : ∀ c p, lawful (execute_delegate c p).
Hypothesis delegate_async_tool_lawful : ∀ c p, lawful (execute_delegate_async c p).
Hypothesis runtime_context_lawful : ∀ id, lawful (runtime_session_context id).

Lemma grant_scope_lawful k seen id : lawful (grant_scope_loop env k seen id).
Proof. revert seen id. induction k as [|k IH]; intros seen id; cbn [grant_scope_loop]; evolve. Qed.
Hint Resolve grant_scope_lawful : evolves.
Lemma maybe_require_lawful c i d : lawful (maybe_require_approval env json fuel sha256_hex tools c i d).
Proof. unfold maybe_require_approval, dispatcher_lineage_root_session_id. evolve. Qed.
Lemma effective_view_lawful c : lawful (effective_tool_view_for_session env fuel tools c).
Proof. unfold effective_tool_view_for_session. evolve. Qed.
Hint Resolve effective_view_lawful : evolves.

Abbreviation default_tool := (default_execute_app_tool env json fuel polls tools window_direct elapsed_ms sleep_ms
  execute_sessions_send execute_browser_companion).

Lemma checked_tool_lawful r c g :
  lawful (execute_app_tool_with_visibility_checked_config env json fuel window_direct
            execute_browser_companion r c g).
Proof.
  unfold execute_app_tool_with_visibility_checked_config. apply (match_arms_elim (λ m, lawful m)); [|evolve].
  repeat (apply Forall_cons; split; [cbn; evolve|]). by apply Forall_nil.
Qed.
Hint Resolve checked_tool_lawful : evolves.

Lemma default_tool_lawful c r : lawful (default_tool c r).
Proof.
  unfold default_execute_app_tool. do 2 (apply evolves_bind; [apply _|evolve|intros ?]).
  repeat case_bool_decide; [evolve| |evolve].
  apply evolves_bind_post; [apply _|evolve|intros s send s' E].
  unfold lift in E. destruct execute_sessions_send as [send'|]; cbn in E; [|done]. injection E as -> _. apply send_lawful.
Qed.
Hint Resolve default_tool_lawful : evolves.

Lemma replay_lawful r : lawful (replay_approved_request env json fuel polls tools window_direct elapsed_ms sleep_ms
  execute_sessions_send execute_browser_companion execute_delegate execute_delegate_async runtime_session_context r).
Proof. unfold replay_approved_request. evolve. Qed.
Hint Resolve replay_lawful : evolves.

Lemma execute_approved_lawful id :
  lawful (execute_approved_request env json fuel polls tools window_direct elapsed_ms sleep_ms execute_sessions_send
            execute_browser_companion execute_delegate execute_delegate_async runtime_session_context id).
Proof.
  assert (lawful (transition_approval_request_if_current env json id executing_transition)) as H1
    by (apply transition_request_lawful; [exact others|apply rtc_once, approved_executing]).
  assert (∀ now e, lawful (transition_approval_request_if_current env json id (executed_transition now e))) as H2
    by (intros; apply transition_request_lawful; [exact others|apply rtc_once, executing_executed]).
  unfold execute_approved_request. evolve.
Qed.
Hint Resolve execute_approved_lawful : evolves.

Lemma decide_request_lawful r : lawful (decide_request env json r).
Proof.
  unfold decide_request. apply evolves_bind; [apply _| |evolve]. apply transition_request_lawful; [exact others|].
  destruct (rq_decision r); apply rtc_once; constructor.
Qed.
Hint Resolve decide_request_lawful : evolves.

Lemma resolve_lawful r :
  lawful (resolve_approval_request env json fuel polls tools window_direct elapsed_ms sleep_ms execute_sessions_send
            execute_browser_companion execute_delegate execute_delegate_async runtime_session_context r).
Proof. unfold resolve_approval_request. evolve. Qed.
Hint Resolve resolve_lawful : evolves.

Lemma coordinator_tool_lawful c r :
  lawful (coordinator_execute_app_tool env json fuel polls tools window_direct elapsed_ms sleep_ms
            execute_sessions_send execute_browser_companion execute_delegate execute_delegate_async
            runtime_session_context c r).
Proof.
  unfold coordinator_execute_app_tool. case_bool_decide; [|evolve].
  unfold execute_approval_tool_with_runtime_support. destruct (negb _); [evolve|]. case_bool_decide; [|evolve].
  apply evolves_bind_post; [apply _|evolve|intros s rt s' E]. injection E as <- _.
  unfold execute_approval_request_resolve. evolve.
Qed.
End laws.
