(* ===== verification/AppRuntime.v ===== *)
(** * AppRuntime: the application tools of a turn, put together

    The dispatcher of [AppTools] with the delegation of [Delegation] and the
    session contexts of the default runtime. What stays outside, the model
    provider behind a child's turn, the hooks of the kernel, the clock, the
    transcript and the browser companion, is one record. *)
From S2P Require Import Prelude RustStr Contracts Errors Json ToolRuntimeConfig ToolCatalog ToolNames ToolConfig ToolLease Turn.
From S2P Require Import Ingress TurnEngine SessionDb SessionRepo SessionLaws Approvals Subagent SessionTools.
From S2P Require Import Delegation AppTools AppToolLaws.

Record AppWorld (W : Type) := mkAppWorld {
  aw_env : DbEnv W;
  aw_json : JsonText;
  aw_fuel : nat;
  aw_polls : nat;
  aw_sha256_hex : string → string;
  aw_window_direct : string → Z → ST (Db * W) string (list Value);
  aw_elapsed_ms : W → Z * W;
  aw_sleep_ms : Z → Db * W → Db * W;
  aw_sessions_send : option (Value → string → ToolConfig → ST (Db * W) string ToolCoreOutcome);
  aw_browser_companion : ToolCoreRequest → string → ToolConfig → ST (Db * W) string ToolCoreOutcome;
  aw_child_turn : string → string → Z → Db * W → (ChildResult * Z) * (Db * W);
  aw_prepare_subagent_spawn : string → string → ST (Db * W) string unit;
  aw_on_subagent_ended : string → string → ST (Db * W) string unit;
  aw_next_id : W → (Z * Z) * W;
  aw_spawn_detached : AsyncDelegateSpawnRequest → ST (Db * W) string unit;
  aw_executor : option string;
  aw_has_spawner : bool;
  aw_kernel_bound : bool;
  aw_root_tool_view : ToolView }.
Arguments aw_env {W}. Arguments aw_json {W}. Arguments aw_fuel {W}. Arguments aw_polls {W}.
Arguments aw_sha256_hex {W}. Arguments aw_window_direct {W}. Arguments aw_elapsed_ms {W}.
Arguments aw_sleep_ms {W}. Arguments aw_sessions_send {W}. Arguments aw_browser_companion {W}.
Arguments aw_child_turn {W}. Arguments aw_prepare_subagent_spawn {W}. Arguments aw_on_subagent_ended {W}.
Arguments aw_next_id {W}. Arguments aw_spawn_detached {W}. Arguments aw_executor {W}.
Arguments aw_has_spawner {W}. Arguments aw_kernel_bound {W}. Arguments aw_root_tool_view {W}.

Section runtime.
Context {W : Type} (a : AppWorld W) (tools : ToolConfig).
Abbreviation DB := (ST (Db * W) string).

Definition runtime_context : string → DB SessionContext :=
  session_context (aw_env a) (aw_json a) (aw_fuel a) tools (aw_root_tool_view a).

Definition delegate_tool : SessionContext → Value → DB ToolCoreOutcome :=
  execute_delegate_tool (aw_env a) (aw_json a) (aw_fuel a) tools (aw_child_turn a) (aw_prepare_subagent_spawn a)
    (aw_on_subagent_ended a) (aw_next_id a) (aw_kernel_bound a).

Definition delegate_async_tool : SessionContext → Value → DB ToolCoreOutcome :=
  execute_delegate_async_tool (aw_env a) (aw_json a) (aw_fuel a) tools (aw_next_id a) (aw_spawn_detached a)
    (aw_executor a) (aw_has_spawner a) (aw_kernel_bound a).

Definition resolve_request : ApprovalResolutionRuntime W :=
  resolve_approval_request (aw_env a) (aw_json a) (aw_fuel a) (aw_polls a) tools (aw_window_direct a)
    (aw_elapsed_ms a) (aw_sleep_ms a) (aw_sessions_send a) (aw_browser_companion a) delegate_tool
    delegate_async_tool runtime_context.

Definition app_tools : AppToolDispatcher (Db * W) :=
  CoordinatorAppToolDispatcher (aw_env a) (aw_json a) (aw_fuel a) (aw_polls a) (aw_sha256_hex a) tools
    (aw_window_direct a) (aw_elapsed_ms a) (aw_sleep_ms a) (aw_sessions_send a) (aw_browser_companion a)
    delegate_tool delegate_async_tool runtime_context.

(** The outside obeys the laws. *)
Record WorldLawful : Prop := {
  wl_others : env_evolves (aw_env a) Lawful;
  wl_window : ∀ id n, evolves Lawful (aw_window_direct a id n);
  wl_sleep : ∀ n s, Lawful s.1 (aw_sleep_ms a n s).1;
  wl_send : match aw_sessions_send a with Some send => ∀ p c g, evolves Lawful (send p c g) | None => True end;
  wl_companion : ∀ r c g, evolves Lawful (aw_browser_companion a r c g);
  wl_child : ∀ id input t s, Lawful s.1 (aw_child_turn a id input t s).2.1;
  wl_prepare : ∀ p c, evolves Lawful (aw_prepare_subagent_spawn a p c);
  wl_ended : ∀ p c, evolves Lawful (aw_on_subagent_ended a p c);
  wl_spawn : ∀ r, evolves Lawful (aw_spawn_detached a r) }.

Section lawful.
Hypothesis world : WorldLawful.

Lemma dispatcher_lawful :
  (∀ c i d, evolves Lawful (ad_maybe_require_approval app_tools c i d)) ∧
  (∀ c r, evolves Lawful (ad_execute_app_tool app_tools c r)).
Proof.
  destruct world. split; intros.
  - by apply maybe_require_lawful.
  - apply coordinator_tool_lawful; try done; intros.
    + by apply delegate_lawful.
    + by apply delegate_async_lawful.
    + by apply session_context_lawful.
Qed.

(** ** A turn *)
Section turn.
Context (codec : LeaseCodec) (secret : string) (unix_now : Db * W → Z) (value_to_string : Value → string)
  (envelope_to_string : ToolResultEnvelope → string)
  (kernel : option (ToolCoreRequest → bool → ST (Db * W) KernelError ToolCoreOutcome))
  (completion : list PreparedToolIntent → Db * W → list nat).

(** [TurnEngine::execute_turn_in_context] with these tools *)
Definition execute_turn (engine : TurnEngine) (turn : ProviderTurn) (context : SessionContext)
    (ingress : option ConversationIngressContext) : Db * W → TurnResult * (Db * W) :=
  execute_turn_in_context codec secret unix_now narrowing_to_value value_to_string envelope_to_string kernel
    app_tools completion engine turn context ingress.

Hypothesis kernel_lawful :
  match kernel with Some execute => ∀ r t, evolves Lawful (execute r t) | None => True end.

Abbreviation to_line := (execute_to_line value_to_string envelope_to_string kernel app_tools).

Lemma to_line_lawful engine context p : evolves Lawful (to_line engine context p).
Proof.
  unfold execute_to_line. apply evolves_bind; [apply _| |evolve]. unfold execute_prepared_tool_intent.
  destruct (pi_execution_kind p); [destruct kernel|]; evolve. apply dispatcher_lawful.
Qed.

Lemma sequential_lawful engine context l :
  evolves Lawful (execute_prepared_batch_sequential value_to_string envelope_to_string kernel app_tools engine
                    context l).
Proof. pose proof to_line_lawful. induction l as [|p l IH]; cbn [execute_prepared_batch_sequential]; evolve. Qed.

Lemma drain_lawful engine context l order :
  evolves Lawful (drain_executions value_to_string envelope_to_string kernel app_tools engine context l order).
Proof. pose proof to_line_lawful. induction order as [|i order IH]; cbn [drain_executions]; evolve. Qed.

Lemma parallel_lawful engine context l :
  evolves Lawful (execute_prepared_batch_in_parallel value_to_string envelope_to_string kernel app_tools completion
                    engine context l).
Proof.
  intros s. unfold execute_prepared_batch_in_parallel.
  apply (evolves_bind Lawful); [apply drain_lawful|]. evolve.
Qed.

Lemma batch_lawful engine context segments l :
  evolves Lawful (execute_prepared_batch value_to_string envelope_to_string kernel app_tools completion engine
                    context segments l).
Proof.
  pose proof sequential_lawful. pose proof parallel_lawful.
  revert l. induction segments as [|s ss IH]; intros l; cbn [execute_prepared_batch]; evolve.
Qed.

Lemma prepare_lawful intent context ingress :
  evolves Lawful (prepare_tool_intent codec secret unix_now narrowing_to_value kernel app_tools intent context
                    ingress).
Proof.
  intros s. unfold prepare_tool_intent. destruct (resolve_tool_execution _) as [r|]; [|done]. cbn zeta.
  destruct (if bool_decide _ then _ else _) as [[kind req] eff]. destruct (catalog_resolve _) as [d|]; [|done].
  destruct kind; [by destruct kernel|]. pose proof (proj1 dispatcher_lawful context eff d s) as H.
  by destruct (ad_maybe_require_approval app_tools context eff d s) as [[[]|] ?].
Qed.

Lemma prepare_all_lawful context ingress l :
  evolves Lawful (prepare_all codec secret unix_now narrowing_to_value kernel app_tools context ingress l).
Proof. pose proof prepare_lawful. induction l as [|i l IH]; cbn [prepare_all]; evolve. Qed.

(** C6. Whatever the tool calls of a turn do, in whatever order they finish,
    whichever statements fail and whatever other lawful connections do in
    between, the session tables keep their laws: sessions keep their identity and
    never leave an end state, the outcome of an ended session is final, events
    are only added, an approval request keeps the call it was made for and only
    goes from pending to denied, or from pending over approved and executing to
    executed, no grant is withdrawn, and rows stay readable. *)
Theorem turns_obey_the_session_laws engine turn context ingress s :
  Lawful s.1 (execute_turn engine turn context ingress s).2.1.
Proof.
  unfold execute_turn, execute_turn_in_context.
  destruct (validate_turn_in_context engine turn context) as [[]|]; try done. cbn zeta.
  match goal with |- context [(?m ≫= ?f) s] =>
    pose proof (evolves_bind Lawful m f ltac:(apply prepare_all_lawful) ltac:(intros; apply batch_lawful) s);
    by destruct ((m ≫= f) s) as [[]]
  end.
Qed.
End turn.
End lawful.
End runtime.
