(* ===== verification/SessionRepoProps.v ===== *)
(** * SessionRepoProps: lineage, event pages and the limit on children

    The loop that decides whether a session may see another one agrees with the
    recursive query that lists what it sees; reading events page by page returns
    every event once; creating children stays within the configured limit. *)
From S2P Require Import Prelude RustStr Contracts Json SessionDb SessionRepo SessionLaws.

(** ** Reading without interference *)
Section quiet.
Context {W : Type} (env : DbEnv W).
Abbreviation DB := (ST (Db * W) string).

(** No statement fails and nobody else changes the tables. *)
Definition quiet : Prop := (∀ w, (env_fault env w).1 = None) ∧ (∀ s, (env_others env s).1 = s.1).

(** [m] reads [r] from [db], whatever the rest of the world is. *)
Definition reads {E A} (m : ST (Db * W) E A) (db : Db) (r : result E A) : Prop :=
  ∀ w, ∃ w', m (db, w) = (r, (db, w')).

Lemma reads_ret {E A} (a : A) db : reads (E := E) (mret a) db (Ok a).
Proof. intros w. by exists w. Qed.
Lemma reads_throw {E A} (e : E) db : reads (A := A) (throw e) db (Err e).
Proof. intros w. by exists w. Qed.
Lemma reads_lift {E A} (r : result E A) db : reads (lift r) db r.
Proof. intros w. exists w. by destruct r. Qed.
Lemma reads_bind {E A B} (m : ST (Db * W) E A) (f : A → ST (Db * W) E B) db a r :
  reads m db (Ok a) → reads (f a) db r → reads (m ≫= f) db r.
Proof. intros Hm Hf w. destruct (Hm w) as [w' E1]. destruct (Hf w') as [w'' E2]. exists w''. by rewrite st_bind_run, E1. Qed.
Lemma reads_bind_Err {E A B} (m : ST (Db * W) E A) (f : A → ST (Db * W) E B) db e :
  reads m db (Err e) → reads (m ≫= f) db (Err e).
Proof. intros Hm w. destruct (Hm w) as [w' E1]. exists w'. by rewrite st_bind_run, E1. Qed.
Lemma reads_fmap {E A B} (g : A → B) (m : ST (Db * W) E A) db a : reads m db (Ok a) → reads (g <$> m) db (Ok (g a)).
Proof. intros Hm w. destruct (Hm w) as [w' E1]. exists w'. unfold fmap, st_fmap. by rewrite E1. Qed.
Lemma reads_unique {E A} (m : ST (Db * W) E A) db r r' `{Inhabited W} : reads m db r → reads m db r' → r = r'.
Proof. intros H1 H2. destruct (H1 inhabitant) as [w1 E1], (H2 inhabitant) as [w2 E2]. by rewrite E1 in E2; simplify_eq. Qed.

Hypothesis calm : quiet.

Lemma reads_run_sql {A} ctx (f : Db → A) db : reads (run_sql env ctx (sql_select f)) db (Ok (f db)).
Proof.
  intros w. unfold run_sql. pose proof (proj1 calm w) as Hf. destruct (env_fault env w) as [o w']. cbn in Hf. subst o.
  by exists w'.
Qed.
Lemma reads_statement {A} ctx (f : Db → A) db : reads (statement env ctx (sql_select f)) db (Ok (f db)).
Proof.
  intros w. unfold statement. rewrite st_bind_run. unfold yield_to_others. pose proof (proj2 calm (db, w)) as Ho.
  destruct (env_others env (db, w)) as [db' w']. cbn in Ho. subst db'. apply reads_run_sql.
Qed.
Lemma reads_open db : reads (open_connection env) db (Ok ()).
Proof. apply reads_statement. Qed.

(** ** Decoding rows *)
Lemma SessionKind_roundtrip k : SessionKind_from_db (SessionKind_as_str k) = Ok k.
Proof. by destruct k. Qed.
Lemma SessionState_roundtrip s : SessionState_from_db (SessionState_as_str s) = Ok s.
Proof. by destruct s. Qed.

Lemma try_from_raw_Ok id row : session_ok id row →
  ∃ r, SessionRecord_try_from_raw row = Ok r ∧ sn_parent_session_id r = sr_parent_session_id row
       ∧ sn_session_id r = id.
Proof.
  intros [Hid _ _ [k Hk] [st Hst]]. unfold SessionRecord_try_from_raw.
  rewrite Hk, Hst, SessionKind_roundtrip, SessionState_roundtrip. cbn. by eexists.
Qed.
Lemma summary_of_row_Ok db id row : session_ok id row →
  ∃ r, SessionSummaryRecord_of_row db row = Ok r ∧ ss_session_id r = id ∧ ss_parent_session_id r = sr_parent_session_id row.
Proof.
  intros [Hid _ _ [k Hk] [st Hst]]. unfold SessionSummaryRecord_of_row.
  rewrite Hk, Hst, SessionKind_roundtrip, SessionState_roundtrip. cbn. by eexists.
Qed.

Lemma normalize_trimmed id field : trimmed id → normalize_required_text id field = Ok id.
Proof. intros [Ht He]. unfold normalize_required_text. by rewrite Ht, He. Qed.

Lemma reads_load_session db id : Wf db → trimmed id →
  match db_sessions db !! id with
  | None => reads (load_session env id) db (Ok None)
  | Some row => ∃ r, reads (load_session env id) db (Ok (Some r)) ∧ sn_parent_session_id r = sr_parent_session_id row
                     ∧ sn_session_id r = id
  end.
Proof.
  intros Hwf Hid.
  assert (Hread : ∀ v, transpose SessionRecord_try_from_raw (db_sessions db !! id) = Ok v →
                       reads (load_session env id) db (Ok v)).
  { intros v Hv. unfold load_session. rewrite normalize_trimmed by done.
    eapply reads_bind; [apply reads_lift|]. eapply reads_bind; [apply reads_open|].
    eapply reads_bind; [apply reads_statement|]. unfold select_session. rewrite Hv. apply reads_lift. }
  destruct (db_sessions db !! id) as [row|] eqn:E; [|by apply Hread].
  destruct (try_from_raw_Ok id row) as (r & Hr & Hp & Hs); [by eapply wf_sessions|].
  exists r. split; [|done]. apply Hread. cbn. by rewrite Hr.
Qed.
End quiet.

(** ** Lineage *)

(** [parent_edge sessions x p]: the row of [x] names [p] as its parent. *)
Definition parent_edge (sessions : gmap string SessionRow) (x p : string) : Prop :=
  ∃ row, sessions !! x = Some row ∧ sr_parent_session_id row = Some p.

Lemma parent_edge_fun sessions x p p' : parent_edge sessions x p → parent_edge sessions x p' → p = p'.
Proof. intros (?&?&?) (?&?&?). naive_solver. Qed.

Lemma tc_first {A} (R : relation A) x y : tc R x y ↔ ∃ p, R x p ∧ (p = y ∨ tc R p y).
Proof.
  split.
  - intros [z|z p ? ? ?]; eauto.
  - intros (p & Hp & [->|Htc]); [by apply tc_once|by eapply tc_l].
Qed.

(** *** The recursive query *)
Section visible_set.
Context (sessions : gmap string SessionRow).

Lemma elem_of_visible_step V x :
  x ∈ visible_step sessions V ↔ x ∈ V ∨ ∃ p, p ∈ V ∧ parent_edge sessions x p.
Proof.
  unfold visible_step. rewrite elem_of_union. f_equiv. rewrite elem_of_dom. split.
  - intros [row Hrow%map_lookup_filter_Some]. destruct Hrow as [Hrow Hc]. cbn in Hc. unfold child_of in Hc.
    destruct (sr_parent_session_id row) as [p|] eqn:E; [|done]. apply bool_decide_eq_true in Hc.
    exists p. split; [done|]. by exists row.
  - intros (p & Hp & row & Hrow & E). exists row. apply map_lookup_filter_Some. split; [done|]. cbn.
    unfold child_of. rewrite E. by apply bool_decide_eq_true.
Qed.
Lemma visible_step_grows V : V ⊆ visible_step sessions V.
Proof. intros x Hx. apply elem_of_visible_step. by left. Qed.
Lemma visible_step_mono V V' : V ⊆ V' → visible_step sessions V ⊆ visible_step sessions V'.
Proof. intros HV x. rewrite !elem_of_visible_step. set_solver. Qed.
Lemma visible_step_dom V : V ⊆ dom sessions → visible_step sessions V ⊆ dom sessions.
Proof.
  intros HV x. rewrite elem_of_visible_step. intros [Hx|(p & _ & row & Hrow & _)]; [set_solver|].
  by eapply elem_of_dom_2.
Qed.

Lemma iter_dom n V : V ⊆ dom sessions → Nat.iter n (visible_step sessions) V ⊆ dom sessions.
Proof. intros HV. induction n as [|n IH]; [done|]. by apply visible_step_dom. Qed.

(** A round adds a session or nothing is left to add. *)
Lemma iter_grows n V : V ⊆ dom sessions → V ≢ ∅ →
  n < size (Nat.iter n (visible_step sessions) V) ∨
  visible_step sessions (Nat.iter n (visible_step sessions) V) = Nat.iter n (visible_step sessions) V.
Proof.
  intros HV HVne. induction n as [|n IH].
  - left. cbn. assert (size V ≠ 0); [|lia]. intros H%size_empty_iff. done.
  - rewrite !Nat.iter_succ. generalize dependent (Nat.iter n (visible_step sessions) V). intros U IH.
    destruct (decide (visible_step sessions U ⊆ U)) as [Hsub|Hsub].
    + right. assert (visible_step sessions U = U) as HU; [|by rewrite !HU].
      apply set_eq. intros x. split; [apply Hsub|apply visible_step_grows].
    + left. destruct IH as [IH|IH]; [|by rewrite IH in Hsub].
      assert (size U < size (visible_step sessions U)); [|lia]. apply subset_size. split; [|done].
      apply visible_step_grows.
Qed.

Lemma iter_empty n : Nat.iter n (visible_step sessions) ∅ = ∅.
Proof.
  induction n as [|n IH]; [done|]. rewrite Nat.iter_succ, IH. apply set_eq. intros x.
  rewrite elem_of_visible_step. set_solver.
Qed.

Lemma iter_closed V : V ⊆ dom sessions →
  visible_step sessions (Nat.iter (size sessions) (visible_step sessions) V)
  = Nat.iter (size sessions) (visible_step sessions) V.
Proof.
  intros HV. destruct (decide (V ≡ ∅)) as [->%leibniz_equiv|HVne].
  - rewrite iter_empty. apply (iter_empty 1).
  - destruct (iter_grows (size sessions) V HV HVne) as [Hlt|]; [|done].
    assert (size (Nat.iter (size sessions) (visible_step sessions) V) ≤ size (dom sessions)).
    { by apply subseteq_size, iter_dom. }
    rewrite size_dom in *. lia.
Qed.

(** What the query selects: the session, if it exists, and what descends from it. *)
Lemma visible_set_spec c x :
  x ∈ visible_set sessions c ↔ is_Some (sessions !! c) ∧ rtc (parent_edge sessions) x c.
Proof.
  unfold visible_set. destruct (sessions !! c) as [row|] eqn:Ec; cycle 1.
  { rewrite iter_empty. split; [set_solver|by intros [[? [=]] _]]. }
  assert ({[c]} ⊆ dom sessions) as Hdom. { intros y ->%elem_of_singleton. by eapply elem_of_dom_2. }
  split.
  - intros Hx. split; [done|]. revert x Hx. induction (size sessions) as [|n IH].
    + intros x Hx. cbn in Hx. apply elem_of_singleton in Hx as ->. done.
    + intros x. rewrite Nat.iter_succ, elem_of_visible_step. intros [Hx|(p & Hp & He)]; [by apply IH|].
      eapply rtc_l; [done|]. by apply IH.
  - intros [_ Hx]. clear Ec row. induction Hx as [x|x p c He Hpc IH].
    + induction (size sessions) as [|n IH]; [set_solver|]. rewrite Nat.iter_succ. by apply visible_step_grows.
    + rewrite <-iter_closed by done. apply elem_of_visible_step. right. exists p. split; [by apply IH|done].
Qed.
End visible_set.

(** *** The loop *)
Section visible_loop.
Context {W : Type} (env : DbEnv W) (calm : quiet env) (db : Db) (wf : Wf db).
Abbreviation sessions := (db_sessions db).

Lemma parent_trimmed x p : parent_edge sessions x p → trimmed p.
Proof. intros (row & Hrow & Hp). by apply (so_parent x row); [by eapply wf_sessions|]. Qed.

(** The sessions already seen lead to the next one, not over the current one. *)
Definition walked (current : string) (seen : gset string) (next : string) : Prop :=
  ∀ x, x ∈ seen → ∃ p, parent_edge sessions x p ∧ p ≠ current ∧ (p ∈ seen ∨ p = next).

Lemma walked_dom current seen next : walked current seen next → seen ⊆ dom sessions.
Proof. intros Hw x Hx. destruct (Hw x Hx) as (p & (row & Hrow & _) & _). by eapply elem_of_dom_2. Qed.

(** Back at a session that was seen, the walk never meets the current one. *)
Lemma walked_cycle current seen next :
  walked current seen next → next ∈ seen → ¬ tc (parent_edge sessions) next current.
Proof.
  intros Hw Hn. assert (∀ x c, tc (parent_edge sessions) x c → x ∈ seen → c ≠ current) as Hno; [|naive_solver].
  intros x c Htc. induction Htc as [x c He|x p c He Htc IH]; intros Hx; destruct (Hw x Hx) as (q & Hq & Hne & Hin);
    rewrite (parent_edge_fun _ _ _ _ He Hq) in *; [done|].
  apply IH. by destruct Hin as [| ->].
Qed.

Lemma visible_loop_spec fuel current seen id :
  trimmed id → walked current seen id → size sessions + 1 < fuel + size seen →
  (reads (visible_loop env fuel current seen id) db (Ok (Some true)) ∧ tc (parent_edge sessions) id current)
  ∨ ((reads (visible_loop env fuel current seen id) db (Ok (Some false))
      ∨ ∃ e, reads (visible_loop env fuel current seen id) db (Err e))
     ∧ ¬ tc (parent_edge sessions) id current).
Proof.
  revert seen id. induction fuel as [|fuel IH]; intros seen id Hid Hw Hfuel.
  { pose proof (subseteq_size _ _ (walked_dom _ _ _ Hw)). rewrite size_dom in *. lia. }
  cbn [visible_loop]. case_bool_decide as Hseen.
  { right. split; [right; eexists; apply reads_throw|]. by eapply walked_cycle. }
  pose proof (reads_load_session env calm db id wf Hid) as Hload.
  destruct (db_sessions db !! id) as [row|] eqn:Erow; cycle 1.
  { right. rewrite tc_first. split; [left; eapply reads_bind; [done|]; apply reads_ret|].
    intros (p & (? & ? & _) & _). congruence. }
  destruct Hload as (r & Hload & Hparent & _). rewrite tc_first.
  destruct (sr_parent_session_id row) as [p|] eqn:Ep; cycle 1.
  { right. split; [left; eapply reads_bind; [done|]; cbn beta iota; rewrite Hparent; apply reads_ret|].
    intros (p & (? & ? & ?) & _). congruence. }
  assert (He : parent_edge sessions id p) by (by exists row).
  assert (Hall : ∀ q, parent_edge sessions id q → q = p) by (intros q Hq; by eapply parent_edge_fun).
  destruct (decide (p = current)) as [->|Hne].
  { left. split; [|by exists current; split; [|left]]. eapply reads_bind; [done|]. cbn beta iota. rewrite Hparent.
    rewrite bool_decide_true by done. apply reads_ret. }
  assert (Hrun : ∀ x, reads (visible_loop env fuel current ({[id]} ∪ seen) p) db x →
    reads (visible_loop env (S fuel) current seen id) db x).
  { intros x Hx. cbn [visible_loop]. rewrite bool_decide_false by done. eapply reads_bind; [done|]. cbn beta iota. rewrite Hparent. by rewrite bool_decide_false. }
  assert (Hw' : walked current ({[id]} ∪ seen) p).
  { intros x [->%elem_of_singleton|Hx]%elem_of_union; [by exists p; split_and!; auto|].
    destruct (Hw x Hx) as (q & Hq & Hqc & Hin). exists q. split_and!; [done..|]. set_solver. }
  destruct (IH ({[id]} ∪ seen) p) as [[Hr Ht]|[Hr Ht]]; [by eapply parent_trimmed|done| | |].
  { rewrite size_union, size_singleton by set_solver. lia. }
  - left. split; [by apply Hrun in Hr; cbn [visible_loop] in Hr; rewrite bool_decide_false in Hr by done|].
    exists p. auto.
  - right. split; [|intros (q & Hq & [->|Htc]); rewrite (Hall _ Hq) in *; auto].
    destruct Hr as [Hr|[e Hr]]; apply Hrun in Hr; cbn [visible_loop] in Hr; rewrite bool_decide_false in Hr by done; eauto.
Qed.
End visible_loop.

(** ** Lists of decoded rows *)
Lemma map_rows_Ok {A B} (f : A → result string B) (P : A → B → Prop) l :
  Forall (λ a, ∃ b, f a = Ok b ∧ P a b) l → ∃ bs, map_rows f l = Ok bs ∧ Forall2 P l bs.
Proof.
  induction 1 as [|a l (b & Hb & HP) _ (bs & Hbs & HPs)]; cbn; [by eexists|].
  rewrite Hb. cbn. rewrite Hbs. cbn. eauto.
Qed.

Lemma map_rows_fmap {A B} (f : A → result string B) (g : A → B) l :
  Forall (λ a, f a = Ok (g a)) l → map_rows f l = Ok (g <$> l).
Proof. induction 1 as [|a l Ha _ IH]; cbn; [done|]. rewrite Ha. cbn. by rewrite IH. Qed.

Lemma elem_of_rows {A} (m : gmap string A) x : x ∈ rows m ↔ ∃ k, m !! k = Some x.
Proof.
  unfold rows. rewrite list_elem_of_fmap. split.
  - intros ([k y] & -> & Hy%elem_of_map_to_list). eauto.
  - intros [k Hk]. exists (k, x). by rewrite elem_of_map_to_list.
Qed.

Section listing.
Context {W : Type} (env : DbEnv W) (calm : quiet env) (db : Db) (wf : Wf db).

Lemma select_visible_spec current : ∃ l, select_visible current db = Ok l ∧
  ∀ x, x ∈ ss_session_id <$> l ↔ x ∈ visible_set (db_sessions db) current.
Proof.
  unfold select_visible.
  set (sel := filter (λ p : string * SessionRow, _) (db_sessions db)).
  destruct (map_rows_Ok (SessionSummaryRecord_of_row db) (λ row b, ss_session_id b = sr_session_id row)
              (merge_sort row_newest_first (rows sel))) as (l & Hl & HP).
  { rewrite merge_sort_Permutation. apply Forall_forall. intros row [k Hk]%elem_of_rows.
    apply map_lookup_filter_Some in Hk as [Hk _]. pose proof (wf_sessions _ wf k row Hk) as Hok.
    destruct (summary_of_row_Ok db k row Hok) as (b & Hb & Hid & _). exists b. by rewrite Hid, (so_id k row Hok). }
  exists l. split; [done|]. intros x. rewrite (list_elem_of_fmap ss_session_id).
  transitivity (∃ row, row ∈ rows sel ∧ sr_session_id row = x).
  - setoid_rewrite <-(merge_sort_Permutation row_newest_first (rows sel)). split.
    + intros (b & -> & Hb). apply list_elem_of_lookup_1 in Hb as [i Hi].
      destruct (Forall2_lookup_r _ _ _ _ _ HP Hi) as (row & Hrow & E). exists row. split; [|done].
      by eapply list_elem_of_lookup_2.
    + intros (row & Hrow & <-). apply list_elem_of_lookup_1 in Hrow as [i Hi].
      destruct (Forall2_lookup_l _ _ _ _ _ HP Hi) as (b & Hb & E). exists b. split; [done|].
      by eapply list_elem_of_lookup_2.
  - split.
    + intros (row & [k Hk]%elem_of_rows & <-). apply map_lookup_filter_Some in Hk as [Hk Hin].
      by rewrite (so_id k row (wf_sessions _ wf k row Hk)).
    + intros Hx. pose proof Hx as Hdom. apply visible_set_spec in Hdom as [Hc Hrtc].
      assert (is_Some (db_sessions db !! x)) as [row Hrow]. { destruct Hrtc as [|x p c (row & Hrow & _)]; eauto. }
      exists row. split; [|by rewrite (so_id x row (wf_sessions _ wf x row Hrow))].
      apply elem_of_rows. exists x. by apply map_lookup_filter_Some.
Qed.

Lemma reads_list_visible current : is_Some (db_sessions db !! current) →
  ∃ l, reads (list_visible_sessions env current) db (Ok l) ∧
       ∀ x, x ∈ ss_session_id <$> l ↔ x ∈ visible_set (db_sessions db) current.
Proof.
  intros [row Hrow]. destruct (select_visible_spec current) as (l & Hl & Hspec). exists l. split; [|done].
  unfold list_visible_sessions. rewrite normalize_trimmed by (by eapply so_trimmed, wf_sessions).
  eapply reads_bind; [apply reads_lift|]. eapply reads_bind; [by apply reads_open|].
  eapply reads_bind; [by apply reads_statement|]. rewrite Hl. eapply reads_bind; [apply reads_lift|].
  rewrite bool_decide_true; [apply reads_ret|].
  assert (current ∈ ss_session_id <$> l) as (s & -> & Hs)%list_elem_of_fmap.
  { apply Hspec, visible_set_spec. split; [by eexists|done]. }
  apply Exists_exists. by exists s.
Qed.

(** A session with turns only has a summary. *)
Lemma reads_legacy_summary current : trimmed current →
  ∃ o, reads (infer_legacy_session_summary env current) db (Ok o) ∧
    match o with
    | Some summary => ss_session_id summary = current ∧ session_turns current db ≠ []
    | None => session_turns current db = []
    end.
Proof.
  intros Hc. unfold infer_legacy_session_summary. rewrite normalize_trimmed by done.
  destruct (session_turns current db) as [|turn turns] eqn:Et; eexists; (split;
    [do 2 (eapply reads_bind; [first [apply reads_lift|by apply reads_open]|]);
     unfold infer_legacy_session_summary_with_conn; eapply reads_bind; [by apply reads_statement|];
     cbv beta zeta iota; rewrite Et|]).
  - apply reads_ret.
  - done.
  - rewrite (proj2 (Z.leb_gt _ _)) by (unfold len; cbn; lia). apply reads_ret.
  - done.
Qed.

(** A session without a row lists at most itself. *)
Lemma reads_list_legacy current : trimmed current → db_sessions db !! current = None →
  ∃ l, reads (list_visible_sessions env current) db (Ok l) ∧
       ∀ x, x ∈ ss_session_id <$> l ↔ x = current ∧ session_turns current db ≠ [].
Proof.
  intros Hc Hrow. destruct (select_visible_spec current) as (l & Hl & Hspec).
  assert (l = []) as ->.
  { destruct l as [|b l]; [done|]. assert (ss_session_id b ∈ ss_session_id <$> b :: l) as Hb by (by left).
    apply Hspec, visible_set_spec in Hb as [[row Hb] _]. congruence. }
  destruct (reads_legacy_summary current Hc) as (o & Ho & Hsum).
  exists (match o with Some legacy => [legacy] | None => [] end). split.
  - unfold list_visible_sessions. rewrite normalize_trimmed by done.
    eapply reads_bind; [apply reads_lift|]. eapply reads_bind; [by apply reads_open|].
    eapply reads_bind; [by apply reads_statement|]. rewrite Hl. eapply reads_bind; [apply reads_lift|].
    rewrite bool_decide_false by (by intros ?%Exists_nil).
    eapply reads_bind; [exact Ho|]. destruct o; apply reads_ret.
  - intros x. destruct o as [summary|]; cbn.
    + destruct Hsum as [-> Ht]. rewrite list_elem_of_singleton. naive_solver.
    + rewrite Hsum. set_solver.
Qed.

(** C12. In well-formed tables that nobody writes meanwhile, and when no statement
    fails, the check that walks up from the target lets a session see exactly
    itself and what descends from it, and with a step for every session it ends
    (at the current session, at a root, or with the report of a cycle). For a
    current session that has a row these are exactly the sessions that the
    recursive query lists, walking down from it. One without a row lists itself
    if there are turns of it, and nothing else: not the sessions that name it as
    their parent, which the check lets it see. *)
Theorem visibility_check_agrees_with_the_listing current target fuel :
  trimmed current → trimmed target → size (db_sessions db) + 2 ≤ fuel →
  ∃ l r, reads (list_visible_sessions env current) db (Ok l) ∧
         reads (is_session_visible env fuel current target) db r ∧
         (r = Ok (Some true) ↔ rtc (parent_edge (db_sessions db)) target current) ∧ r ≠ Ok None ∧
         match db_sessions db !! current with
         | Some _ => r = Ok (Some true) ↔ target ∈ ss_session_id <$> l
         | None => target ∈ ss_session_id <$> l ↔ target = current ∧ session_turns current db ≠ []
         end.
Proof.
  intros Hct Ht Hfuel.
  assert (∃ r, reads (is_session_visible env fuel current target) db r ∧
    (r = Ok (Some true) ↔ rtc (parent_edge (db_sessions db)) target current) ∧ r ≠ Ok None) as (r & Hr & Hiff & Hends).
  { assert (∀ r, reads (if bool_decide (current = target) then mret (Some true)
                        else visible_loop env fuel current ∅ target) db r →
                 reads (is_session_visible env fuel current target) db r) as Hvis.
    { intros r Hr. unfold is_session_visible. rewrite !normalize_trimmed by done.
      by do 2 (eapply reads_bind; [apply reads_lift|]). }
    setoid_rewrite rtc_tc. destruct (decide (current = target)) as [->|Hne].
    { exists (Ok (Some true)). split_and!; [|naive_solver|done]. apply Hvis. rewrite bool_decide_true by done.
      apply reads_ret. }
    rewrite bool_decide_false in Hvis by done.
    destruct (visible_loop_spec env calm db wf fuel current ∅ target) as [[Hr Htc]|[[Hr|[e Hr]] Htc]];
      [done|intros ?; set_solver|rewrite size_empty; lia|..];
      apply Hvis in Hr; eexists; (split_and!; [exact Hr|naive_solver|done]). }
  destruct (db_sessions db !! current) as [row|] eqn:Erow.
  - assert (is_Some (db_sessions db !! current)) as Hc by (by eexists).
    destruct (reads_list_visible current Hc) as (l & Hl & Hspec). exists l, r. split_and!; [done..|].
    rewrite Hspec, visible_set_spec, Hiff. naive_solver.
  - destruct (reads_list_legacy current Hct Erow) as (l & Hl & Hspec). exists l, r. by split_and!.
Qed.
End listing.

(** ** Reading events in pages *)
Definition events_ordered (db : Db) : Prop := StronglySorted (λ e e', er_id e < er_id e')%Z (db_events db).

(** The events of a session after an id *)
Definition events_after (db : Db) (session_id : string) (after_id : Z) : list EventRow :=
  filter (λ e, er_session_id e = session_id ∧ (after_id < er_id e)%Z) (db_events db).

Lemma map_rows_app {A B} (f : A → result string B) l l' :
  map_rows f (l ++ l') = map_rows f l ≫= λ bs, map_rows f l' ≫= λ bs', Ok (bs ++ bs').
Proof.
  induction l as [|a l IH]; cbn; [by destruct (map_rows f l')|]. destruct (f a) as [b|]; [|done]. cbn.
  rewrite IH. destruct (map_rows f l) as [bs|]; [|done]. cbn. by destruct (map_rows f l').
Qed.

Lemma map_rows_last json l bs :
  map_rows (SessionEventRecord_try_from_raw json) l = Ok bs → se_id <$> last bs = er_id <$> last l.
Proof.
  revert bs. induction l as [|a l IH]; cbn [map_rows]; intros bs H; [by simplify_eq|].
  destruct (SessionEventRecord_try_from_raw json a) as [b|] eqn:Eb; [|done].
  assert (se_id b = er_id a) as Hb.
  { unfold SessionEventRecord_try_from_raw in Eb. by destruct (jt_from_str _ _); simplify_eq/=. }
  cbn in H. destruct (map_rows _ l) as [bs'|] eqn:E; [|done]. cbn in H. simplify_eq.
  specialize (IH bs' eq_refl). rewrite !last_cons. destruct (last l), (last bs'); simplify_eq/=; by rewrite ?Hb, ?IH.
Qed.

Lemma sql_limit_prefix {A} limit (l : list A) : is_u64 limit → limit ≠ 0%Z →
  ∃ k, sql_limit (to_i64 limit) l = take (S k) l.
Proof.
  intros [H0 H1] Hne. unfold sql_limit. assert (to_i64 limit ≠ 0%Z) as Hn.
  { unfold to_i64, u64_max in *. intros He. assert ((limit + 2 ^ 63) mod 2 ^ 64 = 2 ^ 63)%Z as Hm by lia.
    pose proof (Z.div_mod (limit + 2 ^ 63) (2 ^ 64)). lia. }
  destruct (Z.ltb_spec (to_i64 limit) 0); [exists (length l); by rewrite take_ge by lia|].
  exists (Z.to_nat (to_i64 limit) - 1). f_equal. lia.
Qed.

(** After a page, what is left is what comes after its last event. *)
Lemma sorted_rest (l : list EventRow) k e : StronglySorted (λ e e', er_id e < er_id e')%Z l →
  last (take (S k) l) = Some e → filter (λ x, (er_id e < er_id x)%Z) l = drop (S k) l.
Proof.
  intros Hs. revert k. induction Hs as [|a l Hs IH Ha]; intros k Hlast; [done|].
  cbn [take drop] in *. rewrite last_cons in Hlast.
  destruct (last (take k l)) as [e'|] eqn:El; simplify_eq.
  - destruct k as [|k]; [done|]. rewrite filter_cons, decide_False; [by apply IH|].
    apply last_Some_elem_of, elem_of_take in El as (i & Hi & _).
    apply list_elem_of_lookup_2 in Hi. rewrite Forall_forall in Ha. specialize (Ha _ Hi). lia.
  - assert (k = 0 ∨ l = []) as Hk. { apply last_None in El. destruct k, l; auto; done. }
    rewrite filter_cons, decide_False by lia.
    destruct Hk as [->| ->]; [|by rewrite drop_nil]. clear -Ha. cbn.
    induction Ha as [|x l Hx _ IH]; [done|]. by rewrite filter_cons, decide_True, IH.
Qed.

Lemma StronglySorted_filter {A} (R : A → A → Prop) (P : A → Prop) `{∀ x, Decision (P x)} l :
  StronglySorted R l → StronglySorted R (filter P l).
Proof.
  induction 1 as [|a l _ IH Ha]; [constructor|]. rewrite filter_cons. case_decide; [|done].
  constructor; [done|]. rewrite Forall_forall in *. intros x Hx%list_elem_of_filter. naive_solver.
Qed.

Lemma events_after_page db session_id after k e : events_ordered db →
  last (take (S k) (events_after db session_id after)) = Some e →
  events_after db session_id (er_id e) = drop (S k) (events_after db session_id after).
Proof.
  intros Hord Hlast. rewrite <-(sorted_rest _ k e) by (done || by apply StronglySorted_filter).
  unfold events_after. rewrite list_filter_filter. apply list_filter_iff. intros x.
  assert (after < er_id e)%Z; [|naive_solver lia].
  apply last_Some_elem_of, elem_of_take in Hlast as (i & Hi & _).
  apply list_elem_of_lookup_2, list_elem_of_filter in Hi. tauto.
Qed.

Section pages.
Context {W : Type} (env : DbEnv W) (json : JsonText) (calm : quiet env) (db : Db) (ordered : events_ordered db).
Context (session_id : string) (page_limit : Z) (Hlimit : is_u64 page_limit) (Hpage : page_limit ≠ 0%Z).

Lemma drain_pages_done fuel after acc : length (events_after db session_id after) < fuel →
  reads (drain_pages json fuel (in_tx env) session_id after page_limit acc) db
    ((λ l, Some (acc ++ l)) <$> map_rows (SessionEventRecord_try_from_raw json) (events_after db session_id after)).
Proof.
  revert after acc. induction fuel as [|fuel IH]; intros after acc Hfuel; [lia|]. cbn [drain_pages].
  destruct (sql_limit_prefix page_limit (events_after db session_id after) Hlimit Hpage) as [k Hk].
  assert (reads (list_events_after_with_conn json (in_tx env) session_id after page_limit) db
            (map_rows (SessionEventRecord_try_from_raw json) (take (S k) (events_after db session_id after)))) as Hread.
  { unfold list_events_after_with_conn. eapply reads_bind; [by apply reads_run_sql|]. rewrite <-Hk. apply reads_lift. }
  rewrite <-(take_drop (S k) (events_after db session_id after)) at 1.
  rewrite map_rows_app. destruct (map_rows _ (take _ _)) as [page|e] eqn:Epage; cycle 1.
  { cbn. by eapply reads_bind_Err. }
  eapply reads_bind; [done|]. pose proof (map_rows_last _ _ _ Epage) as Hlast. cbn [mbind result_bind].
  destruct (last (take (S k) (events_after db session_id after))) as [e|] eqn:El; cycle 1.
  { destruct (last page) eqn:Ep; [done|]. apply last_None in Ep as ->. apply last_None in El.
    destruct (events_after db session_id after) eqn:Ev; [|done]. cbn. rewrite app_nil_r. apply reads_ret. }
  destruct (last page) as [r|] eqn:Ep; [|done]. cbn in Hlast. injection Hlast as ->.
  pose proof (events_after_page _ _ _ _ _ ordered El) as Hrest.
  specialize (IH (er_id e) (acc ++ page)). rewrite Hrest in IH. destruct (map_rows _ (drop _ _)) as [rest|] eqn:Er.
  all: cbn in *; rewrite ?app_assoc in *; apply IH; rewrite length_drop;
    destruct (events_after db session_id after); cbn in *; [done|lia].
Qed.

(** Reading events page by page returns exactly what one query without a
    limit would: every later event of the session, once and in order, whatever
    the size of a page. *)
Theorem event_pages_equal_one_query after :
  reads (drain_events_after_with_conn json (in_tx env) session_id after page_limit) db
    (map_rows (SessionEventRecord_try_from_raw json) (events_after db session_id (Z.max after 0))).
Proof.
  intros w. unfold drain_events_after_with_conn. rewrite (proj2 (Z.eqb_neq _ _) Hpage). cbn [fst].
  destruct (drain_pages_done (S (length (db_events db))) (Z.max after 0) []
              ltac:(apply Nat.lt_succ_r, length_filter) w) as [w' E].
  exists w'. unfold fmap, st_fmap. rewrite E. by destruct (map_rows _ _).
Qed.
End pages.

(** Ids of events grow, since each insertion takes the next one. *)
Definition events_numbered (db : Db) : Prop :=
  events_ordered db ∧ Forall (λ e, er_id e ≤ db_event_seq db)%Z (db_events db).
Lemma insert_event_numbered session_id kind actor payload ts :
  sql_evolves (λ db db', events_numbered db → events_numbered db')
    (sql_insert_event session_id kind actor payload ts).
Proof.
  intros db id db' [= <- <-] [Ho Hb]. unfold events_numbered, events_ordered in *. cbn. split.
  - apply StronglySorted_app. split_and!; [|done|by repeat constructor].
    intros x y Hx ->%list_elem_of_singleton. cbn. rewrite Forall_forall in Hb. specialize (Hb _ Hx). lia.
  - apply Forall_app. split; [|by constructor]. eapply Forall_impl; [exact Hb|]. cbn. lia.
Qed.

(** ** The limit on active children *)
Section limit.
Context {W : Type} (env : DbEnv W) (json : JsonText) (parent : string) (max_active_children : nat).

(** The limit holds, and keeps holding. *)
Definition within_limit (db db' : Db) : Prop :=
  count_active_children parent db ≤ max_active_children → count_active_children parent db' ≤ max_active_children.
#[local] Instance within_limit_preorder : PreOrder within_limit.
Proof. split; [by intros db ?|]. intros a b c. unfold within_limit. auto. Qed.

Lemma count_insert_session row db db' :
  sql_insert_session row db = Ok ((), db') → count_active_children parent db' ≤ S (count_active_children parent db).
Proof.
  unfold sql_insert_session. destruct (db_sessions db !! sr_session_id row) eqn:E; [done|]. intros [= <-].
  unfold count_active_children. cbn. rewrite map_filter_insert. case_decide.
  - rewrite map_size_insert. destruct (filter _ _ !! _); cbn; lia.
  - rewrite delete_id by done. lia.
Qed.

Lemma create_in_tx_count request s event s' :
  create_session_with_event_in_tx env json request s = (Ok event, s') →
  count_active_children parent s'.1 ≤ S (count_active_children parent s.1).
Proof.
  unfold create_session_with_event_in_tx. intros (id & s1 & [= _ <-] & H)%st_bind_Ok.
  apply st_bind_Ok in H as (kind & s2 & [= _ <-] & H). apply st_bind_Ok in H as (ts & s3 & Hts & H).
  assert (s3.1 = s.1) as <-.
  { destruct s as [db w]. unfold unix_ts_now in Hts. destruct (env_clock env w). by simplify_eq. }
  apply st_bind_Ok in H as ([] & s4 & Hins%run_sql_Ok & H). apply count_insert_session in Hins.
  apply st_bind_Ok in H as (n & s5 & Hev%run_sql_Ok & [= _ <-]). unfold sql_insert_event in Hev. cbn zeta in Hev.
  injection Hev as _ <-. done.
Qed.

(** C11. While other connections keep the limit on active children of a session,
    so does creating a delegate child: a child is only inserted in a transaction
    that has counted fewer active children than the limit allows. *)
Theorem child_creation_keeps_the_limit {T} (build : nat → result string (CreateSessionWithEventRequest * T)) s :
  trimmed parent → env_evolves env within_limit →
  within_limit s.1
    (create_delegate_child_session_with_event_if_within_limit env json parent max_active_children build s).2.1.
Proof.
  intros Hp others. revert s. change (evolves within_limit
    (create_delegate_child_session_with_event_if_within_limit env json parent max_active_children build)).
  unfold create_delegate_child_session_with_event_if_within_limit. rewrite normalize_trimmed by done.
  apply evolves_bind_post; [apply _|evolve|]. intros s0 p' s0' [= <- _].
  apply evolves_bind; [apply _|evolve|intros _].
  apply evolves_bind; [apply _| |unfold reload_session, load_session; evolve].
  apply evolves_transaction; [apply _|exact others|].
  intros s r s' (active & s1 & Hc%run_sql_Ok & H)%st_bind_Ok Hlim. injection Hc as Ha Hc. case_bool_decide as Hmax; [done|].
  apply st_bind_Ok in H as ([request sidecar] & s2 & [= _ <-] & H). apply st_bind_Ok in H as ([] & s3 & [= _ <-] & H).
  apply st_bind_Ok in H as (event & s4 & Hcr%create_in_tx_count & [= _ <-]). rewrite <-Hc in Hcr. lia.
Qed.
End limit.

(** ** Examples *)
Module SessionRepoDemo.

Definition calm_env : DbEnv unit := mkDbEnv (λ w, (None, w)) (λ s, s) (λ w, (7%Z, w)).
Lemma calm_env_quiet : quiet calm_env.
Proof. by split; intros []. Qed.

Definition demo_json : JsonText := mkJsonText (λ _, "{}") (λ _, Ok (JObject [])).
Definition demo_row (id kind : string) (parent : option string) : SessionRow :=
  mkSessionRow id kind parent None "running" 1 1 None.
(** A root, its child and grandchild, and another root *)
Definition demo_db : Db :=
  mkDb (list_to_map [("root", demo_row "root" "root" None);
                     ("child", demo_row "child" "delegate_child" (Some "root"));
                     ("grandchild", demo_row "grandchild" "delegate_child" (Some "child"));
                     ("other", demo_row "other" "root" None)])
    ((λ n, mkEventRow n (if (n =? 3)%Z then "other" else "child") "note" None "{}" 1) <$> [1; 2; 3; 4; 5]%Z)
    5 ∅ ∅ ∅ [].

Lemma demo_wf : Wf demo_db.
Proof.
  split; [|done]. unfold demo_db. cbn [db_sessions list_to_map foldr fst snd].
  repeat (apply map_Forall_insert_2; [split; cbn; [done|by split| |first [by exists Kind_Root|by exists Kind_DelegateChild]|by exists State_Running];
    intros p [= <-]; by split|]). apply map_Forall_empty.
Qed.

Lemma visibility_witness :
  is_session_visible calm_env 6 "root" "grandchild" (demo_db, ()) = (Ok (Some true), (demo_db, ()))
  ∧ ∃ l r, reads (list_visible_sessions calm_env "root") demo_db (Ok l) ∧
           reads (is_session_visible calm_env 6 "root" "grandchild") demo_db r ∧
           (r = Ok (Some true) ↔ rtc (parent_edge (db_sessions demo_db)) "grandchild" "root") ∧ r ≠ Ok None ∧
           (r = Ok (Some true) ↔ "grandchild" ∈ ss_session_id <$> l).
Proof.
  split; [by vm_compute|].
  apply (visibility_check_agrees_with_the_listing calm_env calm_env_quiet demo_db demo_wf "root" "grandchild" 6).
  - by split.
  - by split.
  - vm_compute. lia.
Defined.

Lemma pages_witness :
  reads (drain_events_after_with_conn demo_json (in_tx calm_env) "child" 1 2) demo_db
    (Ok ((λ n, mkSessionEventRecord n "child" "note" None (JObject []) 1) <$> [2; 4; 5]%Z)).
Proof.
  apply (event_pages_equal_one_query calm_env demo_json calm_env_quiet demo_db ltac:(by repeat constructor) "child" 2
           ltac:(by split) ltac:(done) 1).
Defined.

Lemma limit_witness :
  count_active_children "root" demo_db = 1 ∧
  within_limit "root" 2 demo_db
    (create_delegate_child_session_with_event_if_within_limit calm_env demo_json "root" 2
       (λ _, Ok (mkCreateSessionWithEventRequest
                   (mkNewSessionRecord "new" Kind_DelegateChild (Some "root") None State_Ready) "note" None
                   (JObject []), ())) (demo_db, ())).2.1.
Proof.
  split; [by vm_compute|].
  apply (child_creation_keeps_the_limit calm_env demo_json "root" 2 _ (demo_db, ())); [by split|].
  intros s H. exact H.
Defined.
End SessionRepoDemo.
