(* ===== verification/ApprovalProps.v ===== *)
(** * ApprovalProps: what an approval is worth

    A governed call runs without being asked for only under a grant; the call
    that is replayed is the call that was asked for; a request is resolved once;
    a grant for always covers the whole lineage. *)
From S2P Require Import Prelude RustStr Contracts Errors Json ToolRuntimeConfig ToolCatalog ToolNames ToolConfig ToolLease Turn.
From S2P Require Import Ingress TurnEngine SessionDb SessionRepo SessionLaws SessionRepoProps Approvals Subagent.
From S2P Require Import SessionTools Delegation AppTools AppToolLaws AppRuntime.

(** ** Requests that are no longer pending *)
Definition settled (id : string) (db : Db) : Prop :=
  ∃ row, db_requests db !! id = Some row ∧ rr_status row ≠ "pending".

Lemma status_never_pending s s' : rtc status_edge s s' → s ≠ "pending" → s' ≠ "pending".
Proof. induction 1 as [|s t u He _ IH]; [done|]. intros _. apply IH. by inversion He. Qed.

Lemma settled_stays id db db' : Lawful db db' → settled id db → settled id db'.
Proof.
  intros L (row & Hrow & Hs). destruct (law_requests _ _ L _ _ Hrow) as (row' & Hrow' & M).
  exists row'. split; [done|]. by eapply status_never_pending; [apply (rm_status _ _ M)|].
Qed.

Lemma evolves_run {W E A} (m : ST (Db * W) E A) s r s' : evolves Lawful m → m s = (r, s') → Lawful s.1 s'.1.
Proof. intros Hm E'. specialize (Hm s). by rewrite E' in Hm. Qed.

Lemma Some_fmap_Ok {S E A B} (g : A → B) (m : ST S E A) s b s' :
  (g <$> m) s = (Ok b, s') → ∃ x, m s = (Ok x, s') ∧ b = g x.
Proof. unfold fmap, st_fmap. destruct (m s) as [[x|] s1]; naive_solver. Qed.

(** [m] returns only what [Q] allows when the request is settled. *)
Section under.
Context {W : Type} (id : string).
Abbreviation DB := (ST (Db * W) string).
Definition under {A} (m : DB A) (Q : A → Prop) : Prop :=
  ∀ s a s', settled id s.1 → m s = (Ok a, s') → Q a.

Lemma under_bind {A B} (m : DB A) (f : A → DB B) Q' Q :
  evolves Lawful m → under m Q' → (∀ a, Q' a → under (f a) Q) → under (m ≫= f) Q.
Proof.
  intros Hm HQ Hf s b s' Hs (a & s1 & E1 & E2)%st_bind_Ok. eapply Hf; [by eapply HQ| |exact E2].
  eapply settled_stays; [by eapply evolves_run|done].
Qed.
Lemma under_step {A B} (m : DB A) (f : A → DB B) Q :
  evolves Lawful m → (∀ a, under (f a) Q) → under (m ≫= f) Q.
Proof. intros Hm Hf. apply (under_bind m f (λ _, True)); [done|by intros ? ? ? ?|auto]. Qed.

(** What follows a refusal does not matter. *)
Lemma refused_ext {A B} (m : DB A) (f g : A → DB B) s :
  settled id s.1 → under m (λ _, False) → (m ≫= f) s = (m ≫= g) s.
Proof.
  intros Hs Hm. rewrite !st_bind_run. destruct (m s) as [[a|e] s'] eqn:E; [|done]. destruct (Hm s a s' Hs E).
Qed.
Lemma step_ext {A B} (m : DB A) (f g : A → DB B) s :
  evolves Lawful m → settled id s.1 → (∀ a s, settled id s.1 → f a s = g a s) → (m ≫= f) s = (m ≫= g) s.
Proof.
  intros Hm Hs Hfg. rewrite !st_bind_run. specialize (Hm s). destruct (m s) as [[a|e] s'] eqn:E; [|done].
  apply Hfg. by eapply settled_stays.
Qed.
End under.

Section decide.
Context {W : Type} (env : DbEnv W) (json : JsonText).
Hypothesis others : env_evolves env Lawful.

Lemma update_settled id ctx f :
  under id (statement env ctx (sql_update_request id "pending" f)) (λ n, n = 0).
Proof.
  intros s n s' Hs H. unfold statement, yield_to_others in H. rewrite st_bind_run in H. apply run_sql_Ok in H.
  eapply settled_stays in Hs as (row & Hrow & Hne); [|apply others].
  unfold sql_update_request in H. rewrite Hrow in H. rewrite bool_decide_false in H by done. by injection H.
Qed.

Lemma decision_clock_lawful (status : ApprovalRequestStatus) :
  evolves Lawful (match status with
                  | Status_Approved | Status_Denied => Some <$> unix_ts_now env
                  | _ => mret None
                  end : ST (Db * W) string (option Z)).
Proof. destruct status; evolve. Qed.

(** A decision on a settled request is no transition. *)
Lemma decision_moves decision current ts r : rr_status r = "pending" →
  request_moves r (transition_request_row (decision_transition decision current) ts r)
  ∧ ∀ id, request_ok id r → request_ok id (transition_request_row (decision_transition decision current) ts r).
Proof.
  intros Hr. split; [|intros; by apply transition_row_ok]. apply transition_row_moves; [done|].
  destruct decision; apply rtc_once; constructor.
Qed.

Lemma transition_settled id decision current :
  under (trim id) (transition_approval_request_if_current env json id (decision_transition decision current))
    (λ o, o = None).
Proof.
  unfold transition_approval_request_if_current.
  apply (under_bind _ _ _ (λ id', id' = trim id)); [evolve| |].
  { intros s id' s' _ [= H _]. unfold normalize_required_text in H. destruct (is_empty (trim id)); congruence. }
  intros ? ->. apply under_step; [apply decision_clock_lawful|]. intros ts. apply under_step; [evolve|intros _].
  eapply under_bind; [|apply update_settled|].
  - apply evolves_statement; [apply _|exact others|]. apply update_request_lawful. apply decision_moves.
  - intros n ->. rewrite bool_decide_true by done. by intros s a s' _ [= <- _].
Qed.

Lemma transition_decision_lawful id decision current :
  evolves Lawful (transition_approval_request_if_current env json id (decision_transition decision current)).
Proof. apply transition_request_lawful; [exact others|]. destruct decision; apply rtc_once; constructor. Qed.

Lemma decide_settled request : under (trim (rq_approval_request_id request)) (decide_request env json request) (λ _, False).
Proof.
  unfold decide_request. eapply under_bind; [apply transition_decision_lawful|apply transition_settled|].
  intros ? ->. intros s a s' _ H. run_inv. 
Qed.

(** A decision that was taken settles the request. *)
Lemma decided_settles request s d s' :
  decide_request env json request s = (Ok d, s') → settled (trim (rq_approval_request_id request)) s'.1.
Proof.
  unfold decide_request. intros (o & s1 & H1 & H)%st_bind_Ok. destruct o as [d'|]; [|run_inv].
  injection H as <- <-. unfold transition_approval_request_if_current in H1.
  apply st_bind_Ok in H1 as (id' & s2 & [= Hid <-] & H1).
  assert (id' = trim (rq_approval_request_id request)) as ->.
  { unfold normalize_required_text in Hid. destruct (is_empty _); congruence. }
  apply st_bind_Ok in H1 as (ts & s3 & _ & H1). apply st_bind_Ok in H1 as ([] & s4 & _ & H1).
  apply st_bind_Ok in H1 as (n & s5 & Hst & H1). case_bool_decide as Hn; [done|].
  apply Some_fmap_Ok in H1 as (d & H1 & _). eapply settled_stays.
  { eapply evolves_run; [|exact H1]. apply reload_request_lawful, others. }
  unfold statement, yield_to_others in Hst. rewrite st_bind_run in Hst. apply run_sql_Ok in Hst.
  unfold sql_update_request in Hst. destruct (db_requests _ !! _) as [row|]; [|by injection Hst as <- _].
  destruct (bool_decide _); [|by injection Hst as <- _]. injection Hst as <- <-.
  eexists. split; [apply lookup_insert_eq|]. by destruct (rq_decision request).
Qed.
End decide.

(** ** Resolving *)
Section resolve.
Context {W : Type} (a : AppWorld W) (tools : ToolConfig).
Hypothesis world : WorldLawful a.
Abbreviation env := (aw_env a).
Abbreviation json := (aw_json a).

Lemma resolve_request_lawful request : evolves Lawful (resolve_request a tools request).
Proof.
  destruct world. apply resolve_lawful; try done; intros;
    [by apply delegate_lawful|by apply delegate_async_lawful|by apply session_context_lawful].
Qed.

Lemma resolve_settled request : under (trim (rq_approval_request_id request)) (resolve_request a tools request) (λ _, False).
Proof.
  pose proof (wl_others _ world) as others. unfold resolve_request, resolve_approval_request.
  do 3 (apply under_step; [evolve|intros ?]). apply under_step; [by apply ensure_visible_lawful|intros _].
  eapply under_bind; [by apply decide_request_lawful|by apply decide_settled|done].
Qed.

(** Nothing of the outside but the tables, their text form and the fuel takes part. *)
Definition same_tables {W} (a a' : AppWorld W) : Prop :=
  aw_env a' = aw_env a ∧ aw_json a' = aw_json a ∧ aw_fuel a' = aw_fuel a.

Lemma resolve_settled_ext a' tools' request s :
  same_tables a a' → settled (trim (rq_approval_request_id request)) s.1 →
  resolve_request a' tools' request s = resolve_request a tools request s.
Proof.
  intros (He & Hj & Hf) Hs. pose proof (wl_others _ world) as others.
  unfold resolve_request, resolve_approval_request. rewrite He, Hj, Hf.
  do 3 (eapply step_ext; [evolve|exact Hs|]; clear s Hs; intros ? s Hs).
  eapply step_ext; [by apply ensure_visible_lawful|exact Hs|]. clear s Hs. intros ? s Hs.
  eapply refused_ext; [exact Hs|]. by apply decide_settled.
Qed.

Lemma execute_approved_world_lawful id :
  evolves Lawful
    (execute_approved_request env json (aw_fuel a) (aw_polls a) tools (aw_window_direct a) (aw_elapsed_ms a)
       (aw_sleep_ms a) (aw_sessions_send a) (aw_browser_companion a) (delegate_tool a tools)
       (delegate_async_tool a tools) (runtime_context a tools) id).
Proof.
  destruct world. apply execute_approved_lawful; try done; intros;
    [by apply delegate_lawful|by apply delegate_async_lawful|by apply session_context_lawful].
Qed.

(** What happens before and after the decision *)
Lemma resolve_Ok_inv request s o s' :
  resolve_request a tools request s = (Ok o, s') →
  ∃ d s1 s2, Lawful s.1 s1.1 ∧ decide_request env json request s1 = (Ok d, s2) ∧ Lawful s2.1 s'.1 ∧
    (rq_decision request = Decision_ApproveAlways →
     ∃ root s3 s4 g, lineage_root_session_id env (aw_fuel a) (aq_session_id d) s2 = (Ok (Some (Some root)), s3) ∧
       upsert_approval_grant env (mkNewApprovalGrantRecord root (aq_approval_key d)
                                    (Some (rq_current_session_id request))) s3 = (Ok g, s4) ∧
       Lawful s4.1 s'.1).
Proof.
  pose proof (wl_others _ world) as others. intros H. unfold resolve_request, resolve_approval_request in H.
  apply st_bind_Ok in H as ([] & s1 & H1 & H). apply st_bind_Ok in H as (r & s2 & H2 & H).
  apply st_bind_Ok in H as (r' & s3 & [= _ <-] & H). apply st_bind_Ok in H as ([] & s4 & H4 & H).
  apply st_bind_Ok in H as (d & s5 & H5 & H). exists d, s4, s5.
  eapply evolves_run in H1; [|by apply new_lawful]. eapply evolves_run in H2; [|by apply load_request_lawful].
  eapply evolves_run in H4; [|by apply ensure_visible_lawful].
  assert (Lawful s.1 s4.1) as L1 by (by trans s1.1; [|trans s2.1]).
  pose proof execute_approved_world_lawful as Hexec. split; [done|split; [done|]].
  destruct (rq_decision request) eqn:Ed.
  - eapply evolves_run in H; [done|apply Hexec].
  - apply st_bind_Ok in H as (root & s6 & H6 & H). apply st_bind_Ok in H as (root' & s6' & [= Hroot <-] & H).
    destruct root as [root|]; [|done]. injection Hroot as ->. apply st_bind_Ok in H as (g & s7 & H7 & H).
    eapply evolves_run in H; [|apply Hexec]. unfold ended in H6.
    apply st_bind_Ok in H6 as (o6 & s8 & H6 & [= Ho6 <-]). destruct o6 as [o6|]; [|done]. injection Ho6 as ->.
    assert (Lawful s5.1 s'.1) as L2.
    { trans s8.1; [eapply evolves_run; [|exact H6]; by apply root_lawful|].
      trans s7.1; [eapply evolves_run; [|exact H7]; by apply upsert_approval_grant_lawful|done]. }
    split; [done|]. intros _. by exists root', s8, s7, g.
  - injection H as _ <-. done.
Qed.

(** C8. A request is resolved once. After a call that resolved it, and whatever
    lawful happens afterwards, every further call that tries to resolve it fails,
    before any tool, child session or hook of the outside could take part. *)
Theorem request_is_resolved_once request s o s1 request' s2 :
  resolve_request a tools request s = (Ok o, s1) → Lawful s1.1 s2.1 →
  trim (rq_approval_request_id request') = trim (rq_approval_request_id request) →
  ∃ e s3, ∀ a' tools', same_tables a a' → resolve_request a' tools' request' s2 = (Err e, s3).
Proof.
  intros (d & s3 & s4 & _ & Hd & L & _)%resolve_Ok_inv L' Hid.
  assert (settled (trim (rq_approval_request_id request')) s2.1) as Hs.
  { rewrite Hid. eapply settled_stays; [exact L'|]. eapply settled_stays; [exact L|].
    by eapply decided_settles; [apply (wl_others _ world)|]. }
  destruct (resolve_request a tools request' s2) as [[o'|e] s5] eqn:E.
  { by destruct (resolve_settled _ _ _ _ Hs E). }
  exists e, s5. intros a' tools' Hsame. by rewrite (resolve_settled_ext a' tools').
Qed.
End resolve.

(** ** Lineage under interference *)
Lemma parent_edge_stays db db' x p :
  Lawful db db' → parent_edge (db_sessions db) x p → parent_edge (db_sessions db') x p.
Proof.
  intros L (row & Hrow & Hp). destruct (law_sessions _ _ L _ _ Hrow) as (row' & Hrow' & M).
  exists row'. split; [done|]. by rewrite (sm_parent _ _ M).
Qed.
Lemma lineage_stays db db' x p :
  Lawful db db' → rtc (parent_edge (db_sessions db)) x p → rtc (parent_edge (db_sessions db')) x p.
Proof. intros L H. induction H; [done|]. eapply rtc_l; [by eapply parent_edge_stays|done]. Qed.

(** A session that exists and has no parent *)
Definition is_root (db : Db) (id : string) : Prop :=
  ∃ row, db_sessions db !! id = Some row ∧ sr_parent_session_id row = None.
Lemma is_root_stays db db' id : Lawful db db' → is_root db id → is_root db' id.
Proof.
  intros L (row & Hrow & Hp). destruct (law_sessions _ _ L _ _ Hrow) as (row' & Hrow' & M).
  exists row'. split; [done|]. by rewrite (sm_parent _ _ M).
Qed.

(** The end of a session's lineage: nothing is above it, because its row names
    no parent or because it has no row. *)
Definition lineage_root (db : Db) (id root : string) : Prop :=
  rtc (parent_edge (db_sessions db)) id root ∧ ∀ p, ¬ parent_edge (db_sessions db) root p.

Section lineage.
Context {W : Type} (env : DbEnv W).
Hypothesis others : env_evolves env Lawful.

Lemma load_session_Some id s r s' : trimmed id → load_session env id s = (Ok (Some r), s') →
  ∃ row, db_sessions s'.1 !! id = Some row ∧ sn_parent_session_id r = sr_parent_session_id row
         ∧ sn_session_id r = sr_session_id row.
Proof.
  intros Hid H. unfold load_session in H. rewrite normalize_trimmed in H by done.
  apply st_bind_Ok in H as (id' & s0 & [= <- <-] & H). apply st_bind_Ok in H as ([] & s1 & _ & H).
  apply st_bind_Ok in H as (raw & s2 & Hst & [= Hr <-]).
  unfold statement, yield_to_others in Hst. rewrite st_bind_run in Hst. apply run_sql_Ok in Hst.
  injection Hst as Hraw Hs2. unfold select_session in Hraw. rewrite <-Hs2, Hraw.
  destruct raw as [row|]; cbn in Hr; [|done]. exists row. split; [done|].
  unfold SessionRecord_try_from_raw in Hr. by destruct (SessionKind_from_db _), (SessionState_from_db _); simplify_eq/=.
Qed.

Lemma load_session_keeps id s r s' : load_session env id s = (r, s') → Lawful s.1 s'.1.
Proof. apply evolves_run, load_session_lawful, others. Qed.

Lemma wf_parent db x p : Wf db → parent_edge (db_sessions db) x p → trimmed p.
Proof. intros Hwf (row & Hrow & Hp). by eapply so_parent, Hp; apply (wf_sessions _ Hwf x row). Qed.

Lemma load_session_absent id s o s' : trimmed id → load_session env id s = (Ok o, s') →
  o ≫= sn_parent_session_id = None → ∀ p, ¬ parent_edge (db_sessions s'.1) id p.
Proof.
  intros Hid H Ho p (row & Hrow & Hp). destruct o as [r|].
  - apply load_session_Some in H as (row' & Hrow' & Hp' & _); [|done]. cbn in Ho. congruence.
  - unfold load_session in H. rewrite normalize_trimmed in H by done.
    apply st_bind_Ok in H as (id' & s0 & [= <- <-] & H). apply st_bind_Ok in H as ([] & s1 & _ & H).
    apply st_bind_Ok in H as (raw & s2 & Hst & [= Hr <-]).
    unfold statement, yield_to_others in Hst. rewrite st_bind_run in Hst. apply run_sql_Ok in Hst.
    injection Hst as Hraw Hs2. unfold select_session in Hraw. rewrite <-Hs2, Hraw in Hrow. rewrite Hrow in Hr. cbn in Hr.
    unfold SessionRecord_try_from_raw in Hr. by destruct (SessionKind_from_db _), (SessionState_from_db _); simplify_eq/=.
Qed.

Lemma grant_scope_lineage fuel seen id s scope s' : Wf s.1 → trimmed id →
  grant_scope_loop env fuel seen id s = (Ok (Some scope), s') →
  lineage_root s'.1 id scope ∧ trimmed scope.
Proof.
  revert seen id s. induction fuel as [|fuel IH]; intros seen id s Hwf Hid H; cbn [grant_scope_loop] in H; [done|].
  case_bool_decide; [done|]. apply st_bind_Ok in H as (o & s1 & Hl & H).
  pose proof (load_session_keeps _ _ _ _ Hl) as L1.
  destruct (o ≫= sn_parent_session_id) as [p|] eqn:Ep.
  2: { injection H as <- <-. split; [|done]. split; [done|]. by eapply load_session_absent. }
  destruct o as [r|]; [|done]. cbn in Ep. apply load_session_Some in Hl as (row & Hrow & Hp & _); [|done].
  assert (parent_edge (db_sessions s1.1) id p) as He by (exists row; split; [done|congruence]).
  assert (Wf s1.1) as Hwf1 by (by apply (law_wf _ _ L1)).
  pose proof (IH _ _ _ Hwf1 (wf_parent _ _ _ Hwf1 He) H) as [[Hr Htop] Ht]. split; [|done]. split; [|done].
  eapply rtc_l; [|exact Hr]. eapply parent_edge_stays; [|exact He].
  eapply evolves_run; [|exact H]. by apply grant_scope_lawful.
Qed.

Lemma root_lineage fuel seen id s root s' : Wf s.1 → trimmed id →
  root_loop env fuel seen id s = (Ok (Some (Some root)), s') →
  rtc (parent_edge (db_sessions s'.1)) id root ∧ is_root s'.1 root.
Proof.
  revert seen id s. induction fuel as [|fuel IH]; intros seen id s Hwf Hid H; cbn [root_loop] in H; [done|].
  case_bool_decide; [done|]. cbn zeta in H. apply st_bind_Ok in H as (o & s1 & Hl & H).
  pose proof (load_session_keeps _ _ _ _ Hl) as L1. assert (Wf s1.1) as Hwf1 by (by apply (law_wf _ _ L1)).
  destruct o as [r|]; [|by case_bool_decide]. apply load_session_Some in Hl as (row & Hrow & Hp & Hn); [|done].
  destruct (sn_parent_session_id r) as [p|] eqn:Ep.
  - assert (parent_edge (db_sessions s1.1) id p) as He by (exists row; split; [done|congruence]).
    pose proof (IH _ _ _ Hwf1 (wf_parent _ _ _ Hwf1 He) H) as [Hr Ht]. split; [|done].
    eapply rtc_l; [|exact Hr]. eapply parent_edge_stays; [|exact He].
    eapply evolves_run; [|exact H]. by apply root_loop_lawful.
  - injection H as <- <-. rewrite Hn, (so_id id row (wf_sessions _ Hwf1 id row Hrow)). split; [done|].
    exists row. split; [done|congruence].
Qed.

(** A grant that is loaded was there. *)
Lemma normalize_is_trim v f x : normalize_required_text v f = Ok x → x = trim v.
Proof. unfold normalize_required_text. destruct (is_empty (trim v)); congruence. Qed.

Lemma load_grant_Some scope key s g s' : load_approval_grant env scope key s = (Ok (Some g), s') →
  (trim scope, trim key) ∈ dom (db_grants s'.1).
Proof.
  intros H. unfold load_approval_grant in H.
  apply st_bind_Ok in H as (? & s0 & [= ->%normalize_is_trim <-] & H).
  apply st_bind_Ok in H as (? & s0 & [= ->%normalize_is_trim <-] & H).
  apply st_bind_Ok in H as ([] & s1 & _ & H). apply st_bind_Ok in H as (raw & s2 & Hst & [= Hr <-]).
  unfold statement, yield_to_others in Hst. rewrite st_bind_run in Hst. apply run_sql_Ok in Hst.
  injection Hst as Hraw Hs2. rewrite <-Hs2. apply elem_of_dom. destruct raw; [|done]. by rewrite Hraw.
Qed.

(** A request that is loaded is that of its row. *)
Lemma load_request_raw json id s r s' : load_approval_request env json id s = (Ok (Some r), s') →
  ∃ row, db_requests s'.1 !! trim id = Some row ∧ ApprovalRequestRecord_try_from_raw json row = Ok r.
Proof.
  intros H. unfold load_approval_request in H.
  apply st_bind_Ok in H as (? & s0 & [= ->%normalize_is_trim <-] & H). apply st_bind_Ok in H as ([] & s1 & _ & H).
  apply st_bind_Ok in H as (raw & s2 & Hst & [= Hr <-]).
  unfold statement, yield_to_others in Hst. rewrite st_bind_run in Hst. apply run_sql_Ok in Hst.
  injection Hst as Hraw Hs2. rewrite <-Hs2, Hraw. destruct raw as [row|]; [|done]. exists row. split; [done|].
  cbn in Hr. by destruct (ApprovalRequestRecord_try_from_raw json row); simplify_eq/=.
Qed.

Lemma raw_request_fields json row r : ApprovalRequestRecord_try_from_raw json row = Ok r →
  aq_session_id r = rr_session_id row ∧ aq_approval_key r = rr_approval_key row
  ∧ jt_from_str json (rr_request_payload_json row) = Ok (aq_request_payload_json r).
Proof.
  unfold ApprovalRequestRecord_try_from_raw. destruct (ApprovalRequestStatus_from_db _); [|done].
  destruct (transpose _ _); [|done]. destruct (jt_from_str _ (rr_request_payload_json row)); [|done].
  destruct (jt_from_str _ (rr_governance_snapshot_json row)); [|done]. by intros [= <-].
Qed.

Lemma upsert_grant_there record s g s' : upsert_approval_grant env record s = (Ok g, s') →
  (trim (ng_scope_session_id record), trim (ng_approval_key record)) ∈ dom (db_grants s'.1).
Proof.
  intros H. unfold upsert_approval_grant in H.
  apply st_bind_Ok in H as (? & s0 & [= ->%normalize_is_trim <-] & H).
  apply st_bind_Ok in H as (? & s0 & [= ->%normalize_is_trim <-] & H).
  apply st_bind_Ok in H as (o & s1 & _ & H). destruct o; [|done].
  do 3 apply st_bind_Ok in H as (? & ? & _ & H). apply st_bind_Ok in H as (o & s2 & Hg & [= Ho <-]).
  destruct o as [g'|]; [|done]. apply load_grant_Some in Hg. by rewrite !trim_idemp in Hg.
Qed.
End lineage.

(** ** The gate *)
Section gate.
Context {W : Type} (a : AppWorld W) (tools : ToolConfig).
Hypothesis world : WorldLawful a.

(** The grant a session may rely on between two states of the tables: for the
    key, at the root that its lineage had when it was looked up in between *)
Definition granted (before after : Db) (session_id key : string) : Prop :=
  ∃ db root, Lawful before db ∧ Lawful db after ∧ lineage_root db session_id root ∧
    (root, trim key) ∈ dom (db_grants after).

(** What the gate lets through *)
Lemma gate_opens context intent d s s' : Wf s.1 → trimmed (sc_session_id context) →
  ad_maybe_require_approval (app_tools a tools) context intent d s = (Ok None, s') →
  approval_policy (tc_approval tools) d = Policy_Run ∨
  approval_policy (tc_approval tools) d = Policy_Ask ∧ granted s.1 s'.1 (sc_session_id context) (approval_key d).
Proof.
  intros Hwf Hid H. pose proof (wl_others _ world) as others. cbn in H. unfold maybe_require_approval in H.
  destruct (approval_policy _ d) eqn:Ep; [by left|done|right; split; [done|]].
  apply st_bind_Ok in H as ([] & s1 & H1 & H). apply st_bind_Ok in H as (r & s2 & H2 & H).
  apply st_bind_Ok in H as (scope & s3 & H3 & H). apply st_bind_Ok in H as (g & s4 & H4 & H).
  destruct g as [g|]; [|by apply st_bind_Ok in H as (? & ? & _ & [=])]. injection H as <-.
  assert (Lawful s.1 s2.1) as L2.
  { trans s1.1.
    - eapply evolves_run; [|exact H1]. by apply new_lawful.
    - eapply evolves_run; [|exact H2]. by apply ensure_session_lawful. }
  assert (Wf s2.1) as Hwf2 by (by apply (law_wf s.1)).
  unfold dispatcher_lineage_root_session_id, ended in H3. apply st_bind_Ok in H3 as (o & s5 & H3 & [= Ho <-]).
  destruct o as [scope'|]; [|done]. injection Ho as ->.
  assert (Lawful s2.1 s5.1) as L5 by (eapply evolves_run; [|exact H3]; by apply grant_scope_lawful).
  apply grant_scope_lineage in H3 as [Hr [Ht _]]; [|done..].
  exists s5.1, scope. split; [by trans s2.1|]. split; [by eapply evolves_run; [|exact H4]; apply load_grant_lawful|].
  split; [done|]. rewrite <-Ht. by apply load_grant_Some in H4.
Qed.

Section prepare.
Context (codec : LeaseCodec) (secret : string) (unix_now : Db * W → Z)
  (kernel : option (ToolCoreRequest → bool → ST (Db * W) KernelError ToolCoreOutcome)).

(** C7. No governed application tool gets ready to run without consent. When the
    turn engine accepts a call of an application tool, under its own name or
    inside tool.invoke, the configuration lets that tool run without asking, or
    the root of the session's lineage, as the call looked it up, holds a grant
    for it. The root is the session at the end of the lineage, which has no
    parent or no row. *)
Theorem governed_tools_run_only_with_consent intent context ingress s p s' :
  Wf s.1 → trimmed (sc_session_id context) →
  prepare_tool_intent codec secret unix_now narrowing_to_value kernel (app_tools a tools) intent context ingress s
  = (Ok p, s') →
  pi_execution_kind p = Exec_App →
  ∃ d, catalog_resolve (tcr_tool_name (pi_request p)) = Some d ∧
       (approval_policy (tc_approval tools) d = Policy_Run ∨
        approval_policy (tc_approval tools) d = Policy_Ask ∧
        granted s.1 s'.1 (sc_session_id context) (approval_key d)).
Proof.
  intros Hwf Hid H Hkind. unfold prepare_tool_intent in H. destruct (resolve_tool_execution _) as [r|]; [|done].
  cbn zeta in H. destruct (if bool_decide _ then _ else _) as [[kind req] eff].
  destruct (catalog_resolve (tcr_tool_name req)) as [d|] eqn:Ed; [|done]. destruct kind.
  { destruct kernel; [|done]. by injection H as <- _. }
  destruct (ad_maybe_require_approval _ context eff d s) as [[[]|] s1] eqn:Eg; [done| |done].
  injection H as <- <-. exists d. split; [done|]. by eapply gate_opens.
Qed.
End prepare.
End gate.

(** ** What a grant for always covers *)
Section always.
Context {W : Type} (env : DbEnv W) (calm : quiet env) (db : Db) (wf : Wf db).
Abbreviation up := (parent_edge (db_sessions db)).

(** Above a session there is one path to a root, of one length. *)
Lemma path_length n m x root : is_root db root → nsteps up n x root → nsteps up m x root → n = m.
Proof.
  intros (row & Hrow & Hnone). assert (∀ p, ¬ up root p) as Hend by (intros p (? & ? & ?); congruence).
  revert m x. induction n as [|n IH]; intros [|m] x Hn Hm; [done|..].
  - inversion Hn; subst. inversion Hm; subst. by edestruct Hend.
  - inversion Hn; subst. inversion Hm; subst. by edestruct Hend.
  - inversion Hn as [|? ? p ? He Hn']; subst. inversion Hm as [|? ? q ? He' Hm']; subst.
    rewrite (parent_edge_fun _ _ _ _ He He') in *. f_equal. by eapply IH.
Qed.

Lemma root_unique x r r' : is_root db r → is_root db r' → rtc up x r → rtc up x r' → r = r'.
Proof.
  intros (row & Hrow & Hnone) (row' & Hrow' & Hnone') H. revert r' row' Hrow' Hnone'.
  induction H as [x|x p r He H IH]; intros r' row' Hrow' Hnone' H'.
  - destruct H' as [|? q ? (? & ? & ?)]; [done|congruence].
  - destruct H' as [|? q ? He' H']; [by destruct He as (? & ? & ?); congruence|].
    rewrite (parent_edge_fun _ _ _ _ He He') in *. eauto.
Qed.

Lemma reads_grant_scope n fuel seen id root :
  is_root db root → trimmed id → nsteps up n id root → n < fuel →
  (∀ x, x ∈ seen → ∃ m, n < m ∧ nsteps up m x root) →
  reads (grant_scope_loop env fuel seen id) db (Ok (Some root)).
Proof.
  intros Hroot. revert fuel seen id. induction n as [|n IH]; intros [|fuel] seen id Hid Hn Hfuel Hseen;
    [lia| |lia|]; cbn [grant_scope_loop].
  all: rewrite bool_decide_false by
    (intros (m & Hm & Hpath)%Hseen; pose proof (path_length _ _ _ _ Hroot Hn Hpath); lia).
  all: pose proof (reads_load_session env calm db id wf Hid) as Hload.
  - assert (id = root) as -> by (by inversion Hn). destruct Hroot as (row & Hrow & Hnone). rewrite Hrow in Hload.
    destruct Hload as (r & Hload & Hp & _). eapply reads_bind; [exact Hload|]. cbn. rewrite Hp, Hnone. apply reads_ret.
  - inversion Hn as [|? ? p ? He Hn']; subst. pose proof He as (row & Hrow & Hsome). rewrite Hrow in Hload.
    destruct Hload as (r & Hload & Hp & _). eapply reads_bind; [exact Hload|]. cbn. rewrite Hp, Hsome.
    apply IH; [by eapply wf_parent|done|lia|].
    intros x [->%elem_of_singleton|Hx]%elem_of_union; [by exists (S n); split; [lia|]|].
    destruct (Hseen x Hx) as (m & Hm & Hpath). exists m. split; [lia|done].
Qed.

Lemma reads_load_grant scope key : trimmed scope → trimmed key → (scope, key) ∈ dom (db_grants db) →
  ∃ g, reads (load_approval_grant env scope key) db (Ok (Some g)).
Proof.
  intros Hs Hk [row Hrow]%elem_of_dom. eexists. unfold load_approval_grant. rewrite !normalize_trimmed by done.
  do 2 (eapply reads_bind; [apply reads_lift|]). eapply reads_bind; [by apply reads_open|].
  eapply reads_bind; [by apply reads_statement|]. rewrite Hrow. apply reads_lift.
Qed.
End always.

Section covers.
Context {W : Type} (a : AppWorld W) (tools : ToolConfig).
Hypothesis world : WorldLawful a.
Hypothesis calm : quiet (aw_env a).

Lemma reads_gate db context intent d root n :
  Wf db → is_root db root → trimmed (sc_session_id context) → trimmed (approval_key d) →
  nsteps (parent_edge (db_sessions db)) n (sc_session_id context) root → n < aw_fuel a →
  (root, approval_key d) ∈ dom (db_grants db) →
  approval_policy (tc_approval tools) d = Policy_Ask →
  reads (ad_maybe_require_approval (app_tools a tools) context intent d) db (Ok None).
Proof.
  intros Hwf Hroot Hid Hkey Hn Hfuel Hg Hask. cbn. unfold maybe_require_approval. rewrite Hask.
  eapply reads_bind; [by apply reads_statement|].
  assert (∃ r, reads (ensure_session (aw_env a) (mkNewSessionRecord (sc_session_id context)
     (match sc_parent_session_id context with Some _ => Kind_DelegateChild | None => Kind_Root end)
     (sc_parent_session_id context) None State_Ready)) db (Ok r)) as [r Hr].
  { pose proof (reads_load_session (aw_env a) calm db _ Hwf Hid) as Hload.
    assert (is_Some (db_sessions db !! sc_session_id context)) as [row Hrow].
    { inversion Hn as [|? ? p ? (row & Hrow & _)]; subst; [|by eexists]. destruct Hroot as (row & -> & _). by eexists. }
    rewrite Hrow in Hload. destruct Hload as (r & Hload & _). exists r. unfold ensure_session. cbn [ns_session_id].
    rewrite normalize_trimmed by done. eapply reads_bind; [apply reads_lift|]. eapply reads_bind; [exact Hload|].
    apply reads_ret. }
  eapply reads_bind; [exact Hr|]. eapply reads_bind.
  { unfold dispatcher_lineage_root_session_id, ended. eapply reads_bind.
    - eapply reads_grant_scope; [done|done|done|done|exact Hn|done|intros x []%not_elem_of_empty].
    - apply reads_lift. }
  assert (trimmed root) as Ht. { destruct Hroot as (row & Hrow & _). by eapply so_trimmed, (wf_sessions _ Hwf). }
  destruct (reads_load_grant (aw_env a) calm db root (approval_key d)) as [g Hgr]; [done..|].
  eapply reads_bind; [exact Hgr|]. apply reads_ret.
Qed.

(** The record that comes back from a decision is that of the request. *)
Lemma load_request_row id s r s' : load_approval_request (aw_env a) (aw_json a) id s = (Ok (Some r), s') →
  ∃ row, db_requests s'.1 !! trim id = Some row ∧ aq_session_id r = rr_session_id row
         ∧ aq_approval_key r = rr_approval_key row.
Proof. intros (row & Hrow & Hr)%load_request_raw. apply raw_request_fields in Hr as (? & ? & _). by exists row. Qed.

Lemma decided_record request s d s' row :
  db_requests s.1 !! trim (rq_approval_request_id request) = Some row →
  decide_request (aw_env a) (aw_json a) request s = (Ok d, s') →
  aq_session_id d = rr_session_id row ∧ aq_approval_key d = rr_approval_key row.
Proof.
  pose proof (wl_others _ world) as others. intros Hrow H.
  assert (Lawful s.1 s'.1) as L by (eapply evolves_run; [|exact H]; by apply decide_request_lawful).
  unfold decide_request in H. apply st_bind_Ok in H as (o & s1 & H1 & H). destruct o as [d'|]; [|run_inv].
  injection H as <- <-. unfold transition_approval_request_if_current in H1.
  apply st_bind_Ok in H1 as (? & s2 & [= ->%normalize_is_trim <-] & H1).
  do 3 apply st_bind_Ok in H1 as (? & ? & _ & H1). case_bool_decide; [done|].
  apply Some_fmap_Ok in H1 as (d & H1 & [= ->]). unfold reload_request in H1.
  apply st_bind_Ok in H1 as (o & s3 & H1 & [= Ho <-]). destruct o as [r|]; [|done]. injection Ho as ->.
  apply load_request_row in H1 as (row' & Hrow' & -> & ->). rewrite trim_idemp in Hrow'.
  destruct (law_requests _ _ L _ _ Hrow) as (row'' & Hrow'' & M). simplify_eq.
  split; [apply (rm_session _ _ M)|apply (rm_key _ _ M)].
Qed.

(** Approving a request for always covers the lineage: in every later state,
    a session below the root of the session that asked runs the same tool without
    being asked again. *)
Theorem approve_always_covers_the_lineage request row s o s1 db context intent d root n :
  Wf s.1 → db_requests s.1 !! trim (rq_approval_request_id request) = Some row →
  trimmed (rr_session_id row) → rr_approval_key row = approval_key d → trimmed (approval_key d) →
  rq_decision request = Decision_ApproveAlways →
  resolve_request a tools request s = (Ok o, s1) → Lawful s1.1 db →
  rtc (parent_edge (db_sessions db)) (rr_session_id row) root → is_root db root →
  trimmed (sc_session_id context) →
  nsteps (parent_edge (db_sessions db)) n (sc_session_id context) root → n < aw_fuel a →
  reads (ad_maybe_require_approval (app_tools a tools) context intent d) db
    (match approval_policy (tc_approval tools) d with
     | Policy_Refuse => Err ("app_tool_denied: governed tool `" +:+ approval_key d +:+ "` is denied by approval policy")
     | _ => Ok None
     end).
Proof.
  intros Hwf Hrow Hsid Hkey Hkt Hdec H L Hrtc Hroot Hid Hn Hfuel.
  pose proof (wl_others _ world) as others.
  apply resolve_Ok_inv in H as (dr & s2 & s3 & L1 & Hd & L2 & Hgrant); [|done].
  destruct (Hgrant Hdec) as (root' & s4 & s5 & g & Hr & Hu & L3).
  destruct (law_requests _ _ L1 _ _ Hrow) as (row2 & Hrow2 & M).
  destruct (decided_record _ _ _ _ _ Hrow2 Hd) as [Hs Hk]. rewrite (rm_session _ _ M) in Hs. rewrite (rm_key _ _ M) in Hk.
  assert (Wf s3.1) as Hwf3.
  { apply (law_wf s2.1), (law_wf s.1); [eapply evolves_run; [|exact Hd]; by apply decide_request_lawful|done..]. }
  assert (Lawful s4.1 db) as L4.
  { trans s5.1; [eapply evolves_run; [|exact Hu]; by apply upsert_approval_grant_lawful|by trans s1.1]. }
  unfold lineage_root_session_id in Hr. rewrite Hs, normalize_trimmed in Hr by done.
  apply st_bind_Ok in Hr as (? & ? & [= <- <-] & Hr). pose proof Hr as Hrun.
  apply root_lineage in Hr as [Hr1 Hr2]; [|done..].
  eapply lineage_stays in Hr1; [|exact L4]. eapply is_root_stays in Hr2; [|exact L4].
  assert (root' = root) as ->.
  { by eapply root_unique. }
  assert (Wf db) as Hwfdb by (apply (law_wf _ _ L4), (law_wf s3.1); [eapply evolves_run; [|exact Hrun]; by apply root_loop_lawful|done]).
  assert ((root, approval_key d) ∈ dom (db_grants db)) as Hg.
  { apply upsert_grant_there in Hu. cbn [ng_scope_session_id ng_approval_key] in Hu.
    destruct Hroot as (rrow & Hrrow & _). destruct (so_trimmed _ _ (wf_sessions _ Hwfdb _ _ Hrrow)) as [Hrt _].
    rewrite Hrt, Hk, Hkey, (proj1 Hkt) in Hu. apply (law_grants s5.1); [by trans s1.1|done]. }
  destruct (approval_policy (tc_approval tools) d) eqn:Ep; [| |by eapply reads_gate].
  all: cbn; unfold maybe_require_approval; rewrite Ep; first [apply reads_ret|apply reads_throw].
Qed.
End covers.

(** ** What is replayed *)
Lemma catalog_names_trimmed d : d ∈ tool_catalog → trimmed (td_name d).
Proof.
  assert (Forall (λ d, trimmed (td_name d)) tool_catalog) as H; [|by apply (proj1 (Forall_forall _ _) H)].
  unfold trimmed. apply Forall_forall. intros x Hx.
  assert (forallb (λ d, bool_decide (trim (td_name d) = td_name d) && negb (is_empty (td_name d))) tool_catalog = true)
    as Hall by (by vm_compute).
  rewrite forallb_forall in Hall. specialize (Hall x ltac:(by apply list_elem_of_In)).
  apply andb_true_iff in Hall as [H1 H2]. apply bool_decide_eq_true in H1. by apply negb_true_iff in H2.
Qed.

Lemma asked_is_app config d : approval_policy config d = Policy_Ask → td_execution_kind d = Exec_App.
Proof. unfold approval_policy. by destruct (td_execution_kind d). Qed.

(** The payload of a request says which call to make. *)
Lemma replay_of_payload context intent d r :
  d ∈ tool_catalog → td_execution_kind d = Exec_App →
  aq_request_payload_json r = approval_request_payload context intent d →
  replay_request r = Ok (mkToolCoreRequest (td_name d) (in_args_json intent)).
Proof.
  intros Hd Hk Hp. unfold replay_request. rewrite Hp.
  assert (json_get_str "execution_kind" (approval_request_payload context intent d) = Some "app") as ->.
  { unfold json_get_str, approval_request_payload, json_object. rewrite Hk, json_get_obj. read_fields. done. }
  assert (json_get_str "tool_name" (approval_request_payload context intent d) = Some (td_name d)) as Hn.
  { unfold json_get_str, approval_request_payload, json_object. rewrite json_get_obj. read_fields. done. }
  assert (json_get "args_json" (approval_request_payload context intent d) = Some (in_args_json intent)) as ->.
  { unfold approval_request_payload, json_object. rewrite json_get_obj. read_fields. done. }
  unfold payload_text. rewrite Hn. destruct (catalog_names_trimmed d Hd) as [Ht He]. cbn. by rewrite Ht, He.
Qed.

Section replayed.
Context {W : Type} (a : AppWorld W) (tools : ToolConfig).
Hypothesis others : env_evolves (aw_env a) Lawful.

(** A request that is not there is not there later. *)
Section free.
Context (id : string).
Definition stays_free (db db' : Db) : Prop := db_requests db !! id = None → db_requests db' !! id = None.
#[local] Instance stays_free_preorder : PreOrder stays_free.
Proof. unfold stays_free. split; [by intros db|]. intros x y z. auto. Qed.

(** No other connection stores the request. *)
Hypothesis apart : env_evolves (aw_env a) stays_free.

Lemma insert_session_free row : sql_evolves stays_free (sql_insert_session row).
Proof. intros db x db'. unfold stays_free, sql_insert_session. by destruct (_ !! _); intros [= _ <-] || done. Qed.

Lemma load_session_free session_id : evolves stays_free (load_session (aw_env a) session_id).
Proof. pose proof apart. unfold load_session. evolve. Qed.

Lemma ensure_session_free r : evolves stays_free (ensure_session (aw_env a) r).
Proof.
  pose proof apart. pose proof load_session_free. pose proof insert_session_free.
  unfold ensure_session, create_session, reload_session. evolve.
Qed.

Lemma grant_scope_free fuel seen session_id : evolves stays_free (grant_scope_loop (aw_env a) fuel seen session_id).
Proof.
  pose proof load_session_free. revert seen session_id.
  induction fuel as [|fuel IH]; intros seen session_id; cbn [grant_scope_loop]; evolve.
Qed.

Lemma load_request_free request_id : evolves stays_free (load_approval_request (aw_env a) (aw_json a) request_id).
Proof. pose proof apart. unfold load_approval_request. evolve. Qed.

Lemma free_run {E A} (m : ST (Db * W) E A) s r s' :
  evolves stays_free m → m s = (r, s') → db_requests s.1 !! id = None → db_requests s'.1 !! id = None.
Proof. intros Hm E'. specialize (Hm s). by rewrite E' in Hm. Qed.

(** An insertion of the row takes effect, or fails and leaves the request absent. *)
Lemma insert_or_fail ctx row s r s' :
  rr_approval_request_id row = id → db_requests s.1 !! id = None →
  statement (aw_env a) ctx (sql_insert_request row) s = (r, s') →
  (r = Ok () ∧ db_requests s'.1 !! id = Some row) ∨ (∃ e, r = Err e ∧ db_requests s'.1 !! id = None).
Proof.
  intros Hid Hnew. unfold statement, yield_to_others. rewrite st_bind_run. pose proof (apart s Hnew) as Ho.
  destruct (env_others (aw_env a) s) as [db w]. cbn in Ho. unfold run_sql.
  destruct (env_fault (aw_env a) w) as [[f|] w']; [intros [= <- <-]; right; by eexists|].
  unfold sql_insert_request. rewrite Hid, Ho. intros [= <- <-]. left. split; [done|]. cbn. apply lookup_insert_eq.
Qed.

(** The row of a request that is new *)
Lemma ensure_request_inserts record s r s' :
  trim (nr_approval_request_id record) = id → db_requests s.1 !! id = None →
  ensure_approval_request (aw_env a) (aw_json a) record s = (Ok r, s') →
  ∃ row, db_requests s'.1 !! id = Some row ∧
    rr_request_payload_json row = jt_to_string (aw_json a) (nr_request_payload_json record).
Proof.
  pose proof apart. intros Hid Hnew H1. unfold ensure_approval_request in H1.
  apply st_bind_Ok in H1 as (? & s0 & [= ->%normalize_is_trim <-] & H1). rewrite Hid in H1.
  do 5 apply st_bind_Ok in H1 as (? & ? & [= _ <-] & H1). apply st_bind_Ok in H1 as (o & s1 & Hl & H1).
  destruct o as [session|]; [|done]. apply st_bind_Ok in H1 as (ts & s2 & Hts & H1).
  apply st_bind_Ok in H1 as ([] & s3 & Ho & H1).
  eapply free_run in Hl; [|apply load_session_free|exact Hnew].
  eapply free_run in Hts; [|evolve|exact Hl]. eapply free_run in Ho; [|evolve|exact Hts].
  unfold st_match in H1. destruct (statement _ _ _ s3) as [r4 s4] eqn:Hins.
  eapply insert_or_fail in Hins as [[-> Hrow]|(e & -> & Hnone)]; [| |done|done].
  - unfold reload_request in H1. apply (evolves_run _ _ _ _ (reload_request_lawful _ _ others _ _)) in H1.
    destruct (law_requests _ _ H1 _ _ Hrow) as (row' & Hrow' & M). exists row'. split; [done|]. by rewrite (rm_payload _ _ M).
  - destruct (contains _ e); [|done]. unfold reload_request in H1. apply st_bind_Ok in H1 as (o & s5 & Hload & [= Hr <-]).
    destruct o as [r'|]; [|done]. pose proof Hload as Hfree. eapply free_run in Hfree; [|apply load_request_free|exact Hnone].
    apply load_request_raw in Hload as (row & Hrow & _). rewrite <-Hid, trim_idemp, Hid in Hrow. congruence.
Qed.
End free.

(** C9. What is replayed is what was asked for. When the gate stops a call with a
    new request, under an id that no other connection stores a request for, and
    the JSON text of what it stored reads back as it was written, then whatever
    statements fail and whatever lawful happens afterwards, the request as it is
    loaded later names the same tool and carries the same arguments. *)
Theorem replay_is_the_call_that_was_asked context intent d s req s1 s2 r s3 :
  let id := governed_approval_request_id (aw_sha256_hex a) context (td_name d) intent in
  let payload := approval_request_payload context intent d in
  d ∈ tool_catalog →
  env_evolves (aw_env a) (stays_free (trim id)) →
  jt_from_str (aw_json a) (jt_to_string (aw_json a) payload) = Ok payload →
  db_requests s.1 !! trim id = None →
  ad_maybe_require_approval (app_tools a tools) context intent d s = (Ok (Some req), s1) →
  Lawful s1.1 s2.1 →
  load_approval_request (aw_env a) (aw_json a) id s2 = (Ok (Some r), s3) →
  replay_request r = Ok (mkToolCoreRequest (td_name d) (in_args_json intent)).
Proof.
  intros id payload Hd apart Hjson Hnew H L Hload. cbn in H. unfold maybe_require_approval in H.
  destruct (approval_policy _ d) eqn:Ep; [done|done|]. pose proof (stays_free_preorder (trim id)).
  apply st_bind_Ok in H as ([] & s4 & H4 & H). apply st_bind_Ok in H as (sr & s5 & H5 & H).
  apply st_bind_Ok in H as (scope & s6 & H6 & H). apply st_bind_Ok in H as (g & s7 & H7 & H).
  destruct g as [g|]; [done|]. apply st_bind_Ok in H as (stored & s8 & H8 & [= _ <-]).
  eapply free_run in H4; [|unfold SessionRepository_new; evolve|exact Hnew].
  eapply free_run in H5; [|by apply ensure_session_free|exact H4].
  eapply free_run in H6; [|pose proof (grant_scope_free _ apart); unfold dispatcher_lineage_root_session_id, ended; evolve|exact H5].
  eapply free_run in H7; [|unfold load_approval_grant; evolve|exact H6].
  eapply (ensure_request_inserts _ apart) in H8 as (row & Hrow & Hpay); [|done|exact H7].
  cbn [nr_request_payload_json] in Hpay.
  destruct (law_requests _ _ L _ _ Hrow) as (row2 & Hrow2 & M).
  pose proof (evolves_run _ _ _ _ (load_request_lawful _ _ others _) Hload) as L3.
  destruct (law_requests _ _ L3 _ _ Hrow2) as (row3 & Hrow3 & M3).
  eapply replay_of_payload; [done|by eapply asked_is_app|].
  apply load_request_raw in Hload as (row4 & Hrow4 & (_ & _ & Hdec)%raw_request_fields).
  rewrite Hrow3 in Hrow4. injection Hrow4 as <-.
  rewrite (rm_payload _ _ M3), (rm_payload _ _ M), Hpay in Hdec. unfold payload in Hjson. rewrite Hjson in Hdec. by injection Hdec.
Qed.
End replayed.

(** ** Examples *)
Module ApprovalDemo.
Import SessionRepoDemo.

(** A text form of JSON that can be read back: the bits of the number that
    encodes the tree of a value *)
Definition leaf : Type := bool + (Z + string).
Fixpoint to_tree (v : Value) : gen_tree leaf :=
  match v with
  | JNull => GenNode 0 []
  | JBool b => GenLeaf (inl b)
  | JNumber (PosInt n) => GenNode 1 [GenLeaf (inr (inl n))]
  | JNumber (NegInt n) => GenNode 2 [GenLeaf (inr (inl n))]
  | JNumber (JFloat n) => GenNode 3 [GenLeaf (inr (inl n))]
  | JString s => GenLeaf (inr (inr s))
  | JArray xs => GenNode 4 (to_tree <$> xs)
  | JObject fields => GenNode 5 ((λ p, GenNode 6 [GenLeaf (inr (inr p.1)); to_tree p.2]) <$> fields)
  end.
Fixpoint of_tree (t : gen_tree leaf) : Value :=
  match t with
  | GenLeaf (inl b) => JBool b
  | GenLeaf (inr (inr s)) => JString s
  | GenNode 1 [GenLeaf (inr (inl n))] => JNumber (PosInt n)
  | GenNode 2 [GenLeaf (inr (inl n))] => JNumber (NegInt n)
  | GenNode 3 [GenLeaf (inr (inl n))] => JNumber (JFloat n)
  | GenNode 4 ts => JArray (of_tree <$> ts)
  | GenNode 5 ts =>
      JObject ((λ t, match t with
                     | GenNode _ [GenLeaf (inr (inr k)); t] => (k, of_tree t)
                     | _ => ("", JNull)
                     end) <$> ts)
  | _ => JNull
  end.
Lemma of_to_tree : ∀ v, of_tree (to_tree v) = v.
Proof.
  fix IH 1. intros [|b|[n|n|n]|s|xs|fields]; try reflexivity; cbn; f_equal.
  - induction xs as [|x xs IHxs]; [reflexivity|]. cbn. rewrite IH. f_equal. exact IHxs.
  - induction fields as [|[k x] fields IHf]; [reflexivity|]. cbn. rewrite IH. f_equal. exact IHf.
Qed.
Definition bits_json : JsonText :=
  mkJsonText (λ v, LeaseDemo.bits (encode (to_tree v)))
    (λ s, match decode (LeaseDemo.unbits s) with Some t => Ok (of_tree t) | None => Err "not a value" end).
Lemma bits_json_roundtrip v : jt_from_str bits_json (jt_to_string bits_json v) = Ok v.
Proof. cbn. by rewrite LeaseDemo.unbits_bits, decode_encode, of_to_tree. Qed.

(** Nothing happens outside. *)
Definition calm_world : AppWorld unit :=
  mkAppWorld unit calm_env bits_json 8 3 id (λ _ _, mret []) (λ w, (0%Z, w)) (λ _ s, s) None
    (λ _ _ _, throw "no companion") (λ _ _ _ s, ((Child_Ok "done", 0%Z), s)) (λ _ _, mret ()) (λ _ _, mret ())
    (λ w, ((1, 1)%Z, w)) (λ _, mret ()) None true false ∅.
Lemma calm_world_lawful : WorldLawful calm_world.
Proof. by split; intros; cbn; try intros s. Qed.

Definition strict_tools : ToolConfig :=
  let c := ToolConfig_default in
  mkToolConfig (tc_file_root c) (tc_shell_allow c) (tc_shell_deny c) (tc_shell_default_mode c)
    (mkGovernedToolApprovalConfig GA_Strict [] []) (tc_sessions c) (tc_messages c) (tc_delegate c) (tc_browser c)
    (tc_browser_companion c) (tc_web c) (tc_web_search c).

Definition main : SessionContext := mkSessionContext "root" None ∅ None.
Definition kid : SessionContext := mkSessionContext "grandchild" (Some "child") ∅ None.
Definition call : ToolIntent :=
  mkToolIntent "delegate_async" (JObject [("task", JString "look around")]) "model" "root" "turn" "call".
Definition delegate_async : ToolDescriptor :=
  Eval vm_compute in
    match catalog_resolve "delegate_async" with
    | Some d => d
    | None => mkToolDescriptor "" "" [] "" Exec_App Avail_Runtime Exposure_Discoverable Gate_Always
    end.

(** The call stops at the gate. *)
Definition asked : Db * unit :=
  (ad_maybe_require_approval (app_tools calm_world strict_tools) main call delegate_async (demo_db, ())).2.
Definition request_id : string := governed_approval_request_id id main "delegate_async" call.
Definition approve : ApprovalResolutionRequest :=
  mkApprovalResolutionRequest "root" request_id Decision_ApproveAlways Visibility_Children.
Definition approved : Db * unit := (resolve_request calm_world strict_tools approve asked).2.

Lemma asked_stops : ∃ req,
  ad_maybe_require_approval (app_tools calm_world strict_tools) main call delegate_async (demo_db, ())
  = (Ok (Some req), asked).
Proof.
  unfold asked. destruct (ad_maybe_require_approval _ _ _ _ _) as [[[req|]|e] s] eqn:E; [by exists req|..];
    exfalso; apply (f_equal fst) in E; vm_compute in E; discriminate.
Qed.
Lemma approve_resolves : ∃ o, resolve_request calm_world strict_tools approve asked = (Ok o, approved).
Proof.
  unfold approved. destruct (resolve_request _ _ _ _) as [[o|e] s] eqn:E; [by exists o|].
  exfalso. apply (f_equal fst) in E. vm_compute in E. discriminate.
Qed.

Lemma once_witness : ∃ o, resolve_request calm_world strict_tools approve asked = (Ok o, approved) ∧
  ∃ e s3, ∀ a' tools', same_tables calm_world a' → resolve_request a' tools' approve approved = (Err e, s3).
Proof.
  destruct approve_resolves as [o Ho]. exists o. split; [exact Ho|].
  apply (request_is_resolved_once calm_world strict_tools calm_world_lawful approve asked o approved approve approved);
    [exact Ho|reflexivity|reflexivity].
Defined.

(** Names evaluated by lookups in the tables *)
Lemma approved_wf : Wf approved.1.
Proof.
  assert (Lawful demo_db approved.1) as L; [|by apply (law_wf _ _ L), demo_wf].
  trans asked.1.
  - apply (proj1 (dispatcher_lawful calm_world strict_tools calm_world_lawful) main call delegate_async (demo_db, ())).
  - apply (resolve_request_lawful calm_world strict_tools calm_world_lawful approve asked).
Qed.

Lemma consent_witness : ∃ p s',
  prepare_tool_intent LeaseDemo.bit_codec "" (λ _, 0%Z) narrowing_to_value None (app_tools calm_world strict_tools) call
    main None approved = (Ok p, s') ∧
  ∃ d, catalog_resolve (tcr_tool_name (pi_request p)) = Some d ∧
       (approval_policy (tc_approval strict_tools) d = Policy_Run ∨
        approval_policy (tc_approval strict_tools) d = Policy_Ask ∧
        granted approved.1 s'.1 (sc_session_id main) (approval_key d)).
Proof.
  destruct (prepare_tool_intent LeaseDemo.bit_codec "" (λ _, 0%Z) narrowing_to_value None
              (app_tools calm_world strict_tools) call main None approved) as [[p|e] s'] eqn:E.
  2: { exfalso. apply (f_equal fst) in E. vm_compute in E. discriminate. }
  exists p, s'. split; [reflexivity|].
  apply (governed_tools_run_only_with_consent calm_world strict_tools calm_world_lawful LeaseDemo.bit_codec ""
           (λ _, 0%Z) None call main None approved p s' approved_wf); [by split|exact E|].
  apply (f_equal fst) in E. vm_compute in E. injection E as <-. reflexivity.
Defined.

Definition pending : RequestRow :=
  match db_requests asked.1 !! request_id with
  | Some row => row
  | None => mkRequestRow "" "" "" "" "" "" "" None "" "" 0 None None None None
  end.

Lemma always_witness :
  reads (ad_maybe_require_approval (app_tools calm_world strict_tools) kid call delegate_async) approved.1 (Ok None).
Proof.
  destruct approve_resolves as [o Ho].
  assert (approval_policy (tc_approval strict_tools) delegate_async = Policy_Ask) as Hask by (by vm_compute).
  pose proof (approve_always_covers_the_lineage calm_world strict_tools calm_world_lawful calm_env_quiet approve pending
           asked o approved approved.1 kid call delegate_async "root" 2) as H. rewrite Hask in H. apply H; clear H.
  - apply (law_wf demo_db); [|exact demo_wf].
    apply (proj1 (dispatcher_lawful calm_world strict_tools calm_world_lawful) main call delegate_async (demo_db, ())).
  - by vm_compute.
  - split; by vm_compute.
  - by vm_compute.
  - split; by vm_compute.
  - reflexivity.
  - exact Ho.
  - reflexivity.
  - assert (rr_session_id pending = "root") as -> by (by vm_compute). apply rtc_refl.
  - exists (demo_row "root" "root" None). split; by vm_compute.
  - split; by vm_compute.
  - apply nsteps_l with "child"; [exists (demo_row "grandchild" "delegate_child" (Some "child")); split; by vm_compute|].
    apply nsteps_l with "root"; [exists (demo_row "child" "delegate_child" (Some "root")); split; by vm_compute|].
    apply nsteps_O.
  - cbn. lia.
Defined.

Lemma replay_witness : ∃ r s3,
  load_approval_request calm_env bits_json request_id approved = (Ok (Some r), s3) ∧
  replay_request r = Ok (mkToolCoreRequest "delegate_async" (in_args_json call)).
Proof.
  destruct (load_approval_request calm_env bits_json request_id approved) as [[[r|]|e] s3] eqn:E.
  2,3: exfalso; apply (f_equal fst) in E; vm_compute in E; discriminate.
  destruct asked_stops as [req Hreq]. exists r, s3. split; [reflexivity|].
  apply (replay_is_the_call_that_was_asked calm_world strict_tools (wl_others _ calm_world_lawful) main call
           delegate_async (demo_db, ()) req asked approved r s3);
    [| |apply bits_json_roundtrip|by vm_compute|exact Hreq| |exact E].
  - apply (catalog_resolve_elem "delegate_async"). by vm_compute.
  - intros s Hs. by rewrite (proj2 calm_env_quiet).
  - apply (resolve_request_lawful calm_world strict_tools calm_world_lawful approve asked).
Defined.

(** A turn that runs the call after the approval *)
Lemma turns_witness :
  Lawful approved.1
    (execute_turn calm_world strict_tools LeaseDemo.bit_codec "" (λ _, 0%Z) (λ _, "") (λ _, "") None (λ _ _, [])
       (mkTurnEngine 1 1000 false 1) (mkProviderTurn "" [call] JNull) main None approved).2.1.
Proof.
  apply (turns_obey_the_session_laws calm_world strict_tools calm_world_lawful). exact I.
Defined.
End ApprovalDemo.
