(* ===== verification/DelegationProps.v ===== *)
(** * DelegationProps: what holds of delegated children

    A delegate call that returns has ended its child; a child's context carries
    the limits it was created under; recovery applies to overdue background
    children only; waiting ends. *)
From S2P Require Import Prelude RustStr Contracts Errors Json ToolRuntimeConfig ToolCatalog ToolNames ToolConfig Turn.
From S2P Require Import TurnEngine SessionDb SessionRepo SessionLaws SessionRepoProps Approvals Subagent SessionTools.
From S2P Require Import Delegation AppTools AppToolLaws AppRuntime ApprovalProps.

(** ** Sessions that were started, sessions that ended *)
Definition started (id : string) (db : Db) : Prop :=
  ∃ row, db_sessions db !! id = Some row ∧ rtc state_edge "running" (sr_state row).
Definition over (id parent : string) (db : Db) : Prop :=
  ∃ row, db_sessions db !! id = Some row ∧ sr_parent_session_id row = Some parent ∧ ¬ live (sr_state row).

Lemma started_stays id db db' : Lawful db db' → started id db → started id db'.
Proof.
  intros L (row & Hrow & Hs). destruct (law_sessions _ _ L _ _ Hrow) as (row' & Hrow' & M).
  exists row'. split; [done|]. by etrans; [|apply (sm_state _ _ M)].
Qed.
Lemma over_stays id p db db' : Lawful db db' → over id p db → over id p db'.
Proof.
  intros L (row & Hrow & Hp & Hs). destruct (law_sessions _ _ L _ _ Hrow) as (row' & Hrow' & M).
  exists row'. split_and!; [done|by rewrite (sm_parent _ _ M)|]. by rewrite (state_ended _ _ Hs (sm_state _ _ M)).
Qed.

(** A started session that is not running is over. *)
Lemma started_not_running s : rtc state_edge "running" s → s ≠ "running" → ¬ live s.
Proof.
  intros H Hne. assert (s ≠ "ready") as Hr; [|by intros [?|?]].
  apply rtc_inv_r in H as [<-|(y & _ & He)]; [done|by inversion He].
Qed.

Section ending.
Context {W : Type} (env : DbEnv W) (json : JsonText).
Hypothesis others : env_evolves env Lawful.

(** A transaction that returns ran alone, and kept its changes or dropped them. *)
Lemma transaction_Ok (R : Db → Db → Prop) {A} b c (body : ST (Db * W) string (A * bool)) s x s' :
  env_evolves env R → transaction env b c body s = (Ok x, s') →
  ∃ s0 s1 keep, R s.1 s0.1 ∧ body s0 = (Ok (x, keep), s1) ∧ s'.1 = if keep : bool then s1.1 else s0.1.
Proof.
  intros HR. unfold transaction. pose proof (HR s) as L. destruct (env_others env s) as [db w]. unfold run_sql at 1.
  destruct (env_fault env w) as [[e|] w1]; [done|]. cbn.
  destruct (body (db, w1)) as [[[y []]|e] [db' w']] eqn:Eb; [| |done].
  - unfold run_sql. destruct (env_fault env w') as [[e|] w2]; [done|]. cbn. intros [= -> <-].
    by exists (db, w1), (db', w'), true.
  - intros [= -> <-]. by exists (db, w1), (db', w'), false.
Qed.

(** Ending a started child, or finding it ended, leaves it over. *)
Lemma finalize_stale_over id parent request s s' :
  ¬ live (SessionState_as_str (fr_state request)) →
  started (trim id) s.1 → parent_edge (db_sessions s.1) (trim id) parent →
  finalize_terminal_if_current_allowing_stale_state env json id State_Running request s = (Ok (), s') →
  over (trim id) parent s'.1.
Proof.
  intros Hend Hst Hp H. unfold finalize_terminal_if_current_allowing_stale_state in H.
  apply st_bind_Ok in H as (fin & s1 & Hfin & H).
  assert (over (trim id) parent s1.1) as Hover.
  { unfold finalize_session_terminal_if_current in Hfin.
    apply st_bind_Ok in Hfin as (? & ? & [= ->%normalize_is_trim <-] & Hfin).
    do 2 apply st_bind_Ok in Hfin as (? & ? & [= _ <-] & Hfin).
    apply st_bind_Ok in Hfin as (ts & s2 & Hts & Hfin). apply st_bind_Ok in Hfin as ([] & s3 & Ho & Hfin).
    apply st_bind_Ok in Hfin as (ev & s4 & Htx & Hfin).
    eapply evolves_run in Hts; [|evolve]. eapply evolves_run in Ho; [|evolve].
    assert (over (trim id) parent s4.1) as Hover.
    { apply (transaction_Ok Lawful) in Htx as (s5 & s6 & keep & L & Hbody & ->); [|done].
      assert (Lawful s.1 s5.1) as L5 by (by trans s2.1; [|trans s3.1]).
      eapply started_stays in Hst as (row & Hrow & Hrs); [|exact L5]. eapply parent_edge_stays in Hp; [|exact L5].
      assert (sr_parent_session_id row = Some parent) as Hpar by (destruct Hp as (? & ? & ?); congruence).
      apply st_bind_Ok in Hbody as (n & s7 & Hup%run_sql_Ok & Hbody). case_bool_decide as Hn.
      - injection Hbody as <- <- <-. exists row. split_and!; [done..|]. apply started_not_running; [done|].
        intros Hrun. unfold sql_update_session, in_state in Hup. rewrite Hrow, Hrun, bool_decide_true in Hup by done.
        injection Hup. congruence.
      - apply sql_update_session_Ok in Hup as (row' & Hrow' & _ & Hs7); [|done].
        apply st_bind_Ok in Hbody as (e & s8 & Hfs & [= <- <- <-]). apply finalize_statements_Ok in Hfs. rewrite Hfs, Hs7.
        assert (row' = row) as -> by congruence.
        eexists. cbn. split_and!; [apply lookup_insert_eq|done|done]. }
    eapply over_stays; [|exact Hover]. destruct ev as [ev|]; [|by injection Hfin as _ <-].
    eapply evolves_run; [|exact Hfin]. pose proof (reload_session_lawful env others). evolve. }
  destruct fin as [fin|]; [by injection H as <-|].
  apply st_bind_Ok in H as (o & s2 & Hl & H). destruct o; [|done]. injection H as <-.
  eapply over_stays; [|exact Hover]. eapply evolves_run; [|exact Hl]. by apply load_session_lawful.
Qed.

Lemma finalize_recovery_over id parent request s s' :
  ¬ live (SessionState_as_str (fr_state request)) →
  started (trim id) s.1 → parent_edge (db_sessions s.1) (trim id) parent →
  finalize_delegate_child_terminal_with_recovery env json id request s = (Ok (), s') →
  over (trim id) parent s'.1.
Proof.
  intros Hend Hst Hp H. unfold finalize_delegate_child_terminal_with_recovery, st_match at 1 in H.
  destruct (finalize_terminal_if_current_allowing_stale_state env json id State_Running request s) as [[[]|e] s1] eqn:E.
  { injection H as <-. by eapply finalize_stale_over. }
  exfalso. unfold st_match, delegate_terminal_recovery_skipped_error in H.
  repeat (case_match; try done); run_inv.
Qed.

Context (handle_child_turn : string → string → Z → Db * W → (ChildResult * Z) * (Db * W)).
Hypothesis child_lawful : ∀ id input t s, Lawful s.1 (handle_child_turn id input t s).2.1.

Lemma run_child_over id parent p label input x t s out s' :
  started (trim id) s.1 → parent_edge (db_sessions s.1) (trim id) parent →
  run_started_delegate_child_turn_with_runtime env json handle_child_turn id p label input x t s = (Ok out, s') →
  over (trim id) parent s'.1.
Proof.
  intros Hst Hp H. unfold run_started_delegate_child_turn_with_runtime in H.
  apply st_bind_Ok in H as ([] & s1 & H1 & H). apply st_bind_Ok in H as ([result ms] & s2 & H2 & H).
  eapply evolves_run in H1; [|by apply new_lawful].
  assert (Lawful s1.1 s2.1) as L2.
  { unfold act_child, act in H2. pose proof (child_lawful id input t s1) as Hc.
    destruct (handle_child_turn id input t s1) as [r s3]. by injection H2 as _ <-. }
  assert (Lawful s.1 s2.1) as L by (by trans s1.1).
  eapply started_stays in Hst; [|exact L]. eapply parent_edge_stays in Hp; [|exact L].
  destruct result.
  - apply st_bind_Ok in H as (sm & s3 & H3 & H). eapply evolves_run in H3; [|by apply load_summary_lawful].
    eapply started_stays in Hst; [|exact H3]. eapply parent_edge_stays in Hp; [|exact H3].
    apply st_bind_Ok in H as ([] & s4 & H4 & [= _ <-]). eapply finalize_recovery_over, H4; [|done..]. by intros [].
  - apply st_bind_Ok in H as ([] & s4 & H4 & [= _ <-]). eapply finalize_recovery_over, H4; [|done..]. by intros [].
  - apply st_bind_Ok in H as ([] & s4 & H4 & [= _ <-]). eapply finalize_recovery_over, H4; [|done..]. by intros [].
  - apply st_bind_Ok in H as ([] & s4 & H4 & [= _ <-]). eapply finalize_recovery_over, H4; [|done..]. by intros [].
Qed.

(** What the statements that create a session leave behind: a row and an event *)
Lemma create_in_tx_tables request s event s' :
  create_session_with_event_in_tx env json request s = (Ok event, s') →
  let id := trim (ns_session_id (cs_session request)) in
  ∃ ts n, trimmed id ∧ db_sessions s.1 !! id = None ∧
    db_sessions s'.1 = <[id := new_session_row id (ns_kind (cs_session request))
                            (normalize_optional_text (ns_parent_session_id (cs_session request)))
                            (normalize_optional_text (ns_label (cs_session request)))
                            (ns_state (cs_session request)) ts]> (db_sessions s.1) ∧
    db_events s'.1 = db_events s.1 ++
      [mkEventRow n id (trim (cs_event_kind request)) (normalize_optional_text (cs_actor_session_id request))
         (jt_to_string json (cs_event_payload_json request)) ts].
Proof.
  unfold create_session_with_event_in_tx. intros (id & s1 & [= Hid <-] & H)%st_bind_Ok.
  pose proof (normalize_required_trimmed _ _ _ Hid) as Ht. apply normalize_is_trim in Hid as ->.
  apply st_bind_Ok in H as (? & s2 & [= ->%normalize_is_trim <-] & H). apply st_bind_Ok in H as (ts & s3 & Hts & H).
  assert (s3.1 = s.1) as <-.
  { destruct s as [db w]. unfold unix_ts_now in Hts. destruct (env_clock env w). by simplify_eq. }
  apply st_bind_Ok in H as ([] & s4 & Hins%run_sql_Ok & H).
  apply st_bind_Ok in H as (n & s5 & Hev%run_sql_Ok & [= _ <-]). unfold sql_insert_event in Hev. cbn zeta in Hev.
  injection Hev as <- <-. unfold sql_insert_session in Hins. cbn [sr_session_id new_session_row] in Hins.
  destruct (db_sessions s3.1 !! _) eqn:E; [done|]. injection Hins as <-. by exists ts, (db_event_seq s3.1 + 1)%Z.
Qed.

Lemma check_child_parent parent request : check_child_request parent request = Ok () →
  normalize_optional_text (ns_parent_session_id (cs_session request)) = Some parent.
Proof.
  unfold check_child_request. destruct (normalize_optional_text _) as [p|]; [|done].
  destruct (negb (bool_decide (_ = Kind_DelegateChild))); [done|]. case_bool_decide; [by subst|done].
Qed.

(** A child that was created was not there before and is there now. *)
Lemma create_child_started {T} parent limit build s r (x : T) s' :
  (∀ n request y, build n = Ok (request, y) → ns_state (cs_session request) = State_Running) →
  create_delegate_child_session_with_event_if_within_limit env json parent limit build s = (Ok (r, x), s') →
  ∃ request n, build n = Ok (request, x) ∧ let id := trim (ns_session_id (cs_session request)) in
    db_sessions s.1 !! id = None ∧ started id s'.1 ∧ parent_edge (db_sessions s'.1) id (trim parent).
Proof.
  intros Hb H. unfold create_delegate_child_session_with_event_if_within_limit in H.
  apply st_bind_Ok in H as (? & ? & [= ->%normalize_is_trim <-] & H). apply st_bind_Ok in H as ([] & s1 & H1 & H).
  apply st_bind_Ok in H as ([event x'] & s2 & Htx & H).
  apply st_bind_Ok in H as (session & s3 & H3 & [= _ -> <-]).
  eapply evolves_run in H1; [|evolve]. eapply evolves_run in H3; [|by apply reload_session_lawful].
  apply (transaction_Ok Lawful) in Htx as (s4 & s5 & keep & L4 & Hbody & E2); [|done].
  apply st_bind_Ok in Hbody as (active & s6 & Hc%run_sql_Ok & Hbody). injection Hc as _ Hs6.
  case_bool_decide; [done|]. apply st_bind_Ok in Hbody as ([request y] & s7 & [= Hbuild <-] & Hbody).
  apply st_bind_Ok in Hbody as ([] & s8 & [= Hcheck <-] & Hbody).
  apply st_bind_Ok in Hbody as (ev & s9 & Hcr & [= -> -> <- <-]).
  exists request, active. split; [done|]. cbn zeta.
  apply create_in_tx_tables in Hcr as (ts & n & _ & Hnew & Hrows & _). rewrite <-Hs6 in Hnew. rewrite <-E2 in Hrows.
  rewrite (Hb _ _ _ Hbuild) in Hrows. split.
  { destruct (db_sessions s.1 !! _) as [old|] eqn:Eold; [|done]. exfalso.
    destruct (law_sessions s.1 s4.1 (transitivity H1 L4) _ _ Eold) as (new & Hnew' & _). congruence. }
  split.
  - eapply started_stays; [exact H3|]. eexists. split; [by rewrite Hrows, lookup_insert_eq|done].
  - eapply parent_edge_stays; [exact H3|]. eexists. split; [by rewrite Hrows, lookup_insert_eq|]. cbn.
    by apply check_child_parent in Hcheck.
Qed.
End ending.

Lemma finally_Ok {W T} (work : ST (Db * W) string T) notify s x s' : finally work notify s = (Ok x, s') →
  ∃ s1, work s = (Ok x, s1) ∧ ∃ r, notify s1 = (r, s').
Proof.
  unfold finally. destruct (work s) as [[y|e] s1]; destruct (notify s1) as [[[]|e'] s2] eqn:E; intros H;
    simplify_eq; eauto.
Qed.

Section delegate.
Context {W : Type} (a : AppWorld W) (tools : ToolConfig).
Hypothesis world : WorldLawful a.

(** C10. A delegate call that returns has ended its child: whatever failed or
    interfered on the way, there is a session of the caller's own that was not
    there before and that is neither ready nor running any more. *)
Theorem delegate_call_ends_its_child context payload s out s' :
  delegate_tool a tools context payload s = (Ok out, s') →
  ∃ child, db_sessions s.1 !! child = None ∧ over child (trim (sc_session_id context)) s'.1.
Proof.
  destruct world as [others _ _ _ _ Hchild Hprep Hend _].
  unfold delegate_tool, execute_delegate_tool. destruct (negb _); [done|]. intros H.
  apply st_bind_Ok in H as (request & s1 & [= _ <-] & H). apply st_bind_Ok in H as (id & s2 & Hid & H).
  apply st_bind_Ok in H as ([] & s3 & H3 & H). apply st_bind_Ok in H as (depth & s4 & H4 & H).
  unfold with_prepared_subagent_spawn_cleanup_if_kernel_bound in H. apply st_bind_Ok in H as ([] & s5 & H5 & H).
  apply finally_Ok in H as (s6 & H & r & Hn). apply st_bind_Ok in H as ([cr execution] & s7 & Hc & H).
  eapply evolves_run in Hid; [|apply next_id_lawful]. eapply evolves_run in H3; [|by apply new_lawful].
  eapply evolves_run in H4; [|by apply next_depth_lawful].
  eapply evolves_run in H5; [|by apply if_kernel_lawful]. eapply evolves_run in Hn; [|by apply if_kernel_lawful].
  apply create_child_started in Hc as (creq & n & Hb & Hnew & Hst & Hp); [|done|by intros n cr' y [= <- <-]].
  injection Hb as <- _. cbn [cs_session ns_session_id] in *.
  exists (trim id). split.
  - destruct (db_sessions s.1 !! _) as [old|] eqn:E; [|done]. exfalso.
    assert (Lawful s.1 s5.1) as L by (by trans s2.1; [|trans s3.1; [|trans s4.1]]).
    destruct (law_sessions _ _ L _ _ E) as (new & Hnew' & _). congruence.
  - eapply over_stays; [exact Hn|]. eapply run_child_over; [exact others|exact Hchild|exact Hst|exact Hp|exact H].
Qed.
End delegate.

(** ** Examples *)
Module DelegationDemo.
Import SessionRepoDemo ApprovalDemo.

(** The statement with number [k] fails, nothing else happens outside. *)
Definition failing_env (k : nat) : DbEnv nat :=
  mkDbEnv (λ n, (if bool_decide (n = k) then Some "disk I/O error" else None, S n)) (λ s, s) (λ n, (7%Z, n)).
Definition failing_world (k : nat) : AppWorld nat :=
  mkAppWorld nat (failing_env k) bits_json 8 3 id (λ _ _, mret []) (λ w, (0%Z, w)) (λ _ s, s) None
    (λ _ _ _, throw "no companion") (λ _ _ _ s, ((Child_Ok "done", 0%Z), s)) (λ _ _, mret ()) (λ _ _, mret ())
    (λ w, ((1, 1)%Z, w)) (λ _, mret ()) None true false ∅.
Lemma failing_world_lawful k : WorldLawful (failing_world k).
Proof. by split; intros; cbn; try intros s. Qed.

Definition task : Value := JObject [("task", JString "look around")].
Definition child_id : string := delegate_session_id 1 1.

Lemma delegate_witness : ∃ out s',
  delegate_tool (failing_world 99) ToolConfig_default main task (demo_db, 0) = (Ok out, s') ∧
  ∃ child, db_sessions demo_db !! child = None ∧ over child "root" s'.1.
Proof.
  destruct (delegate_tool (failing_world 99) ToolConfig_default main task (demo_db, 0)) as [[out|e] s'] eqn:E.
  2: { exfalso. apply (f_equal fst) in E. vm_compute in E. discriminate. }
  exists out, s'. split; [reflexivity|].
  apply (delegate_call_ends_its_child (failing_world 99) ToolConfig_default (failing_world_lawful 99) main task
           (demo_db, 0) out s' E).
Defined.

(** A child that was done is left running for ever when reading its summary
    fails: the call reports the error before it records how the child ended. *)
Lemma failed_summary_strands_the_child :
  let '(result, s) := delegate_tool (failing_world 13) ToolConfig_default main task (demo_db, 0) in
  result = Err "load session summary failed: disk I/O error" ∧
  sr_state <$> db_sessions s.1 !! child_id = Some "running" ∧
  count_active_children "root" s.1 = 2.
Proof. vm_compute. done. Qed.

(** A child gets the context of a root, without parent and limits, when the
    repository cannot be opened for an instant. *)
Lemma context_fails_open :
  let '(result, _) := runtime_context (failing_world 7) ToolConfig_default "child" (demo_db, 0) in
  match result with
  | Ok context => sc_session_id context = "child" ∧ sc_parent_session_id context = None
                  ∧ effective_tool_config_for_session ToolConfig_default context = ToolConfig_default
  | Err _ => False
  end.
Proof. vm_compute. done. Qed.
End DelegationDemo.

(** ** Waiting ends *)
Section waiting.
Context {W : Type} (env : DbEnv W) (json : JsonText) (fuel : nat).
Context (elapsed_ms : W → Z * W) (sleep_ms : Z → Db * W → Db * W).

(** The milliseconds since the wait began. Time does not run backwards, and
    passes while we sleep. *)
Context (time : W → Z).
Record Clockwork : Prop := {
  ck_fault : ∀ w, (time w ≤ time (env_fault env w).2)%Z;
  ck_others : ∀ s, (time s.2 ≤ time (env_others env s).2)%Z;
  ck_clock : ∀ w, (time w ≤ time (env_clock env w).2)%Z;
  ck_elapsed : ∀ w, (elapsed_ms w).1 = time w ∧ (time w ≤ time (elapsed_ms w).2)%Z;
  ck_sleep : ∀ ms s, (time s.2 + ms ≤ time (sleep_ms ms s).2)%Z }.
Hypothesis clockwork : Clockwork.

Definition onwards {E A} (m : ST (Db * W) E A) : Prop := ∀ s, (time s.2 ≤ time (m s).2.2)%Z.

Lemma onwards_ret {E A} (x : A) : onwards (E := E) (mret x).
Proof. intros s. done. Qed.
Lemma onwards_throw {E A} (e : E) : onwards (A := A) (throw e).
Proof. intros s. done. Qed.
Lemma onwards_lift {E A} (r : result E A) : onwards (lift r).
Proof. intros s. done. Qed.
Lemma onwards_bind {E A B} (m : ST (Db * W) E A) (f : A → ST (Db * W) E B) :
  onwards m → (∀ x, onwards (f x)) → onwards (m ≫= f).
Proof.
  intros Hm Hf s. rewrite st_bind_run. specialize (Hm s). destruct (m s) as [[x|e] s']; [|done].
  specialize (Hf x s'). cbn in *. lia.
Qed.
Lemma onwards_fmap {E A B} (g : A → B) (m : ST (Db * W) E A) : onwards m → onwards (g <$> m).
Proof. intros Hm s. specialize (Hm s). unfold fmap, st_fmap. by destruct (m s) as [[]]. Qed.
Lemma onwards_match {E E' A B} (m : ST (Db * W) E A) (f : A → ST (Db * W) E' B) (g : E → ST (Db * W) E' B) :
  onwards m → (∀ x, onwards (f x)) → (∀ e, onwards (g e)) → onwards (st_match m f g).
Proof.
  intros Hm Hf Hg s. specialize (Hm s). unfold st_match. destruct (m s) as [[x|e] s']; cbn in *.
  - specialize (Hf x s'). lia.
  - specialize (Hg e s'). lia.
Qed.
Lemma onwards_run_sql {A} ctx (q : Sql A) : onwards (run_sql env ctx q).
Proof.
  intros [db w]. unfold run_sql. pose proof (ck_fault clockwork w). destruct (env_fault env w) as [[e|] w']; [done|].
  by destruct (q db) as [[]|].
Qed.
Lemma onwards_statement {A} ctx (q : Sql A) : onwards (statement env ctx q).
Proof. apply onwards_bind; [intros s; apply (ck_others clockwork)|intros _; apply onwards_run_sql]. Qed.
Lemma onwards_clock : onwards (unix_ts_now env).
Proof. intros [db w]. unfold unix_ts_now. pose proof (ck_clock clockwork w). by destruct (env_clock env w). Qed.
Lemma onwards_transaction {A} b c (body : ST (Db * W) string (A * bool)) :
  onwards body → onwards (transaction env b c body).
Proof.
  intros Hb s. unfold transaction. pose proof (ck_others clockwork s) as H0.
  destruct (env_others env s) as [db0 w0]. cbn in H0. pose proof (onwards_run_sql b (sql_select (λ _, ())) (db0, w0)) as H1.
  destruct (run_sql env b (sql_select (λ _, ())) (db0, w0)) as [[[]|e] s1]; cbn in H1; [|cbn; lia].
  specialize (Hb s1). destruct (body s1) as [[[x []]|e] [db2 w2]]; cbn [fst snd] in *; try lia.
  pose proof (onwards_run_sql c (sql_select (λ _, ())) (db2, w2)) as H2.
  destruct (run_sql env c _ (db2, w2)) as [[[]|e] [db3 w3]]; cbn in *; lia.
Qed.

Hint Resolve onwards_ret onwards_throw onwards_lift onwards_clock onwards_run_sql onwards_statement : core.
Ltac go_on := repeat first
  [ progress auto
  | match goal with
    | |- onwards (_ ≫= _) => apply onwards_bind
    | |- onwards (_ <$> _) => apply onwards_fmap
    | |- onwards (st_match _ _ _) => apply onwards_match
    | |- onwards (transaction _ _ _ _) => apply onwards_transaction
    | |- onwards (match ?x with _ => _ end) => destruct x
    | |- ∀ _, _ => intros ?
    end ].

Lemma onwards_load_session id : onwards (load_session env id).
Proof. unfold load_session, open_connection. go_on. Qed.
Lemma onwards_visible_loop k c seen id : onwards (visible_loop env k c seen id).
Proof. pose proof onwards_load_session. revert seen id. induction k as [|k IH]; intros seen id; cbn [visible_loop]; go_on. Qed.
Lemma onwards_visible c t v : onwards (ensure_session_visible env fuel c t v).
Proof.
  pose proof onwards_visible_loop. unfold ensure_session_visible, ended, is_session_visible. go_on.
Qed.
Lemma onwards_drain_pages k id n limit l : onwards (drain_pages json k (in_tx env) id n limit l).
Proof.
  revert n l. induction k as [|k IH]; intros n l; cbn [drain_pages]; unfold list_events_after_with_conn, in_tx; go_on.
Qed.
Lemma onwards_drain id n limit : onwards (drain_events_after_with_conn json (in_tx env) id n limit).
Proof.
  intros s. unfold drain_events_after_with_conn. destruct (_ =? _)%Z; [done|]. apply onwards_fmap, onwards_drain_pages.
Qed.
Lemma onwards_observation id n a l : onwards (load_session_observation env json id n a l).
Proof.
  pose proof onwards_drain. unfold load_session_observation, open_connection, load_session_observation_with_conn,
    load_session_summary_with_legacy_fallback_with_conn, load_session_summary_with_conn,
    infer_legacy_session_summary_with_conn, list_recent_events_with_conn, load_terminal_outcome_with_conn. go_on.
Qed.
Lemma onwards_observe t c g n a l : onwards (observe_visible_session_with_policies env json fuel t c g n a l).
Proof.
  pose proof onwards_visible. pose proof onwards_observation.
  unfold observe_visible_session_with_policies, SessionRepository_new, load_delegate_lifecycle_events,
    list_delegate_lifecycle_events, open_connection, list_delegate_lifecycle_events_with_conn. go_on.
Qed.
Lemma onwards_payload s w a t o n : onwards (wait_payload env s w a t o n).
Proof. unfold wait_payload, session_inspection_payload. go_on. Qed.

(** [m] ends with a result or an error. *)
Definition ends {A} (m : ST (Db * W) string (option A)) (s : Db * W) : Prop := (m s).1 ≠ Ok None.

Lemma ends_bind {A B} (m : ST (Db * W) string B) (f : B → ST (Db * W) string (option A)) s :
  (∀ x s', m s = (Ok x, s') → ends (f x) s') → ends (m ≫= f) s.
Proof. intros H. unfold ends. rewrite st_bind_run. destruct (m s) as [[x|e] s'] eqn:E; [|done]. by apply H. Qed.

Lemma onwards_run {E A} (m : ST (Db * W) E A) s r s' : onwards m → m s = (r, s') → (time s.2 ≤ time s'.2)%Z.
Proof. intros Hm E'. specialize (Hm s). by rewrite E' in Hm. Qed.

(** Reading the time, and the sleep that follows when it is not up *)
Lemma read_elapsed_time s e s' : read_elapsed elapsed_ms s = (Ok e, s') →
  e = time s.2 ∧ (time s.2 ≤ time s'.2)%Z.
Proof.
  destruct s as [db w]. unfold read_elapsed. pose proof (ck_elapsed clockwork w) as [He Hm].
  destruct (elapsed_ms w). cbn in *. intros [= <- <-]. done.
Qed.

Lemma wait_single_ends polls t c g a timeout n next obs s :
  (1 ≤ polls) → (timeout - time s.2 < Z.of_nat polls)%Z →
  ends (wait_single_loop env json fuel elapsed_ms sleep_ms polls t c g a timeout n next obs) s.
Proof.
  revert next obs s. induction polls as [|polls IH]; intros next obs s Hp Ht; [lia|]. cbn [wait_single_loop].
  apply ends_bind. intros o s1 H1%(onwards_run _ _ _ _ (onwards_observe _ _ _ _ _ _)). cbn zeta.
  destruct (session_state_is_terminal _); [by apply ends_bind|].
  apply ends_bind. intros e s2 [-> H2]%read_elapsed_time.
  destruct (Z.leb_spec timeout (time s1.2)); [by apply ends_bind|].
  apply ends_bind. intros [] s3 [= <-].
  pose proof (ck_sleep clockwork (Z.min (timeout - time s1.2) 25) s2). cbn in *. apply IH; lia.
Qed.

Lemma onwards_poll c g a t n l r : onwards (poll_targets env json fuel c g a t n l r).
Proof.
  pose proof onwards_observe. pose proof onwards_payload. revert r.
  induction l as [|x l IH]; intros r; cbn [poll_targets]; go_on.
Qed.
Lemma onwards_batch_targets i c g a l : onwards (batch_targets env fuel i c g a l).
Proof. pose proof onwards_visible. revert i. induction l as [|x l IH]; intros i; cbn [batch_targets]; go_on. Qed.

Lemma batch_outcome_ends c a t r s : ends (batch_wait_outcome (W := W) c a t r) s.
Proof. unfold batch_wait_outcome. by apply ends_bind. Qed.

Lemma wait_batch_ends polls c g a timeout n pending results s :
  (1 ≤ polls) → (timeout - time s.2 < Z.of_nat polls)%Z →
  ends (wait_batch_loop env json fuel elapsed_ms sleep_ms polls c g a timeout n pending results) s.
Proof.
  revert pending results s. induction polls as [|polls IH]; intros pending results s Hp Ht; [lia|].
  cbn [wait_batch_loop]. apply ends_bind.
  intros [pending' results'] s1 H1%(onwards_run _ _ _ _ (onwards_poll _ _ _ _ _ _ _)).
  destruct pending' as [|x xs]; [apply batch_outcome_ends|].
  apply ends_bind. intros e s2 [-> H2]%read_elapsed_time. destruct (Z.leb_spec timeout (time s1.2)).
  - apply ends_bind. intros. apply batch_outcome_ends.
  - apply ends_bind. intros [] s3 [= <-].
    pose proof (ck_sleep clockwork (Z.min (timeout - time s1.2) 25) s2). cbn in *. apply IH; lia.
Qed.

(** C13. Waiting for sessions ends. Whatever the sessions do and whichever
    statements fail, session_wait returns a report or an error after at most one
    poll per millisecond of its timeout, which is never more than 30 seconds. *)
Theorem session_wait_ends polls payload current config s :
  (0 ≤ time s.2)%Z → (wait_timeout_ms payload < Z.of_nat polls)%Z →
  (wait_for_session_with_config env json fuel elapsed_ms sleep_ms polls payload current config s).1 ≠ Ok None
  ∧ (wait_timeout_ms payload ≤ 30000)%Z.
Proof.
  intros H0 Hp. split; [|unfold wait_timeout_ms; lia].
  assert (0 < wait_timeout_ms payload)%Z by (unfold wait_timeout_ms; lia).
  unfold wait_for_session_with_config. destruct (negb _); [done|]. unfold wait_for_session_tool_with_policies.
  apply ends_bind. intros request s1 [= _ <-]. cbn zeta. destruct (tg_legacy_single request).
  - apply ends_bind. intros t s2 [= _ <-]. apply wait_single_ends; lia.
  - unfold wait_for_session_batch_with_policies. apply ends_bind.
    intros [] s2 H2%(onwards_run _ _ _ _ (onwards_statement _ _)).
    apply ends_bind. intros [results pending] s3 H3%(onwards_run _ _ _ _ (onwards_batch_targets _ _ _ _ _)).
    apply wait_batch_ends; lia.
Qed.
End waiting.

Module WaitDemo.
Import SessionRepoDemo ApprovalDemo.

(** A clock that moves when we sleep *)
Definition sleepy_env : DbEnv Z := mkDbEnv (λ w, (None, w)) (λ s, s) (λ w, (7%Z, w)).
Lemma sleepy_clockwork : Clockwork sleepy_env (λ w, (w, w)) (λ ms s, (s.1, s.2 + ms)%Z) id.
Proof. split; intros; cbn; try split; lia. Qed.

Lemma wait_witness :
  (wait_for_session_with_config sleepy_env bits_json 8 (λ w, (w, w)) (λ ms s, (s.1, s.2 + ms)%Z) 120
     (JObject [("session_id", JString "child"); ("timeout_ms", JNumber (PosInt 100))]) "root" ToolConfig_default
     (demo_db, 0%Z)).1 ≠ Ok None
  ∧ (wait_timeout_ms (JObject [("session_id", JString "child"); ("timeout_ms", JNumber (PosInt 100))]) ≤ 30000)%Z.
Proof.
  apply (session_wait_ends sleepy_env bits_json 8 (λ w, (w, w)) (λ ms s, (s.1, s.2 + ms)%Z) id sleepy_clockwork 120
           (JObject [("session_id", JString "child"); ("timeout_ms", JNumber (PosInt 100))]) "root" ToolConfig_default
           (demo_db, 0%Z)); vm_compute; congruence.
Defined.
End WaitDemo.

(** ** A child's limits *)
Section limits.
Context {W : Type} (a : AppWorld W) (tools : ToolConfig).
Hypothesis calm : quiet (aw_env a).
Hypothesis json_roundtrip : ∀ v, jt_from_str (aw_json a) (jt_to_string (aw_json a) v) = Ok v.
(** Handing a task to the executor does not touch the tables. *)
Hypothesis spawn_queues : ∀ r s, (aw_spawn_detached a r s).2.1 = s.1.

Lemma calm_same : env_evolves (aw_env a) (=).
Proof. intros s. by rewrite (proj2 calm). Qed.

Lemma eq_run {E A} (m : ST (Db * W) E A) s r s' : evolves (=) m → m s = (r, s') → s'.1 = s.1.
Proof. intros Hm E'. specialize (Hm s). by rewrite E' in Hm. Qed.

Lemma load_session_same id : evolves (=) (load_session (aw_env a) id).
Proof. pose proof calm_same. unfold load_session. evolve. Qed.
Lemma depth_loop_same k seen d id : evolves (=) (depth_loop (aw_env a) k seen d id).
Proof. pose proof load_session_same. revert seen d id. induction k as [|k IH]; intros seen d id; cbn [depth_loop]; evolve. Qed.
Lemma next_depth_same context :
  evolves (=) (next_delegate_child_depth_for_delegate (aw_env a) (aw_fuel a) tools context).
Proof.
  pose proof depth_loop_same. unfold next_delegate_child_depth_for_delegate, ended, session_lineage_depth. evolve.
Qed.

(** What creating a child leaves behind: one row and one event *)
Lemma create_child_tables {T} parent limit build s r (x : T) s' :
  create_delegate_child_session_with_event_if_within_limit (aw_env a) (aw_json a) parent limit build s = (Ok (r, x), s') →
  ∃ request n row id ts, build n = Ok (request, x) ∧
    let child := trim (ns_session_id (cs_session request)) in
    trimmed child ∧ sr_parent_session_id row = Some (trim parent) ∧ db_sessions s.1 !! child = None ∧
    db_sessions s'.1 = <[child := row]> (db_sessions s.1) ∧
    db_events s'.1 = db_events s.1 ++
      [mkEventRow id child (trim (cs_event_kind request)) (normalize_optional_text (cs_actor_session_id request))
         (jt_to_string (aw_json a) (cs_event_payload_json request)) ts].
Proof.
  pose proof calm_same as Hc. pose proof load_session_same as Hl. intros H.
  unfold create_delegate_child_session_with_event_if_within_limit in H.
  apply st_bind_Ok in H as (? & ? & [= ->%normalize_is_trim <-] & H). apply st_bind_Ok in H as ([] & s1 & H1 & H).
  apply st_bind_Ok in H as ([event x'] & s2 & Htx & H).
  apply st_bind_Ok in H as (session & s3 & H3 & [= _ -> <-]).
  apply eq_run in H1; [|evolve]. apply eq_run in H3; [|unfold reload_session; evolve].
  apply (transaction_Ok _ (=)) in Htx as (s4 & s5 & keep & E4 & Hbody & E2); [|done].
  apply st_bind_Ok in Hbody as (active & s6 & Hcnt%run_sql_Ok & Hbody). injection Hcnt as _ Hs6.
  case_bool_decide; [done|]. apply st_bind_Ok in Hbody as ([request y] & s7 & [= Hbuild <-] & Hbody).
  apply st_bind_Ok in Hbody as ([] & s8 & [= Hcheck <-] & Hbody).
  apply st_bind_Ok in Hbody as (ev & s9 & Hcr & [= -> -> <- <-]).
  apply create_in_tx_tables in Hcr as (ts & n & Ht & Hnew & Hrows & Hev). apply check_child_parent in Hcheck.
  rewrite <-Hs6, <-E4, H1 in Hnew, Hrows, Hev. rewrite H3, E2.
  eexists request, active, _, n, ts. split; [done|]. split; [exact Ht|].
  split; [|split; [exact Hnew|split; [exact Hrows|exact Hev]]]. exact Hcheck.
Qed.

Lemma next_id_same : evolves (=) (next_delegate_session_id (aw_next_id a)).
Proof. intros [db w]. unfold next_delegate_session_id. by destruct (aw_next_id a w) as [[]]. Qed.

Lemma tool_view_same id : evolves (=) (tool_view (aw_env a) (aw_fuel a) tools (aw_root_tool_view a) id).
Proof.
  pose proof calm_same. pose proof load_session_same. pose proof depth_loop_same.
  unfold tool_view, if_repository, SessionRepository_new, ended, session_lineage_depth,
    load_session_summary_with_legacy_fallback, load_session_summary_with_legacy_fallback_with_conn,
    load_session_summary_with_conn, infer_legacy_session_summary_with_conn, autocommit. evolve.
Qed.

(** The context that is loaded for a child *)
Lemma runtime_context_child db child row contract w ctx s' :
  Wf db → trimmed child → db_sessions db !! child = Some row → is_Some (sr_parent_session_id row) →
  (∃ events, reads (list_delegate_lifecycle_events (aw_env a) (aw_json a) child) db (Ok events)
             ∧ last_contract events = Some contract) →
  runtime_context a tools child (db, w) = (Ok ctx, s') →
  sc_parent_session_id ctx = normalize_session_id <$> sr_parent_session_id row ∧
  sc_runtime_narrowing ctx =
    (let n := cx_runtime_narrowing contract in if ToolRuntimeNarrowing_is_empty n then None else Some n).
Proof.
  intros Hwf Ht Hrow [parent Hparent] (events & Hev & Hlast) H. unfold runtime_context, session_context in H.
  apply st_bind_Ok in H as (view & s1 & H1 & H). apply eq_run in H1; [|apply tool_view_same].
  unfold if_repository, st_match in H.
  destruct s1 as [db1 w1]. cbn in H1. subst db1.
  destruct (reads_statement (aw_env a) calm id (λ _, ()) db w1) as [w2 E2]. unfold SessionRepository_new in H.
  rewrite E2 in H. apply st_bind_Ok in H as (o & s3 & H3 & H). apply st_map_err_Ok in H3.
  pose proof (reads_load_session (aw_env a) calm db child Hwf Ht) as Hl. rewrite Hrow in Hl.
  destruct Hl as (r & Hl & Hrp & Hrid). destruct (Hl w2) as [w3 E3]. rewrite E3 in H3. injection H3 as <- <-.
  rewrite Hrp, Hparent in H. apply st_bind_Ok in H as (nar & s4 & H4 & [= <- <-]).
  unfold load_delegate_runtime_narrowing in H4. apply st_bind_Ok in H4 as (evs & s5 & H5 & [= <- <-]).
  destruct (Hev w3) as [w4 E4]. rewrite E4 in H5. injection H5 as <- <-. rewrite Hlast, Hparent. cbn [mbind option_bind].
  unfold child_context, with_runtime_narrowing. destruct (ToolRuntimeNarrowing_is_empty (cx_runtime_narrowing contract)) eqn:En.
  - by cbn.
  - cbn. by rewrite En.
Qed.

(** The events of a child that is new *)
Lemma reads_lifecycle db child events e :
  trimmed child → db_events db = events ++ [e] →
  (∀ x, x ∈ events → er_session_id x ≠ child) → er_session_id e = child → er_event_kind e ∈ lifecycle_kinds →
  reads (list_delegate_lifecycle_events (aw_env a) (aw_json a) child) db
    (map_rows (SessionEventRecord_try_from_raw (aw_json a)) [e]).
Proof.
  intros Ht Hev Hold He Hk. unfold list_delegate_lifecycle_events. rewrite normalize_trimmed by done.
  eapply reads_bind; [apply reads_lift|]. eapply reads_bind; [by apply reads_open|].
  unfold list_delegate_lifecycle_events_with_conn, autocommit. eapply reads_bind; [by apply reads_statement|].
  rewrite Hev, filter_app, filter_cons, decide_True, filter_nil by done.
  assert (filter (λ e, er_session_id e = child ∧ er_event_kind e ∈ lifecycle_kinds) events = []) as ->.
  { clear -Hold. induction events as [|x l IH]; [done|]. rewrite filter_cons, decide_False.
    - apply IH. intros y Hy. apply Hold. by right.
    - intros [Hx _]. revert Hx. apply Hold. by left. }
  apply reads_lift.
Qed.

(** A background child runs under the limits of the configuration. When
    delegate_async has returned, there is a new session of the caller's whose
    context, as the runtime loads it for the child's turns, names the caller as
    parent and carries exactly the runtime narrowing configured for children. *)
Theorem queued_child_carries_its_limits context payload s out s1 :
  Wf s.1 → env_evolves (aw_env a) Lawful →
  (∀ e, e ∈ db_events s.1 → is_Some (db_sessions s.1 !! er_session_id e)) →
  delegate_async_tool a tools context payload s = (Ok out, s1) →
  ∃ child, db_sessions s.1 !! child = None ∧
  ∀ w ctx s2, runtime_context a tools child (s1.1, w) = (Ok ctx, s2) →
    sc_parent_session_id ctx = Some (normalize_session_id (trim (sc_session_id context))) ∧
    sc_runtime_narrowing ctx =
      (let n := runtime_narrowing (dt_child_runtime (tc_delegate tools)) in
       if ToolRuntimeNarrowing_is_empty n then None else Some n).
Proof.
  intros Hwf others Hevents H. pose proof calm_same as Hc. unfold delegate_async_tool in H.
  assert (Wf s1.1) as Hwf1.
  { eapply law_wf; [|exact Hwf]. eapply evolves_run; [|exact H]. apply delegate_async_lawful; [done|].
    intros r x. by rewrite spawn_queues. }
  unfold execute_delegate_async_tool in H. destruct (negb _); [done|].
  destruct (aw_executor a); [done|]. destruct (negb _); [done|].
  apply st_bind_Ok in H as (request & s3 & [= Hreq <-] & H). apply st_bind_Ok in H as (id & s4 & H4 & H).
  apply st_bind_Ok in H as ([] & s5 & H5 & H). apply st_bind_Ok in H as (depth & s6 & H6 & H).
  apply st_bind_Ok in H as ([cr execution] & s7 & H7 & H). apply st_bind_Ok in H as ([] & s8 & H8 & [= _ <-]).
  assert (s8.1 = s7.1) as E8.
  { match type of H8 with aw_spawn_detached a ?q _ = _ => pose proof (spawn_queues q s7) as Hs end. by rewrite H8 in Hs. }
  apply eq_run in H4; [|apply next_id_same]. apply eq_run in H5; [|unfold SessionRepository_new; evolve].
  apply eq_run in H6; [|apply next_depth_same]. rewrite H5, H4 in H6.
  apply create_child_tables in H7 as (creq & n & row & eid & ts & Hb & Ht & Hp & Hnew & Hrows & Hev).
  injection Hb as <- <-. cbn [cs_session ns_session_id cs_event_kind cs_actor_session_id cs_event_payload_json] in *.
  rewrite H6 in Hnew, Hrows, Hev. rewrite <-E8 in Hrows, Hev. exists (trim id). split; [done|].
  intros w ctx s9 Hctx.
  assert (db_sessions s8.1 !! trim id = Some row) as Hrow by (by rewrite Hrows, lookup_insert_eq).
  change (trim "delegate_queued") with "delegate_queued" in Hev.
  match type of Hev with _ = _ ++ [mkEventRow _ _ _ _ (jt_to_string _ (spawn_payload ?x _ _)) _] =>
    eapply (runtime_context_child _ _ _ x) in Hctx end; [rewrite Hp in Hctx; exact Hctx|done|done|done|by rewrite Hp|].
  eexists. split.
  - assert (∀ o r, o = Ok r → reads (list_delegate_lifecycle_events (aw_env a) (aw_json a) (trim id)) s8.1 o →
              reads (list_delegate_lifecycle_events (aw_env a) (aw_json a) (trim id)) s8.1 (Ok r)) as Hconv by (by intros ? ? ->).
    eapply Hconv; [|eapply reads_lifecycle; [done|exact Hev| |done|by left]].
    + cbn [map_rows]. unfold SessionEventRecord_try_from_raw. cbn [er_payload_json]. rewrite json_roundtrip. reflexivity.
    + intros x Hx He. destruct (Hevents x Hx) as [? Hsome]. congruence.
  - unfold last_contract. cbn [reverse rev_append omap list_omap se_event_kind se_payload_json].
    rewrite bool_decide_true by (by left). by rewrite spawn_payload_keeps_the_contract.
Qed.
End limits.

Module LimitsDemo.
Import SessionRepoDemo ApprovalDemo.

Lemma delegation_demo_events e : e ∈ db_events demo_db → is_Some (db_sessions demo_db !! er_session_id e).
Proof.
  assert (Forall (λ e, is_Some (db_sessions demo_db !! er_session_id e)) (db_events demo_db)) as H
    by (repeat constructor; by eexists).
  rewrite Forall_forall in H. apply H.
Qed.

Lemma limits_witness : ∃ out s1,
  delegate_async_tool calm_world strict_tools main (in_args_json call) (demo_db, ()) = (Ok out, s1) ∧
  ∃ child, db_sessions demo_db !! child = None ∧
  ∀ w ctx s2, runtime_context calm_world strict_tools child (s1.1, w) = (Ok ctx, s2) →
    sc_parent_session_id ctx = Some (normalize_session_id (trim "root")) ∧
    sc_runtime_narrowing ctx =
      (let n := runtime_narrowing (dt_child_runtime (tc_delegate strict_tools)) in
       if ToolRuntimeNarrowing_is_empty n then None else Some n).
Proof.
  destruct (delegate_async_tool calm_world strict_tools main (in_args_json call) (demo_db, ())) as [[out|e] s1] eqn:E.
  2: { exfalso. apply (f_equal fst) in E. vm_compute in E. discriminate. }
  exists out, s1. split; [reflexivity|].
  apply (queued_child_carries_its_limits calm_world strict_tools calm_env_quiet bits_json_roundtrip (λ r s, eq_refl)
           main (in_args_json call) (demo_db, ()) out s1 demo_wf (wl_others _ calm_world_lawful) delegation_demo_events E).
Defined.
End LimitsDemo.
