(* ===== verification/Workflow.v ===== *)
(** * Workflow: programs of connector calls (spec/src/programmatic.rs)

    [execute_programmatic_tool_call] interprets a list of steps: literals,
    JSON pointers, conditionals, single connector calls and batches. Each step
    binds its output to a new name; payloads may refer to earlier outputs with
    placeholders. Calls go through [Resilience], parallel batches through the
    loop of [Scheduler], whose calls finish in an order the environment picks.

    The functions of [serde_json] that read values ([Value::pointer], the text
    of a value, equality of values) are parameters. *)
From S2P Require Import Prelude RustStr Contracts Json Errors Policy AuditSinks Plane Kernel KernelProps.
From S2P Require Import Programmatic Circuit Scheduler SchedulerProps Resilience.
From Stdlib Require Import Ascii.

(** ** Steps *)
Record ProgrammaticBatchCall := mkBatchCall {
  pc_call_id : string;
  pc_connector_name : string;
  pc_operation : string;
  pc_required_capabilities : gset Capability;
  pc_retry : option ProgrammaticRetryPolicy;
  pc_priority_class : ProgrammaticPriorityClass;
  pc_payload : Value;
}.

Inductive ProgrammaticStep :=
| Step_SetLiteral (step_id : string) (value : Value)
| Step_JsonPointer (step_id from_step pointer : string)
| Step_ConnectorCall (step_id connector_name operation : string) (required_capabilities : gset Capability)
    (retry : option ProgrammaticRetryPolicy) (priority_class : ProgrammaticPriorityClass) (payload : Value)
| Step_ConnectorBatch (step_id : string) (parallel continue_on_error : bool) (calls : list ProgrammaticBatchCall)
| Step_Conditional (step_id from_step : string) (pointer : option string) (equals : option Value)
    (exists_ : option bool) (when_true : Value) (when_false : option Value).

Definition step_name (step : ProgrammaticStep) : string :=
  match step with
  | Step_SetLiteral id _ | Step_JsonPointer id _ _ | Step_ConnectorCall id _ _ _ _ _ _
  | Step_ConnectorBatch id _ _ _ | Step_Conditional id _ _ _ _ _ _ => id
  end.

(** What the interpreter uses of [serde_json] *)
Record JsonLib := mkJsonLib {
  jl_pointer : Value → string → option Value;
  jl_to_string : Value → string;
  jl_eqb : Value → Value → bool;
}.

Abbreviation Outputs := (gmap string Value).

(** [ensure_new_step_id] *)
Definition ensure_new_step_id (step_id : string) (outputs : Outputs) : result string unit :=
  _ ← reject (is_empty (trim step_id)) "programmatic step_id cannot be empty";
  reject (bool_decide (is_Some (outputs !! step_id)))
    ("programmatic step_id " +:+ step_id +:+ " is duplicated").

(** [normalize_programmatic_pointer] *)
Definition normalize_programmatic_pointer (pointer : string) : result string string :=
  let pointer := trim pointer in
  if is_empty pointer then Err (programmatic_error EC_InvalidSpec "json pointer cannot be empty")
  else if starts_with "/" pointer then Ok pointer else Ok ("/" +:+ pointer).

(** [attach_programmatic_payload_provenance] *)
Definition attach_programmatic_payload_provenance (payload : Value) (caller step_id : string) (step_index : Z)
    (call_id : option string) : Value :=
  let payload_map := match payload with JObject map => map | other => [("input", other)] end in
  let meta := default [] (obj_get "_loongclaw" payload_map ≫= json_as_object) in
  let payload_map := obj_remove "_loongclaw" payload_map in
  let meta := obj_insert "caller" (JString caller) meta in
  let meta := obj_insert "mode" (JString "programmatic_tool_call") meta in
  let meta := obj_insert "step_id" (JString step_id) meta in
  let meta := obj_insert "step_index" (json_uint step_index) meta in
  let meta := match call_id with Some call_id => obj_insert "call_id" (JString call_id) meta | None => meta end in
  JObject (obj_insert "_loongclaw" (JObject meta) payload_map).

Section templates.
Context (json : JsonLib) (outputs : Outputs).

(** [resolve_programmatic_template_expr] *)
Definition resolve_programmatic_template_expr (raw_expr : string) : result string Value :=
  let expr := trim raw_expr in
  if is_empty expr then Err (programmatic_error EC_TemplateError "template expression cannot be empty")
  else
    let '(step_id, pointer) :=
      match split_once "#"%char expr with
      | Some (step_id, pointer) => (trim step_id, Some (trim pointer))
      | None => (expr, None)
      end in
    if is_empty step_id then
      Err (programmatic_error EC_TemplateError ("template expression " +:+ expr +:+ " has empty step_id"))
    else
      value ← ok_or (outputs !! step_id)
                (programmatic_error EC_UnknownStep
                   ("template expression references unknown step " +:+ step_id));
      match pointer with
      | None => Ok value
      | Some pointer =>
          normalized_pointer ← normalize_programmatic_pointer pointer;
          ok_or (jl_pointer json value normalized_pointer)
            (programmatic_error EC_PointerNotFound
               ("template pointer " +:+ normalized_pointer +:+ " not found in step " +:+ step_id))
      end.

Definition missing_braces (raw : string) : string :=
  programmatic_error EC_TemplateError ("template placeholder is missing closing braces in: " +:+ raw).

(** The text a placeholder is replaced by *)
Definition rendered_value (value : Value) : string :=
  match value with JString s => s | other => jl_to_string json other end.

(** [while let Some(start_rel) = raw[cursor..].find("{{")]: [rest] is
    [raw[cursor..]]. Each round takes at least four bytes off [rest]. *)
Fixpoint render_placeholders (fuel : nat) (raw rest rendered : string) : result string string :=
  match fuel with
  | O => Ok (rendered +:+ rest)
  | S fuel =>
      match find_str "{{" rest with
      | None => Ok (rendered +:+ rest)
      | Some start =>
          let after := str_drop (start + 2) rest in
          match find_str "}}" after with
          | None => Err (missing_braces raw)
          | Some end_rel =>
              value ← resolve_programmatic_template_expr (String.substring 0 end_rel after);
              render_placeholders fuel raw (str_drop (end_rel + 2) after)
                (rendered +:+ String.substring 0 start rest +:+ rendered_value value)
          end
      end
  end.

(** [resolve_programmatic_template_string] *)
Definition resolve_programmatic_template_string (raw : string) : result string Value :=
  match find_str "{{" raw with
  | None => Ok (JString raw)
  | Some first_start =>
      let after := str_drop (first_start + 2) raw in
      match find_str "}}" after with
      | None => Err (missing_braces raw)
      | Some first_end_rel =>
          if (first_start =? 0) && (first_start + 2 + first_end_rel + 2 =? String.length raw)
          then resolve_programmatic_template_expr (String.substring 0 first_end_rel after)
          else JString <$> render_placeholders (String.length raw) raw raw ""
      end
  end.

(** The loops over the entries of an object and the items of an array *)
Definition resolve_fields (resolve : Value → result string Value) :
    list (string * Value) → list (string * Value) → result string Value :=
  fix loop map resolved :=
    match map with
    | [] => Ok (JObject resolved)
    | (key, value) :: map => value ← resolve value; loop map (obj_insert key value resolved)
    end.

Definition resolve_items (resolve : Value → result string Value) :
    list Value → list Value → result string Value :=
  fix loop list resolved :=
    match list with
    | [] => Ok (JArray resolved)
    | value :: list => value ← resolve value; loop list (resolved ++ [value])
    end.

(** [resolve_programmatic_payload_templates] *)
Fixpoint resolve_programmatic_payload_templates (payload : Value) : result string Value :=
  match payload with
  | JObject map => resolve_fields resolve_programmatic_payload_templates map []
  | JArray list => resolve_items resolve_programmatic_payload_templates list []
  | JString raw => resolve_programmatic_template_string raw
  | JNull | JBool _ | JNumber _ => Ok payload
  end.
End templates.

(** ** Calls *)

(** The arguments of one [invoke_programmatic_connector_with_resilience] *)
Record Invocation := mkInvocation {
  iv_step_id : string;
  iv_call_id : option string;
  iv_connector_name : string;
  iv_operation : string;
  iv_required_capabilities : gset Capability;
  iv_payload : Value;
  iv_retry_policy : ProgrammaticRetryPolicy;
  iv_priority_class : ProgrammaticPriorityClass;
}.

Definition batch_invocation (step_id : string) (call : PreparedProgrammaticBatchCall) : Invocation :=
  mkInvocation step_id (Some (bc_call_id call)) (bc_connector_name call) (bc_operation call)
    (bc_required_capabilities call) (bc_payload call) (bc_retry_policy call) (bc_priority_class call).

(** [!allowed_connectors.is_empty() && !allowed_connectors.contains(..)] *)
Definition connector_refused (allowed_connectors : gset string) (connector_name : string) : bool :=
  negb (bool_decide (allowed_connectors = ∅)) && negb (bool_decide (connector_name ∈ allowed_connectors)).

(** [prepare_programmatic_batch_calls] *)
Section prepare.
Context (json : JsonLib) (outputs : Outputs) (allowed_connectors : gset string) (caller step_id : string)
  (step_index : Z).

Definition prepare_call (seen_call_ids : gset string) (call : ProgrammaticBatchCall) :
    result string PreparedProgrammaticBatchCall :=
  let call_id := trim (pc_call_id call) in
  _ ← reject (is_empty call_id)
        ("programmatic batch step " +:+ step_id +:+ " has a call with empty call_id");
  _ ← reject (bool_decide (call_id ∈ seen_call_ids))
        ("programmatic batch step " +:+ step_id +:+ " has duplicated call_id " +:+ call_id);
  _ ← (if connector_refused allowed_connectors (pc_connector_name call) then
         Err (programmatic_error EC_ConnectorNotAllowed
                ("programmatic batch step " +:+ step_id +:+ " connector " +:+ pc_connector_name call
                 +:+ " is not in allowed_connectors"))
       else Ok ());
  retry_policy ← validate_retry_policy (pc_retry call) step_id (Some call_id);
  resolved_payload ← resolve_programmatic_payload_templates json outputs (pc_payload call);
  Ok (mkPreparedCall call_id (pc_connector_name call) (pc_operation call) (pc_required_capabilities call)
        retry_policy (pc_priority_class call)
        (attach_programmatic_payload_provenance resolved_payload caller step_id step_index (Some call_id))).

Fixpoint prepare_calls (seen_call_ids : gset string) (calls : list ProgrammaticBatchCall) :
    result string (list PreparedProgrammaticBatchCall) :=
  match calls with
  | [] => Ok []
  | call :: calls =>
      prepared ← prepare_call seen_call_ids call;
      rest ← prepare_calls ({[bc_call_id prepared]} ∪ seen_call_ids) calls;
      Ok (prepared :: rest)
  end.

Definition prepare_programmatic_batch_calls (calls : list ProgrammaticBatchCall) :
    result string (list PreparedProgrammaticBatchCall) := prepare_calls ∅ calls.
End prepare.

Section workflow.
Context {W : Type} (json : JsonLib).
(** The clock and [sleep] of [Resilience], and which of the calls in flight
    [FuturesUnordered] returns next *)
Context (instant_now : W → Z * W) (sleep : Z → W → W) (next_ready : nat → W → nat * W).
Context (pack_id : string) (token : CapabilityToken).
Context (connector_rate_limits : gmap string ProgrammaticConnectorRateLimit)
  (connector_circuit_breakers : gmap string ProgrammaticCircuitBreakerPolicy)
  (concurrency : ProgrammaticConcurrencyPolicy).
Abbreviation RS := (ResilienceState (W := W)).
Abbreviation Run := (ST RS string).

Definition invoke (i : Invocation) : Run (ConnectorDispatch * ProgrammaticInvocationMetrics) :=
  invoke_programmatic_connector_with_resilience instant_now sleep pack_id token (iv_connector_name i)
    (iv_operation i) (iv_required_capabilities i) (iv_payload i) (iv_retry_policy i) connector_rate_limits
    connector_circuit_breakers (iv_step_id i) (iv_call_id i) (iv_priority_class i).

(** ** Batches *)

(** [inflight.next().await]: the position of the call that is ready *)
Definition pick_ready (inflight : nat) (s : RS) : nat * RS :=
  let '(i, w) := next_ready inflight (rs_env s) in (i mod inflight, with_env w s).

(** The outer loop of a parallel batch. Each round completes one call. *)
Fixpoint parallel_loop (fuel : nat) (step_id : string) (st : BatchState) (s : RS) : BatchState * RS :=
  match fuel with
  | O => (st, s)
  | S fuel =>
      if batch_done st then (st, s)
      else
        let st := filled concurrency st in
        match bs_inflight st with
        | [] => (st, s)
        | _ :: _ =>
            let '(i, s) := pick_ready (length (bs_inflight st)) s in
            match bs_inflight st !! i with
            | None => (st, s)
            | Some call =>
                let '(r, s) := invoke (batch_invocation step_id call) s in
                parallel_loop fuel step_id
                  (complete concurrency step_id call r (take i (bs_inflight st) ++ drop (S i) (bs_inflight st)) st) s
            end
        end
  end.

(** The counters when a call of a serial batch is dispatched *)
Definition serial_counters (call : PreparedProgrammaticBatchCall) (k : SchedulerCounters) : SchedulerCounters :=
  let key := ProgrammaticPriorityClass_as_str (bc_priority_class call) in
  let counts := sc_priority_dispatch_counts k in
  mkSchedulerCounters 1 (sc_final_in_flight_budget k) (sc_budget_reductions k) (sc_budget_increases k)
    (sc_scheduler_wait_cycles k) (sc_dispatch_order k ++ [bc_call_id call])
    (match counts !! key with Some n => <[key := sat_add n 1]> counts | None => counts end).

Fixpoint serial_loop (step_id : string) (continue_on_error : bool) (calls : list PreparedProgrammaticBatchCall)
    (k : SchedulerCounters) (reports : gmap string Value) : Run (SchedulerCounters * gmap string Value) :=
  match calls with
  | [] => mret (k, reports)
  | call :: calls => λ s,
      match invoke (batch_invocation step_id call) s with
      | (Err error, s) =>
          if continue_on_error then
            serial_loop step_id continue_on_error calls (serial_counters call k)
              (<[bc_call_id call := call_report call (Err error)]> reports) s
          else (Err (batch_failure step_id call error), s)
      | (Ok answer, s) =>
          serial_loop step_id continue_on_error calls (serial_counters call k)
            (<[bc_call_id call := call_report call (Ok answer)]> reports) s
      end
  end.

Definition initial_counters (budget : Z) : SchedulerCounters :=
  mkSchedulerCounters 0 budget 0 0 0 [] (list_to_map [("high", 0%Z); ("normal", 0%Z); ("low", 0%Z)]).

(** [ProgrammaticBatchExecutionSummary], as it is serialized *)
Definition summary_value (is_parallel : bool) (k : SchedulerCounters) : Value :=
  json_object
    [("mode", json_str (if is_parallel then "parallel" else "serial"));
     ("fairness", json_str (ProgrammaticFairnessPolicy_as_str (cp_fairness concurrency)));
     ("adaptive_budget", json_bool (is_parallel && cp_adaptive_budget concurrency));
     ("configured_max_in_flight", json_uint (cp_max_in_flight concurrency));
     ("configured_min_in_flight", json_uint (cp_min_in_flight concurrency));
     ("peak_in_flight", json_uint (sc_peak_in_flight k));
     ("final_in_flight_budget", json_uint (sc_final_in_flight_budget k));
     ("budget_reductions", json_uint (sc_budget_reductions k));
     ("budget_increases", json_uint (sc_budget_increases k));
     ("adaptive_upshift_step", json_uint (cp_adaptive_upshift_step concurrency));
     ("adaptive_downshift_step", json_uint (cp_adaptive_downshift_step concurrency));
     ("adaptive_reduce_on",
       json_strs (ProgrammaticAdaptiveReduceOn_as_str <$>
                  filter (λ r, r ∈ cp_adaptive_reduce_on concurrency) all_reduce_on));
     ("scheduler_wait_cycles", json_uint (sc_scheduler_wait_cycles k));
     ("dispatch_order", json_strs (sc_dispatch_order k));
     ("priority_dispatch_counts",
       JObject (prod_map id json_uint <$> btree_entries (sc_priority_dispatch_counts k)))].

(** [execute_programmatic_batch_calls] *)
Definition execute_programmatic_batch_calls (step_id : string) (parallel continue_on_error : bool)
    (prepared_calls : list PreparedProgrammaticBatchCall) : Run (list Value * Value) :=
  if parallel && (1 <? length prepared_calls) then λ s,
    let '(st, s) := parallel_loop (length prepared_calls) step_id (batch_init concurrency prepared_calls) s in
    match bs_first_error st with
    | Some error =>
        if continue_on_error then (Ok (batch_reports prepared_calls st, summary_value true (bs_counters st)), s)
        else (Err error, s)
    | None => (Ok (batch_reports prepared_calls st, summary_value true (bs_counters st)), s)
    end
  else
    serial_loop step_id continue_on_error prepared_calls (initial_counters 1) ∅ ≫= λ '(k, reports),
    mret (omap (λ call, reports !! bc_call_id call) prepared_calls, summary_value false k).

(** ** The interpreter *)
Context (caller : string) (max_calls : Z) (include_intermediate : bool) (allowed_connectors : gset string).

(** [step_outputs], [connector_calls], [last_step_id], [step_trace] *)
Record WorkflowState := mkWorkflowState {
  wf_outputs : Outputs;
  wf_connector_calls : Z;
  wf_last_step_id : option string;
  wf_step_trace : list Value;
}.

(** The end of every step: bind the output and record the trace *)
Definition bind_output (step_id : string) (output : Value) (calls : Z) (trace : Value) (ws : WorkflowState) :
    WorkflowState :=
  mkWorkflowState (<[step_id := output]> (wf_outputs ws)) calls (Some step_id)
    (if include_intermediate then wf_step_trace ws ++ [trace] else wf_step_trace ws).

Definition from_step_output (step_id from_step : string) (outputs : Outputs) : result string Value :=
  ok_or (outputs !! from_step)
    (programmatic_error EC_UnknownStep
       ("programmatic step " +:+ step_id +:+ " references unknown from_step " +:+ from_step)).

(** The predicates of a conditional step *)
Definition condition_matches (evaluated : option Value) (exists_ : option bool) (equals : option Value) : bool :=
  match exists_ with Some expected => Bool.eqb (bool_decide (is_Some evaluated)) expected | None => true end
  && match equals with
     | Some expected => match evaluated with Some v => jl_eqb json v expected | None => false end
     | None => true
     end.

Definition is_error_report (report : Value) : bool :=
  match json_get_str "status" report with Some status => bool_decide (status = "error") | None => false end.

(** [by_call] of a batch *)
Definition reports_by_call (reports : list Value) : list (string * Value) :=
  foldl (λ by_call report,
           match json_get_str "call_id" report with
           | Some call_id => obj_insert call_id report by_call
           | None => by_call
           end) [] reports.

Definition batch_step_result (parallel continue_on_error : bool) (reports : list Value) (scheduler : Value) : Value :=
  let failed_calls := len (filter (λ report, is_error_report report = true) reports) in
  json_object
    [("parallel", json_bool parallel); ("continue_on_error", json_bool continue_on_error);
     ("total_calls", json_uint (len reports)); ("success_calls", json_uint (sat_sub (len reports) failed_calls));
     ("failed_calls", json_uint failed_calls); ("calls", JArray reports);
     ("by_call", JObject (reports_by_call reports)); ("scheduler", scheduler)].

Definition budget_exceeded (detail : string) : string :=
  programmatic_error EC_CallBudgetExceeded
    ("programmatic connector call budget exceeded: max_calls=" +:+ display max_calls +:+ detail).

Definition execute_connector_call (index : Z) (step_id connector_name operation : string)
    (required_capabilities : gset Capability) (retry : option ProgrammaticRetryPolicy)
    (priority_class : ProgrammaticPriorityClass) (payload : Value) (ws : WorkflowState) : Run WorkflowState :=
  if connector_refused allowed_connectors connector_name then
    throw (programmatic_error EC_ConnectorNotAllowed
             ("programmatic step " +:+ step_id +:+ " connector " +:+ connector_name
              +:+ " is not in allowed_connectors"))
  else if (max_calls <=? wf_connector_calls ws)%Z then throw (budget_exceeded "")
  else
    lift (validate_retry_policy retry step_id None) ≫= λ retry_policy,
    lift (resolve_programmatic_payload_templates json (wf_outputs ws) payload) ≫= λ resolved_payload,
    invoke (mkInvocation step_id None connector_name operation required_capabilities
              (attach_programmatic_payload_provenance resolved_payload caller step_id index None)
              retry_policy priority_class) ≫= λ '(dispatch, metrics),
    let step_result :=
      json_object
        [("connector_name", json_str (cd_connector_name dispatch)); ("outcome", outcome_value (cd_outcome dispatch));
         ("priority_class", json_str (ProgrammaticPriorityClass_as_str priority_class));
         ("execution", metrics_value metrics)] in
    mret (bind_output step_id step_result (sat_add (wf_connector_calls ws) 1)
            (json_object
               [("step_id", json_str step_id); ("kind", json_str "connector_call");
                ("connector_name", json_str connector_name); ("operation", json_str operation);
                ("output", step_result)]) ws).

Definition execute_connector_batch (index : Z) (step_id : string) (parallel continue_on_error : bool)
    (calls : list ProgrammaticBatchCall) (ws : WorkflowState) : Run WorkflowState :=
  match calls with
  | [] =>
      throw (programmatic_error EC_InvalidSpec
               ("programmatic batch step " +:+ step_id +:+ " requires at least one call"))
  | _ :: _ =>
      let attempted := sat_add (wf_connector_calls ws) (len calls) in
      if (max_calls <? attempted)%Z then throw (budget_exceeded (", attempted=" +:+ display attempted))
      else
        lift (prepare_programmatic_batch_calls json (wf_outputs ws) allowed_connectors caller step_id index calls)
        ≫= λ prepared_calls,
        execute_programmatic_batch_calls step_id parallel continue_on_error prepared_calls
        ≫= λ '(call_reports, scheduler),
        let step_result := batch_step_result parallel continue_on_error call_reports scheduler in
        mret (bind_output step_id step_result (sat_add (wf_connector_calls ws) (len prepared_calls))
                (json_object
                   [("step_id", json_str step_id); ("kind", json_str "connector_batch");
                    ("parallel", json_bool parallel); ("continue_on_error", json_bool continue_on_error);
                    ("output", step_result)]) ws)
  end.

Definition execute_conditional (step_id from_step : string) (pointer : option string) (equals : option Value)
    (exists_ : option bool) (when_true : Value) (when_false : option Value) (ws : WorkflowState) :
    result string WorkflowState :=
  _ ← reject (negb (bool_decide (is_Some equals)) && negb (bool_decide (is_Some exists_)))
        ("programmatic conditional step " +:+ step_id
         +:+ " requires at least one predicate (equals or exists)");
  source ← from_step_output step_id from_step (wf_outputs ws);
  evaluated ← match pointer with
              | Some pointer =>
                  normalized_pointer ← normalize_programmatic_pointer pointer;
                  Ok (jl_pointer json source normalized_pointer)
              | None => Ok (Some source)
              end;
  let matched := condition_matches evaluated exists_ equals in
  let selected := if matched then when_true else default JNull when_false in
  resolved_output ← resolve_programmatic_payload_templates json (wf_outputs ws) selected;
  Ok (bind_output step_id resolved_output (wf_connector_calls ws)
        (json_object
           [("step_id", json_str step_id); ("kind", json_str "conditional"); ("from_step", json_str from_step);
            ("pointer", json_opt json_str pointer); ("exists", json_opt json_bool exists_);
            ("equals", json_opt id equals); ("evaluated", json_opt id evaluated);
            ("matched", json_bool matched); ("output", resolved_output)]) ws).

(** One iteration of the loop over [steps] *)
Definition execute_step (index : Z) (step : ProgrammaticStep) (ws : WorkflowState) : Run WorkflowState :=
  lift (ensure_new_step_id (step_name step) (wf_outputs ws)) ≫= λ _,
  match step with
  | Step_SetLiteral step_id value =>
      mret (bind_output step_id value (wf_connector_calls ws)
              (json_object [("step_id", json_str step_id); ("kind", json_str "set_literal"); ("output", value)]) ws)
  | Step_JsonPointer step_id from_step pointer =>
      lift (from_step_output step_id from_step (wf_outputs ws)) ≫= λ source,
      lift (ok_or (jl_pointer json source pointer)
              (programmatic_error EC_PointerNotFound
                 ("programmatic step " +:+ step_id +:+ " pointer " +:+ pointer +:+ " not found in " +:+ from_step)))
      ≫= λ extracted,
      mret (bind_output step_id extracted (wf_connector_calls ws)
              (json_object
                 [("step_id", json_str step_id); ("kind", json_str "json_pointer"); ("from_step", json_str from_step);
                  ("pointer", json_str pointer); ("output", extracted)]) ws)
  | Step_ConnectorCall step_id connector_name operation required_capabilities retry priority_class payload =>
      execute_connector_call index step_id connector_name operation required_capabilities retry priority_class
        payload ws
  | Step_ConnectorBatch step_id parallel continue_on_error calls =>
      execute_connector_batch index step_id parallel continue_on_error calls ws
  | Step_Conditional step_id from_step pointer equals exists_ when_true when_false =>
      lift (execute_conditional step_id from_step pointer equals exists_ when_true when_false ws)
  end.

Fixpoint execute_steps (index : Z) (steps : list ProgrammaticStep) (ws : WorkflowState) : Run WorkflowState :=
  match steps with
  | [] => mret ws
  | step :: steps => execute_step index step ws ≫= λ ws, execute_steps (index + 1) steps ws
  end.

(** The step whose output is the result *)
Definition final_step (return_step : option string) (ws : WorkflowState) : result string (string * Value) :=
  final_step_id ←
    match (trim <$> return_step) ≫= (λ value, if is_empty value then None else Some value) with
    | Some step_id => Ok step_id
    | None =>
        ok_or (wf_last_step_id ws)
          (programmatic_error EC_InvalidSpec "programmatic workflow produced no step output")
    end;
  final_output ← ok_or (wf_outputs ws !! final_step_id)
                   (programmatic_error EC_UnknownStep
                      ("programmatic return_step " +:+ final_step_id +:+ " does not exist"));
  Ok (final_step_id, final_output).

Definition rate_limits_value : Value :=
  JObject (prod_map id (λ limit, json_object [("min_interval_ms", json_uint (rl_min_interval_ms limit))])
           <$> btree_entries connector_rate_limits).

Definition circuit_breakers_value : Value :=
  JObject (prod_map id (λ policy,
             json_object
               [("failure_threshold", json_uint (cb_failure_threshold policy));
                ("cooldown_ms", json_uint (cb_cooldown_ms policy));
                ("half_open_max_calls", json_uint (cb_half_open_max_calls policy));
                ("success_threshold", json_uint (cb_success_threshold policy))])
           <$> btree_entries connector_circuit_breakers).

Definition concurrency_value : Value :=
  json_object
    [("max_in_flight", json_uint (cp_max_in_flight concurrency));
     ("min_in_flight", json_uint (cp_min_in_flight concurrency));
     ("fairness", json_str (ProgrammaticFairnessPolicy_as_str (cp_fairness concurrency)));
     ("adaptive_budget", json_bool (cp_adaptive_budget concurrency));
     ("high_weight", json_uint (cp_high_weight concurrency));
     ("normal_weight", json_uint (cp_normal_weight concurrency));
     ("low_weight", json_uint (cp_low_weight concurrency));
     ("adaptive_recovery_successes", json_uint (cp_adaptive_recovery_successes concurrency));
     ("adaptive_upshift_step", json_uint (cp_adaptive_upshift_step concurrency));
     ("adaptive_downshift_step", json_uint (cp_adaptive_downshift_step concurrency));
     ("adaptive_reduce_on",
       json_strs (ProgrammaticAdaptiveReduceOn_as_str <$>
                  filter (λ r, r ∈ cp_adaptive_reduce_on concurrency) all_reduce_on))].

(** The JSON object that is returned *)
Definition workflow_response (final_step_id : string) (final_output : Value) (ws : WorkflowState) : Value :=
  json_object
    ([("caller", json_str caller); ("max_calls", json_uint max_calls);
      ("connector_calls", json_uint (wf_connector_calls ws)); ("return_step", json_str final_step_id);
      ("result", final_output)]
     ++ (if bool_decide (connector_rate_limits = ∅) then []
         else [("connector_rate_limits", rate_limits_value)])
     ++ (if bool_decide (connector_circuit_breakers = ∅) then []
         else [("connector_circuit_breakers", circuit_breakers_value)])
     ++ [("concurrency", concurrency_value)]
     ++ (if include_intermediate
         then [("steps", JArray (wf_step_trace ws)); ("step_outputs", JObject (btree_entries (wf_outputs ws)))]
         else [])).

(** The checks before the first step *)
Definition validate_workflow (steps : list ProgrammaticStep) : result string unit :=
  _ ← reject (max_calls =? 0)%Z "programmatic_tool_call max_calls must be greater than 0";
  _ ← reject (match steps with [] => true | _ => false end) "programmatic_tool_call requires at least one step";
  _ ← validate_programmatic_rate_limits connector_rate_limits;
  _ ← validate_programmatic_circuit_breakers connector_circuit_breakers;
  validate_programmatic_concurrency_policy concurrency.

Definition WorkflowState_new : WorkflowState := mkWorkflowState ∅ 0 None [].

(** [connector_rate_state] and [connector_circuit_state] are made for each call. *)
Definition with_fresh_limits {A} (m : Run A) : Run A := λ s,
  m (mkResilienceState ∅ ∅ (rs_kernel s) (rs_env s)).

(** [execute_programmatic_tool_call] *)
Definition execute_programmatic_tool_call (return_step : option string) (steps : list ProgrammaticStep) : Run Value :=
  lift (validate_workflow steps) ≫= λ _,
  with_fresh_limits
    (execute_steps 0 steps WorkflowState_new ≫= λ ws,
     lift (final_step return_step ws) ≫= λ '(final_step_id, final_output),
     mret (workflow_response final_step_id final_output ws)).
End workflow.

(** * What a workflow guarantees *)

(** ** Placeholders *)

(** The text is used up before the fuel is. *)
Lemma render_fuel json outputs fuel fuel' raw rest rendered :
  String.length rest ≤ fuel → String.length rest ≤ fuel' →
  render_placeholders json outputs fuel raw rest rendered = render_placeholders json outputs fuel' raw rest rendered.
Proof.
  assert (∀ r, String.length r = 0 → find_str "{{" r = None) as Hnil by (by intros []).
  revert fuel' rest rendered. induction fuel as [|fuel IH]; intros fuel' rest rendered H H'.
  { destruct fuel'; [done|]. cbn [render_placeholders]. rewrite Hnil by lia. done. }
  destruct fuel' as [|fuel']. { cbn [render_placeholders]. rewrite Hnil by lia. done. }
  cbn [render_placeholders]. destruct (find_str "{{" rest) as [start|] eqn:E; [|done]. cbn zeta.
  apply find_str_Some in E as (pre & post & Hr & Hs). apply (f_equal String.length) in Hr.
  rewrite !length_app_str in Hr. cbn in Hr.
  destruct (find_str "}}" _) as [stop|]; [|done]. destruct (resolve_programmatic_template_expr _ _ _); [|done].
  apply IH; rewrite !length_str_drop; lia.
Qed.

(** A placeholder means the same once more outputs are known. *)
Lemma resolve_expr_mono json outputs outputs' expr v :
  outputs ⊆ outputs' → resolve_programmatic_template_expr json outputs expr = Ok v →
  resolve_programmatic_template_expr json outputs' expr = Ok v.
Proof.
  intros Hsub. unfold resolve_programmatic_template_expr. destruct (is_empty (trim expr)); [done|].
  destruct (split_once _ _) as [[??]|]; cbn; (destruct (is_empty _); [done|]);
    (destruct (outputs !! _) as [w|] eqn:E; [|done]);
    by rewrite (lookup_weaken _ _ _ _ E Hsub).
Qed.

Lemma render_mono json outputs outputs' fuel raw rest rendered v :
  outputs ⊆ outputs' → render_placeholders json outputs fuel raw rest rendered = Ok v →
  render_placeholders json outputs' fuel raw rest rendered = Ok v.
Proof.
  intros Hsub. revert rest rendered. induction fuel as [|fuel IH]; intros rest rendered; [done|].
  cbn [render_placeholders]. destruct (find_str "{{" rest); [|done]. cbn zeta. destruct (find_str "}}" _); [|done].
  intros (w & Hw & H)%bind_Ok. rewrite (resolve_expr_mono _ _ _ _ _ Hsub Hw). by apply IH.
Qed.

Lemma resolve_string_mono json outputs outputs' raw v :
  outputs ⊆ outputs' → resolve_programmatic_template_string json outputs raw = Ok v →
  resolve_programmatic_template_string json outputs' raw = Ok v.
Proof.
  intros Hsub. unfold resolve_programmatic_template_string. destruct (find_str "{{" raw); [|done]. cbn zeta.
  destruct (find_str "}}" _); [|done]. destruct (_ && _); [by apply resolve_expr_mono|].
  destruct (render_placeholders json outputs _ _ _ _) as [t|] eqn:E; [|done].
  by rewrite (render_mono _ _ _ _ _ _ _ _ Hsub E).
Qed.

(** Induction on JSON values, through arrays and objects *)
Lemma Value_nested_ind (P : Value → Prop) :
  P JNull → (∀ b, P (JBool b)) → (∀ n, P (JNumber n)) → (∀ s, P (JString s)) →
  (∀ xs, Forall P xs → P (JArray xs)) → (∀ fields, Forall (λ p, P p.2) fields → P (JObject fields)) → ∀ v, P v.
Proof.
  intros Hn Hb Hu Hs Ha Ho. fix IH 1. intros [|b|n|s|xs|fields].
  - exact Hn.
  - exact (Hb b).
  - exact (Hu n).
  - exact (Hs s).
  - apply Ha. induction xs as [|x xs IHxs]; constructor; [exact (IH x)|exact IHxs].
  - apply Ho. induction fields as [|[k v] fields IHf]; constructor; [exact (IH v)|exact IHf].
Qed.

Lemma resolve_mono json outputs outputs' payload v :
  outputs ⊆ outputs' → resolve_programmatic_payload_templates json outputs payload = Ok v →
  resolve_programmatic_payload_templates json outputs' payload = Ok v.
Proof.
  intros Hsub. revert v. induction payload as [| | |raw|xs IH|fields IH] using Value_nested_ind; intros v; try done.
  - by apply resolve_string_mono.
  - cbn [resolve_programmatic_payload_templates]. generalize (@nil Value) as acc.
    induction IH as [|x xs Hx _ IHxs]; intros acc; [done|]. cbn [resolve_items].
    intros (w & Hw & H)%bind_Ok. rewrite (Hx _ Hw). by apply IHxs.
  - cbn [resolve_programmatic_payload_templates]. generalize (@nil (string * Value)) as acc.
    induction IH as [|[k x] xs Hx _ IHxs]; intros acc; [done|]. cbn [resolve_fields].
    intros (w & Hw & H)%bind_Ok. cbn in Hx. rewrite (Hx _ Hw). by apply IHxs.
Qed.

(** A payload without placeholders, its objects in key order *)
Inductive literal : Value → Prop :=
| literal_null : literal JNull
| literal_bool b : literal (JBool b)
| literal_number n : literal (JNumber n)
| literal_string s : contains "{{" s = false → literal (JString s)
| literal_array xs : Forall literal xs → literal (JArray xs)
| literal_object fields : StronglySorted (λ p q : string * Value, String.le p.1 q.1 ∧ p.1 ≠ q.1) fields →
    Forall (λ p, literal p.2) fields → literal (JObject fields).

Lemma obj_insert_last key v fields :
  Forall (λ p : string * Value, String.le p.1 key ∧ p.1 ≠ key) fields → obj_insert key v fields = fields ++ [(key, v)].
Proof.
  induction 1 as [|[k x] fields [Hle Hne] _ IH]; [done|]. cbn in *.
  rewrite bool_decide_false by congruence. rewrite bool_decide_false, IH; [done|].
  intros Hle'. by apply Hne, (anti_symm String.le).
Qed.

Lemma resolve_items_literal resolve xs acc :
  Forall (λ x, resolve x = Ok x) xs → resolve_items resolve xs acc = Ok (JArray (acc ++ xs)).
Proof.
  intros H. revert acc. induction H as [|x xs Hx _ IH]; intros acc; [by rewrite app_nil_r|].
  cbn [resolve_items]. rewrite Hx. cbn. by rewrite IH, <-app_assoc.
Qed.

Lemma resolve_fields_literal resolve fields acc :
  Forall (λ p, resolve p.2 = Ok p.2) fields →
  StronglySorted (λ p q : string * Value, String.le p.1 q.1 ∧ p.1 ≠ q.1) (acc ++ fields) →
  resolve_fields resolve fields acc = Ok (JObject (acc ++ fields)).
Proof.
  intros H. revert acc. induction H as [|[k x] fields Hx _ IH]; intros acc Hs; [by rewrite app_nil_r|].
  cbn [resolve_fields]. cbn in Hx. rewrite Hx. cbn. rewrite obj_insert_last.
  - rewrite IH, <-app_assoc; [done|]. by rewrite <-app_assoc.
  - apply StronglySorted_app in Hs as (H & _ & _). apply Forall_forall. intros p Hp. apply (H p (k, x) Hp). set_solver.
Qed.

(** Such a payload is sent as it is written. *)
Lemma resolve_literal json outputs payload :
  literal payload → resolve_programmatic_payload_templates json outputs payload = Ok payload.
Proof.
  induction payload as [| | |raw|xs IH|fields IH] using Value_nested_ind; intros H; try done;
    inversion H as [| | |? Hc|? Hxs|? Hs Hf]; subst; cbn [resolve_programmatic_payload_templates].
  - unfold contains in Hc. unfold resolve_programmatic_template_string. by destruct (find_str "{{" raw).
  - apply (resolve_items_literal _ _ []). rewrite Forall_forall in *. auto.
  - apply (resolve_fields_literal _ _ []); [|done]. rewrite Forall_forall in *. auto.
Qed.

(** ** The calls a workflow makes *)
Section calls.
Context {W : Type} (json : JsonLib) (instant_now : W → Z * W) (sleep : Z → W → W) (next_ready : nat → W → nat * W).
Context (pack_id : string) (token : CapabilityToken)
  (limits : gmap string ProgrammaticConnectorRateLimit) (breakers : gmap string ProgrammaticCircuitBreakerPolicy)
  (concurrency : ProgrammaticConcurrencyPolicy) (caller : string) (max_calls : Z) (include_intermediate : bool)
  (allowed : gset string).
#[local] Abbreviation call := (invoke instant_now sleep pack_id token limits breakers).
#[local] Abbreviation par := (parallel_loop instant_now sleep next_ready pack_id token limits breakers concurrency).

(** [performed l s s']: the state went from [s] to [s'] by the connector calls
    [l], one after the other. Between calls the environment says which call in
    flight is ready. *)
Inductive performed : list Invocation → ResilienceState (W := W) → ResilienceState (W := W) → Prop :=
| performed_none s : performed [] s s
| performed_pick n l s s' : performed l (pick_ready next_ready n s).2 s' → performed l s s'
| performed_call i l s s' : performed l (call i s).2 s' → performed (i :: l) s s'.

Lemma performed_app l l' s s1 s2 : performed l s s1 → performed l' s1 s2 → performed (l ++ l') s s2.
Proof.
  induction 1; intros H'; [done|..].
  - eapply performed_pick. eauto.
  - apply performed_call. eauto.
Qed.
Lemma performed_one i s : performed [i] s (call i s).2.
Proof. apply performed_call, performed_none. Qed.

(** *** The answers of a batch *)

(** A call of a batch with what its invocation returned *)
#[local] Abbreviation Answer := (PreparedProgrammaticBatchCall * CallResult)%type.

(** [answered step_id answers s s']: the state went from [s] to [s'] by invoking
    the calls of [answers] one after the other, and each invocation returned
    what [answers] says. *)
Inductive answered (step_id : string) : list Answer → ResilienceState (W := W) → ResilienceState (W := W) → Prop :=
| answered_none s : answered step_id [] s s
| answered_pick n answers s s' :
    answered step_id answers (pick_ready next_ready n s).2 s' → answered step_id answers s s'
| answered_call c r answers s s1 s' :
    call (batch_invocation step_id c) s = (r, s1) → answered step_id answers s1 s' →
    answered step_id ((c, r) :: answers) s s'.

Lemma answered_performed step_id answers s s' :
  answered step_id answers s s' → performed (batch_invocation step_id <$> answers.*1) s s'.
Proof.
  induction 1 as [|n answers s s' _ IH|c r answers s s1 s' E _ IH]; [constructor|by eapply performed_pick|].
  cbn. apply performed_call. by rewrite E.
Qed.

(** The reports of answers, in a map by call id *)
Definition record_answers (answers : list Answer) (reports : gmap string Value) : gmap string Value :=
  foldl (λ reports '(c, r), <[bc_call_id c := call_report c r]> reports) reports answers.

(** The error a batch stops with: that of the first call that failed *)
Definition failure_of (step_id : string) (answer : Answer) : option string :=
  match answer.2 with Ok _ => None | Err error => Some (batch_failure step_id answer.1 error) end.
Definition first_failure (step_id : string) (answers : list Answer) : option string :=
  head (omap (failure_of step_id) answers).

(** [v] is the report of what the invocation of [c] returned. *)
Definition reported (answers : list Answer) (c : PreparedProgrammaticBatchCall) (v : Value) : Prop :=
  ∃ r, (c, r) ∈ answers ∧ v = call_report c r.

Lemma record_answers_cons c r answers reports :
  record_answers ((c, r) :: answers) reports = record_answers answers (<[bc_call_id c := call_report c r]> reports).
Proof. done. Qed.

Lemma record_answers_other id answers reports :
  id ∉ bc_call_id <$> answers.*1 → record_answers answers reports !! id = reports !! id.
Proof.
  revert reports. induction answers as [|[c r] answers IH]; intros reports; [done|].
  rewrite record_answers_cons, !fmap_cons, not_elem_of_cons. intros [Hne Hid]. rewrite (IH _ Hid).
  by rewrite lookup_insert_ne.
Qed.

Lemma record_answers_lookup c r answers reports :
  NoDup (bc_call_id <$> answers.*1) → (c, r) ∈ answers →
  record_answers answers reports !! bc_call_id c = Some (call_report c r).
Proof.
  revert reports. induction answers as [|[c' r'] answers IH]; intros reports; [by intros _ ?%elem_of_nil|].
  rewrite record_answers_cons, !fmap_cons. intros [Hc Hnd]%NoDup_cons [[= -> ->]|Hin]%elem_of_cons; [|by apply IH].
  rewrite record_answers_other by done. apply lookup_insert_eq.
Qed.

(** When every call is answered, each has its report, in the order of the calls. *)
Lemma answers_reported calls answers reports :
  NoDup (bc_call_id <$> calls) → answers.*1 ≡ₚ calls →
  Forall2 (reported answers) calls (omap (λ c, record_answers answers reports !! bc_call_id c) calls).
Proof.
  intros Hnd Hp. assert (∀ c, c ∈ calls → ∃ r, (c, r) ∈ answers) as Hall.
  { intros c. rewrite <-Hp. intros ([c' r] & -> & Hin)%list_elem_of_fmap. by exists r. }
  rewrite <-Hp in Hnd. clear Hp. induction calls as [|c calls IH]; [constructor|].
  destruct (Hall c) as [r Hr]; [by left|]. cbn. rewrite (record_answers_lookup c r) by done.
  constructor; [by exists r|]. apply IH. intros c' Hc'. apply Hall. by right.
Qed.

Lemma no_failure step_id answers : first_failure step_id answers = None → Forall (λ a, is_ok a.2 = true) answers.
Proof.
  unfold first_failure. induction answers as [|[c [a|error]] answers IH]; [constructor|..]; cbn; [|done].
  intros H. constructor; [done|by apply IH].
Qed.

(** *** Parallel batches *)

(** The calls of a batch that have not finished *)
Definition unfinished (st : BatchState) : list PreparedProgrammaticBatchCall :=
  bs_inflight st ++ pending_list (bs_pending st).

Lemma fill_unfinished fuel st : unfinished (fill concurrency fuel st) ≡ₚ unfinished st.
Proof.
  revert st. induction fuel as [|fuel IH]; intros st; [done|]. cbn [fill]. destruct (_ <? _)%Z; [|done].
  destruct (pop_next_programmatic_call _ _ _ _) as [[[c q] cursor]|] eqn:E; [|done]. rewrite IH.
  apply (next_call_Some concurrency) in E as [_ [p Hp%pop_front_pending]].
  unfold unfinished. cbn. rewrite Hp. solve_Permutation.
Qed.
Lemma filled_unfinished st : unfinished (filled concurrency st) ≡ₚ unfinished st.
Proof. apply fill_unfinished. Qed.

(** The loop went from [st] and [s] to [st'] and [s'] by completing the calls of
    [answers], each once, and recording their reports and the first error. *)
Record progress step_id (answers : list Answer) (st : BatchState) s (st' : BatchState) s' : Prop := {
  pg_answered : answered step_id answers s s';
  pg_calls : unfinished st ≡ₚ answers.*1 ++ unfinished st';
  pg_reports : bs_reports st' = record_answers answers (bs_reports st);
  pg_error : bs_first_error st' =
    match bs_first_error st with Some error => Some error | None => first_failure step_id answers end;
}.

Lemma progress_refl step_id st s : progress step_id [] st s st s.
Proof. split; [constructor|done|done|by destruct (bs_first_error st)]. Qed.

Lemma fill_records fuel st :
  bs_reports (fill concurrency fuel st) = bs_reports st ∧ bs_first_error (fill concurrency fuel st) = bs_first_error st.
Proof.
  revert st. induction fuel as [|fuel IH]; intros st; [done|]. cbn [fill]. destruct (_ <? _)%Z; [|done].
  destruct (pop_next_programmatic_call _ _ _ _) as [[[??]?]|]; [|done]. by rewrite !(proj1 (IH _)), !(proj2 (IH _)).
Qed.

Lemma progress_filled step_id answers st s st' s' :
  progress step_id answers (filled concurrency st) s st' s' → progress step_id answers st s st' s'.
Proof.
  intros [H1 H2 H3 H4]. destruct (fill_records (pending_programmatic_call_count (bs_pending st)) st) as [Hr Hf].
  split; [done|by rewrite <-filled_unfinished| |].
  - rewrite H3. unfold filled. cbn. by rewrite Hr.
  - rewrite H4. unfold filled. cbn. by rewrite Hf.
Qed.

Lemma progress_pick step_id n answers st s st' s' :
  progress step_id answers st (pick_ready next_ready n s).2 st' s' → progress step_id answers st s st' s'.
Proof. intros [H1 H2 H3 H4]. split; [by eapply answered_pick|done..]. Qed.

Lemma progress_call step_id i c r answers st s s1 st' s' :
  bs_inflight st !! i = Some c → call (batch_invocation step_id c) s = (r, s1) →
  progress step_id answers
    (complete concurrency step_id c r (take i (bs_inflight st) ++ drop (S i) (bs_inflight st)) st) s1 st' s' →
  progress step_id ((c, r) :: answers) st s st' s'.
Proof.
  intros Hi Hc [H1 H2 H3 H4]. revert H2 H3 H4. unfold complete, unfinished.
  destruct (adapt_budget _ _ _ _) as [[[??]?]?]. cbn. intros H2 H3 H4. split; [by eapply answered_call| |done|].
  - cbn. unfold unfinished at 2. rewrite <-H2. unfold unfinished.
    rewrite <-(take_drop_middle (bs_inflight st) i c) at 1 by done. solve_Permutation.
  - rewrite H4. destruct (bs_first_error st); [done|]. unfold first_failure. by destruct r.
Qed.

Lemma parallel_loop_progress step_id fuel st s st' s' :
  par fuel step_id st s = (st', s') → ∃ answers, progress step_id answers st s st' s'.
Proof.
  revert st s. induction fuel as [|fuel IH]; intros st s; cbn [parallel_loop].
  { intros [= <- <-]. eexists. apply progress_refl. }
  destruct (batch_done st). { intros [= <- <-]. eexists. apply progress_refl. }
  intros H. enough (∃ answers, progress step_id answers (filled concurrency st) s st' s') as [answers Ha]
    by (exists answers; by apply progress_filled).
  revert H. generalize (filled concurrency st). intros st0. cbn zeta.
  destruct (bs_inflight st0) as [|x xs] eqn:E. { intros [= <- <-]. eexists. apply progress_refl. }
  rewrite <-E. clear E x xs. set (n := length (bs_inflight st0)). destruct (pick_ready next_ready n s) as [i s1] eqn:Ep.
  intros H. enough (∃ answers, progress step_id answers st0 s1 st' s') as [answers Ha]
    by (exists answers; eapply (progress_pick _ n); by rewrite Ep).
  revert H. destruct (bs_inflight st0 !! i) as [c|] eqn:Ei; [|intros [= <- <-]; eexists; apply progress_refl].
  destruct (call (batch_invocation step_id c) s1) as [r s2] eqn:Ec. intros [answers Ha]%IH.
  exists ((c, r) :: answers). by eapply progress_call.
Qed.

(** The loop is a run of the scheduler's transition system, to its end. *)
Lemma parallel_loop_refines step_id calls fuel st s st' s' :
  concurrency_valid concurrency →
  steps (batch_step concurrency step_id) (batch_init concurrency calls) st → remaining_calls st ≤ fuel →
  par fuel step_id st s = (st', s') →
  steps (batch_step concurrency step_id) (batch_init concurrency calls) st' ∧ batch_done st' = true.
Proof.
  intros Hv. revert st s. induction fuel as [|fuel IH]; intros st s Hs Hr; cbn [parallel_loop].
  { intros [= <- <-]. split; [done|]. unfold remaining_calls, batch_done, has_pending_programmatic_calls in *.
    destruct (pending_programmatic_call_count _); [|lia]. destruct (bs_inflight st); [done|cbn in Hr; lia]. }
  destruct (batch_done st) eqn:Hd; [by intros [= <- <-]|].
  destruct (batch_reachable_ok _ _ _ _ Hv Hs) as (d & f & Hok).
  pose proof (filled_nonempty _ _ _ _ _ Hv Hok Hd) as Hne. cbn zeta.
  set (inflight := bs_inflight (filled concurrency st)) in *. destruct inflight as [|x xs] eqn:E; [done|].
  rewrite <-E. destruct (pick_ready next_ready (length inflight) s) as [i s1] eqn:Ep.
  assert (i < length inflight) as Hi.
  { unfold pick_ready in Ep. destruct (next_ready _ _) as [j w]. injection Ep as <- _.
    apply Nat.mod_upper_bound. by rewrite E. }
  apply lookup_lt_is_Some in Hi as [c Hc]. rewrite Hc. destruct (call _ s1) as [r s2].
  assert (batch_step concurrency step_id st
    (complete concurrency step_id c r (take i inflight ++ drop (S i) inflight) (filled concurrency st))) as Hstep.
  { apply batch_round; [done|]. fold inflight. symmetry. by apply take_drop_middle. }
  pose proof (batch_step_remaining _ _ _ _ _ _ _ Hv Hok Hstep).
  intros H'. eapply IH; [| |exact H']; [by eapply steps_snoc|lia].
Qed.

(** *** Serial batches *)
#[local] Abbreviation ser := (serial_loop instant_now sleep pack_id token limits breakers).

Lemma serial_loop_answers step_id continue_on_error calls k reports s r s' :
  ser step_id continue_on_error calls k reports s = (r, s') →
  ∃ answers, answered step_id answers s s' ∧
    match r with
    | Ok (_, reports') => answers.*1 = calls ∧ reports' = record_answers answers reports ∧
        (continue_on_error = false → first_failure step_id answers = None)
    | Err error => continue_on_error = false ∧ answers.*1 ⊆+ calls ∧ first_failure step_id answers = Some error
    end.
Proof.
  revert k reports s. induction calls as [|c calls IH]; intros k reports s; cbn [serial_loop].
  { intros [= <- <-]. exists []. by repeat constructor. }
  destruct (call (batch_invocation step_id c) s) as [[answer|error] s1] eqn:E; [|destruct continue_on_error].
  3: { intros [= <- <-]. exists [(c, Err error)]. split; [eapply answered_call; [done|constructor]|].
       split_and!; [done| |done]. apply submseteq_skip, submseteq_nil_l. }
  all: intros (answers & Ha & Hr)%IH; eexists (_ :: answers); split; [by eapply answered_call|].
  all: destruct r as [[k' reports']|e]; cbn; [destruct Hr as (<- & -> & Hf)|destruct Hr as (? & Hs & Hf)];
    split_and!; try done; by apply submseteq_skip.
Qed.

(** *** Batches of either kind *)
#[local] Abbreviation batch := (execute_programmatic_batch_calls instant_now sleep next_ready pack_id token limits
  breakers concurrency).

Lemma unfinished_init calls : unfinished (batch_init concurrency calls) ≡ₚ calls.
Proof. unfold unfinished. cbn. by rewrite pending_group. Qed.

Lemma batch_performed step_id parallel continue_on_error calls s r s' :
  batch step_id parallel continue_on_error calls s = (r, s') →
  ∃ finished, performed (batch_invocation step_id <$> finished) s s' ∧ finished ⊆+ calls.
Proof.
  unfold execute_programmatic_batch_calls. destruct (parallel && _).
  - destruct (par _ _ _ s) as [st s1] eqn:E. intros H.
    assert (s1 = s') as <- by (by destruct (bs_first_error st), continue_on_error; simplify_eq).
    apply parallel_loop_progress in E as (answers & [Ha%answered_performed Hu _ _]).
    exists answers.*1. split; [done|]. rewrite <-(unfinished_init calls), Hu. by apply submseteq_inserts_r.
  - rewrite st_bind_run. destruct (ser _ _ _ _ _ s) as [r1 s1] eqn:E. intros H.
    assert (s1 = s') as <- by (by destruct r1 as [[??]|]; injection H).
    apply serial_loop_answers in E as (answers & Ha%answered_performed & Hr). exists answers.*1. split; [done|].
    destruct r1 as [[k reports]|e]; [by destruct Hr as [-> _]|by destruct Hr as (_ & ? & _)].
Qed.
Lemma batch_done_unfinished st : batch_done st = true → unfinished st = [].
Proof.
  unfold batch_done, has_pending_programmatic_calls, unfinished. rewrite pending_count_list.
  intros [Hd1 Hd2]%andb_true_iff. by destruct (pending_list (bs_pending st)), (bs_inflight st).
Qed.

(** A parallel batch runs to its end. *)
Lemma parallel_loop_ends step_id calls s st s' :
  concurrency_valid concurrency → par (length calls) step_id (batch_init concurrency calls) s = (st, s') →
  unfinished st = [].
Proof.
  intros Hv E. apply parallel_loop_refines with (calls := calls) in E as [_ Hd]; [|done|constructor|].
  - by apply batch_done_unfinished.
  - unfold remaining_calls. cbn. rewrite pending_count_list, pending_group. lia.
Qed.

Lemma batch_answers step_id parallel continue_on_error calls s r s' :
  concurrency_valid concurrency → NoDup (bc_call_id <$> calls) →
  batch step_id parallel continue_on_error calls s = (r, s') →
  ∃ answers, answered step_id answers s s' ∧
    match r with
    | Ok (reports, _) => answers.*1 ≡ₚ calls ∧ Forall2 (reported answers) calls reports ∧
        (continue_on_error = false → Forall (λ a, is_ok a.2 = true) answers)
    | Err error => continue_on_error = false ∧ answers.*1 ⊆+ calls ∧ first_failure step_id answers = Some error
    end.
Proof.
  intros Hv Hnd. unfold execute_programmatic_batch_calls. destruct (parallel && _).
  - destruct (par _ _ _ s) as [st s1] eqn:E. pose proof (parallel_loop_ends _ _ _ _ _ Hv E) as Hend.
    apply parallel_loop_progress in E as (answers & [Ha Hu Hr Hf]). rewrite unfinished_init, Hend, app_nil_r in Hu.
    cbn in Hf. unfold batch_reports. rewrite Hr, Hf. symmetry in Hu. intros H. exists answers.
    pose proof (answers_reported calls answers (bs_reports (batch_init concurrency calls)) Hnd Hu) as Hrep.
    destruct (first_failure step_id answers) eqn:Ef; [destruct continue_on_error|]; injection H as <- <-;
      (split; [done|]); split_and!; try done; [by rewrite Hu|]. intros _. by eapply no_failure.
  - rewrite st_bind_run. destruct (ser _ _ _ _ _ s) as [r1 s1] eqn:E.
    apply serial_loop_answers in E as (answers & Ha & Hr). intros H. exists answers.
    destruct r1 as [[k reports]|e]; [destruct Hr as (Hc & -> & Hf)|]; injection H as <- <-; (split; [done|]); [|done].
    split_and!; [by rewrite Hc|apply answers_reported; [done|by rewrite Hc]|].
    intros Hcont. by eapply no_failure, Hf.
Qed.

(** C36. A batch answers every call with what that call returned, whether it runs
    serially or in parallel and in whatever order its calls finish. The calls
    have different ids and the concurrency policy is valid, as the interpreter
    ensures before it starts a batch. All a batch does is to invoke calls of it,
    each at most once. If it returns reports, it has invoked every call exactly
    once and reports for each of them, in the order of the batch, what the
    invocation of that very call returned, a value or an error; unless it was
    told to go on after errors, all of them returned values. It fails only if it
    was not told to go on, and then with the error of the first call that failed. *)
Theorem batch_answers_every_call step_id parallel continue_on_error calls s r s' :
  concurrency_valid concurrency → NoDup (bc_call_id <$> calls) →
  batch step_id parallel continue_on_error calls s = (r, s') →
  ∃ answers, answered step_id answers s s' ∧
    match r with
    | Ok (reports, _) => answers.*1 ≡ₚ calls ∧
        Forall2 (λ c report, ∃ answer, (c, answer) ∈ answers ∧ report = call_report c answer) calls reports ∧
        (continue_on_error = false → Forall (λ a, is_ok a.2 = true) answers)
    | Err error => continue_on_error = false ∧ answers.*1 ⊆+ calls ∧ first_failure step_id answers = Some error
    end.
Proof. apply batch_answers. Qed.

(** *** Steps *)

(** A call that the workflow may make: its connector is allowed and its payload
    says who made it. *)
Record admitted (i : Invocation) : Prop := {
  ad_connector : allowed = ∅ ∨ iv_connector_name i ∈ allowed;
  ad_provenance : ∃ meta, json_get "_loongclaw" (iv_payload i) = Some (JObject meta) ∧
    obj_get "caller" meta = Some (JString caller) ∧
    obj_get "mode" meta = Some (JString "programmatic_tool_call") ∧
    obj_get "step_id" meta = Some (JString (iv_step_id i)) ∧
    (∀ c, iv_call_id i = Some c → obj_get "call_id" meta = Some (JString c));
  ad_attempts : rt_max_attempts (iv_retry_policy i) ≠ 0%Z;
}.

Lemma connector_refused_false name : connector_refused allowed name = false → allowed = ∅ ∨ name ∈ allowed.
Proof. unfold connector_refused. intros [H|H]%andb_false_iff; apply negb_false_iff, bool_decide_eq_true in H; auto. Qed.

Lemma attach_provenance payload step_id index call_id :
  ∃ meta, json_get "_loongclaw" (attach_programmatic_payload_provenance payload caller step_id index call_id)
            = Some (JObject meta) ∧
    obj_get "caller" meta = Some (JString caller) ∧
    obj_get "mode" meta = Some (JString "programmatic_tool_call") ∧
    obj_get "step_id" meta = Some (JString step_id) ∧
    (∀ c, call_id = Some c → obj_get "call_id" meta = Some (JString c)).
Proof.
  unfold attach_programmatic_payload_provenance. eexists. rewrite json_get_obj, obj_get_insert_eq. split; [done|].
  destruct call_id as [c|]; split_and!; intros; simplify_eq;
    rewrite ?(obj_get_insert_ne _ "call_id") by done; rewrite ?(obj_get_insert_ne _ "step_index") by done;
    rewrite ?(obj_get_insert_ne _ "step_id") by done; rewrite ?(obj_get_insert_ne _ "mode") by done;
    by rewrite obj_get_insert_eq.
Qed.

Lemma retry_attempts retry step_id call_id p : validate_retry_policy retry step_id call_id = Ok p → rt_max_attempts p ≠ 0%Z.
Proof.
  unfold validate_retry_policy. intros H. run_inv. repeat match goal with x : unit |- _ => destruct x end.
  rewrite ?reject_Ok, ?Z.eqb_neq in *. done.
Qed.

Lemma prepare_calls_admitted outputs step_id index seen calls prepared :
  prepare_calls json outputs allowed caller step_id index seen calls = Ok prepared →
  length prepared = length calls ∧ NoDup (bc_call_id <$> prepared) ∧
  Forall (λ c, (bc_call_id c ∉ seen) ∧ admitted (batch_invocation step_id c)) prepared.
Proof.
  revert seen prepared. induction calls as [|call0 calls IH]; intros seen prepared; cbn [prepare_calls].
  { intros [= <-]. split_and!; [done|constructor|constructor]. }
  intros (c & Hc & (rest & Hrest & [= <-])%bind_Ok)%bind_Ok. apply IH in Hrest as (Hl & Hnd & Hall).
  unfold prepare_call in Hc. cbn zeta in Hc. apply bind_Ok in Hc as ([] & _ & Hc).
  apply bind_Ok in Hc as ([] & Hseen%reject_Ok%bool_decide_eq_false & Hc). apply bind_Ok in Hc as ([] & Hal & Hc).
  apply bind_Ok in Hc as (retry & Hretry%retry_attempts & Hc). apply bind_Ok in Hc as (payload & _ & [= <-]). cbn in *.
  split_and!; [by f_equal|..].
  - constructor; [|done]. intros ([? ?] & Heq & Hin)%list_elem_of_fmap. rewrite Forall_forall in Hall.
    apply Hall in Hin as [Hin _]. cbn in *. set_solver.
  - constructor; [split; [done|]|].
    + constructor; [|apply attach_provenance|done]. cbn. apply connector_refused_false.
      by destruct (connector_refused allowed _).
    + eapply Forall_impl; [exact Hall|]. cbn. set_solver.
Qed.

#[local] Abbreviation exec_step := (execute_step json instant_now sleep next_ready pack_id token limits breakers
  concurrency caller max_calls include_intermediate allowed).

(** What a step may do: admitted calls within what is left of the budget, in its
    own name and each once; when it succeeds they are counted and its output is
    bound to a new name. *)
Definition step_does (step : ProgrammaticStep) (ws : WorkflowState) s (r : result string WorkflowState) s' : Prop :=
  ∃ l, performed l s s' ∧ Forall admitted l ∧ Forall (λ i, iv_step_id i = step_name step) l ∧
    NoDup (iv_call_id <$> l) ∧ (wf_connector_calls ws + len l ≤ max_calls)%Z ∧
    (∀ ws', r = Ok ws' →
       wf_connector_calls ws' = (wf_connector_calls ws + len l)%Z ∧ wf_last_step_id ws' = Some (step_name step) ∧
       ∃ v, wf_outputs ws' = <[step_name step := v]> (wf_outputs ws)).

Lemma step_does_nothing step ws s e :
  (wf_connector_calls ws ≤ max_calls)%Z → step_does step ws s (Err e) s.
Proof. intros H. exists []. rewrite len_nil. split_and!; try constructor; try done. lia. Qed.

Lemma step_does_pure step ws s v trace :
  (wf_connector_calls ws ≤ max_calls)%Z →
  step_does step ws s
    (Ok (bind_output include_intermediate (step_name step) v (wf_connector_calls ws) trace ws)) s.
Proof.
  intros H. exists []. rewrite len_nil. split_and!; [constructor..|lia|].
  intros ws' [= <-]. cbn. split_and!; [lia|done|eauto].
Qed.

Lemma call_step_does index id connector operation caps retry priority payload ws s r s' :
  (max_calls < u64_max)%Z → (0 ≤ wf_connector_calls ws ≤ max_calls)%Z →
  exec_step index (Step_ConnectorCall id connector operation caps retry priority payload) ws s = (r, s') →
  step_does (Step_ConnectorCall id connector operation caps retry priority payload) ws s r s'.
Proof.
  intros Hu [H0 Hc]. unfold execute_step. rewrite st_bind_run. unfold lift at 1.
  destruct (ensure_new_step_id _ _); [|intros [= <- <-]; by apply step_does_nothing]. unfold execute_connector_call.
  destruct (connector_refused allowed connector) eqn:Hal; [intros [= <- <-]; by apply step_does_nothing|].
  destruct (Z.leb_spec max_calls (wf_connector_calls ws)); [intros [= <- <-]; by apply step_does_nothing|].
  rewrite st_bind_run. unfold lift at 1. destruct (validate_retry_policy _ _ _) as [p|] eqn:Hp;
    [|intros [= <- <-]; by apply step_does_nothing].
  rewrite st_bind_run. unfold lift at 1. destruct (resolve_programmatic_payload_templates _ _ _) as [v|];
    [|intros [= <- <-]; by apply step_does_nothing].
  rewrite st_bind_run. match goal with |- context [call ?i s] => set (i0 := i) end.
  pose proof (performed_one i0 s) as Hper. destruct (call i0 s) as [[[d m]|e] s1]; intros [= <- <-];
    exists [i0]; change (len [i0]) with 1%Z; (split_and!; [done| |by repeat constructor| |lia|]).
  all: try (apply Forall_singleton; constructor;
    [by apply connector_refused_false|apply attach_provenance|by eapply retry_attempts]).
  all: try apply NoDup_singleton. all: intros ws' Hr; simplify_eq. cbn. split_and!; [|done|eauto].
  unfold sat_add. lia.
Qed.
Lemma batch_step_does index id parallel continue_on_error calls ws s r s' :
  concurrency_valid concurrency → (max_calls < u64_max)%Z → (0 ≤ wf_connector_calls ws ≤ max_calls)%Z →
  exec_step index (Step_ConnectorBatch id parallel continue_on_error calls) ws s = (r, s') →
  step_does (Step_ConnectorBatch id parallel continue_on_error calls) ws s r s'.
Proof.
  intros Hv Hu [H0 Hc]. unfold execute_step. rewrite st_bind_run. unfold lift at 1.
  destruct (ensure_new_step_id _ _); [|intros [= <- <-]; by apply step_does_nothing]. unfold execute_connector_batch.
  destruct calls as [|c0 calls]; [intros [= <- <-]; by apply step_does_nothing|]. cbn zeta.
  set (l := c0 :: calls). destruct (Z.ltb_spec max_calls (sat_add (wf_connector_calls ws) (len l))) as [|Hb];
    [intros [= <- <-]; by apply step_does_nothing|].
  rewrite st_bind_run. unfold lift at 1. unfold prepare_programmatic_batch_calls.
  destruct (prepare_calls _ _ _ _ _ _ _ _) as [prepared|] eqn:Hp; [|intros [= <- <-]; by apply step_does_nothing].
  apply prepare_calls_admitted in Hp as (Hl & Hnd & Had).
  assert (wf_connector_calls ws + len prepared ≤ max_calls)%Z as Hbudget.
  { unfold len in *. rewrite Hl. unfold sat_add in Hb. lia. }
  assert (∀ finished s0 s1, performed (batch_invocation id <$> finished) s0 s1 → finished ⊆+ prepared →
    Forall admitted (batch_invocation id <$> finished) ∧ Forall (λ i, iv_step_id i = id) (batch_invocation id <$> finished) ∧
    NoDup (iv_call_id <$> (batch_invocation id <$> finished)) ∧
    (wf_connector_calls ws + len (batch_invocation id <$> finished) ≤ max_calls)%Z) as Hsub.
  { intros finished s0 s1 _ Hsub. split_and!.
    - apply Forall_fmap, Forall_forall. intros c Hin. rewrite Forall_forall in Had. apply Had. by eapply elem_of_submseteq.
    - by apply Forall_fmap, Forall_forall.
    - rewrite <-list_fmap_compose. apply submseteq_Permutation in Hsub as [rest Hrest].
      apply (NoDup_fmap_2 Some) in Hnd. rewrite Hrest, !fmap_app, <-list_fmap_compose in Hnd.
      by apply NoDup_app in Hnd as [Hnd _].
    - apply submseteq_length in Hsub. unfold len in *. rewrite length_fmap. lia. }
  rewrite st_bind_run. destruct (batch _ _ _ _ s) as [[[reports summary]|e] s1] eqn:Hb'; intros [= <- <-].
  - apply batch_answers in Hb' as (answers & Hper%answered_performed & Hpm & _); [|done|done].
    set (finished := answers.*1) in *. exists (batch_invocation id <$> finished). edestruct Hsub as (H1 & H2 & H3 & H4); [exact Hper|by rewrite Hpm|].
    split_and!; [done..|]. intros ws' [= <-]. cbn.
    assert (len (batch_invocation id <$> finished) = len prepared) as ->.
    { unfold len. by rewrite length_fmap, Hpm. }
    split_and!; [|done|eauto]. unfold sat_add. lia.
  - apply batch_performed in Hb' as (finished & Hper & Hs). exists (batch_invocation id <$> finished).
    edestruct Hsub as (H1 & H2 & H3 & H4); [exact Hper|done|]. by split_and!.
Qed.

Lemma execute_step_does index step ws s r s' :
  concurrency_valid concurrency → (max_calls < u64_max)%Z → (0 ≤ wf_connector_calls ws ≤ max_calls)%Z →
  exec_step index step ws s = (r, s') → step_does step ws s r s'.
Proof.
  intros Hv Hu Hc. destruct step as [id v|id from ptr| | |id from ptr eq ex wt wf];
    [| |by apply call_step_does|by apply batch_step_does|]; destruct Hc as [_ Hc];
    unfold execute_step; rewrite st_bind_run; unfold lift at 1;
    (destruct (ensure_new_step_id _ _); [|intros [= <- <-]; by apply step_does_nothing]); cbn [step_name].
  - intros [= <- <-]. by apply (step_does_pure (Step_SetLiteral id v)).
  - rewrite st_bind_run. unfold lift at 1. destruct (from_step_output _ _ _); [|intros [= <- <-]; by apply step_does_nothing].
    rewrite st_bind_run. unfold lift at 1. destruct (ok_or _ _); [|intros [= <- <-]; by apply step_does_nothing].
    intros [= <- <-]. by apply (step_does_pure (Step_JsonPointer id from ptr)).
  - unfold lift. destruct (execute_conditional _ _ _ _ _ _ _ _ _ _) as [ws'|] eqn:E; intros [= <- <-];
      [|by apply step_does_nothing]. unfold execute_conditional in E. run_inv.
    by apply (step_does_pure (Step_Conditional id from ptr eq ex wt wf)).
Qed.
(** *** Whole workflows *)
#[local] Abbreviation exec_steps := (execute_steps json instant_now sleep next_ready pack_id token limits breakers
  concurrency caller max_calls include_intermediate allowed).
Definition call_key (i : Invocation) : string * option string := (iv_step_id i, iv_call_id i).

Lemma ensure_new_Ok step_id outputs :
  ensure_new_step_id step_id outputs = Ok () ↔ trim step_id ≠ "" ∧ outputs !! step_id = None.
Proof.
  unfold ensure_new_step_id, reject. split.
  - destruct (is_empty (trim step_id)) eqn:E; [done|]. cbn. case_bool_decide as H; [done|]. intros _.
    split; [by destruct (trim step_id)|by apply eq_None_not_Some].
  - intros [H1 H2]. destruct (trim step_id); [done|]. cbn. rewrite bool_decide_false; [done|]. rewrite H2. by intros [].
Qed.

Lemma exec_step_new index step ws s r s' :
  exec_step index step ws s = (r, s') →
  (∃ e, r = Err e ∧ s' = s) ∨ trim (step_name step) ≠ "" ∧ wf_outputs ws !! step_name step = None.
Proof.
  unfold execute_step. rewrite st_bind_run. unfold lift at 1. destruct (ensure_new_step_id _ _) as [[]|e] eqn:E.
  - intros _. right. by apply ensure_new_Ok.
  - intros [= <- <-]. eauto.
Qed.

Lemma execute_steps_does index steps ws s r s' :
  concurrency_valid concurrency → (max_calls < u64_max)%Z → (0 ≤ wf_connector_calls ws ≤ max_calls)%Z →
  exec_steps index steps ws s = (r, s') →
  ∃ l, performed l s s' ∧ Forall admitted l ∧
    Forall (λ i, iv_step_id i ∈ step_name <$> steps ∧ wf_outputs ws !! iv_step_id i = None) l ∧
    NoDup (call_key <$> l) ∧ (wf_connector_calls ws + len l ≤ max_calls)%Z ∧
    (∀ ws', r = Ok ws' → wf_connector_calls ws' = (wf_connector_calls ws + len l)%Z).
Proof.
  intros Hv Hu. revert index ws s. induction steps as [|step steps IH]; intros index ws s Hc; cbn [execute_steps].
  { intros [= <- <-]. exists []. rewrite len_nil. split_and!; [constructor..|lia|]. intros ws' [= <-]. lia. }
  rewrite st_bind_run. destruct (exec_step index step ws s) as [r1 s1] eqn:E.
  pose proof (execute_step_does _ _ _ _ _ _ Hv Hu Hc E) as (l & Hper & Had & Hid & Hnd & Hb & Hok).
  apply exec_step_new in E as [(e & -> & ->)|[_ Hnew]].
  { intros [= <- <-]. exists []. rewrite len_nil. split_and!; [constructor..|lia|done]. }
  assert (Forall (λ i, iv_step_id i ∈ step_name <$> step :: steps ∧ wf_outputs ws !! iv_step_id i = None) l) as Hid'.
  { eapply Forall_impl; [exact Hid|]. intros i ->. split; [by left|done]. }
  assert (NoDup (call_key <$> l)) as Hnd'.
  { clear -Hnd. induction l as [|i l IHl]; [constructor|]. cbn in *. apply NoDup_cons in Hnd as [Hi Hnd].
    constructor; [|by apply IHl]. intros (i' & [= _ Heq] & Hin)%list_elem_of_fmap. apply Hi.
    rewrite Heq. by apply list_elem_of_fmap_2. }
  destruct r1 as [ws1|e]; [|intros [= <- <-]; by exists l].
  destruct (Hok ws1 eq_refl) as (Hcalls & _ & v & Hout).
  intros (l' & Hper' & Had' & Hid2 & Hnd2 & Hb' & Hok')%IH; [|unfold len in *; lia].
  exists (l ++ l'). rewrite len_app. split_and!; [by eapply performed_app|by apply Forall_app| | |lia|].
  - apply Forall_app. split; [done|]. eapply Forall_impl; [exact Hid2|]. intros i [Hi Hn]. split; [by right|].
    rewrite Hout in Hn. by apply lookup_insert_None in Hn as [Hn _].
  - rewrite fmap_app. apply NoDup_app. split_and!; [done| |done].
    intros k (i & -> & Hi)%list_elem_of_fmap (i' & [= Heq _] & Hi')%list_elem_of_fmap.
    rewrite Forall_forall in Hid, Hid2. apply Hid in Hi. apply Hid2 in Hi' as [_ Hn].
    rewrite <-Heq, Hi, Hout, lookup_insert_eq in Hn. done.
  - intros ws' ->. rewrite (Hok' ws' eq_refl). lia.
Qed.
Lemma performed_interior l s s' : performed l s s' → interior (rs_kernel s) (rs_kernel s').
Proof.
  induction 1 as [s|n l s s' _ IH|i l s s' _ IH]; [apply interior_refl| |].
  - unfold pick_ready in IH. by destruct (next_ready n (rs_env s)).
  - eapply interior_trans; [apply invoke_interior|exact IH].
Qed.

#[local] Abbreviation workflow := (execute_programmatic_tool_call json instant_now sleep next_ready pack_id token limits
  breakers concurrency caller max_calls include_intermediate allowed).

(** All that a computation does are connector calls. *)
Definition performs {E A} (m : ST (ResilienceState (W := W)) E A) : Prop := ∀ s, ∃ l, performed l s (m s).2.

Lemma performs_bind {E A B} (m : ST _ E A) (f : A → ST _ E B) : performs m → (∀ a, performs (f a)) → performs (m ≫= f).
Proof.
  intros Hm Hf s. rewrite st_bind_run. destruct (Hm s) as [l Hl]. destruct (m s) as [[a|e] s1]; [|by exists l].
  destruct (Hf a s1) as [l' Hl']. exists (l ++ l'). by eapply performed_app.
Qed.

Lemma performs_lift {E A} (r : result E A) : performs (lift r).
Proof. intros s. exists []. constructor. Qed.

Lemma performs_batch step_id parallel continue_on_error calls :
  performs (execute_programmatic_batch_calls instant_now sleep next_ready pack_id token limits breakers concurrency step_id
              parallel continue_on_error calls).
Proof.
  intros s. match goal with |- context [performed _ s (?m s).2] => destruct (m s) as [r s'] eqn:E end.
  apply batch_performed in E as (finished & Hp & _). by eexists.
Qed.

Lemma execute_step_performs index step ws : performs (exec_step index step ws).
Proof.
  unfold execute_step. apply performs_bind; [apply performs_lift|intros _].
  destruct step; try apply performs_lift.
  - apply performs_bind; [apply performs_lift|intros source]. apply performs_bind; [apply performs_lift|intros v]. apply performs_lift.
  - unfold execute_connector_call. destruct (connector_refused _ _); [apply performs_lift|].
    destruct (_ <=? _)%Z; [apply performs_lift|].
    apply performs_bind; [apply performs_lift|intros p]. apply performs_bind; [apply performs_lift|intros v].
    apply performs_bind; [intros s; eexists; apply performed_one|intros [d m]]. apply performs_lift.
  - unfold execute_connector_batch. destruct calls; [apply performs_lift|]. cbv zeta.
    destruct (_ <? _)%Z; [apply performs_lift|].
    apply performs_bind; [apply performs_lift|intros prepared]. apply performs_bind; [apply performs_batch|intros [reports summary]].
    apply performs_lift.
Qed.

(** So all a workflow does are calls, from maps that are empty. *)
Lemma workflow_performs return_step steps s : ∃ s0 l,
  rs_kernel s0 = rs_kernel s ∧ rs_env s0 = rs_env s ∧ performed l s0 (workflow return_step steps s).2.
Proof.
  unfold execute_programmatic_tool_call. rewrite st_bind_run. unfold lift at 1.
  destruct (validate_workflow _ _ _ _ _); [|exists s, []; by repeat constructor].
  exists (mkResilienceState ∅ ∅ (rs_kernel s) (rs_env s)). unfold with_fresh_limits.
  match goal with |- context [performed _ ?s0 (?m ?s0).2] => assert (performs m) as Hm; [|destruct (Hm s0) as [l Hl]; by exists l] end.
  apply performs_bind; [|intros ws; apply performs_bind; [apply performs_lift|intros [id v]; apply performs_lift]].
  generalize WorkflowState_new 0%Z. induction steps as [|step steps IH]; intros ws index; [apply (performs_lift (Ok ws))|].
  cbn [execute_steps]. apply performs_bind; [apply execute_step_performs|intros ws']. apply IH.
Qed.

(** A property of the environment that the kernel's parts and the timers keep
    is kept by every workflow. *)
Lemma workflow_safe (I : W → Prop) return_step steps s :
  (∀ w, I w → I (instant_now w).2) → (∀ d w, I w → I (sleep d w)) → (∀ n w, I w → I (next_ready n w).2) →
  env_safe I s → env_safe I (workflow return_step steps s).2.
Proof.
  intros Hnow Hsleep Hready Hs. destruct (workflow_performs return_step steps s) as (s0 & l & Hk & Hw & Hp).
  assert (env_safe I s0) as Hs0 by (unfold env_safe in *; by rewrite Hk, Hw).
  clear Hs Hk Hw. induction Hp as [s0|n l s0 s' _ IH|i l s0 s' _ IH]; [done|..]; apply IH.
  - destruct Hs0 as [? Hw]. unfold pick_ready. apply (Hready n) in Hw. by destruct (next_ready n (rs_env s0)).
  - by apply invoke_safe.
Qed.


(** The fields of the policy are unsigned, and the budget is not the greatest
    number of all. *)
Definition program_unsigned : Prop :=
  (0 ≤ max_calls < u64_max)%Z ∧ is_u64 (cp_max_in_flight concurrency) ∧ (0 ≤ cp_min_in_flight concurrency)%Z ∧
  (0 ≤ cp_adaptive_upshift_step concurrency)%Z ∧ (0 ≤ cp_adaptive_downshift_step concurrency)%Z.

Lemma validate_workflow_concurrency steps :
  program_unsigned → validate_workflow limits breakers concurrency max_calls steps = Ok () → concurrency_valid concurrency.
Proof. intros (_ & H). unfold validate_workflow. intros Hv. run_inv. by split. Qed.

Lemma response_calls id v ws :
  json_get_u64 "connector_calls" (workflow_response limits breakers concurrency caller max_calls include_intermediate id v ws)
  = Some (wf_connector_calls ws).
Proof.
  unfold json_get_u64, workflow_response, json_object. rewrite json_get_obj, obj_get_built.
  by destruct (bool_decide (limits = ∅)), (bool_decide (breakers = ∅)), include_intermediate.
Qed.

Lemma response_result id v ws :
  json_get "result" (workflow_response limits breakers concurrency caller max_calls include_intermediate id v ws) = Some v.
Proof.
  unfold workflow_response, json_object. rewrite json_get_obj, obj_get_built.
  by destruct (bool_decide (limits = ∅)), (bool_decide (breakers = ∅)), include_intermediate.
Qed.

(** C34. A workflow stays within its budget and its rights, whether it succeeds or
    fails: all it does are connector calls; there are at most [max_calls] of
    them; none is made twice; each goes to an allowed connector and carries in
    its payload the caller and the step (and call) it was made for, whatever
    the payload said; the kernel changes only inside; and on success the answer
    reports exactly how many calls were made. *)
Theorem workflow_stays_within_its_rights return_step steps s r s' :
  program_unsigned → workflow return_step steps s = (r, s') →
  ∃ s0 l, rs_kernel s0 = rs_kernel s ∧ rs_env s0 = rs_env s ∧ performed l s0 s' ∧
    (len l ≤ max_calls)%Z ∧ NoDup (call_key <$> l) ∧ Forall admitted l ∧
    Forall (λ i, iv_step_id i ∈ step_name <$> steps) l ∧ interior (rs_kernel s) (rs_kernel s') ∧
    (∀ v, r = Ok v → json_get_u64 "connector_calls" v = Some (len l)).
Proof.
  intros Hun. unfold execute_programmatic_tool_call. rewrite st_bind_run. unfold lift at 1.
  destruct (validate_workflow _ _ _ _ _) as [[]|e] eqn:Hval.
  2: { intros [= <- <-]. exists s, []. destruct Hun as [[? _] _].
       split_and!; [done|done|constructor|done|constructor..|apply interior_refl|done]. }
  apply validate_workflow_concurrency in Hval; [|done]. destruct Hun as [[H0 Hmax] _].
  unfold with_fresh_limits. set (s0 := mkResilienceState ∅ ∅ (rs_kernel s) (rs_env s)). rewrite st_bind_run.
  destruct (exec_steps 0 steps WorkflowState_new s0) as [r1 s1] eqn:E.
  apply execute_steps_does in E as (l & Hper & Had & Hid & Hnd & Hb & Hok); [|done|done|by cbn].
  intros H. assert (s1 = s') as ->.
  { destruct r1; [|by injection H]. rewrite st_bind_run in H. unfold lift in H.
    by destruct (final_step _ _) as [[]|]; injection H. }
  exists s0, l. split_and!; [done|done|done|cbn in Hb; lia|done|done| |by apply (performed_interior l s0)|].
  - eapply Forall_impl; [exact Hid|]. by intros i [].
  - intros v ->. destruct r1 as [ws|]; [|done]. apply st_bind_Ok in H as ([id out] & s2 & [= Hf <-] & [= <-]).
    rewrite response_calls, (Hok ws eq_refl). cbn. f_equal; lia.
Qed.
(** *** Data flow *)

(** [step] ran with the outputs [before] and its output, like theirs, is still
    there in [outputs]. *)
Definition step_ran (index : Z) (step : ProgrammaticStep) (before : gset string) (outputs : Outputs) : Prop :=
  ∃ ws s ws' s', exec_step index step ws s = (Ok ws', s') ∧ dom (wf_outputs ws) = before ∧
    wf_outputs ws ⊆ wf_outputs ws' ∧ wf_outputs ws' ⊆ outputs ∧ is_Some (wf_outputs ws' !! step_name step).

Lemma execute_steps_flow index steps ws s ws' s' :
  concurrency_valid concurrency → (max_calls < u64_max)%Z → (0 ≤ wf_connector_calls ws ≤ max_calls)%Z →
  exec_steps index steps ws s = (Ok ws', s') →
  NoDup (step_name <$> steps) ∧ Forall (λ step, trim (step_name step) ≠ "") steps ∧
  (∀ id, id ∈ step_name <$> steps → wf_outputs ws !! id = None) ∧
  wf_outputs ws ⊆ wf_outputs ws' ∧ dom (wf_outputs ws') = dom (wf_outputs ws) ∪ list_to_set (step_name <$> steps) ∧
  wf_last_step_id ws' = from_option Some (wf_last_step_id ws) (last (step_name <$> steps)) ∧
  (∀ i step, steps !! i = Some step →
     step_ran (index + Z.of_nat i) step (dom (wf_outputs ws) ∪ list_to_set (step_name <$> take i steps)) (wf_outputs ws')).
Proof.
  intros Hv Hu. revert index ws s. induction steps as [|step steps IH]; intros index ws s Hc; cbn [execute_steps].
  { intros [= <- _]. split_and!; [constructor|constructor|by intros ? ?%elem_of_nil|done|set_solver|done|done]. }
  intros (ws1 & s1 & E & H)%st_bind_Ok.
  pose proof (execute_step_does _ _ _ _ _ _ Hv Hu Hc E) as (l & _ & _ & _ & _ & Hb & Hok).
  destruct (Hok ws1 eq_refl) as (Hcalls & Hlast & v & Hout).
  pose proof E as [(e & ? & _)|[Hname Hnew]]%exec_step_new; [done|].
  apply IH in H as (Hnd & Hnames & Hfresh & Hsub & Hdom & Hl & Hran); [|unfold len in *; lia].
  assert (wf_outputs ws ⊆ wf_outputs ws1) as Hsub1 by (rewrite Hout; by apply insert_subseteq).
  rewrite Hout in Hfresh. split_and!.
  - cbn. constructor; [|done]. intros Hin. apply Hfresh in Hin. by rewrite lookup_insert_eq in Hin.
  - by constructor.
  - intros id. cbn. intros [->|Hin]%elem_of_cons; [done|]. apply Hfresh in Hin. by apply lookup_insert_None in Hin as [].
  - by etrans.
  - rewrite Hdom, Hout, dom_insert_L. cbn. set_solver.
  - rewrite Hl, Hlast, fmap_cons, last_cons. by destruct (last (step_name <$> steps)).
  - intros [|i] step' Hi; cbn in Hi.
    + injection Hi as <-. exists ws, s, ws1, s1. rewrite Z.add_0_r. cbn. split_and!; [done|set_solver|done|done|].
      rewrite Hout, lookup_insert_eq. by eexists.
    + destruct (Hran i step' Hi) as (wsi & si & wsi' & si' & H1 & H2 & H3).
      exists wsi, si, wsi', si'. split; [|split; [|exact H3]].
      * by replace (index + Z.of_nat (S i))%Z with (index + 1 + Z.of_nat i)%Z by lia.
      * rewrite H2, Hout, dom_insert_L. cbn. set_solver.
Qed.

(** C35. The data flow of a workflow that succeeds, run with a call budget below
    the greatest number, is that of a program with single assignment: the steps have different, non-blank names; each ran with
    the outputs of exactly the steps before it; no output was changed or lost
    afterwards; and the result is the output of the step asked for, or of the
    last step. *)
Theorem workflow_binds_each_step_once return_step steps s v s' :
  program_unsigned → workflow return_step steps s = (Ok v, s') →
  NoDup (step_name <$> steps) ∧ Forall (λ step, trim (step_name step) ≠ "") steps ∧
  ∃ outputs, dom outputs = list_to_set (step_name <$> steps) ∧
    (∀ i step, steps !! i = Some step →
       step_ran (Z.of_nat i) step (list_to_set (step_name <$> take i steps)) outputs) ∧
    ∃ id out, json_get "result" v = Some out ∧ outputs !! id = Some out ∧
      match return_step with
      | Some r => if is_empty (trim r) then last (step_name <$> steps) = Some id else id = trim r
      | None => last (step_name <$> steps) = Some id
      end.
Proof.
  intros Hun. unfold execute_programmatic_tool_call. intros ([] & s1 & [= Hval <-] & H)%st_bind_Ok.
  apply validate_workflow_concurrency in Hval; [|done]. destruct Hun as [[H0 Hmax] _]. unfold with_fresh_limits in H.
  apply st_bind_Ok in H as (ws & s2 & E & H). apply st_bind_Ok in H as ([id out] & s3 & [= Hf <-] & [= <- _]).
  apply execute_steps_flow in E as (Hnd & Hnames & _ & _ & Hdom & Hlast & Hran); [|done|done|by cbn].
  split; [done|]. split; [done|]. exists (wf_outputs ws). split_and!; [by rewrite Hdom; set_solver| |].
  { intros i step Hi. specialize (Hran i step Hi). cbn [wf_outputs WorkflowState_new] in Hran.
    rewrite dom_empty_L, (left_id_L ∅ (∪)) in Hran. exact Hran. }
  exists id, out. split; [apply response_result|]. unfold final_step in Hf.
  apply bind_Ok in Hf as (id' & Hid & (out' & Hout%ok_or_Ok & [= -> ->])%bind_Ok). split; [done|].
  assert (ok_or (wf_last_step_id ws) (programmatic_error EC_InvalidSpec "programmatic workflow produced no step output") = Ok id →
          last (step_name <$> steps) = Some id) as Hl.
  { intros Hl%ok_or_Ok. rewrite Hlast in Hl. by destruct (last (step_name <$> steps)). }
  destruct return_step as [r|]; cbn in Hid; [|by apply Hl]. destruct (is_empty (trim r)); [by apply Hl|by injection Hid].
Qed.
End calls.

(** ** A concrete workflow *)
Module WorkflowDemo.
Import ResilienceDemo.

(** Pointers of one token, and no texts *)
Definition demo_json : JsonLib :=
  mkJsonLib (λ v p, strip_prefix "/" p ≫= λ key, json_get key v) (λ _, "")
    (λ v w, match v, w with JString s, JString t => bool_decide (s = t) | _, _ => false end).
Definition demo_call (id text : string) : ProgrammaticBatchCall :=
  mkBatchCall id "crm" "list" {[InvokeConnector]} None PriorityNormal (JObject [("q", JString text)]).
Definition steps : list ProgrammaticStep :=
  [Step_SetLiteral "who" (JObject [("name", JString "ada")]);
   Step_ConnectorCall "one" "crm" "list" {[InvokeConnector]} None PriorityNormal (JString "{{ who#name }}");
   Step_ConnectorBatch "two" true true [demo_call "x" "hi {{who#/name}}!"; demo_call "y" "{{one#outcome}}"];
   Step_Conditional "answer" "who" (Some "name") (Some (JString "ada")) None (JString "{{two#total_calls}}") None].
Definition run := execute_programmatic_tool_call demo_json (λ w : EventLog, (0%Z, w)) (λ _ w, w) (λ _ w, (1, w)) "sales"
  token ∅ breaker default_programmatic_concurrency_policy "agent" 3 false {["crm"]} None steps (state ∅).

(** The last call in flight is always the one that is ready. *)
Lemma run_answer : ∃ v, run.1 = Ok v ∧ json_get "result" v = Some (json_uint 2) ∧ json_get_u64 "connector_calls" v = Some 3%Z.
Proof. vm_compute. eexists. split; [reflexivity|]. split; reflexivity. Qed.

Lemma run_Ok : ∃ v, run = (Ok v, run.2).
Proof. destruct run_answer as (v & H & _). exists v. rewrite <-H. apply surjective_pairing. Qed.

Lemma demo_unsigned : program_unsigned default_programmatic_concurrency_policy 3.
Proof. unfold program_unsigned, is_u64, u64_max. cbn. lia. Qed.

Lemma rights_witness : ∃ l, (len l ≤ 3)%Z ∧ NoDup (call_key <$> l) ∧ Forall (admitted "agent" {["crm"]}) l.
Proof.
  destruct (workflow_stays_within_its_rights demo_json (λ w : EventLog, (0%Z, w)) (λ _ w, w) (λ _ w, (1, w)) "sales"
    token ∅ breaker default_programmatic_concurrency_policy "agent" 3 false {["crm"]} None steps (state ∅) run.1 run.2
    demo_unsigned (surjective_pairing run)) as (s0 & l & _ & _ & _ & Hl & Hnd & Had & _).
  exists l. exact (conj Hl (conj Hnd Had)).
Defined.

Lemma flow_witness : NoDup (step_name <$> steps) ∧ Forall (λ step, trim (step_name step) ≠ "") steps.
Proof.
  destruct run_Ok as [v H].
  refine ((λ p, conj (proj1 p) (proj1 (proj2 p))) (workflow_binds_each_step_once demo_json (λ w : EventLog, (0%Z, w)) (λ _ w, w) (λ _ w, (1, w)) "sales"
    token ∅ breaker default_programmatic_concurrency_policy "agent" 3 false {["crm"]} None steps (state ∅) v run.2
    demo_unsigned H)).
Defined.

Lemma demo_concurrency : concurrency_valid default_programmatic_concurrency_policy.
Proof. repeat split; vm_compute; congruence. Qed.

Definition batch_calls : list PreparedProgrammaticBatchCall :=
  [mkPreparedCall "x" "crm" "list" {[InvokeConnector]} default_retry_policy PriorityNormal JNull;
   mkPreparedCall "y" "erp" "list" {[InvokeConnector]} default_retry_policy PriorityNormal JNull].
Definition run_batch := execute_programmatic_batch_calls (λ w : EventLog, (0%Z, w)) (λ _ w, w) (λ _ w, (1, w)) "sales"
  token ∅ breaker default_programmatic_concurrency_policy "two" true true batch_calls (state ∅).

(** The second connector is unknown; the batch answers nevertheless. *)
Lemma run_batch_Ok : ∃ reports summary, run_batch = (Ok (reports, summary), run_batch.2) ∧
  (is_error_report <$> reports) = [false; true].
Proof. vm_compute. eexists _, _. split; reflexivity. Qed.

Lemma workflow_batch_witness : ∃ reports answers,
  is_error_report <$> reports = [false; true] ∧ answers.*1 ≡ₚ batch_calls ∧
  Forall2 (λ c report, ∃ answer, (c, answer) ∈ answers ∧ report = call_report c answer) batch_calls reports.
Proof.
  destruct run_batch_Ok as (reports & summary & H & He).
  assert (NoDup (bc_call_id <$> batch_calls)) as Hnd by by apply (bool_decide_unpack _).
  destruct (batch_answers_every_call (λ w : EventLog, (0%Z, w)) (λ _ w, w) (λ _ w, (1, w)) "sales"
    token ∅ breaker default_programmatic_concurrency_policy "two" true true batch_calls (state ∅) (Ok (reports, summary))
    run_batch.2 demo_concurrency Hnd H) as (answers & _ & Hp & Hr & _).
  exists reports, answers. exact (conj He (conj Hp Hr)).
Defined.

(** A step whose name has blanks around it can be run, but neither a placeholder
    nor [return_step] can name it: both are trimmed, step names are not. *)
Lemma padded_step_is_out_of_reach value :
  ensure_new_step_id " a " ∅ = Ok () ∧
  resolve_programmatic_template_string demo_json {[" a " := value]} "{{ a }}"
    = Err (programmatic_error EC_UnknownStep "template expression references unknown step a") ∧
  final_step (Some " a ") (mkWorkflowState {[" a " := value]} 0 (Some " a ") [])
    = Err (programmatic_error EC_UnknownStep "programmatic return_step a does not exist").
Proof. split_and!; reflexivity. Qed.

(** A single call has no call id of its own, and keeps the one its payload claims. *)
Lemma single_call_keeps_a_claimed_call_id :
  (json_get "_loongclaw"
     (attach_programmatic_payload_provenance (JObject [("_loongclaw", JObject [("call_id", JString "forged")])])
        "agent" "one" 1 None) ≫= json_get_str "call_id") = Some "forged".
Proof. reflexivity. Qed.
End WorkflowDemo.
