(* ===== verification/SpecApproval.v ===== *)
(** * SpecApproval: the approval guard of the scenario runner
    (spec/src/spec_execution/approval_policy.rs, with the types of
    spec/src/spec_runtime.rs)

    Before a scenario runs its operation, [evaluate_approval_guard] decides
    whether a human has to approve it: it scores the operation by the words,
    tool names and payload keys of a risk profile and then asks the policy of
    the scenario. Reading a profile from a file (and decoding it) and the text
    of a floating-point number are parameters. *)
From S2P Require Import Prelude RustStr Contracts Json Programmatic Workflow.
From Stdlib Require Import Ascii.

(** ** Operations and policies *)
Inductive OperationSpec :=
| Op_Task (task_id objective : string) (required_capabilities : gset Capability) (payload : Value)
| Op_ConnectorLegacy (connector_name operation : string) (required_capabilities : gset Capability) (payload : Value)
| Op_ConnectorCore (connector_name operation : string) (required_capabilities : gset Capability) (payload : Value)
    (core : option string)
| Op_ConnectorExtension (connector_name operation : string) (required_capabilities : gset Capability)
    (payload : Value) (extension : string) (core : option string)
| Op_RuntimeCore (action : string) (required_capabilities : gset Capability) (payload : Value) (core : option string)
| Op_RuntimeExtension (action : string) (required_capabilities : gset Capability) (payload : Value)
    (extension : string) (core : option string)
| Op_ToolCore (tool_name : string) (required_capabilities : gset Capability) (payload : Value) (core : option string)
| Op_ToolExtension (extension_action : string) (required_capabilities : gset Capability) (payload : Value)
    (extension : string) (core : option string)
| Op_MemoryCore (operation : string) (required_capabilities : gset Capability) (payload : Value)
    (core : option string)
| Op_MemoryExtension (operation : string) (required_capabilities : gset Capability) (payload : Value)
    (extension : string) (core : option string)
| Op_ToolSearch (query : string) (limit : Z) (include_deferred include_examples : bool)
| Op_ProgrammaticToolCall (caller : string) (max_calls : Z) (include_intermediate : bool)
    (allowed_connectors : gset string) (connector_rate_limits : gmap string ProgrammaticConnectorRateLimit)
    (connector_circuit_breakers : gmap string ProgrammaticCircuitBreakerPolicy)
    (concurrency : ProgrammaticConcurrencyPolicy) (return_step : option string) (steps : list ProgrammaticStep).

Inductive HumanApprovalMode := Mode_Disabled | Mode_MediumBalanced | Mode_Strict.
Inductive HumanApprovalStrategy := Strategy_PerCall | Strategy_OneTimeFullAccess.
Inductive HumanApprovalScope := Scope_ToolCalls | Scope_AllOperations.

Record HumanApprovalSpec := mkHumanApprovalSpec {
  ha_mode : HumanApprovalMode;
  ha_strategy : HumanApprovalStrategy;
  ha_scope : HumanApprovalScope;
  ha_one_time_full_access_granted : bool;
  ha_approved_calls : list string;
  ha_denied_calls : list string;
  ha_risk_profile_path : option string;
  ha_one_time_full_access_expires_at_epoch_s : option Z;
  ha_one_time_full_access_remaining_uses : option Z;
  ha_high_risk_keywords : list string;
  ha_high_risk_tool_names : list string;
  ha_high_risk_payload_keys : list string;
}.

Definition HumanApprovalSpec_default : HumanApprovalSpec :=
  mkHumanApprovalSpec Mode_MediumBalanced Strategy_PerCall Scope_ToolCalls false [] [] None None None [] [] [].

Inductive ApprovalRiskLevel := Level_Low | Level_High.

#[export] Instance ApprovalRiskLevel_eq_dec : EqDecision ApprovalRiskLevel.
Proof. solve_decision. Defined.

Record ApprovalDecisionReport := mkApprovalDecisionReport {
  ad_mode : HumanApprovalMode;
  ad_strategy : HumanApprovalStrategy;
  ad_scope : HumanApprovalScope;
  ad_now_epoch_s : Z;
  ad_operation_key : string;
  ad_operation_kind : string;
  ad_risk_level : ApprovalRiskLevel;
  ad_risk_score : Z;
  ad_denylisted : bool;
  ad_requires_human_approval : bool;
  ad_approved : bool;
  ad_reason : string;
  ad_matched_keywords : list string;
}.

Record ApprovalRiskScoring := mkApprovalRiskScoring {
  rs_keyword_weight : Z;
  rs_tool_name_weight : Z;
  rs_payload_key_weight : Z;
  rs_keyword_hit_cap : Z;
  rs_payload_key_hit_cap : Z;
  rs_high_risk_threshold : Z;
}.

Definition ApprovalRiskScoring_default : ApprovalRiskScoring := mkApprovalRiskScoring 20 40 20 4 2 20.

Record ApprovalRiskProfile := mkApprovalRiskProfile {
  rp_high_risk_keywords : list string;
  rp_high_risk_tool_names : list string;
  rp_high_risk_payload_keys : list string;
  rp_scoring : ApprovalRiskScoring;
}.

(** UTF-8 of the two keywords of the bundled profile that are not ASCII *)
Definition bytes_str (l : list N) : string := String.string_of_list_ascii (ascii_of_N <$> l).

(** [bundled_approval_risk_profile]: spec/config/approval-medium-balanced.json *)
Definition bundled_approval_risk_profile : ApprovalRiskProfile :=
  mkApprovalRiskProfile
    ["delete"; "remove"; "drop"; "truncate"; "destroy"; "purge"; "rm -rf";
     bytes_str [229; 136; 160; 233; 153; 164]%N; bytes_str [231; 167; 187; 233; 153; 164]%N]
    ["delete-file"; "drop-table"; "drop-database"; "truncate-table"]
    ["path"; "target"; "sql"; "query"; "command"]
    (mkApprovalRiskScoring 20 40 20 4 2 20).

(** ** What an operation is called *)

(** [operation_approval_key] *)
Definition operation_approval_key (operation : OperationSpec) : string :=
  match operation with
  | Op_Task task_id _ _ _ => "task:" +:+ task_id
  | Op_ConnectorLegacy connector_name operation _ _ =>
      "connector_legacy:" +:+ connector_name +:+ ":" +:+ operation
  | Op_ConnectorCore connector_name operation _ _ _ => "connector_core:" +:+ connector_name +:+ ":" +:+ operation
  | Op_ConnectorExtension connector_name operation _ _ extension _ =>
      "connector_extension:" +:+ extension +:+ ":" +:+ connector_name +:+ ":" +:+ operation
  | Op_RuntimeCore action _ _ _ => "runtime_core:" +:+ action
  | Op_RuntimeExtension action _ _ extension _ => "runtime_extension:" +:+ extension +:+ ":" +:+ action
  | Op_ToolCore tool_name _ _ _ => "tool_core:" +:+ tool_name
  | Op_ToolExtension extension_action _ _ extension _ =>
      "tool_extension:" +:+ extension +:+ ":" +:+ extension_action
  | Op_MemoryCore operation _ _ _ => "memory_core:" +:+ operation
  | Op_MemoryExtension operation _ _ extension _ => "memory_extension:" +:+ extension +:+ ":" +:+ operation
  | Op_ToolSearch query _ _ _ => "tool_search:" +:+ query
  | Op_ProgrammaticToolCall caller _ _ _ _ _ _ _ _ => "programmatic_tool_call:" +:+ caller
  end.

(** [operation_approval_kind] *)
Definition operation_approval_kind (operation : OperationSpec) : string :=
  match operation with
  | Op_Task _ _ _ _ => "task"
  | Op_ConnectorLegacy _ _ _ _ => "connector_legacy"
  | Op_ConnectorCore _ _ _ _ _ => "connector_core"
  | Op_ConnectorExtension _ _ _ _ _ _ => "connector_extension"
  | Op_RuntimeCore _ _ _ _ => "runtime_core"
  | Op_RuntimeExtension _ _ _ _ _ => "runtime_extension"
  | Op_ToolCore _ _ _ _ => "tool_core"
  | Op_ToolExtension _ _ _ _ _ => "tool_extension"
  | Op_MemoryCore _ _ _ _ => "memory_core"
  | Op_MemoryExtension _ _ _ _ _ => "memory_extension"
  | Op_ToolSearch _ _ _ _ => "tool_search"
  | Op_ProgrammaticToolCall _ _ _ _ _ _ _ _ _ => "programmatic_tool_call"
  end.

(** [is_operation_in_approval_scope] *)
Definition is_operation_in_approval_scope (operation : OperationSpec) (scope : HumanApprovalScope) : bool :=
  match scope with
  | Scope_ToolCalls =>
      match operation with
      | Op_ToolCore _ _ _ _ | Op_ToolExtension _ _ _ _ _ | Op_ProgrammaticToolCall _ _ _ _ _ _ _ _ _ => true
      | _ => false
      end
  | Scope_AllOperations => true
  end.

(** [operation_tool_name] *)
Definition operation_tool_name (operation : OperationSpec) : option string :=
  match operation with
  | Op_ToolCore tool_name _ _ _ => Some tool_name
  | Op_ToolExtension extension_action _ _ _ _ => Some extension_action
  | Op_ProgrammaticToolCall caller _ _ _ _ _ _ _ _ => Some caller
  | _ => None
  end.

(** ** What an operation contains *)

(** [collect_json_keys] *)
Fixpoint collect_json_keys (value : Value) : list string :=
  match value with
  | JObject map => flat_map (λ '(key, child), key :: collect_json_keys child) map
  | JArray list => flat_map collect_json_keys list
  | JString _ | JNull | JBool _ | JNumber _ => []
  end.

(** [collect_json_strings] *)
Fixpoint collect_json_strings (value : Value) : list string :=
  match value with
  | JString string => [string]
  | JArray array => flat_map collect_json_strings array
  | JObject map => flat_map (λ '(key, entry), key :: collect_json_strings entry) map
  | JNull | JBool _ | JNumber _ => []
  end.

(** The payload of an operation that has one *)
Definition operation_payload (operation : OperationSpec) : option Value :=
  match operation with
  | Op_Task _ _ _ payload | Op_ConnectorLegacy _ _ _ payload | Op_ConnectorCore _ _ _ payload _
  | Op_ConnectorExtension _ _ _ payload _ _ | Op_RuntimeCore _ _ payload _ | Op_RuntimeExtension _ _ payload _ _
  | Op_ToolCore _ _ payload _ | Op_ToolExtension _ _ payload _ _ | Op_MemoryCore _ _ payload _
  | Op_MemoryExtension _ _ payload _ _ => Some payload
  | Op_ToolSearch _ _ _ _ | Op_ProgrammaticToolCall _ _ _ _ _ _ _ _ _ => None
  end.

Section guard.
Context (f64_text : f64 → string) (load_profile : string → option ApprovalRiskProfile).

Definition bool_text (b : bool) : string := if b then "true" else "false".

Definition retry_texts (retry : ProgrammaticRetryPolicy) : list string :=
  [display (rt_max_attempts retry); display (rt_initial_backoff_ms retry); display (rt_max_backoff_ms retry);
   f64_text (rt_jitter_ratio retry); bool_text (rt_adaptive_jitter retry)].

(** [if let Some(retry) = retry { keys.push("retry".to_owned()); .. }] *)
Definition retry_keys (retry : option ProgrammaticRetryPolicy) : list string :=
  match retry with
  | Some retry =>
      ["retry"; "max_attempts"; "initial_backoff_ms"; "max_backoff_ms"; "jitter_ratio"; "adaptive_jitter"]
      ++ retry_texts retry
  | None => []
  end.

Definition retry_strings (retry : option ProgrammaticRetryPolicy) : list string :=
  match retry with Some retry => retry_texts retry | None => [] end.

(** [adaptive_reduce_on] in the order of its set *)
Definition reduce_on_texts (concurrency : ProgrammaticConcurrencyPolicy) : list string :=
  ProgrammaticAdaptiveReduceOn_as_str <$> filter (λ r, r ∈ cp_adaptive_reduce_on concurrency) all_reduce_on.

Definition breaker_texts (policy : ProgrammaticCircuitBreakerPolicy) : list (string * string) :=
  [("failure_threshold", display (cb_failure_threshold policy)); ("cooldown_ms", display (cb_cooldown_ms policy));
   ("half_open_max_calls", display (cb_half_open_max_calls policy));
   ("success_threshold", display (cb_success_threshold policy))].

Definition concurrency_texts (concurrency : ProgrammaticConcurrencyPolicy) : list (string * string) :=
  [("max_in_flight", display (cp_max_in_flight concurrency)); ("min_in_flight", display (cp_min_in_flight concurrency));
   ("fairness", ProgrammaticFairnessPolicy_as_str (cp_fairness concurrency));
   ("adaptive_budget", bool_text (cp_adaptive_budget concurrency));
   ("high_weight", display (cp_high_weight concurrency)); ("normal_weight", display (cp_normal_weight concurrency));
   ("low_weight", display (cp_low_weight concurrency));
   ("adaptive_recovery_successes", display (cp_adaptive_recovery_successes concurrency));
   ("adaptive_upshift_step", display (cp_adaptive_upshift_step concurrency));
   ("adaptive_downshift_step", display (cp_adaptive_downshift_step concurrency))].

(** [keys.push(name); keys.push(text);] *)
Definition with_names (l : list (string * string)) : list string := flat_map (λ '(name, text), [name; text]) l.

Definition call_keys (call : ProgrammaticBatchCall) : list string :=
  ["call_id"; pc_call_id call; "connector_name"; "operation"; "priority_class"; pc_connector_name call;
   pc_operation call; ProgrammaticPriorityClass_as_str (pc_priority_class call)]
  ++ retry_keys (pc_retry call) ++ collect_json_keys (pc_payload call).

Definition step_keys (step : ProgrammaticStep) : list string :=
  "step_id" ::
  match step with
  | Step_SetLiteral _ value => collect_json_keys value
  | Step_JsonPointer _ _ _ => ["pointer"]
  | Step_ConnectorCall _ connector_name operation _ retry priority_class payload =>
      ["connector_name"; "operation"; "priority_class"; connector_name; operation;
       ProgrammaticPriorityClass_as_str priority_class]
      ++ retry_keys retry ++ collect_json_keys payload
  | Step_ConnectorBatch _ parallel continue_on_error calls =>
      ["parallel"; bool_text parallel; "continue_on_error"; bool_text continue_on_error; "calls"]
      ++ flat_map call_keys calls
  | Step_Conditional _ from_step pointer equals exists_ when_true when_false =>
      ["from_step"; from_step]
      ++ match pointer with Some pointer => ["pointer"; pointer] | None => [] end
      ++ match equals with Some equals => "equals" :: collect_json_keys equals | None => [] end
      ++ match exists_ with Some exists_ => ["exists"; bool_text exists_] | None => [] end
      ++ "when_true" :: collect_json_keys when_true
      ++ match when_false with Some when_false => "when_false" :: collect_json_keys when_false | None => [] end
  end.

(** [operation_payload_keys] *)
Definition operation_payload_keys (operation : OperationSpec) : list string :=
  match operation with
  | Op_ToolSearch _ _ _ _ => ["query"; "limit"; "include_deferred"; "include_examples"]
  | Op_ProgrammaticToolCall _ _ _ allowed_connectors connector_rate_limits connector_circuit_breakers concurrency _
      steps =>
      ["caller"; "max_calls"; "include_intermediate"; "connector_rate_limits"; "connector_circuit_breakers";
       "concurrency"; "return_step"; "steps"]
      ++ with_names (concurrency_texts concurrency)
      ++ "adaptive_reduce_on" :: reduce_on_texts concurrency
      ++ btree_elements allowed_connectors
      ++ flat_map (λ '(connector_name, limit),
                     ["connector_name"; connector_name; "min_interval_ms"; display (rl_min_interval_ms limit)])
           (btree_entries connector_rate_limits)
      ++ flat_map (λ '(connector_name, policy),
                     ["connector_name"; connector_name] ++ with_names (breaker_texts policy))
           (btree_entries connector_circuit_breakers)
      ++ flat_map step_keys steps
  | _ => default [] (collect_json_keys <$> operation_payload operation)
  end.

Definition call_strings (call : ProgrammaticBatchCall) : list string :=
  [pc_call_id call; pc_connector_name call; pc_operation call;
   ProgrammaticPriorityClass_as_str (pc_priority_class call)]
  ++ retry_strings (pc_retry call) ++ collect_json_strings (pc_payload call).

Definition step_strings (step : ProgrammaticStep) : list string :=
  match step with
  | Step_SetLiteral step_id value => step_id :: collect_json_strings value
  | Step_JsonPointer step_id from_step pointer => [step_id; from_step; pointer]
  | Step_ConnectorCall step_id connector_name operation _ retry priority_class payload =>
      [step_id; connector_name; operation; ProgrammaticPriorityClass_as_str priority_class]
      ++ retry_strings retry ++ collect_json_strings payload
  | Step_ConnectorBatch step_id parallel continue_on_error calls =>
      [step_id; bool_text parallel; bool_text continue_on_error] ++ flat_map call_strings calls
  | Step_Conditional step_id from_step pointer equals exists_ when_true when_false =>
      [step_id; from_step]
      ++ match pointer with Some pointer => [pointer] | None => [] end
      ++ match exists_ with Some exists_ => [bool_text exists_] | None => [] end
      ++ match equals with Some equals => collect_json_strings equals | None => [] end
      ++ collect_json_strings when_true
      ++ match when_false with Some when_false => collect_json_strings when_false | None => [] end
  end.

(** [operation_payload_strings] *)
Definition operation_payload_strings (operation : OperationSpec) : list string :=
  match operation with
  | Op_ToolSearch query limit include_deferred include_examples =>
      [query; display limit; bool_text include_deferred; bool_text include_examples]
  | Op_ProgrammaticToolCall caller max_calls include_intermediate allowed_connectors connector_rate_limits
      connector_circuit_breakers concurrency return_step steps =>
      [caller; display max_calls; bool_text include_intermediate]
      ++ (concurrency_texts concurrency).*2
      ++ reduce_on_texts concurrency
      ++ btree_elements allowed_connectors
      ++ flat_map (λ '(connector_name, limit), [connector_name; display (rl_min_interval_ms limit)])
           (btree_entries connector_rate_limits)
      ++ flat_map (λ '(connector_name, policy), connector_name :: (breaker_texts policy).*2)
           (btree_entries connector_circuit_breakers)
      ++ match return_step with Some return_step => [return_step] | None => [] end
      ++ flat_map step_strings steps
  | _ => default [] (collect_json_strings <$> operation_payload operation)
  end.

(** [operation_risk_haystack] *)
Definition operation_risk_haystack (operation : OperationSpec) : string :=
  foldl (λ text value, text +:+ value +:+ " ") ""
    (operation_approval_kind operation :: operation_approval_key operation :: operation_payload_strings operation).

(** ** Scoring *)

(** [value.trim().to_ascii_lowercase()] *)
Definition normalize_signal (value : string) : string := to_ascii_lowercase (trim value).

(** [normalize_signal_list] *)
Definition normalize_signal_list (values : list string) : list string :=
  btree_elements (list_to_set (filter (λ value, is_empty value = false) (normalize_signal <$> values))).

(** [sanitize_risk_scoring] *)
Definition sanitize_risk_scoring (scoring : ApprovalRiskScoring) : ApprovalRiskScoring :=
  mkApprovalRiskScoring (rs_keyword_weight scoring) (rs_tool_name_weight scoring) (rs_payload_key_weight scoring)
    (if (rs_keyword_hit_cap scoring =? 0)%Z then 1 else rs_keyword_hit_cap scoring)
    (if (rs_payload_key_hit_cap scoring =? 0)%Z then 1 else rs_payload_key_hit_cap scoring)
    (if (rs_high_risk_threshold scoring =? 0)%Z then 20 else rs_high_risk_threshold scoring).

(** [resolve_approval_risk_profile] *)
Definition resolve_approval_risk_profile (policy : HumanApprovalSpec) : ApprovalRiskProfile :=
  let profile := default bundled_approval_risk_profile (ha_risk_profile_path policy ≫= load_profile) in
  let or_profile (inline own : list string) := match inline with [] => own | _ => inline end in
  mkApprovalRiskProfile
    (or_profile (ha_high_risk_keywords policy) (rp_high_risk_keywords profile))
    (or_profile (ha_high_risk_tool_names policy) (rp_high_risk_tool_names profile))
    (or_profile (ha_high_risk_payload_keys policy) (rp_high_risk_payload_keys profile))
    (rp_scoring profile).

Definition u16_max : Z := 2 ^ 16 - 1.
Definition wrap16 (n : Z) : Z := (n mod 2 ^ 16)%Z.
Definition sat_add16 (x y : Z) : Z := Z.min (x + y) u16_max.

(** [(hits.min(cap) as u16) * u16::from(weight)] *)
Definition hit_score (hits cap weight : Z) : Z := wrap16 (wrap16 (Z.min hits cap) * weight).

Definition risk_score (scoring : ApprovalRiskScoring) (keywords : Z) (tool_name : bool) (payload_keys : Z) : Z :=
  let keyword_score := hit_score keywords (rs_keyword_hit_cap scoring) (rs_keyword_weight scoring) in
  let tool_score := if tool_name then rs_tool_name_weight scoring else 0%Z in
  let payload_key_score := hit_score payload_keys (rs_payload_key_hit_cap scoring) (rs_payload_key_weight scoring) in
  Z.min (sat_add16 (sat_add16 keyword_score tool_score) payload_key_score) 100.

Definition matched_keywords_of (profile : ApprovalRiskProfile) (operation : OperationSpec) : list string :=
  let haystack_lower := to_ascii_lowercase (operation_risk_haystack operation) in
  filter (λ keyword, contains keyword haystack_lower = true) (normalize_signal_list (rp_high_risk_keywords profile)).

Definition matched_tool_name_of (profile : ApprovalRiskProfile) (operation : OperationSpec) : list string :=
  match operation_tool_name operation with
  | Some name =>
      let name := normalize_signal name in
      if bool_decide (name ∈ normalize_signal_list (rp_high_risk_tool_names profile)) then ["tool:" +:+ name] else []
  | None => []
  end.

Definition matched_payload_keys_of (profile : ApprovalRiskProfile) (operation : OperationSpec) : list string :=
  let high_risk_payload_keys := normalize_signal_list (rp_high_risk_payload_keys profile) in
  (λ key, "payload_key:" +:+ key) <$>
    filter (λ key, key ∈ high_risk_payload_keys) (normalize_signal <$> operation_payload_keys operation).

(** [operation_risk_profile] *)
Definition operation_risk_profile (operation : OperationSpec) (policy : HumanApprovalSpec) :
    ApprovalRiskLevel * list string * Z :=
  let profile := resolve_approval_risk_profile policy in
  let scoring := sanitize_risk_scoring (rp_scoring profile) in
  let matched_keywords := matched_keywords_of profile operation in
  let matched_tool_name := matched_tool_name_of profile operation in
  let matched_payload_keys := matched_payload_keys_of profile operation in
  let matched := btree_elements (list_to_set (matched_keywords ++ matched_tool_name ++ matched_payload_keys)) in
  let score := risk_score scoring (len matched_keywords) (negb (bool_decide (matched_tool_name = [])))
                 (len matched_payload_keys) in
  if bool_decide (matched = []) || (score <? rs_high_risk_threshold scoring)%Z then (Level_Low, [], 0%Z)
  else (Level_High, matched, score).

(** ** The decision *)

(** One entry of a list of calls *)
Definition approval_matches (operation_key_lower raw : string) : bool :=
  let normalized := normalize_signal raw in
  if is_empty normalized then false
  else if bool_decide (normalized = "*") then true
  else match strip_suffix "*" normalized with
       | Some prefix => starts_with prefix operation_key_lower
       | None => bool_decide (normalized = operation_key_lower)
       end.

(** [is_operation_preapproved] *)
Definition is_operation_preapproved (operation_key : string) (approvals : list string) : bool :=
  existsb (approval_matches (to_ascii_lowercase operation_key)) approvals.

Definition one_time_full_access_active (policy : HumanApprovalSpec) (now_epoch_s : Z) : bool :=
  ha_one_time_full_access_granted policy
  && match ha_one_time_full_access_expires_at_epoch_s policy with
     | Some deadline => (now_epoch_s <=? deadline)%Z
     | None => true
     end
  && match ha_one_time_full_access_remaining_uses policy with
     | Some remaining => (0 <? remaining)%Z
     | None => true
     end.

Definition one_time_full_access_rejected_reason (policy : HumanApprovalSpec) (now_epoch_s : Z) : option string :=
  if ha_one_time_full_access_granted policy then
    match ha_one_time_full_access_expires_at_epoch_s policy with
    | Some deadline =>
        if (deadline <? now_epoch_s)%Z then
          Some ("one-time full access grant expired at " +:+ display deadline +:+ ", now is " +:+ display now_epoch_s)
        else None
    | None =>
        if bool_decide (ha_one_time_full_access_remaining_uses policy = Some 0%Z)
        then Some "one-time full access grant has no remaining uses" else None
    end
  else None.

Definition requires_approval_of (policy : HumanApprovalSpec) (operation : OperationSpec)
    (risk_level : ApprovalRiskLevel) : bool :=
  is_operation_in_approval_scope operation (ha_scope policy)
  && match ha_mode policy with
     | Mode_Disabled => false
     | Mode_MediumBalanced => bool_decide (risk_level = Level_High)
     | Mode_Strict => true
     end.

(** [let (approved, reason) = ..] *)
Definition decide_approval (policy : HumanApprovalSpec) (now_epoch_s : Z) (operation_key : string)
    (requires_human_approval : bool) : bool * string :=
  if negb requires_human_approval then
    (true, "operation is allowed by default medium-balanced approval policy")
  else
    match ha_strategy policy with
    | Strategy_OneTimeFullAccess =>
        if one_time_full_access_active policy now_epoch_s
        then (true, "human granted one-time full access for this execution")
        else (false, default ("human one-time full access is not granted for high-risk operation " +:+ operation_key)
                       (one_time_full_access_rejected_reason policy now_epoch_s))
    | Strategy_PerCall =>
        if is_operation_preapproved operation_key (ha_approved_calls policy)
        then (true, "operation " +:+ operation_key +:+ " is pre-approved by human policy")
        else (false, "human approval required for high-risk operation " +:+ operation_key
                     +:+ "; add to approval.approved_calls or switch to one_time_full_access")
    end.

(** [evaluate_approval_guard] *)
Definition evaluate_approval_guard (approval : option HumanApprovalSpec) (operation : OperationSpec)
    (now_epoch_s : Z) : ApprovalDecisionReport :=
  let policy := default HumanApprovalSpec_default approval in
  let operation_key := operation_approval_key operation in
  let operation_kind := operation_approval_kind operation in
  let denylisted := is_operation_preapproved operation_key (ha_denied_calls policy) in
  let '(risk_level, matched_keywords, score) :=
    match operation_risk_profile operation policy with
    | (Level_High, matched, score) => (Level_High, matched, score)
    | (_, _, score) => (Level_Low, [], score)
    end in
  let report denylisted requires approved reason :=
    mkApprovalDecisionReport (ha_mode policy) (ha_strategy policy) (ha_scope policy) now_epoch_s operation_key
      operation_kind risk_level score denylisted requires approved reason matched_keywords in
  if denylisted then report true true false "operation is denylisted by human approval policy"
  else
    let requires_human_approval := requires_approval_of policy operation risk_level in
    let '(approved, reason) := decide_approval policy now_epoch_s operation_key requires_human_approval in
    report false requires_human_approval approved reason.
End guard.

(** * What the guard guarantees *)

(** ** Texts of an operation *)

(** [text] is a string or a key somewhere in a JSON value. *)
Inductive occurs (text : string) : Value → Prop :=
| occurs_string : occurs text (JString text)
| occurs_item x xs : x ∈ xs → occurs text x → occurs text (JArray xs)
| occurs_key child fields : (text, child) ∈ fields → occurs text (JObject fields)
| occurs_field key child fields : (key, child) ∈ fields → occurs text child → occurs text (JObject fields).

(** [text] is a key of an object somewhere in a JSON value. *)
Inductive key_of (text : string) : Value → Prop :=
| key_of_item x xs : x ∈ xs → key_of text x → key_of text (JArray xs)
| key_of_here child fields : (text, child) ∈ fields → key_of text (JObject fields)
| key_of_field key child fields : (key, child) ∈ fields → key_of text child → key_of text (JObject fields).

(** The JSON values of a step, and the connectors and operations it calls *)
Definition step_values (step : ProgrammaticStep) : list Value :=
  match step with
  | Step_SetLiteral _ value => [value]
  | Step_JsonPointer _ _ _ => []
  | Step_ConnectorCall _ _ _ _ _ _ payload => [payload]
  | Step_ConnectorBatch _ _ _ calls => pc_payload <$> calls
  | Step_Conditional _ _ _ equals _ when_true when_false =>
      option_list equals ++ when_true :: option_list when_false
  end.

Definition step_targets (step : ProgrammaticStep) : list string :=
  match step with
  | Step_ConnectorCall _ connector_name operation _ _ _ _ => [connector_name; operation]
  | Step_ConnectorBatch _ _ _ calls => flat_map (λ call, [pc_connector_name call; pc_operation call]) calls
  | _ => []
  end.

Definition operation_steps (operation : OperationSpec) : list ProgrammaticStep :=
  match operation with Op_ProgrammaticToolCall _ _ _ _ _ _ _ _ steps => steps | _ => [] end.

(** Every JSON value of an operation, whether it has a payload or is a program *)
Definition operation_values (operation : OperationSpec) : list Value :=
  option_list (operation_payload operation) ++ flat_map step_values (operation_steps operation).

Inductive mentions (operation : OperationSpec) : string → Prop :=
| mentions_key : mentions operation (operation_approval_key operation)
| mentions_value text v : v ∈ operation_values operation → occurs text v → mentions operation text
| mentions_target text step :
    step ∈ operation_steps operation → text ∈ step_targets step → mentions operation text.

Lemma elem_of_flat_map {A B} (f : A → list B) l y : y ∈ flat_map f l ↔ ∃ x, x ∈ l ∧ y ∈ f x.
Proof. setoid_rewrite list_elem_of_In. rewrite in_flat_map. done. Qed.

Lemma occurs_collected text v : occurs text v → text ∈ collect_json_strings v.
Proof.
  induction 1 as [|x xs Hx _ IH|child fields Hf|key child fields Hf _ IH]; cbn [collect_json_strings];
    rewrite ?elem_of_flat_map.
  - set_solver.
  - by exists x.
  - exists (text, child). set_solver.
  - exists (key, child). set_solver.
Qed.

Lemma key_of_collected text v : key_of text v → text ∈ collect_json_keys v.
Proof.
  induction 1 as [x xs Hx _ IH|child fields Hf|key child fields Hf _ IH]; cbn [collect_json_keys];
    rewrite elem_of_flat_map; [by exists x|exists (text, child)|exists (key, child)]; set_solver.
Qed.

Section texts.
Context (f64_text : f64 → string).

Lemma step_strings_value step v text :
  v ∈ step_values step → text ∈ collect_json_strings v → text ∈ step_strings f64_text step.
Proof.
  destruct step as [| | |id p c calls|id from pointer equals ex when_true when_false]; cbn [step_values step_strings];
    intros Hv Ht.
  - set_solver.
  - set_solver.
  - apply list_elem_of_singleton in Hv as ->. rewrite !elem_of_app. auto.
  - apply list_elem_of_fmap in Hv as (call & -> & Hc). rewrite elem_of_app, elem_of_flat_map. right.
    exists call. split; [done|]. unfold call_strings. rewrite !elem_of_app. auto.
  - rewrite !elem_of_app. rewrite elem_of_app, elem_of_cons in Hv.
    destruct equals, when_false; set_solver.
Qed.

Lemma step_keys_value step v text :
  v ∈ step_values step → text ∈ collect_json_keys v → text ∈ step_keys f64_text step.
Proof.
  destruct step as [| | |id p c calls|id from pointer equals ex when_true when_false]; cbn [step_values step_keys];
    intros Hv Ht; apply elem_of_cons; right.
  - set_solver.
  - set_solver.
  - apply list_elem_of_singleton in Hv as ->. rewrite !elem_of_app. auto.
  - apply list_elem_of_fmap in Hv as (call & -> & Hc). rewrite elem_of_app, elem_of_flat_map. right.
    exists call. split; [done|]. unfold call_keys. rewrite !elem_of_app. auto.
  - rewrite elem_of_app, elem_of_cons in Hv. rewrite ?elem_of_app, ?elem_of_cons, ?elem_of_app.
    destruct equals, when_false; set_solver.
Qed.

Lemma step_strings_target step text : text ∈ step_targets step → text ∈ step_strings f64_text step.
Proof.
  destruct step as [| | |id p c calls|]; cbn [step_targets step_strings]; [set_solver..| |set_solver].
  rewrite elem_of_app, !elem_of_flat_map. intros (call & Hc & Ht). right. exists call. split; [done|].
  unfold call_strings. set_solver.
Qed.

Lemma mentions_collected operation text :
  mentions operation text →
  text ∈ operation_approval_key operation :: operation_payload_strings f64_text operation.
Proof.
  intros [|text' v Hv Ho|text' step Hs Ht]; [set_solver| |]; right.
  - apply occurs_collected in Ho. unfold operation_values in Hv. rewrite elem_of_app, elem_of_flat_map in Hv.
    destruct Hv as [Hv|(step & Hs & Hv)].
    + destruct (operation_payload operation) as [payload|] eqn:E; [|by apply not_elem_of_nil in Hv].
      apply list_elem_of_singleton in Hv as ->. destruct operation; by inversion E; subst.
    + destruct operation; cbn [operation_steps] in Hs; try by apply not_elem_of_nil in Hs. cbn [operation_payload_strings].
      rewrite !elem_of_app, !elem_of_flat_map. do 7 right. exists step. eauto using step_strings_value.
  - destruct operation; cbn [operation_steps] in Hs; try by apply not_elem_of_nil in Hs. cbn [operation_payload_strings].
    rewrite !elem_of_app, !elem_of_flat_map. do 7 right. exists step. eauto using step_strings_target.
Qed.

Lemma key_of_operation operation v text :
  v ∈ operation_values operation → key_of text v → text ∈ operation_payload_keys f64_text operation.
Proof.
  intros Hv Ho%key_of_collected. unfold operation_values in Hv. rewrite elem_of_app, elem_of_flat_map in Hv.
  destruct Hv as [Hv|(step & Hs & Hv)].
  - destruct (operation_payload operation) as [payload|] eqn:E; [|by apply not_elem_of_nil in Hv].
    apply list_elem_of_singleton in Hv as ->. destruct operation; by inversion E; subst.
  - destruct operation; cbn [operation_steps] in Hs; try by apply not_elem_of_nil in Hs. cbn [operation_payload_keys].
    do 2 (apply elem_of_app; right). apply elem_of_cons. rewrite !elem_of_app, !elem_of_flat_map. do 5 right. exists step.
    eauto using step_keys_value.
Qed.

(** ** Words in texts *)

Lemma contains_iff p s : contains p s = true ↔ ∃ pre post, s = pre +:+ p +:+ post.
Proof.
  unfold contains. destruct (find_str p s) as [n|] eqn:E.
  - split; [|done]. intros _. apply find_str_Some in E as (pre & post & -> & _). by exists pre, post.
  - split; [done|]. intros (pre & post & ->). by apply find_str_None with (pre := pre) (post := post) in E.
Qed.

Lemma contains_middle p s pre post : contains p s = true → contains p (pre +:+ s +:+ post) = true.
Proof.
  rewrite !contains_iff. intros (a & b & ->). exists (pre +:+ a), (b +:+ post). by rewrite !app_assoc_str.
Qed.

Lemma map_str_app g s t : map_str g (s +:+ t) = map_str g s +:+ map_str g t.
Proof. induction s as [|a s IH]; [done|]. rewrite app_cons_str. cbn [map_str]. by rewrite IH, app_cons_str. Qed.

(** The haystack has every text of its list. *)
Lemma haystack_has l acc text :
  text ∈ l → ∃ pre post, foldl (λ t value, t +:+ value +:+ " ") acc l = pre +:+ text +:+ post.
Proof.
  assert (∀ l acc, ∃ post, foldl (λ t value, t +:+ value +:+ " ") acc l = acc +:+ post) as Hpre.
  { clear. induction l as [|x l IH]; intros acc; [exists ""; by rewrite app_nil_r_str|]. cbn [foldl].
    destruct (IH (acc +:+ x +:+ " ")) as [post ->]. rewrite !app_assoc_str. by eexists. }
  revert acc. induction l as [|x l IH]; intros acc Hl; [by apply not_elem_of_nil in Hl|].
  apply elem_of_cons in Hl as [->|Hl]; cbn [foldl]; [|by apply IH].
  destruct (Hpre l (acc +:+ x +:+ " ")) as [post ->]. rewrite !app_assoc_str. by eexists _, _.
Qed.

Lemma mentioned_words_found operation text word :
  mentions operation text → contains word (to_ascii_lowercase text) = true →
  contains word (to_ascii_lowercase (operation_risk_haystack f64_text operation)) = true.
Proof.
  intros Hm Hc. apply mentions_collected in Hm. unfold operation_risk_haystack.
  destruct (haystack_has (operation_approval_kind operation :: operation_approval_key operation
    :: operation_payload_strings f64_text operation) "" text) as (pre & post & ->); [by right|].
  unfold to_ascii_lowercase. rewrite !map_str_app. by apply contains_middle.
Qed.

Lemma elem_of_normalize_signal_list value values :
  value ∈ normalize_signal_list values ↔ value ≠ "" ∧ ∃ raw, raw ∈ values ∧ value = normalize_signal raw.
Proof.
  unfold normalize_signal_list. rewrite elem_of_btree_elements, elem_of_list_to_set, list_elem_of_filter,
    list_elem_of_fmap. destruct value; naive_solver.
Qed.
End texts.

(** ** Scores *)

(** Every signal alone reaches the threshold, and no product leaves 16 bits. *)
Record decisive (scoring : ApprovalRiskScoring) : Prop := {
  dec_threshold : (1 ≤ rs_high_risk_threshold scoring ≤ 100)%Z;
  dec_keyword : (rs_high_risk_threshold scoring ≤ rs_keyword_weight scoring)%Z;
  dec_tool_name : (rs_high_risk_threshold scoring ≤ rs_tool_name_weight scoring)%Z;
  dec_payload_key : (rs_high_risk_threshold scoring ≤ rs_payload_key_weight scoring)%Z;
  dec_keyword_cap : (1 ≤ rs_keyword_hit_cap scoring)%Z ∧
    (rs_keyword_hit_cap scoring * rs_keyword_weight scoring ≤ u16_max)%Z;
  dec_payload_key_cap : (1 ≤ rs_payload_key_hit_cap scoring)%Z ∧
    (rs_payload_key_hit_cap scoring * rs_payload_key_weight scoring ≤ u16_max)%Z;
}.

Lemma sanitize_decisive scoring : decisive scoring → sanitize_risk_scoring scoring = scoring.
Proof.
  intros [Ht _ _ _ [Hk _] [Hp _]]. destruct scoring as [kw tw pw kc pc th]. cbn in *. unfold sanitize_risk_scoring.
  cbn. by rewrite !(proj2 (Z.eqb_neq _ _)) by lia.
Qed.

Lemma hit_score_small hits cap weight : (0 ≤ hits)%Z → (1 ≤ cap)%Z → (1 ≤ weight)%Z → (cap * weight ≤ u16_max)%Z →
  hit_score hits cap weight = (Z.min hits cap * weight)%Z.
Proof.
  unfold hit_score, wrap16, u16_max. intros Hh Hc Hw Hm. assert (cap ≤ 65535)%Z by nia.
  rewrite (Z.mod_small (Z.min hits cap)) by lia. apply Z.mod_small. nia.
Qed.

Lemma hit_score_nonneg hits cap weight : (0 ≤ hit_score hits cap weight)%Z.
Proof. apply Z.mod_pos_bound. lia. Qed.

Lemma one_signal_suffices scoring keywords tool_name payload_keys :
  decisive scoring → (0 ≤ keywords)%Z → (0 ≤ payload_keys)%Z →
  (0 < keywords)%Z ∨ tool_name = true ∨ (0 < payload_keys)%Z →
  (rs_high_risk_threshold scoring ≤ risk_score scoring keywords tool_name payload_keys)%Z.
Proof.
  intros [Ht Hkw Htw Hpw [Hkc Hk] [Hpc Hp]] H1 H2 Hs. unfold risk_score, sat_add16.
  rewrite !hit_score_small by lia.
  assert (0 ≤ Z.min keywords (rs_keyword_hit_cap scoring) * rs_keyword_weight scoring)%Z by nia.
  assert (0 ≤ Z.min payload_keys (rs_payload_key_hit_cap scoring) * rs_payload_key_weight scoring)%Z by nia.
  assert (0 ≤ (if tool_name then rs_tool_name_weight scoring else 0))%Z by (destruct tool_name; lia).
  assert (rs_high_risk_threshold scoring ≤ u16_max)%Z by (unfold u16_max; lia).
  destruct Hs as [Hs|[->|Hs]].
  - assert (rs_keyword_weight scoring ≤ Z.min keywords (rs_keyword_hit_cap scoring) * rs_keyword_weight scoring)%Z by nia.
    lia.
  - lia.
  - assert (rs_payload_key_weight scoring
      ≤ Z.min payload_keys (rs_payload_key_hit_cap scoring) * rs_payload_key_weight scoring)%Z by nia.
    lia.
Qed.

(** ** Who decides *)
Section decision.
Context (f64_text : f64 → string) (load_profile : string → option ApprovalRiskProfile).
Abbreviation guard := (evaluate_approval_guard f64_text load_profile).
Abbreviation profile_of := (resolve_approval_risk_profile load_profile).

(** A reason of the profile against the operation: a keyword in one of its
    texts, the name of its tool, or a key of one of its JSON values *)
Inductive risky (profile : ApprovalRiskProfile) (operation : OperationSpec) : Prop :=
| risky_keyword raw text :
    raw ∈ rp_high_risk_keywords profile → normalize_signal raw ≠ "" → mentions operation text →
    contains (normalize_signal raw) (to_ascii_lowercase text) = true → risky profile operation
| risky_tool raw name :
    raw ∈ rp_high_risk_tool_names profile → normalize_signal raw ≠ "" → operation_tool_name operation = Some name →
    normalize_signal name = normalize_signal raw → risky profile operation
| risky_payload_key raw key v :
    raw ∈ rp_high_risk_payload_keys profile → normalize_signal raw ≠ "" → v ∈ operation_values operation →
    key_of key v → normalize_signal key = normalize_signal raw → risky profile operation.

Definition signals (profile : ApprovalRiskProfile) (operation : OperationSpec) : list string :=
  matched_keywords_of f64_text profile operation ++ matched_tool_name_of profile operation
  ++ matched_payload_keys_of f64_text profile operation.

Lemma risky_signals profile operation : risky profile operation → signals profile operation ≠ [].
Proof.
  unfold signals. intros [raw text Hr Hn Hm Hc|raw name Hr Hn Ht He|raw key v Hr Hn Hv Hk He].
  - pose proof (mentioned_words_found f64_text _ _ _ Hm Hc) as Hf.
    assert (normalize_signal raw ∈ matched_keywords_of f64_text profile operation) as Hin.
    { apply list_elem_of_filter. split; [done|]. apply elem_of_normalize_signal_list. eauto. }
    destruct (matched_keywords_of _ _ _); [by apply not_elem_of_nil in Hin|done].
  - unfold matched_tool_name_of. rewrite Ht. rewrite bool_decide_true; [by destruct (matched_keywords_of _ _ _)|].
    apply elem_of_normalize_signal_list. rewrite He. eauto.
  - assert ("payload_key:" +:+ normalize_signal key ∈ matched_payload_keys_of f64_text profile operation) as Hin.
    { apply list_elem_of_fmap. eexists. split; [done|]. apply list_elem_of_filter. split.
      - apply elem_of_normalize_signal_list. rewrite He. eauto.
      - apply list_elem_of_fmap. eauto using key_of_operation. }
    destruct (matched_payload_keys_of _ _ _); [by apply not_elem_of_nil in Hin|].
    by destruct (matched_keywords_of _ _ _), (matched_tool_name_of _ _).
Qed.

Lemma signals_counted profile operation :
  signals profile operation ≠ [] →
  (0 < len (matched_keywords_of f64_text profile operation))%Z ∨
  negb (bool_decide (matched_tool_name_of profile operation = [])) = true ∨
  (0 < len (matched_payload_keys_of f64_text profile operation))%Z.
Proof.
  unfold signals. destruct (matched_keywords_of _ _ _) as [|k ks]; [|left; rewrite len_cons; pose proof (len_nonneg ks); lia].
  destruct (matched_tool_name_of _ _) as [|t ts]; [|right; left; by rewrite bool_decide_false].
  destruct (matched_payload_keys_of _ _ _) as [|p ps]; [done|]. right. right. rewrite len_cons.
  pose proof (len_nonneg ps). lia.
Qed.

Lemma btree_list_nil (l : list string) : btree_elements (list_to_set l) = [] ↔ l = [].
Proof. rewrite btree_elements_nil. destruct l; set_solver. Qed.

(** With decisive scores, high risk is the presence of a signal. *)
Lemma risk_level_exact operation policy :
  decisive (rp_scoring (profile_of policy)) →
  (operation_risk_profile f64_text load_profile operation policy).1.1 = Level_High ↔
  signals (profile_of policy) operation ≠ [].
Proof.
  intros Hd. unfold operation_risk_profile. rewrite (sanitize_decisive _ Hd). fold (signals (profile_of policy) operation).
  destruct (decide (signals (profile_of policy) operation = [])) as [E|E].
  - rewrite (bool_decide_true _ (proj2 (btree_list_nil _) E)). done.
  - rewrite bool_decide_false by (by rewrite btree_list_nil). cbn [orb].
    rewrite (proj2 (Z.ltb_ge _ _)); [done|].
    apply one_signal_suffices; [done|apply len_nonneg..|by apply signals_counted].
Qed.

(** An entry of a list of calls covers the key of an operation, letter case
    aside: it is the key, or a prefix of it followed by a star. *)
Definition covers (entry key : string) : Prop :=
  normalize_signal entry ≠ "" ∧
  (normalize_signal entry = to_ascii_lowercase key ∨
   ∃ prefix rest, normalize_signal entry = prefix +:+ "*" ∧ to_ascii_lowercase key = prefix +:+ rest).

Lemma approval_matches_iff key entry : approval_matches (to_ascii_lowercase key) entry = true ↔ covers entry key.
Proof.
  unfold approval_matches, covers. set (n := normalize_signal entry). set (k := to_ascii_lowercase key).
  destruct (is_empty n) eqn:E; [by destruct n; naive_solver|]. assert (n ≠ "") as Hn by (by intros ->).
  case_bool_decide as Hs.
  - split; [|done]. intros _. split; [done|right]. exists "", k. by rewrite app_nil_l_str.
  - destruct (strip_suffix "*" n) as [prefix|] eqn:Ep.
    + rewrite starts_with_iff. split.
      * intros [rest Hr]. split; [done|right]. exists prefix, rest. by apply strip_suffix_Some in Ep.
      * intros [_ [Hk|(p & rest & Hp & Hr)]].
        { exists "*". rewrite <-Hk. by apply strip_suffix_Some. }
        exists rest. rewrite (proj2 (strip_suffix_Some "*" n p) Hp) in Ep. by injection Ep as <-.
    + rewrite bool_decide_eq_true. split; [naive_solver|]. intros [_ [Hk|(p & rest & Hp & _)]]; [done|].
      rewrite (proj2 (strip_suffix_Some "*" n p) Hp) in Ep. done.
Qed.

Lemma is_operation_preapproved_iff key approvals :
  is_operation_preapproved key approvals = true ↔ ∃ entry, entry ∈ approvals ∧ covers entry key.
Proof.
  unfold is_operation_preapproved. rewrite existsb_exists. setoid_rewrite <-list_elem_of_In.
  by setoid_rewrite approval_matches_iff.
Qed.

(** What the human said yes to *)
Definition consents (policy : HumanApprovalSpec) (now_epoch_s : Z) (operation : OperationSpec) : Prop :=
  match ha_strategy policy with
  | Strategy_PerCall => ∃ entry, entry ∈ ha_approved_calls policy ∧ covers entry (operation_approval_key operation)
  | Strategy_OneTimeFullAccess =>
      ha_one_time_full_access_granted policy = true ∧
      (∀ deadline, ha_one_time_full_access_expires_at_epoch_s policy = Some deadline → (now_epoch_s ≤ deadline)%Z) ∧
      (∀ uses, ha_one_time_full_access_remaining_uses policy = Some uses → (0 < uses)%Z)
  end.

Lemma one_time_full_access_active_iff policy now_epoch_s :
  one_time_full_access_active policy now_epoch_s = true ↔
  ha_one_time_full_access_granted policy = true ∧
  (∀ deadline, ha_one_time_full_access_expires_at_epoch_s policy = Some deadline → (now_epoch_s ≤ deadline)%Z) ∧
  (∀ uses, ha_one_time_full_access_remaining_uses policy = Some uses → (0 < uses)%Z).
Proof.
  unfold one_time_full_access_active. rewrite !andb_true_iff.
  destruct (ha_one_time_full_access_expires_at_epoch_s policy), (ha_one_time_full_access_remaining_uses policy);
    rewrite ?Z.leb_le, ?Z.ltb_lt; naive_solver.
Qed.

Lemma decide_approval_iff policy now_epoch_s operation requires :
  (decide_approval policy now_epoch_s (operation_approval_key operation) requires).1 = true ↔
  (requires = true → consents policy now_epoch_s operation).
Proof.
  unfold decide_approval, consents. destruct requires; cbn [negb]; [|done]. destruct (ha_strategy policy).
  - rewrite <-is_operation_preapproved_iff. destruct (is_operation_preapproved _ _); naive_solver.
  - rewrite <-one_time_full_access_active_iff. destruct (one_time_full_access_active _ _); naive_solver.
Qed.

(** The guard decides by what the risk profile of the operation is. *)
Lemma guard_approves_iff approval operation now_epoch_s :
  let policy := default HumanApprovalSpec_default approval in
  ad_approved (guard approval operation now_epoch_s) = true ↔
  (∀ entry, entry ∈ ha_denied_calls policy → ¬ covers entry (operation_approval_key operation)) ∧
  (requires_approval_of policy operation (operation_risk_profile f64_text load_profile operation policy).1.1 = true →
   consents policy now_epoch_s operation).
Proof.
  intros policy. unfold evaluate_approval_guard. fold policy.
  destruct (operation_risk_profile _ _ _ _) as [[level matched] score]. cbn [fst].
  pose proof (is_operation_preapproved_iff (operation_approval_key operation) (ha_denied_calls policy)) as Hden.
  pose proof (decide_approval_iff policy now_epoch_s operation (requires_approval_of policy operation level)) as Hdec.
  destruct (is_operation_preapproved _ (ha_denied_calls policy)).
  - destruct (proj1 Hden eq_refl) as (entry & Hin & Hc). split; [by destruct level|].
    intros [Hno _]. by destruct (Hno entry Hin Hc).
  - destruct (decide_approval policy _ _ (requires_approval_of policy operation level)) as [ok reason] eqn:E.
    assert (∀ entry, entry ∈ ha_denied_calls policy → ¬ covers entry (operation_approval_key operation)) as Hno.
    { intros entry Hin Hc. by apply diff_false_true, Hden; exists entry. }
    cbn [fst] in Hdec. destruct level; rewrite E; cbn [ad_approved]; rewrite Hdec; tauto.
Qed.

(** C30. A denied call is refused, and a risky one needs the consent of a human.
    A call the approval guard lets through is covered by no entry of the list of
    denied calls, in every mode, scope and strategy and under every risk
    profile; and if it is in the scope of the policy then, in strict mode always
    and in balanced mode when the operation is risky and the scores of the
    profile are decisive, the human consented: by an entry that covers the call
    or by a one-time grant that is in force. An operation is risky when a keyword
    occurs in its name, in the connectors and operations it calls or in any
    string or key at any depth of its payload or of the JSON values of its
    program, when its tool is listed, or when a key at any depth is listed. *)
Theorem risky_operation_needs_consent approval operation now_epoch_s :
  let policy := default HumanApprovalSpec_default approval in
  let profile := profile_of policy in
  ad_approved (guard approval operation now_epoch_s) = true →
  (∀ entry, entry ∈ ha_denied_calls policy → ¬ covers entry (operation_approval_key operation)) ∧
  (is_operation_in_approval_scope operation (ha_scope policy) = true →
   ha_mode policy = Mode_Strict ∨
   ha_mode policy = Mode_MediumBalanced ∧ decisive (rp_scoring profile) ∧ risky profile operation →
   consents policy now_epoch_s operation).
Proof.
  intros policy profile Ha. apply guard_approves_iff in Ha as [Hden Hreq]. split; [done|].
  intros Hs Hm. apply Hreq. unfold requires_approval_of. fold policy. rewrite Hs.
  destruct Hm as [->|(-> & Hd & Hr)]; [done|].
  apply bool_decide_eq_true, risk_level_exact; [done|]. by apply risky_signals.
Qed.

(** The guard never stands in the way of a call that nothing speaks against. *)
Lemma harmless_operation_is_approved approval operation now_epoch_s :
  let policy := default HumanApprovalSpec_default approval in
  decisive (rp_scoring (profile_of policy)) → ha_mode policy = Mode_MediumBalanced →
  signals (profile_of policy) operation = [] →
  (∀ entry, entry ∈ ha_denied_calls policy → ¬ covers entry (operation_approval_key operation)) →
  ad_approved (guard approval operation now_epoch_s) = true.
Proof.
  intros policy Hd Hm Hs Hden. apply guard_approves_iff. split; [done|]. fold policy.
  unfold requires_approval_of. rewrite Hm. intros [_ H]%andb_true_iff. apply bool_decide_eq_true in H.
  by apply risk_level_exact in H.
Qed.
End decision.

Lemma bundled_decisive : decisive (rp_scoring bundled_approval_risk_profile).
Proof. split; cbn; unfold u16_max; lia. Qed.

(** ** Concrete operations *)
Module SpecApprovalDemo.

(** A keyword deep inside the payload of a tool call *)
Definition nested_call : OperationSpec :=
  Op_ToolCore "notes" {[InvokeTool]}
    (JObject [("items", JArray [JNull; JObject [("note", JString "please DELETE everything")]])]) None.
Definition consenting : HumanApprovalSpec :=
  mkHumanApprovalSpec Mode_MediumBalanced Strategy_PerCall Scope_ToolCalls false [" Tool_Core:* "] [] None None None [] [] [].

Lemma nested_call_risky : risky bundled_approval_risk_profile nested_call.
Proof.
  apply (risky_keyword _ _ "delete" "please DELETE everything"); [by apply (bool_decide_unpack _)|done| |reflexivity].
  eapply mentions_value; [by left|]. eapply occurs_field; [by left|]. eapply occurs_item; [right; by left|].
  eapply occurs_field; [by left|]. constructor.
Qed.

Lemma consent_needed_witness : consents consenting 7 nested_call.
Proof.
  exact (proj2 (risky_operation_needs_consent (λ _, "") (λ _, None) (Some consenting) nested_call 7 eq_refl)
    eq_refl (or_intror (conj eq_refl (conj bundled_decisive nested_call_risky)))).
Defined.

(** Without an entry the same call is refused. *)
Lemma nested_call_refused :
  ad_approved (evaluate_approval_guard (λ _, "") (λ _, None) None nested_call 7) = false.
Proof. reflexivity. Qed.

(** Any tool search is of high risk under the bundled profile, whatever is
    searched: "query" is a listed payload key and the guard adds that key itself. *)
Lemma tool_search_is_always_risky query limit include_deferred include_examples :
  (operation_risk_profile (λ _, "") (λ _, None)
     (Op_ToolSearch query limit include_deferred include_examples) HumanApprovalSpec_default).1.1 = Level_High.
Proof.
  apply (risk_level_exact (λ _, "") (λ _, None)); [apply bundled_decisive|]. unfold signals.
  replace (matched_payload_keys_of _ _ _) with ["payload_key:query"] by (symmetry; vm_compute; reflexivity).
  by destruct (matched_keywords_of _ _ _), (matched_tool_name_of _ _).
Qed.

(** A grant with uses counted down to zero and a deadline ahead is refused, but
    the report says that nothing was granted. *)
Lemma exhausted_grant_reads_as_not_granted :
  let policy := mkHumanApprovalSpec Mode_Strict Strategy_OneTimeFullAccess Scope_AllOperations true [] [] None
                  (Some 100%Z) (Some 0%Z) [] [] [] in
  let report := evaluate_approval_guard (λ _, "") (λ _, None) (Some policy) nested_call 7 in
  ad_approved report = false ∧
  ad_reason report = "human one-time full access is not granted for high-risk operation tool_core:notes".
Proof. split; reflexivity. Qed.

(** The product of hits and weight is taken in sixteen bits: with the cap at 512
    and a weight of 128, 512 hits score nothing. *)
Lemma many_hits_score_nothing : hit_score 512 512 128 = 0%Z.
Proof. reflexivity. Qed.
End SpecApprovalDemo.
