(* ===== verification/SpecScan.v ===== *)
(** * SpecScan: the security scan of plugins
    (spec/src/spec_execution/security_scan_eval.rs, security_scan_policy.rs and
    bridge_support_policy.rs, with the helpers of spec_execution.rs and the
    types of spec_runtime.rs)

    Plugins that are ready to be activated are scanned before they are absorbed:
    the words of their metadata, the command of a process plugin, and the
    artifact of a WebAssembly plugin with its path, size, hash pins and imports.
    A finding of high severity blocks the scenario.

    Paths are lists of components ([Paths.v]). Reading and canonicalizing paths,
    SHA-256, the text of a JSON value, the parser of WebAssembly modules and
    the signature library are parameters. *)
From S2P Require Import Prelude RustStr Contracts Json Errors Integration Fs Plugin PluginIR Bootstrap.
From S2P Require Import Awareness Paths SpecApproval.
From Stdlib Require Import Ascii.

(** ** Policies and reports *)
Record SecurityProfileSignatureSpec := mkSecurityProfileSignatureSpec {
  sg_algorithm : string;
  sg_public_key_base64 : string;
  sg_signature_base64 : string;
}.

Record SecuritySiemExportSpec := mkSecuritySiemExportSpec {
  sx_enabled : bool;
  sx_path : string;
  sx_include_findings : bool;
  sx_max_findings_per_record : option Z;
  sx_fail_on_error : bool;
}.

Record SecurityRuntimeExecutionSpec := mkSecurityRuntimeExecutionSpec {
  sr_execute_wasm_component : bool;
  sr_allowed_path_prefixes : list string;
  sr_max_component_bytes : option Z;
  sr_fuel_limit : option Z;
}.

Definition SecurityRuntimeExecutionSpec_default : SecurityRuntimeExecutionSpec :=
  mkSecurityRuntimeExecutionSpec false [] None None.

Record WasmSecurityScanSpec := mkWasmSecurityScanSpec {
  ws_enabled : bool;
  ws_max_module_bytes : Z;
  ws_allow_wasi : bool;
  ws_blocked_import_prefixes : list string;
  ws_allowed_path_prefixes : list string;
  ws_require_hash_pin : bool;
  ws_required_sha256_by_plugin : gmap string string;
}.

Record SecurityScanSpec := mkSecurityScanSpec {
  ss_enabled : bool;
  ss_block_on_high : bool;
  ss_profile_path : option string;
  ss_profile_sha256 : option string;
  ss_profile_signature : option SecurityProfileSignatureSpec;
  ss_siem_export : option SecuritySiemExportSpec;
  ss_runtime : SecurityRuntimeExecutionSpec;
  ss_high_risk_metadata_keywords : list string;
  ss_wasm : WasmSecurityScanSpec;
}.

Record SecurityScanProfile := mkSecurityScanProfile {
  sp_high_risk_metadata_keywords : list string;
  sp_wasm : WasmSecurityScanSpec;
}.

Record BridgeSupportSpec := mkBridgeSupportSpec {
  bs_enabled : bool;
  bs_supported_bridges : list PluginBridgeKind;
  bs_supported_adapter_families : list string;
  bs_enforce_supported : bool;
  bs_policy_version : option string;
  bs_expected_checksum : option string;
  bs_expected_sha256 : option string;
  bs_execute_process_stdio : bool;
  bs_execute_http_json : bool;
  bs_allowed_process_commands : list string;
  bs_enforce_execution_success : bool;
  bs_security_scan : option SecurityScanSpec;
}.

Inductive SecurityFindingSeverity := Severity_Low | Severity_Medium | Severity_High.

#[export] Instance SecurityFindingSeverity_eq_dec : EqDecision SecurityFindingSeverity.
Proof. solve_decision. Defined.

Definition severity_text (severity : SecurityFindingSeverity) : string :=
  match severity with Severity_Low => "low" | Severity_Medium => "medium" | Severity_High => "high" end.

Record SecurityFinding := mkSecurityFinding {
  sf_correlation_id : string;
  sf_severity : SecurityFindingSeverity;
  sf_category : string;
  sf_plugin_id : string;
  sf_source_path : string;
  sf_message : string;
  sf_evidence : Value;
}.

Record SecuritySiemExportReport := mkSecuritySiemExportReport {
  xr_enabled : bool;
  xr_path : string;
  xr_success : bool;
  xr_exported_records : Z;
  xr_exported_findings : Z;
  xr_truncated_findings : Z;
  xr_error : option string;
}.

Record SecurityScanReport := mkSecurityScanReport {
  rr_enabled : bool;
  rr_scanned_plugins : Z;
  rr_total_findings : Z;
  rr_high_findings : Z;
  rr_medium_findings : Z;
  rr_low_findings : Z;
  rr_blocked : bool;
  rr_block_reason : option string;
  rr_siem_export : option SecuritySiemExportReport;
  rr_findings : list SecurityFinding;
}.

Definition SecurityScanReport_default : SecurityScanReport :=
  mkSecurityScanReport true 0 0 0 0 0 false None None [].

Record SecurityScanDelta := mkSecurityScanDelta {
  sd_scanned_plugins : Z;
  sd_high_findings : Z;
  sd_medium_findings : Z;
  sd_low_findings : Z;
  sd_findings : list SecurityFinding;
  sd_block_reason : option string;
}.

Definition SecurityScanDelta_default : SecurityScanDelta := mkSecurityScanDelta 0 0 0 0 [] None.

(** ** Helpers of spec_execution.rs and spec_runtime.rs *)

(** [parse_bridge_kind_label]: the text of [parse_bridge_kind] of plugin_ir.rs *)
Definition parse_bridge_kind_label (raw : string) : option PluginBridgeKind :=
  match_str (to_ascii_lowercase (trim raw))
    [(["http_json"; "http"], HttpJson); (["process_stdio"; "stdio"], ProcessStdio);
     (["native_ffi"; "ffi"], NativeFfi); (["wasm_component"; "wasm"], WasmComponent);
     (["mcp_server"; "mcp"], McpServer); (["acp_bridge"; "acp"], AcpBridge);
     (["acp_runtime"; "acpx"], AcpRuntime); (["unknown"], UnknownBridge)].

(** [descriptor_bridge_kind] *)
Definition descriptor_bridge_kind (descriptor : PluginDescriptor) : PluginBridgeKind :=
  match pm_metadata (pd_manifest descriptor) !! "bridge_kind" ≫= parse_bridge_kind_label with
  | Some kind => kind
  | None =>
      let language := to_ascii_lowercase (trim (pd_language descriptor)) in
      match match_str language
              [(["wasm"; "wat"], WasmComponent); (["rust"; "go"; "c"; "cpp"; "cxx"], NativeFfi);
               (["python"; "javascript"; "typescript"; "java"], ProcessStdio)] with
      | Some kind => kind
      | None =>
          match pm_endpoint (pd_manifest descriptor) with
          | Some endpoint =>
              let endpoint_lower := to_ascii_lowercase endpoint in
              if starts_with "http://" endpoint_lower || starts_with "https://" endpoint_lower then HttpJson
              else if ends_with ".wasm" endpoint_lower then WasmComponent
              else UnknownBridge
          | None => UnknownBridge
          end
      end
  end.

(** [detect_provider_bridge_kind] *)
Definition detect_provider_bridge_kind (provider : ProviderConfig) (endpoint : string) : PluginBridgeKind :=
  match pc_metadata provider !! "bridge_kind" ≫= parse_bridge_kind_label with
  | Some kind => kind
  | None => if starts_with "http://" endpoint || starts_with "https://" endpoint then HttpJson else UnknownBridge
  end.

(** [is_process_command_allowed] *)
Definition is_process_command_allowed (program : string) (allowed : gset string) : bool :=
  if bool_decide (allowed = ∅) then false
  else if bool_decide (normalize_signal program ∈ allowed) then true
  else match file_name program with
       | Some name => bool_decide (to_ascii_lowercase name ∈ allowed)
       | None => false
       end.

(** [resolve_plugin_relative_path] *)
Definition resolve_plugin_relative_path (source_path artifact : string) : Path :=
  let candidate := components artifact in
  if is_absolute candidate then candidate
  else match parent (components source_path) with
       | Some parent => path_join parent candidate
       | None => candidate
       end.

(** [descriptor_wasm_artifact] *)
Definition descriptor_wasm_artifact (descriptor : PluginDescriptor) : option string :=
  let metadata := pm_metadata (pd_manifest descriptor) in
  or_else (metadata !! "component")
    (or_else (metadata !! "wasm_path")
       (match pm_endpoint (pd_manifest descriptor) with
        | Some value => if ends_with ".wasm" (to_ascii_lowercase value) then Some value else None
        | None => None
        end)).

Definition is_ascii_hexdigit (a : ascii) : bool := is_ascii_digit a || in_range 65 70 a || in_range 97 102 a.

(** [normalize_wasm_sha256_pin] *)
Definition normalize_wasm_sha256_pin (raw : string) : result string string :=
  let trimmed := trim raw in
  if is_empty trimmed then Err "wasm sha256 pin must not be empty"
  else
    let lowered := to_ascii_lowercase trimmed in
    let digest := trim (default lowered (strip_prefix "sha256:" lowered)) in
    if negb (String.length digest =? 64) || negb (all_bytes is_ascii_hexdigit digest)
    then Err "wasm sha256 pin must be 64 hex characters (optional prefix `sha256:`)"
    else Ok digest.

(** [normalize_sha256_pin] of spec_runtime.rs has the same text. *)
Definition normalize_sha256_pin (raw : string) : result string string := normalize_wasm_sha256_pin raw.

(** [hex_lower] *)
Definition hex_lower (bytes : string) : string :=
  String.concat "" ((λ a, hex_digits 2 (Z.of_N (byte a))) <$> String.list_ascii_of_string bytes).

(** [fnv1a64_hex] *)
Definition fnv1a64_hex (bytes : string) : string := hex016 (fnv_bytes OFFSET_BASIS bytes).

Definition pin_keys : list string := ["component_sha256"; "component_sha256_pin"; "component_sha256_hex"].

Definition json_map (m : gmap string string) : Value := JObject (btree_entries (JString <$> m)).

(** ** The host *)

(** The parts of a parsed module: an import section with its entries, any other
    part, or the error the parser stops with *)
Inductive WasmPayload :=
| Payload_ImportSection (imports : list (result string string))
| Payload_Other
| Payload_Error (error : string).

Record ScanHost := mkScanHost {
  sh_canonicalize : Path → option Path;
  sh_current_dir : option Path;
  sh_read : Path → result string string;
  sh_to_text : Value → option string;
  sh_sha256 : string → string;
  sh_wasm_parse : string → list WasmPayload;
}.

Section scan.
Context (host : ScanHost).

(** [normalize_path_for_policy] *)
Definition normalize_path_for_policy (path : Path) : Path :=
  match sh_canonicalize host path with
  | Some canonical => canonical
  | None =>
      if is_absolute path then path
      else match sh_current_dir host with Some cwd => path_join cwd path | None => path end
  end.

(** [normalize_allowed_path_prefixes] *)
Definition normalize_allowed_path_prefixes (prefixes : list string) : list Path :=
  (λ prefix, normalize_path_for_policy (components prefix)) <$> prefixes.

(** ** Findings *)

(** [security_finding_correlation_id] *)
Definition security_finding_correlation_id (severity : SecurityFindingSeverity)
    (category plugin_id source_path message : string) (evidence : Value) : string :=
  let canonical :=
    json_object [("severity", json_str (severity_text severity)); ("category", json_str category);
                 ("plugin_id", json_str plugin_id); ("source_path", json_str source_path);
                 ("message", json_str message); ("evidence", evidence)] in
  match sh_to_text host canonical with
  | None => "sf-0000000000000000"
  | Some payload => "sf-" +:+ String.substring 0 16 (hex_lower (sh_sha256 host payload))
  end.

(** [build_security_finding], for a descriptor *)
Definition build_security_finding (severity : SecurityFindingSeverity) (category : string)
    (descriptor : PluginDescriptor) (message : string) (evidence : Value) : SecurityFinding :=
  let plugin_id := pm_plugin_id (pd_manifest descriptor) in
  mkSecurityFinding
    (security_finding_correlation_id severity category plugin_id (pd_path descriptor) message evidence)
    severity category plugin_id (pd_path descriptor) message evidence.

(** [scan_descriptor_metadata_keywords] *)
Definition scan_descriptor_metadata_keywords (descriptor : PluginDescriptor) (keywords : list string) :
    list SecurityFinding :=
  let metadata := pm_metadata (pd_manifest descriptor) in
  let haystack :=
    join " " (flat_map (λ '(key, value), [to_ascii_lowercase key; to_ascii_lowercase value])
                (btree_entries metadata)) in
  (λ keyword,
     build_security_finding Severity_Medium "metadata_keyword" descriptor
       ("metadata contains high-risk keyword: " +:+ keyword)
       (json_object [("keyword", json_str keyword); ("metadata", json_map metadata)]))
  <$> filter (λ keyword, contains keyword haystack = true) keywords.

(** [scan_process_stdio_security] *)
Definition scan_process_stdio_security (descriptor : PluginDescriptor) (process_allowlist : gset string) :
    list SecurityFinding :=
  match pm_metadata (pd_manifest descriptor) !! "command" with
  | Some command =>
      if is_process_command_allowed command process_allowlist then []
      else [build_security_finding Severity_High "process_command_not_allowlisted" descriptor
              ("process_stdio command " +:+ command +:+ " is not in runtime allowlist")
              (json_object [("command", json_str command);
                            ("allowlist", json_strs (btree_elements process_allowlist))])]
  | None =>
      [build_security_finding Severity_Medium "process_command_missing" descriptor
         "process_stdio plugin does not declare metadata.command"
         (json_object [("recommendation", json_str "declare a fixed command and keep bridge allowlist strict")])]
  end.

(** [parse_wasm_import_modules] *)
Fixpoint import_modules (imports : list (result string string)) : result string (list string) :=
  match imports with
  | [] => Ok []
  | import :: imports => module ← import; rest ← import_modules imports; Ok (module :: rest)
  end.

Fixpoint payload_modules (payloads : list WasmPayload) : result string (list string) :=
  match payloads with
  | [] => Ok []
  | Payload_ImportSection section :: payloads =>
      modules ← import_modules section; rest ← payload_modules payloads; Ok (modules ++ rest)
  | Payload_Other :: payloads => payload_modules payloads
  | Payload_Error error :: _ => Err error
  end.

Definition parse_wasm_import_modules (bytes : string) : result string (list string) :=
  payload_modules (sh_wasm_parse host bytes).

(** *** Hash pins *)
Definition pin_invalid (descriptor : PluginDescriptor) (source raw_pin reason : string) : SecurityFinding :=
  build_security_finding Severity_High "wasm_sha256_pin_invalid" descriptor "wasm sha256 pin format is invalid"
    (json_object [("source", json_str source); ("pin", json_str raw_pin); ("reason", json_str reason)]).

(** One turn of the loop over the keys *)
Definition scan_metadata_pin (descriptor : PluginDescriptor) (key : string) :
    list SecurityFinding * list (string * string) :=
  match pm_metadata (pd_manifest descriptor) !! key with
  | None => ([], [])
  | Some raw_pin =>
      match normalize_wasm_sha256_pin raw_pin with
      | Ok pin => ([], [("metadata." +:+ key, pin)])
      | Err reason => ([pin_invalid descriptor ("metadata." +:+ key) raw_pin reason], [])
      end
  end.

Definition metadata_pin_of (descriptor : PluginDescriptor) (metadata_pins : list (string * string)) :
    list SecurityFinding * option string :=
  match metadata_pins with
  | [] => ([], None)
  | (source, pin) :: _ =>
      match list_find (λ candidate : string * string, candidate.2 ≠ pin) metadata_pins with
      | Some (_, (conflict_source, conflict_pin)) =>
          ([build_security_finding Severity_High "wasm_sha256_pin_conflict" descriptor
              "multiple metadata wasm sha256 pins conflict with each other"
              (json_object [("first_source", json_str source); ("first_sha256", json_str pin);
                            ("conflict_source", json_str conflict_source);
                            ("conflict_sha256", json_str conflict_pin)])], None)
      | None => ([], Some pin)
      end
  end.

Definition policy_pin_of (descriptor : PluginDescriptor) (policy : WasmSecurityScanSpec) :
    list SecurityFinding * option string :=
  match ws_required_sha256_by_plugin policy !! pm_plugin_id (pd_manifest descriptor) with
  | Some raw_pin =>
      match normalize_wasm_sha256_pin raw_pin with
      | Ok pin => ([], Some pin)
      | Err reason =>
          ([pin_invalid descriptor "security_scan.wasm.required_sha256_by_plugin" raw_pin reason], None)
      end
  | None => ([], None)
  end.

(** [match (metadata_pin, policy_pin)] *)
Definition merge_pins (descriptor : PluginDescriptor) (policy : WasmSecurityScanSpec)
    (metadata_pin policy_pin : option string) : list SecurityFinding * option string :=
  match metadata_pin, policy_pin with
  | Some metadata_pin, Some policy_pin =>
      if bool_decide (metadata_pin = policy_pin) then ([], Some policy_pin)
      else ([build_security_finding Severity_High "wasm_sha256_pin_conflict" descriptor
               "metadata wasm sha256 pin conflicts with required_sha256_by_plugin pin"
               (json_object [("metadata_sha256", json_str metadata_pin); ("policy_sha256", json_str policy_pin)])],
            None)
  | Some metadata_pin, None => ([], Some metadata_pin)
  | None, Some policy_pin => ([], Some policy_pin)
  | None, None =>
      (if ws_require_hash_pin policy then
         [build_security_finding Severity_High "wasm_sha256_pin_missing" descriptor
            "wasm hash pin is required but missing for plugin"
            (json_object [("required_sha256_by_plugin", json_map (ws_required_sha256_by_plugin policy))])]
       else [], None)
  end.

(** [let expected_sha256 = { .. }] *)
Definition expected_sha256_of (descriptor : PluginDescriptor) (policy : WasmSecurityScanSpec) :
    list SecurityFinding * option string :=
  let pins := scan_metadata_pin descriptor <$> pin_keys in
  let '(conflicts, metadata_pin) := metadata_pin_of descriptor (mjoin pins.*2) in
  let '(invalid, policy_pin) := policy_pin_of descriptor policy in
  let '(mismatch, expected) := merge_pins descriptor policy metadata_pin policy_pin in
  (mjoin pins.*1 ++ conflicts ++ invalid ++ mismatch, expected).

(** One turn of the loop over the imports *)
Definition scan_import (descriptor : PluginDescriptor) (policy : WasmSecurityScanSpec)
    (blocked_import_prefixes : list string) (module_name : string) : list SecurityFinding :=
  let module_name_lower := to_ascii_lowercase module_name in
  (if negb (ws_allow_wasi policy) && starts_with "wasi" module_name_lower then
     [build_security_finding Severity_High "wasm_wasi_import_blocked" descriptor
        "wasi import is blocked by wasm security policy" (json_object [("import_module", json_str module_name)])]
   else [])
  ++ (if existsb (λ prefix, starts_with prefix module_name_lower) blocked_import_prefixes then
        [build_security_finding Severity_High "wasm_import_prefix_blocked" descriptor
           "wasm import module matched blocked prefix"
           (json_object [("import_module", json_str module_name);
                         ("blocked_import_prefixes", json_strs blocked_import_prefixes)])]
      else []).

(** 00 61 73 6d *)
Definition wasm_magic : string := bytes_str [0; 97; 115; 109]%N.

Definition shown (path : Path) : Value := json_str (path_display path).

(** The checks of an artifact that was read *)
Definition scan_wasm_bytes (descriptor : PluginDescriptor) (policy : WasmSecurityScanSpec)
    (blocked_import_prefixes : list string) (path : Path) (bytes : string) : list SecurityFinding :=
  let size := Z.of_nat (String.length bytes) in
  (if (ws_max_module_bytes policy <? size)%Z then
     [build_security_finding Severity_High "wasm_module_too_large" descriptor
        ("wasm module size " +:+ display size +:+ " exceeds max_module_bytes "
         +:+ display (ws_max_module_bytes policy))
        (json_object [("artifact_path", shown path); ("module_size_bytes", json_uint size);
                      ("max_module_bytes", json_uint (ws_max_module_bytes policy))])]
   else [])
  ++ (if negb (starts_with wasm_magic bytes) then
        [build_security_finding Severity_High "wasm_magic_header_invalid" descriptor
           "artifact does not contain valid wasm magic header" (json_object [("artifact_path", shown path)])]
      else
        let digest_hex := hex_lower (sh_sha256 host bytes) in
        let '(pin_findings, expected_sha256) := expected_sha256_of descriptor policy in
        pin_findings
        ++ match expected_sha256 with
           | Some expected =>
               if eq_ignore_ascii_case expected digest_hex then []
               else [build_security_finding Severity_High "wasm_sha256_mismatch" descriptor
                       "wasm sha256 does not match required pin"
                       (json_object [("expected_sha256", json_str expected); ("actual_sha256", json_str digest_hex)])]
           | None => []
           end
        ++ match parse_wasm_import_modules bytes with
           | Err error =>
               [build_security_finding Severity_High "wasm_parse_failed" descriptor
                  "wasm parser failed while reading module imports"
                  (json_object [("artifact_path", shown path); ("error", json_str error)])]
           | Ok imports =>
               flat_map (scan_import descriptor policy blocked_import_prefixes) imports
               ++ [build_security_finding Severity_Low "wasm_digest_observed" descriptor
                     "wasm artifact digest captured for audit"
                     (json_object [("artifact_path", shown path); ("sha256", json_str digest_hex);
                                   ("imports", json_strs imports)])]
           end).

Definition is_remote (artifact : string) : bool := starts_with "http://" artifact || starts_with "https://" artifact.

Definition inside_prefixes (path : Path) (prefixes : list Path) : bool :=
  bool_decide (prefixes = []) || existsb (path_starts_with path) prefixes.

(** [scan_wasm_plugin_security] *)
Definition scan_wasm_plugin_security (descriptor : PluginDescriptor) (policy : WasmSecurityScanSpec)
    (blocked_import_prefixes : list string) (allowed_path_prefixes : list Path) : list SecurityFinding :=
  match descriptor_wasm_artifact descriptor with
  | None =>
      [build_security_finding Severity_High "wasm_artifact_missing" descriptor
         "wasm plugin does not declare metadata.component/metadata.wasm_path/endpoint artifact" (JObject [])]
  | Some raw_artifact =>
      if is_remote raw_artifact then
        [build_security_finding Severity_High "wasm_remote_artifact" descriptor
           "remote wasm artifact cannot be statically verified for local hotplug safety"
           (json_object [("artifact", json_str raw_artifact)])]
      else
        let path := normalize_path_for_policy (resolve_plugin_relative_path (pd_path descriptor) raw_artifact) in
        if negb (inside_prefixes path allowed_path_prefixes) then
          [build_security_finding Severity_High "wasm_artifact_path_not_allowed" descriptor
             "wasm artifact path is outside allowed_path_prefixes"
             (json_object [("artifact_path", shown path); ("allowed_path_prefixes", JArray (shown <$> allowed_path_prefixes))])]
        else
          match sh_read host path with
          | Err error =>
              [build_security_finding Severity_High "wasm_artifact_unreadable" descriptor
                 "wasm artifact cannot be read from filesystem"
                 (json_object [("artifact_path", shown path); ("error", json_str error)])]
          | Ok bytes => scan_wasm_bytes descriptor policy blocked_import_prefixes path bytes
          end
  end.

(** [accumulate_security_findings] *)
Definition accumulate_finding (delta : SecurityScanDelta) (finding : SecurityFinding) : SecurityScanDelta :=
  let '(mkSecurityScanDelta scanned high medium low findings reason) := delta in
  match sf_severity finding with
  | Severity_High => mkSecurityScanDelta scanned (sat_add high 1) medium low (findings ++ [finding]) reason
  | Severity_Medium => mkSecurityScanDelta scanned high (sat_add medium 1) low (findings ++ [finding]) reason
  | Severity_Low => mkSecurityScanDelta scanned high medium (sat_add low 1) (findings ++ [finding]) reason
  end.

Definition accumulate_security_findings (delta : SecurityScanDelta) (findings : list SecurityFinding) :
    SecurityScanDelta := foldl accumulate_finding delta findings.

(** What is found in one descriptor *)
Definition scan_descriptor (policy : SecurityScanSpec) (process_allowlist : gset string)
    (descriptor : PluginDescriptor) : list SecurityFinding :=
  let bridge_kind := descriptor_bridge_kind descriptor in
  scan_descriptor_metadata_keywords descriptor (normalize_signal_list (ss_high_risk_metadata_keywords policy))
  ++ match bridge_kind with
     | ProcessStdio => scan_process_stdio_security descriptor process_allowlist
     | NativeFfi =>
         [build_security_finding Severity_Medium "native_ffi_review" descriptor
            "native_ffi plugin requires manual review and stronger sandboxing"
            (json_object
               [("bridge_kind", json_str (PluginBridgeKind_as_str bridge_kind));
                ("recommendation", json_str "prefer wasm_component for untrusted community plugins")])]
     | WasmComponent =>
         if ws_enabled (ss_wasm policy) then
           scan_wasm_plugin_security descriptor (ss_wasm policy)
             (normalize_signal_list (ws_blocked_import_prefixes (ss_wasm policy)))
             (normalize_allowed_path_prefixes (ws_allowed_path_prefixes (ss_wasm policy)))
         else []
     | AcpBridge | AcpRuntime | HttpJson | McpServer | UnknownBridge => []
     end.

(** One turn of the loop over the descriptors *)
Definition scan_step (policy : SecurityScanSpec) (process_allowlist : gset string) (delta : SecurityScanDelta)
    (descriptor : PluginDescriptor) : SecurityScanDelta :=
  let '(mkSecurityScanDelta scanned high medium low findings reason) := delta in
  accumulate_security_findings (mkSecurityScanDelta (sat_add scanned 1) high medium low findings reason)
    (scan_descriptor policy process_allowlist descriptor).

(** [evaluate_plugin_security_scan] *)
Definition evaluate_plugin_security_scan (report : PluginScanReport) (policy : SecurityScanSpec)
    (process_allowlist : gset string) : SecurityScanDelta :=
  let '(mkSecurityScanDelta scanned high medium low findings reason) :=
    foldl (scan_step policy process_allowlist) SecurityScanDelta_default (sr_descriptors report) in
  mkSecurityScanDelta scanned high medium low findings
    (if ss_block_on_high policy && (0 <? high)%Z
     then Some ("security scan blocked " +:+ display high +:+ " high-risk finding(s)") else reason).

(** [apply_security_scan_delta] *)
Definition apply_security_scan_delta (report : SecurityScanReport) (delta : SecurityScanDelta) : SecurityScanReport :=
  let high := sat_add (rr_high_findings report) (sd_high_findings delta) in
  let medium := sat_add (rr_medium_findings report) (sd_medium_findings delta) in
  let low := sat_add (rr_low_findings report) (sd_low_findings delta) in
  let '(blocked, reason) :=
    match sd_block_reason delta with
    | Some reason => (true, Some reason)
    | None => (rr_blocked report, rr_block_reason report)
    end in
  mkSecurityScanReport (rr_enabled report) (sat_add (rr_scanned_plugins report) (sd_scanned_plugins delta))
    (sat_add (sat_add high medium) low) high medium low blocked reason (rr_siem_export report)
    (rr_findings report ++ sd_findings delta).
End scan.

(** ** Checksums of policies (bridge_support_policy.rs) *)

Definition sort_strs (l : list string) : list string := merge_sort String.le l.

(** The derived [Ord] of [PluginBridgeKind] is the order of declaration. *)
Definition kind_index (kind : PluginBridgeKind) : nat :=
  match kind with
  | HttpJson => 0 | ProcessStdio => 1 | NativeFfi => 2 | WasmComponent => 3 | McpServer => 4 | AcpBridge => 5
  | AcpRuntime => 6 | UnknownBridge => 7
  end.

Definition kind_le (k l : PluginBridgeKind) : Prop := kind_index k ≤ kind_index l.

#[export] Instance kind_le_dec k l : Decision (kind_le k l).
Proof. unfold kind_le. apply _. Defined.

(** [canonical_security_scan_profile_signature_value] *)
Definition canonical_security_scan_profile_signature_value (signature : option SecurityProfileSignatureSpec) : Value :=
  match signature with
  | None => JNull
  | Some signature =>
      json_object [("algorithm", json_str (normalize_signal (sg_algorithm signature)));
                   ("public_key_base64", json_str (sg_public_key_base64 signature));
                   ("signature_base64", json_str (sg_signature_base64 signature))]
  end.

(** [canonical_security_scan_siem_export_value] *)
Definition canonical_security_scan_siem_export_value (export : option SecuritySiemExportSpec) : Value :=
  match export with
  | None => JNull
  | Some export =>
      json_object [("enabled", json_bool (sx_enabled export)); ("path", json_str (sx_path export));
                   ("include_findings", json_bool (sx_include_findings export));
                   ("max_findings_per_record", json_opt json_uint (sx_max_findings_per_record export));
                   ("fail_on_error", json_bool (sx_fail_on_error export))]
  end.

(** [canonical_security_scan_runtime_value] *)
Definition canonical_security_scan_runtime_value (runtime : SecurityRuntimeExecutionSpec) : Value :=
  json_object [("execute_wasm_component", json_bool (sr_execute_wasm_component runtime));
               ("allowed_path_prefixes", json_strs (sort_strs (sr_allowed_path_prefixes runtime)));
               ("max_component_bytes", json_opt json_uint (sr_max_component_bytes runtime));
               ("fuel_limit", json_opt json_uint (sr_fuel_limit runtime))].

(** The object ["wasm"] of both canonical values *)
Definition canonical_wasm_value (wasm : WasmSecurityScanSpec) : Value :=
  json_object [("enabled", json_bool (ws_enabled wasm)); ("max_module_bytes", json_uint (ws_max_module_bytes wasm));
               ("allow_wasi", json_bool (ws_allow_wasi wasm));
               ("blocked_import_prefixes", json_strs (sort_strs (ws_blocked_import_prefixes wasm)));
               ("allowed_path_prefixes", json_strs (sort_strs (ws_allowed_path_prefixes wasm)));
               ("require_hash_pin", json_bool (ws_require_hash_pin wasm));
               ("required_sha256_by_plugin", json_map (ws_required_sha256_by_plugin wasm))].

(** [canonical_security_scan_value] *)
Definition canonical_security_scan_value (security_scan : option SecurityScanSpec) : Value :=
  match security_scan with
  | None => JNull
  | Some scan =>
      json_object [("enabled", json_bool (ss_enabled scan)); ("block_on_high", json_bool (ss_block_on_high scan));
                   ("profile_path", json_opt json_str (ss_profile_path scan));
                   ("profile_sha256", json_opt json_str (ss_profile_sha256 scan));
                   ("profile_signature", canonical_security_scan_profile_signature_value (ss_profile_signature scan));
                   ("siem_export", canonical_security_scan_siem_export_value (ss_siem_export scan));
                   ("runtime", canonical_security_scan_runtime_value (ss_runtime scan));
                   ("high_risk_metadata_keywords", json_strs (sort_strs (ss_high_risk_metadata_keywords scan)));
                   ("wasm", canonical_wasm_value (ss_wasm scan))]
  end.

(** [canonical_security_scan_profile_value] *)
Definition canonical_security_scan_profile_value (profile : SecurityScanProfile) : Value :=
  json_object [("high_risk_metadata_keywords", json_strs (sort_strs (sp_high_risk_metadata_keywords profile)));
               ("wasm", canonical_wasm_value (sp_wasm profile))].

(** The value behind [bridge_support_policy_canonical_json] *)
Definition bridge_support_policy_canonical (bridge : BridgeSupportSpec) : Value :=
  json_object [("supported_bridges",
                 json_strs (PluginBridgeKind_as_str <$> merge_sort kind_le (bs_supported_bridges bridge)));
               ("supported_adapter_families", json_strs (sort_strs (bs_supported_adapter_families bridge)));
               ("enforce_supported", json_bool (bs_enforce_supported bridge));
               ("execute_process_stdio", json_bool (bs_execute_process_stdio bridge));
               ("execute_http_json", json_bool (bs_execute_http_json bridge));
               ("allowed_process_commands", json_strs (sort_strs (bs_allowed_process_commands bridge)));
               ("enforce_execution_success", json_bool (bs_enforce_execution_success bridge));
               ("security_scan", canonical_security_scan_value (bs_security_scan bridge))].

(** ** The policy of a scan (security_scan_policy.rs) *)

(** What the checks of signatures use of the base64 and ed25519 libraries *)
Record SignatureLib := mkSignatureLib {
  sl_decode : string → result string string;
  sl_key : string → result string string;
  sl_verify : string → string → string → result string unit;
}.

Section policy.
Context (host : ScanHost) (signatures : SignatureLib) (load_profile : string → result string SecurityScanProfile).

(** [bridge_support_policy_canonical_json] *)
Definition bridge_support_policy_canonical_json (bridge : BridgeSupportSpec) : string :=
  default "" (sh_to_text host (bridge_support_policy_canonical bridge)).

(** [bridge_support_policy_checksum] *)
Definition bridge_support_policy_checksum (bridge : BridgeSupportSpec) : string :=
  fnv1a64_hex (bridge_support_policy_canonical_json bridge).

(** [bridge_support_policy_sha256] *)
Definition bridge_support_policy_sha256 (bridge : BridgeSupportSpec) : string :=
  hex_lower (sh_sha256 host (bridge_support_policy_canonical_json bridge)).

(** [security_scan_profile_message] *)
Definition security_scan_profile_message (profile : SecurityScanProfile) : string :=
  default "" (sh_to_text host (canonical_security_scan_profile_value profile)).

(** [security_scan_profile_sha256] *)
Definition security_scan_profile_sha256 (profile : SecurityScanProfile) : string :=
  hex_lower (sh_sha256 host (security_scan_profile_message profile)).

Definition refuse (condition : bool) (reason : string) : result string unit :=
  if condition then Err reason else Ok ().

(** [validate_security_scan_policy] *)
Definition validate_security_scan_policy (policy : SecurityScanSpec) : result string unit :=
  let no_path := bool_decide (ss_profile_path policy = None) in
  _ ← refuse (bool_decide (is_Some (ss_profile_sha256 policy)) && no_path)
        "security scan profile_sha256 requires security_scan.profile_path to be set";
  _ ← refuse (bool_decide (is_Some (ss_profile_signature policy)) && no_path)
        "security scan profile_signature requires security_scan.profile_path to be set";
  _ ← match ss_profile_signature policy with
      | Some signature =>
          _ ← refuse (is_empty (trim (sg_public_key_base64 signature)))
                "security scan profile_signature.public_key_base64 cannot be empty";
          refuse (is_empty (trim (sg_signature_base64 signature)))
            "security scan profile_signature.signature_base64 cannot be empty"
      | None => Ok ()
      end;
  _ ← match ss_siem_export policy with
      | Some export =>
          refuse (sx_enabled export && is_empty (trim (sx_path export)))
            "security scan siem_export.path cannot be empty when enabled"
      | None => Ok ()
      end;
  refuse (sr_execute_wasm_component (ss_runtime policy)
          && bool_decide (sr_allowed_path_prefixes (ss_runtime policy) = []))
    "security scan runtime.execute_wasm_component requires runtime.allowed_path_prefixes to be configured".

(** [bytes.as_slice().try_into::<[u8; n]>()] *)
Definition exactly (n : nat) (reason bytes : string) : result string string :=
  if String.length bytes =? n then Ok bytes else Err reason.

(** [verify_security_scan_profile_signature] *)
Definition verify_security_scan_profile_signature (profile : SecurityScanProfile)
    (signature : SecurityProfileSignatureSpec) : result string unit :=
  let algorithm := normalize_signal (sg_algorithm signature) in
  _ ← refuse (negb (bool_decide (algorithm = "ed25519")))
        ("unsupported profile signature algorithm: " +:+ algorithm +:+ " (expected ed25519)");
  key_bytes ← map_err (λ error, "invalid public_key_base64: " +:+ error)
                (sl_decode signatures (trim (sg_public_key_base64 signature)));
  key_bytes ← exactly 32 "invalid ed25519 public key length (expected 32 bytes)" key_bytes;
  verifying_key ← map_err (λ error, "invalid ed25519 public key bytes: " +:+ error) (sl_key signatures key_bytes);
  signature_bytes ← map_err (λ error, "invalid signature_base64: " +:+ error)
                      (sl_decode signatures (trim (sg_signature_base64 signature)));
  signature_bytes ← exactly 64 "invalid ed25519 signature length (expected 64 bytes)" signature_bytes;
  map_err (λ error, "ed25519 verification failed: " +:+ error)
    (sl_verify signatures verifying_key (security_scan_profile_message profile) signature_bytes).

(** [bundled_security_scan_profile]: spec/config/security-scan-medium-balanced.json *)
Definition bundled_security_scan_profile : SecurityScanProfile :=
  mkSecurityScanProfile ["rm -rf"; "drop table"; "drop database"; "shell"; "unsafe"; "exec"; "system("]
    (mkWasmSecurityScanSpec true 2097152 false ["wasi"] [] false ∅).

(** [resolve_security_scan_profile] *)
Definition resolve_security_scan_profile (policy : SecurityScanSpec) : result string SecurityScanProfile :=
  match ss_profile_path policy with
  | None => Ok bundled_security_scan_profile
  | Some path =>
      match load_profile path with
      | Ok profile =>
          let actual_sha256 := security_scan_profile_sha256 profile in
          _ ← match ss_profile_sha256 policy with
              | Some expected_sha256 =>
                  refuse (negb (eq_ignore_ascii_case expected_sha256 actual_sha256))
                    ("security scan profile sha256 mismatch for " +:+ path +:+ ": expected " +:+ expected_sha256
                     +:+ ", actual " +:+ actual_sha256)
              | None => Ok ()
              end;
          _ ← match ss_profile_signature policy with
              | Some signature =>
                  map_err (λ error, "security scan profile signature verification failed for " +:+ path +:+ ": " +:+ error)
                    (verify_security_scan_profile_signature profile signature)
              | None => Ok ()
              end;
          Ok profile
      | Err error =>
          if bool_decide (is_Some (ss_profile_sha256 policy)) || bool_decide (is_Some (ss_profile_signature policy))
          then Err ("failed to load security scan profile at " +:+ path
                    +:+ " while profile integrity is pinned: " +:+ error)
          else Ok bundled_security_scan_profile
      end
  end.

(** The fields a policy takes from its profile when it leaves them empty *)
Definition with_profile (policy : SecurityScanSpec) (profile : SecurityScanProfile) : SecurityScanSpec :=
  let own := ss_wasm policy in
  let other := sp_wasm profile in
  mkSecurityScanSpec (ss_enabled policy) (ss_block_on_high policy) (ss_profile_path policy) (ss_profile_sha256 policy)
    (ss_profile_signature policy) (ss_siem_export policy) (ss_runtime policy)
    (match ss_high_risk_metadata_keywords policy with
     | [] => sp_high_risk_metadata_keywords profile
     | keywords => keywords
     end)
    (mkWasmSecurityScanSpec (ws_enabled own)
       (if (ws_max_module_bytes own =? 0)%Z then ws_max_module_bytes other else ws_max_module_bytes own)
       (ws_allow_wasi own)
       (match ws_blocked_import_prefixes own with [] => ws_blocked_import_prefixes other | l => l end)
       (match ws_allowed_path_prefixes own with [] => ws_allowed_path_prefixes other | l => l end)
       (ws_require_hash_pin own)
       (if bool_decide (ws_required_sha256_by_plugin own = ∅) then ws_required_sha256_by_plugin other
        else ws_required_sha256_by_plugin own)).

(** [bridge_support.as_ref().filter(|bridge| bridge.enabled)] *)
Definition enabled_bridge (bridge_support : option BridgeSupportSpec) : option BridgeSupportSpec :=
  match bridge_support with Some bridge => if bs_enabled bridge then Some bridge else None | None => None end.

(** [security_scan_policy] *)
Definition security_scan_policy (bridge_support : option BridgeSupportSpec) :
    result string (option SecurityScanSpec) :=
  match enabled_bridge bridge_support ≫= bs_security_scan with
  | None => Ok None
  | Some policy =>
      if negb (ss_enabled policy) then Ok None
      else
        _ ← validate_security_scan_policy policy;
        profile ← resolve_security_scan_profile policy;
        Ok (Some (with_profile policy profile))
  end.

(** [value.trim().to_ascii_lowercase()] of the commands that are not blank *)
Definition command_allowlist (commands : list string) : gset string :=
  list_to_set (filter (λ value, is_empty value = false) (normalize_signal <$> commands)).

(** [security_scan_process_allowlist] *)
Definition security_scan_process_allowlist (bridge_support : option BridgeSupportSpec) : gset string :=
  match enabled_bridge bridge_support with
  | Some bridge => command_allowlist (bs_allowed_process_commands bridge)
  | None => ∅
  end.
End policy.

(** * What the scan guarantees *)

(** ** Lower-case strings *)
Definition lowered (s : string) : Prop := to_ascii_lowercase s = s.

Lemma lowered_app s t : lowered (s +:+ t) ↔ lowered s ∧ lowered t.
Proof.
  unfold lowered, to_ascii_lowercase. rewrite map_str_app. split; [|by intros [-> ->]].
  intros H. by apply app_inj_len_str in H; [|by rewrite length_map_str].
Qed.

Lemma lowered_trim s : lowered s → lowered (trim s).
Proof.
  intros H. unfold trim. destruct (trim_start_end_prefix (trim_start s)) as [post E].
  destruct (trim_with_suffix ws2 ws3 s) as [pre E']. rewrite E' in H. apply lowered_app in H as [_ H].
  fold (trim_start s) in H. rewrite E in H. by apply lowered_app in H as [? _].
Qed.

Lemma to_ascii_lowercase_lowered s : lowered (to_ascii_lowercase s).
Proof. apply to_ascii_lowercase_idemp. Qed.

Lemma hex_digit_lowered n : (0 ≤ n < 16)%Z → lower_ascii (hex_digit n) = hex_digit n.
Proof.
  intros H. destruct n as [|p|p]; [done| |lia]. do 4 (destruct p as [p|p|]; try done); lia.
Qed.

Lemma hex_digits_lowered k n : lowered (hex_digits k n).
Proof.
  revert n. induction k as [|k IH]; intros n; [done|]. cbn [hex_digits]. apply lowered_app. split; [apply IH|].
  unfold lowered. cbn. rewrite hex_digit_lowered by (apply Z.mod_pos_bound; lia). done.
Qed.

Lemma hex_lower_lowered bytes : lowered (hex_lower bytes).
Proof.
  unfold hex_lower. induction (String.list_ascii_of_string bytes) as [|a l IH]; [done|]. cbn [fmap list_fmap].
  destruct l as [|b l]; [apply hex_digits_lowered|]. cbn [fmap list_fmap String.concat] in *.
  apply lowered_app. split; [apply hex_digits_lowered|done].
Qed.

Lemma normalized_pin_lowered raw pin : normalize_wasm_sha256_pin raw = Ok pin → lowered pin.
Proof.
  unfold normalize_wasm_sha256_pin. cbv zeta.
  destruct (strip_prefix "sha256:" (to_ascii_lowercase (trim raw))) as [rest|] eqn:E; cbn [default]; intros H.
  all: destruct (is_empty (trim raw)); [done|]; destruct (negb (_ =? 64) || _); [done|]; injection H as <-.
  all: apply lowered_trim.
  2: apply to_ascii_lowercase_lowered.
  apply strip_prefix_Some in E. pose proof (to_ascii_lowercase_lowered (trim raw)) as Hl. rewrite E in Hl.
  by apply lowered_app in Hl as [_ ?].
Qed.

Lemma eq_ignore_lowered s t : lowered s → lowered t → eq_ignore_ascii_case s t = true ↔ s = t.
Proof. unfold lowered, eq_ignore_ascii_case. intros -> ->. apply bool_decide_eq_true. Qed.

Section vetted.
Context (host : ScanHost).
Abbreviation digest_of bytes := (hex_lower (sh_sha256 host bytes)).

Definition no_high (findings : list SecurityFinding) : Prop := Forall (λ f, sf_severity f ≠ Severity_High) findings.

Lemma no_high_app l k : no_high (l ++ k) ↔ no_high l ∧ no_high k.
Proof. apply Forall_app. Qed.

Lemma no_high_nil : no_high [] ↔ True.
Proof. split; [done|constructor]. Qed.

Lemma no_high_one category d message evidence :
  no_high [build_security_finding host Severity_High category d message evidence] ↔ False.
Proof. split; [|done]. intros H. by inversion H. Qed.

Lemma no_high_if (b : bool) category d message evidence :
  no_high (if b then [build_security_finding host Severity_High category d message evidence] else []) ↔ b = false.
Proof. destruct b; rewrite ?no_high_nil, ?no_high_one; naive_solver. Qed.

(** ** Pins *)

(** The pins as they are written: of the metadata, and of the policy *)
Definition metadata_raw_pins (d : PluginDescriptor) : list string :=
  omap (λ key, pm_metadata (pd_manifest d) !! key) pin_keys.
Definition raw_pins (policy : WasmSecurityScanSpec) (d : PluginDescriptor) : list string :=
  metadata_raw_pins d ++ option_list (ws_required_sha256_by_plugin policy !! pm_plugin_id (pd_manifest d)).

(** The loop over the keys complains exactly about the malformed pins, and
    collects the others. *)
Lemma scan_metadata_pins d keys pins :
  no_high (mjoin (scan_metadata_pin host d <$> keys).*1) ∧ (mjoin (scan_metadata_pin host d <$> keys).*2).*2 = pins ↔
  normalize_wasm_sha256_pin <$> omap (λ key, pm_metadata (pd_manifest d) !! key) keys = Ok <$> pins.
Proof.
  revert pins. induction keys as [|key keys IH]; intros pins.
  { split; [by intros [_ <-]|]. destruct pins; [|done]. intros _. split; [constructor|done]. }
  rewrite !fmap_cons. cbn [mjoin list_join omap list_omap]. rewrite no_high_app, fmap_app.
  unfold scan_metadata_pin at 1 3. destruct (pm_metadata (pd_manifest d) !! key) as [raw|].
  - rewrite fmap_cons. destruct (normalize_wasm_sha256_pin raw) as [pin|reason]; cbn [fst snd fmap list_fmap app].
    + rewrite no_high_nil. destruct pins as [|pin' pins]; [naive_solver|]. rewrite fmap_cons. specialize (IH pins).
      split; [intros [[_ H] [= -> H']]; f_equal; by apply IH|intros [= -> H]; by apply IH in H as [? <-]].
    + unfold pin_invalid. rewrite no_high_one. destruct pins; naive_solver.
  - rewrite no_high_nil. cbn [fst snd fmap list_fmap app]. rewrite <-IH. naive_solver.
Qed.

Lemma metadata_pin_exact d (pins : list (string * string)) :
  match pins.*2 with
  | [] => metadata_pin_of host d pins = ([], None)
  | pin :: rest =>
      (no_high (metadata_pin_of host d pins).1 → Forall (λ q, q = pin) rest) ∧
      (Forall (λ q, q = pin) rest → metadata_pin_of host d pins = ([], Some pin))
  end.
Proof.
  destruct pins as [|[source pin] rest]; [done|]. rewrite fmap_cons. unfold metadata_pin_of.
  destruct (list_find _ _) as [[i [csource cpin]]|] eqn:E.
  - apply list_find_Some in E as (Hi & Hne & _). cbn [fst]. rewrite no_high_one. split; [done|]. intros Hall.
    destruct i as [|i]; [by injection Hi as <- <-|]. cbn in Hi. apply list_elem_of_lookup_2 in Hi.
    apply Forall_fmap in Hall. by eapply Forall_forall in Hall; [|exact Hi].
  - apply list_find_None in E. split; [|done]. intros _.
    apply Forall_fmap. inversion_clear E as [|? ? _ Hrest]. eapply Forall_impl; [exact Hrest|]. cbn.
    intros [s q] Hq. by apply dec_stable in Hq.
Qed.

(** [o] is what a list of written pins says: nothing, or the pin all of them are *)
Definition agree (raws : list string) (o : option string) : Prop :=
  Forall (λ raw, ∃ pin, o = Some pin ∧ normalize_wasm_sha256_pin raw = Ok pin) raws ∧ (is_Some o → raws ≠ []).

Lemma agree_digest raws digest :
  Forall (λ raw, normalize_wasm_sha256_pin raw = Ok digest) raws →
  ∃ o, agree raws o ∧ (∀ p, o = Some p → p = digest) ∧ (raws ≠ [] → is_Some o).
Proof.
  intros H. exists (if bool_decide (raws = []) then None else Some digest). unfold agree.
  case_bool_decide as E; [subst; split_and!; naive_solver|]. split_and!; try naive_solver.
  eapply Forall_impl; [exact H|]. eauto.
Qed.

Lemma agree_lowered raws o p : agree raws o → o = Some p → lowered p.
Proof.
  intros [H Hne] ->. destruct raws as [|raw raws]; [by destruct Hne|].
  inversion H as [|? ? (q & [= <-] & Hq)]. by eapply normalized_pin_lowered.
Qed.

Lemma agree_Forall raws o digest : agree raws o → (∀ p, o = Some p → p = digest) →
  Forall (λ raw, normalize_wasm_sha256_pin raw = Ok digest) raws ∧ (is_Some o → raws ≠ []).
Proof.
  intros [H Hne] Hp. split; [|done]. eapply Forall_impl; [exact H|]. intros raw (p & -> & ?).
  by rewrite <-(Hp p eq_refl).
Qed.

(** Both sources of pins complain unless their pins agree. *)
Lemma metadata_pins_agree d (l := mjoin (scan_metadata_pin host d <$> pin_keys).*2) :
  let complaints := mjoin (scan_metadata_pin host d <$> pin_keys).*1 ++ (metadata_pin_of host d l).1 in
  let mpin := (metadata_pin_of host d l).2 in
  (no_high complaints → agree (metadata_raw_pins d) mpin) ∧
  (∀ o, agree (metadata_raw_pins d) o → no_high complaints ∧ mpin = o).
Proof.
  cbv zeta. unfold metadata_raw_pins. pose proof (scan_metadata_pins d pin_keys) as Hl. fold l in Hl.
  set (raws := omap _ pin_keys) in *. pose proof (metadata_pin_exact d l) as Hm. split.
  - intros [H1 H2]%no_high_app. pose proof (proj1 (Hl _) (conj H1 eq_refl)) as Hraws. destruct (l.*2) as [|pin rest].
    + apply fmap_nil_inv in Hraws as ->. rewrite Hm. split; [constructor|]. by intros [].
    + destruct Hm as [Ha Hb]. rewrite (Hb (Ha H2)). split; [|intros _ E; by rewrite E in Hraws].
      assert (∀ raws pins, normalize_wasm_sha256_pin <$> raws = Ok <$> pins → Forall (λ q, q = pin) pins →
        Forall (λ raw, ∃ p, Some pin = Some p ∧ normalize_wasm_sha256_pin raw = Ok p) raws) as Hgen.
      { clear. induction raws as [|raw raws IH]; intros pins Hr Hp; [constructor|]. destruct pins as [|p pins]; [done|].
        injection Hr as Hr H. inversion Hp; subst. constructor; eauto. }
      by apply (Hgen _ (pin :: rest)); [|constructor; [|apply Ha]].
  - intros o [Hall Hne]. rewrite no_high_app. destruct raws as [|raw raws'] eqn:Er.
    + destruct (proj2 (Hl []) eq_refl) as [H1 H2]. rewrite H2 in Hm. rewrite Hm. split; [split; [done|constructor]|].
      destruct o; [by destruct Hne|done].
    + assert (∃ p, o = Some p) as [p ->] by (inversion Hall; naive_solver).
      assert (normalize_wasm_sha256_pin <$> raw :: raws' = Ok <$> replicate (length (raw :: raws')) p) as Hrep.
      { clear -Hall. induction Hall as [|x xs (q & [= <-] & Hq) _ IH]; [done|]. cbn. rewrite Hq. f_equal. exact IH. }
      apply Hl in Hrep as [H1 H2]. rewrite H2 in Hm. cbn [replicate length] in Hm.
      rewrite (proj2 Hm) by (by apply Forall_replicate). split; [split; [done|constructor]|done].
Qed.

Lemma policy_pins_agree policy d
    (raws := option_list (ws_required_sha256_by_plugin policy !! pm_plugin_id (pd_manifest d))) :
  (no_high (policy_pin_of host d policy).1 → agree raws (policy_pin_of host d policy).2) ∧
  (∀ o, agree raws o → no_high (policy_pin_of host d policy).1 ∧ (policy_pin_of host d policy).2 = o).
Proof.
  unfold raws, policy_pin_of. destruct (_ !! _) as [raw|]; cbn [option_list].
  - destruct (normalize_wasm_sha256_pin raw) as [pin|reason] eqn:E; cbn [fst snd].
    + split; [intros _; split; [|done]; repeat constructor; eauto|]. intros o [H _]. split; [constructor|].
      inversion H as [|? ? (p & -> & Hp)]. congruence.
    + unfold pin_invalid. rewrite no_high_one. split; [done|]. intros o [H _]. inversion H as [|? ? (p & _ & Hp)]. congruence.
  - split; [intros _; split; [constructor|by intros []]|]. intros o [_ Hne]. split; [constructor|].
    destruct o; [by destruct Hne|done].
Qed.

Lemma merge_pins_exact d policy mpin ppin digest :
  (∀ p, mpin = Some p ∨ ppin = Some p → lowered p) → lowered digest →
  (no_high (merge_pins host d policy mpin ppin).1 ∧
   ∀ e, (merge_pins host d policy mpin ppin).2 = Some e → eq_ignore_ascii_case e digest = true) ↔
  (∀ p, mpin = Some p ∨ ppin = Some p → p = digest) ∧
  (ws_require_hash_pin policy = true → is_Some mpin ∨ is_Some ppin).
Proof.
  intros Hlow Hdig. assert (∀ p, mpin = Some p ∨ ppin = Some p → eq_ignore_ascii_case p digest = true ↔ p = digest) as Heq.
  { intros p Hp. by apply eq_ignore_lowered; [apply Hlow|]. }
  destruct mpin as [m|], ppin as [p|]; cbn [merge_pins fst snd].
  - pose proof (Heq m (or_introl eq_refl)). pose proof (Heq p (or_intror eq_refl)).
    case_bool_decide; cbn [fst snd]; rewrite ?no_high_nil, ?no_high_one; naive_solver.
  - pose proof (Heq m (or_introl eq_refl)). rewrite no_high_nil. naive_solver.
  - pose proof (Heq p (or_intror eq_refl)). rewrite no_high_nil. naive_solver.
  - rewrite no_high_if, is_Some_alt. destruct (ws_require_hash_pin policy); naive_solver.
Qed.

(** The pins are accepted exactly when all of them are well formed and agree
    with the digest, and one is there if the policy asks for one. *)
Lemma pins_exact policy d digest : lowered digest →
  (no_high (expected_sha256_of host d policy).1 ∧
   ∀ e, (expected_sha256_of host d policy).2 = Some e → eq_ignore_ascii_case e digest = true) ↔
  Forall (λ raw, normalize_wasm_sha256_pin raw = Ok digest) (raw_pins policy d) ∧
  (ws_require_hash_pin policy = true → raw_pins policy d ≠ []).
Proof.
  intros Hdig. unfold expected_sha256_of, raw_pins.
  destruct (metadata_pins_agree d) as [Hm Hm'], (policy_pins_agree policy d) as [Hp Hp'].
  set (l := mjoin (scan_metadata_pin host d <$> pin_keys).*2) in *.
  set (praws := option_list (_ !! _)) in *. set (mraws := metadata_raw_pins d) in *.
  destruct (metadata_pin_of host d l) as [conflicts mpin], (policy_pin_of host d policy) as [invalid ppin].
  pose proof (λ H, merge_pins_exact d policy mpin ppin digest H Hdig) as Hmerge.
  destruct (merge_pins host d policy mpin ppin) as [mismatch expected]. cbn [fst snd] in *.
  rewrite !no_high_app, Forall_app. split.
  - intros [(H1 & H2 & H3 & H4) He]. specialize (Hm (proj2 (no_high_app _ _) (conj H1 H2))). specialize (Hp H3).
    destruct (proj1 (Hmerge ltac:(intros p [?|?]; eauto using agree_lowered)) (conj H4 He)) as [Hd Hreq].
    destruct (agree_Forall _ _ digest Hm) as [Fm Nm]; [naive_solver|].
    destruct (agree_Forall _ _ digest Hp) as [Fp Np]; [naive_solver|].
    split; [done|]. intros Hr E. apply app_eq_nil in E as [E1 E2]. destruct (Hreq Hr); naive_solver.
  - intros [[Fm Fp] Hreq]. destruct (agree_digest _ _ Fm) as (o & Ho & Hod & Hos), (agree_digest _ _ Fp) as (o' & Ho' & Hod' & Hos').
    destruct (Hm' o Ho) as [[H1 H2]%no_high_app ->], (Hp' o' Ho') as [H3 ->].
    destruct (proj2 (Hmerge ltac:(intros p [?|?]; eauto using agree_lowered))) as [H4 He]; [|done].
    split; [naive_solver|]. intros Hr. specialize (Hreq Hr). destruct mraws; [|by left; apply Hos].
    destruct praws; [done|]. by right; apply Hos'.
Qed.

(** ** Modules *)

(** The path a scanned artifact is read from *)
Definition scanned_path (d : PluginDescriptor) (raw : string) : Path :=
  normalize_path_for_policy host (resolve_plugin_relative_path (pd_path d) raw).

(** What a module must be to pass *)
Record module_vetted (policy : SecurityScanSpec) (d : PluginDescriptor) (bytes : string) : Prop := {
  mv_size : (Z.of_nat (String.length bytes) ≤ ws_max_module_bytes (ss_wasm policy))%Z;
  mv_magic : ∃ rest, bytes = wasm_magic +:+ rest;
  mv_pins : Forall (λ raw, normalize_wasm_sha256_pin raw = Ok (digest_of bytes)) (raw_pins (ss_wasm policy) d);
  mv_pinned : ws_require_hash_pin (ss_wasm policy) = true → raw_pins (ss_wasm policy) d ≠ [];
  mv_imports : ∃ imports, parse_wasm_import_modules host bytes = Ok imports ∧
    ∀ name, name ∈ imports →
      (ws_allow_wasi (ss_wasm policy) = true ∨ starts_with "wasi" (to_ascii_lowercase name) = false) ∧
      ∀ prefix, prefix ∈ normalize_signal_list (ws_blocked_import_prefixes (ss_wasm policy)) →
        starts_with prefix (to_ascii_lowercase name) = false;
}.

Lemma imports_exact d policy blocked imports :
  no_high (flat_map (scan_import host d policy blocked) imports) ↔
  ∀ name, name ∈ imports →
    (ws_allow_wasi policy = true ∨ starts_with "wasi" (to_ascii_lowercase name) = false) ∧
    ∀ prefix, prefix ∈ blocked → starts_with prefix (to_ascii_lowercase name) = false.
Proof.
  induction imports as [|name imports IH]; cbn [flat_map].
  { rewrite no_high_nil. set_solver. }
  rewrite no_high_app, IH. setoid_rewrite elem_of_cons. unfold scan_import. rewrite no_high_app, !no_high_if.
  rewrite andb_false_iff, negb_false_iff.
  assert (existsb (λ prefix, starts_with prefix (to_ascii_lowercase name)) blocked = false ↔
    ∀ prefix, prefix ∈ blocked → starts_with prefix (to_ascii_lowercase name) = false) as ->.
  { rewrite <-not_true_iff_false, existsb_exists. setoid_rewrite <-list_elem_of_In. setoid_rewrite <-not_true_iff_false.
    split; [intros H prefix Hp Hs; by apply H; exists prefix|]. intros H (prefix & Hp & Hs). by apply (H prefix). }
  split.
  - intros [[Hw Hb] H] name' [->|Hin]; [done|by apply H].
  - intros H. split; [by apply H; left|]. intros name' Hin. apply H. by right.
Qed.

Lemma no_high_mismatch expected digest category d message (evidence : string → Value) :
  no_high (match expected with
           | Some e => if eq_ignore_ascii_case e digest then []
                       else [build_security_finding host Severity_High category d message (evidence e)]
           | None => []
           end) ↔ ∀ e, expected = Some e → eq_ignore_ascii_case e digest = true.
Proof.
  destruct expected as [e|]; [|rewrite no_high_nil; split; done].
  destruct (eq_ignore_ascii_case e digest) eqn:E; rewrite ?no_high_nil, ?no_high_one; split; try done.
  - by intros _ e' [= <-].
  - intros H. by rewrite (H e eq_refl) in E.
Qed.

Lemma module_exact policy d path bytes :
  no_high (scan_wasm_bytes host d (ss_wasm policy)
             (normalize_signal_list (ws_blocked_import_prefixes (ss_wasm policy))) path bytes) ↔
  module_vetted policy d bytes.
Proof.
  unfold scan_wasm_bytes. rewrite no_high_app, no_high_if, Z.ltb_ge.
  destruct (starts_with wasm_magic bytes) eqn:Em; cbn [negb].
  2: { rewrite no_high_one. split; [by intros []|]. intros [_ Hm%starts_with_iff _ _ _]. congruence. }
  pose proof (pins_exact (ss_wasm policy) d (digest_of bytes) (hex_lower_lowered _)) as Hp.
  destruct (expected_sha256_of host d (ss_wasm policy)) as [findings expected]. cbn [fst snd] in Hp.
  rewrite !no_high_app, (no_high_mismatch expected (digest_of bytes)). apply starts_with_iff in Em.
  destruct (parse_wasm_import_modules host bytes) as [imports|error] eqn:Ei.
  - rewrite no_high_app, imports_exact. split.
    + intros (Hs & Hf & He & Hi & _). destruct (proj1 Hp (conj Hf He)) as [Hpins Hreq].
      exact (Build_module_vetted _ _ _ Hs Em Hpins Hreq (ex_intro _ imports (conj Ei Hi))).
    + intros [Hs _ Hpins Hreq (imports' & Ei' & Hi)]. rewrite Ei in Ei'. injection Ei' as <-.
      destruct (proj2 Hp (conj Hpins Hreq)) as [Hf He].
      split; [exact Hs|]. split; [exact Hf|]. split; [exact He|]. split; [exact Hi|]. by constructor; [|constructor].
  - rewrite no_high_one. split; [by intros (_ & _ & _ & [])|]. intros [_ _ _ _ (imports & Hi & _)]. congruence.
Qed.

(** A module that is fit to load: it is declared, local, inside the allowed
    prefixes, readable and vetted. *)
Definition wasm_vetted (policy : SecurityScanSpec) (d : PluginDescriptor) : Prop :=
  ∃ raw bytes, descriptor_wasm_artifact d = Some raw ∧ is_remote raw = false ∧
    inside_prefixes (scanned_path d raw)
      (normalize_allowed_path_prefixes host (ws_allowed_path_prefixes (ss_wasm policy))) = true ∧
    sh_read host (scanned_path d raw) = Ok bytes ∧ module_vetted policy d bytes.

(** What a plugin must be to pass: the command of a process plugin, if it names
    one, is allowed; and a module, if modules are scanned at all, is fit to load. *)
Definition plugin_vetted (policy : SecurityScanSpec) (allowlist : gset string) (d : PluginDescriptor) : Prop :=
  match descriptor_bridge_kind d with
  | ProcessStdio =>
      ∀ command, pm_metadata (pd_manifest d) !! "command" = Some command →
        is_process_command_allowed command allowlist = true
  | WasmComponent => ws_enabled (ss_wasm policy) = true → wasm_vetted policy d
  | _ => True
  end.

Lemma wasm_exact policy d :
  no_high (scan_wasm_plugin_security host d (ss_wasm policy)
    (normalize_signal_list (ws_blocked_import_prefixes (ss_wasm policy)))
    (normalize_allowed_path_prefixes host (ws_allowed_path_prefixes (ss_wasm policy)))) ↔ wasm_vetted policy d.
Proof.
  unfold scan_wasm_plugin_security, wasm_vetted. destruct (descriptor_wasm_artifact d) as [raw|].
  2: { rewrite no_high_one. split; [done|]. by intros (? & ? & ? & _). }
  destruct (is_remote raw) eqn:Er.
  { rewrite no_high_one. split; [done|]. intros (? & ? & [= <-] & ? & _). congruence. }
  fold (scanned_path d raw). destruct (inside_prefixes (scanned_path d raw) _) eqn:Ep; cbn [negb].
  2: { rewrite no_high_one. split; [done|]. intros (? & ? & [= <-] & _ & ? & _). congruence. }
  destruct (sh_read host (scanned_path d raw)) as [bytes|error] eqn:Eb.
  - rewrite module_exact. split; [by exists raw, bytes|]. intros (? & ? & [= <-] & _ & _ & Hb & ?). congruence.
  - rewrite no_high_one. split; [done|]. intros (? & ? & [= <-] & _ & _ & Hb & _). congruence.
Qed.

Lemma descriptor_exact policy allowlist d :
  no_high (scan_descriptor host policy allowlist d) ↔ plugin_vetted policy allowlist d.
Proof.
  unfold scan_descriptor, plugin_vetted. rewrite no_high_app.
  assert (∀ keywords, no_high (scan_descriptor_metadata_keywords host d keywords)) as Hk.
  { intros keywords. apply Forall_fmap. by apply Forall_true. }
  destruct (descriptor_bridge_kind d); rewrite ?no_high_nil; try by (split; [done|]; intros _; split).
  - unfold scan_process_stdio_security. destruct (_ !! "command") as [command|].
    + destruct (is_process_command_allowed command allowlist) eqn:E; rewrite ?no_high_nil, ?no_high_one.
      * split; [by intros _ command' [= <-]|]. done.
      * split; [by intros []|]. intros H. by rewrite (H command eq_refl) in E.
    + split; [done|]. intros _. split; [apply Hk|]. by constructor; [|constructor].
  - split; [done|]. intros _. split; [apply Hk|]. by constructor; [|constructor].
  - destruct (ws_enabled (ss_wasm policy)); [rewrite wasm_exact; split; [by intros [_ ?]|auto]|by rewrite no_high_nil].
Qed.
(** ** The whole scan *)

(** Counting: high findings are counted, and nothing else blocks. *)
Lemma accumulate_high delta findings : (0 ≤ sd_high_findings delta)%Z →
  let delta' := accumulate_security_findings delta findings in
  (0 ≤ sd_high_findings delta')%Z ∧
  ((sd_high_findings delta' = 0)%Z ↔ (sd_high_findings delta = 0)%Z ∧ no_high findings) ∧
  sd_findings delta' = sd_findings delta ++ findings ∧ sd_block_reason delta' = sd_block_reason delta.
Proof.
  unfold accumulate_security_findings. revert delta. induction findings as [|f findings IH]; intros delta H0; cbn [foldl].
  { rewrite app_nil_r, no_high_nil. split_and!; [done|tauto|done|done]. }
  destruct (IH (accumulate_finding delta f)) as (H1 & H2 & H3 & H4).
  { destruct delta. unfold accumulate_finding. destruct (sf_severity f); cbn in *; unfold sat_add, u64_max; lia. }
  rewrite H2, H3, H4. unfold no_high. rewrite Forall_cons. fold (no_high findings).
  split; [exact H1|]. clear H1 H2 H3 H4. destruct delta as [sc hi me lo fi re]. unfold accumulate_finding. cbn in H0.
  destruct (sf_severity f) eqn:Es; cbn [sd_high_findings sd_findings sd_block_reason]; rewrite <-app_assoc;
    (split; [|done]).
  1,2: naive_solver.
  split; [intros [H _]; unfold sat_add, u64_max in H; lia|naive_solver].
Qed.

Lemma scan_fold policy allowlist ds delta : (0 ≤ sd_high_findings delta)%Z →
  let delta' := foldl (scan_step host policy allowlist) delta ds in
  (0 ≤ sd_high_findings delta')%Z ∧
  ((sd_high_findings delta' = 0)%Z ↔ (sd_high_findings delta = 0)%Z ∧ Forall (plugin_vetted policy allowlist) ds) ∧
  sd_findings delta' = sd_findings delta ++ flat_map (scan_descriptor host policy allowlist) ds ∧
  sd_block_reason delta' = sd_block_reason delta.
Proof.
  revert delta. induction ds as [|d ds IH]; intros delta H0; cbn [foldl flat_map].
  { rewrite app_nil_r. split_and!; [done|split; [|tauto]; intros; split; [done|constructor]|done|done]. }
  destruct delta as [sc hi me lo fi re]. unfold scan_step at 2 4 6 8.
  destruct (accumulate_high (mkSecurityScanDelta (sat_add sc 1) hi me lo fi re) (scan_descriptor host policy allowlist d) H0)
    as (H1 & H2 & H3 & H4).
  destruct (IH _ H1) as (H5 & H6 & H7 & H8). rewrite H6, H7, H8, H2, H3, H4, descriptor_exact, Forall_cons. cbn.
  rewrite app_assoc. split_and!; [done|tauto|done|done].
Qed.

(** C31. The scan blocks exactly the sets with a plugin it objects to. With
    blocking switched off, nothing is blocked. With blocking on, a set of plugins
    passes if and only if each of them does: a process plugin that names a
    command only when that command is on the allow list (one that names none
    passes); a WebAssembly plugin, where the scan of modules is enabled, only
    when its module is declared, local, inside the allowed prefixes, readable,
    not too large, has the magic number, matches every pin of metadata and policy
    (and has one if one is required) and imports nothing that is blocked (where
    the scan of modules is disabled it passes); plugins of any other bridge
    always pass. *)
Theorem scan_blocks_exactly_unvetted report policy allowlist :
  sd_block_reason (evaluate_plugin_security_scan host report policy allowlist) = None ↔
  (ss_block_on_high policy = true → Forall (plugin_vetted policy allowlist) (sr_descriptors report)).
Proof.
  unfold evaluate_plugin_security_scan.
  destruct (scan_fold policy allowlist (sr_descriptors report) SecurityScanDelta_default) as (H0 & H1 & _ & H2); [done|].
  destruct (foldl _ _ _) as [sc hi me lo fi re]. cbn in *. subst re.
  destruct (ss_block_on_high policy); cbn [andb]; [|naive_solver]. destruct (Z.ltb_spec 0 hi).
  - split; [done|]. intros H3. specialize (H3 eq_refl). assert (hi = 0)%Z by (apply H1; tauto). lia.
  - split; [|done]. intros _ _. apply H1. lia.
Qed.
End vetted.
