(* ===== verification/SpecBridge.v ===== *)
(** * SpecBridge: running plugins (spec/src/spec_runtime.rs with
    spec_runtime/wasm_cache.rs, wasm_runtime_policy.rs, process_stdio_bridge.rs
    and http_json_bridge.rs)

    A connector of the catalog answers a command through the bridge of its
    provider: it plans the call and, where the runtime policy says so, sends an
    HTTP request, talks to a process over standard input and output, or runs
    a WebAssembly module. Compiled modules are kept in a cache with a limit on
    entries and on bytes.

    The file system, the WebAssembly engine, the HTTP client and the operations
    on child processes are parameters. *)
From S2P Require Import Prelude RustStr Contracts Json Errors Integration Fs Plugin PluginIR Bootstrap.
From S2P Require Import Awareness Paths Protocol SpecApproval SpecScan.
From Stdlib Require Import Ascii.

(** ** The module cache (wasm_cache.rs) *)
Record WasmArtifactFileIdentity := mkWasmArtifactFileIdentity {
  fi_device_id : Z;
  fi_inode : Z;
  fi_ctime_seconds : Z;
  fi_ctime_nanoseconds : Z;
}.

#[export] Instance WasmArtifactFileIdentity_eq_dec : EqDecision WasmArtifactFileIdentity.
Proof. solve_decision. Defined.

Record WasmModuleCacheKey := mkWasmModuleCacheKey {
  ck_artifact_path : Path;
  ck_module_size_bytes : Z;
  ck_artifact_modified_unix_ns : option Z;
  ck_artifact_file_identity : option WasmArtifactFileIdentity;
  ck_expected_sha256 : option string;
  ck_fuel_enabled : bool;
}.

#[export] Instance WasmModuleCacheKey_eq_dec : EqDecision WasmModuleCacheKey.
Proof. solve_decision. Defined.

Record WasmModuleCacheLookup := mkWasmModuleCacheLookup {
  cl_hit : bool;
  cl_inserted : bool;
  cl_evicted_entries : Z;
  cl_cache_len : Z;
  cl_cache_capacity : Z;
  cl_cache_total_module_bytes : Z;
  cl_cache_max_bytes : Z;
}.

Section cache.
Context {M : Type}.

Record CachedWasmModule := mkCachedWasmModule { cm_module : M; cm_artifact_sha256 : option string }.

Record WasmModuleCacheEntry := mkWasmModuleCacheEntry { we_module : CachedWasmModule; we_module_size_bytes : Z }.

(** The [HashMap] is an association list without repeated keys: only lookups,
    removals and the number of entries are observed. *)
Record WasmModuleCache := mkWasmModuleCache {
  wc_order : list WasmModuleCacheKey;
  wc_entries : list (WasmModuleCacheKey * WasmModuleCacheEntry);
  wc_total_module_bytes : Z;
}.

Definition WasmModuleCache_default : WasmModuleCache := mkWasmModuleCache [] [] 0.

Definition entry_get (key : WasmModuleCacheKey) (entries : list (WasmModuleCacheKey * WasmModuleCacheEntry)) :
    option WasmModuleCacheEntry :=
  snd <$> List.find (λ p, bool_decide (p.1 = key)) entries.
Definition entry_remove (key : WasmModuleCacheKey) (entries : list (WasmModuleCacheKey * WasmModuleCacheEntry)) :
    list (WasmModuleCacheKey * WasmModuleCacheEntry) := filter (λ p, p.1 ≠ key) entries.

(** [touch]: removes the first occurrence of the key and appends it *)
Definition order_remove (key : WasmModuleCacheKey) (order : list WasmModuleCacheKey) : list WasmModuleCacheKey :=
  match list_find (λ candidate, candidate = key) order with
  | Some (position, _) => take position order ++ drop (S position) order
  | None => order
  end.
Definition touch (key : WasmModuleCacheKey) (cache : WasmModuleCache) : WasmModuleCache :=
  mkWasmModuleCache (order_remove key (wc_order cache) ++ [key]) (wc_entries cache) (wc_total_module_bytes cache).

(** [remove_by_key] *)
Definition remove_by_key (key : WasmModuleCacheKey) (cache : WasmModuleCache) : bool * WasmModuleCache :=
  let order := filter (λ candidate, candidate ≠ key) (wc_order cache) in
  match entry_get key (wc_entries cache) with
  | None => (false, mkWasmModuleCache order (wc_entries cache) (wc_total_module_bytes cache))
  | Some removed =>
      (true, mkWasmModuleCache order (entry_remove key (wc_entries cache))
               (sat_sub (wc_total_module_bytes cache) (we_module_size_bytes removed)))
  end.

(** [evict_oldest]: the loop is over [order] *)
Fixpoint evict_loop (order : list WasmModuleCacheKey) (entries : list (WasmModuleCacheKey * WasmModuleCacheEntry))
    (total : Z) : bool * WasmModuleCache :=
  match order with
  | [] => (false, mkWasmModuleCache [] entries total)
  | oldest :: order =>
      match entry_get oldest entries with
      | Some removed =>
          (true, mkWasmModuleCache order (entry_remove oldest entries) (sat_sub total (we_module_size_bytes removed)))
      | None => evict_loop order entries total
      end
  end.
Definition evict_oldest (cache : WasmModuleCache) : bool * WasmModuleCache :=
  evict_loop (wc_order cache) (wc_entries cache) (wc_total_module_bytes cache).

(** [get] *)
Definition cache_get (key : WasmModuleCacheKey) (cache : WasmModuleCache) :
    option CachedWasmModule * WasmModuleCache :=
  match entry_get key (wc_entries cache) with
  | None => (None, cache)
  | Some entry => (Some (we_module entry), touch key cache)
  end.

(** [self.entries.len() >= max_entries || self.total_module_bytes.saturating_add(..) > max_total_bytes] *)
Definition over_limits (max_entries max_total_bytes module_size_bytes : Z) (cache : WasmModuleCache) : bool :=
  (max_entries <=? len (wc_entries cache))%Z
  || (max_total_bytes <? sat_add (wc_total_module_bytes cache) module_size_bytes)%Z.

(** The eviction loop of [insert]; each turn shortens [order]. *)
Fixpoint make_room (fuel : nat) (max_entries max_total_bytes module_size_bytes evicted_entries : Z)
    (cache : WasmModuleCache) : Z * WasmModuleCache :=
  match fuel with
  | O => (evicted_entries, cache)
  | S fuel =>
      if over_limits max_entries max_total_bytes module_size_bytes cache then
        let '(evicted, cache) := evict_oldest cache in
        if evicted then make_room fuel max_entries max_total_bytes module_size_bytes (sat_add evicted_entries 1) cache
        else (evicted_entries, cache)
      else (evicted_entries, cache)
  end.

(** [insert] *)
Definition cache_insert (key : WasmModuleCacheKey) (value : CachedWasmModule)
    (module_size_bytes max_entries max_total_bytes : Z) (cache : WasmModuleCache) : (bool * Z) * WasmModuleCache :=
  if (max_entries =? 0)%Z || (max_total_bytes =? 0)%Z then ((false, 0%Z), WasmModuleCache_default)
  else if (max_total_bytes <? module_size_bytes)%Z then ((false, 0%Z), cache)
  else
    let cache := (remove_by_key key cache).2 in
    let '(evicted_entries, cache) :=
      make_room (S (length (wc_order cache))) max_entries max_total_bytes module_size_bytes 0 cache in
    if over_limits max_entries max_total_bytes module_size_bytes cache then ((false, evicted_entries), cache)
    else
      ((true, evicted_entries),
       mkWasmModuleCache (wc_order cache ++ [key])
         ((key, mkWasmModuleCacheEntry value module_size_bytes) :: wc_entries cache)
         (sat_add (wc_total_module_bytes cache) module_size_bytes)).
End cache.
Arguments WasmModuleCache : clear implicits.
Arguments CachedWasmModule : clear implicits.

(** *** Limits from the environment (wasm_runtime_policy.rs) *)
Definition DEFAULT_WASM_MODULE_CACHE_CAPACITY : Z := 32.
Definition MAX_WASM_MODULE_CACHE_CAPACITY : Z := 4096.
Definition DEFAULT_WASM_MODULE_CACHE_MAX_BYTES : Z := 64 * 1024 * 1024.
Definition MIN_WASM_MODULE_CACHE_MAX_BYTES : Z := 64 * 1024.
Definition MAX_WASM_MODULE_CACHE_MAX_BYTES : Z := 512 * 1024 * 1024.

(** [raw.and_then(|value| value.trim().parse::<usize>().ok()).filter(|value| *value > 0)] *)
Definition positive_usize (raw : option string) : option Z :=
  match raw with
  | Some value =>
      match parse_usize (trim value) with Ok n => if (0 <? n)%Z then Some n else None | Err _ => None end
  | None => None
  end.

(** [parse_wasm_module_cache_capacity] *)
Definition parse_wasm_module_cache_capacity (raw : option string) : Z :=
  match positive_usize raw with
  | Some value => Z.min value MAX_WASM_MODULE_CACHE_CAPACITY
  | None => DEFAULT_WASM_MODULE_CACHE_CAPACITY
  end.

(** [parse_wasm_module_cache_max_bytes] *)
Definition parse_wasm_module_cache_max_bytes (raw : option string) : Z :=
  match positive_usize raw with
  | Some value => Z.min (Z.max value MIN_WASM_MODULE_CACHE_MAX_BYTES) MAX_WASM_MODULE_CACHE_MAX_BYTES
  | None => DEFAULT_WASM_MODULE_CACHE_MAX_BYTES
  end.

(** *** The cache is a least-recently-used cache *)
Section lru.
Context {M : Type}.
Abbreviation Cache := (WasmModuleCache M).
Abbreviation Entries := (list (WasmModuleCacheKey * @WasmModuleCacheEntry M)).

(** The contents, oldest first *)
Definition bytes_of (l : Entries) : Z := foldr (λ p n, we_module_size_bytes p.2 + n)%Z 0%Z l.

Record represents (c : Cache) (l : Entries) : Prop := {
  re_order : wc_order c = l.*1;
  re_entries : wc_entries c ≡ₚ l;
  re_keys : NoDup l.*1;
  re_total : wc_total_module_bytes c = bytes_of l;
  re_sizes : Forall (λ p, 0 ≤ we_module_size_bytes p.2)%Z l;
  re_bound : (bytes_of l ≤ u64_max)%Z;
}.

(** The abstract cache *)
Definition lru_get (key : WasmModuleCacheKey) (l : Entries) : option (CachedWasmModule M) * Entries :=
  match entry_get key l with
  | Some e => (Some (we_module e), entry_remove key l ++ [(key, e)])
  | None => (None, l)
  end.

(** Drops the oldest entries until one more of [size] bytes fits. *)
Fixpoint lru_room (max_entries max_total_bytes size : Z) (l : Entries) : Entries :=
  if (len l <? max_entries)%Z && (bytes_of l + size <=? max_total_bytes)%Z then l
  else match l with [] => [] | _ :: l => lru_room max_entries max_total_bytes size l end.

Definition lru_insert (key : WasmModuleCacheKey) (value : CachedWasmModule M) (size max_entries max_total_bytes : Z)
    (l : Entries) : bool * Entries :=
  if (max_entries =? 0)%Z || (max_total_bytes =? 0)%Z then (false, [])
  else if (max_total_bytes <? size)%Z then (false, l)
  else (true, lru_room max_entries max_total_bytes size (entry_remove key l) ++ [(key, mkWasmModuleCacheEntry value size)]).

Lemma entry_get_Some key (l : Entries) e : NoDup l.*1 → entry_get key l = Some e ↔ (key, e) ∈ l.
Proof.
  unfold entry_get. induction l as [|[k e'] l IH]; intros Hn; [split; [done|by intros ?%not_elem_of_nil]|].
  cbn [fmap list_fmap] in Hn. apply NoDup_cons in Hn as [Hk Hn]. cbn [List.find fst]. rewrite elem_of_cons.
  case_bool_decide as E; cbn [fmap option_fmap option_map snd].
  - subst. split; [intros [= ->]; by left|]. intros [[= ->]|Hin]; [done|].
    destruct Hk. apply list_elem_of_fmap. by exists (key, e).
  - rewrite (IH Hn). naive_solver.
Qed.

Lemma entry_get_perm key (l l' : Entries) : NoDup l.*1 → l' ≡ₚ l → entry_get key l' = entry_get key l.
Proof.
  intros Hn Hp. assert (NoDup l'.*1) as Hn' by (by rewrite Hp). apply option_eq. intros e.
  by rewrite !entry_get_Some, Hp.
Qed.

Lemma entry_remove_fst key (l : Entries) : (entry_remove key l).*1 = filter (λ k, k ≠ key) l.*1.
Proof.
  unfold entry_remove. induction l as [|[k e] l IH]; [done|]. rewrite fmap_cons, !filter_cons. cbn [fst].
  destruct (decide (k ≠ key)); cbn; by rewrite <-IH.
Qed.

Lemma entry_remove_absent key (l : Entries) : key ∉ l.*1 → entry_remove key l = l.
Proof.
  unfold entry_remove. induction l as [|p l IH]; [done|]. rewrite fmap_cons, not_elem_of_cons, filter_cons.
  intros [Hp Hl]. rewrite decide_True by done. by rewrite IH.
Qed.

Lemma entry_remove_Forall P key (l : Entries) : Forall P l → Forall P (entry_remove key l).
Proof. rewrite !Forall_forall. intros H p [_ Hp]%list_elem_of_filter. by apply H. Qed.

Lemma bytes_of_app l k : bytes_of (l ++ k) = (bytes_of l + bytes_of k)%Z.
Proof. induction l as [|p l IH]; cbn; [done|]. fold (bytes_of (l ++ k)). rewrite IH. unfold bytes_of. lia. Qed.

Lemma bytes_of_nonneg l : Forall (λ p, 0 ≤ we_module_size_bytes p.2)%Z l → (0 ≤ bytes_of l)%Z.
Proof. induction 1 as [|p l H _ IH]; [done|]. cbn. fold (bytes_of l). lia. Qed.

Lemma bytes_of_remove key l e : NoDup l.*1 → entry_get key l = Some e →
  bytes_of l = (we_module_size_bytes e + bytes_of (entry_remove key l))%Z.
Proof.
  induction l as [|[k e'] l IH]; intros Hn; [done|]. cbn [fmap list_fmap] in Hn. apply NoDup_cons in Hn as [Hk Hn].
  unfold entry_get, entry_remove. cbn [List.find fst]. rewrite filter_cons. cbn [fst].
  case_bool_decide as E; [subst|]; cbn [fmap option_fmap option_map snd].
  - intros [= <-]. rewrite decide_False by (by intros Hne). fold (entry_remove key l).
    rewrite entry_remove_absent by done. done.
  - fold (entry_get key l). intros He. rewrite decide_True by done. cbn [bytes_of foldr snd]. fold (bytes_of l).
    fold (entry_remove key l). fold (bytes_of (entry_remove key l)). rewrite (IH Hn He). lia.
Qed.

Lemma filter_absent (key : WasmModuleCacheKey) (order : list WasmModuleCacheKey) : key ∉ order → filter (λ k, k ≠ key) order = order.
Proof.
  induction order as [|k order IH]; [done|]. rewrite not_elem_of_cons, filter_cons. intros [Hk Ho].
  rewrite decide_True by done. by rewrite IH.
Qed.

Lemma order_remove_filter key order : NoDup order → order_remove key order = filter (λ k, k ≠ key) order.
Proof.
  unfold order_remove. induction order as [|k order IH]; [done|]. intros [Hk Hn]%NoDup_cons.
  cbn [list_find]. rewrite filter_cons. destruct (decide (k = key)) as [->|Hne].
  - rewrite decide_False by (by intros Hne). cbn. by rewrite filter_absent.
  - rewrite decide_True by done. specialize (IH Hn).
    destruct (list_find _ order) as [[i x]|]; cbn in *; by rewrite <-IH.
Qed.

Lemma represents_remove c l key :
  represents c l → represents (remove_by_key key c).2 (entry_remove key l).
Proof.
  intros [Ho He Hn Ht Hs Hb]. unfold remove_by_key. rewrite (entry_get_perm key l) by done.
  assert (NoDup (entry_remove key l).*1) as Hn' by (rewrite entry_remove_fst; by apply NoDup_filter).
  destruct (entry_get key l) as [e|] eqn:E; cbn [snd].
  - pose proof (bytes_of_remove key l e Hn E) as Hbytes.
    assert (Forall (λ p, 0 ≤ we_module_size_bytes p.2)%Z (entry_remove key l)) as Hs'
      by (by apply entry_remove_Forall).
    pose proof (bytes_of_nonneg _ Hs').
    assert (0 ≤ we_module_size_bytes e)%Z as He0.
    { apply entry_get_Some in E; [|done]. by eapply Forall_forall in Hs; [|exact E]. }
    split; cbn; [by rewrite Ho, entry_remove_fst|unfold entry_remove; by rewrite He|done| |done|lia].
    rewrite Ht. unfold sat_sub. lia.
  - assert (key ∉ l.*1) as Hk.
    { intros (p & -> & Hp)%list_elem_of_fmap. destruct p as [k e]. cbn [fst] in E.
      apply (entry_get_Some k l e Hn) in Hp. congruence. }
    rewrite entry_remove_absent by done. split; cbn; try done. by rewrite Ho, filter_absent.
Qed.

(** Looking a module up makes it the newest. *)
Lemma cache_get_refines c l key : represents c l →
  (cache_get key c).1 = (lru_get key l).1 ∧ represents (cache_get key c).2 (lru_get key l).2.
Proof.
  intros Hr. pose proof Hr as [Ho He Hn Ht Hs Hb]. unfold cache_get, lru_get. rewrite (entry_get_perm key l) by done.
  destruct (entry_get key l) as [e|] eqn:E; [|done]. split; [done|]. cbn [snd].
  pose proof (bytes_of_remove key l e Hn E) as Hbytes.
  assert ((key, e) ∈ l) as Hin by (by apply entry_get_Some).
  assert (l ≡ₚ entry_remove key l ++ [(key, e)]) as Hp.
  { clear -Hn Hin. induction l as [|[k e'] l IH]; [by apply not_elem_of_nil in Hin|].
    cbn [fmap list_fmap] in Hn. apply NoDup_cons in Hn as [Hk Hn]. unfold entry_remove. rewrite filter_cons. cbn [fst].
    apply elem_of_cons in Hin as [[= <- <-]|Hin].
    - rewrite decide_False by (by intros Hne). fold (entry_remove key l). rewrite entry_remove_absent by done.
      by rewrite Permutation_app_comm.
    - rewrite decide_True; [cbn; f_equiv; by apply IH|]. intros ->. apply Hk, list_elem_of_fmap. by exists (key, e). }
  split; cbn [touch wc_order wc_entries wc_total_module_bytes].
  - rewrite fmap_app, entry_remove_fst, Ho, order_remove_filter by done. done.
  - by rewrite He.
  - by rewrite <-Hp.
  - rewrite bytes_of_app, Ht, Hbytes. cbn. lia.
  - by rewrite <-Hp.
  - rewrite bytes_of_app. cbn. lia.
Qed.

Lemma evict_represents c p l : represents c (p :: l) → ∃ c', evict_oldest c = (true, c') ∧ represents c' l.
Proof.
  intros [Ho He Hn Ht Hs Hb]. destruct p as [k e]. unfold evict_oldest. rewrite Ho. cbn [fmap list_fmap evict_loop fst].
  cbn [fmap list_fmap] in Hn. pose proof Hn as [Hk Hn']%NoDup_cons. rewrite (entry_get_perm k ((k, e) :: l)) by done.
  rewrite (proj2 (entry_get_Some k ((k, e) :: l) e Hn)) by (by left). eexists. split; [done|].
  inversion_clear Hs as [|? ? He0 Hs']. cbn [snd] in He0. pose proof (bytes_of_nonneg l Hs').
  cbn [bytes_of foldr snd] in Ht, Hb. fold (bytes_of l) in Ht, Hb.
  split; cbn; [done| |done| |done|lia].
  - unfold entry_remove. rewrite He, filter_cons. cbn [fst]. rewrite decide_False by (by intros Hne).
    fold (entry_remove k l). by rewrite entry_remove_absent.
  - rewrite Ht. unfold sat_sub. lia.
Qed.

Lemma over_limits_represents me mt size c l : represents c l → (0 ≤ mt < u64_max)%Z →
  over_limits me mt size c = negb ((len l <? me)%Z && (bytes_of l + size <=? mt)%Z).
Proof.
  intros Hr Hmt. unfold over_limits, len. rewrite (re_entries _ _ Hr), (re_total _ _ Hr). fold (len l).
  unfold sat_add, u64_max in *. rewrite negb_andb, <-Z.leb_antisym. f_equal.
  destruct (Z.ltb_spec mt (Z.min (bytes_of l + size) (2 ^ 64 - 1))), (Z.leb_spec (bytes_of l + size) mt); lia.
Qed.

(** The loop leaves what the abstract cache keeps, and there is room then. *)
Lemma make_room_refines fuel me mt size n c l :
  represents c l → length l < fuel → (0 ≤ size ≤ mt)%Z → (0 ≤ mt < u64_max)%Z → (1 ≤ me)%Z →
  ∃ n' c', make_room fuel me mt size n c = (n', c') ∧ represents c' (lru_room me mt size l) ∧
    over_limits me mt size c' = false.
Proof.
  intros Hr Hf Hs Hmt Hme. revert fuel n c Hr Hf. induction l as [|p l IH]; intros [|fuel] n c Hr Hf; try (cbn in Hf; lia);
    cbn [make_room lru_room]; rewrite (over_limits_represents me mt size c _ Hr Hmt).
  - assert ((len (@nil (WasmModuleCacheKey * @WasmModuleCacheEntry M)) <? me)%Z && (bytes_of [] + size <=? mt)%Z = true) as E.
    { apply andb_true_iff. rewrite Z.ltb_lt, Z.leb_le, len_nil. cbn. lia. }
    rewrite E. exists n, c. split_and!; [done..|]. by rewrite (over_limits_represents me mt size c _ Hr Hmt), E.
  - destruct ((len (p :: l) <? me)%Z && _) eqn:E; cbn [negb].
    + exists n, c. split_and!; [done..|]. by rewrite (over_limits_represents me mt size c _ Hr Hmt), E.
    + destruct (evict_represents c p l Hr) as (c' & -> & Hr'). apply IH; [done|]. cbn in Hf. lia.
Qed.

Lemma lru_room_suffix me mt size (l : Entries) : ∃ old, l = old ++ lru_room me mt size l.
Proof.
  induction l as [|p l [old IH]]; cbn [lru_room]; destruct (_ && _); try by exists []. exists (p :: old).
  cbn. by rewrite <-IH.
Qed.

(** Inserting does to the cache what it does to the abstract one. *)
Lemma cache_insert_refines c l key value size me mt :
  represents c l → (0 ≤ size)%Z → (0 ≤ mt < u64_max)%Z → is_u64 me →
  (cache_insert key value size me mt c).1.1 = (lru_insert key value size me mt l).1 ∧
  represents (cache_insert key value size me mt c).2 (lru_insert key value size me mt l).2.
Proof.
  intros Hr Hs Hmt Hme. unfold cache_insert, lru_insert.
  destruct (Z.eqb_spec me 0), (Z.eqb_spec mt 0); cbn [orb].
  1-3: by split; [done|]; split; cbn; constructor || (unfold u64_max; lia).
  destruct (Z.ltb_spec mt size); [done|].
  pose proof (represents_remove c l key Hr) as Hr1. set (c1 := (remove_by_key key c).2) in *.
  destruct (make_room_refines (S (length (wc_order c1))) me mt size 0 c1 _ Hr1) as (n2 & c2 & -> & Hr2 & Hov).
  { rewrite (re_order _ _ Hr1), length_fmap. lia. }
  { lia. }
  { done. }
  { unfold is_u64 in Hme. lia. }
  rewrite Hov. split; [done|]. cbn [snd]. set (l2 := lru_room me mt size (entry_remove key l)) in *.
  destruct (lru_room_suffix me mt size (entry_remove key l)) as [old Hold]. fold l2 in Hold.
  assert (key ∉ l2.*1) as Hk.
  { intros Hin. assert (key ∈ (entry_remove key l).*1) as H1 by (rewrite Hold, fmap_app; apply elem_of_app; by right).
    rewrite entry_remove_fst in H1. by apply list_elem_of_filter in H1 as [? _]. }
  rewrite (over_limits_represents me mt size c2 _ Hr2 Hmt) in Hov. apply negb_false_iff, andb_true_iff in Hov as [_ Hb%Z.leb_le].
  destruct Hr2 as [Ho He Hn Ht Hs2 Hb2]. pose proof (bytes_of_nonneg _ Hs2).
  split; cbn [wc_order wc_entries wc_total_module_bytes].
  - by rewrite fmap_app, Ho.
  - rewrite He. by rewrite Permutation_app_comm.
  - rewrite fmap_app, NoDup_app. split_and!; [done| |apply NoDup_singleton]. intros k Hin ->%list_elem_of_singleton. done.
  - rewrite bytes_of_app, Ht, sat_add_small by lia. cbn. lia.
  - apply Forall_app. split; [done|]. by constructor; [|constructor].
  - rewrite bytes_of_app. cbn. lia.
Qed.

Lemma lru_room_fits me mt size l : (1 ≤ me)%Z → (0 ≤ size ≤ mt)%Z →
  (len (lru_room me mt size l) < me)%Z ∧ (bytes_of (lru_room me mt size l) + size ≤ mt)%Z.
Proof.
  intros Hme Hs. induction l as [|p l IH]; cbn [lru_room].
  - destruct (_ && _); rewrite len_nil; cbn [bytes_of foldr]; lia.
  - destruct ((len (p :: l) <? me)%Z && _) eqn:E; [|done]. apply andb_true_iff in E as [?%Z.ltb_lt ?%Z.leb_le]. lia.
Qed.

Lemma entry_remove_length key (l : Entries) e : (key, e) ∈ l → length (entry_remove key l) < length l.
Proof. intros Hin. unfold entry_remove. apply length_filter_lt with (key, e); [done|]. cbn. naive_solver. Qed.

(** *** Runs of the cache *)

(** One use of the cache: a lookup or an insertion *)
Inductive CacheOp :=
| CacheGet (key : WasmModuleCacheKey)
| CacheInsert (key : WasmModuleCacheKey) (value : CachedWasmModule M) (size : Z).

(** What the user of the cache sees: the module, or whether it was kept *)
Inductive CacheSeen := SeenModule (found : option (CachedWasmModule M)) | SeenInserted (inserted : bool).

Definition cache_op (me mt : Z) (op : CacheOp) (c : Cache) : CacheSeen * Cache :=
  match op with
  | CacheGet key => let '(found, c) := cache_get key c in (SeenModule found, c)
  | CacheInsert key value size => let '(outcome, c) := cache_insert key value size me mt c in (SeenInserted outcome.1, c)
  end.
Definition lru_op (me mt : Z) (op : CacheOp) (l : Entries) : CacheSeen * Entries :=
  match op with
  | CacheGet key => let '(found, l) := lru_get key l in (SeenModule found, l)
  | CacheInsert key value size => let '(inserted, l) := lru_insert key value size me mt l in (SeenInserted inserted, l)
  end.
Definition op_size_ok (op : CacheOp) : Prop := match op with CacheInsert _ _ size => (0 ≤ size)%Z | _ => True end.

Fixpoint run_ops {S O A} (step : O → S → A * S) (ops : list O) (s : S) : list A * S :=
  match ops with
  | [] => ([], s)
  | op :: ops => let '(seen, s) := step op s in let '(rest, s) := run_ops step ops s in (seen :: rest, s)
  end.

Lemma lru_op_within me mt op l :
  (len l ≤ me)%Z → (bytes_of l ≤ mt)%Z → NoDup l.*1 → op_size_ok op → (0 ≤ me)%Z → (0 ≤ mt)%Z →
  (len (lru_op me mt op l).2 ≤ me)%Z ∧ (bytes_of (lru_op me mt op l).2 ≤ mt)%Z.
Proof.
  intros Hl Hb Hn Hop Hme Hmt. destruct op as [key|key value size]; cbn [lru_op].
  - unfold lru_get. destruct (entry_get key l) as [e|] eqn:E; [|done]. cbn [snd].
    rewrite bytes_of_app, len_app, len_cons, len_nil. pose proof (bytes_of_remove key l e Hn E). cbn [bytes_of foldr snd].
    apply entry_get_Some in E; [|done]. apply entry_remove_length in E. unfold bytes_of, len in *. lia.
  - unfold lru_insert. destruct (Z.eqb_spec me 0), (Z.eqb_spec mt 0); cbn [orb snd];
      try (rewrite len_nil; cbn [bytes_of foldr]; lia).
    destruct (Z.ltb_spec mt size); [done|]. cbn [snd]. cbn in Hop.
    destruct (lru_room_fits me mt size (entry_remove key l)); [lia|lia|].
    rewrite len_app, bytes_of_app, len_cons, len_nil. cbn [bytes_of foldr we_module_size_bytes snd]. lia.
Qed.

Lemma cache_op_refines me mt op c l : represents c l → op_size_ok op → (0 ≤ mt < u64_max)%Z → is_u64 me →
  (cache_op me mt op c).1 = (lru_op me mt op l).1 ∧ represents (cache_op me mt op c).2 (lru_op me mt op l).2.
Proof.
  intros Hr Hop Hmt Hme. destruct op as [key|key value size]; cbn [cache_op lru_op].
  - destruct (cache_get_refines c l key Hr) as [H1 H2]. destruct (cache_get key c), (lru_get key l); cbn in *. by subst.
  - destruct (cache_insert_refines c l key value size me mt Hr Hop Hmt Hme) as [H1 H2].
    destruct (cache_insert key value size me mt c) as [[? ?] ?], (lru_insert key value size me mt l); cbn in *. by subst.
Qed.

Lemma cache_run_refines me mt ops c l :
  represents c l → (len l ≤ me)%Z → (bytes_of l ≤ mt)%Z → Forall op_size_ok ops → (0 ≤ mt < u64_max)%Z → is_u64 me →
  (run_ops (cache_op me mt) ops c).1 = (run_ops (lru_op me mt) ops l).1 ∧
  represents (run_ops (cache_op me mt) ops c).2 (run_ops (lru_op me mt) ops l).2 ∧
  (len (run_ops (lru_op me mt) ops l).2 ≤ me)%Z ∧ (bytes_of (run_ops (lru_op me mt) ops l).2 ≤ mt)%Z.
Proof.
  intros Hr Hl Hb Hops Hmt Hme. revert c l Hr Hl Hb. induction Hops as [|op ops Hop _ IH]; intros c l Hr Hl Hb; [done|].
  cbn [run_ops]. destruct (cache_op_refines me mt op c l Hr Hop Hmt Hme) as [H1 H2].
  destruct (lru_op_within me mt op l Hl Hb (re_keys _ _ Hr) Hop) as [H3 H4]; [unfold is_u64 in Hme; lia|lia|].
  destruct (cache_op me mt op c) as [a c'], (lru_op me mt op l) as [a' l']. cbn [fst snd] in *. subst a'.
  destruct (IH c' l' H2 H3 H4) as (H5 & H6 & H7 & H8).
  destruct (run_ops _ _ c') as [seen c''], (run_ops _ _ l') as [seen' l'']. cbn [fst snd] in *. by subst.
Qed.

Lemma represents_empty : represents WasmModuleCache_default [].
Proof. by split; cbn; constructor || (unfold u64_max; lia). Qed.
End lru.
Arguments CacheOp : clear implicits.

Lemma cache_capacity_bounds raw : (1 ≤ parse_wasm_module_cache_capacity raw ≤ MAX_WASM_MODULE_CACHE_CAPACITY)%Z.
Proof.
  unfold parse_wasm_module_cache_capacity, positive_usize, DEFAULT_WASM_MODULE_CACHE_CAPACITY, MAX_WASM_MODULE_CACHE_CAPACITY.
  destruct raw as [raw|]; [|lia]. destruct (parse_usize _) as [n|]; [|lia]. destruct (Z.ltb_spec 0 n); lia.
Qed.

Lemma cache_max_bytes_bounds raw :
  (MIN_WASM_MODULE_CACHE_MAX_BYTES ≤ parse_wasm_module_cache_max_bytes raw ≤ MAX_WASM_MODULE_CACHE_MAX_BYTES)%Z.
Proof.
  unfold parse_wasm_module_cache_max_bytes, positive_usize, DEFAULT_WASM_MODULE_CACHE_MAX_BYTES,
    MIN_WASM_MODULE_CACHE_MAX_BYTES, MAX_WASM_MODULE_CACHE_MAX_BYTES.
  destruct raw as [raw|]; [|lia]. destruct (parse_usize _) as [n|]; [|lia]. destruct (Z.ltb_spec 0 n); lia.
Qed.

(** C32. Whatever the environment sets as limits, every sequence of lookups and
    insertions on the module cache, from its empty state, answers what a
    least-recently-used cache answers (a list, oldest first, that drops its
    oldest entries until the new one fits), and ends with that list's contents:
    at most the configured number of modules, whose sizes are counted exactly
    and stay within the configured bytes. *)
Theorem module_cache_is_lru {M} raw_capacity raw_max_bytes (ops : list (CacheOp M)) :
  let me := parse_wasm_module_cache_capacity raw_capacity in
  let mt := parse_wasm_module_cache_max_bytes raw_max_bytes in
  Forall op_size_ok ops →
  let '(seen, cache) := run_ops (cache_op me mt) ops WasmModuleCache_default in
  let '(lru_seen, contents) := run_ops (lru_op me mt) ops [] in
  seen = lru_seen ∧ wc_order cache = contents.*1 ∧ wc_entries cache ≡ₚ contents ∧ NoDup contents.*1 ∧
  wc_total_module_bytes cache = bytes_of contents ∧
  (len (wc_entries cache) ≤ me ≤ MAX_WASM_MODULE_CACHE_CAPACITY)%Z ∧
  (wc_total_module_bytes cache ≤ mt ≤ MAX_WASM_MODULE_CACHE_MAX_BYTES)%Z.
Proof.
  intros me mt Hops. pose proof (cache_capacity_bounds raw_capacity) as Hme. fold me in Hme.
  pose proof (cache_max_bytes_bounds raw_max_bytes) as Hmt. fold mt in Hmt.
  unfold MIN_WASM_MODULE_CACHE_MAX_BYTES, MAX_WASM_MODULE_CACHE_MAX_BYTES, MAX_WASM_MODULE_CACHE_CAPACITY in *.
  destruct (cache_run_refines me mt ops WasmModuleCache_default [] represents_empty) as (H1 & H2 & H3 & H4);
    [rewrite len_nil; lia|cbn [bytes_of foldr]; lia|done|unfold u64_max; lia|unfold is_u64, u64_max; lia|].
  destruct (run_ops (cache_op me mt) ops _) as [seen cache], (run_ops (lru_op me mt) ops []) as [lru_seen contents].
  cbn [fst snd] in *. destruct H2 as [Ho He Hn Ht _ _]. split_and!; try done; try lia.
  unfold len in *. rewrite He. lia.
Qed.

(** ** Running a WebAssembly plugin (spec_runtime.rs) *)
Record BridgeRuntimePolicy := mkBridgeRuntimePolicy {
  rp_execute_process_stdio : bool;
  rp_execute_http_json : bool;
  rp_execute_wasm_component : bool;
  rp_allowed_process_commands : gset string;
  rp_wasm_allowed_path_prefixes : list Path;
  rp_wasm_max_component_bytes : option Z;
  rp_wasm_fuel_limit : option Z;
  rp_wasm_require_hash_pin : bool;
  rp_wasm_required_sha256_by_plugin : gmap string string;
  rp_enforce_execution_success : bool;
}.

Definition BridgeRuntimePolicy_default : BridgeRuntimePolicy :=
  mkBridgeRuntimePolicy false false false ∅ [] None None false ∅ false.

(** [process_stdio_execution_security_tier] *)
Definition process_stdio_execution_security_tier (policy : BridgeRuntimePolicy) : ExecutionSecurityTier :=
  if rp_execute_process_stdio policy && negb (bool_decide (rp_allowed_process_commands policy = ∅))
  then Balanced else Restricted.

(** [wasm_execution_security_tier] *)
Definition wasm_execution_security_tier (policy : BridgeRuntimePolicy) : ExecutionSecurityTier := Restricted.

(** An object under construction: the plans are objects, so that
    [execution["key"] = value] inserts. *)
Abbreviation Execution := (list (string * Value)).

(** [with_execution_security_tier] *)
Definition with_execution_security_tier (runtime : Value) (tier : ExecutionSecurityTier) : Value :=
  match runtime with
  | JObject object => JObject (obj_insert "execution_tier" (json_str (display tier)) object)
  | _ => runtime
  end.

(** [s.split(|c| ..)] for a set of separators *)
Fixpoint split_chars (sep : ascii → bool) (s : string) : list string :=
  match s with
  | "" => [""]
  | String a s =>
      if sep a then "" :: split_chars sep s
      else match split_chars sep s with
           | [] => [String a ""]
           | w :: ws => String a w :: ws
           end
  end.

(** [resolve_wasm_export_name] *)
Definition resolve_wasm_export_name (provider : ProviderConfig) : string :=
  let raw := default "run" (or_else (pc_metadata provider !! "entrypoint") (pc_metadata provider !! "entrypoint_hint")) in
  let segments := split_chars (λ a, Ascii.eqb a ":"%char || Ascii.eqb a "/"%char) raw in
  default "run" (snd <$> list_find (λ segment, is_empty (trim segment) = false) (reverse segments)).

(** [let plugin_id = ..] *)
Definition provider_plugin_id (provider : ProviderConfig) : string :=
  default (pc_provider_id provider) (pc_metadata provider !! "plugin_id").

(** The loop that collects the pins of the metadata *)
Fixpoint collect_metadata_pins (provider : ProviderConfig) (keys : list string) : result string (list (string * string)) :=
  match keys with
  | [] => Ok []
  | key :: keys =>
      match pc_metadata provider !! key with
      | None => collect_metadata_pins provider keys
      | Some raw_pin =>
          pin ← map_err (λ reason, "provider metadata `" +:+ key +:+ "` invalid: " +:+ reason) (normalize_sha256_pin raw_pin);
          rest ← collect_metadata_pins provider keys;
          Ok (("metadata." +:+ key, pin) :: rest)
      end
  end.

(** [let metadata_pin = ..] *)
Definition metadata_pin (plugin_id : string) (pins : list (string * string)) : result string (option string) :=
  match pins with
  | [] => Ok None
  | (first_source, first_pin) :: _ =>
      match list_find (λ pin : string * string, pin.2 ≠ first_pin) pins with
      | Some (_, (source, _)) =>
          Err ("conflicting wasm sha256 pins for plugin `" +:+ plugin_id +:+ "`: " +:+ first_source +:+ " and "
               +:+ source +:+ " differ")
      | None => Ok (Some first_pin)
      end
  end.

(** [resolve_expected_wasm_sha256] *)
Definition resolve_expected_wasm_sha256 (provider : ProviderConfig) (policy : BridgeRuntimePolicy) :
    result string (option string) :=
  let plugin_id := provider_plugin_id provider in
  pins ← collect_metadata_pins provider pin_keys;
  metadata_pin ← metadata_pin plugin_id pins;
  policy_pin ←
    match rp_wasm_required_sha256_by_plugin policy !! plugin_id with
    | Some raw_pin =>
        Some <$> map_err (λ reason, "security_scan.wasm.required_sha256_by_plugin pin invalid for plugin `" +:+ plugin_id
                                      +:+ "`: " +:+ reason) (normalize_sha256_pin raw_pin)
    | None => Ok None
    end;
  if match metadata_pin, policy_pin with Some m, Some p => negb (bool_decide (m = p)) | _, _ => false end then
    Err ("conflicting wasm sha256 pins for plugin `" +:+ plugin_id
         +:+ "` between provider metadata and security_scan.wasm.required_sha256_by_plugin")
  else
    let resolved_pin := or_else policy_pin metadata_pin in
    if rp_wasm_require_hash_pin policy && bool_decide (resolved_pin = None) then
      Err ("wasm sha256 pin is required for plugin `" +:+ plugin_id +:+ "` but no pin was provided")
    else Ok resolved_pin.

(** [parse_wasm_signals_based_traps], on a target that is not macOS *)
Definition default_wasm_signals_based_traps : bool := true.
Definition parse_wasm_signals_based_traps (raw : option string) : bool :=
  match raw with
  | None => default_wasm_signals_based_traps
  | Some value =>
      default default_wasm_signals_based_traps
        (match_str (to_ascii_lowercase (trim value))
           [(["1"; "true"; "yes"; "on"; "enabled"], true); (["0"; "false"; "no"; "off"; "disabled"], false)])
  end.

(** [fs::Metadata]: [fm_modified] counts from the epoch and may be before it *)
Record FileMetadata := mkFileMetadata {
  fm_len : Z;
  fm_is_file : bool;
  fm_modified : option Z;
  fm_dev : Z;
  fm_ino : Z;
  fm_ctime : Z;
  fm_ctime_nsec : Z;
}.

(** [modified_unix_nanos] *)
Definition modified_unix_nanos (metadata : FileMetadata) : option Z :=
  match fm_modified metadata with Some ns => if (0 <=? ns)%Z then Some ns else None | None => None end.

(** [wasm_artifact_file_identity] of Unix targets *)
Definition wasm_artifact_file_identity (metadata : FileMetadata) : option WasmArtifactFileIdentity :=
  Some (mkWasmArtifactFileIdentity (fm_dev metadata) (fm_ino metadata) (fm_ctime metadata) (fm_ctime_nsec metadata)).

(** The file system during one call, each access with a function of its own:
    the file may change between them. [wh_open] opens the file, reads its
    metadata, then its bytes. *)
Record WasmHost := mkWasmHost {
  wh_paths : ScanHost;
  wh_canonicalize : Path → result string Path;
  wh_metadata : Path → result string FileMetadata;
  wh_open : Path → result string (result string FileMetadata * result string string);
  wh_signals_based_traps : option string;
}.

(** [resolve_wasm_component_artifact_path] *)
Definition resolve_wasm_component_artifact_path (paths : ScanHost) (provider : ProviderConfig) (channel_endpoint : string) :
    result string Path :=
  let metadata := pc_metadata provider in
  let endpoint := trim channel_endpoint in
  raw ← ok_or
          (or_else (metadata !! "component_resolved_path")
             (or_else (metadata !! "component_path")
                (or_else (metadata !! "component")
                   (if ends_with ".wasm" (to_ascii_lowercase endpoint) then Some endpoint else None))))
          "wasm_component execution requires component artifact path";
  if is_remote raw then
    Err "wasm_component execution requires a local artifact path, remote URL is not allowed"
  else
    let candidate := components raw in
    let resolved :=
      if is_absolute candidate then candidate
      else match metadata !! "plugin_source_path" with
           | Some source_path => resolve_plugin_relative_path source_path raw
           | None => candidate
           end in
    Ok (normalize_path_for_policy paths resolved).

(** [read_wasm_artifact_bytes] *)
Record WasmArtifactBytes := mkWasmArtifactBytes {
  ab_bytes : string;
  ab_modified_unix_ns : option Z;
  ab_file_identity : option WasmArtifactFileIdentity;
}.

Definition read_wasm_artifact_bytes (host : WasmHost) (artifact_path : Path) : result string WasmArtifactBytes :=
  '(metadata, content) ← map_err (λ error, "failed to open wasm artifact: " +:+ error) (wh_open host artifact_path);
  metadata ← map_err (λ error, "failed to read wasm artifact metadata: " +:+ error) metadata;
  if negb (fm_is_file metadata) then Err "wasm artifact path must reference a regular file"
  else
    bytes ← map_err (λ error, "failed to read wasm artifact: " +:+ error) content;
    Ok (mkWasmArtifactBytes bytes (modified_unix_nanos metadata) (wasm_artifact_file_identity metadata)).

(** Wasmtime: engines, modules, stores with fuel, instances and typed functions *)
Record Wasmtime (Engine Module Store Instance_ Func : Type) := mkWasmtime {
  wt_engine_new : bool → bool → result string Engine;
  wt_module_new : Engine → string → result string Module;
  wt_store_new : Engine → Store;
  wt_set_fuel : Z → Store → result string Store;
  wt_instantiate : Module → Store → result string Instance_ * Store;
  wt_get_typed_func : Instance_ → string → Store → result string Func;
  wt_call : Func → Store → result string unit * Store;
  wt_get_fuel : Store → result string Z;
}.
Arguments wt_engine_new {_ _ _ _ _}.
Arguments wt_module_new {_ _ _ _ _}.
Arguments wt_store_new {_ _ _ _ _}.
Arguments wt_set_fuel {_ _ _ _ _}.
Arguments wt_instantiate {_ _ _ _ _}.
Arguments wt_get_typed_func {_ _ _ _ _}.
Arguments wt_call {_ _ _ _ _}.
Arguments wt_get_fuel {_ _ _ _ _}.

(** Why a call ends before the module runs: the status, the reason and the
    fields of the runtime evidence *)
Record WasmStop := mkWasmStop { st_status : string; st_reason : string; st_runtime : list (string * Value) }.

Section wasm.
Context {Engine Module Store Instance_ Func : Type}.
Context (wt : Wasmtime Engine Module Store Instance_ Func) (sha256 : string → string).
Abbreviation Compiled := (CachedWasmModule (Engine * Module)).

(** The limits of the process, read once from the environment, and the global
    cache behind its lock *)
Record CacheCell := mkCacheCell {
  cell_capacity : Z;
  cell_max_bytes : Z;
  cell_poisoned : bool;
  cell_cache : WasmModuleCache (Engine * Module);
}.

Definition set_cache (cache : WasmModuleCache (Engine * Module)) (cell : CacheCell) : CacheCell :=
  mkCacheCell (cell_capacity cell) (cell_max_bytes cell) (cell_poisoned cell) cache.

Definition lock_error : string := "failed to lock wasm module cache: poisoned lock: another task failed inside".

(** [lookup_cached_wasm_module] *)
Definition lookup_cached_wasm_module (key : WasmModuleCacheKey) : ST CacheCell string (option (Compiled * WasmModuleCacheLookup)) :=
  λ cell,
    if cell_poisoned cell then (Err lock_error, cell)
    else
      match cache_get key (cell_cache cell) with
      | (None, cache) => (Ok None, set_cache cache cell)
      | (Some cached, cache) =>
          (Ok (Some (cached,
             mkWasmModuleCacheLookup true false 0 (len (wc_entries cache)) (cell_capacity cell)
               (wc_total_module_bytes cache) (cell_max_bytes cell))), set_cache cache cell)
      end.

(** [insert_cached_wasm_module] *)
Definition insert_cached_wasm_module (key : WasmModuleCacheKey) (module : Compiled) (module_size_bytes : Z) :
    ST CacheCell string WasmModuleCacheLookup :=
  λ cell,
    if cell_poisoned cell then (Err lock_error, cell)
    else
      let '((inserted, evicted_entries), cache) :=
        cache_insert key module module_size_bytes (cell_capacity cell) (cell_max_bytes cell) (cell_cache cell) in
      (Ok (mkWasmModuleCacheLookup false inserted evicted_entries (len (wc_entries cache)) (cell_capacity cell)
             (wc_total_module_bytes cache) (cell_max_bytes cell)), set_cache cache cell).

(** [wasm_artifact_sha256_hex] *)
Definition wasm_artifact_sha256_hex (bytes : string) : string := hex_lower (sha256 bytes).

(** [compile_wasm_module] *)
Definition compile_wasm_module (host : WasmHost) (module_bytes : string) (fuel_enabled : bool) (artifact_sha256 : option string) :
    result string Compiled :=
  engine ← map_err (λ error, "failed to initialize wasmtime engine: " +:+ error)
             (wt_engine_new wt (parse_wasm_signals_based_traps (wh_signals_based_traps host)) fuel_enabled);
  module ← map_err (λ error, "failed to compile wasm module: " +:+ error) (wt_module_new wt engine module_bytes);
  Ok (mkCachedWasmModule (engine, module) artifact_sha256).

Section call.
Context (host : WasmHost) (provider : ProviderConfig) (channel : ChannelConfig) (command : ConnectorCommand).
Context (policy : BridgeRuntimePolicy).

Definition executor_field : string * Value := ("executor", json_str "wasmtime_module").
Definition path_field (artifact_path : Path) : string * Value := ("artifact_path", json_str (path_display artifact_path)).

Definition too_large (artifact_path : Path) (module_size_bytes limit : Z) : WasmStop :=
  mkWasmStop "blocked"
    ("wasm artifact size " +:+ display module_size_bytes +:+ " exceeds runtime max_component_bytes " +:+ display limit)
    [executor_field; path_field artifact_path; ("module_size_bytes", json_uint module_size_bytes);
     ("max_component_bytes", json_uint limit)].

(** [if let Some(limit) = runtime_policy.wasm_max_component_bytes && module_size_bytes > limit] *)
Definition check_size (artifact_path : Path) (module_size_bytes : Z) : result WasmStop unit :=
  match rp_wasm_max_component_bytes policy with
  | Some limit => if (limit <? module_size_bytes)%Z then Err (too_large artifact_path module_size_bytes limit) else Ok ()
  | None => Ok ()
  end.

(** The artifact: where it is, whether the policy allows it, and its metadata *)
Definition locate_wasm_artifact : result WasmStop (Path * FileMetadata) :=
  artifact_path ← map_err (λ reason, mkWasmStop "blocked" reason [executor_field])
                    (resolve_wasm_component_artifact_path (wh_paths host) provider (ch_endpoint channel));
  artifact_path ←
    match wh_canonicalize host artifact_path with
    | Ok path => Ok (normalize_path_for_policy (wh_paths host) path)
    | Err error =>
        Err (mkWasmStop "failed" ("failed to canonicalize wasm artifact path: " +:+ error)
               [executor_field; path_field artifact_path])
    end;
  let prefixes := normalize_path_for_policy (wh_paths host) <$> rp_wasm_allowed_path_prefixes policy in
  if negb (inside_prefixes artifact_path prefixes) then
    Err (mkWasmStop "blocked" "wasm artifact path is outside runtime allowed_path_prefixes"
           [executor_field; path_field artifact_path;
            ("allowed_path_prefixes", json_strs (path_display <$> prefixes))])
  else
    metadata ← map_err (λ error, mkWasmStop "failed" ("failed to read wasm artifact metadata: " +:+ error)
                                   [executor_field; path_field artifact_path]) (wh_metadata host artifact_path);
    if negb (fm_is_file metadata) then
      Err (mkWasmStop "blocked" "wasm artifact path must reference a regular file" [executor_field; path_field artifact_path])
    else
      check_size artifact_path (fm_len metadata) ≫= λ _, Ok (artifact_path, metadata).

(** The evidence of the calls that find no module *)
Definition miss_runtime (cell : CacheCell) (artifact_path : Path) (module_size_bytes : Z) : list (string * Value) :=
  [executor_field; path_field artifact_path; ("export", json_str (resolve_wasm_export_name provider));
   ("operation", json_str (cc_operation command)); ("payload", cc_payload command);
   ("module_size_bytes", json_uint module_size_bytes); ("fuel_limit", json_opt json_uint (rp_wasm_fuel_limit policy));
   ("cache_hit", json_bool false); ("cache_miss", json_bool true); ("cache_evicted_entries", json_uint 0);
   ("cache_entries", json_uint 0); ("cache_capacity", json_uint (cell_capacity cell));
   ("cache_total_module_bytes", json_uint 0); ("cache_max_bytes", json_uint (cell_max_bytes cell));
   ("cache_inserted", json_bool false)].

(** A step whose error ends the call with that evidence *)
Definition or_miss {A} (artifact_path : Path) (module_size_bytes : Z) (m : ST CacheCell string A) : ST CacheCell WasmStop A :=
  λ cell, st_map_err (λ reason, mkWasmStop "failed" reason (miss_runtime cell artifact_path module_size_bytes)) m cell.

(** The pin of the call *)
Definition expected_pin (artifact_path : Path) (module_size_bytes : Z) : ST CacheCell WasmStop (option string) :=
  λ cell,
    (map_err (λ reason, mkWasmStop "blocked" reason
       (miss_runtime cell artifact_path module_size_bytes
        ++ [("integrity_check_required", json_bool true); ("integrity_check_passed", json_bool false)]))
       (resolve_expected_wasm_sha256 provider policy), cell).

(** The hash of the bytes that were read, when there is a pin *)
Definition check_pin (artifact_path : Path) (expected_sha256 : option string) (module_bytes : string) :
    result WasmStop (option string) :=
  match expected_sha256 with
  | None => Ok None
  | Some expected =>
      let actual := wasm_artifact_sha256_hex module_bytes in
      if bool_decide (actual = expected) then Ok (Some actual)
      else
        Err (mkWasmStop "blocked" ("wasm artifact sha256 mismatch: expected " +:+ expected +:+ ", actual " +:+ actual)
               [executor_field; path_field artifact_path; ("module_size_bytes", json_uint (Z.of_nat (String.length module_bytes)));
                ("expected_sha256", json_str expected); ("artifact_sha256", json_str actual);
                ("integrity_check_required", json_bool true); ("integrity_check_passed", json_bool false)])
  end.

Definition fuel_enabled : bool := bool_decide (is_Some (rp_wasm_fuel_limit policy)).

(** A miss on the metadata: the bytes are read, checked, looked up again under
    the key of what was read, and compiled *)
Definition load_wasm_module (artifact_path : Path) (metadata : FileMetadata) (expected_sha256 : option string) :
    ST CacheCell WasmStop (Compiled * WasmModuleCacheLookup * Z) :=
  artifact ← or_miss artifact_path (fm_len metadata) (lift (read_wasm_artifact_bytes host artifact_path));
  let module_bytes := ab_bytes artifact in
  let module_size_bytes := Z.of_nat (String.length module_bytes) in
  _ ← lift (check_size artifact_path module_size_bytes);
  artifact_sha256 ← lift (check_pin artifact_path expected_sha256 module_bytes);
  let refreshed_cache_key :=
    mkWasmModuleCacheKey artifact_path module_size_bytes
      (or_else (ab_modified_unix_ns artifact) (modified_unix_nanos metadata))
      (or_else (ab_file_identity artifact) (wasm_artifact_file_identity metadata)) expected_sha256 fuel_enabled in
  hit ← or_miss artifact_path module_size_bytes (lookup_cached_wasm_module refreshed_cache_key);
  match hit with
  | Some (cached, lookup) => mret (cached, lookup, module_size_bytes)
  | None =>
      compiled ← or_miss artifact_path module_size_bytes
                   (lift (compile_wasm_module host module_bytes fuel_enabled artifact_sha256));
      lookup ← or_miss artifact_path module_size_bytes
                 (insert_cached_wasm_module refreshed_cache_key compiled module_size_bytes);
      mret (compiled, lookup, module_size_bytes)
  end.

Definition find_wasm_module (artifact_path : Path) (metadata : FileMetadata) (expected_sha256 : option string) :
    ST CacheCell WasmStop (Compiled * WasmModuleCacheLookup * Z) :=
  let initial_cache_key :=
    mkWasmModuleCacheKey artifact_path (fm_len metadata) (modified_unix_nanos metadata)
      (wasm_artifact_file_identity metadata) expected_sha256 fuel_enabled in
  hit ← or_miss artifact_path (fm_len metadata) (lookup_cached_wasm_module initial_cache_key);
  match hit with
  | Some (cached, lookup) => mret (cached, lookup, fm_len metadata)
  | None => load_wasm_module artifact_path metadata expected_sha256
  end.

(** [let run_result = (|| .. )()] *)
Definition run_wasm_module (cached : Compiled) (export_name : string) : result string (option Z) :=
  let '(engine, module) := cm_module cached in
  let store := wt_store_new wt engine in
  store ← match rp_wasm_fuel_limit policy with
          | Some limit => map_err (λ error, "failed to set wasm fuel limit: " +:+ error) (wt_set_fuel wt limit store)
          | None => Ok store
          end;
  let '(instance, store) := wt_instantiate wt module store in
  instance ← map_err (λ error, "failed to instantiate wasm module: " +:+ error) instance;
  func ← map_err (λ error, "failed to resolve exported wasm function " +:+ export_name +:+ ": " +:+ error)
           (wt_get_typed_func wt instance export_name store);
  let '(called, store) := wt_call wt func store in
  _ ← map_err (λ error, "wasm function call failed: " +:+ error) called;
  match rp_wasm_fuel_limit policy with
  | Some limit =>
      remaining ← map_err (λ error, "failed to query wasm fuel: " +:+ error) (wt_get_fuel wt store);
      Ok (Some (sat_sub limit remaining))
  | None => Ok None
  end.

(** The evidence of the calls that ran a module; [fuel_consumed] is there on success *)
Definition run_runtime (artifact_path : Path) (expected_sha256 : option string) (cached : Compiled)
    (lookup : WasmModuleCacheLookup) (module_size_bytes : Z) (consumed : list (string * Value)) : list (string * Value) :=
  [executor_field; path_field artifact_path; ("export", json_str (resolve_wasm_export_name provider));
   ("operation", json_str (cc_operation command)); ("payload", cc_payload command);
   ("module_size_bytes", json_uint module_size_bytes); ("fuel_limit", json_opt json_uint (rp_wasm_fuel_limit policy))]
  ++ consumed ++
  [("cache_hit", json_bool (cl_hit lookup)); ("cache_miss", json_bool (negb (cl_hit lookup)));
   ("cache_evicted_entries", json_uint (cl_evicted_entries lookup)); ("cache_entries", json_uint (cl_cache_len lookup));
   ("cache_capacity", json_uint (cl_cache_capacity lookup));
   ("cache_total_module_bytes", json_uint (cl_cache_total_module_bytes lookup));
   ("cache_max_bytes", json_uint (cl_cache_max_bytes lookup)); ("cache_inserted", json_bool (cl_inserted lookup));
   ("expected_sha256", json_opt json_str expected_sha256); ("artifact_sha256", json_opt json_str (cm_artifact_sha256 cached));
   ("integrity_check_required", json_bool (bool_decide (is_Some expected_sha256)));
   ("integrity_check_passed",
     json_bool (bool_decide (expected_sha256 = None) || bool_decide (is_Some (cm_artifact_sha256 cached))))].

Definition set_runtime (runtime : list (string * Value)) (execution : Execution) : Execution :=
  obj_insert "runtime" (with_execution_security_tier (json_object runtime) (wasm_execution_security_tier policy)) execution.
Definition set_stop (stop : WasmStop) (execution : Execution) : Execution :=
  set_runtime (st_runtime stop)
    (obj_insert "reason" (json_str (st_reason stop)) (obj_insert "status" (json_str (st_status stop)) execution)).

(** The module that a call instantiates and calls, and the path it is of *)
Record WasmRun := mkWasmRun { wr_module : Engine * Module; wr_path : Path }.

(** Everything before the module runs *)
Definition prepare_wasm_module :
    ST CacheCell WasmStop (Path * option string * (Compiled * WasmModuleCacheLookup * Z)) :=
  '(artifact_path, metadata) ← lift locate_wasm_artifact;
  expected_sha256 ← expected_pin artifact_path (fm_len metadata);
  found ← find_wasm_module artifact_path metadata expected_sha256;
  mret (artifact_path, expected_sha256, found).

(** [execute_wasm_component_bridge]; the run is recorded beside the result *)
Definition execute_wasm_component_bridge (execution : Execution) (cell : CacheCell) :
    (Execution * option WasmRun) * CacheCell :=
  match prepare_wasm_module cell with
  | (Err stop, cell) => ((set_stop stop execution, None), cell)
  | (Ok (artifact_path, expected_sha256, (cached, lookup, module_size_bytes)), cell) =>
      let evidence := run_runtime artifact_path expected_sha256 cached lookup module_size_bytes in
      let execution :=
        match run_wasm_module cached (resolve_wasm_export_name provider) with
        | Ok consumed_fuel =>
            set_runtime (evidence [("fuel_consumed", json_opt json_uint consumed_fuel)])
              (obj_insert "status" (json_str "executed") execution)
        | Err reason =>
            set_runtime (evidence [])
              (obj_insert "reason" (json_str reason) (obj_insert "status" (json_str "failed") execution))
        end in
      ((execution, Some (mkWasmRun (cm_module cached) artifact_path)), cell)
  end.
End call.
End wasm.

(** *** What reaches the engine *)

(** The pins of a resolved call all name the same digest. *)
Lemma collect_pins_sound provider keys pins : collect_metadata_pins provider keys = Ok pins →
  ∀ key raw, key ∈ keys → pc_metadata provider !! key = Some raw →
    ∃ source pin, normalize_sha256_pin raw = Ok pin ∧ (source, pin) ∈ pins.
Proof.
  revert pins. induction keys as [|k keys IH]; intros pins; [by intros _ ? ? ?%not_elem_of_nil|].
  cbn [collect_metadata_pins]. intros H key raw [->|Hin]%elem_of_cons Hm.
  - rewrite Hm in H. apply bind_Ok in H as (pin & Hp%map_err_Ok & (rest & _ & [= <-])%bind_Ok).
    eexists _, pin. split; [done|by left].
  - destruct (pc_metadata provider !! k) as [raw'|] eqn:Hk; [|by eapply IH].
    apply bind_Ok in H as (pin & _ & (rest & Hr & [= <-])%bind_Ok).
    destruct (IH rest Hr key raw Hin Hm) as (source & pin' & ? & ?). exists source, pin'. split; [done|by right].
Qed.

Lemma collect_pins_some provider keys pins : collect_metadata_pins provider keys = Ok pins → pins ≠ [] →
  ∃ key, key ∈ keys ∧ is_Some (pc_metadata provider !! key).
Proof.
  revert pins. induction keys as [|k keys IH]; intros pins; [by intros [= <-]|]. cbn [collect_metadata_pins].
  destruct (pc_metadata provider !! k) as [raw|] eqn:Hk; [intros _ _; exists k; rewrite Hk; split; [by left|done]|].
  intros H Hne. destruct (IH pins H Hne) as (key & ? & ?). exists key. split; [by right|done].
Qed.

Lemma metadata_pin_agrees plugin_id pins o : metadata_pin plugin_id pins = Ok o →
  (∀ p, p ∈ pins → o = Some p.2) ∧ (is_Some o → pins ≠ []).
Proof.
  unfold metadata_pin. destruct pins as [|[source pin] pins]; [intros [= <-]; split; [by intros ? ?%not_elem_of_nil|by intros []]|].
  destruct (list_find _ _) as [[? [? ?]]|] eqn:Hf; [done|]. intros [= <-]. split; [|done].
  intros p Hp. apply list_find_None in Hf. rewrite Forall_forall in Hf. f_equal. specialize (Hf p Hp). symmetry. by apply dec_stable.
Qed.

Lemma resolved_pin_is_every_pin provider policy o : resolve_expected_wasm_sha256 provider policy = Ok o →
  (∀ key raw, key ∈ pin_keys → pc_metadata provider !! key = Some raw →
     ∃ pin, normalize_sha256_pin raw = Ok pin ∧ o = Some pin) ∧
  (∀ raw, rp_wasm_required_sha256_by_plugin policy !! provider_plugin_id provider = Some raw →
     ∃ pin, normalize_sha256_pin raw = Ok pin ∧ o = Some pin) ∧
  (rp_wasm_require_hash_pin policy = true → is_Some o).
Proof.
  unfold resolve_expected_wasm_sha256.
  intros (pins & Hpins & (m & Hm & (p & Hp & H)%bind_Ok)%bind_Ok)%bind_Ok.
  match type of H with (if ?b then _ else _) = _ => destruct b eqn:Hc; [done|] end.
  destruct (rp_wasm_require_hash_pin policy && _) eqn:Hreq; [done|]. injection H as <-.
  destruct (metadata_pin_agrees _ _ _ Hm) as [Hall _].
  assert (∀ pin, m = Some pin → or_else p m = Some pin) as Hmo.
  { intros pin ->. destruct p as [p|]; [|done]. cbn in *. by apply negb_false_iff, bool_decide_eq_true in Hc as ->. }
  split_and!.
  - intros key raw Hk Hraw. destruct (collect_pins_sound _ _ _ Hpins key raw Hk Hraw) as (source & pin & Hn & Hin).
    exists pin. split; [done|]. apply Hmo. by rewrite (Hall _ Hin).
  - intros raw Hraw. rewrite Hraw in Hp. destruct (normalize_sha256_pin raw) as [pin|] eqn:Hn; cbn in Hp; [|done].
    injection Hp as <-. exists pin. by destruct m.
  - intros Hq. rewrite Hq in Hreq. cbn in Hreq. apply bool_decide_eq_false in Hreq. destruct (or_else p m); [done|done].
Qed.

Section vetted.
Context {Engine Module Store Instance_ Func : Type}.
Context (wt : Wasmtime Engine Module Store Instance_ Func) (sha256 : string → string).
Abbreviation Compiled := (CachedWasmModule (Engine * Module)).

(** [module] was compiled from bytes one of [hosts] read at [path]: [size]
    bytes, that hash to [pin] if there is one *)
Definition origin (hosts : list WasmHost) (path : Path) (size : Z) (pin : option string) (fuel : bool) (module : Compiled) : Prop :=
  ∃ host artifact, host ∈ hosts ∧ read_wasm_artifact_bytes host path = Ok artifact ∧
    size = Z.of_nat (String.length (ab_bytes artifact)) ∧
    compile_wasm_module wt host (ab_bytes artifact) fuel (cm_artifact_sha256 module) = Ok module ∧
    ∀ digest, pin = Some digest → wasm_artifact_sha256_hex sha256 (ab_bytes artifact) = digest.

Definition cache_vetted (hosts : list WasmHost) (cache : WasmModuleCache (Engine * Module)) : Prop :=
  ∀ key entry, (key, entry) ∈ wc_entries cache →
    origin hosts (ck_artifact_path key) (ck_module_size_bytes key) (ck_expected_sha256 key) (ck_fuel_enabled key) (we_module entry).

Lemma cache_vetted_mono hosts hosts' cache : hosts ⊆ hosts' → cache_vetted hosts cache → cache_vetted hosts' cache.
Proof. intros Hs H key entry (host & artifact & Hh & Hr)%H. exists host, artifact. split; [by apply Hs|done]. Qed.

Lemma cache_get_entries {M} key (c : WasmModuleCache M) : wc_entries (cache_get key c).2 = wc_entries c.
Proof. unfold cache_get. by destruct (entry_get key (wc_entries c)). Qed.

Lemma cache_get_found {M} key (c c' : WasmModuleCache M) m : cache_get key c = (Some m, c') →
  ∃ entry, (key, entry) ∈ wc_entries c ∧ we_module entry = m.
Proof.
  unfold cache_get, entry_get. destruct (List.find _ _) as [[k e]|] eqn:E; cbn; [|done]. intros [= <- <-].
  apply find_some in E as [Hin Hk]. apply bool_decide_eq_true in Hk. cbn in Hk. subst. exists e. by rewrite list_elem_of_In.
Qed.

Lemma evict_loop_entries {M} order (entries : list (_ * @WasmModuleCacheEntry M)) total :
  wc_entries (evict_loop order entries total).2 ⊆ entries.
Proof.
  revert entries total. induction order as [|k order IH]; intros entries total; [done|]. cbn [evict_loop].
  destruct (entry_get k entries); [|apply IH]. cbn. intros p [_ Hp]%list_elem_of_filter. done.
Qed.

Lemma make_room_entries {M} fuel me mt size n (c : WasmModuleCache M) :
  wc_entries (make_room fuel me mt size n c).2 ⊆ wc_entries c.
Proof.
  revert n c. induction fuel as [|fuel IH]; intros n c; [done|]. cbn [make_room].
  destruct (over_limits me mt size c); [|done].
  pose proof (evict_loop_entries (wc_order c) (wc_entries c) (wc_total_module_bytes c)) as He. fold (evict_oldest c) in He.
  destruct (evict_oldest c) as [[] c']; [|done]. etrans; [apply IH|done].
Qed.

Lemma cache_insert_entries {M} key value size me mt (c : WasmModuleCache M) p :
  p ∈ wc_entries (cache_insert key value size me mt c).2 →
  p = (key, mkWasmModuleCacheEntry value size) ∨ p ∈ wc_entries c.
Proof.
  unfold cache_insert. destruct (_ || _); [by intros ?%not_elem_of_nil|]. destruct (mt <? size)%Z; [by right|].
  assert (wc_entries (remove_by_key key c).2 ⊆ wc_entries c) as Hr.
  { unfold remove_by_key. destruct (entry_get key _); [|done]. cbn. intros q [_ Hq]%list_elem_of_filter. done. }
  pose proof (make_room_entries (S (length (wc_order (remove_by_key key c).2))) me mt size 0 (remove_by_key key c).2) as Hm.
  destruct (make_room _ _ _ _ _ _) as [n c']. cbn [snd] in Hm.
  destruct (over_limits _ _ _ c'); cbn [snd wc_entries]; [intros Hp; right; by apply Hr, Hm|].
  intros [->|Hp]%elem_of_cons; [by left|]. right. by apply Hr, Hm.
Qed.

Lemma lookup_vetted hosts key cell r cell' :
  cache_vetted hosts (cell_cache cell) → lookup_cached_wasm_module key cell = (r, cell') →
  cache_vetted hosts (cell_cache cell') ∧
  ∀ m lookup, r = Ok (Some (m, lookup)) →
    origin hosts (ck_artifact_path key) (ck_module_size_bytes key) (ck_expected_sha256 key) (ck_fuel_enabled key) m.
Proof.
  intros Hv. unfold lookup_cached_wasm_module. destruct (cell_poisoned cell); [by intros [= <- <-]|].
  pose proof (cache_get_entries key (cell_cache cell)) as He.
  destruct (cache_get key (cell_cache cell)) as [[m|] c'] eqn:E; intros [= <- <-]; cbn in He |- *;
    (split; [intros k e; cbn; rewrite He; apply Hv|]); [|done].
  intros m' lookup' [= <- <-]. apply cache_get_found in E as (e & Hin & <-). by apply Hv.
Qed.

Lemma insert_vetted hosts key m size cell r cell' :
  cache_vetted hosts (cell_cache cell) →
  origin hosts (ck_artifact_path key) (ck_module_size_bytes key) (ck_expected_sha256 key) (ck_fuel_enabled key) m →
  insert_cached_wasm_module key m size cell = (r, cell') → cache_vetted hosts (cell_cache cell').
Proof.
  intros Hv Ho. unfold insert_cached_wasm_module. destruct (cell_poisoned cell); [by intros [= <- <-]|].
  pose proof (cache_insert_entries key m size (cell_capacity cell) (cell_max_bytes cell) (cell_cache cell)) as He.
  destruct (cache_insert _ _ _ _ _ _) as [[? ?] c']. intros [= <- <-] k e Hin. cbn in Hin.
  destruct (He (k, e) Hin) as [[= -> ->]|Hold]; [done|by apply Hv].
Qed.

(** A program keeps the cache vetted, and its results have the property [Q]. *)
Definition vets {E A} (hosts : list WasmHost) (m : ST CacheCell E A) (Q : A → Prop) : Prop :=
  ∀ cell r cell', cache_vetted hosts (cell_cache cell) → m cell = (r, cell') →
    cache_vetted hosts (cell_cache cell') ∧ ∀ a, r = Ok a → Q a.

Lemma vets_bind {E A B} hosts (m : ST CacheCell E A) (f : A → ST CacheCell E B) Q R :
  vets hosts m Q → (∀ a, Q a → vets hosts (f a) R) → vets hosts (m ≫= f) R.
Proof.
  intros Hm Hf cell r cell' Hv. rewrite st_bind_run. destruct (m cell) as [[a|e] c1] eqn:E1.
  - destruct (Hm cell _ c1 Hv E1) as [Hv1 Ha]. apply (Hf a); auto.
  - intros [= <- <-]. split; [by apply (Hm cell _ c1 Hv E1)|done].
Qed.

Lemma vets_ret {E A} hosts (a : A) (Q : A → Prop) : Q a → vets (E := E) hosts (mret a) Q.
Proof. intros HQ cell r cell' Hv [= <- <-]. split; [done|]. by intros ? [= <-]. Qed.

Lemma vets_lift {E A} hosts (r : result E A) (Q : A → Prop) : (∀ a, r = Ok a → Q a) → vets hosts (lift r) Q.
Proof. intros HQ cell r' cell' Hv [= <- <-]. done. Qed.

Lemma vets_map_err {E E' A} hosts (f : CacheCell → E → E') (m : ST CacheCell E A) Q :
  vets hosts m Q → vets hosts (λ cell, st_map_err (f cell) m cell) Q.
Proof.
  intros Hm cell r cell' Hv. unfold st_map_err. destruct (m cell) as [r0 c0] eqn:E0. intros [= <- <-].
  destruct (Hm cell r0 c0 Hv E0) as [? HQ]. split; [done|]. intros a Ha. apply HQ. by apply map_err_Ok in Ha.
Qed.

Section call_vetted.
Context (host : WasmHost) (provider : ProviderConfig) (channel : ChannelConfig) (command : ConnectorCommand).
Context (policy : BridgeRuntimePolicy).

Lemma vets_or_miss {A} hosts path size (m : ST CacheCell string A) Q :
  vets hosts m Q → vets hosts (or_miss provider command policy path size m) Q.
Proof. intros Hm. unfold or_miss. by apply (vets_map_err hosts). Qed.

Definition fits (size : Z) : Prop := ∀ limit, rp_wasm_max_component_bytes policy = Some limit → (size ≤ limit)%Z.

Lemma check_size_fits path size u : check_size policy path size = Ok u → fits size.
Proof.
  unfold check_size, fits. intros H limit Hl. rewrite Hl in H. destruct (Z.ltb_spec limit size); [done|lia].
Qed.

Definition found_ok (hosts : list WasmHost) (path : Path) (pin : option string) (x : Compiled * WasmModuleCacheLookup * Z) : Prop :=
  let '(m, _, size) := x in origin hosts path size pin (fuel_enabled policy) m ∧ fits size.

Lemma compile_keeps_digest bytes fuel digest (m : Compiled) :
  compile_wasm_module wt host bytes fuel digest = Ok m → cm_artifact_sha256 m = digest.
Proof. unfold compile_wasm_module. intros (e & _ & (md & _ & [= <-])%bind_Ok)%bind_Ok. done. Qed.

Lemma load_vetted hosts path metadata pin : host ∈ hosts →
  vets hosts (load_wasm_module wt sha256 host provider command policy path metadata pin) (found_ok hosts path pin).
Proof.
  intros Hh. unfold load_wasm_module.
  apply vets_bind with (λ artifact, read_wasm_artifact_bytes host path = Ok artifact).
  { by apply vets_or_miss, vets_lift. }
  intros artifact Hread. cbv zeta. set (size := Z.of_nat (String.length (ab_bytes artifact))).
  apply vets_bind with (λ _, fits size); [apply vets_lift; intros []; apply check_size_fits|]. intros _ Hfits.
  apply vets_bind with (λ _, ∀ d, pin = Some d → wasm_artifact_sha256_hex sha256 (ab_bytes artifact) = d).
  { apply vets_lift. intros o Ho d ->. unfold check_pin in Ho. by case_bool_decide. }
  intros digest Hpin. set (key := mkWasmModuleCacheKey _ _ _ _ _ _).
  apply vets_bind with (λ hit, ∀ m lookup, hit = Some (m, lookup) → origin hosts path size pin (fuel_enabled policy) m).
  { apply vets_or_miss. intros cell r cell' Hv Hl. destruct (lookup_vetted hosts key cell r cell' Hv Hl) as [? Ho].
    split; [done|]. intros a -> m lookup ->. by apply (Ho m lookup). }
  intros [[m lookup]|] Hhit; [apply vets_ret; split; [by apply (Hhit m lookup)|done]|].
  apply vets_bind with (λ m : Compiled, origin hosts path size pin (fuel_enabled policy) m).
  { apply vets_or_miss, vets_lift. intros m Hm. exists host, artifact. split_and!; try done.
    by rewrite (compile_keeps_digest _ _ _ _ Hm). }
  intros m Hm. apply vets_bind with (λ _, True); [|intros lookup _; by apply vets_ret].
  apply vets_or_miss. intros cell r cell' Hv Hi. split; [|done]. by apply (insert_vetted hosts key m size cell r cell').
Qed.

Lemma find_vetted hosts path metadata pin : host ∈ hosts → fits (fm_len metadata) →
  vets hosts (find_wasm_module wt sha256 host provider command policy path metadata pin) (found_ok hosts path pin).
Proof.
  intros Hh Hfits. unfold find_wasm_module. cbv zeta. set (key := mkWasmModuleCacheKey _ _ _ _ _ _).
  apply vets_bind with (λ hit, ∀ m lookup, hit = Some (m, lookup) → origin hosts path (fm_len metadata) pin (fuel_enabled policy) m).
  { apply vets_or_miss. intros cell r cell' Hv Hl. destruct (lookup_vetted hosts key cell r cell' Hv Hl) as [? Ho].
    split; [done|]. intros a -> m lookup ->. by apply (Ho m lookup). }
  intros [[m lookup]|] Hhit; [apply vets_ret; split; [by apply (Hhit m lookup)|done]|by apply load_vetted].
Qed.

Definition allowed_path (path : Path) : Prop :=
  rp_wasm_allowed_path_prefixes policy = [] ∨
  ∃ prefix, prefix ∈ rp_wasm_allowed_path_prefixes policy ∧ normalize_path_for_policy (wh_paths host) prefix `prefix_of` path.

Lemma inside_prefixes_spec path prefixes : inside_prefixes path (normalize_path_for_policy (wh_paths host) <$> prefixes) = true →
  prefixes = [] ∨ ∃ prefix, prefix ∈ prefixes ∧ normalize_path_for_policy (wh_paths host) prefix `prefix_of` path.
Proof.
  unfold inside_prefixes. rewrite orb_true_iff, bool_decide_eq_true, existsb_exists.
  intros [H%fmap_nil_inv|(p & Hin & Hp)]; [by left|right].
  apply list_elem_of_In, list_elem_of_fmap in Hin as (prefix & -> & Hin). exists prefix. split; [done|].
  unfold path_starts_with in Hp. by apply bool_decide_eq_true in Hp.
Qed.

Lemma locate_ok path metadata : locate_wasm_artifact host provider channel policy = Ok (path, metadata) →
  allowed_path path ∧ fits (fm_len metadata) ∧ fm_is_file metadata = true.
Proof.
  unfold locate_wasm_artifact. intros (path0 & _ & (path1 & _ & H)%bind_Ok)%bind_Ok. cbv zeta in H.
  destruct (inside_prefixes path1 _) eqn:Hin; [|done]. cbn [negb] in H. apply bind_Ok in H as (md & _ & H).
  destruct (fm_is_file md) eqn:Hf; [|done]. cbn [negb] in H. apply bind_Ok in H as (u & Hs & [= -> ->]).
  split_and!; [by apply inside_prefixes_spec|by eapply check_size_fits|done].
Qed.

Definition prepared_ok (hosts : list WasmHost) (x : Path * option string * (Compiled * WasmModuleCacheLookup * Z)) : Prop :=
  let '(path, pin, found) := x in
  allowed_path path ∧ resolve_expected_wasm_sha256 provider policy = Ok pin ∧ found_ok hosts path pin found.

Lemma prepare_vetted hosts : host ∈ hosts →
  vets hosts (prepare_wasm_module wt sha256 host provider channel command policy) (prepared_ok hosts).
Proof.
  intros Hh. unfold prepare_wasm_module.
  apply vets_bind with (λ x, allowed_path x.1 ∧ fits (fm_len x.2)).
  { apply vets_lift. intros [path md] Hl. by destruct (locate_ok path md Hl) as (? & ? & _). }
  intros [path md] [Hpath Hfits]. cbn [fst snd] in *.
  apply vets_bind with (λ pin, resolve_expected_wasm_sha256 provider policy = Ok pin).
  { intros cell r cell' Hv [= <- <-]. split; [done|]. by intros pin ?%map_err_Ok. }
  intros pin Hpin. apply vets_bind with (found_ok hosts path pin); [by apply find_vetted|].
  intros found Hfound. by apply vets_ret.
Qed.

(** What a run of a module stands for *)
Definition run_ok (hosts : list WasmHost) (run : WasmRun) : Prop :=
  allowed_path (wr_path run) ∧
  ∃ pin size digest, resolve_expected_wasm_sha256 provider policy = Ok pin ∧ fits size ∧
    origin hosts (wr_path run) size pin (fuel_enabled policy) (mkCachedWasmModule (wr_module run) digest).

Lemma execute_vetted hosts execution cell cell' result run : host ∈ hosts → cache_vetted hosts (cell_cache cell) →
  execute_wasm_component_bridge wt sha256 host provider channel command policy execution cell = ((result, run), cell') →
  cache_vetted hosts (cell_cache cell') ∧ ∀ r, run = Some r → run_ok hosts r.
Proof.
  intros Hh Hv. unfold execute_wasm_component_bridge.
  destruct (prepare_wasm_module _ _ _ _ _ _ _ cell) as [[[[path pin] [[m lookup] size]]|stop] c1] eqn:E;
    destruct (prepare_vetted hosts Hh cell _ c1 Hv E) as [Hv1 HQ]; intros [= <- <- <-]; (split; [done|]); [|done].
  destruct (HQ _ eq_refl) as (Hpath & Hpin & Ho & Hfits). intros r [= <-]. split; [done|].
  exists pin, size, (cm_artifact_sha256 m). by destruct m.
Qed.
End call_vetted.

(** A call of the bridge, with the state of the host during the call *)
Record WasmCall := mkWasmCall {
  wk_host : WasmHost;
  wk_provider : ProviderConfig;
  wk_channel : ChannelConfig;
  wk_command : ConnectorCommand;
  wk_policy : BridgeRuntimePolicy;
  wk_plan : Execution;
}.

Definition wasm_call (call : WasmCall) : CacheCell → (Execution * option WasmRun) * CacheCell :=
  execute_wasm_component_bridge wt sha256 (wk_host call) (wk_provider call) (wk_channel call) (wk_command call)
    (wk_policy call) (wk_plan call).

Lemma wasm_calls_vetted before calls cell i call execution run :
  cache_vetted (wk_host <$> before) (cell_cache cell) → calls !! i = Some call →
  (run_ops wasm_call calls cell).1 !! i = Some (execution, Some run) →
  run_ok (wk_host call) (wk_provider call) (wk_policy call) (wk_host <$> before ++ take (S i) calls) run.
Proof.
  revert before cell i. induction calls as [|c calls IH]; intros before cell i Hv Hc; [done|]. cbn [run_ops].
  destruct (wasm_call c cell) as [[ex r] cell1] eqn:E. destruct (run_ops wasm_call calls cell1) as [rest cell2] eqn:Er.
  assert (cache_vetted (wk_host <$> before ++ [c]) (cell_cache cell)) as Hv0.
  { eapply cache_vetted_mono; [|exact Hv]. rewrite fmap_app. set_solver. }
  destruct (execute_vetted (wk_host c) (wk_provider c) (wk_channel c) (wk_command c) (wk_policy c)
              (wk_host <$> before ++ [c]) (wk_plan c) cell cell1 ex r) as [Hv1 Hr]; [rewrite fmap_app; set_solver|done|exact E|].
  destruct i as [|i]; cbn [fst lookup list_lookup] in *.
  - injection Hc as ->. intros [= -> ->]. cbn [take]. by apply Hr.
  - intros Hi. specialize (IH (before ++ [c]) cell1 i Hv1 Hc). rewrite Er in IH. specialize (IH Hi).
    cbn [take]. by rewrite <-app_assoc in IH.
Qed.

(** C27. The bridge may serve a module from the cache, and the file may change
    between any two accesses to it; still, every module that is handed to the
    engine was compiled, with fuel metering exactly when the policy limits fuel,
    from bytes that this or an earlier call read at the path the call resolved;
    the path is inside the prefixes the policy allows, the bytes are within
    its size limit, their digest is every pin that the provider's metadata or
    the policy names, and there is a pin where the policy requires one. *)
Theorem executed_module_was_vetted calls capacity max_bytes poisoned i call execution run :
  calls !! i = Some call →
  (run_ops wasm_call calls (mkCacheCell capacity max_bytes poisoned WasmModuleCache_default)).1 !! i = Some (execution, Some run) →
  ∃ host artifact digest,
    let bytes := ab_bytes artifact in
    let policy := wk_policy call in
    host ∈ wk_host <$> take (S i) calls ∧
    read_wasm_artifact_bytes host (wr_path run) = Ok artifact ∧
    compile_wasm_module wt host bytes (bool_decide (is_Some (rp_wasm_fuel_limit policy))) digest
      = Ok (mkCachedWasmModule (wr_module run) digest) ∧
    (rp_wasm_allowed_path_prefixes policy = [] ∨
     ∃ prefix, prefix ∈ rp_wasm_allowed_path_prefixes policy ∧
       normalize_path_for_policy (wh_paths (wk_host call)) prefix `prefix_of` wr_path run) ∧
    (∀ limit, rp_wasm_max_component_bytes policy = Some limit → (Z.of_nat (String.length bytes) ≤ limit)%Z) ∧
    (∀ key raw, key ∈ pin_keys → pc_metadata (wk_provider call) !! key = Some raw →
       normalize_sha256_pin raw = Ok (hex_lower (sha256 bytes))) ∧
    (∀ raw, rp_wasm_required_sha256_by_plugin policy !! provider_plugin_id (wk_provider call) = Some raw →
       normalize_sha256_pin raw = Ok (hex_lower (sha256 bytes))) ∧
    (rp_wasm_require_hash_pin policy = true →
       resolve_expected_wasm_sha256 (wk_provider call) policy = Ok (Some (hex_lower (sha256 bytes)))).
Proof.
  intros Hc Hi.
  destruct (wasm_calls_vetted [] calls (mkCacheCell capacity max_bytes poisoned WasmModuleCache_default) i call execution run)
    as (Hpath & pin & size & digest & Hpin & Hfits & host & artifact & Hh & Hread & -> & Hcompile & Hdigest);
    [by intros key e ?%not_elem_of_nil|done|done|].
  destruct (resolved_pin_is_every_pin _ _ _ Hpin) as (Hmeta & Hpolicy & Hreq).
  exists host, artifact, digest. cbv zeta. split_and!; try done.
  - intros key raw Hk Hraw. destruct (Hmeta key raw Hk Hraw) as (p & Hn & ->). by rewrite Hn, <-(Hdigest p eq_refl).
  - intros raw Hraw. destruct (Hpolicy raw Hraw) as (p & Hn & ->). by rewrite Hn, <-(Hdigest p eq_refl).
  - intros [p ->]%Hreq. by rewrite Hpin, <-(Hdigest p eq_refl).
Qed.
End vetted.

(** ** The HTTP and process bridges (spec_bridge_protocol.inc.rs,
    spec_bridge_runtime_evidence.inc.rs, http_json_bridge.rs and
    process_stdio_bridge.rs) *)
Record ConnectorProtocolContext := mkConnectorProtocolContext {
  cx_request_method : string;
  cx_request_id : option string;
  cx_route_method : option string;
  cx_required_capability : option string;
  cx_capabilities : gset string;
}.

(** [protocol_capabilities_for_connector_command] *)
Definition protocol_capability (capability : Capability) : string :=
  match capability with
  | MemoryRead | FilesystemRead | ObserveTelemetry => "discover"
  | _ => "invoke"
  end.
Definition protocol_capabilities_for_connector_command (command : ConnectorCommand) : gset string :=
  let capabilities := set_map protocol_capability (cc_required_capabilities command) in
  if bool_decide (capabilities = (∅ : gset string)) then {["invoke"]} else capabilities.

(** [ConnectorProtocolContext::from_connector_command] *)
Definition from_connector_command (provider : ProviderConfig) (channel : ChannelConfig) (command : ConnectorCommand) :
    ConnectorProtocolContext :=
  mkConnectorProtocolContext "tools/call"
    (Some (pc_provider_id provider +:+ ":" +:+ ch_channel_id channel +:+ ":" +:+ cc_operation command))
    None None (protocol_capabilities_for_connector_command command).

(** [outbound_frame] *)
Definition outbound_frame (context : ConnectorProtocolContext) (payload : Value) : OutboundFrame :=
  mkOutboundFrame (cx_request_method context) (cx_request_id context) payload PROTOCOL_VERSION.

Definition router_error_text (error : RouterError) : string :=
  match error with
  | UnknownMethod method => "unknown protocol method: " +:+ method
  | InvalidMethod reason => "invalid protocol method: " +:+ reason
  end.
Definition authorization_error_text (error : RouteAuthorizationError) : string :=
  match error with
  | RouteMissingCapability method required =>
      "missing capability `" +:+ required +:+ "` for method: " +:+ method
  end.
Definition transport_error_text (error : TransportError) : string :=
  match error with
  | TransportClosed => "transport closed"
  | TransportFailure reason => "transport failure: " +:+ reason
  | TransportProtocol reason => "protocol error: " +:+ reason
  end.

(** [authorize_connector_protocol_context]: the context is updated in place,
    also when the authorization fails *)
Definition authorize_connector_protocol_context `{!Debug string} : ST ConnectorProtocolContext string unit := λ context,
  match Protocol.resolve (ProtocolRouter_new false) (cx_request_method context) with
  | Err error =>
      (Err ("protocol method " +:+ cx_request_method context +:+ " is invalid: " +:+ router_error_text error), context)
  | Ok resolved =>
      let context :=
        mkConnectorProtocolContext (cx_request_method context) (cx_request_id context)
          (Some (ResolvedRoute_method resolved)) (ro_required_capability (rr_policy resolved)) (cx_capabilities context) in
      match router_authorize resolved (mkRouteAuthorizationRequest (cx_capabilities context)) with
      | Ok _ => (Ok (), context)
      | Err error => (Err ("protocol route authorization failed: " +:+ authorization_error_text error), context)
      end
  end.

(** [parse_bool_flag] *)
Definition parse_bool_flag (raw : option string) : bool :=
  match raw with
  | Some value => bool_decide (to_ascii_lowercase (trim value) ∈ ["1"; "true"; "yes"; "on"])
  | None => false
  end.

(** [parse_clamped_timeout_ms] *)
Definition parse_clamped_timeout_ms (provider : ProviderConfig) (metadata_key : string) (default_ms max_ms : Z) : Z :=
  match positive_usize (pc_metadata provider !! metadata_key) with
  | Some value => Z.min value max_ms
  | None => default_ms
  end.
Definition parse_http_timeout_ms (provider : ProviderConfig) : Z :=
  parse_clamped_timeout_ms provider "http_timeout_ms" 8000 300000.
Definition parse_process_timeout_ms (provider : ProviderConfig) : Z :=
  parse_clamped_timeout_ms provider "process_timeout_ms" 5000 300000.
Definition parse_http_enforce_protocol_contract (provider : ProviderConfig) : bool :=
  parse_bool_flag (pc_metadata provider !! "http_enforce_protocol_contract").

(** The flattened [BridgeProtocolRuntimeContext] *)
Definition protocol_fields (context : ConnectorProtocolContext) : list (string * Value) :=
  [("request_method", json_str (cx_request_method context)); ("request_id", json_opt json_str (cx_request_id context));
   ("protocol_route", json_opt json_str (cx_route_method context));
   ("protocol_required_capability", json_opt json_str (cx_required_capability context));
   ("protocol_capabilities", json_strs (btree_elements (cx_capabilities context)))].

(** A field that is left out when it is [None] *)
Definition opt_field (key : string) (value : option Value) : list (string * Value) :=
  match value with Some value => [(key, value)] | None => [] end.

(** [http_json_runtime_evidence]; its kinds add fields to the base *)
Definition http_json_runtime_evidence (context : ConnectorProtocolContext) (method url : string) (timeout_ms : Z)
    (enforce_protocol_contract : bool) (kind : list (string * Value)) : Value :=
  json_object
    ([("executor", json_str "http_json_reqwest"); ("method", json_str method); ("url", json_str url);
      ("timeout_ms", json_uint timeout_ms); ("enforce_protocol_contract", json_bool enforce_protocol_contract)]
     ++ protocol_fields context ++ kind).

(** [process_stdio_runtime_evidence] *)
Definition process_stdio_runtime_evidence (context : ConnectorProtocolContext) (tier : ExecutionSecurityTier)
    (command : string) (args : list string) (timeout_ms : Z) (kind : list (string * Value)) : Value :=
  json_object
    ([("executor", json_str "process_stdio_local"); ("transport_kind", json_str "json_line");
      ("execution_tier", json_str (display tier)); ("command", json_str command); ("args", json_strs args);
      ("timeout_ms", json_uint timeout_ms)]
     ++ protocol_fields context ++ kind).

Definition set_status (status : string) (execution : Execution) : Execution := obj_insert "status" (json_str status) execution.
Definition set_reason (reason : string) (execution : Execution) : Execution := obj_insert "reason" (json_str reason) execution.

(** The request of the HTTP bridge *)
Record HttpRequest := mkHttpRequest { hq_method : string; hq_url : string; hq_timeout_ms : Z; hq_json : Value }.

(** The HTTP client: [hh_method] is [Method::from_bytes] (an error, or the
    method), [hh_client] the error of building the client, [hh_send] the
    answer ([None] if the worker panics): the status and the body, or its error *)
Record HttpHost := mkHttpHost {
  hh_method : string → result string unit;
  hh_client : Z → result string unit;
  hh_send : HttpRequest → option (result string (Z * result string string));
}.

(** [str::to_ascii_uppercase] *)
Definition to_ascii_uppercase (s : string) : string :=
  map_str (λ a, if is_ascii_lowercase a then ascii_of_N (byte a - 32) else a) s.

(** A child process: whether its pipes are there, what the timed operations on
    its transport end with ([None] when the time is up), how it exits and what
    it writes to standard error *)
Record ExitStatus := mkExitStatus { ex_success : bool; ex_code : option Z }.

Record Child := mkChild {
  cd_stdin_piped : bool;
  cd_stdout_piped : bool;
  cd_send : OutboundFrame → option (result TransportError unit);
  cd_close : option (result TransportError unit);
  cd_recv : option (result TransportError (option InboundFrame));
  cd_wait : option (result string ExitStatus);
  cd_stderr : result string string;
}.

(** What is done to a child, in order: [ChildSent] is a frame that was written
    in full, [ChildReaped] a call of [wait] for its exit *)
Inductive ChildEvent := ChildSpawned (program : string) (args : list string) | ChildSent (frame : OutboundFrame) | ChildKilled | ChildReaped.

Record ProcessStdioExchangeOutcome := mkProcessStdioExchangeOutcome {
  xo_success : bool;
  xo_exit_code : option Z;
  xo_stdout : string;
  xo_stderr : string;
  xo_stdout_json : Value;
  xo_response_method : string;
  xo_response_id : option string;
}.

Record BridgeHost := mkBridgeHost {
  bh_http : HttpHost;
  bh_spawn : string → list string → result string Child;
  bh_wasm : WasmHost;
  bh_string_list : string → option (list string);
  bh_from_text : string → option Value;
  bh_to_text : Value → option string;
}.

(** What a bridge does outside of the process *)
Inductive BridgeEffect {Engine Module : Type} :=
| Effect_Http (request : HttpRequest)
| Effect_Process (event : ChildEvent)
| Effect_Wasm (run : @WasmRun Engine Module).
Arguments BridgeEffect : clear implicits.

(** [parse_process_args] *)
Definition parse_process_args (host : BridgeHost) (provider : ProviderConfig) : list string :=
  match pc_metadata provider !! "args_json" ≫= bh_string_list host with
  | Some args => args
  | None => match pc_metadata provider !! "args" with Some value => split_whitespace value | None => [] end
  end.

Section bridges.
Context `{!Debug string, !Debug (option string), !Debug (option Z)}.
Context (host : BridgeHost).

(** *** HTTP *)
Definition envelope (provider : ProviderConfig) (channel : ChannelConfig) (command : ConnectorCommand) : Value :=
  json_object [("provider_id", json_str (pc_provider_id provider)); ("channel_id", json_str (ch_channel_id channel));
               ("operation", json_str (cc_operation command)); ("payload", cc_payload command)].

(** [let method_label = ..] *)
Definition http_method_label (provider : ProviderConfig) : string :=
  match pc_metadata provider !! "http_method" with
  | Some value =>
      let value := to_ascii_uppercase (trim value) in if is_empty value then "POST" else value
  | None => "POST"
  end.

(** [status.is_success()] *)
Definition is_success (status_code : Z) : bool := (200 <=? status_code)%Z && (status_code <? 300)%Z.

Record HttpAnswer := mkHttpAnswer {
  ha_status_code : Z;
  ha_body : string;
  ha_body_json : Value;
  ha_response_method : option string;
  ha_response_id : option string;
}.

(** [value.as_object().and_then(|value| value.get(key)).and_then(Value::as_str)] *)
Definition body_str (key : string) (body : Value) : option string := json_get_str key body.

(** The contract checks of the worker *)
Definition check_contract (context : ConnectorProtocolContext) (response_method response_id : option string) :
    result string unit :=
  method ← ok_or response_method "http_json strict protocol contract requires response.method";
  if negb (bool_decide (method = cx_request_method context)) then
    Err ("http_json response method mismatch: expected `" +:+ cx_request_method context +:+ "`, got `" +:+ method +:+ "`")
  else if negb (bool_decide (response_id = cx_request_id context)) then
    Err ("http_json response id mismatch: expected `" +:+ debug (cx_request_id context) +:+ "`, got `"
         +:+ debug response_id +:+ "`")
  else Ok ().

(** The worker thread; [None] when it panics *)
Definition http_worker (context : ConnectorProtocolContext) (enforce_protocol_contract : bool) (request : HttpRequest) :
    option (result string HttpAnswer) * list HttpRequest :=
  match hh_client (bh_http host) (hq_timeout_ms request) with
  | Err error => (Some (Err ("failed to initialize http_json client: " +:+ error)), [])
  | Ok _ =>
      (match hh_send (bh_http host) request with
       | None => None
       | Some (Err error) => Some (Err ("http_json bridge request failed: " +:+ error))
       | Some (Ok (status_code, body)) =>
           Some (body ← map_err (λ error, "failed to read http_json response body: " +:+ error) body;
                 let body_json := default JNull (bh_from_text host body) in
                 let response_method := body_str "method" body_json in
                 let response_id := body_str "id" body_json in
                 _ ← (if enforce_protocol_contract then check_contract context response_method response_id else Ok ());
                 Ok (mkHttpAnswer status_code body body_json response_method response_id))
       end, [request])
  end.

(** [execute_http_json_bridge] *)
Definition execute_http_json_bridge (execution : Execution) (provider : ProviderConfig) (channel : ChannelConfig)
    (command : ConnectorCommand) : Execution * list HttpRequest :=
  let method_label := http_method_label provider in
  match hh_method (bh_http host) method_label with
  | Err error =>
      (set_reason ("invalid http_method " +:+ method_label +:+ ": " +:+ error) (set_status "blocked" execution), [])
  | Ok _ =>
      let timeout_ms := parse_http_timeout_ms provider in
      let enforce := parse_http_enforce_protocol_contract provider in
      let '(authorized, context) := authorize_connector_protocol_context (from_connector_command provider channel command) in
      let evidence := http_json_runtime_evidence context method_label (ch_endpoint channel) timeout_ms enforce in
      match authorized with
      | Err reason =>
          (obj_insert "runtime" (evidence []) (set_reason ("http_json " +:+ reason) (set_status "blocked" execution)), [])
      | Ok _ =>
          let payload := envelope provider channel command in
          let '(answer, sent) :=
            http_worker context enforce (mkHttpRequest method_label (ch_endpoint channel) timeout_ms payload) in
          (match answer with
           | Some (Ok answer) =>
               let success := is_success (ha_status_code answer) in
               let execution := set_status (if success then "executed" else "failed") execution in
               let execution :=
                 if success then execution
                 else set_reason ("http_json bridge request failed with status " +:+ display (ha_status_code answer)) execution in
               obj_insert "runtime"
                 (evidence ([("status_code", json_uint (ha_status_code answer)); ("request", payload);
                             ("response_text", json_str (ha_body answer)); ("response_json", ha_body_json answer)]
                            ++ opt_field "response_method" (json_str <$> ha_response_method answer)
                            ++ opt_field "response_id" (json_str <$> ha_response_id answer))) execution
           | Some (Err reason) =>
               obj_insert "runtime" (evidence [("request", payload)]) (set_reason reason (set_status "failed" execution))
           | None =>
               obj_insert "runtime" (evidence [("request", payload)])
                 (set_reason "http_json bridge worker thread panicked" (set_status "failed" execution))
           end, sent)
      end
  end.

(** *** Processes *)

(** [child.start_kill(); child.wait().await] *)
Definition kill_and_reap : list ChildEvent := [ChildKilled; ChildReaped].

(** The answer of the child, or the error and what is done to the child then *)
Definition receive_response (child : Child) (timeout_ms : Z) (expected_method : string) (expected_id : option string) :
    result (string * list ChildEvent) InboundFrame :=
  response ←
    match cd_recv child with
    | Some (Ok (Some frame)) => Ok frame
    | Some (Ok None) => Err ("process_stdio transport closed before response frame", [ChildReaped])
    | Some (Err error) => Err ("process_stdio transport recv failed: " +:+ transport_error_text error, kill_and_reap)
    | None => Err ("process_stdio transport recv timed out after " +:+ display timeout_ms +:+ "ms", kill_and_reap)
    end;
  if negb (bool_decide (if_method response = expected_method)) then
    Err ("process_stdio response method mismatch: expected `" +:+ expected_method +:+ "`, got `"
         +:+ if_method response +:+ "`", kill_and_reap)
  else if negb (bool_decide (if_id response = expected_id)) then
    Err ("process_stdio response id mismatch: expected `" +:+ debug expected_id +:+ "`, got `"
         +:+ debug (if_id response) +:+ "`", kill_and_reap)
  else Ok response.

(** The exit of the child after its answer *)
Definition finish_child (child : Child) (timeout_ms : Z) (response : InboundFrame) :
    result string ProcessStdioExchangeOutcome * list ChildEvent :=
  match cd_wait child with
  | Some (Err error) => (Err ("failed to wait process output: " +:+ error), [ChildReaped])
  | None => (Err ("process command timed out after " +:+ display timeout_ms +:+ "ms waiting for exit"), kill_and_reap)
  | Some (Ok status) =>
      (match cd_stderr child with
       | Err error => Err ("failed to collect process stderr: " +:+ error)
       | Ok stderr =>
           Ok (mkProcessStdioExchangeOutcome (ex_success status) (ex_code status)
                 (default "null" (bh_to_text host (if_payload response))) (trim (from_utf8_lossy stderr))
                 (if_payload response) (if_method response) (if_id response))
       end, [ChildReaped])
  end.

(** The exchange with a child that runs *)
Definition exchange_with (child : Child) (program : string) (timeout_ms : Z) (frame : OutboundFrame) :
    result string ProcessStdioExchangeOutcome * list ChildEvent :=
  if negb (cd_stdin_piped child) then (Err ("process command " +:+ program +:+ " stdin is not piped"), [])
  else if negb (cd_stdout_piped child) then (Err ("process command " +:+ program +:+ " stdout is not piped"), [])
  else
    match cd_send child frame with
    | None => (Err ("process_stdio transport send timed out after " +:+ display timeout_ms +:+ "ms"), [])
    | Some (Err error) => (Err ("process_stdio transport send failed: " +:+ transport_error_text error), kill_and_reap)
    | Some (Ok _) =>
        match cd_close child with
        | None => (Err ("process_stdio transport close timed out after " +:+ display timeout_ms +:+ "ms"), [ChildSent frame])
        | Some (Err error) =>
            (Err ("process_stdio transport close failed: " +:+ transport_error_text error), ChildSent frame :: kill_and_reap)
        | Some (Ok _) =>
            match receive_response child timeout_ms (of_method frame) (of_id frame) with
            | Err (reason, events) => (Err reason, ChildSent frame :: events)
            | Ok response =>
                let '(outcome, events) := finish_child child timeout_ms response in (outcome, ChildSent frame :: events)
            end
        end
    end.

(** [run_process_stdio_json_line_exchange] *)
Definition run_process_stdio_json_line_exchange (program : string) (args : list string) (timeout_ms : Z)
    (frame : OutboundFrame) : result string ProcessStdioExchangeOutcome * list ChildEvent :=
  match bh_spawn host program args with
  | Err error => (Err ("failed to spawn process command " +:+ program +:+ ": " +:+ error), [])
  | Ok child =>
      let '(outcome, events) := exchange_with child program timeout_ms frame in
      (outcome, ChildSpawned program args :: events)
  end.

(** [execute_process_stdio_bridge] *)
Definition execute_process_stdio_bridge (execution : Execution) (provider : ProviderConfig) (channel : ChannelConfig)
    (command : ConnectorCommand) (policy : BridgeRuntimePolicy) : Execution * list ChildEvent :=
  match pc_metadata provider !! "command" with
  | None => (set_reason "process_stdio execution requires provider metadata.command" (set_status "blocked" execution), [])
  | Some program =>
      if negb (is_process_command_allowed program (rp_allowed_process_commands policy)) then
        (set_reason ("process command " +:+ program +:+ " is not allowed by runtime policy") (set_status "blocked" execution), [])
      else
        let args := parse_process_args host provider in
        let timeout_ms := parse_process_timeout_ms provider in
        let '(authorized, context) := authorize_connector_protocol_context (from_connector_command provider channel command) in
        let evidence :=
          process_stdio_runtime_evidence context (process_stdio_execution_security_tier policy) program args timeout_ms in
        match authorized with
        | Err reason =>
            (obj_insert "runtime" (evidence []) (set_reason ("process_stdio " +:+ reason) (set_status "blocked" execution)), [])
        | Ok _ =>
            let '(exchange, events) :=
              run_process_stdio_json_line_exchange program args timeout_ms
                (outbound_frame context (envelope provider channel command)) in
            (match exchange with
             | Ok outcome =>
                 let execution := set_status (if xo_success outcome then "executed" else "failed") execution in
                 let execution :=
                   if xo_success outcome then execution
                   else set_reason ("process command exited with code " +:+ debug (xo_exit_code outcome)) execution in
                 obj_insert "runtime"
                   (evidence (opt_field "exit_code" (json_int <$> xo_exit_code outcome)
                              ++ [("stdout", json_str (xo_stdout outcome)); ("stderr", json_str (xo_stderr outcome));
                                  ("stdout_json", xo_stdout_json outcome);
                                  ("response_method", json_str (xo_response_method outcome))]
                              ++ opt_field "response_id" (json_str <$> xo_response_id outcome))) execution
             | Err reason =>
                 obj_insert "runtime" (evidence []) (set_reason reason (set_status "failed" execution))
             end, events)
        end
  end.

(** ** Plans and connectors (spec_runtime.rs) *)

(** [default_bridge_adapter_family] *)
Definition default_bridge_adapter_family (bridge_kind : PluginBridgeKind) : string :=
  match bridge_kind with
  | HttpJson => "http-adapter" | ProcessStdio => "stdio-adapter" | NativeFfi => "ffi-adapter"
  | WasmComponent => "wasm-component-adapter" | McpServer => "mcp-adapter" | AcpBridge => "acp-bridge-adapter"
  | AcpRuntime => "acp-runtime-adapter" | UnknownBridge => "unknown-adapter"
  end.

(** [default_bridge_entrypoint] *)
Definition default_bridge_entrypoint (bridge_kind : PluginBridgeKind) (endpoint : string) : string :=
  match bridge_kind with
  | HttpJson => endpoint | ProcessStdio => "stdin/stdout::invoke" | NativeFfi => "lib::invoke"
  | WasmComponent => "component::run" | McpServer => "mcp::stdio" | AcpBridge => "acp::bridge"
  | AcpRuntime => "acp::turn" | UnknownBridge => "unknown::invoke"
  end.

(** [let plan = match bridge_kind { .. }] *)
Definition bridge_plan (bridge_kind : PluginBridgeKind) (provider : ProviderConfig) (channel : ChannelConfig)
    (command : ConnectorCommand) : Execution :=
  let metadata := pc_metadata provider in
  let adapter_family := default (default_bridge_adapter_family bridge_kind) (metadata !! "adapter_family") in
  let entrypoint :=
    default (default_bridge_entrypoint bridge_kind (ch_endpoint channel))
      (or_else (metadata !! "entrypoint") (metadata !! "entrypoint_hint")) in
  let planned key fields :=
    obj_extend [("status", json_str "planned"); ("bridge_kind", json_str (PluginBridgeKind_as_str bridge_kind));
                ("adapter_family", json_str adapter_family); ("entrypoint", json_str entrypoint); (key, json_object fields)] [] in
  match bridge_kind with
  | HttpJson =>
      planned "request"
        [("method", json_str (match metadata !! "http_method" with Some value => to_ascii_uppercase value | None => "POST" end));
         ("url", json_str (ch_endpoint channel)); ("operation", json_str (cc_operation command)); ("payload", cc_payload command)]
  | ProcessStdio =>
      planned "stdio"
        [("stdin_envelope", json_object [("operation", json_str (cc_operation command)); ("payload", cc_payload command)]);
         ("stdout_contract", json_str "json")]
  | NativeFfi =>
      planned "ffi"
        [("library", json_str (default ("lib" +:+ pc_provider_id provider +:+ ".so") (metadata !! "library")));
         ("symbol", json_str entrypoint)]
  | WasmComponent =>
      planned "wasm"
        [("component", json_str (default (pc_provider_id provider +:+ ".wasm") (metadata !! "component")));
         ("function", json_str entrypoint)]
  | McpServer =>
      planned "mcp"
        [("transport", json_str (default "stdio" (metadata !! "transport"))); ("handshake", json_str "capability_schema_exchange")]
  | AcpBridge =>
      planned "acp"
        [("surface", json_str "bridge"); ("gateway_contract", json_str "external_bridge_runtime");
         ("turn_contract", json_str "bridge_forwarded_prompt_response")]
  | AcpRuntime =>
      planned "acp"
        [("surface", json_str "runtime"); ("session_bootstrap", json_str "required");
         ("control_plane", json_str "external_runtime"); ("turn_contract", json_str "session_scoped_prompt_response")]
  | UnknownBridge =>
      obj_extend [("status", json_str "deferred"); ("bridge_kind", json_str (PluginBridgeKind_as_str bridge_kind));
                  ("reason", json_str "provider metadata does not declare a resolvable bridge_kind");
                  ("next_action", json_str "set metadata.bridge_kind and rerun bootstrap")] []
  end.

Section dispatch.
Context {Engine Module Store Instance_ Func : Type}.
Context (wt : Wasmtime Engine Module Store Instance_ Func) (sha256 : string → string).
Abbreviation Cell := (@CacheCell Engine Module).
Abbreviation Effect := (BridgeEffect Engine Module).

(** [maybe_execute_bridge] *)
Definition maybe_execute_bridge (execution : Execution) (bridge_kind : PluginBridgeKind) (provider : ProviderConfig)
    (channel : ChannelConfig) (command : ConnectorCommand) (policy : BridgeRuntimePolicy) (cell : Cell) :
    (Execution * list Effect) * Cell :=
  if rp_execute_http_json policy && bool_decide (bridge_kind = HttpJson) then
    let '(execution, sent) := execute_http_json_bridge execution provider channel command in
    ((execution, Effect_Http <$> sent), cell)
  else if rp_execute_process_stdio policy && bool_decide (bridge_kind = ProcessStdio) then
    let '(execution, events) := execute_process_stdio_bridge execution provider channel command policy in
    ((execution, Effect_Process <$> events), cell)
  else if rp_execute_wasm_component policy && bool_decide (bridge_kind = WasmComponent) then
    let '((execution, run), cell) :=
      execute_wasm_component_bridge wt sha256 (bh_wasm host) provider channel command policy execution cell in
    ((execution, Effect_Wasm <$> option_list run), cell)
  else ((execution, []), cell).

(** [bridge_execution_payload] *)
Definition bridge_execution_payload (provider : ProviderConfig) (channel : ChannelConfig) (command : ConnectorCommand)
    (policy : BridgeRuntimePolicy) (cell : Cell) : (Execution * list Effect) * Cell :=
  let bridge_kind := detect_provider_bridge_kind provider (ch_endpoint channel) in
  maybe_execute_bridge (bridge_plan bridge_kind provider channel command) bridge_kind provider channel command policy cell.

(** [value.trim().to_ascii_lowercase()], unless it is empty *)
Definition named_caller (raw : string) : option string :=
  let normalized := to_ascii_lowercase (trim raw) in if is_empty normalized then None else Some normalized.

(** [provider_allowed_callers] *)
Definition provider_allowed_callers (provider : ProviderConfig) : gset string :=
  list_to_set (omap named_caller (default [] (pc_metadata provider !! "allowed_callers_json" ≫= bh_string_list host)))
  ∪ match pc_metadata provider !! "allowed_callers" with
    | Some raw_list =>
        list_to_set (omap named_caller
          (split_chars (λ a, Ascii.eqb a ","%char || Ascii.eqb a ";"%char || Ascii.eqb a " "%char) raw_list))
    | None => ∅
    end.

(** [caller_from_payload] *)
Definition caller_from_payload (payload : Value) : option string :=
  json_get "_loongclaw" payload ≫= λ meta, json_get_str "caller" meta ≫= named_caller.

(** [caller_is_allowed] *)
Definition caller_is_allowed (caller : option string) (allowed : gset string) : bool :=
  bool_decide (allowed = ∅) || bool_decide ("*" ∈ allowed)
  || match caller with Some value => bool_decide (to_ascii_lowercase (trim value) ∈ allowed) | None => false end.

Record DynamicCatalogConnector := mkDynamicCatalogConnector {
  dc_connector_name : string;
  dc_provider_id : string;
  dc_bridge_runtime_policy : BridgeRuntimePolicy;
}.

(** The guard on callers *)
Definition check_caller (connector : DynamicCatalogConnector) (provider : ProviderConfig) (payload : Value) :
    result ConnectorError unit :=
  let allowed := provider_allowed_callers provider in
  let caller := caller_from_payload payload in
  if negb (bool_decide (allowed = ∅)) && negb (caller_is_allowed caller allowed) then
    Err (Connector_Execution
           ("caller " +:+ default "unknown" caller +:+ " is not allowed for connector " +:+ dc_connector_name connector
            +:+ " (allowed_callers=" +:+ join "," (btree_elements allowed) +:+ ")"))
  else Ok ().

(** [let chosen_channel = ..] *)
Definition choose_channel (catalog : IntegrationCatalog) (provider : ProviderConfig) (requested : option string) :
    result ConnectorError ChannelConfig :=
  match requested with
  | Some channel_id =>
      channel ← ok_or (ic_channels catalog !! channel_id)
                  (Connector_Execution ("channel " +:+ channel_id +:+ " not found"));
      if negb (ch_enabled channel) then Err (Connector_Execution ("channel " +:+ channel_id +:+ " is disabled"))
      else if negb (bool_decide (ch_provider_id channel = pc_provider_id provider)) then
        Err (Connector_Execution ("channel " +:+ ch_channel_id channel +:+ " does not belong to provider "
                                  +:+ pc_provider_id provider))
      else Ok channel
  | None =>
      ok_or (List.find ch_enabled (channels_for_provider catalog (pc_provider_id provider)))
        (Connector_Execution ("no enabled channel for provider " +:+ pc_provider_id provider))
  end.

(** What is read under the lock of the catalog; [None] is a poisoned lock *)
Definition route_command (connector : DynamicCatalogConnector) (catalog : option IntegrationCatalog)
    (command : ConnectorCommand) : result ConnectorError (ProviderConfig * ChannelConfig) :=
  catalog ← ok_or catalog (Connector_Execution "integration catalog mutex poisoned");
  provider ← ok_or (ic_providers catalog !! dc_provider_id connector)
               (Connector_Execution ("provider " +:+ dc_provider_id connector
                                     +:+ " is not registered in integration catalog"));
  _ ← check_caller connector provider (cc_payload command);
  channel ← choose_channel catalog provider (json_get_str "channel_id" (cc_payload command));
  Ok (provider, channel).

(** [matches!(status, "blocked" | "failed")] on the status of an execution *)
Definition execution_failed (execution : Execution) : bool :=
  match json_get_str "status" (JObject execution) with
  | Some status => bool_decide (status ∈ ["blocked"; "failed"])
  | None => false
  end.

(** [DynamicCatalogConnector::invoke_core], with what the bridge did *)
Definition invoke_core (connector : DynamicCatalogConnector) (catalog : option IntegrationCatalog)
    (command : ConnectorCommand) (cell : Cell) : (result ConnectorError ConnectorOutcome * list Effect) * Cell :=
  match route_command connector catalog command with
  | Err error => ((Err error, []), cell)
  | Ok (provider, channel) =>
      let '((execution, effects), cell) :=
        bridge_execution_payload provider channel command (dc_bridge_runtime_policy connector) cell in
      if rp_enforce_execution_success (dc_bridge_runtime_policy connector) && execution_failed execution then
        ((Err (Connector_Execution
                 (default "bridge execution failed under strict runtime policy"
                    (json_get_str "reason" (JObject execution)))), effects), cell)
      else
        ((Ok (mkConnectorOutcome "ok"
                (json_object
                   [("connector", json_str (dc_connector_name connector)); ("provider_id", json_str (pc_provider_id provider));
                    ("provider_version", json_str (pc_version provider)); ("channel_id", json_str (ch_channel_id channel));
                    ("endpoint", json_str (ch_endpoint channel)); ("operation", json_str (cc_operation command));
                    ("payload", cc_payload command); ("bridge_execution", JObject execution)])), effects), cell)
  end.

(** *** What a connector may do *)

(** An effect of the bridge of a provider, as its policy allows it *)
Definition effect_allowed (policy : BridgeRuntimePolicy) (provider : ProviderConfig) (channel : ChannelConfig)
    (command : ConnectorCommand) (effect : Effect) : Prop :=
  let kind := detect_provider_bridge_kind provider (ch_endpoint channel) in
  match effect with
  | Effect_Http request =>
      rp_execute_http_json policy = true ∧ kind = HttpJson ∧ "invoke" ∈ protocol_capabilities_for_connector_command command ∧
      request = mkHttpRequest (http_method_label provider) (ch_endpoint channel) (parse_http_timeout_ms provider)
                  (envelope provider channel command)
  | Effect_Process event =>
      rp_execute_process_stdio policy = true ∧ kind = ProcessStdio ∧
      "invoke" ∈ protocol_capabilities_for_connector_command command ∧
      ∃ program, pc_metadata provider !! "command" = Some program ∧
        (normalize_signal program ∈ rp_allowed_process_commands policy ∨
         ∃ name, file_name program = Some name ∧ to_ascii_lowercase name ∈ rp_allowed_process_commands policy) ∧
        match event with
        | ChildSpawned spawned args => spawned = program ∧ args = parse_process_args host provider
        | ChildSent frame =>
            frame = mkOutboundFrame "tools/call"
              (Some (pc_provider_id provider +:+ ":" +:+ ch_channel_id channel +:+ ":" +:+ cc_operation command))
              (envelope provider channel command) PROTOCOL_VERSION
        | _ => True
        end
  | Effect_Wasm run => rp_execute_wasm_component policy = true ∧ kind = WasmComponent
  end.

Lemma method_is_valid : validate_method_name "tools/call" = Ok ().
Proof. by unfold validate_method_name; vm_compute. Qed.

Lemma protocol_capability_cases command c : c ∈ protocol_capabilities_for_connector_command command → c = "invoke" ∨ c = "discover".
Proof.
  unfold protocol_capabilities_for_connector_command. case_bool_decide; [set_solver|].
  intros (x & -> & _)%elem_of_map. destruct x; cbn; auto.
Qed.

(** The route of tool calls needs the capability to invoke. *)
Lemma authorize_context_Ok provider channel command u context :
  authorize_connector_protocol_context (from_connector_command provider channel command) = (Ok u, context) →
  "invoke" ∈ protocol_capabilities_for_connector_command command ∧
  cx_request_method context = "tools/call" ∧
  cx_request_id context = Some (pc_provider_id provider +:+ ":" +:+ ch_channel_id channel +:+ ":" +:+ cc_operation command).
Proof.
  unfold authorize_connector_protocol_context, Protocol.resolve. cbn [from_connector_command cx_request_method].
  rewrite method_is_valid. cbn [mbind result_bind].
  change (ProtocolRoute_from_method "tools/call") with ToolsCall. cbn beta iota zeta. unfold router_authorize.
  cbn [ro_required_capability rr_policy rq_capabilities cx_capabilities].
  destruct (existsb _ _) eqn:E; cbn beta iota zeta; [|done]. intros [= <- <-]. split; [|done].
  apply existsb_exists in E as (c & Hin & Hc). apply list_elem_of_In in Hin.
  rewrite elem_of_btree_elements in Hin. cbn in Hin.
  destruct (protocol_capability_cases command c Hin) as [->| ->]; [done|]. by vm_compute in Hc.
Qed.

Lemma process_command_allowed_spec program allowed : is_process_command_allowed program allowed = true →
  normalize_signal program ∈ allowed ∨ ∃ name, file_name program = Some name ∧ to_ascii_lowercase name ∈ allowed.
Proof.
  unfold is_process_command_allowed. case_bool_decide; [done|]. case_bool_decide; [by left|].
  destruct (file_name program) as [name|]; [|done]. intros Hn%bool_decide_eq_true. right. by exists name.
Qed.

(** How an exchange leaves its child *)
Definition reaped (events : list ChildEvent) : Prop := events = [ChildReaped] ∨ events = kill_and_reap.

Lemma receive_reaps child timeout_ms method id reason events :
  receive_response child timeout_ms method id = Err (reason, events) → reaped events.
Proof.
  unfold receive_response, reaped. destruct (cd_recv child) as [[[frame|]|]|]; cbn [mbind result_bind]; try (intros [= <- <-]; by auto).
  destruct (negb _); [intros [= <- <-]; by auto|]. destruct (negb _); [intros [= <- <-]; by auto|done].
Qed.

Lemma finish_reaps child timeout_ms response : reaped (finish_child child timeout_ms response).2.
Proof. unfold finish_child, reaped. destruct (cd_wait child) as [[|]|]; cbn; auto. Qed.

Lemma exchange_leaves child program timeout_ms frame :
  cd_stdin_piped child = true → cd_stdout_piped child = true →
  let events := (exchange_with child program timeout_ms frame).2 in
  (cd_send child frame = None ∧ events = [])
  ∨ (cd_close child = None ∧ events = [ChildSent frame])
  ∨ ∃ sent rest, events = sent ++ rest ∧ (sent = [] ∨ sent = [ChildSent frame]) ∧ reaped rest.
Proof.
  intros Hin Hout. unfold exchange_with. rewrite Hin, Hout. cbn [negb].
  destruct (cd_send child frame) as [[[]|error]|]; [|right; right; exists [], kill_and_reap; unfold reaped; by auto|by left].
  destruct (cd_close child) as [[[]|error]|];
    [|right; right; exists [ChildSent frame], kill_and_reap; unfold reaped; by auto|right; by left].
  right. right. destruct (receive_response _ _ _ _) as [response|[reason events]] eqn:E.
  - pose proof (finish_reaps child timeout_ms response). destruct (finish_child _ _ _) as [outcome events].
    exists [ChildSent frame], events. by auto.
  - exists [ChildSent frame], events. split_and!; [done|by right|by eapply receive_reaps].
Qed.

Lemma exchange_events child program timeout_ms frame event :
  event ∈ (exchange_with child program timeout_ms frame).2 →
  event = ChildSent frame ∨ event = ChildKilled ∨ event = ChildReaped.
Proof.
  destruct (cd_stdin_piped child) eqn:Hin; [destruct (cd_stdout_piped child) eqn:Hout|].
  - destruct (exchange_leaves child program timeout_ms frame Hin Hout) as [[_ ->]|[[_ ->]|(sent & rest & -> & [->| ->] & [->| ->])]];
      unfold kill_and_reap; cbn [app]; rewrite ?elem_of_cons, ?elem_of_nil; tauto.
  - unfold exchange_with. rewrite Hin, Hout. by intros ?%not_elem_of_nil.
  - unfold exchange_with. rewrite Hin. by intros ?%not_elem_of_nil.
Qed.

Lemma http_effects execution provider channel command policy execution' sent request :
  execute_http_json_bridge execution provider channel command = (execution', sent) → request ∈ sent →
  rp_execute_http_json policy = true → detect_provider_bridge_kind provider (ch_endpoint channel) = HttpJson →
  effect_allowed policy provider channel command (Effect_Http request).
Proof.
  unfold execute_http_json_bridge. intros H Hin Hp Hk.
  destruct (hh_method _ _); [|injection H as <- <-; by apply not_elem_of_nil in Hin]. cbv zeta in H.
  destruct (authorize_connector_protocol_context _) as [[u|reason] context] eqn:Ha;
    [|injection H as <- <-; by apply not_elem_of_nil in Hin].
  destruct (authorize_context_Ok _ _ _ _ _ Ha) as (Hc & _).
  unfold http_worker in H. cbn [hq_timeout_ms] in H.
  destruct (hh_client _ _); [|injection H as <- <-; by apply not_elem_of_nil in Hin].
  injection H as <- <-. apply list_elem_of_singleton in Hin as ->. done.
Qed.

Lemma process_effects execution provider channel command policy execution' events event :
  execute_process_stdio_bridge execution provider channel command policy = (execution', events) → event ∈ events →
  rp_execute_process_stdio policy = true → detect_provider_bridge_kind provider (ch_endpoint channel) = ProcessStdio →
  effect_allowed policy provider channel command (Effect_Process event).
Proof.
  unfold execute_process_stdio_bridge. intros H Hin Hp Hk.
  destruct (pc_metadata provider !! "command") as [program|] eqn:Hm; [|injection H as <- <-; by apply not_elem_of_nil in Hin].
  destruct (is_process_command_allowed _ _) eqn:Hal; cbn [negb] in H; [|injection H as <- <-; by apply not_elem_of_nil in Hin].
  cbv zeta in H. destruct (authorize_connector_protocol_context _) as [[u|reason] context] eqn:Ha;
    [|injection H as <- <-; by apply not_elem_of_nil in Hin].
  destruct (authorize_context_Ok _ _ _ _ _ Ha) as (Hc & Hmethod & Hid).
  apply process_command_allowed_spec in Hal. unfold run_process_stdio_json_line_exchange in H.
  destruct (bh_spawn host program _) as [child|error]; [|injection H as <- <-; by apply not_elem_of_nil in Hin].
  match type of H with context [exchange_with child program ?t ?f] =>
    pose proof (exchange_events child program t f event) as He; destruct (exchange_with child program t f) as [outcome es] end.
  injection H as <- <-. cbn [snd] in He. split_and!; [done..|]. exists program. split_and!; [done..|].
  apply elem_of_cons in Hin as [->|Hin]; [done|]. destruct (He Hin) as [->|[->| ->]]; [|done..].
  unfold outbound_frame. by rewrite Hmethod, Hid.
Qed.

Lemma bridge_effects provider channel command policy cell execution effects cell' effect :
  bridge_execution_payload provider channel command policy cell = ((execution, effects), cell') → effect ∈ effects →
  effect_allowed policy provider channel command effect.
Proof.
  unfold bridge_execution_payload, maybe_execute_bridge. cbv zeta. intros H Hin.
  destruct (rp_execute_http_json policy && _) eqn:H1.
  { apply andb_true_iff in H1 as [? ?%bool_decide_eq_true]. destruct (execute_http_json_bridge _ _ _ _) as [ex sent] eqn:E.
    injection H as <- <- <-. apply list_elem_of_fmap in Hin as (request & -> & Hin). by eapply http_effects. }
  destruct (rp_execute_process_stdio policy && _) eqn:H2.
  { apply andb_true_iff in H2 as [? ?%bool_decide_eq_true]. destruct (execute_process_stdio_bridge _ _ _ _ _) as [ex es] eqn:E.
    injection H as <- <- <-. apply list_elem_of_fmap in Hin as (event & -> & Hin). by eapply process_effects. }
  destruct (rp_execute_wasm_component policy && _) eqn:H3; [|injection H as <- <- <-; by apply not_elem_of_nil in Hin].
  apply andb_true_iff in H3 as [? ?%bool_decide_eq_true].
  destruct (execute_wasm_component_bridge _ _ _ _ _ _ _ _ _) as [[ex run] c1]. injection H as <- <- <-.
  apply list_elem_of_fmap in Hin as (r & -> & _). done.
Qed.

Lemma choose_channel_Ok catalog provider requested channel : choose_channel catalog provider requested = Ok channel →
  (∃ key, ic_channels catalog !! key = Some channel) ∧ ch_enabled channel = true ∧
  ch_provider_id channel = pc_provider_id provider.
Proof.
  unfold choose_channel. destruct requested as [channel_id|].
  - intros (c & Hc%ok_or_Ok & H)%bind_Ok. destruct (ch_enabled c) eqn:He; [|done]. cbn in H.
    case_bool_decide; [|done]. injection H as <-. by eauto.
  - intros [Hin He]%ok_or_Ok%find_some. apply list_elem_of_In, list_elem_of_filter in Hin as [Hp Hin].
    rewrite elem_of_btree_values in Hin. done.
Qed.

(** A command to a connector of the catalog reaches the outside (an HTTP
    request, a child process, a module of the engine) only where all of this
    holds: the provider of the connector is in the catalog and allows the
    caller the command names; the channel is enabled and belongs to the
    provider; the runtime policy switches that kind of bridge on and it is the
    provider's kind; for HTTP and processes, the command is not a read-only one;
    a request goes to the channel's endpoint with the command's envelope, and
    a process is the declared command, named in the allow list, with the declared
    arguments. *)
Lemma connector_effects_are_authorized connector catalog command cell outcome effects cell' effect :
  invoke_core connector catalog command cell = ((outcome, effects), cell') → effect ∈ effects →
  ∃ known provider channel,
    catalog = Some known ∧ ic_providers known !! dc_provider_id connector = Some provider ∧
    (∃ key, ic_channels known !! key = Some channel) ∧ ch_enabled channel = true ∧
    ch_provider_id channel = pc_provider_id provider ∧
    (let allowed := provider_allowed_callers provider in
     allowed = ∅ ∨ "*" ∈ allowed ∨
     ∃ caller, caller_from_payload (cc_payload command) = Some caller ∧ to_ascii_lowercase (trim caller) ∈ allowed) ∧
    effect_allowed (dc_bridge_runtime_policy connector) provider channel command effect.
Proof.
  unfold invoke_core. intros H Hin.
  destruct (route_command connector catalog command) as [[provider channel]|error] eqn:Hr;
    [|injection H as <- <- <-; by apply not_elem_of_nil in Hin].
  apply bind_Ok in Hr as (known & Hk%ok_or_Ok & (p & Hp%ok_or_Ok & (u & Hu & (c & Hc & [= -> ->])%bind_Ok)%bind_Ok)%bind_Ok).
  destruct (bridge_execution_payload _ _ _ _ cell) as [[execution es] c1] eqn:Hb.
  assert (es = effects) as -> by (destruct (_ && execution_failed execution); by injection H as _ -> _).
  apply choose_channel_Ok in Hc as (Hkey & He & Hown).
  exists known, provider, channel. split_and!; try done; [|by eapply bridge_effects].
  unfold check_caller in Hu. cbv zeta in *. case_bool_decide as Hempty; [by left|right]. cbn [negb andb] in Hu.
  unfold caller_is_allowed in Hu. rewrite (bool_decide_eq_false_2 _ Hempty) in Hu. cbn [orb] in Hu.
  case_bool_decide as Hstar; [by left|right]. destruct (caller_from_payload _) as [caller|]; [|done].
  exists caller. split; [done|]. cbn in Hu. by case_bool_decide.
Qed.

(** A child that was spawned is waited for on every path, unless a write to it
    or the shutdown of its input stalls until the time is up; and an answer is
    taken only if it is to the request that was sent. *)
Theorem spawned_child_is_reaped program args timeout_ms frame child outcome events :
  bh_spawn host program args = Ok child → cd_stdin_piped child = true → cd_stdout_piped child = true →
  run_process_stdio_json_line_exchange program args timeout_ms frame = (outcome, events) →
  cd_send child frame ≠ None → cd_close child ≠ None →
  last events = Some ChildReaped ∧
  ∀ answer, outcome = Ok answer → xo_response_method answer = of_method frame ∧ xo_response_id answer = of_id frame.
Proof.
  intros Hs Hin Hout H Hsend Hclose. unfold run_process_stdio_json_line_exchange in H. rewrite Hs in H.
  pose proof (exchange_leaves child program timeout_ms frame Hin Hout) as He. cbv zeta in He.
  destruct (exchange_with child program timeout_ms frame) as [o es] eqn:E. injection H as <- <-. cbn [snd] in He.
  split.
  - destruct He as [[? _]|[[? _]|(sent & rest & -> & [->| ->] & [->| ->])]]; done.
  - intros answer ->. unfold exchange_with in E. rewrite Hin, Hout in E. cbn [negb] in E.
    destruct (cd_send child frame) as [[]|]; [|done..]. destruct (cd_close child) as [[]|]; [|done..].
    unfold receive_response in E. destruct (cd_recv child) as [[[response|]|]|]; cbn [mbind result_bind] in E; try done.
    case_bool_decide; [|done]. cbn [negb] in E. case_bool_decide; [|done]. cbn [negb] in E. unfold finish_child in E.
    destruct (cd_wait child) as [[status|]|]; [|done..]. destruct (cd_stderr child); [|done]. by injection E as <- <-.
Qed.
End dispatch.
End bridges.

(** ** Witnesses *)
Module SpecBridgeDemo.
Definition wasmtime : Wasmtime unit string unit unit unit :=
  mkWasmtime _ _ _ _ _ (λ _ _, Ok ()) (λ _ bytes, Ok bytes) (λ _, ()) (λ _ s, Ok s) (λ _ s, (Ok (), s)) (λ _ _ _, Ok ())
    (λ _ s, (Ok (), s)) (λ _, Ok 1%Z).
Definition digest (bytes : string) : string := "0123456789abcdef0123456789abcdef".
Definition pin : string := hex_lower (digest "").
Definition paths : ScanHost := mkScanHost Some None (λ _, Err "") (λ _, None) digest (λ _, []).
Definition file : FileMetadata := mkFileMetadata 4 true (Some 7%Z) 1 2 3 4.
Definition wasm_host : WasmHost := mkWasmHost paths Ok (λ _, Ok file) (λ _, Ok (Ok file, Ok "wasm")) None.
Definition provider : ProviderConfig :=
  mkProviderConfig "p" "crm" "1" (<["bridge_kind" := "wasm"]> (<["component" := "/plugins/a.wasm"]> (<["component_sha256" := pin]> ∅))).
Definition channel : ChannelConfig := mkChannelConfig "ch" "p" "/plugins/a.wasm" true ∅.
Definition command : ConnectorCommand := mkConnectorCommand "crm" "sync" ∅ JNull.
Definition policy : BridgeRuntimePolicy :=
  mkBridgeRuntimePolicy false false true ∅ [components "/plugins"] (Some 4%Z) (Some 9%Z) true (<["p" := pin]> ∅) true.
Definition call : WasmCall := mkWasmCall wasm_host provider channel command policy [].

(** The second call is served from the cache. *)
Definition runs : list (Execution * option WasmRun) :=
  (run_ops (wasm_call wasmtime digest) [call; call] (mkCacheCell 32 1000 false WasmModuleCache_default)).1.

Definition answers : list (option (option Value) * option (Path * string)) :=
  (λ r : Execution * option WasmRun,
     (json_get "cache_hit" <$> json_get "runtime" (JObject r.1), (λ run, (wr_path run, (wr_module run).2)) <$> r.2)) <$> runs.

Lemma answers_are : answers =
  [(Some (Some (JBool false)), Some (components "/plugins/a.wasm", "wasm"));
   (Some (Some (JBool true)), Some (components "/plugins/a.wasm", "wasm"))].
Proof. by vm_compute. Qed.

Lemma vetted_witness : ∃ execution run artifact,
  runs !! 1 = Some (execution, Some run) ∧ read_wasm_artifact_bytes wasm_host (wr_path run) = Ok artifact ∧
  normalize_sha256_pin pin = Ok (hex_lower (digest (ab_bytes artifact))).
Proof.
  destruct (runs !! 1) as [[execution [run|]]|] eqn:E; [|by vm_compute in E..].
  destruct (executed_module_was_vetted wasmtime digest [call; call] 32 1000 false 1 call execution run eq_refl E)
    as (host & artifact & dg & Hh & Hread & _ & _ & _ & Hmeta & _).
  exists execution, run, artifact. split; [done|].
  assert (host = wasm_host) as ->. { cbn in Hh. apply elem_of_cons in Hh as [->|Hh%list_elem_of_singleton]; [done|done]. }
  split; [done|]. apply (Hmeta "component_sha256" pin); [by left|by vm_compute].
Defined.

(** A second insertion that does not fit beside the first one drops it. *)
Definition key (size : Z) : WasmModuleCacheKey := mkWasmModuleCacheKey [] size None None None false.
Definition ops : list (CacheOp unit) :=
  [CacheInsert (key 1) (mkCachedWasmModule () None) 40000; CacheGet (key 1);
   CacheInsert (key 2) (mkCachedWasmModule () None) 40000; CacheGet (key 1)].

Lemma lru_witness :
  let '(seen, cache) := run_ops (cache_op 32 65536) ops WasmModuleCache_default in
  seen = [SeenInserted true; SeenModule (Some (mkCachedWasmModule () None)); SeenInserted true; SeenModule None] ∧
  wc_order cache = [key 2].
Proof.
  assert (Forall op_size_ok ops) as Hops by (repeat constructor; cbn; lia).
  pose proof (module_cache_is_lru None (Some "1") ops Hops) as H. cbv zeta in H.
  change (parse_wasm_module_cache_capacity None) with 32%Z in H.
  replace (parse_wasm_module_cache_max_bytes (Some "1")) with 65536%Z in H by (by vm_compute).
  destruct (run_ops (cache_op 32 65536) ops WasmModuleCache_default) as [seen cache].
  destruct (run_ops (lru_op 32 65536) ops []) as [lru_seen contents] eqn:E. vm_compute in E. injection E as <- <-.
  destruct H as (-> & -> & _). split; by vm_compute.
Defined.

#[local] Instance debug_s : Debug string := λ s, s.
#[local] Instance debug_os : Debug (option string) := λ o, default "None" o.
#[local] Instance debug_oz : Debug (option Z) := λ o, match o with Some z => display z | None => "None" end.

Definition stalled : Child := mkChild true true (λ _, None) None None None (Ok "").
Definition answering : Child :=
  mkChild true true (λ _, Some (Ok ())) (Some (Ok ()))
    (Some (Ok (Some (mkInboundFrame "tools/call" (Some "p:ch:sync") JNull 1)))) (Some (Ok (mkExitStatus true (Some 0%Z)))) (Ok "").
Definition http : HttpHost := mkHttpHost (λ _, Ok ()) (λ _, Ok ()) (λ _, None).
Definition bridge_host (child : Child) : BridgeHost :=
  mkBridgeHost http (λ _ _, Ok child) wasm_host (λ _, None) (λ _, None) (λ _, Some "null").

Definition script_provider : ProviderConfig :=
  mkProviderConfig "p" "crm" "1"
    (<["bridge_kind" := "stdio"]> (<["command" := "/usr/bin/node"]> (<["allowed_callers" := "Planner, ops"]> ∅))).
Definition catalog : IntegrationCatalog := mkIntegrationCatalog (<["p" := script_provider]> ∅) (<["ch" := channel]> ∅) ∅ 0.
Definition connector : DynamicCatalogConnector :=
  mkDynamicCatalogConnector "crm" "p" (mkBridgeRuntimePolicy true false false {["node"]} [] None None false ∅ true).
Definition planner_command : ConnectorCommand :=
  mkConnectorCommand "crm" "sync" ∅ (json_object [("_loongclaw", json_object [("caller", json_str "planner")])]).

Definition invoked :=
  invoke_core (bridge_host answering) wasmtime digest connector (Some catalog) planner_command
    (mkCacheCell 32 1000 false WasmModuleCache_default).

Lemma authorized_witness :
  Effect_Process (ChildSpawned "/usr/bin/node" []) ∈ invoked.1.2 ∧
  ∃ provider, ic_providers catalog !! "p" = Some provider ∧
    ("*" ∈ provider_allowed_callers (bridge_host answering) provider ∨ "planner" ∈ provider_allowed_callers (bridge_host answering) provider).
Proof.
  assert (Effect_Process (ChildSpawned "/usr/bin/node" []) ∈ invoked.1.2) as Hin by (vm_compute; left).
  split; [done|]. destruct invoked as [[outcome effects] cell'] eqn:E.
  destruct (connector_effects_are_authorized (bridge_host answering) wasmtime digest connector (Some catalog) planner_command
              _ outcome effects cell' _ E Hin) as (known & prov & chan & [= <-] & Hp & _ & _ & _ & Hcaller & _).
  assert (ic_providers catalog !! "p" = Some script_provider) as Hs by reflexivity.
  assert (prov = script_provider) as -> by (cbn [connector dc_provider_id] in Hp; congruence).
  exists script_provider. split; [done|]. cbv zeta in Hcaller.
  destruct Hcaller as [H|[H|(caller & Hc & H)]]; [|by left|right].
  - exfalso. assert ("ops" ∈ provider_allowed_callers (bridge_host answering) script_provider) as Hops
      by (apply (bool_decide_unpack _); by vm_compute). rewrite H in Hops. by apply not_elem_of_empty in Hops.
  - assert (caller_from_payload (cc_payload planner_command) = Some "planner") as Hpl by (by vm_compute).
    assert (caller = "planner") as -> by congruence. exact H.
Defined.

(** A write that stalls leaves the child running. *)
Lemma stalled_write_leaves_the_child frame :
  run_process_stdio_json_line_exchange (bridge_host stalled) "node" [] 5000 frame
  = (Err "process_stdio transport send timed out after 5000ms", [ChildSpawned "node" []]).
Proof. by vm_compute. Qed.
End SpecBridgeDemo.
