(* ===== verification/SpecRun.v ===== *)
(** * SpecRun: admitting a scenario (spec/src/spec_execution.rs with
    emit_security_scan_siem_record of security_scan_policy.rs)

    [execute_spec_with_native_tool_executor] takes a scenario through its gates
    before the kernel sees it: the approval guard, the integrity of the bridge
    policy, the guard of the architecture, the scan, activation, bootstrap and
    security scan of the plugins, auto-provisioning and hotfixes. What leaves is
    a catalog and a pack, or a report that says why the scenario is blocked.
    The calls of the kernel that follow are in [SpecExec].

    The file system, its clock, the JSON texts, the SIEM file and the kernel
    that records the audit event of the scan are parameters. *)
From S2P Require Import Prelude RustStr Contracts Json Errors Integration Architecture Fs Plugin PluginIR Bootstrap.
From S2P Require Import Awareness Paths Programmatic Workflow SpecApproval SpecScan SpecBridge.
From Stdlib Require Import Ascii.

(** ** Scenarios (spec_runtime.rs) *)
Record DefaultCoreSelection := mkDefaultCoreSelection {
  df_connector : option string;
  df_runtime : option string;
  df_tool : option string;
  df_memory : option string;
}.

Record SelfAwarenessSpec := mkSelfAwarenessSpec {
  sa_enabled : bool;
  sa_roots : list string;
  sa_plugin_roots : list string;
  sa_proposed_mutations : list string;
  sa_enforce_guard : bool;
  sa_immutable_core_paths : list string;
  sa_mutable_extension_paths : list string;
}.

Record PluginScanSpec := mkPluginScanSpec { pl_enabled : bool; pl_roots : list string }.

Record BootstrapSpec := mkBootstrapSpec {
  bp_enabled : bool;
  bp_allow_http_json_auto_apply : option bool;
  bp_allow_process_stdio_auto_apply : option bool;
  bp_allow_native_ffi_auto_apply : option bool;
  bp_allow_wasm_component_auto_apply : option bool;
  bp_allow_mcp_server_auto_apply : option bool;
  bp_allow_acp_bridge_auto_apply : option bool;
  bp_allow_acp_runtime_auto_apply : option bool;
  bp_enforce_ready_execution : option bool;
  bp_max_tasks : option Z;
}.

Record AutoProvisionSpec := mkAutoProvisionSpec {
  au_enabled : bool;
  au_provider_id : string;
  au_channel_id : string;
  au_connector_name : option string;
  au_endpoint : option string;
  au_required_capabilities : gset Capability;
}.

Inductive HotfixSpec :=
| Hotfix_ProviderVersion (provider_id new_version : string)
| Hotfix_ProviderConnector (provider_id new_connector_name : string)
| Hotfix_ChannelEndpoint (channel_id new_endpoint : string)
| Hotfix_ChannelEnabled (channel_id : string) (enabled : bool).

(** [HotfixSpec::to_kernel_hotfix] *)
Definition to_kernel_hotfix (hotfix : HotfixSpec) : IntegrationHotfix :=
  match hotfix with
  | Hotfix_ProviderVersion provider_id new_version => ProviderVersion provider_id new_version
  | Hotfix_ProviderConnector provider_id new_connector_name => ProviderConnector provider_id new_connector_name
  | Hotfix_ChannelEndpoint channel_id new_endpoint => ChannelEndpoint channel_id new_endpoint
  | Hotfix_ChannelEnabled channel_id enabled => ChannelEnabled channel_id enabled
  end.

Record RunnerSpec := mkRunnerSpec {
  rs_pack : VerticalPackManifest;
  rs_agent_id : string;
  rs_ttl_s : Z;
  rs_approval : option HumanApprovalSpec;
  rs_defaults : option DefaultCoreSelection;
  rs_self_awareness : option SelfAwarenessSpec;
  rs_plugin_scan : option PluginScanSpec;
  rs_bridge_support : option BridgeSupportSpec;
  rs_bootstrap : option BootstrapSpec;
  rs_auto_provision : option AutoProvisionSpec;
  rs_hotfixes : list HotfixSpec;
  rs_operation : OperationSpec;
}.

(** ** Policies from the scenario (spec_execution.rs) *)

(** [bridge_support_matrix] *)
Definition bridge_support_matrix (spec : RunnerSpec) : BridgeSupportMatrix * bool :=
  match enabled_bridge (rs_bridge_support spec) with
  | Some bridge =>
      (mkBridgeSupportMatrix
         (if bool_decide (bs_supported_bridges bridge = []) then sm_supported_bridges BridgeSupportMatrix_default
          else list_to_set (bs_supported_bridges bridge))
         (if bool_decide (bs_supported_adapter_families bridge = [])
          then sm_supported_adapter_families BridgeSupportMatrix_default
          else list_to_set (bs_supported_adapter_families bridge)),
       bs_enforce_supported bridge)
  | None => (BridgeSupportMatrix_default, false)
  end.

(** [bridge_runtime_policy] *)
Definition bridge_runtime_policy (paths : ScanHost) (spec : RunnerSpec) (security_scan : option SecurityScanSpec) :
    BridgeRuntimePolicy :=
  match enabled_bridge (rs_bridge_support spec) with
  | None => BridgeRuntimePolicy_default
  | Some bridge =>
      let runtime := default SecurityRuntimeExecutionSpec_default (ss_runtime <$> security_scan) in
      mkBridgeRuntimePolicy (bs_execute_process_stdio bridge) (bs_execute_http_json bridge)
        (sr_execute_wasm_component runtime) (command_allowlist (bs_allowed_process_commands bridge))
        ((λ path, normalize_path_for_policy paths (components path)) <$> sr_allowed_path_prefixes runtime)
        (sr_max_component_bytes runtime) (sr_fuel_limit runtime)
        (match security_scan with Some scan => ws_require_hash_pin (ss_wasm scan) | None => false end)
        (match security_scan with Some scan => ws_required_sha256_by_plugin (ss_wasm scan) | None => ∅ end)
        (bs_enforce_execution_success bridge)
  end.

(** [bootstrap_policy] *)
Definition bootstrap_policy (spec : RunnerSpec) : option BootstrapPolicy :=
  match rs_bootstrap spec with
  | None => None
  | Some bootstrap =>
      if negb (bp_enabled bootstrap) then None
      else
        let base := BootstrapPolicy_default in
        Some (mkBootstrapPolicy
          (default (bo_allow_http_json_auto_apply base) (bp_allow_http_json_auto_apply bootstrap))
          (default (bo_allow_process_stdio_auto_apply base) (bp_allow_process_stdio_auto_apply bootstrap))
          (default (bo_allow_native_ffi_auto_apply base) (bp_allow_native_ffi_auto_apply bootstrap))
          (default (bo_allow_wasm_component_auto_apply base) (bp_allow_wasm_component_auto_apply bootstrap))
          (default (bo_allow_mcp_server_auto_apply base) (bp_allow_mcp_server_auto_apply bootstrap))
          (default (bo_allow_acp_bridge_auto_apply base) (bp_allow_acp_bridge_auto_apply bootstrap))
          (default (bo_allow_acp_runtime_auto_apply base) (bp_allow_acp_runtime_auto_apply bootstrap))
          (default (bo_enforce_ready_execution base) (bp_enforce_ready_execution bootstrap))
          (match bp_max_tasks bootstrap with Some value => Z.max value 1 | None => bo_max_tasks base end))
  end.

(** ** Scan reports on their way to the catalog *)

(** The key of a plugin: its source path and id *)
Definition descriptor_key (d : PluginDescriptor) : string * string := (pd_path d, pm_plugin_id (pd_manifest d)).
Definition candidate_key (c : PluginActivationCandidate) : string * string := (pa_source_path c, pa_plugin_id c).

(** [filter_scan_report_by_keys] *)
Definition filter_scan_report_by_keys (report : PluginScanReport) (allowed_keys : gset (string * string)) : PluginScanReport :=
  let descriptors := filter (λ d, descriptor_key d ∈ allowed_keys) (sr_descriptors report) in
  mkPluginScanReport (sr_scanned_files report) (len descriptors) descriptors.

Definition ready_candidates (activation : PluginActivationPlan) : list PluginActivationCandidate :=
  filter (λ c, pa_status c = ActivationReady) (ap_candidates activation).

(** [filter_scan_report_by_activation] *)
Definition filter_scan_report_by_activation (report : PluginScanReport) (activation : PluginActivationPlan) : PluginScanReport :=
  filter_scan_report_by_keys report (list_to_set (candidate_key <$> ready_candidates activation)).

(** [metadata.entry(key).or_insert(value)] *)
Definition or_insert (key value : string) (metadata : gmap string string) : gmap string string :=
  match metadata !! key with Some _ => metadata | None => <[key := value]> metadata end.
Definition or_insert_some (key : string) (value : option string) (metadata : gmap string string) : gmap string string :=
  match value with Some value => or_insert key value metadata | None => metadata end.

Definition with_metadata (metadata : gmap string string) (d : PluginDescriptor) : PluginDescriptor :=
  let m := pd_manifest d in
  mkPluginDescriptor (pd_path d) (pd_language d)
    (mkPluginManifest (pm_plugin_id m) (pm_provider_id m) (pm_connector_name m) (pm_channel_id m) (pm_endpoint m)
       (pm_capabilities m) metadata (pm_summary m) (pm_tags m) (pm_input_examples m) (pm_output_examples m)
       (pm_defer_loading m)).

(** The file of the SIEM export: what creating its directory, opening it,
    writing a record and ending the line give *)
Record SiemFile := mkSiemFile {
  xf_create_dir_all : Path → result string unit;
  xf_open : string → result string unit;
  xf_write : Value → result string unit;
  xf_newline : result string unit;
}.

Record SpecHost := mkSpecHost {
  eh_paths : ScanHost;
  eh_signatures : SignatureLib;
  eh_load_scan_profile : string → result string SecurityScanProfile;
  eh_load_risk_profile : string → option ApprovalRiskProfile;
  eh_f64_text : f64 → string;
  eh_fs : FileSystem;
  eh_manifest_from_str : string → result string PluginManifest;
  eh_to_lowercase : string → string;
  eh_strings_text : list string → option string;
  eh_values_text : list Value → option string;
  eh_now_epoch_s : Z;
  eh_siem : SiemFile;
}.

Section run.
Context (host : SpecHost).

Definition text_unless_empty {A} (text : list A → option string) (l : list A) : option string :=
  match l with [] => None | _ => text l end.

(** The metadata that [enrich_scan_report_with_translation] gives a descriptor *)
Definition enriched_metadata (runtime : option PluginRuntimeProfile) (d : PluginDescriptor) : gmap string string :=
  let m := pd_manifest d in
  let metadata := or_insert "plugin_source_path" (pd_path d) (pm_metadata m) in
  let metadata := or_insert "plugin_id" (pm_plugin_id m) metadata in
  let metadata := or_insert "defer_loading" (if pm_defer_loading m then "true" else "false") metadata in
  let metadata := or_insert_some "summary" (pm_summary m) metadata in
  let metadata := or_insert_some "tags_json" (text_unless_empty (eh_strings_text host) (pm_tags m)) metadata in
  let metadata := or_insert_some "input_examples_json" (text_unless_empty (eh_values_text host) (pm_input_examples m)) metadata in
  let metadata := or_insert_some "output_examples_json" (text_unless_empty (eh_values_text host) (pm_output_examples m)) metadata in
  let metadata :=
    match metadata !! "component" with
    | Some component =>
        or_insert "component_resolved_path"
          (path_display (normalize_path_for_policy (eh_paths host) (resolve_plugin_relative_path (pd_path d) component)))
          metadata
    | None => metadata
    end in
  match runtime with
  | Some runtime =>
      or_insert "source_language" (rp_source_language runtime)
        (or_insert "entrypoint_hint" (rp_entrypoint_hint runtime)
           (or_insert "adapter_family" (rp_adapter_family runtime)
              (or_insert "bridge_kind" (PluginBridgeKind_as_str (rp_bridge_kind runtime)) metadata)))
  | None => metadata
  end.

Definition runtime_by_key (translation : PluginTranslationReport) : gmap (string * string) PluginRuntimeProfile :=
  foldl (λ m entry, <[(ir_source_path entry, ir_plugin_id entry) := ir_runtime entry]> m) ∅ (tr_entries translation).

Definition enrich_descriptor (translation : PluginTranslationReport) (d : PluginDescriptor) : PluginDescriptor :=
  with_metadata (enriched_metadata (runtime_by_key translation !! descriptor_key d) d) d.

(** [enrich_scan_report_with_translation] *)
Definition enrich_scan_report_with_translation (report : PluginScanReport) (translation : PluginTranslationReport) :
    PluginScanReport :=
  let descriptors := enrich_descriptor translation <$> sr_descriptors report in
  mkPluginScanReport (sr_scanned_files report) (len descriptors) descriptors.

(** [default_integration_catalog] *)
Definition default_integration_catalog : IntegrationCatalog :=
  foldl (λ c '(id, class), register_template (mkProviderTemplate id id "1.0.0" {["class" := class]}) c)
    IntegrationCatalog_new
    [("openai", "llm"); ("anthropic", "llm"); ("github", "devops"); ("slack", "messaging"); ("notion", "workspace")].

(** [operation_connector_name] *)
Definition step_connector_name (step : ProgrammaticStep) : option string :=
  match step with
  | Step_ConnectorCall _ connector_name _ _ _ _ _ => Some connector_name
  | Step_ConnectorBatch _ _ _ calls => Workflow.pc_connector_name <$> head calls
  | _ => None
  end.
Definition operation_connector_name (operation : OperationSpec) : option string :=
  match operation with
  | Op_ConnectorLegacy connector_name _ _ _ | Op_ConnectorCore connector_name _ _ _ _
  | Op_ConnectorExtension connector_name _ _ _ _ _ => Some connector_name
  | Op_ProgrammaticToolCall _ _ _ _ _ _ _ _ steps => head (omap step_connector_name steps)
  | _ => None
  end.

(** ** The gates before the plugins *)

(** What is known when the first gates are through; [None] of a result with
    fuel is a directory walk that ran out of it *)
Record Guards := mkGuards {
  gd_blocked_reason : option string;
  gd_approval : ApprovalDecisionReport;
  gd_security_policy : option SecurityScanSpec;
  gd_checksum : option string;
  gd_sha256 : option string;
  gd_self_awareness : option CodebaseAwarenessSnapshot;
  gd_architecture : option ArchitectureGuardReport;
}.

(** The reasons of a bridge policy that is not the expected one *)
Definition bridge_mismatches (bridge : BridgeSupportSpec) (checksum sha256 : string) : list string :=
  let version := default "unknown" (bs_policy_version bridge) in
  (match bs_expected_checksum bridge with
   | Some expected =>
       if eq_ignore_ascii_case expected checksum then []
       else ["bridge support policy checksum mismatch (version " +:+ version +:+ ")"]
   | None => []
   end)
  ++ (match bs_expected_sha256 bridge with
      | Some expected =>
          if eq_ignore_ascii_case expected sha256 then []
          else ["bridge support policy sha256 mismatch (version " +:+ version +:+ ")"]
      | None => []
      end).

(** [Some(reasons.join("; "))] unless there is none *)
Definition joined_reasons (reasons : list string) (blocked_reason : option string) : option string :=
  match reasons with [] => blocked_reason | _ => Some (join "; " reasons) end.

Definition awareness_config (spec : SelfAwarenessSpec) : CodebaseAwarenessConfig :=
  let base := ArchitectureBoundaryPolicy_default in
  mkCodebaseAwarenessConfig (sa_roots spec) (sa_plugin_roots spec) (sa_proposed_mutations spec)
    (mkArchitectureBoundaryPolicy
       (if bool_decide (sa_immutable_core_paths spec = []) then bp_immutable_prefixes base
        else list_to_set (sa_immutable_core_paths spec))
       (if bool_decide (sa_mutable_extension_paths spec = []) then bp_mutable_prefixes base
        else list_to_set (sa_mutable_extension_paths spec))).

(** The self-awareness step: the block reason, the snapshot and its guard *)
Definition self_awareness_step (fuel : nat) (spec : RunnerSpec) (blocked_reason : option string) :
    option (option string * option CodebaseAwarenessSnapshot) :=
  match rs_self_awareness spec with
  | Some awareness =>
      if negb (sa_enabled awareness) then Some (blocked_reason, None)
      else
        match snapshot (eh_manifest_from_str host) (eh_to_lowercase host) (eh_fs host) fuel (awareness_config awareness) with
        | None => None
        | Some (Err error) => Some (Some ("self-awareness snapshot failed: " +:+ display error), None)
        | Some (Ok sn) =>
            Some (if sa_enforce_guard awareness && ArchitectureGuardReport_has_denials (sn_architecture_guard sn)
                  then Some "architecture guard blocked proposed mutations outside mutable boundaries"
                  else blocked_reason, Some sn)
        end
  | None => Some (blocked_reason, None)
  end.

Definition check_guards (fuel : nat) (spec : RunnerSpec) : option Guards :=
  let approval :=
    evaluate_approval_guard (eh_f64_text host) (eh_load_risk_profile host) (rs_approval spec) (rs_operation spec)
      (eh_now_epoch_s host) in
  let '(blocked_reason, policy) :=
    match security_scan_policy (eh_paths host) (eh_signatures host) (eh_load_scan_profile host) (rs_bridge_support spec) with
    | Ok policy => (None, policy)
    | Err error => (Some error, None)
    end in
  let blocked_reason := if ad_approved approval then blocked_reason else Some (ad_reason approval) in
  let checked := (λ bridge,
    (bridge, bridge_support_policy_checksum (eh_paths host) bridge, bridge_support_policy_sha256 (eh_paths host) bridge))
    <$> enabled_bridge (rs_bridge_support spec) in
  let blocked_reason :=
    match checked with
    | Some (bridge, checksum, sha256) => joined_reasons (bridge_mismatches bridge checksum sha256) blocked_reason
    | None => blocked_reason
    end in
  '(blocked_reason, awareness) ← self_awareness_step fuel spec blocked_reason;
  Some (mkGuards blocked_reason approval policy ((λ c, c.1.2) <$> checked) (snd <$> checked) awareness
          (sn_architecture_guard <$> awareness)).

(** ** Plugins *)
Record PluginStage := mkPluginStage {
  ps_blocked_reason : option string;
  ps_scan_reports : list PluginScanReport;
  ps_translations : list PluginTranslationReport;
  ps_activations : list PluginActivationPlan;
  ps_bootstrap_reports : list BootstrapReport;
  ps_bootstrap_queue : list string;
  ps_pending : list PluginScanReport;
  ps_remaining : option Z;
  ps_security_report : option SecurityScanReport;
}.

(** What the bootstrap of one root gives: the block reason, the plugins to
    absorb, the report, the queue and the budget that is left *)
Definition bootstrap_root (policy : option BootstrapPolicy) (report : PluginScanReport) (activation : PluginActivationPlan)
    (blocked_reason : option string) (remaining : option Z) :
    option string * PluginScanReport * option BootstrapReport * list string * option Z :=
  match policy with
  | Some policy =>
      let effective_policy :=
        match remaining with
        | Some remaining =>
            mkBootstrapPolicy (bo_allow_http_json_auto_apply policy) (bo_allow_process_stdio_auto_apply policy)
              (bo_allow_native_ffi_auto_apply policy) (bo_allow_wasm_component_auto_apply policy)
              (bo_allow_mcp_server_auto_apply policy) (bo_allow_acp_bridge_auto_apply policy)
              (bo_allow_acp_runtime_auto_apply policy) (bo_enforce_ready_execution policy) remaining
        | None => policy
        end in
      let bootstrap_report := bootstrap_execute activation effective_policy in
      let blocked_reason :=
        if bool_decide (blocked_reason = None) && br_blocked bootstrap_report
        then Some (default "bootstrap policy blocked ready plugins" (br_block_reason bootstrap_report))
        else blocked_reason in
      (blocked_reason, filter_scan_report_by_keys report (br_applied_plugin_keys bootstrap_report), Some bootstrap_report,
       bt_bootstrap_hint <$> filter (λ t, bt_status t = Applied) (br_tasks bootstrap_report),
       (λ remaining, sat_sub remaining (br_applied_tasks bootstrap_report)) <$> remaining)
  | None =>
      (blocked_reason, filter_scan_report_by_activation report activation, None,
       pa_bootstrap_hint <$> ready_candidates activation, remaining)
  end.

(** The security scan of one root *)
Definition scan_root_security (policy : option SecurityScanSpec) (allowlist : gset string) (ready : PluginScanReport)
    (blocked_reason : option string) (report : option SecurityScanReport) : option string * option SecurityScanReport :=
  match policy, report with
  | Some policy, Some report =>
      let report :=
        apply_security_scan_delta report (evaluate_plugin_security_scan (eh_paths host) ready policy allowlist) in
      (if bool_decide (blocked_reason = None) && rr_blocked report then rr_block_reason report else blocked_reason, Some report)
  | _, _ => (blocked_reason, report)
  end.

(** One turn of the loop over the roots that scanned its root *)
Definition plugin_root (spec : RunnerSpec) (policy : option SecurityScanSpec) (report : PluginScanReport) (st : PluginStage) :
    PluginStage :=
  let '(mkPluginStage blocked_reason reports translations activations bootstraps queue pending remaining security) := st in
  let translation := translate_scan_report report in
  let '(matrix, enforce) := bridge_support_matrix spec in
  let activation := plan_activation translation matrix in
  let blocked_reason :=
    if enforce && PluginActivationPlan_has_blockers activation
    then Some ("bridge support enforcement blocked " +:+ display (ap_blocked_plugins activation) +:+ " plugin(s)")
    else blocked_reason in
  let ready_report := filter_scan_report_by_activation report activation in
  let '(blocked_reason, filtered_report, bootstrap_report, hints, remaining) :=
    bootstrap_root (bootstrap_policy spec) report activation blocked_reason remaining in
  let '(blocked_reason, security) :=
    scan_root_security policy (security_scan_process_allowlist (rs_bridge_support spec))
      (enrich_scan_report_with_translation ready_report translation) blocked_reason security in
  mkPluginStage blocked_reason (reports ++ [report]) (translations ++ [translation]) (activations ++ [activation])
    (bootstraps ++ option_list bootstrap_report) (queue ++ hints)
    (pending ++ [enrich_scan_report_with_translation filtered_report translation]) remaining security.

Definition block_stage (reason : string) (st : PluginStage) : PluginStage :=
  let '(mkPluginStage _ reports translations activations bootstraps queue pending remaining security) := st in
  mkPluginStage (Some reason) reports translations activations bootstraps queue pending remaining security.

(** The loop over the roots; it stops at the first reason to block. *)
Fixpoint plugin_roots (fuel : nat) (spec : RunnerSpec) (policy : option SecurityScanSpec) (roots : list string)
    (st : PluginStage) : option PluginStage :=
  match roots with
  | [] => Some st
  | root :: roots =>
      match scan_path (eh_manifest_from_str host) (eh_to_lowercase host) (eh_fs host) fuel root with
      | None => None
      | Some (Err error) =>
          Some (block_stage ("plugin scan failed for root " +:+ root +:+ ": " +:+ display error) st)
      | Some (Ok report) =>
          let st := plugin_root spec policy report st in
          match ps_blocked_reason st with
          | Some _ => Some st
          | None => plugin_roots fuel spec policy roots st
          end
      end
  end.

(** The loop that absorbs the pending reports *)
Fixpoint absorb_pending (pending : list PluginScanReport) (state : IntegrationCatalog * VerticalPackManifest) :
    option string * list PluginAbsorbReport * (IntegrationCatalog * VerticalPackManifest) :=
  match pending with
  | [] => (None, [], state)
  | report :: pending =>
      match absorb report state with
      | (Err error, state) => (Some ("plugin absorb failed: " +:+ display error), [], state)
      | (Ok absorbed, state) =>
          let '(blocked_reason, rest, state) := absorb_pending pending state in (blocked_reason, absorbed :: rest, state)
      end
  end.

Definition enabled_roots (spec : RunnerSpec) : option (list string) :=
  match rs_plugin_scan spec with Some scan => if pl_enabled scan then Some (pl_roots scan) else None | None => None end.

(** The whole plugin step, from the state without plugins *)
Definition plugin_stage (fuel : nat) (spec : RunnerSpec) (policy : option SecurityScanSpec)
    (state : IntegrationCatalog * VerticalPackManifest) :
    option (PluginStage * list PluginAbsorbReport * (IntegrationCatalog * VerticalPackManifest)) :=
  let start :=
    mkPluginStage None [] [] [] [] [] [] (bo_max_tasks <$> bootstrap_policy spec)
      ((λ _, SecurityScanReport_default) <$> policy) in
  match enabled_roots spec with
  | None => Some (start, [], state)
  | Some roots =>
      st ← plugin_roots fuel spec policy roots start;
      match ps_blocked_reason st with
      | Some _ => Some (st, [], state)
      | None =>
          let '(blocked_reason, absorbed, state) := absorb_pending (ps_pending st) state in
          Some (match blocked_reason with Some reason => block_stage reason st | None => st end, absorbed, state)
      end
  end.

(** ** Evidence of the security scan *)

(** The distinct texts of the findings, in order *)
Definition distinct (f : SecurityFinding → string) (report : SecurityScanReport) : list string :=
  btree_elements (list_to_set (f <$> rr_findings report)).

Definition finding_value (f : SecurityFinding) : Value :=
  json_object [("correlation_id", json_str (sf_correlation_id f)); ("severity", json_str (severity_text (sf_severity f)));
               ("category", json_str (sf_category f)); ("plugin_id", json_str (sf_plugin_id f));
               ("source_path", json_str (sf_source_path f)); ("message", json_str (sf_message f)); ("evidence", sf_evidence f)].

(** The findings that are exported, and how many are not *)
Definition exported_findings (report : SecurityScanReport) (export : SecuritySiemExportSpec) : list SecurityFinding * Z :=
  let findings := rr_findings report in
  if sx_include_findings export then
    match sx_max_findings_per_record export with
    | Some limit =>
        if (limit <? len findings)%Z then (take (Z.to_nat limit) findings, sat_sub (len findings) limit) else (findings, 0%Z)
    | None => (findings, 0%Z)
    end
  else ([], len findings).

Definition siem_record (pack_id agent_id : string) (report : SecurityScanReport) (findings : list SecurityFinding)
    (truncated_findings : Z) : Value :=
  json_object
    [("event_type", json_str "security_scan_report"); ("ts_epoch_s", json_uint (eh_now_epoch_s host));
     ("pack_id", json_str pack_id); ("agent_id", json_str agent_id); ("blocked", json_bool (rr_blocked report));
     ("block_reason", json_opt json_str (rr_block_reason report));
     ("counts", json_object
       [("scanned_plugins", json_uint (rr_scanned_plugins report)); ("total_findings", json_uint (rr_total_findings report));
        ("high_findings", json_uint (rr_high_findings report)); ("medium_findings", json_uint (rr_medium_findings report));
        ("low_findings", json_uint (rr_low_findings report))]);
     ("categories", json_strs (distinct sf_category report)); ("finding_ids", json_strs (distinct sf_correlation_id report));
     ("truncated_findings", json_uint truncated_findings); ("findings", JArray (finding_value <$> findings))].

(** [emit_security_scan_siem_record] *)
Definition emit_security_scan_siem_record (pack_id agent_id : string) (report : SecurityScanReport)
    (export : SecuritySiemExportSpec) : result string SecuritySiemExportReport :=
  let file := eh_siem host in
  let '(findings, truncated_findings) := exported_findings report export in
  _ ← match parent (components (sx_path export)) with
      | Some (_ :: _ as directory) =>
          map_err (λ error, "create siem export directory failed: " +:+ error) (xf_create_dir_all file directory)
      | _ => Ok ()
      end;
  _ ← map_err (λ error, "open siem export file failed: " +:+ error) (xf_open file (sx_path export));
  _ ← map_err (λ error, "serialize siem export record failed: " +:+ error)
        (xf_write file (siem_record pack_id agent_id report findings truncated_findings));
  _ ← map_err (λ error, "flush siem export record failed: " +:+ error) (xf_newline file);
  Ok (mkSecuritySiemExportReport true (sx_path export) true 1 (len findings) truncated_findings None).

Definition with_siem_export (export : SecuritySiemExportReport) (report : SecurityScanReport) : SecurityScanReport :=
  mkSecurityScanReport (rr_enabled report) (rr_scanned_plugins report) (rr_total_findings report) (rr_high_findings report)
    (rr_medium_findings report) (rr_low_findings report) (rr_blocked report) (rr_block_reason report) (Some export)
    (rr_findings report).

(** The export step *)
Definition siem_step (pack_id agent_id : string) (policy : option SecurityScanSpec) (report : option SecurityScanReport)
    (blocked_reason : option string) : option string * option SecurityScanReport :=
  match policy, report with
  | Some policy, Some report =>
      match ss_siem_export policy with
      | Some export =>
          if negb (sx_enabled export) then (blocked_reason, Some report)
          else
            match emit_security_scan_siem_record pack_id agent_id report export with
            | Ok exported => (blocked_reason, Some (with_siem_export exported report))
            | Err error =>
                (if sx_fail_on_error export && bool_decide (blocked_reason = None)
                 then Some ("security scan siem export failed: " +:+ error) else blocked_reason,
                 Some (with_siem_export (mkSecuritySiemExportReport true (sx_path export) false 0 0 0 (Some error)) report))
            end
      | None => (blocked_reason, Some report)
      end
  | _, _ => (blocked_reason, report)
  end.

(** The kernel that the scenario will run on, with [record_audit_event] *)
Context {K : Type} (record_audit_event : option string → AuditEventKind → ST K KernelError unit).

(** [emit_security_scan_audit_event] *)
Definition emit_security_scan_audit_event (pack_id agent_id : string) (report : SecurityScanReport) : ST K string unit :=
  if (rr_scanned_plugins report =? 0)%Z && (rr_total_findings report =? 0)%Z then mret ()
  else
    st_map_err (λ error, "failed to record security scan audit event: " +:+ display error)
      (record_audit_event (Some agent_id)
         (SecurityScanEvaluated pack_id (rr_scanned_plugins report) (rr_total_findings report) (rr_high_findings report)
            (rr_medium_findings report) (rr_low_findings report) (rr_blocked report) (rr_block_reason report)
            (distinct sf_category report) (distinct sf_correlation_id report))).

Definition audit_step (pack_id agent_id : string) (report : option SecurityScanReport) (blocked_reason : option string) :
    K → option string * K := λ kernel,
  match report with
  | Some report =>
      match emit_security_scan_audit_event pack_id agent_id report kernel with
      | (Err error, kernel) => (if bool_decide (blocked_reason = None) then Some error else blocked_reason, kernel)
      | (Ok _, kernel) => (blocked_reason, kernel)
      end
  | None => (blocked_reason, kernel)
  end.

(** ** Provisioning and hotfixes *)
Definition auto_provision_step (spec : RunnerSpec) (state : IntegrationCatalog * VerticalPackManifest) :
    option string * option ProvisionPlan * (IntegrationCatalog * VerticalPackManifest) :=
  match rs_auto_provision spec with
  | Some auto =>
      if negb (au_enabled auto) then (None, None, state)
      else
        let request :=
          mkAutoProvisionRequest (au_provider_id auto) (au_channel_id auto)
            (or_else (au_connector_name auto) (operation_connector_name (rs_operation spec))) (au_endpoint auto)
            (au_required_capabilities auto) in
        match Integration.plan state.1 state.2 request with
        | Err error => (Some ("auto-provision planning failed: " +:+ display error), None, state)
        | Ok plan =>
            if ProvisionPlan_is_noop plan then (None, None, state)
            else
              match apply_plan plan state with
              | Err error => (Some ("applying auto-provision plan failed: " +:+ display error), None, state)
              | Ok state => (None, Some plan, state)
              end
        end
  | None => (None, None, state)
  end.

(** The loop over the hotfixes; the ones before a failure stay applied *)
Fixpoint apply_hotfixes (hotfixes : list HotfixSpec) (catalog : IntegrationCatalog) : option string * IntegrationCatalog :=
  match hotfixes with
  | [] => (None, catalog)
  | hotfix :: hotfixes =>
      match apply_hotfix (to_kernel_hotfix hotfix) catalog with
      | Err error => (Some ("hotfix application failed: " +:+ display error), catalog)
      | Ok catalog => apply_hotfixes hotfixes catalog
      end
  end.

(** ** Reports *)

(** [SpecRunReport] without the events of the audit sink *)
Record SpecRunReport := mkSpecRunReport {
  rn_pack_id : string;
  rn_agent_id : string;
  rn_operation_kind : string;
  rn_blocked_reason : option string;
  rn_approval_guard : ApprovalDecisionReport;
  rn_bridge_support_checksum : option string;
  rn_bridge_support_sha256 : option string;
  rn_self_awareness : option CodebaseAwarenessSnapshot;
  rn_architecture_guard : option ArchitectureGuardReport;
  rn_plugin_scan_reports : list PluginScanReport;
  rn_plugin_translation_reports : list PluginTranslationReport;
  rn_plugin_activation_plans : list PluginActivationPlan;
  rn_plugin_bootstrap_reports : list BootstrapReport;
  rn_plugin_bootstrap_queue : list string;
  rn_plugin_absorb_reports : list PluginAbsorbReport;
  rn_security_scan_report : option SecurityScanReport;
  rn_auto_provision_plan : option ProvisionPlan;
  rn_outcome : Value;
  rn_integration_catalog : IntegrationCatalog;
}.

(** [blocked_outcome] *)
Definition blocked_outcome (reason : string) : Value :=
  json_object [("status", json_str "blocked"); ("reason", json_str reason)].

(** [build_blocked_spec_run_report] *)
Definition build_blocked_spec_run_report (pack_id agent_id reason : string) (guards : Guards) (stage : PluginStage)
    (absorbed : list PluginAbsorbReport) (security_report : option SecurityScanReport)
    (auto_provision_plan : option ProvisionPlan) (catalog : IntegrationCatalog) : SpecRunReport :=
  mkSpecRunReport pack_id agent_id "blocked" (Some reason) (gd_approval guards) (gd_checksum guards) (gd_sha256 guards)
    (gd_self_awareness guards) (gd_architecture guards) (ps_scan_reports stage) (ps_translations stage) (ps_activations stage)
    (ps_bootstrap_reports stage) (ps_bootstrap_queue stage) absorbed security_report auto_provision_plan
    (blocked_outcome reason) catalog.

(** What the kernel is configured with when nothing blocks, with the values of
    [execute_spec] at that point *)
Record Admission := mkAdmission {
  am_catalog : IntegrationCatalog;
  am_pack : VerticalPackManifest;
  am_guards : Guards;
  am_stage : PluginStage;
  am_absorbed : list PluginAbsorbReport;
  am_security_report : option SecurityScanReport;
  am_auto_provision_plan : option ProvisionPlan;
  am_runtime_policy : BridgeRuntimePolicy;
  am_connectors : list DynamicCatalogConnector;
}.

(** [register_dynamic_catalog_connectors]: one connector per provider, in the
    order of their ids *)
Definition dynamic_connectors (catalog : IntegrationCatalog) (policy : BridgeRuntimePolicy) : list DynamicCatalogConnector :=
  (λ provider, mkDynamicCatalogConnector (Integration.pc_connector_name provider) (pc_provider_id provider) policy)
  <$> catalog_providers catalog.

Definition empty_stage (policy : option SecurityScanSpec) : PluginStage :=
  mkPluginStage None [] [] [] [] [] [] None ((λ _, SecurityScanReport_default) <$> policy).

(** [execute_spec_with_native_tool_executor] up to the registration of the
    connectors, on a kernel that keeps the audit events *)
Definition admit_spec (fuel : nat) (spec : RunnerSpec) (kernel : K) : option (result SpecRunReport Admission * K) :=
  guards ← check_guards fuel spec;
  let policy := gd_security_policy guards in
  let agent_id := rs_agent_id spec in
  let pack := rs_pack spec in
  match gd_blocked_reason guards with
  | Some reason =>
      let start := empty_stage policy in
      Some (Err (build_blocked_spec_run_report (pk_pack_id pack) agent_id reason guards start []
                   (ps_security_report start) None default_integration_catalog), kernel)
  | None =>
      '(stage, absorbed, state) ← plugin_stage fuel spec policy (default_integration_catalog, pack);
      let pack_id := pk_pack_id state.2 in
      let '(blocked_reason, report) := siem_step pack_id agent_id policy (ps_security_report stage) (ps_blocked_reason stage) in
      match audit_step pack_id agent_id report blocked_reason kernel with
      | (Some reason, kernel) =>
          Some (Err (build_blocked_spec_run_report pack_id agent_id reason guards stage absorbed report None state.1), kernel)
      | (None, kernel) =>
          let '(blocked_reason, plan, state) := auto_provision_step spec state in
          let '(blocked_reason, catalog) :=
            match blocked_reason with
            | Some reason => (Some reason, state.1)
            | None => apply_hotfixes (rs_hotfixes spec) state.1
            end in
          match blocked_reason with
          | Some reason =>
              Some (Err (build_blocked_spec_run_report (pk_pack_id state.2) agent_id reason guards stage absorbed report plan
                           catalog), kernel)
          | None =>
              let runtime_policy := bridge_runtime_policy (eh_paths host) spec policy in
              Some (Ok (mkAdmission catalog state.2 guards stage absorbed report plan runtime_policy
                          (dynamic_connectors catalog runtime_policy)), kernel)
          end
      end
  end.
End run.

(** ** What an admitted scenario passed *)

(** Keys are applied only for ready candidates whose bridge the policy applies. *)
Lemma bootstrap_keys_from policy cs r n key :
  key ∈ br_applied_plugin_keys (foldl (bootstrap_step policy) (r, n) cs).1 →
  key ∈ br_applied_plugin_keys r ∨
  ∃ c, c ∈ cs ∧ candidate_key c = key ∧ pa_status c = ActivationReady ∧
    bridge_auto_apply_allowed (pa_bridge_kind c) policy = true.
Proof.
  revert r n. induction cs as [|c cs IH]; intros r n; cbn [foldl]; [by left|].
  destruct (bootstrap_step policy (r, n) c) as [r' n'] eqn:E. intros [H|(c' & Hin & Hc')]%IH;
    [|right; exists c'; split; [by right|done]].
  unfold bootstrap_step, push_task in E. destruct (pa_status c) eqn:Es; [|injection E as <- _; by left..].
  destruct (bo_max_tasks policy <=? n)%Z; [injection E as <- _; by left|].
  destruct (bridge_auto_apply_allowed (pa_bridge_kind c) policy) eqn:Ea; injection E as <- _; cbn in H; [|by left].
  apply elem_of_union in H as [H|H%elem_of_singleton]; [by left|right]. exists c. split; [by left|]. by subst.
Qed.

Lemma bootstrap_execute_keys policy activation key :
  key ∈ br_applied_plugin_keys (bootstrap_execute activation policy) →
  ∃ c, c ∈ ap_candidates activation ∧ candidate_key c = key ∧ pa_status c = ActivationReady ∧
    bridge_auto_apply_allowed (pa_bridge_kind c) policy = true.
Proof.
  unfold bootstrap_execute. pose proof (bootstrap_keys_from policy (ap_candidates activation) BootstrapReport_default 0 key) as H.
  destruct (foldl _ _ _) as [r n]. cbn [fst] in H.
  destruct (_ && _); cbn; intros Hk; destruct (H Hk) as [He|?]; try done; by apply elem_of_empty in He.
Qed.

Lemma elem_of_filtered report keys d :
  d ∈ sr_descriptors (filter_scan_report_by_keys report keys) ↔ descriptor_key d ∈ keys ∧ d ∈ sr_descriptors report.
Proof. unfold filter_scan_report_by_keys. cbn [sr_descriptors]. by rewrite list_elem_of_filter. Qed.

Lemma elem_of_ready activation key :
  key ∈ (list_to_set (candidate_key <$> ready_candidates activation) : gset (string * string)) ↔
  ∃ c, c ∈ ap_candidates activation ∧ candidate_key c = key ∧ pa_status c = ActivationReady.
Proof.
  rewrite elem_of_list_to_set, list_elem_of_fmap. unfold ready_candidates. setoid_rewrite list_elem_of_filter. naive_solver.
Qed.

Section admitted.
Context (host : SpecHost) (spec : RunnerSpec).
Abbreviation allowlist := (security_scan_process_allowlist (rs_bridge_support spec)).
Abbreviation activation_of translation := (plan_activation translation (bridge_support_matrix spec).1).
Abbreviation scan fuel root := (scan_path (eh_manifest_from_str host) (eh_to_lowercase host) (eh_fs host) fuel root).

(** Where a plugin that is absorbed comes from: a scanned root, a ready
    candidate and, if there is a bootstrap policy, a bridge it applies *)
Definition plugin_origin (fuel : nat) (roots : list string) (d : PluginDescriptor) : Prop :=
  ∃ root scanned d0 c, root ∈ roots ∧ scan fuel root = Some (Ok scanned) ∧ d0 ∈ sr_descriptors scanned ∧
    d = enrich_descriptor host (translate_scan_report scanned) d0 ∧
    c ∈ ap_candidates (activation_of (translate_scan_report scanned)) ∧ candidate_key c = descriptor_key d0 ∧
    pa_status c = ActivationReady ∧
    ∀ policy, bootstrap_policy spec = Some policy → bridge_auto_apply_allowed (pa_bridge_kind c) policy = true.

Definition passes (policy : option SecurityScanSpec) (d : PluginDescriptor) : Prop :=
  ∀ p, policy = Some p → ss_block_on_high p = true → plugin_vetted (eh_paths host) p allowlist d.

(** The invariant of the loop over the roots *)
Record stage_ok (fuel : nat) (roots : list string) (policy : option SecurityScanSpec) (st : PluginStage) : Prop := {
  sk_report : match policy, ps_security_report st with
              | Some _, Some report => rr_blocked report = false | None, None => True | _, _ => False
              end;
  sk_pending : ∀ report d, report ∈ ps_pending st → d ∈ sr_descriptors report →
    plugin_origin fuel roots d ∧ passes policy d;
}.

Lemma scan_passes policy p report : policy = Some p →
  sd_block_reason (evaluate_plugin_security_scan (eh_paths host) report p allowlist) = None →
  ∀ d, d ∈ sr_descriptors report → passes policy d.
Proof.
  intros -> H d Hd q [= <-] Hb. revert H. unfold evaluate_plugin_security_scan.
  destruct (scan_fold (eh_paths host) p allowlist (sr_descriptors report) SecurityScanDelta_default) as (H0 & H1 & _ & _); [done|].
  destruct (foldl _ _ _) as [sc hi me lo fi re]. cbn in *. rewrite Hb. cbn [andb].
  destruct (Z.ltb_spec 0 hi); [done|]. intros _. assert (hi = 0)%Z as Hz by lia. apply H1 in Hz as [_ Hall].
  by eapply Forall_forall in Hall.
Qed.

Lemma scan_root_passes policy ready blocked report report' :
  match policy, report with Some _, Some r => rr_blocked r = false | None, None => True | _, _ => False end →
  scan_root_security host policy allowlist ready blocked report = (None, report') →
  blocked = None ∧ (∀ d, d ∈ sr_descriptors ready → passes policy d) ∧
  match policy, report' with Some _, Some r => rr_blocked r = false | None, None => True | _, _ => False end.
Proof.
  unfold scan_root_security. destruct policy as [p|], report as [r|]; try done.
  - intros Hr. unfold apply_security_scan_delta.
    pose proof (scan_passes (Some p) p ready eq_refl) as Hs.
    destruct (evaluate_plugin_security_scan _ ready p allowlist) as [sc hi me lo fi reason]. cbn in Hs |- *.
    destruct reason as [reason|]; cbn.
    + case_bool_decide; cbn; [done|]. by intros [= Hb _].
    + rewrite Hr, andb_false_r. intros [= -> <-]. split_and!; [done|by apply Hs|done].
  - intros _ [= -> <-]. split_and!; [done| |done]. by intros d _ p ?.
Qed.

Lemma bootstrap_root_keeps report activation blocked remaining blocked' filtered b hints rem d :
  bootstrap_root (bootstrap_policy spec) report activation blocked remaining = (blocked', filtered, b, hints, rem) →
  d ∈ sr_descriptors filtered →
  d ∈ sr_descriptors report ∧ ∃ c, c ∈ ap_candidates activation ∧ candidate_key c = descriptor_key d ∧
    pa_status c = ActivationReady ∧
    ∀ policy, bootstrap_policy spec = Some policy → bridge_auto_apply_allowed (pa_bridge_kind c) policy = true.
Proof.
  unfold bootstrap_root. destruct (bootstrap_policy spec) as [policy|]; intros [= _ <- _ _ _].
  - intros [Hk Hd]%elem_of_filtered. apply bootstrap_execute_keys in Hk as (c & Hc & Hkey & Hs & Ha). split; [done|].
    exists c. split_and!; [done..|]. intros q [= <-]. destruct remaining; [|done]. by destruct (pa_bridge_kind c).
  - intros [Hk Hd]%elem_of_filtered. apply elem_of_ready in Hk as (c & Hc & Hkey & Hs). split; [done|].
    exists c. split_and!; [done..|]. by intros q ?.
Qed.

Lemma plugin_root_ok fuel roots policy root report st :
  root ∈ roots → scan fuel root = Some (Ok report) → stage_ok fuel roots policy st →
  ps_blocked_reason (plugin_root host spec policy report st) = None →
  stage_ok fuel roots policy (plugin_root host spec policy report st).
Proof.
  intros Hroot Hscan [Hr Hp]. destruct st as [blocked reports trs acts bs queue pending rem sec]. cbn in Hr, Hp.
  unfold plugin_root. destruct (bridge_support_matrix spec) as [matrix enforce] eqn:Em.
  set (translation := translate_scan_report report). set (activation := plan_activation translation matrix).
  set (blocked1 := if _ && _ then _ else _).
  destruct (bootstrap_root _ report activation blocked1 rem) as [[[[blocked2 filtered] b] hints] rem'] eqn:Eb.
  destruct (scan_root_security _ _ _ _ blocked2 sec) as [blocked3 sec'] eqn:Es. cbn. intros ->.
  destruct (scan_root_passes _ _ _ _ _ Hr Es) as (_ & Hpass & Hr'). split; [done|]. cbn.
  intros rep d [Hin|Hin]%elem_of_app Hd; [by apply (Hp rep)|]. apply list_elem_of_singleton in Hin as ->.
  apply list_elem_of_fmap in Hd as (d0 & -> & Hd0).
  destruct (bootstrap_root_keeps _ _ _ _ _ _ _ _ _ d0 Eb Hd0) as (Hrep & c & Hc & Hkey & Hst & Hall).
  split; [exists root, report, d0, c; by rewrite Em|]. apply Hpass, list_elem_of_fmap. exists d0. split; [done|].
  apply elem_of_filtered. split; [|done]. apply elem_of_ready. by exists c.
Qed.

Lemma plugin_roots_ok fuel roots policy todo st st' :
  todo ⊆ roots → stage_ok fuel roots policy st → plugin_roots host fuel spec policy todo st = Some st' →
  ps_blocked_reason st' = None → stage_ok fuel roots policy st'.
Proof.
  revert st. induction todo as [|root todo IH]; intros st Hsub Hok; cbn [plugin_roots]; [by intros [= <-]|].
  destruct (scan fuel root) as [[report|error]|] eqn:Hscan; [|by destruct st; intros [= <-]|done].
  assert (root ∈ roots) as Hroot by (apply Hsub; by left).
  pose proof (plugin_root_ok fuel roots policy root report st Hroot Hscan Hok) as Hnext.
  destruct (ps_blocked_reason (plugin_root host spec policy report st)) eqn:Eb; [intros [= <-]; congruence|].
  apply IH; [|by apply Hnext]. intros x Hx. apply Hsub. by right.
Qed.

Lemma plugin_stage_ok fuel policy state st absorbed state' :
  plugin_stage host fuel spec policy state = Some (st, absorbed, state') → ps_blocked_reason st = None →
  stage_ok fuel (default [] (enabled_roots spec)) policy st ∧
  absorb_pending (ps_pending st) state = (None, absorbed, state').
Proof.
  unfold plugin_stage. set (start := mkPluginStage _ _ _ _ _ _ _ _ _).
  assert (∀ roots, stage_ok fuel roots policy start) as Hstart.
  { intros roots. split; [by destruct policy|]. intros r d Hin. by apply not_elem_of_nil in Hin. }
  destruct (enabled_roots spec) as [roots|]; [|intros [= <- <- <-] _; split; [apply Hstart|done]].
  destruct (plugin_roots host fuel spec policy roots start) as [st1|] eqn:Er; [|done]. cbn [mbind option_bind].
  destruct (ps_blocked_reason st1) eqn:Eb; [intros [= <- <- <-]; congruence|].
  pose proof (plugin_roots_ok fuel roots policy roots start st1 (reflexivity roots) (Hstart roots) Er Eb) as Hok.
  destruct (absorb_pending (ps_pending st1) state) as [[blocked ab] s] eqn:Ea.
  destruct blocked as [reason|]; [destruct st1; by intros [= <- _ _]|]. intros [= <- <- <-] _. by split.
Qed.

Lemma check_guards_none fuel guards : check_guards host fuel spec = Some guards → gd_blocked_reason guards = None →
  ad_approved (evaluate_approval_guard (eh_f64_text host) (eh_load_risk_profile host) (rs_approval spec) (rs_operation spec)
                 (eh_now_epoch_s host)) = true ∧
  security_scan_policy (eh_paths host) (eh_signatures host) (eh_load_scan_profile host) (rs_bridge_support spec)
    = Ok (gd_security_policy guards) ∧
  (∀ bridge, enabled_bridge (rs_bridge_support spec) = Some bridge →
     bridge_mismatches bridge (bridge_support_policy_checksum (eh_paths host) bridge)
       (bridge_support_policy_sha256 (eh_paths host) bridge) = []) ∧
  (∀ awareness, rs_self_awareness spec = Some awareness → sa_enabled awareness = true → ∃ sn,
     snapshot (eh_manifest_from_str host) (eh_to_lowercase host) (eh_fs host) fuel (awareness_config awareness) = Some (Ok sn) ∧
     (sa_enforce_guard awareness = true → ArchitectureGuardReport_has_denials (sn_architecture_guard sn) = false)).
Proof.
  unfold check_guards. set (approval := evaluate_approval_guard _ _ _ _ _).
  destruct (security_scan_policy _ _ _ _) as [policy|error].
  all: cbv zeta; intros H Hb; apply bind_Some in H as ([blocked awareness] & Ha & [= <-]); cbn in Hb |- *; subst blocked.
  all: unfold self_awareness_step in Ha.
  all: match type of Ha with context [Some (?b, None)] => set (before := b) in Ha end.
  all: assert (before = None ∧ ∀ aw, rs_self_awareness spec = Some aw → sa_enabled aw = true → ∃ sn,
     snapshot (eh_manifest_from_str host) (eh_to_lowercase host) (eh_fs host) fuel (awareness_config aw) = Some (Ok sn) ∧
     (sa_enforce_guard aw = true → ArchitectureGuardReport_has_denials (sn_architecture_guard sn) = false)) as [Hbefore Haw].
  1,3: destruct (rs_self_awareness spec) as [aw|]; [|by injection Ha as -> _];
    destruct (sa_enabled aw) eqn:Een; cbn [negb] in Ha; [|split; [by injection Ha as -> _|by intros ? [= <-]; congruence]];
    destruct (snapshot _ _ _ _ _) as [[sn|e]|] eqn:Esn; [|by injection Ha|done];
    destruct (sa_enforce_guard aw && _) eqn:Eg; [by injection Ha|]; injection Ha as -> _;
    split; [done|]; intros ? [= <-] _; exists sn; split; [done|]; intros Ht; rewrite Ht in Eg; exact Eg.
  all: unfold before in Hbefore; clear Ha before.
  all: destruct (enabled_bridge (rs_bridge_support spec)) as [bridge|]; cbn in Hbefore.
  all: try (destruct (bridge_mismatches bridge _ _) eqn:Emm; [|done]; cbn in Hbefore).
  all: destruct (ad_approved approval); try done; split_and!; try done.
  by intros b [= <-].
Qed.

Lemma siem_step_None pack_id agent_id policy report blocked report' :
  siem_step host pack_id agent_id policy report blocked = (None, report') → blocked = None.
Proof.
  unfold siem_step. destruct policy as [p|], report as [r|]; try by intros [= -> _].
  destruct (ss_siem_export p) as [export|]; [|by intros [= -> _]]. destruct (negb _); [by intros [= -> _]|].
  destruct (emit_security_scan_siem_record _ _ _ _ _); [by intros [= -> _]|]. destruct (_ && _); [done|by intros [= -> _]].
Qed.

Context {K : Type} (record_audit_event : option string → AuditEventKind → ST K KernelError unit).

Lemma audit_step_None pack_id agent_id report blocked kernel kernel' :
  audit_step record_audit_event pack_id agent_id report blocked kernel = (None, kernel') → blocked = None.
Proof.
  unfold audit_step. destruct report as [r|]; [|by intros [= -> _]].
  destruct (emit_security_scan_audit_event _ _ _ _ kernel) as [[?|?] ?]; [by intros [= -> _]|].
  by case_bool_decide; intros [= ].
Qed.

(** C26. A scenario that is admitted has passed every gate. The approval guard
    approves its operation; its bridge policy is the one it pins; the guard
    of the architecture denies nothing where it is enforced; every plugin that
    was absorbed was found in a configured root, is a ready candidate whose bridge
    the bootstrap policy applies, and, with blocking enabled, is vetted by the
    security scan; and the catalog and the pack are the defaults with exactly
    those plugins absorbed, then provisioned and patched by the hotfixes. *)
Theorem admitted_scenario_passed_every_gate fuel kernel a kernel' :
  admit_spec host record_audit_event fuel spec kernel = Some (Ok a, kernel') →
  ad_approved (evaluate_approval_guard (eh_f64_text host) (eh_load_risk_profile host) (rs_approval spec) (rs_operation spec)
                 (eh_now_epoch_s host)) = true ∧
  (∀ bridge, enabled_bridge (rs_bridge_support spec) = Some bridge →
     bridge_mismatches bridge (bridge_support_policy_checksum (eh_paths host) bridge)
       (bridge_support_policy_sha256 (eh_paths host) bridge) = []) ∧
  (∀ awareness, rs_self_awareness spec = Some awareness → sa_enabled awareness = true → ∃ sn,
     snapshot (eh_manifest_from_str host) (eh_to_lowercase host) (eh_fs host) fuel (awareness_config awareness) = Some (Ok sn) ∧
     (sa_enforce_guard awareness = true → ArchitectureGuardReport_has_denials (sn_architecture_guard sn) = false)) ∧
  ∃ policy pending absorbed provisioned,
    security_scan_policy (eh_paths host) (eh_signatures host) (eh_load_scan_profile host) (rs_bridge_support spec) = Ok policy ∧
    (∀ report d, report ∈ pending → d ∈ sr_descriptors report →
       plugin_origin fuel (default [] (enabled_roots spec)) d ∧ passes policy d) ∧
    absorb_pending pending (default_integration_catalog, rs_pack spec) = (None, am_absorbed a, absorbed) ∧
    auto_provision_step spec absorbed = (None, am_auto_provision_plan a, (provisioned, am_pack a)) ∧
    apply_hotfixes (rs_hotfixes spec) provisioned = (None, am_catalog a) ∧
    am_connectors a = dynamic_connectors (am_catalog a) (bridge_runtime_policy (eh_paths host) spec policy).
Proof.
  unfold admit_spec. intros (guards & Hg & H)%bind_Some. cbv zeta in H.
  destruct (gd_blocked_reason guards) eqn:Eb; [done|].
  destruct (check_guards_none fuel guards Hg Eb) as (Happ & Hpol & Hbr & Haw).
  apply bind_Some in H as ([[stage ab] state] & Hst & H). cbv zeta in H.
  destruct (siem_step _ _ _ _ _ _) as [blocked report] eqn:Es.
  destruct (audit_step _ _ _ report blocked kernel) as [[reason|] kernel1] eqn:Ea; [done|]. apply audit_step_None in Ea as ->.
  apply siem_step_None in Es. destruct (plugin_stage_ok _ _ _ _ _ _ Hst Es) as [[_ Hpend] Habs].
  destruct (auto_provision_step spec state) as [[blocked plan] [provisioned pack]] eqn:Ep.
  destruct blocked as [reason|]; [done|]. cbn [fst snd] in H.
  destruct (apply_hotfixes (rs_hotfixes spec) provisioned) as [[reason|] catalog] eqn:Eh; [done|]. injection H as <- _.
  split_and!; [done..|]. cbn. by exists (gd_security_policy guards), (ps_pending stage), state, provisioned.
Qed.

(** The connectors are those of the catalog, under the runtime policy of the scenario. *)
Lemma admitted_connectors fuel kernel a kernel' :
  admit_spec host record_audit_event fuel spec kernel = Some (Ok a, kernel') →
  am_connectors a = dynamic_connectors (am_catalog a) (am_runtime_policy a).
Proof.
  unfold admit_spec. intros (guards & _ & H)%bind_Some. cbv zeta in H. destruct (gd_blocked_reason guards); [done|].
  apply bind_Some in H as ([[stage ab] state] & _ & H). destruct (siem_step _ _ _ _ _ _) as [blocked report].
  destruct (audit_step _ _ _ report blocked kernel) as [[reason|] kernel1]; [done|].
  destruct (auto_provision_step spec state) as [[[reason|] plan] [provisioned pack]]; [done|].
  destruct (apply_hotfixes _ _) as [[reason|] catalog]; [done|]. by injection H as <- _.
Qed.

(** All that the admission does with the kernel is to record events. *)
Lemma admission_keeps (Q : K → Prop) fuel kernel r kernel' :
  (∀ agent_id kind k, Q k → Q (record_audit_event agent_id kind k).2) → Q kernel →
  admit_spec host record_audit_event fuel spec kernel = Some (r, kernel') → Q kernel'.
Proof.
  intros Hrec Hk. unfold admit_spec. intros (guards & _ & H)%bind_Some. cbv zeta in H.
  destruct (gd_blocked_reason guards); [by injection H as _ <-|].
  apply bind_Some in H as ([[stage ab] state] & _ & H). destruct (siem_step _ _ _ _ _ _) as [blocked report].
  assert (Q (audit_step record_audit_event (pk_pack_id state.2) (rs_agent_id spec) report blocked kernel).2) as Hk1.
  { unfold audit_step. destruct report as [rep|]; [|done]. unfold emit_security_scan_audit_event.
    destruct (_ && _); [done|]. unfold st_map_err.
    match goal with |- context [record_audit_event ?a ?x kernel] =>
      specialize (Hrec a x kernel Hk); destruct (record_audit_event a x kernel) as [[?|?] ?] end; done. }
  destruct (audit_step _ _ _ report blocked kernel) as [[reason|] kernel1]; [by injection H as _ <-|].
  destruct (auto_provision_step spec state) as [[[reason|] plan] [provisioned pack]]; [by injection H as _ <-|].
  by destruct (apply_hotfixes _ _) as [[reason|] catalog]; injection H as _ <-.
Qed.

(** The report of a scenario that is not admitted says why. *)
Lemma admission_blocked fuel kernel report kernel' :
  admit_spec host record_audit_event fuel spec kernel = Some (Err report, kernel') → rn_blocked_reason report ≠ None.
Proof.
  unfold admit_spec. intros (guards & _ & H)%bind_Some. cbv zeta in H.
  destruct (gd_blocked_reason guards); [by injection H as <- _|].
  apply bind_Some in H as ([[stage ab] state] & _ & H). destruct (siem_step _ _ _ _ _ _) as [blocked rep].
  destruct (audit_step _ _ _ rep blocked kernel) as [[reason|] kernel1]; [by injection H as <- _|].
  destruct (auto_provision_step spec state) as [[[reason|] plan] [provisioned pack]]; [by injection H as <- _|].
  destruct (apply_hotfixes _ _) as [[reason|] catalog]; [by injection H as <- _|done].
Qed.

(** On a file system without directory cycles, fuel above the rank of every
    root gives an answer. *)
Lemma scan_total rank fuel root : ranked (eh_fs host) rank → rank root < fuel → is_Some (scan fuel root).
Proof.
  intros Hr Hf. unfold scan_path, collect_files. destruct (fs_exists (eh_fs host) root); cbn; [|eauto].
  destruct (walk_total (eh_fs host) PluginFileRead (λ path _, path) (λ child, Ok child) rank fuel root Hr Hf) as [[] ->]; eauto.
Qed.

Lemma scan_roots_total rank fuel roots : ranked (eh_fs host) rank → Forall (λ r, rank r < fuel) roots →
  is_Some (scan_roots (eh_manifest_from_str host) (eh_to_lowercase host) (eh_fs host) fuel roots).
Proof.
  intros Hr. induction 1 as [|root roots Hf _ IH]; cbn [scan_roots]; [eauto|].
  destruct (scan_total rank fuel root Hr Hf) as [[report|error] ->]; [|eauto]. destruct IH as [[rest|error] ->]; eauto.
Qed.

Definition awareness_roots : list string :=
  match rs_self_awareness spec with Some aw => "." :: sa_roots aw ++ sa_plugin_roots aw | None => [] end.

Lemma snapshot_total rank fuel config : ranked (eh_fs host) rank →
  Forall (λ r, rank r < fuel) ("." :: aw_roots config ++ aw_plugin_roots config) →
  is_Some (snapshot (eh_manifest_from_str host) (eh_to_lowercase host) (eh_fs host) fuel config).
Proof.
  intros Hr [Hdot [H1 H2]%Forall_app]%Forall_cons. unfold snapshot.
  set (roots := match aw_roots config with [] => _ | rs => rs end).
  assert (Forall (λ r, rank r < fuel) roots) as Hroots.
  { unfold roots. destruct (aw_roots config); [by constructor|done]. }
  destruct (collect_roots_total (eh_fs host) rank fuel roots Hr Hroots) as [[facts|e] ->]; [|eauto]. cbv zeta.
  set (plugins := match aw_plugin_roots config with [] => _ | rs => rs end).
  assert (Forall (λ r, rank r < fuel) plugins) as Hplugins.
  { unfold plugins. by destruct (aw_plugin_roots config). }
  destruct (scan_roots_total rank fuel plugins Hr Hplugins) as [[reports|e] ->]; eauto.
Qed.

Lemma plugin_roots_total rank fuel policy roots st : ranked (eh_fs host) rank → Forall (λ r, rank r < fuel) roots →
  is_Some (plugin_roots host fuel spec policy roots st).
Proof.
  intros Hr Hroots. revert st. induction Hroots as [|root roots Hf _ IH]; intros st; cbn [plugin_roots]; [eauto|].
  destruct (scan_total rank fuel root Hr Hf) as [[report|error] ->]; [|eauto].
  destruct (ps_blocked_reason _); [eauto|apply IH].
Qed.

(** Admission answers: with fuel above the rank of every root it reads, there
    is a report or an admission. *)
Theorem admission_answers rank fuel kernel : ranked (eh_fs host) rank →
  Forall (λ r, rank r < fuel) (awareness_roots ++ default [] (enabled_roots spec)) →
  is_Some (admit_spec host record_audit_event fuel spec kernel).
Proof.
  intros Hr [Haw Hroots]%Forall_app. unfold admit_spec.
  assert (is_Some (check_guards host fuel spec)) as [guards ->].
  { unfold check_guards. destruct (match security_scan_policy _ _ _ _ with Ok p => _ | Err e => _ end) as [b0 policy].
    cbv zeta. set (before := match _ with Some _ => _ | None => _ end) at 1.
    assert (∀ b, is_Some (self_awareness_step host fuel spec b)) as Hs.
    { intros b. unfold self_awareness_step. unfold awareness_roots in Haw. destruct (rs_self_awareness spec) as [aw|]; [|eauto].
      destruct (negb _); [eauto|]. destruct (snapshot_total rank fuel (awareness_config aw) Hr Haw) as [[sn|e] ->]; eauto. }
    destruct (Hs before) as [[b aw] ->]. cbn. eauto. }
  cbn [mbind option_bind]. cbv zeta. destruct (gd_blocked_reason guards); [eauto|].
  assert (is_Some (plugin_stage host fuel spec (gd_security_policy guards) (default_integration_catalog, rs_pack spec)))
    as [[[stage ab] state] ->].
  { unfold plugin_stage. destruct (enabled_roots spec) as [roots|]; [|eauto]. cbn [default] in Hroots.
    match goal with |- context [plugin_roots host fuel spec ?p roots ?st] =>
      destruct (plugin_roots_total rank fuel p roots st Hr Hroots) as [st' ->] end. cbn [mbind option_bind].
    destruct (ps_blocked_reason st'); [eauto|]. destruct (absorb_pending _ _) as [[[] ?] ?]; eauto. }
  cbn [mbind option_bind]. cbv zeta. destruct (siem_step _ _ _ _ _ _). destruct (audit_step _ _ _ _ _ _) as [[?|] ?]; [eauto|].
  destruct (auto_provision_step spec state) as [[[] ?] [? ?]]; [eauto|]. destruct (apply_hotfixes _ _) as [[] ?]; eauto.
Qed.
End admitted.

(** ** Witnesses *)
Module SpecRunDemo.
(** A plugin that runs a process *)
Definition manifest (command : string) : PluginManifest :=
  mkPluginManifest "notes" "notes" "notes" None None ∅ (<["bridge_kind" := "stdio"]> (<["command" := command]> ∅)) None [] [] [] false.

Definition host (command : string) : SpecHost :=
  mkSpecHost SpecBridgeDemo.paths (mkSignatureLib (λ _, Err "") (λ _, Err "") (λ _ _ _, Err "")) (λ _, Err "") (λ _, None)
    (λ _, "") PluginDemo.tree (λ _, Ok (manifest command)) (λ s, s) (λ _, None) (λ _, None) 7
    (mkSiemFile (λ _, Ok ()) (λ _, Ok ()) (λ _, Ok ()) (Ok ())).

Definition scan_policy : SecurityScanSpec :=
  mkSecurityScanSpec true true None None None None SecurityRuntimeExecutionSpec_default []
    (mkWasmSecurityScanSpec true 0 false [] [] false ∅).
Definition bridge : BridgeSupportSpec :=
  mkBridgeSupportSpec true [] [] true None None None true false ["node"] true (Some scan_policy).
Definition spec : RunnerSpec :=
  mkRunnerSpec IntegrationDemo.pack "agent" 60 None None None (Some (mkPluginScanSpec true ["root"])) (Some bridge) None None []
    (Op_Task "t" "summarize" ∅ JNull).

(** A kernel that keeps the events *)
Definition keep_event (agent_id : option string) (kind : AuditEventKind) : ST (list AuditEventKind) KernelError unit :=
  λ events, (Ok (), events ++ [kind]).
Definition admitted (command : string) : option (result SpecRunReport Admission * list AuditEventKind) :=
  admit_spec (host command) keep_event 2 spec [].

Definition connectors (r : option (result SpecRunReport Admission * list AuditEventKind)) : option (list string) :=
  match r with Some (Ok a, _) => Some (dc_connector_name <$> am_connectors a) | _ => None end.
Definition reason (r : option (result SpecRunReport Admission * list AuditEventKind)) : option string :=
  match r with Some (Err report, _) => rn_blocked_reason report | _ => None end.

Lemma node_is_admitted : connectors (admitted "/usr/bin/node") = Some ["notes"].
Proof. by vm_compute. Qed.

(** The same plugin with a command that is not allowed *)
Lemma shell_is_blocked : reason (admitted "sh") = Some "security scan blocked 1 high-risk finding(s)".
Proof. by vm_compute. Qed.

Definition summary (r : option (result SpecRunReport Admission * list AuditEventKind)) : option (bool * Z) :=
  match r with Some (Ok a, _) => Some (ad_approved (gd_approval (am_guards a)), ic_revision (am_catalog a)) | _ => None end.

Lemma summary_Some r approved revision : summary r = Some (approved, revision) →
  ∃ a events, r = Some (Ok a, events) ∧ ad_approved (gd_approval (am_guards a)) = approved.
Proof. destruct r as [[[a|report] events]|]; cbn; [|done..]. intros [= <- _]. by exists a, events. Qed.

Lemma admitted_gates_witness : ∃ a events pending, admitted "/usr/bin/node" = Some (Ok a, events) ∧
  ad_approved (gd_approval (am_guards a)) = true ∧
  absorb_pending pending (default_integration_catalog, IntegrationDemo.pack) =
    (None, am_absorbed a, (am_catalog a, am_pack a)).
Proof.
  destruct (summary_Some (admitted "/usr/bin/node") true 1) as (a & events & E & Happ); [by vm_compute|].
  destruct (admitted_scenario_passed_every_gate (host "/usr/bin/node") spec keep_event 2 [] a events E)
    as (_ & _ & _ & policy & pending & [c p] & provisioned & _ & _ & Habs & Hauto & Hhot & _).
  unfold auto_provision_step in Hauto. cbn [rs_auto_provision spec] in Hauto. cbn [apply_hotfixes rs_hotfixes spec] in Hhot.
  injection Hauto as _ <- Hpack. injection Hhot as Hc.
  exists a, events, pending. split; [exact E|]. split; [exact Happ|]. change IntegrationDemo.pack with (rs_pack spec). rewrite Habs, <-Hc, <-Hpack. reflexivity.
Defined.

(** A module whose manifest presets [component_resolved_path]: the scan reads
    the declared component, the bridge would run the preset file. *)
Definition smuggling : PluginDescriptor :=
  mkPluginDescriptor "/plugins/a.rs" "wasm"
    (mkPluginManifest "p" "p" "p" None None ∅
       (<["component" := "a.wasm"]> (<["component_resolved_path" := "/tmp/evil.wasm"]> ∅)) None [] [] [] false).
Definition enriched : PluginDescriptor :=
  enrich_descriptor (host "") (translate_scan_report (mkPluginScanReport 1 1 [smuggling])) smuggling.

Lemma preset_path_runs_an_unscanned_module :
  scanned_path SpecBridgeDemo.paths enriched <$> descriptor_wasm_artifact enriched = Some (components "/plugins/a.wasm") ∧
  resolve_wasm_component_artifact_path SpecBridgeDemo.paths (provider_of_manifest (pd_manifest enriched)) ""
  = Ok (components "/tmp/evil.wasm").
Proof. split; by vm_compute. Qed.

(** A manifest that presets the key [plugin_id] is pinned under its own id by
    the scan and under the other id by the bridge. *)
Definition renamed : PluginDescriptor :=
  mkPluginDescriptor "/plugins/a.rs" "wasm"
    (mkPluginManifest "p" "p" "p" None None ∅ (<["plugin_id" := "q"]> ∅) None [] [] [] false).

Lemma preset_id_evades_the_required_pin pin :
  let d := enrich_descriptor (host "") (translate_scan_report (mkPluginScanReport 1 1 [renamed])) renamed in
  raw_pins (mkWasmSecurityScanSpec true 0 false [] [] false (<["p" := pin]> ∅)) d = [pin] ∧
  resolve_expected_wasm_sha256 (provider_of_manifest (pd_manifest d))
    (mkBridgeRuntimePolicy false false true ∅ [] None None false (<["p" := pin]> ∅) false) = Ok None.
Proof. split; by vm_compute. Qed.
End SpecRunDemo.
