(* ===== verification/SpecSearch.v ===== *)
(** * SpecSearch: tool search over the catalog (spec/src/spec_execution/tool_search.rs)

    A search looks through the providers of the catalog, which are loaded, and
    the plugins that were scanned, which may be deferred, and returns the best
    matches. The readers of JSON lists in metadata are parameters. *)
From S2P Require Import Prelude RustStr Contracts Json Integration Plugin PluginIR SpecScan SpecBridge.
From Stdlib Require Import Ascii.

(** ** Entries and results (spec_runtime.rs) *)
Record ToolSearchEntry := mkToolSearchEntry {
  te_tool_id : string;
  te_plugin_id : option string;
  te_connector_name : string;
  te_provider_id : string;
  te_source_path : option string;
  te_bridge_kind : PluginBridgeKind;
  te_adapter_family : option string;
  te_entrypoint_hint : option string;
  te_source_language : option string;
  te_summary : option string;
  te_tags : list string;
  te_input_examples : list Value;
  te_output_examples : list Value;
  te_deferred : bool;
  te_loaded : bool;
}.

Record ToolSearchResult := mkToolSearchResult {
  tx_tool_id : string;
  tx_plugin_id : option string;
  tx_connector_name : string;
  tx_provider_id : string;
  tx_source_path : option string;
  tx_bridge_kind : string;
  tx_adapter_family : option string;
  tx_entrypoint_hint : option string;
  tx_source_language : option string;
  tx_score : Z;
  tx_deferred : bool;
  tx_loaded : bool;
  tx_summary : option string;
  tx_tags : list string;
  tx_input_examples : list Value;
  tx_output_examples : list Value;
}.

(** [serde_json::to_value] of a result *)
Definition search_result_value (r : ToolSearchResult) : Value :=
  json_object
    [("tool_id", json_str (tx_tool_id r)); ("plugin_id", json_opt json_str (tx_plugin_id r));
     ("connector_name", json_str (tx_connector_name r)); ("provider_id", json_str (tx_provider_id r));
     ("source_path", json_opt json_str (tx_source_path r)); ("bridge_kind", json_str (tx_bridge_kind r));
     ("adapter_family", json_opt json_str (tx_adapter_family r));
     ("entrypoint_hint", json_opt json_str (tx_entrypoint_hint r));
     ("source_language", json_opt json_str (tx_source_language r)); ("score", json_uint (tx_score r));
     ("deferred", json_bool (tx_deferred r)); ("loaded", json_bool (tx_loaded r));
     ("summary", json_opt json_str (tx_summary r)); ("tags", json_strs (tx_tags r));
     ("input_examples", JArray (tx_input_examples r)); ("output_examples", JArray (tx_output_examples r))].

(** ** What metadata says *)

(** [metadata_bool] *)
Definition metadata_bool (metadata : gmap string string) (key : string) : option bool :=
  metadata !! key ≫= λ raw,
    let raw := to_ascii_lowercase (trim raw) in
    if bool_decide (raw ∈ ["true"; "1"; "yes"; "y"; "on"]) then Some true
    else if bool_decide (raw ∈ ["false"; "0"; "no"; "n"; "off"]) then Some false
    else None.

Section search.
(** [serde_json::from_str] at [Vec<String>] and at [Vec<Value>] *)
Context (strings_from_str : string → option (list string)) (values_from_str : string → option (list Value)).

(** [metadata_tags] *)
Definition metadata_tags (metadata : gmap string string) : list string :=
  match metadata !! "tags_json" ≫= strings_from_str with
  | Some values => values
  | None =>
      match metadata !! "tags" with
      | Some raw =>
          filter (λ value, value ≠ "")
            (trim <$> split_chars (λ a, Ascii.eqb a ","%char || Ascii.eqb a ";"%char) raw)
      | None => []
      end
  end.

(** [metadata_examples] *)
Definition metadata_examples (metadata : gmap string string) (key : string) : list Value :=
  default [] (metadata !! key ≫= values_from_str).

(** ** The entries *)
Abbreviation Translations := (gmap (string * string) PluginRuntimeProfile).

(** [translation_by_key] *)
Definition translation_by_key (reports : list PluginTranslationReport) : Translations :=
  foldl (λ m report,
    foldl (λ m entry, <[(ir_source_path entry, ir_plugin_id entry) := ir_runtime entry]> m) m (tr_entries report)) ∅ reports.

Definition search_tool_id (provider_id connector_name : string) : string := provider_id +:+ "::" +:+ connector_name.

(** The entry of a provider *)
Definition provider_entry (catalog : IntegrationCatalog) (translations : Translations) (provider : ProviderConfig) :
    ToolSearchEntry :=
  let metadata := pc_metadata provider in
  let channel_endpoint :=
    match List.find ch_enabled (channels_for_provider catalog (pc_provider_id provider)) with
    | Some channel => ch_endpoint channel
    | None => ""
    end in
  let translation :=
    match metadata !! "plugin_source_path", metadata !! "plugin_id" with
    | Some source_path, Some plugin_id => translations !! (source_path, plugin_id)
    | _, _ => None
    end in
  let tool_id := search_tool_id (pc_provider_id provider) (pc_connector_name provider) in
  let entry bridge_kind adapter_family entrypoint_hint source_language :=
    mkToolSearchEntry tool_id (metadata !! "plugin_id") (pc_connector_name provider) (pc_provider_id provider)
      (metadata !! "plugin_source_path") bridge_kind adapter_family entrypoint_hint source_language
      (metadata !! "summary") (metadata_tags metadata) (metadata_examples metadata "input_examples_json")
      (metadata_examples metadata "output_examples_json") (default false (metadata_bool metadata "defer_loading")) true in
  match translation with
  | Some runtime =>
      entry (rp_bridge_kind runtime) (Some (rp_adapter_family runtime)) (Some (rp_entrypoint_hint runtime))
        (Some (rp_source_language runtime))
  | None =>
      entry (detect_provider_bridge_kind provider channel_endpoint) (metadata !! "adapter_family")
        (or_else (metadata !! "entrypoint") (metadata !! "entrypoint_hint")) (metadata !! "source_language")
  end.

(** The entry of a plugin that no provider of the catalog stands for *)
Definition plugin_entry (translation : option PluginRuntimeProfile) (bridge_kind : PluginBridgeKind)
    (descriptor : PluginDescriptor) : ToolSearchEntry :=
  let manifest := pd_manifest descriptor in
  mkToolSearchEntry (search_tool_id (pm_provider_id manifest) (pm_connector_name manifest)) (Some (pm_plugin_id manifest))
    (pm_connector_name manifest) (pm_provider_id manifest) (Some (pd_path descriptor)) bridge_kind
    (rp_adapter_family <$> translation) (rp_entrypoint_hint <$> translation) (rp_source_language <$> translation)
    (pm_summary manifest) (pm_tags manifest) (pm_input_examples manifest) (pm_output_examples manifest)
    (pm_defer_loading manifest) false.

(** [if list.is_empty() { list = other }] *)
Definition or_list {A} (list_ other : list A) : list A := match list_ with [] => other | _ => list_ end.

(** [entry.tags.push(tag)] for the tags that are not there *)
Definition add_tags (tags more : list string) : list string :=
  foldl (λ tags tag, if bool_decide (tag ∈ tags) then tags else tags ++ [tag]) tags more.

(** What the manifest adds to an entry *)
Definition complete_entry (translation : option PluginRuntimeProfile) (bridge_kind : PluginBridgeKind)
    (descriptor : PluginDescriptor) (e : ToolSearchEntry) : ToolSearchEntry :=
  let manifest := pd_manifest descriptor in
  mkToolSearchEntry (te_tool_id e) (or_else (te_plugin_id e) (Some (pm_plugin_id manifest))) (te_connector_name e)
    (te_provider_id e) (or_else (te_source_path e) (Some (pd_path descriptor)))
    (if te_loaded e then te_bridge_kind e else bridge_kind)
    (or_else (te_adapter_family e) (rp_adapter_family <$> translation))
    (or_else (te_entrypoint_hint e) (rp_entrypoint_hint <$> translation))
    (or_else (te_source_language e) (rp_source_language <$> translation))
    (or_else (te_summary e) (pm_summary manifest)) (add_tags (te_tags e) (pm_tags manifest))
    (or_list (te_input_examples e) (pm_input_examples manifest))
    (or_list (te_output_examples e) (pm_output_examples manifest))
    (if te_loaded e then te_deferred e else pm_defer_loading manifest) (te_loaded e).

(** One descriptor of the scan *)
Definition add_descriptor (translations : Translations) (entries : gmap string ToolSearchEntry)
    (descriptor : PluginDescriptor) : gmap string ToolSearchEntry :=
  let manifest := pd_manifest descriptor in
  let tool_id := search_tool_id (pm_provider_id manifest) (pm_connector_name manifest) in
  let translation := translations !! (pd_path descriptor, pm_plugin_id manifest) in
  let bridge_kind := default (descriptor_bridge_kind descriptor) (rp_bridge_kind <$> translation) in
  let entry := default (plugin_entry translation bridge_kind descriptor) (entries !! tool_id) in
  <[tool_id := complete_entry translation bridge_kind descriptor entry]> entries.

Definition catalog_entries (catalog : IntegrationCatalog) (translations : Translations) : gmap string ToolSearchEntry :=
  foldl (λ entries provider,
    <[search_tool_id (pc_provider_id provider) (pc_connector_name provider) := provider_entry catalog translations provider]>
      entries) ∅ (catalog_providers catalog).

Definition search_entries (catalog : IntegrationCatalog) (scans : list PluginScanReport)
    (translation_reports : list PluginTranslationReport) : gmap string ToolSearchEntry :=
  let translations := translation_by_key translation_reports in
  foldl (λ entries report, foldl (add_descriptor translations) entries (sr_descriptors report))
    (catalog_entries catalog translations) scans.

(** ** Matching and ranking *)

(** The words of the query *)
Definition search_tokens (query : string) : list string :=
  filter (λ token, token ≠ "")
    (split_chars (λ a, negb (is_ascii_alphanumeric a) && negb (Ascii.eqb a "_"%char) && negb (Ascii.eqb a "-"%char)) query).

Definition add_if (b : bool) (n score : Z) : Z := if b then sat_add32 score n else score.

Definition lowered (o : option string) : string := to_ascii_lowercase (default "" o).

(** [tool_search_score] *)
Definition tool_search_score (entry : ToolSearchEntry) (query : string) (tokens : list string) : Z :=
  if is_empty query then (if te_loaded entry then 10 else 5)%Z
  else
    let connector := to_ascii_lowercase (te_connector_name entry) in
    let provider := to_ascii_lowercase (te_provider_id entry) in
    let tool_id := to_ascii_lowercase (te_tool_id entry) in
    let summary := lowered (te_summary entry) in
    let source_path := lowered (te_source_path entry) in
    let adapter_family := lowered (te_adapter_family entry) in
    let entrypoint_hint := lowered (te_entrypoint_hint entry) in
    let source_language := lowered (te_source_language entry) in
    let tags := to_ascii_lowercase <$> te_tags entry in
    let score := if bool_decide (connector = query) then sat_add32 0 150 else add_if (contains query connector) 110 0 in
    let score := if bool_decide (provider = query) then sat_add32 score 120 else add_if (contains query provider) 80 score in
    let score := add_if (contains query tool_id) 60 score in
    let score := add_if (contains query summary) 55 score in
    let score := add_if (contains query source_path) 35 score in
    let score := add_if (contains query adapter_family) 18 score in
    let score := add_if (contains query entrypoint_hint) 12 score in
    let score := add_if (contains query source_language) 10 score in
    let score := if bool_decide (query ∈ tags) then sat_add32 score 45 else add_if (existsb (contains query) tags) 25 score in
    let haystack :=
      join " " [connector; provider; tool_id; summary; adapter_family; entrypoint_hint; source_language; join " " tags] in
    let score := foldl (λ score token, add_if (contains token haystack) 8 score) score tokens in
    add_if (te_loaded entry) 4 score.

(** The order of [ranked.sort_by] *)
Definition search_le (l r : Z * ToolSearchEntry) : Prop :=
  (r.1 < l.1)%Z ∨
  l.1 = r.1 ∧ (te_loaded l.2 = true ∧ te_loaded r.2 = false ∨
               te_loaded l.2 = te_loaded r.2 ∧ String.le (te_tool_id l.2) (te_tool_id r.2)).
#[export] Instance search_le_dec l r : Decision (search_le l r).
Proof. unfold search_le. apply _. Defined.

(** [limit.clamp(1, 50)] *)
Definition capped_limit (limit : Z) : Z := Z.max 1 (Z.min limit 50).

(** The tools a search may show *)
Definition shown_entry (include_deferred : bool) (e : ToolSearchEntry) : bool :=
  include_deferred || negb (te_deferred e) || te_loaded e.

Definition score_entry (query : string) (tokens : list string) (e : ToolSearchEntry) : option (Z * ToolSearchEntry) :=
  let score := tool_search_score e query tokens in
  if is_empty query || (0 <? score)%Z then Some (score, e) else None.

Definition search_result (include_examples : bool) (scored : Z * ToolSearchEntry) : ToolSearchResult :=
  let '(score, e) := scored in
  mkToolSearchResult (te_tool_id e) (te_plugin_id e) (te_connector_name e) (te_provider_id e) (te_source_path e)
    (PluginBridgeKind_as_str (te_bridge_kind e)) (te_adapter_family e) (te_entrypoint_hint e) (te_source_language e)
    score (te_deferred e) (te_loaded e) (te_summary e) (te_tags e)
    (if include_examples then te_input_examples e else []) (if include_examples then te_output_examples e else []).

(** The matches in order, before the limit *)
Definition ranked_entries (entries : gmap string ToolSearchEntry) (query : string) (include_deferred : bool) :
    list (Z * ToolSearchEntry) :=
  let query_normalized := to_ascii_lowercase (trim query) in
  merge_sort search_le
    (omap (score_entry query_normalized (search_tokens query_normalized))
       (filter (λ e, shown_entry include_deferred e = true) (btree_values entries))).

(** [execute_tool_search] *)
Definition execute_tool_search (catalog : IntegrationCatalog) (scans : list PluginScanReport)
    (translation_reports : list PluginTranslationReport) (query : string) (limit : Z)
    (include_deferred include_examples : bool) : list ToolSearchResult :=
  search_result include_examples <$>
    take (Z.to_nat (capped_limit limit))
      (ranked_entries (search_entries catalog scans translation_reports) query include_deferred).
End search.

(** ** What a search shows *)

#[export] Instance search_le_total : Total search_le.
Proof.
  intros [a l] [b r]. unfold search_le. cbn [fst snd].
  destruct (Z.lt_trichotomy a b) as [?|[->|?]]; [by right; left| |by left; left].
  destruct (te_loaded l), (te_loaded r); try (by left; right; split; [|left]); try (by right; right; split; [|left]).
  all: destruct (String.le_total (te_tool_id l) (te_tool_id r)); [left; right|right; right]; by split; [|right].
Qed.

#[export] Instance search_le_trans : Transitive search_le.
Proof.
  intros [a x] [b y] [c z]. unfold search_le. cbn [fst snd].
  intros [?|[-> Hxy]] [?|[-> Hyz]]; [left; lia|left; lia|left; lia|right]. split; [done|].
  destruct Hxy as [[? ?]|[-> ?]], Hyz as [[? ?]|[<- ?]]; try (left; split; congruence).
  right. split; [done|by etrans].
Qed.

(** A map built by insertions comes from the list. *)
Lemma foldl_insert_from {A B} (key : A → string) (f : A → B) l (m : gmap string B) k v :
  foldl (λ m x, <[key x := f x]> m) m l !! k = Some v → m !! k = Some v ∨ ∃ x, x ∈ l ∧ key x = k ∧ f x = v.
Proof.
  revert m. induction l as [|x l IH]; intros m; cbn [foldl]; [by left|].
  intros [H|(y & ? & ?)]%IH; [|right; exists y; split; [by right|done]].
  apply lookup_insert_Some in H as [[<- <-]|[_ H]]; [right; exists x; split; [by left|done]|by left].
Qed.

Section shown.
Context (strings_from_str : string → option (list string)) (values_from_str : string → option (list Value)).
Abbreviation entries := (search_entries strings_from_str values_from_str).
Abbreviation search := (execute_tool_search strings_from_str values_from_str).

(** Where an entry comes from: a provider of the catalog, or a plugin that was
    scanned, whose manifest says whether it is deferred *)
Definition entry_origin (catalog : IntegrationCatalog) (scans : list PluginScanReport) (e : ToolSearchEntry) : Prop :=
  if te_loaded e then
    ∃ provider, provider ∈ catalog_providers catalog ∧
      te_tool_id e = search_tool_id (pc_provider_id provider) (pc_connector_name provider) ∧
      te_provider_id e = pc_provider_id provider ∧ te_connector_name e = pc_connector_name provider
  else
    ∃ report d, report ∈ scans ∧ d ∈ sr_descriptors report ∧
      te_tool_id e = search_tool_id (pm_provider_id (pd_manifest d)) (pm_connector_name (pd_manifest d)) ∧
      te_deferred e = pm_defer_loading (pd_manifest d).

Lemma origin_later catalog scans scans' e :
  (∀ report, report ∈ scans → report ∈ scans') → entry_origin catalog scans e → entry_origin catalog scans' e.
Proof. unfold entry_origin. destruct (te_loaded e); [done|]. intros H (report & d & ? & ?). exists report, d. by auto. Qed.

Definition entries_ok (catalog : IntegrationCatalog) (scans : list PluginScanReport) (m : gmap string ToolSearchEntry) : Prop :=
  ∀ id e, m !! id = Some e → te_tool_id e = id ∧ entry_origin catalog scans e.

Lemma add_descriptor_ok catalog scans report translations d m :
  report ∈ scans → d ∈ sr_descriptors report → entries_ok catalog scans m →
  entries_ok catalog scans (add_descriptor translations m d).
Proof.
  intros Hr Hd Hm id e. unfold add_descriptor. cbv zeta. set (tool_id := search_tool_id _ _).
  intros [[<- <-]|[_ H]]%lookup_insert_Some; [|by apply Hm].
  destruct (m !! tool_id) as [e0|] eqn:E; cbn [default from_option id].
  - destruct (Hm _ _ E) as [Hid Ho]. split; [done|]. unfold entry_origin in *. cbn [complete_entry te_loaded te_tool_id te_deferred].
    destruct (te_loaded e0); [done|]. by exists report, d.
  - split; [done|]. by exists report, d.
Qed.

Lemma search_entries_ok catalog scans translations : entries_ok catalog scans (entries catalog scans translations).
Proof.
  unfold search_entries. set (ts := translation_by_key translations).
  assert (∀ l m, (∀ report, report ∈ l → report ∈ scans) → entries_ok catalog scans m →
    entries_ok catalog scans (foldl (λ entries report, foldl (add_descriptor ts) entries (sr_descriptors report)) m l)) as H.
  { induction l as [|report l IH]; intros m Hl Hm; [done|]. cbn [foldl]. apply IH; [intros; apply Hl; by right|].
    assert (∀ ds m, (∀ d, d ∈ ds → d ∈ sr_descriptors report) → entries_ok catalog scans m →
      entries_ok catalog scans (foldl (add_descriptor ts) m ds)) as Hds.
    { induction ds as [|d ds IHd]; intros m' Hds Hm'; [done|]. cbn [foldl]. apply IHd; [intros; apply Hds; by right|].
      apply (add_descriptor_ok _ _ report); [apply Hl; by left|apply Hds; by left|done]. }
    by apply Hds. }
  apply H; [done|]. intros id e [He|(provider & Hp & <- & <-)]%foldl_insert_from; [by rewrite lookup_empty in He|].
  unfold provider_entry, entry_origin. cbv zeta.
  match goal with |- context [match ?t with Some _ => _ | None => _ end] => destruct t end;
    (split; [done|]; by exists provider).
Qed.

(** What a search for [query] may return *)
Definition search_match (include_deferred : bool) (query : string) (e : ToolSearchEntry) : Prop :=
  let normalized := to_ascii_lowercase (trim query) in
  (include_deferred = true ∨ te_deferred e = false ∨ te_loaded e = true) ∧
  (normalized = "" ∨ (0 < tool_search_score e normalized (search_tokens normalized))%Z).

Definition scored (query : string) (e : ToolSearchEntry) : Z * ToolSearchEntry :=
  let normalized := to_ascii_lowercase (trim query) in
  (tool_search_score e normalized (search_tokens normalized), e).

Lemma shown_entry_true include_deferred e :
  shown_entry include_deferred e = true ↔ include_deferred = true ∨ te_deferred e = false ∨ te_loaded e = true.
Proof. unfold shown_entry. rewrite !orb_true_iff, negb_true_iff. tauto. Qed.

Lemma score_entry_Some query e r : let normalized := to_ascii_lowercase (trim query) in
  score_entry normalized (search_tokens normalized) e = Some r ↔
  r = scored query e ∧ (normalized = "" ∨ (0 < (scored query e).1)%Z).
Proof.
  intros normalized. unfold score_entry, scored. cbn [fst]. fold normalized. clearbody normalized.
  destruct (is_empty normalized) eqn:En; cbn [orb].
  - destruct normalized; [|done]. naive_solver.
  - destruct (Z.ltb_spec 0 (tool_search_score e normalized (search_tokens normalized))); [naive_solver|].
    split; [done|]. intros [_ [E|?]]; [by rewrite E in En|lia].
Qed.

Lemma elem_of_ranked_entries m query include_deferred r :
  r ∈ ranked_entries m query include_deferred ↔
  ∃ id e, m !! id = Some e ∧ search_match include_deferred query e ∧ r = scored query e.
Proof.
  unfold ranked_entries. cbv zeta. rewrite merge_sort_Permutation, list_elem_of_omap.
  setoid_rewrite list_elem_of_filter. setoid_rewrite elem_of_btree_values. setoid_rewrite shown_entry_true.
  setoid_rewrite score_entry_Some. unfold search_match. cbn [scored fst]. naive_solver.
Qed.

(** C33. A search shows the best matches. Every result is an entry that matches
    the query and may be shown (a deferred plugin that is not loaded only when
    deferred ones are asked for), with its score; a loaded one is a provider of
    the catalog, any other a plugin of the scans. The results come in the order
    of their rank, at most fifty and at most as many as asked for (one at
    least), and a match is left out only where that many results rank no lower. *)
Theorem search_shows_the_best_matches catalog scans translations query limit include_deferred include_examples :
  let all := entries catalog scans translations in
  let results := search catalog scans translations query limit include_deferred include_examples in
  ∃ chosen : list (Z * ToolSearchEntry),
    results = search_result include_examples <$> chosen ∧
    StronglySorted search_le chosen ∧
    (len results ≤ capped_limit limit ≤ 50)%Z ∧
    (∀ r, r ∈ chosen → all !! te_tool_id r.2 = Some r.2 ∧ search_match include_deferred query r.2 ∧
       r = scored query r.2 ∧ entry_origin catalog scans r.2) ∧
    (∀ id e, all !! id = Some e → search_match include_deferred query e → scored query e ∉ chosen →
       len results = capped_limit limit ∧ ∀ r, r ∈ chosen → search_le r (scored query e)).
Proof.
  intros all results. pose proof (search_entries_ok catalog scans translations) as Hok. fold all in Hok.
  set (ranked := ranked_entries all query include_deferred). set (n := Z.to_nat (capped_limit limit)).
  assert (Z.of_nat n = capped_limit limit) as Hn by (unfold n, capped_limit; lia).
  assert (results = search_result include_examples <$> take n ranked) as Hres by done.
  assert (StronglySorted search_le ranked) as Hsorted by apply (StronglySorted_merge_sort _).
  exists (take n ranked). rewrite Hres. unfold len. rewrite length_fmap, length_take. split_and!; [done| |lia|unfold capped_limit; lia| |].
  - rewrite <-(take_drop n ranked) in Hsorted. by apply StronglySorted_app in Hsorted as (_ & ? & _).
  - intros r (i & Hi & _)%elem_of_take. apply list_elem_of_lookup_2, elem_of_ranked_entries in Hi as (id & e & He & Hm & ->).
    destruct (Hok _ _ He) as [Hid Ho]. unfold scored. cbn [snd]. by rewrite Hid.
  - intros id e He Hm Hne.
    assert (scored query e ∈ ranked) as Hin by (apply elem_of_ranked_entries; by exists id, e).
    split; [|intros r Hr; by eapply take_sorted_below]. 
    destruct (decide (n ≤ length ranked)) as [?|Hlt]; [lia|]. exfalso. apply Hne. rewrite take_ge by lia. done.
Qed.

(** A loaded tool matches every query: the bonus of loaded tools counts as a match. *)
Lemma loaded_tools_match_every_query include_deferred query e :
  te_loaded e = true → search_match include_deferred query e.
Proof.
  intros Hl. split; [by right; right|]. cbv zeta. set (q := to_ascii_lowercase (trim query)).
  unfold tool_search_score. destruct (is_empty q) eqn:Eq; [left; by destruct q|right]. cbv zeta. rewrite Hl. cbn [add_if].
  set (score := foldl _ _ _). assert (0 ≤ score)%Z as Hs; [|unfold sat_add32, u32_max; lia].
  assert (∀ b n s, (0 ≤ n → 0 ≤ s → 0 ≤ add_if b n s)%Z) as Ha
    by (intros [] n s; cbn [add_if]; unfold sat_add32, u32_max; lia).
  assert (∀ n s, (0 ≤ n → 0 ≤ s → 0 ≤ sat_add32 s n)%Z) as Hp by (intros; unfold sat_add32, u32_max; lia).
  unfold score. match goal with |- (0 ≤ foldl ?f ?s0 ?l)%Z =>
    assert (∀ s, (0 ≤ s)%Z → (0 ≤ foldl f s l)%Z) as Hf end.
  { generalize (search_tokens q). intros tokens. induction tokens as [|t tokens IH]; intros s Hs; [done|]. cbn [foldl]. apply IH, Ha; lia. }
  apply Hf. repeat match goal with |- (0 ≤ if ?b then _ else _)%Z => destruct b end;
    repeat first [apply Ha; [lia|]|apply Hp; [lia|]|done|lia|
                  match goal with |- (0 ≤ if ?b then _ else _)%Z => destruct b end].
Qed.
End shown.
