(* ===== verification/SpecExec.v ===== *)
(** * SpecExec: running a scenario (spec/src/spec_execution.rs,
    kernel_bootstrap.rs and the built-in adapters of spec_runtime.rs)

    [execute_spec] builds a kernel with its built-in adapters, admits the
    scenario ([SpecRun]), registers a connector for every provider of the
    catalog, registers the pack, selects defaults, issues a token and runs the
    operation: one call of the kernel, a program ([Workflow]) or a tool search
    ([SpecSearch]).

    The world holds what the adapters share: the audit log, the tasks that the
    harness has seen, the module cache and, as a history, what the bridges did.
    The rest of the environment, with the host's clock and the executor of
    native tools, is a parameter. The catalog of the dynamic connectors is never
    written after its lock is made, so its lock is never poisoned. *)
From S2P Require Import Prelude RustStr Contracts Json Errors Policy AuditSinks Plane Kernel KernelProps.
From S2P Require Import Integration Plugin PluginIR Protocol Programmatic Resilience Workflow SpecApproval SpecScan SpecBridge SpecRun SpecSearch.

Section world.
  Context {E Engine Module : Type}.

Record SpecWorld := mkSpecWorld {
  sw_audit : EventLog;
  sw_seen : option (list string);
  sw_cache : CacheCell (Engine := Engine) (Module := Module);
  sw_effects : list (BridgeEffect Engine Module);
  sw_env : E;
}.

(** The cell of the [InMemoryAuditSink] *)
Definition audit_log : Cell SpecWorld EventLog :=
  mkCell sw_audit (λ log w, mkSpecWorld log (sw_seen w) (sw_cache w) (sw_effects w) (sw_env w)).

Definition set_seen (seen : option (list string)) (w : SpecWorld) : SpecWorld :=
  mkSpecWorld (sw_audit w) seen (sw_cache w) (sw_effects w) (sw_env w).
Definition set_bridges (cache : CacheCell) (effects : list (BridgeEffect Engine Module)) (w : SpecWorld) : SpecWorld :=
  mkSpecWorld (sw_audit w) (sw_seen w) cache effects (sw_env w).
Definition set_env (env : E) (w : SpecWorld) : SpecWorld :=
  mkSpecWorld (sw_audit w) (sw_seen w) (sw_cache w) (sw_effects w) env.

(** What happens in the environment only *)
Definition in_env {A} (f : E → A * E) (w : SpecWorld) : A * SpecWorld :=
  let '(a, env) := f (sw_env w) in (a, set_env env w).
End world.
Arguments SpecWorld : clear implicits.

(** ** Built-in adapters (spec_runtime.rs) *)
Section adapters.
  Context {E Engine Module : Type}.
  Abbreviation W := (SpecWorld E Engine Module).

(** [EmbeddedPiHarness] *)
Definition EmbeddedPiHarness : HarnessAdapter W := {|
  ha_name := "pi-local";
  ha_kind := EmbeddedPi;
  ha_execute request w :=
    match sw_seen w with
    | None => (Err (Harness_Execution "EmbeddedPiHarness mutex poisoned"), w)
    | Some seen =>
        (Ok (mkHarnessOutcome "ok"
               (json_object [("adapter", json_str "pi-local"); ("task", json_str (hr_task_id request));
                             ("objective", json_str (hr_objective request))])),
         set_seen (Some (seen ++ [hr_task_id request])) w)
    end |}.

(** [WebhookConnector], without the hooks of the tests *)
Definition WebhookConnector : CoreConnectorAdapter W := {|
  core_name := "webhook";
  core_execute command :=
    mret (mkConnectorOutcome "ok"
            (json_object [("connector", json_str "webhook"); ("operation", json_str (cc_operation command));
                          ("payload", cc_payload command)])) |}.

(** The text that [CrmCoreConnector] and [CrmGrpcCoreConnector] share *)
Definition echo_connector (name : string) : CoreConnectorAdapter W := {|
  core_name := name;
  core_execute command :=
    mret (mkConnectorOutcome "ok"
            (json_object [("tier", json_str "core"); ("adapter", json_str name);
                          ("connector", json_str (cc_connector_name command));
                          ("operation", json_str (cc_operation command)); ("payload", cc_payload command)])) |}.
Definition CrmCoreConnector : CoreConnectorAdapter W := echo_connector "http-core".
Definition CrmGrpcCoreConnector : CoreConnectorAdapter W := echo_connector "grpc-core".

(** [ShieldedConnectorExtension] *)
Definition ShieldedConnectorExtension : ConnectorExtensionAdapter W := {|
  ext_name := "shielded-bridge";
  ext_execute command core :=
    core_execute core (mkConnectorCommand (cc_connector_name command) "probe" ∅ (json_object [])) ≫= λ probe,
    mret (mkConnectorOutcome "ok"
            (json_object [("tier", json_str "extension"); ("extension", json_str "shielded-bridge");
                          ("operation", json_str (cc_operation command)); ("core_probe", co_payload probe);
                          ("payload", cc_payload command)])) |}.

(** The text that [NativeCoreRuntime] and [FallbackCoreRuntime] share *)
Definition echo_runtime (name : string) : CoreRuntimeAdapter W := {|
  core_name := name;
  core_execute request :=
    mret (mkRuntimeCoreOutcome "ok"
            (json_object [("adapter", json_str name); ("action", json_str (rcr_action request));
                          ("payload", rcr_payload request)])) |}.
Definition NativeCoreRuntime : CoreRuntimeAdapter W := echo_runtime "native-core".
Definition FallbackCoreRuntime : CoreRuntimeAdapter W := echo_runtime "fallback-core".

(** [AcpBridgeRuntimeExtension] *)
Definition AcpBridgeRuntimeExtension : RuntimeExtensionAdapter W := {|
  ext_name := "acp-bridge";
  ext_execute request core :=
    core_execute core (mkRuntimeCoreRequest "probe" (json_object [])) ≫= λ core_probe,
    mret (mkRuntimeExtensionOutcome "ok"
            (json_object [("extension", json_str "acp-bridge"); ("action", json_str (rer_action request));
                          ("core_probe", rco_payload core_probe); ("payload", rer_payload request)])) |}.

(** [NativeToolExecutor]: a function of the application, with its effects *)
Definition NativeToolExecutor : Type := ToolCoreRequest → E → option (result string ToolCoreOutcome) * E.

(** [tool_name_requires_native_tool_executor] *)
Definition tool_name_requires_native_tool_executor (tool_name : string) : bool :=
  bool_decide (tool_name ∈ ["claw.migrate"; "claw_migrate"]).

(** [stub_tool_core] *)
Definition stub_tool_core (request : ToolCoreRequest) : result string ToolCoreOutcome :=
  Ok (mkToolCoreOutcome "ok" (json_object [("adapter", json_str "core-tools"); ("tool", json_str (tcr_tool_name request))])).

(** [maybe_execute_native_tool] *)
Definition maybe_execute_native_tool (request : ToolCoreRequest) (native_tool_executor : option NativeToolExecutor) (w : W) :
    option (result string ToolCoreOutcome) * W :=
  let '(executed, w) :=
    match native_tool_executor with Some executor => in_env (executor request) w | None => (None, w) end in
  match executed with
  | Some result => (Some result, w)
  | None =>
      (if tool_name_requires_native_tool_executor (tcr_tool_name request)
       then Some (Err ("native tool executor required for tool `" +:+ tcr_tool_name request +:+ "`"))
       else None, w)
  end.

(** [CoreToolRuntime] *)
Definition CoreToolRuntime (native_tool_executor : option NativeToolExecutor) : CoreToolAdapter W := {|
  core_name := "core-tools";
  core_execute request w :=
    match maybe_execute_native_tool request native_tool_executor w with
    | (Some result, w) => (map_err Tool_Execution result, w)
    | (None, w) => (map_err Tool_Execution (stub_tool_core request), w)
    end |}.

(** [SqlAnalyticsToolExtension] *)
Definition SqlAnalyticsToolExtension : ToolExtensionAdapter W := {|
  ext_name := "sql-analytics";
  ext_execute request core :=
    core_execute core (mkToolCoreRequest "schema_probe" (json_object [])) ≫= λ core_probe,
    mret (mkToolExtensionOutcome "ok"
            (json_object [("extension", json_str "sql-analytics"); ("action", json_str (ter_extension_action request));
                          ("core_probe", tco_payload core_probe); ("payload", ter_payload request)])) |}.

(** [response.entry(key).or_insert_with(..)] for each field of an object *)
Definition add_fields (fields object : list (string * Value)) : list (string * Value) :=
  foldl (λ object '(key, value), match obj_get key object with Some _ => object | None => obj_insert key value object end)
    object fields.

(** The payload that [claw.migrate] gets: the action is its mode, unless one is given *)
Definition migration_payload (request : ToolExtensionRequest) : Value :=
  match ter_payload request with
  | JObject object =>
      match obj_get "mode" object with
      | Some _ => JObject object
      | None => JObject (obj_insert "mode" (json_str (ter_extension_action request)) object)
      end
  | payload => payload
  end.

(** The answer of the migration *)
Definition migration_response (request : ToolExtensionRequest) (core_payload : Value) : Value :=
  let response :=
    obj_extend [("extension", json_str "claw-migration"); ("action", json_str (ter_extension_action request));
                ("core_outcome", core_payload)] [] in
  JObject (match core_payload with
           | JObject core_object => add_fields core_object response
           | _ => obj_insert "result" core_payload response
           end).

(** [ClawMigrationToolExtension] *)
Definition ClawMigrationToolExtension : ToolExtensionAdapter W := {|
  ext_name := "claw-migration";
  ext_execute request core :=
    core_execute core (mkToolCoreRequest "claw.migrate" (migration_payload request)) ≫= λ core_outcome,
    mret (mkToolExtensionOutcome "ok" (migration_response request (tco_payload core_outcome))) |}.

(** [stub_memory_core] *)
Definition stub_memory_core (request : MemoryCoreRequest) : result string MemoryCoreOutcome :=
  Ok (mkMemoryCoreOutcome "ok"
        (json_object [("adapter", json_str "kv-core"); ("operation", json_str (mcr_operation request))])).

(** [KvCoreMemory] *)
Definition KvCoreMemory : CoreMemoryAdapter W := {|
  core_name := "kv-core";
  core_execute request := lift (map_err Memory_Execution (stub_memory_core request)) |}.

(** [VectorIndexMemoryExtension] *)
Definition VectorIndexMemoryExtension : MemoryExtensionAdapter W := {|
  ext_name := "vector-index";
  ext_execute request core :=
    core_execute core (mkMemoryCoreRequest "probe" (json_object [])) ≫= λ core_probe,
    mret (mkMemoryExtensionOutcome "ok"
            (json_object [("extension", json_str "vector-index"); ("operation", json_str (mer_operation request));
                          ("core_probe", mco_payload core_probe); ("payload", mer_payload request)])) |}.
End adapters.

(** [spec_requires_native_tool_executor] *)
Definition spec_requires_native_tool_executor (spec : RunnerSpec) : bool :=
  match rs_operation spec with
  | Op_ToolCore tool_name _ _ _ => tool_name_requires_native_tool_executor tool_name
  | Op_ToolExtension _ _ _ extension _ => bool_decide (extension = "claw-migration")
  | _ => false
  end.

(** ** The kernel of a scenario (kernel_bootstrap.rs) *)
Definition DEFAULT_PACK_ID : string := "dev-automation".
Definition DEFAULT_AGENT_ID : string := "agent-dev-01".

(** [default_pack_manifest] *)
Definition default_pack_manifest : VerticalPackManifest := {|
  pk_pack_id := DEFAULT_PACK_ID;
  pk_domain := "engineering";
  pk_version := "0.1.0";
  pk_default_route := mkExecutionRoute EmbeddedPi (Some "pi-local");
  pk_allowed_connectors := {["webhook"; "crm"; "erp"]};
  pk_granted_capabilities := {[InvokeTool; InvokeConnector; MemoryRead; MemoryWrite; ObserveTelemetry]};
  pk_metadata := <["owner" := "platform-team"]> (<["stage" := "prototype"]> ∅) |}.

Section builder.
  Context `{!Semver} {E Engine Module : Type}.
  Abbreviation W := (SpecWorld E Engine Module).
  Abbreviation SpecKernel := (LoongClawKernel W StaticPolicyEngine).

(** [register_builtin_adapters] *)
Definition register_builtin_adapters (native_tool_executor : option NativeToolExecutor) (k : SpecKernel) : SpecKernel :=
  let k := register_harness_adapter EmbeddedPiHarness k in
  let k := register_core_connector_adapter WebhookConnector k in
  let k := register_core_connector_adapter CrmCoreConnector k in
  let k := register_core_connector_adapter CrmGrpcCoreConnector k in
  let k := register_connector_extension_adapter ShieldedConnectorExtension k in
  let k := register_core_runtime_adapter NativeCoreRuntime k in
  let k := register_core_runtime_adapter FallbackCoreRuntime k in
  let k := register_runtime_extension_adapter AcpBridgeRuntimeExtension k in
  let k := register_core_tool_adapter (CoreToolRuntime native_tool_executor) k in
  let k := register_tool_extension_adapter ClawMigrationToolExtension k in
  let k := register_tool_extension_adapter SqlAnalyticsToolExtension k in
  let k := register_core_memory_adapter KvCoreMemory k in
  register_memory_extension_adapter VectorIndexMemoryExtension k.

(** [configured_builder_with_default_audit]: without a clock it is the system's,
    without a sink an in-memory one, whose cell is returned *)
Definition configured_builder_with_default_audit (system_clock : Clock W) (fallback : Cell W EventLog)
    (clock : option (Clock W)) (audit : option (AuditSink W)) (native_tool_executor : option NativeToolExecutor) :
    SpecKernel * option (Cell W EventLog) :=
  let clock := default system_clock clock in
  let '(kernel, fallback_audit) :=
    match audit with
    | Some audit => (with_runtime StaticPolicyEngine_default clock audit, None)
    | None => (with_runtime StaticPolicyEngine_default clock (InMemoryAuditSink_record fallback), Some fallback)
    end in
  let kernel := register_builtin_adapters native_tool_executor kernel in
  (match register_pack default_pack_manifest kernel with Ok kernel => kernel | Err _ => kernel end, fallback_audit).

(** [configured_builder], the body of both [build] methods *)
Definition configured_builder system_clock fallback clock audit native_tool_executor : SpecKernel :=
  (configured_builder_with_default_audit system_clock fallback clock audit native_tool_executor).1.

(** [apply_default_selection] *)
Definition apply_default_selection (defaults : option DefaultCoreSelection) (k : SpecKernel) : result string SpecKernel :=
  let select what (name : option string) (set_default : string → SpecKernel → result KernelError SpecKernel) (k : SpecKernel) :=
    match name with
    | Some name =>
        map_err (λ error, "invalid default " +:+ what +:+ " core adapter (" +:+ name +:+ "): " +:+ display error)
          (set_default name k)
    | None => Ok k
    end in
  match defaults with
  | None => Ok k
  | Some defaults =>
      k ← select "connector" (df_connector defaults) set_default_core_connector_adapter k;
      k ← select "runtime" (df_runtime defaults) set_default_core_runtime_adapter k;
      k ← select "tool" (df_tool defaults) set_default_core_tool_adapter k;
      select "memory" (df_memory defaults) set_default_core_memory_adapter k
  end.
End builder.

(** ** Values of outcomes, as their [Serialize] instances write them *)
Definition status_value (status key : string) (payload : Value) : Value :=
  json_object [("status", json_str status); (key, payload)].
Definition route_value (route : ExecutionRoute) : Value :=
  json_object [("harness_kind", json_str (debug (rt_harness_kind route))); ("adapter", json_opt json_str (rt_adapter route))].
Definition outcome_only (outcome : Value) : Value := json_object [("outcome", outcome)].
Definition connector_outcome_value (dispatch : ConnectorDispatch) : Value :=
  json_object [("connector_name", json_str (cd_connector_name dispatch));
               ("outcome", status_value (co_status (cd_outcome dispatch)) "payload" (co_payload (cd_outcome dispatch)))].

(** The host: its clock and timers, the executor of native tools, the order in
    which calls in flight finish, serde_json, and what the bridges call *)
Record ExecHost {E Engine Module Store Instance_ Func : Type} := mkExecHost {
  xh_system_clock : Clock E;
  xh_native_tool_executor : option (NativeToolExecutor (E := E));
  xh_instant_now : E → Z * E;
  xh_sleep : Z → E → E;
  xh_next_ready : nat → E → nat * E;
  xh_json : JsonLib;
  xh_values_from_str : string → option (list Value);
  xh_wasmtime : Wasmtime Engine Module Store Instance_ Func;
  xh_sha256 : string → string;
  xh_bridge : BridgeHost;
}.
Arguments ExecHost : clear implicits.

Section exec.
  Context `{!Semver, !Debug string, !Debug (option string), !Debug (option Z)}.
  Context {E Engine Module Store Instance_ Func : Type} (xh : ExecHost E Engine Module Store Instance_ Func).
  Abbreviation W := (SpecWorld E Engine Module).
  Abbreviation SpecKernel := (LoongClawKernel W StaticPolicyEngine).
  Abbreviation KW := (SpecKernel * W)%type.

(** ** The dynamic connectors *)

(** A [DynamicCatalogConnector] as an adapter of the kernel *)
Definition dynamic_adapter (catalog : IntegrationCatalog) (connector : DynamicCatalogConnector) : CoreConnectorAdapter W := {|
  core_name := dc_connector_name connector;
  core_execute command w :=
    let '((outcome, effects), cache) :=
      invoke_core (xh_bridge xh) (xh_wasmtime xh) (xh_sha256 xh) connector (Some catalog) command (sw_cache w) in
    (outcome, set_bridges cache (sw_effects w ++ effects) w) |}.

(** [register_dynamic_catalog_connectors] *)
Definition register_dynamic_catalog_connectors (catalog : IntegrationCatalog) (connectors : list DynamicCatalogConnector)
    (k : SpecKernel) : SpecKernel :=
  foldl (λ k connector, register_core_connector_adapter (dynamic_adapter catalog connector) k) k connectors.

(** ** Operations *)

(** [kernel.method(..).await.map_err(|error| format!(..))?] and the value of the
    outcome; the methods of the kernel that a scenario may call *)
Definition failed (what : string) {A} (m : ST KW KernelError A) : ST KW string A :=
  st_map_err (λ error, what +:+ " execution from spec failed: " +:+ display error) m.

(** The program, on the kernel *)
Definition execute_program (pack_id : string) (token : CapabilityToken) caller max_calls include_intermediate
    allowed_connectors connector_rate_limits connector_circuit_breakers concurrency return_step steps : ST KW string Value :=
  λ '(k, w),
    let '(r, s) :=
      execute_programmatic_tool_call (xh_json xh) (in_env (xh_instant_now xh)) (λ d, λ w, set_env (xh_sleep xh d (sw_env w)) w)
        (λ n, in_env (xh_next_ready xh n)) pack_id token connector_rate_limits connector_circuit_breakers concurrency
        caller max_calls include_intermediate allowed_connectors return_step steps
        (mkResilienceState ∅ ∅ k w) in
    (r, (rs_kernel s, rs_env s)).

(** The search of a scenario *)
Definition search_outcome (catalog : IntegrationCatalog) (scans : list PluginScanReport)
    (translations : list PluginTranslationReport) (query : string) (limit : Z) (include_deferred include_examples : bool) : Value :=
  let matches :=
    execute_tool_search (bh_string_list (xh_bridge xh)) (xh_values_from_str xh) catalog scans translations query limit
      include_deferred include_examples in
  json_object
    [("query", json_str query); ("limit", json_uint limit); ("include_deferred", json_bool include_deferred);
     ("include_examples", json_bool include_examples); ("returned", json_uint (len matches));
     ("results", JArray (search_result_value <$> matches))].

(** [execute_spec_operation] *)
Definition execute_spec_operation (pack_id : string) (token : CapabilityToken) (catalog : IntegrationCatalog)
    (scans : list PluginScanReport) (translations : list PluginTranslationReport) (operation : OperationSpec) :
    ST KW string (string * Value) :=
  match operation with
  | Op_Task task_id objective required payload =>
      failed "task" (execute_task pack_id token (mkTaskIntent task_id objective required payload)) ≫= λ dispatch,
      mret ("task", json_object [("route", route_value (kd_adapter_route dispatch));
                                 ("outcome", status_value (ho_status (kd_outcome dispatch)) "output" (ho_output (kd_outcome dispatch)))])
  | Op_ConnectorLegacy connector_name operation required payload =>
      failed "legacy connector"
        (execute_connector_core pack_id token (Some connector_name)
           (mkConnectorCommand connector_name operation required payload)) ≫= λ dispatch,
      mret ("connector_legacy", connector_outcome_value dispatch)
  | Op_ConnectorCore connector_name operation required payload core =>
      failed "core connector"
        (execute_connector_core pack_id token core (mkConnectorCommand connector_name operation required payload)) ≫= λ dispatch,
      mret ("connector_core", connector_outcome_value dispatch)
  | Op_ConnectorExtension connector_name operation required payload extension core =>
      failed "extension connector"
        (execute_connector_extension pack_id token extension core
           (mkConnectorCommand connector_name operation required payload)) ≫= λ dispatch,
      mret ("connector_extension", connector_outcome_value dispatch)
  | Op_RuntimeCore action required payload core =>
      failed "runtime core" (execute_runtime_core pack_id token required core (mkRuntimeCoreRequest action payload)) ≫= λ outcome,
      mret ("runtime_core", outcome_only (status_value (rco_status outcome) "payload" (rco_payload outcome)))
  | Op_RuntimeExtension action required payload extension core =>
      failed "runtime extension"
        (execute_runtime_extension pack_id token required extension core (mkRuntimeExtensionRequest action payload)) ≫= λ outcome,
      mret ("runtime_extension", outcome_only (status_value (reo_status outcome) "payload" (reo_payload outcome)))
  | Op_ToolCore tool_name required payload core =>
      failed "tool core" (execute_tool_core pack_id token required core (mkToolCoreRequest tool_name payload)) ≫= λ outcome,
      mret ("tool_core", outcome_only (status_value (tco_status outcome) "payload" (tco_payload outcome)))
  | Op_ToolExtension extension_action required payload extension core =>
      failed "tool extension"
        (execute_tool_extension pack_id token required extension core (mkToolExtensionRequest extension_action payload)) ≫= λ outcome,
      mret ("tool_extension", outcome_only (status_value (teo_status outcome) "payload" (teo_payload outcome)))
  | Op_MemoryCore operation required payload core =>
      failed "memory core" (execute_memory_core pack_id token required core (mkMemoryCoreRequest operation payload)) ≫= λ outcome,
      mret ("memory_core", outcome_only (status_value (mco_status outcome) "payload" (mco_payload outcome)))
  | Op_MemoryExtension operation required payload extension core =>
      failed "memory extension"
        (execute_memory_extension pack_id token required extension core (mkMemoryExtensionRequest operation payload)) ≫= λ outcome,
      mret ("memory_extension", outcome_only (status_value (meo_status outcome) "payload" (meo_payload outcome)))
  | Op_ToolSearch query limit include_deferred include_examples =>
      mret ("tool_search", search_outcome catalog scans translations query limit include_deferred include_examples)
  | Op_ProgrammaticToolCall caller max_calls include_intermediate allowed_connectors connector_rate_limits
      connector_circuit_breakers concurrency return_step steps =>
      execute_program pack_id token caller max_calls include_intermediate allowed_connectors connector_rate_limits
        connector_circuit_breakers concurrency return_step steps ≫= λ outcome,
      mret ("programmatic_tool_call", outcome)
  end.

(** ** The whole run *)

(** The kernel before the scenario is looked at *)
Definition spec_kernel : SpecKernel :=
  configured_builder (in_env (xh_system_clock xh)) audit_log (Some (in_env (xh_system_clock xh)))
    (Some (InMemoryAuditSink_record audit_log)) (xh_native_tool_executor xh).

(** [build_blocked_spec_run_report] with what the admission has gathered *)
Definition blocked_after_admission (spec : RunnerSpec) (a : Admission) (reason : string) : SpecRunReport :=
  build_blocked_spec_run_report (pk_pack_id (am_pack a)) (rs_agent_id spec) reason (am_guards a) (am_stage a) (am_absorbed a)
    (am_security_report a) (am_auto_provision_plan a) (am_catalog a).

Definition finished_report (spec : RunnerSpec) (a : Admission) (operation_kind : string) (outcome : Value) : SpecRunReport :=
  let guards := am_guards a in
  let stage := am_stage a in
  mkSpecRunReport (pk_pack_id (am_pack a)) (rs_agent_id spec) operation_kind None (gd_approval guards) (gd_checksum guards)
    (gd_sha256 guards) (gd_self_awareness guards) (gd_architecture guards) (ps_scan_reports stage) (ps_translations stage)
    (ps_activations stage) (ps_bootstrap_reports stage) (ps_bootstrap_queue stage) (am_absorbed a) (am_security_report a)
    (am_auto_provision_plan a) outcome (am_catalog a).

(** Registration of the pack, defaults, token and operation *)
Definition run_admitted (spec : RunnerSpec) (a : Admission) : ST KW string (string * Value) := λ '(k, w),
  let k := register_dynamic_catalog_connectors (am_catalog a) (am_connectors a) k in
  match map_err (λ error, "spec pack registration failed: " +:+ display error) (register_pack (am_pack a) k) with
  | Err reason => (Err reason, (k, w))
  | Ok k =>
      match apply_default_selection (rs_defaults spec) k with
      | Err error => (Err error, (k, w))
      | Ok k =>
          (st_map_err (λ error, "token issue for spec failed: " +:+ display error)
             (issue_token (pk_pack_id (am_pack a)) (rs_agent_id spec) (rs_ttl_s spec)) ≫= λ token,
           execute_spec_operation (pk_pack_id (am_pack a)) token (am_catalog a) (ps_scan_reports (am_stage a))
             (ps_translations (am_stage a)) (rs_operation spec)) (k, w)
      end
  end.

(** [execute_spec_with_native_tool_executor], and the events of the report *)
Definition execute_spec (host : SpecHost) (fuel : nat) (spec : RunnerSpec) (include_audit : bool) (w : W) :
    option (SpecRunReport * option (list AuditEvent) * W) :=
  let events w := if include_audit then Some (InMemoryAuditSink_snapshot audit_log w) else None in
  '(admitted, (k, w)) ← admit_spec host record_audit_event fuel spec (spec_kernel, w);
  match admitted with
  | Err report => Some (report, events w, w)
  | Ok a =>
      let '(r, (_, w)) := run_admitted spec a (k, w) in
      Some (match r with
            | Ok (operation_kind, outcome) => finished_report spec a operation_kind outcome
            | Err reason => blocked_after_admission spec a reason
            end, events w, w)
  end.
End exec.

(** ** What a run does *)
Section runs.
  Context `{SV : !Semver, !Debug string, !Debug (option string), !Debug (option Z)}.
  Context {E Engine Module Store Instance_ Func : Type} (xh : ExecHost E Engine Module Store Instance_ Func).
  Abbreviation W := (SpecWorld E Engine Module).
  Abbreviation SpecKernel := (LoongClawKernel W StaticPolicyEngine).
  Abbreviation KW := (SpecKernel * W)%type.
  Implicit Types (k : SpecKernel) (w : W).

(** *** The parts of the kernel *)

(** The clock, the sink and the extensions stay those of the builder. *)
Definition spec_parts k : Prop :=
  k_clock k = in_env (xh_system_clock xh) ∧ k_audit k = InMemoryAuditSink_record audit_log ∧
  k_policy_extensions k = PolicyExtensionChain_new.

Lemma spec_parts_interior k k' : interior k k' → spec_parts k → spec_parts k'.
Proof. by intros (p & n & -> & _). Qed.

Lemma register_default_pack (kernel : SpecKernel) :
  match register_pack default_pack_manifest kernel with Ok k => k | Err _ => kernel end = kernel ∨
  register_pack default_pack_manifest kernel = Ok (match register_pack default_pack_manifest kernel with Ok k => k | Err _ => kernel end).
Proof. destruct (register_pack _ _); auto. Qed.

Lemma spec_kernel_parts : spec_parts (spec_kernel xh).
Proof.
  unfold spec_kernel, configured_builder, configured_builder_with_default_audit. cbn [default from_option fst id].
  match goal with |- context [register_pack _ ?k0] => destruct (register_default_pack k0) as [->|(_ & _ & ->)%register_pack_Ok] end; done.
Qed.

Lemma register_dynamic_packs catalog connectors k :
  k_packs (register_dynamic_catalog_connectors xh catalog connectors k) = k_packs k.
Proof. revert k. induction connectors as [|c cs IH]; intros k; [done|]. cbn [register_dynamic_catalog_connectors foldl]. exact (IH _). Qed.

(** Choosing the defaults is a sequence of choices of one adapter. *)
Lemma apply_defaults_ind (P : SpecKernel → Prop) defaults k k' :
  (∀ n k k', set_default_core_connector_adapter n k = Ok k' ∨ set_default_core_runtime_adapter n k = Ok k' ∨
     set_default_core_tool_adapter n k = Ok k' ∨ set_default_core_memory_adapter n k = Ok k' → P k → P k') →
  apply_default_selection defaults k = Ok k' → P k → P k'.
Proof.
  intros Hstep. unfold apply_default_selection. destruct defaults as [d|]; [|by intros [= ->]].
  intros (k1 & H1 & (k2 & H2 & (k3 & H3 & H4)%bind_Ok)%bind_Ok)%bind_Ok Hk.
  assert (P k1) by (destruct (df_connector d); [apply map_err_Ok in H1; eapply Hstep; eauto|by injection H1 as <-]).
  assert (P k2) by (destruct (df_runtime d); [apply map_err_Ok in H2; eapply Hstep; eauto|by injection H2 as <-]).
  assert (P k3) by (destruct (df_tool d); [apply map_err_Ok in H3; eapply Hstep; eauto 6|by injection H3 as <-]).
  destruct (df_memory d); [apply map_err_Ok in H4; eapply Hstep; eauto 6|by injection H4 as <-].
Qed.

(** It changes the planes only. *)
Lemma set_default_elsewhere n k k' :
  set_default_core_connector_adapter n k = Ok k' ∨ set_default_core_runtime_adapter n k = Ok k' ∨
  set_default_core_tool_adapter n k = Ok k' ∨ set_default_core_memory_adapter n k = Ok k' →
  (spec_parts k → spec_parts k') ∧ k_packs k' = k_packs k.
Proof.
  unfold set_default_core_connector_adapter, set_default_core_runtime_adapter, set_default_core_tool_adapter,
    set_default_core_memory_adapter. by intros [H|[H|[H|H]]]; apply map_err_Ok, bind_Ok in H as (p & _ & [= <-]).
Qed.

(** The properties of the world that the built-in parts keep: they depend on
    what the bridges did alone. *)
Section effects.
Context (Q : BridgeEffect Engine Module → Prop).
Definition effects_are w : Prop := Forall Q (sw_effects w).

Lemma in_env_effects {A} (f : E → A * E) w : effects_are w → effects_are (in_env f w).2.
Proof. unfold in_env. by destruct (f (sw_env w)). Qed.

Lemma spec_parts_kept k : spec_parts k → adapters_keep effects_are k → env_kept effects_are k.
Proof.
  intros (Hc & Ha & Hx) Hk. split.
  - intros w. rewrite Hc. apply in_env_effects.
  - intros event w Hw. rewrite Ha. unfold InMemoryAuditSink_record. by destruct (log_poisoned _).
  - intros context w. by rewrite Hx.
  - intros r pack token w. by apply adapters_keep_call.
Qed.

(** An extension that makes one call of the core adapter *)
Lemma core_probe_keeps {Req Out X O} (core : CoreAdapter W Req Out X) request (f : Out → O) w :
  core_keeps effects_are core → effects_are w → effects_are ((core_execute core request ≫= λ out, mret (f out)) w).2.
Proof.
  intros Hc Hw. rewrite st_bind_run. specialize (Hc request w Hw). by destruct (core_execute core request w) as [[?|?] ?].
Qed.

Lemma native_tools_keep executor : core_keeps effects_are (CoreToolRuntime executor).
Proof.
  intros request w Hw. cbn. unfold maybe_execute_native_tool.
  assert (effects_are (match executor with Some executor => in_env (executor request) w | None => (None, w) end).2) as Hw1
    by (destruct executor; [by apply in_env_effects|done]).
  destruct (match executor with Some _ => _ | None => _ end) as [[?|] w1]; [done|].
  by destruct (tool_name_requires_native_tool_executor _).
Qed.

Lemma spec_kernel_adapters : adapters_keep effects_are (spec_kernel xh).
Proof.
  unfold spec_kernel, configured_builder, configured_builder_with_default_audit. cbn [default from_option fst id].
  match goal with |- context [register_pack _ ?k0] => assert (adapters_keep effects_are k0) as H0 end.
  { split; unfold register_builtin_adapters; cbn.
    { apply map_Forall_insert_2; [|apply map_Forall_empty]. intros request w Hw. cbn. by destruct (sw_seen w). }
    all: repeat first [apply plane_register_extension_adapter_keeps|apply plane_register_core_adapter_keeps|apply plane_new_keeps];
      try (by intros request w); try (by apply native_tools_keep).
    all: intros request core w Hcore Hw; cbn [ext_execute ShieldedConnectorExtension AcpBridgeRuntimeExtension
      ClawMigrationToolExtension SqlAnalyticsToolExtension VectorIndexMemoryExtension]; by apply core_probe_keeps. }
  match goal with |- context [register_pack _ ?k0] => destruct (register_default_pack k0) as [->|Hreg] end; [done|].
  by eapply adapters_keep_register_pack.
Qed.

Lemma register_dynamic_kept catalog connectors k :
  Forall (λ c, core_keeps effects_are (dynamic_adapter xh catalog c)) connectors →
  spec_parts k → adapters_keep effects_are k →
  spec_parts (register_dynamic_catalog_connectors xh catalog connectors k) ∧
  adapters_keep effects_are (register_dynamic_catalog_connectors xh catalog connectors k).
Proof.
  intros Hc. revert k. induction Hc as [|c cs Hc _ IH]; intros k Hp Hk; [done|]. cbn [register_dynamic_catalog_connectors foldl].
  apply IH; [done|]. destruct Hk. split; try done. by apply plane_register_core_adapter_keeps.
Qed.

Lemma apply_defaults_kept defaults k k' : apply_default_selection defaults k = Ok k' →
  spec_parts k → adapters_keep effects_are k → spec_parts k' ∧ adapters_keep effects_are k'.
Proof.
  intros H Hp Hk. apply (apply_defaults_ind (λ k, spec_parts k ∧ adapters_keep effects_are k) _ _ _) in H; [done| |done].
  intros n k1 k2 Hset [Hp1 Hk1]. split; [by eapply set_default_elsewhere|by eapply adapters_keep_default].
Qed.

Lemma program_keeps pack_id token caller max_calls include_intermediate allowed limits breakers concurrency return_step steps :
  keeps effects_are (execute_program xh pack_id token caller max_calls include_intermediate allowed limits breakers concurrency
                       return_step steps).
Proof.
  intros [k w] Hk Hw. unfold execute_program.
  match goal with |- context [execute_programmatic_tool_call ?json ?now ?slp ?next ?p ?t ?l ?b ?c ?ca ?m ?i ?al ?rs ?st ?s0] =>
    pose proof (workflow_safe json now slp next p t l b c ca m i al effects_are rs st s0) as Hsafe end.
  destruct (execute_programmatic_tool_call _ _ _ _ _ _ _ _ _ _ _ _ _ _ _) as [r s']. apply Hsafe; [|done| |done].
  - intros w'. apply in_env_effects.
  - intros n w'. apply in_env_effects.
Qed.

Lemma operation_keeps pack_id token catalog scans translations operation :
  keeps effects_are (execute_spec_operation xh pack_id token catalog scans translations operation).
Proof.
  assert (∀ {A B O} (f : A → O) what (m : ST KW KernelError A) (g : A → B),
    keeps effects_are (f <$> m) → keeps effects_are (failed what m ≫= λ a, mret (g a))) as Hf.
  { intros A B O f what m g Hm%keeps_fmap. apply keeps_bind; [by apply keeps_map_err|intros a; apply (keeps_lift _ (Ok _))]. }
  pose proof (keeps_execute effects_are pack_id token) as Hx.
  destruct operation; cbn [execute_spec_operation]; try apply (keeps_lift _ (Ok _)).
  - apply (Hf _ _ _ OutTask), (Hx (ReqTask _)).
  - apply (Hf _ _ _ OutConnector), (Hx (ReqConnectorCore _ _)).
  - apply (Hf _ _ _ OutConnector), (Hx (ReqConnectorCore _ _)).
  - apply (Hf _ _ _ OutConnector), (Hx (ReqConnectorExtension _ _ _)).
  - apply (Hf _ _ _ OutRuntimeCore), (Hx (ReqRuntimeCore _ _ _)).
  - apply (Hf _ _ _ OutRuntimeExtension), (Hx (ReqRuntimeExtension _ _ _ _)).
  - apply (Hf _ _ _ OutToolCore), (Hx (ReqToolCore _ _ _)).
  - apply (Hf _ _ _ OutToolExtension), (Hx (ReqToolExtension _ _ _ _)).
  - apply (Hf _ _ _ OutMemoryCore), (Hx (ReqMemoryCore _ _ _)).
  - apply (Hf _ _ _ OutMemoryExtension), (Hx (ReqMemoryExtension _ _ _ _)).
  - apply keeps_bind; [apply program_keeps|intros v; apply (keeps_lift _ (Ok _))].
Qed.

Lemma run_admitted_keeps spec a k w :
  Forall (λ c, core_keeps effects_are (dynamic_adapter xh (am_catalog a) c)) (am_connectors a) →
  spec_parts k → adapters_keep effects_are k → effects_are w → effects_are (run_admitted xh spec a (k, w)).2.2.
Proof.
  intros Hc Hp Hk Hw. unfold run_admitted.
  destruct (register_dynamic_kept (am_catalog a) (am_connectors a) k Hc Hp Hk) as [Hp1 Hk1].
  destruct (register_pack _ _) as [k1|] eqn:Hr; [|done]. cbn [map_err].
  assert (spec_parts k1 ∧ adapters_keep effects_are k1) as [Hp2 Hk2].
  { split; [|by eapply adapters_keep_register_pack]. by apply register_pack_Ok in Hr as (_ & _ & ->). }
  destruct (apply_default_selection _ k1) as [k2|] eqn:Hd; [|done].
  destruct (apply_defaults_kept _ _ _ Hd Hp2 Hk2) as [Hp3 Hk3].
  assert (keeps effects_are (st_map_err (λ error : KernelError, "token issue for spec failed: " +:+ display error)
             (issue_token (pk_pack_id (am_pack a)) (rs_agent_id spec) (rs_ttl_s spec)) ≫= λ token,
           execute_spec_operation xh (pk_pack_id (am_pack a)) token (am_catalog a) (ps_scan_reports (am_stage a))
             (ps_translations (am_stage a)) (rs_operation spec))) as Hkeep.
  { apply keeps_bind; [apply keeps_map_err, keeps_issue_token|intros token; apply operation_keeps]. }
  apply (Hkeep (k2, w)); [by apply spec_parts_kept|done].
Qed.
End effects.

(** What the bridges of an admitted scenario may do *)
Definition effect_justified (a : Admission) (effect : BridgeEffect Engine Module) : Prop :=
  ∃ connector provider channel command,
    connector ∈ am_connectors a ∧ ic_providers (am_catalog a) !! dc_provider_id connector = Some provider ∧
    (∃ key, ic_channels (am_catalog a) !! key = Some channel) ∧ ch_enabled channel = true ∧
    ch_provider_id channel = pc_provider_id provider ∧
    (let allowed := provider_allowed_callers (xh_bridge xh) provider in
     allowed = ∅ ∨ "*" ∈ allowed ∨
     ∃ caller, caller_from_payload (cc_payload command) = Some caller ∧ to_ascii_lowercase (trim caller) ∈ allowed) ∧
    effect_allowed (xh_bridge xh) (am_runtime_policy a) provider channel command effect.

(** A dynamic connector adds justified effects to the history. *)
Lemma dynamic_adapter_keeps a (Q : BridgeEffect Engine Module → Prop) connector :
  (∀ effect, effect_justified a effect → Q effect) → connector ∈ am_connectors a →
  am_connectors a = dynamic_connectors (am_catalog a) (am_runtime_policy a) →
  core_keeps (effects_are Q) (dynamic_adapter xh (am_catalog a) connector).
Proof.
  intros HQ Hin Hall command w Hw. cbn.
  destruct (invoke_core _ _ _ connector _ command (sw_cache w)) as [[outcome effects] cache] eqn:Hi. unfold effects_are. cbn.
  apply Forall_app. split; [done|]. apply Forall_forall. intros effect He. apply HQ.
  assert (dc_bridge_runtime_policy connector = am_runtime_policy a) as Hpol.
  { rewrite Hall in Hin. unfold dynamic_connectors in Hin. by apply list_elem_of_fmap in Hin as (p & -> & _). }
  destruct (connector_effects_are_authorized _ _ _ _ _ _ _ _ _ _ _ Hi He)
    as (known & provider & channel & [= <-] & Hp & Hch & Hen & Hown & Hcall & Heff).
  rewrite Hpol in Heff. by exists connector, provider, channel, command.
Qed.

(** *** Before the scenario is admitted *)

(** What no audit event changes *)
Definition untouched w0 w : Prop := sw_seen w = sw_seen w0 ∧ sw_cache w = sw_cache w0 ∧ sw_effects w = sw_effects w0.

Lemma admission_untouched host fuel spec w r k' w' :
  admit_spec host record_audit_event fuel spec (spec_kernel xh, w) = Some (r, (k', w')) →
  interior (spec_kernel xh) k' ∧ untouched w w'.
Proof.
  intros H. apply (admission_keeps host spec record_audit_event (λ s : KW, interior (spec_kernel xh) s.1 ∧ untouched w s.2)) in H;
    [done| |split; [apply interior_refl|done]].
  intros agent_id kind [k w1] [Hk Hw]. split; [eapply interior_trans; [exact Hk|apply stays_record_audit_event]|].
  destruct (spec_parts_interior _ _ Hk spec_kernel_parts) as (Hc & Ha & _). cbn [fst snd] in *.
  unfold record_audit_event. rewrite st_bind_run. unfold read_clock. rewrite Hc. unfold in_env.
  destruct (xh_system_clock xh (sw_env w1)) as [now env]. rewrite record_event_run. cbn [snd]. rewrite Ha.
  unfold InMemoryAuditSink_record. destruct (log_poisoned _); exact Hw.
Qed.

(** C28. Whatever a scenario does, an HTTP request, a child process or a
    WebAssembly module comes from the bridge of a connector of the admitted
    catalog: its provider is in the catalog and allows the caller, its channel
    is enabled and belongs to the provider, and the runtime policy of the
    scenario switches that kind of bridge on (the command of a process is on the
    allow list, a request goes to the endpoint of the channel). A scenario that
    is not admitted reaches neither the bridges nor the harness. *)
Theorem scenario_effects_are_justified host fuel spec include_audit w report events w' :
  execute_spec xh host fuel spec include_audit w = Some (report, events, w') →
  (∀ effect, effect ∈ sw_effects w' → effect ∈ sw_effects w ∨
     ∃ a s, admit_spec host record_audit_event fuel spec (spec_kernel xh, w) = Some (Ok a, s) ∧ effect_justified a effect) ∧
  ((∀ a s, admit_spec host record_audit_event fuel spec (spec_kernel xh, w) ≠ Some (Ok a, s)) → untouched w w').
Proof.
  unfold execute_spec. intros ([r [k1 w1]] & Had & H)%bind_Some.
  destruct (admission_untouched _ _ _ _ _ _ _ Had) as [Hk Hun]. pose proof Hun as (_ & _ & Heff).
  destruct r as [a|blocked]; [|injection H as _ _ <-; split; [intros effect He; left; by rewrite <-Heff|done]].
  split; [|intros Hno; by destruct (Hno a (k1, w1))]. rewrite Had.
  set (Q := λ effect, effect ∈ sw_effects w ∨ effect_justified a effect).
  assert (effects_are Q (run_admitted xh spec a (k1, w1)).2.2) as HQ.
  { pose proof (admitted_connectors _ _ _ _ _ _ _ Had) as Hall. apply run_admitted_keeps.
    - apply Forall_forall. intros c Hc. apply (dynamic_adapter_keeps a); [by right|done|done].
    - eapply spec_parts_interior; [exact Hk|apply spec_kernel_parts].
    - eapply adapters_keep_interior; [exact Hk|apply spec_kernel_adapters].
    - unfold effects_are. rewrite Heff. apply Forall_forall. by left. }
  destruct (run_admitted xh spec a (k1, w1)) as [r [k2 w2]]. injection H as _ _ <-. cbn [fst snd] in HQ.
  intros effect He. unfold effects_are in HQ. rewrite Forall_forall in HQ. destruct (HQ effect He) as [?|?]; [by left|right; eauto].
Qed.

(** *** What a finished run stands for *)

(** The call of the kernel that an operation makes, unless it is a program or a search *)
Definition operation_request (operation : OperationSpec) : option kernel_request :=
  match operation with
  | Op_Task task_id objective required payload => Some (ReqTask (mkTaskIntent task_id objective required payload))
  | Op_ConnectorLegacy connector_name op required payload =>
      Some (ReqConnectorCore (Some connector_name) (mkConnectorCommand connector_name op required payload))
  | Op_ConnectorCore connector_name op required payload core =>
      Some (ReqConnectorCore core (mkConnectorCommand connector_name op required payload))
  | Op_ConnectorExtension connector_name op required payload extension core =>
      Some (ReqConnectorExtension extension core (mkConnectorCommand connector_name op required payload))
  | Op_RuntimeCore action required payload core => Some (ReqRuntimeCore required core (mkRuntimeCoreRequest action payload))
  | Op_RuntimeExtension action required payload extension core =>
      Some (ReqRuntimeExtension required extension core (mkRuntimeExtensionRequest action payload))
  | Op_ToolCore tool_name required payload core => Some (ReqToolCore required core (mkToolCoreRequest tool_name payload))
  | Op_ToolExtension action required payload extension core =>
      Some (ReqToolExtension required extension core (mkToolExtensionRequest action payload))
  | Op_MemoryCore op required payload core => Some (ReqMemoryCore required core (mkMemoryCoreRequest op payload))
  | Op_MemoryExtension op required payload extension core =>
      Some (ReqMemoryExtension required extension core (mkMemoryExtensionRequest op payload))
  | Op_ToolSearch _ _ _ _ | Op_ProgrammaticToolCall _ _ _ _ _ _ _ _ _ => None
  end.

(** How the report shows the answer of the kernel *)
Definition outcome_value (outcome : kernel_outcome) : Value :=
  match outcome with
  | OutTask d =>
      json_object [("route", route_value (kd_adapter_route d));
                   ("outcome", status_value (ho_status (kd_outcome d)) "output" (ho_output (kd_outcome d)))]
  | OutConnector d => connector_outcome_value d
  | OutRuntimeCore o => outcome_only (status_value (rco_status o) "payload" (rco_payload o))
  | OutRuntimeExtension o => outcome_only (status_value (reo_status o) "payload" (reo_payload o))
  | OutToolCore o => outcome_only (status_value (tco_status o) "payload" (tco_payload o))
  | OutToolExtension o => outcome_only (status_value (teo_status o) "payload" (teo_payload o))
  | OutMemoryCore o => outcome_only (status_value (mco_status o) "payload" (mco_payload o))
  | OutMemoryExtension o => outcome_only (status_value (meo_status o) "payload" (meo_payload o))
  end.

Lemma failed_run {A B O} (f : A → O) what (m : ST KW KernelError A) (g : A → B) s b s' :
  (failed what m ≫= λ a, mret (g a)) s = (Ok b, s') → ∃ a, (f <$> m) s = (Ok (f a), s') ∧ b = g a.
Proof.
  intros (a & s1 & Hm%st_map_err_Ok & [= <- <-])%st_bind_Ok. exists a. split; [|done]. by rewrite st_fmap_run, Hm.
Qed.

(** An operation that is one call of the kernel is that call. *)
Lemma operation_is_its_request pack_id token catalog scans translations operation r s kind outcome s' :
  operation_request operation = Some r →
  execute_spec_operation xh pack_id token catalog scans translations operation s = (Ok (kind, outcome), s') →
  ∃ out, execute pack_id token r s = (Ok out, s') ∧ outcome = outcome_value out.
Proof.
  intros Hr H. destruct operation; try discriminate Hr; injection Hr as <-; cbn [execute_spec_operation] in H.
  all: first [eapply (failed_run OutTask) in H|eapply (failed_run OutConnector) in H|eapply (failed_run OutRuntimeCore) in H|
    eapply (failed_run OutRuntimeExtension) in H|eapply (failed_run OutToolCore) in H|eapply (failed_run OutToolExtension) in H|
    eapply (failed_run OutMemoryCore) in H|eapply (failed_run OutMemoryExtension) in H];
    destruct H as (a & H & [= -> ->]); eexists; split; [exact H|done].
Qed.

Lemma operation_kind pack_id token catalog scans translations operation s kind outcome s' :
  execute_spec_operation xh pack_id token catalog scans translations operation s = (Ok (kind, outcome), s') →
  kind = operation_approval_kind operation.
Proof.
  destruct operation; cbn [execute_spec_operation operation_approval_kind]; try (by intros [= <- _ _]);
    by intros (a & s1 & _ & [= <- _ _])%st_bind_Ok.
Qed.

(** A dispatch that succeeds was within the grants of its pack. *)
Lemma execute_within_grants pack_id token r k w out s' :
  execute pack_id token r (k, w) = (Ok out, s') →
  ∃ pack w1 w2, k_packs k !! pack_id = Some pack ∧ required_of r ⊆ pk_granted_capabilities pack ∧
    guard_of r pack = Ok () ∧ adapter_call r pack token k w1 = (Ok out, w2).
Proof.
  rewrite execute_dispatch. intros (pack & now & p & w2 & w3 & Hpack & Hg & (Hreq & _)%authorize_pack_operation_Ok & Hcall & _)%dispatch_Ok.
  by exists pack, w2, w3.
Qed.

(** What the parts of [run_admitted] did when it succeeds *)
Lemma run_admitted_Ok spec a k w kind outcome s' :
  run_admitted xh spec a (k, w) = (Ok (kind, outcome), s') →
  ∃ k1 k2 token k3 w3,
    register_pack (am_pack a) (register_dynamic_catalog_connectors xh (am_catalog a) (am_connectors a) k) = Ok k1 ∧
    apply_default_selection (rs_defaults spec) k1 = Ok k2 ∧
    issue_token (pk_pack_id (am_pack a)) (rs_agent_id spec) (rs_ttl_s spec) (k2, w) = (Ok token, (k3, w3)) ∧
    execute_spec_operation xh (pk_pack_id (am_pack a)) token (am_catalog a) (ps_scan_reports (am_stage a))
      (ps_translations (am_stage a)) (rs_operation spec) (k3, w3) = (Ok (kind, outcome), s').
Proof.
  unfold run_admitted. destruct (register_pack _ _) as [k1|] eqn:Hr; cbn [map_err]; [|done].
  destruct (apply_default_selection _ k1) as [k2|] eqn:Hd; [|done].
  intros (token & [k3 w3] & Ht%st_map_err_Ok & Hop)%st_bind_Ok. by exists k1, k2, token, k3, w3.
Qed.

(** C29. A report that is not blocked stands for a governed run. The scenario was
    admitted; its pack is valid and was not registered before; the operation ran
    in the kernel with the connectors of the admitted catalog and the defaults of
    the scenario, with a token for that pack and agent that carries no more than
    the pack grants. If the operation is one call of the kernel, the pack grants
    the capabilities that it requires and lists its connector, and the outcome in
    the report is the answer of the adapter. *)
Theorem finished_scenario_was_governed host fuel spec include_audit w report events w' :
  execute_spec xh host fuel spec include_audit w = Some (report, events, w') → rn_blocked_reason report = None →
  ∃ a s k1 k2 token,
    admit_spec host record_audit_event fuel spec (spec_kernel xh, w) = Some (Ok a, s) ∧
    VerticalPackManifest_validate (am_pack a) = Ok () ∧ k_packs (spec_kernel xh) !! pk_pack_id (am_pack a) = None ∧
    register_pack (am_pack a) (register_dynamic_catalog_connectors xh (am_catalog a) (am_connectors a) s.1) = Ok k1 ∧
    apply_default_selection (rs_defaults spec) k1 = Ok k2 ∧
    tok_pack_id token = pk_pack_id (am_pack a) ∧ tok_agent_id token = rs_agent_id spec ∧
    tok_allowed_capabilities token ⊆ pk_granted_capabilities (am_pack a) ∧
    rn_operation_kind report = operation_approval_kind (rs_operation spec) ∧
    ∀ r, operation_request (rs_operation spec) = Some r →
      required_of r ⊆ pk_granted_capabilities (am_pack a) ∧ guard_of r (am_pack a) = Ok () ∧
      ∃ k3 w1 w2 out, interior k2 k3 ∧ adapter_call r (am_pack a) token k3 w1 = (Ok out, w2) ∧
        rn_outcome report = outcome_value out.
Proof.
  unfold execute_spec. intros ([r [k w1]] & Had & H)%bind_Some Hb.
  destruct r as [a|blocked]; [|by injection H as <- _ _; destruct (admission_blocked _ _ _ _ _ _ _ Had)].
  destruct (run_admitted xh spec a (k, w1)) as [[[kind outcome]|reason] [k4 w4]] eqn:Hrun;
    injection H as <- _ _; [|done].
  apply run_admitted_Ok in Hrun as (k1 & k2 & token & k3 & w3 & Hreg & Hdef & Htok & Hop).
  pose proof Hreg as (Hval & Hnew & Hk1)%register_pack_Ok.
  assert (k_packs k2 !! pk_pack_id (am_pack a) = Some (am_pack a)) as Hpack.
  { apply (apply_defaults_ind (λ k, k_packs k !! pk_pack_id (am_pack a) = Some (am_pack a)) _ _ _) in Hdef; [done| |].
    - intros n k5 k6 Hset. by destruct (set_default_elsewhere n k5 k6 Hset) as [_ ->].
    - rewrite Hk1. apply lookup_insert_eq. }
  pose proof (stays_issue_token (pk_pack_id (am_pack a)) (rs_agent_id spec) (rs_ttl_s spec) (k2, w1)) as Hint.
  rewrite Htok in Hint. cbn [fst snd] in Hint.
  apply issue_token_Ok in Htok as (pack & now & w2 & p & Hp & _ & Hiss & _). rewrite Hpack in Hp. injection Hp as <-.
  apply pe_issue_token_sound in Hiss as (Ht1 & Ht2 & _ & Ht4).
  exists a, (k, w1), k1, k2, token. split_and!; try done.
  - destruct (admission_untouched _ _ _ _ _ _ _ Had) as [(? & ? & -> & _) _]. by rewrite register_dynamic_packs in Hnew.
  - by apply operation_kind in Hop.
  - intros r Hr. destruct (operation_is_its_request _ _ _ _ _ _ _ _ _ _ _ Hr Hop) as (out & Hx & ->).
    apply execute_within_grants in Hx as (pack & w5 & w6 & Hp & Hreq & Hg & Hcall).
    assert (pack = am_pack a) as -> by (destruct Hint as (? & ? & -> & _); cbn in Hp; congruence).
    split_and!; [done..|]. by exists k3, w5, w6, out.
Qed.
End runs.

(** A scenario whose plugin starts a process *)
Module SpecExecDemo.
#[local] Instance demo_semver : Semver := λ v, bool_decide (v = "1.0.0").
#[local] Instance debug_string : Debug string := λ s, s.
#[local] Instance debug_opt_string : Debug (option string) := λ o, default "None" o.
#[local] Instance debug_opt_Z : Debug (option Z) := λ o, match o with Some z => display z | None => "None" end.

Definition manifest : PluginManifest :=
  mkPluginManifest "notes" "notes" "notes" (Some "primary") None {[InvokeConnector]}
    (<["bridge_kind" := "stdio"]> (<["command" := "/usr/bin/node"]> ∅)) None [] [] [] false.
Definition host : SpecHost :=
  mkSpecHost SpecBridgeDemo.paths (mkSignatureLib (λ _, Err "") (λ _, Err "") (λ _ _ _, Err "")) (λ _, Err "") (λ _, None)
    (λ _, "") PluginDemo.tree (λ _, Ok manifest) (λ s, s) (λ _, None) (λ _, None) 7
    (mkSiemFile (λ _, Ok ()) (λ _, Ok ()) (λ _, Ok ()) (Ok ())).
Definition answering : Child :=
  mkChild true true (λ _, Some (Ok ())) (Some (Ok ()))
    (Some (Ok (Some (mkInboundFrame "tools/call" (Some "notes:primary:sync") (json_str "done") 1))))
    (Some (Ok (mkExitStatus true (Some 0%Z)))) (Ok "").
Definition exec_host : ExecHost unit unit string unit unit unit :=
  mkExecHost _ _ _ _ _ _ (λ e, (7%Z, e)) None (λ e, (0%Z, e)) (λ _ e, e) (λ _ e, (0%nat, e))
    (mkJsonLib (λ _ _, None) (λ _, "") (λ _ _, false))
    (λ _, None) SpecBridgeDemo.wasmtime SpecBridgeDemo.digest (SpecBridgeDemo.bridge_host answering).
Definition world : SpecWorld unit unit string :=
  mkSpecWorld EventLog_default (Some []) (mkCacheCell 32 1000 false WasmModuleCache_default) [] ().
Definition spec : RunnerSpec :=
  mkRunnerSpec IntegrationDemo.pack "agent" 60 None None None (Some (mkPluginScanSpec true ["root"]))
    (Some SpecRunDemo.bridge) None None [] (Op_ConnectorCore "notes" "sync" {[InvokeConnector]} JNull (Some "notes")).
Definition run := execute_spec exec_host host 2 spec false world.

Definition seen (r : option (SpecRunReport * option (list AuditEvent) * SpecWorld unit unit string)) :
    option (option string * option (BridgeEffect unit string)) :=
  match r with Some (report, _, w) => Some (rn_blocked_reason report, head (sw_effects w)) | None => None end.
Lemma seen_Some r reason effect : seen r = Some (reason, Some effect) →
  ∃ report events w, r = Some (report, events, w) ∧ rn_blocked_reason report = reason ∧ effect ∈ sw_effects w.
Proof.
  destruct r as [[[report events] w]|]; [|done]. cbn. destruct (sw_effects w) as [|x l] eqn:E; [done|].
  intros [= <- <-]. exists report, events, w. rewrite E. split_and!; [done..|by left].
Qed.

Lemma run_seen : seen run = Some (None, Some (Effect_Process (ChildSpawned "/usr/bin/node" []))).
Proof. by vm_compute. Qed.

Lemma effects_witness : ∃ a s command provider channel,
  admit_spec host record_audit_event 2 spec (spec_kernel exec_host, world) = Some (Ok a, s) ∧ ch_enabled channel = true ∧
  effect_allowed (Engine := unit) (Module := string) (xh_bridge exec_host) (am_runtime_policy a) provider channel command
    (Effect_Process (ChildSpawned "/usr/bin/node" [])).
Proof.
  destruct (seen_Some run _ _ run_seen) as (report & events & w & E & _ & Heff). unfold run in E.
  destruct (scenario_effects_are_justified exec_host host 2 spec false world report events w E) as [H _].
  pose proof (H _ Heff) as H1. clear H. destruct H1 as [Hin|H1]; [destruct (not_elem_of_nil _ Hin)|].
  destruct H1 as (a & s & H1). destruct H1 as (Had & Hj).
  destruct Hj as (connector & provider & channel & command & _ & _ & _ & Hen & _ & _ & Heffect).
  exists a, s, command, provider, channel. split_and!; [exact Had|exact Hen|exact Heffect].
Defined.

Lemma governed_witness : ∃ a s,
  admit_spec host record_audit_event 2 spec (spec_kernel exec_host, world) = Some (Ok a, s) ∧
  InvokeConnector ∈ pk_granted_capabilities (am_pack a) ∧ VerticalPackManifest_allows_connector (am_pack a) "notes" = true.
Proof.
  destruct (seen_Some run _ _ run_seen) as (report & events & w & E & Hb & _). unfold run in E.
  destruct (finished_scenario_was_governed exec_host host 2 spec false world report events w E Hb)
    as (a & s & k1 & k2 & token & Had & _ & _ & _ & _ & _ & _ & _ & _ & H).
  destruct (H _ eq_refl) as (Hreq & Hg & _). exists a, s. split; [exact Had|]. split.
  { apply Hreq. cbn [required_of cc_required_capabilities]. by apply elem_of_singleton. }
  cbn [guard_of cc_connector_name] in Hg. unfold assert_connector_allowed in Hg.
  by destruct (VerticalPackManifest_allows_connector (am_pack a) "notes").
Defined.
End SpecExecDemo.
